(* ===== verification/_CoqProject ===== *)
-Q . S2P
Prelude.v
JsNumber.v
JsString.v
JsDate.v
JsMap.v
IsoDate.v
Money.v
Fx.v
Events.v
Invoice.v
Receivable.v
LateFee.v
PaymentPlan.v
Payment.v
Intake.v
Matching.v
Allocation.v
Strategies.v
AllocationEngine.v
AdjustmentEvents.v
Refund.v
CreditBalance.v
CreditNote.v
Accounts.v
Journal.v
LedgerReconciliation.v
JsJson.v
AuditRedact.v
AuditJson.v
AuditRecord.v
AuditChain.v
AuditTrail.v
Dispute.v
Promise.v
Dunning.v
ApprovalPolicy.v
ApprovalRequest.v
PaymentLink.v
WebhookEndpoint.v
WebhookSigning.v
WebhookDelivery.v
Corridor.v
CrossborderQuote.v
TransferIntent.v
CollectionsCase.v
Consent.v
Etims.v
PolicyRules.v
PolicyEngine.v
UssdMenu.v
UssdFlows.v
UssdSession.v
StkPush.v
StkAudit.v
AuthRoles.v
AuthAssignments.v
AuthUser.v
AuthGuard.v
CommsConversation.v
CommsDelivery.v
CommsTemplates.v
EventCatalog.v
Outbox.v
AgingSnapshot.v
Segments.v
CollectionsProjection.v
Effectiveness.v
MemoryClaims.v
MemorySnapshot.v
MemoryExposure.v
MemoryDiff.v
AgentFacts.v
AgentState.v
AgentPriorities.v
AgentRecommendations.v
