(* ===== verification/Prelude.v ===== *)
(** * Fuatilia: a verification development of the financial domain kernel

    Fuatilia is an accounts-receivable and collections system.  Its core is a
    pure TypeScript library, src/src/domain, split into lanes (shared,
    receivables, payments, allocation, adjustments, ledger, ...) that exchange
    only ids, [Money] values and events; adapters, the HTTP surface, the frontend
    and the Go services call it.  This development models the lanes that move money,
    decide who may act, talk to customers and report on portfolios, and proves what
    makes them correct.  The paths below are relative to
    src/src/domain.

    ** How the program is modelled

    A function that can throw returns [result A]: [Ok a], or [Err e] with the
    code of the [DomainError] (messages and details are not modelled), the
    engine's [RangeError], or a plain [Error].  A guard
    [if (P) throw new DomainError(c)] is written [refuse P with c ;; ...], in
    the source's order.  Aggregates are records, updated by [r <| f := v |>] as
    the source spreads [{ ...r, f: v }].  Bigints are [Z]; JavaScript numbers are
    IEEE doubles (JsNumber.v, on the Standard Library's [SpecFloat]); a Date is its
    time value in milliseconds with a proleptic Gregorian calendar (JsDate.v); a
    string is a list of Latin-1 code units (JsString.v).  The injected clock is
    the stream of its readings: [clock i] is what the call's [i]-th reading
    returns, so that a function reading the clock twice may see two times.
    Callers' stores and event logs are lists; what callers may do is a step
    relation per component.  The parameters are the engine's date parser on strings
    that already have the ISO shape ([date_parses] where only its success matters,
    [Date_parse] where its value does, with the class [DateParser] saying that it reads
    what [toISOString] prints), the collation of [localeCompare] (class [Collation]), the
    injected hash port of the audit chain ([hash]), the digest port of the webhook
    signatures ([digest]), the sequence source of the invoice numbers, the wire port of
    the STK lane, the read-only ports of the USSD flows, the secret codec of
    authentication (class [CodecLaws]), the messaging provider, and the engine's text for
    members an object inherits ([nativeText]).

    ** Files

    - Prelude.v: results, guards, record update, sums, stable sorting, tactics,
      the hint database [fuatilia].  JsNumber.v, JsString.v, JsDate.v, JsMap.v, IsoDate.v: the
      parts of JavaScript the code uses, with exactness, printing and calendar lemmas;
      IsoDate.v has a parser of ISO instants and proves that their string order is
      their order in time.
    - Money.v, Fx.v: shared/money.ts and shared/fx.ts.  Allocation by largest
      remainder is exact for integer weights (and not for fractional ones);
      conversion rounds to nearest even; gain or loss at settlement is exact.
    - Events.v, Invoice.v, Receivable.v, LateFee.v, PaymentPlan.v: the receivables
      lane.  Reachable invoices, receivables and plans satisfy their invariants,
      allocation is specified branch by branch, fees are charged once per period
      and within policy, schedules are cent-exact on calendar months.
    - Payment.v, Intake.v, Matching.v: the payments lane.  Confirmed funds are
      never overdrawn, intake absorbs replays and keeps the store free of
      duplicates, the match decision returns exactly the matching invoices.
    - Allocation.v, Strategies.v, AllocationEngine.v: the allocation lane.  The
      class [Strategy] is the contract between strategies and engine; each
      strategy is an instance, on its domain.  The conservation theorem uses the contract
      only; that a source is never over-allocated rests on the engine's own re-check and
      holds for every plan.
    - AdjustmentEvents.v, Refund.v, CreditBalance.v, CreditNote.v: the adjustments
      lane: the refund machine is exactly the documented one, notes are never
      over-used, balances never negative, and routing between the two conserves
      value.
    - Accounts.v, Journal.v, LedgerReconciliation.v: the ledger lane: every entry
      balances, posting is idempotent, corrections net to zero, and the daily job
      decides whether sub-ledger and general ledger agree.
    - JsJson.v, AuditRedact.v, AuditJson.v, AuditRecord.v, AuditChain.v,
      AuditTrail.v: the audit lane.  JsJson.v has dynamic values and how numbers and
      strings print; redaction strips exactly the forbidden members; canonical JSON
      determines a value up to member order; the sink keeps its trail clean and
      append-only; trails grown through the append path verify, and two verified
      trails with one head agree record by record (the snapshots after redaction and up
      to member order) or two corresponding records collide under the hash.
    - Dispute.v: the disputes lane: exclusivity of the registry, and the collections
      pause as a refinement of the emitted events.
    - Promise.v, Dunning.v: the promises lane: the promise machine is exactly the
      transition table, settlements cover exactly what was promised, and dunning
      never repeats a step nor sends a gated one without consent.
    - ApprovalPolicy.v, ApprovalRequest.v: the approvals lane: evaluation answers with
      the one governing policy whatever the order of the set, and the request's
      operations are exactly the maker-checker rules, so that every evidence bundle
      stands for a quorum of distinct checkers other than the maker.
    - PaymentLink.v: the payment-link lane: links never collect more than their terms
      allow, a redemption is accepted exactly when it should be and happens once.
    - WebhookEndpoint.v, WebhookSigning.v, WebhookDelivery.v: the webhooks lane: the URL
      validator and the subscription matcher against their grammars, signatures that bind
      one message, and a queue that never double-sends and always comes to an end.
    - Corridor.v, CrossborderQuote.v, TransferIntent.v: the cross-border lane: validated
      rate tables are unambiguous, issued quotes reconcile and convert at the rate of an
      effective row of their table, and an intent goes to a rail
      at most once and settles the legs of the quote it froze.
    - CollectionsCase.v: the collections lane: at most one open case per receivable, as
      the emitted events tell it, append-only case logs, the consent gate of the actions.
    - Consent.v, Etims.v: the consent lane: the contact guard decides exactly on any rows,
      contact follows a register in which revoked rows replace granted ones, the trail export is complete, and invoice numbers round-trip with the exact strength of
      their check character.
    - PolicyRules.v, PolicyEngine.v: the policy lane: every request gets the decision of
      the pre-guards and of the first matching rule by priority, fail-closed.
    - UssdMenu.v, UssdFlows.v, UssdSession.v: the USSD lane: a menu is accepted exactly
      when it is usable, flows answer on every behaviour of their ports, sessions end and
      stay within the menu, the screen budget and their horizon.
    - StkPush.v, StkAudit.v: collect-now pushes: an attempt reaches the rail once, through
      consent and policy, late results still land, and the audit projection covers the
      lane's events.
    - AuthRoles.v, AuthAssignments.v, AuthUser.v, AuthGuard.v: authentication and
      authorization: granting never adds authority, the decision is exactly the roles of
      the live grants, suspension cuts every session, keys authenticate what was issued.
    - CommsConversation.v, CommsDelivery.v, CommsTemplates.v: communications: automated
      sends need a granted reference, deliveries follow the retry ladder and end, rendering
      replaces the placeholders of well-formed bodies and copies the rest.
    - EventCatalog.v, Outbox.v: the envelope validator against the catalogue, lossless
      payloads, and the outbox whose consumers get every event in order.
    - AgingSnapshot.v, Segments.v, CollectionsProjection.v, Effectiveness.v: the
      projections: snapshots equal their reference definitions and add up, segmentation
      is the decision matrix, projected bands are ordered and bounded.
    - MemoryClaims.v, MemorySnapshot.v, MemoryExposure.v, MemoryDiff.v: financial memory:
      claims depend only on the facts up to their instant and name them as evidence, the
      exposure is what is owed, and a comparison reports exactly the threshold crossings.
    - AgentFacts.v, AgentState.v, AgentPriorities.v, AgentRecommendations.v: the agent
      lane: queries are answered exactly on valid facts, every figure is that of the
      supplied facts and all evidence resolves to them, the ranking is the documented order
      whatever the order of supply, and advice is the first rule of the matrix that applies.

    ** Bounds

    Fuel is needed by digit printing (the number's bit length, proved enough in
    JsString.v), the searches of the menu validator (the number of nodes), and the
    placeholder scans (the length of the text), each proved enough in its file.  Printing a double tries one to seventeen
    digits.  Weight-based allocation is exact while
    the weights sum below 2^53 / 5^9, where each weight times 10^9 is a double;
    events carry amounts up to [MAX_SAFE_INTEGER], beyond which the code refuses
    and so does the model; calendar theorems hold from the year 100 on, because
    [Date.UTC] maps the years 0 to 99 elsewhere.

    ** Not modelled

    Error messages, refusal details, the constant event version, [Object.freeze] (all
    values are immutable here), code units above Latin-1, invalid dates beyond
    the guards that test for them, cyclic snapshots and members named
    [__proto__]; [typeof] and [instanceof] checks that a value of a declared type cannot
    fail; texts composed for people (reasons, assumptions, details), which are data types
    or left out.  The scoring lanes (behaviour, intelligence, next best action), weighted
    heuristics over statistics, are not modelled; adapters, HTTP, frontend,
    SQL and the Go services are I/O around the core. *)

From stdpp Require Import prelude strings list sorting.
From Stdlib Require Import ZArith Lia Permutation.

(** ** Errors and results

    [DomainError] of src/domain/shared/errors.ts carries a stable machine code;
    the human message and the [details] bag are not modelled.  A JavaScript
    engine can also raise its own [RangeError] (bigint division by zero,
    [BigInt] of a non-integer, an invalid array length), and the [uuid] brand
    constructor throws a plain [Error]. *)

Inductive error :=
| DomainError (code : string)
| RangeError
| PlainError.

#[export] Instance error_eq_dec : EqDecision error.
Proof. solve_decision. Defined.

Inductive result (A : Type) :=
| Ok (a : A)
| Err (e : error).
Arguments Ok {A} a.
Arguments Err {A} e.

#[export] Instance result_ret : MRet result := fun A a => Ok a.
#[export] Instance result_bind : MBind result := fun A B f r =>
  match r with Ok a => f a | Err e => Err e end.
Arguments result_bind {A B} f !r /.

#[export] Instance result_eq_dec {A} `{EqDecision A} : EqDecision (result A).
Proof. solve_decision. Defined.

Definition is_ok {A} (r : result A) : bool :=
  match r with Ok _ => true | Err _ => false end.

(** The call was refused with an error of the domain. *)
Definition refused {A} (r : result A) : Prop :=
  match r with Err (DomainError _) => True | _ => False end.

#[export] Instance Ok_inj {A} : Inj (=) (=) (@Ok A).
Proof. intros x y H. by injection H. Qed.

Declare Scope js_scope.
Delimit Scope js_scope with js.

(** [refuse P with c ;; k] is the source's
    [if (P) throw new DomainError(c, ...); k]. *)
Notation "'refuse' P 'with' c ';;' k" :=
  (if decide P then Err (DomainError c) else k)
  (at level 200, P at level 99, c at level 9, k at level 200,
   format "'[v' 'refuse'  P  'with'  c  ';;' '/' k ']'") : js_scope.

(** [for (const x of xs) ...] with an accumulator and early throws. *)
Fixpoint foldM {A B} (f : B -> A -> result B) (b : B) (l : list A) : result B :=
  match l with
  | [] => Ok b
  | x :: l' => b' ← f b x; foldM f b' l'
  end.

(** [xs.map(f)] where [f] can throw. *)
Fixpoint traverse {A B} (f : A -> result B) (l : list A) : result (list B) :=
  match l with
  | [] => Ok []
  | x :: l' => y ← f x; ys ← traverse f l'; Ok (y :: ys)
  end.

(** [xs.map((x, i) => f(x, i))] where [f] can throw. *)
Fixpoint traversei_from {A B} (i : nat) (f : nat -> A -> result B) (l : list A)
  : result (list B) :=
  match l with
  | [] => Ok []
  | x :: l' => y ← f i x; ys ← traversei_from (S i) f l'; Ok (y :: ys)
  end.
Notation traversei := (traversei_from 0).

Lemma bind_Ok {A B} (f : A -> result B) (r : result A) b :
  (r ≫= f) = Ok b <-> exists a, r = Ok a /\ f a = Ok b.
Proof. destruct r; cbn; naive_solver. Qed.

Lemma guard_Ok {P : Prop} `{Decision P} code {A} (k : result A) a :
  (if decide P then Err (DomainError code) else k) = Ok a <-> ~ P /\ k = Ok a.
Proof. case_decide; naive_solver. Qed.

Lemma is_ok_true {A} (r : result A) : is_ok r = true <-> exists a, r = Ok a.
Proof. destruct r; naive_solver. Qed.

Lemma refused_code {A} (r : result A) : refused r <-> exists code, r = Err (DomainError code).
Proof. destruct r as [|[]]; naive_solver. Qed.

(** ** Record update: [r <| field := value |>], the source's [{ ...r, field: value }] *)

Class Eta (R : Type) := eta : R -> R.
Class Upd {R T : Type} (field : R -> T) := upd : (R -> T) -> R -> R.
#[global] Hint Mode Eta ! : typeclass_instances.

Ltac solve_upd :=
  match goal with
  | |- @Upd ?R ?T ?field =>
      let inst := constr:(_ : Eta R) in
      let e := eval hnf in inst in
      match (eval pattern field in e) with
      | ?f _ => exact f
      end
  end.
#[export] Hint Extern 1 (Upd _) => solve_upd : typeclass_instances.

Notation "r '<|' f ':=' v '|>'" := (upd (field := f) (fun _ => v) r)
  (at level 12, left associativity, f at level 9, v at level 200,
   format "r  '<|' f  ':='  v '|>'") : js_scope.
Global Arguments upd {R T} field {_} _ _ /.

Open Scope js_scope.
Open Scope Z_scope.

(** ** Tactics *)

(** Split every premise [... = Ok _] produced by the monadic definitions into
    the guards that were passed and the values that were bound. *)
Ltac step_ok :=
  match goal with
  | H : mbind _ _ = Ok _ |- _ =>
      let a := fresh "v" in let E := fresh "E" in
      apply bind_Ok in H as (a & E & H)
  | H : Err _ = Ok _ |- _ => discriminate H
  | H : Ok _ = Err _ |- _ => discriminate H
  | H : Ok _ = Ok _ |- _ => apply (inj Ok) in H
  | H : (_, _) = (_, _) |- _ =>
      let H' := fresh H in apply pair_equal_spec in H as [H' H]
  | H : (if decide ?P then Err _ else _) = Ok _ |- _ =>
      let N := fresh "N" in destruct (decide P) as [N|N]; [discriminate H|]
  | H : (if decide ?P then _ else Err _) = Ok _ |- _ =>
      let N := fresh "N" in destruct (decide P) as [N|N]; [|discriminate H]
  | H : ~ ~ ?P |- _ => apply dec_stable in H
  | H : mret _ = Ok _ |- _ => unfold mret, result_ret in H
  end.
Ltac invert_ok := repeat (step_ok; simpl in *; subst).

(** Case analysis on the next guard of a goal. *)
Ltac split_guard :=
  match goal with
  | |- context [@decide ?P ?D] =>
      let G := fresh "G" in destruct (@decide P D) as [G|G]
  end.

Ltac destruct_ands :=
  repeat match goal with
  | H : _ /\ _ |- _ => destruct H
  | H : exists _, _ |- _ => destruct H
  end.

(** ** Sums *)

Definition sumZ (l : list Z) : Z := foldr Z.add 0 l.

Lemma sumZ_nil : sumZ [] = 0.
Proof. done. Qed.

Lemma sumZ_cons x l : sumZ (x :: l) = x + sumZ l.
Proof. done. Qed.

Arguments sumZ : simpl never.

Lemma sumZ_app l1 l2 : sumZ (l1 ++ l2) = sumZ l1 + sumZ l2.
Proof. induction l1 as [|x l1 IH]; simpl; [done|]. rewrite !sumZ_cons, IH. lia. Qed.

Lemma sumZ_snoc l x : sumZ (l ++ [x]) = sumZ l + x.
Proof. rewrite sumZ_app, sumZ_cons, sumZ_nil. lia. Qed.

Lemma sumZ_fmap_snoc {A} (f : A -> Z) l x : sumZ (f <$> (l ++ [x])) = sumZ (f <$> l) + f x.
Proof. rewrite fmap_app. apply sumZ_snoc. Qed.

#[export] Instance sumZ_perm : Proper ((≡ₚ) ==> (=)) sumZ.
Proof. intros l1 l2 H. induction H; rewrite ?sumZ_cons in *; lia. Qed.

Lemma sumZ_nonneg l : Forall (fun x => 0 <= x) l -> 0 <= sumZ l.
Proof. induction 1; [done|]. rewrite sumZ_cons. lia. Qed.

Lemma sumZ_pointwise {A} (f g : A -> Z) l :
  Forall (fun x => f x <= g x) l -> sumZ (f <$> l) <= sumZ (g <$> l).
Proof. induction 1; [done|]. rewrite !fmap_cons, !sumZ_cons. lia. Qed.

Lemma sumZ_replicate n x : sumZ (replicate n x) = Z.of_nat n * x.
Proof. induction n as [|n IH]; simpl replicate; [done|]. rewrite sumZ_cons, IH. lia. Qed.

Lemma sumZ_elem_le l x : Forall (fun y => 0 <= y) l -> x ∈ l -> x <= sumZ l.
Proof.
  induction 1 as [|y l Hy Hl IH]; intros Hx; [by apply not_elem_of_nil in Hx|].
  pose proof (sumZ_nonneg _ Hl). rewrite sumZ_cons.
  apply elem_of_cons in Hx as [->|Hx]; [lia|]. specialize (IH Hx). lia.
Qed.

Lemma sumZ_filter_positive {A} (f : A -> Z) l : Forall (fun x => 0 <= f x) l ->
  sumZ (f <$> List.filter (fun x => 0 <? f x) l) = sumZ (f <$> l).
Proof.
  induction 1 as [|x l Hx Hl IH]; [done|]. rewrite fmap_cons, sumZ_cons. simpl List.filter.
  destruct (Z.ltb_spec 0 (f x)); [rewrite fmap_cons, sumZ_cons|]; lia.
Qed.

Lemma filter_sublist {A} (f : A -> bool) (l : list A) : List.filter f l `sublist_of` l.
Proof. induction l as [|x l IH]; cbn; [constructor|]. by destruct (f x); constructor. Qed.

Lemma elem_of_filter_bool {A} (f : A -> bool) l x : x ∈ List.filter f l <-> x ∈ l /\ f x = true.
Proof. by rewrite !list_elem_of_In, filter_In. Qed.

Lemma filter_snoc {A} (f : A -> bool) l x : List.filter f (l ++ [x]) = List.filter f l ++ (if f x then [x] else []).
Proof. rewrite List.filter_app. cbn. by destruct (f x). Qed.

Lemma find_None_iff {A} (f : A -> bool) l : List.find f l = None <-> forall x, x ∈ l -> f x = false.
Proof.
  split; [intros H x Hx; apply (find_none f l H); by apply list_elem_of_In|].
  induction l as [|y l IH]; intros H; [done|]. cbn. rewrite (H y) by left. apply IH. intros x Hx. apply H. by right.
Qed.

Lemma filter_nil_iff {A} (f : A -> bool) l : List.filter f l = [] <-> forall x, x ∈ l -> f x = false.
Proof.
  induction l as [|a l IH]; cbn; [split; [intros _ x Hx; by apply elem_of_nil in Hx|done]|]. destruct (f a) eqn:E.
  - split; [done|]. intros H. rewrite H in E by left. done.
  - rewrite IH. split; [intros H x Hx; apply elem_of_cons in Hx as [->|Hx]; auto|intros H x Hx; apply H; by right].
Qed.

Lemma find_app_some {A} (f : A -> bool) l l' x : List.find f l = Some x -> List.find f (l ++ l') = Some x.
Proof. induction l as [|y l IH]; cbn; [done|]. by destruct (f y). Qed.

Lemma NoDup_snoc_2 {A} (l : list A) x : x ∉ l -> NoDup l -> NoDup (l ++ [x]).
Proof. intros Hx Hl. apply NoDup_app. split; [done|]. split; [|apply NoDup_singleton]. by intros y Hy ->%list_elem_of_singleton. Qed.

Lemma Forall_snoc_2 {A} (P : A -> Prop) l x : P x -> Forall P l -> Forall P (l ++ [x]).
Proof. intros Hx Hl. apply Forall_app. split; [done|]. by constructor. Qed.

(** Distinct keys identify the elements. *)
Lemma NoDup_fmap_elem {A K} (key : A -> K) (l : list A) a b :
  NoDup (key <$> l) -> a ∈ l -> b ∈ l -> key a = key b -> a = b.
Proof.
  intros Hnd [i Hi]%list_elem_of_lookup [j Hj]%list_elem_of_lookup E.
  assert (i = j) as ->; [|congruence].
  eapply (NoDup_lookup (key <$> l)); [done|rewrite list_lookup_fmap, Hi; done|].
  rewrite list_lookup_fmap, Hj. cbn. by rewrite E.
Qed.

#[export] Instance List_filter_perm {A} (f : A -> bool) : Proper ((≡ₚ) ==> (≡ₚ)) (List.filter f).
Proof.
  intros l l' H. induction H as [|x l l' H IH|x y l|l l' l'' H1 IH1 H2 IH2]; cbn; try done.
  - by destruct (f x); rewrite IH.
  - destruct (f x), (f y); try done. apply Permutation_swap.
  - by etrans.
Qed.

Create HintDb fuatilia.
#[export] Hint Rewrite sumZ_nil sumZ_cons sumZ_app sumZ_snoc @sumZ_fmap_snoc sumZ_replicate : fuatilia.
#[export] Hint Resolve sumZ_nonneg : fuatilia.

Lemma imap_seq {A B} (f : nat -> A -> B) (g : nat -> A) n :
  imap f (g <$> seq 0 n) = (fun i => f i (g i)) <$> seq 0 n.
Proof.
  apply list_eq. intros i. rewrite list_lookup_imap, !list_lookup_fmap.
  destruct (decide (i < n)%nat).
  - by rewrite lookup_seq_lt by lia.
  - by rewrite lookup_seq_ge by lia.
Qed.

(** ** Boolean quantifiers *)

Lemma forallb_seqZ f a n x : forallb f (seqZ a n) = true -> a <= x < a + n -> f x = true.
Proof. intros H Hx. rewrite forallb_forall in H. apply H. apply list_elem_of_In, elem_of_seqZ. done. Qed.

Lemma forallb_Forall {A} (f : A -> bool) l :
  forallb f l = true <-> Forall (fun x => f x = true) l.
Proof.
  rewrite forallb_forall, Forall_forall. by setoid_rewrite list_elem_of_In.
Qed.

(** ** Monadic folds over lists *)

Lemma traverse_Forall2 {A B} (f : A -> result B) l l' :
  traverse f l = Ok l' <-> Forall2 (fun x y => f x = Ok y) l l'.
Proof.
  revert l'. induction l as [|x l IH]; intros l'; cbn; split; intros H.
  - invert_ok. constructor.
  - by inversion H.
  - invert_ok. constructor; [done|]. by apply IH.
  - inversion H as [|? y ? ys Hy Hys]; subst. rewrite Hy. cbn.
    apply IH in Hys. by rewrite Hys.
Qed.

Lemma traversei_from_Forall2 {A B} (f : nat -> A -> result B) i l l' :
  traversei_from i f l = Ok l' ->
  length l' = length l /\
  forall k x y, l !! k = Some x -> l' !! k = Some y -> f (i + k)%nat x = Ok y.
Proof.
  revert i l'. induction l as [|x l IH]; intros i l' H; cbn in H.
  - invert_ok. split; [done|]. intros k ? ? Hk. by rewrite lookup_nil in Hk.
  - invert_ok. destruct (IH _ _ E0) as [Hlen Hf]. split; [simpl; lia|].
    intros [|k] x' y' Hx Hy; cbn in *.
    + rewrite Nat.add_0_r. congruence.
    + rewrite Nat.add_succ_r. apply (Hf k); done.
Qed.

Lemma foldM_invariant {A B} (P : B -> Prop) (f : B -> A -> result B) l b b' :
  (forall b x b', P b -> x ∈ l -> f b x = Ok b' -> P b') ->
  P b -> foldM f b l = Ok b' -> P b'.
Proof.
  revert b. induction l as [|x l IH]; intros b Hstep Hb H; cbn in H; invert_ok; [done|].
  eapply IH; [| |done].
  - intros; eapply Hstep; [done| |done]. by right.
  - eapply Hstep; [done| |done]. by left.
Qed.

Lemma foldM_app {A B} (f : B -> A -> result B) b l1 l2 :
  foldM f b (l1 ++ l2) = (foldM f b l1 ≫= fun b' => foldM f b' l2).
Proof.
  revert b. induction l1 as [|x l1 IH]; intros b; cbn; [done|].
  destruct (f b x); cbn; [apply IH|done].
Qed.

(** ** [[...new Set(xs)]]: the distinct values in order of first occurrence *)

Definition addDistinct {A} `{EqDecision A} (acc : list A) (x : A) : list A :=
  if decide (x ∈ acc) then acc else acc ++ [x].

Definition distinct {A} `{EqDecision A} (xs : list A) : list A := foldl addDistinct [] xs.

Section distinct.
  Context {A : Type} `{EqDecision A}.
  Implicit Types xs acc : list A.

Lemma addDistinct_spec acc x : NoDup acc -> NoDup (addDistinct acc x) /\ forall y, y ∈ addDistinct acc x <-> y ∈ acc \/ y = x.
Proof.
  intros Hnd. unfold addDistinct. case_decide as Hx; [split; [done|]; naive_solver|].
  split; [|intros y; by rewrite elem_of_app, list_elem_of_singleton].
  by apply NoDup_snoc_2.
Qed.

Lemma distinct_loop xs : forall acc, NoDup acc ->
  NoDup (foldl addDistinct acc xs) /\ forall y, y ∈ foldl addDistinct acc xs <-> y ∈ acc \/ y ∈ xs.
Proof.
  induction xs as [|x xs IH]; intros acc Hnd; cbn [foldl]; [set_solver|].
  destruct (addDistinct_spec acc x Hnd) as [Hnd' Hin]. destruct (IH _ Hnd') as [H1 H2]. split; [done|].
  intros y. rewrite H2, Hin. set_solver.
Qed.

Lemma distinct_NoDup xs : NoDup (distinct xs).
Proof. apply (distinct_loop xs []). constructor. Qed.

Lemma distinct_elem xs y : y ∈ distinct xs <-> y ∈ xs.
Proof. destruct (distinct_loop xs []) as [_ H]; [constructor|]. unfold distinct. rewrite H. set_solver. Qed.

End distinct.

(** ** [Array.prototype.sort]

    ECMAScript requires a stable sort, so with a comparator that is a total
    preorder the result is determined; insertion sort computes it. *)

Section sort.
  Context {A : Type} (cmp : A -> A -> Z).

Fixpoint sort_insert (x : A) (l : list A) : list A :=
  match l with
  | [] => [x]
  | y :: l' => if decide (cmp x y <= 0) then x :: y :: l' else y :: sort_insert x l'
  end.

Definition sort_by (l : list A) : list A := foldr sort_insert [] l.

Lemma sort_insert_perm x l : sort_insert x l ≡ₚ x :: l.
Proof.
  induction l as [|y l IH]; cbn; [done|]. case_decide; [done|].
  rewrite IH. by rewrite Permutation_swap.
Qed.

Lemma sort_by_perm l : sort_by l ≡ₚ l.
Proof. induction l as [|x l IH]; cbn; [done|]. by rewrite sort_insert_perm, IH. Qed.

Lemma sort_by_length l : length (sort_by l) = length l.
Proof. by rewrite sort_by_perm. Qed.

Definition cmp_le (x y : A) : Prop := cmp x y <= 0.

Class TotalComparator := {
  cmp_total : forall x y, cmp x y <= 0 \/ cmp y x <= 0;
  cmp_trans : forall x y z, cmp x y <= 0 -> cmp y z <= 0 -> cmp x z <= 0;
}.

Context `{TotalComparator}.

Lemma sort_insert_sorted x l :
  StronglySorted cmp_le l -> StronglySorted cmp_le (sort_insert x l).
Proof.
  induction 1 as [|y l Hl IH Hy]; cbn.
  - by repeat constructor.
  - case_decide as Hxy.
    + constructor; [by constructor|]. constructor; [done|].
      eapply Forall_impl; [exact Hy|]. intros z Hz. by eapply cmp_trans.
    + constructor; [done|]. rewrite sort_insert_perm. constructor; [|done].
      unfold cmp_le. destruct (cmp_total x y); lia.
Qed.

Lemma sort_by_sorted l : StronglySorted cmp_le (sort_by l).
Proof. induction l as [|x l IH]; cbn; [constructor|]. by apply sort_insert_sorted. Qed.

(** Sorting a sorted list changes nothing. *)
Lemma sort_by_id l : StronglySorted cmp_le l -> sort_by l = l.
Proof.
  induction 1 as [|x l Hl IH Hx]; [done|].
  change (sort_insert x (sort_by l) = x :: l). rewrite IH.
  destruct Hx as [|y l Hy Hl']; cbn; [done|]. by rewrite decide_True.
Qed.

(** The result is independent of the input order when the comparator is
    antisymmetric up to a key and the keys are distinct. *)
Lemma sort_by_unique {K} (key : A -> K) l l' :
  (forall a b, cmp a b <= 0 -> cmp b a <= 0 -> key a = key b) ->
  NoDup (key <$> l) -> l ≡ₚ l' -> sort_by l = sort_by l'.
Proof.
  intros Hkey Hk Hp. apply (StronglySorted_unique_strong cmp_le).
  - intros a b Ha Hb H1 H2. rewrite sort_by_perm in Ha. rewrite sort_by_perm, <- Hp in Hb.
    apply (NoDup_fmap_elem key l); auto.
  - apply sort_by_sorted.
  - apply sort_by_sorted.
  - etrans; [apply sort_by_perm|]. etrans; [exact Hp|]. symmetry. apply sort_by_perm.
Qed.

End sort.
Arguments TotalComparator {A} cmp.

Lemma sort_insert_ext {A} (c c' : A -> A -> Z) x l :
  (forall y, y ∈ l -> c x y = c' x y) -> sort_insert c x l = sort_insert c' x l.
Proof.
  intros H. induction l as [|y l IH]; [done|]. cbn. rewrite (H y) by (by left).
  rewrite IH; [done|]. intros z Hz. apply H. by right.
Qed.

Lemma sort_by_ext {A} (c c' : A -> A -> Z) l :
  (forall x y, x ∈ l -> y ∈ l -> c x y = c' x y) -> sort_by c l = sort_by c' l.
Proof.
  induction l as [|x l IH]; intros H; [done|]. change (sort_insert c x (sort_by c l) = sort_insert c' x (sort_by c' l)).
  rewrite IH by (intros; apply H; by right). apply sort_insert_ext. intros y Hy. rewrite sort_by_perm in Hy.
  apply H; [by left|by right].
Qed.

Lemma StronglySorted_weaken {A} (R R' : A -> A -> Prop) l :
  (forall a b, R a b -> R' a b) -> StronglySorted R l -> StronglySorted R' l.
Proof.
  intros HR. induction 1 as [|x l Hl IH Hx]; constructor; [done|]. eapply Forall_impl; [exact Hx|]. auto.
Qed.

(** Lexicographic comparison of JavaScript strings: [a < b ? -1 : a > b ? 1 : 0]. *)
Definition string_cmp (a b : string) : Z :=
  match String.compare a b with Lt => -1 | Gt => 1 | Eq => 0 end.

Lemma ascii_compare_N (a b : Ascii.ascii) :
  Ascii.compare a b = (Ascii.N_of_ascii a ?= Ascii.N_of_ascii b)%N.
Proof. done. Qed.

Lemma string_compare_trans_le a b c :
  String.compare a b <> Gt -> String.compare b c <> Gt -> String.compare a c <> Gt.
Proof.
  revert b c. induction a as [|x a IH]; intros [|y b] [|z c]; cbn; try congruence.
  rewrite !ascii_compare_N.
  destruct (N.compare_spec (Ascii.N_of_ascii x) (Ascii.N_of_ascii y)) as [Exy|Lxy|Gxy];
  destruct (N.compare_spec (Ascii.N_of_ascii y) (Ascii.N_of_ascii z)) as [Eyz|Lyz|Gyz];
  destruct (N.compare_spec (Ascii.N_of_ascii x) (Ascii.N_of_ascii z)) as [Exz|Lxz|Gxz];
  try lia; try congruence; eauto.
Qed.

Lemma string_cmp_trans a b c :
  string_cmp a b <= 0 -> string_cmp b c <= 0 -> string_cmp a c <= 0.
Proof.
  unfold string_cmp. pose proof (string_compare_trans_le a b c) as H.
  destruct (String.compare a b) eqn:E1, (String.compare b c) eqn:E2,
    (String.compare a c) eqn:E3; try lia; exfalso; apply H; congruence.
Qed.

Lemma string_cmp_antisym a b : string_cmp a b = - string_cmp b a.
Proof. unfold string_cmp. rewrite String.compare_antisym. by destruct (String.compare b a). Qed.

Lemma string_cmp_total a b : string_cmp a b <= 0 \/ string_cmp b a <= 0.
Proof. rewrite (string_cmp_antisym a b). lia. Qed.

Lemma string_cmp_eq a b : string_cmp a b = 0 -> a = b.
Proof.
  unfold string_cmp. destruct (String.compare a b) eqn:E; try lia.
  intros _. by apply String.compare_eq_iff.
Qed.

(** Sorting depends only on how distinct elements compare; comparators that answer 1 on
    equal keys ([a < b ? -1 : 1]) can be replaced by proper ones. *)
Lemma sort_insert_ties {A} (c c' : A -> A -> Z) x l :
  (forall y, y ∈ l -> (c x y <= 0 <-> c' x y <= 0)) -> sort_insert c x l = sort_insert c' x l.
Proof.
  intros H. induction l as [|y l IH]; [done|]. cbn. rewrite (decide_ext _ (c' x y <= 0)) by (apply H; left).
  rewrite IH; [done|]. intros z Hz. apply H. by right.
Qed.

Lemma sort_by_ties {A K} (key : A -> K) (c c' : A -> A -> Z) l : NoDup (key <$> l) ->
  (forall x y, key x <> key y -> (c x y <= 0 <-> c' x y <= 0)) -> sort_by c l = sort_by c' l.
Proof.
  intros Hnd H. induction l as [|x l IH]; [done|]. rewrite fmap_cons in Hnd. apply NoDup_cons in Hnd as [Hx Hnd].
  change (sort_insert c x (sort_by c l) = sort_insert c' x (sort_by c' l)). rewrite IH by done.
  apply sort_insert_ties. intros y Hy. rewrite sort_by_perm in Hy. apply H. intros E. apply Hx. rewrite E. by apply list_elem_of_fmap_2.
Qed.

(** [if (f(a) !== f(b)) return f(a) - f(b); return c(a, b);] *)
Definition then_by {A} (f : A -> Z) (c : A -> A -> Z) (x y : A) : Z := if decide (f x = f y) then c x y else f x - f y.

#[export] Instance then_by_total {A} (f : A -> Z) (c : A -> A -> Z) `{!TotalComparator c} : TotalComparator (then_by f c).
Proof.
  unfold then_by. split.
  - intros x y. pose proof (cmp_total c x y). repeat case_decide; lia.
  - intros x y z. pose proof (cmp_trans c x y z). repeat case_decide; lia.
Qed.

Lemma then_by_antisym {A K} (key : A -> K) (f : A -> Z) (c : A -> A -> Z) :
  (forall x y, c x y <= 0 -> c y x <= 0 -> key x = key y) -> forall x y, then_by f c x y <= 0 -> then_by f c y x <= 0 -> key x = key y.
Proof. intros H x y. unfold then_by. repeat case_decide; try lia. apply H. Qed.

#[export] Instance string_key_total {A} (key : A -> string) : TotalComparator (fun x y => string_cmp (key x) (key y)).
Proof. split; intros; [apply string_cmp_total|by eapply string_cmp_trans]. Qed.

Lemma string_key_antisym {A} (key : A -> string) x y : string_cmp (key x) (key y) <= 0 -> string_cmp (key y) (key x) <= 0 -> key x = key y.
Proof. intros H1 H2. apply string_cmp_eq. rewrite string_cmp_antisym in H2. lia. Qed.

#[export] Instance string_cmp_comparator : TotalComparator string_cmp.
Proof. constructor; [apply string_cmp_total|apply string_cmp_trans]. Qed.

Lemma filter_sorted {A} (R : A -> A -> Prop) (f : A -> bool) l : StronglySorted R l -> StronglySorted R (List.filter f l).
Proof.
  induction 1 as [|x l Hl IH Hx]; cbn; [constructor|]. destruct (f x); [|done]. constructor; [done|].
  rewrite Forall_forall in *. intros y [Hy _]%elem_of_filter_bool. by apply Hx.
Qed.

(** ** Currencies: src/domain/shared/money.ts, [CURRENCIES] *)

Inductive Currency := KES | USD | GBP | EUR | TZS | UGX.

#[export] Instance Currency_eq_dec : EqDecision Currency.
Proof. solve_decision. Defined.
