(* ===== verification/JsNumber.v ===== *)
(** * JavaScript numbers

    A JavaScript [number] is an IEEE-754 binary64 value.  The Standard Library's
    [SpecFloat] is an executable specification of that format (53 bits of
    precision, maximal exponent 1024, round to nearest, ties to even), so the
    source's float arithmetic -- [Money.allocate] multiplies weights by [1e9] and
    rounds -- is modelled as it runs, rounding included.  A [bigint] is a [Z].

    The second half proves when that arithmetic is exact: sums and products of
    non-negative integers below [2^53] (for products: whose odd part stays below
    [2^53]) lose nothing. *)

From stdpp Require Import prelude.
From Stdlib Require Import ZArith Lia SpecFloat.
From S2P Require Import Prelude.
Local Open Scope Z_scope.
Local Open Scope js_scope.

Definition number := spec_float.

(** [Number(z)] for a bigint [z], and integer literals. *)
Definition num (z : Z) : number := binary_normalize 53 1024 z 0 false.
Definition nadd : number -> number -> number := SFadd 53 1024.
Definition nmul : number -> number -> number := SFmul 53 1024.
Definition ndiv : number -> number -> number := SFdiv 53 1024.
Definition nltb : number -> number -> bool := SFltb.
Definition nleb : number -> number -> bool := SFleb.

(** [Number.isFinite] *)
Definition isFinite (x : number) : bool :=
  match x with S754_zero _ | S754_finite _ _ _ => true | _ => false end.

(** The exact value of an integral number; [None] for fractions, NaN and the
    infinities ([Number.isInteger] is [Some]-ness). *)
Definition integerValue (x : number) : option Z :=
  match x with
  | S754_zero _ => Some 0
  | S754_finite s m e =>
      if 0 <=? e then Some (cond_Zopp s (Zpos m) * 2 ^ e)
      else if Zpos m mod 2 ^ (- e) =? 0 then Some (cond_Zopp s (Zpos m) / 2 ^ (- e))
      else None
  | _ => None
  end.

Definition MAX_SAFE_INTEGER : Z := 2 ^ 53 - 1.

(** [Number.isSafeInteger], with the integer it accepts. *)
Definition safeInteger (x : number) : option Z :=
  z ← integerValue x;
  if decide (Z.abs z <= MAX_SAFE_INTEGER) then Some z else None.

(** [BigInt(x)] throws a [RangeError] unless [x] is integral. *)
Definition BigInt (x : number) : result Z :=
  match integerValue x with Some z => Ok z | None => Err RangeError end.

(** [Math.round(x)]: the integer nearest [x], ties towards positive infinity.
    (A negative zero result is not distinguished from zero: [BigInt] maps both
    to [0n].) *)
Definition Math_round (x : number) : number :=
  match x with
  | S754_finite s m e =>
      if 0 <=? e then x
      else num ((2 * cond_Zopp s (Zpos m) + 2 ^ (- e)) / 2 ^ (1 - e))
  | _ => x
  end.

(** The [number | bigint] inputs of the source. *)
Inductive numeric :=
| Big (z : Z)
| Num (x : number).

(** [typeof v === 'number' && !Number.isSafeInteger(v) -> throw; BigInt(v)] *)
Definition safeMinor (v : numeric) : option Z :=
  match v with Big z => Some z | Num x => safeInteger x end.

(** ** Exactness *)

Lemma digits2_pos_size p : digits2_pos p = Pos.size p.
Proof. induction p; cbn; congruence. Qed.

Lemma Zdigits2_log2 z : 0 < z -> Zdigits2 z = Z.log2 z + 1.
Proof.
  intros Hz. destruct z as [|p|p]; try lia. cbn. rewrite digits2_pos_size.
  destruct p; cbn; lia.
Qed.

Lemma log2_mul_pow2' v T : 0 < v -> 0 <= T -> Z.log2 (v * 2 ^ T) = Z.log2 v + T.
Proof. intros. rewrite Z.log2_mul_pow2 by lia. lia. Qed.

Lemma shr_1_exact m : 0 <= m ->
  shr_1 {| shr_m := 2 * m; shr_r := false; shr_s := false |} =
  {| shr_m := m; shr_r := false; shr_s := false |}.
Proof. intros Hm. destruct m as [|p|p]; [done|done|lia]. Qed.

Lemma iter_shr_exact n m : 0 <= m ->
  iter_pos shr_1 n {| shr_m := m * 2 ^ Zpos n; shr_r := false; shr_s := false |} =
  {| shr_m := m; shr_r := false; shr_s := false |}.
Proof.
  revert m. induction n as [n IH|n IH|]; intros m Hm.
  - cbn [iter_pos].
    replace (m * 2 ^ Z.pos n~1) with (2 * ((m * 2 ^ Z.pos n) * 2 ^ Z.pos n)).
    2:{ replace (Z.pos n~1) with (Z.pos n + Z.pos n + 1) by lia. rewrite !Z.pow_add_r by lia. ring. }
    rewrite shr_1_exact by (apply Z.mul_nonneg_nonneg; [|lia]; nia).
    rewrite IH by nia. by apply IH.
  - cbn [iter_pos].
    replace (m * 2 ^ Z.pos n~0) with ((m * 2 ^ Z.pos n) * 2 ^ Z.pos n).
    2:{ replace (Z.pos n~0) with (Z.pos n + Z.pos n) by lia. rewrite Z.pow_add_r by lia. ring. }
    rewrite IH by nia. by apply IH.
  - cbn [iter_pos]. rewrite Z.pow_1_r, Z.mul_comm. by apply shr_1_exact.
Qed.

Lemma shr_exact m e n : 0 <= m -> 0 <= n ->
  shr (shr_record_of_loc (m * 2 ^ n) loc_Exact) e n =
  (shr_record_of_loc m loc_Exact, e + n).
Proof.
  intros Hm Hn. destruct n as [|p|p]; [|by cbn; rewrite iter_shr_exact|lia].
  cbn [shr]. by rewrite Z.pow_0_r, Z.mul_1_r, Z.add_0_r.
Qed.

(** The canonical double of value [v * 2^E]. *)
Definition canon (v E : Z) : number :=
  S754_finite false (Z.to_pos (v * 2 ^ (52 - Z.log2 v))) (E + Z.log2 v - 52).

Lemma mantissa_digits v : 0 < v < 2 ^ 53 ->
  0 < v * 2 ^ (52 - Z.log2 v) /\ Z.log2 (v * 2 ^ (52 - Z.log2 v)) = 52.
Proof.
  intros Hv. assert (Z.log2 v < 53) by (apply Z.log2_lt_pow2; lia).
  pose proof (Z.log2_nonneg v).
  split; [apply Z.mul_pos_pos; [lia|]; apply Z.pow_pos_nonneg; lia|].
  rewrite log2_mul_pow2' by lia. lia.
Qed.

Lemma round_aux_exact v T X :
  0 < v < 2 ^ 53 -> 52 - Z.log2 v <= T -> 0 <= T ->
  -1022 <= X + T <= 900 ->
  binary_round_aux 53 1024 false (v * 2 ^ T) X loc_Exact = canon v (X + T).
Proof.
  intros Hv HT HT0 HX.
  destruct (mantissa_digits v Hv) as [Hm Hl].
  assert (Z.log2 v < 53) by (apply Z.log2_lt_pow2; lia).
  pose proof (Z.log2_nonneg v) as Hd.
  set (m := v * 2 ^ (52 - Z.log2 v)) in *.
  assert (v * 2 ^ T = m * 2 ^ (Z.log2 v + T - 52)) as HM.
  { unfold m. rewrite <- Z.mul_assoc, <- Z.pow_add_r by lia. do 2 f_equal. lia. }
  assert (0 < v * 2 ^ T) as HMpos by (apply Z.mul_pos_pos; [lia|]; apply Z.pow_pos_nonneg; lia).
  unfold binary_round_aux, shr_fexp.
  rewrite Zdigits2_log2, log2_mul_pow2' by lia.
  unfold fexp, emin. rewrite Z.max_l by lia.
  replace (Z.log2 v + T + 1 + X - 53 - X) with (Z.log2 v + T - 52) by lia.
  rewrite HM, shr_exact by lia. cbn [shr_record_of_loc shr_m loc_of_shr_record round_nearest_even].
  rewrite Zdigits2_log2, Hl by lia. rewrite Z.max_l by lia.
  replace (52 + 1 + (X + (Z.log2 v + T - 52)) - 53 - (X + (Z.log2 v + T - 52))) with 0 by lia.
  cbn [shr shr_record_of_loc shr_m].
  replace (X + (Z.log2 v + T - 52)) with (X + T + Z.log2 v - 52) by lia.
  unfold canon. fold m. destruct m as [|p|p]; try lia. cbn [Z.to_pos].
  destruct (Z.leb_spec (X + T + Z.log2 v - 52) (1024 - 53)); [done|lia].
Qed.

Lemma Zpos_shift_pos n p : Zpos (Pos.iter xO p n) = Zpos p * 2 ^ Zpos n.
Proof.
  change (Pos.iter xO p n) with (shift_pos n p). rewrite shift_pos_correct, Z.pow_pos_fold. lia.
Qed.

(** Normalising a dyadic value whose odd part fits 53 bits is exact. *)
Lemma normalize_exact v T X :
  0 < v < 2 ^ 53 -> 0 <= T -> -900 <= X + T <= 900 ->
  binary_normalize 53 1024 (v * 2 ^ T) X false = canon v (X + T).
Proof.
  intros Hv HT HX.
  assert (Z.log2 v < 53) by (apply Z.log2_lt_pow2; lia).
  pose proof (Z.log2_nonneg v) as Hd.
  assert (0 < v * 2 ^ T) as HM by (apply Z.mul_pos_pos; [lia|]; apply Z.pow_pos_nonneg; lia).
  destruct (v * 2 ^ T) as [|p|p] eqn:Ep; try lia. cbn [binary_normalize].
  unfold binary_round.
  assert (Zpos (digits2_pos p) = Z.log2 v + T + 1) as Hp.
  { change (Zpos (digits2_pos p)) with (Zdigits2 (Zpos p)).
    rewrite Zdigits2_log2 by lia. rewrite <- Ep, log2_mul_pow2' by lia. lia. }
  rewrite Hp. unfold fexp, emin. rewrite Z.max_l by lia. unfold shl_align.
  destruct (Z.log2 v + T + 1 + X - 53 - X) as [|n|n] eqn:En.
  - rewrite <- Ep. apply round_aux_exact; lia.
  - rewrite <- Ep. apply round_aux_exact; lia.
  - rewrite Zpos_shift_pos, <- Ep, <- Z.mul_assoc, <- Z.pow_add_r by lia.
    rewrite round_aux_exact by lia. f_equal. lia.
Qed.

Lemma num_canon z : 0 < z < 2 ^ 53 -> num z = canon z 0.
Proof.
  intros Hz. unfold num. rewrite <- (Z.mul_1_r z) at 1.
  change 1 with (2 ^ 0). rewrite (normalize_exact z 0 0) by lia. done.
Qed.

Lemma num_zero : num 0 = S754_zero false.
Proof. done. Qed.

Lemma canon_integerValue v E : 0 < v < 2 ^ 53 -> 0 <= E -> integerValue (canon v E) = Some (v * 2 ^ E).
Proof.
  intros Hv HE. destruct (mantissa_digits v Hv) as [Hm _].
  assert (Z.log2 v < 53) by (apply Z.log2_lt_pow2; lia).
  pose proof (Z.log2_nonneg v) as Hd.
  unfold canon, integerValue. cbn [cond_Zopp]. rewrite Z2Pos.id by lia.
  destruct (Z.leb_spec 0 (E + Z.log2 v - 52)) as [He|He].
  - rewrite <- Z.mul_assoc, <- Z.pow_add_r by lia. do 3 f_equal. lia.
  - replace (v * 2 ^ (52 - Z.log2 v)) with ((v * 2 ^ E) * 2 ^ (- (E + Z.log2 v - 52))).
    2:{ rewrite <- Z.mul_assoc, <- Z.pow_add_r by lia. do 2 f_equal. lia. }
    rewrite Z.mod_mul, Z.div_mul by (apply Z.pow_nonzero; lia). done.
Qed.

Lemma integerValue_num z : 0 <= z < 2 ^ 53 -> integerValue (num z) = Some z.
Proof.
  intros Hz. destruct (decide (z = 0)) as [->|]; [done|].
  rewrite num_canon by lia. rewrite canon_integerValue by lia. f_equal. lia.
Qed.

Lemma canon_finite v E : isFinite (canon v E) = true.
Proof. done. Qed.

Lemma isFinite_num z : 0 <= z < 2 ^ 53 -> isFinite (num z) = true.
Proof.
  intros Hz. destruct (decide (z = 0)) as [->|]; [done|]. by rewrite num_canon by lia.
Qed.

(** Addition of small non-negative integers is exact. *)
Lemma nadd_num a b : 0 <= a -> 0 <= b -> a + b < 2 ^ 53 -> nadd (num a) (num b) = num (a + b).
Proof.
  intros Ha Hb Hab.
  destruct (decide (a = 0)) as [->|].
  { rewrite Z.add_0_l. destruct (decide (b = 0)) as [->|]; [done|]. rewrite (num_canon b) by lia. done. }
  destruct (decide (b = 0)) as [->|].
  { rewrite Z.add_0_r. rewrite (num_canon a) by lia. done. }
  rewrite (num_canon a), (num_canon b), (num_canon (a + b)) by lia.
  destruct (mantissa_digits a) as [Hma _]; [lia|]. destruct (mantissa_digits b) as [Hmb _]; [lia|].
  assert (Z.log2 a < 53) by (apply Z.log2_lt_pow2; lia).
  assert (Z.log2 b < 53) by (apply Z.log2_lt_pow2; lia).
  pose proof (Z.log2_nonneg a). pose proof (Z.log2_nonneg b).
  unfold nadd, canon, SFadd.
  set (ez := Z.min (0 + Z.log2 a - 52) (0 + Z.log2 b - 52)).
  assert (forall c, 0 < c < 2 ^ 53 -> ez <= Z.log2 c - 52 ->
    Zpos (fst (shl_align (Z.to_pos (c * 2 ^ (52 - Z.log2 c))) (0 + Z.log2 c - 52) ez)) = c * 2 ^ (- ez)) as Hal.
  { intros c Hc Hle. destruct (mantissa_digits c Hc) as [Hmc _].
    assert (Z.log2 c < 53) by (apply Z.log2_lt_pow2; lia).
    unfold shl_align. destruct (ez - (0 + Z.log2 c - 52)) as [|q|q] eqn:En; cbn [fst].
    - rewrite Z2Pos.id by lia. do 2 f_equal. lia.
    - lia.
    - rewrite Zpos_shift_pos, Z2Pos.id by lia.
      rewrite <- Z.mul_assoc, <- Z.pow_add_r by lia. do 2 f_equal. lia. }
  cbn [cond_Zopp]. rewrite !Hal by lia.
  rewrite <- Z.mul_add_distr_r, normalize_exact by lia.
  unfold canon. do 2 f_equal. lia.
Qed.

(** A product is exact when its odd part fits 53 bits. *)
Lemma nmul_num a b T : 0 < a < 2 ^ 53 -> 0 < b -> 0 <= T <= 200 ->
  b * 2 ^ T < 2 ^ 53 -> a * b < 2 ^ 53 ->
  nmul (num a) (num (b * 2 ^ T)) = canon (a * b) T.
Proof.
  intros Ha Hb HT HbT Hab.
  assert (0 < 2 ^ T) by (apply Z.pow_pos_nonneg; lia).
  rewrite (num_canon a) by lia. rewrite (num_canon (b * 2 ^ T)) by nia.
  destruct (mantissa_digits a) as [Hma _]; [lia|].
  destruct (mantissa_digits (b * 2 ^ T)) as [Hmb _]; [nia|].
  assert (0 < b * 2 ^ T) as HB by nia.
  set (B := b * 2 ^ T) in *.
  assert (Z.log2 a < 53) by (apply Z.log2_lt_pow2; lia).
  assert (Z.log2 B < 53) by (apply Z.log2_lt_pow2; lia).
  pose proof (Z.log2_nonneg a). pose proof (Z.log2_nonneg B).
  unfold nmul, canon at 1 2, SFmul. cbn [xorb].
  rewrite Pos2Z.inj_mul, !Z2Pos.id by lia.
  set (S := (52 - Z.log2 a) + (52 - Z.log2 B)).
  replace (a * 2 ^ (52 - Z.log2 a) * (B * 2 ^ (52 - Z.log2 B))) with ((a * b) * 2 ^ (T + S)).
  2:{ unfold S. rewrite !Z.pow_add_r by lia. generalize (2 ^ (52 - Z.log2 B)). intros. unfold B. ring. }
  assert (Z.log2 a + Z.log2 B <= Z.log2 (a * B)) by (apply Z.log2_mul_below; lia).
  assert (Z.log2 (a * B) = Z.log2 (a * b) + T) as HlogB.
  { unfold B. rewrite Z.mul_assoc, log2_mul_pow2' by nia. done. }
  assert (Z.log2 (a * b) < 53) by (apply Z.log2_lt_pow2; nia).
  rewrite round_aux_exact by (unfold S; nia).
  unfold canon. f_equal. unfold S. lia.
Qed.

Lemma Math_round_canon v E : 0 < v < 2 ^ 53 -> 0 <= E -> integerValue (Math_round (canon v E)) = Some (v * 2 ^ E).
Proof.
  intros Hv HE. destruct (mantissa_digits v Hv) as [Hm _].
  assert (Z.log2 v < 53) by (apply Z.log2_lt_pow2; lia).
  pose proof (Z.log2_nonneg v) as Hd.
  pose proof (canon_integerValue v E Hv HE) as Hi. unfold canon in *. cbn [Math_round].
  destruct (Z.leb_spec 0 (E + Z.log2 v - 52)) as [He|He]; [done|].
  cbn [cond_Zopp]. rewrite Z2Pos.id by lia.
  set (k := - (E + Z.log2 v - 52)).
  assert (0 < 2 ^ k) by (apply Z.pow_pos_nonneg; lia).
  replace (v * 2 ^ (52 - Z.log2 v)) with ((v * 2 ^ E) * 2 ^ k).
  2:{ unfold k. rewrite <- Z.mul_assoc, <- Z.pow_add_r by lia. do 2 f_equal. lia. }
  replace (1 - (E + Z.log2 v - 52)) with (1 + k) by lia.
  rewrite Z.pow_add_r, Z.pow_1_r by lia.
  replace ((2 * (v * 2 ^ E * 2 ^ k) + 2 ^ k) / (2 * 2 ^ k)) with (v * 2 ^ E).
  2:{ apply Z.div_unique with (2 ^ k); [lia|ring]. }
  rewrite integerValue_num; [done|].
  assert (0 < 2 ^ E) by (apply Z.pow_pos_nonneg; lia).
  split; [nia|]. apply Z.log2_lt_cancel. rewrite log2_mul_pow2' by lia.
  rewrite Z.log2_pow2 by lia. lia.
Qed.

(** [BigInt(Math.round(Number(z) * 1e9))], as [Money.allocate] computes it. *)
Definition scale_weight (w : number) : result Z := BigInt (Math_round (nmul w (num 1000000000))).

Lemma scale_weight_exact z : 0 <= z -> z * 5 ^ 9 < 2 ^ 53 -> scale_weight (num z) = Ok (z * 10 ^ 9).
Proof.
  intros Hz Hb. unfold scale_weight, BigInt.
  destruct (decide (z = 0)) as [->|]; [done|].
  change 1000000000 with (5 ^ 9 * 2 ^ 9).
  rewrite nmul_num by lia.
  rewrite Math_round_canon by lia. f_equal. change (10 ^ 9) with (5 ^ 9 * 2 ^ 9). ring.
Qed.

Lemma nltb_canon_zero v E : 0 < v < 2 ^ 53 -> nltb (canon v E) (num 0) = false.
Proof. done. Qed.

Lemma num_not_negative z : 0 <= z < 2 ^ 53 -> nltb (num z) (num 0) = false.
Proof.
  intros Hz. destruct (decide (z = 0)) as [->|]; [done|]. by rewrite num_canon by lia.
Qed.

Lemma num_positive z : 0 < z < 2 ^ 53 -> nleb (num z) (num 0) = false.
Proof. intros Hz. by rewrite num_canon by lia. Qed.

Lemma safeInteger_num z : 0 <= z <= MAX_SAFE_INTEGER -> safeInteger (num z) = Some z.
Proof.
  unfold MAX_SAFE_INTEGER. intros Hz. unfold safeInteger.
  rewrite integerValue_num by lia. cbn. unfold MAX_SAFE_INTEGER. case_decide; [done|lia].
Qed.

Lemma safeInteger_bound x z : safeInteger x = Some z -> - MAX_SAFE_INTEGER <= z <= MAX_SAFE_INTEGER.
Proof.
  unfold safeInteger. destruct (integerValue x); cbn; [|done]. case_decide; [|done].
  intros [= ->]. lia.
Qed.

#[export] Hint Rewrite integerValue_num safeInteger_num nadd_num using lia : fuatilia.

(** ** Signed integers *)

Lemma round_aux_opp p em s m e l : binary_round_aux p em (negb s) m e l = SFopp (binary_round_aux p em s m e l).
Proof.
  unfold binary_round_aux. destruct (shr_fexp p em m e l) as [mrs e']. destruct (shr_fexp p em _ e' loc_Exact) as [mrs' e''].
  destruct (shr_m mrs'); [done| |done]. by case_match.
Qed.

Lemma normalize_opp p em m e : m <> 0 -> binary_normalize p em (- m) e false = SFopp (binary_normalize p em m e false).
Proof.
  unfold binary_normalize, binary_round. intros Hm. destruct m as [|m|m]; [done| |]; rewrite ?Pos2Z.opp_pos, ?Pos2Z.opp_neg;
    destruct (shl_align m e _) as [mz ez]; [apply (round_aux_opp p em false)|apply (round_aux_opp p em true)].
Qed.

Lemma num_opp z : 0 < z -> num (- z) = SFopp (num z).
Proof. intros Hz. apply normalize_opp. lia. Qed.

Lemma num_signed z : z <> 0 -> - 2 ^ 53 < z < 2 ^ 53 -> num z = S754_finite (z <? 0) (Z.to_pos (Z.abs z * 2 ^ (52 - Z.log2 (Z.abs z)))) (Z.log2 (Z.abs z) - 52).
Proof.
  intros H0 Hz. destruct (Z.ltb_spec z 0).
  - replace z with (- (- z)) at 1 by lia. rewrite num_opp, num_canon, Z.abs_neq by lia. reflexivity.
  - rewrite num_canon, Z.abs_eq by lia. reflexivity.
Qed.

Lemma integerValue_opp x : integerValue (SFopp x) = Z.opp <$> integerValue x.
Proof.
  destruct x as [s|s| |s m e]; cbn; try done. destruct (0 <=? e); cbn.
  - f_equal. destruct s; cbn; lia.
  - destruct (Z.eqb_spec (Zpos m mod 2 ^ (- e)) 0) as [E|]; cbn; [|done]. f_equal.
    destruct s; cbn [negb cond_Zopp].
    + change (Z.neg m) with (- Zpos m). rewrite Z_div_zero_opp_full by done. lia.
    + change (Z.neg m) with (- Zpos m). by rewrite Z_div_zero_opp_full.
Qed.

Lemma integerValue_signed z : - 2 ^ 53 < z < 2 ^ 53 -> integerValue (num z) = Some z.
Proof.
  intros Hz. destruct (decide (0 <= z)); [apply integerValue_num; lia|].
  replace z with (- (- z)) by lia. rewrite num_opp, integerValue_opp, integerValue_num by lia. reflexivity.
Qed.

Lemma normalize_signed v T X : v <> 0 -> - 2 ^ 53 < v < 2 ^ 53 -> 0 <= T -> X + T = 0 -> binary_normalize 53 1024 (v * 2 ^ T) X false = num v.
Proof.
  intros H0 Hv HT HX. destruct (Z.lt_trichotomy v 0) as [Hn|[?|Hp]]; [|lia|].
  - replace v with (- (- v)) at 2 by lia. rewrite num_opp, num_canon by lia.
    rewrite <- HX. rewrite <- (normalize_exact (- v) T X) by lia.
    replace (v * 2 ^ T) with (- (- v * 2 ^ T)) by lia. apply normalize_opp.
    assert (0 < 2 ^ T) by (apply Z.pow_pos_nonneg; lia). nia.
  - rewrite normalize_exact, num_canon by lia. by rewrite HX.
Qed.

(** Addition of integers is exact while the sum is below [2 ^ 53]. *)
Lemma nadd_signed a b : - 2 ^ 53 < a < 2 ^ 53 -> - 2 ^ 53 < b < 2 ^ 53 -> - 2 ^ 53 < a + b < 2 ^ 53 ->
  nadd (num a) (num b) = num (a + b).
Proof.
  intros Ha Hb Hab.
  destruct (decide (a = 0)) as [->|Na].
  { rewrite Z.add_0_l. destruct (decide (b = 0)) as [->|]; [done|]. by rewrite (num_signed b) by lia. }
  destruct (decide (b = 0)) as [->|Nb].
  { rewrite Z.add_0_r. by rewrite (num_signed a) by lia. }
  rewrite (num_signed a), (num_signed b) by lia. unfold nadd, SFadd.
  set (ez := Z.min (Z.log2 (Z.abs a) - 52) (Z.log2 (Z.abs b) - 52)).
  assert (forall c, c <> 0 -> - 2 ^ 53 < c < 2 ^ 53 -> ez <= Z.log2 (Z.abs c) - 52 ->
    cond_Zopp (c <? 0) (Zpos (fst (shl_align (Z.to_pos (Z.abs c * 2 ^ (52 - Z.log2 (Z.abs c)))) (Z.log2 (Z.abs c) - 52) ez))) = c * 2 ^ (- ez)) as Hal.
  { intros c Hc0 Hc Hle. destruct (mantissa_digits (Z.abs c)) as [Hmc _]; [lia|].
    assert (Z.log2 (Z.abs c) < 53) by (apply Z.log2_lt_pow2; lia).
    assert (Zpos (fst (shl_align (Z.to_pos (Z.abs c * 2 ^ (52 - Z.log2 (Z.abs c)))) (Z.log2 (Z.abs c) - 52) ez)) = Z.abs c * 2 ^ (- ez)) as ->.
    { unfold shl_align. destruct (ez - (Z.log2 (Z.abs c) - 52)) as [|q|q] eqn:En; cbn [fst].
      - rewrite Z2Pos.id by lia. do 2 f_equal. lia.
      - lia.
      - rewrite Zpos_shift_pos, Z2Pos.id by lia. rewrite <- Z.mul_assoc, <- Z.pow_add_r by lia. do 2 f_equal. lia. }
    destruct (Z.ltb_spec c 0); unfold cond_Zopp; [rewrite Z.abs_neq by lia|rewrite Z.abs_eq by lia]; lia. }
  rewrite !Hal by lia. rewrite <- Z.mul_add_distr_r.
  assert (Z.log2 (Z.abs a) < 53 /\ Z.log2 (Z.abs b) < 53) by (split; apply Z.log2_lt_pow2; lia).
  destruct (decide (a + b = 0)) as [E|N]; [by rewrite E|]. apply normalize_signed; lia.
Qed.
