(* ===== verification/JsString.v ===== *)
(** * JavaScript strings and identifiers

    Strings are modelled by the Standard Library's [string]; a character is one
    code unit, restricted to Latin-1.  The file holds [trim], bigint printing and
    parsing in a base, [padStart], the regular expressions the source tests
    (canonical UUID, ISO-8601), and the deterministic ids of
    src/domain/{payments,allocation,ledger}/ids.ts (three verbatim copies of one
    FNV-1a helper). *)

From stdpp Require Import prelude strings list.
From Stdlib Require Import ZArith Lia Ascii.
From S2P Require Import Prelude.
Local Open Scope string_scope.
Local Open Scope Z_scope.
Local Open Scope js_scope.

Notation chars := (list ascii).
Definition explode : string -> chars := String.list_ascii_of_string.
Definition implode : chars -> string := String.string_of_list_ascii.

Definition charCode (c : ascii) : Z := Z.of_N (N_of_ascii c).
Definition charOf (n : Z) : ascii := ascii_of_N (Z.to_N n).

(** ** [String.prototype.trim] *)

Definition is_space (c : ascii) : bool :=
  let n := charCode c in ((9 <=? n) && (n <=? 13)) || (n =? 32) || (n =? 160).

Fixpoint drop_space (l : chars) : chars :=
  match l with
  | [] => []
  | c :: l' => if is_space c then drop_space l' else l
  end.

Definition trim (s : string) : string :=
  implode (reverse (drop_space (reverse (drop_space (explode s))))).

(** ** Character classes *)

Definition in_range (lo hi : Z) (c : ascii) : bool :=
  let n := charCode c in (lo <=? n) && (n <=? hi).
Definition is_digit (c : ascii) : bool := in_range 48 57 c.
Definition is_hex (c : ascii) : bool :=
  is_digit c || in_range 97 102 c || in_range 65 70 c.

(** [toLowerCase] on Latin-1. *)
Definition lowerChar (c : ascii) : ascii :=
  let n := charCode c in
  if ((65 <=? n) && (n <=? 90)) || ((192 <=? n) && (n <=? 222) && negb (n =? 215)) then charOf (n + 32) else c.

Fixpoint startsWith (l w : chars) : bool :=
  match w, l with
  | [], _ => true
  | _ :: _, [] => false
  | d :: w', c :: l' => Ascii.eqb c d && startsWith l' w'
  end.

Fixpoint includes (l w : chars) : bool :=
  startsWith l w || match l with [] => false | _ :: l' => includes l' w end.

Definition endsWith (l w : chars) : bool := startsWith (reverse l) (reverse w).

(** [/^[A-Za-z0-9_-]{lo,hi}$/] *)
Definition urlSafeChar (c : ascii) : bool :=
  in_range 65 90 c || in_range 97 122 c || is_digit c || bool_decide (c = "_"%char) || bool_decide (c = "-"%char).

Definition urlSafe (lo hi : nat) (s : string) : bool :=
  let l := explode s in forallb urlSafeChar l && (lo <=? length l)%nat && (length l <=? hi)%nat.

Fixpoint take_while {A} (f : A -> bool) (l : list A) : list A :=
  match l with
  | [] => []
  | x :: l' => if f x then x :: take_while f l' else []
  end.

(** ** [bigint.toString(base)] and [BigInt(digits)] *)

Definition digit_char (d : Z) : ascii := charOf (if d <? 10 then 48 + d else 87 + d).
Definition digit_value (c : ascii) : Z := charCode c - 48.

Fixpoint to_digits (fuel : nat) (b n : Z) (acc : list Z) : list Z :=
  match fuel with
  | O => acc
  | S fuel => if n <? b then n :: acc else to_digits fuel b (n / b) (n mod b :: acc)
  end.

(** Every step divides by at least two, so [log2 n + 1] steps suffice. *)
Definition digits_of (b n : Z) : list Z := to_digits (S (Z.to_nat (Z.log2 n))) b n [].

Definition of_digits (b : Z) (ds : list Z) : Z := foldl (fun acc d => acc * b + d) 0 ds.

(** [n.toString(b)] for [n >= 0]. *)
Definition show_base (b n : Z) : chars := digit_char <$> digits_of b n.
Definition show_dec (n : Z) : string := implode (show_base 10 n).
(** [String(z)] for any bigint. *)
Definition show_Z (z : Z) : string := if z <? 0 then "-" ++ show_dec (- z) else show_dec z.
(** [BigInt(s)] for a string of decimal digits. *)
Definition read_dec (l : chars) : Z := of_digits 10 (digit_value <$> l).

Definition padStart (n : nat) (c : ascii) (l : chars) : chars :=
  (replicate (n - length l) c ++ l)%list.
Definition padEnd (n : nat) (c : ascii) (l : chars) : chars :=
  (l ++ replicate (n - length l) c)%list.

(** ** Regular expressions of the source *)

(** A recogniser consumes a prefix. *)
Definition recogniser := chars -> option chars.
Definition lit (c : ascii) : recogniser := fun l =>
  match l with x :: l' => if decide (x = c) then Some l' else None | [] => None end.
Fixpoint digits_n (n : nat) : recogniser := fun l =>
  match n with
  | O => Some l
  | S n => match l with x :: l' => if is_digit x then digits_n n l' else None | [] => None end
  end.
Definition seqr (r1 r2 : recogniser) : recogniser := fun l => l' ← r1 l; r2 l'.
Definition altr (r1 r2 : recogniser) : recogniser := fun l =>
  match r1 l with Some l' => Some l' | None => r2 l end.
Definition full (r : recogniser) (s : string) : bool :=
  match r (explode s) with Some [] => true | _ => false end.
Infix ">>" := seqr (at level 60, right associativity) : js_scope.

Definition zone : recogniser :=
  altr (lit "Z") (altr (lit "+") (lit "-") >> digits_n 2 >> lit ":" >> digits_n 2).

(** [/^\d{4}-\d{2}-\d{2}T\d{2}:\d{2}:\d{2}(?:\.\d{1,3})?(?:Z|[+-]\d{2}:\d{2})$/] *)
Definition ISO_PATTERN (s : string) : bool :=
  let head := digits_n 4 >> lit "-" >> digits_n 2 >> lit "-" >> digits_n 2 >> lit "T" >>
              digits_n 2 >> lit ":" >> digits_n 2 >> lit ":" >> digits_n 2 in
  full (head >> zone) s || full (head >> lit "." >> digits_n 1 >> zone) s ||
  full (head >> lit "." >> digits_n 2 >> zone) s || full (head >> lit "." >> digits_n 3 >> zone) s.

(** [/^\d{4}-\d{2}-\d{2}$/] *)
Definition RUN_DATE (s : string) : bool :=
  full (digits_n 4 >> lit "-" >> digits_n 2 >> lit "-" >> digits_n 2) s.

(** [/^[0-9a-fA-F]{8}-[0-9a-fA-F]{4}-...-[0-9a-fA-F]{12}$/] *)
Fixpoint hex_groups (gs : list nat) (l : chars) : bool :=
  match gs with
  | [] => false
  | [n] => (length l =? n)%nat && forallb is_hex l
  | n :: gs => forallb is_hex (take n l) && (n <=? length l)%nat &&
      match drop n l with
      | x :: l' => bool_decide (x = "-"%char) && hex_groups gs l'
      | [] => false
      end
  end.
Definition UUID_PATTERN (s : string) : bool := hex_groups [8; 4; 4; 4; 12]%nat (explode s).

(** ** [uuid] (src/domain/shared/ids.ts) and [uuidFromSeed] *)

Notation Uuid := string.

(** [/^[0-9a-fA-F-]{36}$/] *)
Definition uuid (raw : string) : result Uuid :=
  let l := explode raw in
  if decide (length l = 36%nat /\ forallb (fun c => is_hex c || bool_decide (c = "-"%char)) l = true)
  then Ok raw else Err PlainError.

Definition FNV_OFFSET : Z := 0x811c9dc5.
Definition FNV_PRIME : Z := 0x01000193.
Definition WORD_MASK : Z := 0xffffffff.

Definition fnv1a32 (round : Z) (input : string) : Z :=
  foldl (fun hash c =>
           Z.land (Z.lxor hash (Z.land (charCode c) 0xff) * FNV_PRIME) WORD_MASK)
        (Z.lxor FNV_OFFSET round) (explode input).

Definition seed_word (round : Z) (seed : string) : chars :=
  padStart 8 "0" (show_base 16 (fnv1a32 round seed)).

Definition uuidFromSeed (seed : string) : result Uuid :=
  let w r := seed_word r seed in
  uuid (implode (w 0 ++ ["-"%char] ++ take 4 (w 1) ++ ["-"%char] ++ take 4 (drop 4 (w 1)) ++
                 ["-"%char] ++ take 4 (w 2) ++ ["-"%char] ++ take 4 (drop 4 (w 2)) ++ w 3)%list).

(** ** Lemmas *)

Lemma explode_implode l : explode (implode l) = l.
Proof. apply String.list_ascii_of_string_of_list_ascii. Qed.

Lemma implode_explode s : implode (explode s) = s.
Proof. apply String.string_of_list_ascii_of_string. Qed.

Lemma implode_app l1 l2 : implode (l1 ++ l2)%list = implode l1 +:+ implode l2.
Proof. induction l1 as [|c l1 IH]; [done|]. change (String c (implode (l1 ++ l2)%list) = String c (implode l1 +:+ implode l2)). by rewrite IH. Qed.

(** *** Prefixes *)

Section prefixes.
Local Open Scope list_scope.

Lemma take_while_before {A} (f : A -> bool) l : Forall (fun c => f c = true) (take_while f l).
Proof. induction l as [|x l IH]; cbn; [constructor|]. destruct (f x) eqn:E; by constructor. Qed.

Lemma take_while_split {A} (f : A -> bool) l : l = take_while f l ++ drop (length (take_while f l)) l.
Proof. induction l as [|x l IH]; cbn; [done|]. destruct (f x); cbn; [by f_equal|done]. Qed.

Lemma take_while_stop {A} (f : A -> bool) l x r : drop (length (take_while f l)) l = x :: r -> f x = false.
Proof. induction l as [|y l IH]; cbn; [done|]. destruct (f y) eqn:E; cbn; [apply IH|]. by intros [= <- _]. Qed.

Lemma take_while_all {A} (f : A -> bool) l : Forall (fun c => f c = true) l -> take_while f l = l.
Proof. induction 1 as [|x l Hx Hl IH]; cbn; [done|]. rewrite Hx. by f_equal. Qed.

Lemma take_while_prefix {A} (f : A -> bool) l x r : Forall (fun c => f c = true) l -> f x = false -> take_while f (l ++ x :: r) = l.
Proof. induction 1 as [|y l Hy Hl IH]; intros Hx; cbn; [by rewrite Hx|]. rewrite Hy. f_equal. by apply IH. Qed.

Lemma startsWith_Ok w : forall l, startsWith l w = true <-> exists r, l = w ++ r.
Proof.
  induction w as [|d w IH]; intros l; cbn [startsWith]; [destruct l; cbn; split; [by eexists|done|by eexists|done]|].
  destruct l as [|c l]; cbn [startsWith]; [split; [done|by intros [r [=]]]|]. rewrite andb_true_iff, IH.
  destruct (Ascii.eqb_spec c d) as [->|N]; [|split; [by intros [? _]|intros [r [= -> _]]; done]].
  split; [intros [_ [r ->]]; by exists r|]. intros [r [= ->]]. split; [done|by exists r].
Qed.

Lemma endsWith_Ok l w : endsWith l w = true <-> exists r, l = r ++ w.
Proof.
  unfold endsWith. rewrite startsWith_Ok. split; intros [r E].
  - exists (reverse r). by rewrite <- (reverse_involutive l), E, reverse_app, reverse_involutive.
  - exists (reverse r). by rewrite E, reverse_app.
Qed.

Lemma explode_inj s s' : explode s = explode s' -> s = s'.
Proof. intros E. by rewrite <- (implode_explode s), E, implode_explode. Qed.

Lemma explode_app s s' : explode (s +:+ s') = explode s ++ explode s'.
Proof. by rewrite <- (implode_explode s) at 1; rewrite <- (implode_explode s') at 1; rewrite <- implode_app, explode_implode. Qed.

End prefixes.

Lemma charCode_range c : 0 <= charCode c < 256.
Proof. unfold charCode. pose proof (N_ascii_bounded c). lia. Qed.

Lemma charCode_charOf n : 0 <= n < 256 -> charCode (charOf n) = n.
Proof. intros Hn. unfold charCode, charOf. rewrite N_ascii_embedding by lia. lia. Qed.

Lemma digit_char_hex d : 0 <= d < 16 -> is_hex (digit_char d) = true.
Proof.
  intros Hd. unfold is_hex, is_digit, in_range, digit_char.
  destruct (Z.ltb_spec d 10); rewrite charCode_charOf by lia.
  - replace ((48 <=? 48 + d) && (48 + d <=? 57)) with true by lia. done.
  - replace ((97 <=? 87 + d) && (87 + d <=? 102)) with true by lia. by rewrite orb_true_r.
Qed.

Lemma digit_value_char d : 0 <= d < 10 -> digit_value (digit_char d) = d /\ is_digit (digit_char d) = true.
Proof.
  intros Hd. unfold digit_value, is_digit, in_range, digit_char.
  destruct (Z.ltb_spec d 10); [|lia]. rewrite charCode_charOf by lia. lia.
Qed.

Lemma to_digits_spec fuel b n acc :
  2 <= b -> 0 <= n < 2 ^ Z.of_nat fuel ->
  exists ds, to_digits fuel b n acc = (ds ++ acc)%list /\
    (n = 0 \/ fuel <> 0%nat -> ds <> [] \/ fuel = 0%nat) /\
    Forall (fun d => 0 <= d < b) ds /\ of_digits b ds = n /\
    (forall k, n < b ^ Z.of_nat (S k) -> (length ds <= S k)%nat) /\
    (forall d ds', ds = d :: ds' -> ds' <> [] -> d <> 0).
Proof.
  intros Hb. revert n acc. induction fuel as [|fuel IH]; intros n acc Hn.
  - exists []. cbn in *. repeat split; try done; try lia; auto.
  - cbn [to_digits]. destruct (Z.ltb_spec n b) as [Hnb|Hnb].
    + exists [n]. repeat split; try done.
      * by left.
      * by repeat constructor; lia.
      * intros k _. cbn. lia.
      * intros d ds' [= -> <-]. done.
    + assert (0 <= n / b < 2 ^ Z.of_nat fuel) as Hq.
      { rewrite Nat2Z.inj_succ, Z.pow_succ_r in Hn by lia. split; [apply Z.div_pos; lia|].
        apply Z.div_lt_upper_bound; [lia|]. nia. }
      pose proof (Z.mod_pos_bound n b ltac:(lia)) as Hm.
      destruct (IH (n / b) (n mod b :: acc) Hq) as (ds & -> & Hne & Hr & Hv & Hlen & Hhd).
      exists (ds ++ [n mod b])%list. repeat split.
      * by rewrite <- app_assoc.
      * left. by intros [_ ?]%app_eq_nil.
      * apply Forall_app; split; [done|]. by repeat constructor; lia.
      * unfold of_digits in *. rewrite foldl_app, Hv. cbn. pose proof (Z.div_mod n b). lia.
      * intros k Hk. rewrite length_app. cbn. destruct k as [|k].
        { rewrite Z.pow_1_r in Hk. lia. }
        assert (n / b < b ^ Z.of_nat (S k)) as Hlt.
        { apply Z.div_lt_upper_bound; [lia|].
          rewrite (Nat2Z.inj_succ (S k)), Z.pow_succ_r in Hk by lia. done. }
        specialize (Hlen k Hlt). lia.
      * intros d ds' Hd Hds'. destruct ds as [|d0 ds0].
        { cbn in Hd. by injection Hd as <- <-. }
        cbn in Hd. injection Hd as <- <-. destruct ds0 as [|d1 ds1].
        { cbn in Hv. unfold of_digits in Hv. cbn in Hv. intros ->.
          assert (1 <= n / b) by (apply Z.div_le_lower_bound; lia). lia. }
        by eapply Hhd.
Qed.

Lemma digits_of_spec b n : 2 <= b -> 0 <= n ->
  digits_of b n <> [] /\ Forall (fun d => 0 <= d < b) (digits_of b n) /\
  of_digits b (digits_of b n) = n /\
  (forall k, n < b ^ Z.of_nat (S k) -> (length (digits_of b n) <= S k)%nat) /\
  (forall d ds', digits_of b n = d :: ds' -> ds' <> [] -> d <> 0).
Proof.
  intros Hb Hn. unfold digits_of.
  assert (0 <= n < 2 ^ Z.of_nat (S (Z.to_nat (Z.log2 n)))) as Hf.
  { rewrite Nat2Z.inj_succ, Z2Nat.id by apply Z.log2_nonneg. split; [done|].
    destruct (decide (n = 0)) as [->|]; [done|]. by apply Z.log2_spec; lia. }
  destruct (to_digits_spec _ b n [] Hb Hf) as (ds & -> & Hne & Hr & Hv & Hlen & Hhd).
  rewrite app_nil_r. repeat split; try done. destruct Hne; [by right|done|done].
Qed.

Lemma read_show_dec n : 0 <= n -> read_dec (show_base 10 n) = n.
Proof.
  intros Hn. destruct (digits_of_spec 10 n) as (_ & Hr & Hv & _); [lia..|].
  unfold read_dec, show_base. rewrite <- list_fmap_compose.
  rewrite <- Hv at 2. f_equal.
  clear Hv. induction Hr as [|d ds Hd Hds IH]; [done|].
  rewrite fmap_cons, IH. f_equal. cbn. by apply digit_value_char.
Qed.

Lemma read_dec_nonneg l : Forall (fun c => is_digit c = true) l -> 0 <= read_dec l.
Proof.
  unfold read_dec, of_digits. assert (forall acc, 0 <= acc -> Forall (fun c => is_digit c = true) l ->
    0 <= foldl (fun acc d => acc * 10 + d) acc (digit_value <$> l)) as H; [|by apply H].
  induction l as [|c l IH]; intros acc Ha Hl; cbn; [done|]. apply Forall_cons in Hl as [Hc Hl]. apply IH; [|done].
  unfold is_digit, in_range in Hc. unfold digit_value. lia.
Qed.

Lemma padStart_length n c l : (length l <= n)%nat -> length (padStart n c l) = n.
Proof. intros H. unfold padStart. rewrite length_app, length_replicate. lia. Qed.

Lemma fnv1a32_range r s : 0 <= r < 2 ^ 32 -> 0 <= fnv1a32 r s < 2 ^ 32.
Proof.
  intros Hr. unfold fnv1a32.
  assert (forall a, 0 <= a < 2 ^ 32 -> forall l, 0 <= foldl (fun hash c =>
    Z.land (Z.lxor hash (Z.land (charCode c) 0xff) * FNV_PRIME) WORD_MASK) a l < 2 ^ 32) as H.
  { intros a Ha l. revert a Ha. induction l as [|c l IH]; intros a Ha; cbn; [done|].
    apply IH. unfold WORD_MASK. change 0xffffffff with (Z.ones 32).
    rewrite Z.land_ones by lia. apply Z.mod_pos_bound. lia. }
  apply H. split.
  - apply Z.lxor_nonneg. unfold FNV_OFFSET. lia.
  - destruct (decide (Z.lxor FNV_OFFSET r = 0)) as [->|Hne]; [lia|].
    assert (0 <= Z.lxor FNV_OFFSET r) by (apply Z.lxor_nonneg; unfold FNV_OFFSET; lia).
    apply Z.log2_lt_cancel. eapply Z.le_lt_trans; [apply Z.log2_lxor; unfold FNV_OFFSET; lia|].
    change (Z.log2 FNV_OFFSET) with 31. rewrite Z.log2_pow2 by lia.
    assert (Z.log2 r <= 31); [|lia].
    destruct (decide (r = 0)) as [->|]; [done|]. apply Z.lt_succ_r. apply Z.log2_lt_pow2; lia.
Qed.

Lemma seed_word_shape r s : 0 <= r < 2 ^ 32 ->
  length (seed_word r s) = 8%nat /\ Forall (fun c => is_hex c = true) (seed_word r s).
Proof.
  intros Hr. destruct (fnv1a32_range r s Hr) as [H0 H1].
  destruct (digits_of_spec 16 (fnv1a32 r s)) as (_ & Hd & _ & Hlen & _); [lia..|].
  unfold seed_word. split.
  - apply padStart_length. unfold show_base. rewrite length_fmap. apply (Hlen 7%nat). exact H1.
  - unfold padStart. apply Forall_app; split.
    + by apply Forall_replicate.
    + unfold show_base. apply Forall_fmap. eapply Forall_impl; [exact Hd|].
      intros d Hd'. by apply digit_char_hex.
Qed.

Lemma list8 {A} (l : list A) : length l = 8%nat ->
  exists a b c d e f g h, l = [a; b; c; d; e; f; g; h].
Proof.
  intros H. do 8 (destruct l as [|? l]; [done|]). destruct l; [|done]. by repeat eexists.
Qed.

Lemma uuidFromSeed_shape s : exists id, uuidFromSeed s = Ok id /\ UUID_PATTERN id = true.
Proof.
  unfold uuidFromSeed.
  destruct (seed_word_shape 0 s) as [L0 H0]; [lia|].
  destruct (seed_word_shape 1 s) as [L1 H1]; [lia|].
  destruct (seed_word_shape 2 s) as [L2 H2]; [lia|].
  destruct (seed_word_shape 3 s) as [L3 H3]; [lia|].
  destruct (list8 _ L0) as (?&?&?&?&?&?&?&?&E0). destruct (list8 _ L1) as (?&?&?&?&?&?&?&?&E1).
  destruct (list8 _ L2) as (?&?&?&?&?&?&?&?&E2). destruct (list8 _ L3) as (?&?&?&?&?&?&?&?&E3).
  rewrite E0, E1, E2, E3 in *.
  repeat match goal with H : Forall _ (_ :: _) |- _ => apply Forall_cons in H as [? H] end.
  unfold uuid. rewrite explode_implode. cbn [take drop app length forallb].
  repeat match goal with H : is_hex ?c = true |- context [is_hex ?c] => rewrite H end.
  case_decide as Hd; [|exfalso; apply Hd; done].
  eexists; split; [done|]. unfold UUID_PATTERN. rewrite explode_implode.
  cbn [hex_groups take drop forallb length Nat.leb Nat.eqb andb].
  repeat match goal with H : is_hex ?c = true |- context [is_hex ?c] => rewrite H end. done.
Qed.

(** ** Trimming *)

Lemma drop_space_snoc (l : chars) c : is_space c = false -> drop_space (l ++ [c])%list <> [].
Proof. intros Hc. induction l as [|x l IH]; cbn; [by rewrite Hc|]. by destruct (is_space x). Qed.

Lemma trim_nonblank c s : is_space c = false -> trim (String c s) <> "".
Proof.
  intros Hc. unfold trim, explode. cbn [String.list_ascii_of_string drop_space]. rewrite Hc. rewrite reverse_cons.
  destruct (drop_space _) as [|x l] eqn:E; [by apply drop_space_snoc in E|]. rewrite reverse_cons. by destruct (reverse l).
Qed.

Lemma drop_space_cases l : drop_space l = [] \/ exists c r, drop_space l = c :: r /\ is_space c = false.
Proof. induction l as [|c l IH]; cbn; [by left|]. destruct (is_space c) eqn:E; [done|]. right. by exists c, l. Qed.

Lemma drop_space_suffix l : exists k : chars, l = (k ++ drop_space l)%list.
Proof. induction l as [|c l [k IH]]; cbn; [by exists []|]. destruct (is_space c); [|by exists []]. exists (c :: k). by rewrite <- app_comm_cons, <- IH. Qed.

Lemma trim_trim s : trim (trim s) = trim s.
Proof.
  unfold trim at 1 3. f_equal. f_equal. unfold trim. rewrite explode_implode. set (m := drop_space (explode s)).
  destruct (drop_space_cases (reverse m)) as [E|(c & r & E & Hc)]; [by rewrite E|].
  destruct (drop_space_suffix (reverse m)) as [k Hk]. apply (f_equal reverse) in Hk. rewrite reverse_involutive, reverse_app in Hk.
  assert (drop_space (reverse (drop_space (reverse m))) = reverse (drop_space (reverse m))) as ->.
  { destruct (reverse (drop_space (reverse m))) as [|x t] eqn:Et; [done|]. cbn. destruct (drop_space_cases (explode s)) as [E'|(y & z & E' & Hy)];
      fold m in E'; rewrite E' in Hk; [done|]. injection Hk as <- _. by rewrite Hy. }
  rewrite reverse_involutive, E. cbn. by rewrite Hc.
Qed.
