(* ===== verification/JsDate.v ===== *)
(** * Dates and the injected clock

    A [Date] is its time value: an integer number of milliseconds since the
    epoch ([getTime()]); invalid dates are not modelled.  The proleptic Gregorian
    calendar functions below are those ECMAScript specifies for [Date.UTC],
    [getUTCFullYear/Month/Date] and [toISOString].

    [Clock] is the port of src/domain/shared/ids.ts.  Time can advance between
    two readings, so a clock is a stream: [clock i] is the value the [i]-th call
    of [now()] inside one operation returns. *)

From stdpp Require Import prelude strings list.
From Stdlib Require Import ZArith Lia Ascii.
From S2P Require Import Prelude JsString.
Local Open Scope string_scope.
Local Open Scope Z_scope.

Notation Date := Z (only parsing).
Definition Clock := nat -> Date.
(** A fake clock, stuck at one instant. *)
Definition fixed_clock (t : Date) : Clock := fun _ => t.
(** The rest of the readings after [n] calls. *)
Definition clock_after (n : nat) (clock : Clock) : Clock := fun i => clock (n + i)%nat.

Definition DAY_MS : Z := 86400000.

(** The time values a Date can hold: 100,000,000 days around the epoch. *)
Definition MAX_TIME : Z := 8640000000000000.

(** ** Civil calendar *)

(** Days since the epoch of a civil date; months are 1-based, [d] may lie
    outside the month (ECMAScript's [MakeDay]). *)
Definition days_from_civil (y m d : Z) : Z :=
  let y := if m <=? 2 then y - 1 else y in
  let era := y / 400 in
  let yoe := y - era * 400 in
  let doy := (153 * (if 2 <? m then m - 3 else m + 9) + 2) / 5 + d - 1 in
  let doe := yoe * 365 + yoe / 4 - yoe / 100 + doy in
  era * 146097 + doe - 719468.

Definition civil_from_days (z : Z) : Z * Z * Z :=
  let z := z + 719468 in
  let era := z / 146097 in
  let doe := z - era * 146097 in
  let yoe := (doe - doe / 1460 + doe / 36524 - doe / 146096) / 365 in
  let y := yoe + era * 400 in
  let doy := doe - (365 * yoe + yoe / 4 - yoe / 100) in
  let mp := (5 * doy + 2) / 153 in
  let d := doy - (153 * mp + 2) / 5 + 1 in
  let m := if mp <? 10 then mp + 3 else mp - 9 in
  (if m <=? 2 then y + 1 else y, m, d).

Definition leap (y : Z) : bool :=
  ((y mod 4 =? 0) && negb (y mod 100 =? 0)) || (y mod 400 =? 0).

Definition month_days (y m : Z) : Z :=
  if m =? 2 then (if leap y then 29 else 28)
  else if (m =? 4) || (m =? 6) || (m =? 9) || (m =? 11) then 30 else 31.

Definition dayOf (t : Date) : Z := t / DAY_MS.
Definition timeInDay (t : Date) : Z := t mod DAY_MS.
Definition getUTCFullYear (t : Date) : Z := (civil_from_days (dayOf t)).1.1.
(** 0-based, as in JavaScript. *)
Definition getUTCMonth (t : Date) : Z := (civil_from_days (dayOf t)).1.2 - 1.
Definition getUTCDate (t : Date) : Z := (civil_from_days (dayOf t)).2.

(** [Date.UTC(year, month, day) + ms]: months overflow into years, and the
    two-digit years 0..99 mean 1900..1999. *)
Definition Date_UTC (year month day ms : Z) : Date :=
  let year := if (0 <=? year) && (year <=? 99) then 1900 + year else year in
  days_from_civil (year + month / 12) (month mod 12 + 1) day * DAY_MS + ms.

(** [setUTCDate(d)] *)
Definition setUTCDate (t : Date) (d : Z) : Date :=
  let '(y, m, _) := civil_from_days (dayOf t) in
  days_from_civil y m d * DAY_MS + timeInDay t.

(** ** [toISOString] *)

Definition pad (n : nat) (z : Z) : string := implode (padStart n "0" (show_base 10 z)).

Definition show_year (y : Z) : string :=
  if (0 <=? y) && (y <=? 9999) then pad 4 y
  else if y <? 0 then "-" +:+ pad 6 (- y) else "+" +:+ pad 6 y.

Definition toISOString (t : Date) : string :=
  let '(y, m, d) := civil_from_days (dayOf t) in
  let ms := timeInDay t in
  show_year y +:+ "-" +:+ pad 2 m +:+ "-" +:+ pad 2 d +:+ "T" +:+
  pad 2 (ms / 3600000) +:+ ":" +:+ pad 2 (ms / 60000 mod 60) +:+ ":" +:+
  pad 2 (ms / 1000 mod 60) +:+ "." +:+ pad 3 (ms mod 1000) +:+ "Z".

(** [Math.max(0, Math.floor((now - due) / DAY_MS))]: whole days late.  The
    difference of two time values is an integer below [2^53] in magnitude and
    the rounded quotient never crosses an integer, so integer division is the
    floating-point result. *)
Definition wholeDaysBetween (due now : Date) : Z := Z.max 0 ((now - due) / DAY_MS).

Arguments days_from_civil : simpl never.
Arguments civil_from_days : simpl never.
Arguments dayOf : simpl never.
Arguments timeInDay : simpl never.
Arguments Date_UTC : simpl never.
Arguments setUTCDate : simpl never.
Arguments toISOString : simpl never.
Arguments wholeDaysBetween : simpl never.

(** ** The calendar functions are inverse *)

Definition valid_civil (y m d : Z) : Prop := 1 <= m <= 12 /\ 1 <= d <= month_days y m.

Lemma leap_period y k : leap (y + k * 400) = leap y.
Proof.
  unfold leap.
  replace (y + k * 400) with (y + (k * 100) * 4) at 1 by lia. rewrite Z.mod_add by lia.
  replace (y + k * 400) with (y + (k * 4) * 100) at 1 by lia. rewrite Z.mod_add by lia.
  by rewrite Z.mod_add by lia.
Qed.

Lemma days_from_civil_period y m d k :
  days_from_civil (y + k * 400) m d = days_from_civil y m d + k * 146097.
Proof.
  unfold days_from_civil.
  destruct (m <=? 2).
  - replace (y + k * 400 - 1) with ((y - 1) + k * 400) by lia. rewrite Z.div_add by lia.
    replace (y - 1 + k * 400 - ((y - 1) / 400 + k) * 400) with (y - 1 - (y - 1) / 400 * 400) by lia. lia.
  - rewrite Z.div_add by lia.
    replace (y + k * 400 - (y / 400 + k) * 400) with (y - y / 400 * 400) by lia. lia.
Qed.

Lemma civil_from_days_period z k :
  civil_from_days (z + k * 146097) =
  let '(y, m, d) := civil_from_days z in (y + k * 400, m, d).
Proof.
  unfold civil_from_days.
  replace (z + k * 146097 + 719468) with ((z + 719468) + k * 146097) by lia.
  rewrite Z.div_add by lia.
  replace (z + 719468 + k * 146097 - ((z + 719468) / 146097 + k) * 146097)
    with (z + 719468 - (z + 719468) / 146097 * 146097) by lia.
  cbv zeta. match goal with |- context [if ?b <=? 2 then _ else _] => destruct (b <=? 2) end;
    do 2 f_equal; lia.
Qed.

(** Years counted from March, inside a 400-year era: first day, length, and the
    closed formula that recovers the year from a day. *)
Definition era_start (k : Z) : Z := k * 365 + k / 4 - k / 100.
Definition era_length (k : Z) : Z := if leap (k + 1) then 366 else 365.
Definition era_year (doe : Z) : Z := (doe - doe / 1460 + doe / 36524 - doe / 146096) / 365.

Lemma era_year_mono x y : 0 <= x <= y -> era_year x <= era_year y.
Proof.
  intros H. unfold era_year. apply Z.div_le_mono; [lia|].
  change 146096 with (36524 * 4). rewrite <- !Z.div_div by lia.
  assert (x / 36524 <= y / 36524) by (apply Z.div_le_mono; lia).
  set (p := x / 36524) in *. set (q := y / 36524) in *. clearbody p q.
  pose proof (Z.div_mod x 1460 ltac:(lia)). pose proof (Z.mod_pos_bound x 1460 ltac:(lia)).
  pose proof (Z.div_mod y 1460 ltac:(lia)). pose proof (Z.mod_pos_bound y 1460 ltac:(lia)).
  pose proof (Z.div_mod p 4 ltac:(lia)). pose proof (Z.mod_pos_bound p 4 ltac:(lia)).
  pose proof (Z.div_mod q 4 ltac:(lia)). pose proof (Z.mod_pos_bound q 4 ltac:(lia)). lia.
Qed.

Definition year_ok (k : Z) : bool :=
  (era_year (era_start k) =? k) && (era_year (era_start k + era_length k - 1) =? k) &&
  ((k =? 399) || (era_start (k + 1) =? era_start k + era_length k)).

Lemma years_ok : forallb year_ok (seqZ 0 400) = true.
Proof. vm_compute. reflexivity. Qed.

Lemma year_bounds k : 0 <= k < 400 ->
  era_year (era_start k) = k /\ era_year (era_start k + era_length k - 1) = k /\
  (k < 399 -> era_start (k + 1) = era_start k + era_length k).
Proof.
  intros Hk. pose proof (forallb_seqZ year_ok 0 400 k years_ok ltac:(lia)) as H.
  unfold year_ok in H. rewrite !andb_true_iff, orb_true_iff in H. lia.
Qed.

Lemma era_start_nonneg k : 0 <= k -> 0 <= era_start k.
Proof.
  intros Hk. unfold era_start. assert (0 <= k / 4) by (apply Z.div_pos; lia).
  assert (k / 100 <= k) by (apply Z.div_le_upper_bound; lia). lia.
Qed.

Lemma era_year_inside k doy : 0 <= k < 400 -> 0 <= doy < era_length k ->
  era_year (era_start k + doy) = k.
Proof.
  intros Hk Hd. destruct (year_bounds k Hk) as (H1 & H2 & _).
  pose proof (era_start_nonneg k ltac:(lia)).
  pose proof (era_year_mono (era_start k) (era_start k + doy) ltac:(lia)).
  pose proof (era_year_mono (era_start k + doy) (era_start k + era_length k - 1) ltac:(lia)). lia.
Qed.

Lemma era_year_range doe : 0 <= doe < 146097 -> 0 <= era_year doe < 400.
Proof.
  intros H. pose proof (era_year_mono 0 doe ltac:(lia)) as H1.
  pose proof (era_year_mono doe 146096 ltac:(lia)) as H2.
  change (era_year 0) with 0 in H1. change (era_year 146096) with 399 in H2. lia.
Qed.

(** Every day of the era lies in the year the formula gives. *)
Lemma era_year_day doe : 0 <= doe < 146097 ->
  0 <= doe - era_start (era_year doe) < era_length (era_year doe).
Proof.
  intros H. pose proof (era_year_range doe H) as Hk. set (k := era_year doe) in *.
  destruct (year_bounds k Hk) as (H1 & H2 & H3). split.
  - destruct (decide (era_start k <= doe)) as [|Hlt]; [lia|]. exfalso.
    destruct (decide (k = 0)) as [E|].
    { rewrite E in Hlt. change (era_start 0) with 0 in Hlt. lia. }
    destruct (year_bounds (k - 1) ltac:(lia)) as (_ & H4 & H5).
    rewrite Z.sub_add in H5. specialize (H5 ltac:(lia)).
    pose proof (era_year_mono doe (era_start (k - 1) + era_length (k - 1) - 1) ltac:(lia)). lia.
  - destruct (decide (doe - era_start k < era_length k)) as [|Hge]; [lia|]. exfalso.
    destruct (decide (k = 399)) as [E|].
    { rewrite E in Hge. change (era_start 399) with 145731 in Hge.
      change (era_length 399) with 366 in Hge. lia. }
    specialize (H3 ltac:(lia)). destruct (year_bounds (k + 1) ltac:(lia)) as (H4 & _).
    pose proof (era_start_nonneg (k + 1) ltac:(lia)).
    pose proof (era_year_mono (era_start (k + 1)) doe ltac:(lia)). lia.
Qed.

(** The months of a March-based year. *)
Definition month_start (mp : Z) : Z := (153 * mp + 2) / 5.
Definition month_index (doy : Z) : Z := (5 * doy + 2) / 153.
Definition civil_month (mp : Z) : Z := if mp <? 10 then mp + 3 else mp - 9.
Definition march_month (m : Z) : Z := if 2 <? m then m - 3 else m + 9.

Lemma leap_mod y : leap (y mod 400 + 1) = leap (y + 1).
Proof.
  rewrite <- (leap_period (y mod 400 + 1) (y / 400)). f_equal.
  pose proof (Z.div_mod y 400 ltac:(lia)). lia.
Qed.

Lemma month_in_year mp d y : 0 <= mp < 12 ->
  1 <= d <= month_days (if civil_month mp <=? 2 then y + 1 else y) (civil_month mp) ->
  0 <= month_start mp + d - 1 < era_length (y mod 400) /\
  month_index (month_start mp + d - 1) = mp.
Proof.
  intros Hmp. unfold era_length. rewrite leap_mod. unfold month_index.
  assert (mp = 0 \/ mp = 1 \/ mp = 2 \/ mp = 3 \/ mp = 4 \/ mp = 5 \/ mp = 6 \/ mp = 7 \/
          mp = 8 \/ mp = 9 \/ mp = 10 \/ mp = 11) as Hc by lia.
  destruct Hc as [->|[->|[->|[->|[->|[->|[->|[->|[->|[->|[->| ->]]]]]]]]]]];
    unfold month_days, month_start; simpl; intros Hd;
    destruct (leap (y + 1)); Z.to_euclidean_division_equations; lia.
Qed.

Lemma month_of_day doy y : 0 <= doy < era_length (y mod 400) ->
  0 <= month_index doy < 12 /\
  1 <= doy - month_start (month_index doy) + 1 <=
    month_days (if civil_month (month_index doy) <=? 2 then y + 1 else y) (civil_month (month_index doy)).
Proof.
  unfold era_length. rewrite leap_mod. intros Hd.
  assert (0 <= month_index doy < 12) as Hr.
  { unfold month_index. split; [apply Z.div_pos; destruct (leap (y + 1)); lia|].
    apply Z.div_lt_upper_bound; destruct (leap (y + 1)); lia. }
  split; [done|].
  pose proof (Z.div_mod (5 * doy + 2) 153 ltac:(lia)) as Hdm.
  pose proof (Z.mod_pos_bound (5 * doy + 2) 153 ltac:(lia)) as Hmb.
  fold (month_index doy) in Hdm. set (mp := month_index doy) in *. clearbody mp.
  assert (mp = 0 \/ mp = 1 \/ mp = 2 \/ mp = 3 \/ mp = 4 \/ mp = 5 \/ mp = 6 \/ mp = 7 \/
          mp = 8 \/ mp = 9 \/ mp = 10 \/ mp = 11) as Hc by lia.
  destruct Hc as [->|[->|[->|[->|[->|[->|[->|[->|[->|[->|[->| ->]]]]]]]]]]];
    unfold month_days, month_start; simpl;
    destruct (leap (y + 1)); Z.to_euclidean_division_equations; lia.
Qed.

Lemma civil_march m : 1 <= m <= 12 ->
  0 <= march_month m < 12 /\ civil_month (march_month m) = m.
Proof.
  intros Hm. unfold march_month, civil_month.
  destruct (Z.ltb_spec 2 m); [destruct (Z.ltb_spec (m - 3) 10)|destruct (Z.ltb_spec (m + 9) 10)]; lia.
Qed.

Lemma era_split era doe : 0 <= doe < 146097 -> (era * 146097 + doe) / 146097 = era.
Proof. intros H. symmetry. apply Z.div_unique with doe; lia. Qed.

Lemma era_rest era doe : 0 <= doe < 146097 -> (era * 146097 + doe) mod 146097 = doe.
Proof. intros H. symmetry. apply Z.mod_unique with era; lia. Qed.

Lemma era_total k doy : 0 <= k < 400 -> 0 <= doy < era_length k -> 0 <= era_start k + doy < 146097.
Proof.
  intros Hk Hd. pose proof (era_start_nonneg k ltac:(lia)). split; [lia|].
  unfold era_start. unfold era_length in Hd.
  assert (k = 399 \/ k <= 398) as [->|Hle] by lia.
  { change (leap (399 + 1)) with true in Hd. change (399 / 4) with 99. change (399 / 100) with 3. lia. }
  assert (doy < 366) by (destruct (leap (k + 1)); lia).
  pose proof (Z.div_mod k 4 ltac:(lia)). pose proof (Z.mod_pos_bound k 4 ltac:(lia)).
  pose proof (Z.div_mod k 100 ltac:(lia)). pose proof (Z.mod_pos_bound k 100 ltac:(lia)). lia.
Qed.

(** The two closed formulas, in terms of the era decomposition. *)
Lemma days_from_civil_era y m d :
  let y' := if m <=? 2 then y - 1 else y in
  days_from_civil y m d + 719468 =
  y' / 400 * 146097 + (era_start (y' mod 400) + (month_start (march_month m) + d - 1)).
Proof.
  unfold days_from_civil, era_start, month_start, march_month. cbv zeta.
  set (y' := if m <=? 2 then y - 1 else y).
  assert (y' - y' / 400 * 400 = y' mod 400) as ->.
  { pose proof (Z.div_mod y' 400 ltac:(lia)). lia. }
  lia.
Qed.

Lemma civil_from_days_era z :
  let doe := (z + 719468) mod 146097 in
  let k := era_year doe in
  let doy := doe - era_start k in
  let mp := month_index doy in
  let y := k + (z + 719468) / 146097 * 400 in
  civil_from_days z =
  (if civil_month mp <=? 2 then y + 1 else y, civil_month mp, doy - month_start mp + 1).
Proof.
  unfold civil_from_days, era_start, month_start, month_index, era_year, civil_month. cbv zeta.
  assert (forall x, x - x / 146097 * 146097 = x mod 146097) as Hm.
  { intros x. pose proof (Z.div_mod x 146097 ltac:(lia)). lia. }
  rewrite Hm, (Z.mul_comm 365). reflexivity.
Qed.

Lemma civil_roundtrip y m d : valid_civil y m d ->
  civil_from_days (days_from_civil y m d) = (y, m, d).
Proof.
  intros [Hm Hd]. destruct (civil_march m Hm) as [Hmp Hcm].
  pose proof (days_from_civil_era y m d) as E. cbv zeta in E.
  set (y' := if m <=? 2 then y - 1 else y) in *.
  assert ((if m <=? 2 then y' + 1 else y') = y) as Hy' by (unfold y'; destruct (m <=? 2); lia).
  destruct (month_in_year (march_month m) d y' Hmp) as [Hdoy Hidx]; [by rewrite Hcm, Hy'|].
  pose proof (Z.mod_pos_bound y' 400 ltac:(lia)) as Hk.
  set (doy := month_start (march_month m) + d - 1) in *.
  pose proof (era_total (y' mod 400) doy Hk Hdoy) as Htot.
  rewrite civil_from_days_era, E. cbv zeta.
  rewrite era_split, era_rest by done.
  rewrite era_year_inside by done.
  replace (era_start (y' mod 400) + doy - era_start (y' mod 400)) with doy by lia.
  rewrite Hidx, Hcm.
  replace (y' mod 400 + y' / 400 * 400) with y' by (pose proof (Z.div_mod y' 400 ltac:(lia)); lia).
  rewrite Hy'. f_equal. unfold doy. lia.
Qed.

Lemma days_roundtrip z :
  let '(y, m, d) := civil_from_days z in valid_civil y m d /\ days_from_civil y m d = z.
Proof.
  rewrite civil_from_days_era. cbv zeta.
  set (doe := (z + 719468) mod 146097). set (era := (z + 719468) / 146097).
  assert (0 <= doe < 146097) as Hdoe by (apply Z.mod_pos_bound; lia).
  pose proof (era_year_range doe Hdoe) as Hk. pose proof (era_year_day doe Hdoe) as Hday.
  set (k := era_year doe) in *. set (y := k + era * 400).
  assert (y mod 400 = k) as Hyk by (unfold y; rewrite Z.mod_add, Z.mod_small; lia).
  assert (y / 400 = era) as Hye.
  { unfold y. rewrite Z.div_add by lia. rewrite Z.div_small; lia. }
  destruct (month_of_day (doe - era_start k) y) as [Hmp Hd]; [by rewrite Hyk|].
  set (mp := month_index (doe - era_start k)) in *.
  assert (1 <= civil_month mp <= 12 /\ march_month (civil_month mp) = mp) as [Hcm Hmm].
  { unfold civil_month, march_month. destruct (Z.ltb_spec mp 10).
    - destruct (Z.ltb_spec 2 (mp + 3)); lia.
    - destruct (Z.ltb_spec 2 (mp - 9)); lia. }
  split; [by split|].
  pose proof (days_from_civil_era (if civil_month mp <=? 2 then y + 1 else y) (civil_month mp)
    (doe - era_start k - month_start mp + 1)) as E. cbv zeta in E.
  replace (if civil_month mp <=? 2
       then (if civil_month mp <=? 2 then y + 1 else y) - 1
       else if civil_month mp <=? 2 then y + 1 else y) with y in E
    by (destruct (civil_month mp <=? 2); lia).
  rewrite Hyk, Hye, Hmm in E.
  pose proof (Z.div_mod (z + 719468) 146097 ltac:(lia)). fold doe era in H. lia.
Qed.

(** A later day of the month is a later day. *)
Lemma days_from_civil_day y m d d' : days_from_civil y m d' = days_from_civil y m d + (d' - d).
Proof. unfold days_from_civil. lia. Qed.

(** Day 0 of a month is the last day of the month before. *)
Lemma month_zero_day y m : 1 <= m <= 12 ->
  days_from_civil (y + m / 12) (m mod 12 + 1) 0 = days_from_civil y m (month_days y m).
Proof.
  intros Hm.
  assert (m = 12 \/ m = 2 \/ (m < 12 /\ m <> 2)) as [->|[->|[Hlt Hne]]] by lia.
  - change (12 / 12) with 1. change (12 mod 12 + 1) with 1. unfold month_days. simpl.
    unfold days_from_civil. simpl. replace (y + 1 - 1) with y by lia.
    Z.to_euclidean_division_equations. lia.
  - pose proof (days_from_civil_era y 3 0) as E3. pose proof (days_from_civil_era y 2 (month_days y 2)) as E2.
    change (2 / 12) with 0. change (2 mod 12 + 1) with 3. rewrite Z.add_0_r.
    cbv zeta in *. change (3 <=? 2) with false in E3. change (2 <=? 2) with true in E2. cbv iota in *.
    unfold month_days in *. simpl in *.
    change (month_start (march_month 3)) with 0 in E3. change (month_start (march_month 2)) with 337 in E2.
    pose proof (Z.mod_pos_bound (y - 1) 400 ltac:(lia)) as Hk. pose proof (Z.div_mod (y - 1) 400 ltac:(lia)).
    set (k := (y - 1) mod 400) in *. destruct (year_bounds k Hk) as (_ & _ & Hn).
    assert (leap y = leap (k + 1)) as Hl.
    { unfold k. rewrite leap_mod. f_equal. lia. }
    rewrite Hl in *. unfold era_length in Hn.
    destruct (decide (k = 399)) as [E|].
    + assert (y = 0 + ((y - 1) / 400 + 1) * 400) as Hy by lia.
      assert (y mod 400 = 0) as E0 by (rewrite Hy; rewrite Z.mod_add by lia; done).
      assert (y / 400 = (y - 1) / 400 + 1) as E1 by (rewrite Hy at 1; rewrite Z.div_add by lia; done).
      rewrite E0, E1 in E3. rewrite E in E2. change (era_start 0) with 0 in E3.
      change (era_start 399) with 145731 in E2. rewrite E. change (leap (399 + 1)) with true in *.
      cbv iota in *. lia.
    + assert (y mod 400 = k + 1) as E0.
      { symmetry. apply Z.mod_unique with ((y - 1) / 400); lia. }
      assert (y / 400 = (y - 1) / 400) as E1.
      { symmetry. apply Z.div_unique with (k + 1); lia. }
      rewrite E0, E1 in E3. specialize (Hn ltac:(lia)). rewrite Hn in E3.
      destruct (leap (k + 1)); lia.
  - rewrite Z.div_small, Z.mod_small, Z.add_0_r by lia.
    assert (m = 1 \/ m = 3 \/ m = 4 \/ m = 5 \/ m = 6 \/ m = 7 \/ m = 8 \/ m = 9 \/ m = 10 \/ m = 11) as Hc by lia.
    unfold days_from_civil, month_days.
    destruct Hc as [->|[->|[->|[->|[->|[->|[->|[->|[->| ->]]]]]]]]]; simpl;
      Z.to_euclidean_division_equations; lia.
Qed.

Lemma timeInDay_range t : 0 <= timeInDay t < DAY_MS.
Proof. apply Z.mod_pos_bound. done. Qed.

Lemma dayOf_make n ms : 0 <= ms < DAY_MS -> dayOf (n * DAY_MS + ms) = n.
Proof. intros H. unfold dayOf, DAY_MS in *. symmetry. apply Z.div_unique with ms; lia. Qed.

Lemma timeInDay_make n ms : 0 <= ms < DAY_MS -> timeInDay (n * DAY_MS + ms) = ms.
Proof. intros H. unfold timeInDay, DAY_MS in *. symmetry. apply Z.mod_unique with n; lia. Qed.

Lemma wholeDaysBetween_nonneg due now : 0 <= wholeDaysBetween due now.
Proof. unfold wholeDaysBetween. lia. Qed.

Lemma wholeDaysBetween_spec due now n : 0 < n ->
  n <= wholeDaysBetween due now <-> due + n * DAY_MS <= now.
Proof.
  intros Hn. unfold wholeDaysBetween. split.
  - intros H. assert (n <= (now - due) / DAY_MS) by lia.
    assert (n * DAY_MS <= now - due); [|lia].
    rewrite Z.mul_comm. etrans; [apply Z.mul_le_mono_nonneg_l; [done|eassumption]|].
    by apply Z.mul_div_le.
  - intros H. enough (n <= (now - due) / DAY_MS) by lia.
    apply Z.div_le_lower_bound; [done|]. lia.
Qed.

Lemma Date_UTC_civil y month d ms : 100 <= y ->
  Date_UTC y month d ms = days_from_civil (y + month / 12) (month mod 12 + 1) d * DAY_MS + ms.
Proof. intros Hy. unfold Date_UTC. destruct (Z.leb_spec y 99); [lia|]. by rewrite andb_false_r. Qed.

(** [Date.UTC] over a day's own fields finds the day back, from the year 100 on. *)
Lemma Date_UTC_day t : 100 <= getUTCFullYear t ->
  Date_UTC (getUTCFullYear t) (getUTCMonth t) (getUTCDate t) 0 = dayOf t * DAY_MS.
Proof.
  intros Hy. rewrite Date_UTC_civil by done. unfold getUTCFullYear, getUTCMonth, getUTCDate in *.
  pose proof (days_roundtrip (dayOf t)) as H. destruct (civil_from_days (dayOf t)) as [[y m] d]. cbn in *.
  destruct H as [[Hm Hd] H]. rewrite Z.div_small, Z.mod_small by lia.
  rewrite Z.add_0_r, Z.add_0_r. replace (m - 1 + 1) with m by lia. by rewrite H.
Qed.
