(* ===== verification/JsMap.v ===== *)
(** * JavaScript maps

    A [Map] is the list of its entries in insertion order.  Grouping by a key through a map,
    with what it computes. *)

From stdpp Require Import prelude strings list.
From Stdlib Require Import ZArith Lia.
From S2P Require Import Prelude.
Local Open Scope list_scope.
Local Open Scope Z_scope.

Section maps.
  Context {K V : Type} `{EqDecision K}.

Fixpoint mapGet (m : list (K * V)) (k : K) : option V :=
  match m with
  | [] => None
  | (k', v) :: m => if decide (k' = k) then Some v else mapGet m k
  end.

(** [set] keeps the place of a key it knows and adds a new one at the end. *)
Fixpoint mapSet (m : list (K * V)) (k : K) (v : V) : list (K * V) :=
  match m with
  | [] => [(k, v)]
  | (k', v') :: m => if decide (k' = k) then (k', v) :: m else (k', v') :: mapSet m k v
  end.

Lemma mapGet_set m k v k' : mapGet (mapSet m k v) k' = if decide (k' = k) then Some v else mapGet m k'.
Proof. induction m as [|[x w] m IH]; cbn; repeat case_decide; cbn; repeat case_decide; congruence. Qed.

Lemma mapSet_keys m k v : (mapSet m k v).*1 = addDistinct m.*1 k.
Proof.
  induction m as [|[x w] m IH]; cbn [mapSet].
  - unfold addDistinct. case_decide as H; [by apply elem_of_nil in H|done].
  - case_decide as E; rewrite !fmap_cons; cbn [fst]; [subst|rewrite IH]; unfold addDistinct;
      repeat case_decide; try done; exfalso; rewrite elem_of_cons in *; naive_solver.
Qed.

Lemma mapGet_None m k : mapGet m k = None <-> k ∉ m.*1.
Proof.
  induction m as [|[x w] m IH]; cbn; [set_solver|]. case_decide as E.
  - subst. set_solver.
  - rewrite IH. set_solver.
Qed.

Lemma mapSet_new m k v : k ∉ m.*1 -> mapSet m k v = m ++ [(k, v)].
Proof.
  induction m as [|[x w] m IH]; intros Hk; [done|]. cbn [mapSet]. rewrite fmap_cons in Hk. cbn in Hk.
  rewrite decide_False by set_solver. rewrite IH by set_solver. done.
Qed.

End maps.

Lemma mapGet_elem {K V} `{EqDecision K} (m : list (K * V)) k v : NoDup m.*1 -> (k, v) ∈ m -> mapGet m k = Some v.
Proof.
  induction m as [|[x w] m IH]; cbn; intros Hnd Hin; [by apply elem_of_nil in Hin|].
  apply NoDup_cons in Hnd as [Hx Hnd]. apply elem_of_cons in Hin as [[= -> ->]|Hin]; [by rewrite decide_True|].
  case_decide as E; [subst; exfalso; apply Hx; apply list_elem_of_fmap; by exists (k, v)|by apply IH].
Qed.

Lemma distinct_snoc {A} `{EqDecision A} (xs : list A) x : distinct (xs ++ [x]) = addDistinct (distinct xs) x.
Proof. unfold distinct. by rewrite foldl_app. Qed.

(** ** Maps filled from a list

    [const v = m.get(k) ?? empty; ...; m.set(k, v)] for every element of a list. *)

Section filling.
  Context {K V : Type} `{EqDecision K}.

Lemma fmap_mapGet (ks : list K) (g : K -> V) k : mapGet ((fun k => (k, g k)) <$> ks) k = if decide (k ∈ ks) then Some (g k) else None.
Proof.
  induction ks as [|x ks IH]; cbn [fmap list_fmap mapGet].
  - case_decide as H; [by apply elem_of_nil in H|done].
  - rewrite IH. repeat case_decide; subst; try done; exfalso; rewrite elem_of_cons in *; naive_solver.
Qed.

Lemma fmap_mapSet (ks : list K) (g : K -> V) k v : NoDup ks ->
  mapSet ((fun k => (k, g k)) <$> ks) k v = (fun k' => (k', if decide (k' = k) then v else g k')) <$> addDistinct ks k.
Proof.
  intros Hnd. induction Hnd as [|x ks Hx Hnd IH]; cbn [fmap list_fmap mapSet].
  - unfold addDistinct. case_decide as H; [by apply elem_of_nil in H|]. cbn. by rewrite decide_True.
  - unfold addDistinct in *. destruct (decide (x = k)) as [->|Hne].
    + rewrite (decide_True (P := k ∈ k :: ks)) by left. rewrite fmap_cons, decide_True by done. f_equal.
      apply list_fmap_ext. intros i y Hy. rewrite decide_False; [done|]. intros ->. apply Hx. by eapply list_elem_of_lookup_2.
    + rewrite IH. assert (k ∈ x :: ks <-> k ∈ ks) as Hin by (rewrite elem_of_cons; naive_solver).
      repeat case_decide; try tauto; cbn [app]; rewrite fmap_cons; by rewrite (decide_False (P := x = k)).
Qed.

Context {A : Type} (key : A -> K) (empty : V) (add : V -> A -> V).

Definition fill (m : list (K * V)) (x : A) : list (K * V) := mapSet m (key x) (add (default empty (mapGet m (key x))) x).

(** The keys stay in order of first appearance; each holds the fold of its elements. *)
Lemma fill_exact l : foldl fill [] l = (fun k => (k, foldl add empty (List.filter (fun x => bool_decide (key x = k)) l))) <$> distinct (key <$> l).
Proof.
  induction l as [|x l IH] using rev_ind; [done|]. rewrite foldl_app. cbn [foldl]. rewrite IH. unfold fill.
  rewrite fmap_mapGet, fmap_mapSet by apply distinct_NoDup. rewrite fmap_app. cbn [fmap list_fmap]. rewrite distinct_snoc.
  apply list_fmap_ext. intros i k _. f_equal. rewrite filter_snoc, foldl_app. case_decide as E.
  - subst. rewrite bool_decide_true by done. cbn [foldl]. f_equal.
    destruct (decide (key x ∈ distinct (key <$> l))) as [H|H]; cbn; [done|].
    rewrite (proj2 (filter_nil_iff _ _)); [done|]. intros y Hy. apply bool_decide_eq_false. intros E. apply H.
    apply distinct_elem, list_elem_of_fmap. by exists y.
  - by rewrite bool_decide_false by congruence.
Qed.
End filling.

(** Grouping: the values are the lists of the elements. *)
Definition group {A K} `{EqDecision K} (key : A -> K) : list (K * list A) -> A -> list (K * list A) := fill key [] (fun rows x => rows ++ [x]).

Lemma group_exact {A K} `{EqDecision K} (key : A -> K) l :
  foldl (group key) [] l = (fun k => (k, List.filter (fun x => bool_decide (key x = k)) l)) <$> distinct (key <$> l).
Proof.
  unfold group. rewrite fill_exact. apply list_fmap_ext. intros i k _. f_equal. generalize (List.filter (fun x => bool_decide (key x = k)) l).
  intros l'. induction l' as [|x l' IH] using rev_ind; [done|]. rewrite foldl_app. cbn. by rewrite IH.
Qed.

(** ** Partitions *)

Section partition.
  Context {A K : Type} `{EqDecision K} (key : A -> K).

Lemma join_insert_out (ks : list K) k0 x (g : K -> list A) : k0 ∉ ks ->
  (fun k => if bool_decide (k0 = k) then x :: g k else g k) <$> ks = g <$> ks.
Proof.
  intros Hk. apply list_fmap_ext. intros i k Hi. rewrite bool_decide_false; [done|]. intros ->. apply Hk. by eapply list_elem_of_lookup_2.
Qed.

Lemma join_insert (ks : list K) k0 x (g : K -> list A) : NoDup ks -> k0 ∈ ks ->
  mjoin ((fun k => if bool_decide (k0 = k) then x :: g k else g k) <$> ks) ≡ₚ x :: mjoin (g <$> ks).
Proof.
  induction ks as [|k ks IH]; intros Hnd Hin; [by apply elem_of_nil in Hin|].
  apply NoDup_cons in Hnd as [Hk Hnd]. rewrite !fmap_cons. cbn [mjoin list_join]. case_bool_decide as E.
  - subst k0. by rewrite join_insert_out.
  - rewrite IH; [|done|set_solver]. by rewrite Permutation_middle.
Qed.

Lemma partition_by (l : list A) (ks : list K) : NoDup ks -> (forall x, x ∈ l -> key x ∈ ks) ->
  mjoin ((fun k => List.filter (fun x => bool_decide (key x = k)) l) <$> ks) ≡ₚ l.
Proof.
  intros Hnd. induction l as [|x l IH]; intros Hin.
  - clear. by induction ks as [|k ks IH].
  - cbn [List.filter]. rewrite (join_insert ks (key x) x) by (try done; apply Hin; set_solver).
    rewrite IH; [done|]. intros y Hy. apply Hin. set_solver.
Qed.
End partition.
