(* ===== verification/IsoDate.v ===== *)
(** * ISO-8601 instants as text

    What the code does with printed dates: parse them back ([new Date(iso).getTime()]) and
    compare them as strings.  The parser is the engine's: [DateParser] states the part of
    its documented behaviour the code relies on (ECMA-262, Date.parse is the inverse of
    toISOString), and [Date_parse_iso] is an executable instance for strings of the ISO
    shape.  [toISOString_cmp]: between the years 0 and 9999 the order of the printed
    strings is the order of the instants. *)

From stdpp Require Import prelude strings list.
From Stdlib Require Import ZArith Lia Ascii.
From S2P Require Import Prelude JsNumber JsString JsDate.
Local Open Scope string_scope.
Local Open Scope list_scope.
Local Open Scope Z_scope.
Local Open Scope js_scope.

(** The instants whose year prints with four digits. *)
Definition iso_time (t : Date) : Prop := 0 <= getUTCFullYear t <= 9999.
#[export] Instance iso_time_dec t : Decision (iso_time t).
Proof. unfold iso_time. apply _. Defined.

Class DateParser (Date_parse : string -> option Z) : Prop :=
  parse_iso : forall t, iso_time t -> Date_parse (toISOString t) = Some t.

(** ** An executable parser *)

Definition field (i n : nat) (l : chars) : Z := read_dec (take n (drop i l)).

(** The zone designator in minutes east of UTC. *)
Definition zone_minutes (l : chars) : Z :=
  match l with
  | sign :: r => if decide (sign = "Z"%char) then 0
                 else (if decide (sign = "-"%char) then -1 else 1) * (field 0 2 r * 60 + field 3 2 r)
  | [] => 0
  end.

(** The digits of the second's fraction, and what follows them. *)
Definition fraction (l : chars) : chars * chars :=
  match l with
  | c :: r => if decide (c = "."%char) then (take_while is_digit r, drop (length (take_while is_digit r)) r) else ([], l)
  | [] => ([], [])
  end.

Definition Date_parse_iso (s : string) : option Z :=
  if ISO_PATTERN s then
    let l := explode s in
    let y := field 0 4 l in let m := field 5 2 l in let d := field 8 2 l in
    let h := field 11 2 l in let mi := field 14 2 l in let sec := field 17 2 l in
    let '(frac, zone) := fraction (drop 19 l) in
    let ms := read_dec (padEnd 3 "0" frac) in
    if decide (1 <= m <= 12 /\ 1 <= d <= month_days y m /\ h <= 23 /\ mi <= 59 /\ sec <= 59) then
      Some (days_from_civil y m d * DAY_MS + h * 3600000 + mi * 60000 + sec * 1000 + ms - zone_minutes zone * 60000)
    else None
  else None.

(** ** Padded numbers *)

Lemma is_digit_digit_char d : 0 <= d < 10 -> is_digit (digit_char d) = true.
Proof. intros H. by apply digit_value_char. Qed.

Lemma of_digits_app b l1 l2 : of_digits b (l1 ++ l2) = of_digits b l1 * b ^ Z.of_nat (length l2) + of_digits b l2.
Proof.
  unfold of_digits. rewrite foldl_app. generalize (foldl (fun acc d => acc * b + d) 0 l1). induction l2 as [|d l2 IH]; intros a; cbn [foldl length].
  - rewrite Z.pow_0_r. lia.
  - rewrite IH, (IH (0 * b + d)), Nat2Z.inj_succ, Z.pow_succ_r by lia. lia.
Qed.

Lemma read_dec_app l1 l2 : read_dec (l1 ++ l2) = read_dec l1 * 10 ^ Z.of_nat (length l2) + read_dec l2.
Proof. unfold read_dec. rewrite fmap_app, of_digits_app, length_fmap. done. Qed.

Lemma read_dec_zeros n : read_dec (replicate n "0"%char) = 0.
Proof. induction n as [|n IH]; [done|]. change (replicate (S n) "0"%char) with (["0"%char] ++ replicate n "0"%char). rewrite read_dec_app, IH. done. Qed.

Lemma read_dec_bound l : Forall (fun c => is_digit c = true) l -> 0 <= read_dec l < 10 ^ Z.of_nat (length l).
Proof.
  intros H. split; [by apply read_dec_nonneg|]. induction H as [|c l Hc Hl IH]; [done|].
  change (c :: l) with ([c] ++ l). rewrite read_dec_app. cbn [length app]. rewrite Nat2Z.inj_succ, Z.pow_succ_r by lia.
  assert (read_dec [c] <= 9); [|pose proof (Z.pow_pos_nonneg 10 (Z.of_nat (length l))); nia].
  unfold read_dec, digit_value, of_digits. cbn. unfold is_digit, in_range in Hc. lia.
Qed.

(** [l] is the number [z] in [n] digits. *)
Record digits_as (n : nat) (z : Z) (l : chars) : Prop := {
  da_length : length l = n;
  da_value : read_dec l = z;
  da_digits : Forall (fun c => is_digit c = true) l;
}.

Lemma pad_digits n z : 0 <= z < 10 ^ Z.of_nat (S n) -> digits_as (S n) z (explode (pad (S n) z)).
Proof.
  intros Hz. unfold pad. rewrite explode_implode.
  destruct (digits_of_spec 10 z) as (_ & Hd & _ & Hlen & _); [lia..|]. specialize (Hlen n ltac:(lia)).
  assert (length (show_base 10 z) <= S n)%nat by (unfold show_base; rewrite length_fmap; done).
  constructor.
  - by apply padStart_length.
  - unfold padStart. rewrite read_dec_app, read_dec_zeros, read_show_dec by lia. lia.
  - apply Forall_app. split; [by apply Forall_replicate|]. apply Forall_fmap. eapply Forall_impl; [exact Hd|].
    intros d. apply is_digit_digit_char.
Qed.

(** ** The layout of a printed instant *)

Definition iso_chars (Y M D h mi s f : chars) : chars :=
  Y ++ "-"%char :: M ++ "-"%char :: D ++ "T"%char :: h ++ ":"%char :: mi ++ ":"%char :: s ++ "."%char :: f ++ ["Z"%char].

Record printed (t : Date) (Y M D h mi s f : chars) : Prop := {
  pr_year : digits_as 4 (getUTCFullYear t) Y;
  pr_month : digits_as 2 (getUTCMonth t + 1) M;
  pr_day : digits_as 2 (getUTCDate t) D;
  pr_hour : digits_as 2 (timeInDay t / 3600000) h;
  pr_minute : digits_as 2 (timeInDay t / 60000 mod 60) mi;
  pr_second : digits_as 2 (timeInDay t / 1000 mod 60) s;
  pr_milli : digits_as 3 (timeInDay t mod 1000) f;
}.

Lemma iso_layout t : iso_time t ->
  exists Y M D h mi s f, explode (toISOString t) = iso_chars Y M D h mi s f /\ printed t Y M D h mi s f.
Proof.
  unfold iso_time. intros Hy. pose proof (days_roundtrip (dayOf t)) as Hd. pose proof (timeInDay_range t) as Hms. unfold DAY_MS in Hms.
  unfold toISOString, getUTCFullYear, iso_chars in *. destruct (civil_from_days (dayOf t)) as [[y m] d] eqn:Ec. cbn in Hy, Hd.
  destruct Hd as [[Hm Hdd] _].
  assert (d <= 31) by (unfold month_days in *; repeat case_match; lia).
  unfold show_year. rewrite (proj2 (Z.leb_le 0 y)), (proj2 (Z.leb_le y 9999)) by lia. cbn [andb].
  do 7 eexists. split; [rewrite !explode_app; reflexivity|].
  assert (0 <= timeInDay t / 3600000 < 24) by (split; [apply Z.div_pos; lia|apply Z.div_lt_upper_bound; lia]).
  constructor; unfold getUTCFullYear, getUTCMonth, getUTCDate; rewrite ?Ec; cbn [fst snd].
  all: try (replace (m - 1 + 1) with m by lia).
  all: apply pad_digits; cbn; try lia; split; try (by apply Z.mod_pos_bound); try (eapply Z.lt_trans; [by apply Z.mod_pos_bound|done]).
Qed.

(** ** Parsing what was printed *)

Lemma digits_n_app n z l r : digits_as n z l -> digits_n n (l ++ r) = Some r.
Proof. intros [Hlen _ H]. rewrite <- Hlen. clear Hlen. induction H as [|c l Hc _ IH]; cbn; [done|]. by rewrite Hc. Qed.

Lemma lit_cons c r : lit c (c :: r) = Some r.
Proof. cbn. by rewrite decide_True. Qed.

Lemma iso_pattern_printed t Y M D h mi s f : printed t Y M D h mi s f -> ISO_PATTERN (implode (iso_chars Y M D h mi s f)) = true.
Proof.
  intros [HY HM HD Hh Hmi Hs Hf]. unfold ISO_PATTERN. rewrite (orb_comm _ (full _ _)).
  match goal with |- (full ?r ?x || _)%bool = true => assert (full r x = true) as ->; [|done] end.
  unfold full. rewrite explode_implode. unfold seqr, iso_chars.
  rewrite (digits_n_app _ _ _ _ HY). cbn [mbind option_bind]. rewrite lit_cons. cbn [mbind option_bind].
  rewrite (digits_n_app _ _ _ _ HM). cbn [mbind option_bind]. rewrite lit_cons. cbn [mbind option_bind].
  rewrite (digits_n_app _ _ _ _ HD). cbn [mbind option_bind]. rewrite lit_cons. cbn [mbind option_bind].
  rewrite (digits_n_app _ _ _ _ Hh). cbn [mbind option_bind]. rewrite lit_cons. cbn [mbind option_bind].
  rewrite (digits_n_app _ _ _ _ Hmi). cbn [mbind option_bind]. rewrite lit_cons. cbn [mbind option_bind].
  rewrite (digits_n_app _ _ _ _ Hs). cbn [mbind option_bind]. rewrite lit_cons. cbn [mbind option_bind].
  rewrite (digits_n_app _ _ _ _ Hf). done.
Qed.

Lemma time_fields t : timeInDay t = timeInDay t / 3600000 * 3600000 + timeInDay t / 60000 mod 60 * 60000 +
  timeInDay t / 1000 mod 60 * 1000 + timeInDay t mod 1000.
Proof. pose proof (timeInDay_range t). Z.to_euclidean_division_equations. lia. Qed.

Lemma iso_fields t Y M D h mi s f : printed t Y M D h mi s f ->
  let l := iso_chars Y M D h mi s f in
  field 0 4 l = getUTCFullYear t /\ field 5 2 l = getUTCMonth t + 1 /\ field 8 2 l = getUTCDate t /\
  field 11 2 l = timeInDay t / 3600000 /\ field 14 2 l = timeInDay t / 60000 mod 60 /\
  field 17 2 l = timeInDay t / 1000 mod 60 /\ drop 19 l = "."%char :: f ++ ["Z"%char].
Proof.
  intros [HY HM HD Hh Hmi Hs Hf]. cbv zeta. unfold iso_chars.
  pose proof (da_length _ _ _ HY) as LY. pose proof (da_length _ _ _ HM) as LM. pose proof (da_length _ _ _ HD) as LD.
  pose proof (da_length _ _ _ Hh) as Lh. pose proof (da_length _ _ _ Hmi) as Lmi. pose proof (da_length _ _ _ Hs) as Ls.
  destruct Y as [|y1 [|y2 [|y3 [|y4 []]]]]; try discriminate LY. destruct M as [|m1 [|m2 []]]; try discriminate LM.
  destruct D as [|d1 [|d2 []]]; try discriminate LD. destruct h as [|h1 [|h2 []]]; try discriminate Lh.
  destruct mi as [|i1 [|i2 []]]; try discriminate Lmi. destruct s as [|s1 [|s2 []]]; try discriminate Ls.
  repeat split; try done; first [apply (da_value _ _ _ HY)|apply (da_value _ _ _ HM)|apply (da_value _ _ _ HD)|
    apply (da_value _ _ _ Hh)|apply (da_value _ _ _ Hmi)|apply (da_value _ _ _ Hs)].
Qed.

Lemma fraction_digits z f r : digits_as 3 z f -> fraction ("."%char :: f ++ "Z"%char :: r) = (f, "Z"%char :: r).
Proof.
  intros [_ _ H]. unfold fraction. rewrite decide_True by done. rewrite take_while_prefix by done. by rewrite drop_app_length.
Qed.

(** [Date.parse(date.toISOString())] is the date. *)
#[export] Instance Date_parse_iso_parser : DateParser Date_parse_iso.
Proof.
  intros t Ht. destruct (iso_layout t Ht) as (Y & M & D & h & mi & s & f & E & Hp).
  unfold Date_parse_iso. rewrite <- (implode_explode (toISOString t)), E, (iso_pattern_printed _ _ _ _ _ _ _ _ Hp), explode_implode.
  destruct (iso_fields _ _ _ _ _ _ _ _ Hp) as (-> & -> & -> & -> & -> & -> & ->).
  rewrite (fraction_digits _ _ _ (pr_milli _ _ _ _ _ _ _ _ Hp)).
  destruct (pr_milli _ _ _ _ _ _ _ _ Hp) as [Hlen Hval _]. unfold padEnd. rewrite Hlen, app_nil_r, Hval.
  pose proof (days_roundtrip (dayOf t)) as Hd. unfold getUTCFullYear, getUTCMonth, getUTCDate.
  destruct (civil_from_days (dayOf t)) as [[y m] d]. cbn [fst snd]. destruct Hd as [[Hm Hdd] Hday].
  replace (m - 1 + 1) with m by lia. pose proof (timeInDay_range t) as Hms. unfold DAY_MS in Hms.
  rewrite decide_True; [|split; [done|]; split; [done|]; split; [|split]].
  - rewrite Hday. f_equal. cbn [zone_minutes]. rewrite decide_True by done. pose proof (time_fields t). pose proof (Z.div_mod t DAY_MS ltac:(done)). unfold dayOf, timeInDay, DAY_MS in *. lia.
  - assert (timeInDay t / 3600000 < 24); [apply Z.div_lt_upper_bound; lia|lia].
  - pose proof (Z.mod_pos_bound (timeInDay t / 60000) 60). lia.
  - pose proof (Z.mod_pos_bound (timeInDay t / 1000) 60). lia.
Qed.

(** ** The order of printed instants *)

(** The comparison of two sequences of numbers, most significant first. *)
Fixpoint lex (l : list (Z * Z)) : comparison :=
  match l with
  | [] => Eq
  | (a, b) :: l => match a ?= b with Eq => lex l | c => c end
  end.

Lemma ascii_compare_value c c' : Ascii.compare c c' = (digit_value c ?= digit_value c').
Proof.
  rewrite ascii_compare_N. unfold digit_value, charCode. unfold Z.sub. rewrite !(Z.add_comm _ (- (48))), Z.add_compare_mono_l.
  by rewrite <- N2Z.inj_compare.
Qed.

Lemma read_dec_cons c l : read_dec (c :: l) = digit_value c * 10 ^ Z.of_nat (length l) + read_dec l.
Proof. change (c :: l) with ([c] ++ l). by rewrite read_dec_app. Qed.

(** Fixed-width numbers compare like their values. *)
Lemma compare_digits n z z' a b r r' : digits_as n z a -> digits_as n z' b ->
  String.compare (implode (a ++ r)) (implode (b ++ r')) =
  match z ?= z' with Eq => String.compare (implode r) (implode r') | c => c end.
Proof.
  intros [La <- Ha] [Lb <- Hb]. revert n b La Lb Hb. induction Ha as [|c a Hc Ha IH]; intros n b La Lb Hb.
  - destruct b; [|cbn in *; congruence]. by rewrite Z.compare_refl.
  - destruct n as [|n]; [done|]. destruct b as [|c' b]; [done|]. apply Forall_cons in Hb as [Hc' Hb].
    cbn in La, Lb. injection La as La. injection Lb as Lb. cbn [app implode String.string_of_list_ascii String.compare].
    rewrite !read_dec_cons, La, Lb, ascii_compare_value.
    pose proof (read_dec_bound a Ha) as Ba. pose proof (read_dec_bound b Hb) as Bb. rewrite La in Ba. rewrite Lb in Bb.
    change (String.string_of_list_ascii) with implode.
    destruct (Z.compare_spec (digit_value c) (digit_value c')) as [->|Hlt|Hgt].
    + rewrite Z.add_compare_mono_l. by apply (IH n).
    + rewrite (proj2 (Z.compare_lt_iff _ _)); [done|nia].
    + rewrite (proj2 (Z.compare_gt_iff _ _)); [done|nia].
Qed.

Lemma compare_same c r r' : String.compare (implode (c :: r)) (implode (c :: r')) = String.compare (implode r) (implode r').
Proof. cbn. rewrite ascii_compare_N, N.compare_refl. done. Qed.

Lemma printed_cmp t t' Y M D h mi s f Y' M' D' h' mi' s' f' : printed t Y M D h mi s f -> printed t' Y' M' D' h' mi' s' f' ->
  String.compare (implode (iso_chars Y M D h mi s f)) (implode (iso_chars Y' M' D' h' mi' s' f')) =
  lex [(getUTCFullYear t, getUTCFullYear t'); (getUTCMonth t + 1, getUTCMonth t' + 1); (getUTCDate t, getUTCDate t');
       (timeInDay t / 3600000, timeInDay t' / 3600000); (timeInDay t / 60000 mod 60, timeInDay t' / 60000 mod 60);
       (timeInDay t / 1000 mod 60, timeInDay t' / 1000 mod 60); (timeInDay t mod 1000, timeInDay t' mod 1000)].
Proof.
  intros [HY HM HD Hh Hmi Hs Hf] [HY' HM' HD' Hh' Hmi' Hs' Hf']. unfold iso_chars. cbn [lex].
  rewrite (compare_digits _ _ _ _ _ _ _ HY HY'), compare_same, (compare_digits _ _ _ _ _ _ _ HM HM'), compare_same,
    (compare_digits _ _ _ _ _ _ _ HD HD'), compare_same, (compare_digits _ _ _ _ _ _ _ Hh Hh'), compare_same,
    (compare_digits _ _ _ _ _ _ _ Hmi Hmi'), compare_same, (compare_digits _ _ _ _ _ _ _ Hs Hs'), compare_same,
    (compare_digits _ _ _ _ _ _ _ Hf Hf'). done.
Qed.

(** ** The calendar is monotone *)

Lemma month_step y m : 1 <= m <= 11 -> days_from_civil y (m + 1) 1 = days_from_civil y m 1 + month_days y m.
Proof.
  intros Hm. pose proof (month_zero_day y m ltac:(lia)) as E. rewrite Z.div_small, Z.mod_small, Z.add_0_r in E by lia.
  rewrite (days_from_civil_day y (m + 1) 0 1), E, (days_from_civil_day y m 1). lia.
Qed.

Lemma year_step y : days_from_civil (y + 1) 1 1 = days_from_civil y 12 1 + 31.
Proof.
  pose proof (month_zero_day y 12 ltac:(lia)) as E. change (12 / 12) with 1 in E. change (12 mod 12 + 1) with 1 in E.
  rewrite (days_from_civil_day (y + 1) 1 0 1), E, (days_from_civil_day y 12 1). change (month_days y 12) with 31. lia.
Qed.

Lemma month_days_pos y m : 28 <= month_days y m <= 31.
Proof. unfold month_days. repeat case_match; lia. Qed.

Lemma months_mono y m m' : 1 <= m -> m < m' <= 12 -> days_from_civil y m 1 + month_days y m <= days_from_civil y m' 1.
Proof.
  intros Hm [Hlt Hle]. assert (exists k : nat, m' = m + 1 + Z.of_nat k) as [k ->] by (exists (Z.to_nat (m' - m - 1)); lia).
  clear Hlt. induction k as [|k IH].
  - rewrite Z.add_0_r, month_step by lia. lia.
  - specialize (IH ltac:(lia)). replace (m + 1 + Z.of_nat (S k)) with (m + 1 + Z.of_nat k + 1) by lia.
    rewrite month_step by lia. pose proof (month_days_pos y (m + 1 + Z.of_nat k)). lia.
Qed.

Lemma years_mono y y' : y < y' -> days_from_civil y 12 1 + 31 <= days_from_civil y' 1 1.
Proof.
  intros Hlt. replace y' with (y + 1 + Z.of_nat (Z.to_nat (y' - y - 1))) by lia. generalize (Z.to_nat (y' - y - 1)). intros k.
  induction k as [|k IH]; [rewrite Z.add_0_r, year_step; lia|].
  replace (y + 1 + Z.of_nat (S k)) with (y + 1 + Z.of_nat k + 1) by lia. rewrite year_step.
  pose proof (months_mono (y + 1 + Z.of_nat k) 1 12 ltac:(lia) ltac:(lia)). pose proof (month_days_pos (y + 1 + Z.of_nat k) 1). lia.
Qed.

Lemma civil_cmp y m d y' m' d' : valid_civil y m d -> valid_civil y' m' d' ->
  (days_from_civil y m d ?= days_from_civil y' m' d') = lex [(y, y'); (m, m'); (d, d')].
Proof.
  intros Hv Hv'. cbn [lex].
  assert (Hy : forall y m d y' m' d', valid_civil y m d -> valid_civil y' m' d' -> y < y' -> days_from_civil y m d < days_from_civil y' m' d').
  { clear. intros y m d y' m' d' [Hm Hd] [Hm' Hd'] H. pose proof (years_mono y y' H). pose proof (month_days_pos y m).
    rewrite (days_from_civil_day y m 1 d), (days_from_civil_day y' m' 1 d').
    assert (days_from_civil y' 1 1 <= days_from_civil y' m' 1).
    { destruct (decide (m' = 1)) as [->|]; [lia|]. pose proof (months_mono y' 1 m' ltac:(lia) ltac:(lia)). pose proof (month_days_pos y' 1). lia. }
    assert (days_from_civil y m 1 + month_days y m <= days_from_civil y 12 1 + 31); [|lia].
    destruct (decide (m = 12)) as [->|]; [lia|]. pose proof (months_mono y m 12 ltac:(lia) ltac:(lia)). lia. }
  assert (Hmo : forall y m d m' d', valid_civil y m d -> valid_civil y m' d' -> m < m' -> days_from_civil y m d < days_from_civil y m' d').
  { clear. intros y m d m' d' [Hm Hd] [Hm' Hd'] H. rewrite (days_from_civil_day y m 1 d), (days_from_civil_day y m' 1 d').
    pose proof (months_mono y m m' ltac:(lia) ltac:(lia)). lia. }
  destruct (Z.compare_spec y y') as [->|H|H]; [|apply Z.compare_lt_iff; by apply Hy|apply Z.compare_gt_iff; by apply Hy].
  destruct (Z.compare_spec m m') as [->|H|H]; [|apply Z.compare_lt_iff; by apply Hmo|apply Z.compare_gt_iff; by apply Hmo].
  rewrite (days_from_civil_day y' m' 1 d), (days_from_civil_day y' m' 1 d'), Z.add_compare_mono_l.
  destruct (Z.compare_spec d d') as [->|H|H]; [apply Z.compare_eq_iff; lia|apply Z.compare_lt_iff; lia|apply Z.compare_gt_iff; lia].
Qed.

Lemma lex_app l1 l2 : lex (l1 ++ l2) = match lex l1 with Eq => lex l2 | c => c end.
Proof. induction l1 as [|[a b] l1 IH]; cbn [app lex]; [done|]. by destruct (a ?= b). Qed.

Lemma time_cmp a b : 0 <= a < DAY_MS -> 0 <= b < DAY_MS ->
  (a ?= b) = lex [(a / 3600000, b / 3600000); (a / 60000 mod 60, b / 60000 mod 60); (a / 1000 mod 60, b / 1000 mod 60); (a mod 1000, b mod 1000)].
Proof.
  unfold DAY_MS. intros Ha Hb. cbn [lex].
  destruct (Z.compare_spec (a / 3600000) (b / 3600000)); [destruct (Z.compare_spec (a / 60000 mod 60) (b / 60000 mod 60));
    [destruct (Z.compare_spec (a / 1000 mod 60) (b / 1000 mod 60)); [destruct (Z.compare_spec (a mod 1000) (b mod 1000))| |]| |]| |].
  all: first [apply Z.compare_eq_iff|apply Z.compare_lt_iff|apply Z.compare_gt_iff]; Z.to_euclidean_division_equations; lia.
Qed.

(** Between the years 0 and 9999, printed instants compare as strings like the instants. *)
Lemma toISOString_cmp t t' : iso_time t -> iso_time t' -> String.compare (toISOString t) (toISOString t') = (t ?= t').
Proof.
  intros Ht Ht'. destruct (iso_layout t Ht) as (Y & M & D & h & mi & s & f & E & Hp).
  destruct (iso_layout t' Ht') as (Y' & M' & D' & h' & mi' & s' & f' & E' & Hp').
  rewrite <- (implode_explode (toISOString t)), <- (implode_explode (toISOString t')), E, E', (printed_cmp t t' _ _ _ _ _ _ _ _ _ _ _ _ _ _ Hp Hp').
  change (lex (?a :: ?b :: ?c :: ?r)) with (lex ([a; b; c] ++ r)). rewrite lex_app, <- time_cmp by apply timeInDay_range.
  pose proof (days_roundtrip (dayOf t)) as Hd. pose proof (days_roundtrip (dayOf t')) as Hd'. unfold getUTCFullYear, getUTCMonth, getUTCDate.
  destruct (civil_from_days (dayOf t)) as [[y m] d], (civil_from_days (dayOf t')) as [[y' m'] d']. cbn [fst snd].
  destruct Hd as [Hv Hd], Hd' as [Hv' Hd']. rewrite !Z.sub_simpl_r, <- civil_cmp, Hd, Hd' by done.
  pose proof (timeInDay_range t). pose proof (timeInDay_range t').
  pose proof (Z.div_mod t DAY_MS ltac:(done)). pose proof (Z.div_mod t' DAY_MS ltac:(done)). unfold dayOf, timeInDay, DAY_MS in *. symmetry.
  destruct (Z.compare_spec (t / 86400000) (t' / 86400000)) as [Ed|Hlt|Hgt].
  - destruct (Z.compare_spec (t mod 86400000) (t' mod 86400000)); [apply Z.compare_eq_iff|apply Z.compare_lt_iff|apply Z.compare_gt_iff]; lia.
  - apply Z.compare_lt_iff. lia.
  - apply Z.compare_gt_iff. lia.
Qed.
