(* ===== verification/Money.v ===== *)
(** * Money: integer minor units (src/domain/shared/money.ts)

    [Money] is a record of a bigint amount and a currency.  The class keeps its
    constructor private, so a value is only ever built by the operations of this
    file; [money_wf] is the invariant they establish.  [allocate] runs the
    source's float arithmetic ([JsNumber]) and its largest-remainder split;
    [largest_remainder] is the bigint half of it, on already scaled weights. *)

From stdpp Require Import prelude strings list sorting.
From Stdlib Require Import ZArith Lia Ascii.
From S2P Require Import Prelude JsNumber JsString.
Local Open Scope string_scope.
Local Open Scope Z_scope.
Local Open Scope js_scope.

Record Money := MkMoney { amount : Z; currency : Currency }.

#[export] Instance Money_eq_dec : EqDecision Money.
Proof. solve_decision. Defined.

Definition CURRENCIES : list Currency := [KES; USD; GBP; EUR; TZS; UGX].

Definition show_currency (c : Currency) : string :=
  match c with
  | KES => "KES" | USD => "USD" | GBP => "GBP" | EUR => "EUR" | TZS => "TZS" | UGX => "UGX"
  end.

(** [(CURRENCIES as readonly string[]).includes(value)], with the currency found. *)
Definition currency_of_string (s : string) : option Currency :=
  List.find (fun c => bool_decide (show_currency c = s)) CURRENCIES.

(** The invariant of the class: a [Money] is never negative. *)
Definition money_wf (m : Money) : Prop := 0 <= amount m.
#[export] Instance money_wf_dec m : Decision (money_wf m).
Proof. unfold money_wf. apply _. Defined.

(** ** Construction *)

Definition toMinor (v : numeric) : result Z :=
  match v with
  | Num x =>
      refuse (isFinite x = false \/ integerValue x = None) with "MONEY_NOT_INTEGER" ;;
      BigInt x
  | Big z => Ok z
  end.

Definition zero (c : Currency) : Money := MkMoney 0 c.

Definition ofMinor (v : numeric) (c : Currency) : result Money :=
  minor ← toMinor v;
  refuse (minor < 0) with "MONEY_NEGATIVE" ;;
  Ok (MkMoney minor c).

(** The regular expression of [parse]: a zero or digits without a leading zero,
    then an optional point with one or two digits.  The result is the two capture
    groups (the second is empty when it did not take part). *)
Definition decimal_match (l : chars) : option (chars * chars) :=
  let whole := take_while is_digit l in
  let rest := drop (length whole) l in
  let whole_ok := match whole with
                  | [] => false
                  | [_] => true
                  | c :: _ => negb (bool_decide (c = "0"%char))
                  end in
  if whole_ok then
    match rest with
    | [] => Some (whole, [])
    | c :: frac =>
        if bool_decide (c = "."%char) && forallb is_digit frac &&
           ((length frac =? 1)%nat || (length frac =? 2)%nat)
        then Some (whole, frac) else None
    end
  else None.

Definition parse (text : string) (c : Currency) : result Money :=
  match decimal_match (explode (trim text)) with
  | None => Err (DomainError "MONEY_UNPARSEABLE")
  | Some (w, f) =>
      let whole := read_dec w in
      let frac := padEnd 2 "0" f in
      let cents := read_dec frac in
      Ok (MkMoney (whole * 100 + cents) c)
  end.

(** ** Arithmetic *)

Definition assertSame (a b : Money) : result unit :=
  refuse (currency a <> currency b) with "CURRENCY_MISMATCH" ;;
  Ok tt.

Definition add (a b : Money) : result Money :=
  _ ← assertSame a b;
  Ok (MkMoney (amount a + amount b) (currency a)).

Definition subtract (a b : Money) : result Money :=
  _ ← assertSame a b;
  refuse (amount b > amount a) with "UNDERFLOW" ;;
  Ok (MkMoney (amount a - amount b) (currency a)).

Definition isZero (m : Money) : bool := amount m =? 0.
Definition isPositive (m : Money) : bool := 0 <? amount m.

Definition compareTo (a b : Money) : result Z :=
  _ ← assertSame a b;
  Ok (if decide (amount a = amount b) then 0
      else if decide (amount a > amount b) then 1 else -1).

Definition equals (a b : Money) : result bool :=
  c ← compareTo a b;
  Ok (bool_decide (c = 0)).

(** ** Printing *)

(** The numeric part of [toString]: [`${whole}.${cents.padStart(2, '0')}`]. *)
Definition decimal (m : Money) : string :=
  let whole := Z.quot (amount m) 100 in
  let cents := Z.rem (amount m) 100 in
  show_Z whole +:+ "." +:+ implode (padStart 2 "0" (explode (show_Z cents))).

Definition toString (m : Money) : string :=
  decimal m +:+ " " +:+ show_currency (currency m).

(** ** The largest-remainder split *)

Record Share := MkShare { index : nat; base : Z; rem : Z }.

#[export] Instance Share_eq_dec : EqDecision Share.
Proof. solve_decision. Defined.

(** [order]'s comparator: larger remainder first, ties by index. *)
Definition share_cmp (a b : Share) : Z :=
  if decide (rem b = rem a) then Z.of_nat (index a) - Z.of_nat (index b)
  else if decide (rem b > rem a) then 1 else -1.

(** [(amount * scaled) / sumW]: bigint division throws on a zero divisor. *)
Definition shares (amt sumW : Z) (scaled : list Z) : result (list Share) :=
  traversei (fun i s =>
    if decide (sumW = 0) then Err RangeError
    else Ok (MkShare i (Z.quot (amt * s) sumW) (Z.rem (amt * s) sumW))) scaled.

(** The [bumped] set: the loop over [i < leftover] keeps the slots that exist. *)
Definition bumped (raw : list Share) (leftover : Z) : list nat :=
  let order := sort_by share_cmp raw in
  omap (fun i => index <$> order !! i) (seq 0 (Z.to_nat leftover)).

Definition distribute (amt : Z) (raw : list Share) : list Z :=
  let distributed := sumZ (base <$> raw) in
  let b := bumped raw (amt - distributed) in
  (fun r => if decide (index r ∈ b) then base r + 1 else base r) <$> raw.

Definition allocate (this : Money) (weights : list number) : result (list Money) :=
  refuse (weights = []) with "ALLOCATION_EMPTY" ;;
  refuse (existsb (fun w => negb (isFinite w) || nltb w (num 0)) weights = true)
    with "ALLOCATION_WEIGHT_INVALID" ;;
  let total := foldl nadd (num 0) weights in
  refuse (nleb total (num 0) = true) with "ALLOCATION_WEIGHTS_SUM_ZERO" ;;
  sumW ← scale_weight total;
  scaled ← traverse scale_weight weights;
  raw ← shares (amount this) sumW scaled;
  Ok ((fun a => MkMoney a (currency this)) <$> distribute (amount this) raw).

(** ** Lemmas *)

Lemma toMinor_bound v z : toMinor v = Ok z ->
  match v with Big z' => z = z' | Num x => integerValue x = Some z end.
Proof.
  destruct v as [z'|x]; cbn; intros H; invert_ok; [done|].
  unfold BigInt in H. destruct (integerValue x); by invert_ok.
Qed.

Lemma ofMinor_Ok v c m : ofMinor v c = Ok m -> money_wf m /\ currency m = c.
Proof. unfold ofMinor, money_wf. intros H. invert_ok. cbn. split; [lia|done]. Qed.

Lemma ofMinor_Big z c : 0 <= z -> ofMinor (Big z) c = Ok (MkMoney z c).
Proof. intros Hz. unfold ofMinor. cbn. case_decide; [lia|done]. Qed.

Lemma assertSame_Ok a b u : assertSame a b = Ok u -> currency a = currency b.
Proof. unfold assertSame. intros H. by invert_ok. Qed.

Lemma assertSame_same a b : currency a = currency b -> assertSame a b = Ok tt.
Proof. intros H. unfold assertSame. by case_decide. Qed.

Lemma add_Ok a b m : add a b = Ok m <->
  currency a = currency b /\ m = MkMoney (amount a + amount b) (currency a).
Proof.
  unfold add. split.
  - intros H. invert_ok. split; [by eapply assertSame_Ok|done].
  - intros [Hc ->]. by rewrite assertSame_same.
Qed.

Lemma subtract_Ok a b m : subtract a b = Ok m <->
  currency a = currency b /\ amount b <= amount a /\
  m = MkMoney (amount a - amount b) (currency a).
Proof.
  unfold subtract. split.
  - intros H. invert_ok. repeat split; [by eapply assertSame_Ok|lia].
  - intros (Hc & Ha & ->). rewrite assertSame_same by done. cbn. case_decide; [lia|done].
Qed.

Lemma add_same a b : currency a = currency b -> add a b = Ok (MkMoney (amount a + amount b) (currency a)).
Proof. intros H. by apply add_Ok. Qed.

Lemma subtract_same a b : currency a = currency b -> amount b <= amount a ->
  subtract a b = Ok (MkMoney (amount a - amount b) (currency a)).
Proof. intros H1 H2. by apply subtract_Ok. Qed.

Lemma compareTo_same a b : currency a = currency b ->
  compareTo a b = Ok (if decide (amount a = amount b) then 0
                      else if decide (amount a > amount b) then 1 else -1).
Proof. intros H. unfold compareTo. by rewrite assertSame_same. Qed.

Lemma compareTo_Ok a b c : compareTo a b = Ok c ->
  currency a = currency b /\
  (c = 0 /\ amount a = amount b \/ c = 1 /\ amount a > amount b \/ c = -1 /\ amount a < amount b).
Proof.
  unfold compareTo. intros H. invert_ok. split; [by eapply assertSame_Ok|].
  repeat case_decide; lia.
Qed.

Lemma money_eq a b : amount a = amount b -> currency a = currency b -> a = b.
Proof. destruct a, b; cbn; by intros -> ->. Qed.

Lemma equals_refl m : equals m m = Ok true.
Proof. unfold equals. rewrite compareTo_same by done. cbn. by rewrite decide_True. Qed.

Lemma isPositive_true m : isPositive m <> false -> 0 < amount m.
Proof. unfold isPositive. destruct (Z.ltb_spec 0 (amount m)); [done|]. by intros []. Qed.

#[export] Hint Resolve assertSame_same : fuatilia.

(** *** Printing and parsing *)

Lemma take_while_app {A} (f : A -> bool) l1 l2 : Forall (fun x => f x = true) l1 ->
  take_while f (l1 ++ l2)%list = (l1 ++ take_while f l2)%list.
Proof. induction 1 as [|x l Hx Hl IH]; cbn; [done|]. by rewrite Hx, IH. Qed.

Lemma show_base_digits n : 0 <= n -> Forall (fun c => is_digit c = true) (show_base 10 n).
Proof.
  intros Hn. destruct (digits_of_spec 10 n) as (_ & Hr & _); [lia..|].
  unfold show_base. apply Forall_fmap. eapply Forall_impl; [exact Hr|].
  intros d Hd. by apply digit_value_char.
Qed.

Lemma read_dec_cents c : 0 <= c < 100 -> read_dec (padStart 2 "0" (show_base 10 c)) = c /\
  length (padStart 2 "0" (show_base 10 c)) = 2%nat /\
  forallb is_digit (padStart 2 "0" (show_base 10 c)) = true.
Proof.
  intros Hc. pose proof (forallb_seqZ
    (fun c => (read_dec (padStart 2 "0" (show_base 10 c)) =? c) &&
      (length (padStart 2 "0" (show_base 10 c)) =? 2)%nat &&
      forallb is_digit (padStart 2 "0" (show_base 10 c))) 0 100 c) as H.
  rewrite !andb_true_iff, Z.eqb_eq, Nat.eqb_eq in H.
  destruct H as [[? ?] ?]; [vm_compute; reflexivity|lia|done].
Qed.

(** The printed whole part has the shape [parse] accepts. *)
Lemma show_base_whole n : 0 <= n ->
  match show_base 10 n with
  | [] => false | [_] => true | c :: _ => negb (bool_decide (c = "0"%char))
  end = true.
Proof.
  intros Hn. destruct (digits_of_spec 10 n) as (Hne & Hr & _ & _ & Hhd); [lia..|].
  unfold show_base. destruct (digits_of 10 n) as [|d [|d' ds]] eqn:E; [done|done|].
  cbn. apply Forall_cons in Hr as [Hd _]. specialize (Hhd d (d' :: ds) eq_refl ltac:(done)).
  rewrite bool_decide_eq_false_2; [done|]. intros E0.
  destruct (digit_value_char d Hd) as [Hv _]. rewrite E0 in Hv. change (0 = d) in Hv. lia.
Qed.

Lemma is_digit_not_space c : is_digit c = true -> is_space c = false.
Proof.
  unfold is_digit, in_range, is_space. rewrite andb_true_iff, !Z.leb_le. intros [H1 H2].
  repeat (rewrite orb_false_iff || rewrite andb_false_iff || rewrite Z.leb_gt || rewrite Z.eqb_neq). lia.
Qed.

Lemma trim_digits l c c' : is_digit c = true -> is_digit c' = true ->
  trim (implode (c :: l ++ [c'])) = implode (c :: l ++ [c']).
Proof.
  intros H1%is_digit_not_space H2%is_digit_not_space. unfold trim. rewrite explode_implode.
  cbn [drop_space]. rewrite H1, app_comm_cons, reverse_snoc. cbn [drop_space]. rewrite H2.
  rewrite <- (reverse_snoc (c :: l) c'). by rewrite reverse_involutive.
Qed.

Lemma decimal_match_app w f : forallb is_digit w = true -> forallb is_digit f = true ->
  match w with [] => false | [_] => true | c :: _ => negb (bool_decide (c = "0"%char)) end = true ->
  length f = 2%nat -> decimal_match (w ++ "."%char :: f) = Some (w, f).
Proof.
  intros Hw Hf Hsh Hl. unfold decimal_match.
  assert (take_while is_digit (w ++ "."%char :: f)%list = w) as ->.
  { rewrite take_while_app; [by cbn; rewrite app_nil_r|]. by apply forallb_Forall. }
  rewrite drop_app_length, Hsh, Hf, Hl. by rewrite bool_decide_eq_true_2.
Qed.

Lemma decimal_shape m : money_wf m ->
  exists w f, decimal m = implode (w ++ "."%char :: f) /\
    decimal_match (w ++ "."%char :: f) = Some (w, f) /\
    trim (decimal m) = decimal m /\ length f = 2%nat /\
    read_dec w * 100 + read_dec f = amount m.
Proof.
  unfold money_wf. intros Hm. unfold decimal.
  rewrite Z.quot_div_nonneg, Z.rem_mod_nonneg by lia.
  pose proof (Z.div_mod (amount m) 100 ltac:(lia)) as Hdm.
  pose proof (Z.mod_pos_bound (amount m) 100 ltac:(lia)) as Hc.
  assert (0 <= amount m / 100) as Hw by (apply Z.div_pos; lia).
  unfold show_Z. destruct (Z.ltb_spec (amount m / 100) 0), (Z.ltb_spec (amount m mod 100) 0); try lia.
  set (w := show_base 10 (amount m / 100)).
  set (f := padStart 2 "0" (show_base 10 (amount m mod 100))).
  assert (show_dec (amount m / 100) +:+ "." +:+
    implode (padStart 2 "0" (explode (show_dec (amount m mod 100)))) = implode (w ++ "."%char :: f)) as ->.
  { unfold show_dec. by rewrite explode_implode, implode_app. }
  destruct (read_dec_cents (amount m mod 100) Hc) as (Hrf & Hlf & Hdf). fold f in Hrf, Hlf, Hdf.
  pose proof (show_base_digits _ Hw) as Hdw. fold w in Hdw.
  pose proof (show_base_whole _ Hw) as Hsh. fold w in Hsh.
  exists w, f. split; [done|]. split; [|split; [|split; [done|]]].
  - by apply decimal_match_app; [apply forallb_Forall|..].
  - destruct w as [|c w']; [done|]. destruct f as [|c1 [|c2 [|? ?]]]; try done.
    apply Forall_cons in Hdw as [Hc0 _]. cbn in Hdf. rewrite !andb_true_iff in Hdf.
    destruct Hdf as (_ & Hc2 & _).
    replace ((c :: w') ++ ["."%char; c1; c2])%list with (c :: (w' ++ ["."%char; c1]) ++ [c2])%list
      by (cbn; by rewrite <- app_assoc).
    by apply trim_digits.
  - rewrite Hrf. unfold w. rewrite read_show_dec by done. lia.
Qed.

(** *** The split *)

#[export] Instance share_cmp_total : TotalComparator share_cmp.
Proof.
  split.
  - intros x y. unfold share_cmp. repeat case_decide; lia.
  - intros x y z. unfold share_cmp. repeat case_decide; lia.
Qed.

Lemma shares_Ok amt sumW scaled : 0 < sumW ->
  shares amt sumW scaled =
  Ok (imap (fun i s => MkShare i (Z.quot (amt * s) sumW) (Z.rem (amt * s) sumW)) scaled).
Proof.
  intros HW. unfold shares. unfold imap.
  assert (forall k, traversei_from k (fun i s => if decide (sumW = 0) then Err RangeError
      else Ok (MkShare i (Z.quot (amt * s) sumW) (Z.rem (amt * s) sumW))) scaled =
    Ok (imap (fun i s => MkShare (k + i) (Z.quot (amt * s) sumW) (Z.rem (amt * s) sumW)) scaled)) as H.
  { induction scaled as [|s l IH]; intros k; cbn; [done|].
    case_decide; [lia|]. cbn. rewrite IH. cbn. do 2 f_equal; [by rewrite Nat.add_0_r|].
    apply imap_ext. intros i x _. cbn. f_equal. lia. }
  apply H.
Qed.

(** Counting the slots that receive a leftover unit. *)
Lemma sum_indicator_take {A} `{EqDecision A} (l : list A) n : NoDup l -> (n <= length l)%nat ->
  sumZ ((fun x => if decide (x ∈ take n l) then 1 else 0) <$> l) = Z.of_nat n.
Proof.
  intros Hnd Hn. rewrite <- (take_drop n l) in Hnd. apply NoDup_app in Hnd as (_ & Hdis & _).
  rewrite <- (take_drop n l) at 1. rewrite fmap_app, sumZ_app.
  rewrite (const_fmap _ (take n l) 1), (const_fmap _ (drop n l) 0).
  - rewrite !sumZ_replicate, length_take. lia.
  - intros i x Hx. case_decide as Hin; [|done]. apply list_elem_of_lookup_2 in Hx. by destruct (Hdis x).
  - intros i x Hx. case_decide; [done|]. by apply list_elem_of_lookup_2 in Hx.
Qed.

Lemma bumped_take raw L : (Z.to_nat L <= length raw)%nat ->
  bumped raw L = index <$> take (Z.to_nat L) (sort_by share_cmp raw).
Proof.
  intros HL. unfold bumped. rewrite <- (sort_by_length share_cmp) in HL.
  generalize dependent (Z.to_nat L). generalize (sort_by share_cmp raw). intros l n Hn.
  induction n as [|n IH]; [done|]. rewrite seq_S, omap_app, IH by lia. cbn.
  destruct (lookup_lt_is_Some_2 l n) as [x Hx]; [lia|]. rewrite Hx. cbn.
  rewrite (take_S_r l n x Hx), fmap_app. done.
Qed.

Lemma rems_bound W (l : list Share) : 0 < W -> Forall (fun r => 0 <= rem r < W) l ->
  0 <= sumZ (rem <$> l) <= Z.of_nat (length l) * (W - 1).
Proof.
  intros HW. induction 1 as [|r l Hr Hl IH]; rewrite ?fmap_cons, ?sumZ_cons; cbn [length]; [done|]. lia.
Qed.

Section split.
  Context (amt W : Z) (raw : list Share).
  Context (HW : 0 < W) (Hnd : NoDup (index <$> raw)).
  Context (Hrem : Forall (fun r => 0 <= rem r < W) raw).
  Context (Hsum : sumZ (base <$> raw) * W + sumZ (rem <$> raw) = amt * W).

Let order := sort_by share_cmp raw.
Let L := amt - sumZ (base <$> raw).

Lemma leftover_rems : L * W = sumZ (rem <$> raw).
Proof. unfold L. lia. Qed.

Lemma leftover_range : 0 <= L /\ (Z.to_nat L <= length raw)%nat.
Proof.
  pose proof leftover_rems as HL. pose proof (rems_bound W raw HW Hrem) as HR. split; [nia|].
  assert (L <= Z.of_nat (length raw)); [|lia]. nia.
Qed.

(** Only slots with a remainder receive a leftover unit. *)
Lemma bumped_has_rem k r : order !! k = Some r -> (k < Z.to_nat L)%nat -> 0 < rem r.
Proof.
  intros Hk HkL. destruct (decide (0 < rem r)) as [|Hz]; [done|exfalso].
  assert (Forall (fun r => 0 <= rem r < W) order) as Ho by (unfold order; by rewrite sort_by_perm).
  pose proof (sort_by_sorted share_cmp raw) as Hs. fold order in Hs.
  pose proof leftover_rems as HL. rewrite <- (sort_by_perm share_cmp raw) in HL. fold order in HL.
  rewrite <- (take_drop_middle order k r Hk) in HL, Hs, Ho.
  apply Forall_app in Ho as [Ho1 Ho2]. apply Forall_cons in Ho2 as [Hr Ho2].
  apply StronglySorted_app_1_r, StronglySorted_inv in Hs as [_ Hs].
  rewrite fmap_app, fmap_cons, sumZ_app, sumZ_cons in HL.
  assert (sumZ (rem <$> drop (S k) order) = 0) as E.
  { rewrite (const_fmap rem _ 0); [by rewrite sumZ_replicate, Z.mul_0_r|].
    intros i x Hx. eapply Forall_lookup_1 in Hs; [|done]. eapply Forall_lookup_1 in Ho2; [|done].
    unfold cmp_le, share_cmp in Hs. repeat case_decide; lia. }
  pose proof (rems_bound W _ HW Ho1) as Hb. rewrite length_take in Hb. nia.
Qed.

Lemma bumped_index r : r ∈ raw -> index r ∈ bumped raw L -> 0 < rem r.
Proof.
  intros Hr. destruct leftover_range as [H0 HLen]. rewrite bumped_take by done.
  intros (r' & E & Hin)%list_elem_of_fmap. apply list_elem_of_lookup in Hin as [k Hk].
  apply lookup_take_Some in Hk as [Hk HkL].
  assert (r' ∈ raw) as Hr' by (rewrite <- (sort_by_perm share_cmp raw); by eapply list_elem_of_lookup_2).
  apply list_elem_of_lookup in Hr as [i Hi]. apply list_elem_of_lookup in Hr' as [j Hj].
  assert (i = j) as ->; [|].
  { eapply NoDup_lookup; [exact Hnd| |]; rewrite list_lookup_fmap, ?Hi, ?Hj; cbn; by rewrite ?E. }
  simplify_eq. by eapply bumped_has_rem.
Qed.

Lemma distribute_sum : sumZ (distribute amt raw) = amt.
Proof.
  destruct leftover_range as [H0 HLen]. unfold distribute. fold L. rewrite bumped_take by done.
  fold order. set (n := Z.to_nat L) in *.
  assert (sumZ ((fun x => if decide (x ∈ index <$> take n order) then 1 else 0) <$> (index <$> raw)) = L) as HL.
  { rewrite <- (sort_by_perm share_cmp raw). fold order. rewrite fmap_take, sum_indicator_take.
    - lia.
    - unfold order. by rewrite sort_by_perm.
    - unfold order. by rewrite length_fmap, sort_by_length. }
  rewrite <- list_fmap_compose in HL. unfold L in HL. revert HL.
  generalize (index <$> take n order). intros b. clear.
  assert (forall l, sumZ ((fun r => if decide (index r ∈ b) then base r + 1 else base r) <$> l) =
     sumZ (base <$> l) + sumZ (((fun x => if decide (x ∈ b) then 1 else 0) ∘ index) <$> l)) as H.
  { induction l as [|r l IH]; [done|]. rewrite !fmap_cons, !sumZ_cons, IH. cbn. case_decide; lia. }
  rewrite H. lia.
Qed.

End split.

(** The bigint half of [allocate], on weights that were scaled without error. *)
Lemma distribute_spec amt k zs :
  0 <= amt -> 0 < k -> 0 < sumZ zs -> Forall (fun z => 0 <= z) zs ->
  let W := sumZ zs in
  let raw := imap (fun i s => MkShare i (Z.quot (amt * s) (W * k)) (Z.rem (amt * s) (W * k)))
               ((fun z => z * k) <$> zs) in
  sumZ (distribute amt raw) = amt /\
  Forall2 (fun z p => 0 <= p /\ - W < p * W - amt * z < W) zs (distribute amt raw).
Proof.
  intros Ha Hk HW Hzs W raw. assert (sumZ zs - W = 0) as EW by (unfold W; lia).
  assert (0 < W) as HW' by done. clearbody W.
  assert (0 < W * k) as HWk by nia.
  assert (Forall2 (fun z r => 0 <= base r /\ 0 <= rem r < W * k /\
            amt * (z * k) = base r * (W * k) + rem r) zs raw) as Hraw.
  { apply Forall2_same_length_lookup_2; [by unfold raw; rewrite length_imap, length_fmap|].
    intros i z r Hz Hr. unfold raw in Hr. rewrite list_lookup_imap, list_lookup_fmap, Hz in Hr.
    cbn in Hr. simplify_eq. cbn.
    assert (0 <= z) by (by eapply Forall_lookup_1 in Hzs). assert (0 <= amt * (z * k)) by nia.
    rewrite Z.quot_div_nonneg, Z.rem_mod_nonneg by lia.
    pose proof (Z.div_mod (amt * (z * k)) (W * k) ltac:(lia)).
    pose proof (Z.mod_pos_bound (amt * (z * k)) (W * k) HWk).
    assert (0 <= amt * (z * k) / (W * k)) by (by apply Z.div_pos). lia. }
  assert (NoDup (index <$> raw)) as Hnd.
  { unfold raw. rewrite fmap_imap. replace (imap _ _) with (seq 0 (length zs)); [apply NoDup_seq|].
    apply list_eq. intros i. rewrite list_lookup_imap, list_lookup_fmap.
    destruct (zs !! i) as [z|] eqn:E; cbn.
    - apply lookup_seq. apply lookup_lt_Some in E. lia.
    - apply lookup_seq_ge. by apply lookup_ge_None in E. }
  assert (Forall (fun r => 0 <= rem r < W * k) raw) as Hrem.
  { clear -Hraw. induction Hraw; constructor; naive_solver. }
  assert (forall zs raw, Forall2 (fun z r => 0 <= base r /\ 0 <= rem r < W * k /\
            amt * (z * k) = base r * (W * k) + rem r) zs raw ->
          sumZ (base <$> raw) * (W * k) + sumZ (rem <$> raw) = amt * (sumZ zs * k)) as Hs.
  { clear. induction 1 as [|z r zs raw (? & ? & E) _ IH]; [change (0 * (W * k) + 0 = amt * (0 * k)); lia|].
    rewrite !fmap_cons, !sumZ_cons. lia. }
  specialize (Hs _ _ Hraw). replace (sumZ zs) with W in Hs by lia.
  split; [by eapply distribute_sum|].
  unfold distribute. set (L := amt - sumZ (base <$> raw)).
  assert (Forall (fun r => index r ∈ bumped raw L -> 0 < rem r) raw) as Hb.
  { apply Forall_forall. intros r Hr. by eapply (bumped_index amt (W * k)). }
  revert Hraw Hb. generalize (bumped raw L). clearbody raw. clear Hs Hnd Hrem L EW Hzs HW.
  intros b Hraw Hb. induction Hraw as [|z r zs' raw (H1 & H2 & H3) Hraw IH]; [constructor|].
  apply Forall_cons in Hb as [Hbr Hb]. rewrite fmap_cons. constructor; [|by apply IH].
  case_decide as Hin; [specialize (Hbr Hin)|]; split; try lia; nia.
Qed.

(** Integer weights whose total times [5^9] stays below [2^53]: the float sum,
    the scaling by [1e9] and [Math.round] are all exact. *)
Definition exact_weights (zs : list Z) : Prop :=
  Forall (fun z => 0 <= z) zs /\ 0 < sumZ zs /\ sumZ zs * 5 ^ 9 < 2 ^ 53.
#[export] Instance exact_weights_dec zs : Decision (exact_weights zs).
Proof. unfold exact_weights. apply _. Defined.

Lemma exact_weights_elem zs z : exact_weights zs -> z ∈ zs -> 0 <= z /\ z * 5 ^ 9 < 2 ^ 53.
Proof.
  intros (Hnn & Hpos & Hb) Hz. pose proof (sumZ_elem_le zs z Hnn Hz).
  rewrite Forall_forall in Hnn. specialize (Hnn z Hz). lia.
Qed.

Lemma foldl_nadd_num zs a : 0 <= a -> Forall (fun z => 0 <= z) zs -> a + sumZ zs < 2 ^ 53 ->
  foldl nadd (num a) (num <$> zs) = num (a + sumZ zs).
Proof.
  intros Ha Hzs. revert a Ha. induction Hzs as [|z zs Hz Hzs IH]; intros a Ha Hb.
  - cbn. by rewrite Z.add_0_r.
  - rewrite sumZ_cons in Hb. pose proof (sumZ_nonneg zs Hzs). rewrite fmap_cons. cbn [foldl].
    rewrite nadd_num by lia. rewrite IH by lia. rewrite sumZ_cons. f_equal. lia.
Qed.

(** Under exact weights, [allocate] is the bigint split. *)
Lemma allocate_reduces this zs : exact_weights zs ->
  allocate this (num <$> zs) =
  Ok ((fun p => MkMoney p (currency this)) <$> distribute (amount this)
        (imap (fun i s => MkShare i (Z.quot (amount this * s) (sumZ zs * 10 ^ 9))
                                    (Z.rem (amount this * s) (sumZ zs * 10 ^ 9)))
           ((fun z => z * 10 ^ 9) <$> zs))).
Proof.
  intros Hex. pose proof Hex as (Hnn & Hpos & Hb). unfold allocate.
  case_decide as He. { apply fmap_nil_inv in He. by subst. }
  case_decide as Hw.
  { exfalso. apply existsb_exists in Hw as (w & Hin & Hw). apply list_elem_of_In in Hin.
    apply list_elem_of_fmap in Hin as (z & -> & Hz). destruct (exact_weights_elem zs z Hex Hz).
    rewrite isFinite_num, num_not_negative in Hw by lia. done. }
  rewrite foldl_nadd_num by (done || lia). rewrite Z.add_0_l.
  case_decide as Ht. { by rewrite num_positive in Ht by lia. }
  rewrite scale_weight_exact by lia. cbn [mbind result_bind].
  assert (traverse scale_weight (num <$> zs) = Ok ((fun z => z * 10 ^ 9) <$> zs)) as ->.
  { apply traverse_Forall2, Forall2_fmap_l, Forall2_fmap_r, Forall_Forall2_diag, Forall_forall.
    intros z Hz. destruct (exact_weights_elem zs z Hex Hz). by apply scale_weight_exact. }
  cbn [mbind result_bind]. rewrite shares_Ok by lia. done.
Qed.

Lemma allocate_integer_weights this zs : money_wf this -> exact_weights zs ->
  exists ps, allocate this (num <$> zs) = Ok ((fun p => MkMoney p (currency this)) <$> ps) /\
    sumZ ps = amount this /\
    Forall2 (fun z p => 0 <= p /\ - sumZ zs < p * sumZ zs - amount this * z < sumZ zs) zs ps.
Proof.
  intros Hm Hex. rewrite allocate_reduces by done. pose proof Hex as (Hnn & Hpos & _).
  destruct (distribute_spec (amount this) (10 ^ 9) zs) as [Hs Hq]; try done.
  by eexists; repeat split.
Qed.

Lemma equal_shares_sorted q r k n :
  StronglySorted (cmp_le share_cmp) ((fun i => MkShare i q r) <$> seq k n).
Proof.
  revert k. induction n as [|n IH]; intros k; cbn; [constructor|].
  constructor; [apply IH|]. apply Forall_fmap, Forall_seq. intros j Hj. cbn.
  unfold cmp_le, share_cmp. cbn. case_decide; lia.
Qed.

(** Equal weights: every part is the quotient, and the first parts, as many as
    the remainder says, carry one unit more. *)
Lemma allocate_equal this n : money_wf this -> (0 < n)%nat -> Z.of_nat n * 5 ^ 9 < 2 ^ 53 ->
  allocate this (replicate n (num 1)) =
  Ok ((fun i => MkMoney (amount this / Z.of_nat n +
         (if decide (Z.of_nat i < amount this mod Z.of_nat n) then 1 else 0)) (currency this))
      <$> seq 0 n).
Proof.
  unfold money_wf. intros Hm Hn Hb. set (a := amount this) in *. set (N := Z.of_nat n) in *.
  assert (sumZ (replicate n 1) = N) as HS by (rewrite sumZ_replicate; unfold N; lia).
  assert (exact_weights (replicate n 1)) as Hex.
  { unfold exact_weights. rewrite HS. split; [by apply Forall_replicate|lia]. }
  rewrite <- (fmap_replicate num), allocate_reduces, HS by done. fold a. f_equal.
  assert (Z.quot (a * (1 * 10 ^ 9)) (N * 10 ^ 9) = a / N) as Eq.
  { rewrite Z.quot_div_nonneg by lia. rewrite Z.mul_1_l. apply Z.div_mul_cancel_r; lia. }
  set (q := a / N). set (r := Z.rem (a * (1 * 10 ^ 9)) (N * 10 ^ 9)).
  set (raw := imap _ _). assert (raw = (fun i => MkShare i q r) <$> seq 0 n) as Eraw.
  { apply list_eq. intros i. unfold raw. rewrite fmap_replicate, list_lookup_imap, list_lookup_fmap.
    destruct (decide (i < n)%nat).
    - rewrite lookup_replicate_2, lookup_seq_lt by lia. cbn. by rewrite Eq.
    - rewrite lookup_seq_ge by lia. rewrite lookup_ge_None_2 by (rewrite length_replicate; lia). done. }
  rewrite Eraw. clear Eraw raw. unfold distribute.
  assert (sumZ (base <$> ((fun i => MkShare i q r) <$> seq 0 n)) = N * q) as ->.
  { rewrite <- list_fmap_compose, (const_fmap _ _ q) by done.
    by rewrite sumZ_replicate, length_seq. }
  replace (a - N * q) with (a mod N) by (unfold q; pose proof (Z.div_mod a N ltac:(lia)); lia).
  pose proof (Z.mod_pos_bound a N ltac:(lia)) as Hr.
  rewrite bumped_take by (rewrite length_fmap, length_seq; lia).
  rewrite sort_by_id by apply equal_shares_sorted.
  rewrite <- fmap_take, <- list_fmap_compose, take_seq, Nat.min_l by lia.
  rewrite <- !list_fmap_compose. apply list_fmap_ext. intros i x Hx%lookup_seq. cbn.
  f_equal. unfold compose. cbn. rewrite list_fmap_id.
  destruct (decide (Z.of_nat x < a mod N)) as [Hlt|Hge].
  - rewrite decide_True; [done|]. apply elem_of_seq. lia.
  - rewrite decide_False; [lia|]. rewrite elem_of_seq. lia.
Qed.

(** C5: [Money.allocate] of a valid amount with non-negative integer weights whose total is
    positive and, times 5^9, below 2^53 (at most 4,611,686,018) returns one part per weight, in the receiver's currency, and no minor unit is created or
    destroyed: the parts sum to the amount.  Every part is within one minor unit
    of its exact proportional share (strictly, so an exact share is never
    rounded) and none is negative. *)
Theorem allocate_exact (this : Money) (zs : list Z) :
  money_wf this -> exact_weights zs ->
  exists parts, allocate this (num <$> zs) = Ok parts /\
    sumZ (amount <$> parts) = amount this /\
    Forall2 (fun z p => currency p = currency this /\ money_wf p /\
      Z.abs (amount p * sumZ zs - amount this * z) < sumZ zs) zs parts.
Proof.
  intros Hm Hex. destruct (allocate_integer_weights this zs Hm Hex) as (ps & -> & Hs & Hq).
  eexists; split; [done|]. split.
  - rewrite <- list_fmap_compose. rewrite <- Hs. f_equal. by apply list_fmap_id.
  - apply Forall2_fmap_r. eapply Forall2_impl; [exact Hq|].
    intros z p [H1 H2]. split; [done|]. split; [done|]. apply Z.abs_lt. cbn. lia.
Qed.

Lemma allocate_exact_witness :
  exists parts, allocate (MkMoney 100 KES) (num <$> [1; 1; 1]) = Ok parts /\
    sumZ (amount <$> parts) = 100 /\
    Forall2 (fun z p => currency p = KES /\ money_wf p /\
      Z.abs (amount p * 3 - 100 * z) < 3) [1; 1; 1] parts.
Proof.
  apply (allocate_exact (MkMoney 100 KES) [1; 1; 1]).
  - by vm_compute.
  - by apply (bool_decide_unpack _); vm_compute.
Defined.

(** The double nearest to one third, and a weight of [5e-10]. *)
Definition third : number := ndiv (num 1) (num 3).
Definition half_nano : number := ndiv (num 5) (num 10000000000).
Definition tenth_nano : number := ndiv (num 1) (num 10000000000).

(** with fractional weights the guarantee "sum(parts) === this.amount" of
    [Money.allocate]'s documentation fails, although every weight passes the
    guards: three weights of one third lose 7 of 10,000,000,000 minor units, two
    weights of [5e-10] double the money, and a weight of [1e-10] makes the bigint
    division throw a RangeError. *)
Theorem allocate_fractional_weights_break_the_sum :
  (exists parts, allocate (MkMoney 10000000000 KES) [third; third; third] = Ok parts /\
     sumZ (amount <$> parts) = 9999999993) /\
  (exists parts, allocate (MkMoney 100 KES) [half_nano; half_nano] = Ok parts /\
     sumZ (amount <$> parts) = 200) /\
  allocate (MkMoney 100 KES) [tenth_nano] = Err RangeError.
Proof.
  split; [|split].
  - eexists; split; [vm_compute; reflexivity|]. vm_compute. reflexivity.
  - eexists; split; [vm_compute; reflexivity|]. vm_compute. reflexivity.
  - vm_compute. reflexivity.
Qed.

(** printing and parsing are inverse: [Money.parse] of the decimal that
    [toString] prints (before the currency code) gives the value back, also with
    blanks around it, for every non-negative amount of any size. *)
Theorem parse_decimal_roundtrip (m : Money) :
  money_wf m ->
  parse (decimal m) (currency m) = Ok m /\
  parse (" " +:+ decimal m) (currency m) = Ok m /\
  toString m = decimal m +:+ " " +:+ show_currency (currency m).
Proof.
  intros Hm. destruct (decimal_shape m Hm) as (w & f & E & Hmatch & Ht & Hl & Hv).
  assert (forall t, trim t = decimal m -> parse t (currency m) = Ok m) as Hp.
  { intros t Et. unfold parse. rewrite Et, E, explode_implode, Hmatch.
    unfold padEnd. rewrite Hl. cbn [Nat.sub replicate]. rewrite app_nil_r, Hv. by destruct m. }
  split; [by apply Hp|]. split; [|done]. apply Hp.
  transitivity (trim (decimal m)); [reflexivity|exact Ht].
Qed.

Lemma parse_decimal_roundtrip_witness :
  parse "1250.05" KES = Ok (MkMoney 125005 KES) /\ toString (MkMoney 125005 KES) = "1250.05 KES".
Proof.
  destruct (parse_decimal_roundtrip (MkMoney 125005 KES) ltac:(by vm_compute)) as (H & _ & _).
  split; [exact H|reflexivity].
Defined.

(** Money never goes negative: [add] and [subtract] of two valid amounts
    either return a valid amount with the exact sum or difference, or refuse with
    CURRENCY_MISMATCH (different currencies) or UNDERFLOW (subtrahend larger);
    subtracting what was added gives the first operand back. *)
Theorem money_arithmetic_total (a b : Money) :
  money_wf a -> money_wf b ->
  (currency a <> currency b ->
     add a b = Err (DomainError "CURRENCY_MISMATCH") /\
     subtract a b = Err (DomainError "CURRENCY_MISMATCH") /\
     compareTo a b = Err (DomainError "CURRENCY_MISMATCH")) /\
  (currency a = currency b ->
     (exists s, add a b = Ok s /\ money_wf s /\ amount s = amount a + amount b /\
        currency s = currency a /\ subtract s b = Ok a) /\
     (amount b <= amount a -> exists d, subtract a b = Ok d /\ money_wf d /\
        amount d = amount a - amount b /\ currency d = currency a /\ add d b = Ok a) /\
     (amount a < amount b -> subtract a b = Err (DomainError "UNDERFLOW"))).
Proof.
  unfold money_wf. intros Ha Hb. split.
  - intros Hc. unfold add, subtract, compareTo, assertSame. by case_decide.
  - intros Hc. split; [|split].
    + eexists; split; [by apply add_Ok|]. cbn. repeat split; [lia|].
      apply subtract_Ok. cbn. repeat split; [done|lia|]. apply money_eq; cbn; [lia|done].
    + intros Hle. eexists; split; [by apply subtract_Ok|]. cbn. repeat split; [lia|].
      apply add_Ok. cbn. split; [done|]. apply money_eq; cbn; [lia|done].
    + intros Hlt. unfold subtract. rewrite assertSame_same by done. cbn. case_decide; [done|lia].
Qed.

Lemma money_arithmetic_total_witness :
  subtract (MkMoney 5 KES) (MkMoney 7 KES) = Err (DomainError "UNDERFLOW").
Proof.
  destruct (money_arithmetic_total (MkMoney 5 KES) (MkMoney 7 KES)) as [_ H]; [by vm_compute..|].
  destruct (H eq_refl) as (_ & _ & Hu). apply Hu. cbn. lia.
Defined.
