(* ===== verification/Fx.v ===== *)
(** * Foreign exchange (src/domain/shared/fx.ts)

    Rates are rationals, conversion is bigint arithmetic with one banker's
    rounding at the end.  [snapshot_wf] is the invariant [fxRateSnapshot]
    establishes; [convert], [requireFxSnapshot] and [postRealizedGainLoss] are
    the R10 gate and the realised gain or loss of a cross-currency settlement.

    Whether [new Date(text)] is a valid date is the engine's [Date.parse]; it is
    the parameter [date_parses]. *)

From stdpp Require Import prelude strings list.
From Stdlib Require Import ZArith Lia.
From S2P Require Import Prelude JsNumber JsString JsDate Money.
Local Open Scope string_scope.
Local Open Scope Z_scope.
Local Open Scope js_scope.

Inductive FxDirection := base_to_quote | quote_to_base.
#[export] Instance FxDirection_eq_dec : EqDecision FxDirection.
Proof. solve_decision. Defined.

(** [Date | string]; [None] is an invalid [Date] object. *)
Inductive DateInput :=
| DateObject (t : option Date)
| DateText (s : string).

Definition assertUuidShape (value : Uuid) : result Uuid :=
  refuse (UUID_PATTERN value = false) with "FX_ID_MALFORMED" ;;
  Ok value.

Definition isCurrency (value : string) : bool := bool_decide (is_Some (currency_of_string value)).

Definition DEFAULT_MINOR_SCALE (c : Currency) : Z :=
  match c with UGX => 0 | KES | USD | GBP | EUR | TZS => 2 end.

(** ** The rate snapshot *)

Record FxRateSnapshotInput := MkFxRateSnapshotInput {
  in_orgId : Uuid;
  in_baseCurrency : string;
  in_quoteCurrency : string;
  in_numerator : numeric;
  in_denominator : numeric;
  in_scaleBase : option number;
  in_scaleQuote : option number;
  in_source : string;
  in_observedAt : DateInput;
  in_snapshotId : Uuid;
}.

Record FxRateSnapshot := MkFxRateSnapshot {
  snapshotId : Uuid;
  fx_orgId : Uuid;
  baseCurrency : Currency;
  quoteCurrency : Currency;
  numerator : Z;
  denominator : Z;
  scaleBase : Z;
  scaleQuote : Z;
  source : string;
  observedAt : string;
}.

Definition assertScale (scale : number) : result Z :=
  match safeInteger scale with
  | None => Err (DomainError "FX_SCALE_INVALID")
  | Some z => refuse (z < 0 \/ z > 8) with "FX_SCALE_INVALID" ;; Ok z
  end.

Definition asBigint (value : numeric) (code : string) : result Z :=
  match safeMinor value with
  | None => Err (DomainError code)
  | Some v => if decide (v <= 0) then Err (DomainError code) else Ok v
  end.

Section parsing.
  Context (date_parses : string -> bool).

Definition normalizeObservedAt (input : DateInput) : result string :=
  match input with
  | DateObject None => Err (DomainError "FX_OBSERVED_AT_INVALID")
  | DateObject (Some t) => Ok (toISOString t)
  | DateText s =>
      if ISO_PATTERN s && date_parses s then Ok s
      else Err (DomainError "FX_OBSERVED_AT_INVALID")
  end.

Definition fxRateSnapshot (input : FxRateSnapshotInput) : result FxRateSnapshot :=
  _ ← assertUuidShape (in_snapshotId input);
  _ ← assertUuidShape (in_orgId input);
  match currency_of_string (in_baseCurrency input),
        currency_of_string (in_quoteCurrency input) with
  | Some base, Some quote =>
      refuse (base = quote) with "FX_SAME_CURRENCY" ;;
      numerator ← asBigint (in_numerator input) "FX_RATE_NOT_POSITIVE";
      denominator ← asBigint (in_denominator input) "FX_RATE_NOT_POSITIVE";
      scaleBase ← assertScale (default (num (DEFAULT_MINOR_SCALE base)) (in_scaleBase input));
      scaleQuote ← assertScale (default (num (DEFAULT_MINOR_SCALE quote)) (in_scaleQuote input));
      let source := trim (in_source input) in
      refuse (source = "") with "FX_SOURCE_REQUIRED" ;;
      observedAt ← normalizeObservedAt (in_observedAt input);
      Ok (MkFxRateSnapshot (in_snapshotId input) (in_orgId input) base quote
            numerator denominator scaleBase scaleQuote source observedAt)
  | _, _ => Err (DomainError "FX_CURRENCY_UNSUPPORTED")
  end.

End parsing.

Definition rateRatio (s : FxRateSnapshot) : string :=
  show_Z (numerator s) +:+ "/" +:+ show_Z (denominator s).

(** What every snapshot built by [fxRateSnapshot] satisfies. *)
Definition snapshot_wf (s : FxRateSnapshot) : Prop :=
  baseCurrency s <> quoteCurrency s /\ 0 < numerator s /\ 0 < denominator s /\
  0 <= scaleBase s <= 8 /\ 0 <= scaleQuote s <= 8 /\ source s <> "" /\
  UUID_PATTERN (snapshotId s) = true /\ UUID_PATTERN (fx_orgId s) = true.
#[export] Instance snapshot_wf_dec s : Decision (snapshot_wf s).
Proof. unfold snapshot_wf. apply _. Defined.

(** ** Conversion *)

Record FxAppliedRate := MkFxAppliedRate {
  rate_snapshotId : Uuid;
  rate_source : string;
  rate_observedAt : string;
  rate_baseCurrency : Currency;
  rate_quoteCurrency : Currency;
  rate_numerator : Z;
  rate_denominator : Z;
  rate_scaleBase : Z;
  rate_scaleQuote : Z;
  appliedNumerator : Z;
  appliedDenominator : Z;
}.

Record FxConversion := MkFxConversion {
  from : Currency;
  to : Currency;
  conv_direction : FxDirection;
  inputAmountMinor : Z;
  amountMinor : Z;
  rate : FxAppliedRate;
}.

Definition pow10 (n : Z) : Z := 10 ^ n.

Definition divideBankers (p q : Z) : Z :=
  let whole := Z.quot p q in
  let remainder := Z.rem p q in
  let twice := remainder * 2 in
  if twice >? q then whole + 1
  else if twice <? q then whole
  else if Z.rem whole 2 =? 0 then whole else whole + 1.

Definition toMinorUnits (v : numeric) : result Z :=
  match safeMinor v with
  | None => Err (DomainError "MONEY_NOT_INTEGER")
  | Some z => refuse (z < 0) with "MONEY_NEGATIVE" ;; Ok z
  end.

Definition appliedRatio (s : FxRateSnapshot) (direction : FxDirection) : Z * Z :=
  let '(num0, den0) := match direction with
    | base_to_quote => (numerator s, denominator s)
    | quote_to_base => (denominator s, numerator s)
    end in
  let scaleGap := match direction with
    | base_to_quote => scaleQuote s - scaleBase s
    | quote_to_base => scaleBase s - scaleQuote s
    end in
  if scaleGap >=? 0 then (num0 * pow10 scaleGap, den0)
  else (num0, den0 * pow10 (- scaleGap)).

Definition convert (amt : numeric) (f t : Currency) (snapshot : option FxRateSnapshot)
    (direction : FxDirection) : result FxConversion :=
  amount ← toMinorUnits amt;
  refuse (f = t) with "FX_SAME_CURRENCY" ;;
  match snapshot with
  | None => Err (DomainError "FX_SNAPSHOT_REQUIRED")
  | Some s =>
      let pairIsBaseToQuote := bool_decide (f = baseCurrency s /\ t = quoteCurrency s) in
      let pairIsQuoteToBase := bool_decide (f = quoteCurrency s /\ t = baseCurrency s) in
      refuse (pairIsBaseToQuote = false /\ pairIsQuoteToBase = false) with "FX_SNAPSHOT_PAIR_MISMATCH" ;;
      let expectedDirection := if pairIsBaseToQuote then base_to_quote else quote_to_base in
      refuse (direction <> expectedDirection) with "FX_DIRECTION_MISMATCH" ;;
      let '(num, den) := appliedRatio s direction in
      let converted := divideBankers (amount * num) den in
      Ok (MkFxConversion f t direction amount converted
            (MkFxAppliedRate (snapshotId s) (source s) (observedAt s) (baseCurrency s)
               (quoteCurrency s) (numerator s) (denominator s) (scaleBase s) (scaleQuote s)
               num den))
  end.

Definition requireFxSnapshot (f t : Currency) (snapshot : option FxRateSnapshot)
  : result FxRateSnapshot :=
  refuse (f = t) with "FX_SAME_CURRENCY" ;;
  match snapshot with
  | None => Err (DomainError "FX_SNAPSHOT_REQUIRED")
  | Some s =>
      refuse (~ ((baseCurrency s = f /\ quoteCurrency s = t) \/
                 (baseCurrency s = t /\ quoteCurrency s = f)))
        with "FX_SNAPSHOT_PAIR_MISMATCH" ;;
      Ok s
  end.

(** ** Realised gain or loss *)

Inductive FxGainLossDirection := gain | loss.

Record RealizedGainLoss := MkRealizedGainLoss {
  gl_direction : FxGainLossDirection;
  gl_amountMinor : Z;
  gl_currency : Currency;
}.

Record FxRealizedGainLossPostedPayload := MkFxRealizedGainLossPostedPayload {
  pl_receivableId : Uuid;
  pl_paymentId : option Uuid;
  pl_direction : FxGainLossDirection;
  pl_amountMinor : Z;
  pl_carryingAmountMinor : Z;
  pl_settlementConvertedMinor : Z;
  pl_settlementAmountMinor : Z;
  pl_receivableCurrency : Currency;
  pl_settlementCurrency : Currency;
  pl_snapshotId : Uuid;
}.

(** [version] is the constant 1. *)
Record FxRealizedGainLossEvent := MkFxRealizedGainLossEvent {
  ev_name : string;
  ev_aggregateId : Uuid;
  ev_occurredAt : string;
  ev_payload : FxRealizedGainLossPostedPayload;
}.

Record FxRealizedGainLossInput := MkFxRealizedGainLossInput {
  gi_receivableId : Uuid;
  gi_paymentId : option Uuid;
  gi_carryingAmountMinor : numeric;
  gi_receivableCurrency : Currency;
  gi_settlementAmountMinor : numeric;
  gi_settlementCurrency : Currency;
  gi_snapshot : option FxRateSnapshot;
  gi_clock : Clock;
  gi_aggregateId : option Uuid;
}.

Record FxSettlementPosting := MkFxSettlementPosting {
  sp_receivableId : Uuid;
  sp_carryingAmountMinor : Z;
  sp_settlementAmountMinor : Z;
  sp_settlementConvertedMinor : Z;
  sp_receivableCurrency : Currency;
  sp_settlementCurrency : Currency;
  sp_conversion : FxConversion;
  sp_realizedGainLoss : option RealizedGainLoss;
  sp_event : option FxRealizedGainLossEvent;
}.

Definition FX_REALIZED_GAIN_LOSS_EVENT : string := "fx.realizedGainLossPosted".

Definition assertUuidOption (v : option Uuid) : result unit :=
  match v with None => Ok tt | Some u => _ ← assertUuidShape u; Ok tt end.

Definition postRealizedGainLoss (i : FxRealizedGainLossInput) : result FxSettlementPosting :=
  _ ← assertUuidShape (gi_receivableId i);
  _ ← assertUuidOption (gi_paymentId i);
  _ ← assertUuidOption (gi_aggregateId i);
  carrying ← toMinorUnits (gi_carryingAmountMinor i);
  settlement ← toMinorUnits (gi_settlementAmountMinor i);
  refuse (gi_receivableCurrency i = gi_settlementCurrency i) with "FX_SAME_CURRENCY" ;;
  authoritative ← requireFxSnapshot (gi_settlementCurrency i) (gi_receivableCurrency i) (gi_snapshot i);
  let direction := if decide (baseCurrency authoritative = gi_settlementCurrency i)
                   then base_to_quote else quote_to_base in
  conversion ← convert (Big settlement) (gi_settlementCurrency i) (gi_receivableCurrency i)
                 (Some authoritative) direction;
  let converted := amountMinor conversion in
  let posting := MkFxSettlementPosting (gi_receivableId i) carrying settlement converted
                   (gi_receivableCurrency i) (gi_settlementCurrency i) conversion in
  if decide (converted = carrying) then Ok (posting None None) else
  let gainLoss := MkRealizedGainLoss
    (if decide (converted > carrying) then gain else loss)
    (if decide (converted > carrying) then converted - carrying else carrying - converted)
    (gi_receivableCurrency i) in
  let event := MkFxRealizedGainLossEvent FX_REALIZED_GAIN_LOSS_EVENT
    (default (gi_receivableId i) (gi_aggregateId i))
    (toISOString (gi_clock i 0%nat))
    (MkFxRealizedGainLossPostedPayload (gi_receivableId i) (gi_paymentId i)
       (gl_direction gainLoss) (gl_amountMinor gainLoss) carrying converted settlement
       (gi_receivableCurrency i) (gi_settlementCurrency i) (snapshotId authoritative)) in
  Ok (posting (Some gainLoss) (Some event)).

(** ** Lemmas *)

Lemma asBigint_Ok v code z : asBigint v code = Ok z -> 0 < z.
Proof. unfold asBigint. destruct (safeMinor v); [|done]. intros H. invert_ok. lia. Qed.

Lemma assertScale_Ok x z : assertScale x = Ok z -> 0 <= z <= 8.
Proof. unfold assertScale. destruct (safeInteger x); [|done]. intros H. invert_ok. lia. Qed.

Lemma assertUuidShape_Ok u v : assertUuidShape u = Ok v -> UUID_PATTERN u = true.
Proof. unfold assertUuidShape. intros H. invert_ok. by apply not_false_is_true. Qed.

Lemma toMinorUnits_Ok v z : toMinorUnits v = Ok z -> 0 <= z.
Proof. unfold toMinorUnits. destruct (safeMinor v); [|done]. intros H. invert_ok. lia. Qed.

Lemma toMinorUnits_Big z : 0 <= z -> toMinorUnits (Big z) = Ok z.
Proof. intros Hz. unfold toMinorUnits. cbn. case_decide; [lia|done]. Qed.

Lemma divideBankers_nonneg p q : 0 <= p -> 0 < q -> 0 <= divideBankers p q.
Proof.
  intros Hp Hq. unfold divideBankers. assert (0 <= Z.quot p q) by (apply Z.quot_pos; lia).
  repeat case_match; lia.
Qed.

(** The rounding error is at most half a unit. *)
Lemma divideBankers_error p q : 0 <= p -> 0 < q ->
  Z.abs (2 * (divideBankers p q * q - p)) <= q.
Proof.
  intros Hp Hq. unfold divideBankers.
  rewrite Z.quot_div_nonneg, Z.rem_mod_nonneg by lia.
  pose proof (Z.div_mod p q ltac:(lia)). pose proof (Z.mod_pos_bound p q Hq).
  apply Z.abs_le. repeat case_match; nia.
Qed.

(** A half is rounded to the even neighbour. *)
Lemma divideBankers_tie p q : 0 <= p -> 0 < q ->
  Z.abs (2 * (divideBankers p q * q - p)) = q -> Z.Even (divideBankers p q).
Proof.
  intros Hp Hq. unfold divideBankers.
  assert (0 <= p / q) by (apply Z.div_pos; lia).
  rewrite Z.quot_div_nonneg, Z.rem_mod_nonneg by lia. rewrite (Z.rem_mod_nonneg (p / q)) by lia.
  pose proof (Z.div_mod p q ltac:(lia)). pose proof (Z.mod_pos_bound p q Hq).
  destruct (Z.gtb_spec (p mod q * 2) q); [nia|]. destruct (Z.ltb_spec (p mod q * 2) q); [nia|].
  intros _. destruct (Z.eqb_spec ((p / q) mod 2) 0) as [E|E].
  - exists (p / q / 2). pose proof (Z.div_mod (p / q) 2 ltac:(lia)). lia.
  - exists (p / q / 2 + 1). pose proof (Z.div_mod (p / q) 2 ltac:(lia)).
    pose proof (Z.mod_pos_bound (p / q) 2 ltac:(lia)). lia.
Qed.

(** An approximation strictly closer than half a unit is the rounded value. *)
Lemma divideBankers_unique p q x : 0 <= p -> 0 < q ->
  Z.abs (2 * (x * q - p)) < q -> divideBankers p q = x.
Proof.
  intros Hp Hq Hx. pose proof (divideBankers_error p q Hp Hq) as He.
  set (y := divideBankers p q) in *. clearbody y. nia.
Qed.

Lemma appliedRatio_pos s d : snapshot_wf s ->
  0 < (appliedRatio s d).1 /\ 0 < (appliedRatio s d).2.
Proof.
  intros (_ & Hn & Hd & Hb & Hq & _). unfold appliedRatio, pow10.
  destruct d; cbn; case_match; cbn; split; try lia; apply Z.mul_pos_pos; try lia;
    apply Z.pow_pos_nonneg; lia.
Qed.

(** The two directions apply exactly inverse rationals. *)
Lemma appliedRatio_inverse s :
  appliedRatio s quote_to_base = ((appliedRatio s base_to_quote).2, (appliedRatio s base_to_quote).1).
Proof.
  unfold appliedRatio, pow10.
  assert (scaleBase s - scaleQuote s = - (scaleQuote s - scaleBase s)) as -> by lia.
  destruct (Z.geb_spec (scaleQuote s - scaleBase s) 0), (Z.geb_spec (- (scaleQuote s - scaleBase s)) 0);
    cbn; try lia.
  - assert (scaleQuote s - scaleBase s = 0) as -> by lia. cbn. by rewrite !Z.mul_1_r.
  - by rewrite Z.opp_involutive.
  - done.
Qed.

Lemma convert_Ok amt f t s d c : convert amt f t (Some s) d = Ok c ->
  exists z, toMinorUnits amt = Ok z /\ f <> t /\
    (d = base_to_quote /\ f = baseCurrency s /\ t = quoteCurrency s \/
     d = quote_to_base /\ f = quoteCurrency s /\ t = baseCurrency s) /\
    amountMinor c = divideBankers (z * (appliedRatio s d).1) (appliedRatio s d).2 /\
    inputAmountMinor c = z /\ from c = f /\ to c = t /\ rate_snapshotId (rate c) = snapshotId s /\
    appliedNumerator (rate c) = (appliedRatio s d).1 /\ appliedDenominator (rate c) = (appliedRatio s d).2.
Proof.
  unfold convert. destruct (appliedRatio s d) as [n q]. intros H. invert_ok.
  exists v. split; [done|]. split; [done|]. split; [|done].
  destruct (bool_decide_reflect (f = baseCurrency s /\ t = quoteCurrency s)) as [[-> ->]|]; [by left|].
  destruct (bool_decide_reflect (f = quoteCurrency s /\ t = baseCurrency s)) as [[-> ->]|]; [by right|].
  destruct N0; by split.
Qed.

Lemma convert_base_to_quote z s : baseCurrency s <> quoteCurrency s -> 0 <= z ->
  exists c, convert (Big z) (baseCurrency s) (quoteCurrency s) (Some s) base_to_quote = Ok c /\
    amountMinor c = divideBankers (z * (appliedRatio s base_to_quote).1) (appliedRatio s base_to_quote).2.
Proof.
  intros Hne Hz. unfold convert. rewrite toMinorUnits_Big by done.
  cbn [mbind result_bind]. rewrite decide_False by done.
  rewrite (bool_decide_eq_true_2 (baseCurrency s = baseCurrency s /\ _)) by done.
  rewrite decide_False by naive_solver. rewrite decide_False by naive_solver.
  destruct (appliedRatio s base_to_quote). eexists; split; reflexivity.
Qed.

Lemma convert_quote_to_base z s : baseCurrency s <> quoteCurrency s -> 0 <= z ->
  exists c, convert (Big z) (quoteCurrency s) (baseCurrency s) (Some s) quote_to_base = Ok c /\
    amountMinor c = divideBankers (z * (appliedRatio s quote_to_base).1) (appliedRatio s quote_to_base).2.
Proof.
  intros Hne Hz. unfold convert. rewrite toMinorUnits_Big by done.
  cbn [mbind result_bind]. rewrite decide_False by done.
  rewrite (bool_decide_eq_false_2 (quoteCurrency s = baseCurrency s /\ _)) by naive_solver.
  rewrite (bool_decide_eq_true_2 (quoteCurrency s = quoteCurrency s /\ _)) by done.
  rewrite decide_False by naive_solver. rewrite decide_False by naive_solver.
  destruct (appliedRatio s quote_to_base). eexists; split; reflexivity.
Qed.

(** A snapshot of 129.754 KES per USD. *)
Definition sample_id : Uuid := "00000000-0000-4000-8000-000000000001".
Definition sample_snapshot : FxRateSnapshot :=
  MkFxRateSnapshot sample_id sample_id USD KES 129754 1000 2 2 "CBK" "2025-09-02T08:00:00.000Z".

(** every snapshot that [fxRateSnapshot] returns is well formed: two distinct
    supported currencies, a positive rational rate, scales in [0, 8], a
    non-empty source and canonical ids; and it keeps the ids it was given. *)
Theorem fxRateSnapshot_wf (date_parses : string -> bool) (input : FxRateSnapshotInput) (s : FxRateSnapshot) :
  fxRateSnapshot date_parses input = Ok s ->
  snapshot_wf s /\ snapshotId s = in_snapshotId input /\
  show_currency (baseCurrency s) = in_baseCurrency input /\
  show_currency (quoteCurrency s) = in_quoteCurrency input.
Proof.
  unfold fxRateSnapshot. intros H.
  destruct (currency_of_string (in_baseCurrency input)) as [b|] eqn:Eb; [|by invert_ok].
  destruct (currency_of_string (in_quoteCurrency input)) as [q|] eqn:Eq; [|by invert_ok].
  apply List.find_some in Eb as [_ Eb%bool_decide_eq_true], Eq as [_ Eq%bool_decide_eq_true].
  invert_ok. unfold snapshot_wf. cbn.
  repeat match goal with
  | H : asBigint _ _ = Ok _ |- _ => apply asBigint_Ok in H
  | H : assertScale _ = Ok _ |- _ => apply assertScale_Ok in H
  | H : assertUuidShape _ = Ok _ |- _ => apply assertUuidShape_Ok in H
  end.
  done.
Qed.

Lemma fxRateSnapshot_wf_witness :
  snapshot_wf sample_snapshot.
Proof.
  apply (fxRateSnapshot_wf (fun _ => true)
    (MkFxRateSnapshotInput sample_id "USD" "KES" (Big 129754) (Num (num 1000)) None None
       " CBK " (DateText "2025-09-02T08:00:00.000Z") sample_id)).
  vm_compute. reflexivity.
Defined.

(** conversion is exact up to one banker's rounding: the converted amount is
    a nearest integer to [amount * num / den] for the applied rational, a tie
    goes to the even neighbour, the result is never negative, and the posting
    carries the reference of the snapshot it used. *)
Theorem convert_nearest (amt : numeric) (f t : Currency) (s : FxRateSnapshot) (d : FxDirection) (c : FxConversion) :
  snapshot_wf s -> convert amt f t (Some s) d = Ok c ->
  let n := appliedNumerator (rate c) in
  let q := appliedDenominator (rate c) in
  let x := inputAmountMinor c in
  0 <= amountMinor c /\ 0 < n /\ 0 < q /\
  Z.abs (2 * (amountMinor c * q - x * n)) <= q /\
  (Z.abs (2 * (amountMinor c * q - x * n)) = q -> Z.Even (amountMinor c)) /\
  rate_snapshotId (rate c) = snapshotId s.
Proof.
  intros Hwf H. destruct (convert_Ok _ _ _ _ _ _ H) as (z & Hz & _ & _ & Ea & Ei & _ & _ & Es & En & Eq).
  apply toMinorUnits_Ok in Hz. destruct (appliedRatio_pos s d Hwf) as [Hn Hq].
  cbv zeta. rewrite Ea, Ei, En, Eq.
  assert (0 <= z * (appliedRatio s d).1) by nia.
  split; [by apply divideBankers_nonneg|]. do 2 (split; [done|]).
  split; [by apply divideBankers_error|]. split; [by apply divideBankers_tie|done].
Qed.

Lemma convert_nearest_witness :
  exists c, convert (Big 2500) USD KES (Some sample_snapshot) base_to_quote = Ok c /\
    amountMinor c = 324385 /\ 0 <= amountMinor c.
Proof.
  eexists. split; [vm_compute; reflexivity|]. split; [reflexivity|].
  eapply (convert_nearest (Big 2500) USD KES sample_snapshot base_to_quote).
  - by apply (bool_decide_unpack _); vm_compute.
  - vm_compute. reflexivity.
Defined.

(** converting to the finer unit and back loses nothing: when one minor unit
    of the base is worth at least one minor unit of the quote, converting any
    amount base to quote and the result quote to base with the same snapshot
    returns the original amount. *)
Theorem convert_roundtrip (s : FxRateSnapshot) (x : Z) :
  snapshot_wf s -> 0 <= x ->
  (appliedRatio s base_to_quote).2 <= (appliedRatio s base_to_quote).1 ->
  exists c c',
    convert (Big x) (baseCurrency s) (quoteCurrency s) (Some s) base_to_quote = Ok c /\
    convert (Big (amountMinor c)) (quoteCurrency s) (baseCurrency s) (Some s) quote_to_base = Ok c' /\
    amountMinor c' = x.
Proof.
  intros Hwf Hx Hle. destruct (appliedRatio_pos s base_to_quote Hwf) as [Hn Hd].
  destruct (convert_base_to_quote x s (proj1 Hwf) Hx) as (c & Hc & Ea).
  set (n := (appliedRatio s base_to_quote).1) in *. set (d := (appliedRatio s base_to_quote).2) in *.
  assert (0 <= amountMinor c) as H0 by (rewrite Ea; apply divideBankers_nonneg; nia).
  destruct (convert_quote_to_base (amountMinor c) s (proj1 Hwf) H0) as (c' & Hc' & Ea').
  exists c, c'. split; [done|]. split; [done|]. rewrite Ea', appliedRatio_inverse. fold n d. cbn.
  pose proof (divideBankers_error (x * n) d ltac:(nia) Hd) as He. rewrite <- Ea in He.
  destruct (decide (n = d)) as [E|].
  - rewrite E in *. assert (amountMinor c = x) as -> by nia.
    apply divideBankers_unique; [nia|done|]. rewrite Z.sub_diag. cbn. lia.
  - apply divideBankers_unique; [nia|done|]. lia.
Qed.

Lemma convert_roundtrip_witness :
  exists c c', convert (Big 2501) USD KES (Some sample_snapshot) base_to_quote = Ok c /\
    convert (Big (amountMinor c)) KES USD (Some sample_snapshot) quote_to_base = Ok c' /\
    amountMinor c' = 2501.
Proof.
  apply (convert_roundtrip sample_snapshot 2501).
  - by apply (bool_decide_unpack _); vm_compute.
  - lia.
  - vm_compute. discriminate.
Defined.

Definition bridges (s : FxRateSnapshot) (f t : Currency) : Prop :=
  (baseCurrency s = f /\ quoteCurrency s = t) \/ (baseCurrency s = t /\ quoteCurrency s = f).
#[export] Instance bridges_dec s f t : Decision (bridges s f t).
Proof. unfold bridges. apply _. Defined.

Lemma requireFxSnapshot_Ok f t o s : requireFxSnapshot f t o = Ok s ->
  o = Some s /\ bridges s f t /\ f <> t.
Proof.
  unfold requireFxSnapshot, bridges. intros H. invert_ok. destruct o as [s'|]; invert_ok.
  split; [done|]. split; [done|done].
Qed.

(** a cross-currency settlement is measured exactly: the realised gain or
    loss is the signed difference between the converted settlement and the
    carrying amount.  It is absent, with its event, exactly on a wash; otherwise
    its magnitude is positive, in the receivable's currency, and the event
    carries the same figures and the snapshot that authorised the conversion. *)
Theorem settlement_gain_loss (i : FxRealizedGainLossInput) (p : FxSettlementPosting) :
  postRealizedGainLoss i = Ok p ->
  sp_settlementConvertedMinor p = amountMinor (sp_conversion p) /\
  (exists s, gi_snapshot i = Some s /\ rate_snapshotId (rate (sp_conversion p)) = snapshotId s /\
     bridges s (gi_settlementCurrency i) (gi_receivableCurrency i)) /\
  match sp_realizedGainLoss p, sp_event p with
  | None, None => sp_settlementConvertedMinor p = sp_carryingAmountMinor p
  | Some g, Some e =>
      0 < gl_amountMinor g /\ gl_currency g = gi_receivableCurrency i /\
      sp_settlementConvertedMinor p = sp_carryingAmountMinor p +
        (match gl_direction g with gain => gl_amountMinor g | loss => - gl_amountMinor g end) /\
      pl_amountMinor (ev_payload e) = gl_amountMinor g /\
      pl_direction (ev_payload e) = gl_direction g /\
      pl_settlementConvertedMinor (ev_payload e) = sp_settlementConvertedMinor p /\
      pl_carryingAmountMinor (ev_payload e) = sp_carryingAmountMinor p /\
      Some (pl_snapshotId (ev_payload e)) = snapshotId <$> gi_snapshot i
  | _, _ => False
  end.
Proof.
  unfold postRealizedGainLoss. intros H.
  repeat (step_ok; simpl in *).
  match goal with H : requireFxSnapshot _ _ _ = Ok _ |- _ =>
    apply requireFxSnapshot_Ok in H as (Hs & Hbr & Hne) end.
  match goal with H : convert _ _ _ _ _ = Ok _ |- _ =>
    apply convert_Ok in H as (z & _ & _ & _ & _ & _ & _ & _ & Hid & _ & _) end.
  destruct (decide (amountMinor v5 = v2)) as [E'|E']; injection H as <-; cbn.
  - split; [done|]. split; [by eexists|done].
  - split; [done|]. split; [by eexists|]. rewrite Hs. cbn.
    destruct (decide (amountMinor v5 > v2)); repeat split; lia.
Qed.

Definition sample_settlement (snapshot : option FxRateSnapshot) : FxRealizedGainLossInput :=
  MkFxRealizedGainLossInput sample_id None (Big 320000) KES (Num (num 2500)) USD
    snapshot (fixed_clock 1756800000000) None.

Lemma settlement_gain_loss_witness :
  exists p g, postRealizedGainLoss (sample_settlement (Some sample_snapshot)) = Ok p /\
    sp_realizedGainLoss p = Some g /\ gl_amountMinor g = 4385 /\
    sp_settlementConvertedMinor p = amountMinor (sp_conversion p).
Proof.
  eexists _, _. split; [vm_compute; reflexivity|]. split; [reflexivity|]. split; [reflexivity|].
  eapply (settlement_gain_loss (sample_settlement (Some sample_snapshot))). vm_compute. reflexivity.
Defined.

(** the R10 gate.  With canonical ids and valid amounts a settlement in
    another currency never slips through: without a snapshot it is refused with
    FX_SNAPSHOT_REQUIRED, with a snapshot of another pair with
    FX_SNAPSHOT_PAIR_MISMATCH, and with a snapshot of the pair it succeeds; a
    same-currency settlement is always refused with FX_SAME_CURRENCY. *)
Theorem settlement_gate (i : FxRealizedGainLossInput) (carrying settlement : Z) :
  UUID_PATTERN (gi_receivableId i) = true ->
  assertUuidOption (gi_paymentId i) = Ok tt -> assertUuidOption (gi_aggregateId i) = Ok tt ->
  toMinorUnits (gi_carryingAmountMinor i) = Ok carrying ->
  toMinorUnits (gi_settlementAmountMinor i) = Ok settlement ->
  if decide (gi_receivableCurrency i = gi_settlementCurrency i)
  then postRealizedGainLoss i = Err (DomainError "FX_SAME_CURRENCY")
  else match gi_snapshot i with
  | None => postRealizedGainLoss i = Err (DomainError "FX_SNAPSHOT_REQUIRED")
  | Some s =>
      if decide (bridges s (gi_settlementCurrency i) (gi_receivableCurrency i))
      then exists p, postRealizedGainLoss i = Ok p
      else postRealizedGainLoss i = Err (DomainError "FX_SNAPSHOT_PAIR_MISMATCH")
  end.
Proof.
  intros Hid Hp Ha Hc Hs. pose proof (toMinorUnits_Ok _ _ Hs) as H0. unfold postRealizedGainLoss.
  assert (assertUuidShape (gi_receivableId i) = Ok (gi_receivableId i)) as ->.
  { unfold assertUuidShape. rewrite Hid. by case_decide. }
  rewrite Hp, Ha, Hc, Hs. cbn [mbind result_bind].
  destruct (decide (gi_receivableCurrency i = gi_settlementCurrency i)) as [|Hne]; [done|].
  unfold requireFxSnapshot. rewrite decide_False by done.
  destruct (gi_snapshot i) as [s|]; [|done]. unfold bridges.
  destruct (decide _) as [Hb|Hb]; [|by rewrite decide_True].
  rewrite decide_False by tauto. cbn [mbind result_bind].
  assert (exists c, convert (Big settlement) (gi_settlementCurrency i) (gi_receivableCurrency i) (Some s)
    (if decide (baseCurrency s = gi_settlementCurrency i) then base_to_quote else quote_to_base) = Ok c) as [c ->].
  { destruct Hb as [[E1 E2]|[E1 E2]]; rewrite <- E1, <- E2 in *.
    - rewrite decide_True by done.
      destruct (convert_base_to_quote settlement s) as (c & -> & _); [naive_solver|done|by eexists].
    - rewrite decide_False by naive_solver.
      destruct (convert_quote_to_base settlement s) as (c & -> & _); [naive_solver|done|by eexists]. }
  cbn [mbind result_bind]. case_decide; by eexists.
Qed.

Lemma settlement_gate_witness :
  postRealizedGainLoss (sample_settlement None) = Err (DomainError "FX_SNAPSHOT_REQUIRED").
Proof.
  apply (settlement_gate (sample_settlement None) 320000 2500); vm_compute; reflexivity.
Defined.
