(* ===== verification/Events.v ===== *)
(** * Event envelopes and the receivables lane's payloads
      (src/domain/receivables/events.ts)

    Every lane builds the same envelope [{ name, version, aggregateId, payload,
    occurredAt }]; [version] is always 1 and is left out.  [occurredAt] is an
    ISO-8601 string in the receivables, adjustments, allocation and ledger lanes
    and a [Date] in the payments lane, hence the type parameter. *)

From stdpp Require Import prelude strings list.
From Stdlib Require Import ZArith Lia.
From S2P Require Import Prelude JsNumber JsString JsDate Money.
Local Open Scope string_scope.
Local Open Scope list_scope.
Local Open Scope Z_scope.
Local Open Scope js_scope.

Record Envelope (T P : Type) := MkEnvelope {
  name : string;
  aggregateId : Uuid;
  payload : P;
  occurredAt : T;
}.
Arguments MkEnvelope {T P}.
Arguments name {T P}.
Arguments aggregateId {T P}.
Arguments payload {T P}.
Arguments occurredAt {T P}.

Notation DomainEvent := (Envelope string).

(** [domainEvent]; the clock is the stream of the readings that remain. *)
Definition domainEvent {P} (nm : string) (id : Uuid) (p : P) (clock : Clock) : DomainEvent P :=
  MkEnvelope nm id p (toISOString (clock 0%nat)).

(** [Number(bigint)] is exact up to [MAX_SAFE_INTEGER] and at least [2^53] in
    magnitude beyond it, so [Number.isSafeInteger] decides the bigint's range. *)
Definition minorToNumber (m : Money) : result Z :=
  refuse (Z.abs (amount m) > MAX_SAFE_INTEGER) with "EVENT_AMOUNT_NOT_SAFE_INTEGER" ;;
  Ok (amount m).

Inductive AgingBucket := bucket_0_30 | bucket_31_60 | bucket_61_90 | bucket_90_plus.
#[export] Instance AgingBucket_eq_dec : EqDecision AgingBucket.
Proof. solve_decision. Defined.

Inductive ReceivablePayload :=
| ReceivableOpenedPayload (receivableId invoiceId : Uuid) (originalMinor : Z) (dueDate : string)
| ReceivablePartiallySettledPayload (receivableId : Uuid) (amountMinor remainingMinor : Z)
| ReceivableSettledPayload (receivableId : Uuid) (settledAt : string)
| ReceivableOverduePayload (receivableId : Uuid) (daysLate : Z) (agingBucket : AgingBucket)
| ReceivableWrittenOffPayload (receivableId : Uuid) (reason approvedBy : string)
| ReceivableRecoveredPayload (receivableId : Uuid) (amountMinor : Z).

Inductive InvoicePayload :=
| InvoiceIssuedPayload (invoiceId customerId : Uuid) (totalMinor : Z) (currency : Currency) (dueDate : string)
| InvoiceSentPayload (invoiceId : Uuid) (channel : string) (sentAt : string)
| InvoiceVoidedPayload (invoiceId : Uuid) (reason actorId : string).

Notation ReceivableEvent := (DomainEvent ReceivablePayload).
Notation InvoiceEvent := (DomainEvent InvoicePayload).

Lemma minorToNumber_Ok m z : minorToNumber m = Ok z <-> z = amount m /\ Z.abs (amount m) <= MAX_SAFE_INTEGER.
Proof.
  unfold minorToNumber. split.
  - intros H. invert_ok. split; [done|lia].
  - intros [-> H]. case_decide; [lia|done].
Qed.

Lemma minorToNumber_small m : 0 <= amount m <= MAX_SAFE_INTEGER -> minorToNumber m = Ok (amount m).
Proof. intros H. apply minorToNumber_Ok. split; [done|lia]. Qed.
