(* ===== verification/Invoice.v ===== *)
(** * Invoices (src/domain/receivables/invoice.ts)

    The invoice is the document: lines are added while it is a draft, issuing
    reserves a number and freezes the lines, sending and voiding change the
    status only.  [invoice_step] is the transition relation of the exported
    operations; [invoice_wf] holds of every invoice they can build. *)

From stdpp Require Import prelude strings list relations.
From Stdlib Require Import ZArith Lia.
From S2P Require Import Prelude JsNumber JsString JsDate Money Events.
Local Open Scope string_scope.
Local Open Scope list_scope.
Local Open Scope Z_scope.
Local Open Scope js_scope.

Inductive InvoiceStatus := invoice_draft | invoice_issued | invoice_sent | invoice_voided.
#[export] Instance InvoiceStatus_eq_dec : EqDecision InvoiceStatus.
Proof. solve_decision. Defined.

Record InvoiceLine := MkInvoiceLine { description : string; line_amount : Money }.

Record Invoice := MkInvoice {
  inv_id : Uuid;
  inv_customerId : Uuid;
  inv_status : InvoiceStatus;
  inv_currency : Currency;
  inv_lines : list InvoiceLine;
  inv_total : Money;
  invoiceNumber : option string;
  issuedAt : option Date;
  inv_dueDate : Date;
  sentAt : option Date;
  sentChannel : option string;
  inv_voidedAt : option Date;
  voidReason : option string;
  voidedBy : option string;
  inv_receivableId : option Uuid;
}.

#[export] Instance Invoice_eta : Eta Invoice := fun i =>
  MkInvoice (inv_id i) (inv_customerId i) (inv_status i) (inv_currency i) (inv_lines i)
    (inv_total i) (invoiceNumber i) (issuedAt i) (inv_dueDate i) (sentAt i) (sentChannel i)
    (inv_voidedAt i) (voidReason i) (voidedBy i) (inv_receivableId i).

Definition createInvoice (id customerId : Uuid) (c : Currency) (dueDate : Date) : Invoice :=
  MkInvoice id customerId invoice_draft c [] (zero c) None None dueDate None None None None None None.

Definition addInvoiceLine (invoice : Invoice) (line : InvoiceLine) : result Invoice :=
  refuse (inv_status invoice <> invoice_draft) with "INVOICE_LINES_FROZEN" ;;
  refuse (trim (description line) = "" \/ isPositive (line_amount line) = false)
    with "INVOICE_LINE_INVALID" ;;
  refuse (currency (line_amount line) <> inv_currency invoice) with "CURRENCY_MISMATCH" ;;
  total ← Money.add (inv_total invoice) (line_amount line);
  Ok (invoice
        <| inv_lines := inv_lines invoice ++ [MkInvoiceLine (trim (description line)) (line_amount line)] |>
        <| inv_total := total |>).

Definition issueInvoice (invoice : Invoice) (sequenceNo : number) (reserveNumber : number -> string)
    (clock : Clock) : result (Invoice * InvoiceEvent) :=
  refuse (inv_status invoice = invoice_issued) with "INVOICE_ALREADY_ISSUED" ;;
  refuse (inv_status invoice <> invoice_draft) with "INVALID_INVOICE_TRANSITION" ;;
  match safeInteger sequenceNo with
  | None => Err (DomainError "INVOICE_SEQUENCE_INVALID")
  | Some seq =>
      refuse (seq < 1) with "INVOICE_SEQUENCE_INVALID" ;;
      let number := trim (reserveNumber sequenceNo) in
      refuse (number = "") with "INVOICE_NUMBER_INVALID" ;;
      let issued := invoice <| inv_status := invoice_issued |>
                            <| invoiceNumber := Some number |>
                            <| issuedAt := Some (clock 0%nat) |> in
      totalMinor ← minorToNumber (inv_total invoice);
      let event := domainEvent "invoicing.invoiceIssued" (inv_id invoice)
        (InvoiceIssuedPayload (inv_id invoice) (inv_customerId invoice) totalMinor
           (inv_currency invoice) (toISOString (inv_dueDate invoice)))
        (clock_after 1 clock) in
      Ok (issued, event)
  end.

Definition markInvoiceSent (invoice : Invoice) (channel : string) (clock : Clock)
  : result (Invoice * InvoiceEvent) :=
  let deliveredVia := trim channel in
  refuse (deliveredVia = "") with "INVOICE_CHANNEL_INVALID" ;;
  refuse (inv_status invoice <> invoice_issued) with "INVOICE_NOT_ISSUED" ;;
  let at0 := clock 0%nat in
  let sent := invoice <| inv_status := invoice_sent |>
                      <| sentAt := Some at0 |>
                      <| sentChannel := Some deliveredVia |> in
  Ok (sent, domainEvent "invoicing.invoiceSent" (inv_id invoice)
              (InvoiceSentPayload (inv_id invoice) deliveredVia (toISOString at0))
              (clock_after 1 clock)).

Definition voidInvoice (invoice : Invoice) (reason actorId : string) (clock : Clock)
  : result (Invoice * InvoiceEvent) :=
  let reason := trim reason in
  let actorId := trim actorId in
  refuse (reason = "") with "INVOICE_VOID_REASON_REQUIRED" ;;
  refuse (actorId = "") with "INVOICE_VOID_ACTOR_REQUIRED" ;;
  refuse (inv_status invoice <> invoice_issued /\ inv_status invoice <> invoice_sent)
    with "INVALID_INVOICE_TRANSITION" ;;
  let voided := invoice <| inv_status := invoice_voided |>
                        <| inv_voidedAt := Some (clock 0%nat) |>
                        <| voidReason := Some reason |>
                        <| voidedBy := Some actorId |> in
  Ok (voided, domainEvent "invoicing.invoiceVoided" (inv_id invoice)
                (InvoiceVoidedPayload (inv_id invoice) reason actorId) (clock_after 1 clock)).

(** ** Transitions and the invariant *)

Inductive invoice_step : Invoice -> Invoice -> Prop :=
| step_addLine i line i' : addInvoiceLine i line = Ok i' -> invoice_step i i'
| step_issue i seq reserve clock i' e :
    issueInvoice i seq reserve clock = Ok (i', e) -> invoice_step i i'
| step_send i channel clock i' e : markInvoiceSent i channel clock = Ok (i', e) -> invoice_step i i'
| step_void i reason actor clock i' e : voidInvoice i reason actor clock = Ok (i', e) -> invoice_step i i'.

Definition invoice_wf (i : Invoice) : Prop :=
  currency (inv_total i) = inv_currency i /\
  amount (inv_total i) = sumZ ((fun l => amount (line_amount l)) <$> inv_lines i) /\
  Forall (fun l => 0 < amount (line_amount l) /\ currency (line_amount l) = inv_currency i /\
                   description l <> "") (inv_lines i) /\
  (inv_status i = invoice_draft <-> invoiceNumber i = None) /\
  (is_Some (inv_voidedAt i) <-> inv_status i = invoice_voided).

(** The fields that issuing freezes. *)
Definition frozen_part (i : Invoice) : list InvoiceLine * Money * option string * Date :=
  (inv_lines i, inv_total i, invoiceNumber i, inv_dueDate i).

Lemma createInvoice_wf id customer c due : invoice_wf (createInvoice id customer c due).
Proof. split_and!; try done; cbn. split; [by intros []|done]. Qed.

Lemma addInvoiceLine_wf i line i' : invoice_wf i -> addInvoiceLine i line = Ok i' -> invoice_wf i'.
Proof.
  intros (Hc & Hs & Hl & Hn & Hv) H. unfold addInvoiceLine in H. invert_ok.
  apply add_Ok in E as [Hcur ->]. apply Decidable.not_or in N0 as [Hd Hp%isPositive_true].
  split_and!; cbn; try done.
  - rewrite sumZ_fmap_snoc. cbn. lia.
  - apply Forall_app; split; [done|]. by repeat constructor; cbn.
Qed.

Lemma invoice_step_wf i i' : invoice_wf i -> invoice_step i i' -> invoice_wf i'.
Proof.
  intros Hwf Hstep. destruct Hstep as [i line i' H|i seq reserve clock i' e H|i ch clock i' e H|i r a clock i' e H].
  - by eapply addInvoiceLine_wf.
  - unfold issueInvoice in H. destruct (safeInteger seq); invert_ok.
    destruct Hwf as (? & ? & ? & ? & Hv). split_and!; cbn; try done; naive_solver congruence.
  - unfold markInvoiceSent in H. invert_ok. destruct Hwf as (? & ? & ? & Hn & Hv).
    split_and!; cbn; try done; naive_solver congruence.
  - unfold voidInvoice in H. invert_ok. destruct Hwf as (? & ? & ? & Hn & Hv).
    split_and!; cbn; try done; naive_solver congruence.
Qed.

Lemma invoice_step_frozen i i' : invoice_step i i' -> inv_status i <> invoice_draft ->
  frozen_part i' = frozen_part i /\ inv_status i' <> invoice_draft.
Proof.
  intros Hstep Hd. destruct Hstep as [i line i' H|i seq reserve clock i' e H|i ch clock i' e H|i r a clock i' e H].
  - unfold addInvoiceLine in H. by invert_ok.
  - unfold issueInvoice in H. destruct (safeInteger seq); by invert_ok.
  - unfold markInvoiceSent in H. by invert_ok.
  - unfold voidInvoice in H. by invert_ok.
Qed.

(** every invoice reachable from [createInvoice] by any sequence of
    operations is well formed: its total is the sum of its lines, all lines are
    positive and in its currency, it has a number exactly when it left the draft
    state, and a void record exactly when it is voided. *)
Theorem invoice_reachable_wf (id customer : Uuid) (c : Currency) (due : Date) (i : Invoice) :
  rtc invoice_step (createInvoice id customer c due) i -> invoice_wf i.
Proof.
  intros H. pose proof (createInvoice_wf id customer c due) as Hwf.
  induction H as [|x y z Hxy _ IH]; [done|]. apply IH. by eapply invoice_step_wf.
Qed.

(** A one-line invoice, issued. *)
Definition sample_invoice : Invoice :=
  createInvoice "i" "c" KES 0
    <| inv_lines := [MkInvoiceLine "rent" (MkMoney 5000 KES)] |>
    <| inv_total := MkMoney 5000 KES |>.

Definition sample_issued : Invoice :=
  sample_invoice <| inv_status := invoice_issued |> <| invoiceNumber := Some "INV-1" |>
                 <| issuedAt := Some 10 |>.

Lemma invoice_reachable_wf_witness : invoice_wf sample_issued.
Proof.
  apply (invoice_reachable_wf "i" "c" KES 0).
  eapply rtc_l; [eapply (step_addLine _ (MkInvoiceLine " rent" (MkMoney 5000 KES)) sample_invoice); vm_compute; reflexivity|].
  eapply rtc_l; [eapply (step_issue _ (num 1) (fun _ => "INV-1") (fixed_clock 10) sample_issued); vm_compute; reflexivity|].
  apply rtc_refl.
Defined.

(** issuing freezes the document: from an invoice that left the draft state
    no sequence of operations changes its lines, its total, its number or its due
    date, or brings it back to draft. *)
Theorem invoice_frozen_after_issue (i i' : Invoice) :
  inv_status i <> invoice_draft -> rtc invoice_step i i' ->
  frozen_part i' = frozen_part i /\ inv_status i' <> invoice_draft.
Proof.
  intros Hd H. induction H as [|x y z Hxy _ IH]; [done|].
  destruct (invoice_step_frozen x y Hxy Hd) as [E Hy]. destruct (IH Hy) as [E' Hz].
  split; [congruence|done].
Qed.

Lemma invoice_frozen_after_issue_witness :
  exists i', markInvoiceSent sample_issued "sms" (fixed_clock 20) = Ok i' /\
    frozen_part i'.1 = frozen_part sample_issued.
Proof.
  eexists. split; [vm_compute; reflexivity|].
  apply (invoice_frozen_after_issue sample_issued); [done|].
  apply rtc_once. eapply (step_send _ "sms" (fixed_clock 20)). vm_compute. reflexivity.
Defined.
