(* ===== verification/Receivable.v ===== *)
(** * Receivables and aging
      (src/domain/receivables/receivable.ts, src/domain/receivables/aging.ts)

    The receivable is the debt an invoice produced.  Every exported operation is
    a definition below, with its guards in the source's order and the event it
    returns; [receivable_reachable] is the set of receivables the operations can
    build, and [receivable_wf] the invariant (R1 and the audit records) they
    keep. *)

From stdpp Require Import prelude strings list relations.
From Stdlib Require Import ZArith Lia.
From S2P Require Import Prelude JsNumber JsString JsDate Money Events Invoice.
Local Open Scope string_scope.
Local Open Scope list_scope.
Local Open Scope Z_scope.
Local Open Scope js_scope.

Inductive ReceivableState :=
| draft | open | partially_paid | settled | written_off | recovered | uncollectible | voided.
#[export] Instance ReceivableState_eq_dec : EqDecision ReceivableState.
Proof. solve_decision. Defined.

Record ReceivableWriteOff := MkReceivableWriteOff {
  wo_reason : string;
  wo_approvedBy : string;
  writtenOffAt : Date;
}.

Record Receivable := MkReceivable {
  r_id : Uuid;
  r_invoiceId : Uuid;
  r_customerId : Uuid;
  r_currency : Currency;
  original : Money;
  applied : Money;
  r_state : ReceivableState;
  overdue : bool;
  openedAt : option Date;
  r_dueDate : Date;
  settledAt : option Date;
  r_voidedAt : option Date;
  r_writeOff : option ReceivableWriteOff;
  uncollectibleReason : option string;
  uncollectibleAt : option Date;
  recoveredAt : option Date;
}.

#[export] Instance Receivable_eta : Eta Receivable := fun r =>
  MkReceivable (r_id r) (r_invoiceId r) (r_customerId r) (r_currency r) (original r) (applied r)
    (r_state r) (overdue r) (openedAt r) (r_dueDate r) (settledAt r) (r_voidedAt r) (r_writeOff r)
    (uncollectibleReason r) (uncollectibleAt r) (recoveredAt r).

Definition balanceOf (r : Receivable) : result Money := Money.subtract (original r) (applied r).

Definition buildReceivable (id : Uuid) (invoice : Invoice) (state : ReceivableState) : Receivable :=
  MkReceivable id (inv_id invoice) (inv_customerId invoice) (inv_currency invoice)
    (inv_total invoice) (Money.zero (inv_currency invoice)) state false None (inv_dueDate invoice)
    None None None None None None.

Definition draftReceivableFor (invoice : Invoice) (receivableId : Uuid) : result (Invoice * Receivable) :=
  refuse (inv_status invoice <> invoice_draft) with "INVOICE_NOT_DRAFT" ;;
  refuse (inv_receivableId invoice <> None) with "RECEIVABLE_ALREADY_OPEN" ;;
  Ok (invoice <| inv_receivableId := Some receivableId |>,
      buildReceivable receivableId invoice draft).

(** The [draft] branch and the [else] branch of [openReceivable]. *)
Definition openFromDraft (invoice : Invoice) (receivableId : Uuid) (now : Date) (d : Receivable)
  : result Receivable :=
  refuse (r_id d <> receivableId) with "RECEIVABLE_INVOICE_MISMATCH" ;;
  refuse (r_invoiceId d <> inv_id invoice) with "RECEIVABLE_INVOICE_MISMATCH" ;;
  refuse (r_state d <> draft) with "RECEIVABLE_ALREADY_OPEN" ;;
  refuse (r_currency d <> inv_currency invoice) with "RECEIVABLE_INVOICE_MISMATCH" ;;
  same ← Money.equals (original d) (inv_total invoice);
  refuse (same = false \/ r_customerId d <> inv_customerId invoice \/
          r_dueDate d <> inv_dueDate invoice) with "RECEIVABLE_INVOICE_MISMATCH" ;;
  refuse (inv_receivableId invoice <> None /\ inv_receivableId invoice <> Some (r_id d))
    with "RECEIVABLE_ALREADY_OPEN" ;;
  Ok (d <| r_state := open |> <| openedAt := Some now |>).

Definition openFresh (invoice : Invoice) (receivableId : Uuid) (now : Date) : result Receivable :=
  refuse (inv_receivableId invoice <> None) with "RECEIVABLE_ALREADY_OPEN" ;;
  Ok (buildReceivable receivableId invoice open <| openedAt := Some now |>).

Definition openReceivable (invoice : Invoice) (receivableId : Uuid) (clock : Clock)
    (drafted : option Receivable) : result (Invoice * Receivable * ReceivableEvent) :=
  refuse (inv_status invoice <> invoice_issued) with "INVOICE_NOT_ISSUED" ;;
  refuse (isPositive (inv_total invoice) = false) with "INVOICE_TOTAL_ZERO" ;;
  opened ← match drafted with
           | Some d => openFromDraft invoice receivableId (clock 0%nat) d
           | None => openFresh invoice receivableId (clock 0%nat)
           end;
  originalMinor ← minorToNumber (inv_total invoice);
  let event := domainEvent "receivable.opened" (r_id opened)
    (ReceivableOpenedPayload (r_id opened) (inv_id invoice) originalMinor
       (toISOString (inv_dueDate invoice))) (clock_after 1 clock) in
  let invoice' := if decide (inv_receivableId invoice = Some (r_id opened)) then invoice
                  else invoice <| inv_receivableId := Some (r_id opened) |> in
  Ok (invoice', opened, event).

(** ** Aging *)

Definition daysPastDue (r : Receivable) (clock : Clock) : Z :=
  wholeDaysBetween (r_dueDate r) (clock 0%nat).

Definition agingBucket (r : Receivable) (clock : Clock) : result AgingBucket :=
  refuse (r_state r = settled) with "AGING_NOT_APPLICABLE" ;;
  let days := daysPastDue r clock in
  Ok (if days <=? 30 then bucket_0_30 else if days <=? 60 then bucket_31_60
      else if days <=? 90 then bucket_61_90 else bucket_90_plus).

(** ** Settlement *)

Definition live (s : ReceivableState) : Prop := s = open \/ s = partially_paid.
#[export] Instance live_dec s : Decision (live s).
Proof. unfold live. apply _. Defined.

Definition applyAllocation (r : Receivable) (amt : Money) (clock : Clock)
  : result (Receivable * ReceivableEvent) :=
  refuse (currency amt <> r_currency r) with "CURRENCY_MISMATCH" ;;
  refuse (isPositive amt = false) with "ALLOCATION_AMOUNT_INVALID" ;;
  balance ← balanceOf r;
  if decide (r_state r = written_off) then
    c ← Money.compareTo amt balance;
    refuse (c > 0) with "ALLOCATION_EXCEEDS_BALANCE" ;;
    applied' ← Money.add (applied r) amt;
    let recovered' := r <| applied := applied' |> <| r_state := recovered |>
                        <| recoveredAt := Some (clock 0%nat) |> in
    amountMinor ← minorToNumber amt;
    Ok (recovered', domainEvent "receivable.recovered" (r_id r)
          (ReceivableRecoveredPayload (r_id r) amountMinor) (clock_after 1 clock))
  else
  refuse (~ live (r_state r)) with "INVALID_RECEIVABLE_TRANSITION" ;;
  c ← Money.compareTo amt balance;
  refuse (c > 0) with "ALLOCATION_EXCEEDS_BALANCE" ;;
  applied' ← Money.add (applied r) amt;
  settledNow ← Money.equals applied' (original r);
  if (settledNow : bool) then
    let at0 := clock 0%nat in
    Ok (r <| applied := applied' |> <| r_state := settled |> <| overdue := false |>
          <| settledAt := Some at0 |>,
        domainEvent "receivable.settled" (r_id r)
          (ReceivableSettledPayload (r_id r) (toISOString at0)) (clock_after 1 clock))
  else
    amountMinor ← minorToNumber amt;
    remaining ← Money.subtract (original r) applied';
    remainingMinor ← minorToNumber remaining;
    Ok (r <| applied := applied' |> <| r_state := partially_paid |>,
        domainEvent "receivable.partiallySettled" (r_id r)
          (ReceivablePartiallySettledPayload (r_id r) amountMinor remainingMinor) clock).

Definition markOverdue (r : Receivable) (clock : Clock) : result (Receivable * ReceivableEvent) :=
  refuse (~ live (r_state r)) with "INVALID_RECEIVABLE_TRANSITION" ;;
  refuse (overdue r = true) with "OVERDUE_ALREADY_MARKED" ;;
  refuse (clock 0%nat <= r_dueDate r) with "RECEIVABLE_NOT_DUE" ;;
  let daysLate := daysPastDue r (clock_after 1 clock) in
  bucket ← agingBucket r (clock_after 2 clock);
  Ok (r <| overdue := true |>,
      domainEvent "receivable.overdue" (r_id r)
        (ReceivableOverduePayload (r_id r) daysLate bucket) (clock_after 3 clock)).

Definition writeOff (r : Receivable) (reason approvedBy : string) (clock : Clock)
  : result (Receivable * ReceivableEvent) :=
  let reason := trim reason in
  let approvedBy := trim approvedBy in
  refuse (reason = "") with "WRITE_OFF_REASON_REQUIRED" ;;
  refuse (approvedBy = "") with "WRITE_OFF_APPROVER_REQUIRED" ;;
  refuse (~ live (r_state r)) with "INVALID_RECEIVABLE_TRANSITION" ;;
  refuse (overdue r = false) with "WRITE_OFF_REQUIRES_OVERDUE" ;;
  Ok (r <| r_state := written_off |>
        <| r_writeOff := Some (MkReceivableWriteOff reason approvedBy (clock 0%nat)) |>,
      domainEvent "receivable.writtenOff" (r_id r)
        (ReceivableWrittenOffPayload (r_id r) reason approvedBy) (clock_after 1 clock)).

Definition markUncollectible (r : Receivable) (reason : string) (clock : Clock) : result Receivable :=
  let reason := trim reason in
  refuse (reason = "") with "UNCOLLECTIBLE_REASON_REQUIRED" ;;
  refuse (~ live (r_state r)) with "INVALID_RECEIVABLE_TRANSITION" ;;
  refuse (overdue r = false) with "UNCOLLECTIBLE_REQUIRES_OVERDUE" ;;
  Ok (r <| r_state := uncollectible |> <| uncollectibleReason := Some reason |>
        <| uncollectibleAt := Some (clock 0%nat) |>).

Definition voidReceivable (r : Receivable) (clock : Clock) : result Receivable :=
  refuse (r_state r = partially_paid) with "RECEIVABLE_VOID_REQUIRES_ZERO_APPLIED" ;;
  refuse (r_state r <> open) with "INVALID_RECEIVABLE_TRANSITION" ;;
  refuse (isZero (applied r) = false) with "RECEIVABLE_VOID_REQUIRES_ZERO_APPLIED" ;;
  Ok (r <| r_state := voided |> <| overdue := false |> <| r_voidedAt := Some (clock 0%nat) |>).

(** ** Transitions *)

(** The operations on an existing receivable, as one step function. *)
Inductive receivable_op :=
| OpAllocate (amt : Money) (clock : Clock)
| OpOverdue (clock : Clock)
| OpWriteOff (reason approvedBy : string) (clock : Clock)
| OpUncollectible (reason : string) (clock : Clock)
| OpVoid (clock : Clock).

Definition run_op (r : Receivable) (op : receivable_op) : result Receivable :=
  match op with
  | OpAllocate amt clock => p ← applyAllocation r amt clock; Ok p.1
  | OpOverdue clock => p ← markOverdue r clock; Ok p.1
  | OpWriteOff reason approvedBy clock => p ← writeOff r reason approvedBy clock; Ok p.1
  | OpUncollectible reason clock => markUncollectible r reason clock
  | OpVoid clock => voidReceivable r clock
  end.

Inductive receivable_reachable : Receivable -> Prop :=
| reach_draft invoice id invoice' r :
    invoice_wf invoice -> draftReceivableFor invoice id = Ok (invoice', r) ->
    receivable_reachable r
| reach_open invoice id clock invoice' r e :
    invoice_wf invoice -> openReceivable invoice id clock None = Ok (invoice', r, e) ->
    receivable_reachable r
| reach_open_draft invoice id clock d invoice' r e :
    invoice_wf invoice -> receivable_reachable d ->
    openReceivable invoice id clock (Some d) = Ok (invoice', r, e) ->
    receivable_reachable r
| reach_op r op r' : receivable_reachable r -> run_op r op = Ok r' -> receivable_reachable r'.

(** How much may be applied in each state, and which records it carries. *)
Definition applied_fits (s : ReceivableState) (o a : Z) : Prop :=
  match s with
  | draft => a = 0 /\ 0 <= o
  | open | voided => a = 0 /\ 0 < o
  | partially_paid => 0 < a < o
  | settled => 0 < a /\ a = o
  | written_off | uncollectible => 0 <= a < o
  | recovered => 0 < a <= o
  end.

Definition receivable_wf (r : Receivable) : Prop :=
  currency (original r) = r_currency r /\ currency (applied r) = r_currency r /\
  applied_fits (r_state r) (amount (original r)) (amount (applied r)) /\
  (overdue r = true -> r_state r <> draft /\ r_state r <> settled /\ r_state r <> voided) /\
  (is_Some (settledAt r) <-> r_state r = settled) /\
  match r_writeOff r with
  | Some w => (r_state r = written_off \/ r_state r = recovered) /\ wo_reason w <> "" /\ wo_approvedBy w <> ""
  | None => r_state r <> written_off /\ r_state r <> recovered
  end.

(** ** Lemmas *)

Lemma applied_fits_le s o a : applied_fits s o a -> 0 <= a <= o.
Proof. destruct s; cbn; lia. Qed.

Lemma balanceOf_wf r : receivable_wf r ->
  balanceOf r = Ok (MkMoney (amount (original r) - amount (applied r)) (r_currency r)).
Proof.
  intros (Ho & Ha & Hf & _). apply applied_fits_le in Hf. apply subtract_Ok.
  rewrite Ho. split; [congruence|]. split; [lia|done].
Qed.

Definition balance (r : Receivable) : Z := amount (original r) - amount (applied r).

(** What a successful allocation does: the state it leads to and how much it moved. *)
Lemma applyAllocation_Ok r amt clock r' e : receivable_wf r -> applyAllocation r amt clock = Ok (r', e) ->
  currency amt = r_currency r /\ 0 < amount amt <= balance r /\
  original r' = original r /\ r_currency r' = r_currency r /\
  applied r' = MkMoney (amount (applied r) + amount amt) (r_currency r) /\
  ((r_state r = written_off /\ r_state r' = recovered /\ settledAt r' = settledAt r /\
      overdue r' = overdue r /\ r_writeOff r' = r_writeOff r) \/
   (live (r_state r) /\ amount amt = balance r /\ r_state r' = settled /\ is_Some (settledAt r') /\
      overdue r' = false /\ r_writeOff r' = r_writeOff r) \/
   (live (r_state r) /\ amount amt < balance r /\ r_state r' = partially_paid /\
      settledAt r' = settledAt r /\ overdue r' = overdue r /\ r_writeOff r' = r_writeOff r)).
Proof.
  intros Hwf H. unfold applyAllocation in H. rewrite balanceOf_wf in H by done.
  destruct Hwf as (Ho & Ha & _). cbn [mbind result_bind] in H.
  destruct (decide (currency amt <> r_currency r)) as [|Hc%dec_stable]; [done|].
  destruct (decide (isPositive amt = false)) as [|Hp%isPositive_true]; [done|].
  assert (Money.add (applied r) amt = Ok (MkMoney (amount (applied r) + amount amt) (r_currency r))) as Hadd.
  { apply add_Ok. split; [congruence|]. by rewrite Ha. }
  rewrite compareTo_same in H by done. rewrite Hadd in H. cbn [mbind result_bind] in H. unfold balance.
  assert (forall x, ((if decide (amount amt = x) then 0 else if decide (amount amt > x) then 1 else -1) <= 0)
          -> amount amt <= x) as Hcmp by (intros x; repeat case_decide; lia).
  destruct (decide (r_state r = written_off)) as [Hs|Hs]; invert_ok.
  - split; [done|]. split; [split; [done|]; apply Hcmp; lia|]. by split_and!; [..|left].
  - assert (amount amt <= amount (original r) - amount (applied r)) by (apply Hcmp; lia).
    destruct v; invert_ok; split; try done; (split; [done|]); split_and!; try done; right;
      unfold equals in *; invert_ok;
      match goal with H : compareTo _ _ = Ok _ |- _ => apply compareTo_Ok in H as [_ H]; cbn in H end;
      [left|right]; split_and!; try done;
      match goal with H : bool_decide _ = _ |- _ =>
        rewrite ?bool_decide_eq_true, ?bool_decide_eq_false in H end; lia.
Qed.

(** Solve the invariant of an updated receivable from that of the old one. *)
Ltac solve_receivable :=
  unfold receivable_wf, applied_fits, live, balance in *; cbn in *;
  repeat match goal with
  | H : r_state ?r = _, H' : context [r_state ?r] |- _ =>
      lazymatch type of H' with r_state r = _ => fail | _ => rewrite H in H' end
  end;
  split_and!; repeat case_match; subst; try lia; naive_solver (congruence || lia).

Lemma applyAllocation_wf r amt clock r' e :
  receivable_wf r -> applyAllocation r amt clock = Ok (r', e) -> receivable_wf r'.
Proof.
  intros Hwf H. apply applyAllocation_Ok in H; [|done].
  destruct H as (Hc & Hamt & Eo & Ec & Ea & Hcase). pose proof Hwf as (Ho & Ha & Hf & Hov & Hst & Hw).
  unfold receivable_wf. rewrite Eo, Ec, Ea. cbn [amount currency].
  destruct Hcase as [(S1 & S2 & E1 & E2 & E3)|[(S1 & Hb & S2 & E1 & E2 & E3)|(S1 & Hb & S2 & E1 & E2 & E3)]];
    rewrite S2, ?E1, E2, E3; [|destruct S1 as [S1|S1]..]; solve_receivable.
Qed.

Lemma run_op_wf r op r' : receivable_wf r -> run_op r op = Ok r' -> receivable_wf r'.
Proof.
  intros Hwf H.
  destruct op as [amt clock|clock|reason by' clock|reason clock|clock]; cbn in H; invert_ok.
  - destruct v as [r' e]. by eapply applyAllocation_wf.
  - unfold markOverdue in E. invert_ok. destruct N as [S1|S1]; solve_receivable.
  - unfold writeOff in E. invert_ok. destruct N1 as [S1|S1]; solve_receivable.
  - unfold markUncollectible in H. invert_ok. destruct N0 as [S1|S1]; solve_receivable.
  - unfold voidReceivable in H. invert_ok. solve_receivable.
Qed.

Lemma openReceivable_wf invoice id clock drafted invoice' r e :
  invoice_wf invoice -> (forall d, drafted = Some d -> receivable_wf d) ->
  openReceivable invoice id clock drafted = Ok (invoice', r, e) ->
  receivable_wf r /\ r_state r = open /\ inv_receivableId invoice' = Some (r_id r) /\
  original r = inv_total invoice.
Proof.
  intros Hi Hd H. unfold openReceivable in H. invert_ok. apply isPositive_true in N0.
  enough (receivable_wf r /\ r_state r = open /\ original r = inv_total invoice) as (Hr & Hs & Eo).
  { split_and!; try done. by case_decide. }
  destruct drafted as [d|].
  - specialize (Hd d eq_refl). unfold openFromDraft in E. invert_ok.
    unfold equals in *. invert_ok.
    match goal with H : compareTo _ _ = Ok _ |- _ => apply compareTo_Ok in H as [Hcur Hcmp] end.
    match goal with H : ~ (bool_decide _ = false \/ _) |- _ =>
      apply Decidable.not_or in H as [Hsame%not_false_iff_true%bool_decide_eq_true _] end.
    assert (original d = inv_total invoice) as Eo by (apply money_eq; [lia|done]).
    split; [|done]. rewrite <- Eo in *. solve_receivable.
  - unfold openFresh in E. invert_ok. destruct Hi as (Hc & _). split; [|done].
    clear Hd. unfold receivable_wf. cbn. split_and!; try done; by intros [].
Qed.

Lemma draftReceivableFor_wf invoice id invoice' r :
  invoice_wf invoice -> draftReceivableFor invoice id = Ok (invoice', r) -> receivable_wf r.
Proof.
  intros (Hc & Ht & Hl & _) H. unfold draftReceivableFor in H. invert_ok.
  unfold receivable_wf. cbn. split_and!; try done; try by intros [].
  rewrite Ht. apply sumZ_nonneg, Forall_fmap. eapply Forall_impl; [exact Hl|]. cbn. lia.
Qed.

Lemma reachable_wf r : receivable_reachable r -> receivable_wf r.
Proof.
  induction 1 as [inv id inv' r Hi H|inv id clock inv' r e Hi H|inv id clock d inv' r e Hi _ IH H|r op r' _ IH H].
  - by eapply draftReceivableFor_wf.
  - by eapply openReceivable_wf in H as [H _].
  - eapply openReceivable_wf in H as [H _]; [done|done|]. by intros ? [= <-].
  - by eapply run_op_wf.
Qed.

(** C1: the receivable invariant (R1).  Every receivable that invoices and the
    exported operations can produce has, in its single currency,
    0 <= applied <= original; it is settled only when nothing is left, open and
    voided only when nothing was applied, partially paid only strictly in
    between; it has a settlement date exactly when settled; and a written-off or
    recovered receivable carries a write-off record with a non-blank reason and
    approver, which no other state has. *)
Theorem receivable_reachable_wf (r : Receivable) :
  receivable_reachable r -> receivable_wf r.
Proof. apply reachable_wf. Qed.

(** An open receivable of 50.00 KES due at the epoch. *)
Definition sample_open : Receivable :=
  buildReceivable "r" sample_issued open <| openedAt := Some 10 |>.

Lemma sample_open_reachable : receivable_reachable sample_open.
Proof.
  eapply (reach_open sample_issued "r" (fixed_clock 10)).
  - split_and!; try done; cbn; [by repeat constructor|]. split; [by intros []|done].
  - vm_compute. reflexivity.
Defined.

Lemma receivable_reachable_wf_witness :
  exists r, run_op sample_open (OpAllocate (MkMoney 2000 KES) (fixed_clock 20)) = Ok r /\ receivable_wf r.
Proof.
  eexists. split; [vm_compute; reflexivity|].
  apply receivable_reachable_wf.
  eapply (reach_op sample_open (OpAllocate (MkMoney 2000 KES) (fixed_clock 20)));
    [exact sample_open_reachable|]. vm_compute. reflexivity.
Defined.

(** With the amount checks passed, the state and the balance decide. *)
Lemma applyAllocation_outcome r amt clock :
  receivable_wf r -> amount (original r) <= MAX_SAFE_INTEGER ->
  currency amt = r_currency r -> 0 < amount amt ->
  if decide (~ live (r_state r) /\ r_state r <> written_off)
  then applyAllocation r amt clock = Err (DomainError "INVALID_RECEIVABLE_TRANSITION")
  else if decide (balance r < amount amt)
  then applyAllocation r amt clock = Err (DomainError "ALLOCATION_EXCEEDS_BALANCE")
  else exists r' e, applyAllocation r amt clock = Ok (r', e).
Proof.
  intros Hwf Hsafe Hc Hp. pose proof Hwf as (Ho & Ha & Hf%applied_fits_le & _).
  unfold applyAllocation, isPositive. rewrite balanceOf_wf by done. cbn [mbind result_bind].
  rewrite (decide_False (P := currency amt <> r_currency r)) by naive_solver.
  rewrite (decide_False (P := (0 <? amount amt) = false)) by lia.
  assert (Money.add (applied r) amt = Ok (MkMoney (amount (applied r) + amount amt) (r_currency r))) as Hadd.
  { apply add_Ok. split; [congruence|]. by rewrite Ha. }
  rewrite compareTo_same by done. rewrite Hadd. cbn [mbind result_bind amount].
  assert (forall x, ((if decide (amount amt = x) then 0 else if decide (amount amt > x) then 1 else -1) > 0)
          <-> x < amount amt) as Hcmp by (intros x; repeat case_decide; lia).
  fold (balance r). destruct (decide (r_state r = written_off)) as [Hs|Hs].
  - rewrite decide_False by tauto. destruct (decide (balance r < amount amt)).
    + rewrite decide_True by (by apply Hcmp). done.
    + rewrite decide_False by (by rewrite Hcmp). unfold balance in *.
      rewrite minorToNumber_small by lia. by repeat eexists.
  - destruct (decide (~ live (r_state r))) as [Hl|Hl]; [by rewrite decide_True by tauto|].
    rewrite decide_False by tauto. destruct (decide (balance r < amount amt)).
    + rewrite decide_True by (by apply Hcmp). done.
    + rewrite decide_False by (by rewrite Hcmp). unfold balance, equals in *.
      rewrite compareTo_same by done. cbn [mbind result_bind amount].
      case_match; [by repeat eexists|]. rewrite minorToNumber_small by lia.
      assert (Money.subtract (original r) (MkMoney (amount (applied r) + amount amt) (r_currency r)) =
        Ok (MkMoney (amount (original r) - (amount (applied r) + amount amt)) (r_currency r))) as ->.
      { apply subtract_Ok. cbn. rewrite Ho. split; [done|]. split; [lia|done]. }
      cbn [mbind result_bind]. rewrite minorToNumber_small by (cbn; lia). by repeat eexists.
Qed.

(** C9: [applyAllocation], every branch.  On a well-formed receivable whose
    original fits the event payloads, the outcome is determined: a wrong currency
    or a non-positive amount is refused first, then a state that takes no money,
    then an amount above the balance; otherwise the call succeeds, the balance
    drops by exactly the amount, and the new state is recovered (from
    written_off), settled with the overdue flag cleared (nothing left) or
    partially_paid. *)
Theorem applyAllocation_spec (r : Receivable) (amt : Money) (clock : Clock) :
  receivable_wf r -> amount (original r) <= MAX_SAFE_INTEGER ->
  if decide (currency amt <> r_currency r)
  then applyAllocation r amt clock = Err (DomainError "CURRENCY_MISMATCH")
  else if decide (amount amt <= 0)
  then applyAllocation r amt clock = Err (DomainError "ALLOCATION_AMOUNT_INVALID")
  else if decide (~ live (r_state r) /\ r_state r <> written_off)
  then applyAllocation r amt clock = Err (DomainError "INVALID_RECEIVABLE_TRANSITION")
  else if decide (balance r < amount amt)
  then applyAllocation r amt clock = Err (DomainError "ALLOCATION_EXCEEDS_BALANCE")
  else exists r' e, applyAllocation r amt clock = Ok (r', e) /\
    balance r' = balance r - amount amt /\ original r' = original r /\
    r_state r' = (if decide (r_state r = written_off) then recovered
                  else if decide (balance r' = 0) then settled else partially_paid) /\
    (r_state r' = settled -> overdue r' = false).
Proof.
  intros Hwf Hsafe. pose proof Hwf as (Ho & Ha & Hf%applied_fits_le & _).
  destruct (decide (currency amt <> r_currency r)) as [Hc|Hc%dec_stable].
  { unfold applyAllocation. by rewrite decide_True. }
  destruct (decide (amount amt <= 0)) as [Hp|Hp].
  { unfold applyAllocation, isPositive. rewrite decide_False by tauto.
    rewrite decide_True; [done|]. lia. }
  pose proof (applyAllocation_outcome r amt clock Hwf Hsafe Hc ltac:(lia)) as Hgoal.
  case_decide; [done|]. case_decide; [done|]. destruct Hgoal as (r' & e & Hok).
  exists r', e. split; [done|]. apply applyAllocation_Ok in Hok; [|done].
  destruct Hok as (_ & _ & Eo & _ & Ea & Hcase). unfold balance in *. rewrite Eo, Ea. cbn [amount].
  split; [lia|]. split; [done|]. unfold live in *.
  destruct Hcase as [(S1 & S2 & _)|[(S1 & Hb & S2 & _ & E2 & _)|(S1 & Hb & S2 & _)]].
  - rewrite decide_True by done. rewrite S2. done.
  - rewrite decide_False by (destruct S1; congruence). rewrite decide_True by lia. done.
  - rewrite decide_False by (destruct S1; congruence). rewrite decide_False by lia. by rewrite S2.
Qed.

Lemma applyAllocation_spec_witness :
  applyAllocation sample_open (MkMoney 5001 KES) (fixed_clock 20) =
  Err (DomainError "ALLOCATION_EXCEEDS_BALANCE").
Proof.
  apply (applyAllocation_spec sample_open (MkMoney 5001 KES) (fixed_clock 20)).
  - apply reachable_wf, sample_open_reachable.
  - vm_compute. discriminate.
Defined.

(** Applying a list of amounts one after the other. *)
Definition applyAll (clock : Clock) (r : Receivable) (amounts : list Money) : result Receivable :=
  foldM (fun r a => p ← applyAllocation r a clock; Ok p.1) r amounts.

(** settlement is reached by any split.  However the balance of a live
    receivable is cut into positive amounts of its currency, applying them in
    order succeeds at every step and ends settled, with the whole original
    applied, the overdue flag cleared and a settlement date. *)
Theorem any_split_of_the_balance_settles (clock : Clock) (r : Receivable) (amounts : list Money) :
  receivable_wf r -> live (r_state r) -> amount (original r) <= MAX_SAFE_INTEGER ->
  Forall (fun a => currency a = r_currency r /\ 0 < amount a) amounts ->
  sumZ (amount <$> amounts) = balance r ->
  exists r', applyAll clock r amounts = Ok r' /\ r_state r' = settled /\
    amount (applied r') = amount (original r) /\ original r' = original r /\
    overdue r' = false /\ is_Some (settledAt r').
Proof.
  intros Hwf Hlive Hsafe Hall. revert r Hwf Hlive Hsafe Hall.
  induction amounts as [|a l IH]; intros r Hwf Hlive Hsafe Hall Hsum.
  { exfalso. change (0 = balance r) in Hsum. unfold balance, live in *.
    destruct Hwf as (_ & _ & Hf & _). destruct Hlive as [E|E]; rewrite E in Hf; cbn in Hf; lia. }
  apply Forall_cons in Hall as [[Hc Hp] Hall]. rewrite fmap_cons, sumZ_cons in Hsum.
  assert (0 <= sumZ (amount <$> l)) as Hnn.
  { apply sumZ_nonneg, Forall_fmap. eapply Forall_impl; [exact Hall|]. cbn. lia. }
  pose proof (applyAllocation_outcome r a clock Hwf Hsafe Hc Hp) as Ho.
  rewrite decide_False in Ho by tauto. rewrite decide_False in Ho by lia.
  destruct Ho as (r1 & e & Hok). unfold applyAll. cbn [foldM]. rewrite Hok. cbn [mbind result_bind].
  pose proof (applyAllocation_wf _ _ _ _ _ Hwf Hok) as Hwf1.
  apply applyAllocation_Ok in Hok; [|done].
  destruct Hok as (_ & _ & Eo & Ec & Ea & Hcase).
  assert (balance r1 = balance r - amount a) as Hb1.
  { unfold balance. rewrite Eo, Ea. cbn. lia. }
  destruct Hcase as [(S1 & _)|[(S1 & Hb & S2 & Hat & Hov & _)|(S1 & Hb & S2 & _)]].
  - exfalso. destruct Hlive; congruence.
  - destruct l as [|a' l].
    + exists r1. split; [done|]. split; [done|]. split_and!; try done. rewrite Ea. cbn. unfold balance in *. lia.
    + exfalso. apply Forall_cons in Hall as [[_ Hp'] Hall]. rewrite fmap_cons, sumZ_cons in Hsum.
      assert (0 <= sumZ (amount <$> l)); [|lia].
      apply sumZ_nonneg, Forall_fmap. eapply Forall_impl; [exact Hall|]. cbn. lia.
  - rewrite <- Eo. apply IH; try done; [by right|by rewrite Eo|by rewrite Ec|lia].
Qed.

Lemma any_split_of_the_balance_settles_witness :
  exists r', applyAll (fixed_clock 20) sample_open [MkMoney 1 KES; MkMoney 4999 KES] = Ok r' /\
    r_state r' = settled.
Proof.
  destruct (any_split_of_the_balance_settles (fixed_clock 20) sample_open
    [MkMoney 1 KES; MkMoney 4999 KES]) as (r' & H & Hs & _).
  - apply reachable_wf, sample_open_reachable.
  - by left.
  - vm_compute. discriminate.
  - by repeat constructor.
  - reflexivity.
  - by exists r'.
Defined.

(** settled, recovered, uncollectible and voided receivables are final:
    every operation refuses them with an error of the domain, so no sequence of
    calls can revive, re-age or re-apply money to a closed debt. *)
Theorem closed_receivables_are_final (r : Receivable) (op : receivable_op) :
  receivable_wf r ->
  r_state r = settled \/ r_state r = recovered \/ r_state r = uncollectible \/ r_state r = voided ->
  exists code, run_op r op = Err (DomainError code).
Proof.
  intros Hwf Hs.
  assert (~ live (r_state r) /\ r_state r <> written_off /\ r_state r <> open /\ r_state r <> partially_paid)
    as (Hl & Hw & Ho & Hp) by (unfold live; naive_solver congruence).
  apply refused_code. destruct op; cbn;
    unfold applyAllocation, markOverdue, writeOff, markUncollectible, voidReceivable;
    rewrite ?balanceOf_wf by done; cbn [mbind result_bind];
    repeat (split_guard; try tauto; try done).
Qed.

Lemma closed_receivables_are_final_witness :
  exists r, run_op sample_open (OpVoid (fixed_clock 20)) = Ok r /\
    exists code, run_op r (OpAllocate (MkMoney 1 KES) (fixed_clock 30)) = Err (DomainError code).
Proof.
  eexists. split; [vm_compute; reflexivity|].
  eapply closed_receivables_are_final; [|by right; right; right].
  eapply reachable_wf, (reach_op sample_open (OpVoid (fixed_clock 20)));
    [exact sample_open_reachable|]. vm_compute. reflexivity.
Defined.

(** The stored flag outlives the debt: a write-off (reached only from overdue)
    and an uncollectible verdict leave [overdue] set, although the field's
    comment says it is only ever true while the debt is live. *)
Theorem overdue_flag_survives_closing (r : Receivable) (reason approvedBy : string) (clock : Clock) :
  (forall r' e, writeOff r reason approvedBy clock = Ok (r', e) ->
     overdue r' = true /\ ~ live (r_state r')) /\
  (forall r', markUncollectible r reason clock = Ok r' -> overdue r' = true /\ ~ live (r_state r')).
Proof.
  split.
  - intros r' e H. unfold writeOff in H. invert_ok. cbn. unfold live.
    split; [by apply not_false_is_true|]. naive_solver.
  - intros r' H. unfold markUncollectible in H. invert_ok. cbn. unfold live.
    split; [by apply not_false_is_true|]. naive_solver.
Qed.
