(* ===== verification/LateFee.v ===== *)
(** * Late fees (src/domain/receivables/late-fee.ts)

    A policy is validated into canonical bigints, a fee is computed from the
    outstanding balance, and an accrual is idempotent per (receivable, period
    key).  [run_job] is the client the module is written for: a job that runs
    the accrual again and again and keeps the fee rows it was given. *)

From stdpp Require Import prelude strings list.
From Stdlib Require Import ZArith Lia.
From S2P Require Import Prelude JsNumber JsString JsDate Money Events.
Local Open Scope string_scope.
Local Open Scope list_scope.
Local Open Scope Z_scope.
Local Open Scope js_scope.

Inductive LateFeePolicyKind := flat | percent.
#[export] Instance LateFeePolicyKind_eq_dec : EqDecision LateFeePolicyKind.
Proof. solve_decision. Defined.

Record LateFeePolicy := MkLateFeePolicy {
  kind : string;
  flatMinor : option numeric;
  percentBps : option number;
  capMinor : option numeric;
  graceDays : number;
}.

Record ResolvedLateFeePolicy := MkResolvedLateFeePolicy {
  rs_kind : LateFeePolicyKind;
  rs_flatMinor : option Z;
  rs_percentBps : option Z;
  rs_capMinor : option Z;
  rs_graceDays : Z;
}.

(** [state] is an optional string: a caller may pass a narrow stand-in. *)
Record LateFeeReceivableLike := MkLateFeeReceivableLike {
  lf_id : Uuid;
  lf_currency : Currency;
  lf_dueDate : Date;
  lf_overdue : bool;
  lf_original : Money;
  lf_applied : Money;
  lf_state : option string;
}.

(** [posting] is the constant [{ debit: 'ar_control', credit: 'fee_income' }]. *)
Record LateFee := MkLateFee {
  fee_receivableId : Uuid;
  periodKey : string;
  fee_amount : Money;
  fee_currency : Currency;
  fee_policyKind : LateFeePolicyKind;
  fee_percentBps : option Z;
  fee_flatMinor : option Z;
  fee_capMinor : option Z;
  fee_balanceMinor : Z;
  fee_daysLate : Z;
  fee_graceDays : Z;
  accruedAt : Date;
}.

Record LateFeeAccruedPayload := MkLateFeeAccruedPayload {
  lp_receivableId : Uuid;
  lp_periodKey : string;
  lp_amountMinor : Z;
  lp_currency : Currency;
  lp_policyKind : LateFeePolicyKind;
  lp_percentBps : option Z;
  lp_flatMinor : option Z;
  lp_balanceMinor : Z;
  lp_daysLate : Z;
  lp_graceDays : Z;
}.
Notation LateFeeEvent := (DomainEvent LateFeeAccruedPayload).

Record LateFeeAccrualOptions := MkLateFeeAccrualOptions {
  opt_clock : Clock;
  opt_periodKey : string;
  previouslyAccruedPeriodKeys : list string;
  previouslyAccruedFees : list LateFee;
}.

Inductive AccrualOutcome := accrued | already_accrued.

Record LateFeeAccrual := MkLateFeeAccrual {
  outcome : AccrualOutcome;
  fee : LateFee;
  events : list LateFeeEvent;
}.

Definition nonNegativeMinor (value : numeric) (code : string) : result Z :=
  match safeMinor value with
  | None => Err (DomainError code)
  | Some z => if decide (z < 0) then Err (DomainError code) else Ok z
  end.

Definition nonNegativeInt (value : number) (code : string) : result Z :=
  nonNegativeMinor (Num value) code.

Definition validateLateFeePolicy (policy : LateFeePolicy) : result ResolvedLateFeePolicy :=
  refuse (kind policy <> "flat" /\ kind policy <> "percent") with "LATE_FEE_POLICY_KIND_INVALID" ;;
  refuse (is_Some (flatMinor policy) /\ is_Some (percentBps policy))
    with "LATE_FEE_POLICY_FLAT_AND_PERCENT" ;;
  '(k, flatMinor', percentBps') ←
    (if decide (kind policy = "flat") then
       match flatMinor policy with
       | None => Err (DomainError "LATE_FEE_POLICY_FLAT_REQUIRED")
       | Some v => z ← nonNegativeMinor v "LATE_FEE_POLICY_FLAT_INVALID"; Ok (flat, Some z, None)
       end
     else
       match percentBps policy with
       | None => Err (DomainError "LATE_FEE_POLICY_PERCENT_REQUIRED")
       | Some v => z ← nonNegativeInt v "LATE_FEE_POLICY_BPS_INVALID"; Ok (percent, None, Some z)
       end);
  capMinor' ← match capMinor policy with
              | Some v => z ← nonNegativeMinor v "LATE_FEE_POLICY_CAP_INVALID"; Ok (Some z)
              | None => Ok None
              end;
  graceDays' ← nonNegativeInt (graceDays policy) "LATE_FEE_POLICY_GRACE_INVALID";
  Ok (MkResolvedLateFeePolicy k flatMinor' percentBps' capMinor' graceDays').

Definition wholeDaysLate (dueDate now : Date) : Z := wholeDaysBetween dueDate now.

(** [resolved.flatMinor as bigint] and [resolved.percentBps as number] are
    present for the respective kind. *)
Definition feeAmountOf (resolved : ResolvedLateFeePolicy) (balanceMinor : Z) : Z :=
  let uncapped := match rs_kind resolved with
    | flat => default 0 (rs_flatMinor resolved)
    | percent => Z.quot (balanceMinor * default 0 (rs_percentBps resolved)) 10000
    end in
  match rs_capMinor resolved with
  | Some cap => if uncapped >? cap then cap else uncapped
  | None => uncapped
  end.

Definition buildFeeRow (r : LateFeeReceivableLike) (resolved : ResolvedLateFeePolicy)
    (key : string) (amountMinor balanceMinor daysLate : Z) (now : Date) : result LateFee :=
  amt ← Money.ofMinor (Big amountMinor) (lf_currency r);
  Ok (MkLateFee (lf_id r) key amt (lf_currency r) (rs_kind resolved) (rs_percentBps resolved)
        (rs_flatMinor resolved) (rs_capMinor resolved) balanceMinor daysLate
        (rs_graceDays resolved) now).

Definition not_live (r : LateFeeReceivableLike) : Prop :=
  match lf_state r with
  | None => False
  | Some s => s <> "open" /\ s <> "partially_paid"
  end.
#[export] Instance not_live_dec r : Decision (not_live r).
Proof. unfold not_live. destruct (lf_state r); apply _. Defined.

(** The closure [chargeableBalance]; [now] is the reading it takes. *)
Definition chargeableBalance (r : LateFeeReceivableLike) (resolved : ResolvedLateFeePolicy)
    (now : Date) : option Money :=
  if decide (not_live r) then None
  else if decide (lf_overdue r = false /\ now <= lf_dueDate r) then None
  else if decide (wholeDaysLate (lf_dueDate r) now <= rs_graceDays resolved) then None
  else match Money.subtract (lf_original r) (lf_applied r) with
       | Ok balance => if isZero balance then None else Some balance
       | Err _ => None
       end.

Definition accrueLateFee (r : LateFeeReceivableLike) (policy : LateFeePolicy)
    (options : LateFeeAccrualOptions) : result LateFeeAccrual :=
  resolved ← validateLateFeePolicy policy;
  let clock := opt_clock options in
  let key := trim (opt_periodKey options) in
  refuse (key = "") with "LATE_FEE_PERIOD_KEY_REQUIRED" ;;
  let verbatim := List.find (fun f => bool_decide (periodKey f = key)) (previouslyAccruedFees options) in
  match verbatim with
  | Some f => Ok (MkLateFeeAccrual already_accrued f [])
  | None =>
  if decide (key ∈ previouslyAccruedPeriodKeys options) then
    let daysLate := wholeDaysLate (lf_dueDate r) (clock 0%nat) in
    (* the closure reads the clock unless the state already excludes a charge *)
    let balance := chargeableBalance r resolved (clock 1%nat) in
    let reading := if decide (not_live r) then 1%nat else 2%nat in
    marker ← buildFeeRow r resolved key
               (match balance with None => 0 | Some b => feeAmountOf resolved (amount b) end)
               (match balance with None => 0 | Some b => amount b end) daysLate (clock reading);
    Ok (MkLateFeeAccrual already_accrued marker [])
  else
  refuse (not_live r) with "LATE_FEE_RECEIVABLE_NOT_LIVE" ;;
  let now := clock 0%nat in
  refuse (lf_overdue r = false /\ now <= lf_dueDate r) with "LATE_FEE_NOT_OVERDUE" ;;
  let daysLate := wholeDaysLate (lf_dueDate r) now in
  refuse (daysLate <= rs_graceDays resolved) with "LATE_FEE_WITHIN_GRACE" ;;
  balance ← Money.subtract (lf_original r) (lf_applied r);
  refuse (isZero balance = true) with "LATE_FEE_ZERO_BALANCE" ;;
  row ← buildFeeRow r resolved key (feeAmountOf resolved (amount balance)) (amount balance)
          daysLate (clock 1%nat);
  amountMinor ← minorToNumber (fee_amount row);
  flatMinor' ← match rs_flatMinor resolved with
               | None => Ok None
               | Some z => m ← Money.ofMinor (Big z) (lf_currency r); n ← minorToNumber m; Ok (Some n)
               end;
  balanceMinor ← minorToNumber balance;
  let event := domainEvent "receivable.lateFeeAccrued" (lf_id r)
    (MkLateFeeAccruedPayload (lf_id r) key amountMinor (lf_currency r) (rs_kind resolved)
       (rs_percentBps resolved) flatMinor' balanceMinor daysLate (rs_graceDays resolved))
    (clock_after 2 clock) in
  Ok (MkLateFeeAccrual accrued row [event])
  end.

(** ** A job that re-runs accruals

    One run of the accrual job: it passes the fee rows kept so far and appends a
    row exactly when the call charged.  A refused run changes nothing. *)
Record job_run := MkJobRun {
  run_receivable : LateFeeReceivableLike;
  run_policy : LateFeePolicy;
  run_clock : Clock;
  run_key : string;
}.

Definition run_job (fees : list LateFee) (run : job_run) : list LateFee :=
  match accrueLateFee (run_receivable run) (run_policy run)
          (MkLateFeeAccrualOptions (run_clock run) (run_key run) [] fees) with
  | Ok a => match outcome a with accrued => fees ++ [fee a] | already_accrued => fees end
  | Err _ => fees
  end.

(** ** Lemmas *)

Lemma nonNegativeMinor_Ok v code z : nonNegativeMinor v code = Ok z -> 0 <= z.
Proof. unfold nonNegativeMinor. destruct (safeMinor v); [|done]. intros H. invert_ok. lia. Qed.

Definition policy_wf (p : ResolvedLateFeePolicy) : Prop :=
  match rs_kind p with
  | flat => exists z, rs_flatMinor p = Some z /\ 0 <= z
  | percent => exists z, rs_percentBps p = Some z /\ 0 <= z
  end /\ (forall c, rs_capMinor p = Some c -> 0 <= c) /\ 0 <= rs_graceDays p.

Lemma validateLateFeePolicy_wf policy p : validateLateFeePolicy policy = Ok p -> policy_wf p.
Proof.
  unfold validateLateFeePolicy, nonNegativeInt. intros H. invert_ok. destruct v as [[k f] b].
  invert_ok.
  unfold policy_wf. cbn. split; [|split; [|by eapply nonNegativeMinor_Ok]].
  - case_decide; [destruct (flatMinor policy)|destruct (percentBps policy)]; invert_ok;
      (eexists; split; [done|]; by eapply nonNegativeMinor_Ok).
  - intros c ->. case_match; invert_ok; simplify_eq. by eapply nonNegativeMinor_Ok.
Qed.

(** The charge path, inverted. *)
Lemma accrueLateFee_charged r policy o a :
  accrueLateFee r policy o = Ok a -> outcome a = accrued ->
  exists p b, validateLateFeePolicy policy = Ok p /\
    periodKey (fee a) = trim (opt_periodKey o) /\ trim (opt_periodKey o) <> "" /\
    List.find (fun f => bool_decide (periodKey f = trim (opt_periodKey o))) (previouslyAccruedFees o) = None /\
    trim (opt_periodKey o) ∉ previouslyAccruedPeriodKeys o /\ ~ not_live r /\
    Money.subtract (lf_original r) (lf_applied r) = Ok b /\ amount b <> 0 /\
    fee_amount (fee a) = MkMoney (feeAmountOf p (amount b)) (lf_currency r) /\
    0 <= feeAmountOf p (amount b) /\ fee_balanceMinor (fee a) = amount b /\
    fee_daysLate (fee a) = wholeDaysLate (lf_dueDate r) (opt_clock o 0%nat) /\
    rs_graceDays p < fee_daysLate (fee a) /\ fee_receivableId (fee a) = lf_id r /\
    exists e, events a = [e] /\ lp_periodKey (payload e) = periodKey (fee a) /\
      lp_amountMinor (payload e) = feeAmountOf p (amount b).
Proof.
  unfold accrueLateFee. intros H Ha. invert_ok.
  match goal with H : context [List.find ?P ?l] |- _ => destruct (List.find P l) eqn:Hf end.
  { invert_ok. done. }
  match goal with H : context [decide (?k ∈ ?l)] |- _ => destruct (decide (k ∈ l)) as [|Hk] end.
  { invert_ok. done. }
  invert_ok. unfold buildFeeRow in *. invert_ok. unfold ofMinor in *. invert_ok. cbn in *. subst.
  repeat match goal with H : minorToNumber _ = Ok _ |- _ => apply minorToNumber_Ok in H as [-> ?] end.
  do 2 eexists. split_and!; try done; [|lia|lia|by eexists].
  match goal with H : isZero _ <> true |- _ => unfold isZero in H; lia end.
Qed.

Lemma find_period_None key fees :
  List.find (fun f => bool_decide (periodKey f = key)) fees = None <-> key ∉ (periodKey <$> fees).
Proof.
  induction fees as [|f fees IH]; cbn; [split; [intros _ H; by apply not_elem_of_nil in H|done]|].
  destruct (bool_decide_reflect (periodKey f = key)) as [E|E].
  - split; [done|]. intros H. destruct H. rewrite E. by left.
  - rewrite IH, not_elem_of_cons. naive_solver.
Qed.

Lemma find_period_NoDup fees f : NoDup (periodKey <$> fees) -> f ∈ fees ->
  List.find (fun g => bool_decide (periodKey g = periodKey f)) fees = Some f.
Proof.
  induction fees as [|g fees IH]; intros Hnd Hf; [by apply not_elem_of_nil in Hf|].
  rewrite fmap_cons in Hnd. apply NoDup_cons in Hnd as [Hg Hnd]. cbn.
  apply elem_of_cons in Hf as [->|Hf]; [by rewrite bool_decide_eq_true_2|].
  rewrite bool_decide_eq_false_2; [by apply IH|].
  intros E. apply Hg. rewrite E. by apply list_elem_of_fmap_2.
Qed.

Lemma run_job_NoDup fees run : NoDup (periodKey <$> fees) -> NoDup (periodKey <$> run_job fees run).
Proof.
  intros Hnd. unfold run_job. destruct (accrueLateFee _ _ _) as [a|] eqn:H; [|done].
  destruct (outcome a) eqn:Ho; [|done].
  destruct (accrueLateFee_charged _ _ _ _ H Ho) as (p & b & _ & Ek & _ & Hf & _).
  cbn in Hf, Ek. apply find_period_None in Hf. rewrite fmap_app. apply NoDup_app.
  split; [done|]. split; [|apply NoDup_singleton].
  intros x Hx. cbn. rewrite Ek. intros ->%list_elem_of_singleton. done.
Qed.

(** a period is charged once.  Whatever sequence of runs the accrual job
    makes -- any receivable snapshots, policies, clocks and period keys, refused
    runs included -- the fee rows it keeps have pairwise distinct period keys,
    and a further run for a charged period returns that very row, reports it as
    already accrued and emits no event. *)
Theorem late_fee_charged_once (runs : list job_run) :
  let fees := foldl run_job [] runs in
  NoDup (periodKey <$> fees) /\
  forall f r policy clock key, f ∈ fees -> periodKey f <> "" -> trim key = periodKey f ->
    is_ok (validateLateFeePolicy policy) = true ->
    accrueLateFee r policy (MkLateFeeAccrualOptions clock key [] fees) =
      Ok (MkLateFeeAccrual already_accrued f []).
Proof.
  intros fees. assert (NoDup (periodKey <$> fees)) as Hnd.
  { unfold fees. assert (NoDup (periodKey <$> ([] : list LateFee))) as Hnil by constructor.
    revert Hnil. generalize ([] : list LateFee). induction runs as [|run runs IH]; intros l Hl; cbn; [done|].
    by apply IH, run_job_NoDup. }
  split; [done|]. intros f r policy clock key Hf Hne Hk Hok.
  apply is_ok_true in Hok as [p Hp]. unfold accrueLateFee. rewrite Hp. cbn [mbind result_bind opt_periodKey previouslyAccruedFees].
  rewrite Hk, decide_False by done. by rewrite find_period_NoDup.
Qed.

(** what a charge may be.  An accrued fee is in the receivable's currency,
    never negative, never above the cap, computed on the positive outstanding
    balance of a live debt more than the grace days late; a flat fee is the
    policy's amount and a percentage fee is the basis points of the balance
    rounded down, each before the cap; exactly one event reports it. *)
Theorem late_fee_bounds (r : LateFeeReceivableLike) (policy : LateFeePolicy)
    (o : LateFeeAccrualOptions) (a : LateFeeAccrual) :
  money_wf (lf_original r) -> accrueLateFee r policy o = Ok a -> outcome a = accrued ->
  exists p, validateLateFeePolicy policy = Ok p /\
  let f := amount (fee_amount (fee a)) in
  let b := amount (lf_original r) - amount (lf_applied r) in
  0 <= f /\ 0 < b /\ ~ not_live r /\ currency (fee_amount (fee a)) = lf_currency r /\
  rs_graceDays p < fee_daysLate (fee a) /\
  (forall cap, rs_capMinor p = Some cap -> f <= cap) /\
  (rs_kind p = flat -> f <= default 0 (rs_flatMinor p)) /\
  (rs_kind p = percent -> f * 10000 <= b * default 0 (rs_percentBps p)) /\
  (rs_capMinor p = None -> rs_kind p = percent ->
     b * default 0 (rs_percentBps p) < (f + 1) * 10000) /\
  length (events a) = 1%nat.
Proof.
  intros Ho H Ha. destruct (accrueLateFee_charged _ _ _ _ H Ha)
    as (p & b & Hp & _ & _ & _ & _ & Hl & Hs & Hb & Ef & Hf & _ & _ & Hg & _ & e & Ee & _).
  exists p. split; [done|]. apply subtract_Ok in Hs as (_ & Hle & ->). cbn [amount] in *.
  rewrite Ef, Ee. cbn [amount currency length]. set (bal := amount (lf_original r) - amount (lf_applied r)) in *.
  assert (0 < bal) by (unfold bal in *; lia). clearbody bal. destruct (validateLateFeePolicy_wf _ _ Hp) as (Hk & Hc & _).
  split_and!; try done; unfold feeAmountOf.
  - intros cap Hcap. rewrite Hcap. repeat case_match; lia.
  - intros E. rewrite E in *. repeat case_match; lia.
  - intros E. rewrite E in *. destruct Hk as (z & -> & Hz). cbn [from_option id].
    pose proof (Z.mul_div_le (bal * z) 10000 ltac:(lia)). rewrite Z.quot_div_nonneg by nia.
    repeat case_match; lia.
  - intros -> E. rewrite E in *. destruct Hk as (z & -> & Hz). cbn [from_option id].
    pose proof (Z.div_mod (bal * z) 10000 ltac:(lia)). pose proof (Z.mod_pos_bound (bal * z) 10000 ltac:(lia)).
    rewrite Z.quot_div_nonneg by nia. lia.
Qed.

(** 3.33 % of 1234.57 KES is 41.11 KES. *)
Definition sample_debt : LateFeeReceivableLike :=
  MkLateFeeReceivableLike "r" KES 0 true (MkMoney 123457 KES) (MkMoney 0 KES) (Some "open").
Definition sample_policy : LateFeePolicy := MkLateFeePolicy "percent" None (Some (num 333)) None (num 5).

Lemma late_fee_bounds_witness :
  exists a, accrueLateFee sample_debt sample_policy
      (MkLateFeeAccrualOptions (fixed_clock (10 * DAY_MS)) "2025-08" [] []) = Ok a /\
    amount (fee_amount (fee a)) = 4111 /\ exists p, validateLateFeePolicy sample_policy = Ok p.
Proof.
  eexists. split; [vm_compute; reflexivity|]. split; [reflexivity|].
  edestruct (late_fee_bounds sample_debt sample_policy
    (MkLateFeeAccrualOptions (fixed_clock (10 * DAY_MS)) "2025-08" [] [])) as (p & Hp & _).
  - by vm_compute.
  - vm_compute. reflexivity.
  - reflexivity.
  - by exists p.
Defined.
