(* ===== verification/PaymentPlan.v ===== *)
(** * Payment plans
      (src/domain/receivables/payment-plan.ts, src/domain/receivables/plan-events.ts)

    A plan splits a total into installments with [Money.allocate] on equal
    weights and dates them by calendar months; payments are appended to a log and
    the installments are derived from it.  [plan_wf] is the invariant of the plans
    the exported operations can build. *)

From stdpp Require Import prelude strings list relations.
From Stdlib Require Import ZArith Lia.
From S2P Require Import Prelude JsNumber JsString JsDate Money Events.
Local Open Scope string_scope.
Local Open Scope list_scope.
Local Open Scope Z_scope.
Local Open Scope js_scope.

Inductive PaymentPlanState := active | completed | defaulted | cancelled.
#[export] Instance PaymentPlanState_eq_dec : EqDecision PaymentPlanState.
Proof. solve_decision. Defined.

Record PlanInstallment := MkPlanInstallment {
  no : Z;
  due : Date;
  amountMinor : Z;
  paidMinor : Z;
  paidAt : option Date;
}.

Record PlanPaymentRecord := MkPlanPaymentRecord {
  rec_installmentNo : Z;
  rec_amountMinor : Z;
  recordedAt : Date;
}.

Record PaymentPlan := MkPaymentPlan {
  plan_id : Uuid;
  plan_customerId : Uuid;
  receivableIds : list Uuid;
  plan_currency : Currency;
  totalMinor : Z;
  installmentCount : Z;
  plan_state : PaymentPlanState;
  installments : list PlanInstallment;
  paymentLog : list PlanPaymentRecord;
  createdAt : option Date;
  completedAt : option Date;
  defaultedAt : option Date;
  cancelledAt : option Date;
  cancelReason : option string;
}.

#[export] Instance PaymentPlan_eta : Eta PaymentPlan := fun p =>
  MkPaymentPlan (plan_id p) (plan_customerId p) (receivableIds p) (plan_currency p) (totalMinor p)
    (installmentCount p) (plan_state p) (installments p) (paymentLog p) (createdAt p)
    (completedAt p) (defaultedAt p) (cancelledAt p) (cancelReason p).

Inductive PlanPayload :=
| PlanPaymentRecordedPayload (planId customerId : Uuid) (installmentNo amountMinor paidMinor : Z) (currency : Currency)
| PlanCompletedPayload (planId customerId : Uuid) (currency : Currency) (completedAt : string)
| PlanDefaultedPayload (planId customerId : Uuid) (installmentNo daysOverdue defaultAfterDays : Z)
| PlanCancelledPayload (planId customerId : Uuid) (reason : string).
Notation PlanEvent := (DomainEvent PlanPayload).

Record CreatePaymentPlanArgs := MkCreatePaymentPlanArgs {
  arg_id : Uuid;
  arg_customerId : Uuid;
  arg_receivableIds : list Uuid;
  arg_currency : Currency;
  arg_totalMinor : numeric;
  arg_installmentCount : number;
}.

Definition createPaymentPlan (args : CreatePaymentPlanArgs) (clock : Clock) : result PaymentPlan :=
  match safeMinor (arg_totalMinor args) with
  | None => Err (DomainError "PAYMENT_PLAN_TOTAL_INVALID")
  | Some total =>
      refuse (total <= 0) with "PAYMENT_PLAN_TOTAL_INVALID" ;;
      match safeInteger (arg_installmentCount args) with
      | None => Err (DomainError "PAYMENT_PLAN_INSTALLMENT_COUNT_INVALID")
      | Some n =>
          refuse (n < 1) with "PAYMENT_PLAN_INSTALLMENT_COUNT_INVALID" ;;
          refuse (total < n) with "PAYMENT_PLAN_TOTAL_TOO_SMALL" ;;
          refuse (arg_receivableIds args = []) with "PAYMENT_PLAN_RECEIVABLES_REQUIRED" ;;
          refuse (~ NoDup (arg_receivableIds args)) with "PAYMENT_PLAN_RECEIVABLE_DUPLICATED" ;;
          Ok (MkPaymentPlan (arg_id args) (arg_customerId args) (arg_receivableIds args)
                (arg_currency args) total n active [] [] (Some (clock 0%nat)) None None None None)
      end
  end.

(** [first]: the first of the target month at the anchor's time of day;
    [daysInMonth]: day 0 of the month after it. *)
Definition dueDateFor (anchor : Date) (n : Z) : Date :=
  let first := Date_UTC (getUTCFullYear anchor) (getUTCMonth anchor + n) 1 (timeInDay anchor) in
  let daysInMonth := getUTCDate (Date_UTC (getUTCFullYear first) (getUTCMonth first + 1) 0 0) in
  setUTCDate first (Z.min (getUTCDate anchor) daysInMonth).

Arguments dueDateFor : simpl never.

(** The largest length [Array.from({ length })] accepts. *)
Definition MAX_ARRAY_LENGTH : Z := 2 ^ 32 - 1.

Definition buildSchedule (plan : PaymentPlan) (startDate : Date) : result PaymentPlan :=
  refuse (plan_state plan <> active) with "INVALID_PAYMENT_PLAN_TRANSITION" ;;
  refuse (installments plan <> []) with "PAYMENT_PLAN_SCHEDULE_EXISTS" ;;
  total ← Money.ofMinor (Big (totalMinor plan)) (plan_currency plan);
  if decide (installmentCount plan > MAX_ARRAY_LENGTH) then Err RangeError else
  parts ← Money.allocate total (replicate (Z.to_nat (installmentCount plan)) (num 1));
  Ok (plan <| installments := imap (fun index part =>
        MkPlanInstallment (Z.of_nat index + 1) (dueDateFor startDate (Z.of_nat index + 1))
          (amount part) 0 None) parts |>).

Definition daysLateOf (i : PlanInstallment) (now : Date) : Z := wholeDaysBetween (due i) now.

Definition requireActive (plan : PaymentPlan) : result unit :=
  refuse (plan_state plan <> active) with "INVALID_PAYMENT_PLAN_TRANSITION" ;; Ok tt.

Definition requireScheduled (plan : PaymentPlan) : result unit :=
  refuse (Z.of_nat (length (installments plan)) <> installmentCount plan)
    with "PAYMENT_PLAN_SCHEDULE_MISSING" ;; Ok tt.

Definition isFullyPaid (i : PlanInstallment) : bool := amountMinor i <=? paidMinor i.

(** [plan.installments[installmentNo - 1]] with the guards on [installmentNo]:
    the number and the slot it denotes. *)
Definition installmentSlot (plan : PaymentPlan) (installmentNo : number)
  : result (Z * PlanInstallment) :=
  match safeInteger installmentNo with
  | None => Err (DomainError "PAYMENT_PLAN_INSTALLMENT_UNKNOWN")
  | Some k =>
      refuse (k < 1 \/ k > installmentCount plan) with "PAYMENT_PLAN_INSTALLMENT_UNKNOWN" ;;
      match installments plan !! Z.to_nat (k - 1) with
      | None => Err (DomainError "PAYMENT_PLAN_INSTALLMENT_UNKNOWN")
      | Some slot => Ok (k, slot)
      end
  end.

Arguments installmentSlot : simpl never.

Definition recordPlanPayment (plan : PaymentPlan) (installmentNo : number) (amt : numeric)
    (clock : Clock) : result (PaymentPlan * list PlanEvent) :=
  _ ← requireActive plan;
  _ ← requireScheduled plan;
  '(k, slot) ← installmentSlot plan installmentNo;
  money ← Money.ofMinor amt (plan_currency plan);
  refuse (isPositive money = false) with "PAYMENT_PLAN_PAYMENT_AMOUNT_INVALID" ;;
  refuse (paidMinor slot + amount money > amountMinor slot) with "PAYMENT_PLAN_INSTALLMENT_OVERPAID" ;;
  let now := clock 0%nat in
  let paid := paidMinor slot + amount money in
  let paidInstallment := MkPlanInstallment (no slot) (due slot) (amountMinor slot) paid
    (if decide (paid = amountMinor slot) then Some now else paidAt slot) in
  let installments' := (fun i => if decide (no i = k) then paidInstallment else i) <$> installments plan in
  let completed' := forallb isFullyPaid installments' in
  let next := plan <| installments := installments' |>
                   <| paymentLog := paymentLog plan ++ [MkPlanPaymentRecord k (amount money) now] |>
                   <| plan_state := if completed' then completed else plan_state plan |>
                   <| completedAt := if completed' then Some now else completedAt plan |> in
  amountMinor' ← minorToNumber money;
  paidMoney ← Money.ofMinor (Big paid) (plan_currency plan);
  paidMinor' ← minorToNumber paidMoney;
  let recorded := domainEvent "paymentplan.paymentRecorded" (plan_id plan)
    (PlanPaymentRecordedPayload (plan_id plan) (plan_customerId plan) k amountMinor' paidMinor'
       (plan_currency plan)) (clock_after 1 clock) in
  let done_ := domainEvent "paymentplan.completed" (plan_id plan)
    (PlanCompletedPayload (plan_id plan) (plan_customerId plan) (plan_currency plan)
       (toISOString now)) (clock_after 2 clock) in
  Ok (next, recorded :: (if completed' then [done_] else [])).

Definition unpaidInstallmentsOf (plan : PaymentPlan) : list PlanInstallment :=
  List.filter (fun i => negb (isFullyPaid i)) (installments plan).

Definition markPlanDefaulted (plan : PaymentPlan) (defaultAfterDays : number) (clock : Clock)
  : result (PaymentPlan * PlanEvent) :=
  _ ← requireActive plan;
  _ ← requireScheduled plan;
  match safeInteger defaultAfterDays with
  | None => Err (DomainError "PAYMENT_PLAN_DEFAULT_POLICY_INVALID")
  | Some days =>
      refuse (days < 0) with "PAYMENT_PLAN_DEFAULT_POLICY_INVALID" ;;
      let now := clock 0%nat in
      match List.find (fun i => days <=? daysLateOf i now) (unpaidInstallmentsOf plan) with
      | None => Err (DomainError "PAYMENT_PLAN_NOT_DEFAULTABLE")
      | Some trigger =>
          Ok (plan <| plan_state := defaulted |> <| defaultedAt := Some now |>,
              domainEvent "paymentplan.defaulted" (plan_id plan)
                (PlanDefaultedPayload (plan_id plan) (plan_customerId plan) (no trigger)
                   (daysLateOf trigger now) days) (clock_after 1 clock))
      end
  end.

Definition cancelPaymentPlan (plan : PaymentPlan) (reason : string) (clock : Clock)
  : result (PaymentPlan * PlanEvent) :=
  let reason := trim reason in
  refuse (reason = "") with "PAYMENT_PLAN_CANCEL_REASON_REQUIRED" ;;
  _ ← requireActive plan;
  Ok (plan <| plan_state := cancelled |> <| cancelledAt := Some (clock 0%nat) |>
           <| cancelReason := Some reason |>,
      domainEvent "paymentplan.cancelled" (plan_id plan)
        (PlanCancelledPayload (plan_id plan) (plan_customerId plan) reason) (clock_after 1 clock)).

(** ** Transitions and the invariant *)

Inductive plan_op :=
| OpSchedule (startDate : Date)
| OpPay (installmentNo : number) (amt : numeric) (clock : Clock)
| OpDefault (defaultAfterDays : number) (clock : Clock)
| OpCancel (reason : string) (clock : Clock).

Definition run_plan_op (p : PaymentPlan) (op : plan_op) : result PaymentPlan :=
  match op with
  | OpSchedule start => buildSchedule p start
  | OpPay k amt clock => q ← recordPlanPayment p k amt clock; Ok q.1
  | OpDefault days clock => q ← markPlanDefaulted p days clock; Ok q.1
  | OpCancel reason clock => q ← cancelPaymentPlan p reason clock; Ok q.1
  end.

Inductive plan_reachable : PaymentPlan -> Prop :=
| plan_created args clock p : createPaymentPlan args clock = Ok p -> plan_reachable p
| plan_stepped p op p' : plan_reachable p -> run_plan_op p op = Ok p' -> plan_reachable p'.

(** What the log says was paid on installment [k]. *)
Definition logged (log : list PlanPaymentRecord) (k : Z) : Z :=
  sumZ ((fun r => if decide (rec_installmentNo r = k) then rec_amountMinor r else 0) <$> log).

Definition installment_wf (log : list PlanPaymentRecord) (i : PlanInstallment) : Prop :=
  0 < amountMinor i /\ 0 <= paidMinor i <= amountMinor i /\
  (is_Some (paidAt i) <-> paidMinor i = amountMinor i) /\ paidMinor i = logged log (no i).

Definition scheduled (p : PaymentPlan) : Prop := installments p <> [].

Definition plan_wf (p : PaymentPlan) : Prop :=
  1 <= installmentCount p <= totalMinor p /\ receivableIds p <> [] /\ NoDup (receivableIds p) /\
  (scheduled p -> no <$> installments p = seqZ 1 (installmentCount p) /\
                  sumZ (amountMinor <$> installments p) = totalMinor p) /\
  Forall (installment_wf (paymentLog p)) (installments p) /\
  Forall (fun r => 0 < rec_amountMinor r /\ rec_installmentNo r ∈ (no <$> installments p)) (paymentLog p) /\
  (plan_state p = completed <-> scheduled p /\ forallb isFullyPaid (installments p) = true) /\
  (is_Some (completedAt p) <-> plan_state p = completed).

Lemma createPaymentPlan_wf args clock p : createPaymentPlan args clock = Ok p ->
  plan_wf p /\ plan_state p = active /\ installments p = [].
Proof.
  unfold createPaymentPlan. intros H. destruct (safeMinor _); [|done]. invert_ok.
  destruct (safeInteger _); [|done]. invert_ok. split; [|done].
  unfold plan_wf, scheduled. cbn. split_and!; try done; try lia; try by intros [].
  naive_solver.
Qed.

(** The schedule as [buildSchedule] computes it: the quotient for every
    installment, one unit more for the first [total mod count] of them. *)
Definition schedule_amount (total n : Z) (i : nat) : Z :=
  total / n + (if decide (Z.of_nat i < total mod n) then 1 else 0).

Definition schedule (p : PaymentPlan) (start : Date) : list PlanInstallment :=
  (fun i => MkPlanInstallment (Z.of_nat i + 1) (dueDateFor start (Z.of_nat i + 1))
     (schedule_amount (totalMinor p) (installmentCount p) i) 0 None)
  <$> seq 0 (Z.to_nat (installmentCount p)).

Lemma schedule_amount_sum total k n : 0 <= total mod n ->
  sumZ (schedule_amount total n <$> seq 0 k) =
  Z.of_nat k * (total / n) + Z.min (Z.of_nat k) (total mod n).
Proof.
  intros Hm. induction k as [|k IH].
  - change (0 = 0 * (total / n) + Z.min 0 (total mod n)). lia.
  - rewrite seq_S, sumZ_fmap_snoc, IH. unfold schedule_amount. cbn. case_decide; lia.
Qed.

Lemma schedule_amount_pos total n i : 1 <= n <= total -> 1 <= schedule_amount total n i.
Proof.
  intros H. unfold schedule_amount. assert (1 <= total / n) by (apply Z.div_le_lower_bound; lia).
  case_decide; lia.
Qed.

Lemma schedule_facts p start : 1 <= installmentCount p <= totalMinor p ->
  schedule p start <> [] /\ no <$> schedule p start = seqZ 1 (installmentCount p) /\
  sumZ (amountMinor <$> schedule p start) = totalMinor p /\
  Forall (fun i => 1 <= amountMinor i /\ paidMinor i = 0 /\ paidAt i = None) (schedule p start).
Proof.
  intros Hc. unfold schedule. split; [|split; [|split]].
  - destruct (Z.to_nat (installmentCount p)) eqn:E; [lia|]. done.
  - rewrite <- list_fmap_compose. unfold seqZ. apply list_fmap_ext. intros i x Hx. cbn. lia.
  - rewrite <- list_fmap_compose. pose proof (Z.mod_pos_bound (totalMinor p) (installmentCount p) ltac:(lia)).
    change (sumZ (schedule_amount (totalMinor p) (installmentCount p) <$> seq 0 (Z.to_nat (installmentCount p)))
            = totalMinor p).
    rewrite schedule_amount_sum, Z2Nat.id, Z.min_r by lia.
    pose proof (Z.div_mod (totalMinor p) (installmentCount p) ltac:(lia)). lia.
  - apply Forall_fmap, Forall_seq. intros j _. cbn. split; [|done]. by apply schedule_amount_pos.
Qed.

Lemma buildSchedule_plan p start : 1 <= installmentCount p <= totalMinor p ->
  plan_state p = active -> installments p = [] -> installmentCount p <= MAX_ARRAY_LENGTH ->
  buildSchedule p start = Ok (p <| installments := schedule p start |>).
Proof.
  intros Hc Ha Hi Hmax. unfold buildSchedule, MAX_ARRAY_LENGTH in *.
  rewrite decide_False by naive_solver. rewrite decide_False by naive_solver.
  rewrite ofMinor_Big by lia. cbn [mbind result_bind]. rewrite decide_False by lia.
  rewrite allocate_equal by (unfold money_wf; cbn; lia). cbn [mbind result_bind amount currency].
  rewrite Z2Nat.id by lia. by rewrite imap_seq.
Qed.

Lemma plan_unscheduled_log p : plan_wf p -> installments p = [] -> paymentLog p = [].
Proof.
  intros (_ & _ & _ & _ & _ & Hlog & _) Hi. destruct (paymentLog p) as [|x l]; [done|].
  apply Forall_cons in Hlog as [[_ Hx] _]. rewrite Hi in Hx. by apply not_elem_of_nil in Hx.
Qed.

Lemma buildSchedule_wf p start p' : plan_wf p -> buildSchedule p start = Ok p' -> plan_wf p'.
Proof.
  intros Hwf H. assert (plan_state p = active /\ installments p = [] /\ installmentCount p <= MAX_ARRAY_LENGTH)
    as (Ha & Hi & Hmax).
  { unfold buildSchedule in H. invert_ok. split_and!; [done|done|lia]. }
  pose proof Hwf as (Hc & Hr & Hnd & _ & _ & _ & Hst & Hcomp).
  rewrite buildSchedule_plan in H by done. invert_ok.
  pose proof (plan_unscheduled_log p Hwf Hi) as El.
  destruct (schedule_facts p start Hc) as (Hne & Hno & Hsum & Hall).
  unfold plan_wf, scheduled. cbn. rewrite El. split; [done|]. split_and!; try done.
  - eapply Forall_impl; [exact Hall|]. intros i (H1 & H2 & H3). unfold installment_wf.
    rewrite H2, H3. change (logged [] (no i)) with 0. split_and!; try lia. split; [by intros []|lia].
  - rewrite Ha. split; [done|]. intros [_ Hf]. exfalso.
    destruct (schedule p start) as [|i l]; [done|]. cbn in Hf. apply andb_true_iff in Hf as [Hf _].
    apply Forall_cons in Hall as [(? & ? & _) _]. unfold isFullyPaid in Hf. lia.
Qed.

Lemma logged_snoc log k a t k' :
  logged (log ++ [MkPlanPaymentRecord k a t]) k' = logged log k' + (if decide (k = k') then a else 0).
Proof. unfold logged. by rewrite sumZ_fmap_snoc. Qed.

(** The slot that [installmentSlot] returns is the one whose number it is. *)
Lemma installmentSlot_Ok p x k slot : plan_wf p -> installmentSlot p x = Ok (k, slot) ->
  slot ∈ installments p /\ no slot = k /\ (forall i, i ∈ installments p -> no i = k -> i = slot).
Proof.
  intros (_ & _ & _ & Hsch & _) H. unfold installmentSlot in H.
  destruct (safeInteger x) as [k'|]; [|done]. invert_ok.
  destruct (installments p !! Z.to_nat (k' - 1)) as [s|] eqn:Hs; [|done]. invert_ok.
  destruct Hsch as [Hno _]. { intros E. unfold scheduled in *. by rewrite E in Hs. }
  assert (forall j i, installments p !! j = Some i -> no i = Z.of_nat j + 1) as Hidx.
  { intros j i Hj. assert ((no <$> installments p) !! j = Some (no i)) as Hl
      by (by rewrite list_lookup_fmap, Hj).
    rewrite Hno in Hl. apply lookup_seqZ in Hl as [-> _]. lia. }
  split; [by eapply list_elem_of_lookup_2|]. split; [rewrite (Hidx _ _ Hs); lia|].
  intros i Hi Hk. apply list_elem_of_lookup in Hi as [j Hj]. pose proof (Hidx _ _ Hj).
  assert (j = Z.to_nat (k - 1)) as -> by lia. congruence.
Qed.

Lemma recordPlanPayment_wf p x amt clock p' es : plan_wf p ->
  recordPlanPayment p x amt clock = Ok (p', es) -> plan_wf p'.
Proof.
  intros Hwf H. unfold recordPlanPayment, requireActive, requireScheduled in H. invert_ok.
  match goal with H : installmentSlot _ _ = Ok ?v |- _ => destruct v as [k slot]; rename H into Hslot end.
  invert_ok. destruct (installmentSlot_Ok _ _ _ _ Hwf Hslot) as (Hin & Hk & Huniq).
  match goal with H : isPositive ?m <> false |- _ => apply isPositive_true in H; rename m into money end.
  destruct Hwf as (Hc & Hr & Hnd & Hsch & Hi & Hlog & Hst & Hcomp).
  assert (scheduled p) as Hne.
  { intros Ei. rewrite Ei in Hin. by apply not_elem_of_nil in Hin. }
  destruct (Hsch Hne) as [Hno Hsum]. pose proof (proj1 (Forall_forall _ _) Hi slot Hin) as Hws.
  unfold installment_wf in Hws. destruct Hws as (Ha1 & Ha2 & Ha3 & Ha4).
  set (now := clock 0%nat). set (new := MkPlanInstallment _ _ _ _ _).
  set (f := fun i => if decide (no i = k) then new else i).
  assert (forall i, i ∈ installments p -> no (f i) = no i /\ amountMinor (f i) = amountMinor i) as Hf.
  { intros i Hii. unfold f. case_decide as Ek; [|done]. by rewrite (Huniq i Hii Ek). }
  assert (no <$> (f <$> installments p) = no <$> installments p) as Eno.
  { rewrite <- list_fmap_compose. apply list_fmap_ext. intros j i Hj%list_elem_of_lookup_2. by apply Hf. }
  assert (amountMinor <$> (f <$> installments p) = amountMinor <$> installments p) as Eam.
  { rewrite <- list_fmap_compose. apply list_fmap_ext. intros j i Hj%list_elem_of_lookup_2. by apply Hf. }
  unfold plan_wf, scheduled. cbn [installments paymentLog plan_state completedAt receivableIds
    installmentCount totalMinor upd eta PaymentPlan_eta].
  rewrite Eno, Eam. split; [done|]. split; [done|]. split; [done|]. split; [done|]. split; [|split].
  - apply Forall_fmap, Forall_forall. intros i Hii. cbn. unfold f, installment_wf. rewrite logged_snoc.
    rewrite Forall_forall in Hi. specialize (Hi i Hii). unfold installment_wf in Hi.
    case_decide as Ek.
    + unfold new. cbn. rewrite (decide_True (P := k = no slot)) by done. split; [done|]. split; [lia|].
      split; [|lia]. case_decide; [by split|]. rewrite Ha3. lia.
    + rewrite decide_False by congruence. rewrite Z.add_0_r. done.
  - apply Forall_app. split; [done|]. repeat constructor; cbn; [done|].
    rewrite <- Hk. by apply list_elem_of_fmap_2.
  - destruct (forallb isFullyPaid (f <$> installments p)) eqn:Ef.
    + split; [|done]. split; [|done]. intros _. split; [|done]. by intros ?%fmap_nil_inv.
    + match goal with H : plan_state p = active |- _ => rewrite H in * end.
      split; [split; [done|]; by intros [_ ?]|]. done.
Qed.

Lemma run_plan_op_wf p op p' : plan_wf p -> run_plan_op p op = Ok p' -> plan_wf p'.
Proof.
  intros Hwf H. destruct op as [start|x amt clock|days clock|reason clock]; cbn in H; invert_ok.
  - by eapply buildSchedule_wf.
  - destruct v as [q es]. by eapply recordPlanPayment_wf.
  - unfold markPlanDefaulted, requireActive, requireScheduled in E. invert_ok.
    destruct (safeInteger days); [|done]. invert_ok.
    destruct (List.find _ _) as [trigger|] eqn:Hf; [|done]. invert_ok.
    apply List.find_some in Hf as [Hin _]. apply filter_In in Hin as [Hin Hu].
    destruct Hwf as (Hc & Hr & Hnd & Hs & Hi & Hlog & Hst & Hcomp).
    unfold plan_wf, scheduled in *. cbn. split; [done|]. split_and!; try done; split; try done.
    + intros [_ Hall]. rewrite forallb_forall in Hall. by rewrite (Hall _ Hin) in Hu.
    + intros Hd%Hcomp. congruence.
  - unfold cancelPaymentPlan, requireActive in E. invert_ok.
    destruct Hwf as (Hc & Hr & Hnd & Hs & Hi & Hlog & Hst & Hcomp).
    unfold plan_wf, scheduled in *. cbn. split; [done|]. split_and!; try done; split; try done.
    + intros Hall%Hst. congruence.
    + intros Hd%Hcomp. congruence.
Qed.

Lemma plan_reachable_inv p : plan_reachable p -> plan_wf p.
Proof.
  induction 1 as [args clock p H|p op p' _ IH H].
  - by eapply createPaymentPlan_wf.
  - by eapply run_plan_op_wf.
Qed.

(** The log and the installments tell the same story. *)
Lemma sum_logged ks log : NoDup ks -> Forall (fun r => rec_installmentNo r ∈ ks) log ->
  sumZ (logged log <$> ks) = sumZ (rec_amountMinor <$> log).
Proof.
  intros Hnd. induction log as [|r log IH]; intros Hall.
  - rewrite (const_fmap _ ks 0) by done. by rewrite sumZ_replicate, Z.mul_0_r.
  - apply Forall_cons in Hall as [Hr Hall]. rewrite fmap_cons, sumZ_cons, <- IH by done.
    clear IH Hall. unfold logged. induction Hnd as [|k ks Hk Hnd IH]; [by apply not_elem_of_nil in Hr|].
    rewrite !fmap_cons, !sumZ_cons. apply elem_of_cons in Hr as [Hr|Hr].
    + rewrite Hr, decide_True by done.
      rewrite (list_fmap_ext _ (logged log) ks); [unfold logged; lia|].
      intros j k' Hj. rewrite fmap_cons, sumZ_cons, decide_False; [unfold logged; lia|].
      intros <-. apply Hk. rewrite <- Hr. by eapply list_elem_of_lookup_2.
    + specialize (IH Hr). rewrite decide_False by (intros <-; done). lia.
Qed.

(** a plan's books always balance.  In every plan the operations can
    produce, once scheduled the installments are numbered 1..n, sum to the
    total, and each has 0 <= paid <= amount with paid equal to what the
    append-only log holds for it; the log sums to the paid amounts and never
    exceeds the total; and the plan is completed exactly when the log sums to the
    total. *)
Theorem plan_books_balance (p : PaymentPlan) :
  plan_reachable p -> scheduled p ->
  no <$> installments p = seqZ 1 (installmentCount p) /\
  sumZ (amountMinor <$> installments p) = totalMinor p /\
  Forall (fun i => 0 <= paidMinor i <= amountMinor i /\ paidMinor i = logged (paymentLog p) (no i))
    (installments p) /\
  sumZ (rec_amountMinor <$> paymentLog p) = sumZ (paidMinor <$> installments p) /\
  sumZ (rec_amountMinor <$> paymentLog p) <= totalMinor p /\
  (plan_state p = completed <-> sumZ (rec_amountMinor <$> paymentLog p) = totalMinor p).
Proof.
  intros Hr Hs. destruct (plan_reachable_inv p Hr) as (Hc & _ & _ & Hsch & Hi & Hlog & Hst & _).
  destruct (Hsch Hs) as [Hno Hsum].
  assert (sumZ (rec_amountMinor <$> paymentLog p) = sumZ (paidMinor <$> installments p)) as Epaid.
  { rewrite <- (sum_logged (no <$> installments p)).
    - rewrite <- list_fmap_compose. f_equal. apply list_fmap_ext. intros j i Hj.
      symmetry. by eapply Forall_lookup_1 in Hi as (_ & _ & _ & ?).
    - rewrite Hno. apply NoDup_seqZ.
    - eapply Forall_impl; [exact Hlog|]. by intros ? []. }
  assert (forall l, Forall (installment_wf (paymentLog p)) l ->
    sumZ (paidMinor <$> l) <= sumZ (amountMinor <$> l) /\
    (forallb isFullyPaid l = true <-> sumZ (paidMinor <$> l) = sumZ (amountMinor <$> l))) as Hl.
  { induction 1 as [|i l (Ha & Hp & _) Hl IH]; [done|]. rewrite !fmap_cons, !sumZ_cons. cbn [forallb].
    rewrite andb_true_iff. unfold isFullyPaid at 1. rewrite Z.leb_le. destruct IH as [IH1 IH2].
    split; [lia|]. rewrite IH2. lia. }
  destruct (Hl _ Hi) as [H1 H2]. split_and!; try done; try lia.
  - eapply Forall_impl; [exact Hi|]. by intros i (_ & ? & _ & ?).
  - rewrite Hst, H2, Epaid, Hsum. naive_solver.
Qed.

Definition sample_plan : PaymentPlan :=
  MkPaymentPlan "p" "c" ["r"] KES 100 3 active [] [] (Some 0) None None None None.

Lemma sample_plan_created :
  createPaymentPlan (MkCreatePaymentPlanArgs "p" "c" ["r"] KES (Big 100) (num 3)) (fixed_clock 0) = Ok sample_plan.
Proof. vm_compute. reflexivity. Qed.

Definition sample_after (p : PaymentPlan) (op : plan_op) : PaymentPlan :=
  match run_plan_op p op with Ok p' => p' | Err _ => p end.

Lemma sample_after_reachable p op : plan_reachable p -> plan_reachable (sample_after p op).
Proof.
  intros Hp. unfold sample_after. destruct (run_plan_op p op) eqn:E; [|done]. by eapply plan_stepped.
Qed.

(** Scheduled at the epoch, 20 paid on the second installment. *)
Definition sample_paid : PaymentPlan :=
  sample_after (sample_after sample_plan (OpSchedule 0)) (OpPay (num 2) (Big 20) (fixed_clock 5)).

Lemma plan_books_balance_witness :
  sumZ (rec_amountMinor <$> paymentLog sample_paid) = 20 /\
  sumZ (amountMinor <$> installments sample_paid) = totalMinor sample_paid.
Proof.
  split; [vm_compute; reflexivity|].
  apply (plan_books_balance sample_paid).
  - apply sample_after_reachable, sample_after_reachable. exact (plan_created _ _ _ sample_plan_created).
  - vm_compute. discriminate.
Defined.

(** ** Due dates *)

#[local] Opaque civil_from_days days_from_civil.

Lemma leap_month_days y m : 1 <= m <= 12 -> 28 <= month_days y m <= 31.
Proof.
  intros Hm. unfold month_days. destruct (m =? 2); [destruct (leap y); lia|].
  destruct ((m =? 4) || (m =? 6) || (m =? 9) || (m =? 11)); lia.
Qed.

(** [Date.UTC] on a year that is not abbreviated. *)
Lemma civil_of_date y m d ms : valid_civil y m d -> 0 <= ms < DAY_MS ->
  let t := days_from_civil y m d * DAY_MS + ms in
  civil_from_days (dayOf t) = (y, m, d) /\ timeInDay t = ms /\
  getUTCFullYear t = y /\ getUTCMonth t = m - 1 /\ getUTCDate t = d.
Proof.
  intros Hv Hms t. unfold t, getUTCFullYear, getUTCMonth, getUTCDate.
  rewrite dayOf_make, timeInDay_make, civil_roundtrip by done. done.
Qed.

(** [new Date(Date.UTC(y, m, 0)).getUTCDate()] is the length of month [m]. *)
Lemma days_in_month_civil y m : 100 <= y -> 1 <= m <= 12 ->
  getUTCDate (Date_UTC y m 0 0) = month_days y m.
Proof.
  intros Hy Hm. rewrite Date_UTC_civil, month_zero_day by done.
  pose proof (leap_month_days y m Hm).
  apply (civil_of_date y m (month_days y m) 0); [|done]. split; [done|lia].
Qed.

Lemma dueDateFor_civil anchor n y0 m0 d0 y m :
  civil_from_days (dayOf anchor) = (y0, m0, d0) -> 100 <= y0 -> 0 <= n ->
  y = y0 + (m0 - 1 + n) / 12 -> m = (m0 - 1 + n) mod 12 + 1 ->
  valid_civil y m (Z.min d0 (month_days y m)) /\
  dueDateFor anchor n = days_from_civil y m (Z.min d0 (month_days y m)) * DAY_MS + timeInDay anchor.
Proof.
  intros Ec Hy Hn Ey Em. pose proof (timeInDay_range anchor) as Hms.
  pose proof (days_roundtrip (dayOf anchor)) as Hd. rewrite Ec in Hd. destruct Hd as [[Hm0 Hd0] _].
  assert (0 <= (m0 - 1 + n) / 12) by (apply Z.div_pos; lia).
  pose proof (Z.mod_pos_bound (m0 - 1 + n) 12 ltac:(lia)) as Hmb.
  assert (1 <= m <= 12) as Hm by lia. pose proof (leap_month_days y m Hm) as Hmd.
  assert (100 <= y) as Hy' by lia.
  split; [split; lia|].
  unfold dueDateFor. rewrite (Date_UTC_civil (getUTCFullYear anchor))
    by (unfold getUTCFullYear; rewrite Ec; exact Hy).
  assert (getUTCFullYear anchor + (getUTCMonth anchor + n) / 12 = y) as ->
    by (unfold getUTCFullYear, getUTCMonth; rewrite Ec; symmetry; exact Ey).
  assert ((getUTCMonth anchor + n) mod 12 + 1 = m) as ->
    by (unfold getUTCMonth; rewrite Ec; symmetry; exact Em).
  assert (getUTCDate anchor = d0) as -> by (unfold getUTCDate; rewrite Ec; reflexivity).
  destruct (civil_of_date y m 1 (timeInDay anchor)) as (E1 & E2 & E3 & E4 & _); [split; lia|done|].
  cbv zeta in E1, E2, E3, E4. rewrite E3, E4, Z.sub_add, days_in_month_civil by done.
  unfold setUTCDate. rewrite E1, E2. reflexivity.
Qed.

(** installment dates follow the calendar.  The due date of installment [n]
    is [n] months after the anchor, with year carry, on the anchor's day of the
    month or on the last day of a shorter month (31 January, 28 or 29 February,
    31 March, ...), at the anchor's time of day. *)
Theorem due_date_calendar (anchor : Date) (n : Z) :
  100 <= getUTCFullYear anchor -> 0 <= n ->
  let month := getUTCMonth anchor + n in
  let y := getUTCFullYear anchor + month / 12 in
  let m := month mod 12 + 1 in
  civil_from_days (dayOf (dueDateFor anchor n)) = (y, m, Z.min (getUTCDate anchor) (month_days y m)) /\
  timeInDay (dueDateFor anchor n) = timeInDay anchor.
Proof.
  intros Hy Hn. cbv zeta. destruct (civil_from_days (dayOf anchor)) as [[y0 m0] d0] eqn:Ec.
  assert (getUTCFullYear anchor = y0) as Ey by (unfold getUTCFullYear; by rewrite Ec).
  assert (getUTCMonth anchor = m0 - 1) as Em by (unfold getUTCMonth; by rewrite Ec).
  assert (getUTCDate anchor = d0) as Ed by (unfold getUTCDate; by rewrite Ec).
  rewrite Ey, Em, Ed in *.
  destruct (dueDateFor_civil anchor n y0 m0 d0 _ _ Ec Hy Hn eq_refl eq_refl) as [Hv ->].
  destruct (civil_of_date _ _ _ (timeInDay anchor) Hv (timeInDay_range anchor)) as (E3 & E4 & _).
  split; [exact E3|exact E4].
Qed.

#[local] Transparent civil_from_days days_from_civil.

(** 31 January 2024, 10:00 UTC. *)
Lemma due_date_calendar_witness :
  civil_from_days (dayOf (dueDateFor 1706695200000 1)) = (2024, 2, 29).
Proof.
  destruct (due_date_calendar 1706695200000 1) as [H _].
  - vm_compute. discriminate.
  - lia.
  - exact H.
Defined.

(** C40: the schedule is cent-exact.  Building the schedule of a freshly created
    plan (of at most 2^32 - 1 installments, the longest JavaScript array)
    succeeds; it has exactly [installmentCount] installments, numbered in order
    and due by the calendar, none below one minor unit; the amounts sum to the
    total, and the first [total mod count] installments carry the extra unit. *)
Theorem schedule_cent_exact (args : CreatePaymentPlanArgs) (clock : Clock) (p : PaymentPlan) (start : Date) :
  createPaymentPlan args clock = Ok p -> installmentCount p <= MAX_ARRAY_LENGTH ->
  exists p', buildSchedule p start = Ok p' /\
    Z.of_nat (length (installments p')) = installmentCount p /\
    sumZ (amountMinor <$> installments p') = totalMinor p /\
    forall i inst, installments p' !! i = Some inst ->
      no inst = Z.of_nat i + 1 /\ due inst = dueDateFor start (Z.of_nat i + 1) /\
      1 <= amountMinor inst /\ paidMinor inst = 0 /\
      amountMinor inst = totalMinor p / installmentCount p +
        (if decide (Z.of_nat i < totalMinor p mod installmentCount p) then 1 else 0).
Proof.
  intros H Hmax. destruct (createPaymentPlan_wf _ _ _ H) as ((Hc & _) & Ha & Hi).
  exists (p <| installments := schedule p start |>). split; [by apply buildSchedule_plan|].
  destruct (schedule_facts p start Hc) as (_ & Hno & Hsum & _).
  change (installments (p <| installments := schedule p start |>)) with (schedule p start).
  split; [unfold schedule; rewrite length_fmap, length_seq; lia|]. split; [done|].
  intros i inst Hl. unfold schedule in Hl. rewrite list_lookup_fmap in Hl.
  destruct (seq 0 _ !! i) as [j|] eqn:Hj; [|done]. apply lookup_seq in Hj as [-> _].
  cbn in Hl. simplify_eq. cbn. split_and!; try done. by apply schedule_amount_pos.
Qed.

Lemma schedule_cent_exact_witness :
  exists p', buildSchedule sample_plan 0 = Ok p' /\ amountMinor <$> installments p' = [34; 33; 33].
Proof.
  destruct (schedule_cent_exact (MkCreatePaymentPlanArgs "p" "c" ["r"] KES (Big 100) (num 3))
    (fixed_clock 0) sample_plan 0) as (p' & H & _).
  - exact sample_plan_created.
  - vm_compute. discriminate.
  - exists p'. split; [exact H|]. vm_compute in H. injection H as <-. reflexivity.
Defined.

(** only active plans move.  A completed, defaulted or cancelled plan
    refuses every operation with a domain error, so no payment is recorded on,
    and no verdict changed of, a plan that has ended. *)
Theorem ended_plans_are_final (p : PaymentPlan) (op : plan_op) :
  plan_state p <> active -> exists code, run_plan_op p op = Err (DomainError code).
Proof.
  intros Hs. apply refused_code.
  destruct op; cbn; unfold buildSchedule, recordPlanPayment, markPlanDefaulted, cancelPaymentPlan, requireActive;
    repeat (split_guard; try done).
Qed.

Lemma ended_plans_are_final_witness :
  exists code, run_plan_op (sample_after sample_plan (OpCancel "moved" (fixed_clock 1)))
    (OpPay (num 1) (Big 1) (fixed_clock 2)) = Err (DomainError code).
Proof. apply ended_plans_are_final. vm_compute. discriminate. Defined.

(** With a policy of zero days the clamp in [daysLateOf] lets a plan default
    before anything is due, although the operation's contract says the trigger
    must be overdue: a scheduled, unpaid plan is defaulted at its very start. *)
Theorem default_before_anything_is_due :
  let p := sample_after sample_plan (OpSchedule 0) in
  forallb (fun i => 0 <? due i) (installments p) = true /\
  length (installments p) = 3%nat /\
  plan_state (sample_after p (OpDefault (num 0) (fixed_clock 0))) = defaulted.
Proof. vm_compute. done. Qed.
