(* ===== verification/Payment.v ===== *)
(** * Payments (src/domain/payments/payment.ts, src/domain/payments/events.ts)

    The payment aggregate: a state machine over confirmed funds with two
    append-only lists of reservations.  [payment_op] and [run_payment_op] are its
    operations, [payment_wf] the invariant (the payment side of R2 and R6). *)

From stdpp Require Import prelude strings list relations.
From Stdlib Require Import ZArith Lia.
From S2P Require Import Prelude JsNumber JsString JsDate Money Events.
Local Open Scope string_scope.
Local Open Scope list_scope.
Local Open Scope Z_scope.
Local Open Scope js_scope.

Inductive PaymentChannel := c2b | stk.
#[export] Instance PaymentChannel_eq_dec : EqDecision PaymentChannel.
Proof. solve_decision. Defined.

Inductive PaymentState :=
| initiated | pending_confirmation | confirmed | partially_allocated | allocated | unapplied
| failed | reversed | partially_refunded | refunded.
#[export] Instance PaymentState_eq_dec : EqDecision PaymentState.
Proof. solve_decision. Defined.

Definition TERMINAL_STATES : list PaymentState := [failed; reversed; refunded].
Definition CONFIRMED_FAMILY : list PaymentState :=
  [confirmed; partially_allocated; allocated; unapplied; partially_refunded; refunded].

Record PaymentAllocationRow := MkPaymentAllocationRow {
  pa_id : Uuid;
  pa_paymentId : Uuid;
  pa_receivableId : Uuid;
  pa_amount : Money;
  pa_recordedAt : Date;
}.

Record PaymentRefundRow := MkPaymentRefundRow {
  pr_id : Uuid;
  pr_paymentId : Uuid;
  pr_amount : Money;
  pr_reason : string;
  pr_recordedAt : Date;
}.

Record Payment := MkPayment {
  pay_id : Uuid;
  channel : PaymentChannel;
  externalRef : string;
  idempotencyKey : string;
  pay_customerId : option Uuid;
  pay_state : PaymentState;
  pay_currency : Currency;
  requestedMinor : Money;
  declaredRefs : list string;
  confirmedMinor : option Money;
  initiatedAt : Date;
  confirmedAt : option Date;
  failedAt : option Date;
  failureCode : option string;
  reversedAt : option Date;
  reversalReason : option string;
  allocations : list PaymentAllocationRow;
  refunds : list PaymentRefundRow;
}.

#[export] Instance Payment_eta : Eta Payment := fun p =>
  MkPayment (pay_id p) (channel p) (externalRef p) (idempotencyKey p) (pay_customerId p)
    (pay_state p) (pay_currency p) (requestedMinor p) (declaredRefs p) (confirmedMinor p)
    (initiatedAt p) (confirmedAt p) (failedAt p) (failureCode p) (reversedAt p)
    (reversalReason p) (allocations p) (refunds p).

(** ** Events *)

Inductive MatchConfidence := auto_match | manual_match.

Inductive PaymentPayload :=
| PaymentInitiatedPayload (paymentId : Uuid) (channel : PaymentChannel) (requestedMinor : Z)
| PaymentConfirmedPayload (paymentId : Uuid) (confirmedMinor : Z) (externalRef : string) (confirmedAt : Date)
| PaymentFailedPayload (paymentId : Uuid) (failureCode : string)
| PaymentReversedPayload (paymentId : Uuid) (reason : string) (reversalOf : Uuid)
| DuplicateCallbackObservedPayload (paymentId : Uuid) (externalRef : string) (seenAt : Date)
| PaymentMatchedPayload (matchId paymentId : Uuid) (declaredRefs : list string) (confidence : MatchConfidence)
| MatchReversedPayload (matchId : Uuid) (reason : string).

(** The payments lane stamps [occurredAt] with the [Date] itself. *)
Notation PaymentEvent := (Envelope Date PaymentPayload).

Definition paymentInitiatedEvent (id : Uuid) (ch : PaymentChannel) (m : Money) (clock : Clock) : PaymentEvent :=
  MkEnvelope "payment.initiated" id (PaymentInitiatedPayload id ch (amount m)) (clock 0%nat).
Definition paymentConfirmedEvent (id : Uuid) (m : Money) (ref : string) (at_ : Date) (clock : Clock) : PaymentEvent :=
  MkEnvelope "payment.confirmed" id (PaymentConfirmedPayload id (amount m) ref at_) (clock 0%nat).
Definition paymentFailedEvent (id : Uuid) (code : string) (clock : Clock) : PaymentEvent :=
  MkEnvelope "payment.failed" id (PaymentFailedPayload id code) (clock 0%nat).
Definition paymentReversedEvent (id : Uuid) (reason : string) (of_ : Uuid) (clock : Clock) : PaymentEvent :=
  MkEnvelope "payment.reversed" id (PaymentReversedPayload id reason of_) (clock 0%nat).
Definition duplicateCallbackObservedEvent (id : Uuid) (ref : string) (seenAt : Date) (clock : Clock) : PaymentEvent :=
  MkEnvelope "payments.duplicateCallbackObserved" id (DuplicateCallbackObservedPayload id ref seenAt) (clock 0%nat).
Definition paymentMatchedEvent (mid pid : Uuid) (refs : list string) (c : MatchConfidence) (clock : Clock) : PaymentEvent :=
  MkEnvelope "reconciliation.paymentMatched" mid (PaymentMatchedPayload mid pid refs c) (clock 0%nat).
Definition matchReversedEvent (mid : Uuid) (reason : string) (clock : Clock) : PaymentEvent :=
  MkEnvelope "reconciliation.matchReversed" mid (MatchReversedPayload mid reason) (clock 0%nat).

(** ** Derivations and guards *)

Definition isTerminal (p : Payment) : bool := bool_decide (pay_state p ∈ TERMINAL_STATES).
Definition isConfirmedFamily (p : Payment) : bool := bool_decide (pay_state p ∈ CONFIRMED_FAMILY).

Definition committedOf (p : Payment) : result Money :=
  foldM (fun acc m => Money.add acc m) (Money.zero (pay_currency p))
    ((pa_amount <$> allocations p) ++ (pr_amount <$> refunds p)).

Definition unappliedMinorOf (p : Payment) : result Money :=
  match confirmedMinor p with
  | None => Ok (Money.zero (pay_currency p))
  | Some c =>
      committed ← committedOf p;
      cmp ← Money.compareTo committed c;
      if decide (cmp >= 0) then Ok (Money.zero (pay_currency p)) else Money.subtract c committed
  end.

Definition assertSameCurrency (p : Payment) (m : Money) : result unit :=
  refuse (currency m <> pay_currency p) with "CURRENCY_MISMATCH" ;; Ok tt.
Definition assertPositive (m : Money) : result unit :=
  refuse (amount m <= 0) with "AMOUNT_MUST_BE_POSITIVE" ;; Ok tt.
Definition assertNotTerminal (p : Payment) : result unit :=
  refuse (isTerminal p = true) with "PAYMENT_TERMINAL" ;; Ok tt.
Definition assertConfirmedMinor (p : Payment) : result Money :=
  match confirmedMinor p with None => Err (DomainError "PAYMENT_STATE_CORRUPT") | Some c => Ok c end.

(** ** Transitions *)

Notation TransitionResult := (Payment * list PaymentEvent)%type.

Definition awaitConfirmation (p : Payment) : result TransitionResult :=
  _ ← assertNotTerminal p;
  refuse (pay_state p <> initiated) with "INVALID_TRANSITION" ;;
  Ok (p <| pay_state := pending_confirmation |>, []).

Definition confirmPayment (p : Payment) (m : Money) (clock : Clock) : result TransitionResult :=
  _ ← assertSameCurrency p m;
  _ ← assertNotTerminal p;
  if decide (pay_state p = confirmed) then
    c ← assertConfirmedMinor p;
    same ← Money.equals c m;
    refuse (same = false) with "CONFIRMED_AMOUNT_MISMATCH" ;;
    Ok (p, [])
  else
  refuse (pay_state p <> pending_confirmation) with "INVALID_TRANSITION" ;;
  let at0 := clock 0%nat in
  Ok (p <| pay_state := confirmed |> <| confirmedMinor := Some m |> <| confirmedAt := Some at0 |>,
      [paymentConfirmedEvent (pay_id p) m (externalRef p) at0 (clock_after 1 clock)]).

Definition failPayment (p : Payment) (code : string) (clock : Clock) : result TransitionResult :=
  let code := trim code in
  refuse (code = "") with "FAILURE_CODE_REQUIRED" ;;
  if decide (pay_state p = failed) then Ok (p, []) else
  _ ← assertNotTerminal p;
  refuse (pay_state p <> initiated /\ pay_state p <> pending_confirmation) with "INVALID_TRANSITION" ;;
  Ok (p <| pay_state := failed |> <| failedAt := Some (clock 0%nat) |> <| failureCode := Some code |>,
      [paymentFailedEvent (pay_id p) code (clock_after 1 clock)]).

Definition reversePayment (p : Payment) (reason : string) (clock : Clock) : result TransitionResult :=
  let why := trim reason in
  refuse (why = "") with "REVERSAL_REASON_REQUIRED" ;;
  _ ← assertNotTerminal p;
  refuse (pay_state p <> confirmed) with "INVALID_TRANSITION" ;;
  Ok (p <| pay_state := reversed |> <| reversedAt := Some (clock 0%nat) |> <| reversalReason := Some why |>,
      [paymentReversedEvent (pay_id p) why (pay_id p) (clock_after 1 clock)]).

Definition identifyPayment (p : Payment) (customerId : Uuid) : result TransitionResult :=
  _ ← assertNotTerminal p;
  if decide (pay_state p = unapplied) then
    refuse (pay_customerId p <> Some customerId) with "PAYMENT_ALREADY_IDENTIFIED" ;;
    Ok (p, [])
  else
  refuse (pay_state p <> confirmed) with "INVALID_TRANSITION" ;;
  Ok (p <| pay_state := unapplied |> <| pay_customerId := Some customerId |>, []).

Record AllocationReservation := MkAllocationReservation {
  ar_receivableId : Uuid;
  ar_amount : Money;
  ar_allocationId : option Uuid;
}.

Definition id_or_seed (supplied : option Uuid) (seed : string) : result Uuid :=
  match supplied with Some id => Ok id | None => uuidFromSeed seed end.

Definition recordAllocationReservation (p : Payment) (cmd : AllocationReservation) (clock : Clock)
  : result TransitionResult :=
  _ ← assertSameCurrency p (ar_amount cmd);
  _ ← assertPositive (ar_amount cmd);
  _ ← assertNotTerminal p;
  refuse (isConfirmedFamily p = false) with "PAYMENT_NOT_CONFIRMED" ;;
  c ← assertConfirmedMinor p;
  committed ← committedOf p;
  next ← Money.add committed (ar_amount cmd);
  cmp ← Money.compareTo next c;
  refuse (cmp > 0) with "ALLOCATION_EXCEEDS_CONFIRMED" ;;
  let at0 := clock 0%nat in
  id ← id_or_seed (ar_allocationId cmd)
         ("allocation:" +:+ pay_id p +:+ ":" +:+ ar_receivableId cmd +:+ ":" +:+
          show_Z (amount (ar_amount cmd)) +:+ ":" +:+ toISOString at0);
  remaining ← Money.subtract c next;
  Ok (p <| allocations := allocations p ++
             [MkPaymentAllocationRow id (pay_id p) (ar_receivableId cmd) (ar_amount cmd) at0] |>
        <| pay_state := if isZero remaining then allocated else partially_allocated |>, []).

Record RefundReservation := MkRefundReservation {
  rr_amount : Money;
  rr_reason : string;
  rr_refundId : option Uuid;
}.

Definition recordRefundReservation (p : Payment) (cmd : RefundReservation) (clock : Clock)
  : result TransitionResult :=
  let why := trim (rr_reason cmd) in
  refuse (why = "") with "REFUND_REASON_REQUIRED" ;;
  _ ← assertSameCurrency p (rr_amount cmd);
  _ ← assertPositive (rr_amount cmd);
  _ ← assertNotTerminal p;
  refuse (isConfirmedFamily p = false) with "PAYMENT_NOT_CONFIRMED" ;;
  c ← assertConfirmedMinor p;
  committed ← committedOf p;
  next ← Money.add committed (rr_amount cmd);
  cmp ← Money.compareTo next c;
  refuse (cmp > 0) with "REFUND_EXCEEDS_AVAILABLE" ;;
  let at0 := clock 0%nat in
  id ← id_or_seed (rr_refundId cmd)
         ("refund:" +:+ pay_id p +:+ ":" +:+ show_Z (amount (rr_amount cmd)) +:+ ":" +:+ toISOString at0);
  Ok (p <| refunds := refunds p ++ [MkPaymentRefundRow id (pay_id p) (rr_amount cmd) why at0] |>, []).

(** ** The state machine *)

Inductive payment_op :=
| OpAwait
| OpConfirm (m : Money) (clock : Clock)
| OpFail (code : string) (clock : Clock)
| OpReverse (reason : string) (clock : Clock)
| OpIdentify (customerId : Uuid)
| OpReserve (cmd : AllocationReservation) (clock : Clock)
| OpRefund (cmd : RefundReservation) (clock : Clock).

Definition run_payment_op (p : Payment) (op : payment_op) : result TransitionResult :=
  match op with
  | OpAwait => awaitConfirmation p
  | OpConfirm m clock => confirmPayment p m clock
  | OpFail code clock => failPayment p code clock
  | OpReverse reason clock => reversePayment p reason clock
  | OpIdentify customerId => identifyPayment p customerId
  | OpReserve cmd clock => recordAllocationReservation p cmd clock
  | OpRefund cmd clock => recordRefundReservation p cmd clock
  end.

Definition payment_step (p p' : Payment) : Prop :=
  exists op es, run_payment_op p op = Ok (p', es) /\
    match op with OpConfirm m _ => money_wf m | _ => True end.

(** Amounts of every row committed against the payment. *)
Definition row_amounts (p : Payment) : list Money :=
  (pa_amount <$> allocations p) ++ (pr_amount <$> refunds p).
Definition committed (p : Payment) : Z := sumZ (amount <$> row_amounts p).

Definition payment_wf (p : Payment) : Prop :=
  Forall (fun m => currency m = pay_currency p /\ 0 < amount m) (row_amounts p) /\
  match confirmedMinor p with
  | None => (pay_state p = initiated \/ pay_state p = pending_confirmation \/ pay_state p = failed) /\
            row_amounts p = []
  | Some c =>
      currency c = pay_currency p /\ committed p <= amount c /\
      match pay_state p with
      | confirmed | unapplied | reversed => allocations p = []
      | partially_allocated => allocations p <> []
      | allocated => committed p = amount c
      | _ => False
      end
  end.

(** ** Lemmas *)

(** Summing amounts of one currency never fails. *)
Lemma foldM_add (c : Currency) (l : list Money) (acc : Money) :
  currency acc = c -> Forall (fun m => currency m = c) l ->
  foldM Money.add acc l = Ok (MkMoney (amount acc + sumZ (amount <$> l)) c).
Proof.
  intros Hc Hl. revert acc Hc. induction Hl as [|m l Hm Hl IH]; intros acc Hc; cbn [foldM].
  - change (sumZ (amount <$> [])) with 0. rewrite Z.add_0_r, <- Hc. by destruct acc.
  - assert (Money.add acc m = Ok (MkMoney (amount acc + amount m) c)) as ->.
    { apply add_Ok. split; [congruence|]. by rewrite Hc. }
    cbn [mbind result_bind]. rewrite IH by done. rewrite fmap_cons, sumZ_cons. cbn. do 2 f_equal. lia.
Qed.

Lemma committedOf_wf p : payment_wf p -> committedOf p = Ok (MkMoney (committed p) (pay_currency p)).
Proof.
  intros [Hr _]. unfold committedOf. rewrite (foldM_add (pay_currency p)); [done|done|].
  eapply Forall_impl; [exact Hr|]. by intros m [].
Qed.

Lemma committed_nonneg p : payment_wf p -> 0 <= committed p.
Proof.
  intros [Hr _]. apply sumZ_nonneg, Forall_fmap. eapply Forall_impl; [exact Hr|]. cbn. lia.
Qed.

(** The ceiling check of both reservations, inverted. *)
Lemma reservation_ceiling p m c committed' next cmp :
  payment_wf p -> assertSameCurrency p m = Ok tt -> assertPositive m = Ok tt ->
  assertConfirmedMinor p = Ok c -> committedOf p = Ok committed' ->
  Money.add committed' m = Ok next -> Money.compareTo next c = Ok cmp -> ~ cmp > 0 ->
  confirmedMinor p = Some c /\ currency m = pay_currency p /\ 0 < amount m /\
  amount next = committed p + amount m /\ currency next = pay_currency p /\
  committed p + amount m <= amount c.
Proof.
  intros Hwf H1 H2 H3 H4 H5 H6 H7. rewrite committedOf_wf in H4 by done. invert_ok.
  unfold assertSameCurrency, assertPositive, assertConfirmedMinor in *. invert_ok.
  destruct (confirmedMinor p) as [c'|]; [|done]. invert_ok.
  apply add_Ok in H5 as [Hc ->]. apply compareTo_Ok in H6 as [Hc' Hcmp]. cbn in *.
  split_and!; try done; lia.
Qed.

Lemma assertNotTerminal_Ok p u : assertNotTerminal p = Ok u ->
  pay_state p <> failed /\ pay_state p <> reversed /\ pay_state p <> refunded.
Proof.
  unfold assertNotTerminal, isTerminal. intros H. invert_ok.
  apply not_true_is_false, bool_decide_eq_false in N. unfold TERMINAL_STATES in N.
  rewrite !not_elem_of_cons in N. naive_solver.
Qed.

Lemma committed_alloc_snoc p p' row :
  allocations p' = allocations p ++ [row] -> refunds p' = refunds p ->
  committed p' = committed p + amount (pa_amount row).
Proof.
  intros Ea Er. unfold committed, row_amounts. rewrite Ea, Er, !fmap_app, !sumZ_app.
  change (sumZ (amount <$> (pa_amount <$> [row]))) with (amount (pa_amount row) + 0). lia.
Qed.

Lemma committed_refund_snoc p p' row :
  allocations p' = allocations p -> refunds p' = refunds p ++ [row] ->
  committed p' = committed p + amount (pr_amount row).
Proof.
  intros Ea Er. unfold committed, row_amounts. rewrite Ea, Er, !fmap_app, !sumZ_app.
  change (sumZ (amount <$> (pr_amount <$> [row]))) with (amount (pr_amount row) + 0). lia.
Qed.

Lemma reserve_wf p cmd clock p' es : payment_wf p ->
  recordAllocationReservation p cmd clock = Ok (p', es) -> payment_wf p'.
Proof.
  intros Hwf H. unfold recordAllocationReservation in H. invert_ok.
  repeat match goal with u : unit |- _ => destruct u end.
  edestruct reservation_ceiling as (Ec & Hm & Hp & En & Ecn & Hle); [exact Hwf|eassumption..|].
  destruct Hwf as [Hr Hs]. rewrite Ec in Hs. destruct Hs as (Hcc & _ & _).
  match goal with H : subtract _ _ = Ok _ |- _ => apply subtract_Ok in H as (_ & Hsub & ->) end.
  unfold payment_wf. erewrite (committed_alloc_snoc p) by reflexivity. split.
  - unfold row_amounts in *. cbn. rewrite fmap_app, <- app_assoc. apply Forall_app in Hr as [Hr1 Hr2].
    apply Forall_app. split; [done|]. apply Forall_app. split; [by repeat constructor|done].
  - cbn. rewrite Ec. split; [done|]. split; [done|]. unfold isZero. cbn [amount]. rewrite En.
    match goal with |- context [?x =? 0] => destruct (Z.eqb_spec x 0) end; [cbn; lia|].
    by intros [_ ?]%app_eq_nil.
Qed.

Lemma refund_wf p cmd clock p' es : payment_wf p ->
  recordRefundReservation p cmd clock = Ok (p', es) -> payment_wf p'.
Proof.
  intros Hwf H. unfold recordRefundReservation in H. invert_ok.
  repeat match goal with u : unit |- _ => destruct u end.
  edestruct reservation_ceiling as (Ec & Hm & Hp & En & Ecn & Hle); [exact Hwf|eassumption..|].
  destruct Hwf as [Hr Hs]. rewrite Ec in Hs. destruct Hs as (Hcc & Hcm & Hst).
  unfold payment_wf. erewrite (committed_refund_snoc p) by reflexivity. split.
  - unfold row_amounts in *. cbn. rewrite fmap_app, app_assoc. apply Forall_app.
    split; [done|]. by repeat constructor.
  - cbn. rewrite Ec. split; [done|]. split; [done|]. destruct (pay_state p); try done. lia.
Qed.

(** A freshly taken-in payment. *)
Definition payment_fresh (p : Payment) : Prop :=
  pay_state p = initiated /\ confirmedMinor p = None /\ allocations p = [] /\ refunds p = [].

Lemma payment_fresh_wf p : payment_fresh p -> payment_wf p.
Proof.
  intros (Hs & Hc & Ha & Hr). unfold payment_wf, row_amounts. rewrite Hc, Ha, Hr.
  split; [constructor|]. split; [by left|done].
Qed.

Lemma payment_step_wf p p' : payment_wf p -> payment_step p p' -> payment_wf p'.
Proof.
  intros Hwf (op & es & H & Hm). pose proof Hwf as [Hr Hs]. destruct op; cbn in H.
  - unfold awaitConfirmation in H. invert_ok. unfold payment_wf, committed, row_amounts in *. cbn.
    split; [done|]. destruct (confirmedMinor p); [|naive_solver]. rewrite N in Hs. naive_solver.
  - unfold confirmPayment in H. invert_ok. destruct (decide (pay_state p = confirmed)); [by invert_ok|].
    unfold assertSameCurrency in *. invert_ok. unfold payment_wf, committed, row_amounts in *. cbn.
    split; [done|]. rewrite N in Hs. destruct (confirmedMinor p); [naive_solver|].
    destruct Hs as [_ Hnil]. split; [done|]. rewrite Hnil. split; [exact Hm|].
    by apply app_eq_nil in Hnil as [?%fmap_nil_inv _].
  - unfold failPayment in H. invert_ok. destruct (decide (pay_state p = failed)); [by invert_ok|].
    invert_ok. unfold payment_wf, committed, row_amounts in *. cbn.
    split; [done|]. destruct (confirmedMinor p); [|naive_solver].
    destruct (pay_state p); naive_solver.
  - unfold reversePayment in H. invert_ok. unfold payment_wf, committed, row_amounts in *. cbn.
    split; [done|]. rewrite N0 in Hs. destruct (confirmedMinor p); naive_solver.
  - unfold identifyPayment in H. invert_ok. destruct (decide (pay_state p = unapplied)); [by invert_ok|].
    invert_ok. unfold payment_wf, committed, row_amounts in *. cbn.
    split; [done|]. rewrite N in Hs. destruct (confirmedMinor p); naive_solver.
  - by eapply reserve_wf.
  - by eapply refund_wf.
Qed.

Lemma payment_steps_wf p p' : payment_wf p -> rtc payment_step p p' -> payment_wf p'.
Proof. intros Hwf H. induction H; [done|]. by eauto using payment_step_wf. Qed.

(** The unapplied balance is the exact remainder: the clamp never acts. *)
Lemma unappliedMinorOf_wf p c : payment_wf p -> confirmedMinor p = Some c ->
  unappliedMinorOf p = Ok (MkMoney (amount c - committed p) (pay_currency p)).
Proof.
  intros Hwf Ec. unfold unappliedMinorOf. rewrite Ec, committedOf_wf by done. cbn [mbind result_bind].
  destruct Hwf as [_ Hs]. rewrite Ec in Hs. destruct Hs as (Hc & Hle & _).
  rewrite compareTo_same by done. cbn [mbind result_bind amount].
  destruct (decide (committed p = amount c)) as [E|E].
  - rewrite decide_True by lia. unfold zero. do 2 f_equal. lia.
  - destruct (decide (committed p > amount c)); [lia|]. rewrite decide_False by lia. apply subtract_Ok. cbn.
    rewrite Hc. split_and!; try done; lia.
Qed.

(** C3: the payment side of R2 and R6.  Starting from a freshly taken-in payment,
    no sequence of confirmations, failures, parkings, allocation and refund
    reservations commits more than was confirmed: every row is positive and in
    the payment's currency, rows exist only against confirmed money, and the
    unapplied balance is exactly confirmed minus the sum of all rows, never
    negative. *)
Theorem payment_funds_never_overdrawn (p p' : Payment) :
  payment_fresh p -> rtc payment_step p p' ->
  Forall (fun m => currency m = pay_currency p' /\ 0 < amount m) (row_amounts p') /\
  match confirmedMinor p' with
  | None => row_amounts p' = [] /\ unappliedMinorOf p' = Ok (Money.zero (pay_currency p'))
  | Some c => committed p' <= amount c /\
      unappliedMinorOf p' = Ok (MkMoney (amount c - committed p') (pay_currency p'))
  end.
Proof.
  intros Hf H. pose proof (payment_steps_wf p p' (payment_fresh_wf p Hf) H) as Hwf.
  pose proof Hwf as [Hr Hs]. split; [done|]. destruct (confirmedMinor p') as [c|] eqn:Ec.
  - destruct Hs as (_ & Hle & _). split; [done|]. by apply unappliedMinorOf_wf.
  - destruct Hs as [_ Hn]. split; [done|]. unfold unappliedMinorOf. by rewrite Ec.
Qed.

Definition sample_payment : Payment :=
  MkPayment "p" stk "QK1" "key-1" None initiated KES (MkMoney 1000 KES) [] None 0 None None None None None [] [].

(** Awaited, confirmed for 10.00 KES, 6.00 KES of it allocated. *)
Definition sample_allocated : Payment :=
  sample_payment
    <| pay_state := partially_allocated |> <| confirmedMinor := Some (MkMoney 1000 KES) |>
    <| confirmedAt := Some 5 |>
    <| allocations := [MkPaymentAllocationRow "a" "p" "r" (MkMoney 600 KES) 9] |>.

Lemma sample_allocated_steps : rtc payment_step sample_payment sample_allocated.
Proof.
  eapply rtc_l; [exists OpAwait; eexists; split; [vm_compute; reflexivity|done]|].
  eapply rtc_l; [exists (OpConfirm (MkMoney 1000 KES) (fixed_clock 5)); eexists;
                 split; [vm_compute; reflexivity|by vm_compute]|].
  eapply rtc_l; [exists (OpReserve (MkAllocationReservation "r" (MkMoney 600 KES) (Some "a")) (fixed_clock 9));
                 eexists; split; [vm_compute; reflexivity|done]|].
  apply rtc_refl.
Qed.

Lemma payment_funds_never_overdrawn_witness :
  committed sample_allocated = 600 /\ unappliedMinorOf sample_allocated = Ok (MkMoney 400 KES).
Proof.
  split; [reflexivity|].
  destruct (payment_funds_never_overdrawn sample_payment sample_allocated) as [_ H].
  - by vm_compute.
  - exact sample_allocated_steps.
  - apply H.
Defined.

(** What no later operation may rewrite. *)
Definition history_kept (p p' : Payment) : Prop :=
  allocations p `prefix_of` allocations p' /\ refunds p `prefix_of` refunds p' /\
  (is_Some (confirmedMinor p) -> confirmedMinor p' = confirmedMinor p /\ confirmedAt p' = confirmedAt p) /\
  pay_id p' = pay_id p /\ channel p' = channel p /\ externalRef p' = externalRef p /\
  idempotencyKey p' = idempotencyKey p /\ requestedMinor p' = requestedMinor p /\
  pay_currency p' = pay_currency p.

Lemma history_kept_refl p : history_kept p p.
Proof. by split_and!. Qed.

Lemma history_kept_trans p q r : history_kept p q -> history_kept q r -> history_kept p r.
Proof.
  intros (A1 & A2 & A3 & A4 & A5 & A6 & A7 & A8 & A9) (B1 & B2 & B3 & B4 & B5 & B6 & B7 & B8 & B9).
  split; [by etrans|]. split; [by etrans|]. split; [|split_and!; congruence].
  intros Hs. destruct (A3 Hs) as [E1 E2]. rewrite <- E1 in Hs. destruct (B3 Hs) as [E3 E4].
  split; congruence.
Qed.

Lemma run_payment_op_history p op p' es : payment_wf p -> run_payment_op p op = Ok (p', es) -> history_kept p p'.
Proof.
  intros [_ Hs] H. unfold history_kept.
  destruct op; cbn in H; unfold awaitConfirmation, confirmPayment, failPayment, reversePayment,
    identifyPayment, recordAllocationReservation, recordRefundReservation in H;
    invert_ok; repeat (case_decide; invert_ok); cbn; split_and!; try done;
    try (by eexists); try (by apply prefix_app_r).
  intros [c Hc]. rewrite Hc in Hs. rewrite N in Hs. naive_solver.
Qed.

(** history is append-only (R3) and terminal states absorb.  Along any
    sequence of operations the recorded allocation and refund rows keep their
    order and content and only grow at the end, the confirmed amount and its
    date never change once set, and the identity of the payment is fixed; and
    from a failed, reversed or refunded payment every step leaves the payment as
    it is. *)
Theorem payment_history_append_only (p p' : Payment) :
  payment_wf p -> rtc payment_step p p' ->
  history_kept p p' /\ (isTerminal p = true -> p' = p).
Proof.
  intros Hwf H. induction H as [p|p q r Hpq Hqr IH].
  { split; [apply history_kept_refl|done]. }
  destruct (IH (payment_step_wf p q Hwf Hpq)) as [IH1 IH2].
  destruct Hpq as (op & es & Hop & Hm). split.
  - eapply history_kept_trans; [by eapply run_payment_op_history|done].
  - intros Ht. assert (q = p) as ->; [|by apply IH2].
    assert (assertNotTerminal p = Err (DomainError "PAYMENT_TERMINAL")) as Et.
    { unfold assertNotTerminal. by rewrite decide_True. }
    destruct op; cbn in Hop; unfold awaitConfirmation, confirmPayment, failPayment, reversePayment,
      identifyPayment, recordAllocationReservation, recordRefundReservation in Hop;
      rewrite ?Et in Hop; invert_ok; repeat (case_decide; invert_ok); done.
Qed.

Lemma payment_history_append_only_witness :
  exists p', payment_step sample_allocated p' /\ allocations sample_allocated `prefix_of` allocations p'.
Proof.
  assert (payment_step sample_allocated (sample_allocated
    <| refunds := [MkPaymentRefundRow "f" "p" (MkMoney 400 KES) "overpaid" 12] |>)) as Hstep.
  { exists (OpRefund (MkRefundReservation (MkMoney 400 KES) "overpaid" (Some "f")) (fixed_clock 12)).
    eexists. split; [vm_compute; reflexivity|done]. }
  eexists. split; [exact Hstep|].
  apply (payment_history_append_only sample_allocated).
  - exact (payment_steps_wf _ _ (payment_fresh_wf sample_payment ltac:(by vm_compute)) sample_allocated_steps).
  - by apply rtc_once.
Defined.

(** A replayed success callback is a no-op only while the payment is still in
    the state [confirmed]: once part of the money is allocated or parked, the
    same callback with the same amount is refused. *)
Theorem confirm_replay_refused_after_use (p : Payment) (m : Money) (clock : Clock) :
  pay_state p = partially_allocated \/ pay_state p = allocated \/ pay_state p = unapplied ->
  currency m = pay_currency p ->
  confirmPayment p m clock = Err (DomainError "INVALID_TRANSITION").
Proof.
  intros Hs Hc. unfold confirmPayment.
  assert (assertSameCurrency p m = Ok tt) as ->.
  { unfold assertSameCurrency. by rewrite decide_False by (intros Hn; by apply Hn). }
  assert (assertNotTerminal p = Ok tt) as ->.
  { unfold assertNotTerminal, isTerminal. by destruct Hs as [E|[E|E]]; rewrite E. }
  cbn [mbind result_bind]. destruct Hs as [E|[E|E]]; rewrite E; by rewrite decide_False, decide_True.
Qed.
