(* ===== verification/Intake.v ===== *)
(** * Payment intake (src/domain/payments/intake.ts)

    One creation funnel for both channels.  [intakePayment] decides whether a
    callback is new; [store_step] is the store a process keeps around it -- new
    payments are appended, later operations update a stored payment in place --
    and [unique_store] is the uniqueness the funnel promises (R9). *)

From stdpp Require Import prelude strings list relations.
From Stdlib Require Import ZArith Lia.
From S2P Require Import Prelude JsNumber JsString JsDate Money Events Payment.
Local Open Scope string_scope.
Local Open Scope list_scope.
Local Open Scope Z_scope.
Local Open Scope js_scope.

(** [channel] is checked at run time, so it is the raw string. *)
Record IntakeCommand := MkIntakeCommand {
  cmd_channel : string;
  cmd_externalRef : string;
  cmd_idempotencyKey : string;
  cmd_amount : Money;
  cmd_customerId : option Uuid;
  cmd_declaredRefs : list string;
  cmd_paymentId : option Uuid;
}.

Record IntakeResult := MkIntakeResult {
  ir_payment : Payment;
  duplicate : bool;
  ir_events : list PaymentEvent;
}.

Definition channel_of_string (s : string) : option PaymentChannel :=
  if decide (s = "c2b") then Some c2b else if decide (s = "stk") then Some stk else None.

(** The loop of [normalizeDeclaredRefs], with the code it throws on a blank ref
    (the same helper appears in reconciliation.ts with its own code). *)
Definition pushRef (blank_code : string) (out : list string) (raw : string) : result (list string) :=
  let ref := trim raw in
  if decide (ref = "") then Err (DomainError blank_code)
  else Ok (if decide (ref ∈ out) then out else out ++ [ref]).

Definition collectRefs (blank_code : string) (refs : list string) : result (list string) :=
  foldM (pushRef blank_code) [] refs.

Definition normalizeDeclaredRefs (refs : list string) : result (list string) :=
  collectRefs "INTAKE_DECLARED_REF_BLANK" refs.

(** [p] is the same logical payment as the command. *)
Definition same_payment (ch : PaymentChannel) (ref key : string) (p : Payment) : bool :=
  bool_decide ((channel p = ch /\ externalRef p = ref) \/ idempotencyKey p = key).

Definition intakePayment (cmd : IntakeCommand) (existing : list Payment) (clock : Clock)
  : result IntakeResult :=
  match channel_of_string (cmd_channel cmd) with
  | None => Err (DomainError "INTAKE_CHANNEL_INVALID")
  | Some ch =>
  let ref := trim (cmd_externalRef cmd) in
  refuse (ref = "") with "INTAKE_EXTERNAL_REF_REQUIRED" ;;
  let key := trim (cmd_idempotencyKey cmd) in
  refuse (key = "") with "INTAKE_IDEMPOTENCY_KEY_REQUIRED" ;;
  refuse (amount (cmd_amount cmd) <= 0) with "AMOUNT_MUST_BE_POSITIVE" ;;
  declared ← normalizeDeclaredRefs (cmd_declaredRefs cmd);
  match List.find (same_payment ch ref key) existing with
  | Some prior =>
      refuse (pay_currency prior <> currency (cmd_amount cmd)) with "CURRENCY_MISMATCH" ;;
      same ← Money.equals (requestedMinor prior) (cmd_amount cmd);
      refuse (same = false) with "DUPLICATE_AMOUNT_MISMATCH" ;;
      Ok (MkIntakeResult prior true
            [duplicateCallbackObservedEvent (pay_id prior) (externalRef prior) (clock 0%nat)
               (clock_after 1 clock)])
  | None =>
      id ← id_or_seed (cmd_paymentId cmd) ("payment:" +:+ cmd_channel cmd +:+ ":" +:+ key);
      let payment := MkPayment id ch ref key (cmd_customerId cmd) initiated
        (currency (cmd_amount cmd)) (cmd_amount cmd) declared None (clock 0%nat) None None None
        None None [] [] in
      Ok (MkIntakeResult payment false
            [paymentInitiatedEvent id ch (cmd_amount cmd) (clock_after 1 clock)])
  end
  end.

(** ** The store around the funnel *)

Inductive store_step : list Payment -> list Payment -> Prop :=
| store_intake store cmd clock r :
    intakePayment cmd store clock = Ok r ->
    store_step store (if duplicate r then store else store ++ [ir_payment r])
| store_update store i p p' :
    store !! i = Some p -> payment_step p p' -> store_step store (<[i := p']> store).

(** No two payments share a (channel, reference) pair or an idempotency key. *)
Definition unique_store (store : list Payment) : Prop :=
  forall i j p q, store !! i = Some p -> store !! j = Some q ->
    (channel p = channel q /\ externalRef p = externalRef q) \/ idempotencyKey p = idempotencyKey q ->
    i = j.

(** ** Lemmas *)

Lemma collectRefs_spec code refs out : collectRefs code refs = Ok out ->
  NoDup out /\ Forall (fun r => r <> "") out /\ (forall r, r ∈ out <-> exists raw, raw ∈ refs /\ r = trim raw).
Proof.
  unfold collectRefs.
  assert (forall acc refs out, NoDup acc -> Forall (fun r => r <> "") acc -> foldM (pushRef code) acc refs = Ok out ->
    NoDup out /\ Forall (fun r => r <> "") out /\
    (forall r, r ∈ out <-> r ∈ acc \/ exists raw, raw ∈ refs /\ r = trim raw)) as Hgen.
  { clear refs out. intros acc refs. revert acc.
    induction refs as [|raw refs IH]; intros acc out Hnd Hne H; cbn in H.
    - invert_ok. split_and!; try done. intros r. split; [by left|].
      intros [?|(? & Hx & _)]; [done|by apply not_elem_of_nil in Hx].
    - apply bind_Ok in H as (acc' & Hp & H). unfold pushRef in Hp. invert_ok. apply IH in H.
      + destruct H as (H1 & H2 & H3). split_and!; try done. intros r. rewrite H3.
        setoid_rewrite elem_of_cons. destruct (decide (trim raw ∈ acc)); [naive_solver|].
        rewrite elem_of_app, list_elem_of_singleton. naive_solver.
      + case_decide; [done|]. apply NoDup_app. split; [done|]. split; [|apply NoDup_singleton].
        intros x Hx ->%list_elem_of_singleton. done.
      + case_decide; [done|]. apply Forall_app. by split; [|repeat constructor]. }
  intros H. apply Hgen in H as (H1 & H2 & H3); [|constructor..]. split_and!; try done.
  intros r. rewrite H3. split; [|by right]. intros [Hx|?]; [by apply not_elem_of_nil in Hx|done].
Qed.

Lemma intake_new cmd store clock r : intakePayment cmd store clock = Ok r -> duplicate r = false ->
  payment_fresh (ir_payment r) /\
  (forall p, p ∈ store -> ~ ((channel p = channel (ir_payment r) /\ externalRef p = externalRef (ir_payment r)) \/
                            idempotencyKey p = idempotencyKey (ir_payment r))).
Proof.
  unfold intakePayment. intros H Hd. destruct (channel_of_string _) as [ch|]; [|done]. invert_ok.
  match goal with H : context [List.find ?P ?l] |- _ => destruct (List.find P l) eqn:Hf end.
  { invert_ok. done. }
  invert_ok. cbn. split; [done|]. intros p Hp Hsame.
  apply List.find_none with (x := p) in Hf; [|by apply list_elem_of_In].
  unfold same_payment in Hf. by apply bool_decide_eq_false in Hf.
Qed.

Lemma intake_duplicate cmd store clock r : intakePayment cmd store clock = Ok r -> duplicate r = true ->
  ir_payment r ∈ store.
Proof.
  unfold intakePayment. intros H Hd. destruct (channel_of_string _) as [ch|]; [|done]. invert_ok.
  match goal with H : context [List.find ?P ?l] |- _ => destruct (List.find P l) eqn:Hf end; invert_ok; [|done].
  apply List.find_some in Hf as [Hin _]. by apply list_elem_of_In.
Qed.

(** Every stored payment keeps its invariant, and the keys stay unique. *)
Definition store_wf (store : list Payment) : Prop := unique_store store /\ Forall payment_wf store.

Lemma store_step_wf s s' : store_wf s -> store_step s s' -> store_wf s'.
Proof.
  intros [Hu Hw] H. destruct H as [store cmd clock r H|store i p p' Hi Hs].
  - destruct (duplicate r) eqn:Hd; [done|]. destruct (intake_new _ _ _ _ H Hd) as [Hf Hnew]. split.
    + intros i j x y Hx Hy Hsame. apply lookup_app_Some in Hx, Hy.
      destruct Hx as [Hx|[Hix Hx]], Hy as [Hy|[Hiy Hy]].
      * by eapply Hu.
      * apply list_lookup_singleton_Some in Hy as [_ <-]. exfalso.
        eapply Hnew; [by eapply list_elem_of_lookup_2|done].
      * apply list_lookup_singleton_Some in Hx as [_ <-]. exfalso.
        eapply (Hnew y); [by eapply list_elem_of_lookup_2|]. naive_solver.
      * apply list_lookup_singleton_Some in Hx as [? _], Hy as [? _]. lia.
    + apply Forall_app. split; [done|]. apply Forall_singleton. by apply payment_fresh_wf.
  - assert (payment_wf p) as Hp by (by eapply Forall_lookup_1 in Hw).
    destruct Hs as (op & es & Hop & Hm). pose proof (run_payment_op_history _ _ _ _ Hp Hop) as Hk.
    destruct Hk as (_ & _ & _ & _ & Ech & Eref & Ekey & _).
    assert (forall j x, <[i := p']> store !! j = Some x -> exists y, store !! j = Some y /\
      channel x = channel y /\ externalRef x = externalRef y /\ idempotencyKey x = idempotencyKey y) as Hold.
    { intros j x Hj. destruct (decide (j = i)) as [->|Hne].
      - rewrite list_lookup_insert_eq in Hj by (by eapply lookup_lt_Some). simplify_eq. by exists p.
      - rewrite list_lookup_insert_ne in Hj by done. by exists x. }
    split.
    + intros j k x y Hx Hy Hsame. apply Hold in Hx as (x0 & Hx & E1 & E2 & E3).
      apply Hold in Hy as (y0 & Hy & E4 & E5 & E6). eapply Hu; [done|done|].
      rewrite <- E1, <- E2, <- E3, <- E4, <- E5, <- E6. done.
    + apply Forall_insert; [done|]. eapply payment_step_wf; [done|]. by exists op, es.
Qed.

(** R9 end to end.  However intakes (new ones, retries, refused ones) and
    later operations on stored payments interleave, the store never holds two
    payments with the same channel and external reference or with the same
    idempotency key, and every stored payment keeps its invariant. *)
Theorem store_keeps_payments_unique (store : list Payment) :
  rtc store_step [] store -> unique_store store /\ Forall payment_wf store.
Proof.
  intros H. assert (store_wf []) as H0.
  { split; [|constructor]. intros i j p q Hp. by rewrite lookup_nil in Hp. }
  revert H0. induction H as [|x y z Hxy _ IH]; intros Hx; [done|]. apply IH. by eapply store_step_wf.
Qed.

Definition sample_cmd : IntakeCommand :=
  MkIntakeCommand "stk" " QK1 " "key-1" (MkMoney 1000 KES) None [] (Some "p").

Lemma store_keeps_payments_unique_witness :
  unique_store [sample_payment] /\ Forall payment_wf [sample_payment].
Proof.
  apply store_keeps_payments_unique. eapply rtc_l.
  - eapply (store_intake [] sample_cmd (fixed_clock 0)). vm_compute. reflexivity.
  - apply rtc_refl.
Defined.

(** a retried callback is absorbed.  Replaying a command against any store
    that holds the payment it created -- possibly much later, in another state,
    with any clock -- returns that stored payment, marks the call a duplicate and
    emits exactly one duplicate-observed event for it: no second payment. *)
Theorem intake_replay_is_absorbed (cmd : IntakeCommand) (store store' : list Payment)
    (clock clock' : Clock) (r : IntakeResult) (i : nat) (p' : Payment) :
  intakePayment cmd store clock = Ok r -> duplicate r = false ->
  unique_store store' -> store' !! i = Some p' ->
  rtc payment_step (ir_payment r) p' ->
  exists e, intakePayment cmd store' clock' = Ok (MkIntakeResult p' true [e]) /\
    payload e = DuplicateCallbackObservedPayload (pay_id p') (externalRef p') (clock' 0%nat).
Proof.
  intros H Hd Hu Hi Hsteps. destruct (intake_new _ _ _ _ H Hd) as [Hf _].
  assert (history_kept (ir_payment r) p') as Hk.
  { pose proof (payment_fresh_wf _ Hf) as Hwf. clear -Hsteps Hwf.
    induction Hsteps as [|x y z (op & es & Hop & Hm) _ IH]; [apply history_kept_refl|].
    eapply history_kept_trans; [by eapply run_payment_op_history|]. apply IH.
    eapply payment_step_wf; [done|]. by exists op, es. }
  destruct Hk as (_ & _ & _ & _ & Ech & Eref & Ekey & Ereq & Ecur).
  unfold intakePayment in *. destruct (channel_of_string _) as [ch|]; [|done]. invert_ok.
  match goal with H : normalizeDeclaredRefs _ = Ok _ |- _ => rewrite H end. cbn [mbind result_bind].
  match goal with H : context [List.find ?P store] |- _ => destruct (List.find P store) end; [by invert_ok|].
  invert_ok. cbn in Ech, Eref, Ekey, Ereq, Ecur.
  assert (List.find (same_payment ch (trim (cmd_externalRef cmd)) (trim (cmd_idempotencyKey cmd))) store' = Some p') as ->.
  { destruct (List.find _ store') as [q|] eqn:Hq.
    - apply List.find_some in Hq as [Hin Hs%bool_decide_eq_true]. apply list_elem_of_In in Hin.
      apply list_elem_of_lookup in Hin as [j Hj]. assert (j = i) as ->; [|congruence].
      eapply Hu; [done|done|]. rewrite Ech, Eref, Ekey. done.
    - eapply List.find_none with (x := p') in Hq; [|by apply list_elem_of_In; eapply list_elem_of_lookup_2].
      apply bool_decide_eq_false in Hq. destruct Hq. by left. }
  rewrite Ecur, decide_False by (intros Hn; by apply Hn). rewrite Ereq, equals_refl. cbn [mbind result_bind].
  rewrite decide_False by done. eexists. split; [done|]. reflexivity.
Qed.

Lemma intake_replay_is_absorbed_witness :
  exists e, intakePayment sample_cmd [sample_allocated] (fixed_clock 50) =
    Ok (MkIntakeResult sample_allocated true [e]) /\
    payload e = DuplicateCallbackObservedPayload "p" "QK1" 50.
Proof.
  eapply (intake_replay_is_absorbed sample_cmd [] [sample_allocated] (fixed_clock 0) (fixed_clock 50) _ 0).
  - vm_compute. reflexivity.
  - reflexivity.
  - intros i j p q Hp%list_lookup_singleton_Some Hq%list_lookup_singleton_Some _.
    destruct Hp as [-> _], Hq as [-> _]. reflexivity.
  - reflexivity.
  - exact sample_allocated_steps.
Defined.
