(* ===== verification/Matching.v ===== *)
(** * Reconciliation of payments with invoices
      (src/domain/payments/reconciliation.ts)

    Matches are records on the payment; [matchDecision] is the advisory search
    for the invoices a payment explains. *)

From stdpp Require Import prelude strings list sorting.
From Stdlib Require Import ZArith Lia Ascii.
From S2P Require Import Prelude JsNumber JsString JsDate Money Events Payment Intake.
Local Open Scope string_scope.
Local Open Scope list_scope.
Local Open Scope Z_scope.
Local Open Scope js_scope.

Record ReconciliationMatch := MkReconciliationMatch {
  m_id : Uuid;
  m_paymentId : Uuid;
  m_declaredRefs : list string;
  m_confidence : MatchConfidence;
  m_matchedAt : Date;
  m_reversedAt : option Date;
  m_reversalReason : option string;
}.

#[export] Instance ReconciliationMatch_eta : Eta ReconciliationMatch := fun m =>
  MkReconciliationMatch (m_id m) (m_paymentId m) (m_declaredRefs m) (m_confidence m)
    (m_matchedAt m) (m_reversedAt m) (m_reversalReason m).

(** [OpenInvoiceRef] and [InvoiceCandidate] have the same fields. *)
Record OpenInvoiceRef := MkOpenInvoiceRef {
  oi_receivableId : Uuid;
  oi_invoiceNumber : string;
  oi_dueDate : Date;
}.

#[export] Instance OpenInvoiceRef_eq_dec : EqDecision OpenInvoiceRef.
Proof. solve_decision. Defined.

Inductive MatchBasis := exact_basis | fuzzy_basis.

Inductive MatchDecision :=
| Matched (basis : MatchBasis) (paymentId : Uuid) (candidates : list OpenInvoiceRef)
| Unapplied (paymentId : Uuid).

Definition confidence_of_string (s : string) : option MatchConfidence :=
  if decide (s = "auto") then Some auto_match
  else if decide (s = "manual") then Some manual_match else None.

Definition normalizeMatchRefs (refs : list string) : result (list string) :=
  out ← collectRefs "MATCH_REF_BLANK" refs;
  refuse (out = []) with "MATCH_REFS_REQUIRED" ;;
  Ok out.

Definition assertMatchablePayment (p : Payment) : result unit :=
  refuse (isTerminal p = true) with "PAYMENT_TERMINAL" ;;
  refuse (isConfirmedFamily p = false) with "PAYMENT_NOT_CONFIRMED" ;;
  Ok tt.

(** [refs.join(sep)] *)
Definition join (sep : string) (refs : list string) : string :=
  match refs with
  | [] => ""
  | r :: rs => foldl (fun acc x => acc +:+ sep +:+ x) r rs
  end.

Definition recordMatch (p : Payment) (refs : list string) (confidence : string) (clock : Clock)
    (matchId : option Uuid) : result (ReconciliationMatch * list PaymentEvent) :=
  match confidence_of_string confidence with
  | None => Err (DomainError "MATCH_CONFIDENCE_INVALID")
  | Some c =>
      _ ← assertMatchablePayment p;
      refs' ← normalizeMatchRefs refs;
      let at0 := clock 0%nat in
      id ← id_or_seed matchId
             ("match:" +:+ pay_id p +:+ ":" +:+ join "|" refs' +:+ ":" +:+ confidence +:+ ":" +:+ toISOString at0);
      Ok (MkReconciliationMatch id (pay_id p) refs' c at0 None None,
          [paymentMatchedEvent id (pay_id p) refs' c (clock_after 1 clock)])
  end.

Definition reverseMatch (m : ReconciliationMatch) (reason : string) (clock : Clock)
  : result (ReconciliationMatch * list PaymentEvent) :=
  let why := trim reason in
  refuse (why = "") with "REVERSAL_REASON_REQUIRED" ;;
  refuse (is_Some (m_reversedAt m)) with "MATCH_ALREADY_REVERSED" ;;
  Ok (m <| m_reversedAt := Some (clock 0%nat) |> <| m_reversalReason := Some why |>,
      [matchReversedEvent (m_id m) why (clock_after 1 clock)]).

(** ** References *)

Definition is_alnum (c : ascii) : bool := is_digit c || in_range 97 122 c || in_range 65 90 c.
Definition upper (c : ascii) : ascii :=
  if in_range 97 122 c then charOf (charCode c - 32) else c.

(** [value.replace(/[^0-9a-zA-Z]/g, '').toUpperCase()] *)
Definition normalizeRef (value : string) : chars :=
  upper <$> List.filter is_alnum (explode value).

(** [s.endsWith(t)] *)
Definition endsWith (s t : chars) : Prop := t `suffix_of` s.
#[export] Instance endsWith_dec s t : Decision (endsWith s t).
Proof. unfold endsWith. apply _. Defined.

Definition fuzzyRefMatch (declared invoiceNumber : string) : bool :=
  let ref := normalizeRef declared in
  let inv := normalizeRef invoiceNumber in
  if decide (ref = [] \/ inv = []) then false
  else if decide (ref = inv) then true
  else if decide ((3 <= length ref)%nat /\ endsWith inv ref) then true
  else if decide ((3 <= length inv)%nat /\ endsWith ref inv) then true
  else false.

Definition byDueDate (a b : OpenInvoiceRef) : Z :=
  let d := oi_dueDate a - oi_dueDate b in
  if decide (d <> 0) then d else string_cmp (oi_receivableId a) (oi_receivableId b).

Definition exact_candidates (p : Payment) (invoices : list OpenInvoiceRef) : list OpenInvoiceRef :=
  sort_by byDueDate (List.filter (fun inv =>
    bool_decide (normalizeRef (oi_invoiceNumber inv) = normalizeRef (externalRef p))) invoices).

Definition fuzzy_candidates (p : Payment) (invoices : list OpenInvoiceRef) : list OpenInvoiceRef :=
  sort_by byDueDate (List.filter (fun inv =>
    existsb (fun ref => fuzzyRefMatch ref (oi_invoiceNumber inv)) (declaredRefs p)) invoices).

Definition matchDecision (p : Payment) (invoices : list OpenInvoiceRef) : result MatchDecision :=
  _ ← assertMatchablePayment p;
  let external := normalizeRef (externalRef p) in
  let exact := if decide (external = []) then [] else exact_candidates p invoices in
  if decide (exact <> []) then Ok (Matched exact_basis (pay_id p) exact) else
  let fuzzy := fuzzy_candidates p invoices in
  if decide (fuzzy <> []) then Ok (Matched fuzzy_basis (pay_id p) fuzzy)
  else Ok (Unapplied (pay_id p)).

(** ** Lemmas *)

#[export] Instance byDueDate_total : TotalComparator byDueDate.
Proof.
  split.
  - intros x y. unfold byDueDate. pose proof (string_cmp_total (oi_receivableId x) (oi_receivableId y)).
    repeat case_decide; lia.
  - intros x y z. unfold byDueDate.
    pose proof (string_cmp_trans (oi_receivableId x) (oi_receivableId y) (oi_receivableId z)).
    repeat case_decide; lia.
Qed.

(** The two relations between a payment and an invoice. *)
Definition exact_match (p : Payment) (inv : OpenInvoiceRef) : Prop :=
  normalizeRef (externalRef p) <> [] /\ normalizeRef (oi_invoiceNumber inv) = normalizeRef (externalRef p).
Definition fuzzy_match (p : Payment) (inv : OpenInvoiceRef) : Prop :=
  exists ref, ref ∈ declaredRefs p /\ fuzzyRefMatch ref (oi_invoiceNumber inv) = true.

Lemma exact_candidates_elem p invs inv : normalizeRef (externalRef p) <> [] ->
  inv ∈ exact_candidates p invs <-> inv ∈ invs /\ exact_match p inv.
Proof.
  intros He. unfold exact_candidates, exact_match.
  rewrite sort_by_perm, elem_of_filter_bool, bool_decide_eq_true. naive_solver.
Qed.

Lemma fuzzy_candidates_elem p invs inv :
  inv ∈ fuzzy_candidates p invs <-> inv ∈ invs /\ fuzzy_match p inv.
Proof.
  unfold fuzzy_candidates, fuzzy_match. rewrite sort_by_perm, elem_of_filter_bool, existsb_exists.
  by setoid_rewrite <- list_elem_of_In.
Qed.

Lemma sorted_by_due l : StronglySorted (cmp_le byDueDate) l ->
  StronglySorted (fun a b => oi_dueDate a <= oi_dueDate b) l.
Proof.
  induction 1 as [|x l Hl IH Hx]; constructor; [done|]. eapply Forall_impl; [exact Hx|].
  intros y. unfold cmp_le, byDueDate. case_decide; lia.
Qed.

(** Exact reference, fuzzy reference, or nothing. *)
Definition decision_sound (p : Payment) (invs : list OpenInvoiceRef) (d : MatchDecision) : Prop :=
  match d with
  | Matched exact_basis id cs =>
      id = pay_id p /\ cs <> [] /\ (forall inv, inv ∈ cs <-> inv ∈ invs /\ exact_match p inv) /\
      StronglySorted (fun a b => oi_dueDate a <= oi_dueDate b) cs
  | Matched fuzzy_basis id cs =>
      id = pay_id p /\ cs <> [] /\ (forall inv, inv ∈ cs <-> inv ∈ invs /\ fuzzy_match p inv) /\
      StronglySorted (fun a b => oi_dueDate a <= oi_dueDate b) cs /\
      (forall inv, inv ∈ invs -> ~ exact_match p inv)
  | Unapplied id =>
      id = pay_id p /\ forall inv, inv ∈ invs -> ~ exact_match p inv /\ ~ fuzzy_match p inv
  end.

Lemma nil_no_elem {A} (l : list A) : l = [] -> forall x, x ∉ l.
Proof. intros -> x. apply not_elem_of_nil. Qed.

(** the matching decision is sound and complete.  For money that has landed,
    the decision always exists: when the external reference equals the number
    of some open invoice (after normalisation) the candidates are exactly those
    invoices; otherwise, when a declared reference matches, exactly the
    fuzzily matching ones; otherwise the payment is unapplied, and then no open
    invoice matches either way.  Candidates are ordered by due date; unlanded or
    ended payments are refused. *)
Theorem match_decision_complete (p : Payment) (invs : list OpenInvoiceRef) :
  if decide (assertMatchablePayment p = Ok tt)
  then exists d, matchDecision p invs = Ok d /\ decision_sound p invs d
  else refused (matchDecision p invs).
Proof.
  unfold matchDecision. case_decide as Hm.
  2:{ unfold assertMatchablePayment in *. repeat (case_decide; [done|]). done. }
  rewrite Hm. cbn [mbind result_bind].
  set (ex := if decide (normalizeRef (externalRef p) = []) then [] else exact_candidates p invs).
  assert (forall inv, inv ∈ ex <-> inv ∈ invs /\ exact_match p inv) as Hex.
  { intros inv. unfold ex. case_decide as He; [|by apply exact_candidates_elem].
    split; [intros Hx; by apply not_elem_of_nil in Hx|]. by intros [_ [? _]]. }
  assert (StronglySorted (cmp_le byDueDate) ex) as Hsort.
  { unfold ex. case_decide; [constructor|]. apply sort_by_sorted. apply _. }
  case_decide as Hne.
  { eexists. split; [done|]. split_and!; [done|done|done|by apply sorted_by_due]. }
  assert (forall inv, inv ∈ invs -> ~ exact_match p inv) as Hnone.
  { intros inv Hin Hx. eapply nil_no_elem; [exact Hne|]. by apply Hex. }
  case_decide as Hfz.
  - eexists. split; [done|]. split_and!; [done|done|apply fuzzy_candidates_elem| |done].
    apply sorted_by_due, sort_by_sorted. apply _.
  - eexists. split; [done|]. split; [done|]. intros inv Hin. split; [by apply Hnone|].
    intros Hx. eapply nil_no_elem; [exact Hfz|]. by apply fuzzy_candidates_elem.
Qed.
