(* ===== verification/Allocation.v ===== *)
(** * Allocation rows (src/domain/allocation/allocation.ts)

    The append-only row that moves value from one source of funds to one
    receivable, and the R1/R2 arithmetic over rows. *)

From stdpp Require Import prelude strings list.
From Stdlib Require Import ZArith Lia.
From S2P Require Import Prelude JsNumber JsString JsDate Money Events.
Local Open Scope string_scope.
Local Open Scope list_scope.
Local Open Scope Z_scope.
Local Open Scope js_scope.

Inductive AllocationSourceType := source_payment | source_credit_balance.
#[export] Instance AllocationSourceType_eq_dec : EqDecision AllocationSourceType.
Proof. solve_decision. Defined.

Inductive AllocationStrategy := fifo | explicit | pro_rata.
#[export] Instance AllocationStrategy_eq_dec : EqDecision AllocationStrategy.
Proof. solve_decision. Defined.

Definition show_source (t : AllocationSourceType) : string :=
  match t with source_payment => "payment" | source_credit_balance => "credit_balance" end.
Definition show_strategy (s : AllocationStrategy) : string :=
  match s with fifo => "fifo" | explicit => "explicit" | pro_rata => "pro_rata" end.

Record Allocation := MkAllocation {
  al_id : Uuid;
  al_sourceType : AllocationSourceType;
  al_sourceId : Uuid;
  al_receivableId : Uuid;
  al_amountMinor : Money;
  al_strategy : AllocationStrategy;
  al_sequenceNo : Z;
  al_allocatedAt : Date;
  al_reversedAt : option Date;
  al_reversalOf : option Uuid;
}.

#[export] Instance Allocation_eta : Eta Allocation := fun a =>
  MkAllocation (al_id a) (al_sourceType a) (al_sourceId a) (al_receivableId a) (al_amountMinor a)
    (al_strategy a) (al_sequenceNo a) (al_allocatedAt a) (al_reversedAt a) (al_reversalOf a).

(** [balanceMinor : MoneyInput | Money] *)
Inductive BalanceInput :=
| BalanceMoney (m : Money)
| BalanceMinor (v : numeric).

Record AllocatableReceivable := MkAllocatableReceivable {
  ar_id : Uuid;
  ar_currency : Currency;
  ar_balanceMinor : BalanceInput;
  ar_dueDate : option Date;
}.

Record AllocationSource := MkAllocationSource {
  src_type : AllocationSourceType;
  src_id : Uuid;
  src_currency : Currency;
  src_available : Money;
}.

(** The [instanceof Money] guard is the type of [amt]. *)
Definition allocationOf (id : Uuid) (st : AllocationSourceType) (sid rid : Uuid) (amt : Money)
    (strategy : AllocationStrategy) (sequenceNo : Z) (at_ : Date) (reversalOf : option Uuid)
  : result Allocation :=
  refuse (isPositive amt = false) with "ALLOCATION_AMOUNT_NOT_POSITIVE" ;;
  refuse (sequenceNo < 1) with "ALLOCATION_SEQUENCE_INVALID" ;;
  Ok (MkAllocation id st sid rid amt strategy sequenceNo at_ None reversalOf).

Definition balanceOf (r : AllocatableReceivable) : result Money :=
  match ar_balanceMinor r with
  | BalanceMoney m =>
      refuse (currency m <> ar_currency r) with "CURRENCY_MISMATCH" ;; Ok m
  | BalanceMinor v => Money.ofMinor v (ar_currency r)
  end.

Definition isActive (row : Allocation) : bool :=
  bool_decide (al_reversedAt row = None /\ al_reversalOf row = None).

Definition activeAllocations (rows : list Allocation) : list Allocation := List.filter isActive rows.

Definition row_minor (row : Allocation) : Z := amount (al_amountMinor row).

Definition allocatedMinorTo (rows : list Allocation) (rid : Uuid) : Z :=
  sumZ (row_minor <$> List.filter (fun row => bool_decide (al_receivableId row = rid))
                        (activeAllocations rows)).

Definition balanceAfter (r : AllocatableReceivable) (rows : list Allocation) : result Money :=
  let applied := allocatedMinorTo rows (ar_id r) in
  balance ← balanceOf r;
  refuse (applied > amount balance) with "BALANCE_OVER_ALLOCATED" ;;
  Money.ofMinor (Big (amount balance - applied)) (ar_currency r).

Definition activeMinor (rows : list Allocation) : Z := sumZ (row_minor <$> activeAllocations rows).

Definition unappliedRemainder (available : Money) (rows : list Allocation) : result Money :=
  refuse (activeMinor rows > amount available) with "ALLOCATION_EXCEEDS_AVAILABLE" ;;
  Money.ofMinor (Big (amount available - activeMinor rows)) (currency available).

Definition otherSource (first : option Allocation) (row : Allocation) : bool :=
  match first with
  | None => false
  | Some f => bool_decide (al_sourceType row <> al_sourceType f \/ al_sourceId row <> al_sourceId f)
  end.

Definition validateRow (first : option Allocation) (available : Money) (row : Allocation) : result unit :=
  refuse (otherSource first row = true) with "ALLOCATION_SOURCE_MISMATCH" ;;
  refuse (currency (al_amountMinor row) <> currency available) with "CURRENCY_MISMATCH" ;;
  refuse (isPositive (al_amountMinor row) = false) with "ALLOCATION_AMOUNT_NOT_POSITIVE" ;;
  Ok tt.

Definition validateAllocations (rows : list Allocation) (available : Money) : result unit :=
  _ ← traverse (validateRow (head rows) available) rows;
  _ ← unappliedRemainder available rows;
  Ok tt.

(** ** Lemmas *)

Lemma balanceOf_Ok r b : balanceOf r = Ok b ->
  currency b = ar_currency r /\ (match ar_balanceMinor r with BalanceMoney m => b = m | BalanceMinor _ => money_wf b end).
Proof.
  unfold balanceOf. destruct (ar_balanceMinor r) as [m|v]; intros H.
  - by invert_ok.
  - by apply ofMinor_Ok in H as [? ?].
Qed.

Lemma isActive_true row : isActive row = true <-> al_reversedAt row = None /\ al_reversalOf row = None.
Proof. unfold isActive. by rewrite bool_decide_eq_true. Qed.

Lemma activeMinor_app rows rows' : activeMinor (rows ++ rows') = activeMinor rows + activeMinor rows'.
Proof. unfold activeMinor, activeAllocations. by rewrite List.filter_app, fmap_app, sumZ_app. Qed.

Lemma activeMinor_all rows : Forall (fun r => isActive r = true) rows ->
  activeMinor rows = sumZ (row_minor <$> rows).
Proof.
  intros H. unfold activeMinor, activeAllocations. f_equal. f_equal.
  induction H as [|r l Hr Hl IH]; cbn; [done|]. by rewrite Hr, IH.
Qed.

Lemma activeMinor_cons r rows :
  activeMinor (r :: rows) = (if isActive r then row_minor r else 0) + activeMinor rows.
Proof. unfold activeMinor, activeAllocations. cbn. by destruct (isActive r). Qed.

Lemma activeMinor_nonneg rows : Forall (fun r => money_wf (al_amountMinor r)) rows -> 0 <= activeMinor rows.
Proof.
  induction 1 as [|r l Hr Hl IH]; [done|]. rewrite activeMinor_cons. unfold money_wf, row_minor in *.
  destruct (isActive r); lia.
Qed.

Lemma unappliedRemainder_Ok available rows m :
  unappliedRemainder available rows = Ok m <->
  activeMinor rows <= amount available /\
  m = MkMoney (amount available - activeMinor rows) (currency available).
Proof.
  unfold unappliedRemainder. split.
  - intros H. case_decide; [done|]. rewrite ofMinor_Big in H by lia. invert_ok. split; [lia|done].
  - intros [Hle ->]. rewrite decide_False by lia. by apply ofMinor_Big; lia.
Qed.

Lemma allocationOf_Ok id st sid rid amt strategy seq at_ rev row :
  allocationOf id st sid rid amt strategy seq at_ rev = Ok row ->
  0 < amount amt /\ 1 <= seq /\ row = MkAllocation id st sid rid amt strategy seq at_ None rev.
Proof.
  unfold allocationOf. intros H. invert_ok. split_and!; [by apply isPositive_true|lia|done].
Qed.
