(* ===== verification/Strategies.v ===== *)
(** * Allocation strategies (src/domain/allocation/strategies.ts)

    The three ways to split funds over receivables.  [Strategy] is the contract
    the engine relies on (caps, ceiling, positive legs, one leg per
    receivable); each strategy is an instance. *)

From stdpp Require Import prelude strings list sorting.
From Stdlib Require Import ZArith Lia.
From S2P Require Import Prelude JsNumber JsString JsDate Money Events Allocation.
Local Open Scope string_scope.
Local Open Scope list_scope.
Local Open Scope Z_scope.
Local Open Scope js_scope.

Record StrategyPlan := MkStrategyPlan { plan_receivableId : Uuid; plan_amount : Money }.

#[export] Instance StrategyPlan_eq_dec : EqDecision StrategyPlan.
Proof. solve_decision. Defined.

Definition byReceivableId (a b : AllocatableReceivable) : Z := string_cmp (ar_id a) (ar_id b).

Definition assertSingleCurrency (funds : Money) (rs : list AllocatableReceivable) : result unit :=
  refuse (existsb (fun r => negb (bool_decide (ar_currency r = currency funds))) rs = true)
    with "CURRENCY_MISMATCH" ;;
  Ok tt.

Definition assertNoDuplicates (rs : list AllocatableReceivable) : result unit :=
  refuse (~ NoDup (ar_id <$> rs)) with "ALLOCATION_DUPLICATE_RECEIVABLE" ;;
  Ok tt.

(** ** fifo *)

(** An undated receivable counts as due at positive infinity. *)
Definition dueOrder (a b : AllocatableReceivable) : Z :=
  match ar_dueDate a, ar_dueDate b with
  | Some ad, Some bd => if decide (ad <> bd) then ad - bd else byReceivableId a b
  | None, None => byReceivableId a b
  | Some _, None => -1
  | None, Some _ => 1
  end.

(** The loop over the ordered queue, with its [break] and its [continue]. *)
Fixpoint fifoWalk (c : Currency) (remaining : Z) (queue : list AllocatableReceivable)
  : result (list StrategyPlan) :=
  match queue with
  | [] => Ok []
  | r :: queue' =>
      if decide (remaining = 0) then Ok [] else
      balance ← balanceOf r;
      if isPositive balance then
        let take := if amount balance <? remaining then amount balance else remaining in
        m ← Money.ofMinor (Big take) c;
        rest ← fifoWalk c (remaining - take) queue';
        Ok (MkStrategyPlan (ar_id r) m :: rest)
      else fifoWalk c remaining queue'
  end.

Definition allocateOldestFirst (funds : Money) (rs : list AllocatableReceivable)
  : result (list StrategyPlan) :=
  _ ← assertSingleCurrency funds rs;
  _ ← assertNoDuplicates rs;
  fifoWalk (currency funds) (amount funds) (sort_by dueOrder rs).

(** ** explicit *)

(** [declared] is a [Map]: its entries in insertion order, with distinct keys. *)
Notation Declared := (list (Uuid * Money)).

Definition byId (rs : list AllocatableReceivable) (id : Uuid) : option AllocatableReceivable :=
  List.find (fun r => bool_decide (ar_id r = id)) rs.

Definition declareStep (funds : Money) (rs : list AllocatableReceivable) (total : Z)
    (entry : Uuid * Money) : result Z :=
  let '(id, amt) := entry in
  match byId rs id with
  | None => Err (DomainError "ALLOCATION_UNKNOWN_RECEIVABLE")
  | Some r =>
      refuse (currency amt <> currency funds) with "CURRENCY_MISMATCH" ;;
      balance ← balanceOf r;
      refuse (amount amt > amount balance) with "ALLOCATION_EXCEEDS_BALANCE" ;;
      Ok (total + amount amt)
  end.

Definition entryOrder (a b : Uuid * Money) : Z := string_cmp a.1 b.1.

Definition allocateExplicit (funds : Money) (rs : list AllocatableReceivable) (declared : Declared)
  : result (list StrategyPlan) :=
  _ ← assertSingleCurrency funds rs;
  _ ← assertNoDuplicates rs;
  declaredTotal ← foldM (declareStep funds rs) 0 declared;
  refuse (declaredTotal > amount funds) with "ALLOCATION_EXCEEDS_AVAILABLE" ;;
  Ok ((fun e => MkStrategyPlan e.1 e.2) <$>
        sort_by entryOrder (List.filter (fun e => isPositive e.2) declared)).

(** ** pro_rata *)

Definition withBalance (r : AllocatableReceivable) : result (AllocatableReceivable * Money) :=
  b ← balanceOf r; Ok (r, b).

Definition pairOrder (a b : AllocatableReceivable * Money) : Z := byReceivableId a.1 b.1.

Definition allocateProRata (funds : Money) (rs : list AllocatableReceivable)
  : result (list StrategyPlan) :=
  _ ← assertSingleCurrency funds rs;
  _ ← assertNoDuplicates rs;
  pairs ← traverse withBalance rs;
  let positive := sort_by pairOrder (List.filter (fun p => isPositive p.2) pairs) in
  if decide (length positive = 0%nat) then Ok [] else
  let outstanding := sumZ ((fun p => amount p.2) <$> positive) in
  if decide (amount funds >= outstanding) then
    Ok ((fun p => MkStrategyPlan (ar_id p.1) p.2) <$> positive)
  else
    let weights := (fun p => num (amount p.2)) <$> positive in
    parts ← Money.allocate funds weights;
    Ok (List.filter (fun pl => isPositive (plan_amount pl))
          (imap (fun index p => MkStrategyPlan (ar_id p.1)
             (default (Money.zero (currency funds)) (parts !! index))) positive)).

(** ** The contract *)

(** What every strategy promises about a plan. *)
Record plan_ok (funds : Money) (rs : list AllocatableReceivable) (plans : list StrategyPlan) : Prop := {
  plan_caps : Forall (fun pl => exists r b, r ∈ rs /\ ar_id r = plan_receivableId pl /\
                balanceOf r = Ok b /\ 0 < amount (plan_amount pl) <= amount b /\
                currency (plan_amount pl) = currency funds) plans;
  plan_distinct : NoDup (plan_receivableId <$> plans);
  plan_ceiling : sumZ ((fun pl => amount (plan_amount pl)) <$> plans) <= amount funds;
}.

(** A strategy with the inputs on which it keeps the contract. *)
Class Strategy (plan : Money -> list AllocatableReceivable -> result (list StrategyPlan))
    (domain : Money -> list AllocatableReceivable -> Prop) : Prop :=
  strategy_contract : forall funds rs plans,
    money_wf funds -> domain funds rs -> plan funds rs = Ok plans -> plan_ok funds rs plans.

(** ** Lemmas *)

Definition plan_minor (pl : StrategyPlan) : Z := amount (plan_amount pl).

Lemma assertSingleCurrency_Ok funds rs u : assertSingleCurrency funds rs = Ok u ->
  Forall (fun r => ar_currency r = currency funds) rs.
Proof.
  unfold assertSingleCurrency. intros H. invert_ok. apply Forall_forall. intros r Hr.
  apply not_true_is_false in N. destruct (decide (ar_currency r = currency funds)) as [|Hne]; [done|].
  exfalso. rewrite <- not_true_iff_false in N. apply N. apply existsb_exists. exists r.
  split; [by apply list_elem_of_In|]. by rewrite bool_decide_eq_false_2.
Qed.

Lemma assertNoDuplicates_Ok rs u : assertNoDuplicates rs = Ok u -> NoDup (ar_id <$> rs).
Proof. unfold assertNoDuplicates. intros H. by invert_ok. Qed.

#[export] Instance byReceivableId_total : TotalComparator byReceivableId.
Proof. split; [intros; apply string_cmp_total|intros x y z; apply string_cmp_trans]. Qed.

#[export] Instance dueOrder_total : TotalComparator dueOrder.
Proof.
  split.
  - intros x y. unfold dueOrder, byReceivableId. pose proof (string_cmp_total (ar_id x) (ar_id y)).
    destruct (ar_dueDate x), (ar_dueDate y); repeat case_decide; lia.
  - intros x y z. unfold dueOrder, byReceivableId. pose proof (string_cmp_trans (ar_id x) (ar_id y) (ar_id z)).
    destruct (ar_dueDate x), (ar_dueDate y), (ar_dueDate z); repeat case_decide; lia.
Qed.

#[export] Instance entryOrder_total : TotalComparator entryOrder.
Proof. split; [intros; apply string_cmp_total|intros x y z; apply string_cmp_trans]. Qed.

#[export] Instance pairOrder_total : TotalComparator pairOrder.
Proof. split; [intros; apply string_cmp_total|intros x y z; apply string_cmp_trans]. Qed.

Lemma fifoWalk_ok c rem queue plans : 0 <= rem -> fifoWalk c rem queue = Ok plans ->
  Forall (fun pl => exists r b, r ∈ queue /\ ar_id r = plan_receivableId pl /\ balanceOf r = Ok b /\
     0 < plan_minor pl <= amount b /\ currency (plan_amount pl) = c) plans /\
  (plan_receivableId <$> plans) `sublist_of` (ar_id <$> queue) /\
  sumZ (plan_minor <$> plans) <= rem.
Proof.
  revert rem plans. induction queue as [|r queue IH]; intros rem plans Hrem H; cbn [fifoWalk] in H.
  { invert_ok. split_and!; [constructor|constructor|done]. }
  destruct (decide (rem = 0)). { invert_ok. split_and!; [constructor|apply sublist_nil_l|done]. }
  apply bind_Ok in H as (b & Hb & H). destruct (isPositive b) eqn:Hp.
  - assert (0 < amount b) by (apply isPositive_true; congruence).
    set (take := if amount b <? rem then amount b else rem) in *.
    assert (0 < take <= amount b /\ take <= rem) as [Ht1 Ht2] by (unfold take; destruct (Z.ltb_spec (amount b) rem); lia).
    clearbody take.
    rewrite ofMinor_Big in H by lia. cbn [mbind result_bind] in H.
    apply bind_Ok in H as (rest & Hrest & H). invert_ok.
    destruct (IH (rem - take) rest ltac:(lia) Hrest) as (H1 & H2 & H3). split_and!.
    + constructor.
      * exists r, b. split; [by left|]. unfold plan_minor. cbn. split_and!; done || lia.
      * eapply Forall_impl; [exact H1|]. intros pl (r' & b' & Hin & ?). exists r', b'. split; [by right|done].
    + by constructor.
    + rewrite fmap_cons, sumZ_cons. cbn. lia.
  - destruct (IH _ _ Hrem H) as (H1 & H2 & H3). split_and!; [|by constructor|done].
    eapply Forall_impl; [exact H1|]. intros pl (r' & b' & Hin & ?). exists r', b'. split; [by right|done].
Qed.

(** fifo keeps the contract on all inputs. *)
#[export] Instance fifo_strategy : Strategy allocateOldestFirst (fun _ _ => True).
Proof.
  intros funds rs plans Hf _ H. unfold allocateOldestFirst in H. invert_ok.
  apply assertNoDuplicates_Ok in E0. apply fifoWalk_ok in H as (H1 & H2 & H3); [|done].
  split; [|eapply sublist_NoDup; [|exact H2]|done].
  - eapply Forall_impl; [exact H1|]. intros pl (r & b & Hin & ?). exists r, b.
    split; [|done]. by rewrite <- (sort_by_perm dueOrder rs).
  - by rewrite sort_by_perm.
Qed.

(** *** fifo against its closed form *)

Section fifo_reference.
  Context (c : Currency) (bal : AllocatableReceivable -> Z).

(** What receivable number [k] of the queue gets: as much of its balance as the
    funds left over by the balances before it allow. *)
Definition fifo_share (F : Z) (queue : list AllocatableReceivable) (k : nat) (r : AllocatableReceivable) : Z :=
  Z.max 0 (Z.min (bal r) (F - sumZ (bal <$> take k queue))).

Definition fifo_leg (F : Z) (queue : list AllocatableReceivable) (k : nat) (r : AllocatableReceivable)
  : option StrategyPlan :=
  if decide (0 < fifo_share F queue k r)
  then Some (MkStrategyPlan (ar_id r) (MkMoney (fifo_share F queue k r) c)) else None.

Definition fifo_reference (F : Z) (queue : list AllocatableReceivable) : list StrategyPlan :=
  omap id (imap (fifo_leg F queue) queue).

Definition valid_balance (r : AllocatableReceivable) : Prop :=
  balanceOf r = Ok (MkMoney (bal r) c) /\ 0 <= bal r.

Lemma fifo_reference_cons F r queue :
  fifo_reference F (r :: queue) =
  (if decide (0 < Z.max 0 (Z.min (bal r) F))
   then [MkStrategyPlan (ar_id r) (MkMoney (Z.max 0 (Z.min (bal r) F)) c)] else []) ++
  fifo_reference (F - bal r) queue.
Proof.
  unfold fifo_reference. rewrite imap_cons.
  assert (imap (fifo_leg F (r :: queue) ∘ S) queue = imap (fifo_leg (F - bal r) queue) queue) as ->.
  { apply imap_ext. intros k x _. unfold compose, fifo_leg, fifo_share. cbn [take].
    rewrite fmap_cons, sumZ_cons.
    by replace (F - (bal r + sumZ (bal <$> take k queue))) with (F - bal r - sumZ (bal <$> take k queue)) by lia. }
  cbn [omap list_omap]. unfold fifo_leg at 1, fifo_share. cbn [take].
  change (sumZ (bal <$> [])) with 0. rewrite Z.sub_0_r. by case_decide.
Qed.

Lemma fifo_reference_empty F queue : F <= 0 -> Forall (fun r => 0 <= bal r) queue -> fifo_reference F queue = [].
Proof.
  intros HF Hq. revert F HF. induction Hq as [|r queue Hr Hq IH]; intros F HF; [done|].
  rewrite fifo_reference_cons, IH by lia. rewrite decide_False by lia. done.
Qed.

Lemma fifoWalk_reference F queue : 0 <= F -> Forall valid_balance queue ->
  fifoWalk c F queue = Ok (fifo_reference F queue).
Proof.
  intros HF Hq. revert F HF. induction Hq as [|r queue [Hb Hr] Hq IH]; intros F HF; [done|].
  assert (Forall (fun r => 0 <= bal r) queue) as Hnn by (eapply Forall_impl; [exact Hq|]; by intros ? []).
  cbn [fifoWalk]. destruct (decide (F = 0)) as [->|Hne].
  { rewrite fifo_reference_empty; [done|lia|]. by constructor. }
  rewrite Hb. cbn [mbind result_bind]. rewrite fifo_reference_cons.
  unfold isPositive. cbn [amount]. destruct (Z.ltb_spec 0 (bal r)) as [Hp|Hp].
  - destruct (Z.ltb_spec (bal r) F) as [Hlt|Hge].
    + rewrite ofMinor_Big by lia. cbn [mbind result_bind]. rewrite IH by lia. cbn [mbind result_bind].
      rewrite decide_True by lia. by replace (Z.max 0 (Z.min (bal r) F)) with (bal r) by lia.
    + rewrite ofMinor_Big by lia. cbn [mbind result_bind]. rewrite IH by lia. cbn [mbind result_bind].
      rewrite decide_True by lia. replace (Z.max 0 (Z.min (bal r) F)) with F by lia.
      by rewrite Z.sub_diag, !fifo_reference_empty by (done || lia).
  - rewrite IH by lia. rewrite decide_False by lia. by replace (F - bal r) with F by lia.
Qed.

Lemma fifo_reference_sum F queue : 0 <= F -> Forall (fun r => 0 <= bal r) queue ->
  sumZ (plan_minor <$> fifo_reference F queue) = Z.min F (sumZ (bal <$> queue)).
Proof.
  intros HF Hq. revert F HF. induction Hq as [|r queue Hr Hq IH]; intros F HF.
  { change (0 = Z.min F 0). lia. }
  assert (0 <= sumZ (bal <$> queue)) by (apply sumZ_nonneg; by apply Forall_fmap).
  rewrite fifo_reference_cons, fmap_app, sumZ_app, fmap_cons, sumZ_cons.
  assert (sumZ (plan_minor <$> fifo_reference (F - bal r) queue) = Z.min (Z.max 0 (F - bal r)) (sumZ (bal <$> queue))) as ->.
  { destruct (decide (F - bal r <= 0)) as [Hle|Hgt].
    - rewrite fifo_reference_empty by done. change (sumZ (plan_minor <$> [])) with 0. lia.
    - rewrite IH by lia. lia. }
  case_decide.
  - change (sumZ (plan_minor <$> [MkStrategyPlan (ar_id r) (MkMoney (Z.max 0 (Z.min (bal r) F)) c)]))
      with (Z.max 0 (Z.min (bal r) F) + 0). lia.
  - change (sumZ (plan_minor <$> [])) with 0. lia.
Qed.

End fifo_reference.

(** Receivables of one currency with valid balances. *)
Definition allocatable (c : Currency) (bal : AllocatableReceivable -> Z) (rs : list AllocatableReceivable) : Prop :=
  Forall (fun r => ar_currency r = c) rs /\ NoDup (ar_id <$> rs) /\ Forall (valid_balance c bal) rs.

Lemma assertSingleCurrency_pass funds rs : Forall (fun r => ar_currency r = currency funds) rs ->
  assertSingleCurrency funds rs = Ok tt.
Proof.
  intros H. unfold assertSingleCurrency. rewrite decide_False; [done|].
  intros (r & Hin%list_elem_of_In & Hr)%existsb_exists. rewrite Forall_forall in H.
  rewrite bool_decide_eq_true_2 in Hr by (by apply H). done.
Qed.

Lemma assertNoDuplicates_pass rs : NoDup (ar_id <$> rs) -> assertNoDuplicates rs = Ok tt.
Proof. intros H. unfold assertNoDuplicates. rewrite decide_False; [done|]. by intros Hn. Qed.

(** C6: fifo settles oldest debts first, cent-exactly.  On distinct receivables
    of the funds' currency the strategy always succeeds, and its plan is the
    closed form: going by due date (undated last, ties by id), each receivable
    gets as much of its balance as is left after all balances before it, with no
    leg for those that get nothing.  Hence the plan distributes exactly the
    smaller of the funds and the total debt. *)
Theorem fifo_oldest_first (funds : Money) (rs : list AllocatableReceivable) (bal : AllocatableReceivable -> Z) :
  money_wf funds -> allocatable (currency funds) bal rs ->
  let queue := sort_by dueOrder rs in
  exists plans, allocateOldestFirst funds rs = Ok plans /\
    plans = fifo_reference (currency funds) bal (amount funds) queue /\
    StronglySorted (cmp_le dueOrder) queue /\ queue ≡ₚ rs /\
    sumZ (plan_minor <$> plans) = Z.min (amount funds) (sumZ (bal <$> rs)).
Proof.
  intros Hf (Hc & Hnd & Hv) queue. pose proof (sort_by_perm dueOrder rs) as Hperm. fold queue in Hperm.
  assert (Forall (valid_balance (currency funds) bal) queue) as Hvq by (by rewrite Hperm).
  exists (fifo_reference (currency funds) bal (amount funds) queue). split_and!; try done.
  - unfold allocateOldestFirst. rewrite assertSingleCurrency_pass, assertNoDuplicates_pass by done.
    cbn [mbind result_bind]. by apply fifoWalk_reference.
  - apply sort_by_sorted. apply _.
  - rewrite fifo_reference_sum; [by rewrite Hperm|done|].
    eapply Forall_impl; [exact Hvq|]. by intros ? [].
Qed.

(** Three debts of 5, 7 and 9, the second the oldest. *)
Definition debt (id : Uuid) (b : Z) (due : option Date) : AllocatableReceivable :=
  MkAllocatableReceivable id KES (BalanceMinor (Big b)) due.
Definition debt_balance (r : AllocatableReceivable) : Z :=
  match ar_balanceMinor r with BalanceMinor (Big z) => z | _ => 0 end.
Definition sample_debts : list AllocatableReceivable :=
  [debt "a" 5 (Some 20); debt "b" 7 (Some 10); debt "c" 9 None].

Lemma sample_debts_allocatable : allocatable KES debt_balance sample_debts.
Proof.
  split; [by repeat constructor|]. split; [by apply (bool_decide_unpack _); vm_compute|].
  by repeat constructor; vm_compute.
Qed.

Lemma fifo_oldest_first_witness :
  exists plans, allocateOldestFirst (MkMoney 10 KES) sample_debts = Ok plans /\
    plans = [MkStrategyPlan "b" (MkMoney 7 KES); MkStrategyPlan "a" (MkMoney 3 KES)].
Proof.
  destruct (fifo_oldest_first (MkMoney 10 KES) sample_debts debt_balance) as (plans & H & E & _).
  - by vm_compute.
  - exact sample_debts_allocatable.
  - exists plans. split; [exact H|]. rewrite E. vm_compute. reflexivity.
Defined.

(** *** explicit *)

Lemma byId_Some rs id r : byId rs id = Some r -> r ∈ rs /\ ar_id r = id.
Proof.
  unfold byId. intros [Hin Hid%bool_decide_eq_true]%List.find_some. by rewrite list_elem_of_In.
Qed.

Lemma declare_Ok funds rs declared t total : foldM (declareStep funds rs) t declared = Ok total ->
  Forall (fun e => exists r b, r ∈ rs /\ ar_id r = e.1 /\ balanceOf r = Ok b /\
            amount e.2 <= amount b /\ currency e.2 = currency funds) declared /\
  total = t + sumZ ((fun e => amount e.2) <$> declared).
Proof.
  revert t. induction declared as [|[id amt] declared IH]; intros t H; cbn [foldM] in H.
  { invert_ok. split; [constructor|]. change (total = total + 0). lia. }
  apply bind_Ok in H as (t' & Hs & H). apply IH in H as [H1 ->]. unfold declareStep in Hs.
  destruct (byId rs id) as [r|] eqn:Hr; [|done]. apply byId_Some in Hr as [Hin Hid]. invert_ok.
  split; [|rewrite sumZ_cons, Z.add_assoc; done].
  constructor; [|done]. exists r, v. split_and!; done || lia.
Qed.

(** The declared split is a [Map] of valid amounts. *)
Definition declared_wf (declared : Declared) : Prop :=
  NoDup declared.*1 /\ Forall (fun e => money_wf e.2) declared.

#[export] Instance explicit_strategy declared :
  Strategy (fun funds rs => allocateExplicit funds rs declared) (fun _ _ => declared_wf declared).
Proof.
  intros funds rs plans Hf [Hnd Hwf] H. unfold allocateExplicit in H. invert_ok.
  apply declare_Ok in E1 as [Hall ->].
  set (legs := List.filter (fun e => isPositive e.2) declared) in *.
  pose proof (sort_by_perm entryOrder legs) as Hp.
  split.
  - apply Forall_fmap. rewrite Hp. apply Forall_forall. intros e [Hin Hpos]%list_elem_of_In%filter_In.
    rewrite Forall_forall in Hall. destruct (Hall e) as (r & b & H1 & H2 & H3 & H4 & H5); [by apply list_elem_of_In|].
    assert (0 < amount e.2) by (apply isPositive_true; congruence). exists r, b. by split_and!.
  - rewrite <- list_fmap_compose. change (NoDup (fst <$> sort_by entryOrder legs)). rewrite Hp.
    eapply sublist_NoDup; [exact Hnd|]. apply fmap_sublist, filter_sublist.
  - rewrite <- list_fmap_compose.
    change (sumZ ((fun e => amount e.2) <$> sort_by entryOrder legs) <= amount funds).
    rewrite Hp. unfold legs.
    etransitivity; [apply Z.eq_le_incl, (sumZ_filter_positive (fun e => amount e.2)); done|lia].
Qed.

(** *** pro_rata *)

(** Valid balances whose total keeps the weights exact. *)
Definition exact_debt (rs : list AllocatableReceivable) : Prop :=
  forall pairs, traverse withBalance rs = Ok pairs ->
    Forall (fun p => money_wf p.2) pairs /\ sumZ ((fun p => amount p.2) <$> pairs) * 5 ^ 9 < 2 ^ 53.

Lemma withBalance_Forall2 rs pairs : traverse withBalance rs = Ok pairs ->
  pairs.*1 = rs /\ Forall (fun p => balanceOf p.1 = Ok p.2) pairs.
Proof.
  intros H%traverse_Forall2. induction H as [|r p rs pairs Hr _ [IH1 IH2]]; [done|].
  unfold withBalance in Hr. apply bind_Ok in Hr as (b & Hb & [= <-]).
  split; [by rewrite fmap_cons, IH1|]. by constructor.
Qed.

(** The receivables that still owe, with their balances. *)
Record owed (c : Currency) (rs : list AllocatableReceivable) (pairs positive : list (AllocatableReceivable * Money)) : Prop := {
  owed_pairs : Forall (fun p => p.1 ∈ rs /\ balanceOf p.1 = Ok p.2 /\ 0 < amount p.2 /\ currency p.2 = c) positive;
  owed_distinct : NoDup ((fun p => ar_id p.1) <$> positive);
  owed_all : forall p, p ∈ pairs -> 0 < amount p.2 -> p ∈ positive;
  owed_sum : sumZ ((fun p => amount p.2) <$> positive) = sumZ ((fun p => amount p.2) <$> pairs);
}.

Lemma positive_pairs c rs pairs : traverse withBalance rs = Ok pairs ->
  Forall (fun p => money_wf p.2) pairs -> NoDup (ar_id <$> rs) -> Forall (fun r => ar_currency r = c) rs ->
  owed c rs pairs (sort_by pairOrder (List.filter (fun p => isPositive p.2) pairs)).
Proof.
  intros Ht Hwf Hnd Hc. apply withBalance_Forall2 in Ht as [Hrs Hb].
  set (pos := List.filter (fun p => isPositive p.2) pairs).
  pose proof (sort_by_perm pairOrder pos) as Hp. split.
  - rewrite Hp. apply Forall_forall. intros p [Hin Hpos]%list_elem_of_In%filter_In.
    rewrite <- list_elem_of_In in Hin.
    rewrite Forall_forall in Hb. assert (p.1 ∈ rs) as Hp1 by (rewrite <- Hrs; by apply list_elem_of_fmap_2).
    split_and!; [done|by apply Hb|apply isPositive_true; congruence|].
    rewrite Forall_forall in Hc. rewrite <- (Hc _ Hp1). by apply balanceOf_Ok, Hb.
  - rewrite Hp. rewrite <- Hrs, <- list_fmap_compose in Hnd.
    eapply sublist_NoDup; [exact Hnd|]. apply fmap_sublist, filter_sublist.
  - intros p Hin Hpos. rewrite Hp. apply list_elem_of_In, filter_In. split; [by apply list_elem_of_In|].
    by apply Z.ltb_lt.
  - rewrite Hp. by apply (sumZ_filter_positive (fun p => amount p.2)).
Qed.

(** The largest-remainder parts respect the balances they weigh. *)
Lemma part_below_weight F S b p : 0 < b -> 0 <= F < S -> p * S - F * b < S -> p <= b.
Proof.
  intros Hb HF Hp. assert (F * b <= S * b) by (apply Z.mul_le_mono_nonneg_r; lia).
  assert (p * S < (b + 1) * S) as Hlt by lia. apply Z.mul_lt_mono_pos_r in Hlt; lia.
Qed.

(** A split of [F] over debts of [S] in all: aligned with the debts, capped by
    them, each leg within one minor unit of its exact share. *)
Record fair_split (c : Currency) (F S : Z) (positive : list (AllocatableReceivable * Money)) (legs : list StrategyPlan) : Prop := {
  fair_legs : Forall2 (fun p pl => plan_receivableId pl = ar_id p.1 /\ 0 <= plan_minor pl <= amount p.2 /\
                currency (plan_amount pl) = c /\
                Z.abs (plan_minor pl * S - Z.min F S * amount p.2) < S) positive legs;
  fair_sum : sumZ (plan_minor <$> legs) = Z.min F S;
}.

Lemma pro_rata_legs c (positive : list (AllocatableReceivable * Money)) (ps : list Z) F S :
  0 <= F < S -> Forall (fun p => 0 < amount p.2) positive ->
  Forall2 (fun z p => 0 <= p /\ - S < p * S - F * z < S) ((fun p => amount p.2) <$> positive) ps ->
  sumZ ps = F ->
  fair_split c F S positive (imap (fun i p => MkStrategyPlan (ar_id p.1)
    (default (Money.zero c) (((fun a => MkMoney a c) <$> ps) !! i))) positive).
Proof.
  intros HFS Hpos H Hsum.
  assert (imap (fun i p => MkStrategyPlan (ar_id p.1)
    (default (Money.zero c) (((fun a => MkMoney a c) <$> ps) !! i))) positive =
    zip_with (fun p a => MkStrategyPlan (ar_id p.1) (MkMoney a c)) positive ps) as ->.
  { apply Forall2_fmap_l in H. clear -H. induction H as [|p a positive ps _ H IH]; [done|].
    rewrite imap_cons. cbn. f_equal. exact IH. }
  apply Forall2_fmap_l in H. replace (Z.min F S) with F by lia. split; replace (Z.min F S) with F by lia.
  - clear Hsum. induction H as [|p a positive ps [Ha1 Ha2] H IH]; [constructor|].
    inversion Hpos; subst. cbn. constructor; [|by apply IH]. unfold plan_minor. cbn. split_and!; try done.
    + eapply part_below_weight; [done|exact HFS|lia].
    + lia.
  - rewrite <- Hsum. f_equal. clear Hsum Hpos.
    induction H as [|p a positive ps _ H IH]; [done|]. cbn. f_equal. exact IH.
Qed.

(** The exact-cover branch pays every balance. *)
Lemma full_cover_legs c (positive : list (AllocatableReceivable * Money)) F S :
  sumZ ((fun p => amount p.2) <$> positive) = S -> 0 < S -> F >= S ->
  Forall (fun p => 0 < amount p.2 /\ currency p.2 = c) positive ->
  fair_split c F S positive ((fun p => MkStrategyPlan (ar_id p.1) p.2) <$> positive).
Proof.
  intros HS HS0 HF Hpos. split; replace (Z.min F S) with S by lia.
  - apply Forall2_fmap_r, Forall_Forall2_diag. eapply Forall_impl; [exact Hpos|]. intros p [Hp Hc].
    unfold plan_minor. cbn. split_and!; [done|lia|lia|done|]. rewrite Z.mul_comm, Z.sub_diag. lia.
  - by rewrite <- list_fmap_compose.
Qed.

Lemma filter_true {A} (f : A -> bool) l : Forall (fun x => f x = true) l -> List.filter f l = l.
Proof. induction 1 as [|x l Hx Hl IH]; cbn; [done|]. by rewrite Hx, IH. Qed.

(** pro_rata always succeeds while the debts are exact doubles, and drops only
    empty legs from a fair split. *)
Lemma allocateProRata_reduces funds rs pairs :
  money_wf funds -> Forall (fun r => ar_currency r = currency funds) rs -> NoDup (ar_id <$> rs) ->
  traverse withBalance rs = Ok pairs -> Forall (fun p => money_wf p.2) pairs ->
  sumZ ((fun p => amount p.2) <$> pairs) * 5 ^ 9 < 2 ^ 53 ->
  exists positive legs, owed (currency funds) rs pairs positive /\
    fair_split (currency funds) (amount funds) (sumZ ((fun p => amount p.2) <$> pairs)) positive legs /\
    allocateProRata funds rs = Ok (List.filter (fun pl => 0 <? plan_minor pl) legs).
Proof.
  intros Hf Hc Hnd Ht Hwf Hb. pose proof (positive_pairs _ _ _ Ht Hwf Hnd Hc) as Ho.
  unfold allocateProRata. rewrite assertSingleCurrency_pass, assertNoDuplicates_pass, Ht by done.
  cbn [mbind result_bind]. set (positive := sort_by _ _) in *. clearbody positive.
  set (S := sumZ ((fun p => amount p.2) <$> pairs)) in *. pose proof (owed_sum _ _ _ _ Ho) as HS. fold S in HS.
  assert (Forall (fun p => 0 < amount p.2 /\ currency p.2 = currency funds) positive) as Hpos
    by (eapply Forall_impl; [exact (owed_pairs _ _ _ _ Ho)|]; naive_solver).
  exists positive. case_decide as Hl.
  { apply length_zero_iff_nil in Hl as ->. exists []. split_and!; [done| |done].
    unfold money_wf in Hf. split; [constructor|]. change (0 = Z.min (amount funds) S).
    change (0 = S) in HS. lia. }
  assert (0 < S) as HS0.
  { rewrite <- HS. destruct Hpos as [|p l [Hp _] Hl']; [done|]. rewrite fmap_cons, sumZ_cons.
    assert (0 <= sumZ ((fun p => amount p.2) <$> l)); [|lia].
    apply sumZ_nonneg, Forall_fmap. eapply Forall_impl; [exact Hl'|]. cbn. intros ? []. lia. }
  case_decide as Hge.
  - exists ((fun p => MkStrategyPlan (ar_id p.1) p.2) <$> positive). rewrite HS in Hge.
    split_and!; [done|by apply full_cover_legs|]. rewrite filter_true; [done|]. apply Forall_fmap.
    eapply Forall_impl; [exact Hpos|]. intros p [Hp _]. by apply Z.ltb_lt.
  - rewrite HS in Hge.
    destruct (allocate_integer_weights funds ((fun p => amount p.2) <$> positive)) as (ps & Ea & Es & Ef); [done| |].
    { split; [|by rewrite HS]. apply Forall_fmap. eapply Forall_impl; [exact Hpos|]. cbn. intros ? []. lia. }
    rewrite <- list_fmap_compose in Ea. unfold compose in Ea. rewrite Ea. cbn [mbind result_bind].
    eexists. split_and!; [done| |reflexivity]. unfold money_wf in Hf. apply pro_rata_legs; [lia| |by rewrite HS in Ef|done].
    eapply Forall_impl; [exact Hpos|]. by intros ? [].
Qed.

(** What a plan gives one receivable. *)
Definition leg_for (plans : list StrategyPlan) (id : Uuid) : Z :=
  sumZ (plan_minor <$> List.filter (fun pl => bool_decide (plan_receivableId pl = id)) plans).

Lemma leg_for_cons pl plans id :
  leg_for (pl :: plans) id = (if decide (plan_receivableId pl = id) then plan_minor pl else 0) + leg_for plans id.
Proof.
  unfold leg_for. simpl List.filter. case_decide as H.
  - rewrite bool_decide_eq_true_2 by done. by rewrite fmap_cons, sumZ_cons.
  - by rewrite bool_decide_eq_false_2 by done.
Qed.

Lemma leg_for_absent plans id : id ∉ (plan_receivableId <$> plans) -> leg_for plans id = 0.
Proof.
  induction plans as [|pl plans IH]; [done|]. rewrite fmap_cons, not_elem_of_cons. intros [H1 H2].
  rewrite leg_for_cons, IH by done. by rewrite decide_False by done.
Qed.

Lemma leg_for_present plans pl : NoDup (plan_receivableId <$> plans) -> pl ∈ plans ->
  leg_for plans (plan_receivableId pl) = plan_minor pl.
Proof.
  induction plans as [|q plans IH]; [by intros _ ?%not_elem_of_nil|].
  rewrite fmap_cons, NoDup_cons. intros [Hq Hnd] [<-|Hin]%elem_of_cons; rewrite leg_for_cons.
  - rewrite decide_True by done. rewrite leg_for_absent by done. lia.
  - rewrite decide_False; [rewrite IH by done; lia|]. intros E. apply Hq. rewrite E. by apply list_elem_of_fmap_2.
Qed.

(** Empty legs do not count. *)
Lemma leg_for_filter plans id : Forall (fun pl => 0 <= plan_minor pl) plans ->
  leg_for (List.filter (fun pl => 0 <? plan_minor pl) plans) id = leg_for plans id.
Proof.
  induction 1 as [|pl plans Hp Hl IH]; [done|]. rewrite leg_for_cons. simpl List.filter.
  destruct (Z.ltb_spec 0 (plan_minor pl)); [rewrite leg_for_cons|]; case_decide; lia.
Qed.

(** What a fair split without its empty legs gives. *)
Lemma fair_split_plan funds rs pairs positive legs :
  money_wf funds -> owed (currency funds) rs pairs positive ->
  fair_split (currency funds) (amount funds) (sumZ ((fun p => amount p.2) <$> pairs)) positive legs ->
  let plans := List.filter (fun pl => 0 <? plan_minor pl) legs in
  let S := sumZ ((fun p => amount p.2) <$> pairs) in
  plan_ok funds rs plans /\ sumZ (plan_minor <$> plans) = Z.min (amount funds) S /\
  forall p, p ∈ pairs -> 0 < amount p.2 ->
    Z.abs (leg_for plans (ar_id p.1) * S - Z.min (amount funds) S * amount p.2) < S.
Proof.
  intros Hf Ho [Hl Hs] plans S. fold S in Hl, Hs.
  assert (plan_receivableId <$> legs = (fun p => ar_id p.1) <$> positive) as Hids.
  { clear -Hl. induction Hl as [|p pl ps pls [Hp _] Hl IH]; [done|]. by rewrite !fmap_cons, IH, Hp. }
  assert (NoDup (plan_receivableId <$> legs)) as Hnd by (rewrite Hids; apply (owed_distinct _ _ _ _ Ho)).
  assert (Forall (fun pl => 0 <= plan_minor pl) legs) as Hnn.
  { eapply Forall2_Forall_r; [exact Hl|]. apply Forall_forall. intros p _ pl (_ & [? _] & _). done. }
  assert (sumZ (plan_minor <$> plans) = Z.min (amount funds) S) as Hsum
    by (unfold plans; by rewrite (sumZ_filter_positive plan_minor)).
  split_and!; [split|done|].
  - apply Forall_forall. intros pl [Hin Hp%Z.ltb_lt]%list_elem_of_In%filter_In.
    apply list_elem_of_In, list_elem_of_lookup in Hin as [i Hi].
    destruct (Forall2_lookup_r _ _ _ _ _ Hl Hi) as (p & Hpi & E1 & E2 & E3 & _).
    pose proof (owed_pairs _ _ _ _ Ho) as Hop. rewrite Forall_forall in Hop.
    destruct (Hop p) as (H1 & H2 & _); [by eapply list_elem_of_lookup_2|].
    exists p.1, p.2. unfold plan_minor in *. by split_and!; try lia.
  - eapply sublist_NoDup; [exact Hnd|]. apply fmap_sublist, filter_sublist.
  - change (sumZ (plan_minor <$> plans) <= amount funds). lia.
  - intros p Hin Hp. pose proof (owed_all _ _ _ _ Ho p Hin Hp) as [i Hi]%list_elem_of_lookup.
    destruct (Forall2_lookup_l _ _ _ _ _ Hl Hi) as (pl & Hpl & E1 & _ & _ & E4).
    unfold plans. rewrite leg_for_filter by done. rewrite <- E1.
    rewrite leg_for_present; [done|done|]. by eapply list_elem_of_lookup_2.
Qed.

(** pro_rata keeps the contract while the total debt stays below 2^53 / 5^9
    minor units, where the weights and their scaled copies are exact doubles. *)
#[export] Instance pro_rata_strategy : Strategy allocateProRata (fun _ rs => exact_debt rs).
Proof.
  intros funds rs plans Hf Hex H. pose proof H as H'. unfold allocateProRata in H'.
  apply bind_Ok in H' as (? & Hc & H'). apply bind_Ok in H' as (? & Hd & H').
  apply bind_Ok in H' as (pairs & Ht & _). apply assertSingleCurrency_Ok in Hc. apply assertNoDuplicates_Ok in Hd.
  destruct (Hex pairs Ht) as [Hwf Hb].
  destruct (allocateProRata_reduces funds rs pairs Hf Hc Hd Ht Hwf Hb) as (pos & legs & Ho & Hfair & E).
  rewrite E in H. invert_ok. by apply (fair_split_plan funds rs pairs pos legs Hf Ho Hfair).
Qed.

Lemma withBalance_valid c bal rs : Forall (valid_balance c bal) rs ->
  traverse withBalance rs = Ok ((fun r => (r, MkMoney (bal r) c)) <$> rs).
Proof.
  intros H. apply traverse_Forall2, Forall2_fmap_r, Forall_Forall2_diag.
  eapply Forall_impl; [exact H|]. intros r [Hb _]. unfold withBalance. cbn. by rewrite Hb.
Qed.

(** C7: pro_rata shares the funds in proportion to the balances, cent-exactly.
    On distinct receivables of the funds' currency whose debts total less than
    2^53 / 5^9 minor units, the strategy always succeeds; it distributes exactly
    the smaller of the funds and the total debt, no receivable gets more than it
    owes, and each receivable that owes something gets its exact proportional
    share up to less than one minor unit. *)
Theorem pro_rata_proportional (funds : Money) (rs : list AllocatableReceivable) (bal : AllocatableReceivable -> Z) :
  money_wf funds -> allocatable (currency funds) bal rs ->
  let S := sumZ (bal <$> rs) in
  S * 5 ^ 9 < 2 ^ 53 ->
  exists plans, allocateProRata funds rs = Ok plans /\ plan_ok funds rs plans /\
    sumZ (plan_minor <$> plans) = Z.min (amount funds) S /\
    forall r, r ∈ rs -> 0 < bal r ->
      Z.abs (leg_for plans (ar_id r) * S - Z.min (amount funds) S * bal r) < S.
Proof.
  intros Hf (Hc & Hnd & Hv) S HS. pose proof (withBalance_valid _ _ _ Hv) as Ht.
  set (pairs := (fun r => (r, MkMoney (bal r) (currency funds))) <$> rs) in *.
  assert (sumZ ((fun p => amount p.2) <$> pairs) = S) as ES by (unfold pairs; by rewrite <- list_fmap_compose).
  destruct (allocateProRata_reduces funds rs pairs) as (pos & legs & Ho & Hfair & E); try done.
  { apply Forall_fmap. eapply Forall_impl; [exact Hv|]. by intros r []. }
  { by rewrite ES. }
  destruct (fair_split_plan funds rs pairs pos legs Hf Ho Hfair) as (H1 & H2 & H3). rewrite ES in *.
  eexists. split_and!; [exact E|done|done|]. intros r Hr Hb.
  apply (H3 (r, MkMoney (bal r) (currency funds))); [|done]. apply list_elem_of_fmap. by exists r.
Qed.

Lemma pro_rata_proportional_witness :
  exists plans, allocateProRata (MkMoney 10 KES) sample_debts = Ok plans /\
    sumZ (plan_minor <$> plans) = 10.
Proof.
  destruct (pro_rata_proportional (MkMoney 10 KES) sample_debts debt_balance) as (plans & H & _ & E & _).
  - by vm_compute.
  - exact sample_debts_allocatable.
  - by vm_compute.
  - exists plans. split; [exact H|]. rewrite E. vm_compute. reflexivity.
Defined.

(** Beyond the exact range the double-precision weights break both guarantees:
    the two legs exceed the funds, and one exceeds its balance. *)
Theorem pro_rata_over_allocates_large_balances :
  let rs := [debt "a" 334095451232291576 None; debt "b" 24775948028053978 None] in
  let funds := MkMoney 358871399260345552 KES in
  exists plans, allocateProRata funds rs = Ok plans /\
    sumZ (plan_minor <$> plans) > amount funds /\ leg_for plans "a" > 334095451232291576.
Proof. eexists. split; [vm_compute; reflexivity|]. by vm_compute. Qed.

(** A part can equal its weight, also when the funds fall short. *)
Theorem pro_rata_part_can_equal_its_balance :
  allocateProRata (MkMoney 2 KES) [debt "a" 1 None; debt "b" 1 None; debt "c" 1 None] =
  Ok [MkStrategyPlan "a" (MkMoney 1 KES); MkStrategyPlan "b" (MkMoney 1 KES)].
Proof. vm_compute. reflexivity. Qed.
