(* ===== verification/AllocationEngine.v ===== *)
(** * The allocation engine (src/domain/allocation/engine.ts, events.ts)

    Planning with a strategy, building the append-only rows with their events,
    and reversing a row by compensation.  The theorems about execution use the
    strategies only through the [Strategy] contract. *)

From stdpp Require Import prelude strings list.
From Stdlib Require Import ZArith Lia.
From S2P Require Import Prelude JsNumber JsString JsDate Money Events Allocation Strategies.
Local Open Scope string_scope.
Local Open Scope list_scope.
Local Open Scope Z_scope.
Local Open Scope js_scope.

Inductive AllocationPayload :=
| AllocationExecutedPayload (allocationId : Uuid) (sourceType : AllocationSourceType)
    (sourceId receivableId : Uuid) (amountMinor : Z) (strategy : AllocationStrategy)
| AllocationReversedPayload (allocationId : Uuid) (reason : string) (compensatingId : Uuid).
Notation AllocationEvent := (DomainEvent AllocationPayload).

Definition allocationExecutedEvent (row : Allocation) (clock : Clock) : AllocationEvent :=
  domainEvent "allocation.executed" (al_id row)
    (AllocationExecutedPayload (al_id row) (al_sourceType row) (al_sourceId row) (al_receivableId row)
       (amount (al_amountMinor row)) (al_strategy row)) clock.

Definition allocationReversedEvent (allocationId : Uuid) (reason : string) (compensatingId : Uuid)
    (clock : Clock) : AllocationEvent :=
  domainEvent "allocation.reversed" allocationId
    (AllocationReversedPayload allocationId reason compensatingId) clock.

Record ExecuteAllocationArgs := MkExecuteAllocationArgs {
  ex_source : AllocationSource;
  ex_receivables : list AllocatableReceivable;
  ex_strategy : AllocationStrategy;
  ex_declared : option Declared;
  ex_existing : list Allocation;
}.

Record AllocationExecution := MkAllocationExecution {
  allocations : list Allocation;
  ex_events : list AllocationEvent;
  unapplied : Money;
}.

Definition planWithStrategy (strategy : AllocationStrategy) (funds : Money)
    (receivables : list AllocatableReceivable) (declared : option Declared) : result (list StrategyPlan) :=
  match strategy with
  | fifo => allocateOldestFirst funds receivables
  | pro_rata => allocateProRata funds receivables
  | explicit =>
      match declared with
      | None => Err (DomainError "ALLOCATION_DECLARATION_REQUIRED")
      | Some d => allocateExplicit funds receivables d
      end
  end.

(** Rows of one source. *)
Definition ofSource (sourceId : Uuid) (st : AllocationSourceType) (row : Allocation) : bool :=
  bool_decide (al_sourceId row = sourceId /\ al_sourceType row = st).

Definition nextSequenceNo (rows : list Allocation) (sourceId : Uuid) (st : AllocationSourceType) : Z :=
  foldl (fun mx row => if decide (al_sequenceNo row > mx) then al_sequenceNo row else mx) 0
    (List.filter (ofSource sourceId st) rows) + 1.

(** The row for plan number [index] of a batch. *)
Definition buildRow (source : AllocationSource) (strategy : AllocationStrategy) (allocatedAt : Date)
    (base : Z) (index : nat) (plan : StrategyPlan) : result Allocation :=
  let sequenceNo := base + Z.of_nat index in
  id ← uuidFromSeed ("allocation:" +:+ show_source (src_type source) +:+ ":" +:+ src_id source +:+ ":" +:+
         show_strategy strategy +:+ ":" +:+ show_Z sequenceNo +:+ ":" +:+ plan_receivableId plan +:+ ":" +:+
         show_Z (amount (plan_amount plan)));
  allocationOf id (src_type source) (src_id source) (plan_receivableId plan) (plan_amount plan) strategy
    sequenceNo allocatedAt None.

Definition executeAllocation (args : ExecuteAllocationArgs) (clock : Clock) : result AllocationExecution :=
  let source := ex_source args in
  refuse (ex_strategy args <> explicit /\ ex_declared args <> None) with "ALLOCATION_DECLARATION_NOT_ALLOWED" ;;
  refuse (currency (src_available source) <> src_currency source) with "CURRENCY_MISMATCH" ;;
  plans ← planWithStrategy (ex_strategy args) (src_available source) (ex_receivables args) (ex_declared args);
  let allocated := sumZ (plan_minor <$> plans) in
  refuse (allocated > amount (src_available source)) with "ALLOCATION_EXCEEDS_AVAILABLE" ;;
  let allocatedAt := clock 0%nat in
  let base := nextSequenceNo (ex_existing args) (src_id source) (src_type source) in
  rows ← traversei (buildRow source (ex_strategy args) allocatedAt base) plans;
  let events := imap (fun index row => allocationExecutedEvent row (clock_after (S index) clock)) rows in
  rest ← unappliedRemainder (src_available source) rows;
  Ok (MkAllocationExecution rows events rest).

Record AllocationReversal := MkAllocationReversal {
  original : Allocation;
  compensating : Allocation;
  rev_events : list AllocationEvent;
}.

Definition reverseAllocation (o : Allocation) (reason : string) (clock : Clock) (sequenceNo : option Z)
  : result AllocationReversal :=
  let trimmed := trim reason in
  refuse (trimmed = "") with "REVERSAL_REASON_REQUIRED" ;;
  refuse (al_reversedAt o <> None) with "ALLOCATION_ALREADY_REVERSED" ;;
  refuse (al_reversalOf o <> None) with "ALLOCATION_REVERSAL_NOT_ALLOWED" ;;
  let reversedAt := clock 0%nat in
  id ← uuidFromSeed ("allocation-reversal:" +:+ al_id o);
  c ← allocationOf id (al_sourceType o) (al_sourceId o) (al_receivableId o) (al_amountMinor o) (al_strategy o)
        (default (al_sequenceNo o) sequenceNo) reversedAt (Some (al_id o));
  Ok (MkAllocationReversal (o <| al_reversedAt := Some reversedAt |>) c
        [allocationReversedEvent (al_id o) trimmed (al_id c) (clock_after 1 clock)]).

(** ** Sequence numbers *)

Lemma foldl_max_spec rows m :
  let mx := foldl (fun mx row => if decide (al_sequenceNo row > mx) then al_sequenceNo row else mx) m rows in
  m <= mx /\ Forall (fun row => al_sequenceNo row <= mx) rows.
Proof.
  revert m. induction rows as [|row rows IH]; intros m; cbn [foldl]; [split; [lia|constructor]|].
  destruct (IH (if decide (al_sequenceNo row > m) then al_sequenceNo row else m)) as [H1 H2].
  split; [case_decide; lia|]. constructor; [case_decide; lia|done].
Qed.

Lemma nextSequenceNo_above rows sid st :
  1 <= nextSequenceNo rows sid st /\
  forall row, row ∈ rows -> al_sourceId row = sid -> al_sourceType row = st ->
    al_sequenceNo row < nextSequenceNo rows sid st.
Proof.
  unfold nextSequenceNo. destruct (foldl_max_spec (List.filter (ofSource sid st) rows) 0) as [H1 H2].
  split; [lia|]. intros row Hin Hs Ht. rewrite Forall_forall in H2.
  assert (row ∈ List.filter (ofSource sid st) rows) as Hf.
  { apply list_elem_of_In, filter_In. split; [by apply list_elem_of_In|]. by apply bool_decide_eq_true. }
  specialize (H2 row Hf). lia.
Qed.

(** ** Execution *)

(** The inputs on which each strategy keeps its contract.  Beyond the exact range pro_rata
    can plan more than the funds ([pro_rata_over_allocates_large_balances]), which the
    engine then refuses. *)
Definition plan_domain (strategy : AllocationStrategy) (declared : option Declared)
    (rs : list AllocatableReceivable) : Prop :=
  match strategy with
  | fifo => True
  | explicit => forall d, declared = Some d -> declared_wf d
  | pro_rata => exact_debt rs
  end.

#[export] Instance planWithStrategy_contract strategy declared :
  Strategy (fun funds rs => planWithStrategy strategy funds rs declared) (fun _ => plan_domain strategy declared).
Proof.
  intros funds rs plans Hf Hd H. destruct strategy; cbn in *.
  - by eapply fifo_strategy.
  - destruct declared as [d|]; [|done]. by eapply (explicit_strategy d); [|by apply Hd|].
  - by eapply pro_rata_strategy.
Qed.

Lemma buildRow_Ok source strategy at_ base index plan :
  1 <= base -> 0 < plan_minor plan ->
  exists id, UUID_PATTERN id = true /\
    buildRow source strategy at_ base index plan =
    Ok (MkAllocation id (src_type source) (src_id source) (plan_receivableId plan) (plan_amount plan) strategy
          (base + Z.of_nat index) at_ None None).
Proof.
  intros Hb Hp. unfold buildRow.
  match goal with |- context [uuidFromSeed ?s] => destruct (uuidFromSeed_shape s) as (id & -> & Hid) end.
  exists id. split; [done|]. cbn [mbind result_bind]. unfold allocationOf.
  rewrite decide_False by (apply not_false_iff_true; by apply Z.ltb_lt). by rewrite decide_False by lia.
Qed.

(** The rows a plan turns into. *)
Definition row_of_plan (source : AllocationSource) (strategy : AllocationStrategy) (at_ : Date) (sequenceNo : Z)
    (plan : StrategyPlan) (row : Allocation) : Prop :=
  al_sourceType row = src_type source /\ al_sourceId row = src_id source /\
  al_receivableId row = plan_receivableId plan /\ al_amountMinor row = plan_amount plan /\
  al_strategy row = strategy /\ al_sequenceNo row = sequenceNo /\ al_allocatedAt row = at_ /\
  isActive row = true /\ UUID_PATTERN (al_id row) = true.

Lemma buildRows_Ok source strategy at_ base i plans :
  1 <= base -> Forall (fun pl => 0 < plan_minor pl) plans ->
  exists rows, traversei_from i (buildRow source strategy at_ base) plans = Ok rows /\
    length rows = length plans /\
    forall k plan row, plans !! k = Some plan -> rows !! k = Some row ->
      row_of_plan source strategy at_ (base + Z.of_nat (i + k)) plan row.
Proof.
  intros Hb Hpos. revert i. induction Hpos as [|plan plans Hp Hpos IH]; intros i.
  { exists []. split_and!; [done|done|]. intros k ? ? Hk. by rewrite lookup_nil in Hk. }
  cbn [traversei_from]. destruct (buildRow_Ok source strategy at_ base i plan Hb Hp) as (id & Hid & ->).
  cbn [mbind result_bind]. destruct (IH (S i)) as (rows & -> & Hlen & Hrows). cbn [mbind result_bind].
  eexists. split_and!; [done|cbn; by rewrite Hlen|]. intros [|k] pl row Hpl Hrow; cbn in Hpl, Hrow.
  - injection Hpl as <-. injection Hrow as <-. rewrite Nat.add_0_r. unfold row_of_plan. by split_and!.
  - rewrite Nat.add_succ_r. by apply (Hrows k).
Qed.

Lemma aligned_fmap {A B C} (f : A -> C) (g : B -> C) l k :
  length k = length l -> (forall i x y, l !! i = Some x -> k !! i = Some y -> g y = f x) ->
  g <$> k = f <$> l.
Proof.
  intros Hlen H. apply list_eq_same_length with (n := length l); [by rewrite length_fmap|by rewrite length_fmap|].
  intros i x y Hi Hx Hy. rewrite list_lookup_fmap in Hx. rewrite list_lookup_fmap in Hy.
  destruct (l !! i) eqn:E1, (k !! i) eqn:E2; try done. cbn in *. simplify_eq. by eapply H.
Qed.

Lemma buildRows_positive source strategy at_ base i plans rows :
  traversei_from i (buildRow source strategy at_ base) plans = Ok rows -> Forall (fun pl => 0 < plan_minor pl) plans.
Proof.
  revert i rows. induction plans as [|pl plans IH]; intros i rows H; [constructor|]. cbn [traversei_from] in H.
  apply bind_Ok in H as (row & Hr & (rest & Hrest & _)%bind_Ok). constructor; [|by eapply IH].
  unfold buildRow in Hr. apply bind_Ok in Hr as (id & _ & (Hp & _)%allocationOf_Ok). exact Hp.
Qed.

(** The rows built from any plans: positive, one per plan, numbered without gaps. *)
Lemma built_rows source strategy at_ base plans rows : 1 <= base -> traversei (buildRow source strategy at_ base) plans = Ok rows ->
  Forall (fun pl => 0 < plan_minor pl) plans /\
  row_minor <$> rows = plan_minor <$> plans /\ al_receivableId <$> rows = plan_receivableId <$> plans /\
  al_sequenceNo <$> rows = seqZ base (Z.of_nat (length rows)) /\
  forall P : Allocation -> Prop, (forall pl row s, pl ∈ plans -> row_of_plan source strategy at_ s pl row -> P row) -> Forall P rows.
Proof.
  intros Hb H. pose proof (buildRows_positive _ _ _ _ _ _ _ H) as Hpos.
  destruct (buildRows_Ok source strategy at_ base 0 plans Hb Hpos) as (rows' & E & Hlen & Hrows).
  assert (Ok rows' = Ok rows) as [= ->] by (rewrite <- E; exact H). split; [done|]. split_and!.
  - apply aligned_fmap; [done|]. intros i pl row H1 H2. destruct (Hrows i pl row H1 H2) as (_&_&_&E'&_).
    unfold row_minor, plan_minor. by rewrite E'.
  - apply aligned_fmap; [done|]. intros i pl row H1 H2. by destruct (Hrows i pl row H1 H2) as (_&_&E'&_).
  - apply list_eq_same_length with (n := length rows); [rewrite length_seqZ; lia|by rewrite length_fmap|].
    intros i x y Hi Hx Hy. rewrite list_lookup_fmap in Hx. destruct (rows !! i) as [row|] eqn:Er; [|done].
    cbn in Hx. simplify_eq. rewrite lookup_seqZ_lt in Hy by lia. simplify_eq.
    destruct (plans !! i) as [pl|] eqn:E'; [|apply lookup_ge_None in E'; lia].
    by destruct (Hrows i pl row E' Er) as (_&_&_&_&_&->&_).
  - intros P HP. apply Forall_lookup. intros i row Hi. destruct (plans !! i) as [pl|] eqn:E'.
    + eapply HP; [by eapply list_elem_of_lookup_2|by apply (Hrows i)].
    + apply lookup_ge_None in E'. apply lookup_lt_Some in Hi. lia.
Qed.

Section execute.
  Context (args : ExecuteAllocationArgs) (clock : Clock).
Let source := ex_source args.
Let available := src_available source.
Let base := nextSequenceNo (ex_existing args) (src_id source) (src_type source).

(** The guards in front of the planning. *)
Definition execution_admitted : Prop :=
    ~ (ex_strategy args <> explicit /\ ex_declared args <> None) /\
    currency (src_available (ex_source args)) = src_currency (ex_source args).

(** What an execution promises. *)
Record execution_ok (plans : list StrategyPlan) (e : AllocationExecution) : Prop := {
  exec_rows : Forall (fun row => al_sourceType row = src_type (ex_source args) /\
      al_sourceId row = src_id (ex_source args) /\ al_strategy row = ex_strategy args /\
      al_allocatedAt row = clock 0%nat /\ isActive row = true) (allocations e);
  exec_caps : Forall (fun row => exists r b, r ∈ ex_receivables args /\ ar_id r = al_receivableId row /\
      balanceOf r = Ok b /\ 0 < row_minor row <= amount b /\
      currency (al_amountMinor row) = currency (src_available (ex_source args))) (allocations e);
  exec_distinct : NoDup (al_receivableId <$> allocations e);
  exec_sequence : al_sequenceNo <$> allocations e =
      seqZ (nextSequenceNo (ex_existing args) (src_id (ex_source args)) (src_type (ex_source args)))
        (Z.of_nat (length (allocations e)));
  exec_plan : row_minor <$> allocations e = plan_minor <$> plans;
  exec_conserved : sumZ (row_minor <$> allocations e) + amount (unapplied e) = amount (src_available (ex_source args));
  exec_unapplied : money_wf (unapplied e) /\ currency (unapplied e) = currency (src_available (ex_source args));
  exec_valid : validateAllocations (allocations e) (src_available (ex_source args)) = Ok tt;
  exec_events_per_row : length (ex_events e) = length (allocations e) /\
      forall k row ev, allocations e !! k = Some row -> ex_events e !! k = Some ev ->
        aggregateId ev = al_id row /\ payload ev =
        AllocationExecutedPayload (al_id row) (al_sourceType row) (al_sourceId row) (al_receivableId row)
          (row_minor row) (al_strategy row);
}.

Lemma validateAllocations_pass rows st sid (avail : Money) rest :
  Forall (fun row => al_sourceType row = st /\ al_sourceId row = sid /\
      currency (al_amountMinor row) = currency avail /\ 0 < row_minor row) rows ->
  unappliedRemainder avail rows = Ok rest -> validateAllocations rows avail = Ok tt.
Proof.
  intros Hrows Hu. unfold validateAllocations.
  assert (traverse (validateRow (head rows) avail) rows = Ok ((fun _ => tt) <$> rows)) as ->; [|cbn; by rewrite Hu].
  apply traverse_Forall2, Forall2_fmap_r, Forall_Forall2_diag.
  assert (forall f, head rows = Some f -> al_sourceType f = st /\ al_sourceId f = sid) as Hhd.
  { intros f Hf. destruct Hrows as [|r l Hr _]; [done|]. cbn in Hf. simplify_eq. naive_solver. }
  eapply Forall_impl; [exact Hrows|]. intros row (H1 & H2 & H3 & H4). unfold validateRow. cbn.
  rewrite (decide_False (P := otherSource _ _ = true)).
  - rewrite decide_False by (by intros ?). rewrite decide_False; [done|].
    apply not_false_iff_true. by apply Z.ltb_lt.
  - destruct (head rows) as [f|] eqn:Ef; cbn; [|done]. destruct (Hhd f eq_refl) as [E1 E2].
    rewrite bool_decide_eq_false_2; [done|]. rewrite E1, E2, H1, H2. tauto.
Qed.

Lemma executeAllocation_Ok plans :
  execution_admitted -> money_wf available ->
  planWithStrategy (ex_strategy args) available (ex_receivables args) (ex_declared args) = Ok plans ->
  plan_ok available (ex_receivables args) plans ->
  exists e, executeAllocation args clock = Ok e /\ execution_ok plans e.
Proof.
  intros [G1 G2] Hav Hplan Hok. destruct Hok as [Hcaps Hdist Hceil].
  destruct (nextSequenceNo_above (ex_existing args) (src_id source) (src_type source)) as [Hbase _].
  assert (Forall (fun pl => 0 < plan_minor pl) plans) as Hpos
    by (eapply Forall_impl; [exact Hcaps|]; unfold plan_minor; naive_solver).
  destruct (buildRows_Ok source (ex_strategy args) (clock 0%nat) _ 0 plans Hbase Hpos) as (rows & Erows & _).
  destruct (built_rows source (ex_strategy args) (clock 0%nat) _ plans rows Hbase Erows) as (_ & Hm & Hr & Hseq & Hall).
  rewrite Forall_forall in Hcaps.
  assert (activeMinor rows = sumZ (plan_minor <$> plans)) as Hact.
  { rewrite activeMinor_all, Hm; [done|]. apply Hall. unfold row_of_plan. naive_solver. }
  change (sumZ (plan_minor <$> plans) <= amount available) in Hceil.
  assert (unappliedRemainder available rows =
    Ok (MkMoney (amount available - sumZ (plan_minor <$> plans)) (currency available))) as Hu.
  { apply unappliedRemainder_Ok. rewrite Hact. by split. }
  eexists. split.
  - unfold executeAllocation. fold source. fold available. rewrite decide_False by done.
    rewrite decide_False by (intros Hne; by apply Hne). rewrite Hplan. cbn [mbind result_bind].
    rewrite decide_False by lia. rewrite Erows. cbn [mbind result_bind]. rewrite Hu. cbn [mbind result_bind]. reflexivity.
  - fold available. split; cbn [allocations ex_events unapplied].
    + apply Hall. unfold row_of_plan. naive_solver.
    + apply Hall. intros pl row s Hin (_&_&E1&E2&_). destruct (Hcaps pl Hin) as (r & b & ?).
      exists r, b. unfold row_minor. rewrite E1, E2. naive_solver.
    + by rewrite Hr.
    + exact Hseq.
    + done.
    + cbn. rewrite Hm. fold source available. lia.
    + cbn. split; [unfold money_wf in *; cbn; lia|done].
    + eapply validateAllocations_pass; [|exact Hu]. apply Hall. intros pl row s Hin (E1&E2&_&E3&_).
      destruct (Hcaps pl Hin) as (r & b & ?). unfold row_minor. rewrite E3. naive_solver.
    + split; [by rewrite length_imap|]. intros k row ev H1 H2. rewrite list_lookup_imap, H1 in H2.
      cbn in H2. by simplify_eq.
Qed.

End execute.

(** C2: An admitted execution is decided by its strategy alone, and conserves
    the funds, on valid funds and inputs in the strategy's domain: for pro_rata, valid
    balances that total less than 2^53 / 5^9 minor units (beyond, the R2 re-check can
    fire); for explicit, a split with distinct keys and valid amounts; for fifo, any.
    There the engine fails exactly when the strategy fails, with the strategy's error (the R2
    re-check never fires and no row is refused).  Otherwise its rows sum with the
    unapplied remainder to the available funds, each is a positive active row of
    this source capped by its receivable's balance, no receivable appears twice,
    sequence numbers run on without gaps from the source's last one, the rows pass
    the lane's own validation, and each row has its event. *)
Theorem execution_conserves_funds (args : ExecuteAllocationArgs) (clock : Clock) :
  execution_admitted args -> money_wf (src_available (ex_source args)) ->
  plan_domain (ex_strategy args) (ex_declared args) (ex_receivables args) ->
  match planWithStrategy (ex_strategy args) (src_available (ex_source args)) (ex_receivables args) (ex_declared args) with
  | Err err => executeAllocation args clock = Err err
  | Ok plans => exists e, executeAllocation args clock = Ok e /\ execution_ok args clock plans e
  end.
Proof.
  intros Hadm Hav Hdom.
  destruct (planWithStrategy _ _ _ _) as [plans|err] eqn:E.
  - apply executeAllocation_Ok; try done.
    by apply (planWithStrategy_contract (ex_strategy args) (ex_declared args)).
  - destruct Hadm as [G1 G2]. unfold executeAllocation. rewrite decide_False by done.
    rewrite decide_False by (intros Hne; by apply Hne). by rewrite E.
Qed.

Definition sample_source : AllocationSource := MkAllocationSource source_payment "p" KES (MkMoney 10 KES).
Definition sample_args : ExecuteAllocationArgs :=
  MkExecuteAllocationArgs sample_source sample_debts fifo None [].

Lemma execution_conserves_funds_witness :
  exists e, executeAllocation sample_args (fixed_clock 7) = Ok e /\
    row_minor <$> allocations e = [7; 3] /\ al_sequenceNo <$> allocations e = [1; 2].
Proof.
  pose proof (execution_conserves_funds sample_args (fixed_clock 7)) as H.
  assert (execution_admitted sample_args) as Hadm by (split; [intros [_ Hn]; by apply Hn|reflexivity]).
  specialize (H Hadm ltac:(by vm_compute) I).
  assert (planWithStrategy fifo (MkMoney 10 KES) sample_debts None =
    Ok [MkStrategyPlan "b" (MkMoney 7 KES); MkStrategyPlan "a" (MkMoney 3 KES)]) as E by (vm_compute; reflexivity).
  change (ex_strategy sample_args) with fifo in H.
  change (src_available (ex_source sample_args)) with (MkMoney 10 KES) in H.
  change (ex_receivables sample_args) with sample_debts in H. change (ex_declared sample_args) with (@None Declared) in H.
  rewrite E in H. destruct H as (e & He & Hok). exists e. split; [exact He|].
  rewrite (exec_plan _ _ _ _ Hok), (exec_sequence _ _ _ _ Hok).
  assert (length (allocations e) = 2%nat) as ->.
  { rewrite <- (length_fmap row_minor), (exec_plan _ _ _ _ Hok). reflexivity. }
  split; vm_compute; reflexivity.
Defined.

(** ** Reversal *)

(** The source's rows after a reversal: the original re-stamped in its slot,
    the compensating row appended. *)
Definition after_reversal (rows : list Allocation) (i : nat) (rev : AllocationReversal) : list Allocation :=
  <[i := original rev]> rows ++ [compensating rev].

Lemma sum_active_replace (P : Allocation -> bool) rows i o o' :
  rows !! i = Some o -> P o = true -> P o' = false ->
  sumZ (row_minor <$> List.filter P (<[i := o']> rows)) = sumZ (row_minor <$> List.filter P rows) - row_minor o.
Proof.
  intros Hi Ho Ho'. rewrite insert_take_drop by (by eapply lookup_lt_Some).
  rewrite <- (take_drop_middle rows i o) at 3 by done.
  rewrite !List.filter_app, !fmap_app, !sumZ_app. simpl. rewrite Ho, Ho'. rewrite fmap_cons, sumZ_cons. lia.
Qed.

Lemma filter_filter_andb {A} (f g : A -> bool) l :
  List.filter f (List.filter g l) = List.filter (fun x => g x && f x) l.
Proof. induction l as [|x l IH]; cbn; [done|]. destruct (g x); cbn; by rewrite ?IH. Qed.

Lemma reverseAllocation_Ok o reason clock seq :
  isActive o = true -> trim reason <> "" -> 0 < row_minor o -> 1 <= default (al_sequenceNo o) seq ->
  exists id ev, reverseAllocation o reason clock seq =
    Ok (MkAllocationReversal (o <| al_reversedAt := Some (clock 0%nat) |>)
          (MkAllocation id (al_sourceType o) (al_sourceId o) (al_receivableId o) (al_amountMinor o) (al_strategy o)
             (default (al_sequenceNo o) seq) (clock 0%nat) None (Some (al_id o))) [ev]).
Proof.
  intros [H1 H2]%isActive_true Ht Hp Hs. unfold reverseAllocation.
  rewrite decide_False by done. rewrite (decide_False (P := al_reversedAt o <> None)) by naive_solver.
  rewrite (decide_False (P := al_reversalOf o <> None)) by naive_solver.
  destruct (uuidFromSeed_shape ("allocation-reversal:" +:+ al_id o)) as (id & -> & _). cbn [mbind result_bind].
  unfold allocationOf. rewrite decide_False by (apply not_false_iff_true; by apply Z.ltb_lt).
  rewrite decide_False by lia. cbn [mbind result_bind]. eauto.
Qed.

(** A row that is not active adds nothing to a filtered total. *)
Ltac compensating_counts_zero c :=
  match goal with |- context [sumZ (row_minor <$> List.filter ?f [c])] =>
    change (sumZ (row_minor <$> List.filter f [c])) with 0 end.

(** C11: Reversing a row frees exactly its amount, once, and keeps history.  A
    live row of a source's rows can always be reversed with a reason; then the
    source's applied total and the receivable's applied total both drop by the
    row's amount, every other receivable's total is unchanged, no row is
    removed, the original only gains its reversal stamp, and neither the
    original nor the compensating row can be reversed again. *)
Theorem reversal_frees_exactly_once (rows : list Allocation) (i : nat) (o : Allocation) (reason : string)
    (clock : Clock) (seq : option Z) :
  rows !! i = Some o -> isActive o = true -> trim reason <> "" -> 0 < row_minor o ->
  1 <= default (al_sequenceNo o) seq ->
  exists rev, reverseAllocation o reason clock seq = Ok rev /\
    let rows' := after_reversal rows i rev in
    activeMinor rows' = activeMinor rows - row_minor o /\
    allocatedMinorTo rows' (al_receivableId o) = allocatedMinorTo rows (al_receivableId o) - row_minor o /\
    (forall rid, rid <> al_receivableId o -> allocatedMinorTo rows' rid = allocatedMinorTo rows rid) /\
    length rows' = S (length rows) /\ al_id <$> take (length rows) rows' = al_id <$> rows /\
    original rev = o <| al_reversedAt := Some (clock 0%nat) |> /\
    (forall reason' clock' seq', trim reason' <> "" ->
       reverseAllocation (original rev) reason' clock' seq' = Err (DomainError "ALLOCATION_ALREADY_REVERSED") /\
       reverseAllocation (compensating rev) reason' clock' seq' = Err (DomainError "ALLOCATION_REVERSAL_NOT_ALLOWED")).
Proof.
  intros Hi Hact Ht Hp Hs. destruct (reverseAllocation_Ok o reason clock seq Hact Ht Hp Hs) as (id & ev & E).
  eexists. split; [exact E|]. unfold after_reversal. cbn [original compensating].
  set (o' := o <| al_reversedAt := Some (clock 0%nat) |>). set (c := MkAllocation _ _ _ _ _ _ _ _ _ _).
  assert (isActive o' = false) as Ho' by reflexivity. assert (isActive c = false) as Hc by reflexivity.
  unfold activeMinor, allocatedMinorTo, activeAllocations. repeat setoid_rewrite filter_filter_andb.
  cbn zeta. repeat setoid_rewrite List.filter_app. repeat setoid_rewrite fmap_app. repeat setoid_rewrite sumZ_app.
  split_and!.
  - rewrite (sum_active_replace isActive rows i o o') by done. compensating_counts_zero c. lia.
  - rewrite (sum_active_replace (fun r => isActive r && _) rows i o o').
    + compensating_counts_zero c. lia.
    + done.
    + rewrite Hact. by apply bool_decide_eq_true.
    + by rewrite Ho'.
  - intros rid Hrid. compensating_counts_zero c. rewrite Z.add_0_r. f_equal. f_equal.
    rewrite insert_take_drop by (by eapply lookup_lt_Some). rewrite <- (take_drop_middle rows i o) at 3 by done.
    rewrite !List.filter_app. simpl. rewrite bool_decide_eq_false_2 by congruence. by rewrite andb_false_r.
  - rewrite length_app, length_insert. cbn. lia.
  - rewrite take_app_length' by (by rewrite length_insert). rewrite list_fmap_insert. cbn.
    apply list_insert_id. by rewrite list_lookup_fmap, Hi.
  - done.
  - intros reason' clock' seq' Ht'. unfold reverseAllocation.
    rewrite !(decide_False (P := trim reason' = "")) by done. by split.
Qed.

Definition sample_row : Allocation :=
  MkAllocation "r" source_payment "p" "a" (MkMoney 3 KES) fifo 2 5 None None.

Lemma reversal_frees_exactly_once_witness :
  exists rev, reverseAllocation sample_row "wrong invoice" (fixed_clock 9) None = Ok rev /\
    activeMinor (after_reversal [sample_row] 0 rev) = 0.
Proof.
  destruct (reversal_frees_exactly_once [sample_row] 0 sample_row "wrong invoice" (fixed_clock 9) None)
    as (rev & E & H & _); [reflexivity|reflexivity|by vm_compute|by vm_compute|by vm_compute|].
  exists rev. split; [exact E|]. rewrite H. vm_compute. reflexivity.
Defined.

(** ** A source's rows over time

    Each execution spends at most what validation says is left of the source's
    total; rows are only added by executions and by reversals. *)

Inductive source_step (total : Money) (st : AllocationSourceType) (sid : Uuid)
  : list Allocation -> list Allocation -> Prop :=
| step_execute rows rs strategy declared clock left e :
    unappliedRemainder total rows = Ok left ->
    executeAllocation (MkExecuteAllocationArgs (MkAllocationSource st sid (currency total) left)
                         rs strategy declared rows) clock = Ok e ->
    source_step total st sid rows (rows ++ allocations e)
| step_reverse rows i o reason clock seq rev :
    rows !! i = Some o -> reverseAllocation o reason clock seq = Ok rev ->
    source_step total st sid rows (after_reversal rows i rev).

(** The sequence numbers of the rows that are not compensations. *)
Definition postings (rows : list Allocation) : list Allocation :=
  List.filter (fun row => bool_decide (al_reversalOf row = None)) rows.

Record source_wf (total : Money) (st : AllocationSourceType) (sid : Uuid) (rows : list Allocation) : Prop := {
  src_rows : Forall (fun row => al_sourceType row = st /\ al_sourceId row = sid /\
      currency (al_amountMinor row) = currency total /\ 0 < row_minor row) rows;
  src_covered : activeMinor rows <= amount total;
  src_sequence : NoDup (al_sequenceNo <$> postings rows);
}.

(** Whatever a strategy plans is in the currency of the funds. *)
Lemma plan_currency strategy funds rs declared plans : money_wf funds -> planWithStrategy strategy funds rs declared = Ok plans ->
  Forall (fun pl => currency (plan_amount pl) = currency funds) plans.
Proof.
  intros Hf H. destruct strategy; cbn in H.
  - destruct (fifo_strategy funds rs plans Hf I H) as [Hcaps _ _]. eapply Forall_impl; [exact Hcaps|]. naive_solver.
  - destruct declared as [d|]; [|done]. unfold allocateExplicit in H. invert_ok. apply declare_Ok in E1 as [Hall _].
    apply Forall_fmap. rewrite sort_by_perm. apply Forall_forall. intros e [Hin _]%list_elem_of_In%filter_In.
    rewrite Forall_forall in Hall. destruct (Hall e) as (r & b & ?); [by apply list_elem_of_In|naive_solver].
  - unfold allocateProRata in H. apply bind_Ok in H as (? & Hc%assertSingleCurrency_Ok & (? & _ & (pairs & Hp & H)%bind_Ok)%bind_Ok).
    apply withBalance_Forall2 in Hp as [Hrs Hb]. case_decide; [injection H as <-; constructor|]. case_decide; [injection H as <-|].
    + apply Forall_fmap. rewrite sort_by_perm. apply Forall_forall. intros p [Hin _]%list_elem_of_In%filter_In.
      rewrite <- list_elem_of_In in Hin. rewrite Forall_forall in Hb. rewrite Forall_forall in Hc. cbn. rewrite (proj1 (balanceOf_Ok _ _ (Hb p Hin))).
      apply Hc. rewrite <- Hrs. by apply list_elem_of_fmap_2.
    + apply bind_Ok in H as (parts & Hparts & [= <-]). assert (Forall (fun m => currency m = currency funds) parts) as Hm.
      { unfold Money.allocate in Hparts. invert_ok. apply Forall_fmap, Forall_forall. intros m _. reflexivity. }
      apply Forall_forall. intros pl [Hin _]%list_elem_of_In%filter_In. rewrite <- list_elem_of_In in Hin.
      apply list_elem_of_lookup in Hin as [i Hi]. rewrite list_lookup_imap in Hi. apply fmap_Some in Hi as (p & _ & ->).
      cbn. destruct (parts !! i) as [m|] eqn:E; [|done]. cbn. by eapply Forall_lookup in Hm.
Qed.

(** What any execution that succeeds has stored, whatever its strategy planned. *)
Lemma executed_rows args clock e : money_wf (src_available (ex_source args)) -> executeAllocation args clock = Ok e ->
  Forall (fun row => al_sourceType row = src_type (ex_source args) /\ al_sourceId row = src_id (ex_source args) /\
    currency (al_amountMinor row) = currency (src_available (ex_source args)) /\ 0 < row_minor row /\ isActive row = true) (allocations e) /\
  sumZ (row_minor <$> allocations e) <= amount (src_available (ex_source args)) /\
  al_sequenceNo <$> allocations e =
    seqZ (nextSequenceNo (ex_existing args) (src_id (ex_source args)) (src_type (ex_source args))) (Z.of_nat (length (allocations e))).
Proof.
  intros Hf H. unfold executeAllocation in H. case_decide; [done|]. case_decide; [done|]. apply bind_Ok in H as (plans & Hp & H).
  case_decide as Hsum; [done|]. apply bind_Ok in H as (rows & Hrows & (rest & _ & [= <-])%bind_Ok). cbn [allocations].
  apply built_rows in Hrows as (Hpos & Hm & _ & Hseq & Hall); [|apply nextSequenceNo_above].
  apply plan_currency in Hp; [|done]. rewrite Forall_forall in Hpos. rewrite Forall_forall in Hp. split_and!; [|rewrite Hm; lia|done].
  apply Hall. intros pl row s Hin (E1 & E2 & _ & E3 & _ & _ & _ & E4 & _). unfold row_minor. rewrite E3. split_and!; auto. by apply Hpos.
Qed.

Lemma postings_app rows rows' : postings (rows ++ rows') = postings rows ++ postings rows'.
Proof. apply List.filter_app. Qed.

Lemma postings_active rows : Forall (fun row => isActive row = true) rows -> postings rows = rows.
Proof.
  intros H. apply filter_true. eapply Forall_impl; [exact H|]. intros row [_ Hr]%isActive_true.
  by apply bool_decide_eq_true.
Qed.

Lemma execute_step_wf total st sid rows rs strategy declared clock left e :
  money_wf total -> source_wf total st sid rows -> unappliedRemainder total rows = Ok left ->
  executeAllocation (MkExecuteAllocationArgs (MkAllocationSource st sid (currency total) left)
    rs strategy declared rows) clock = Ok e ->
  source_wf total st sid (rows ++ allocations e).
Proof.
  intros Ht [Hrows Hcov Hseq] Hleft He. apply unappliedRemainder_Ok in Hleft as [_ ->].
  apply executed_rows in He as (H1 & H2 & H4); [|unfold money_wf; cbn; lia]. cbn in H1, H2, H4.
  assert (Forall (fun row => isActive row = true) (allocations e)) as Hall
    by (eapply Forall_impl; [exact H1|]; naive_solver).
  split.
  - apply Forall_app. split; [done|]. eapply Forall_impl; [exact H1|]. naive_solver.
  - rewrite activeMinor_app, (activeMinor_all (allocations e)) by done. lia.
  - rewrite postings_app, (postings_active (allocations e)) by done. rewrite fmap_app. apply NoDup_app.
    split_and!; [done| |rewrite H4; apply NoDup_seqZ].
    intros s Hs Hs'. rewrite H4 in Hs'. apply elem_of_seqZ in Hs' as [Hs' _].
    apply list_elem_of_fmap in Hs as (row & -> & [Hin _]%list_elem_of_In%filter_In).
    rewrite <- list_elem_of_In in Hin. rewrite Forall_forall in Hrows. destruct (Hrows row Hin) as (E1 & E2 & _).
    pose proof (proj2 (nextSequenceNo_above rows sid st) row Hin E2 E1). lia.
Qed.

Lemma reverse_guards o reason clock seq rev : reverseAllocation o reason clock seq = Ok rev ->
  isActive o = true /\ trim reason <> "" /\ 0 < row_minor o /\ 1 <= default (al_sequenceNo o) seq /\
  original rev = o <| al_reversedAt := Some (clock 0%nat) |> /\
  al_reversalOf (compensating rev) = Some (al_id o) /\
  al_sourceType (compensating rev) = al_sourceType o /\ al_sourceId (compensating rev) = al_sourceId o /\
  al_amountMinor (compensating rev) = al_amountMinor o.
Proof.
  unfold reverseAllocation. intros H. case_decide as G1; [done|]. case_decide as G2; [done|].
  case_decide as G3; [done|]. apply bind_Ok in H as (id & _ & H). apply bind_Ok in H as (c & Hc & H).
  apply allocationOf_Ok in Hc as (Hp & Hs & ->). injection H as <-. cbn.
  split_and!; try done. apply isActive_true.
  destruct (al_reversedAt o), (al_reversalOf o); naive_solver.
Qed.

Lemma reverse_step_wf total st sid rows i o reason clock seq rev :
  source_wf total st sid rows -> rows !! i = Some o -> reverseAllocation o reason clock seq = Ok rev ->
  source_wf total st sid (after_reversal rows i rev).
Proof.
  intros [Hrows Hcov Hseq] Hi Hrev.
  destruct (reverse_guards _ _ _ _ _ Hrev) as (Hact & _ & Hp & _ & Ho & Hc & Hc1 & Hc2 & Hc3).
  pose proof (Forall_lookup_1 _ _ _ _ Hrows Hi) as (R1 & R2 & R3 & R4). unfold after_reversal. rewrite Ho. split.
  - apply Forall_app. split; [apply Forall_insert; [done|]; done|]. apply Forall_singleton.
    unfold row_minor in *. rewrite Hc1, Hc2, Hc3. done.
  - rewrite activeMinor_app, activeMinor_cons.
    assert (isActive (compensating rev) = false) as -> by (apply not_true_iff_false; rewrite isActive_true, Hc; by intros []).
    unfold activeMinor at 1, activeAllocations. rewrite (sum_active_replace isActive rows i o) by done.
    fold (activeAllocations rows). fold (activeMinor rows). change (activeMinor []) with 0. lia.
  - rewrite postings_app. assert (postings [compensating rev] = []) as ->.
    { unfold postings. simpl. by rewrite bool_decide_eq_false_2 by (by rewrite Hc). }
    rewrite app_nil_r. apply isActive_true in Hact as [_ Hrev0]. unfold postings in *.
    rewrite <- (take_drop_middle rows i o) in Hseq by done. rewrite insert_take_drop by (by eapply lookup_lt_Some).
    rewrite !List.filter_app, !fmap_app in *. simpl in *. rewrite Hrev0 in *. exact Hseq.
Qed.

(** C10: Whatever sequence of successful executions (by any strategy, over any receivables
    and declared splits, the ones outside the strategies' domain included) and reversals
    a source of valid funds goes through, its rows stay covered: the active rows never sum to more than the
    source's total (R2), every row belongs to the source, is positive and in its
    currency, the lane's validation accepts the rows, and no two postings share
    a sequence number. *)
Theorem source_never_overallocated (total : Money) (st : AllocationSourceType) (sid : Uuid) (rows : list Allocation) :
  money_wf total -> rtc (source_step total st sid) [] rows ->
  source_wf total st sid rows /\ validateAllocations rows total = Ok tt.
Proof.
  intros Ht Hr. assert (source_wf total st sid rows) as Hwf.
  { assert (source_wf total st sid []) as H0 by (split; [constructor|done|constructor]).
    revert H0. induction Hr as [rows|x y z Hxy _ IH]; [done|]. intros Hx. apply IH.
    destruct Hxy; [by eapply execute_step_wf|by eapply reverse_step_wf]. }
  split; [done|]. destruct Hwf as [Hrows Hcov _].
  eapply validateAllocations_pass; [exact Hrows|]. by apply unappliedRemainder_Ok.
Qed.

Lemma source_never_overallocated_witness :
  exists rows, length rows = 3%nat /\ validateAllocations rows (MkMoney 10 KES) = Ok tt.
Proof.
  destruct (executeAllocation sample_args (fixed_clock 7)) as [e|] eqn:He; [|vm_compute in He; discriminate He].
  destruct (allocations e) as [|o l] eqn:El; [exfalso; vm_compute in He; injection He as <-; discriminate El|].
  destruct (reverseAllocation o "error" (fixed_clock 8) None) as [rev|] eqn:Hrev;
    [|exfalso; vm_compute in He; injection He as <-; cbn in El; injection El as <- <-; vm_compute in Hrev; discriminate Hrev].
  exists (after_reversal (allocations e) 0 rev). split.
  - unfold after_reversal. rewrite length_app, length_insert. vm_compute in He. by injection He as <-.
  - apply (source_never_overallocated (MkMoney 10 KES) source_payment "p"); [by vm_compute|].
    eapply rtc_l; [apply (step_execute (MkMoney 10 KES) source_payment "p" [] sample_debts fifo None (fixed_clock 7)
                            (MkMoney 10 KES) e); [reflexivity|exact He]|].
    apply rtc_once. apply (step_reverse _ _ _ _ 0 o "error" (fixed_clock 8) None); [by rewrite El|exact Hrev].
Defined.
