(* ===== verification/AdjustmentEvents.v ===== *)
(** * The adjustments lane's events (src/domain/adjustments/events.ts) *)

From stdpp Require Import prelude strings.
From Stdlib Require Import ZArith.
From S2P Require Import Prelude JsString JsDate Events.
Local Open Scope string_scope.
Local Open Scope Z_scope.

Inductive AdjustmentPayload :=
| RefundRequestedPayload (refundId paymentId : Uuid) (totalMinor : Z) (reason : string)
| RefundCompletedPayload (refundId : Uuid) (completedAt : string)
| CreditNoteIssuedPayload (creditNoteId customerId : Uuid) (totalMinor : Z)
| CreditNoteAppliedPayload (applicationId creditNoteId receivableId : Uuid) (amountMinor : Z)
| CreditBalanceAppliedPayload (customerId : Uuid) (amountMinor : Z) (receivableId : option Uuid).
Notation AdjustmentEvent := (DomainEvent AdjustmentPayload).

Definition refundRequestedEvent (refundId paymentId : Uuid) (totalMinor : Z) (reason : string) (clock : Clock)
  : AdjustmentEvent :=
  domainEvent "adjustment.refundRequested" refundId (RefundRequestedPayload refundId paymentId totalMinor reason) clock.

(** Two readings: [completedAt], then the envelope's [occurredAt]. *)
Definition refundCompletedEvent (refundId : Uuid) (clock : Clock) : AdjustmentEvent :=
  domainEvent "adjustment.refundCompleted" refundId
    (RefundCompletedPayload refundId (toISOString (clock 0%nat))) (clock_after 1 clock).

Definition creditNoteIssuedEvent (creditNoteId customerId : Uuid) (totalMinor : Z) (clock : Clock) : AdjustmentEvent :=
  domainEvent "adjustment.creditNoteIssued" creditNoteId
    (CreditNoteIssuedPayload creditNoteId customerId totalMinor) clock.

Definition creditNoteAppliedEvent (applicationId creditNoteId receivableId : Uuid) (amountMinor : Z) (clock : Clock)
  : AdjustmentEvent :=
  domainEvent "adjustment.creditNoteApplied" creditNoteId
    (CreditNoteAppliedPayload applicationId creditNoteId receivableId amountMinor) clock.

Definition creditBalanceAppliedEvent (customerId : Uuid) (amountMinor : Z) (receivableId : option Uuid) (clock : Clock)
  : AdjustmentEvent :=
  domainEvent "adjustment.creditBalanceApplied" customerId
    (CreditBalanceAppliedPayload customerId amountMinor receivableId) clock.
