(* ===== verification/Refund.v ===== *)
(** * Refunds (src/domain/adjustments/refund.ts)

    The refund machine, and the exact funding of a refund by its rows. *)

From stdpp Require Import prelude strings list relations.
From Stdlib Require Import ZArith Lia.
From S2P Require Import Prelude JsNumber JsString JsDate Money Events AdjustmentEvents.
Local Open Scope string_scope.
Local Open Scope list_scope.
Local Open Scope Z_scope.
Local Open Scope js_scope.

Inductive RefundState := requested | approved | rejected | processing | completed | failed.
#[export] Instance RefundState_eq_dec : EqDecision RefundState.
Proof. solve_decision. Defined.

Inductive RefundAllocationSource := confirmed_funds | credit_balance.
#[export] Instance RefundAllocationSource_eq_dec : EqDecision RefundAllocationSource.
Proof. solve_decision. Defined.

Record Refund := MkRefund {
  rf_id : Uuid;
  rf_paymentId : Uuid;
  requestedBy : string;
  rf_reason : string;
  rf_state : RefundState;
  rf_total : Money;
  rf_externalRef : option string;
  rejectedReason : option string;
  failedReason : option string;
}.

#[export] Instance Refund_eta : Eta Refund := fun r =>
  MkRefund (rf_id r) (rf_paymentId r) (requestedBy r) (rf_reason r) (rf_state r) (rf_total r)
    (rf_externalRef r) (rejectedReason r) (failedReason r).

Record RefundAllocation := MkRefundAllocation {
  ra_id : Uuid;
  ra_refundId : Uuid;
  ra_source : RefundAllocationSource;
  ra_amount : Money;
}.

Record RequestRefundInput := MkRequestRefundInput {
  in_id : Uuid;
  in_paymentId : Uuid;
  in_amount : Money;
  in_reason : string;
  in_requestedBy : string;
}.

Record RefundAllocationInput := MkRefundAllocationInput {
  ri_id : Uuid;
  ri_source : RefundAllocationSource;
  ri_amount : Money;
}.

Definition assertState (r : Refund) (expected : RefundState) : result unit :=
  refuse (rf_state r <> expected) with "REFUND_INVALID_TRANSITION" ;; Ok tt.

Definition requestRefund (input : RequestRefundInput) (ceiling : Money) (clock : Clock)
  : result (Refund * AdjustmentEvent) :=
  refuse (trim (in_reason input) = "") with "REFUND_REASON_REQUIRED" ;;
  refuse (trim (in_requestedBy input) = "") with "REFUND_REQUESTER_REQUIRED" ;;
  refuse (isPositive (in_amount input) = false) with "REFUND_AMOUNT_INVALID" ;;
  c ← compareTo (in_amount input) ceiling;
  refuse (c > 0) with "REFUND_EXCEEDS_CEILING" ;;
  let r := MkRefund (in_id input) (in_paymentId input) (in_requestedBy input) (in_reason input) requested
             (in_amount input) None None None in
  Ok (r, refundRequestedEvent (rf_id r) (rf_paymentId r) (amount (rf_total r)) (rf_reason r) clock).

Definition approveRefund (r : Refund) : result Refund :=
  _ ← assertState r requested; Ok (r <| rf_state := approved |>).

Definition rejectRefund (r : Refund) (reason : option string) : result Refund :=
  _ ← assertState r requested; Ok (r <| rf_state := rejected |> <| rejectedReason := reason |>).

Definition startRefundProcessing (r : Refund) (b2cRef : string) : result Refund :=
  refuse (trim b2cRef = "") with "REFUND_EXTERNAL_REF_REQUIRED" ;;
  match rf_state r with
  | approved => Ok (r <| rf_state := processing |> <| rf_externalRef := Some b2cRef |>)
  | failed =>
      refuse (rf_externalRef r = Some b2cRef) with "REFUND_EXTERNAL_REF_REUSED" ;;
      Ok (r <| rf_state := processing |> <| rf_externalRef := Some b2cRef |>)
  | _ => Err (DomainError "REFUND_INVALID_TRANSITION")
  end.

Definition completeRefund (r : Refund) (clock : Clock) : result (Refund * AdjustmentEvent) :=
  _ ← assertState r processing;
  Ok (r <| rf_state := completed |>, refundCompletedEvent (rf_id r) clock).

Definition failRefund (r : Refund) (reason : option string) : result Refund :=
  _ ← assertState r processing; Ok (r <| rf_state := failed |> <| failedReason := reason |>).

(** One turn of the validation loop: the ids seen so far and the running sum. *)
Definition fundingStep (r : Refund) (acc : list Uuid * Z) (row : RefundAllocationInput)
  : result (list Uuid * Z) :=
  let '(seen, sum) := acc in
  refuse (ri_id row ∈ seen) with "REFUND_ALLOCATION_ID_DUPLICATE" ;;
  refuse (isPositive (ri_amount row) = false) with "REFUND_ALLOCATION_AMOUNT_INVALID" ;;
  refuse (currency (ri_amount row) <> currency (rf_total r)) with "CURRENCY_MISMATCH" ;;
  Ok (ri_id row :: seen, sum + amount (ri_amount row)).

Definition allocateRefundFunds (r : Refund) (rows : list RefundAllocationInput) (consent : option bool)
  : result (list RefundAllocation) :=
  refuse (length rows = 0%nat) with "REFUND_ALLOCATION_EMPTY" ;;
  acc ← foldM (fundingStep r) ([], 0) rows;
  refuse (acc.2 <> amount (rf_total r)) with "REFUND_ALLOCATION_SUM_MISMATCH" ;;
  refuse (existsb (fun row => bool_decide (ri_source row = credit_balance)) rows = true /\ consent <> Some true)
    with "CONSENT_REQUIRED" ;;
  Ok ((fun row => MkRefundAllocation (ri_id row) (rf_id r) (ri_source row) (ri_amount row)) <$> rows).

(** ** The machine *)

Inductive refund_op :=
| OpApprove
| OpReject (reason : option string)
| OpStart (b2cRef : string)
| OpComplete (clock : Clock)
| OpFail (reason : option string).

Definition run_refund_op (r : Refund) (op : refund_op) : result Refund :=
  match op with
  | OpApprove => approveRefund r
  | OpReject reason => rejectRefund r reason
  | OpStart ref => startRefundProcessing r ref
  | OpComplete clock => p ← completeRefund r clock; Ok p.1
  | OpFail reason => failRefund r reason
  end.

(** The edges of the documented machine. *)
Inductive refund_edge : RefundState -> RefundState -> Prop :=
| edge_approve : refund_edge requested approved
| edge_reject : refund_edge requested rejected
| edge_start : refund_edge approved processing
| edge_retry : refund_edge failed processing
| edge_complete : refund_edge processing completed
| edge_fail : refund_edge processing failed.

(** The operation the edge stands for, with arguments it accepts. *)
Definition refund_step (r r' : Refund) : Prop := exists op, run_refund_op r op = Ok r'.

(** Every state after processing began carries a B2C reference. *)
Definition paid_out (s : RefundState) : bool :=
  match s with processing | completed | failed => true | _ => false end.

Lemma run_refund_op_edge r op r' : run_refund_op r op = Ok r' ->
  refund_edge (rf_state r) (rf_state r') /\
  rf_id r' = rf_id r /\ rf_paymentId r' = rf_paymentId r /\ rf_total r' = rf_total r /\
  rf_reason r' = rf_reason r /\ requestedBy r' = requestedBy r /\
  (rf_state r' = processing -> exists ref, rf_externalRef r' = Some ref /\ trim ref <> "" /\ rf_externalRef r <> Some ref \/
     rf_state r = approved /\ rf_externalRef r' = Some ref /\ trim ref <> "") /\
  (rf_state r' <> processing -> rf_externalRef r' = rf_externalRef r).
Proof.
  destruct op; cbn [run_refund_op]; unfold approveRefund, rejectRefund, startRefundProcessing, completeRefund,
    failRefund, assertState; intros H.
  all: try (invert_ok; rewrite N; split_and!; try done; by constructor).
  case_decide as Hb; [done|]. destruct (rf_state r) eqn:Es; try done.
  - invert_ok. split_and!; try done; [constructor|]. intros _. exists b2cRef. by right.
  - invert_ok. split_and!; try done; [constructor|]. intros _. exists b2cRef. by left.
Qed.

Lemma assertState_pass r s : s = rf_state r -> assertState r s = Ok tt.
Proof. intros ->. unfold assertState. rewrite decide_False; [done|]. intros Hne. by apply Hne. Qed.

Lemma fresh_ref (old : option string) : exists ref, trim ref <> "" /\ old <> Some ref.
Proof.
  destruct (decide (old = Some "A")) as [->|Hne].
  - exists "B". split; [by vm_compute|congruence].
  - exists "A". split; [by vm_compute|done].
Qed.

(** The refund code realises exactly the documented machine: from a refund
    in any state, some operation leads to state [s] if and only if the machine
    has that edge; a retry after a failure with the reference of the failed
    attempt is refused. *)
Theorem refund_machine_exact (r : Refund) (s : RefundState) :
  ((exists r', refund_step r r' /\ rf_state r' = s) <-> refund_edge (rf_state r) s) /\
  (forall ref, rf_state r = failed -> rf_externalRef r = Some ref -> ~ is_ok (startRefundProcessing r ref)).
Proof.
  split; [split|].
  - intros (r' & [op H] & <-). by apply (run_refund_op_edge r op).
  - intros He. destruct (fresh_ref (rf_externalRef r)) as (ref & Ht & Hne).
    unfold refund_step. inversion He as [E|E|E|E|E|E].
    + eexists. split; [exists OpApprove; cbn; unfold approveRefund; rewrite assertState_pass by done; reflexivity|done].
    + eexists. split; [exists (OpReject None); cbn; unfold rejectRefund; rewrite assertState_pass by done; reflexivity|done].
    + eexists. split; [exists (OpStart ref); cbn; unfold startRefundProcessing; rewrite decide_False by done; rewrite <- E; reflexivity|done].
    + eexists. split; [exists (OpStart ref); cbn; unfold startRefundProcessing; rewrite decide_False by done; rewrite <- E, decide_False by done; reflexivity|done].
    + eexists. split; [exists (OpComplete (fixed_clock 0)); cbn; unfold completeRefund; rewrite assertState_pass by done; reflexivity|done].
    + eexists. split; [exists (OpFail None); cbn; unfold failRefund; rewrite assertState_pass by done; reflexivity|done].
  - intros ref Hs Hr. unfold startRefundProcessing. case_decide; [by intros []|]. rewrite Hs. rewrite decide_True by done. by intros [].
Qed.

Record refund_wf (r : Refund) : Prop := {
  rf_positive : 0 < amount (rf_total r);
  rf_ref : if paid_out (rf_state r) then exists ref, rf_externalRef r = Some ref /\ trim ref <> ""
           else rf_externalRef r = None;
}.

Lemma refund_step_wf r r' : refund_step r r' -> refund_wf r -> refund_wf r'.
Proof.
  intros [op H] [Hp Hr]. destruct (run_refund_op_edge r op r' H) as (He & _ & _ & Ht & _ & _ & Hproc & Hkeep).
  split; [by rewrite Ht|]. inversion He as [E1 E2|E1 E2|E1 E2|E1 E2|E1 E2|E1 E2]; rewrite <- E1 in *; rewrite <- E2 in *; cbn in *.
  all: try (by rewrite Hkeep by done).
  all: destruct (Hproc eq_refl) as (ref & [(? & ? & _)|(_ & ? & ?)]); by exists ref.
Qed.

(** A refund never pays out more than its ceiling and its facts never
    change.  Whatever operations follow an accepted request, the total is the
    requested amount, positive and within the ceiling of the same currency; id,
    payment, reason and requester are the request's; money moves only under a
    non-blank B2C reference, and none is recorded before processing; once
    completed or rejected, every operation is refused. *)
Theorem refund_within_ceiling (input : RequestRefundInput) (ceiling : Money) (clock : Clock)
    (r0 : Refund) (e : AdjustmentEvent) (r : Refund) :
  requestRefund input ceiling clock = Ok (r0, e) -> rtc refund_step r0 r ->
  rf_total r = in_amount input /\ 0 < amount (rf_total r) <= amount ceiling /\
  currency (rf_total r) = currency ceiling /\
  rf_id r = in_id input /\ rf_paymentId r = in_paymentId input /\
  rf_reason r = in_reason input /\ requestedBy r = in_requestedBy input /\
  refund_wf r /\ rtc refund_edge requested (rf_state r) /\
  (rf_state r = completed \/ rf_state r = rejected -> forall op, refused (run_refund_op r op)).
Proof.
  intros Hreq Hrun. unfold requestRefund in Hreq.
  repeat (case_decide; [done|]). apply bind_Ok in Hreq as (c & Hc & Hreq).
  apply compareTo_Ok in Hc as [Hcur Hcmp]. case_decide as Hcc; [done|]. injection Hreq as <- _.
  assert (0 < amount (in_amount input)) as Hpos by (by apply isPositive_true).
  set (r0 := MkRefund _ _ _ _ _ _ _ _ _) in *.
  assert (refund_wf r0) as Hwf0 by (split; done).
  assert (refund_wf r /\ rtc refund_edge (rf_state r0) (rf_state r) /\ rf_total r = rf_total r0 /\ rf_id r = rf_id r0 /\
    rf_paymentId r = rf_paymentId r0 /\ rf_reason r = rf_reason r0 /\ requestedBy r = requestedBy r0)
    as (Hwf & Hedges & -> & -> & -> & -> & ->).
  { clearbody r0. clear -Hrun Hwf0. induction Hrun as [|x y z Hxy _ IH]; [by split_and!|].
    specialize (IH (refund_step_wf x y Hxy Hwf0)). destruct Hxy as [op Hop].
    destruct (run_refund_op_edge x op y Hop) as (He & E1 & E2 & E3 & E4 & E5 & _).
    destruct IH as (I1 & I2 & I3 & I4 & I5 & I6 & I7). split_and!; try congruence. by eapply rtc_l. }
  split_and!; try done; [cbn; lia|]. intros Hend op. 
  destruct op; cbn; unfold approveRefund, rejectRefund, startRefundProcessing, completeRefund, failRefund, assertState;
    destruct Hend as [->| ->]; try done; by case_decide.
Qed.

Definition sample_request : RequestRefundInput :=
  MkRequestRefundInput "r" "p" (MkMoney 40 KES) "duplicate" "ops".

Lemma refund_within_ceiling_witness :
  exists r, rf_state r = processing /\ 0 < amount (rf_total r) <= 50.
Proof.
  destruct (requestRefund sample_request (MkMoney 50 KES) (fixed_clock 0)) as [[r0 e]|] eqn:E; [|vm_compute in E; discriminate E].
  destruct (approveRefund r0) as [r1|] eqn:E1; [|vm_compute in E; injection E as <- <-; vm_compute in E1; discriminate E1].
  destruct (startRefundProcessing r1 "B2C1") as [r2|] eqn:E2;
    [|vm_compute in E; injection E as <- <-; vm_compute in E1; injection E1 as <-; vm_compute in E2; discriminate E2].
  exists r2. split; [by vm_compute in E; injection E as <- <-; vm_compute in E1; injection E1 as <-; vm_compute in E2; injection E2 as <-|].
  apply (refund_within_ceiling sample_request (MkMoney 50 KES) (fixed_clock 0) r0 e r2 E).
  eapply rtc_l; [exists OpApprove; exact E1|]. apply rtc_once. by exists (OpStart "B2C1").
Defined.

(** ** Funding *)

Definition row_valid (r : Refund) (row : RefundAllocationInput) : Prop :=
  0 < amount (ri_amount row) /\ currency (ri_amount row) = currency (rf_total r).

Lemma fundingStep_cases r seen sum row :
  fundingStep r (seen, sum) row = Ok (ri_id row :: seen, sum + amount (ri_amount row)) /\ ri_id row ∉ seen /\ row_valid r row \/
  (exists err, fundingStep r (seen, sum) row = Err err) /\ ~ (ri_id row ∉ seen /\ row_valid r row).
Proof.
  unfold fundingStep, row_valid. case_decide as G1; [right; split; [eauto|tauto]|].
  case_decide as G2.
  { right. split; [eauto|]. intros (_ & Hp%Z.ltb_lt & _). unfold isPositive in G2. congruence. }
  case_decide as G3; [right; split; [eauto|tauto]|]. left. apply isPositive_true in G2. done.
Qed.

Lemma funding_loop r rows seen sum : foldM (fundingStep r) (seen, sum) rows =
    Ok (reverse (ri_id <$> rows) ++ seen, sum + sumZ ((fun row => amount (ri_amount row)) <$> rows)) \/
  ~ is_ok (foldM (fundingStep r) (seen, sum) rows).
Proof.
  revert seen sum. induction rows as [|row rows IH]; intros seen sum; cbn [foldM].
  { left. cbn. by rewrite Z.add_0_r. }
  destruct (fundingStep_cases r seen sum row) as [(-> & _)|[(err & ->) _]]; [|right; by intros []].
  cbn [mbind result_bind].
  destruct (IH (ri_id row :: seen) (sum + amount (ri_amount row))) as [->|H']; [left|by right].
  rewrite !fmap_cons, reverse_cons, sumZ_cons, <- app_assoc. cbn. f_equal. f_equal. lia.
Qed.

Lemma funding_loop_iff r rows seen sum : is_ok (foldM (fundingStep r) (seen, sum) rows) <->
  NoDup (ri_id <$> rows) /\ Forall (fun row => ri_id row ∉ seen) rows /\ Forall (row_valid r) rows.
Proof.
  revert seen sum. induction rows as [|row rows IH]; intros seen sum; cbn [foldM].
  { split; [intros _; split_and!; constructor|done]. }
  rewrite fmap_cons, NoDup_cons, !Forall_cons.
  destruct (fundingStep_cases r seen sum row) as [(-> & G1 & G2)|[(err & ->) G]]; [|split; [by intros []|tauto]].
  cbn [mbind result_bind]. rewrite IH. split.
  - intros (H1 & H2 & H3). rewrite Forall_forall in H2. split_and!; try done.
    + intros (x & Hx & Hin)%list_elem_of_fmap. specialize (H2 x Hin). set_solver.
    + apply Forall_forall. intros x Hin. specialize (H2 x Hin). set_solver.
  - intros ([H1 H2] & [_ H3] & [_ H4]). split_and!; try done. rewrite Forall_forall in *. intros x Hin.
    apply not_elem_of_cons. split; [|by apply H3]. intros E. apply H1. rewrite <- E. by apply list_elem_of_fmap_2.
Qed.

(** A refund is funded exactly or not at all.  The funding rows are accepted
    if and only if there is at least one, their ids are distinct, each is
    positive and in the refund's currency, they sum to the refund's total to the
    minor unit, and consent was explicit whenever a row draws on credit balance;
    the persisted rows are then those rows, bound to the refund. *)
Theorem refund_funded_exactly (r : Refund) (rows : list RefundAllocationInput) (consent : option bool)
    (out : list RefundAllocation) :
  allocateRefundFunds r rows consent = Ok out <->
  rows <> [] /\ NoDup (ri_id <$> rows) /\ Forall (row_valid r) rows /\
  sumZ ((fun row => amount (ri_amount row)) <$> rows) = amount (rf_total r) /\
  (Exists (fun row => ri_source row = credit_balance) rows -> consent = Some true) /\
  out = (fun row => MkRefundAllocation (ri_id row) (rf_id r) (ri_source row) (ri_amount row)) <$> rows.
Proof.
  unfold allocateRefundFunds.
  assert ((existsb (fun row => bool_decide (ri_source row = credit_balance)) rows = true) <->
    Exists (fun row => ri_source row = credit_balance) rows) as Hex.
  { rewrite existsb_exists, Exists_exists. setoid_rewrite list_elem_of_In. by setoid_rewrite bool_decide_eq_true. }
  case_decide as G1. { apply length_zero_iff_nil in G1. split; [done|tauto]. }
  assert (rows <> []) as Hne by (by intros ->).
  pose proof (funding_loop_iff r rows [] 0) as Hiff.
  destruct (funding_loop r rows [] 0) as [E|E].
  - rewrite E in *. cbn [mbind result_bind snd]. destruct Hiff as [Hiff _]. destruct (Hiff I) as (H1 & _ & H3).
    rewrite Z.add_0_l. case_decide as G2; [split; [done|tauto]|].
    case_decide as G3; rewrite Hex in G3.
    + split; [done|tauto].
    + split; [intros [= <-]|by intros (_ & _ & _ & _ & _ & ->)]. split_and!; try done.
      intros Hx. destruct (decide (consent = Some true)); tauto.
  - split.
    + intros H. apply bind_Ok in H as (acc & H & _). by rewrite H in E.
    + intros (_ & H1 & H2 & _). exfalso. apply E, Hiff. split_and!; try done. apply Forall_forall. set_solver.
Qed.
