(* ===== verification/CreditBalance.v ===== *)
(** * Customer credit balances (src/domain/adjustments/credit-balance.ts)

    An append-only log of movements; the available balance is always recomputed
    from the log. *)

From stdpp Require Import prelude strings list relations.
From Stdlib Require Import ZArith Lia.
From S2P Require Import Prelude JsNumber JsString JsDate Money Events AdjustmentEvents.
Local Open Scope string_scope.
Local Open Scope list_scope.
Local Open Scope Z_scope.
Local Open Scope js_scope.

Inductive CreditBalanceMovementKind := overpayment | credit_note_excess | applied_to_receivable.
#[export] Instance CreditBalanceMovementKind_eq_dec : EqDecision CreditBalanceMovementKind.
Proof. solve_decision. Defined.

Inductive CreditBalanceDirection := increase | decrease.
#[export] Instance CreditBalanceDirection_eq_dec : EqDecision CreditBalanceDirection.
Proof. solve_decision. Defined.

Record CreditBalanceMovement := MkCreditBalanceMovement {
  mv_id : Uuid;
  mv_customerId : Uuid;
  mv_kind : CreditBalanceMovementKind;
  mv_direction : CreditBalanceDirection;
  mv_amount : Money;
  mv_currency : Currency;
  mv_paymentRef : option string;
  mv_receivableId : option Uuid;
  mv_sourceId : option Uuid;
  mv_occurredAt : Date;
}.

Record CustomerCreditBalance := MkCustomerCreditBalance {
  cb_customerId : Uuid;
  cb_currency : Currency;
  movements : list CreditBalanceMovement;
}.

(** [MOVEMENT_CONTRACT]: the direction of a kind and the reference it needs. *)
Definition contract_direction (k : CreditBalanceMovementKind) : CreditBalanceDirection :=
  match k with overpayment => increase | credit_note_excess => increase | applied_to_receivable => decrease end.
Definition contract_requires (k : CreditBalanceMovementKind) (mv : CreditBalanceMovement) : option string :=
  match k with
  | overpayment => mv_paymentRef mv
  | credit_note_excess => mv_sourceId mv
  | applied_to_receivable => mv_receivableId mv
  end.

Definition openCreditBalance (customerId : Uuid) (c : Currency) : CustomerCreditBalance :=
  MkCustomerCreditBalance customerId c [].

Definition availableStep (c : Currency) (minor : Z) (mv : CreditBalanceMovement) : result Z :=
  refuse (mv_currency mv <> c) with "CURRENCY_MISMATCH" ;;
  Ok (minor + match mv_direction mv with increase => amount (mv_amount mv) | decrease => - amount (mv_amount mv) end).

Definition availableOf (b : CustomerCreditBalance) : result Money :=
  minor ← foldM (availableStep (cb_currency b)) 0 (movements b);
  refuse (minor < 0) with "CREDIT_BALANCE_CORRUPT" ;;
  Money.ofMinor (Big minor) (cb_currency b).

(** A missing reference and an empty one are both falsy. *)
Definition falsy (s : option string) : bool := match s with None => true | Some s => bool_decide (s = "") end.

Definition appendMovement (b : CustomerCreditBalance) (mv : CreditBalanceMovement) : result CustomerCreditBalance :=
  refuse (mv_customerId mv <> cb_customerId b) with "CREDIT_BALANCE_CUSTOMER_MISMATCH" ;;
  refuse (mv_currency mv <> cb_currency b) with "CURRENCY_MISMATCH" ;;
  refuse (isPositive (mv_amount mv) = false) with "CREDIT_BALANCE_AMOUNT_INVALID" ;;
  refuse (mv_direction mv <> contract_direction (mv_kind mv) \/ falsy (contract_requires (mv_kind mv) mv) = true)
    with "CREDIT_BALANCE_MOVEMENT_INCONSISTENT" ;;
  Ok (MkCustomerCreditBalance (cb_customerId b) (cb_currency b) (movements b ++ [mv])).

Definition recordOverpayment (b : CustomerCreditBalance) (paymentRef : string) (amt : Money) (clock : Clock)
    (movementId : Uuid) : result (CustomerCreditBalance * CreditBalanceMovement) :=
  refuse (trim paymentRef = "") with "CREDIT_BALANCE_PAYMENT_REF_REQUIRED" ;;
  refuse (isPositive amt = false) with "CREDIT_BALANCE_AMOUNT_INVALID" ;;
  refuse (currency amt <> cb_currency b) with "CURRENCY_MISMATCH" ;;
  let mv := MkCreditBalanceMovement movementId (cb_customerId b) overpayment increase amt (cb_currency b)
              (Some paymentRef) None None (clock 0%nat) in
  b' ← appendMovement b mv; Ok (b', mv).

(** [consent] is the option's value after its default of [true]. *)
Definition applyCreditBalance (b : CustomerCreditBalance) (receivableId : Uuid) (amt : Money) (clock : Clock)
    (consent : bool) (movementId : Uuid) : result (CustomerCreditBalance * CreditBalanceMovement * AdjustmentEvent) :=
  refuse (consent = false) with "CONSENT_REQUIRED" ;;
  refuse (isPositive amt = false) with "CREDIT_BALANCE_AMOUNT_INVALID" ;;
  refuse (currency amt <> cb_currency b) with "CURRENCY_MISMATCH" ;;
  available ← availableOf b;
  c ← compareTo amt available;
  refuse (c > 0) with "INSUFFICIENT_CREDIT_BALANCE" ;;
  let mv := MkCreditBalanceMovement movementId (cb_customerId b) applied_to_receivable decrease amt (cb_currency b)
              None (Some receivableId) None (clock 0%nat) in
  b' ← appendMovement b mv;
  Ok (b', mv, creditBalanceAppliedEvent (cb_customerId b) (amount amt) (Some receivableId) (clock_after 1 clock)).

(** ** The log's arithmetic *)

Definition signed (mv : CreditBalanceMovement) : Z :=
  match mv_direction mv with increase => amount (mv_amount mv) | decrease => - amount (mv_amount mv) end.

Definition log_total (b : CustomerCreditBalance) : Z := sumZ (signed <$> movements b).

(** Every movement follows the contract of its kind. *)
Record movement_wf (b : CustomerCreditBalance) (mv : CreditBalanceMovement) : Prop := {
  mv_owner : mv_customerId mv = cb_customerId b;
  mv_money : mv_currency mv = cb_currency b;
  mv_positive : 0 < amount (mv_amount mv);
  mv_signed : mv_direction mv = contract_direction (mv_kind mv);
  mv_traceable : falsy (contract_requires (mv_kind mv) mv) = false;
}.

Record balance_wf (b : CustomerCreditBalance) : Prop := {
  log_wf : Forall (movement_wf b) (movements b);
  log_covered : forall n, 0 <= sumZ (signed <$> take n (movements b));
}.

Lemma available_fold c ms z : Forall (fun mv => mv_currency mv = c) ms ->
  foldM (availableStep c) z ms = Ok (z + sumZ (signed <$> ms)).
Proof.
  intros H. revert z. induction H as [|mv ms Hmv Hms IH]; intros z; cbn [foldM].
  { change (sumZ (signed <$> [])) with 0. by rewrite Z.add_0_r. }
  rewrite fmap_cons, sumZ_cons. unfold availableStep. rewrite decide_False by (intros Hne; by apply Hne).
  cbn [mbind result_bind]. rewrite IH. f_equal. unfold signed. lia.
Qed.

Lemma log_total_nonneg b : balance_wf b -> 0 <= log_total b.
Proof. intros [_ H]. specialize (H (length (movements b))). by rewrite firstn_all in H. Qed.

Lemma availableOf_wf b : balance_wf b -> availableOf b = Ok (MkMoney (log_total b) (cb_currency b)).
Proof.
  intros Hb. unfold availableOf. pose proof (log_total_nonneg b Hb) as Hn. destruct Hb as [Hw _].
  rewrite available_fold by (eapply Forall_impl; [exact Hw|]; by intros mv []).
  cbn [mbind result_bind]. unfold log_total in *. rewrite decide_False by lia. by apply ofMinor_Big.
Qed.

Lemma appendMovement_iff b mv b' : appendMovement b mv = Ok b' <->
  movement_wf b mv /\ b' = MkCustomerCreditBalance (cb_customerId b) (cb_currency b) (movements b ++ [mv]).
Proof.
  unfold appendMovement. split.
  - intros H. do 4 (case_decide; [done|]). injection H as <-. split; [|done].
    split; try done; [by apply isPositive_true|by destruct (decide (mv_direction mv = contract_direction (mv_kind mv))); naive_solver|].
    apply not_true_is_false. tauto.
  - intros [[H1 H2 H3 H4 H5] ->]. rewrite decide_False by (intros Hne; by apply Hne).
    rewrite decide_False by (intros Hne; by apply Hne).
    rewrite decide_False by (apply not_false_iff_true; by apply Z.ltb_lt).
    rewrite decide_False; [done|]. intros [Hne|Ht]; [done|congruence].
Qed.

Lemma append_wf b mv b' : balance_wf b -> 0 <= log_total b + signed mv -> appendMovement b mv = Ok b' ->
  balance_wf b' /\ log_total b' = log_total b + signed mv /\ cb_currency b' = cb_currency b /\
  movements b' = movements b ++ [mv].
Proof.
  intros [Hw Hc] Hn [Hmv ->]%appendMovement_iff. unfold log_total. cbn.
  split_and!; [|by rewrite sumZ_fmap_snoc|done|done]. split; cbn.
  - apply Forall_app. split; [eapply Forall_impl; [exact Hw|]; by intros m []|].
    apply Forall_singleton. by destruct Hmv.
  - intros n. destruct (decide (n <= length (movements b))%nat).
    + by rewrite take_app_le by done.
    + rewrite take_ge by (rewrite length_app; cbn; lia). by rewrite sumZ_fmap_snoc.
Qed.

Lemma falsy_blank s : trim s <> "" -> falsy (Some s) = false.
Proof. intros H. cbn. apply bool_decide_eq_false_2. by intros ->. Qed.

(** ** The balance over time *)

(** Credits arrive as overpayments and as movements routed from credit notes;
    they leave by application to receivables. *)
Inductive balance_step : CustomerCreditBalance -> CustomerCreditBalance -> Prop :=
| step_overpayment b ref amt clock id b' mv :
    recordOverpayment b ref amt clock id = Ok (b', mv) -> balance_step b b'
| step_excess b mv b' :
    mv_kind mv = credit_note_excess -> appendMovement b mv = Ok b' -> balance_step b b'
| step_apply b rid amt clock consent id b' mv e :
    applyCreditBalance b rid amt clock consent id = Ok (b', mv, e) -> balance_step b b'.

Lemma applyCreditBalance_Ok b rid amt clock consent id b' mv e : balance_wf b ->
  applyCreditBalance b rid amt clock consent id = Ok (b', mv, e) ->
  consent = true /\ 0 < amount amt <= log_total b /\ currency amt = cb_currency b /\ rid <> "" /\
  signed mv = - amount amt /\ appendMovement b mv = Ok b'.
Proof.
  intros Hb H. unfold applyCreditBalance in H. case_decide as G1; [done|]. case_decide as G2; [done|].
  case_decide as G3; [done|]. rewrite availableOf_wf in H by done. cbn [mbind result_bind] in H.
  apply bind_Ok in H as (c & Hc & H). apply compareTo_Ok in Hc as [_ Hc]. cbn in Hc.
  case_decide as G4; [done|]. apply bind_Ok in H as (b1 & Ha & H). injection H as -> <- _.
  apply isPositive_true in G2. split_and!; try done; [by apply not_false_is_true|lia|].
  apply appendMovement_iff in Ha as [[_ _ _ _ Ht] _]. cbn in Ht. by apply bool_decide_eq_false in Ht.
Qed.

Lemma balance_step_wf b b' : balance_step b b' -> balance_wf b ->
  balance_wf b' /\ exists mv, movements b' = movements b ++ [mv].
Proof.
  intros Hs Hb. pose proof (log_total_nonneg b Hb) as Hn.
  assert (exists mv, appendMovement b mv = Ok b' /\ 0 <= log_total b + signed mv) as (mv & Ha & Hs').
  { destruct Hs as [b ref amt clock id b' mv H|b mv b' Hk H|b rid amt clock consent id b' mv e H].
    - unfold recordOverpayment in H. do 3 (case_decide; [done|]). apply bind_Ok in H as (b1 & Ha & H).
      injection H as -> <-. eexists. split; [exact Ha|]. apply appendMovement_iff in Ha as [[_ _ Hp _ _] _].
      unfold signed. cbn in *. lia.
    - exists mv. split; [done|]. apply appendMovement_iff in H as [[_ _ Hp Hd _] _].
      unfold signed. rewrite Hd, Hk. cbn. lia.
    - apply applyCreditBalance_Ok in H as (_ & Hr & _ & _ & Hs & Ha); [|done]. exists mv. split; [done|]. lia. }
  destruct (append_wf b mv b' Hb Hs' Ha) as (Hb' & _ & _ & Hm). eauto.
Qed.

(** A customer's credit balance is never negative and its log is
    append-only.  Whatever sequence of overpayments, credit-note routings and
    applications follows the opening, every prefix of the log sums to a
    non-negative amount, every movement follows its kind's contract, and the
    recomputation of the available balance succeeds with increases minus
    decreases; a further step only appends one movement. *)
Theorem credit_balance_never_negative (customerId : Uuid) (c : Currency) (b b' : CustomerCreditBalance) :
  rtc balance_step (openCreditBalance customerId c) b -> balance_step b b' ->
  balance_wf b /\ availableOf b = Ok (MkMoney (log_total b) (cb_currency b)) /\ 0 <= log_total b /\
  exists mv, movements b' = movements b ++ [mv].
Proof.
  intros Hr Hs. assert (balance_wf b) as Hb.
  { assert (balance_wf (openCreditBalance customerId c)) as H0 by (split; [constructor|by intros []]).
    revert H0. clear Hs. induction Hr as [|x y z Hxy _ IH]; [done|]. intros Hx. apply IH. by eapply balance_step_wf. }
  split_and!; [done|by apply availableOf_wf|by apply log_total_nonneg|]. by apply (balance_step_wf b b').
Qed.

Lemma credit_balance_never_negative_witness :
  exists b, 0 <= log_total b /\ availableOf b = Ok (MkMoney 30 KES).
Proof.
  set (b0 := openCreditBalance "c" KES).
  set (m1 := MkCreditBalanceMovement "m1" "c" overpayment increase (MkMoney 30 KES) KES (Some "ref") None None 0).
  set (b1 := MkCustomerCreditBalance "c" KES [m1]).
  destruct (applyCreditBalance b1 "r" (MkMoney 10 KES) (fixed_clock 0) true "m2") as [[[b2 m2] e]|] eqn:E;
    [|vm_compute in E; discriminate E].
  exists b1. destruct (credit_balance_never_negative "c" KES b1 b2) as (_ & H & Hn & _).
  - apply rtc_once. by apply (step_overpayment b0 "ref" (MkMoney 30 KES) (fixed_clock 0) "m1" b1 m1).
  - exact (step_apply _ _ _ _ _ _ _ _ _ E).
  - split; [exact Hn|]. rewrite H. vm_compute. reflexivity.
Defined.

(** Applying credit takes exactly what was asked, never more than there is.
    On a sound balance, an application to a receivable is accepted if and only
    if consent was given and the amount is positive, in the balance's currency
    and at most the available balance; it then lowers the available balance by
    exactly that amount.  A valid request above the balance is refused with
    INSUFFICIENT_CREDIT_BALANCE. *)
Theorem credit_application_exact (b : CustomerCreditBalance) (rid : Uuid) (amt : Money) (clock : Clock)
    (consent : bool) (id : Uuid) :
  balance_wf b -> rid <> "" ->
  (is_ok (applyCreditBalance b rid amt clock consent id) = true <->
     consent = true /\ 0 < amount amt <= log_total b /\ currency amt = cb_currency b) /\
  (forall b' mv e, applyCreditBalance b rid amt clock consent id = Ok (b', mv, e) ->
     balance_wf b' /\ availableOf b' = Ok (MkMoney (log_total b - amount amt) (cb_currency b))) /\
  (consent = true -> currency amt = cb_currency b -> log_total b < amount amt ->
     applyCreditBalance b rid amt clock consent id = Err (DomainError "INSUFFICIENT_CREDIT_BALANCE")).
Proof.
  intros Hb Hrid. pose proof (log_total_nonneg b Hb) as Hn. split_and!.
  - split.
    + intros [[[b' mv] e] H]%is_ok_true. by apply applyCreditBalance_Ok in H as (? & ? & ? & _).
    + intros (-> & Ha & Hc). unfold applyCreditBalance. rewrite decide_False by done.
      rewrite decide_False by (apply not_false_iff_true, Z.ltb_lt; lia).
      rewrite decide_False by (intros Hne; by apply Hne). rewrite availableOf_wf by done.
      cbn [mbind result_bind]. rewrite compareTo_same by done. cbn [mbind result_bind amount].
      rewrite decide_False by (repeat case_decide; lia).
      set (mv := MkCreditBalanceMovement _ _ _ _ _ _ _ _ _ _).
      assert (appendMovement b mv = Ok (MkCustomerCreditBalance (cb_customerId b) (cb_currency b) (movements b ++ [mv]))) as ->;
        [|done].
      apply appendMovement_iff. split; [|done]. split; try done; [cbn; lia|]. by apply bool_decide_eq_false_2.
  - intros b' mv e H. apply applyCreditBalance_Ok in H as (_ & Hr & _ & _ & Hs & Ha); [|done].
    destruct (append_wf b mv b') as (Hb' & Ht & Hc & _); [done|lia|done|].
    split; [done|]. rewrite availableOf_wf by done. rewrite Ht, Hs, Hc. done.
  - intros -> Hc Hlt. unfold applyCreditBalance. rewrite decide_False by done.
    rewrite decide_False by (apply not_false_iff_true, Z.ltb_lt; lia).
    rewrite decide_False by (intros Hne; by apply Hne). rewrite availableOf_wf by done.
    cbn [mbind result_bind]. rewrite compareTo_same by done. cbn [mbind result_bind amount].
    rewrite decide_True; [done|]. repeat case_decide; lia.
Qed.

Definition sample_balance : CustomerCreditBalance :=
  MkCustomerCreditBalance "c" KES
    [MkCreditBalanceMovement "m1" "c" overpayment increase (MkMoney 30 KES) KES (Some "ref") None None 0].

Lemma sample_balance_wf : balance_wf sample_balance.
Proof.
  split; [apply Forall_singleton; by split|]. intros [|n]; cbn [sample_balance movements take]; [done|].
  rewrite fmap_cons, sumZ_cons. destruct n; done.
Qed.

Lemma credit_application_exact_witness :
  applyCreditBalance sample_balance "r" (MkMoney 31 KES) (fixed_clock 0) true "m2" =
  Err (DomainError "INSUFFICIENT_CREDIT_BALANCE").
Proof.
  apply (credit_application_exact sample_balance "r" (MkMoney 31 KES) (fixed_clock 0) true "m2").
  - exact sample_balance_wf.
  - discriminate.
  - reflexivity.
  - reflexivity.
  - vm_compute. reflexivity.
Defined.

(** The log checks a movement's [currency] field but not the currency of its
    amount: a movement of 5 US dollars labelled KES raises a KES balance. *)
Theorem append_accepts_a_foreign_amount :
  let mv := MkCreditBalanceMovement "m" "c" overpayment increase (MkMoney 500 USD) KES (Some "ref") None None 0 in
  exists b, appendMovement (openCreditBalance "c" KES) mv = Ok b /\ availableOf b = Ok (MkMoney 500 KES).
Proof. eexists. split; vm_compute; reflexivity. Qed.
