(* ===== verification/CreditNote.v ===== *)
(** * Credit notes (src/domain/adjustments/credit-note.ts)

    The credit-note machine: applications to receivables and consented routings
    into the customer's credit balance consume the note's total. *)

From stdpp Require Import prelude strings list relations.
From Stdlib Require Import ZArith Lia.
From S2P Require Import Prelude JsNumber JsString JsDate Money Events AdjustmentEvents CreditBalance.
Local Open Scope string_scope.
Local Open Scope list_scope.
Local Open Scope Z_scope.
Local Open Scope js_scope.

Inductive CreditNoteState := draft | issued | partially_applied | fully_applied | voided.
#[export] Instance CreditNoteState_eq_dec : EqDecision CreditNoteState.
Proof. solve_decision. Defined.

Record CreditNoteApplication := MkCreditNoteApplication {
  ap_id : Uuid;
  ap_creditNoteId : Uuid;
  ap_receivableId : Uuid;
  ap_amount : Money;
  ap_appliedAt : Date;
}.

Record CreditBalanceRouting := MkCreditBalanceRouting {
  rt_movementId : Uuid;
  rt_amount : Money;
  rt_occurredAt : Date;
}.

Record CreditNote := MkCreditNote {
  cn_id : Uuid;
  cn_customerId : Uuid;
  cn_invoiceId : option Uuid;
  cn_reason : string;
  cn_total : Money;
  cn_state : CreditNoteState;
  cn_issuedAt : option Date;
  cn_voidedAt : option Date;
  applications : list CreditNoteApplication;
  creditBalanceRoutings : list CreditBalanceRouting;
}.

#[export] Instance CreditNote_eta : Eta CreditNote := fun n =>
  MkCreditNote (cn_id n) (cn_customerId n) (cn_invoiceId n) (cn_reason n) (cn_total n) (cn_state n)
    (cn_issuedAt n) (cn_voidedAt n) (applications n) (creditBalanceRoutings n).

Definition appliedOf (n : CreditNote) : result Money :=
  foldM (fun acc a => Money.add acc (ap_amount a)) (Money.zero (currency (cn_total n))) (applications n).

Definition creditedOf (n : CreditNote) : result Money :=
  foldM (fun acc a => Money.add acc (rt_amount a)) (Money.zero (currency (cn_total n))) (creditBalanceRoutings n).

Definition unappliedOf (n : CreditNote) : result Money :=
  a ← appliedOf n; c ← creditedOf n; used ← Money.add a c; Money.subtract (cn_total n) used.

Definition draftCreditNote (id customerId : Uuid) (invoiceId : option Uuid) (reason : string) (total : Money)
  : result CreditNote :=
  refuse (trim reason = "") with "CREDIT_NOTE_REASON_REQUIRED" ;;
  refuse (isPositive total = false) with "CREDIT_NOTE_TOTAL_INVALID" ;;
  Ok (MkCreditNote id customerId invoiceId reason total draft None None [] []).

Definition issueCreditNote (n : CreditNote) (clock : Clock) : result (CreditNote * AdjustmentEvent) :=
  refuse (cn_state n <> draft) with "CREDIT_NOTE_INVALID_TRANSITION" ;;
  Ok (n <| cn_state := issued |> <| cn_issuedAt := Some (clock 0%nat) |>,
      creditNoteIssuedEvent (cn_id n) (cn_customerId n) (amount (cn_total n)) (clock_after 1 clock)).

Definition applyCreditNote (n : CreditNote) (receivableId : Uuid) (amt : Money) (clock : Clock) (applicationId : Uuid)
  : result (CreditNote * CreditNoteApplication * AdjustmentEvent) :=
  refuse (cn_state n <> issued /\ cn_state n <> partially_applied) with "CREDIT_NOTE_NOT_APPLICABLE" ;;
  refuse (isPositive amt = false) with "CREDIT_NOTE_AMOUNT_INVALID" ;;
  refuse (currency amt <> currency (cn_total n)) with "CURRENCY_MISMATCH" ;;
  applied ← appliedOf n;
  newApplied ← Money.add applied amt;
  c ← compareTo newApplied (cn_total n);
  refuse (c > 0) with "CREDIT_NOTE_OVER_APPLIED" ;;
  let application := MkCreditNoteApplication applicationId (cn_id n) receivableId amt (clock 0%nat) in
  unapplied ← unappliedOf n;
  remaining ← Money.subtract unapplied amt;
  Ok (n <| applications := applications n ++ [application] |>
        <| cn_state := if isZero remaining then fully_applied else partially_applied |>,
      application,
      creditNoteAppliedEvent applicationId (cn_id n) receivableId (amount amt) (clock_after 1 clock)).

Definition voidCreditNote (n : CreditNote) (clock : Clock) : result CreditNote :=
  refuse (cn_state n <> issued) with "CREDIT_NOTE_INVALID_TRANSITION" ;;
  refuse ((0 < length (applications n))%nat) with "CREDIT_NOTE_HAS_APPLICATIONS" ;;
  Ok (n <| cn_state := voided |> <| cn_voidedAt := Some (clock 0%nat) |>).

Definition applyExcessToCreditBalance (n : CreditNote) (amt : Money) (consent : bool) (clock : Clock) (movementId : Uuid)
  : result (CreditNote * CreditBalanceMovement * AdjustmentEvent) :=
  refuse (consent <> true) with "CONSENT_REQUIRED" ;;
  refuse (cn_state n = draft \/ cn_state n = voided) with "CREDIT_NOTE_NOT_APPLICABLE" ;;
  refuse (isPositive amt = false) with "CREDIT_NOTE_AMOUNT_INVALID" ;;
  refuse (currency amt <> currency (cn_total n)) with "CURRENCY_MISMATCH" ;;
  unapplied ← unappliedOf n;
  refuse (isZero unapplied = true) with "CREDIT_NOTE_NO_UNAPPLIED_VALUE" ;;
  c ← compareTo amt unapplied;
  refuse (c > 0) with "CREDIT_NOTE_EXCESS_EXCEEDS_UNAPPLIED" ;;
  let occurredAt := clock 0%nat in
  remaining ← Money.subtract unapplied amt;
  let updated := n <| creditBalanceRoutings := creditBalanceRoutings n ++ [MkCreditBalanceRouting movementId amt occurredAt] |>
                   <| cn_state := if isZero remaining then fully_applied else partially_applied |> in
  let movement := MkCreditBalanceMovement movementId (cn_customerId n) credit_note_excess increase amt (currency amt)
                    None None (Some (cn_id n)) occurredAt in
  Ok (updated, movement, creditBalanceAppliedEvent (cn_customerId n) (amount amt) None (clock_after 1 clock)).

(** ** The invariant (R7) *)

Definition applied_minor (n : CreditNote) : Z := sumZ ((fun a => amount (ap_amount a)) <$> applications n).
Definition credited_minor (n : CreditNote) : Z := sumZ ((fun a => amount (rt_amount a)) <$> creditBalanceRoutings n).
Definition used_minor (n : CreditNote) : Z := applied_minor n + credited_minor n.

Definition state_matches (n : CreditNote) : Prop :=
  match cn_state n with
  | draft | issued | voided => applications n = [] /\ creditBalanceRoutings n = []
  | partially_applied => 0 < used_minor n < amount (cn_total n)
  | fully_applied => used_minor n = amount (cn_total n)
  end.

Definition entry_ok (n : CreditNote) (m : Money) : Prop := 0 < amount m /\ currency m = currency (cn_total n).

Record note_wf (n : CreditNote) : Prop := {
  cn_positive : 0 < amount (cn_total n);
  cn_applications : Forall (fun a => entry_ok n (ap_amount a)) (applications n);
  cn_routings : Forall (fun a => entry_ok n (rt_amount a)) (creditBalanceRoutings n);
  cn_matches : state_matches n;
}.

Lemma fold_add {A} (f : A -> Money) c l z : Forall (fun a => currency (f a) = c) l ->
  foldM (fun acc a => Money.add acc (f a)) (MkMoney z c) l = Ok (MkMoney (z + sumZ ((fun a => amount (f a)) <$> l)) c).
Proof.
  intros H. revert z. induction H as [|a l Ha Hl IH]; intros z; cbn [foldM].
  { change (sumZ ((fun a => amount (f a)) <$> [])) with 0. by rewrite Z.add_0_r. }
  rewrite add_same by done. cbn [mbind result_bind amount currency].
  rewrite IH, fmap_cons, sumZ_cons. f_equal. f_equal. lia.
Qed.

Lemma used_bounds n : note_wf n -> 0 <= applied_minor n /\ 0 <= credited_minor n /\ used_minor n <= amount (cn_total n).
Proof.
  intros [Hp Ha Hr Hs].
  assert (0 <= applied_minor n) by (apply sumZ_nonneg, Forall_fmap; eapply Forall_impl; [exact Ha|]; intros ? []; cbn; lia).
  assert (0 <= credited_minor n) by (apply sumZ_nonneg, Forall_fmap; eapply Forall_impl; [exact Hr|]; intros ? []; cbn; lia).
  split_and!; try done. unfold state_matches, used_minor, applied_minor, credited_minor in *.
  destruct (cn_state n); try lia; destruct Hs as [-> ->]; change (0 + 0 <= amount (cn_total n)); lia.
Qed.

Lemma appliedOf_wf n : note_wf n -> appliedOf n = Ok (MkMoney (applied_minor n) (currency (cn_total n))).
Proof. intros [_ Ha _ _]. apply (fold_add ap_amount). eapply Forall_impl; [exact Ha|]. by intros ? []. Qed.

Lemma creditedOf_wf n : note_wf n -> creditedOf n = Ok (MkMoney (credited_minor n) (currency (cn_total n))).
Proof. intros [_ _ Hr _]. apply (fold_add rt_amount). eapply Forall_impl; [exact Hr|]. by intros ? []. Qed.

Lemma unappliedOf_wf n : note_wf n ->
  unappliedOf n = Ok (MkMoney (amount (cn_total n) - used_minor n) (currency (cn_total n))).
Proof.
  intros Hn. unfold unappliedOf. rewrite appliedOf_wf, creditedOf_wf by done. cbn [mbind result_bind].
  rewrite add_same by done. cbn [mbind result_bind amount currency].
  apply subtract_Ok. destruct (used_bounds n Hn) as (_ & _ & H). by split_and!.
Qed.

(** ** The machine *)

Inductive note_step : CreditNote -> CreditNote -> Prop :=
| step_issue n clock n' e : issueCreditNote n clock = Ok (n', e) -> note_step n n'
| step_apply_note n rid amt clock id n' a e : applyCreditNote n rid amt clock id = Ok (n', a, e) -> note_step n n'
| step_void n clock n' : voidCreditNote n clock = Ok n' -> note_step n n'
| step_route n amt consent clock id n' mv e :
    applyExcessToCreditBalance n amt consent clock id = Ok (n', mv, e) -> note_step n n'.

(** Consuming [amt] of a note's unapplied value. *)
Definition consumed (n : CreditNote) (amt : Money) : CreditNoteState :=
  if isZero (MkMoney (amount (cn_total n) - used_minor n - amount amt) (currency (cn_total n)))
  then fully_applied else partially_applied.

Lemma applyCreditNote_iff n rid amt clock id p : note_wf n ->
  applyCreditNote n rid amt clock id = Ok p <->
  (cn_state n = issued \/ cn_state n = partially_applied) /\
  0 < amount amt <= amount (cn_total n) - used_minor n /\ currency amt = currency (cn_total n) /\
  let a := MkCreditNoteApplication id (cn_id n) rid amt (clock 0%nat) in
  p = (n <| applications := applications n ++ [a] |> <| cn_state := consumed n amt |>, a,
       creditNoteAppliedEvent id (cn_id n) rid (amount amt) (clock_after 1 clock)).
Proof.
  intros Hn. destruct (used_bounds n Hn) as (_ & Hcr & _). unfold applyCreditNote.
  destruct (decide (cn_state n <> issued /\ cn_state n <> partially_applied)) as [G1|G1].
  { split; [done|]. tauto. }
  assert (cn_state n = issued \/ cn_state n = partially_applied) as Hst by (destruct (cn_state n); naive_solver).
  destruct (decide (isPositive amt = false)) as [G2|G2].
  { split; [done|]. intros (_ & [Hp%Z.ltb_lt _] & _). unfold isPositive in G2. congruence. }
  destruct (decide (currency amt <> currency (cn_total n))) as [G3|G3]; [split; [done|tauto]|]. apply dec_stable in G3.
  apply isPositive_true in G2. rewrite appliedOf_wf by done. cbn [mbind result_bind].
  rewrite add_same by done. cbn [mbind result_bind amount currency].
  rewrite compareTo_same by done. cbn [mbind result_bind amount currency].
  rewrite unappliedOf_wf by done. cbn [mbind result_bind].
  destruct (decide (amount amt <= amount (cn_total n) - used_minor n)) as [Hle|Hgt].
  - rewrite decide_False by (unfold used_minor in *; repeat case_decide; lia).
    rewrite subtract_same by done. cbn [mbind result_bind amount currency].
    split; [intros [= <-]; by split_and!|]. by intros (_ & _ & _ & ->).
  - split; [|lia]. intros H. case_decide; [done|].
    apply bind_Ok in H as (m & H%subtract_Ok & _). cbn in H. lia.
Qed.

Lemma applyExcess_iff n amt consent clock id p : note_wf n ->
  applyExcessToCreditBalance n amt consent clock id = Ok p <->
  consent = true /\ cn_state n <> draft /\ cn_state n <> voided /\
  0 < amount amt <= amount (cn_total n) - used_minor n /\ currency amt = currency (cn_total n) /\
  p = (n <| creditBalanceRoutings := creditBalanceRoutings n ++ [MkCreditBalanceRouting id amt (clock 0%nat)] |>
         <| cn_state := consumed n amt |>,
       MkCreditBalanceMovement id (cn_customerId n) credit_note_excess increase amt (currency amt)
         None None (Some (cn_id n)) (clock 0%nat),
       creditBalanceAppliedEvent (cn_customerId n) (amount amt) None (clock_after 1 clock)).
Proof.
  intros Hn. unfold applyExcessToCreditBalance.
  destruct (decide (consent <> true)) as [G0|G0]; [split; [done|tauto]|]. apply dec_stable in G0.
  destruct (decide (cn_state n = draft \/ cn_state n = voided)) as [G1|G1]; [split; [done|tauto]|].
  destruct (decide (isPositive amt = false)) as [G2|G2].
  { split; [done|]. intros (_ & _ & _ & [Hp%Z.ltb_lt _] & _). unfold isPositive in G2. congruence. }
  destruct (decide (currency amt <> currency (cn_total n))) as [G3|G3]; [split; [done|tauto]|]. apply dec_stable in G3.
  apply isPositive_true in G2. rewrite unappliedOf_wf by done. cbn [mbind result_bind].
  destruct (decide (isZero _ = true)) as [G4|G4].
  { split; [done|]. apply Z.eqb_eq in G4. cbn in G4. lia. }
  rewrite compareTo_same by done. cbn [mbind result_bind amount currency].
  destruct (decide (amount amt <= amount (cn_total n) - used_minor n)) as [Hle|Hgt].
  - rewrite decide_False by (repeat case_decide; lia).
    rewrite subtract_same by done. cbn [mbind result_bind amount currency].
    split; [intros [= <-]; split_and!; tauto|]. by intros (_ & _ & _ & _ & _ & ->).
  - rewrite decide_True by (repeat case_decide; lia). split; [done|lia].
Qed.

Lemma consumed_matches n n' amt : cn_total n' = cn_total n -> cn_state n' = consumed n amt ->
  0 <= used_minor n -> 0 < amount amt <= amount (cn_total n) - used_minor n ->
  used_minor n' = used_minor n + amount amt -> state_matches n'.
Proof.
  intros Ht Hs Hu Ha Hu'. unfold state_matches. rewrite Hs, Hu', Ht. unfold consumed, isZero. cbn [amount].
  destruct (Z.eqb_spec (amount (cn_total n) - used_minor n - amount amt) 0); lia.
Qed.

Lemma apply_note_wf n rid amt clock id n' a e : note_wf n -> applyCreditNote n rid amt clock id = Ok (n', a, e) ->
  note_wf n' /\ used_minor n' = used_minor n + amount amt.
Proof.
  intros Hn H. destruct (used_bounds n Hn) as (H1 & H2 & _). apply applyCreditNote_iff in H as (_ & Ha & Hc & [= -> _ _]); [|done].
  match goal with |- note_wf ?x /\ _ => assert (used_minor x = used_minor n + amount amt) as Hu end.
  { unfold used_minor, applied_minor, credited_minor. cbn. rewrite sumZ_fmap_snoc. cbn. lia. }
  destruct Hn as [Hp Hap Hr Hs]. split; [|done]. split; cbn; try done.
  - apply Forall_app. split; [done|]. apply Forall_singleton. unfold entry_ok. cbn. split; [lia|done].
  - eapply (consumed_matches n _ amt); try done. unfold used_minor. lia.
Qed.

Lemma route_wf n amt consent clock id n' mv e : note_wf n ->
  applyExcessToCreditBalance n amt consent clock id = Ok (n', mv, e) ->
  note_wf n' /\ used_minor n' = used_minor n + amount amt.
Proof.
  intros Hn H. destruct (used_bounds n Hn) as (H1 & H2 & _). apply applyExcess_iff in H as (_ & _ & _ & Ha & Hc & [= -> _ _]); [|done].
  match goal with |- note_wf ?x /\ _ => assert (used_minor x = used_minor n + amount amt) as Hu end.
  { unfold used_minor, applied_minor, credited_minor. cbn. rewrite sumZ_fmap_snoc. cbn. lia. }
  destruct Hn as [Hp Hap Hr Hs]. split; [|done]. split; cbn; try done.
  - apply Forall_app. split; [done|]. apply Forall_singleton. unfold entry_ok. cbn. split; [lia|done].
  - eapply (consumed_matches n _ amt); try done. unfold used_minor. lia.
Qed.

Lemma note_step_wf n n' : note_step n n' -> note_wf n -> note_wf n' /\
  cn_total n' = cn_total n /\ cn_id n' = cn_id n /\ cn_customerId n' = cn_customerId n /\
  applications n `prefix_of` applications n' /\ creditBalanceRoutings n `prefix_of` creditBalanceRoutings n'.
Proof.
  intros Hs Hn. destruct Hs as [n clock n' e H|n rid amt clock id n' a e H|n clock n' H|n amt consent clock id n' mv e H].
  - unfold issueCreditNote in H. case_decide as G; [done|]. injection H as <- _. split_and!; try done.
    destruct Hn as [? ? ? Hm]. split; try done. unfold state_matches in *. by rewrite G in Hm.
  - split; [by eapply apply_note_wf|]. apply applyCreditNote_iff in H as (_ & _ & _ & [= -> _ _]); [|done].
    split_and!; try done. by apply prefix_app_r.
  - unfold voidCreditNote in H. case_decide as G; [done|]. case_decide; [done|]. injection H as <-. split_and!; try done.
    destruct Hn as [? ? ? Hm]. split; try done. unfold state_matches in *. by rewrite G in Hm.
  - split; [by eapply route_wf|]. apply applyExcess_iff in H as (_ & _ & _ & _ & _ & [= -> _ _]); [|done].
    split_and!; try done. by apply prefix_app_r.
Qed.

(** A credit note is never over-used (R7).  Whatever follows a drafting, the
    applications and routings together never exceed the note's total, which
    never changes; each is positive and in the note's currency; the unapplied
    value is always derivable and is the total minus what was used; the state
    says exactly how much is used (nothing, some, all); and both histories are
    append-only. *)
Theorem credit_note_never_overused (id customerId : Uuid) (inv : option Uuid) (reason : string) (total : Money)
    (n0 n : CreditNote) :
  draftCreditNote id customerId inv reason total = Ok n0 -> rtc note_step n0 n ->
  note_wf n /\ cn_total n = total /\ used_minor n <= amount total /\
  unappliedOf n = Ok (MkMoney (amount total - used_minor n) (currency total)) /\
  (forall n', note_step n n' -> applications n `prefix_of` applications n' /\
     creditBalanceRoutings n `prefix_of` creditBalanceRoutings n').
Proof.
  intros Hd Hr. unfold draftCreditNote in Hd. case_decide; [done|]. case_decide as G; [done|].
  apply isPositive_true in G. injection Hd as <-.
  assert (note_wf n /\ cn_total n = total) as [Hn Ht].
  { match type of Hr with rtc _ ?x _ =>
      assert (note_wf x) as H0 by (split; [done|constructor|constructor|done]);
      assert (cn_total x = total) as H1 by done; revert H0 H1; generalize dependent x end.
    intros x Hx. induction Hx as [|x y z Hxy _ IH]; [done|]. intros H0 H1.
    destruct (note_step_wf x y Hxy H0) as (? & Hty & _). apply IH; [done|congruence]. }
  split_and!; [done|done|rewrite <- Ht; by apply used_bounds|by rewrite unappliedOf_wf, Ht|].
  intros n' Hs. by apply (note_step_wf n n').
Qed.

Definition sample_note : CreditNote :=
  MkCreditNote "n" "c" None "damaged" (MkMoney 100 KES) issued (Some 0) None [] [].

Lemma sample_note_wf : note_wf sample_note.
Proof. split; [done|constructor|constructor|done]. Qed.

Lemma credit_note_never_overused_witness :
  exists n, used_minor n = 60 /\ unappliedOf n = Ok (MkMoney 40 KES).
Proof.
  destruct (draftCreditNote "n" "c" None "damaged" (MkMoney 100 KES)) as [n0|] eqn:E0; [|vm_compute in E0; discriminate E0].
  destruct (issueCreditNote n0 (fixed_clock 0)) as [[n1 e1]|] eqn:E1; [|vm_compute in E0; injection E0 as <-; discriminate E1].
  destruct (applyCreditNote n1 "r" (MkMoney 60 KES) (fixed_clock 1) "a") as [[[n2 a] e2]|] eqn:E2;
    [|vm_compute in E0; injection E0 as <-; vm_compute in E1; injection E1 as <- <-; discriminate E2].
  assert (used_minor n2 = 60) as Hu
    by (vm_compute in E0; injection E0 as <-; vm_compute in E1; injection E1 as <- <-; vm_compute in E2; by injection E2 as <- _ _).
  exists n2. split; [exact Hu|].
  destruct (credit_note_never_overused "n" "c" None "damaged" (MkMoney 100 KES) n0 n2 E0) as (_ & _ & _ & H & _).
  - eapply rtc_l; [exact (step_issue _ _ _ _ E1)|]. apply rtc_once. exact (step_apply_note _ _ _ _ _ _ _ _ E2).
  - rewrite H, Hu. reflexivity.
Defined.

(** Routing unapplied note value into the customer's credit balance moves
    value, it does not make any.  On a sound note and a sound balance of the same
    customer and currency, a routing is accepted exactly when consented, with a
    positive amount of at most the unapplied value of a live note; the movement
    it returns is accepted by the balance, and the note's unapplied value drops
    by what the balance's available value gains. *)
Theorem routing_conserves_value (n : CreditNote) (b : CustomerCreditBalance) (amt : Money) (consent : bool)
    (clock : Clock) (id : Uuid) :
  note_wf n -> balance_wf b -> cn_customerId n = cb_customerId b -> currency (cn_total n) = cb_currency b ->
  cn_id n <> "" ->
  (is_ok (applyExcessToCreditBalance n amt consent clock id) = true <->
     consent = true /\ cn_state n <> draft /\ cn_state n <> voided /\
     0 < amount amt <= amount (cn_total n) - used_minor n /\ currency amt = currency (cn_total n)) /\
  (forall n' mv e, applyExcessToCreditBalance n amt consent clock id = Ok (n', mv, e) ->
     exists b', appendMovement b mv = Ok b' /\ note_wf n' /\ balance_wf b' /\
       unappliedOf n' = Ok (MkMoney (amount (cn_total n) - used_minor n - amount amt) (cb_currency b)) /\
       availableOf b' = Ok (MkMoney (log_total b + amount amt) (cb_currency b))).
Proof.
  intros Hn Hb Hc Hcur Hid. pose proof (log_total_nonneg b Hb). split.
  - rewrite is_ok_true. setoid_rewrite applyExcess_iff; [|done]. naive_solver.
  - intros n' mv e Hx. destruct (route_wf _ _ _ _ _ _ _ _ Hn Hx) as [Hn' Hu].
    apply applyExcess_iff in Hx as (_ & _ & _ & Ha & Ham & [= -> -> _]); [|done].
    set (mv := MkCreditBalanceMovement _ _ _ _ _ _ _ _ _ _).
    assert (appendMovement b mv = Ok (MkCustomerCreditBalance (cb_customerId b) (cb_currency b) (movements b ++ [mv]))) as Happ.
    { apply appendMovement_iff. split; [|done]. split; cbn; try done; [congruence|lia|]. by apply bool_decide_eq_false_2. }
    assert (0 <= log_total b + signed mv) as Hs by (unfold signed; cbn; lia).
    destruct (append_wf b mv _ Hb Hs Happ) as (Hb' & Ht & Hbc & _).
    eexists. split_and!; [exact Happ|done|done| |].
    + rewrite unappliedOf_wf, Hu by done. cbn. rewrite Hcur. f_equal. f_equal. lia.
    + rewrite availableOf_wf, Ht, Hbc by done. done.
Qed.

Lemma routing_conserves_value_witness :
  is_ok (applyExcessToCreditBalance sample_note (MkMoney 100 KES) true (fixed_clock 0) "m") = true.
Proof.
  apply (routing_conserves_value sample_note sample_balance (MkMoney 100 KES) true (fixed_clock 0) "m").
  - exact sample_note_wf.
  - exact sample_balance_wf.
  - reflexivity.
  - reflexivity.
  - discriminate.
  - vm_compute. repeat split; discriminate.
Defined.

(** After a routing, an application beyond the unapplied value is refused by the
    subtraction's UNDERFLOW and not by the documented over-application error,
    which only compares applications with the total. *)
Theorem over_application_after_routing_underflows :
  let n := sample_note <| creditBalanceRoutings := [MkCreditBalanceRouting "m" (MkMoney 60 KES) 0] |>
             <| cn_state := partially_applied |> in
  note_wf n /\
  applyCreditNote n "r" (MkMoney 50 KES) (fixed_clock 0) "a" = Err (DomainError "UNDERFLOW").
Proof.
  split; [|vm_compute; reflexivity].
  split; [done|constructor|apply Forall_singleton; done|done].
Qed.
