(* ===== verification/Accounts.v ===== *)
(** * Chart of accounts, journal lines and the posting matrix
      (src/domain/ledger/accounts.ts, src/domain/ledger/matrix.ts) *)

From stdpp Require Import prelude strings list.
From Stdlib Require Import ZArith Lia Ascii.
From S2P Require Import Prelude JsNumber JsString Money.
Local Open Scope string_scope.
Local Open Scope list_scope.
Local Open Scope Z_scope.
Local Open Scope js_scope.

Inductive Account :=
| AR_CONTROL | CASH | REVENUE | REVENUE_CONTRA | SALES_REFUNDS | BAD_DEBT_EXPENSE | OTHER_INCOME.
#[export] Instance Account_eq_dec : EqDecision Account.
Proof. solve_decision. Defined.

Definition ACCOUNTS : list Account :=
  [AR_CONTROL; CASH; REVENUE; REVENUE_CONTRA; SALES_REFUNDS; BAD_DEBT_EXPENSE; OTHER_INCOME].

Definition show_account (a : Account) : string :=
  match a with
  | AR_CONTROL => "AR_CONTROL" | CASH => "CASH" | REVENUE => "REVENUE" | REVENUE_CONTRA => "REVENUE_CONTRA"
  | SALES_REFUNDS => "SALES_REFUNDS" | BAD_DEBT_EXPENSE => "BAD_DEBT_EXPENSE" | OTHER_INCOME => "OTHER_INCOME"
  end.

(** [isAccount], with the account it finds. *)
Definition isAccount (value : string) : option Account :=
  List.find (fun a => bool_decide (show_account a = value)) ACCOUNTS.

Inductive PostingDirection := DEBIT | CREDIT.
#[export] Instance PostingDirection_eq_dec : EqDecision PostingDirection.
Proof. solve_decision. Defined.

Definition isPostingDirection (value : string) : option PostingDirection :=
  if decide (value = "DEBIT") then Some DEBIT else if decide (value = "CREDIT") then Some CREDIT else None.

Record JournalLine := MkJournalLine {
  account : Account;
  direction : PostingDirection;
  amountMinor : Z;
  line_currency : Currency;
}.
#[export] Instance JournalLine_eq_dec : EqDecision JournalLine.
Proof. solve_decision. Defined.

Record JournalLineInput := MkJournalLineInput {
  li_account : string;
  li_direction : string;
  li_amountMinor : numeric;
  li_currency : Currency;
}.

Definition toJournalLine (input : JournalLineInput) : result JournalLine :=
  match isAccount (li_account input) with
  | None => Err (DomainError "LEDGER_ACCOUNT_UNKNOWN")
  | Some acc =>
      match isPostingDirection (li_direction input) with
      | None => Err (DomainError "LEDGER_DIRECTION_INVALID")
      | Some dir =>
          match safeMinor (li_amountMinor input) with
          | None => Err (DomainError "LEDGER_AMOUNT_NOT_INTEGER")
          | Some amt =>
              refuse (amt < 0) with "LEDGER_AMOUNT_NEGATIVE" ;;
              refuse (amt = 0) with "LEDGER_AMOUNT_ZERO" ;;
              Ok (MkJournalLine acc dir amt (li_currency input))
          end
      end
  end.

(** One turn of the loop of [assertBalanced]. *)
Definition balanceStep (c : Currency) (acc : Z * Z) (line : JournalLine) : result (Z * Z) :=
  let '(debits, credits) := acc in
  refuse (line_currency line <> c) with "CURRENCY_MISMATCH" ;;
  Ok (match direction line with
      | DEBIT => (debits + amountMinor line, credits)
      | CREDIT => (debits, credits + amountMinor line)
      end).

Definition assertBalanced (lines : list JournalLine) : result unit :=
  match lines with
  | [] => Err (DomainError "LEDGER_ENTRY_EMPTY")
  | first :: _ =>
      acc ← foldM (balanceStep (line_currency first)) (0, 0) lines;
      refuse (acc.1 <> acc.2) with "LEDGER_ENTRY_UNBALANCED" ;;
      refuse ((length (remove_dups (account <$> lines)) < 2)%nat) with "LEDGER_ENTRY_SELF_CANCELING" ;;
      Ok tt
  end.

(** [Σ(DEBIT) - Σ(CREDIT)] of one account over the lines of the entries. *)
Definition lineNet (acc : Account) (net : Z) (line : JournalLine) : Z :=
  if decide (account line <> acc) then net
  else net + match direction line with DEBIT => amountMinor line | CREDIT => - amountMinor line end.

Definition accountBalanceMinor (entries : list (list JournalLine)) (acc : Account) : Z :=
  foldl (fun net lines => foldl (lineNet acc) net lines) 0 entries.

Definition describeLine (line : JournalLine) : string :=
  let whole := Z.quot (amountMinor line) 100 in
  let cents := Z.rem (amountMinor line) 100 in
  match direction line with DEBIT => "Dr" | CREDIT => "Cr" end +:+ " " +:+ show_account (account line) +:+ " " +:+
  show_Z whole +:+ "." +:+ implode (padStart 2 "0"%char (explode (show_Z cents))) +:+ " " +:+ show_currency (line_currency line).

Definition assertEntryId (value : Uuid) : result Uuid :=
  refuse (UUID_PATTERN value = false) with "LEDGER_ID_INVALID" ;; Ok value.

(** ** The posting matrix *)

Record MatrixRow := MkMatrixRow { row_debit : Account; row_credit : Account }.

Definition POSTING_MATRIX : list (string * MatrixRow) :=
  [("invoicing.invoiceIssued", MkMatrixRow AR_CONTROL REVENUE);
   ("payments.paymentCompleted", MkMatrixRow CASH AR_CONTROL);
   ("adjustments.creditNoteApplied", MkMatrixRow REVENUE_CONTRA AR_CONTROL);
   ("adjustments.refundCompleted", MkMatrixRow SALES_REFUNDS CASH);
   ("receivables.writeOffApproved", MkMatrixRow BAD_DEBT_EXPENSE AR_CONTROL);
   ("receivables.lateFeeAssessed", MkMatrixRow AR_CONTROL OTHER_INCOME)].

(** [isPostableEvent], with the row it finds. *)
Definition isPostableEvent (nm : string) : option MatrixRow :=
  snd <$> List.find (fun p => bool_decide (p.1 = nm)) POSTING_MATRIX.

(** ** Lemmas *)

Definition line_value (line : JournalLine) : Z :=
  match direction line with DEBIT => amountMinor line | CREDIT => - amountMinor line end.

Definition on_account (acc : Account) (line : JournalLine) : Z :=
  if decide (account line = acc) then line_value line else 0.

(** The effect of a list of lines on an account. *)
Definition net_of (acc : Account) (lines : list JournalLine) : Z := sumZ (on_account acc <$> lines).

Lemma lineNet_add acc net line : lineNet acc net line = net + on_account acc line.
Proof. unfold lineNet, on_account, line_value. repeat case_decide; try done. lia. Qed.

Lemma foldl_lineNet acc net lines : foldl (lineNet acc) net lines = net + net_of acc lines.
Proof.
  revert net. induction lines as [|l lines IH]; intros net; cbn [foldl].
  - unfold net_of. cbn. rewrite sumZ_nil. lia.
  - rewrite IH, lineNet_add. unfold net_of. rewrite fmap_cons, sumZ_cons. lia.
Qed.

Lemma accountBalance_sum entries acc : accountBalanceMinor entries acc = sumZ (net_of acc <$> entries).
Proof.
  unfold accountBalanceMinor. enough (forall z, foldl (fun net lines => foldl (lineNet acc) net lines) z entries =
    z + sumZ (net_of acc <$> entries)) as H by (rewrite H; lia).
  induction entries as [|e entries IH]; intros z; cbn [foldl].
  - cbn. rewrite sumZ_nil. lia.
  - rewrite IH, foldl_lineNet, fmap_cons, sumZ_cons. lia.
Qed.

(** Lines of one currency whose debits equal their credits, over two accounts. *)
Record lines_wf (lines : list JournalLine) : Prop := {
  lines_nonempty : lines <> [];
  lines_single : exists c, Forall (fun l => line_currency l = c) lines;
  lines_balanced : sumZ (line_value <$> lines) = 0;
  lines_accounts : (2 <= length (remove_dups (account <$> lines)))%nat;
}.

Lemma balance_fold c lines d k acc : foldM (balanceStep c) (d, k) lines = Ok acc ->
  Forall (fun l => line_currency l = c) lines /\ acc.1 - acc.2 = d - k + sumZ (line_value <$> lines).
Proof.
  revert d k. induction lines as [|l lines IH]; intros d k H; cbn [foldM] in H.
  - injection H as <-. split; [constructor|]. cbn. rewrite sumZ_nil. lia.
  - apply bind_Ok in H as ([d' k'] & Hs & H). apply IH in H as [H1 H2].
    unfold balanceStep in Hs. case_decide as G; [done|]. split; [by constructor|].
    rewrite fmap_cons, sumZ_cons. unfold line_value at 1. destruct (direction l); injection Hs as <- <-; lia.
Qed.

Lemma balance_fold_pass c lines d k : Forall (fun l => line_currency l = c) lines ->
  exists acc, foldM (balanceStep c) (d, k) lines = Ok acc.
Proof.
  intros H. revert d k. induction H as [|l lines Hl _ IH]; intros d k; cbn [foldM]; [eauto|].
  unfold balanceStep. rewrite decide_False by (intros Hne; by apply Hne). cbn [mbind result_bind].
  destruct (direction l); apply IH.
Qed.

Lemma assertBalanced_iff lines u : assertBalanced lines = Ok u <-> lines_wf lines.
Proof.
  destruct u. split.
  - destruct lines as [|l lines]; [done|]. intros H. unfold assertBalanced in H.
    apply bind_Ok in H as (acc & Hf & H). case_decide as G1; [done|]. case_decide as G2; [done|].
    apply balance_fold in Hf as [H1 H2]. split; [done|eauto|lia|lia].
  - intros [Hne [c Hc] Hb Ha]. destruct lines as [|l lines]; [done|]. unfold assertBalanced.
    assert (line_currency l = c) as -> by (by inversion Hc).
    destruct (balance_fold_pass c (l :: lines) 0 0 Hc) as [acc Hf]. rewrite Hf. cbn [mbind result_bind].
    apply balance_fold in Hf as [_ H2]. rewrite decide_False by lia. by rewrite decide_False by lia.
Qed.

Lemma toJournalLine_Ok input l : toJournalLine input = Ok l -> 0 < amountMinor l.
Proof.
  unfold toJournalLine. intros H. destruct (isAccount _); [|done].
  destruct (isPostingDirection _); [|done]. destruct (safeMinor _); [|done].
  case_decide; [done|]. case_decide; [done|]. injection H as <-. cbn. lia.
Qed.

Lemma isAccount_show a : isAccount (show_account a) = Some a.
Proof. by destruct a. Qed.

(** Every line lies on exactly one account of the chart. *)
Lemma on_account_total line : sumZ ((fun acc => on_account acc line) <$> ACCOUNTS) = line_value line.
Proof.
  unfold on_account, ACCOUNTS. rewrite !fmap_cons, !sumZ_cons. cbn beta.
  destruct (account line); repeat ((rewrite decide_True by done) || (rewrite decide_False by done)); cbn; rewrite ?sumZ_nil; lia.
Qed.

Lemma net_of_total lines : sumZ ((fun acc => net_of acc lines) <$> ACCOUNTS) = sumZ (line_value <$> lines).
Proof.
  induction lines as [|l lines IH]; [done|]. rewrite fmap_cons, sumZ_cons, <- IH, <- on_account_total.
  cbn. unfold net_of. cbn. rewrite !sumZ_cons, !sumZ_nil. lia.
Qed.

(** Swapping the direction of every line negates every account. *)
Definition flip_line (line : JournalLine) : JournalLine :=
  MkJournalLine (account line) (match direction line with DEBIT => CREDIT | CREDIT => DEBIT end)
    (amountMinor line) (line_currency line).

Lemma line_value_flip line : line_value (flip_line line) = - line_value line.
Proof. unfold line_value, flip_line. cbn. destruct (direction line); lia. Qed.

Lemma net_of_flip acc lines : net_of acc (flip_line <$> lines) = - net_of acc lines.
Proof.
  unfold net_of. induction lines as [|l lines IH]; [done|]. rewrite !fmap_cons, !sumZ_cons, IH.
  unfold on_account at 1 3. cbn [account flip_line]. rewrite line_value_flip. case_decide; lia.
Qed.

Lemma flip_wf lines : lines_wf lines -> lines_wf (flip_line <$> lines).
Proof.
  intros [H1 [c H2] H3 H4]. split.
  - by destruct lines.
  - exists c. by apply Forall_fmap.
  - enough (sumZ (line_value <$> (flip_line <$> lines)) = - sumZ (line_value <$> lines)) as -> by lia.
    clear. induction lines as [|l lines IH]; [done|]. rewrite !fmap_cons, !sumZ_cons, IH, line_value_flip. lia.
  - by rewrite <- list_fmap_compose.
Qed.
