(* ===== verification/Journal.v ===== *)
(** * The journal (src/domain/ledger/journal.ts, src/domain/ledger/events.ts)

    Posting money movements through the matrix or as explicit lines, and
    correcting an entry by a reversing one.  Whether [new Date(s)] is valid for a
    well-shaped timestamp is the parameter [date_parses]. *)

From stdpp Require Import prelude strings list relations.
From Stdlib Require Import ZArith Lia.
From S2P Require Import Prelude JsNumber JsString JsDate Money Events Accounts.
Local Open Scope string_scope.
Local Open Scope list_scope.
Local Open Scope Z_scope.
Local Open Scope js_scope.

Inductive JournalEntryStatus := POSTED | REVERSED.
#[export] Instance JournalEntryStatus_eq_dec : EqDecision JournalEntryStatus.
Proof. solve_decision. Defined.

Record JournalEntry := MkJournalEntry {
  entryId : Uuid;
  orgId : string;
  je_occurredAt : string;
  postedAt : string;
  sourceEventName : string;
  sourceEventId : Uuid;
  reference : string;
  actor : string;
  status : JournalEntryStatus;
  lines : list JournalLine;
  reversalOf : option Uuid;
  reason : option string;
  reversedBy : option Uuid;
}.

#[export] Instance JournalEntry_eta : Eta JournalEntry := fun e =>
  MkJournalEntry (entryId e) (orgId e) (je_occurredAt e) (postedAt e) (sourceEventName e) (sourceEventId e)
    (reference e) (actor e) (status e) (lines e) (reversalOf e) (reason e) (reversedBy e).

Notation Ledger := (list JournalEntry).

(** ** Events *)

Inductive LedgerPayload :=
| EntryPostedPayload (entryId : Uuid) (orgId sourceEventName : string) (sourceEventId : Uuid) (amountMinor : Z)
    (currency : Currency) (status : JournalEntryStatus) (reversalOf : option Uuid)
| EntryReversedPayload (entryId reversalEntryId : Uuid) (reason actor reversedAt : string).
Notation LedgerLaneEvent := (DomainEvent LedgerPayload).

Definition minorUnits (amt : Z) : result Z :=
  refuse (Z.abs amt > MAX_SAFE_INTEGER) with "LEDGER_AMOUNT_NOT_SAFE_INTEGER" ;; Ok amt.

Definition entryPostedEvent (e : JournalEntry) (first : JournalLine) (clock : Clock) : result LedgerLaneEvent :=
  amt ← minorUnits (amountMinor first);
  Ok (domainEvent "ledger.entryPosted" (entryId e)
        (EntryPostedPayload (entryId e) (orgId e) (sourceEventName e) (sourceEventId e) amt (line_currency first)
           (status e) (reversalOf e)) clock).

Definition entryReversedEvent (original reversal : Uuid) (why who : string) (clock : Clock) : LedgerLaneEvent :=
  domainEvent "ledger.entryReversed" original
    (EntryReversedPayload original reversal why who (toISOString (clock 0%nat))) (clock_after 1 clock).

Record MoneyMovementEvent := MkMoneyMovementEvent {
  ev_name : string;
  ev_sourceEventId : Uuid;
  ev_orgId : string;
  ev_occurredAt : string;
  ev_amountMinor : numeric;
  ev_currency : string;
  ev_reference : string;
  ev_actor : string;
}.

(** ** Validation *)

Definition assertNonBlank (value code : string) : result string :=
  let trimmed := trim value in
  refuse (trimmed = "") with code ;; Ok trimmed.

Definition movementMinor (amt : numeric) : result Z :=
  match safeMinor amt with
  | None => Err (DomainError "LEDGER_AMOUNT_NOT_INTEGER")
  | Some minor => refuse (minor <= 0) with "LEDGER_AMOUNT_INVALID" ;; Ok minor
  end.

Definition assertCurrency (c : string) : result Currency :=
  match currency_of_string c with Some c => Ok c | None => Err (DomainError "LEDGER_CURRENCY_INVALID") end.

Definition findPostedEntry (ledger : Ledger) (org : string) (source : Uuid) : option JournalEntry :=
  List.find (fun e => bool_decide (orgId e = org) && bool_decide (sourceEventId e = source)) ledger.

Definition sameLines (a b : list JournalLine) : bool :=
  (length a =? length b)%nat &&
  forallb (fun p => bool_decide (account p.2 = account p.1) && bool_decide (direction p.2 = direction p.1) &&
                    (amountMinor p.2 =? amountMinor p.1) && bool_decide (line_currency p.2 = line_currency p.1)) (zip a b).

(** The disjunction is evaluated from the left and stops at the first drift. *)
Definition movementDrift (existing : JournalEntry) (replay : MoneyMovementEvent) : result bool :=
  if decide (sourceEventName existing <> ev_name replay) then Ok true else
  if decide (je_occurredAt existing <> ev_occurredAt replay) then Ok true else
  match lines existing with
  | [first; _] =>
      m ← movementMinor (ev_amountMinor replay);
      if decide (amountMinor first <> m) then Ok true else
      Ok (bool_decide (show_currency (line_currency first) <> ev_currency replay))
  | _ => Ok true
  end.

Definition assertSameMovement (existing : JournalEntry) (replay : MoneyMovementEvent) : result unit :=
  drift ← movementDrift existing replay;
  refuse (drift = true) with "LEDGER_IDEMPOTENCY_CONFLICT" ;; Ok tt.

Inductive PostResult :=
| posted (entry : JournalEntry) (events : list LedgerLaneEvent)
| already_posted (entry : JournalEntry) (events : list LedgerLaneEvent).

(** The common tail of both posting paths: the entry and its event. *)
Definition entryIdOf (supplied : option Uuid) (seed : string) : result Uuid :=
  match supplied with Some id => Ok id | None => uuidFromSeed seed end.

Definition publish (entry : JournalEntry) (clock : Clock) : result PostResult :=
  match lines entry with
  | first :: _ => ev ← entryPostedEvent entry first clock; Ok (posted entry [ev])
  | [] => Err PlainError
  end.

Section posting.
  Context (date_parses : string -> bool).

Definition assertIso (value : string) : result unit :=
  refuse (ISO_PATTERN value = false \/ date_parses value = false) with "LEDGER_OCCURRED_AT_INVALID" ;; Ok tt.

Definition post (ev : MoneyMovementEvent) (ledger : Ledger) (clock : Clock) (supplied : option Uuid)
  : result PostResult :=
  match isPostableEvent (ev_name ev) with
  | None => Err (DomainError "LEDGER_EVENT_NOT_POSTABLE")
  | Some row =>
      _ ← assertEntryId (ev_sourceEventId ev);
      org ← assertNonBlank (ev_orgId ev) "LEDGER_ORG_REQUIRED";
      ref ← assertNonBlank (ev_reference ev) "LEDGER_REFERENCE_REQUIRED";
      who ← assertNonBlank (ev_actor ev) "LEDGER_ACTOR_REQUIRED";
      _ ← assertIso (ev_occurredAt ev);
      amt ← movementMinor (ev_amountMinor ev);
      cur ← assertCurrency (ev_currency ev);
      match findPostedEntry ledger org (ev_sourceEventId ev) with
      | Some existing =>
          _ ← assertSameMovement existing ev;
          Ok (already_posted existing [])
      | None =>
          debit ← toJournalLine (MkJournalLineInput (show_account (row_debit row)) "DEBIT" (Big amt) cur);
          credit ← toJournalLine (MkJournalLineInput (show_account (row_credit row)) "CREDIT" (Big amt) cur);
          _ ← assertBalanced [debit; credit];
          id ← entryIdOf supplied ("ledger.entry:" +:+ org +:+ ":" +:+ ev_sourceEventId ev);
          let entry := MkJournalEntry id org (ev_occurredAt ev) (toISOString (clock 0%nat)) (ev_name ev)
                         (ev_sourceEventId ev) ref who POSTED [debit; credit] None None None in
          publish entry (clock_after 1 clock)
      end
  end.

Record PostEntryInput := MkPostEntryInput {
  pe_entryId : option Uuid;
  pe_orgId : string;
  pe_occurredAt : string;
  pe_sourceEventName : string;
  pe_sourceEventId : Uuid;
  pe_reference : string;
  pe_actor : string;
  pe_lines : list JournalLineInput;
}.

Definition postEntry (input : PostEntryInput) (ledger : Ledger) (clock : Clock) : result PostResult :=
  _ ← assertEntryId (pe_sourceEventId input);
  org ← assertNonBlank (pe_orgId input) "LEDGER_ORG_REQUIRED";
  ref ← assertNonBlank (pe_reference input) "LEDGER_REFERENCE_REQUIRED";
  who ← assertNonBlank (pe_actor input) "LEDGER_ACTOR_REQUIRED";
  _ ← assertIso (pe_occurredAt input);
  refuse (trim (pe_sourceEventName input) = "") with "LEDGER_SOURCE_EVENT_REQUIRED" ;;
  ls ← traverse toJournalLine (pe_lines input);
  _ ← assertBalanced ls;
  match findPostedEntry ledger org (pe_sourceEventId input) with
  | Some existing =>
      let replayIsSame := bool_decide (sourceEventName existing = pe_sourceEventName input) &&
                          bool_decide (je_occurredAt existing = pe_occurredAt input) &&
                          sameLines (lines existing) ls in
      refuse (replayIsSame = false) with "LEDGER_IDEMPOTENCY_CONFLICT" ;;
      Ok (already_posted existing [])
  | None =>
      id ← entryIdOf (pe_entryId input) ("ledger.entry:" +:+ org +:+ ":" +:+ pe_sourceEventId input);
      let entry := MkJournalEntry id org (pe_occurredAt input) (toISOString (clock 0%nat)) (pe_sourceEventName input)
                     (pe_sourceEventId input) ref who POSTED ls None None None in
      publish entry (clock_after 1 clock)
  end.

End posting.

(** ** Reversal *)

Record ReverseEntryInput := MkReverseEntryInput {
  rv_entryId : option Uuid;
  rv_reason : string;
  rv_actor : string;
  rv_reference : option string;
}.

Record ReversalResult := MkReversalResult {
  rr_original : JournalEntry;
  rr_reversal : JournalEntry;
  rr_events : list LedgerLaneEvent;
}.

(** [input.reference?.trim() || original.reference] *)
Definition referenceOr (supplied : option string) (fallback : string) : string :=
  match supplied with
  | Some s => if decide (trim s = "") then fallback else trim s
  | None => fallback
  end.

Definition reverseEntry (original : JournalEntry) (input : ReverseEntryInput) (clock : Clock)
  : result ReversalResult :=
  why ← assertNonBlank (rv_reason input) "REVERSAL_REASON_REQUIRED";
  who ← assertNonBlank (rv_actor input) "LEDGER_ACTOR_REQUIRED";
  refuse (reversalOf original <> None) with "LEDGER_REVERSAL_OF_REVERSAL" ;;
  refuse (status original <> POSTED) with "LEDGER_ENTRY_NOT_REVERSIBLE" ;;
  reversalId ← entryIdOf (rv_entryId input) ("ledger.reversal:" +:+ entryId original);
  let ls := flip_line <$> lines original in
  _ ← assertBalanced ls;
  let reversal := MkJournalEntry reversalId (orgId original) (toISOString (clock 0%nat)) (toISOString (clock 1%nat))
                    "ledger.entryReversed" reversalId (referenceOr (rv_reference input) (reference original)) who
                    POSTED ls (Some (entryId original)) (Some why) None in
  let marked := original <| status := REVERSED |> <| reversedBy := Some reversalId |> in
  match ls with
  | first :: _ =>
      ev ← entryPostedEvent reversal first (clock_after 2 clock);
      Ok (MkReversalResult marked reversal
            [ev; entryReversedEvent (entryId original) reversalId why who (clock_after 3 clock)])
  | [] => Err PlainError
  end.

Definition arControlBalanceMinor (entries : Ledger) : Z := accountBalanceMinor (lines <$> entries) AR_CONTROL.

(** ** What posting produces *)

(** A balanced entry over two accounts, of positive lines; the event payload's
    safe-integer guard bounds the first line. *)
Record entry_wf (e : JournalEntry) : Prop := {
  je_lines : lines_wf (lines e);
  je_positive : Forall (fun l => 0 < amountMinor l) (lines e);
  je_safe : forall first, head (lines e) = Some first -> amountMinor first <= MAX_SAFE_INTEGER;
}.

Lemma publish_Ok e clock r : publish e clock = Ok r ->
  exists first ev, head (lines e) = Some first /\ Z.abs (amountMinor first) <= MAX_SAFE_INTEGER /\ r = posted e [ev].
Proof.
  unfold publish. destruct (lines e) as [|first ls] eqn:El; [done|]. intros H.
  apply bind_Ok in H as (ev & Hev & H). injection H as <-. unfold entryPostedEvent, minorUnits in Hev.
  apply bind_Ok in Hev as (amt & Hm & _). case_decide; [done|]. exists first, ev. split_and!; [done|lia|done].
Qed.

Lemma assertNonBlank_Ok v code t : assertNonBlank v code = Ok t <-> t = trim v /\ trim v <> "".
Proof. unfold assertNonBlank. case_decide; naive_solver. Qed.

Lemma movementMinor_Ok a m : movementMinor a = Ok m -> safeMinor a = Some m /\ 0 < m.
Proof.
  unfold movementMinor. destruct (safeMinor a) as [z|]; [|done]. case_decide; [done|].
  intros [= <-]. split; [done|lia].
Qed.

Lemma assertCurrency_Ok s c : assertCurrency s = Ok c -> show_currency c = s.
Proof.
  unfold assertCurrency, currency_of_string. destruct (List.find _ _) eqn:E; [|done]. intros [= ->].
  apply List.find_some in E as [_ E]. by apply bool_decide_eq_true in E.
Qed.

Section posting_facts.
  Context (date_parses : string -> bool).

(** What [post] checks of an event. *)
Definition event_ok (ev : MoneyMovementEvent) (row : MatrixRow) (amt : Z) (cur : Currency) : Prop :=
  isPostableEvent (ev_name ev) = Some row /\ UUID_PATTERN (ev_sourceEventId ev) = true /\
  trim (ev_orgId ev) <> "" /\ trim (ev_reference ev) <> "" /\ trim (ev_actor ev) <> "" /\
  assertIso date_parses (ev_occurredAt ev) = Ok tt /\ movementMinor (ev_amountMinor ev) = Ok amt /\
  assertCurrency (ev_currency ev) = Ok cur.

(** The two lines of the matrix. *)
Definition matrix_lines (row : MatrixRow) (amt : Z) (cur : Currency) : list JournalLine :=
  [MkJournalLine (row_debit row) DEBIT amt cur; MkJournalLine (row_credit row) CREDIT amt cur].

Lemma matrix_row_distinct nm row : isPostableEvent nm = Some row -> row_debit row <> row_credit row.
Proof.
  unfold isPostableEvent. destruct (List.find _ _) as [p|] eqn:E; [|done]. cbn. intros [= <-].
  apply List.find_some in E as [E _]. cbn in E. destruct_or! E; try subst p; done.
Qed.

Lemma matrix_lines_wf nm row amt cur : isPostableEvent nm = Some row -> 0 < amt ->
  lines_wf (matrix_lines row amt cur).
Proof.
  intros Hd%matrix_row_distinct Hp. split; [done|exists cur; by repeat constructor| |].
  - unfold matrix_lines. rewrite !fmap_cons, !sumZ_cons. unfold line_value. cbn. rewrite sumZ_nil. lia.
  - unfold matrix_lines. rewrite !fmap_cons. cbn [account].
    destruct (row_debit row), (row_credit row); try done; apply (bool_decide_unpack _); by vm_compute.
Qed.

Lemma toJournalLine_matrix acc dir amt cur : 0 < amt ->
  toJournalLine (MkJournalLineInput (show_account acc) (match dir with DEBIT => "DEBIT" | CREDIT => "CREDIT" end) (Big amt) cur) =
  Ok (MkJournalLine acc dir amt cur).
Proof.
  intros H. unfold toJournalLine. cbn [li_account li_direction li_amountMinor li_currency]. rewrite isAccount_show.
  assert (isPostingDirection (match dir with DEBIT => "DEBIT" | CREDIT => "CREDIT" end) = Some dir) as -> by (by destruct dir).
  cbn [safeMinor]. rewrite decide_False by lia. by rewrite decide_False by lia.
Qed.

(** [post] in closed form: its checks, the lookup, the matrix entry. *)
Lemma post_reduces ev row amt cur ledger clock supplied : event_ok ev row amt cur ->
  post date_parses ev ledger clock supplied =
  match findPostedEntry ledger (trim (ev_orgId ev)) (ev_sourceEventId ev) with
  | Some existing => _ ← assertSameMovement existing ev; Ok (already_posted existing [])
  | None =>
      id ← entryIdOf supplied ("ledger.entry:" +:+ trim (ev_orgId ev) +:+ ":" +:+ ev_sourceEventId ev);
      publish (MkJournalEntry id (trim (ev_orgId ev)) (ev_occurredAt ev) (toISOString (clock 0%nat)) (ev_name ev)
        (ev_sourceEventId ev) (trim (ev_reference ev)) (trim (ev_actor ev)) POSTED (matrix_lines row amt cur)
        None None None) (clock_after 1 clock)
  end.
Proof.
  intros (Hrow & Hid & Horg & Href & Hact & Hiso & Hamt & Hcur). unfold post. rewrite Hrow.
  unfold assertEntryId. rewrite decide_False by congruence. cbn [mbind result_bind].
  rewrite !(proj2 (assertNonBlank_Ok _ _ _) (conj eq_refl Horg)). cbn [mbind result_bind].
  rewrite !(proj2 (assertNonBlank_Ok _ _ _) (conj eq_refl Href)). cbn [mbind result_bind].
  rewrite !(proj2 (assertNonBlank_Ok _ _ _) (conj eq_refl Hact)). cbn [mbind result_bind].
  rewrite Hiso, Hamt, Hcur. cbn [mbind result_bind].
  destruct (findPostedEntry _ _ _) as [existing|]; [done|]. apply movementMinor_Ok in Hamt as [_ Hpos].
  rewrite (toJournalLine_matrix (row_debit row) DEBIT) by done. cbn [mbind result_bind].
  rewrite (toJournalLine_matrix (row_credit row) CREDIT) by done. cbn [mbind result_bind].
  pose proof (proj2 (assertBalanced_iff (matrix_lines row amt cur) tt) (matrix_lines_wf _ _ _ _ Hrow Hpos)) as Hb.
  unfold matrix_lines in Hb. by rewrite Hb.
Qed.

Lemma post_checks ev ledger clock supplied r : post date_parses ev ledger clock supplied = Ok r ->
  exists row amt cur, event_ok ev row amt cur.
Proof.
  unfold post. destruct (isPostableEvent _) as [row|] eqn:Hrow; [|done]. intros H.
  apply bind_Ok in H as (? & Hid & H). apply bind_Ok in H as (? & Horg & H). apply bind_Ok in H as (? & Href & H).
  apply bind_Ok in H as (? & Hact & H). apply bind_Ok in H as (u & Hiso & H). apply bind_Ok in H as (amt & Hamt & H).
  apply bind_Ok in H as (cur & Hcur & _). destruct u. exists row, amt, cur.
  apply assertNonBlank_Ok in Horg as [_ Horg]. apply assertNonBlank_Ok in Href as [_ Href].
  apply assertNonBlank_Ok in Hact as [_ Hact]. unfold assertEntryId in Hid. case_decide as G; [done|].
  split_and!; try done. by apply not_false_is_true.
Qed.

Lemma findPostedEntry_None ledger org src : findPostedEntry ledger org src = None ->
  Forall (fun e => ~ (orgId e = org /\ sourceEventId e = src)) ledger.
Proof.
  intros H. apply Forall_forall. intros e Hin [<- <-]. apply list_elem_of_In in Hin.
  eapply List.find_none in H; [|exact Hin]. cbn in H. rewrite !bool_decide_eq_true_2 in H; done.
Qed.

Lemma findPostedEntry_prefix ledger e rest :
  findPostedEntry ledger (orgId e) (sourceEventId e) = None ->
  findPostedEntry (ledger ++ e :: rest) (orgId e) (sourceEventId e) = Some e.
Proof.
  unfold findPostedEntry. induction ledger as [|x ledger IH]; cbn.
  - intros _. by rewrite !bool_decide_eq_true_2.
  - destruct (_ && _); [done|]. apply IH.
Qed.

(** A new entry of either posting path. *)
Definition fresh_entry (ledger : Ledger) (e : JournalEntry) : Prop :=
  entry_wf e /\ status e = POSTED /\ reversalOf e = None /\
  findPostedEntry ledger (orgId e) (sourceEventId e) = None.

Lemma post_posted ev ledger clock supplied e evs : post date_parses ev ledger clock supplied = Ok (posted e evs) ->
  fresh_entry ledger e /\ exists row amt cur, event_ok ev row amt cur /\ lines e = matrix_lines row amt cur /\
    orgId e = trim (ev_orgId ev) /\ sourceEventId e = ev_sourceEventId ev /\ sourceEventName e = ev_name ev /\
    je_occurredAt e = ev_occurredAt ev.
Proof.
  intros H. destruct (post_checks _ _ _ _ _ H) as (row & amt & cur & Hok).
  rewrite (post_reduces ev row amt cur) in H by done.
  destruct (findPostedEntry _ _ _) eqn:Hf. { by apply bind_Ok in H as (? & _ & [=]). }
  apply bind_Ok in H as (id & _ & H). apply publish_Ok in H as (first & ev' & Hh & Hs & [= -> ->]). cbn in Hh.
  injection Hh as <-. cbn in Hs. pose proof Hok as (Hrow & _ & _ & _ & _ & _ & Hm & _).
  apply movementMinor_Ok in Hm as [_ Hpos]. split.
  - split_and!; [|done|done|done]. split; cbn.
    + by eapply matrix_lines_wf.
    + by repeat constructor.
    + intros first [= <-]. cbn. lia.
  - exists row, amt, cur. by split_and!.
Qed.

Lemma postEntry_posted input ledger clock e evs : postEntry date_parses input ledger clock = Ok (posted e evs) ->
  fresh_entry ledger e.
Proof.
  unfold postEntry. intros H.
  apply bind_Ok in H as (? & _ & H). apply bind_Ok in H as (org & _ & H). apply bind_Ok in H as (? & _ & H).
  apply bind_Ok in H as (? & _ & H). apply bind_Ok in H as (? & _ & H). case_decide; [done|].
  apply bind_Ok in H as (ls & Hls & H). apply bind_Ok in H as (u & Hb & H).
  destruct (findPostedEntry _ _ _) eqn:Hf. { by case_decide. }
  apply bind_Ok in H as (id & _ & H). apply publish_Ok in H as (first & ev' & Hh & Hs & [= -> ->]). cbn in Hh.
  apply assertBalanced_iff in Hb. split_and!; [|done|done|done]. split; cbn; [done| |].
  - apply traverse_Forall2 in Hls. eapply Forall2_Forall_r; [exact Hls|].
    apply Forall_forall. intros li _ l Hy. by eapply toJournalLine_Ok.
  - intros f Hf'. rewrite Hh in Hf'. injection Hf' as <-. lia.
Qed.

End posting_facts.

(** ** Reversal *)

Lemma reverseEntry_Ok o input clock : entry_wf o -> trim (rv_reason input) <> "" -> trim (rv_actor input) <> "" ->
  reversalOf o = None -> status o = POSTED ->
  exists id evs rv, reverseEntry o input clock =
    Ok (MkReversalResult (o <| status := REVERSED |> <| reversedBy := Some id |>) rv evs) /\
    lines rv = flip_line <$> lines o /\ status rv = POSTED /\ reversalOf rv = Some (entryId o) /\
    entryId rv = id /\ orgId rv = orgId o /\ reason rv = Some (trim (rv_reason input)) /\ length evs = 2%nat.
Proof.
  intros [Hl Hp Hs] Hr Ha Hrev Hst. unfold reverseEntry.
  rewrite !(proj2 (assertNonBlank_Ok _ _ _) (conj eq_refl Hr)). cbn [mbind result_bind].
  rewrite !(proj2 (assertNonBlank_Ok _ _ _) (conj eq_refl Ha)). cbn [mbind result_bind].
  rewrite (decide_False (P := reversalOf o <> None)) by (intros Hne; by apply Hne).
  rewrite (decide_False (P := status o <> POSTED)) by (intros Hne; by apply Hne).
  assert (exists id, entryIdOf (rv_entryId input) ("ledger.reversal:" +:+ entryId o) = Ok id) as [id Hid].
  { destruct (rv_entryId input) as [id|]; cbn; [eauto|].
    destruct (uuidFromSeed_shape ("ledger.reversal:" +:+ entryId o)) as (id & -> & _). eauto. }
  rewrite Hid. cbn [mbind result_bind].
  rewrite (proj2 (assertBalanced_iff _ tt)) by (by apply flip_wf). cbn [mbind result_bind].
  destruct (lines o) as [|first ls] eqn:El; [by destruct Hl|]. rewrite fmap_cons. unfold entryPostedEvent, minorUnits.
  cbn [amountMinor flip_line]. inversion Hp; subst. specialize (Hs first eq_refl). rewrite decide_False by lia.
  cbn [mbind result_bind]. eexists _, _, _. split_and!; try reflexivity.
Qed.

Lemma reverseEntry_inv o input clock r : reverseEntry o input clock = Ok r ->
  trim (rv_reason input) <> "" /\ trim (rv_actor input) <> "" /\ reversalOf o = None /\ status o = POSTED.
Proof.
  unfold reverseEntry. intros H. apply bind_Ok in H as (? & [_ Hr]%assertNonBlank_Ok & H).
  apply bind_Ok in H as (? & [_ Ha]%assertNonBlank_Ok & H). case_decide as G1; [done|]. case_decide as G2; [done|].
  split_and!; try done.
Qed.

Lemma flipped_entry_wf o rv : entry_wf o -> lines rv = flip_line <$> lines o -> entry_wf rv.
Proof.
  intros [W1 W2 W3] L1. split; rewrite L1; [by apply flip_wf|by apply Forall_fmap|].
  intros first Hf. destruct (lines o) as [|f ls]; [done|]. cbn in Hf. injection Hf as <-. exact (W3 f eq_refl).
Qed.

(** The store after a correction: the original's slot holds its marked version
    and the reversal is appended. *)
Definition after_correction (ledger : Ledger) (i : nat) (r : ReversalResult) : Ledger :=
  <[i := rr_original r]> ledger ++ [rr_reversal r].

Definition balance (ledger : Ledger) (acc : Account) : Z := accountBalanceMinor (lines <$> ledger) acc.

Lemma balance_app l1 l2 acc : balance (l1 ++ l2) acc = balance l1 acc + balance l2 acc.
Proof. unfold balance. by rewrite !accountBalance_sum, fmap_app, fmap_app, sumZ_app. Qed.

Lemma balance_insert ledger i o o' acc : ledger !! i = Some o -> lines o' = lines o ->
  balance (<[i := o']> ledger) acc = balance ledger acc.
Proof.
  intros Hi Hl. unfold balance. rewrite list_fmap_insert, Hl. rewrite list_insert_id; [done|].
  by rewrite list_lookup_fmap, Hi.
Qed.

(** Correcting a journal entry undoes it exactly, once, without editing it.
    A sound posted entry can always be reversed with a reason and an actor; the
    reversal is itself a balanced entry that refers to the original; with it the
    balance of every account is what it was without the original; the original
    keeps its lines, ids and timestamps and only changes status; and neither of
    the two can be reversed again. *)
Theorem correction_nets_to_zero (o : JournalEntry) (input : ReverseEntryInput) (clock : Clock) :
  entry_wf o -> trim (rv_reason input) <> "" -> trim (rv_actor input) <> "" ->
  reversalOf o = None -> status o = POSTED ->
  exists r, reverseEntry o input clock = Ok r /\
    entry_wf (rr_reversal r) /\ reversalOf (rr_reversal r) = Some (entryId o) /\
    rr_original r = o <| status := REVERSED |> <| reversedBy := Some (entryId (rr_reversal r)) |> /\
    (forall ledger i acc, ledger !! i = Some o ->
       balance (after_correction ledger i r) acc = balance ledger acc - net_of acc (lines o)) /\
    (forall input' clock', trim (rv_reason input') <> "" -> trim (rv_actor input') <> "" ->
       reverseEntry (rr_original r) input' clock' = Err (DomainError "LEDGER_ENTRY_NOT_REVERSIBLE") /\
       reverseEntry (rr_reversal r) input' clock' = Err (DomainError "LEDGER_REVERSAL_OF_REVERSAL")).
Proof.
  intros Hw Hr Ha Hrev Hst.
  destruct (reverseEntry_Ok o input clock Hw Hr Ha Hrev Hst) as (id & evs & rv & E & L1 & L2 & L3 & L4 & _).
  eexists. split; [exact E|]. cbn [rr_original rr_reversal]. split_and!; [|done|by rewrite L4| |].
  - by apply (flipped_entry_wf o).
  - intros ledger i acc Hi. unfold after_correction. cbn [rr_original rr_reversal].
    rewrite balance_app, (balance_insert ledger i o) by done. unfold balance at 2.
    rewrite accountBalance_sum, fmap_cons. cbn. rewrite sumZ_cons, sumZ_nil, L1, net_of_flip. lia.
  - intros input' clock' Hr' Ha'. unfold reverseEntry.
    rewrite !(proj2 (assertNonBlank_Ok _ _ _) (conj eq_refl Hr')). cbn [mbind result_bind].
    rewrite !(proj2 (assertNonBlank_Ok _ _ _) (conj eq_refl Ha')). cbn [mbind result_bind].
    rewrite L3. cbn. rewrite Hrev. done.
Qed.

Definition sample_entry : JournalEntry :=
  MkJournalEntry "e" "org" "t" "t" "payments.paymentCompleted" "s" "ref" "ops" POSTED
    (matrix_lines (MkMatrixRow CASH AR_CONTROL) 500 KES) None None None.

Lemma sample_entry_wf : entry_wf sample_entry.
Proof.
  split.
  - by apply (matrix_lines_wf "payments.paymentCompleted").
  - by repeat constructor.
  - intros first [= <-]. vm_compute. discriminate.
Qed.

Lemma correction_nets_to_zero_witness :
  exists r, reverseEntry sample_entry (MkReverseEntryInput None "wrong payer" "ops" None) (fixed_clock 0) = Ok r /\
    balance (after_correction [sample_entry] 0 r) CASH = 0.
Proof.
  destruct (correction_nets_to_zero sample_entry (MkReverseEntryInput None "wrong payer" "ops" None) (fixed_clock 0))
    as (r & E & _ & _ & _ & H & _).
  - exact sample_entry_wf.
  - discriminate.
  - discriminate.
  - reflexivity.
  - reflexivity.
  - exists r. split; [exact E|]. rewrite (H [sample_entry] 0%nat CASH eq_refl). vm_compute. reflexivity.
Defined.

(** ** The ledger over time *)

Inductive ledger_step (date_parses : string -> bool) : Ledger -> Ledger -> Prop :=
| lstep_post ledger ev clock supplied e evs :
    post date_parses ev ledger clock supplied = Ok (posted e evs) -> ledger_step date_parses ledger (ledger ++ [e])
| lstep_entry ledger input clock e evs :
    postEntry date_parses input ledger clock = Ok (posted e evs) -> ledger_step date_parses ledger (ledger ++ [e])
| lstep_reverse ledger i o input clock r :
    ledger !! i = Some o -> reverseEntry o input clock = Ok r ->
    ledger_step date_parses ledger (after_correction ledger i r).

(** The idempotency keys of the entries that are not reversals. *)
Definition movement_keys (ledger : Ledger) : list (string * Uuid) :=
  (fun e => (orgId e, sourceEventId e)) <$> List.filter (fun e => bool_decide (reversalOf e = None)) ledger.

Record ledger_wf (ledger : Ledger) : Prop := {
  ledger_entries : Forall entry_wf ledger;
  ledger_keys : NoDup (movement_keys ledger);
}.

Lemma movement_keys_app l1 l2 : movement_keys (l1 ++ l2) = movement_keys l1 ++ movement_keys l2.
Proof. unfold movement_keys. by rewrite List.filter_app, fmap_app. Qed.

Lemma fresh_entry_wf ledger e : ledger_wf ledger -> fresh_entry ledger e -> ledger_wf (ledger ++ [e]).
Proof.
  intros [Hw Hk] (He & _ & Hr & Hf). split.
  - apply Forall_app. split; [done|]. by apply Forall_singleton.
  - rewrite movement_keys_app. apply NoDup_app. split_and!; [done| |].
    + intros k (x & -> & [Hin _]%list_elem_of_In%filter_In)%list_elem_of_fmap Hk'.
      unfold movement_keys in Hk'. simpl in Hk'. rewrite bool_decide_eq_true_2 in Hk' by done.
      apply findPostedEntry_None in Hf. rewrite Forall_forall in Hf. rewrite <- list_elem_of_In in Hin.
      apply (Hf x Hin). apply list_elem_of_singleton in Hk'. naive_solver.
    + unfold movement_keys. simpl. case_bool_decide; [apply NoDup_singleton|constructor].
Qed.

Lemma correction_wf ledger i o input clock r : ledger_wf ledger -> ledger !! i = Some o ->
  reverseEntry o input clock = Ok r -> ledger_wf (after_correction ledger i r).
Proof.
  intros [Hw Hk] Hi H. pose proof (Forall_lookup_1 _ _ _ _ Hw Hi) as Ho.
  destruct (reverseEntry_inv _ _ _ _ H) as (Hr & Ha & Hrev & Hst).
  destruct (reverseEntry_Ok o input clock Ho Hr Ha Hrev Hst) as (id & evs & rv & E & L1 & L2 & L3 & _).
  rewrite E in H. injection H as <-. unfold after_correction. cbn [rr_original rr_reversal].
  pose proof Ho as [W1 W2 W3]. split.
  - apply Forall_app. split; [apply Forall_insert; [done|by split]|]. apply Forall_singleton.
    by apply (flipped_entry_wf o).
  - rewrite movement_keys_app. unfold movement_keys at 2. simpl List.filter.
    rewrite bool_decide_eq_false_2 by (by rewrite L3). rewrite app_nil_r.
    unfold movement_keys in *. rewrite <- (take_drop_middle ledger i o) in Hk by done.
    rewrite insert_take_drop by (by eapply lookup_lt_Some).
    rewrite !List.filter_app, !fmap_app in *. simpl in *. rewrite Hrev in *. exact Hk.
Qed.

(** C4: The ledger always balances (R4).  Whatever sequence of postings, general
    journal entries and corrections is applied to an empty ledger, every entry
    is a single-currency set of positive lines with equal debits and credits
    over at least two accounts, the trial balance over the whole chart of
    accounts is zero, and no movement is posted twice for the same organisation. *)
Theorem ledger_always_balances (date_parses : string -> bool) (ledger : Ledger) :
  rtc (ledger_step date_parses) [] ledger ->
  Forall entry_wf ledger /\ sumZ (balance ledger <$> ACCOUNTS) = 0 /\ NoDup (movement_keys ledger).
Proof.
  intros Hr. assert (ledger_wf ledger) as [Hw Hk].
  { assert (ledger_wf []) as H0 by (split; constructor). revert H0.
    induction Hr as [|x y z Hxy _ IH]; [done|]. intros Hx. apply IH. destruct Hxy as [l ev clock sup e evs H|l inp clock e evs H|].
    - apply fresh_entry_wf; [done|]. by apply (post_posted date_parses ev l clock sup e evs).
    - apply fresh_entry_wf; [done|]. by eapply postEntry_posted.
    - by eapply correction_wf. }
  split_and!; [done| |done]. clear -Hw. induction Hw as [|e ledger [[_ _ Hb _] _ _] _ IH]; [done|].
  enough (sumZ (balance (e :: ledger) <$> ACCOUNTS) =
    sumZ ((fun acc => net_of acc (lines e)) <$> ACCOUNTS) + sumZ (balance ledger <$> ACCOUNTS)) as ->.
  { rewrite net_of_total, Hb. lia. }
  assert (forall acc, balance (e :: ledger) acc = net_of acc (lines e) + balance ledger acc) as Hbal.
  { intros acc. unfold balance. by rewrite !accountBalance_sum, fmap_cons, fmap_cons, sumZ_cons. }
  unfold ACCOUNTS. rewrite !fmap_cons, !sumZ_cons, !Hbal. cbn. rewrite sumZ_nil. lia.
Qed.

Definition any_date (s : string) : bool := true.
Definition sample_event : MoneyMovementEvent :=
  MkMoneyMovementEvent "payments.paymentCompleted" "00000000-0000-0000-0000-000000000001" " org " "2025-01-31T10:00:00Z"
    (Big 500) "KES" "QWE123" "daraja".

Lemma ledger_always_balances_witness :
  exists e evs, post any_date sample_event [] (fixed_clock 0) None = Ok (posted e evs) /\
    balance [e] CASH = 500 /\ sumZ (balance [e] <$> ACCOUNTS) = 0.
Proof.
  destruct (post any_date sample_event [] (fixed_clock 0) None) as [[e evs|e evs]|] eqn:E; try (vm_compute in E; discriminate E).
  exists e, evs. split; [reflexivity|]. split.
  - vm_compute in E. injection E as <- <-. reflexivity.
  - apply (ledger_always_balances any_date [e]). apply rtc_once. exact (lstep_post _ [] _ _ _ _ _ E).
Defined.

(** ** Replay *)

Lemma movementDrift_false e ev row amt cur date_parses : event_ok date_parses ev row amt cur ->
  lines e = matrix_lines row amt cur -> sourceEventName e = ev_name ev -> je_occurredAt e = ev_occurredAt ev ->
  movementDrift e ev = Ok false.
Proof.
  intros (_ & _ & _ & _ & _ & _ & Hm & Hc) Hl Hn Ho. unfold movementDrift.
  rewrite decide_False by (intros Hne; by apply Hne). rewrite decide_False by (intros Hne; by apply Hne).
  rewrite Hl. cbn [matrix_lines]. rewrite Hm. cbn [mbind result_bind amountMinor line_currency].
  rewrite decide_False by (intros Hne; by apply Hne). apply assertCurrency_Ok in Hc. rewrite Hc.
  rewrite bool_decide_eq_false_2; [done|]. intros Hne. by apply Hne.
Qed.

(** C8: Posting is idempotent on (organisation, source event).  Once an event
    has been posted as entry [e], then on any later ledger the same event is
    answered with [e] itself and no events; and any event that is accepted under
    the same organisation and source id is such a replay: it carries the posted
    name, occurrence time, amount and currency, otherwise it was refused.  The
    entry posted is the matrix row's debit and credit of the amount. *)
Theorem posting_is_idempotent (date_parses : string -> bool) (ev : MoneyMovementEvent) (ledger : Ledger) (clock : Clock)
    (supplied : option Uuid) (e : JournalEntry) (evs : list LedgerLaneEvent) :
  post date_parses ev ledger clock supplied = Ok (posted e evs) ->
  (exists row amt cur, isPostableEvent (ev_name ev) = Some row /\ safeMinor (ev_amountMinor ev) = Some amt /\
     currency_of_string (ev_currency ev) = Some cur /\ lines e = matrix_lines row amt cur) /\
  (forall later clock' supplied', (ledger ++ [e]) `prefix_of` later ->
     post date_parses ev later clock' supplied' = Ok (already_posted e [])) /\
  (forall later ev' clock' supplied' r, (ledger ++ [e]) `prefix_of` later ->
     trim (ev_orgId ev') = trim (ev_orgId ev) -> ev_sourceEventId ev' = ev_sourceEventId ev ->
     post date_parses ev' later clock' supplied' = Ok r ->
     r = already_posted e [] /\ ev_name ev' = ev_name ev /\ ev_occurredAt ev' = ev_occurredAt ev /\
     safeMinor (ev_amountMinor ev') = safeMinor (ev_amountMinor ev) /\ ev_currency ev' = ev_currency ev).
Proof.
  intros H. destruct (post_posted _ _ _ _ _ _ _ H) as ((_ & _ & _ & Hf) & row & amt & cur & Hok & Hl & Ho & Hs & Hn & Ht).
  pose proof Hok as (Hrow & _ & _ & _ & _ & _ & Hm & Hc).
  assert (forall later, (ledger ++ [e]) `prefix_of` later ->
    findPostedEntry later (trim (ev_orgId ev)) (ev_sourceEventId ev) = Some e) as Hfind.
  { intros later [rest ->]. rewrite <- app_assoc. rewrite <- Ho, <- Hs. by apply findPostedEntry_prefix. }
  split_and!.
  - exists row, amt, cur. split_and!; [done|by apply movementMinor_Ok| |done].
    unfold assertCurrency in Hc. destruct (currency_of_string _); [by injection Hc as ->|done].
  - intros later clock' supplied' Hp. rewrite (post_reduces date_parses ev row amt cur) by done. rewrite Hfind by done.
    unfold assertSameMovement. by rewrite (movementDrift_false e ev row amt cur date_parses).
  - intros later ev' clock' supplied' r Hp Horg Hsrc Hr.
    destruct (post_checks _ _ _ _ _ _ Hr) as (row' & amt' & cur' & Hok').
    rewrite (post_reduces date_parses ev' row' amt' cur') in Hr by done. rewrite Horg, Hsrc, Hfind in Hr by done.
    apply bind_Ok in Hr as (u & Hsame & [= <-]). unfold assertSameMovement in Hsame.
    apply bind_Ok in Hsame as (drift & Hd & Hsame). case_decide as G; [done|]. unfold movementDrift in Hd.
    case_decide as G1; [congruence|]. case_decide as G2; [congruence|]. rewrite Hl in Hd. cbn [matrix_lines] in Hd.
    apply bind_Ok in Hd as (m & Hm' & Hd). case_decide as G3; [congruence|]. cbn in G3, Hd.
    apply movementMinor_Ok in Hm as [Hm _]. apply movementMinor_Ok in Hm' as [Hm' _].
    apply assertCurrency_Ok in Hc. injection Hd as Hd. rewrite <- Hd in G.
    split_and!; try congruence. apply not_true_is_false, bool_decide_eq_false in G.
    rewrite <- Hc. symmetry. by apply dec_stable.
Qed.

Lemma posting_is_idempotent_witness :
  exists e evs, post any_date sample_event [] (fixed_clock 0) None = Ok (posted e evs) /\
    post any_date sample_event [e] (fixed_clock 99) None = Ok (already_posted e []).
Proof.
  destruct (post any_date sample_event [] (fixed_clock 0) None) as [[e evs|e evs]|] eqn:E; try (vm_compute in E; discriminate E).
  exists e, evs. split; [reflexivity|].
  apply (posting_is_idempotent any_date sample_event [] (fixed_clock 0) None e evs E). reflexivity.
Defined.
