(* ===== verification/LedgerReconciliation.v ===== *)
(** * The daily reconciliation job (src/domain/ledger/reconciliation.ts)

    Compares the sum of the open receivable balances with the AR control account
    derived from the journal, for one organisation and one currency.  Whether a
    well-shaped date is a real one is the parameter [date_parses]. *)

From stdpp Require Import prelude strings list.
From Stdlib Require Import ZArith Lia.
From S2P Require Import Prelude JsNumber JsString JsDate Money Events Accounts Journal.
Local Open Scope string_scope.
Local Open Scope list_scope.
Local Open Scope Z_scope.
Local Open Scope js_scope.


Record DailyReconciliationJobSpec := MkDailyReconciliationJobSpec {
  jobId : Uuid;
  job_orgId : string;
  job_currency : Currency;
  runDate : string;
}.



Inductive ReconciliationPayload :=
| ReconciliationDriftDetectedPayload (jobId : Uuid) (runDate orgId : string) (currency : Currency)
    (subLedgerBalanceMinor glBalanceMinor driftMinor openReceivableCount postedEntryCount : Z)
| ReconciliationMatchedPayload (jobId : Uuid) (runDate orgId : string) (currency : Currency)
    (balanceMinor openReceivableCount postedEntryCount : Z).
Notation ReconciliationEvent := (DomainEvent ReconciliationPayload).





Section job.
  Context (date_parses : string -> bool).

Definition assertRunDate (date : string) : result string :=
  refuse (RUN_DATE date = false \/ date_parses (date +:+ "T00:00:00.000Z") = false)
    with "LEDGER_RECON_DATE_INVALID" ;;
  Ok date.

Definition dailyReconciliationJob (org : string) (c : Currency) (date : string) : result DailyReconciliationJobSpec :=
  date ← assertRunDate date;
  refuse (trim org = "") with "LEDGER_ORG_REQUIRED" ;;
  id ← uuidFromSeed ("ledger.recon:" +:+ org +:+ ":" +:+ show_currency c +:+ ":" +:+ date);
  Ok (MkDailyReconciliationJobSpec id org c date).


End job.

(** ** The specification *)



















