(* ===== verification/JsJson.v ===== *)
(** * JSON values and their printed forms

    The dynamic values ([unknown]) that snapshots and event payloads hold,
    [String(number)] and [JSON.stringify] of a string.  An object is its own
    enumerable members in [Object.entries] order; values are trees, so cyclic
    references do not arise. *)

From stdpp Require Import prelude strings list.
From Stdlib Require Import ZArith Lia Ascii SpecFloat.
From S2P Require Import Prelude JsNumber JsString.
Local Open Scope string_scope.
Local Open Scope list_scope.
Local Open Scope Z_scope.
Local Open Scope js_scope.

(** ** [String(x)] for a number

    ECMAScript's Number::toString: the shortest digits [s] such that
    [s * 10 ^ (n - k)] rounds to [x], and among those the closest to [x]. *)

(** The double nearest to [s * 10 ^ p]. *)
Definition decimalToNumber (s : positive) (p : Z) : number :=
  if 0 <=? p then num (Zpos s * 10 ^ p)
  else SFdiv 53 1024 (S754_finite false s 0) (S754_finite false (Z.to_pos (10 ^ (- p))) 0).

(** The exact value of [m * 2 ^ e] as a fraction. *)
Definition exactValue (m : positive) (e : Z) : Z * Z :=
  if 0 <=? e then (Zpos m * 2 ^ e, 1) else (Zpos m, 2 ^ (- e)).

(** [n] with [10 ^ (n - 1) <= a / b < 10 ^ n], searched around an estimate. *)
Definition pow10_le (a b n : Z) : bool := if 0 <=? n then 10 ^ n * b <=? a else b <=? a * 10 ^ (- n).
Definition decimalExponent (a b : Z) : Z :=
  let guess := (Z.log2 a - Z.log2 b) * 30103 / 100000 in
  default guess (List.find (fun n => pow10_le a b (n - 1) && negb (pow10_le a b n)) (seqZ (guess - 2) 6)).

(** The [k]-digit candidates around [a / b], at most two, that read back as [x],
    the closest first. *)
Definition candidates (x : number) (a b n k : Z) : list (Z * Z) :=
  let p := n - k in
  let '(u, v) := if 0 <=? p then (a, b * 10 ^ p) else (a * 10 ^ (- p), b) in
  let lo := u / v in
  let pair := if 2 * (u - lo * v) <=? v then [lo; lo + 1] else [lo + 1; lo] in
  List.filter (fun c => (0 <? c.1) && SFeqb (decimalToNumber (Z.to_pos c.1) c.2) x) ((fun s => (s, p)) <$> pair).

Fixpoint drop_while {A} (f : A -> bool) (l : list A) : list A :=
  match l with
  | [] => []
  | x :: l' => if f x then drop_while f l' else l
  end.

(** A candidate that rounded up to a power of ten ends in a zero. *)
Definition stripZeros (ds : chars) : chars :=
  reverse (drop_while (fun c => charCode c =? 48) (reverse ds)).

(** The digits and the exponent [n]; seventeen digits always suffice. *)
Definition shortestDigits (m : positive) (e : Z) : chars * Z :=
  let '(a, b) := exactValue m e in
  let n := decimalExponent a b in
  let x := S754_finite false m e in
  match head (mjoin ((candidates x a b n) <$> seqZ 1 17)) with
  | Some (s, p) => let ds := show_base 10 s in (stripZeros ds, Z.of_nat (length ds) + p)
  | None => (show_base 10 a, Z.of_nat (length (show_base 10 a)))
  end.

Definition zeros (n : Z) : chars := replicate (Z.to_nat n) "0"%char.

Definition layoutDigits (ds : chars) (n : Z) : chars :=
  let k := Z.of_nat (length ds) in
  if (k <=? n) && (n <=? 21) then ds ++ zeros (n - k)
  else if (0 <? n) && (n <=? 21) then take (Z.to_nat n) ds ++ "."%char :: drop (Z.to_nat n) ds
  else if (-6 <? n) && (n <=? 0) then "0"%char :: "."%char :: zeros (- n) ++ ds
  else
    let e := n - 1 in
    let exponent := "e"%char :: (if 0 <=? e then "+"%char else "-"%char) :: show_base 10 (Z.abs e) in
    match ds with
    | [d] => d :: exponent
    | d :: rest => d :: "."%char :: rest ++ exponent
    | [] => exponent
    end.

Definition show_number (x : number) : string :=
  match x with
  | S754_nan => "NaN"
  | S754_infinity s => if s then "-Infinity" else "Infinity"
  | S754_zero _ => "0"
  | S754_finite s m e =>
      let '(ds, n) := shortestDigits m e in
      implode ((if s then ["-"%char] else []) ++ layoutDigits ds n)
  end.

Example show_number_samples :
  show_number (num 0) = "0" /\ show_number (num (-12)) = "-12" /\
  show_number (ndiv (num 1) (num 10)) = "0.1" /\ show_number (num (10 ^ 21)) = "1e+21" /\
  show_number (num (2 ^ 53)) = "9007199254740992" /\ show_number (ndiv (num 1) (num 3)) = "0.3333333333333333" /\
  show_number (ndiv (num 1) (num (10 ^ 7))) = "1e-7" /\ show_number (ndiv (num 123) (num 100)) = "1.23" /\
  show_number (S754_finite false 1 (-1074)) = "5e-324".
Proof. vm_compute. repeat split. Qed.

(** ** [JSON.stringify] of a string *)

Definition quote : ascii := charOf 34.
Definition backslash : ascii := charOf 92.

Definition escapeChar (c : ascii) : chars :=
  let n := charCode c in
  if (n =? 34) || (n =? 92) then [backslash; c]
  else if n =? 8 then [backslash; "b"%char]
  else if n =? 9 then [backslash; "t"%char]
  else if n =? 10 then [backslash; "n"%char]
  else if n =? 12 then [backslash; "f"%char]
  else if n =? 13 then [backslash; "r"%char]
  else if n <? 32 then backslash :: "u"%char :: padStart 4 "0" (show_base 16 n)
  else [c].

Definition stringify (s : string) : chars :=
  quote :: mjoin (escapeChar <$> explode s) ++ [quote].

(** ** Values *)

(** [JInstance] is an object whose prototype is not [Object.prototype] or null. *)
Inductive jvalue :=
| JNull
| JUndefined
| JBool (b : bool)
| JNumber (x : number)
| JBigInt (z : Z)
| JString (s : string)
| JFunction
| JArray (items : list jvalue)
| JObject (members : list (string * jvalue))
| JInstance (members : list (string * jvalue)).

(** The names an object literal inherits from [Object.prototype]. *)
Definition inherited_methods : list string :=
  ["constructor"; "hasOwnProperty"; "isPrototypeOf"; "propertyIsEnumerable"; "toLocaleString"; "toString"; "valueOf";
   "__defineGetter__"; "__defineSetter__"; "__lookupGetter__"; "__lookupSetter__"].

(** Comparison of doubles: exact on integral values, [SFcompare] otherwise ([None] with a NaN).
    On doubles in canonical form the two agree. *)
Definition ncompare (a b : number) : option comparison :=
  match integerValue a, integerValue b with
  | Some x, Some y => Some (x ?= y)
  | _, _ => SFcompare a b
  end.

(** [===]; two objects of the model are never the same reference. *)
Definition strict_equal (a b : jvalue) : bool :=
  match a, b with
  | JNull, JNull | JUndefined, JUndefined => true
  | JBool x, JBool y => Bool.eqb x y
  | JNumber x, JNumber y => bool_decide (ncompare x y = Some Eq)
  | JBigInt x, JBigInt y => x =? y
  | JString x, JString y => bool_decide (x = y)
  | _, _ => false
  end.

(** [Array.prototype.includes]: as [===], with NaN equal to itself. *)
Definition same_value_zero (a b : jvalue) : bool :=
  match a, b with
  | JNumber S754_nan, JNumber S754_nan => true
  | _, _ => strict_equal a b
  end.

(** ** [JSON.stringify] of a value without a [toJSON] method: [None] is [undefined], and a
    bigint is a [TypeError]. *)

Definition joinWith (sep : ascii) (ws : list chars) : chars :=
  match ws with [] => [] | w :: ws => w ++ mjoin ((cons sep) <$> ws) end.

Definition memberJson (key : string) (text : chars) : chars := stringify key ++ ":"%char :: text.

Fixpoint JSON_stringify (v : jvalue) : result (option chars) :=
  let members := fix members (es : list (string * jvalue)) : result (list chars) :=
    match es with
    | [] => Ok []
    | (key, x) :: es =>
        text ← JSON_stringify x;
        rest ← members es;
        Ok (match text with Some t => memberJson key t :: rest | None => rest end)
    end in
  let object := fun es => ws ← members es; Ok (Some ("{"%char :: joinWith "," ws ++ ["}"%char])) in
  match v with
  | JNull => Ok (Some (explode "null"))
  | JUndefined | JFunction => Ok None
  | JBool b => Ok (Some (explode (if b then "true" else "false")))
  | JNumber x => Ok (Some (explode (if isFinite x then show_number x else "null")))
  | JBigInt _ => Err PlainError
  | JString s => Ok (Some (stringify s))
  | JArray items =>
      ws ← (fix items (l : list jvalue) : result (list chars) :=
              match l with
              | [] => Ok []
              | x :: l => text ← JSON_stringify x; rest ← items l; Ok (default (explode "null") text :: rest)
              end) items;
      Ok (Some ("["%char :: joinWith "," ws ++ ["]"%char]))
  | JObject es | JInstance es => object es
  end.

Definition is_scalar (v : jvalue) : bool :=
  match v with JArray _ | JObject _ | JInstance _ => false | _ => true end.

Section jvalue_induction.
  Variable P : jvalue -> Prop.
  Hypothesis Hscalar : forall v, is_scalar v = true -> P v.
  Hypothesis Harray : forall l, Forall P l -> P (JArray l).
  Hypothesis Hobject : forall es, Forall (fun e => P e.2) es -> P (JObject es).
  Hypothesis Hinstance : forall es, Forall (fun e => P e.2) es -> P (JInstance es).

Fixpoint jvalue_rec' (v : jvalue) : P v :=
  let members := fix go (es : list (string * jvalue)) : Forall (fun e => P e.2) es :=
    match es with
    | [] => Forall_nil_2 _
    | e :: es' => Forall_cons_2 _ _ _ (jvalue_rec' e.2) (go es')
    end in
  match v with
  | JArray l =>
      Harray l ((fix go (l : list jvalue) : Forall P l :=
        match l with
        | [] => Forall_nil_2 _
        | x :: l' => Forall_cons_2 _ _ _ (jvalue_rec' x) (go l')
        end) l)
  | JObject es => Hobject es (members es)
  | JInstance es => Hinstance es (members es)
  | v => Hscalar v eq_refl
  end.
End jvalue_induction.

(** ** Printed numbers consist of digits, signs, a point and an exponent *)

Definition number_char (c : ascii) : bool :=
  is_digit c || (charCode c =? 43) || (charCode c =? 45) || (charCode c =? 46) || (charCode c =? 101).

Notation number_text l := (Forall (fun c => number_char c = true) l).

Lemma show_base_text n : 0 <= n -> number_text (show_base 10 n).
Proof.
  intros Hn. destruct (digits_of_spec 10 n) as (_ & Hr & _); [lia..|]. unfold show_base.
  rewrite Forall_fmap. eapply Forall_impl; [exact Hr|]. intros d Hd. cbn.
  destruct (digit_value_char d Hd) as [_ Hdig]. unfold number_char. by rewrite Hdig.
Qed.

Lemma drop_while_suffix {A} (f : A -> bool) l : exists l', l = l' ++ drop_while f l /\ Forall (fun x => f x = true) l'.
Proof.
  induction l as [|x l (l' & E & Hl)]; cbn; [by exists []|].
  destruct (f x) eqn:Hx; [|by exists []]. exists (x :: l'). cbn. rewrite <- E. split; [done|by constructor].
Qed.

Lemma stripZeros_prefix ds : exists zs, ds = stripZeros ds ++ zs /\ Forall (fun c => (charCode c =? 48) = true) zs.
Proof.
  unfold stripZeros. destruct (drop_while_suffix (fun c => charCode c =? 48) (reverse ds)) as (l & E & Hl).
  exists (reverse l). rewrite <- reverse_app, <- E, reverse_involutive. split; [done|by rewrite Forall_reverse].
Qed.

Lemma read_zeros zs : Forall (fun c => (charCode c =? 48) = true) zs -> read_dec zs = 0.
Proof.
  unfold read_dec, of_digits, digit_value. induction 1 as [|c zs Hc Hzs IH]; [done|]. cbn.
  apply Z.eqb_eq in Hc. rewrite Hc. exact IH.
Qed.

Lemma stripZeros_nonempty n : 0 < n -> stripZeros (show_base 10 n) <> [].
Proof.
  intros Hn E. destruct (stripZeros_prefix (show_base 10 n)) as (zs & Hzs & Hz).
  rewrite E, app_nil_l in Hzs. pose proof (read_show_dec n ltac:(lia)) as Hr.
  rewrite Hzs, read_zeros in Hr by done. lia.
Qed.

Lemma show_base_nonempty n : 0 <= n -> show_base 10 n <> [].
Proof.
  intros Hn. destruct (digits_of_spec 10 n) as (Hne & _); [lia..|]. unfold show_base.
  by destruct (digits_of 10 n).
Qed.

Lemma shortestDigits_text m e : number_text (shortestDigits m e).1 /\ (shortestDigits m e).1 <> [].
Proof.
  unfold shortestDigits. destruct (exactValue m e) as [a b] eqn:Hab.
  assert (0 < a) as Ha.
  { unfold exactValue in Hab. destruct (Z.leb_spec 0 e); injection Hab as <- <-; [|lia].
    apply Z.mul_pos_pos; [lia|]. by apply Z.pow_pos_nonneg. }
  destruct (head _) as [[s p]|] eqn:Hhd; cbn.
  - assert (0 < s) as Hs.
    { apply head_Some_elem_of, list_elem_of_join in Hhd as (l & Hl & Hin).
      apply list_elem_of_fmap in Hin as (k & -> & _). unfold candidates in Hl.
      destruct (if 0 <=? _ then _ else _) as [u v].
      apply list_elem_of_In, filter_In in Hl as [_ Hl]. cbn in Hl. apply andb_prop in Hl as [Hl _]. lia. }
    split; [|by apply stripZeros_nonempty].
    pose proof (show_base_text s ltac:(lia)) as Ht.
    destruct (stripZeros_prefix (show_base 10 s)) as (zs & Hzs & _). rewrite Hzs in Ht.
    by apply Forall_app in Ht as [Ht _].
  - split; [apply show_base_text|apply show_base_nonempty]; lia.
Qed.

Lemma zeros_text n : number_text (zeros n).
Proof. unfold zeros. by apply Forall_replicate. Qed.

Lemma layoutDigits_text ds n : number_text ds -> ds <> [] -> number_text (layoutDigits ds n) /\ layoutDigits ds n <> [].
Proof.
  intros Hd Hne. unfold layoutDigits.
  assert (forall e, number_text ("e"%char :: (if 0 <=? e then "+"%char else "-"%char) :: show_base 10 (Z.abs e))) as He.
  { intros e. constructor; [done|]. constructor; [by destruct (0 <=? e)|]. apply show_base_text. lia. }
  specialize (He (n - 1)). pose proof (zeros_text (n - Z.of_nat (length ds))). pose proof (zeros_text (- n)).
  destruct (_ && _); [split; [by apply Forall_app|by destruct ds]|].
  destruct (_ && _); [split; [apply Forall_app; split; [by apply Forall_take|constructor; [done|by apply Forall_drop]]|]|].
  { destruct (take _ _); done. }
  destruct (_ && _); [split; [|done]; do 2 (constructor; [done|]); by apply Forall_app|].
  destruct ds as [|d [|d' ds]]; [done| |].
  - split; [|done]. constructor; [by inversion Hd|done].
  - split; [|done]. inversion Hd; subst. constructor; [done|]. constructor; [done|]. by apply Forall_app.
Qed.

Lemma show_number_text x : isFinite x = true ->
  number_text (explode (show_number x)) /\ explode (show_number x) <> [].
Proof.
  destruct x as [s| | |s m e]; try done; intros _; cbn [show_number].
  - split; [by repeat constructor|done].
  - pose proof (shortestDigits_text m e) as [Ht Hne].
    destruct (shortestDigits m e) as [ds n]. cbn in Ht, Hne. rewrite explode_implode.
    destruct (layoutDigits_text ds n Ht Hne) as [Hl Hln]. split.
    + apply Forall_app. split; [destruct s; by repeat constructor|done].
    + destruct s; [done|]. exact Hln.
Qed.
