(* ===== verification/AuditRedact.v ===== *)
(** * Audit redaction

    src/domain/audit/redact.ts: the data-minimisation gate of the audit trail.
    [validateSnapshotShape] (with its depth limit), [redact] and
    [redactSnapshot].  Freezing is the identity on immutable values, and the
    [seen] set only guards against cycles, which trees do not have. *)

From stdpp Require Import prelude strings list.
From Stdlib Require Import ZArith Lia Ascii.
From S2P Require Import Prelude JsNumber JsString JsJson.
Local Open Scope string_scope.
Local Open Scope list_scope.
Local Open Scope Z_scope.
Local Open Scope js_scope.

(** ** Forbidden keys *)

Definition FORBIDDEN_KEYS : list string :=
  ["password"; "secret"; "token"; "apikey"; "authorization"; "pin"].

Definition MAX_SNAPSHOT_DEPTH : Z := 24.

(** The class [a-z0-9]. *)
Definition is_lower_alnum (c : ascii) : bool := in_range 97 122 c || is_digit c.

Definition isForbiddenKey (key : string) : bool :=
  let normalized := List.filter is_lower_alnum (lowerChar <$> explode key) in
  existsb (fun word => includes normalized (explode word)) FORBIDDEN_KEYS.

Arguments isForbiddenKey : simpl never.

(** ** Structural validation *)

Definition invalid {A} : result A := Err (DomainError "AUDIT_SNAPSHOT_INVALID").

(** [xs.forEach(f)] where [f] can throw. *)
Fixpoint forEach {A} (f : A -> result unit) (l : list A) : result unit :=
  match l with
  | [] => Ok tt
  | x :: l' => _ ← f x; forEach f l'
  end.

Fixpoint validateSnapshotShape (depth : Z) (value : jvalue) : result unit :=
  if decide (MAX_SNAPSHOT_DEPTH < depth) then invalid else
  match value with
  | JNull | JString _ | JBool _ => Ok tt
  | JNumber x => if isFinite x then Ok tt else invalid
  | JBigInt _ | JUndefined | JFunction => invalid
  | JArray items => forEach (validateSnapshotShape (depth + 1)) items
  | JObject members =>
      forEach (fun e =>
        match e.2 with
        | JUndefined => invalid
        | _ => validateSnapshotShape (depth + 1) e.2
        end) members
  | JInstance _ => invalid
  end.

(** ** Redaction *)

Fixpoint redact (value : jvalue) : jvalue :=
  let keep := fix keep (es : list (string * jvalue)) : list (string * jvalue) :=
    match es with
    | [] => []
    | (key, member) :: es' =>
        if isForbiddenKey key then keep es' else (key, redact member) :: keep es'
    end in
  match value with
  | JArray items => JArray (redact <$> items)
  | JObject members | JInstance members => JObject (keep members)
  | v => v
  end.

Definition redactSnapshot (value : jvalue) : result jvalue :=
  _ ← validateSnapshotShape 0 value; Ok (redact value).

(** ** What redaction promises *)

(** No forbidden key at any depth. *)
Fixpoint clean (value : jvalue) : bool :=
  match value with
  | JArray items => forallb clean items
  | JObject members | JInstance members => forallb (fun e => negb (isForbiddenKey e.1) && clean e.2) members
  | _ => true
  end.

(** Reading a value through member keys and array indices. *)
Inductive access := Member (key : string) | Index (i : nat).

Definition find_member (key : string) (es : list (string * jvalue)) : option jvalue :=
  snd <$> List.find (fun e => bool_decide (e.1 = key)) es.

Fixpoint at_path (path : list access) (value : jvalue) : option jvalue :=
  match path with
  | [] => Some value
  | Member key :: rest =>
      match value with JObject es | JInstance es => find_member key es ≫= at_path rest | _ => None end
  | Index i :: rest =>
      match value with JArray l => l !! i ≫= at_path rest | _ => None end
  end.

Definition forbidden_access (a : access) : bool :=
  match a with Member key => isForbiddenKey key | Index _ => false end.

(** The members redaction keeps. *)
Definition keep (es : list (string * jvalue)) : list (string * jvalue) :=
  (fun e => (e.1, redact e.2)) <$> List.filter (fun e => negb (isForbiddenKey e.1)) es.

Lemma redact_object es : redact (JObject es) = JObject (keep es).
Proof.
  cbn. f_equal. unfold keep. induction es as [|[k v] es IH]; [done|]. cbn.
  destruct (isForbiddenKey k); cbn; [apply IH|]. f_equal. apply IH.
Qed.

Lemma redact_instance es : redact (JInstance es) = JObject (keep es).
Proof. apply redact_object. Qed.

#[local] Hint Rewrite redact_object redact_instance : redact.

Lemma keep_forbidden es e : e ∈ keep es -> isForbiddenKey e.1 = false.
Proof.
  unfold keep. intros (e' & -> & He)%list_elem_of_fmap. cbn.
  apply list_elem_of_In, filter_In in He as [_ He]. by apply negb_true_iff.
Qed.

Lemma clean_redact v : clean (redact v) = true.
Proof.
  induction v as [v Hv|l IH|es IH|es IH] using jvalue_rec'; autorewrite with redact.
  1: by destruct v.
  1: { cbn. rewrite forallb_Forall, Forall_fmap. exact IH. }
  all: cbn; rewrite forallb_Forall; unfold keep; rewrite Forall_fmap, Forall_forall; cbn;
    intros [k v] Hin%list_elem_of_In; apply filter_In in Hin as [Hin Hk]; cbn in *; rewrite Hk;
    rewrite Forall_forall in IH; apply list_elem_of_In in Hin; apply (IH _ Hin).
Qed.

Lemma forEach_Ok {A} (f : A -> result unit) l : forEach f l = Ok tt <-> Forall (fun x => f x = Ok tt) l.
Proof.
  induction l as [|x l IH]; cbn; [by split|]. rewrite Forall_cons, <- IH.
  destruct (f x) as [[]|]; cbn; naive_solver.
Qed.

Lemma validate_depth d v : validateSnapshotShape d v = Ok tt -> d <= MAX_SNAPSHOT_DEPTH.
Proof. destruct v; cbn; case_decide; try done; lia. Qed.

Lemma validate_object d es : validateSnapshotShape d (JObject es) = Ok tt <->
  d <= MAX_SNAPSHOT_DEPTH /\ Forall (fun e => validateSnapshotShape (d + 1) e.2 = Ok tt) es.
Proof.
  cbn. case_decide; [split; [done|lia]|]. rewrite forEach_Ok.
  split; [intros Hv; split; [lia|]|intros [_ Hv]]; (eapply Forall_impl; [exact Hv|]);
    intros [k []]; cbn; try done; case_decide; done.
Qed.

Lemma validate_array d l : validateSnapshotShape d (JArray l) = Ok tt <->
  d <= MAX_SNAPSHOT_DEPTH /\ Forall (fun x => validateSnapshotShape (d + 1) x = Ok tt) l.
Proof. cbn. case_decide; [split; [done|lia]|]. rewrite forEach_Ok. split; [split; [lia|done]|by intros []]. Qed.

Lemma validate_redact v : forall d, validateSnapshotShape d v = Ok tt -> validateSnapshotShape d (redact v) = Ok tt.
Proof.
  induction v as [v Hv|l IH|es IH|es IH] using jvalue_rec'; intros d; autorewrite with redact.
  - by destruct v.
  - change (redact (JArray l)) with (JArray (redact <$> l)).
    rewrite !validate_array, Forall_fmap. intros [Hd Hl]. split; [done|].
    rewrite Forall_forall in *. intros x Hx. by apply IH, Hl.
  - rewrite !validate_object. intros [Hd Hes]. split; [done|]. unfold keep. rewrite Forall_fmap.
    rewrite Forall_forall in *. intros [k v] Hin%list_elem_of_In.
    apply filter_In in Hin as [Hin _]. apply list_elem_of_In in Hin. apply (IH _ Hin), (Hes _ Hin).
  - cbn. by case_decide.
Qed.

Lemma keep_clean es : Forall (fun e => isForbiddenKey e.1 = false /\ redact e.2 = e.2) es -> keep es = es.
Proof.
  unfold keep. induction 1 as [|[k v] es [Hk Hv] Hes IH]; [done|]. cbn in *. rewrite Hk. cbn. by rewrite Hv, IH.
Qed.

Lemma redact_idempotent v : redact (redact v) = redact v.
Proof.
  induction v as [v Hv|l IH|es IH|es IH] using jvalue_rec'; autorewrite with redact.
  1: by destruct v.
  1: { cbn. f_equal. rewrite <- list_fmap_compose. apply list_fmap_ext. intros i x Hx.
       rewrite Forall_lookup in IH. by apply (IH i). }
  all: f_equal; apply keep_clean; rewrite Forall_forall; intros e He; split; [by eapply keep_forbidden|];
    unfold keep in He; apply list_elem_of_fmap in He as (e' & -> & He); cbn;
    apply list_elem_of_In, filter_In in He as [He _]; apply list_elem_of_In in He;
    rewrite Forall_forall in IH; by apply IH.
Qed.

Lemma redactSnapshot_Ok v w : redactSnapshot v = Ok w <-> validateSnapshotShape 0 v = Ok tt /\ w = redact v.
Proof. unfold redactSnapshot. destruct (validateSnapshotShape 0 v) as [[]|]; cbn; naive_solver. Qed.

(** Redacting the redacted form changes nothing and is never refused. *)
Lemma redactSnapshot_stable v w : redactSnapshot v = Ok w -> redactSnapshot w = Ok w.
Proof.
  rewrite !redactSnapshot_Ok. intros [Hv ->]. split; [by apply validate_redact|by rewrite redact_idempotent].
Qed.

Lemma find_keep key es : find_member key (keep es) =
  if isForbiddenKey key then None else redact <$> find_member key es.
Proof.
  unfold find_member, keep. induction es as [|[k v] es IH]; cbn; [by destruct (isForbiddenKey key)|].
  destruct (isForbiddenKey k) eqn:Hk; cbn; case_bool_decide as E; subst; cbn; rewrite ?Hk; try done.
  - by rewrite IH, Hk.
Qed.

Lemma at_path_redact path v : at_path path (redact v) =
  if existsb forbidden_access path then None else redact <$> at_path path v.
Proof.
  revert v. induction path as [|[key|i] path IH]; intros v; [done| |]; cbn [at_path existsb forbidden_access].
  - destruct v; autorewrite with redact; cbn [redact at_path];
      try (by destruct (isForbiddenKey key), (existsb _ _));
      rewrite find_keep; destruct (isForbiddenKey key); cbn; try done;
      (destruct (find_member _ _); cbn; [apply IH|by destruct (existsb _ _)]).
  - destruct v; autorewrite with redact; cbn [redact at_path orb]; try (by destruct (existsb _ _)).
    rewrite list_lookup_fmap. destruct (items !! i); cbn; [apply IH|by destruct (existsb _ _)].
Qed.

(** What the redaction gate does to a snapshot it accepts: no forbidden key
    survives at any depth; every member not below a forbidden key is still there,
    redacted in turn, and nothing below a forbidden key can be reached; and the
    result is a snapshot the gate accepts and returns unchanged, so that the sink's
    second redaction is a no-op. *)
Theorem redaction_exact v w : redactSnapshot v = Ok w ->
  clean w = true /\
  (forall path, at_path path w = if existsb forbidden_access path then None else redact <$> at_path path v) /\
  redactSnapshot w = Ok w.
Proof.
  intros H. pose proof (redactSnapshot_stable _ _ H). apply redactSnapshot_Ok in H as [_ ->].
  split; [apply clean_redact|]. split; [|done]. intros path. apply at_path_redact.
Qed.

Definition sample_snapshot : jvalue :=
  JObject [("status", JString "paid");
           ("api_Key", JString "sk-1");
           ("customer", JObject [("id", JString "c1"); ("PIN_code", JNumber (num 1234))])].

Lemma redaction_exact_witness :
  exists w, redactSnapshot sample_snapshot = Ok w /\ clean w = true /\
    at_path [Member "customer"; Member "id"] w = Some (JString "c1") /\
    at_path [Member "customer"; Member "PIN_code"] w = None.
Proof.
  destruct (redactSnapshot sample_snapshot) as [w|] eqn:E; [|vm_compute in E; discriminate E].
  exists w. destruct (redaction_exact sample_snapshot w E) as (Hc & Hp & _).
  split; [done|]. split; [done|]. split; rewrite Hp; reflexivity.
Defined.
