(* ===== verification/AuditJson.v ===== *)
(** * Canonical JSON

    [canonicalJson] of src/domain/audit/chain.ts: the text a record is hashed
    over.  Two plain values have the same text exactly when they are equal up to
    the order of object members and to numbers that print alike ([0] and [-0]), so
    the hash sees every field and nothing but the fields. *)

From stdpp Require Import prelude strings list sorting.
From Stdlib Require Import ZArith Lia Ascii SpecFloat.
From S2P Require Import Prelude JsNumber JsString JsJson AuditRedact.
Local Open Scope string_scope.
Local Open Scope list_scope.
Local Open Scope Z_scope.
Local Open Scope js_scope.

Definition joinWith (sep : ascii) (ts : list chars) : chars :=
  match ts with
  | [] => []
  | t :: ts' => t ++ mjoin ((fun u => sep :: u) <$> ts')
  end.

Definition comma : ascii := charOf 44.

Definition key_cmp (a b : string * chars) : Z := string_cmp a.1 b.1.

Definition memberText (e : string * chars) : chars := stringify e.1 ++ ":"%char :: e.2.

(** The members are canonicalised before they are sorted, the source sorts first;
    the comparator looks at the keys only, and a failing member raises the same
    code wherever it stands. *)
Fixpoint canonicalJson (value : jvalue) : result chars :=
  let entries := fix entries (es : list (string * jvalue)) : result (list (string * chars)) :=
    match es with
    | [] => Ok []
    | (_, JUndefined) :: es' => entries es'
    | (key, member) :: es' => t ← canonicalJson member; ts ← entries es'; Ok ((key, t) :: ts)
    end in
  match value with
  | JNull => Ok (explode "null")
  | JString s => Ok (stringify s)
  | JBool b => Ok (explode (if b then "true" else "false"))
  | JNumber x => if isFinite x then Ok (explode (show_number x)) else invalid
  | JArray items => ts ← traverse canonicalJson items; Ok ("["%char :: joinWith comma ts ++ ["]"%char])
  | JObject members | JInstance members =>
      ts ← entries members;
      Ok ("{"%char :: joinWith comma (memberText <$> sort_by key_cmp ts) ++ ["}"%char])
  | JUndefined | JBigInt _ | JFunction => invalid
  end.

Definition member_text (e : string * jvalue) : result (string * chars) :=
  t ← canonicalJson e.2; Ok (e.1, t).

(** Values without [undefined] members and class instances. *)
Fixpoint plain (v : jvalue) : bool :=
  match v with
  | JArray l => forallb plain l
  | JObject es => forallb (fun e => plain e.2) es
  | JUndefined | JInstance _ => false
  | _ => true
  end.

(** Objects have unique keys. *)
Fixpoint unique_keys (v : jvalue) : Prop :=
  match v with
  | JArray l => foldr (fun x P => unique_keys x /\ P) True l
  | JObject es | JInstance es => NoDup es.*1 /\ foldr (fun e P => unique_keys e.2 /\ P) True es
  | _ => True
  end.

(** Equality up to member order and to numbers that print alike. *)
Inductive same : jvalue -> jvalue -> Prop :=
| same_scalar v : is_scalar v = true -> same v v
| same_number x y : isFinite x = isFinite y -> show_number x = show_number y -> same (JNumber x) (JNumber y)
| same_array l l' : Forall2 same l l' -> same (JArray l) (JArray l')
| same_object es es' es'' :
    Forall2 (fun e e' => e.1 = e'.1 /\ same e.2 e'.2) es es'' -> es'' ≡ₚ es' ->
    same (JObject es) (JObject es').

Lemma same_refl v : plain v = true -> same v v.
Proof.
  induction v as [v Hv|l IH|es IH|es IH] using jvalue_rec'; intros Hp; try done.
  - by apply same_scalar.
  - apply same_array. apply forallb_Forall in Hp. clear -IH Hp. induction IH; inversion Hp; subst; constructor; auto.
  - apply same_object with es; [|done]. cbn in Hp. apply forallb_Forall in Hp. clear -IH Hp.
    induction IH; inversion Hp; subst; constructor; auto.
Qed.

Lemma canonical_object es : plain (JObject es) = true ->
  canonicalJson (JObject es) = (ts ← traverse member_text es;
    Ok ("{"%char :: joinWith comma (memberText <$> sort_by key_cmp ts) ++ ["}"%char])).
Proof.
  cbn [canonicalJson plain]. intros Hp. f_equal.
  induction es as [|[k v] es IH]; [done|]. cbn [forallb snd] in Hp. apply andb_prop in Hp as [Hv Hes].
  cbn [traverse].
  change (member_text (k, v)) with (t ← canonicalJson v; Ok (k, t)). rewrite <- (IH Hes).
  destruct v; try done; destruct (canonicalJson _); done.
Qed.

(** ** The text is insensitive to member order *)

#[export] Instance key_cmp_total : TotalComparator key_cmp.
Proof.
  split; unfold key_cmp.
  - intros. apply string_cmp_total.
  - intros ???. apply string_cmp_trans.
Qed.

Lemma key_sort_perm ts ts' : NoDup ts.*1 -> ts ≡ₚ ts' -> sort_by key_cmp ts = sort_by key_cmp ts'.
Proof.
  intros Hk Hp. apply (sort_by_unique key_cmp fst); [|done|done]. intros a b H1 H2. unfold key_cmp in *.
  apply string_cmp_eq. pose proof (string_cmp_antisym a.1 b.1). lia.
Qed.

Lemma unique_array l : unique_keys (JArray l) <-> Forall unique_keys l.
Proof. cbn. induction l as [|x l IH]; cbn; [by split|]. by rewrite Forall_cons, IH. Qed.

Lemma unique_object es : unique_keys (JObject es) <-> NoDup es.*1 /\ Forall (fun e => unique_keys e.2) es.
Proof.
  cbn. apply and_iff_compat_l. induction es as [|x l IH]; cbn; [by split|]. by rewrite Forall_cons, IH.
Qed.

Lemma traverse_ext2 {A B} (f : A -> result B) l l' :
  Forall2 (fun x y => f x = f y) l l' -> traverse f l = traverse f l'.
Proof. induction 1 as [|x y l l' Hxy _ IH]; cbn; [done|]. by rewrite Hxy, IH. Qed.

Lemma traverse_perm {A B} (f : A -> result B) l l' ts :
  l ≡ₚ l' -> traverse f l = Ok ts -> exists ts', traverse f l' = Ok ts' /\ ts ≡ₚ ts'.
Proof.
  intros Hp H. apply traverse_Forall2 in H.
  destruct (Permutation_Forall2 Hp H) as (ts' & Hts & Hf).
  exists ts'. split; [by apply traverse_Forall2|done].
Qed.

Lemma plain_object es : plain (JObject es) = true <-> Forall (fun e => plain e.2 = true) es.
Proof. cbn. apply forallb_Forall. Qed.

Lemma traverse_keys es ts : traverse member_text es = Ok ts -> ts.*1 = es.*1.
Proof.
  intros H%traverse_Forall2. induction H as [|e u es ts Hu _ IH]; [done|]. cbn. rewrite IH.
  unfold member_text in Hu. invert_ok. done.
Qed.

Lemma canonical_same v : forall w t, same v w -> plain v = true -> plain w = true -> unique_keys v ->
  canonicalJson v = Ok t -> canonicalJson w = Ok t.
Proof.
  induction v as [v Hv|l IH|es IH|es IH] using jvalue_rec'; intros w t Hs Hpv Hpw Hu Hc.
  - inversion Hs as [|x y Hf Hxy| |]; subst; try done. cbn in *. by rewrite <- Hf, <- Hxy.
  - inversion Hs as [| |? l' Hl|]; subst; [done|]. cbn in Hpv, Hpw, Hc |- *. invert_ok.
    apply unique_array in Hu. apply forallb_Forall in Hpv, Hpw. clear Hs.
    enough (traverse canonicalJson l' = Ok v) as -> by done.
    apply traverse_Forall2. apply traverse_Forall2 in E.
    revert l' Hl Hpw. induction E as [|x u l ts Hx _ IHl]; intros l' Hl Hpw; inversion Hl; subst; [constructor|].
    decompose_Forall_hyps. constructor; eauto.
  - inversion Hs as [| | |? es' es'' Hes Hp]; subst; [done|].
    pose proof Hpw as Hpw'. rewrite plain_object, <- Hp in Hpw'.
    rewrite canonical_object in Hc |- * by done. invert_ok.
    apply plain_object in Hpv. apply unique_object in Hu as [Hk Hu].
    assert (traverse member_text es'' = Ok v) as E'.
    { apply traverse_Forall2. pose proof E as E'. apply traverse_Forall2 in E'. clear E Hk Hp Hpw Hs.
      revert es'' Hes Hpw'. induction E' as [|x u l ts Hx _ IHl]; intros es'' Hes Hpw; inversion Hes; subst; [constructor|].
      decompose_Forall_hyps. constructor; [|by eauto].
      unfold member_text in *. invert_ok. destruct_ands.
      match goal with IH : forall w t, same _ w -> _ |- _ => erewrite IH by eauto end. cbn. congruence. }
    destruct (traverse_perm _ _ _ _ Hp E') as (ts' & -> & Hts). cbn.
    rewrite (key_sort_perm v ts'); [done| |done]. by rewrite (traverse_keys es).
  - done.
Qed.

(** ** The text determines the value *)

Definition hexValue (c : ascii) : Z := if is_digit c then charCode c - 48 else charCode c - 87.

(** One character of a JSON string literal. *)
Definition readChar (l : chars) : option (ascii * chars) :=
  match l with
  | [] => None
  | c :: l' =>
      if negb (charCode c =? 92) then Some (c, l')
      else match l' with
      | [] => None
      | d :: l'' =>
          if charCode d =? 117 then
            match l'' with
            | _ :: _ :: h1 :: h2 :: rest => Some (charOf (16 * hexValue h1 + hexValue h2), rest)
            | _ => None
            end
          else Some (if charCode d =? 98 then charOf 8 else if charCode d =? 116 then charOf 9
                     else if charCode d =? 110 then charOf 10 else if charCode d =? 102 then charOf 12
                     else if charCode d =? 114 then charOf 13 else d, l'')
      end
  end.

Lemma read_escape c r : readChar (escapeChar c ++ r) = Some (c, r).
Proof. destruct c as [[] [] [] [] [] [] [] []]; vm_compute; reflexivity. Qed.

Lemma escape_not_quote c : head (escapeChar c) <> Some quote /\ escapeChar c <> [].
Proof. destruct c as [[] [] [] [] [] [] [] []]; vm_compute; split; congruence. Qed.

Lemma escape_quote c r r' : escapeChar c ++ r <> quote :: r'.
Proof.
  destruct (escape_not_quote c) as [Hq Hn]. destruct (escapeChar c) as [|d l]; [done|].
  cbn in *. intros [= -> _]. by apply Hq.
Qed.

Lemma stringify_read s s' r r' : stringify s ++ r = stringify s' ++ r' -> s = s' /\ r = r'.
Proof.
  unfold stringify. cbn. rewrite <- !app_assoc. intros [= H]. cbn in H.
  enough (explode s = explode s' /\ r = r') as [E ->].
  { split; [|done]. rewrite <- (implode_explode s), <- (implode_explode s'). by f_equal. }
  revert H. generalize (explode s) (explode s'). clear s s'. intros l.
  induction l as [|c l IH]; intros [|d l'] H; cbn in H; rewrite <- ?app_assoc in H.
  - by injection H.
  - symmetry in H. by apply escape_quote in H.
  - by apply escape_quote in H.
  - assert (Some (c, mjoin (escapeChar <$> l) ++ quote :: r) = Some (d, mjoin (escapeChar <$> l') ++ quote :: r')) as E.
    { rewrite <- !read_escape. by f_equal. }
    injection E as -> E. destruct (IH l' E) as [-> ->]. done.
Qed.

(** What may follow a value. *)
Definition is_delim (c : ascii) : bool := (charCode c =? 44) || (charCode c =? 93) || (charCode c =? 125).
Definition delim (r : chars) : Prop := match r with [] => True | c :: _ => is_delim c = true end.

Lemma number_char_delim c : number_char c = true -> is_delim c = false.
Proof.
  unfold number_char, is_delim, is_digit, in_range. intros H.
  apply not_true_iff_false. intros H'.
  rewrite ?orb_true_iff, ?andb_true_iff, ?Z.eqb_eq, ?Z.leb_le in *. lia.
Qed.

Lemma number_read t t' r r' : number_text t -> number_text t' ->
  delim r -> delim r' -> t ++ r = t' ++ r' -> t = t'.
Proof.
  intros Ht. revert t'. induction Ht as [|c t Hc Ht IH]; intros t' Ht' Hr Hr' H; destruct Ht' as [|c' t' Hc' Ht']; [done| | |].
  - cbn in H. subst r. apply number_char_delim in Hc'. cbn in Hr. congruence.
  - cbn in H. subst r'. apply number_char_delim in Hc. cbn in Hr'. congruence.
  - cbn in H. injection H as -> H. f_equal. by apply IH.
Qed.

(** The first character tells what kind of value follows. *)
Definition kind_char (c : ascii) : nat :=
  if number_char c then 0
  else if charCode c =? 34 then 1 else if charCode c =? 110 then 2 else if charCode c =? 116 then 3
  else if charCode c =? 102 then 4 else if charCode c =? 91 then 5 else if charCode c =? 123 then 6 else 7.

Definition kind_of (v : jvalue) : nat :=
  match v with
  | JNumber _ => 0 | JString _ => 1 | JNull => 2 | JBool b => if b then 3 else 4
  | JArray _ => 5 | JObject _ => 6 | _ => 7
  end.

Lemma canonical_head v t : plain v = true -> canonicalJson v = Ok t ->
  exists c t', t = c :: t' /\ kind_char c = kind_of v /\ (kind_of v <> 7)%nat.
Proof.
  destruct v as [| |b|x|z|s| |l|es|es]; intros Hp Hc; try done.
  - injection Hc as <-. by do 2 eexists.
  - injection Hc as <-. destruct b; by do 2 eexists.
  - cbn in Hc. destruct (isFinite x) eqn:Hf; [|done]. injection Hc as <-.
    destruct (show_number_text x Hf) as [Ht Hne]. destruct Ht as [|c t Hc Ht]; [done|].
    exists c, t. split; [done|]. unfold kind_char. by rewrite Hc.
  - injection Hc as <-. by do 2 eexists.
  - cbn in Hc. invert_ok. by do 2 eexists.
  - rewrite canonical_object in Hc by done. invert_ok. by do 2 eexists.
Qed.

Lemma delim_kind c : is_delim c = true -> kind_char c = 7%nat.
Proof.
  unfold is_delim. intros H.
  assert (c = comma \/ c = "]"%char \/ c = "}"%char) as [->|[->| ->]]; [|done..].
  rewrite !orb_true_iff, !Z.eqb_eq in H.
  assert (forall n, charCode c = n -> c = charOf n) as Hof.
  { intros n <-. unfold charCode, charOf. by rewrite N2Z.id, ascii_N_embedding. }
  destruct H as [[H|H]|H]; apply Hof in H; subst; auto.
Qed.

(** Comma-separated texts can be read back, given that each of them can. *)
Definition readable (ts ts' : list chars) : Prop :=
  forall a b x y, a ∈ ts -> b ∈ ts' -> delim x -> delim y -> a ++ x = b ++ y -> a = b.
Definition headed (ts : list chars) : Prop :=
  forall a, a ∈ ts -> exists c a', a = c :: a' /\ is_delim c = false.

Lemma joined_read close ts ts' r r' : is_delim close = true -> readable ts ts' -> close <> comma ->
  mjoin ((fun u => comma :: u) <$> ts) ++ close :: r = mjoin ((fun u => comma :: u) <$> ts') ++ close :: r' ->
  ts = ts' /\ r = r'.
Proof.
  intros Hcl. revert ts'. induction ts as [|a ts IH]; intros [|b ts'] Hr Hne H; cbn in H.
  - by injection H.
  - by injection H as ? _.
  - by injection H as ? _.
  - injection H as H. rewrite <- !app_assoc in H.
    assert (forall us s, delim (mjoin ((fun u => comma :: u) <$> us) ++ close :: s)) as Hd.
    { intros [|u us] s; cbn; [done|]. done. }
    assert (a = b) as <- by (eapply Hr; [by left|by left|apply Hd|apply Hd|exact H]).
    apply app_inv_head in H. apply IH in H as [-> ->]; [done| |done].
    intros u v x y Hu Hv. apply Hr; by right.
Qed.

Lemma joinWith_read close ts ts' r r' : is_delim close = true -> close <> comma ->
  readable ts ts' -> headed ts -> headed ts' ->
  joinWith comma ts ++ close :: r = joinWith comma ts' ++ close :: r' -> ts = ts' /\ r = r'.
Proof.
  intros Hcl Hne Hr Hh Hh' H.
  destruct ts as [|a ts], ts' as [|b ts']; cbn in H.
  - by injection H.
  - destruct (Hh' b) as (c & b' & -> & Hc); [by left|]. injection H as -> _. congruence.
  - destruct (Hh a) as (c & b' & -> & Hc); [by left|]. injection H as -> _. congruence.
  - destruct (joined_read close (a :: ts) (b :: ts') r r'); try done. by apply (f_equal (cons comma)) in H.
Qed.

Lemma same_members es es' ts ts' :
  Forall (fun e => forall w t, plain e.2 = true -> plain w = true -> canonicalJson e.2 = Ok t ->
            canonicalJson w = Ok t -> same e.2 w) es ->
  Forall (fun e => plain e.2 = true) es -> Forall (fun e => plain e.2 = true) es' ->
  traverse member_text es = Ok ts -> traverse member_text es' = Ok ts' -> ts ≡ₚ ts' ->
  same (JObject es) (JObject es').
Proof.
  intros IH Hp Hp' H H' Hts. apply traverse_Forall2 in H, H'.
  apply Forall2_flip in H'. destruct (Permutation_Forall2 (Permutation_sym Hts) H') as (es'' & Hes & H'').
  apply same_object with es''; [|by symmetry]. rewrite Hes in Hp'. clear Hes H' Hts es'.
  revert es'' H'' Hp'. induction H as [|e t es ts He _ IHes]; intros es'' H'' Hp''; inversion H'' as [|? e' ? es1 He' H1]; subst;
    [constructor|].
  decompose_Forall_hyps. constructor; [|by eauto].
  unfold member_text, flip in *. invert_ok. eauto.
Qed.

(** [v]'s text can be told from what follows it, and determines [v]. *)
Definition reads (v : jvalue) : Prop := forall w t t' r r', plain v = true -> plain w = true ->
  canonicalJson v = Ok t -> canonicalJson w = Ok t' -> delim r -> delim r' ->
  t ++ r = t' ++ r' -> t = t' /\ same v w.

Lemma reads_same v w t : reads v -> plain v = true -> plain w = true ->
  canonicalJson v = Ok t -> canonicalJson w = Ok t -> same v w.
Proof. intros Hv Hp Hp' H H'. by destruct (Hv w t t [] []). Qed.

Lemma traverse_elem {A B} (f : A -> result B) l ts a : traverse f l = Ok ts -> a ∈ ts -> exists x, x ∈ l /\ f x = Ok a.
Proof.
  intros H%traverse_Forall2 Ha. apply Forall2_flip in H.
  apply list_elem_of_lookup in Ha as [i Hi]. destruct (Forall2_lookup_l _ _ _ _ _ H Hi) as (x & Hx & Hf).
  exists x. split; [by eapply list_elem_of_lookup_2|done].
Qed.

Lemma canonical_not_delim v t : plain v = true -> canonicalJson v = Ok t -> exists c t', t = c :: t' /\ is_delim c = false.
Proof.
  intros Hp H. destruct (canonical_head v t Hp H) as (c & t' & -> & Hk & Hn). exists c, t'. split; [done|].
  destruct (is_delim c) eqn:Hd; [|done]. apply delim_kind in Hd. congruence.
Qed.

Lemma array_readable l l' ts ts' : Forall reads l ->
  Forall (fun x => plain x = true) l -> Forall (fun x => plain x = true) l' ->
  traverse canonicalJson l = Ok ts -> traverse canonicalJson l' = Ok ts' -> readable ts ts'.
Proof.
  intros IH Hp Hp' H H' a b x y Ha Hb Hx Hy E.
  destruct (traverse_elem _ _ _ _ H Ha) as (v & Hv & Ev). destruct (traverse_elem _ _ _ _ H' Hb) as (w & Hw & Ew).
  rewrite Forall_forall in IH, Hp, Hp'. by destruct (IH v Hv w a b x y) as [-> _]; auto.
Qed.

Lemma array_headed l ts : Forall (fun x => plain x = true) l -> traverse canonicalJson l = Ok ts -> headed ts.
Proof.
  intros Hp H a Ha. destruct (traverse_elem _ _ _ _ H Ha) as (v & Hv & Ev).
  rewrite Forall_forall in Hp. eauto using canonical_not_delim.
Qed.

Lemma memberText_read e e' x y : memberText e ++ x = memberText e' ++ y -> e.1 = e'.1 /\ e.2 ++ x = e'.2 ++ y.
Proof.
  unfold memberText. rewrite <- !app_assoc. intros H%stringify_read. destruct H as [? H]. by injection H.
Qed.

#[export] Instance memberText_inj : Inj (=) (=) memberText.
Proof.
  intros [k t] [k' t'] H. destruct (memberText_read (k, t) (k', t') [] []) as [? E]; [by rewrite H|].
  rewrite !app_nil_r in E. cbn in *. congruence.
Qed.

Lemma member_elem es ts k t : traverse member_text es = Ok ts -> (k, t) ∈ ts -> exists v, (k, v) ∈ es /\ canonicalJson v = Ok t.
Proof.
  intros H Ha. destruct (traverse_elem _ _ _ _ H Ha) as ([k' v] & Hv & Ev).
  unfold member_text in Ev. cbn in Ev. invert_ok. naive_solver.
Qed.

Lemma members_readable es es' ts ts' : Forall (fun e => reads e.2) es ->
  Forall (fun e => plain e.2 = true) es -> Forall (fun e => plain e.2 = true) es' ->
  traverse member_text es = Ok ts -> traverse member_text es' = Ok ts' ->
  readable (memberText <$> sort_by key_cmp ts) (memberText <$> sort_by key_cmp ts').
Proof.
  intros IH Hp Hp' H H' a b x y Ha Hb Hx Hy E.
  apply list_elem_of_fmap in Ha as ([k t] & -> & Ha). apply list_elem_of_fmap in Hb as ([k' t'] & -> & Hb).
  rewrite sort_by_perm in Ha, Hb.
  destruct (member_elem _ _ _ _ H Ha) as (v & Hv & Ev). destruct (member_elem _ _ _ _ H' Hb) as (w & Hw & Ew).
  apply memberText_read in E as [Ek E]. cbn in *. subst k'. f_equal. f_equal.
  rewrite Forall_forall in IH, Hp, Hp'.
  by destruct (IH _ Hv w t t' x y (Hp _ Hv) (Hp' _ Hw) Ev Ew Hx Hy E) as [-> _].
Qed.

Lemma members_headed ts : headed (memberText <$> ts).
Proof. intros a (e & -> & _)%list_elem_of_fmap. unfold memberText, stringify. cbn. by do 2 eexists. Qed.

Lemma same_text v : reads v.
Proof.
  induction v as [v Hv|l IH|es IH|es IH] using jvalue_rec'; intros w t t' r r' Hp Hp' Hc Hc' Hr Hr' H.
  all: pose proof (canonical_head _ _ Hp Hc) as (c & u & Et & Hk & _).
  all: pose proof (canonical_head _ _ Hp' Hc') as (c' & u' & Et' & Hk' & _).
  all: assert (c = c') as Hcc by (subst; by injection H as -> _).
  all: rewrite <- Hcc, Hk in Hk'; rename Hk' into Hkk.
  - clear c c' u u' Et Et' Hk Hcc.
    destruct v as [| |[]|x|z|s| | | |], w as [| |[]|y|z'|s'| | | |]; try done; cbn in Hc, Hc'.
    all: try (injection Hc as <-; injection Hc' as <-; split; [done|by constructor]).
    + destruct (isFinite x) eqn:Hx; [|done]. destruct (isFinite y) eqn:Hy; [|done]. invert_ok.
      assert (explode (show_number x) = explode (show_number y)) as E.
      { eapply number_read; [| | | |exact H]; try done; by apply show_number_text. }
      split; [done|]. apply same_number; [congruence|].
      rewrite <- (implode_explode (show_number x)), <- (implode_explode (show_number y)). by f_equal.
    + invert_ok. apply stringify_read in H as [-> _]. split; [done|by constructor].
  - destruct w as [| |[]|y|z'|s'| |l'| |]; try done. clear c c' u u' Et Et' Hk Hcc Hkk.
    cbn in Hc, Hc', Hp, Hp'. invert_ok. injection H as H. rewrite <- !app_assoc in H.
    apply forallb_Forall in Hp, Hp'.
    apply joinWith_read in H as [-> ->]; [|done|done|eapply array_readable; [exact IH|exact Hp|exact Hp'|eassumption..]|eapply array_headed; [exact Hp|eassumption]|eapply array_headed; [exact Hp'|eassumption]].
    split; [done|]. constructor. apply traverse_Forall2 in E, E0. clear Hr Hr'.
    revert l' Hp' E. induction E0 as [|x u l ts Hx _ IHl]; intros l' Hp' E; inversion E; subst; [constructor|].
    decompose_Forall_hyps. constructor; [by eapply reads_same|by auto].
  - destruct w as [| |[]|y|z'|s'| |l'|es'|]; try done. clear c c' u u' Et Et' Hk Hcc Hkk.
    rewrite canonical_object in Hc, Hc' by done. invert_ok. injection H as H. rewrite <- !app_assoc in H.
    apply plain_object in Hp, Hp'.
    apply joinWith_read in H as [H ->];
      [|done|done|by eapply members_readable|apply members_headed..].
    rewrite H. split; [done|]. apply (inj (fmap memberText)) in H.
    eapply same_members; try done.
    + eapply Forall_impl; [exact IH|]. intros e He w t. cbn in He. by apply reads_same.
    + by rewrite <- (sort_by_perm key_cmp), H, sort_by_perm.
  - done.
Qed.

(** C38: The canonical text identifies a value: two plain values with unique keys
    have the same text exactly when they are equal up to the order of object
    members, at any depth, and to numbers that print alike.  Key insertion order
    cannot change a record's hash, and no two different records are hashed over the
    same text. *)
Theorem canonical_json_exact v w t : plain v = true -> plain w = true -> unique_keys v ->
  canonicalJson v = Ok t -> canonicalJson w = Ok t <-> same v w.
Proof.
  intros Hp Hp' Hu H. split.
  - intros H'. by apply (reads_same v w t (same_text v)).
  - intros Hs. by apply (canonical_same v w t).
Qed.

Definition sample_json : jvalue := JObject [("b", JArray [JNumber (num 1); JNull]); ("a", JString "x,}")].

Lemma canonical_json_exact_witness :
  exists t, canonicalJson sample_json = Ok t /\
    canonicalJson (JObject [("a", JString "x,}"); ("b", JArray [JNumber (num 1); JNull])]) = Ok t.
Proof.
  destruct (canonicalJson sample_json) as [t|] eqn:E; [|vm_compute in E; discriminate E].
  exists t. split; [done|].
  apply (canonical_json_exact sample_json _ t); [reflexivity|reflexivity| |exact E|].
  - split; [|repeat split]. apply (bool_decide_eq_true_1 _). reflexivity.
  - eapply same_object; [|apply Permutation_swap].
    repeat (constructor; [split; [done|apply same_refl; reflexivity]|]). constructor.
Defined.
