(* ===== verification/AuditRecord.v ===== *)
(** * Audit records and the append-only sink

    src/domain/audit/record.ts and events.ts.  Records are typed, so the source's
    [typeof] guards on their fields always pass; the closed vocabularies
    (actor kinds, actions) stay strings, as their guards inspect them.  Absent and
    null optional fields mean the same and are [None].  The engine's [Date.parse]
    on a string of the ISO shape is the parameter [Date_parse] ([None] for NaN). *)

From stdpp Require Import prelude strings list.
From Stdlib Require Import ZArith Lia Ascii.
From S2P Require Import Prelude JsNumber JsString JsDate JsJson Events AuditRedact.
Local Open Scope string_scope.
Local Open Scope list_scope.
Local Open Scope Z_scope.
Local Open Scope js_scope.

(** ** Vocabulary *)

Definition ACTOR_KINDS : list string := ["user"; "apiKey"; "agent"; "system"].

Definition AUDIT_ACTIONS : list string :=
  ["create"; "update"; "transition"; "cancel"; "reverse"; "write_off"; "refund"; "issue"; "revoke"; "approve";
   "send"; "ingest"; "settle"; "redeem"; "access"; "login"].

Record AuditActor := MkActor { ac_kind : string; ac_id : string; ac_orgId : option Uuid }.
Record AuditApproval := MkApproval { ap_ref : string; ap_approverId : option string; ap_decidedAt : option string }.
Record AuditAiContext := MkAiContext { ai_agentKind : string; ai_evidenceRefs : list string }.

Definition MAX_ID_LENGTH : Z := 256.
Definition MAX_REQUEST_ID_LENGTH : Z := 256.
Definition MAX_ENTITY_TYPE_LENGTH : Z := 64.
Definition MAX_IP_LENGTH : Z := 64.
Definition MAX_USER_AGENT_LENGTH : Z := 512.
Definition MAX_REASON_LENGTH : Z := 1024.
Definition MAX_HASH_LENGTH : Z := 256.
Definition MAX_REF_LENGTH : Z := 256.
Definition MAX_AGENT_KIND_LENGTH : Z := 64.

(** ** The record *)

(** Everything but the chain fields. *)
Record AuditDraft := MkDraft {
  au_auditId : Uuid;
  au_orgId : Uuid;
  au_actor : AuditActor;
  au_action : string;
  au_entityType : string;
  au_entityId : string;
  au_occurredAt : string;
  au_requestId : string;
  au_correlationId : option string;
  au_ip : option string;
  au_userAgent : option string;
  au_previousState : option jvalue;
  au_newState : option jvalue;
  au_reason : option string;
  au_approval : option AuditApproval;
  au_aiContext : option AuditAiContext;
}.
#[export] Instance AuditDraft_eta : Eta AuditDraft := fun r =>
  MkDraft (au_auditId r) (au_orgId r) (au_actor r) (au_action r) (au_entityType r) (au_entityId r)
    (au_occurredAt r) (au_requestId r) (au_correlationId r) (au_ip r) (au_userAgent r) (au_previousState r)
    (au_newState r) (au_reason r) (au_approval r) (au_aiContext r).

Record AuditRecord := MkRecord {
  au_draft : AuditDraft;
  au_prevRecordHash : option string;
  au_recordHash : string;
}.
#[export] Instance AuditRecord_eta : Eta AuditRecord := fun r =>
  MkRecord (au_draft r) (au_prevRecordHash r) (au_recordHash r).

(** The append command: [occurredAt] may be left to the clock. *)
Record AppendAuditInput := MkAuditInput { in_fields : AuditDraft; in_occurredAt : option string }.

(** ** Validation helpers *)

Definition strlen (s : string) : Z := Z.of_nat (String.length s).

Definition assertNonBlank (raw code : string) (max : Z) : result string :=
  let value := trim raw in
  refuse (value = "") with code ;;
  refuse (max < strlen value) with code ;;
  Ok value.

Definition optionalString (raw : option string) (code : string) (max : Z) : result (option string) :=
  match raw with
  | None => Ok None
  | Some s => v ← assertNonBlank s code max; Ok (Some v)
  end.

Definition assertAction (raw : string) : result string :=
  refuse (raw ∉ AUDIT_ACTIONS) with "AUDIT_ACTION_INVALID" ;; Ok raw.

Definition assertActor (actor : AuditActor) : result AuditActor :=
  refuse (ac_kind actor ∉ ACTOR_KINDS) with "AUDIT_ACTOR_INVALID" ;;
  id ← assertNonBlank (ac_id actor) "AUDIT_ACTOR_INVALID" MAX_ID_LENGTH;
  if decide (ac_kind actor = "system") then
    match ac_orgId actor with
    | Some _ => Err (DomainError "AUDIT_ACTOR_INVALID")
    | None => Ok (MkActor "system" id None)
    end
  else
    match ac_orgId actor with
    | None => Err (DomainError "AUDIT_ACTOR_INVALID")
    | Some org =>
        orgId ← assertNonBlank org "AUDIT_ACTOR_INVALID" MAX_ID_LENGTH;
        Ok (MkActor (ac_kind actor) id (Some orgId))
    end.

Definition assertAiContext (ai : AuditAiContext) : result AuditAiContext :=
  agentKind ← assertNonBlank (ai_agentKind ai) "AUDIT_AI_CONTEXT_INVALID" MAX_AGENT_KIND_LENGTH;
  evidenceRefs ← traverse (fun ref => assertNonBlank ref "AUDIT_AI_CONTEXT_INVALID" MAX_ID_LENGTH) (ai_evidenceRefs ai);
  Ok (MkAiContext agentKind evidenceRefs).

Definition assertSnapshot (raw : jvalue) : result jvalue :=
  match raw with
  | JObject _ | JInstance _ => _ ← validateSnapshotShape 0 raw; Ok raw
  | _ => invalid
  end.

(** [validateSnapshotShape] after [assertSnapshot], then strip. *)
Definition redactOptional (state : option jvalue) : result (option jvalue) :=
  match state with
  | None => Ok None
  | Some raw => s ← assertSnapshot raw; r ← redactSnapshot s; Ok (Some r)
  end.

Definition optionalCheck {A B} (check : A -> result B) (raw : option A) : result (option B) :=
  match raw with
  | None => Ok None
  | Some a => b ← check a; Ok (Some b)
  end.

(** [assertHashString]: a present hash is non-blank and at most 256 long. *)
Definition assertHashString (raw : string) : result string :=
  refuse (trim raw = "" \/ MAX_HASH_LENGTH < strlen raw) with "AUDIT_HASH_MALFORMED" ;; Ok raw.

Section parse.
  Context (Date_parse : string -> option Z).

Definition isIsoInstant (raw : string) : bool :=
  ISO_PATTERN raw && match Date_parse raw with Some _ => true | None => false end.

Definition assertApproval (approval : AuditApproval) : result AuditApproval :=
  ref ← assertNonBlank (ap_ref approval) "AUDIT_APPROVAL_INVALID" MAX_REF_LENGTH;
  approverId ← optionalString (ap_approverId approval) "AUDIT_APPROVAL_INVALID" MAX_ID_LENGTH;
  decidedAt ← optionalCheck (fun d =>
    refuse (isIsoInstant d = false) with "AUDIT_APPROVAL_INVALID" ;; Ok d) (ap_decidedAt approval);
  Ok (MkApproval ref approverId decidedAt).

(** ** [assertRecordShape] *)

Definition assertRecordShape (record : AuditRecord) : result unit :=
  let r := au_draft record in
  _ ← assertNonBlank (au_auditId r) "AUDIT_RECORD_MALFORMED" MAX_ID_LENGTH;
  _ ← assertNonBlank (au_orgId r) "AUDIT_ORG_REQUIRED" MAX_ID_LENGTH;
  _ ← assertActor (au_actor r);
  _ ← assertAction (au_action r);
  _ ← assertNonBlank (au_entityType r) "AUDIT_ENTITY_TYPE_REQUIRED" MAX_ENTITY_TYPE_LENGTH;
  _ ← assertNonBlank (au_entityId r) "AUDIT_ENTITY_ID_REQUIRED" MAX_ID_LENGTH;
  refuse (isIsoInstant (au_occurredAt r) = false) with "AUDIT_OCCURRED_AT_INVALID" ;;
  _ ← assertNonBlank (au_requestId r) "AUDIT_REQUEST_ID_REQUIRED" MAX_REQUEST_ID_LENGTH;
  _ ← optionalString (au_correlationId r) "AUDIT_CORRELATION_ID_INVALID" MAX_ID_LENGTH;
  _ ← optionalString (au_ip r) "AUDIT_IP_MALFORMED" MAX_IP_LENGTH;
  _ ← optionalString (au_userAgent r) "AUDIT_USER_AGENT_MALFORMED" MAX_USER_AGENT_LENGTH;
  _ ← optionalString (au_reason r) "AUDIT_REASON_MALFORMED" MAX_REASON_LENGTH;
  _ ← optionalCheck assertSnapshot (au_previousState r);
  _ ← optionalCheck assertSnapshot (au_newState r);
  _ ← optionalCheck assertApproval (au_approval r);
  _ ← optionalCheck assertAiContext (au_aiContext r);
  _ ← assertHashString (au_recordHash record);
  _ ← optionalCheck assertHashString (au_prevRecordHash record);
  Ok tt.

(** ** [buildAuditDraft]

    [clock] is read once when the instant is not pinned. *)
Definition buildAuditDraft (input : AppendAuditInput) (clock : Clock) : result AuditDraft :=
  let i := in_fields input in
  occurredAt ← match in_occurredAt input with
    | Some s => refuse (isIsoInstant s = false) with "AUDIT_OCCURRED_AT_INVALID" ;; Ok s
    | None => Ok (toISOString (clock 0%nat))
    end;
  previousState ← redactOptional (au_previousState i);
  newState ← redactOptional (au_newState i);
  auditId ← assertNonBlank (au_auditId i) "AUDIT_RECORD_MALFORMED" MAX_ID_LENGTH;
  orgId ← assertNonBlank (au_orgId i) "AUDIT_ORG_REQUIRED" MAX_ID_LENGTH;
  actor ← assertActor (au_actor i);
  action ← assertAction (au_action i);
  entityType ← assertNonBlank (au_entityType i) "AUDIT_ENTITY_TYPE_REQUIRED" MAX_ENTITY_TYPE_LENGTH;
  entityId ← assertNonBlank (au_entityId i) "AUDIT_ENTITY_ID_REQUIRED" MAX_ID_LENGTH;
  requestId ← assertNonBlank (au_requestId i) "AUDIT_REQUEST_ID_REQUIRED" MAX_REQUEST_ID_LENGTH;
  correlationId ← optionalString (au_correlationId i) "AUDIT_CORRELATION_ID_INVALID" MAX_ID_LENGTH;
  ip ← optionalString (au_ip i) "AUDIT_IP_MALFORMED" MAX_IP_LENGTH;
  userAgent ← optionalString (au_userAgent i) "AUDIT_USER_AGENT_MALFORMED" MAX_USER_AGENT_LENGTH;
  reason ← optionalString (au_reason i) "AUDIT_REASON_MALFORMED" MAX_REASON_LENGTH;
  approval ← optionalCheck assertApproval (au_approval i);
  aiContext ← optionalCheck assertAiContext (au_aiContext i);
  Ok (MkDraft auditId orgId actor action entityType entityId occurredAt requestId correlationId ip userAgent
        previousState newState reason approval aiContext).

(** ** The in-memory sink

    Its state is the trail; [seenIds] is the set of the trail's ids. *)
Definition sink_append (trail : list AuditRecord) (clock : Clock) (record : AuditRecord)
  : result (AuditRecord * list AuditRecord) :=
  let r := au_draft record in
  _ ← assertRecordShape record;
  let occurredAtMs := default 0 (Date_parse (au_occurredAt r)) in
  refuse (clock 0%nat < occurredAtMs) with "AUDIT_OCCURRED_AT_FUTURE" ;;
  refuse (au_auditId r ∈ (fun s => au_auditId (au_draft s)) <$> trail) with "AUDIT_AUDIT_ID_TAKEN" ;;
  previousState ← redactOptional (au_previousState r);
  newState ← redactOptional (au_newState r);
  let stored := record <| au_draft := r <| au_previousState := previousState |> <| au_newState := newState |> |> in
  Ok (stored, trail ++ [stored]).

End parse.

(** ** [recordAppendedEvent]

    The companion fact; it has no field for snapshots, reason, approval, AI
    context, ip or user agent. *)
Record RecordAppendedPayload := MkAppended {
  ra_auditId : Uuid;
  ra_orgId : Uuid;
  ra_actorKind : string;
  ra_actorId : string;
  ra_action : string;
  ra_entityType : string;
  ra_entityId : string;
  ra_requestId : string;
  ra_correlationId : option string;
  ra_prevRecordHash : option string;
  ra_recordHash : string;
  ra_occurredAt : string;
}.

Definition recordAppendedEvent (record : AuditRecord) (clock : Clock) : DomainEvent RecordAppendedPayload :=
  let r := au_draft record in
  domainEvent "audit.recordAppended" (au_auditId r)
    (MkAppended (au_auditId r) (au_orgId r) (ac_kind (au_actor r)) (ac_id (au_actor r)) (au_action r)
       (au_entityType r) (au_entityId r) (au_requestId r) (au_correlationId r)
       (au_prevRecordHash record) (au_recordHash record) (au_occurredAt r)) clock.

(** ** Lemmas *)

Lemma assertNonBlank_trim raw code max v : assertNonBlank raw code max = Ok v -> v = trim raw.
Proof. unfold assertNonBlank. intros H. by repeat step_ok. Qed.

Lemma assertSnapshot_Ok v w : assertSnapshot v = Ok w -> w = v /\ validateSnapshotShape 0 v = Ok tt /\ exists es, v = JObject es.
Proof.
  destruct v; cbn [assertSnapshot]; try discriminate; intros H; invert_ok. destruct v. eauto.
Qed.

Lemma assertSnapshot_object es : validateSnapshotShape 0 (JObject es) = Ok tt -> assertSnapshot (JObject es) = Ok (JObject es).
Proof. intros H. cbn [assertSnapshot]. by rewrite H. Qed.

Lemma redactOptional_Ok s s' : redactOptional s = Ok s' ->
  s' = redact <$> s /\ match s with None => True | Some v => validateSnapshotShape 0 v = Ok tt /\ exists es, v = JObject es end.
Proof.
  destruct s as [v|]; cbn; [|by intros [= <-]]. intros H. invert_ok.
  apply assertSnapshot_Ok in E as (-> & Hv & Hes). apply redactSnapshot_Ok in E0 as [_ ->]. done.
Qed.

Lemma redactOptional_stable s s' : redactOptional s = Ok s' ->
  redactOptional s' = Ok s' /\ optionalCheck assertSnapshot s' = Ok s'.
Proof.
  intros [-> Hs]%redactOptional_Ok. destruct s as [v|]; [|done]. destruct Hs as [Hv [es ->]].
  apply validate_redact in Hv. rewrite redact_object in Hv. cbn [fmap option_fmap option_map]. rewrite redact_object.
  cbn [redactOptional optionalCheck]. rewrite assertSnapshot_object by done. cbn [mbind result_bind].
  unfold redactSnapshot. rewrite Hv. cbn [mbind result_bind].
  by rewrite <- redact_object, redact_idempotent.
Qed.

(** The snapshots of a stored record are free of forbidden keys. *)
Definition clean_state (s : option jvalue) : bool := match s with None => true | Some v => clean v end.

Lemma redactOptional_clean s s' : redactOptional s = Ok s' -> clean_state s' = true.
Proof. intros [-> _]%redactOptional_Ok. destruct s; [apply clean_redact|done]. Qed.

Lemma with_states d p n : d <| au_previousState := p |> <| au_newState := n |> =
  MkDraft (au_auditId d) (au_orgId d) (au_actor d) (au_action d) (au_entityType d) (au_entityId d)
    (au_occurredAt d) (au_requestId d) (au_correlationId d) (au_ip d) (au_userAgent d) p n (au_reason d)
    (au_approval d) (au_aiContext d).
Proof. done. Qed.

Section sink.
  Context (Date_parse : string -> option Z).

Lemma sink_append_Ok trail clock r s trail' : sink_append Date_parse trail clock r = Ok (s, trail') <->
  assertRecordShape Date_parse r = Ok tt /\
  default 0 (Date_parse (au_occurredAt (au_draft r))) <= clock 0%nat /\
  au_auditId (au_draft r) ∉ (fun s => au_auditId (au_draft s)) <$> trail /\
  (exists p n, redactOptional (au_previousState (au_draft r)) = Ok p /\
     redactOptional (au_newState (au_draft r)) = Ok n /\
     s = r <| au_draft := au_draft r <| au_previousState := p |> <| au_newState := n |> |>) /\
  trail' = trail ++ [s].
Proof.
  unfold sink_append. split.
  - intros H. invert_ok. destruct v. naive_solver lia.
  - intros (Hs & Ht & Hid & (p & n & Hp & Hn & ->) & ->). rewrite Hs. cbn [mbind result_bind].
    rewrite (decide_False (P := _ < _)) by lia. rewrite (decide_False (P := _ ∈ _)) by done.
    rewrite Hp. cbn [mbind result_bind]. rewrite Hn. done.
Qed.

Lemma shape_with_states r p n : assertRecordShape Date_parse r = Ok tt ->
  optionalCheck assertSnapshot p = Ok p -> optionalCheck assertSnapshot n = Ok n ->
  assertRecordShape Date_parse (r <| au_draft := au_draft r <| au_previousState := p |> <| au_newState := n |> |>) = Ok tt.
Proof.
  intros H Hp Hn. destruct r as [d pr h]. unfold assertRecordShape in *. rewrite with_states.
  cbn [upd au_draft au_recordHash au_prevRecordHash au_auditId au_orgId au_actor au_action au_entityType au_entityId
    au_occurredAt au_requestId au_correlationId au_ip au_userAgent au_previousState au_newState au_reason au_approval
    au_aiContext AuditRecord_eta] in *.
  repeat step_ok. rewrite Hp, Hn.
  repeat match goal with
  | E : ?x = Ok _ |- context [?x] => rewrite E
  | N : ?P <> _ |- context [decide (?P = _)] => rewrite (decide_False (P := P = _)) by exact N
  | _ => progress cbn [mbind result_bind]
  end. done.
Qed.

(** What a reader of the sink's trail can rely on. *)
Record trail_wf (trail : list AuditRecord) : Prop := {
  trail_ids : NoDup ((fun s => au_auditId (au_draft s)) <$> trail);
  trail_shape : Forall (fun s => assertRecordShape Date_parse s = Ok tt) trail;
  trail_clean : Forall (fun s => clean_state (au_previousState (au_draft s)) = true /\
    clean_state (au_newState (au_draft s)) = true) trail;
  trail_stable : Forall (fun s =>
    redactOptional (au_previousState (au_draft s)) = Ok (au_previousState (au_draft s)) /\
    redactOptional (au_newState (au_draft s)) = Ok (au_newState (au_draft s))) trail;
}.

(** Anyone may append anything, through the builder or straight into the sink. *)
Inductive sink_step : list AuditRecord -> list AuditRecord -> Prop :=
| sink_appended trail clock r s trail' :
    sink_append Date_parse trail clock r = Ok (s, trail') -> sink_step trail trail'.

Lemma sink_append_stored trail clock r s trail' : sink_append Date_parse trail clock r = Ok (s, trail') ->
  assertRecordShape Date_parse s = Ok tt /\
  redactOptional (au_previousState (au_draft s)) = Ok (au_previousState (au_draft s)) /\
  redactOptional (au_newState (au_draft s)) = Ok (au_newState (au_draft s)).
Proof.
  intros (Hs & _ & _ & (p & n & Hp & Hn & ->) & _)%sink_append_Ok.
  apply redactOptional_stable in Hp as [Hp Hp'], Hn as [Hn Hn'].
  split; [by apply shape_with_states|done].
Qed.

Lemma sink_step_wf trail trail' : sink_step trail trail' -> trail_wf trail -> trail_wf trail'.
Proof.
  intros [tr clock r s tr' H] [Hid Hsh Hcl Hst]. pose proof (sink_append_stored _ _ _ _ _ H) as (Hs & Hp & Hn).
  apply sink_append_Ok in H as (_ & _ & Hnew & (p & n & _ & _ & Es) & ->).
  split; rewrite ?fmap_app; [|apply Forall_app; split; [done|apply Forall_singleton]..]; try done.
  - apply NoDup_app. split; [done|]. split; [|by apply NoDup_singleton].
    intros x Hx ->%list_elem_of_singleton. apply Hnew. by rewrite Es in Hx.
  - split; eapply redactOptional_clean; eassumption.
Qed.

Lemma sink_step_prefix trail trail' : sink_step trail trail' -> trail `prefix_of` trail'.
Proof. intros [tr clock r s tr' (_ & _ & _ & _ & ->)%sink_append_Ok]. by apply prefix_app_r. Qed.

(** Whatever is appended, through the builder or straight into the sink, the
    trail holds only well-shaped records with distinct ids and no forbidden key in
    any snapshot, and what was stored stays where it is. *)
Theorem sink_trail_sound trail : rtc sink_step [] trail ->
  trail_wf trail /\ forall trail', rtc sink_step trail trail' -> trail `prefix_of` trail'.
Proof.
  intros H. split.
  - assert (trail_wf []) as H0 by (split; constructor).
    revert H0. induction H; eauto using sink_step_wf.
  - intros trail' H'. induction H' as [|? ? ? Hs _ IH]; [done|].
    etrans; [by eapply sink_step_prefix|]. apply IH. by eapply rtc_r.
Qed.

End sink.

Definition sample_parse (s : string) : option Z := if String.eqb s "2026-01-01T00:00:00.000Z" then Some 1767225600000 else None.

Definition sample_draft : AuditDraft :=
  MkDraft "a-1" "org-1" (MkActor "user" "u-1" (Some "org-1")) "update" "receivable" "r-1"
    "2026-01-01T00:00:00.000Z" "req-1" None None None None (Some sample_snapshot) None None None.

Definition sample_record : AuditRecord := MkRecord sample_draft None "h".

Lemma sink_trail_sound_witness :
  exists s, rtc (sink_step sample_parse) [] [s] /\ trail_wf sample_parse [s] /\
    (forall trail', rtc (sink_step sample_parse) [s] trail' -> [s] `prefix_of` trail').
Proof.
  destruct (sink_append sample_parse [] (fixed_clock 1767225600001) sample_record) as [[s trail]|] eqn:E;
    [|vm_compute in E; discriminate E].
  assert (trail = [s]) as -> by (apply sink_append_Ok in E as (_ & _ & _ & _ & ->); done).
  assert (rtc (sink_step sample_parse) [] [s]) as Hr by (eapply rtc_once; econstructor; exact E).
  exists s. split; [done|]. exact (sink_trail_sound sample_parse [s] Hr).
Defined.
