(* ===== verification/AuditChain.v ===== *)
(** * The tamper-evident hash chain

    src/domain/audit/chain.ts: [chainHash], the append path and [verifyChain].
    The injected hash port is the parameter [hash]; nothing is assumed of it except
    where a theorem says so.  Trails grown through the append path always verify,
    and two verified trails of the same length and head hold the same records, or
    exhibit a collision of [hash]. *)

From stdpp Require Import prelude strings list.
From Stdlib Require Import ZArith Lia Ascii SpecFloat.
From S2P Require Import Prelude JsNumber JsString JsDate JsJson Events AuditRedact AuditJson AuditRecord.
Local Open Scope string_scope.
Local Open Scope list_scope.
Local Open Scope Z_scope.
Local Open Scope js_scope.

Definition GENESIS_PREV_HASH : string := implode (replicate 64 "0"%char).

(** ** Canonical records *)

Definition jopt {A} (f : A -> jvalue) (o : option A) : jvalue := match o with None => JNull | Some a => f a end.

Definition actorJson (a : AuditActor) : jvalue :=
  JObject [("kind", JString (ac_kind a)); ("id", JString (ac_id a)); ("orgId", jopt JString (ac_orgId a))].
Definition approvalJson (a : AuditApproval) : jvalue :=
  JObject [("ref", JString (ap_ref a)); ("approverId", jopt JString (ap_approverId a));
           ("decidedAt", jopt JString (ap_decidedAt a))].
Definition aiContextJson (a : AuditAiContext) : jvalue :=
  JObject [("agentKind", JString (ai_agentKind a)); ("evidenceRefs", JArray (JString <$> ai_evidenceRefs a))].

(** The record minus [recordHash]. *)
Definition recordJson (record : AuditRecord) : jvalue :=
  let r := au_draft record in
  JObject [
    ("auditId", JString (au_auditId r));
    ("orgId", JString (au_orgId r));
    ("actor", actorJson (au_actor r));
    ("action", JString (au_action r));
    ("entityType", JString (au_entityType r));
    ("entityId", JString (au_entityId r));
    ("occurredAt", JString (au_occurredAt r));
    ("requestId", JString (au_requestId r));
    ("correlationId", jopt JString (au_correlationId r));
    ("ip", jopt JString (au_ip r));
    ("userAgent", jopt JString (au_userAgent r));
    ("previousState", jopt id (au_previousState r));
    ("newState", jopt id (au_newState r));
    ("reason", jopt JString (au_reason r));
    ("approval", jopt approvalJson (au_approval r));
    ("aiContext", jopt aiContextJson (au_aiContext r));
    ("prevRecordHash", jopt JString (au_prevRecordHash record))].

Definition canonicalAuditRecord (record : AuditRecord) : result string :=
  t ← canonicalJson (recordJson record); Ok (implode t).

(** ** Verification results *)

Inductive ChainBreakReason :=
| GENESIS_INVALID | PREV_HASH_MISMATCH | RECORD_HASH_MISMATCH | HASH_FIELD_MALFORMED | LENGTH_MISMATCH | HEAD_MISMATCH.

Inductive ChainVerification :=
| verified (length : Z) (headHash : option string)
| broken (index : Z) (reason : ChainBreakReason).

Record ChainExpectation := MkExpect { ex_length : option number; ex_headHash : option string }.

(** [!Number.isInteger(expected.length) || expected.length < 0], when given. *)
Definition badExpectedLength (expected : ChainExpectation) : bool :=
  match ex_length expected with
  | Some x => match integerValue x with Some n => n <? 0 | None => true end
  | None => false
  end.

(** The verifier's second redaction. *)
Definition redactState (s : option jvalue) : result (option jvalue) :=
  match s with None => Ok None | Some v => r ← redactSnapshot v; Ok (Some r) end.

Definition redactRecord (record : AuditRecord) : result AuditRecord :=
  let r := au_draft record in
  p ← redactState (au_previousState r);
  n ← redactState (au_newState r);
  Ok (record <| au_draft := r <| au_previousState := p |> <| au_newState := n |> |>).

Definition lastHash (prev : option AuditRecord) : option string := au_recordHash <$> prev.

Section hash.
  Context (hash : string -> string).

Definition useHash (input : string) : result string :=
  let out := hash input in
  refuse (out = "" \/ MAX_HASH_LENGTH < strlen out) with "AUDIT_HASH_PORT_INVALID" ;; Ok out.

Definition chainHash (prevHash : option string) (record : AuditRecord) : result string :=
  text ← canonicalAuditRecord record;
  useHash (default GENESIS_PREV_HASH prevHash +:+ text).

(** ** [verifyChain] *)

(** The back-link checks: the first record is a genesis record, every other one
    names its predecessor's hash. *)
Definition linkProblem (i : Z) (prev : option AuditRecord) (record : AuditRecord) : option ChainVerification :=
  match prev with
  | None => if au_prevRecordHash record then Some (broken 0 GENESIS_INVALID) else None
  | Some p =>
      if decide (au_prevRecordHash record = Some (au_recordHash p)) then None
      else Some (broken i PREV_HASH_MISMATCH)
  end.

(** The body of the loop for the record at [i]; [None] continues. *)
Definition verifyRecord (i : Z) (prev : option AuditRecord) (record : AuditRecord) : result (option ChainVerification) :=
  if decide (au_recordHash record = "" \/ MAX_HASH_LENGTH < strlen (au_recordHash record))
  then Ok (Some (broken i HASH_FIELD_MALFORMED))
  else match linkProblem i prev record with
  | Some b => Ok (Some b)
  | None =>
      redacted ← redactRecord record;
      recomputed ← chainHash (au_prevRecordHash record) redacted;
      if decide (recomputed = au_recordHash record) then Ok None
      else Ok (Some (broken i RECORD_HASH_MISMATCH))
  end.

Fixpoint verify_from (i : Z) (prev : option AuditRecord) (records : list AuditRecord) : result (option ChainVerification) :=
  match records with
  | [] => Ok None
  | record :: rest =>
      b ← verifyRecord i prev record;
      match b with
      | Some b => Ok (Some b)
      | None => verify_from (i + 1) (Some record) rest
      end
  end.

Definition verifyChain (records : list AuditRecord) (expected : ChainExpectation) : result ChainVerification :=
  refuse (badExpectedLength expected = true) with "AUDIT_FILTER_INVALID" ;;
  b ← verify_from 0 None records;
  match b with
  | Some b => Ok b
  | None =>
      let count := Z.of_nat (length records) in
      let headHash := lastHash (last records) in
      if match ex_length expected with Some x => bool_decide (integerValue x <> Some count) | None => false end
      then Ok (broken (-1) LENGTH_MISMATCH)
      else if match ex_headHash expected with Some h => bool_decide (headHash <> Some h) | None => false end
      then Ok (broken (-1) HEAD_MISMATCH)
      else Ok (verified count headHash)
  end.

(** ** The append path, against the in-memory sink

    The clock is read once in [assertAuditClock], and again by the builder when
    the instant is not pinned; the sink has its own clock. *)

Section append.
  Context (Date_parse : string -> option Z).

Definition appendAuditRecord (trail : list AuditRecord) (sinkClock : Clock) (prev : option AuditRecord)
    (input : AppendAuditInput) (clock : Clock)
  : result ((AuditRecord * DomainEvent RecordAppendedPayload) * list AuditRecord) :=
  draft ← buildAuditDraft Date_parse input (clock_after 1 clock);
  prevRecordHash ← optionalCheck (fun p => assertHashString (au_recordHash p)) prev;
  let unhashed := MkRecord draft prevRecordHash "" in
  h ← chainHash prevRecordHash unhashed;
  let record := unhashed <| au_recordHash := h |> in
  _ ← assertRecordShape Date_parse record;
  '(stored, trail') ← sink_append Date_parse trail sinkClock record;
  let event := recordAppendedEvent stored (fixed_clock (default 0 (Date_parse (au_occurredAt (au_draft stored))))) in
  Ok ((stored, event), trail').

End append.
End hash.

(** ** Trails grown through the append path verify *)

Definition no_expectation : ChainExpectation := MkExpect None None.

Section chain.
  Context (hash : string -> string).

(** A record that follows [prev] and carries the hash of its redacted form. *)
Definition linked (prev : option string) (r : AuditRecord) : Prop :=
  au_prevRecordHash r = prev /\ au_recordHash r <> "" /\ strlen (au_recordHash r) <= MAX_HASH_LENGTH /\
  exists r', redactRecord r = Ok r' /\ chainHash hash prev r' = Ok (au_recordHash r).

Fixpoint chained (prev : option string) (records : list AuditRecord) : Prop :=
  match records with
  | [] => True
  | r :: rest => linked prev r /\ chained (Some (au_recordHash r)) rest
  end.


Lemma linkProblem_None i prev r : linkProblem i prev r = None <-> au_prevRecordHash r = lastHash prev.
Proof.
  unfold linkProblem. destruct prev as [p|]; [by case_decide|]. by destruct (au_prevRecordHash r).
Qed.

Lemma verifyRecord_None i prev r : verifyRecord hash i prev r = Ok None <-> linked (lastHash prev) r.
Proof.
  unfold verifyRecord, linked. rewrite <- (linkProblem_None i).
  destruct (decide (au_recordHash r = "" \/ _)) as [N|N]; [naive_solver lia|].
  destruct (linkProblem i prev r) eqn:El; [naive_solver|]. apply linkProblem_None in El. rewrite El.
  split.
  - intros (r' & Hr & H)%bind_Ok. apply bind_Ok in H as (h & Hh & H). apply Decidable.not_or in N as [Hne Hlen].
    destruct (decide (h = au_recordHash r)) as [->|]; [|discriminate H].
    split; [done|]. split; [done|]. split; [lia|]. eauto.
  - intros (_ & _ & _ & r' & Hr & Hh). apply bind_Ok. exists r'. split; [done|].
    apply bind_Ok. exists (au_recordHash r). split; [done|]. by rewrite decide_True.
Qed.

Lemma verify_from_None i prev rs : verify_from hash i prev rs = Ok None <-> chained (lastHash prev) rs.
Proof.
  revert i prev. induction rs as [|r rs IH]; intros i prev; cbn; [done|].
  rewrite <- (verifyRecord_None i). destruct (verifyRecord hash i prev r) as [[b|]|]; cbn; [|rewrite IH|]; naive_solver.
Qed.

Lemma verifyRecord_broken i prev r b : verifyRecord hash i prev r = Ok (Some b) -> exists j reason, b = broken j reason.
Proof.
  unfold verifyRecord. destruct (decide _); [naive_solver|].
  destruct (linkProblem i prev r) as [b'|] eqn:El.
  - intros [= <-]. unfold linkProblem in El. destruct prev; [case_decide|destruct (au_prevRecordHash r)]; naive_solver.
  - intros (r' & _ & H)%bind_Ok. apply bind_Ok in H as (h & _ & H). destruct (decide _); naive_solver.
Qed.

Lemma verify_from_broken i prev rs b : verify_from hash i prev rs = Ok (Some b) -> exists j reason, b = broken j reason.
Proof.
  revert i prev. induction rs as [|r rs IH]; intros i prev H; cbn in H; [done|].
  apply bind_Ok in H as ([b'|] & Hb & H); [|by eapply IH].
  injection H as ->. by eapply verifyRecord_broken.
Qed.

(** When the verifier accepts a trail. *)
Lemma verifyChain_iff rs ex n h : verifyChain hash rs ex = Ok (verified n h) <->
  badExpectedLength ex = false /\ chained None rs /\ n = Z.of_nat (length rs) /\ h = lastHash (last rs) /\
  match ex_length ex with Some x => integerValue x = Some n | None => True end /\
  match ex_headHash ex with Some e => h = Some e | None => True end.
Proof.
  unfold verifyChain. change None with (lastHash None) at 2. rewrite <- (verify_from_None 0).
  destruct (decide _) as [B|B]; [naive_solver congruence|]. apply not_true_is_false in B.
  split.
  - intros ([b|] & E & H)%bind_Ok.
    { apply verify_from_broken in E as (j & reason & ->). discriminate H. }
    destruct (ex_length ex) as [x|], (ex_headHash ex) as [e|]; repeat case_bool_decide; naive_solver.
  - intros (_ & E & -> & -> & Hl & Hh). rewrite E. cbn [mbind result_bind].
    destruct (ex_length ex) as [x|], (ex_headHash ex) as [e|]; rewrite ?bool_decide_false; naive_solver.
Qed.

Lemma chained_app prev rs r : chained prev (rs ++ [r]) <->
  chained prev rs /\ linked (match last rs with Some p => Some (au_recordHash p) | None => prev end) r.
Proof.
  revert prev. induction rs as [|r' rs IH]; intros prev; [cbn; naive_solver|].
  rewrite <- app_comm_cons. cbn [chained]. rewrite IH, last_cons. destruct (last rs); tauto.
Qed.

Section append.
  Context (Date_parse : string -> option Z).

Lemma buildAuditDraft_states input clock d : buildAuditDraft Date_parse input clock = Ok d ->
  redactOptional (au_previousState d) = Ok (au_previousState d) /\ redactOptional (au_newState d) = Ok (au_newState d).
Proof.
  unfold buildAuditDraft. intros H. repeat step_ok. subst d. cbn [au_previousState au_newState].
  split; eapply redactOptional_stable; eassumption.
Qed.

Lemma redactOptional_state s : redactOptional s = Ok s -> redactState s = Ok s.
Proof.
  destruct s as [v|]; [|done]. cbn. intros H. invert_ok. apply assertSnapshot_Ok in E as (-> & _).
  rewrite E0. cbn. by rewrite H.
Qed.

Lemma redactRecord_stable r : redactOptional (au_previousState (au_draft r)) = Ok (au_previousState (au_draft r)) ->
  redactOptional (au_newState (au_draft r)) = Ok (au_newState (au_draft r)) -> redactRecord r = Ok r.
Proof.
  intros Hp%redactOptional_state Hn%redactOptional_state. unfold redactRecord. rewrite Hp. cbn [mbind result_bind].
  rewrite Hn. cbn [mbind result_bind]. by destruct r as [[] ? ?].
Qed.

Lemma sink_append_same trail clock r s trail' : redactOptional (au_previousState (au_draft r)) = Ok (au_previousState (au_draft r)) ->
  redactOptional (au_newState (au_draft r)) = Ok (au_newState (au_draft r)) ->
  sink_append Date_parse trail clock r = Ok (s, trail') -> s = r /\ trail' = trail ++ [s].
Proof.
  intros Hp Hn (_ & _ & _ & (p & n & Hp' & Hn' & ->) & ->)%sink_append_Ok. split; [|done].
  rewrite Hp in Hp'. rewrite Hn in Hn'. apply (inj Ok) in Hp', Hn'. subst p n. by destruct r as [[] ? ?].
Qed.

Lemma chainHash_hash prev d p h h' : chainHash hash prev (MkRecord d p h) = chainHash hash prev (MkRecord d p h').
Proof.
  assert (recordJson (MkRecord d p h) = recordJson (MkRecord d p h')) as E by reflexivity.
  unfold chainHash, canonicalAuditRecord. by rewrite E.
Qed.

Lemma chainHash_Ok prev r h : chainHash hash prev r = Ok h ->
  exists t, canonicalAuditRecord r = Ok t /\ hash (default GENESIS_PREV_HASH prev +:+ t) = h.
Proof.
  unfold chainHash. intros (t & Ht & H)%bind_Ok. exists t. split; [exact Ht|]. unfold useHash in H. by repeat step_ok.
Qed.

Lemma chainHash_nonempty prev r h : chainHash hash prev r = Ok h -> h <> "" /\ strlen h <= MAX_HASH_LENGTH.
Proof.
  unfold chainHash. intros (t & _ & H)%bind_Ok. unfold useHash in H. repeat step_ok. subst h.
  apply Decidable.not_or in N. split; [tauto|lia].
Qed.

Lemma appendAuditRecord_linked trail sinkClock prev input clock s e trail' :
  appendAuditRecord hash Date_parse trail sinkClock prev input clock = Ok ((s, e), trail') ->
  trail' = trail ++ [s] /\ linked (lastHash prev) s /\ redactRecord s = Ok s.
Proof.
  unfold appendAuditRecord. intros H.
  apply bind_Ok in H as (d & Ed & H). apply bind_Ok in H as (p & Ep & H). apply bind_Ok in H as (h & Eh & H).
  apply bind_Ok in H as (u & Eu & H). apply bind_Ok in H as ([s' tr] & Es & H). injection H as -> _ ->.
  destruct (buildAuditDraft_states _ _ _ Ed) as [Hp Hn].
  apply sink_append_same in Es as [-> ->]; [|done..]. split; [done|].
  assert (p = lastHash prev) as ->.
  { destruct prev as [r|]; cbn in Ep; [|by injection Ep as <-]. invert_ok. unfold assertHashString in E. by invert_ok. }
  assert (redactRecord (MkRecord d (lastHash prev) h) = Ok (MkRecord d (lastHash prev) h)) as Hr by (by apply redactRecord_stable).
  split; [|exact Hr]. split; [done|]. destruct (chainHash_nonempty _ _ _ Eh) as [Hne Hlen]. split; [done|]. split; [done|].
  exists (MkRecord d (lastHash prev) h). split; [exact Hr|].
  rewrite (chainHash_hash _ d _ h ""). exact Eh.
Qed.

(** Writers append through [appendAuditRecord], handing it the trail's head. *)
Inductive audit_step : list AuditRecord -> list AuditRecord -> Prop :=
| audit_appended trail sinkClock input clock s e trail' :
    appendAuditRecord hash Date_parse trail sinkClock (last trail) input clock = Ok ((s, e), trail') ->
    audit_step trail trail'.

(** A trail grown through the append path, by any sequence of commands and
    whatever the hash port computes, always verifies: with no expectation, and
    against its own head hash as the anchored one. *)
Theorem appended_trail_verifies trail expected : rtc audit_step [] trail ->
  ex_length expected = None -> ex_headHash expected = None \/ ex_headHash expected = lastHash (last trail) ->
  verifyChain hash trail expected = Ok (verified (Z.of_nat (length trail)) (lastHash (last trail))).
Proof.
  intros H Hl Hh. assert (chained None trail) as Hc.
  { clear Hh. revert trail H. apply (rtc_ind_r (fun t => chained None t)); [done|].
    intros ? ? _ [trail sinkClock input clock s e trail' H] IH.
    apply appendAuditRecord_linked in H as (-> & Hlk & _). apply chained_app. split; [done|].
    by destruct (last trail). }
  apply verifyChain_iff. unfold badExpectedLength. rewrite Hl. repeat split; try done.
  destruct Hh as [->| ->]; [done|]. by destruct (lastHash (last trail)).
Qed.

(** The append path stores what redaction leaves as it is. *)
Lemma appended_redacted trail : rtc audit_step [] trail -> Forall (fun r => redactRecord r = Ok r) trail.
Proof.
  revert trail. apply (rtc_ind_r (fun t => Forall _ t)); [constructor|]. intros ? ? _ [trail sinkClock input clock s e trail' H] IH.
  apply appendAuditRecord_linked in H as (-> & _ & Hs). by apply Forall_app; split; [|constructor].
Qed.

End append.

(** ** Tampering *)

(** What was hashed for a record: its link and its redacted canonical form. *)
Definition hash_input (r : AuditRecord) : option string :=
  match redactRecord r with
  | Ok r' =>
      match canonicalAuditRecord r' with
      | Ok t => Some (default GENESIS_PREV_HASH (au_prevRecordHash r) +:+ t)
      | Err _ => None
      end
  | Err _ => None
  end.

(** Two records hold the same facts: the two snapshots, seen through [view], are the same
    up to the order of members, and every other field is equal. *)
Record same_facts (view : jvalue -> jvalue) (r r' : AuditRecord) : Prop := {
  facts_fields : au_draft r <| au_previousState := None |> <| au_newState := None |> =
                 au_draft r' <| au_previousState := None |> <| au_newState := None |>;
  facts_previous : same (jopt view (au_previousState (au_draft r))) (jopt view (au_previousState (au_draft r')));
  facts_new : same (jopt view (au_newState (au_draft r))) (jopt view (au_newState (au_draft r')));
  facts_prev : au_prevRecordHash r = au_prevRecordHash r';
  facts_hash : au_recordHash r = au_recordHash r';
}.

Lemma linked_input prev r : linked prev r -> au_prevRecordHash r = prev /\ exists r' t,
  redactRecord r = Ok r' /\ canonicalAuditRecord r' = Ok t /\
  hash_input r = Some (default GENESIS_PREV_HASH prev +:+ t) /\
  hash (default GENESIS_PREV_HASH prev +:+ t) = au_recordHash r.
Proof.
  intros (Hp & _ & _ & r' & Hr & Hh). split; [done|].
  apply chainHash_Ok in Hh as (t & Ht & Hh). exists r', t.
  split; [exact Hr|]. split; [exact Ht|]. split; [|exact Hh].
  unfold hash_input. rewrite Hr. rewrite Ht. by rewrite Hp.
Qed.

End chain.

Lemma validate_plain v : forall d, validateSnapshotShape d v = Ok tt -> plain v = true.
Proof.
  induction v as [v Hv|l IH|es IH|es IH] using jvalue_rec'; intros d.
  - destruct v; try done; cbn; by case_decide.
  - rewrite validate_array. intros [_ Hl]. cbn. apply forallb_Forall. rewrite Forall_forall in *. eauto.
  - rewrite validate_object. intros [_ Hl]. apply plain_object. rewrite Forall_forall in *. eauto.
  - cbn. by case_decide.
Qed.

Lemma redactState_Ok s s' : redactState s = Ok s' -> s' = redact <$> s /\ plain (jopt id s') = true.
Proof.
  destruct s as [v|]; cbn; [|by intros [= <-]]. intros H. invert_ok. pose proof (redactSnapshot_stable _ _ E) as Hs.
  apply redactSnapshot_Ok in E as [_ ->]. apply redactSnapshot_Ok in Hs as [Hs _]. split; [done|].
  by eapply validate_plain.
Qed.

Lemma plain_jopt {A} (f : A -> jvalue) o : (forall a, plain (f a) = true) -> plain (jopt f o) = true.
Proof. intros H. destruct o as [a|]; [exact (H a)|reflexivity]. Qed.

Lemma plain_actor a : plain (actorJson a) = true.
Proof. unfold actorJson. cbn [plain forallb snd]. by rewrite plain_jopt. Qed.

Lemma plain_approval a : plain (approvalJson a) = true.
Proof. unfold approvalJson. cbn [plain forallb snd]. by rewrite !plain_jopt. Qed.

Lemma plain_aiContext a : plain (aiContextJson a) = true.
Proof.
  unfold aiContextJson. cbn [plain forallb snd]. rewrite andb_true_r. apply forallb_Forall.
  rewrite Forall_fmap. by apply Forall_true.
Qed.

Lemma plain_record r : plain (jopt id (au_previousState (au_draft r))) = true ->
  plain (jopt id (au_newState (au_draft r))) = true -> plain (recordJson r) = true.
Proof.
  intros Hp Hn. unfold recordJson. apply plain_object.
  repeat (apply Forall_cons_2); try apply Forall_nil_2; cbn [snd]; try reflexivity; try assumption;
    try (apply plain_jopt; intros ?; reflexivity).
  - apply plain_actor.
  - apply plain_jopt, plain_approval.
  - apply plain_jopt, plain_aiContext.
Qed.

Lemma redactRecord_Ok r r' : redactRecord r = Ok r' -> plain (recordJson r') = true /\
  r' = r <| au_draft := au_draft r <| au_previousState := redact <$> au_previousState (au_draft r) |>
                                   <| au_newState := redact <$> au_newState (au_draft r) |> |>.
Proof.
  unfold redactRecord. intros (p & Hp & H)%bind_Ok. apply bind_Ok in H as (n & Hn & H). apply (inj Ok) in H. subst r'.
  apply redactState_Ok in Hp as [-> Hp], Hn as [-> Hn]. split; [|reflexivity].
  apply plain_record; assumption.
Qed.

(** ** Reading the fields back from the canonical form *)

Lemma keys_eq_perm (es es' : list (string * jvalue)) : es ≡ₚ es' -> es.*1 = es'.*1 -> NoDup es.*1 -> es = es'.
Proof.
  revert es'. induction es as [|[k v] es IH]; intros es' Hp Hk Hnd; [by apply Permutation_nil in Hp|].
  destruct es' as [|[k' v'] es']; [done|]. cbn in Hk. injection Hk as <- Hk. cbn in Hnd.
  apply NoDup_cons in Hnd as [Hnew Hnd].
  assert ((k, v') ∈ (k, v) :: es) as Hin by (rewrite Hp; by left).
  apply elem_of_cons in Hin as [[= ->]|Hin].
  - f_equal. apply IH; [by eapply Permutation_cons_inv|done|done].
  - exfalso. apply Hnew. by apply (list_elem_of_fmap_2 fst) in Hin.
Qed.

Lemma same_fields es es' : same (JObject es) (JObject es') -> es.*1 = es'.*1 -> NoDup es.*1 ->
  Forall2 (fun e e' => same e.2 e'.2) es es'.
Proof.
  intros H Hk Hnd. inversion H as [| | |? ? es'' Hes Hp]; subst; [done|].
  assert (es''.*1 = es.*1) as Hk'.
  { clear -Hes. induction Hes as [|? ? ? ? [? _] _ IH]; [done|]. cbn. by f_equal. }
  apply keys_eq_perm in Hp as ->; [|congruence|by rewrite Hk'].
  eapply Forall2_impl; [exact Hes|]. by intros ? ? [_ ?].
Qed.

Lemma same_string a b : same (JString a) (JString b) -> a = b.
Proof. by inversion 1. Qed.

Lemma same_jopt {A} (f : A -> jvalue) o o' :
  (forall a, f a <> JNull) -> (forall a b, same (f a) (f b) -> a = b) ->
  same (jopt f o) (jopt f o') -> o = o'.
Proof.
  intros Hn Hf. destruct o as [a|], o' as [b|]; cbn; intros H; [by f_equal; apply Hf| | |done].
  - exfalso. inversion H as [v Hv E1 E2| | |]; subst. apply (Hn a). congruence.
  - exfalso. inversion H as [v Hv E1 E2| | |]; subst. apply (Hn b). congruence.
Qed.

(** Open the member lists of two objects with the same literal keys. *)
Ltac open_fields H :=
  apply same_fields in H; [|reflexivity|apply (bool_decide_unpack _); vm_compute; exact I];
  rewrite ?Forall2_cons in H; cbn [fst snd] in H.

Lemma same_actor a b : same (actorJson a) (actorJson b) -> a = b.
Proof.
  destruct a as [k i o], b as [k' i' o']. unfold actorJson. cbn [ac_kind ac_id ac_orgId]. intros H. open_fields H.
  destruct H as (->%same_string & ->%same_string & Ho & _).
  by apply (same_jopt JString) in Ho as ->; [|done|exact same_string].
Qed.

Lemma same_approval a b : same (approvalJson a) (approvalJson b) -> a = b.
Proof.
  destruct a as [k i o], b as [k' i' o']. unfold approvalJson. cbn [ap_ref ap_approverId ap_decidedAt]. intros H. open_fields H.
  destruct H as (->%same_string & Hi & Ho & _).
  apply (same_jopt JString) in Hi as ->; [|done|exact same_string].
  by apply (same_jopt JString) in Ho as ->; [|done|exact same_string].
Qed.

Lemma same_aiContext a b : same (aiContextJson a) (aiContextJson b) -> a = b.
Proof.
  destruct a as [k l], b as [k' l']. unfold aiContextJson. cbn [ai_agentKind ai_evidenceRefs]. intros H. open_fields H.
  destruct H as (->%same_string & Hl & _). f_equal.
  inversion Hl as [| |? ? Hs|]; subst; [done|]. clear Hl.
  revert l' Hs. induction l as [|x l IH]; intros [|y l'] Hs; inversion Hs; subst; [done|].
  f_equal; [by apply same_string|by apply IH].
Qed.

Lemma same_record r r' : same (recordJson r) (recordJson r') ->
  au_draft r <| au_previousState := None |> <| au_newState := None |> =
  au_draft r' <| au_previousState := None |> <| au_newState := None |> /\
  same (jopt id (au_previousState (au_draft r))) (jopt id (au_previousState (au_draft r'))) /\
  same (jopt id (au_newState (au_draft r))) (jopt id (au_newState (au_draft r'))) /\
  au_prevRecordHash r = au_prevRecordHash r'.
Proof.
  unfold recordJson. destruct r as [d p h], r' as [d' p' h'].
  cbn [au_draft au_prevRecordHash]. intros H. open_fields H.
  destruct H as (H1 & H2 & H3 & H4 & H5 & H6 & H7 & H8 & H9 & H10 & H11 & H12 & H13 & H14 & H15 & H16 & H17 & _).
  apply same_string in H1, H2, H4, H5, H6, H7, H8.
  apply same_actor in H3.
  apply (same_jopt JString) in H9, H10, H11, H14, H17; try exact same_string; try done.
  apply (same_jopt approvalJson) in H15; [|done|exact same_approval].
  apply (same_jopt aiContextJson) in H16; [|done|exact same_aiContext].
  split; [|done]. rewrite !with_states. rewrite H1, H2, H3, H4, H5, H6, H7, H8, H9, H10, H11, H14, H15, H16. reflexivity.
Qed.

Lemma canonical_same_record r r' t : plain (recordJson r) = true -> plain (recordJson r') = true ->
  canonicalAuditRecord r = Ok t -> canonicalAuditRecord r' = Ok t -> same (recordJson r) (recordJson r').
Proof.
  unfold canonicalAuditRecord. intros Hp Hp' (u & Hu & H)%bind_Ok (u' & Hu' & H')%bind_Ok.
  apply (inj Ok) in H, H'. assert (u' = u) as ->.
  { rewrite <- (explode_implode u), <- (explode_implode u'). congruence. }
  exact (reads_same _ _ u (same_text _) Hp Hp' Hu Hu').
Qed.

Lemma append_split (a b c d : string) : String.length a = String.length b -> a +:+ c = b +:+ d -> a = b /\ c = d.
Proof.
  revert b. induction a as [|x a IH]; intros [|y b] Hl H; cbn in *; try done.
  injection H as -> H. destruct (IH b) as [-> ->]; [lia|done|done].
Qed.

Lemma jopt_fmap s : jopt id (redact <$> s) = jopt redact s.
Proof. by destruct s. Qed.

Section tamper.
  Context (hash : string -> string).
  Context (hash_length : forall s, String.length (hash s) = 64%nat).

(** Two records at the same place of the trails were hashed from different texts, and these
    have one hash. *)
Definition collision (t1 t2 : list AuditRecord) : Prop :=
  exists i r1 r2 x y, t1 !! i = Some r1 /\ t2 !! i = Some r2 /\ hash_input r1 = Some x /\ hash_input r2 = Some y /\ x <> y /\ hash x = hash y.

Lemma collision_mono t1 t2 t1' t2' : collision t1 t2 -> collision (t1 ++ t1') (t2 ++ t2').
Proof.
  intros (i & r1 & r2 & x & y & H1 & H2 & H). exists i, r1, r2, x, y. split; [by apply lookup_app_l_Some|]. split; [by apply lookup_app_l_Some|done].
Qed.

Lemma collision_snoc t1 t2 r1 r2 : length t1 = length t2 -> collision [r1] [r2] -> collision (t1 ++ [r1]) (t2 ++ [r2]).
Proof.
  intros Hn (i & a & b & x & y & [_ <-]%list_lookup_singleton_Some & [_ <-]%list_lookup_singleton_Some & H). exists (length t1), r1, r2, x, y.
  split; [by apply list_lookup_middle|]. split; [by apply list_lookup_middle|done].
Qed.

Lemma anchor_length l : chained hash None l -> String.length (default GENESIS_PREV_HASH (lastHash (last l))) = 64%nat.
Proof.
  destruct l as [|r l _] using rev_ind; [done|]. intros [_ Hl]%chained_app. rewrite last_snoc. cbn.
  apply linked_input in Hl as (_ & r' & t & _ & _ & _ & <-). apply hash_length.
Qed.

Lemma same_link r1 r2 p1 p2 : linked hash p1 r1 -> linked hash p2 r2 -> au_recordHash r1 = au_recordHash r2 ->
  String.length (default GENESIS_PREV_HASH p1) = 64%nat -> String.length (default GENESIS_PREV_HASH p2) = 64%nat ->
  collision [r1] [r2] \/ (default GENESIS_PREV_HASH p1 = default GENESIS_PREV_HASH p2 /\ same_facts redact r1 r2).
Proof.
  intros H1 H2 Hh L1 L2.
  apply linked_input in H1 as (P1 & r1' & t1 & Hr1 & Ht1 & I1 & Hh1).
  apply linked_input in H2 as (P2 & r2' & t2 & Hr2 & Ht2 & I2 & Hh2).
  destruct (decide (default GENESIS_PREV_HASH p1 +:+ t1 = default GENESIS_PREV_HASH p2 +:+ t2)) as [E|E].
  - right. apply append_split in E as [Ep Et]; [|congruence]. split; [done|]. subst t2.
    apply redactRecord_Ok in Hr1 as [Hp1 E1], Hr2 as [Hp2 E2].
    pose proof (canonical_same_record _ _ _ Hp1 Hp2 Ht1 Ht2) as Hs.
    apply same_record in Hs as (Hf & Hpr & Hnw & Hpv). clear Ht1 Ht2 Hp1 Hp2. subst r1' r2'.
    destruct r1 as [[] ? ?], r2 as [[] ? ?]. split; try assumption.
    + rewrite <- !jopt_fmap. exact Hpr.
    + rewrite <- !jopt_fmap. exact Hnw.
  - left. exists 0%nat, r1, r2. do 2 eexists. split; [done|]. split; [done|]. split; [exact I1|]. split; [exact I2|].
    split; [done|]. congruence.
Qed.

Lemma tamper_chain t1 t2 : chained hash None t1 -> chained hash None t2 -> length t1 = length t2 ->
  lastHash (last t1) = lastHash (last t2) -> Forall2 (same_facts redact) t1 t2 \/ collision t1 t2.
Proof.
  revert t2. induction t1 as [|r1 t1 IH] using rev_ind; intros t2 C1 C2 Hn Hh.
  { destruct t2; [by left; constructor|done]. }
  destruct t2 as [|r2 t2 _] using rev_ind; [by rewrite length_app, Nat.add_comm in Hn|].
  rewrite !length_app, !Nat.add_1_r in Hn. injection Hn as Hn.
  rewrite !last_snoc in Hh. cbn in Hh. injection Hh as Hh.
  apply chained_app in C1 as [C1 L1], C2 as [C2 L2].
  change (match last t1 with Some p => Some (au_recordHash p) | None => None end) with (lastHash (last t1)) in L1.
  change (match last t2 with Some p => Some (au_recordHash p) | None => None end) with (lastHash (last t2)) in L2.
  destruct (same_link _ _ _ _ L1 L2 Hh (anchor_length _ C1) (anchor_length _ C2)) as [Hc|[Hp Hf]].
  - right. by apply collision_snoc.
  - destruct (IH t2 C1 C2 Hn) as [IHf|IHc]; [| |by right; apply collision_mono].
    + clear -Hp Hn. destruct (last t1) as [a|] eqn:E1, (last t2) as [b|] eqn:E2; cbn in *; try congruence.
      * apply last_None in E2 as ->. apply nil_length_inv in Hn as ->. discriminate E1.
      * apply last_None in E1 as ->. symmetry in Hn. apply nil_length_inv in Hn as ->. discriminate E2.
    + left. by apply Forall2_app; [|constructor].
Qed.

Lemma redacted_state r v : redactRecord r = Ok r -> au_previousState (au_draft r) = Some v \/ au_newState (au_draft r) = Some v -> redact v = v.
Proof.
  intros [_ H]%redactRecord_Ok. destruct r as [[] ? ?]. cbn in *. injection H as Hp Hn. intros [-> | ->]; cbn in *; congruence.
Qed.

(** Of records stored redacted, the snapshots agree as they are stored. *)
Lemma same_facts_stored r r' : redactRecord r = Ok r -> redactRecord r' = Ok r' -> same_facts redact r r' -> same_facts id r r'.
Proof.
  intros Hr Hr' [H1 H2 H3 H4 H5].
  assert (Hv : forall r s, redactRecord r = Ok r -> s = au_previousState (au_draft r) \/ s = au_newState (au_draft r) -> jopt redact s = jopt id s).
  { intros x [v|] Hx Hs; [|done]. cbn. apply (redacted_state x); [done|]. naive_solver. }
  rewrite !(Hv r), !(Hv r') in H2, H3 by auto. by split.
Qed.

(** C37: Tamper evidence.  With a hash port of fixed output length (SHA-256 in hex), two
    trails that both verify with the same length and the same head hash hold, place by
    place, the same records, or two records at one place were hashed from different texts
    with the same hash.  The same records: equal in every field except the two snapshots,
    which agree after redaction and up to the order of members; and where both trails were
    stored redacted, as the append path leaves them, the snapshots agree as stored, up to
    the order of members.  Changing, removing or reordering an anchored record in any other
    way is therefore detected unless it breaks the hash. *)
Theorem verified_trails_agree t1 t2 e1 e2 n h :
  verifyChain hash t1 e1 = Ok (verified n h) -> verifyChain hash t2 e2 = Ok (verified n h) ->
  collision t1 t2 \/
  (Forall2 (same_facts redact) t1 t2 /\
   (Forall (fun r => redactRecord r = Ok r) t1 -> Forall (fun r => redactRecord r = Ok r) t2 -> Forall2 (same_facts id) t1 t2)).
Proof.
  intros (_ & C1 & N1 & H1 & _)%verifyChain_iff (_ & C2 & N2 & H2 & _)%verifyChain_iff.
  destruct (tamper_chain t1 t2) as [H|H]; [done|done|lia|congruence| |by left]. right. split; [done|]. intros R1 R2.
  clear -H R1 R2. induction H as [|r r' t1 t2 Hr _ IH]; [constructor|]. apply Forall_cons in R1 as [? ?], R2 as [? ?].
  constructor; [by apply same_facts_stored|by apply IH].
Qed.

End tamper.

(** ** A concrete port and trail *)

Lemma length_explode s : length (explode s) = String.length s.
Proof. unfold explode. induction s as [|c s IH]; [done|]. cbn. by rewrite IH. Qed.

Definition sample_hash (s : string) : string := implode (padStart 64 "0"%char (seed_word 0 s)).

Lemma sample_hash_length s : String.length (sample_hash s) = 64%nat.
Proof.
  unfold sample_hash. rewrite <- length_explode, explode_implode. apply padStart_length.
  destruct (seed_word_shape 0 s) as [-> _]; lia.
Qed.

Definition sample_now : Clock := fixed_clock 1767225600000.
Definition sample_append := appendAuditRecord sample_hash sample_parse [] sample_now None (MkAuditInput sample_draft None) sample_now.

Definition sample_stored : AuditRecord := match sample_append with Ok ((s, _), _) => s | Err _ => sample_record end.

Lemma sample_append_Ok : exists e, sample_append = Ok ((sample_stored, e), [sample_stored]).
Proof. vm_compute. eexists. reflexivity. Qed.

Lemma appended_trail_verifies_witness :
  rtc (audit_step sample_hash sample_parse) [] [sample_stored] /\
  verifyChain sample_hash [sample_stored] no_expectation = Ok (verified 1 (Some (au_recordHash sample_stored))).
Proof.
  assert (rtc (audit_step sample_hash sample_parse) [] [sample_stored]) as H.
  { destruct sample_append_Ok as [e E]. eapply rtc_once. econstructor. exact E. }
  split; [exact H|].
  exact (appended_trail_verifies sample_hash sample_parse [sample_stored] no_expectation H eq_refl (or_introl eq_refl)).
Defined.

Definition with_newState (s : jvalue) (r : AuditRecord) : AuditRecord :=
  r <| au_draft := au_draft r <| au_newState := Some s |> |>.

(** The stored snapshot with its members in another order. *)
Definition reordered : AuditRecord :=
  with_newState (JObject [("customer", JObject [("id", JString "c1")]); ("status", JString "paid")]) sample_stored.

Lemma verified_trails_agree_witness :
  verifyChain sample_hash [sample_stored] no_expectation = verifyChain sample_hash [reordered] no_expectation /\
  (collision sample_hash [sample_stored] [reordered] \/
   (Forall2 (same_facts redact) [sample_stored] [reordered] /\
    (Forall (fun r => redactRecord r = Ok r) [sample_stored] -> Forall (fun r => redactRecord r = Ok r) [reordered] ->
     Forall2 (same_facts id) [sample_stored] [reordered]))).
Proof.
  assert (verifyChain sample_hash [sample_stored] no_expectation = Ok (verified 1 (Some (au_recordHash sample_stored)))) as H1
    by (vm_compute; reflexivity).
  assert (verifyChain sample_hash [reordered] no_expectation = Ok (verified 1 (Some (au_recordHash sample_stored)))) as H2
    by (vm_compute; reflexivity).
  split; [by rewrite H1, H2|].
  exact (verified_trails_agree sample_hash sample_hash_length _ _ _ _ _ _ H1 H2).
Defined.

(** A row edited in storage so that its snapshot holds a password still verifies:
    the verifier redacts before it hashes, so the chain does not show that the
    redaction was bypassed. *)
Theorem stored_secret_still_verifies :
  let leaked := with_newState (JObject [("status", JString "paid"); ("customer", JObject [("id", JString "c1")]);
                                        ("password", JString "hunter2")]) sample_stored in
  clean_state (au_newState (au_draft leaked)) = false /\
  verifyChain sample_hash [leaked] no_expectation = verifyChain sample_hash [sample_stored] no_expectation.
Proof. vm_compute. split; reflexivity. Qed.
