(* ===== verification/AuditTrail.v ===== *)
(** * Event projection and the trail's read model

    src/domain/audit/project.ts: [auditFromEvent] turns a plain event envelope into
    an append command, [queryAuditTrail] filters and sorts a trail. *)

From stdpp Require Import prelude strings list sorting.
From Stdlib Require Import ZArith Lia Ascii.
From S2P Require Import Prelude JsNumber JsString JsDate JsJson Events AuditRedact AuditRecord.
Local Open Scope string_scope.
Local Open Scope list_scope.
Local Open Scope Z_scope.
Local Open Scope js_scope.

(** ** Envelope projection *)

Definition is_lower (c : ascii) : bool := in_range 97 122 c.
Definition is_alnum (c : ascii) : bool := in_range 97 122 c || in_range 65 90 c || is_digit c.
Definition dot : ascii := charOf 46.

(** What precedes the first dot, and what follows it. *)
Fixpoint splitDot (l : chars) : option (chars * chars) :=
  match l with
  | [] => None
  | c :: l' => if decide (c = dot) then Some ([], l') else p ← splitDot l'; Some (c :: p.1, p.2)
  end.

(** [/^[a-z][a-zA-Z0-9]*\.[a-z][a-zA-Z0-9]+$/] *)
Definition EVENT_NAME_PATTERN (name : string) : bool :=
  match splitDot (explode name) with
  | Some (c :: context, d :: e :: verb) =>
      is_lower c && forallb is_alnum context && is_lower d && is_alnum e && forallb is_alnum verb
  | _ => false
  end.

Record AuditEventEnvelope := MkEventEnvelope {
  en_name : string;
  en_aggregateId : string;
  en_occurredAt : string;
  en_payload : jvalue;
  en_correlationId : option string;
}.

Record AuditFromEventOptions := MkOptions {
  op_auditId : Uuid;
  op_orgId : Uuid;
  op_actor : AuditActor;
  op_action : string;
  op_requestId : string;
  op_correlationId : option string;
  op_ip : option string;
  op_userAgent : option string;
  op_reason : option string;
  op_approval : option AuditApproval;
  op_aiContext : option AuditAiContext;
}.

(** [payload[key]]: an object or null, anything else is refused. *)
Definition payloadSlice (members : list (string * jvalue)) (key : string) : result (option jvalue) :=
  match find_member key members with
  | None | Some JUndefined | Some JNull => Ok None
  | Some (JObject es) => Ok (Some (JObject es))
  | Some (JInstance es) => Ok (Some (JInstance es))
  | Some _ => Err (DomainError "AUDIT_EVENT_PAYLOAD_INVALID")
  end.

Definition jmembers (v : jvalue) : option (list (string * jvalue)) :=
  match v with JObject es | JInstance es => Some es | _ => None end.

(** [name.slice(0, name.indexOf('.'))] for a name with a dot. *)
Definition eventContext (name : string) : string :=
  implode (default [] (fst <$> splitDot (explode name))).

Section parse.
  Context (Date_parse : string -> option Z).

Definition auditFromEvent (envelope : AuditEventEnvelope) (options : AuditFromEventOptions) : result AppendAuditInput :=
  refuse (EVENT_NAME_PATTERN (en_name envelope) = false) with "AUDIT_EVENT_NAME_MALFORMED" ;;
  refuse (isIsoInstant Date_parse (en_occurredAt envelope) = false) with "AUDIT_EVENT_OCCURRED_AT_INVALID" ;;
  match jmembers (en_payload envelope) with
  | None => Err (DomainError "AUDIT_EVENT_PAYLOAD_INVALID")
  | Some members =>
      let correlationId := match en_correlationId envelope with Some c => Some c | None => op_correlationId options end in
      auditId ← assertNonBlank (op_auditId options) "AUDIT_RECORD_MALFORMED" MAX_ID_LENGTH;
      orgId ← assertNonBlank (op_orgId options) "AUDIT_ORG_REQUIRED" MAX_ID_LENGTH;
      actor ← assertActor (op_actor options);
      action ← assertAction (op_action options);
      requestId ← assertNonBlank (op_requestId options) "AUDIT_REQUEST_ID_REQUIRED" MAX_REQUEST_ID_LENGTH;
      previousState ← payloadSlice members "previousState";
      newState ← payloadSlice members "newState";
      Ok (MkAuditInput
            (MkDraft auditId orgId actor action (eventContext (en_name envelope)) (en_aggregateId envelope)
               (en_occurredAt envelope) requestId correlationId (op_ip options) (op_userAgent options)
               previousState newState (op_reason options) (op_approval options) (op_aiContext options))
            (Some (en_occurredAt envelope)))
  end.

(** ** The read model *)

Record AuditTrailFilter := MkFilter {
  f_orgId : option string;
  f_actorId : option string;
  f_actorKind : option string;
  f_entityType : option string;
  f_entityId : option string;
  f_action : option string;
  f_from : option string;
  f_to : option string;
  f_correlationId : option string;
  f_requestId : option string;
}.

Definition assertFilterField (raw : option string) : result (option string) :=
  optionalCheck (fun s =>
    refuse (trim s = "" \/ MAX_ID_LENGTH < strlen s) with "AUDIT_FILTER_INVALID" ;; Ok s) raw.

Definition filterInstant (raw : option string) : result (option Z) :=
  match raw with
  | None => Ok None
  | Some s => refuse (isIsoInstant Date_parse s = false) with "AUDIT_FILTER_INVALID" ;; Ok (Date_parse s)
  end.

Definition filterWord (words : list string) (raw : option string) : result (option string) :=
  optionalCheck (fun w => refuse (w ∉ words) with "AUDIT_FILTER_INVALID" ;; Ok w) raw.

(** A field that is given must be equal. *)
Definition wants {A} `{EqDecision A} (wanted : option A) (actual : A) : bool :=
  match wanted with None => true | Some w => bool_decide (actual = w) end.

(** [Date.parse(t) < bound] is false when the instant is NaN. *)
Definition before (t : string) (bound : option Z) : bool :=
  match Date_parse t, bound with Some ms, Some b => ms <? b | _, _ => false end.
Definition after (t : string) (bound : option Z) : bool :=
  match Date_parse t, bound with Some ms, Some b => b <? ms | _, _ => false end.

Definition matches (filter : AuditTrailFilter) (fromMs toMs : option Z) (record : AuditRecord) : bool :=
  let r := au_draft record in
  wants (f_orgId filter) (au_orgId r) && wants (f_actorId filter) (ac_id (au_actor r)) &&
  wants (f_actorKind filter) (ac_kind (au_actor r)) && wants (f_entityType filter) (au_entityType r) &&
  wants (f_entityId filter) (au_entityId r) && wants (f_action filter) (au_action r) &&
  wants (Some <$> f_correlationId filter) (au_correlationId r) && wants (f_requestId filter) (au_requestId r) &&
  negb (before (au_occurredAt r) fromMs) && negb (after (au_occurredAt r) toMs).

(** The comparator; a NaN difference counts as zero. *)
Definition trail_cmp (a b : AuditRecord) : Z :=
  match Date_parse (au_occurredAt (au_draft a)), Date_parse (au_occurredAt (au_draft b)) with
  | Some x, Some y => if decide (x = y) then string_cmp (au_auditId (au_draft a)) (au_auditId (au_draft b)) else x - y
  | _, _ => 0
  end.

Definition queryAuditTrail (records : list AuditRecord) (filter : AuditTrailFilter) : result (list AuditRecord) :=
  _ ← filterWord ACTOR_KINDS (f_actorKind filter);
  _ ← filterWord AUDIT_ACTIONS (f_action filter);
  fromMs ← filterInstant (f_from filter);
  toMs ← filterInstant (f_to filter);
  refuse (match fromMs, toMs with Some x, Some y => y <? x | _, _ => false end = true) with "AUDIT_FILTER_INVALID" ;;
  _ ← assertFilterField (f_orgId filter);
  _ ← assertFilterField (f_actorId filter);
  _ ← assertFilterField (f_entityType filter);
  _ ← assertFilterField (f_entityId filter);
  _ ← assertFilterField (f_correlationId filter);
  _ ← assertFilterField (f_requestId filter);
  Ok (sort_by trail_cmp (List.filter (matches filter fromMs toMs) records)).

End parse.

(** ** What a query returns *)

Section query.
  Context (Date_parse : string -> option Z).

Definition instant (r : AuditRecord) : Z := default 0 (Date_parse (au_occurredAt (au_draft r))).
Definition recId (r : AuditRecord) : string := au_auditId (au_draft r).
Definition parses (r : AuditRecord) : Prop := Date_parse (au_occurredAt (au_draft r)) <> None.

Definition total_cmp (a b : AuditRecord) : Z :=
  if decide (instant a = instant b) then string_cmp (recId a) (recId b) else instant a - instant b.

#[local] Instance total_cmp_total : TotalComparator total_cmp.
Proof.
  split; unfold total_cmp.
  - intros x y. repeat case_decide; try lia. apply string_cmp_total.
  - intros x y z. repeat case_decide; try lia. apply string_cmp_trans.
Qed.

Lemma trail_cmp_total a b : parses a -> parses b -> trail_cmp Date_parse a b = total_cmp a b.
Proof.
  unfold parses, trail_cmp, total_cmp, instant. destruct (Date_parse _), (Date_parse _); try done.
Qed.

Lemma trail_sort l : Forall parses l -> sort_by (trail_cmp Date_parse) l = sort_by total_cmp l.
Proof. rewrite Forall_forall. intros H. apply sort_by_ext. intros x y Hx Hy. apply trail_cmp_total; auto. Qed.

Lemma total_cmp_key a b : total_cmp a b <= 0 -> total_cmp b a <= 0 -> recId a = recId b.
Proof.
  unfold total_cmp. repeat case_decide; try lia. intros H1 H2.
  apply string_cmp_eq. pose proof (string_cmp_antisym (recId a) (recId b)). lia.
Qed.

(** Every criterion that is given holds of the record. *)
Definition satisfies (f : AuditTrailFilter) (r : AuditRecord) : Prop :=
  let d := au_draft r in
  (forall x, f_orgId f = Some x -> au_orgId d = x) /\
  (forall x, f_actorId f = Some x -> ac_id (au_actor d) = x) /\
  (forall x, f_actorKind f = Some x -> ac_kind (au_actor d) = x) /\
  (forall x, f_entityType f = Some x -> au_entityType d = x) /\
  (forall x, f_entityId f = Some x -> au_entityId d = x) /\
  (forall x, f_action f = Some x -> au_action d = x) /\
  (forall x, f_correlationId f = Some x -> au_correlationId d = Some x) /\
  (forall x, f_requestId f = Some x -> au_requestId d = x) /\
  (forall x, f_from f = Some x -> default 0 (Date_parse x) <= instant r) /\
  (forall x, f_to f = Some x -> instant r <= default 0 (Date_parse x)).

Lemma wants_true {A} `{EqDecision A} (w : option A) a : wants w a = true <-> forall x, w = Some x -> a = x.
Proof. destruct w as [w|]; cbn; [rewrite bool_decide_eq_true|]; naive_solver. Qed.

Lemma filterInstant_Ok raw ms : filterInstant Date_parse raw = Ok ms ->
  (raw = None /\ ms = None) \/ exists s x, raw = Some s /\ Date_parse s = Some x /\ ms = Some x.
Proof.
  destruct raw as [s|]; cbn; [|naive_solver]. intros H. repeat step_ok. apply not_false_is_true in N.
  unfold isIsoInstant in N. apply andb_prop in N as [_ N]. destruct (Date_parse s) eqn:E; [|done]. naive_solver.
Qed.

Lemma before_bound r raw ms : parses r -> filterInstant Date_parse raw = Ok ms ->
  negb (before Date_parse (au_occurredAt (au_draft r)) ms) = true <-> (forall x, raw = Some x -> default 0 (Date_parse x) <= instant r).
Proof.
  unfold parses, before, instant. intros Hr [[-> ->]|(s & x & -> & E & ->)]%filterInstant_Ok;
    (destruct (Date_parse (au_occurredAt _)); [|done]); [naive_solver|].
  rewrite negb_true_iff, Z.ltb_ge. split; [intros ? ? [= <-]; rewrite E; done|]. intros H. specialize (H s eq_refl).
  by rewrite E in H.
Qed.

Lemma after_bound r raw ms : parses r -> filterInstant Date_parse raw = Ok ms ->
  negb (after Date_parse (au_occurredAt (au_draft r)) ms) = true <-> (forall x, raw = Some x -> instant r <= default 0 (Date_parse x)).
Proof.
  unfold parses, after, instant. intros Hr [[-> ->]|(s & x & -> & E & ->)]%filterInstant_Ok;
    (destruct (Date_parse (au_occurredAt _)); [|done]); [naive_solver|].
  rewrite negb_true_iff, Z.ltb_ge. split; [intros ? ? [= <-]; rewrite E; done|]. intros H. specialize (H s eq_refl).
  by rewrite E in H.
Qed.

Lemma matches_satisfies f fromMs toMs r : parses r ->
  filterInstant Date_parse (f_from f) = Ok fromMs -> filterInstant Date_parse (f_to f) = Ok toMs ->
  matches Date_parse f fromMs toMs r = true <-> satisfies f r.
Proof.
  intros Hr Hf Ht. unfold matches, satisfies. rewrite !andb_true_iff, !wants_true.
  rewrite (before_bound r _ _ Hr Hf), (after_bound r _ _ Hr Ht).
  assert ((forall x, Some <$> f_correlationId f = Some x -> au_correlationId (au_draft r) = x) <->
          (forall x, f_correlationId f = Some x -> au_correlationId (au_draft r) = Some x)) as ->; [|tauto].
  destruct (f_correlationId f); cbn; naive_solver.
Qed.

Lemma query_Ok records f out : queryAuditTrail Date_parse records f = Ok out -> exists fromMs toMs,
  filterInstant Date_parse (f_from f) = Ok fromMs /\ filterInstant Date_parse (f_to f) = Ok toMs /\
  out = sort_by (trail_cmp Date_parse) (List.filter (matches Date_parse f fromMs toMs) records) /\
  (forall records', queryAuditTrail Date_parse records' f =
     Ok (sort_by (trail_cmp Date_parse) (List.filter (matches Date_parse f fromMs toMs) records'))).
Proof.
  unfold queryAuditTrail. intros H. repeat step_ok. exists v1, v2. repeat split; try done.
  intros records'. rewrite E, E0, E1, E2. cbn [mbind result_bind]. rewrite decide_False by done.
  by rewrite E3, E4, E5, E6, E7, E8.
Qed.

(** A query over a trail whose instants parse returns exactly the records that
    satisfy every given criterion (both time bounds inclusive), each as often as
    the trail holds it, ordered by instant and then by id; and when ids are unique
    the answer does not depend on the order the records are stored in. *)
Theorem query_exact records f out : Forall parses records -> queryAuditTrail Date_parse records f = Ok out ->
  (forall r, r ∈ out <-> r ∈ records /\ satisfies f r) /\
  out ⊆+ records /\
  StronglySorted (fun a b => instant a < instant b \/ (instant a = instant b /\ string_cmp (recId a) (recId b) <= 0)) out /\
  (forall records', NoDup (recId <$> records) -> records ≡ₚ records' ->
     queryAuditTrail Date_parse records' f = Ok out).
Proof.
  intros Hp H. apply query_Ok in H as (fromMs & toMs & Hf & Ht & -> & Hq).
  assert (forall l, Forall parses l -> sort_by (trail_cmp Date_parse) (List.filter (matches Date_parse f fromMs toMs) l) =
    sort_by total_cmp (List.filter (matches Date_parse f fromMs toMs) l)) as Hs.
  { intros l Hl. apply trail_sort. rewrite Forall_forall in *. intros r Hr%list_elem_of_In.
    apply filter_In in Hr as [Hr _]. apply Hl, list_elem_of_In, Hr. }
  rewrite Hs by done. split; [|split; [|split]].
  - intros r. rewrite sort_by_perm, list_elem_of_In, filter_In, <- list_elem_of_In.
    split; intros [Hr Hm]; (split; [done|]); rewrite Forall_forall in Hp; eapply matches_satisfies; eauto.
  - rewrite sort_by_perm. apply sublist_submseteq, filter_sublist.
  - eapply StronglySorted_weaken; [|apply sort_by_sorted, _].
    intros a b. unfold cmp_le, total_cmp. case_decide; lia.
  - intros records' Hnd Hperm. rewrite Hq, Hs by (by rewrite <- Hperm). f_equal. symmetry.
    apply (sort_by_unique total_cmp recId); [exact total_cmp_key| |by rewrite Hperm].
    eapply sublist_NoDup; [exact Hnd|]. apply fmap_sublist, filter_sublist.
Qed.

End query.

Definition sample_filter : AuditTrailFilter :=
  MkFilter (Some "org-1") None (Some "user") None None None (Some "2026-01-01T00:00:00.000Z") None None None.

Lemma query_exact_witness :
  queryAuditTrail sample_parse [sample_record] sample_filter = Ok [sample_record] /\
  satisfies sample_parse sample_filter sample_record.
Proof.
  assert (queryAuditTrail sample_parse [sample_record] sample_filter = Ok [sample_record]) as H by (vm_compute; reflexivity).
  split; [exact H|].
  assert (Forall (parses sample_parse) [sample_record]) as Hp.
  { constructor; [|constructor]. unfold parses. vm_compute. congruence. }
  destruct (query_exact sample_parse [sample_record] sample_filter [sample_record] Hp H) as (Hin & _).
  apply (Hin sample_record). left.
Defined.

(** ** Projection *)

Section projection.
  Context (Date_parse : string -> option Z).

Lemma payloadSlice_Ok members key s v : payloadSlice members key = Ok s -> find_member key members = Some v ->
  v <> JNull -> v <> JUndefined -> s = Some v.
Proof. unfold payloadSlice. intros H E. rewrite E in H. destruct v; naive_solver. Qed.

Lemma build_fields input clock d : buildAuditDraft Date_parse input clock = Ok d ->
  au_occurredAt d = default (toISOString (clock 0%nat)) (in_occurredAt input) /\
  au_entityType d = trim (au_entityType (in_fields input)) /\
  au_entityId d = trim (au_entityId (in_fields input)) /\
  au_action d = au_action (in_fields input) /\
  au_previousState d = redact <$> au_previousState (in_fields input) /\
  au_newState d = redact <$> au_newState (in_fields input).
Proof.
  unfold buildAuditDraft. intros H. repeat step_ok. subst d.
  cbn [au_occurredAt au_entityType au_entityId au_action au_previousState au_newState].
  repeat match goal with
  | E : redactOptional _ = Ok _ |- _ => apply redactOptional_Ok in E as [-> _]
  | E : assertNonBlank _ _ _ = Ok _ |- _ => apply assertNonBlank_trim in E as ->
  end.
  repeat split; [|by unfold assertAction in *; repeat step_ok].
  destruct (in_occurredAt input); by repeat step_ok.
Qed.

(** The record built from a projected event attests the event: its entity type
    is the context of the event's name, its instant is the event's own and not the
    clock's, its action is the caller's, and its snapshots are the payload's slices
    with every forbidden key stripped. *)
Theorem projection_attests_the_event envelope options input clock d :
  auditFromEvent Date_parse envelope options = Ok input ->
  buildAuditDraft Date_parse input clock = Ok d ->
  au_occurredAt d = en_occurredAt envelope /\
  au_entityType d = trim (eventContext (en_name envelope)) /\
  au_entityId d = trim (en_aggregateId envelope) /\
  au_action d = op_action options /\
  clean_state (au_previousState d) = true /\ clean_state (au_newState d) = true /\
  exists members, jmembers (en_payload envelope) = Some members /\
    (forall v, find_member "newState" members = Some v -> v <> JNull -> v <> JUndefined -> au_newState d = Some (redact v)) /\
    (forall v, find_member "previousState" members = Some v -> v <> JNull -> v <> JUndefined ->
       au_previousState d = Some (redact v)).
Proof.
  intros Hp (Ho & Ht & Hi & Ha & Hps & Hns)%build_fields. unfold auditFromEvent in Hp. repeat step_ok.
  destruct (jmembers (en_payload envelope)) as [members|]; [|done]. repeat step_ok. subst input.
  cbn [in_fields in_occurredAt au_entityType au_entityId au_action au_previousState au_newState default] in *.
  rewrite Hps, Hns. split; [done|]. split; [done|]. split; [done|].
  split; [by rewrite Ha; unfold assertAction in *; repeat step_ok|].
  split; [by destruct v4; [apply clean_redact|]|]. split; [by destruct v5; [apply clean_redact|]|].
  exists members. split; [done|]. split; intros u Hv Hn Hu; [by rewrite (payloadSlice_Ok _ _ _ _ E5 Hv Hn Hu)|].
  by rewrite (payloadSlice_Ok _ _ _ _ E4 Hv Hn Hu).
Qed.

End projection.

Definition sample_envelope : AuditEventEnvelope :=
  MkEventEnvelope "receivable.receivableSettled" "r-1" "2026-01-01T00:00:00.000Z" (JObject [("newState", sample_snapshot)]) None.
Definition sample_options : AuditFromEventOptions :=
  MkOptions "a-1" "org-1" (MkActor "system" "s" None) "settle" "req-1" None None None None None None.

Lemma projection_attests_the_event_witness :
  exists input d, auditFromEvent sample_parse sample_envelope sample_options = Ok input /\
    buildAuditDraft sample_parse input (fixed_clock 0) = Ok d /\
    au_occurredAt d = "2026-01-01T00:00:00.000Z" /\ au_entityType d = "receivable" /\ clean_state (au_newState d) = true.
Proof.
  destruct (auditFromEvent sample_parse sample_envelope sample_options) as [input|] eqn:E; [|vm_compute in E; discriminate E].
  destruct (buildAuditDraft sample_parse input (fixed_clock 0)) as [d|] eqn:Ed;
    [|vm_compute in E; injection E as <-; vm_compute in Ed; discriminate Ed].
  exists input, d. split; [done|]. split; [exact Ed|].
  destruct (projection_attests_the_event sample_parse sample_envelope sample_options input (fixed_clock 0) d E Ed)
    as (Ho & Ht & _ & _ & _ & Hn & _).
  split; [exact Ho|]. split; [rewrite Ht; vm_compute; reflexivity|exact Hn].
Defined.
