(* ===== verification/Dispute.v ===== *)
(** * Disputes and the collections pause

    src/domain/disputes/{dispute,pause,events}.ts: the dispute machine, the
    registry rules of [openDispute], and the pause policy collections consult.
    The registry of the callers is a list, what they may do a step relation that
    also records the emitted events. *)

From stdpp Require Import prelude strings list.
From Stdlib Require Import ZArith Lia Ascii.
From S2P Require Import Prelude JsNumber JsString JsDate Money Events.
Local Open Scope string_scope.
Local Open Scope list_scope.
Local Open Scope Z_scope.
Local Open Scope js_scope.

Definition DISPUTE_CATEGORIES : list string := ["pricing"; "quality"; "quantity"; "delivery"; "duplicate"; "other"].

Definition assertCategory (category : string) : result string :=
  refuse (category ∉ DISPUTE_CATEGORIES) with "DISPUTE_CATEGORY_INVALID" ;; Ok category.

(** ** Lifecycle *)

Inductive DisputeStatus :=
| opened | investigating | awaiting_customer | awaiting_business | resolved | rejected | cancelled.
#[export] Instance DisputeStatus_eq_dec : EqDecision DisputeStatus.
Proof. solve_decision. Defined.

Definition OPEN_DISPUTE_STATES : list DisputeStatus := [opened; investigating; awaiting_customer; awaiting_business].

Definition isDisputeOpen (status : DisputeStatus) : bool := bool_decide (status ∈ OPEN_DISPUTE_STATES).

Definition DISPUTE_TRANSITIONS (from : DisputeStatus) : list DisputeStatus :=
  match from with
  | opened => [investigating; cancelled]
  | investigating => [awaiting_customer; awaiting_business; resolved; rejected; cancelled]
  | awaiting_customer => [investigating; resolved; rejected; cancelled]
  | awaiting_business => [investigating; resolved; rejected; cancelled]
  | resolved | rejected | cancelled => []
  end.

(** ** Outcomes: a missing id is what [assertOutcome] refuses *)

Inductive DisputeOutcome :=
| remedy_none
| remedy_credit_note (creditNoteId : option Uuid)
| remedy_write_off (writeOffId : option Uuid).

Definition NO_REMEDY : DisputeOutcome := remedy_none.

Definition assertOutcome (outcome : option DisputeOutcome) : result DisputeOutcome :=
  match outcome with
  | None | Some remedy_none => Ok NO_REMEDY
  | Some (remedy_credit_note None) | Some (remedy_write_off None) => Err (DomainError "DISPUTE_OUTCOME_INVALID")
  | Some o => Ok o
  end.

(** ** The aggregate *)

Record DisputeTransition := MkTransition {
  tr_from : DisputeStatus;
  tr_to : DisputeStatus;
  tr_reason : string;
  tr_actorId : string;
  tr_at : Date;
}.

Record Dispute := MkDispute {
  d_id : Uuid;
  disputeNumber : string;
  d_sequence : Z;
  d_orgId : Uuid;
  d_receivableId : Uuid;
  d_category : string;
  d_description : string;
  d_evidenceRefs : list string;
  d_assignedTo : option Uuid;
  openedAt : Date;
  openedBy : string;
  d_status : DisputeStatus;
  d_outcome : option DisputeOutcome;
  closedAt : option Date;
  closedBy : option string;
  d_history : list DisputeTransition;
}.
#[export] Instance Dispute_eta : Eta Dispute := fun d =>
  MkDispute (d_id d) (disputeNumber d) (d_sequence d) (d_orgId d) (d_receivableId d) (d_category d)
    (d_description d) (d_evidenceRefs d) (d_assignedTo d) (openedAt d) (openedBy d) (d_status d) (d_outcome d)
    (closedAt d) (closedBy d) (d_history d).

(** ** Events *)

Inductive DisputePayload :=
| DisputeOpenedPayload (disputeId : Uuid) (number : string) (orgId receivableId : Uuid) (category description : string)
    (evidenceRefs : list string) (assignedTo : option Uuid) (openedBy openedAt : string)
| DisputeStatusChangedPayload (disputeId receivableId : Uuid) (from to : DisputeStatus) (reason actorId : string)
| DisputeResolvedPayload (disputeId receivableId : Uuid) (reason actorId : string) (outcome : DisputeOutcome) (resolvedAt : string)
| DisputeRejectedPayload (disputeId receivableId : Uuid) (reason actorId : string) (rejectedAt : string)
| DisputeCancelledPayload (disputeId receivableId : Uuid) (reason actorId : string) (cancelledAt : string).
Notation DisputeEvent := (DomainEvent DisputePayload).

(** ** Opening *)

Definition assertNonBlank (raw code : string) : result string :=
  let value := trim raw in
  refuse (value = "") with code ;; Ok value.

Definition assertActor (actorId : string) : result string := assertNonBlank actorId "DISPUTE_ACTOR_REQUIRED".

Definition formatDisputeNumber (sequenceNo : Z) : string :=
  "DSP-" +:+ implode (padStart 6 "0"%char (show_base 10 sequenceNo)).

Record OpenDisputeArgs := MkOpenDispute {
  od_id : Uuid;
  od_orgId : Uuid;
  od_receivableId : Uuid;
  od_category : string;
  od_description : string;
  od_evidenceRefs : list string;
  od_assignedTo : option Uuid;
  od_openedBy : string;
  od_sequenceNo : number;
  od_formatNumber : option (Z -> string);
}.

Definition inOrg (orgId : Uuid) (ds : list Dispute) : list Dispute :=
  List.filter (fun d => bool_decide (d_orgId d = orgId)) ds.

Definition latestSequence (ds : list Dispute) : Z := foldl (fun m d => Z.max m (d_sequence d)) 0 ds.

Definition openOn (receivableId : Uuid) (d : Dispute) : bool :=
  bool_decide (d_receivableId d = receivableId) && isDisputeOpen (d_status d).

Definition openDispute (args : OpenDisputeArgs) (existing : list Dispute) (clock : Clock)
  : result (Dispute * DisputeEvent) :=
  category ← assertCategory (od_category args);
  description ← assertNonBlank (od_description args) "DISPUTE_DESCRIPTION_REQUIRED";
  by_ ← assertActor (od_openedBy args);
  let at_ := clock 0%nat in
  match safeInteger (od_sequenceNo args) with
  | None => Err (DomainError "DISPUTE_SEQUENCE_INVALID")
  | Some sequenceNo =>
      refuse (sequenceNo < 1) with "DISPUTE_SEQUENCE_INVALID" ;;
      let org := inOrg (od_orgId args) existing in
      refuse (sequenceNo <= latestSequence org) with "DISPUTE_SEQUENCE_OUT_OF_ORDER" ;;
      number ← assertNonBlank (default formatDisputeNumber (od_formatNumber args) sequenceNo) "DISPUTE_NUMBER_INVALID";
      refuse (number ∈ disputeNumber <$> org) with "DISPUTE_NUMBER_TAKEN" ;;
      refuse (od_id args ∈ d_id <$> existing) with "DISPUTE_ID_TAKEN" ;;
      refuse (existsb (openOn (od_receivableId args)) existing = true) with "DISPUTE_ALREADY_OPEN" ;;
      evidenceRefs ← traverse (fun ref => assertNonBlank ref "DISPUTE_EVIDENCE_INVALID") (od_evidenceRefs args);
      let dispute := MkDispute (od_id args) number sequenceNo (od_orgId args) (od_receivableId args) category
        description evidenceRefs (od_assignedTo args) at_ by_ opened None None None [] in
      Ok (dispute,
          domainEvent "dispute.opened" (od_id args)
            (DisputeOpenedPayload (od_id args) number (od_orgId args) (od_receivableId args) category description
               evidenceRefs (od_assignedTo args) by_ (toISOString at_))
            (clock_after 1 clock))
  end.

(** ** Transitions *)

Record TransitionDisputeArgs := MkTransitionArgs {
  ta_reason : string;
  ta_actorId : string;
  ta_outcome : option DisputeOutcome;
}.

Definition isTerminal (s : DisputeStatus) : bool := bool_decide (DISPUTE_TRANSITIONS s = []).

Definition transitionEvent (dispute : Dispute) (to : DisputeStatus) (reason actorId : string) (outcome : DisputeOutcome)
    (at_ : Date) (clock : Clock) : DisputeEvent :=
  let id := d_id dispute in
  let rid := d_receivableId dispute in
  match to with
  | resolved => domainEvent "dispute.resolved" id (DisputeResolvedPayload id rid reason actorId outcome (toISOString at_)) clock
  | rejected => domainEvent "dispute.rejected" id (DisputeRejectedPayload id rid reason actorId (toISOString at_)) clock
  | cancelled => domainEvent "dispute.cancelled" id (DisputeCancelledPayload id rid reason actorId (toISOString at_)) clock
  | _ => domainEvent "dispute.statusChanged" id
           (DisputeStatusChangedPayload id rid (d_status dispute) to reason actorId) clock
  end.

Definition transitionDispute (dispute : Dispute) (to : DisputeStatus) (args : TransitionDisputeArgs) (clock : Clock)
  : result (Dispute * DisputeEvent) :=
  let from := d_status dispute in
  refuse (to ∉ DISPUTE_TRANSITIONS from) with "DISPUTE_TRANSITION_INVALID" ;;
  reason ← assertNonBlank (ta_reason args) "DISPUTE_REASON_REQUIRED";
  actorId ← assertActor (ta_actorId args);
  let at_ := clock 0%nat in
  let terminal := isTerminal to in
  outcome ← (if decide (to = resolved) then o ← assertOutcome (ta_outcome args); Ok (Some o) else Ok None);
  let next := dispute <| d_status := to |>
    <| d_outcome := if decide (to = resolved) then outcome else d_outcome dispute |>
    <| closedAt := if terminal then Some at_ else closedAt dispute |>
    <| closedBy := if terminal then Some actorId else closedBy dispute |>
    <| d_history := d_history dispute ++ [MkTransition from to reason actorId at_] |> in
  Ok (next, transitionEvent dispute to reason actorId (default NO_REMEDY outcome) at_ (clock_after 1 clock)).

(** ** The pause policy *)

Record DisputeFacts := MkFacts { fa_disputeId : Uuid; fa_receivableId : Uuid; fa_status : DisputeStatus }.

Definition toDisputeFacts (d : Dispute) : DisputeFacts := MkFacts (d_id d) (d_receivableId d) (d_status d).

Definition collectionsHoldFor (states : list DisputeStatus) : bool := existsb isDisputeOpen states.

Definition automatedCollectionAllowed (facts : list DisputeFacts) : bool :=
  negb (existsb (fun f => isDisputeOpen (fa_status f)) facts).

(** ** What callers may do *)

Definition registry := (list Dispute * list DisputeEvent)%type.

Inductive dispute_step : registry -> registry -> Prop :=
| step_open args ds log clock d e :
    openDispute args ds clock = Ok (d, e) -> dispute_step (ds, log) (ds ++ [d], log ++ [e])
| step_transition i d to args ds log clock d' e :
    ds !! i = Some d -> transitionDispute d to args clock = Ok (d', e) ->
    dispute_step (ds, log) (<[i := d']> ds, log ++ [e]).

(** ** The machine *)

(** A history is a path of legal transitions. *)
Fixpoint path (from : DisputeStatus) (h : list DisputeTransition) (to : DisputeStatus) : Prop :=
  match h with
  | [] => from = to
  | t :: h' => tr_from t = from /\ tr_to t ∈ DISPUTE_TRANSITIONS from /\ path (tr_to t) h' to
  end.

Record dispute_wf (d : Dispute) : Prop := {
  dispute_path : path opened (d_history d) (d_status d);
  dispute_closedAt : is_Some (closedAt d) <-> isDisputeOpen (d_status d) = false;
  dispute_closedBy : is_Some (closedBy d) <-> isDisputeOpen (d_status d) = false;
  dispute_outcome : is_Some (d_outcome d) <-> d_status d = resolved;
}.

Lemma path_snoc a h b t : path a h b -> tr_from t = b -> tr_to t ∈ DISPUTE_TRANSITIONS b -> path a (h ++ [t]) (tr_to t).
Proof. revert a. induction h as [|u h IH]; intros a H Hf Ht; cbn in *; [by subst|]. naive_solver. Qed.

Lemma terminal_closed s : isTerminal s = negb (isDisputeOpen s).
Proof. by destruct s. Qed.

Lemma open_source from to : to ∈ DISPUTE_TRANSITIONS from -> isDisputeOpen from = true.
Proof. destruct from; cbn; try done; intros H; by apply not_elem_of_nil in H. Qed.

Lemma dispute_nonBlank_Ok raw code v : assertNonBlank raw code = Ok v <-> v = trim raw /\ trim raw <> "".
Proof. unfold assertNonBlank. case_decide; naive_solver. Qed.

Definition outcome_ok (to : DisputeStatus) (o : option DisputeOutcome) : bool :=
  match to with resolved => is_ok (assertOutcome o) | _ => true end.

Lemma transition_Ok d to args clock d' e : transitionDispute d to args clock = Ok (d', e) ->
  to ∈ DISPUTE_TRANSITIONS (d_status d) /\ trim (ta_reason args) <> "" /\ trim (ta_actorId args) <> "" /\
  outcome_ok to (ta_outcome args) = true /\
  d_id d' = d_id d /\ disputeNumber d' = disputeNumber d /\ d_sequence d' = d_sequence d /\ d_orgId d' = d_orgId d /\
  d_receivableId d' = d_receivableId d /\ d_status d' = to /\
  d_history d' = d_history d ++ [MkTransition (d_status d) to (trim (ta_reason args)) (trim (ta_actorId args)) (clock 0%nat)] /\
  closedAt d' = (if isTerminal to then Some (clock 0%nat) else closedAt d) /\
  closedBy d' = (if isTerminal to then Some (trim (ta_actorId args)) else closedBy d) /\
  (if decide (to = resolved) then is_Some (d_outcome d') else d_outcome d' = d_outcome d) /\
  exists o at_ c, e = transitionEvent d to (trim (ta_reason args)) (trim (ta_actorId args)) o at_ c.
Proof.
  unfold transitionDispute, assertActor. intros H. case_decide as Ht; [done|].
  apply bind_Ok in H as (reason & [-> Hr]%dispute_nonBlank_Ok & H).
  apply bind_Ok in H as (actor & [-> Ha]%dispute_nonBlank_Ok & H).
  apply bind_Ok in H as (o & Ho & H). injection H as <- <-. cbn.
  repeat split; try done; [| |by eauto].
  - destruct to; try done. cbn in Ho. apply bind_Ok in Ho as (x & Hx & _). cbn. by rewrite Hx.
  - case_decide; [|done]. apply bind_Ok in Ho as (x & _ & [= <-]). by eexists.
Qed.

Lemma transition_wf d to args clock d' e : dispute_wf d -> transitionDispute d to args clock = Ok (d', e) -> dispute_wf d'.
Proof.
  intros [Hp Ha Hb Ho] (Ht & _ & _ & _ & _ & _ & _ & _ & _ & Es & Eh & Ea & Eb & Eo & _)%transition_Ok.
  pose proof (open_source _ _ Ht) as Hopen.
  split; rewrite ?Es, ?Eh, ?Ea, ?Eb, ?terminal_closed.
  - by apply (path_snoc _ _ _ (MkTransition _ _ _ _ _) Hp).
  - destruct (isDisputeOpen to); cbn; [rewrite Ha, Hopen; done|]. split; [done|by eexists].
  - destruct (isDisputeOpen to); cbn; [rewrite Hb, Hopen; done|]. split; [done|by eexists].
  - case_decide; [done|]. rewrite Eo, Ho. split; [|done]. intros E. rewrite E in Hopen. done.
Qed.

(** ** The registry *)

(** A consumer that only sees the event log: the pause fact holds collections on
    the receivable, the resume facts lift the hold. *)
Definition hold_event (rid : Uuid) (h : bool) (e : DisputeEvent) : bool :=
  match payload e with
  | DisputeOpenedPayload _ _ _ r _ _ _ _ _ _ => bool_decide (r = rid) || h
  | DisputeResolvedPayload _ r _ _ _ _ | DisputeRejectedPayload _ r _ _ _ | DisputeCancelledPayload _ r _ _ _ =>
      negb (bool_decide (r = rid)) && h
  | DisputeStatusChangedPayload _ _ _ _ _ _ => h
  end.
Definition held_by_log (rid : Uuid) (log : list DisputeEvent) : bool := foldl (hold_event rid) false log.

Lemma held_snoc rid log e : held_by_log rid (log ++ [e]) = hold_event rid (held_by_log rid log) e.
Proof. unfold held_by_log. by rewrite foldl_app. Qed.

Record registry_wf (s : registry) : Prop := {
  reg_disputes : Forall dispute_wf s.1;
  reg_ids : NoDup (d_id <$> s.1);
  reg_one_open : forall i j d d', s.1 !! i = Some d -> s.1 !! j = Some d' ->
    isDisputeOpen (d_status d) = true -> isDisputeOpen (d_status d') = true ->
    d_receivableId d = d_receivableId d' -> i = j;
  reg_sequence : forall i j d d', (i < j)%nat -> s.1 !! i = Some d -> s.1 !! j = Some d' -> d_orgId d = d_orgId d' ->
    d_sequence d < d_sequence d' /\ disputeNumber d <> disputeNumber d';
  reg_hold : forall rid, held_by_log rid s.2 = existsb (openOn rid) s.1;
}.

Lemma latest_bound ds d : d ∈ ds -> d_sequence d <= latestSequence ds.
Proof.
  unfold latestSequence.
  assert (forall m, m <= foldl (fun m d => Z.max m (d_sequence d)) m ds /\
    (d ∈ ds -> d_sequence d <= foldl (fun m d => Z.max m (d_sequence d)) m ds)) as H; [|apply H].
  induction ds as [|x ds IH]; intros m; cbn; [split; [done|by intros ?%not_elem_of_nil]|].
  destruct (IH (Z.max m (d_sequence x))) as [H1 H2]. split; [lia|].
  intros [->|Hin]%elem_of_cons; [lia|auto].
Qed.

Lemma elem_inOrg org ds d : d ∈ inOrg org ds <-> d ∈ ds /\ d_orgId d = org.
Proof. unfold inOrg. by rewrite list_elem_of_In, filter_In, <- list_elem_of_In, bool_decide_eq_true. Qed.

Lemma openDispute_Ok args ds clock d e : openDispute args ds clock = Ok (d, e) ->
  (forall d', d' ∈ ds -> d_orgId d' = d_orgId d -> d_sequence d' < d_sequence d /\ disputeNumber d' <> disputeNumber d) /\
  d_id d ∉ d_id <$> ds /\ existsb (openOn (d_receivableId d)) ds = false /\
  d_status d = opened /\ dispute_wf d /\
  exists id num org cat desc refs who by_ at_, payload e = DisputeOpenedPayload id num org (d_receivableId d) cat desc refs who by_ at_.
Proof.
  unfold openDispute. intros H. apply bind_Ok in H as (cat & _ & H). apply bind_Ok in H as (desc & _ & H).
  apply bind_Ok in H as (by_ & _ & H). destruct (safeInteger _) as [n|]; [|done].
  case_decide; [done|]. case_decide as Hseq; [done|]. apply bind_Ok in H as (num & _ & H).
  case_decide as Hnum; [done|]. case_decide as Hid; [done|]. case_decide as Hopen; [done|].
  apply bind_Ok in H as (refs & _ & H). injection H as <- <-. cbn.
  split; [|split; [done|split; [by apply not_true_is_false|split; [done|split; [|by repeat eexists]]]]].
  - intros d' Hd' Horg. assert (d' ∈ inOrg (od_orgId args) ds) as Hin by (by apply elem_inOrg).
    split; [pose proof (latest_bound _ _ Hin); lia|]. intros E. apply Hnum. rewrite <- E. by apply list_elem_of_fmap_2.
  - split; cbn; try done; (split; [by intros []|done]).
Qed.

Lemma openOn_true rid d : openOn rid d = true <-> d_receivableId d = rid /\ isDisputeOpen (d_status d) = true.
Proof. unfold openOn. by rewrite andb_true_iff, bool_decide_eq_true. Qed.

Lemma existsb_open rid ds : existsb (openOn rid) ds = true <-> exists i d, ds !! i = Some d /\ openOn rid d = true.
Proof.
  rewrite existsb_exists. split.
  - intros (d & Hd%list_elem_of_In & H). apply list_elem_of_lookup in Hd as [i Hi]. eauto.
  - intros (i & d & Hi & H). exists d. split; [|done]. by eapply list_elem_of_In, list_elem_of_lookup_2.
Qed.

Lemma open_step_wf args ds log clock d e : registry_wf (ds, log) -> openDispute args ds clock = Ok (d, e) ->
  registry_wf (ds ++ [d], log ++ [e]).
Proof.
  intros [Hd Hi Ho Hs Hh] H. apply openDispute_Ok in H as (Hseq & Hid & Hopen & Hst & Hwf & Hev). cbn [fst snd] in *.
  assert (forall i d', ds !! i = Some d' -> isDisputeOpen (d_status d') = true -> d_receivableId d' <> d_receivableId d) as Hnone.
  { intros i d' E1 E2 E3. apply not_true_iff_false in Hopen. apply Hopen, existsb_open. exists i, d'.
    split; [done|]. by apply openOn_true. }
  split; cbn [fst snd].
  - apply Forall_app. split; [done|by apply Forall_singleton].
  - rewrite fmap_app. apply NoDup_app. split; [done|]. split; [|by apply NoDup_singleton].
    intros x Hx ->%list_elem_of_singleton. done.
  - intros i j a b [Ha|[Hia Ha]]%lookup_app_Some [Hb|[Hjb Hb]]%lookup_app_Some Oa Ob Hr.
    + by apply (Ho i j a b).
    + apply list_lookup_singleton_Some in Hb as [_ <-]. exfalso. by eapply Hnone.
    + apply list_lookup_singleton_Some in Ha as [_ <-]. exfalso. by eapply Hnone.
    + apply list_lookup_singleton_Some in Ha as [Ha _], Hb as [Hb _]. lia.
  - intros i j a b Hij [Ha|[Hia Ha]]%lookup_app_Some [Hb|[Hjb Hb]]%lookup_app_Some Horg.
    + by apply (Hs i j).
    + apply list_lookup_singleton_Some in Hb as [_ <-]. apply Hseq; [by eapply list_elem_of_lookup_2|done].
    + apply lookup_lt_Some in Hb. lia.
    + apply list_lookup_singleton_Some in Ha as [Ha _], Hb as [Hb _]. lia.
  - intros rid. rewrite held_snoc, Hh, existsb_app. cbn [existsb].
    unfold hold_event. destruct Hev as (? & ? & ? & ? & ? & ? & ? & ? & ? & ->).
    change (openOn rid d) with (bool_decide (d_receivableId d = rid) && isDisputeOpen (d_status d)).
    rewrite Hst. change (isDisputeOpen opened) with true. rewrite andb_true_r, orb_false_r. apply orb_comm.
Qed.

Lemma transition_hold rid d to reason actor o at_ c h : to ∈ DISPUTE_TRANSITIONS (d_status d) ->
  hold_event rid h (transitionEvent d to reason actor o at_ c) =
  if isDisputeOpen to then h else negb (bool_decide (d_receivableId d = rid)) && h.
Proof. intros _. by destruct to. Qed.

(** Replacing the only open dispute of a receivable. *)
Lemma existsb_insert rid i ds d d' : ds !! i = Some d -> d_receivableId d' = d_receivableId d ->
  isDisputeOpen (d_status d) = true ->
  (forall j b, ds !! j = Some b -> isDisputeOpen (d_status b) = true -> d_receivableId b = d_receivableId d -> j = i) ->
  existsb (openOn rid) (<[i := d']> ds) =
  if isDisputeOpen (d_status d') then existsb (openOn rid) ds
  else negb (bool_decide (d_receivableId d = rid)) && existsb (openOn rid) ds.
Proof.
  intros Hi Hr Ho Hone. apply eq_true_iff_eq. pose proof (lookup_lt_Some _ _ _ Hi) as Hlt.
  assert (openOn rid d = bool_decide (d_receivableId d = rid)) as Hd by (unfold openOn; by rewrite Ho, andb_true_r).
  destruct (isDisputeOpen (d_status d')) eqn:Ho'; [|rewrite andb_true_iff, negb_true_iff, bool_decide_eq_false];
    rewrite !existsb_open.
  - split; intros (j & b & Hj & Hb); destruct (decide (j = i)) as [->|].
    + rewrite list_lookup_insert_eq in Hj by done. injection Hj as <-. exists i, d. split; [done|].
      apply openOn_true in Hb. apply openOn_true. naive_solver congruence.
    + rewrite list_lookup_insert_ne in Hj by done. eauto.
    + exists i, d'. rewrite list_lookup_insert_eq by done. split; [done|].
      simplify_eq. apply openOn_true in Hb. apply openOn_true. naive_solver congruence.
    + exists j, b. by rewrite list_lookup_insert_ne by done.
  - split.
    + intros (j & b & Hj & Hb). destruct (decide (j = i)) as [->|].
      * rewrite list_lookup_insert_eq in Hj by done. injection Hj as <-. apply openOn_true in Hb as [_ Hb]. congruence.
      * rewrite list_lookup_insert_ne in Hj by done. apply openOn_true in Hb as Hb'. destruct Hb' as [Hb1 Hb2].
        split; [|by eauto]. intros E. apply n. eapply Hone; [done|done|congruence].
    + intros [Hne (j & b & Hj & Hb)]. destruct (decide (j = i)) as [->|].
      * simplify_eq. apply openOn_true in Hb. naive_solver.
      * exists j, b. by rewrite list_lookup_insert_ne by done.
Qed.

Lemma lookup_insert_cases {A} (l : list A) i j x y : <[i := x]> l !! j = Some y -> (j = i /\ y = x) \/ (j <> i /\ l !! j = Some y).
Proof.
  destruct (decide (j = i)) as [->|]; [|rewrite list_lookup_insert_ne by done; tauto].
  intros H. left. split; [done|].
  destruct (decide (i < length l)%nat); [|by rewrite list_insert_ge, lookup_ge_None_2 in H by lia].
  rewrite list_lookup_insert_eq in H by done. congruence.
Qed.

Lemma transition_step_wf i d to args ds log clock d' e : registry_wf (ds, log) -> ds !! i = Some d ->
  transitionDispute d to args clock = Ok (d', e) -> registry_wf (<[i := d']> ds, log ++ [e]).
Proof.
  intros [Hd Hi Ho Hs Hh] Hat H. cbn [fst snd] in *.
  assert (dispute_wf d') as Hwf by (eapply transition_wf; [|exact H]; by eapply (Forall_lookup_1 _ _ _ _ Hd)).
  apply transition_Ok in H as (Ht & _ & _ & _ & Eid & Enum & Eseq & Eorg & Er & Es & _ & _ & _ & _ & o & at_ & c & ->).
  pose proof (open_source _ _ Ht) as Hopen. split; cbn [fst snd].
  - by apply Forall_insert.
  - rewrite list_fmap_insert, Eid. replace (<[i:=d_id d]> (d_id <$> ds)) with (d_id <$> ds); [done|].
    symmetry. apply list_insert_id. by rewrite list_lookup_fmap, Hat.
  - intros j k a b [[-> ->]|[Nj Ha]]%lookup_insert_cases [[-> ->]|[Nk Hb]]%lookup_insert_cases Oa Ob Hr; [done| | |].
    + rewrite Er in Hr. by apply (Ho i k d b).
    + rewrite Er in Hr. by apply (Ho j i a d).
    + by apply (Ho j k a b).
  - intros j k a b Hjk [[-> ->]|[Nj Ha]]%lookup_insert_cases [[-> ->]|[Nk Hb]]%lookup_insert_cases Horg; [lia| | |];
      rewrite ?Eseq, ?Enum, ?Eorg in *; by eapply Hs.
  - intros rid. rewrite held_snoc, transition_hold by done. rewrite Hh.
    rewrite (existsb_insert rid i ds d d' Hat Er Hopen), Es; [done|].
    intros j b Hb Ob Hr. by apply (Ho j i b d).
Qed.

Lemma registry_reachable_wf s : rtc dispute_step ([], []) s -> registry_wf s.
Proof.
  assert (registry_wf ([], [])) as H0 by (split; cbn; try constructor; naive_solver).
  intros H. revert H0. induction H as [|? ? ? Hs _ IH]; [done|]. intros Hwf. apply IH.
  destruct Hs; [by eapply open_step_wf|by eapply transition_step_wf].
Qed.

(** C39: Over any openings and transitions the registry keeps its exclusivity rules:
    distinct ids, at most one open dispute per receivable, and per organisation
    strictly increasing sequence positions with distinct numbers; every dispute's
    history is a path of legal transitions to its status, it is closed exactly in a
    terminal state and carries an outcome exactly when resolved. *)
Theorem dispute_registry_sound ds log : rtc dispute_step ([], []) (ds, log) ->
  NoDup (d_id <$> ds) /\ Forall dispute_wf ds /\
  (forall i j d d', ds !! i = Some d -> ds !! j = Some d' -> isDisputeOpen (d_status d) = true ->
     isDisputeOpen (d_status d') = true -> d_receivableId d = d_receivableId d' -> i = j) /\
  (forall i j d d', (i < j)%nat -> ds !! i = Some d -> ds !! j = Some d' -> d_orgId d = d_orgId d' ->
     d_sequence d < d_sequence d' /\ disputeNumber d <> disputeNumber d').
Proof. intros [Hd Hi Ho Hs _]%registry_reachable_wf. done. Qed.

(** The pause policy is what the events say: at every moment the gate
    collections must pass is closed for a receivable exactly when the log's last
    pause or resume fact about it is a pause. *)
Theorem pause_follows_the_events ds log rid : rtc dispute_step ([], []) (ds, log) ->
  let facts := toDisputeFacts <$> List.filter (fun d => bool_decide (d_receivableId d = rid)) ds in
  automatedCollectionAllowed facts = negb (held_by_log rid log) /\
  collectionsHoldFor (fa_status <$> facts) = held_by_log rid log.
Proof.
  intros [_ _ _ _ Hh]%registry_reachable_wf. cbn [fst snd] in Hh. cbn zeta.
  assert (existsb (fun f => isDisputeOpen (fa_status f))
            (toDisputeFacts <$> List.filter (fun d => bool_decide (d_receivableId d = rid)) ds) =
          existsb (openOn rid) ds) as E.
  { clear Hh. induction ds as [|d ds IH]; [done|]. cbn [List.filter existsb].
    unfold openOn at 1. destruct (bool_decide _); cbn; by rewrite IH. }
  split; [unfold automatedCollectionAllowed; by rewrite E, Hh|].
  rewrite Hh, <- E. unfold collectionsHoldFor. generalize (toDisputeFacts <$> List.filter (fun d => bool_decide (d_receivableId d = rid)) ds).
  intros l. induction l as [|f l IH]; cbn; [done|]. by rewrite IH.
Qed.

(** ** Every open dispute can be closed *)

Definition sample_decision (o : option DisputeOutcome) : TransitionDisputeArgs := MkTransitionArgs "reviewed" "agent-1" o.

Lemma transition_succeeds d to args clock : to ∈ DISPUTE_TRANSITIONS (d_status d) ->
  trim (ta_reason args) <> "" -> trim (ta_actorId args) <> "" -> outcome_ok to (ta_outcome args) = true ->
  exists d' e, transitionDispute d to args clock = Ok (d', e) /\ d_status d' = to.
Proof.
  intros Ht Hr Ha Ho. unfold transitionDispute, assertActor, assertNonBlank. rewrite decide_False by (intros N; by apply N).
  rewrite (decide_False (P := trim (ta_reason args) = "")) by done. cbn [mbind result_bind].
  rewrite (decide_False (P := trim (ta_actorId args) = "")) by done. cbn [mbind result_bind].
  destruct (decide (to = resolved)) as [->|Hne]; cbn [mbind result_bind]; [|by do 2 eexists].
  cbn in Ho. destruct (assertOutcome (ta_outcome args)); [|done]. by do 2 eexists.
Qed.

(** No open state is a dead end: from any open dispute, any of the three
    outcomes is reached in at most two transitions, given a reason, an actor and a
    valid outcome. *)
Theorem open_dispute_can_close d target args clock : isDisputeOpen (d_status d) = true ->
  isDisputeOpen target = false -> trim (ta_reason args) <> "" -> trim (ta_actorId args) <> "" ->
  outcome_ok target (ta_outcome args) = true ->
  exists d' e, d_status d' = target /\
    (transitionDispute d target args clock = Ok (d', e) \/
     exists d1 e1, transitionDispute d investigating args clock = Ok (d1, e1) /\
                   transitionDispute d1 target args clock = Ok (d', e)).
Proof.
  intros Ho Ht Hr Ha Hout. destruct (decide (target ∈ DISPUTE_TRANSITIONS (d_status d))) as [Hin|Hin].
  - destruct (transition_succeeds d target args clock) as (d' & e & H & Hs); eauto.
  - assert (d_status d = opened) as Eo.
    { destruct (d_status d), target; try done; exfalso; apply Hin; set_solver. }
    destruct (transition_succeeds d investigating args clock) as (d1 & e1 & H1 & Hs1); [rewrite Eo; set_solver|done..|].
    destruct (transition_succeeds d1 target args clock) as (d' & e & H & Hs);
      [rewrite Hs1; destruct target; set_solver|done..|]. eauto 10.
Qed.

(** ** A concrete registry *)

Definition sample_dispute_args : OpenDisputeArgs :=
  MkOpenDispute "d-1" "org-1" "r-1" "pricing" "wrong unit price" ["photo-1"] None "user-1" (num 1) None.

Definition sample_dispute : Dispute :=
  MkDispute "d-1" "DSP-000001" 1 "org-1" "r-1" "pricing" "wrong unit price" ["photo-1"] None 0 "user-1" opened None None None [].

Lemma sample_dispute_opens : exists e, openDispute sample_dispute_args [] (fixed_clock 0) = Ok (sample_dispute, e).
Proof. vm_compute. eexists. reflexivity. Qed.

Lemma dispute_registry_sound_witness :
  exists log, rtc dispute_step ([], []) ([sample_dispute], log) /\ Forall dispute_wf [sample_dispute].
Proof.
  destruct sample_dispute_opens as [e E]. exists [e].
  assert (rtc dispute_step ([], []) ([sample_dispute], [e])) as H.
  { apply rtc_once. exact (step_open _ _ [] _ _ _ E). }
  split; [exact H|]. exact (proj1 (proj2 (dispute_registry_sound _ _ H))).
Defined.

Lemma pause_follows_the_events_witness :
  exists log, rtc dispute_step ([], []) ([sample_dispute], log) /\ held_by_log "r-1" log = true /\
    automatedCollectionAllowed [toDisputeFacts sample_dispute] = false.
Proof.
  destruct sample_dispute_opens as [e E]. exists [e].
  assert (rtc dispute_step ([], []) ([sample_dispute], [e])) as H.
  { apply rtc_once. exact (step_open _ _ [] _ _ _ E). }
  split; [exact H|].
  destruct (pause_follows_the_events _ _ "r-1" H) as [Ha Hc]. split; [symmetry; exact Hc|].
  etrans; [exact Ha|]. rewrite <- Hc. reflexivity.
Defined.

Lemma open_dispute_can_close_witness :
  exists d' e, d_status d' = resolved /\
    (transitionDispute sample_dispute resolved (sample_decision None) (fixed_clock 1) = Ok (d', e) \/
     exists d1 e1, transitionDispute sample_dispute investigating (sample_decision None) (fixed_clock 1) = Ok (d1, e1) /\
                   transitionDispute d1 resolved (sample_decision None) (fixed_clock 1) = Ok (d', e)).
Proof.
  apply (open_dispute_can_close sample_dispute resolved (sample_decision None) (fixed_clock 1));
    vm_compute; congruence.
Defined.
