(* ===== verification/Promise.v ===== *)
(** * Promises to pay

    src/domain/promises/promise.ts: a customer's commitment to settle by a date.
    Amounts are doubles that were checked to be safe positive integers and are kept
    as [Z]: the sum of two of them is exact when it is a safe integer and compares
    greater than every safe integer otherwise, so the over-settlement guard means
    the same in both.  Likewise the expiry horizon: a whole number of days in
    milliseconds is a multiple of 2^10 * 84375, exact far beyond the range of
    dates. *)

From stdpp Require Import prelude strings list.
From Stdlib Require Import ZArith Lia.
From S2P Require Import Prelude JsNumber JsString JsDate Money Events.
Local Open Scope string_scope.
Local Open Scope list_scope.
Local Open Scope Z_scope.
Local Open Scope js_scope.

Definition PROMISE_SOURCES : list string := ["whatsapp"; "sms"; "call"; "portal"].

Definition assertPromiseSource (source : string) : result string :=
  refuse (source ∉ PROMISE_SOURCES) with "PROMISE_SOURCE_INVALID" ;; Ok source.

(** ** Lifecycle *)

Inductive PromiseStatus := created | pending | partially_fulfilled | fulfilled | broken | cancelled | expired.
#[export] Instance PromiseStatus_eq_dec : EqDecision PromiseStatus.
Proof. solve_decision. Defined.

Definition PROMISE_TRANSITIONS (from : PromiseStatus) : list PromiseStatus :=
  match from with
  | created => [pending; cancelled; expired]
  | pending => [partially_fulfilled; fulfilled; broken; cancelled; expired]
  | partially_fulfilled => [fulfilled; broken; cancelled]
  | fulfilled | broken | cancelled | expired => []
  end.

Definition MANUAL_TARGETS : list PromiseStatus := [pending; cancelled].

Definition PROMISE_EXPIRY_GRACE_DAYS : Z := 7.

Record PromiseToPay := MkPromise {
  promiseId : Uuid;
  p_orgId : Uuid;
  p_customerId : Uuid;
  p_receivableIds : list Uuid;
  p_amountMinor : Z;
  p_currency : Currency;
  promisedDate : Date;
  p_source : string;
  p_consentRef : option string;
  p_status : PromiseStatus;
  settledMinor : Z;
  p_createdAt : Date;
  pendingAt : option Date;
  fulfilledAt : option Date;
  brokenAt : option Date;
  brokenReason : option string;
  cancelledAt : option Date;
  expiredAt : option Date;
}.
#[export] Instance PromiseToPay_eta : Eta PromiseToPay := fun p =>
  MkPromise (promiseId p) (p_orgId p) (p_customerId p) (p_receivableIds p) (p_amountMinor p) (p_currency p)
    (promisedDate p) (p_source p) (p_consentRef p) (p_status p) (settledMinor p) (p_createdAt p) (pendingAt p)
    (fulfilledAt p) (brokenAt p) (brokenReason p) (cancelledAt p) (expiredAt p).

(** ** Events *)

Inductive PromisePayload :=
| PromiseCreatedPayload (id orgId customerId : Uuid) (receivableIds : list Uuid) (amountMinor : Z) (currency : Currency)
    (promisedDate source : string) (consentRef : option string) (createdAt : string)
| PromiseActivatedPayload (id orgId customerId : Uuid) (activatedAt : string)
| PromisePartiallyFulfilledPayload (id customerId : Uuid) (settledMinor totalSettledMinor remainingMinor : Z) (settledAt : string)
| PromiseFulfilledPayload (id customerId : Uuid) (receivableIds : list Uuid) (amountMinor totalSettledMinor : Z) (fulfilledAt : string)
| PromiseBrokenPayload (id customerId : Uuid) (receivableIds : list Uuid) (reason expectedAt : string) (settledMinor : Z) (brokenAt : string)
| PromiseCancelledPayload (id customerId : Uuid) (reason actorId cancelledAt : string)
| PromiseExpiredPayload (id customerId : Uuid) (expectedAt : string) (graceDays : Z) (expiredAt : string)
| CollectionsPromiseBrokenPayload (id : Uuid) (caseId : option Uuid) (expectedAt : string) (customerId : Uuid) (settledMinor : Z) (brokenAt : string).
Notation PromiseEvent := (DomainEvent PromisePayload).

(** [minorToNumber] of this lane: the identity on safe integers. *)
Definition minorToNumber (m : Z) : result Z :=
  refuse (MAX_SAFE_INTEGER < Z.abs m) with "EVENT_AMOUNT_NOT_SAFE_INTEGER" ;; Ok m.

(** ** Creation *)

Definition assertNonBlank (raw code : string) : result string :=
  let value := trim raw in
  refuse (value = "") with code ;; Ok value.

Definition assertAmountMinor (amountMinor : number) (code : string) : result Z :=
  match safeInteger amountMinor with
  | Some a => refuse (a <= 0) with code ;; Ok a
  | None => Err (DomainError code)
  end.

Record CreatePromiseArgs := MkCreatePromise {
  cp_promiseId : Uuid;
  cp_orgId : Uuid;
  cp_customerId : Uuid;
  cp_receivableIds : list Uuid;
  cp_amountMinor : number;
  cp_currency : Currency;
  cp_promisedDate : Date;
  cp_source : string;
  cp_consentRef : option string;
}.

Definition createPromise (args : CreatePromiseArgs) (clock : Clock) : result (PromiseToPay * PromiseEvent) :=
  amount ← assertAmountMinor (cp_amountMinor args) "PROMISE_AMOUNT_INVALID";
  source ← assertPromiseSource (cp_source args);
  refuse (cp_receivableIds args = []) with "PROMISE_RECEIVABLES_REQUIRED" ;;
  refuse (¬ NoDup (cp_receivableIds args)) with "PROMISE_RECEIVABLE_DUPLICATE" ;;
  consent ← match cp_consentRef args with
    | None => Ok None
    | Some raw => v ← assertNonBlank raw "PROMISE_CONSENT_REF_INVALID"; Ok (Some v)
    end;
  let at_ := clock 0%nat in
  let p := MkPromise (cp_promiseId args) (cp_orgId args) (cp_customerId args) (cp_receivableIds args) amount
    (cp_currency args) (cp_promisedDate args) source consent created 0 at_ None None None None None None in
  minor ← minorToNumber amount;
  Ok (p, domainEvent "promise.created" (promiseId p)
        (PromiseCreatedPayload (promiseId p) (p_orgId p) (p_customerId p) (p_receivableIds p) minor (p_currency p)
           (toISOString (promisedDate p)) source consent (toISOString at_))
        (clock_after 1 clock)).

(** ** Decision-driven transitions *)

Definition transitionPromise (p : PromiseToPay) (to : PromiseStatus) (reason_ actorId_ : string) (clock : Clock)
  : result (PromiseToPay * PromiseEvent) :=
  refuse (to ∉ PROMISE_TRANSITIONS (p_status p)) with "PROMISE_TRANSITION_INVALID" ;;
  refuse (to ∉ MANUAL_TARGETS) with "PROMISE_TRANSITION_NOT_AUTOMATIC" ;;
  reason ← assertNonBlank reason_ "PROMISE_REASON_REQUIRED";
  actorId ← assertNonBlank actorId_ "PROMISE_ACTOR_REQUIRED";
  let at_ := clock 0%nat in
  if decide (to = pending) then
    Ok (p <| p_status := pending |> <| pendingAt := Some at_ |>,
        domainEvent "promise.activated" (promiseId p)
          (PromiseActivatedPayload (promiseId p) (p_orgId p) (p_customerId p) (toISOString at_)) (clock_after 1 clock))
  else
    Ok (p <| p_status := cancelled |> <| cancelledAt := Some at_ |>,
        domainEvent "promise.cancelled" (promiseId p)
          (PromiseCancelledPayload (promiseId p) (p_customerId p) reason actorId (toISOString at_)) (clock_after 1 clock)).

(** ** Settlements *)

Definition remainingMinor (p : PromiseToPay) : Z := Z.max 0 (p_amountMinor p - settledMinor p).

Definition notActiveCode (s : PromiseStatus) : string :=
  if decide (s = created) then "PROMISE_NOT_ACTIVE" else "PROMISE_TRANSITION_INVALID".

Definition applySettlement (p : PromiseToPay) (settled : number) (clock : Clock) : result (PromiseToPay * PromiseEvent) :=
  refuse (p_status p <> pending /\ p_status p <> partially_fulfilled) with (notActiveCode (p_status p)) ;;
  amount ← assertAmountMinor settled "PROMISE_SETTLEMENT_INVALID";
  let totalSettled := settledMinor p + amount in
  refuse (totalSettled > p_amountMinor p) with "PROMISE_SETTLEMENT_EXCEEDS_PROMISED" ;;
  let at_ := clock 0%nat in
  if decide (totalSettled = p_amountMinor p) then
    total ← minorToNumber totalSettled;
    Ok (p <| p_status := fulfilled |> <| settledMinor := totalSettled |> <| fulfilledAt := Some at_ |>,
        domainEvent "promise.fulfilled" (promiseId p)
          (PromiseFulfilledPayload (promiseId p) (p_customerId p) (p_receivableIds p) (p_amountMinor p) total (toISOString at_))
          (clock_after 1 clock))
  else
    let next := p <| p_status := partially_fulfilled |> <| settledMinor := totalSettled |> in
    a ← minorToNumber amount;
    total ← minorToNumber totalSettled;
    rest ← minorToNumber (remainingMinor next);
    Ok (next,
        domainEvent "promise.partiallyFulfilled" (promiseId p)
          (PromisePartiallyFulfilledPayload (promiseId p) (p_customerId p) a total rest (toISOString at_))
          (clock_after 1 clock)).

(** ** Time-driven transitions *)

Definition markPromiseBroken (p : PromiseToPay) (reason_ : string) (caseId : option Uuid) (clock : Clock)
  : result (PromiseToPay * list PromiseEvent) :=
  refuse (p_status p <> pending /\ p_status p <> partially_fulfilled) with (notActiveCode (p_status p)) ;;
  reason ← assertNonBlank reason_ "PROMISE_REASON_REQUIRED";
  let now := clock 0%nat in
  refuse (now <= promisedDate p) with "PROMISE_NOT_DUE" ;;
  refuse (settledMinor p >= p_amountMinor p) with "PROMISE_ALREADY_FULFILLED" ;;
  settled ← minorToNumber (settledMinor p);
  Ok (p <| p_status := broken |> <| brokenAt := Some now |> <| brokenReason := Some reason |>,
      [domainEvent "promise.broken" (promiseId p)
         (PromiseBrokenPayload (promiseId p) (p_customerId p) (p_receivableIds p) reason (toISOString (promisedDate p))
            settled (toISOString now)) (clock_after 1 clock);
       domainEvent "collections.promiseBroken" (promiseId p)
         (CollectionsPromiseBrokenPayload (promiseId p) caseId (toISOString (promisedDate p)) (p_customerId p) settled
            (toISOString now)) (clock_after 2 clock)]).

Definition expirePromise (p : PromiseToPay) (clock : Clock) (graceDays : number) : result (PromiseToPay * PromiseEvent) :=
  refuse (p_status p <> created /\ p_status p <> pending) with "PROMISE_TRANSITION_INVALID" ;;
  match safeInteger graceDays with
  | None => Err (DomainError "PROMISE_GRACE_INVALID")
  | Some grace =>
      refuse (grace < 0) with "PROMISE_GRACE_INVALID" ;;
      let now := clock 0%nat in
      let horizon := promisedDate p + grace * DAY_MS in
      refuse (now < horizon) with "PROMISE_NOT_DUE" ;;
      refuse (settledMinor p > 0) with "PROMISE_ALREADY_FULFILLED" ;;
      Ok (p <| p_status := expired |> <| expiredAt := Some now |>,
          domainEvent "promise.expired" (promiseId p)
            (PromiseExpiredPayload (promiseId p) (p_customerId p) (toISOString (promisedDate p)) grace (toISOString now))
            (clock_after 1 clock))
  end.

(** ** Operations and reachability *)

Inductive promise_op :=
| op_transition (to : PromiseStatus) (reason actorId : string)
| op_settle (settled : number)
| op_break (reason : string) (caseId : option Uuid)
| op_expire (graceDays : number).

Definition run_promise_op (op : promise_op) (clock : Clock) (p : PromiseToPay) : result PromiseToPay :=
  match op with
  | op_transition to reason actorId => r ← transitionPromise p to reason actorId clock; Ok r.1
  | op_settle settled => r ← applySettlement p settled clock; Ok r.1
  | op_break reason caseId => r ← markPromiseBroken p reason caseId clock; Ok r.1
  | op_expire graceDays => r ← expirePromise p clock graceDays; Ok r.1
  end.

Inductive promise_reachable : PromiseToPay -> Prop :=
| reach_created args clock p e : createPromise args clock = Ok (p, e) -> promise_reachable p
| reach_op op clock p p' : promise_reachable p -> run_promise_op op clock p = Ok p' -> promise_reachable p'.

(** ** The invariant *)

Definition coverage_ok (p : PromiseToPay) : Prop :=
  match p_status p with
  | created | pending | expired => settledMinor p = 0
  | partially_fulfilled => 0 < settledMinor p < p_amountMinor p
  | fulfilled => settledMinor p = p_amountMinor p
  | broken | cancelled => 0 <= settledMinor p < p_amountMinor p
  end.

Definition has {A} (o : option A) : bool := match o with Some _ => true | None => false end.
Definition at_status (p : PromiseToPay) (s : PromiseStatus) : bool := bool_decide (p_status p = s).

Record promise_wf (p : PromiseToPay) : Prop := {
  pw_amount : 0 < p_amountMinor p <= MAX_SAFE_INTEGER;
  pw_receivables : p_receivableIds p <> [] /\ NoDup (p_receivableIds p);
  pw_coverage : coverage_ok p;
  pw_fulfilled : has (fulfilledAt p) = at_status p fulfilled;
  pw_broken : has (brokenAt p) = at_status p broken;
  pw_reason : has (brokenReason p) = at_status p broken;
  pw_cancelled : has (cancelledAt p) = at_status p cancelled;
  pw_expired : has (expiredAt p) = at_status p expired;
  pw_late : forall t, brokenAt p = Some t \/ expiredAt p = Some t -> promisedDate p <= t;
}.

Lemma assertAmountMinor_Ok n code a : assertAmountMinor n code = Ok a -> 0 < a <= MAX_SAFE_INTEGER.
Proof.
  unfold assertAmountMinor. destruct (safeInteger n) as [z|] eqn:E; [|done]. case_decide; [done|]. intros [= <-].
  apply safeInteger_bound in E. lia.
Qed.

Lemma minorToNumber_safe m : 0 <= m <= MAX_SAFE_INTEGER -> minorToNumber m = Ok m.
Proof. intros H. unfold minorToNumber. rewrite decide_False by lia. done. Qed.

Lemma createPromise_wf args clock p e : createPromise args clock = Ok (p, e) -> promise_wf p /\ p_status p = created.
Proof.
  unfold createPromise. intros H. apply bind_Ok in H as (a & Ha%assertAmountMinor_Ok & H).
  apply bind_Ok in H as (s & _ & H). case_decide; [done|]. case_decide; [done|].
  apply bind_Ok in H as (c & _ & H). apply bind_Ok in H as (m & _ & H). injection H as <- _.
  split; [|done]. split; cbn; try done. by intros t [].
Qed.

Lemma applySettlement_Ok p n clock p' e : applySettlement p n clock = Ok (p', e) ->
  (p_status p = pending \/ p_status p = partially_fulfilled) /\
  exists a, 0 < a <= MAX_SAFE_INTEGER /\ settledMinor p + a <= p_amountMinor p /\
    p' = if decide (settledMinor p + a = p_amountMinor p)
         then p <| p_status := fulfilled |> <| settledMinor := settledMinor p + a |> <| fulfilledAt := Some (clock 0%nat) |>
         else p <| p_status := partially_fulfilled |> <| settledMinor := settledMinor p + a |>.
Proof.
  unfold applySettlement. intros H. case_decide as Hst; [done|].
  apply bind_Ok in H as (a & Ha%assertAmountMinor_Ok & H). case_decide; [done|].
  split; [destruct (p_status p); naive_solver|]. exists a. split; [done|]. split; [lia|].
  case_decide; [by apply bind_Ok in H as (t & _ & [= <- _])|].
  apply bind_Ok in H as (? & _ & H). apply bind_Ok in H as (? & _ & H). by apply bind_Ok in H as (? & _ & [= <- _]).
Qed.

(** A live promise bears no stamp of an ending. *)
Lemma live_unstamped p : promise_wf p -> PROMISE_TRANSITIONS (p_status p) <> [] ->
  has (fulfilledAt p) = false /\ brokenAt p = None /\ has (brokenReason p) = false /\ has (cancelledAt p) = false /\
  expiredAt p = None.
Proof.
  intros [_ _ _ Hf Hb Hbr Hc He _] Hl. unfold at_status in *.
  destruct (brokenAt p), (expiredAt p); destruct (p_status p); cbn in *; try done.
Qed.

(** The steps the operations take. *)
Inductive promise_change (clock : Clock) (p : PromiseToPay) : PromiseToPay -> Prop :=
| change_activate : p_status p = created -> promise_change clock p (p <| p_status := pending |> <| pendingAt := Some (clock 0%nat) |>)
| change_cancel : PROMISE_TRANSITIONS (p_status p) <> [] ->
    promise_change clock p (p <| p_status := cancelled |> <| cancelledAt := Some (clock 0%nat) |>)
| change_settle a : p_status p = pending \/ p_status p = partially_fulfilled -> 0 < a -> settledMinor p + a < p_amountMinor p ->
    promise_change clock p (p <| p_status := partially_fulfilled |> <| settledMinor := settledMinor p + a |>)
| change_fulfil : p_status p = pending \/ p_status p = partially_fulfilled ->
    promise_change clock p (p <| p_status := fulfilled |> <| settledMinor := p_amountMinor p |> <| fulfilledAt := Some (clock 0%nat) |>)
| change_break reason : p_status p = pending \/ p_status p = partially_fulfilled ->
    promisedDate p < clock 0%nat -> settledMinor p < p_amountMinor p ->
    promise_change clock p (p <| p_status := broken |> <| brokenAt := Some (clock 0%nat) |> <| brokenReason := Some reason |>)
| change_expire grace : p_status p = created \/ p_status p = pending -> 0 <= grace ->
    promisedDate p + grace * DAY_MS <= clock 0%nat -> settledMinor p <= 0 ->
    promise_change clock p (p <| p_status := expired |> <| expiredAt := Some (clock 0%nat) |>).

Lemma active_status p : ~ (p_status p <> pending /\ p_status p <> partially_fulfilled) ->
  p_status p = pending \/ p_status p = partially_fulfilled.
Proof. destruct (p_status p); naive_solver. Qed.

Lemma run_promise_change op clock p p' : run_promise_op op clock p = Ok p' -> promise_change clock p p'.
Proof.
  destruct op; cbn; intros H; apply bind_Ok in H as ([q e] & H & [= <-]); cbn.
  - unfold transitionPromise in H. case_decide as Ht; [done|]. case_decide as Hm; [done|].
    apply bind_Ok in H as (? & _ & H). apply bind_Ok in H as (? & _ & H).
    case_decide; injection H as <- _; constructor; destruct (p_status p); subst; try done; set_solver.
  - apply applySettlement_Ok in H as (Hs & a & Ha & Hle & ->). case_decide as E; [rewrite E|]; constructor; try done; lia.
  - unfold markPromiseBroken in H. case_decide as Hst; [done|]. apply bind_Ok in H as (r & _ & H).
    case_decide; [done|]. case_decide; [done|]. apply bind_Ok in H as (? & _ & H). injection H as <- _.
    constructor; [by apply active_status|lia..].
  - unfold expirePromise in H. case_decide as Hst; [done|]. destruct (safeInteger graceDays) as [g|]; [|done].
    case_decide; [done|]. case_decide; [done|]. case_decide; [done|]. injection H as <- _.
    apply (change_expire _ _ g); [|lia..]. destruct (p_status p); naive_solver.
Qed.

Lemma promise_change_wf clock p p' : promise_wf p -> promise_change clock p p' -> promise_wf p'.
Proof.
  intros Hwf Hch. assert (PROMISE_TRANSITIONS (p_status p) <> []) as Hlive.
  { destruct Hch as [E|?|? [E|E]|[E|E]|? [E|E]|? [E|E]]; try done; by rewrite E. }
  destruct (live_unstamped _ Hwf Hlive) as (Hf & Hb & Hr & Hc & He).
  destruct Hwf as [Ha Hrc Hcov _ _ _ _ _ Hl]. unfold coverage_ok in Hcov.
  destruct Hch as [E|?|a Es Hp Hlt|Es|reason Es Hd Hlt|grace Es Hg Hd Hz]; split; unfold coverage_ok, at_status;
    cbn [upd p_status settledMinor p_amountMinor p_receivableIds fulfilledAt brokenAt brokenReason cancelledAt expiredAt
         promisedDate PromiseToPay_eta has];
    rewrite ?Hf, ?Hb, ?Hr, ?Hc, ?He; try done.
  - by rewrite E in Hcov.
  - by intros t [].
  - destruct (p_status p); try done; lia.
  - by intros t [].
  - destruct Es as [E|E]; rewrite E in Hcov; lia.
  - by intros t [].
  - by intros t [].
  - destruct Es as [E|E]; rewrite E in Hcov; lia.
  - intros t [[= <-]|[=]]. lia.
  - destruct Es as [E|E]; rewrite E in Hcov; lia.
  - intros t [[=]|[= <-]]. unfold DAY_MS in *. lia.
Qed.

Lemma promise_wf_reachable p : promise_reachable p -> promise_wf p.
Proof.
  induction 1 as [args clock p e H|op clock p p' _ IH H]; [by apply createPromise_wf in H as [H _]|].
  by eapply promise_change_wf, run_promise_change.
Qed.

(** Whatever the customer, the collector and the clock do, a promise's settlements
    never exceed what was promised and its status says exactly how much is covered
    (fulfilled iff fully, partly fulfilled iff strictly between); it is stamped
    fulfilled, broken, cancelled or expired exactly in that state, and is never
    broken or expired before the promised date. *)
Theorem promise_reachable_wf p : promise_reachable p -> promise_wf p.
Proof. apply promise_wf_reachable. Qed.

(** ** Progress *)

Lemma applySettlement_succeeds p a clock : promise_wf p -> p_status p = pending \/ p_status p = partially_fulfilled ->
  0 < a -> settledMinor p + a <= p_amountMinor p ->
  exists p' e, applySettlement p (num a) clock = Ok (p', e) /\ settledMinor p' = settledMinor p + a /\
    p_amountMinor p' = p_amountMinor p /\
    p_status p' = if decide (settledMinor p + a = p_amountMinor p) then fulfilled else partially_fulfilled.
Proof.
  intros [Ha _ Hc _ _ _ _ _ _] Hs Hp Hle.
  assert (0 <= settledMinor p) by (unfold coverage_ok in Hc; destruct Hs as [E|E]; rewrite E in Hc; lia).
  unfold applySettlement. rewrite decide_False by (destruct Hs; naive_solver).
  unfold assertAmountMinor. rewrite safeInteger_num by lia. rewrite decide_False by lia. cbn [mbind result_bind].
  rewrite decide_False by lia. case_decide.
  - rewrite minorToNumber_safe by lia. by do 2 eexists.
  - rewrite !minorToNumber_safe by (unfold remainingMinor; cbn; lia). by do 2 eexists.
Qed.

Definition settle_all (clock : Clock) (p : PromiseToPay) (amounts : list Z) : result PromiseToPay :=
  foldM (fun p a => r ← applySettlement p (num a) clock; Ok r.1) p amounts.

(** However a customer splits what is still owed on an active promise into
    positive settlements, all of them are accepted and the last one fulfils the
    promise. *)
Theorem any_split_fulfils_the_promise clock p amounts : promise_wf p ->
  p_status p = pending \/ p_status p = partially_fulfilled ->
  Forall (fun a => 0 < a) amounts -> sumZ amounts = remainingMinor p ->
  exists p', settle_all clock p amounts = Ok p' /\ p_status p' = fulfilled /\ settledMinor p' = p_amountMinor p.
Proof.
  revert p. induction amounts as [|a l IH]; intros p Hwf Hs Hpos Hsum.
  - exfalso. rewrite sumZ_nil in Hsum. pose proof (pw_coverage _ Hwf) as Hc. pose proof (pw_amount _ Hwf).
    unfold remainingMinor, coverage_ok in *. destruct Hs as [E|E]; rewrite E in Hc; lia.
  - inversion Hpos as [|? ? Hap Hl]; subst. rewrite sumZ_cons in Hsum. unfold remainingMinor in Hsum.
    pose proof (sumZ_nonneg l (Forall_impl _ _ _ Hl (fun x => Z.lt_le_incl 0 x))) as Hnn.
    destruct (applySettlement_succeeds p a clock Hwf Hs Hap ltac:(lia)) as (p1 & e & H1 & Es & Ea & Est).
    assert (promise_wf p1) as Hwf1.
    { eapply promise_change_wf; [exact Hwf|]. apply (run_promise_change (op_settle (num a))). cbn. by rewrite H1. }
    unfold settle_all. cbn [foldM]. rewrite H1. cbn [mbind result_bind fst].
    destruct (decide (settledMinor p + a = p_amountMinor p)) as [Ef|Ef].
    + destruct l as [|b l]; [exists p1; split; [done|]; split; [done|congruence]|]. exfalso. inversion Hl as [|? ? Hb Hl']; subst. rewrite sumZ_cons in *.
      pose proof (sumZ_nonneg l (Forall_impl _ _ _ Hl' (fun x => Z.lt_le_incl 0 x))). lia.
    + destruct (IH p1) as (p' & H & Hf & Ht); [done|by right|done|unfold remainingMinor; lia|].
      exists p'. split; [exact H|]. split; [done|]. congruence.
Qed.

Definition sample_promise : PromiseToPay :=
  MkPromise "p-1" "org-1" "c-1" ["r-1"] 1000 KES 1767225600000 "whatsapp" None pending 0 0 (Some 0) None None None None None.

Definition sample_promise_args : CreatePromiseArgs :=
  MkCreatePromise "p-1" "org-1" "c-1" ["r-1"] (num 1000) KES 1767225600000 "whatsapp" None.

Lemma sample_promise_reachable : promise_reachable sample_promise.
Proof.
  destruct (createPromise sample_promise_args (fixed_clock 0)) as [[p e]|] eqn:E; [|vm_compute in E; discriminate E].
  eapply (reach_op (op_transition pending "call" "agent-1") (fixed_clock 0) p).
  - eapply reach_created. exact E.
  - vm_compute in E. injection E as <- _. vm_compute. reflexivity.
Qed.

Lemma promise_reachable_wf_witness : promise_reachable sample_promise /\ promise_wf sample_promise.
Proof. split; [exact sample_promise_reachable|exact (promise_reachable_wf _ sample_promise_reachable)]. Defined.

Lemma any_split_fulfils_the_promise_witness :
  exists p', settle_all (fixed_clock 5) sample_promise [300; 700] = Ok p' /\ p_status p' = fulfilled /\ settledMinor p' = 1000.
Proof.
  apply (any_split_fulfils_the_promise (fixed_clock 5) sample_promise [300; 700]).
  - split; cbn; try done; [split; [done|]|by intros t []]. apply (bool_decide_unpack _). vm_compute. exact I.
  - left. reflexivity.
  - repeat constructor.
  - reflexivity.
Defined.

(** ** The machine is the documented one *)

Lemma safeInteger_zero : safeInteger (num 0) = Some 0.
Proof. apply safeInteger_num. unfold MAX_SAFE_INTEGER. lia. Qed.

Lemma manual_succeeds p to : to ∈ PROMISE_TRANSITIONS (p_status p) -> to ∈ MANUAL_TARGETS ->
  exists p', run_promise_op (op_transition to "r" "a") (fixed_clock 0) p = Ok p' /\ p_status p' = to.
Proof.
  intros Ht Hm. cbn [run_promise_op]. unfold transitionPromise.
  rewrite (decide_False (P := to ∉ PROMISE_TRANSITIONS _)) by (intros N; by apply N).
  rewrite (decide_False (P := to ∉ MANUAL_TARGETS)) by (intros N; by apply N).
  change (assertNonBlank "r" "PROMISE_REASON_REQUIRED") with (@Ok string "r").
  change (assertNonBlank "a" "PROMISE_ACTOR_REQUIRED") with (@Ok string "a"). cbn [mbind result_bind].
  case_decide; cbn [mbind result_bind]; eexists; (split; [reflexivity|]); [by subst|].
  cbn. destruct to; set_solver.
Qed.

Lemma active_remaining p : promise_wf p -> p_status p = pending \/ p_status p = partially_fulfilled ->
  0 < remainingMinor p /\ settledMinor p + remainingMinor p = p_amountMinor p.
Proof.
  intros [Ha _ Hc _ _ _ _ _ _] Hs. unfold remainingMinor, coverage_ok in *. destruct Hs as [E|E]; rewrite E in Hc; lia.
Qed.

Lemma settle_succeeds p a : promise_wf p -> p_status p = pending \/ p_status p = partially_fulfilled -> 0 < a -> a <= remainingMinor p ->
  exists p', run_promise_op (op_settle (num a)) (fixed_clock 0) p = Ok p' /\
    p_status p' = if decide (settledMinor p + a = p_amountMinor p) then fulfilled else partially_fulfilled.
Proof.
  intros Hwf Hs Ha Hr. pose proof (active_remaining p Hwf Hs).
  destruct (applySettlement_succeeds p a (fixed_clock 0) Hwf Hs Ha) as (p' & e & H' & _ & _ & E); [lia|].
  exists p'. cbn [run_promise_op]. by rewrite H'.
Qed.

Lemma break_succeeds p : promise_wf p -> p_status p = pending \/ p_status p = partially_fulfilled ->
  exists p', run_promise_op (op_break "r" None) (fixed_clock (promisedDate p + 1)) p = Ok p' /\ p_status p' = broken.
Proof.
  intros Hwf Hs. pose proof (active_remaining p Hwf Hs). pose proof (pw_amount _ Hwf).
  assert (0 <= settledMinor p) by (pose proof (pw_coverage _ Hwf) as Hc; unfold coverage_ok in Hc; destruct Hs as [E|E]; rewrite E in Hc; lia).
  cbn [run_promise_op]. unfold markPromiseBroken. rewrite decide_False by (destruct Hs; naive_solver).
  change (assertNonBlank "r" "PROMISE_REASON_REQUIRED") with (@Ok string "r"). cbn [mbind result_bind].
  rewrite decide_False by (unfold fixed_clock; lia). rewrite decide_False by lia.
  rewrite minorToNumber_safe by lia. by eexists.
Qed.

Lemma expire_succeeds p : promise_wf p -> p_status p = created \/ p_status p = pending ->
  exists p', run_promise_op (op_expire (num 0)) (fixed_clock (promisedDate p)) p = Ok p' /\ p_status p' = expired.
Proof.
  intros Hwf Hs. assert (settledMinor p = 0) as Hz.
  { pose proof (pw_coverage _ Hwf) as Hc. unfold coverage_ok in Hc. by destruct Hs as [E|E]; rewrite E in Hc. }
  cbn [run_promise_op]. unfold expirePromise. rewrite decide_False by (destruct Hs; naive_solver).
  rewrite safeInteger_zero. rewrite (decide_False (P := 0 < 0)) by lia.
  rewrite (decide_False (P := _ < _)) by (unfold fixed_clock, DAY_MS; lia). rewrite decide_False by lia. by eexists.
Qed.

(** From a reachable promise the operations reach exactly the statuses of the
    transition table, and a further partial settlement keeps it partly fulfilled;
    the only extra condition is that at least two minor units are outstanding for a
    settlement to be partial.  In particular ended promises refuse everything. *)
Theorem promise_machine_exact p s : promise_reachable p ->
  (exists op clock p', run_promise_op op clock p = Ok p' /\ p_status p' = s) <->
  (s ∈ PROMISE_TRANSITIONS (p_status p) \/ (s = partially_fulfilled /\ p_status p = partially_fulfilled)) /\
  (s = partially_fulfilled -> 1 < remainingMinor p).
Proof.
  intros Hwf%promise_wf_reachable. split.
  - intros (op & clock & p' & H%run_promise_change & <-).
    pose proof (pw_coverage _ Hwf) as Hc. unfold coverage_ok in Hc.
    destruct H as [E|Hl|a Es Hp Hlt|Es|reason Es Hd Hlt|grace Es Hg Hd Hz]; cbn -[PROMISE_TRANSITIONS];
      (split; [|try done; unfold remainingMinor; lia]).
    + left. rewrite E. set_solver.
    + left. destruct (p_status p); try done; set_solver.
    + destruct Es as [E|E]; rewrite E; [left|right]; set_solver.
    + left. destruct Es as [E|E]; rewrite E; set_solver.
    + left. destruct Es as [E|E]; rewrite E; set_solver.
    + left. destruct Es as [E|E]; rewrite E; set_solver.
  - intros [Hedge Hpart].
    assert (forall op clock p', run_promise_op op clock p = Ok p' -> p_status p' = s ->
      exists op clock p', run_promise_op op clock p = Ok p' /\ p_status p' = s) as Hex by eauto.
    destruct s.
    + destruct (p_status p); set_solver.
    + destruct (manual_succeeds p pending) as (p' & H & E); [destruct Hedge as [|[]]; done|set_solver|]. by eapply Hex.
    + destruct (settle_succeeds p 1) as (p' & H & E); [done|destruct (p_status p); set_solver|lia|specialize (Hpart eq_refl); lia|].
      eapply Hex; [exact H|]. rewrite E. specialize (Hpart eq_refl). rewrite decide_False; [done|]. unfold remainingMinor in Hpart. lia.
    + assert (p_status p = pending \/ p_status p = partially_fulfilled) as Hs by (destruct (p_status p); set_solver).
      pose proof (active_remaining p Hwf Hs).
      destruct (settle_succeeds p (remainingMinor p)) as (p' & H' & E); [done|done|lia|lia|].
      eapply Hex; [exact H'|]. rewrite E. rewrite decide_True; [done|]. unfold remainingMinor in *. lia.
    + assert (p_status p = pending \/ p_status p = partially_fulfilled) as Hs by (destruct (p_status p); set_solver).
      destruct (break_succeeds p) as (p' & H' & E); [done|done|]. by eapply Hex.
    + destruct (manual_succeeds p cancelled) as (p' & H & E); [destruct Hedge as [|[]]; done|set_solver|]. by eapply Hex.
    + destruct (expire_succeeds p) as (p' & H & E); [done|destruct (p_status p); set_solver|]. by eapply Hex.
Qed.

Lemma promise_machine_exact_witness :
  exists op clock p', run_promise_op op clock sample_promise = Ok p' /\ p_status p' = broken.
Proof.
  apply (promise_machine_exact sample_promise broken sample_promise_reachable). split; [left|discriminate].
  apply (bool_decide_unpack _). vm_compute. exact I.
Defined.
