(* ===== verification/Dunning.v ===== *)
(** * Dunning

    src/domain/promises/dunning.ts: the ladder of reminder steps, the selection of
    the steps that are due, the consent gate, one orchestrated tick, and the
    no-response escalation. *)

From stdpp Require Import prelude strings list.
From Stdlib Require Import ZArith Lia.
From S2P Require Import Prelude JsNumber JsString JsDate Money Events.
Local Open Scope string_scope.
Local Open Scope list_scope.
Local Open Scope Z_scope.
Local Open Scope js_scope.

(** ** The ladder *)

Inductive DunningChannel := ch_email | ch_sms | ch_whatsapp | ch_task.
Inductive DunningStepKind :=
| k_reminder | k_payment_request | k_whatsapp | k_sms | k_collector_task | k_manager_escalation | k_payment_plan_offer
| k_recovery_workflow.

(** [dayOffset] is a JavaScript number; a valid ladder has safe integers only. *)
Record DunningStep := MkStep {
  st_key : string;
  st_dayOffset : number;
  st_kind : DunningStepKind;
  st_channel : DunningChannel;
  st_requiresConsent : bool;
}.

Definition DEFAULT_DUNNING_LADDER : list DunningStep := [
  MkStep "pre_due_reminder" (num (-3)) k_reminder ch_email false;
  MkStep "due_date_request" (num 0) k_payment_request ch_email false;
  MkStep "overdue_day_3" (num 3) k_whatsapp ch_whatsapp true;
  MkStep "overdue_day_7" (num 7) k_sms ch_sms false;
  MkStep "overdue_day_14" (num 14) k_collector_task ch_task false;
  MkStep "overdue_day_30" (num 30) k_manager_escalation ch_task false;
  MkStep "overdue_day_45" (num 45) k_payment_plan_offer ch_email false;
  MkStep "overdue_day_60" (num 60) k_recovery_workflow ch_task false].

Definition ladderInvalid {A} : result A := Err (DomainError "DUNNING_LADDER_INVALID").

(** The loop of [assertLadder]: the keys seen, and the previous offset ([None] is
    minus infinity). *)
Fixpoint ladderLoop (keys : list string) (previous : option Z) (ladder : list DunningStep) : result unit :=
  match ladder with
  | [] => Ok tt
  | s :: rest =>
      if decide (trim (st_key s) = "") then ladderInvalid
      else if decide (st_key s ∈ keys) then ladderInvalid
      else match safeInteger (st_dayOffset s) with
      | None => ladderInvalid
      | Some o =>
          if match previous with Some q => o <? q | None => false end then ladderInvalid
          else ladderLoop (st_key s :: keys) (Some o) rest
      end
  end.

Definition assertLadder (ladder : list DunningStep) : result (list DunningStep) :=
  match ladder with
  | [] => ladderInvalid
  | _ => _ ← ladderLoop [] None ladder; Ok ladder
  end.

(** ** Due steps *)

Record DunningFacts := MkDunningFacts {
  df_dueDate : Date;
  df_sentSteps : list string;
  df_consentRef : option string;
  df_subjectId : Uuid;
  df_orgId : Uuid;
}.

(** [Date.UTC] over the day's own calendar fields. *)
Definition dayIndex (d : Date) : Z := Date_UTC (getUTCFullYear d) (getUTCMonth d) (getUTCDate d) 0 / DAY_MS.
Definition utcDaysBetween (from to : Date) : Z := dayIndex to - dayIndex from.

(** [daysPast >= s.dayOffset] *)
Definition reached (daysPast : Z) (s : DunningStep) : bool :=
  match safeInteger (st_dayOffset s) with Some o => o <=? daysPast | None => false end.

Definition dueSteps (now : Date) (facts : DunningFacts) (ladder : list DunningStep) : result (list DunningStep) :=
  steps ← assertLadder ladder;
  let daysPast := utcDaysBetween (df_dueDate facts) now in
  Ok (List.filter (fun s => negb (bool_decide (st_key s ∈ df_sentSteps facts)) && reached daysPast s) steps).

(** ** The consent gate *)

Inductive DunningSendDecision := allowed | refusedNoConsent.

Definition consented (consentRef : option string) : bool :=
  match consentRef with Some c => negb (bool_decide (trim c = "")) | None => false end.

Definition evaluateDunningSend (s : DunningStep) (consentRef : option string) : DunningSendDecision :=
  if negb (st_requiresConsent s) then allowed
  else if consented consentRef then allowed else refusedNoConsent.

Definition assertDunningSendable (s : DunningStep) (consentRef : option string) : result unit :=
  match evaluateDunningSend s consentRef with
  | allowed => Ok tt
  | refusedNoConsent => Err (DomainError "DUNNING_CONSENT_REQUIRED")
  end.

(** ** One tick *)

Inductive DunningPayload :=
| DunningStepDuePayload (orgId subjectId : Uuid) (stepKey : string) (dayOffset : number) (kind : DunningStepKind)
    (channel : DunningChannel) (requiresConsent : bool) (dueDate : string)
| CollectionsDunningBlockedNoConsentPayload (orgId subjectId : Uuid) (stepKey : string) (channel : DunningChannel) (blockedAt : string)
| DunningEscalatedPayload (orgId subjectId : Uuid) (stepKey channel lastSendAt : string) (waitedDays : Z) (escalatedAt : string).
Notation DunningEvent := (DomainEvent DunningPayload).

Record DunningPlan := MkPlan {
  sends : list (DunningStep * DunningEvent);
  blocked : list (DunningStep * DunningEvent);
}.

(** The loop over the due steps; a send reads the clock once, a refusal twice. *)
Fixpoint splitDue (facts : DunningFacts) (clock : Clock) (due : list DunningStep) (plan : DunningPlan) : DunningPlan :=
  match due with
  | [] => plan
  | s :: rest =>
      match evaluateDunningSend s (df_consentRef facts) with
      | allowed =>
          let event := domainEvent "dunning.stepDue" (df_subjectId facts)
            (DunningStepDuePayload (df_orgId facts) (df_subjectId facts) (st_key s) (st_dayOffset s) (st_kind s)
               (st_channel s) (st_requiresConsent s) (toISOString (df_dueDate facts))) clock in
          splitDue facts (clock_after 1 clock) rest (MkPlan (sends plan ++ [(s, event)]) (blocked plan))
      | refusedNoConsent =>
          let event := domainEvent "collections.dunningBlockedNoConsent" (df_subjectId facts)
            (CollectionsDunningBlockedNoConsentPayload (df_orgId facts) (df_subjectId facts) (st_key s) (st_channel s)
               (toISOString (clock 0%nat))) (clock_after 1 clock) in
          splitDue facts (clock_after 2 clock) rest (MkPlan (sends plan) (blocked plan ++ [(s, event)]))
      end
  end.

Definition orchestrateDunning (now : Date) (facts : DunningFacts) (clock : Clock) (ladder : list DunningStep) : result DunningPlan :=
  due ← dueSteps now facts ladder;
  Ok (splitDue facts clock due (MkPlan [] [])).

(** ** Escalation *)

Definition DEFAULT_ESCALATION_AFTER_DAYS : number := num 3.

Record DunningEscalationFacts := MkEscalation {
  ef_lastSendAt : option Date;
  ef_lastResponseAt : option Date;
  ef_stepKey : string;
  ef_channel : string;
  ef_subjectId : Uuid;
  ef_orgId : Uuid;
  ef_escalationAfterDays : option number;
}.

Definition escalationDue (now : Date) (facts : DunningEscalationFacts) : result bool :=
  match safeInteger (default DEFAULT_ESCALATION_AFTER_DAYS (ef_escalationAfterDays facts)) with
  | None => Err (DomainError "DUNNING_ESCALATION_INVALID")
  | Some afterDays =>
      refuse (afterDays < 0) with "DUNNING_ESCALATION_INVALID" ;;
      match ef_lastSendAt facts with
      | None => Ok false
      | Some sent =>
          if match ef_lastResponseAt facts with Some r => sent <=? r | None => false end then Ok false
          else Ok (afterDays <=? utcDaysBetween sent now)
      end
  end.

Definition dunningEscalatedEvent (now : Date) (facts : DunningEscalationFacts) (clock : Clock) : result DunningEvent :=
  due ← escalationDue now facts;
  refuse (due = false) with "DUNNING_ESCALATION_NOT_DUE" ;;
  let sent := default 0 (ef_lastSendAt facts) in
  Ok (domainEvent "dunning.escalated" (ef_subjectId facts)
        (DunningEscalatedPayload (ef_orgId facts) (ef_subjectId facts) (ef_stepKey facts) (ef_channel facts)
           (toISOString sent) (utcDaysBetween sent now) (toISOString (clock 0%nat)))
        (clock_after 1 clock)).

(** ** Day arithmetic *)

Lemma utcDaysBetween_days from to : 100 <= getUTCFullYear from -> 100 <= getUTCFullYear to ->
  utcDaysBetween from to = dayOf to - dayOf from.
Proof.
  intros Hf Ht. unfold utcDaysBetween, dayIndex. rewrite !Date_UTC_day by done.
  by rewrite !Z.div_mul by done.
Qed.

(** ** Valid ladders *)

Lemma ladderLoop_keys keys q ladder : ladderLoop keys q ladder = Ok tt ->
  NoDup (st_key <$> ladder) /\ (forall k, k ∈ st_key <$> ladder -> k ∉ keys).
Proof.
  revert keys q. induction ladder as [|s l IH]; intros keys q H; cbn in H.
  { split; [constructor|by intros k ?%not_elem_of_nil]. }
  case_decide; [done|]. case_decide as Hk; [done|]. destruct (safeInteger _) as [o|]; [|done].
  assert (ladderLoop (st_key s :: keys) (Some o) l = Ok tt) as H' by (destruct q as [z|]; [destruct (o <? z)|]; done).
  apply IH in H' as [Hnd Hnot]. cbn. split.
  - constructor; [|done]. intros Hin. apply (Hnot _ Hin). by left.
  - intros k [->|Hin]%elem_of_cons; [done|]. intros Hkeys. apply (Hnot _ Hin). by right.
Qed.

Lemma assertLadder_Ok ladder l : assertLadder ladder = Ok l -> l = ladder /\ NoDup (st_key <$> ladder).
Proof.
  destruct ladder as [|s ladder]; [done|]. unfold assertLadder. intros H. apply bind_Ok in H as ([] & H & [= <-]).
  split; [done|]. by apply ladderLoop_keys in H as [H _].
Qed.

(** ** A tick *)

Definition is_due (now : Date) (facts : DunningFacts) (s : DunningStep) : bool :=
  negb (bool_decide (st_key s ∈ df_sentSteps facts)) && reached (utcDaysBetween (df_dueDate facts) now) s.

Definition sendable (consentRef : option string) (s : DunningStep) : bool := negb (st_requiresConsent s) || consented consentRef.

Lemma evaluate_sendable s c : evaluateDunningSend s c = if sendable c s then allowed else refusedNoConsent.
Proof. unfold evaluateDunningSend, sendable. by destruct (st_requiresConsent s), (consented c). Qed.

Lemma splitDue_steps facts clock due plan :
  (sends (splitDue facts clock due plan)).*1 = (sends plan).*1 ++ List.filter (sendable (df_consentRef facts)) due /\
  (blocked (splitDue facts clock due plan)).*1 =
    (blocked plan).*1 ++ List.filter (fun s => negb (sendable (df_consentRef facts) s)) due.
Proof.
  revert clock plan. induction due as [|s due IH]; intros clock plan; cbn; [by rewrite !app_nil_r|].
  rewrite evaluate_sendable. destruct (sendable _ s); cbn [negb].
  - destruct (IH (clock_after 1 clock) (MkPlan (sends plan ++ [(s, domainEvent "dunning.stepDue" (df_subjectId facts)
      (DunningStepDuePayload (df_orgId facts) (df_subjectId facts) (st_key s) (st_dayOffset s) (st_kind s) (st_channel s)
         (st_requiresConsent s) (toISOString (df_dueDate facts))) clock)]) (blocked plan))) as [-> ->].
    cbn. rewrite fmap_app, <- app_assoc. done.
  - match goal with |- context [splitDue facts ?c due ?p] => destruct (IH c p) as [-> ->] end.
    cbn. rewrite fmap_app, <- app_assoc. done.
Qed.

Lemma orchestrate_Ok now facts clock ladder plan : orchestrateDunning now facts clock ladder = Ok plan ->
  NoDup (st_key <$> ladder) /\
  (sends plan).*1 = List.filter (sendable (df_consentRef facts)) (List.filter (is_due now facts) ladder) /\
  (blocked plan).*1 = List.filter (fun s => negb (sendable (df_consentRef facts) s)) (List.filter (is_due now facts) ladder).
Proof.
  unfold orchestrateDunning, dueSteps. intros H. apply bind_Ok in H as (due & Hd & [= <-]).
  apply bind_Ok in Hd as (steps & [-> Hnd]%assertLadder_Ok & [= <-]). split; [done|].
  destruct (splitDue_steps facts clock (List.filter (is_due now facts) ladder) (MkPlan [] [])) as [Hs Hb].
  split; [exact Hs|exact Hb].
Qed.

Lemma filter_split {A} (f : A -> bool) l : List.filter f l ++ List.filter (fun x => negb (f x)) l ≡ₚ l.
Proof.
  induction l as [|x l IH]; cbn; [done|]. destruct (f x); cbn; [by rewrite IH|].
  rewrite <- Permutation_middle. by rewrite IH.
Qed.

(** A tick puts every step that is due and not yet sent in exactly one of its two
    lists, in ladder order: among the sends when it needs no consent or the subject
    carries a non-blank one, otherwise among the refusals.  A consent-gated step is
    never sent without consent, and nothing already sent or not yet due appears. *)
Theorem dunning_tick_exact now facts clock ladder plan : orchestrateDunning now facts clock ladder = Ok plan ->
  (sends plan).*1 ++ (blocked plan).*1 ≡ₚ List.filter (is_due now facts) ladder /\
  (sends plan).*1 `sublist_of` ladder /\ (blocked plan).*1 `sublist_of` ladder /\
  (forall s, s ∈ (sends plan).*1 -> st_requiresConsent s = true -> consented (df_consentRef facts) = true) /\
  (forall s, s ∈ (blocked plan).*1 -> st_requiresConsent s = true /\ consented (df_consentRef facts) = false).
Proof.
  intros (_ & -> & ->)%orchestrate_Ok. split; [apply filter_split|].
  split; [etrans; apply filter_sublist|]. split; [etrans; apply filter_sublist|].
  split; intros s Hs%list_elem_of_In; apply filter_In in Hs as [_ Hs]; unfold sendable in Hs.
  - intros Hr. by rewrite Hr in Hs.
  - destruct (st_requiresConsent s), (consented _); done.
Qed.

(** ** A run of ticks *)

Record tick := MkTick { tk_now : Date; tk_consent : option string; tk_clock : Clock }.

(** The job records what a tick sent before the next tick. *)
Definition run_tick (ladder : list DunningStep) (facts : DunningFacts) (t : tick) : result DunningFacts :=
  let f := MkDunningFacts (df_dueDate facts) (df_sentSteps facts) (tk_consent t) (df_subjectId facts) (df_orgId facts) in
  plan ← orchestrateDunning (tk_now t) f (tk_clock t) ladder;
  Ok (MkDunningFacts (df_dueDate f) (df_sentSteps f ++ (st_key <$> (sends plan).*1)) (df_consentRef f)
        (df_subjectId f) (df_orgId f)).

Lemma run_tick_Ok ladder facts t facts' : run_tick ladder facts t = Ok facts' ->
  NoDup (df_sentSteps facts) ->
  NoDup (df_sentSteps facts') /\ df_dueDate facts' = df_dueDate facts /\
  exists new, df_sentSteps facts' = df_sentSteps facts ++ (st_key <$> new) /\
    (forall s, s ∈ ladder -> reached (utcDaysBetween (df_dueDate facts) (tk_now t)) s = true ->
       sendable (tk_consent t) s = true -> st_key s ∈ df_sentSteps facts') /\
    (forall s, s ∈ new -> s ∈ ladder /\ reached (utcDaysBetween (df_dueDate facts) (tk_now t)) s = true /\
       sendable (tk_consent t) s = true).
Proof.
  unfold run_tick. intros H Hnd. apply bind_Ok in H as (plan & Hp & [= <-]).
  apply orchestrate_Ok in Hp as (Hk & Hs & _). cbn in *. rewrite Hs.
  set (due := List.filter _ _).
  assert (forall s, s ∈ due <-> (s ∈ ladder /\ st_key s ∉ df_sentSteps facts /\
    reached (utcDaysBetween (df_dueDate facts) (tk_now t)) s = true) /\ sendable (tk_consent t) s = true) as Hin.
  { intros s. unfold due. rewrite list_elem_of_In, filter_In, filter_In, <- list_elem_of_In. unfold is_due. cbn.
    rewrite andb_true_iff, negb_true_iff, bool_decide_eq_false. tauto. }
  split; [|split; [done|]].
  - apply NoDup_app. split; [done|]. split.
    + intros x Hx (s & -> & Hs')%list_elem_of_fmap. apply Hin in Hs' as [(_ & N & _) _]. done.
    + eapply sublist_NoDup; [exact Hk|]. apply fmap_sublist. unfold due. etrans; apply filter_sublist.
  - exists due. split; [done|]. split; [|intros s Hs'; apply Hin in Hs'; tauto].
    intros s Hl Hr Hc. rewrite elem_of_app. destruct (decide (st_key s ∈ df_sentSteps facts)); [by left|right].
    apply list_elem_of_fmap_2. apply Hin. tauto.
Qed.

(** Over any run of ticks, at any times and with consent given or withdrawn in
    between, no step is ever sent twice, and after a tick every step whose day has
    come and which may be sent has been sent. *)
Theorem dunning_never_repeats ladder facts ticks facts' : NoDup (df_sentSteps facts) ->
  foldM (run_tick ladder) facts ticks = Ok facts' ->
  NoDup (df_sentSteps facts') /\ df_sentSteps facts `prefix_of` df_sentSteps facts' /\
  (forall t s, t ∈ ticks -> s ∈ ladder -> reached (utcDaysBetween (df_dueDate facts) (tk_now t)) s = true ->
     sendable (tk_consent t) s = true -> st_key s ∈ df_sentSteps facts').
Proof.
  revert facts. induction ticks as [|t ticks IH]; intros facts Hnd H; cbn in H.
  - injection H as <-. split; [done|]. split; [done|]. by intros ? ? ?%not_elem_of_nil.
  - apply bind_Ok in H as (f1 & H1 & H). apply run_tick_Ok in H1 as (Hnd1 & Hd & new & Es & Hall & _); [|done].
    destruct (IH f1 Hnd1 H) as (Hnd' & Hpre & Hdone). split; [done|].
    assert (df_sentSteps facts `prefix_of` df_sentSteps f1) as Hpre1 by (rewrite Es; by apply prefix_app_r).
    split; [by etrans|]. intros t' s [->|Ht]%elem_of_cons Hl Hr Hc.
    + destruct Hpre as [k ->]. apply elem_of_app. left. by apply Hall.
    + apply (Hdone t' s Ht Hl); [by rewrite Hd|done].
Qed.

Definition sample_dunning : DunningFacts := MkDunningFacts 1767225600000 [] None "s-1" "org-1".

Lemma dunning_tick_exact_witness :
  exists plan, orchestrateDunning (1767225600000 + 8 * DAY_MS) sample_dunning (fixed_clock 0) DEFAULT_DUNNING_LADDER = Ok plan /\
    st_key <$> (blocked plan).*1 = ["overdue_day_3"] /\ (sends plan).*1 `sublist_of` DEFAULT_DUNNING_LADDER.
Proof.
  destruct (orchestrateDunning (1767225600000 + 8 * DAY_MS) sample_dunning (fixed_clock 0) DEFAULT_DUNNING_LADDER)
    as [plan|] eqn:E; [|vm_compute in E; discriminate E].
  exists plan. split; [reflexivity|]. split; [vm_compute in E; injection E as <-; vm_compute; reflexivity|].
  exact (proj1 (proj2 (dunning_tick_exact _ _ _ _ _ E))).
Defined.

Definition sample_ticks : list tick :=
  [MkTick (1767225600000 + 8 * DAY_MS) None (fixed_clock 0); MkTick (1767225600000 + 9 * DAY_MS) (Some "consent-1") (fixed_clock 0)].

Lemma dunning_never_repeats_witness :
  exists facts', foldM (run_tick DEFAULT_DUNNING_LADDER) sample_dunning sample_ticks = Ok facts' /\
    NoDup (df_sentSteps facts') /\ df_sentSteps facts' = ["pre_due_reminder"; "due_date_request"; "overdue_day_7"; "overdue_day_3"].
Proof.
  destruct (foldM (run_tick DEFAULT_DUNNING_LADDER) sample_dunning sample_ticks) as [facts'|] eqn:E;
    [|vm_compute in E; discriminate E].
  exists facts'. split; [reflexivity|]. split.
  - apply (dunning_never_repeats DEFAULT_DUNNING_LADDER sample_dunning sample_ticks facts'); [constructor|exact E].
  - vm_compute in E. injection E as <-. reflexivity.
Defined.

(** Escalation fires exactly when a step was sent, the customer has not answered
    since, and the configured number of UTC days has passed; the event carries that
    number of days. *)
Theorem escalation_exact now facts clock : 
  is_ok (dunningEscalatedEvent now facts clock) = true <->
  exists sent after, safeInteger (default DEFAULT_ESCALATION_AFTER_DAYS (ef_escalationAfterDays facts)) = Some after /\
    0 <= after /\ ef_lastSendAt facts = Some sent /\
    (forall r, ef_lastResponseAt facts = Some r -> r < sent) /\ after <= utcDaysBetween sent now.
Proof.
  unfold dunningEscalatedEvent, escalationDue.
  destruct (safeInteger _) as [n|]; cbn; [|naive_solver].
  case_decide; cbn; [naive_solver lia|]. destruct (ef_lastSendAt facts) as [sent|]; cbn; [|naive_solver].
  destruct (ef_lastResponseAt facts) as [r|]; [destruct (Z.leb_spec sent r)|]; cbn; try naive_solver lia.
  - destruct (Z.leb_spec n (utcDaysBetween sent now)); cbn; [|naive_solver lia].
    split; [|done]. intros _. exists sent, n. repeat split; try done; [lia|]. intros ? [= <-]. lia.
  - destruct (Z.leb_spec n (utcDaysBetween sent now)); cbn; [|naive_solver lia].
    split; [|done]. intros _. exists sent, n. repeat split; try done. lia.
Qed.
