(* ===== verification/ApprovalPolicy.v ===== *)
(** * Approval policies

    src/domain/approvals/policy.ts: which operations need a second pair of eyes.
    Policies are checked one by one and as a set, and the evaluation picks the most
    specific policy that governs a request. *)

From stdpp Require Import prelude strings list.
From Stdlib Require Import ZArith Lia.
From S2P Require Import Prelude JsNumber JsString JsDate.
Local Open Scope string_scope.
Local Open Scope list_scope.
Local Open Scope Z_scope.
Local Open Scope js_scope.

Definition OPERATION_TYPES : list string :=
  ["refund"; "write_off"; "credit_note"; "bank_destination_change"; "manual_adjustment"].

Definition AMOUNT_REQUIRED_OPERATIONS : list string := ["refund"; "write_off"].

Record ApprovalThreshold := MkThreshold { th_amountMinor : number; th_currency : Currency }.

Record ApprovalPolicy := MkPolicy {
  po_policyId : Uuid;
  po_orgId : Uuid;
  po_operationType : string;
  po_threshold : option ApprovalThreshold;
  po_requiredApproverRoles : list string;
  po_quorum : number;
  po_ttlDays : number;
}.

Definition isNonBlank (value : string) : bool := negb (bool_decide (trim value = "")).

(** The integer a validated number holds. *)
Definition minor (x : number) : Z := default 0 (safeInteger x).

(** [!Number.isSafeInteger(x) || x < low] *)
Definition badInteger (x : number) (low : Z) : bool :=
  match safeInteger x with Some z => z <? low | None => true end.

(** ** Structural validation *)

Definition assertApprovalPolicy (p : ApprovalPolicy) : result unit :=
  refuse (isNonBlank (po_orgId p) = false) with "APPROVAL_POLICY_ORG_REQUIRED" ;;
  refuse (isNonBlank (po_policyId p) = false) with "APPROVAL_POLICY_ID_REQUIRED" ;;
  refuse (po_operationType p ∉ OPERATION_TYPES) with "APPROVAL_POLICY_OPERATION_INVALID" ;;
  refuse (match po_threshold p with Some t => badInteger (th_amountMinor t) 0 | None => false end = true)
    with "APPROVAL_POLICY_THRESHOLD_INVALID" ;;
  refuse (po_requiredApproverRoles p = []) with "APPROVAL_POLICY_ROLES_REQUIRED" ;;
  refuse (forallb isNonBlank (po_requiredApproverRoles p) = false) with "APPROVAL_POLICY_ROLE_INVALID" ;;
  refuse (¬ NoDup (po_requiredApproverRoles p)) with "APPROVAL_POLICY_ROLE_DUPLICATE" ;;
  refuse (badInteger (po_quorum p) 1 = true) with "APPROVAL_POLICY_QUORUM_INVALID" ;;
  refuse (minor (po_quorum p) > Z.of_nat (length (po_requiredApproverRoles p))) with "APPROVAL_POLICY_QUORUM_EXCEEDS_ROLES" ;;
  refuse (badInteger (po_ttlDays p) 1 = true) with "APPROVAL_POLICY_TTL_INVALID" ;;
  Ok tt.

(** What the loop over a set remembers: ids, the organisation, catch-alls, thresholds. *)
Record SeenPolicies := MkSeen {
  seen_ids : list Uuid;
  seen_org : option Uuid;
  seen_catchAll : list string;
  seen_thresholds : list (string * Currency * Z);
}.

Definition policyStep (seen : SeenPolicies) (p : ApprovalPolicy) : result SeenPolicies :=
  _ ← assertApprovalPolicy p;
  refuse (po_policyId p ∈ seen_ids seen) with "APPROVAL_POLICY_ID_DUPLICATE" ;;
  refuse (match seen_org seen with Some o => negb (bool_decide (o = po_orgId p)) | None => false end = true)
    with "APPROVAL_POLICYSET_ORG_MISMATCH" ;;
  let ids := po_policyId p :: seen_ids seen in
  match po_threshold p with
  | None =>
      refuse (po_operationType p ∈ seen_catchAll seen) with "APPROVAL_POLICY_DUPLICATE" ;;
      Ok (MkSeen ids (Some (po_orgId p)) (po_operationType p :: seen_catchAll seen) (seen_thresholds seen))
  | Some t =>
      let key := (po_operationType p, th_currency t, minor (th_amountMinor t)) in
      refuse (key ∈ seen_thresholds seen) with "APPROVAL_POLICY_DUPLICATE" ;;
      Ok (MkSeen ids (Some (po_orgId p)) (seen_catchAll seen) (key :: seen_thresholds seen))
  end.

Definition assertPolicySet (policies : list ApprovalPolicy) : result SeenPolicies :=
  foldM policyStep (MkSeen [] None [] []) policies.

(** ** Evaluation *)

Record ApprovalEvalRequest := MkEval {
  er_orgId : Uuid;
  er_operationType : string;
  er_amountMinor : option number;
  er_currency : option Currency;
}.

Record ApprovalRequirementEvidence := MkEvidence {
  ev_orgId : Uuid;
  ev_policyId : Uuid;
  ev_operationType : string;
  ev_always : bool;
  ev_amountMinor : option Z;
  ev_currency : option Currency;
  ev_threshold : option ApprovalThreshold;
  ev_requiredApproverRoles : list string;
  ev_quorum : number;
  ev_ttlDays : number;
  ev_evaluatedAt : string;
}.

Inductive ApprovalRequirement :=
| noPolicyMatch
| requiresApproval (matchedPolicy : ApprovalPolicy) (evidence : ApprovalRequirementEvidence).

(** The policy governs the request: a catch-all always, a gate from its threshold on
    and in its own currency. *)
Definition governs (amount : option Z) (currency : option Currency) (p : ApprovalPolicy) : bool :=
  match po_threshold p with
  | None => true
  | Some t =>
      match amount with
      | Some a => bool_decide (currency = Some (th_currency t)) && (minor (th_amountMinor t) <=? a)
      | None => false
      end
  end.

(** [threshold?.amountMinor ?? -1] *)
Definition specificity (p : ApprovalPolicy) : Z :=
  match po_threshold p with Some t => minor (th_amountMinor t) | None => -1 end.

Definition moreSpecific (best p : ApprovalPolicy) : ApprovalPolicy :=
  if specificity best <? specificity p then p else best.

Definition evaluateApprovalRequirement (policies : list ApprovalPolicy) (request : ApprovalEvalRequest) (clock : Clock)
  : result ApprovalRequirement :=
  _ ← assertPolicySet policies;
  refuse (isNonBlank (er_orgId request) = false) with "APPROVAL_ORG_REQUIRED" ;;
  refuse (er_operationType request ∉ OPERATION_TYPES) with "APPROVAL_OPERATION_INVALID" ;;
  refuse (is_Some (er_amountMinor request) <-> ~ is_Some (er_currency request)) with "APPROVAL_AMOUNT_INVALID" ;;
  refuse (match er_amountMinor request with Some a => badInteger a 0 | None => false end = true) with "APPROVAL_AMOUNT_INVALID" ;;
  refuse (er_operationType request ∈ AMOUNT_REQUIRED_OPERATIONS /\ er_amountMinor request = None) with "APPROVAL_AMOUNT_REQUIRED" ;;
  refuse (match policies with p :: _ => negb (bool_decide (po_orgId p = er_orgId request)) | [] => false end = true)
    with "APPROVAL_POLICYSET_ORG_MISMATCH" ;;
  let evaluatedAt := toISOString (clock 0%nat) in
  let candidates := List.filter (fun p => bool_decide (po_operationType p = er_operationType request)) policies in
  let amount := minor <$> er_amountMinor request in
  match List.filter (governs amount (er_currency request)) candidates with
  | [] => Ok noPolicyMatch
  | p :: rest =>
      let winner := foldl moreSpecific p rest in
      Ok (requiresApproval winner
            (MkEvidence (er_orgId request) (po_policyId winner) (po_operationType winner)
               (bool_decide (po_threshold winner = None)) amount (er_currency request) (po_threshold winner)
               (po_requiredApproverRoles winner) (po_quorum winner) (po_ttlDays winner) evaluatedAt))
  end.

(** [defineApprovalPolicy] and [definePolicySet] validate and copy. *)
Definition defineApprovalPolicy (p : ApprovalPolicy) : result ApprovalPolicy :=
  _ ← assertApprovalPolicy p; Ok p.

Definition definePolicySet (policies : list ApprovalPolicy) : result (list ApprovalPolicy) :=
  _ ← assertPolicySet policies; traverse defineApprovalPolicy policies.

(** ** What validation establishes *)

Lemma badInteger_false x low : badInteger x low = false <-> exists z, safeInteger x = Some z /\ low <= z.
Proof.
  unfold badInteger. destruct (safeInteger x) as [z|]; [|naive_solver].
  rewrite Z.ltb_ge. naive_solver.
Qed.

Record policy_valid (p : ApprovalPolicy) : Prop := {
  pv_operation : po_operationType p ∈ OPERATION_TYPES;
  pv_threshold : forall t, po_threshold p = Some t -> 0 <= minor (th_amountMinor t);
  pv_roles_distinct : NoDup (po_requiredApproverRoles p);
  pv_roles_named : Forall (fun role => isNonBlank role = true) (po_requiredApproverRoles p);
  pv_quorum : 1 <= minor (po_quorum p) <= Z.of_nat (length (po_requiredApproverRoles p));
  pv_ttl : 1 <= minor (po_ttlDays p);
}.

Lemma assertApprovalPolicy_valid p u : assertApprovalPolicy p = Ok u -> policy_valid p.
Proof.
  unfold assertApprovalPolicy. intros H. repeat step_ok.
  rewrite not_true_iff_false in N2, N6, N8. rewrite not_false_iff_true in N4.
  apply badInteger_false in N6 as (q & Eq & Hq), N8 as (t & Et & Ht).
  split; [done| |done|by apply forallb_Forall| |].
  - intros th E. rewrite E in N2. apply badInteger_false in N2 as (z & Ez & Hz). unfold minor. by rewrite Ez.
  - unfold minor in *. rewrite Eq in *. cbn in *. lia.
  - unfold minor. by rewrite Et.
Qed.

(** The gate a policy puts on its operation: a catch-all or a threshold. *)
Definition gate (p : ApprovalPolicy) : string * option (Currency * Z) :=
  (po_operationType p, (fun t => (th_currency t, minor (th_amountMinor t))) <$> po_threshold p).

Definition seen_gate (seen : SeenPolicies) (g : string * option (Currency * Z)) : Prop :=
  match g.2 with
  | None => g.1 ∈ seen_catchAll seen
  | Some (c, a) => (g.1, c, a) ∈ seen_thresholds seen
  end.

(** A set as the loop leaves it: every policy valid, one organisation, no id twice
    and no gate twice. *)
Record set_valid (seen : SeenPolicies) (policies : list ApprovalPolicy) : Prop := {
  sv_each : Forall (fun p => assertApprovalPolicy p = Ok tt) policies;
  sv_ids : NoDup (po_policyId <$> policies);
  sv_fresh_ids : Forall (fun p => po_policyId p ∉ seen_ids seen) policies;
  sv_org : exists org, from_option (eq org) True (seen_org seen) /\ Forall (fun p => po_orgId p = org) policies;
  sv_gates : NoDup (gate <$> policies);
  sv_fresh_gates : Forall (fun p => ~ seen_gate seen (gate p)) policies;
}.

Definition see (seen : SeenPolicies) (p : ApprovalPolicy) : SeenPolicies :=
  match po_threshold p with
  | None => MkSeen (po_policyId p :: seen_ids seen) (Some (po_orgId p)) (po_operationType p :: seen_catchAll seen) (seen_thresholds seen)
  | Some t => MkSeen (po_policyId p :: seen_ids seen) (Some (po_orgId p)) (seen_catchAll seen)
      ((po_operationType p, th_currency t, minor (th_amountMinor t)) :: seen_thresholds seen)
  end.

Lemma see_gate seen p g : seen_gate (see seen p) g <-> g = gate p \/ seen_gate seen g.
Proof.
  unfold seen_gate, see, gate. destruct g as [op [[c a]|]], (po_threshold p) as [t|]; cbn; set_solver.
Qed.

Lemma see_id seen p id : id ∈ seen_ids (see seen p) <-> id = po_policyId p \/ id ∈ seen_ids seen.
Proof. unfold see. destruct (po_threshold p); cbn; apply elem_of_cons. Qed.

Lemma see_org seen p : seen_org (see seen p) = Some (po_orgId p).
Proof. unfold see. by destruct (po_threshold p). Qed.

Lemma policyStep_Ok seen p seen' : policyStep seen p = Ok seen' <->
  assertApprovalPolicy p = Ok tt /\ po_policyId p ∉ seen_ids seen /\
  from_option (eq (po_orgId p)) True (seen_org seen) /\ ~ seen_gate seen (gate p) /\ seen' = see seen p.
Proof.
  unfold policyStep, see, seen_gate, gate. rewrite bind_Ok. split.
  - intros ([] & Hv & H). split; [done|]. repeat (case_decide; [discriminate H|]). split; [done|].
    destruct (seen_org seen) as [o|]; cbn; [case_bool_decide as E; [symmetry in E|done]|].
    all: destruct (po_threshold p) as [t|]; cbn; case_decide; [discriminate H| |discriminate H|]; by injection H.
  - intros (Hv & Hid & Ho & Hg & ->). exists tt. split; [exact Hv|].
    rewrite decide_False by exact Hid. rewrite decide_False.
    2: { destruct (seen_org seen) as [o|]; cbn in *; [|done]. subst. by rewrite bool_decide_true. }
    destruct (po_threshold p) as [t|]; cbn in *; by rewrite decide_False.
Qed.

Lemma foldM_policyStep policies : forall seen,
  (exists seen', foldM policyStep seen policies = Ok seen') <-> set_valid seen policies.
Proof.
  induction policies as [|p l IH]; intros seen; cbn [foldM].
  - split; [intros _|by eexists]. split; try constructor.
    exists (default "" (seen_org seen)). by destruct (seen_org seen).
  - split.
    + intros (s & H). apply bind_Ok in H as (seen' & (Hv & Hid & Ho & Hg & ->)%policyStep_Ok & H).
      destruct (proj1 (IH (see seen p))) as [He Hi Hf (o & Eo & Hos) Hgs Hfg]; [by eexists|].
      rewrite see_org in Eo. cbn in Eo. subst o. split; cbn [fmap list_fmap].
      * by constructor.
      * constructor; [|done]. intros (q & E & Hq)%list_elem_of_fmap.
        rewrite Forall_forall in Hf. apply (Hf q Hq). rewrite see_id. by left.
      * constructor; [done|]. eapply Forall_impl; [exact Hf|]. cbn. intros q Hq N. apply Hq. rewrite see_id. by right.
      * exists (po_orgId p). split; [done|]. by constructor.
      * constructor; [|done]. intros (q & E & Hq)%list_elem_of_fmap.
        rewrite Forall_forall in Hfg. apply (Hfg q Hq). rewrite see_gate. by left.
      * constructor; [done|]. eapply Forall_impl; [exact Hfg|]. cbn. intros q Hq N. apply Hq. rewrite see_gate. by right.
    + intros [He Hi Hf (o & Eo & Hos) Hgs Hfg]. cbn [fmap list_fmap] in *.
      inversion_clear He as [|? ? Hv He']. inversion_clear Hf as [|? ? Hid Hf']. inversion_clear Hos as [|? ? Ho Hos']. inversion_clear Hfg as [|? ? Hg Hfg'].
      apply NoDup_cons in Hi as [Hip Hi], Hgs as [Hgp Hgs]. subst o.
      assert (policyStep seen p = Ok (see seen p)) as Hs by (by apply policyStep_Ok).
      destruct (proj2 (IH (see seen p))) as (s & H); [|exists s; apply bind_Ok; by eexists].
      split; try done.
      * rewrite Forall_forall in *. intros q Hq. rewrite see_id. intros [E|E]; [|by apply (Hf' q Hq)].
        apply Hip. apply list_elem_of_fmap. by exists q.
      * exists (po_orgId p). by rewrite see_org.
      * rewrite Forall_forall in *. intros q Hq. rewrite see_gate. intros [E|E]; [|by apply (Hfg' q Hq)].
        apply Hgp. apply list_elem_of_fmap. by exists q.
Qed.

Definition nothing_seen : SeenPolicies := MkSeen [] None [] [].

Lemma assertPolicySet_Ok policies : (exists seen, assertPolicySet policies = Ok seen) <-> set_valid nothing_seen policies.
Proof. apply foldM_policyStep. Qed.

#[export] Instance set_valid_perm seen : Proper ((≡ₚ) ==> iff) (set_valid seen).
Proof.
  assert (forall l l', l ≡ₚ l' -> set_valid seen l -> set_valid seen l') as H.
  { intros l l' Hp [He Hi Hf (o & Eo & Ho) Hg Hfg]. split; rewrite <- ?Hp; try done. exists o. by rewrite <- Hp. }
  intros l l' Hp. split; apply H; [done|by symmetry].
Qed.

(** ** Evaluation *)

(** The policy demands approval of the request. *)
Definition applies (request : ApprovalEvalRequest) (p : ApprovalPolicy) : Prop :=
  po_operationType p = er_operationType request /\ governs (minor <$> er_amountMinor request) (er_currency request) p = true.

Lemma most_specific rest : forall p,
  foldl moreSpecific p rest ∈ p :: rest /\
  Forall (fun q => specificity q <= specificity (foldl moreSpecific p rest)) (p :: rest).
Proof.
  induction rest as [|q rest IH]; intros p; cbn [foldl]; [split; [by left|by repeat constructor]|].
  destruct (IH (moreSpecific p q)) as [Hin Hle]. inversion_clear Hle as [|? ? H1 H2].
  unfold moreSpecific in *. destruct (Z.ltb_spec (specificity p) (specificity q)); (split; [set_solver|]);
    (constructor; [|constructor]); (exact H2 || lia).
Qed.

Lemma applies_distinct request policies p q : set_valid nothing_seen policies ->
  p ∈ policies -> q ∈ policies -> applies request p -> applies request q -> specificity p = specificity q -> p = q.
Proof.
  intros [He _ _ _ Hg _] Hp Hq [Op Gp] [Oq Gq] E. apply (NoDup_fmap_elem gate policies); try done.
  rewrite Forall_forall in He.
  pose proof (assertApprovalPolicy_valid _ _ (He p Hp)) as [_ Tp _ _ _ _].
  pose proof (assertApprovalPolicy_valid _ _ (He q Hq)) as [_ Tq _ _ _ _].
  unfold gate, governs, specificity in *.
  destruct (po_threshold p) as [tp|], (po_threshold q) as [tq|]; cbn in *; try (by rewrite Op, Oq).
  - destruct (minor <$> er_amountMinor request) as [a|]; [|discriminate].
    apply andb_true_iff in Gp as [Cp%bool_decide_eq_true _], Gq as [Cq%bool_decide_eq_true _]. congruence.
  - specialize (Tp _ eq_refl). lia.
  - specialize (Tq _ eq_refl). lia.
Qed.

(** The request is well formed for a set of policies: the guards of the evaluation
    after the set has been checked. *)
Definition eval_guards (policies : list ApprovalPolicy) (request : ApprovalEvalRequest) : Prop :=
  isNonBlank (er_orgId request) = true /\ er_operationType request ∈ OPERATION_TYPES /\
  (is_Some (er_amountMinor request) <-> is_Some (er_currency request)) /\
  (forall a, er_amountMinor request = Some a -> badInteger a 0 = false) /\
  (er_operationType request ∈ AMOUNT_REQUIRED_OPERATIONS -> is_Some (er_amountMinor request)) /\
  Forall (fun p => po_orgId p = er_orgId request) policies.

Lemma matched_elem request policies p :
  p ∈ List.filter (governs (minor <$> er_amountMinor request) (er_currency request))
        (List.filter (fun p => bool_decide (po_operationType p = er_operationType request)) policies) <->
  p ∈ policies /\ applies request p.
Proof.
  rewrite !list_elem_of_In, !filter_In, bool_decide_eq_true, <- list_elem_of_In. unfold applies. tauto.
Qed.

Definition evidence_of (request : ApprovalEvalRequest) (evaluatedAt : string) (w : ApprovalPolicy) : ApprovalRequirementEvidence :=
  MkEvidence (er_orgId request) (po_policyId w) (po_operationType w) (bool_decide (po_threshold w = None))
    (minor <$> er_amountMinor request) (er_currency request) (po_threshold w) (po_requiredApproverRoles w) (po_quorum w)
    (po_ttlDays w) evaluatedAt.

(** What an evaluation must answer. *)
Definition requirement_spec (policies : list ApprovalPolicy) (request : ApprovalEvalRequest) (t : Date) (r : ApprovalRequirement) : Prop :=
  match r with
  | noPolicyMatch => Forall (fun p => ~ applies request p) policies
  | requiresApproval w ev => ev = evidence_of request (toISOString t) w /\ w ∈ policies /\ applies request w /\
      Forall (fun p => applies request p -> p = w \/ specificity p < specificity w) policies
  end.

Lemma requirement_spec_unique policies request t r r' : set_valid nothing_seen policies ->
  requirement_spec policies request t r -> requirement_spec policies request t r' -> r = r'.
Proof.
  intros Hv. destruct r as [|w ev], r' as [|w' ev']; cbn; rewrite ?Forall_forall; [done| | |].
  - intros Hn (_ & Hw & Ha & _). by destruct (Hn w').
  - intros (_ & Hw & Ha & _) Hn. by destruct (Hn w).
  - intros (-> & Hw & Ha & Hmax) (-> & Hw' & Ha' & Hmax').
    destruct (Hmax w' Hw' Ha') as [->|]; [done|]. destruct (Hmax' w Hw Ha) as [->|]; [done|lia].
Qed.

Lemma first_org policies org : (exists o, Forall (fun p => po_orgId p = o) policies) ->
  match policies with p :: _ => negb (bool_decide (po_orgId p = org)) | [] => false end = false <->
  Forall (fun p => po_orgId p = org) policies.
Proof.
  intros [o Ho]. destruct policies as [|p l]; [done|]. rewrite negb_false_iff, bool_decide_eq_true. split.
  - intros <-. inversion_clear Ho as [|? ? E Hl]. rewrite E. by constructor.
  - by inversion 1.
Qed.

(** The evaluation after its guards. *)
Definition answer (policies : list ApprovalPolicy) (request : ApprovalEvalRequest) (t : Date) : ApprovalRequirement :=
  match List.filter (governs (minor <$> er_amountMinor request) (er_currency request))
          (List.filter (fun p => bool_decide (po_operationType p = er_operationType request)) policies) with
  | [] => noPolicyMatch
  | p :: rest => let w := foldl moreSpecific p rest in requiresApproval w (evidence_of request (toISOString t) w)
  end.

Lemma evaluate_answer policies request clock r :
  evaluateApprovalRequirement policies request clock = Ok r <->
  set_valid nothing_seen policies /\ eval_guards policies request /\ r = answer policies request (clock 0%nat).
Proof.
  unfold evaluateApprovalRequirement. rewrite bind_Ok.
  split.
  - intros (seen & Hs & H). assert (set_valid nothing_seen policies) as Hv by (apply assertPolicySet_Ok; by exists seen).
    split; [done|]. repeat step_ok. split.
    + apply not_false_iff_true in N. apply not_true_iff_false in N2, N4. unfold eval_guards.
      split; [done|]. split; [done|]. split; [|split; [|split]].
      * destruct (er_amountMinor request), (er_currency request); naive_solver.
      * intros a E. by rewrite E in N2.
      * intros Hop. destruct (er_amountMinor request); [done|]. by destruct N3.
      * apply first_org; [|done]. destruct Hv as [_ _ _ (o & _ & Ho) _ _]. by exists o.
    + unfold answer. destruct (List.filter _ _) as [|p rest]; by apply (inj Ok) in H.
  - intros (Hv & (G1 & G2 & G3 & G4 & G5 & G6) & ->).
    destruct (proj2 (assertPolicySet_Ok policies) Hv) as [seen Hs]. exists seen. split; [done|].
    rewrite G1. rewrite (decide_False (P := true = false)) by done.
    rewrite (decide_False (P := _ ∉ OPERATION_TYPES)) by (intros N; by apply N).
    rewrite (decide_False (P := _ <-> _)) by (destruct (er_amountMinor request), (er_currency request); naive_solver).
    rewrite decide_False by (destruct (er_amountMinor request) as [a|]; [by rewrite (G4 a)|done]).
    rewrite decide_False by (intros [Hop E]; apply G5 in Hop; rewrite E in Hop; by destruct Hop).
    rewrite decide_False.
    2: { rewrite (proj2 (first_org policies (er_orgId request) (ex_intro _ _ G6)) G6). done. }
    unfold answer. by destruct (List.filter _ _).
Qed.

Lemma answer_spec policies request t : set_valid nothing_seen policies ->
  requirement_spec policies request t (answer policies request t).
Proof.
  intros Hv. pose proof (matched_elem request policies) as Hm. unfold answer. destruct (List.filter _ _) as [|p rest]; cbn.
  - apply Forall_forall. intros q Hq Ha. apply (not_elem_of_nil q). by apply Hm.
  - destruct (most_specific rest p) as [Hin Hle]. pose proof (proj1 (Hm _) Hin) as [Hw Ha].
    split; [done|]. split; [done|]. split; [done|]. rewrite Forall_forall in *. intros q Hq Hqa.
    specialize (Hle q (proj2 (Hm q) (conj Hq Hqa))). apply Z.le_lteq in Hle as [|E]; [by right|left].
    by eapply (applies_distinct request policies).
Qed.

(** An evaluation succeeds exactly on a valid policy set and a well formed request
    of its organisation, where refunds and write-offs must carry their amount. It then
    exempts the operation only if no policy applies, and otherwise answers with the one
    applying policy whose threshold is the highest. *)
Theorem policy_evaluation_exact policies request clock r :
  evaluateApprovalRequirement policies request clock = Ok r <->
  set_valid nothing_seen policies /\ eval_guards policies request /\
  requirement_spec policies request (clock 0%nat) r.
Proof.
  rewrite evaluate_answer. split; intros (Hv & Hg & H); (split; [done|]; split; [done|]).
  - rewrite H. by apply answer_spec.
  - eapply requirement_spec_unique; [done|exact H|by apply answer_spec].
Qed.

(** The order in which an organisation lists its policies never matters. *)
Theorem evaluation_order_independent policies policies' request clock r : policies ≡ₚ policies' ->
  evaluateApprovalRequirement policies request clock = Ok r ->
  evaluateApprovalRequirement policies' request clock = Ok r.
Proof.
  intros Hp. rewrite !evaluate_answer. intros (Hv & Hg & ->).
  assert (set_valid nothing_seen policies') as Hv' by (by rewrite <- Hp).
  split; [done|]. split; [unfold eval_guards in *; by rewrite <- Hp|].
  eapply requirement_spec_unique; [exact Hv|by apply answer_spec|].
  pose proof (answer_spec policies' request (clock 0%nat) Hv') as H. unfold requirement_spec in *.
  destruct (answer policies' request (clock 0%nat)); by rewrite Hp.
Qed.

Lemma definePolicySet_Ok policies l : definePolicySet policies = Ok l <-> set_valid nothing_seen policies /\ l = policies.
Proof.
  unfold definePolicySet. rewrite bind_Ok. split.
  - intros (seen & Hs & H). assert (set_valid nothing_seen policies) as Hv by (apply assertPolicySet_Ok; by exists seen).
    split; [done|]. apply traverse_Forall2 in H. clear -H. induction H as [|p q ps qs H Hl IH]; [done|].
    apply bind_Ok in H as (? & _ & [= <-]). by f_equal.
  - intros (Hv & ->). destruct (proj2 (assertPolicySet_Ok policies) Hv) as [seen Hs]. exists seen. split; [done|].
    apply traverse_Forall2. pose proof (sv_each _ _ Hv) as He. clear -He. induction He as [|p l Hp Hl IH]; constructor; [|done].
    unfold defineApprovalPolicy. apply bind_Ok. by exists tt.
Qed.
