(* ===== verification/ApprovalRequest.v ===== *)
(** * Approval requests

    src/domain/approvals/request.ts and events.ts: the maker-checker aggregate.  A
    governance refusal is a value with an event, a malformed call an error; the
    human-readable [detail] of a refusal is not modelled.  The expiry is a sum of whole
    milliseconds: exact in doubles as far as dates reach, and an invalid date beyond,
    whose [toISOString] throws. *)

From stdpp Require Import prelude strings list.
From Stdlib Require Import ZArith Lia.
From S2P Require Import Prelude JsNumber JsString JsDate Money Events ApprovalPolicy.
Local Open Scope string_scope.
Local Open Scope list_scope.
Local Open Scope Z_scope.
Local Open Scope js_scope.

(** ** Lifecycle *)

Inductive ApprovalStatus := drafted | pending | approved | rejected | expired | cancelled | applied.
#[export] Instance ApprovalStatus_eq_dec : EqDecision ApprovalStatus.
Proof. solve_decision. Defined.

Definition APPROVAL_TRANSITIONS (from : ApprovalStatus) : list ApprovalStatus :=
  match from with
  | drafted => [pending]
  | pending => [approved; rejected; expired; cancelled]
  | approved => [applied]
  | rejected | expired | cancelled | applied => []
  end.

Definition MANUAL_TARGETS : list ApprovalStatus := [cancelled].

Record PayloadSnapshot := MkSnapshot {
  sn_amountMinor : option number;
  sn_currency : option Currency;
  sn_summary : string;
}.

Record ApprovalDecisionRecord := MkDecision {
  de_approverId : string;
  de_matchedRoles : list string;
  de_decidedAt : Date;
}.

Record ApprovalRequest := MkRequest {
  approvalRequestId : Uuid;
  ar_orgId : Uuid;
  ar_operationType : string;
  ar_policyId : Uuid;
  subjectRefs : list Uuid;
  payloadSnapshot : PayloadSnapshot;
  requesterId : string;
  state : ApprovalStatus;
  requiredApproverRoles : list string;
  quorum : number;
  createdAt : Date;
  expiresAt : Date;
  submittedAt : option Date;
  approvedAt : option Date;
  rejectedAt : option Date;
  rejectedReason : option string;
  expiredAt : option Date;
  cancelledAt : option Date;
  cancelledBy : option string;
  appliedAt : option Date;
  decisions : list ApprovalDecisionRecord;
}.
#[export] Instance ApprovalRequest_eta : Eta ApprovalRequest := fun r =>
  MkRequest (approvalRequestId r) (ar_orgId r) (ar_operationType r) (ar_policyId r) (subjectRefs r) (payloadSnapshot r)
    (requesterId r) (state r) (requiredApproverRoles r) (quorum r) (createdAt r) (expiresAt r) (submittedAt r)
    (approvedAt r) (rejectedAt r) (rejectedReason r) (expiredAt r) (cancelledAt r) (cancelledBy r) (appliedAt r) (decisions r).

(** ** Events and refusals *)

Inductive ApprovalRefusalOperation := submit_op | approve_op | reject_op | expire_op | cancel_op | apply_op.

Inductive ApprovalPayload :=
| RequestCreatedPayload (orgId id : Uuid) (operationType : string) (policyId : Uuid) (subjects : list Uuid)
    (snapshot : PayloadSnapshot) (requester : string) (roles : list string) (quorum ttlDays : number) (expiresAt createdAt : string)
| QuorumMetPayload (orgId id : Uuid) (operationType : string) (quorum : number) (distinctApproverCount : Z) (metAt : string)
| ApprovedPayload (orgId id : Uuid) (operationType : string) (quorum : number) (distinctApproverCount : Z) (approvedAt : string)
| RejectedPayload (orgId id : Uuid) (operationType : string) (rejectedBy reason rejectedAt : string)
| ExpiredPayload (orgId id : Uuid) (operationType : string) (expiresAt expiredAt : string)
| CancelledPayload (orgId id : Uuid) (operationType : string) (cancelledBy cancelledAt : string)
| AppliedPayload (orgId id : Uuid) (operationType : string) (appliedAt : string)
| DecisionRefusedPayload (orgId id : Uuid) (operationType : string) (attempted : ApprovalRefusalOperation)
    (attemptedBy : option string) (reasonCode : string).
Notation ApprovalLaneEvent := (DomainEvent ApprovalPayload).

Record ApprovalRefusal := MkRefusal {
  rf_operation : ApprovalRefusalOperation;
  rf_reasonCode : string;
  rf_attemptedBy : option string;
}.

(** The refused half of both result types: the unchanged aggregate, the refusal and
    its event. *)
Record Declined := MkDeclined {
  dc_request : ApprovalRequest;
  dc_refusal : ApprovalRefusal;
  dc_event : ApprovalLaneEvent;
}.

Inductive ApprovalOperationResult :=
| accepted (request : ApprovalRequest) (events : list ApprovalLaneEvent)
| declined (d : Declined).

(** [at(now)]: a clock frozen to one instant. *)
Definition at_ (instant : Date) : Clock := fixed_clock instant.

(** The helper [refuse] of the source. *)
Definition decline (r : ApprovalRequest) (operation : ApprovalRefusalOperation) (attemptedBy : option string)
    (code : string) (now : Date) : Declined :=
  MkDeclined r (MkRefusal operation code attemptedBy)
    (domainEvent "approvals.decisionRefused" (approvalRequestId r)
       (DecisionRefusedPayload (ar_orgId r) (approvalRequestId r) (ar_operationType r) operation attemptedBy code) (at_ now)).

Definition stateRefusalFor (r : ApprovalRequest) (now : Date) (fallbackCode : string) : option string :=
  match state r with
  | pending => if decide (now > expiresAt r) then Some "APPROVAL_REQUEST_EXPIRED" else None
  | expired => Some "APPROVAL_REQUEST_EXPIRED"
  | cancelled => Some "APPROVAL_REQUEST_CANCELLED"
  | _ => Some fallbackCode
  end.

(** ** Opening *)

Definition SUMMARY_MAX_CHARS : Z := 512.

Definition validateSnapshot (s : PayloadSnapshot) : result unit :=
  refuse (isNonBlank (sn_summary s) = false) with "APPROVAL_SUMMARY_REQUIRED" ;;
  refuse (Z.of_nat (String.length (sn_summary s)) > SUMMARY_MAX_CHARS) with "APPROVAL_SUMMARY_TOO_LONG" ;;
  refuse (is_Some (sn_amountMinor s) <-> ~ is_Some (sn_currency s)) with "APPROVAL_AMOUNT_INVALID" ;;
  refuse (match sn_amountMinor s with Some a => badInteger a 0 | None => false end = true) with "APPROVAL_AMOUNT_INVALID" ;;
  Ok tt.

Record OpenApprovalRequestArgs := MkOpenRequest {
  oa_approvalRequestId : Uuid;
  oa_orgId : Uuid;
  oa_operationType : string;
  oa_subjectRefs : list Uuid;
  oa_payloadSnapshot : PayloadSnapshot;
  oa_requesterId : string;
}.

Definition openApprovalRequest (args : OpenApprovalRequestArgs) (policy : ApprovalPolicy) (clock : Clock)
  : result (ApprovalRequest * ApprovalLaneEvent) :=
  let created := clock 0%nat in
  refuse (isNonBlank (oa_approvalRequestId args) = false) with "APPROVAL_ID_REQUIRED" ;;
  refuse (isNonBlank (oa_orgId args) = false) with "APPROVAL_ORG_REQUIRED" ;;
  _ ← assertApprovalPolicy policy;
  refuse (po_orgId policy <> oa_orgId args) with "APPROVAL_POLICY_ORG_MISMATCH" ;;
  refuse (oa_operationType args ∉ OPERATION_TYPES) with "APPROVAL_OPERATION_INVALID" ;;
  refuse (oa_operationType args <> po_operationType policy) with "APPROVAL_OPERATION_MISMATCH" ;;
  refuse (oa_subjectRefs args = []) with "APPROVAL_SUBJECTS_REQUIRED" ;;
  refuse (forallb isNonBlank (oa_subjectRefs args) = false) with "APPROVAL_SUBJECT_INVALID" ;;
  refuse (¬ NoDup (oa_subjectRefs args)) with "APPROVAL_SUBJECT_DUPLICATE" ;;
  _ ← validateSnapshot (oa_payloadSnapshot args);
  refuse (oa_operationType args ∈ AMOUNT_REQUIRED_OPERATIONS /\ sn_amountMinor (oa_payloadSnapshot args) = None)
    with "APPROVAL_AMOUNT_REQUIRED" ;;
  refuse (isNonBlank (oa_requesterId args) = false) with "APPROVAL_REQUESTER_REQUIRED" ;;
  let expires := created + minor (po_ttlDays policy) * DAY_MS in
  let r := MkRequest (oa_approvalRequestId args) (oa_orgId args) (oa_operationType args) (po_policyId policy)
    (oa_subjectRefs args) (oa_payloadSnapshot args) (oa_requesterId args) drafted (po_requiredApproverRoles policy)
    (po_quorum policy) created expires None None None None None None None None [] in
  if decide (MAX_TIME < Z.abs expires) then Err RangeError else
  Ok (r, domainEvent "approvals.requestCreated" (approvalRequestId r)
           (RequestCreatedPayload (ar_orgId r) (approvalRequestId r) (ar_operationType r) (ar_policyId r) (subjectRefs r)
              (payloadSnapshot r) (requesterId r) (requiredApproverRoles r) (quorum r) (po_ttlDays policy)
              (toISOString expires) (toISOString created))
           (clock_after 1 clock)).

(** ** Submitting *)

Definition submitApprovalRequest (r : ApprovalRequest) (clock : Clock) : ApprovalOperationResult :=
  let now := clock 0%nat in
  if decide (state r = drafted /\ now > expiresAt r) then declined (decline r submit_op None "APPROVAL_REQUEST_EXPIRED" now)
  else if decide (state r = expired) then declined (decline r submit_op None "APPROVAL_REQUEST_EXPIRED" now)
  else if decide (state r = cancelled) then declined (decline r submit_op None "APPROVAL_REQUEST_CANCELLED" now)
  else if decide (state r <> drafted) then declined (decline r submit_op None "APPROVAL_NOT_DRAFTED" now)
  else accepted (r <| state := pending |> <| submittedAt := Some now |>) [].

(** ** Approving *)

Definition matchedRolesOf (required held : list string) : list string :=
  sort_by string_cmp (distinct (List.filter (fun role => bool_decide (role ∈ held)) required)).

Definition approve (r : ApprovalRequest) (approverId : string) (roleIds : list string) (clock : Clock)
  : result ApprovalOperationResult :=
  let decidedAt := clock 0%nat in
  refuse (isNonBlank approverId = false) with "APPROVAL_APPROVER_REQUIRED" ;;
  refuse (forallb isNonBlank roleIds = false) with "APPROVAL_APPROVER_ROLES_INVALID" ;;
  match stateRefusalFor r decidedAt "APPROVAL_NOT_PENDING" with
  | Some code => Ok (declined (decline r approve_op (Some approverId) code decidedAt))
  | None =>
      if decide (approverId = requesterId r)
      then Ok (declined (decline r approve_op (Some approverId) "APPROVAL_SELF_APPROVAL_REFUSED" decidedAt)) else
      let matchedRoles := matchedRolesOf (requiredApproverRoles r) roleIds in
      if decide (matchedRoles = [])
      then Ok (declined (decline r approve_op (Some approverId) "APPROVAL_ROLE_NOT_HELD" decidedAt)) else
      if decide (approverId ∈ (de_approverId <$> decisions r))
      then Ok (declined (decline r approve_op (Some approverId) "APPROVAL_APPROVER_DUPLICATE" decidedAt)) else
      let log := decisions r ++ [MkDecision approverId matchedRoles decidedAt] in
      let count := Z.of_nat (length log) in
      if decide (count < minor (quorum r)) then Ok (accepted (r <| decisions := log |>) []) else
      Ok (accepted (r <| decisions := log |> <| state := approved |> <| approvedAt := Some decidedAt |>)
            [domainEvent "approvals.quorumMet" (approvalRequestId r)
               (QuorumMetPayload (ar_orgId r) (approvalRequestId r) (ar_operationType r) (quorum r) count (toISOString decidedAt))
               (at_ decidedAt);
             domainEvent "approvals.approved" (approvalRequestId r)
               (ApprovedPayload (ar_orgId r) (approvalRequestId r) (ar_operationType r) (quorum r) count (toISOString decidedAt))
               (at_ decidedAt)])
  end.

(** ** Rejecting *)

Definition reject (r : ApprovalRequest) (rejectedBy reason_ : string) (clock : Clock) : result ApprovalOperationResult :=
  let now := clock 0%nat in
  refuse (isNonBlank rejectedBy = false) with "APPROVAL_ACTOR_REQUIRED" ;;
  refuse (isNonBlank reason_ = false) with "APPROVAL_REASON_REQUIRED" ;;
  match stateRefusalFor r now "APPROVAL_NOT_PENDING" with
  | Some code => Ok (declined (decline r reject_op (Some rejectedBy) code now))
  | None =>
      let reason := trim reason_ in
      Ok (accepted (r <| state := rejected |> <| rejectedAt := Some now |> <| rejectedReason := Some reason |>)
            [domainEvent "approvals.rejected" (approvalRequestId r)
               (RejectedPayload (ar_orgId r) (approvalRequestId r) (ar_operationType r) rejectedBy reason (toISOString now)) (at_ now)])
  end.

(** ** Expiring *)

Definition expireApprovalRequest (r : ApprovalRequest) (clock : Clock) : ApprovalOperationResult :=
  let now := clock 0%nat in
  if decide (state r <> pending) then declined (decline r expire_op None "APPROVAL_NOT_PENDING" now)
  else if decide (now <= expiresAt r) then declined (decline r expire_op None "APPROVAL_EXPIRY_NOT_DUE" now)
  else accepted (r <| state := expired |> <| expiredAt := Some now |>)
         [domainEvent "approvals.expired" (approvalRequestId r)
            (ExpiredPayload (ar_orgId r) (approvalRequestId r) (ar_operationType r) (toISOString (expiresAt r)) (toISOString now))
            (at_ now)].

(** ** Cancelling *)

Definition transitionApproval (r : ApprovalRequest) (to : ApprovalStatus) (actorId : string) (clock : Clock)
  : result ApprovalOperationResult :=
  refuse (to ∉ MANUAL_TARGETS) with "APPROVAL_TRANSITION_NOT_AUTOMATIC" ;;
  refuse (isNonBlank actorId = false) with "APPROVAL_ACTOR_REQUIRED" ;;
  let now := clock 0%nat in
  let illegal := bool_decide (to ∉ APPROVAL_TRANSITIONS (state r)) in
  match stateRefusalFor r now "APPROVAL_NOT_PENDING" with
  | Some code =>
      if decide (state r = expired \/ state r = cancelled) then Ok (declined (decline r cancel_op (Some actorId) code now)) else
      refuse (illegal = true) with "APPROVAL_TRANSITION_INVALID" ;;
      Ok (declined (decline r cancel_op (Some actorId) code now))
  | None =>
      refuse (illegal = true) with "APPROVAL_TRANSITION_INVALID" ;;
      if decide (actorId <> requesterId r)
      then Ok (declined (decline r cancel_op (Some actorId) "APPROVAL_CANCEL_NOT_REQUESTER" now)) else
      Ok (accepted (r <| state := cancelled |> <| cancelledAt := Some now |> <| cancelledBy := Some actorId |>)
            [domainEvent "approvals.cancelled" (approvalRequestId r)
               (CancelledPayload (ar_orgId r) (approvalRequestId r) (ar_operationType r) actorId (toISOString now)) (at_ now)])
  end.

Definition cancelApprovalRequest (r : ApprovalRequest) (clock : Clock) : result ApprovalOperationResult :=
  transitionApproval r cancelled (requesterId r) clock.

(** ** Applying *)

Record ApprovalEvidence := MkEvidence {
  ae_approvalRequestId : Uuid;
  ae_orgId : Uuid;
  ae_operationType : string;
  ae_policyId : Uuid;
  ae_subjectRefs : list Uuid;
  ae_payloadSnapshot : PayloadSnapshot;
  ae_requesterId : string;
  ae_requiredApproverRoles : list string;
  ae_quorum : number;
  ae_distinctApproverCount : Z;
  ae_decisions : list (string * list string * string);
  ae_createdAt : string;
  ae_expiresAt : string;
  ae_approvedAt : string;
  ae_appliedAt : string;
}.

Inductive ApplyResult :=
| apply_accepted (request : ApprovalRequest) (event : ApprovalLaneEvent) (evidence : ApprovalEvidence)
| apply_declined (d : Declined).

Definition evidenceOf (r : ApprovalRequest) (approved_at applied_at : Date) : ApprovalEvidence :=
  MkEvidence (approvalRequestId r) (ar_orgId r) (ar_operationType r) (ar_policyId r) (subjectRefs r) (payloadSnapshot r)
    (requesterId r) (requiredApproverRoles r) (quorum r) (Z.of_nat (length (decisions r)))
    ((fun d => (de_approverId d, de_matchedRoles d, toISOString (de_decidedAt d))) <$> decisions r)
    (toISOString (createdAt r)) (toISOString (expiresAt r)) (toISOString approved_at) (toISOString applied_at).

(** [(request.approvedAt as Date).toISOString()] throws where the stamp is missing,
    which no reachable approved request does. *)
Definition markApplied (r : ApprovalRequest) (clock : Clock) : result ApplyResult :=
  let now := clock 0%nat in
  match state r with
  | pending => Ok (apply_declined (decline r apply_op None "APPROVAL_QUORUM_NOT_MET" now))
  | applied => Ok (apply_declined (decline r apply_op None "APPROVAL_ALREADY_APPLIED" now))
  | approved =>
      match approvedAt r with
      | None => Err PlainError
      | Some t =>
          Ok (apply_accepted (r <| state := applied |> <| appliedAt := Some now |>)
                (domainEvent "approvals.applied" (approvalRequestId r)
                   (AppliedPayload (ar_orgId r) (approvalRequestId r) (ar_operationType r) (toISOString now)) (at_ now))
                (evidenceOf r t now))
      end
  | _ => Ok (apply_declined (decline r apply_op None "APPROVAL_NOT_APPROVED" now))
  end.

(** ** What callers can do *)

Inductive ApprovalOp :=
| op_submit
| op_approve (approverId : string) (roleIds : list string)
| op_reject (rejectedBy reason : string)
| op_expire
| op_transition (to : ApprovalStatus) (actorId : string)
| op_cancel
| op_apply.

Definition outcome (res : ApprovalOperationResult) : ApprovalRequest * list ApprovalLaneEvent :=
  match res with accepted r evs => (r, evs) | declined d => (dc_request d, [dc_event d]) end.

Definition apply_outcome (res : ApplyResult) : ApprovalRequest * list ApprovalLaneEvent :=
  match res with apply_accepted r e _ => (r, [e]) | apply_declined d => (dc_request d, [dc_event d]) end.

Definition run_approval_op (op : ApprovalOp) (clock : Clock) (r : ApprovalRequest)
  : result (ApprovalRequest * list ApprovalLaneEvent) :=
  match op with
  | op_submit => Ok (outcome (submitApprovalRequest r clock))
  | op_approve who roles => res ← approve r who roles clock; Ok (outcome res)
  | op_reject who reason => res ← reject r who reason clock; Ok (outcome res)
  | op_expire => Ok (outcome (expireApprovalRequest r clock))
  | op_transition to actor => res ← transitionApproval r to actor clock; Ok (outcome res)
  | op_cancel => res ← cancelApprovalRequest r clock; Ok (outcome res)
  | op_apply => res ← markApplied r clock; Ok (apply_outcome res)
  end.

Inductive approval_reachable : ApprovalRequest -> Prop :=
| reach_opened args policy clock r e : openApprovalRequest args policy clock = Ok (r, e) -> approval_reachable r
| reach_op op clock r r' evs : approval_reachable r -> run_approval_op op clock r = Ok (r', evs) -> approval_reachable r'.

(** ** The maker-checker rules

    What may happen to a request at an instant, and which events say so. *)

Record can_decide (now : Date) (r : ApprovalRequest) (who : string) (held : list string) : Prop := {
  cd_pending : state r = pending;
  cd_in_time : now <= expiresAt r;
  cd_named : isNonBlank who = true;
  cd_not_the_maker : who <> requesterId r;
  cd_held_named : forallb isNonBlank held = true;
  cd_role : exists role, role ∈ requiredApproverRoles r /\ role ∈ held;
  cd_first : who ∉ (de_approverId <$> decisions r);
}.

Definition with_decision (now : Date) (r : ApprovalRequest) (who : string) (held : list string) : list ApprovalDecisionRecord :=
  decisions r ++ [MkDecision who (matchedRolesOf (requiredApproverRoles r) held) now].

Inductive request_change (now : Date) (r : ApprovalRequest) : ApprovalRequest -> list string -> Prop :=
| change_refused : request_change now r r ["approvals.decisionRefused"]
| change_submit : state r = drafted -> now <= expiresAt r ->
    request_change now r (r <| state := pending |> <| submittedAt := Some now |>) []
| change_decision who held : can_decide now r who held -> Z.of_nat (length (decisions r)) + 1 < minor (quorum r) ->
    request_change now r (r <| decisions := with_decision now r who held |>) []
| change_approve who held : can_decide now r who held -> minor (quorum r) <= Z.of_nat (length (decisions r)) + 1 ->
    request_change now r
      (r <| decisions := with_decision now r who held |> <| state := approved |> <| approvedAt := Some now |>)
      ["approvals.quorumMet"; "approvals.approved"]
| change_reject reason : state r = pending -> now <= expiresAt r -> isNonBlank reason = true ->
    request_change now r (r <| state := rejected |> <| rejectedAt := Some now |> <| rejectedReason := Some (trim reason) |>)
      ["approvals.rejected"]
| change_expire : state r = pending -> expiresAt r < now ->
    request_change now r (r <| state := expired |> <| expiredAt := Some now |>) ["approvals.expired"]
| change_cancel : state r = pending -> now <= expiresAt r -> isNonBlank (requesterId r) = true ->
    request_change now r (r <| state := cancelled |> <| cancelledAt := Some now |> <| cancelledBy := Some (requesterId r) |>)
      ["approvals.cancelled"]
| change_apply t : state r = approved -> approvedAt r = Some t ->
    request_change now r (r <| state := applied |> <| appliedAt := Some now |>) ["approvals.applied"].

(** ** Roles *)

Lemma matchedRolesOf_elem required held role :
  role ∈ matchedRolesOf required held <-> role ∈ required /\ role ∈ held.
Proof.
  unfold matchedRolesOf. rewrite sort_by_perm, distinct_elem, !list_elem_of_In, filter_In, bool_decide_eq_true, <- !list_elem_of_In. done.
Qed.

Lemma matchedRolesOf_nil required held :
  matchedRolesOf required held <> [] <-> exists role, role ∈ required /\ role ∈ held.
Proof.
  setoid_rewrite <- matchedRolesOf_elem. destruct (matchedRolesOf required held) as [|x l]; [set_solver|].
  split; [intros _; exists x; by left|done].
Qed.

Lemma stateRefusalFor_None r now code : stateRefusalFor r now code = None <-> state r = pending /\ now <= expiresAt r.
Proof. unfold stateRefusalFor. destruct (state r); try naive_solver. case_decide; split; naive_solver lia. Qed.

(** ** Every operation follows the rules *)

Definition follows (now : Date) (r : ApprovalRequest) (out : ApprovalRequest * list ApprovalLaneEvent) : Prop :=
  request_change now r out.1 (name <$> out.2).

Lemma decline_follows now r operation who code t : follows now r (outcome (declined (decline r operation who code t))).
Proof. apply change_refused. Qed.
#[local] Hint Resolve decline_follows : core.

Lemma submit_follows clock r : follows (clock 0%nat) r (outcome (submitApprovalRequest r clock)).
Proof.
  unfold submitApprovalRequest. repeat (case_decide; [by auto|]). apply change_submit; [done|].
  apply Z.nlt_ge. intros N. destruct (decide (state r = drafted)); naive_solver lia.
Qed.

Lemma approve_follows r who held clock res : approve r who held clock = Ok res -> follows (clock 0%nat) r (outcome res).
Proof.
  unfold approve. intros H. repeat (case_decide; [discriminate H|]).
  destruct (stateRefusalFor r (clock 0%nat) "APPROVAL_NOT_PENDING") as [code|] eqn:E; [by injection H as <-|].
  apply stateRefusalFor_None in E as [Hp Ht]. do 3 (case_decide; [by injection H as <-|]).
  assert (can_decide (clock 0%nat) r who held) as Hc.
  { split; try done; [by apply not_false_iff_true|by apply not_false_iff_true|by apply matchedRolesOf_nil]. }
  rewrite length_app in H. cbn [length] in H. case_decide; injection H as <-.
  - apply change_decision; [exact Hc|lia].
  - apply change_approve; [exact Hc|lia].
Qed.

Lemma reject_follows r who reason clock res : reject r who reason clock = Ok res -> follows (clock 0%nat) r (outcome res).
Proof.
  unfold reject. intros H. repeat (case_decide; [discriminate H|]).
  destruct (stateRefusalFor r (clock 0%nat) "APPROVAL_NOT_PENDING") as [code|] eqn:E; [by injection H as <-|].
  apply stateRefusalFor_None in E as [Hp Ht]. injection H as <-. apply change_reject; try done. by apply not_false_iff_true.
Qed.

Lemma expire_follows clock r : follows (clock 0%nat) r (outcome (expireApprovalRequest r clock)).
Proof.
  unfold expireApprovalRequest. repeat (case_decide; [by auto|]). apply change_expire; [done|lia].
Qed.

Lemma transition_follows r to actor clock res : transitionApproval r to actor clock = Ok res -> follows (clock 0%nat) r (outcome res).
Proof.
  unfold transitionApproval. intros H. repeat (case_decide; [discriminate H|]).
  destruct (stateRefusalFor r (clock 0%nat) "APPROVAL_NOT_PENDING") as [code|] eqn:E.
  - repeat case_decide; try discriminate H; by injection H as <-.
  - apply stateRefusalFor_None in E as [Hp Ht]. case_decide; [discriminate H|]. case_decide as Ha; [by injection H as <-|].
    subst actor. injection H as <-. apply change_cancel; try done. by apply not_false_iff_true.
Qed.

Lemma markApplied_follows r clock res : markApplied r clock = Ok res -> follows (clock 0%nat) r (apply_outcome res).
Proof.
  unfold markApplied. intros H. destruct (state r) eqn:Es; try (injection H as <-; apply change_refused).
  destruct (approvedAt r) as [t|] eqn:Et; [|discriminate H]. injection H as <-. by eapply change_apply.
Qed.

Lemma run_follows op clock r r' evs : run_approval_op op clock r = Ok (r', evs) -> request_change (clock 0%nat) r r' (name <$> evs).
Proof.
  intros H. change (follows (clock 0%nat) r (r', evs)).
  destruct op; cbn [run_approval_op] in H; try apply bind_Ok in H as (res & E & H); apply (inj Ok) in H; rewrite <- H.
  - apply submit_follows.
  - by eapply approve_follows.
  - by eapply reject_follows.
  - apply expire_follows.
  - by eapply transition_follows.
  - by eapply transition_follows.
  - by eapply markApplied_follows.
Qed.

(** ** and every rule is an operation *)

Lemma approve_decides r who held clock : can_decide (clock 0%nat) r who held -> exists res,
  approve r who held clock = Ok res /\
  if decide (Z.of_nat (length (decisions r)) + 1 < minor (quorum r))
  then outcome res = (r <| decisions := with_decision (clock 0%nat) r who held |>, [])
  else (outcome res).1 = r <| decisions := with_decision (clock 0%nat) r who held |> <| state := approved |> <| approvedAt := Some (clock 0%nat) |> /\
       name <$> (outcome res).2 = ["approvals.quorumMet"; "approvals.approved"].
Proof.
  intros [Hp Ht Hn Hm Hh Hr Hf]. unfold approve. rewrite Hn, Hh. rewrite !(decide_False (P := true = false)) by done.
  rewrite (proj2 (stateRefusalFor_None r (clock 0%nat) "APPROVAL_NOT_PENDING")) by done.
  rewrite decide_False by done. rewrite decide_False by (by apply matchedRolesOf_nil). rewrite decide_False by done.
  rewrite length_app. cbn [length]. replace (Z.of_nat (length (decisions r) + 1)) with (Z.of_nat (length (decisions r)) + 1) by lia.
  case_decide; (eexists; split; [reflexivity|done]).
Qed.

Lemma change_realised now r r' names : (state r = approved -> is_Some (approvedAt r)) -> request_change now r r' names ->
  exists op evs, run_approval_op op (fixed_clock now) r = Ok (r', evs) /\ name <$> evs = names.
Proof.
  intros Hap [|Hs Ht|who held Hc Hq|who held Hc Hq|reason Hs Ht Hr|Hs Ht|Hs Ht Hr|t Hs Ht].
  - destruct (decide (state r = pending)) as [E|E].
    + exists op_submit. eexists. cbn [run_approval_op]. unfold submitApprovalRequest. rewrite E.
      rewrite !decide_False by naive_solver. by rewrite decide_True.
    + exists op_expire. eexists. cbn [run_approval_op]. unfold expireApprovalRequest. by rewrite decide_True.
  - exists op_submit. eexists. cbn [run_approval_op]. unfold submitApprovalRequest, fixed_clock. rewrite Hs.
    rewrite (decide_False (P := _ /\ _)) by lia. by rewrite !decide_False by naive_solver.
  - exists (op_approve who held), []. destruct (approve_decides r who held (fixed_clock now) Hc) as (res & H & Ho).
    rewrite decide_True in Ho by done. cbn [run_approval_op]. rewrite H. cbn [mbind result_bind]. by rewrite Ho.
  - exists (op_approve who held). destruct (approve_decides r who held (fixed_clock now) Hc) as (res & H & Ho).
    rewrite decide_False in Ho by lia. destruct Ho as [Ho Hn]. exists (outcome res).2. cbn [run_approval_op]. rewrite H. cbn [mbind result_bind].
    split; [|exact Hn]. by rewrite (surjective_pairing (outcome res)), Ho.
  - exists (op_reject "x" reason). eexists. cbn [run_approval_op]. unfold reject. rewrite Hr.
    rewrite !(decide_False (P := _ = false)) by done.
    by rewrite (proj2 (stateRefusalFor_None r (fixed_clock now 0%nat) "APPROVAL_NOT_PENDING")).
  - exists op_expire. eexists. cbn [run_approval_op]. unfold expireApprovalRequest, fixed_clock. rewrite decide_False by naive_solver. by rewrite decide_False by lia.
  - exists op_cancel. eexists. cbn [run_approval_op]. unfold cancelApprovalRequest, transitionApproval. rewrite Hr.
    rewrite (decide_False (P := _ ∉ _)) by set_solver. rewrite (decide_False (P := true = false)) by done.
    rewrite (proj2 (stateRefusalFor_None r (fixed_clock now 0%nat) "APPROVAL_NOT_PENDING")) by done.
    rewrite Hs. rewrite (decide_False (P := bool_decide _ = true)) by done. by rewrite decide_False by naive_solver.
  - exists op_apply. eexists. cbn [run_approval_op]. unfold markApplied. by rewrite Hs, Ht.
Qed.

(** ** The invariant *)

(** One checker's decision: not the maker's, by a holder of a required role, in time. *)
Record decision_ok (r : ApprovalRequest) (d : ApprovalDecisionRecord) : Prop := {
  do_named : isNonBlank (de_approverId d) = true;
  do_not_the_maker : de_approverId d <> requesterId r;
  do_role : de_matchedRoles d <> [];
  do_required : forall role, role ∈ de_matchedRoles d -> role ∈ requiredApproverRoles r;
  do_in_time : de_decidedAt d <= expiresAt r;
}.

Definition count_ok (r : ApprovalRequest) : Prop :=
  let n := Z.of_nat (length (decisions r)) in
  match state r with
  | drafted => n = 0
  | approved | applied => n = minor (quorum r)
  | _ => n < minor (quorum r)
  end.

(** The stamps of closing: approved, rejected, why, expired, cancelled, by whom, applied. *)
Definition closing (r : ApprovalRequest) :=
  (approvedAt r, rejectedAt r, rejectedReason r, expiredAt r, cancelledAt r, cancelledBy r, appliedAt r).

(** A request carries exactly the stamps of its state: the approval is dated by the
    deciding checker, a late request was really late, only the maker cancels. *)
Definition stamps_ok (r : ApprovalRequest) : Prop :=
  let approval t := de_decidedAt <$> last (decisions r) = Some t in
  match state r with
  | drafted | pending => closing r = (None, None, None, None, None, None, None)
  | approved => exists t, approval t /\ closing r = (Some t, None, None, None, None, None, None)
  | rejected => exists t why, closing r = (None, Some t, Some why, None, None, None, None)
  | expired => exists t, expiresAt r < t /\ closing r = (None, None, None, Some t, None, None, None)
  | cancelled => exists t, closing r = (None, None, None, None, Some t, Some (requesterId r), None)
  | applied => exists t t', approval t /\ closing r = (Some t, None, None, None, None, None, Some t')
  end.

Record request_wf (r : ApprovalRequest) : Prop := {
  rw_requester : isNonBlank (requesterId r) = true;
  rw_quorum : 1 <= minor (quorum r) <= Z.of_nat (length (requiredApproverRoles r));
  rw_life : createdAt r < expiresAt r;
  rw_checkers : NoDup (de_approverId <$> decisions r);
  rw_decisions : Forall (decision_ok r) (decisions r);
  rw_count : count_ok r;
  rw_stamps : stamps_ok r;
}.

Lemma open_wf args policy clock r e : openApprovalRequest args policy clock = Ok (r, e) -> request_wf r.
Proof.
  unfold openApprovalRequest. intros H. repeat step_ok. rewrite <- H0. clear H H0.
  destruct (assertApprovalPolicy_valid _ _ E) as [_ _ _ _ Hq Ht]. apply not_false_iff_true in N8.
  split; cbn; try done; [unfold DAY_MS; lia|constructor].
Qed.

Lemma decision_checked now r who held : can_decide now r who held ->
  decision_ok r (MkDecision who (matchedRolesOf (requiredApproverRoles r) held) now).
Proof.
  intros [Hp Ht Hn Hm Hh Hr Hf]. split; cbn; try done; [by apply matchedRolesOf_nil|].
  intros role [? ?]%matchedRolesOf_elem. done.
Qed.

Lemma with_decision_checkers now r who held : NoDup (de_approverId <$> decisions r) -> can_decide now r who held ->
  NoDup (de_approverId <$> with_decision now r who held).
Proof.
  intros Hnd Hc. unfold with_decision. rewrite fmap_app. apply NoDup_snoc_2; [apply (cd_first _ _ _ _ Hc)|done].
Qed.

Lemma with_decision_ok now r who held : Forall (decision_ok r) (decisions r) -> can_decide now r who held ->
  Forall (decision_ok r) (with_decision now r who held).
Proof. intros Hd Hc. apply Forall_snoc_2; [by apply decision_checked|done]. Qed.

Lemma with_decision_count now r who held :
  Z.of_nat (length (with_decision now r who held)) = Z.of_nat (length (decisions r)) + 1.
Proof. unfold with_decision. rewrite length_app. cbn [length]. lia. Qed.

(** What a change keeps: everything but the state, its stamps and the decisions. *)
Lemma decision_ok_frame r r' d : requesterId r' = requesterId r -> requiredApproverRoles r' = requiredApproverRoles r ->
  expiresAt r' = expiresAt r -> decision_ok r d -> decision_ok r' d.
Proof. intros E1 E2 E3 [? ? ? ? ?]. split; rewrite ?E1, ?E2, ?E3; done. Qed.

Lemma frame_decisions r r' : requesterId r' = requesterId r -> requiredApproverRoles r' = requiredApproverRoles r ->
  expiresAt r' = expiresAt r -> forall l, Forall (decision_ok r) l -> Forall (decision_ok r') l.
Proof. intros E1 E2 E3 l H. eapply Forall_impl; [exact H|]. intros d. by apply decision_ok_frame. Qed.

Lemma decision_change_wf now r who held : request_wf r -> can_decide now r who held ->
  Z.of_nat (length (decisions r)) + 1 < minor (quorum r) -> request_wf (r <| decisions := with_decision now r who held |>).
Proof.
  intros [W1 W2 W3 W4 W5 W6 W7] Hc Hq. pose proof (cd_pending _ _ _ _ Hc) as Es. unfold count_ok, stamps_ok in *.
  split; [exact W1|exact W2|exact W3|by apply with_decision_checkers| | |]; unfold count_ok, stamps_ok; cbn.
  - by apply (frame_decisions r), with_decision_ok.
  - rewrite Es, with_decision_count in *. lia.
  - rewrite Es in *. exact W7.
Qed.

Lemma approve_change_wf now r who held : request_wf r -> can_decide now r who held ->
  minor (quorum r) <= Z.of_nat (length (decisions r)) + 1 ->
  request_wf (r <| decisions := with_decision now r who held |> <| state := approved |> <| approvedAt := Some now |>).
Proof.
  intros [W1 W2 W3 W4 W5 W6 W7] Hc Hq. pose proof (cd_pending _ _ _ _ Hc) as Es. unfold count_ok, stamps_ok in *. rewrite Es in *.
  split; [exact W1|exact W2|exact W3|by apply with_decision_checkers| | |]; unfold count_ok, stamps_ok; cbn.
  - by apply (frame_decisions r), with_decision_ok.
  - rewrite with_decision_count. lia.
  - injection W7 as E1 E2 E3 E4 E5 E6 E7. exists now. unfold closing, with_decision. cbn. rewrite last_snoc.
    by rewrite E2, E3, E4, E5, E6, E7.
Qed.

(** A change that leaves the decisions alone keeps the invariant if the count and the
    stamps suit the new state. *)
Lemma closing_change_wf r r' : request_wf r ->
  requesterId r' = requesterId r -> quorum r' = quorum r -> requiredApproverRoles r' = requiredApproverRoles r ->
  createdAt r' = createdAt r -> expiresAt r' = expiresAt r -> decisions r' = decisions r ->
  count_ok r' -> stamps_ok r' -> request_wf r'.
Proof.
  intros [W1 W2 W3 W4 W5 W6 W7] E1 E2 E3 E4 E5 E6 Hc Hs.
  split; rewrite ?E1, ?E2, ?E3, ?E4, ?E5, ?E6; try done. by apply (frame_decisions r).
Qed.

Ltac use_stamps H :=
  let E1 := fresh in let E2 := fresh in let E3 := fresh in let E4 := fresh in let E5 := fresh in let E6 := fresh in
  let E7 := fresh in injection H as E1 E2 E3 E4 E5 E6 E7; rewrite ?E1, ?E2, ?E3, ?E4, ?E5, ?E6, ?E7.

Lemma change_wf now r r' names : request_wf r -> request_change now r r' names -> request_wf r'.
Proof.
  intros Hwf [|Es Ht|who held Hc Hq|who held Hc Hq|reason Es Ht Hr|Es Ht|Es Ht Hr|t Es Ht];
    [done| |by apply decision_change_wf|by apply approve_change_wf|..];
    apply (closing_change_wf r); try reflexivity; try exact Hwf;
    destruct Hwf as [_ Wq _ _ _ W6 W7]; unfold count_ok, stamps_ok, closing in *; rewrite Es in *; cbn in *; try lia.
  - exact W7.
  - use_stamps W7. by do 2 eexists.
  - use_stamps W7. by exists now.
  - use_stamps W7. by exists now.
  - destruct W7 as (t' & Ha & W7). use_stamps W7. by exists t', now.
Qed.

Lemma reachable_request_wf r : approval_reachable r -> request_wf r.
Proof.
  induction 1 as [args policy clock r e H|op clock r r' evs _ IH H]; [by eapply open_wf|].
  by eapply change_wf, run_follows.
Qed.

Lemma approved_stamp r : request_wf r -> state r = approved -> is_Some (approvedAt r).
Proof.
  intros [_ _ _ _ _ _ Hs] E. unfold stamps_ok in Hs. rewrite E in Hs. destruct Hs as (t & _ & Hc). injection Hc as -> _.
  by eexists.
Qed.

(** C13: At every instant, the outcomes of the lane's operations on a reachable request, with
    the events they emit, are exactly those of the maker-checker rules [request_change]:
    in particular a refusal changes nothing and emits exactly one decisionRefused event,
    quorumMet and approved are emitted together at the decision that completes the
    quorum, and no decision, rejection or cancellation happens after the expiry. *)
Theorem approval_machine_exact now r r' names : approval_reachable r ->
  (exists op clock evs, clock 0%nat = now /\ run_approval_op op clock r = Ok (r', evs) /\ name <$> evs = names) <->
  request_change now r r' names.
Proof.
  intros Hr%reachable_request_wf. split.
  - intros (op & clock & evs & <- & H & <-). by eapply run_follows.
  - intros H. destruct (change_realised _ _ _ _ (approved_stamp r Hr) H) as (op & evs & Hrun & Hn).
    by exists op, (fixed_clock now), evs.
Qed.

(** However a request was handled, no checker decided twice, the maker never decided,
    every decision was made in time by a holder of a required role, a request is
    approved or applied exactly when its decisions number the quorum of its policy
    (never fewer than one), and it carries exactly the stamps of its state. *)
Theorem maker_checker_invariant r : approval_reachable r -> request_wf r.
Proof. apply reachable_request_wf. Qed.

(** ** The evidence *)

Lemma applied_is_final op clock r r' evs : state r = applied -> run_approval_op op clock r = Ok (r', evs) ->
  r' = r /\ name <$> evs = ["approvals.decisionRefused"].
Proof.
  intros Es H%run_follows. inversion H as [|?|? ? Hc|? ? Hc|?|?|?|?]; try congruence; [done|..]; pose proof (cd_pending _ _ _ _ Hc); congruence.
Qed.

(** C14: An evidence bundle is only ever issued for a quorum: its checkers are distinct, as
    many as the policy's quorum and at least one, none of them the maker, each with a
    required role.  It is issued once: afterwards every operation is refused and leaves
    the request as it is. *)
Theorem evidence_proves_the_quorum r clock r' e ev : approval_reachable r ->
  markApplied r clock = Ok (apply_accepted r' e ev) ->
  NoDup ((fun d => d.1.1) <$> ae_decisions ev) /\ Z.of_nat (length (ae_decisions ev)) = minor (ae_quorum ev) /\
  1 <= minor (ae_quorum ev) /\
  Forall (fun d => d.1.1 <> ae_requesterId ev /\ d.1.2 <> [] /\ (forall role, role ∈ d.1.2 -> role ∈ ae_requiredApproverRoles ev))
    (ae_decisions ev) /\
  forall op clock r'' evs, run_approval_op op clock r' = Ok (r'', evs) ->
    r'' = r' /\ name <$> evs = ["approvals.decisionRefused"].
Proof.
  intros [_ Hq _ Hnd Hd Hc _]%reachable_request_wf H. unfold markApplied in H.
  destruct (state r) eqn:Es; try discriminate H. destruct (approvedAt r) as [t|]; [|discriminate H].
  injection H as <- _ <-. unfold count_ok in Hc. rewrite Es in Hc. cbn -[run_approval_op].
  split; [by rewrite <- list_fmap_compose|]. split; [by rewrite length_fmap|]. split; [lia|]. split.
  - apply Forall_fmap. eapply Forall_impl; [exact Hd|]. by intros d [? ? ? ? ?].
  - intros op clock' r'' evs. by apply applied_is_final.
Qed.

(** ** Enough checkers *)

Definition decide_one (acc : ApprovalRequest * list string) (vote : string * list string * Date) : result (ApprovalRequest * list string) :=
  '(r', evs) ← run_approval_op (op_approve vote.1.1 vote.1.2) (fixed_clock vote.2) acc.1; Ok (r', acc.2 ++ (name <$> evs)).

Definition decide_all (r : ApprovalRequest) (panel : list (string * list string * Date)) : result (ApprovalRequest * list string) :=
  foldM decide_one (r, []) panel.

(** The vote would be accepted by the request as it stands. *)
Definition eligible (r : ApprovalRequest) (vote : string * list string * Date) : Prop := can_decide vote.2 r vote.1.1 vote.1.2.

Lemma eligible_next now r who held vote : vote.1.1 <> who -> eligible r vote ->
  eligible (r <| decisions := with_decision now r who held |>) vote.
Proof.
  intros Hne [Hp Ht Hn Hm Hh Hr Hf]. split; try done. cbn. unfold with_decision. rewrite fmap_app. set_solver.
Qed.

Lemma decide_all_from panel : forall r names, request_wf r -> state r = pending ->
  NoDup ((fun vote => vote.1.1) <$> panel) -> Forall (eligible r) panel ->
  Z.of_nat (length (decisions r)) + Z.of_nat (length panel) = minor (quorum r) ->
  exists r', foldM decide_one (r, names) panel = Ok (r', names ++ ["approvals.quorumMet"; "approvals.approved"]) /\
    state r' = approved /\ de_approverId <$> decisions r' = (de_approverId <$> decisions r) ++ ((fun vote => vote.1.1) <$> panel).
Proof.
  induction panel as [|[[who held] t] panel IH]; intros r names Hwf Hs Hnd Hel Hlen.
  - pose proof (rw_count _ Hwf) as Hc. unfold count_ok in Hc. rewrite Hs in Hc. cbn in Hlen. lia.
  - cbn [fmap list_fmap fst] in Hnd. apply NoDup_cons in Hnd as [Hw Hnd]. inversion_clear Hel as [|? ? He Hel'].
    destruct (approve_decides r who held (fixed_clock t) He) as (res & H & Ho).
    assert (Hone : forall r1 evs, outcome res = (r1, evs) -> decide_one (r, names) (who, held, t) = Ok (r1, names ++ (name <$> evs))).
    { intros r1 evs E. unfold decide_one. cbn [run_approval_op fst snd]. rewrite H. cbn [mbind result_bind]. by rewrite E. }
    cbn [foldM]. destruct panel as [|vote panel].
    + rewrite decide_False in Ho by (cbn in Hlen; lia). destruct (outcome res) as [r1 evs]. cbn [fst snd] in Ho. destruct Ho as [-> Hn].
      rewrite (Hone _ _ eq_refl), Hn. cbn [mbind result_bind foldM]. eexists. split; [reflexivity|]. split; [done|].
      cbn. unfold with_decision. by rewrite fmap_app.
    + rewrite decide_True in Ho by (cbn in Hlen; lia). rewrite (Hone _ _ Ho). cbn [mbind result_bind fmap list_fmap]. rewrite app_nil_r.
      destruct (IH (r <| decisions := with_decision t r who held |>) names) as (r' & Hr & Hst & Hds); try done.
      * apply decision_change_wf; [done|exact He|cbn in Hlen; lia].
      * rewrite Forall_forall in *. intros v Hv. apply eligible_next; [|by apply Hel'].
        intros E. apply Hw. rewrite <- E. apply list_elem_of_fmap. by exists v.
      * cbn [decisions upd ApprovalRequest_eta quorum]. rewrite with_decision_count. cbn [length] in *. lia.
      * exists r'. split; [exact Hr|]. split; [done|]. rewrite Hds. cbn. unfold with_decision. rewrite fmap_app, <- app_assoc. done.
Qed.

(** The missing number of distinct, eligible checkers approves a pending request, in
    whatever order and at whatever times before the expiry they decide; quorumMet and
    approved are emitted exactly once, in this order. *)
Theorem a_full_panel_approves r panel : approval_reachable r -> state r = pending ->
  NoDup ((fun vote => vote.1.1) <$> panel) -> Forall (eligible r) panel ->
  Z.of_nat (length (decisions r)) + Z.of_nat (length panel) = minor (quorum r) ->
  exists r', decide_all r panel = Ok (r', ["approvals.quorumMet"; "approvals.approved"]) /\ state r' = approved /\
    de_approverId <$> decisions r' = (de_approverId <$> decisions r) ++ ((fun vote => vote.1.1) <$> panel).
Proof. intros Hr%reachable_request_wf Hs Hnd Hel Hlen. by apply (decide_all_from panel r []). Qed.

(** ** From evaluation to request *)

(** The policy an evaluation answers with is accepted for opening: a well formed
    request of the same organisation and operation opens, as long as its expiry is a
    date. *)
Theorem matched_policy_opens policies request clock w ev args clock' :
  evaluateApprovalRequirement policies request clock = Ok (requiresApproval w ev) ->
  oa_orgId args = er_orgId request -> oa_operationType args = er_operationType request ->
  isNonBlank (oa_approvalRequestId args) = true -> isNonBlank (oa_requesterId args) = true ->
  oa_subjectRefs args <> [] -> forallb isNonBlank (oa_subjectRefs args) = true -> NoDup (oa_subjectRefs args) ->
  validateSnapshot (oa_payloadSnapshot args) = Ok tt -> is_Some (sn_amountMinor (oa_payloadSnapshot args)) ->
  Z.abs (clock' 0%nat + minor (po_ttlDays w) * DAY_MS) <= MAX_TIME ->
  exists r e, openApprovalRequest args w clock' = Ok (r, e) /\ state r = drafted /\ quorum r = po_quorum w.
Proof.
  intros (Hv & (G1 & G2 & _ & _ & _ & Gorg) & Hans)%evaluate_answer Eorg Eop Hid Hreq Hs Hsn Hnd Hval [a Ha] Ht.
  pose proof (answer_spec policies request (clock 0%nat) Hv) as Hspec. rewrite <- Hans in Hspec.
  destruct Hspec as (_ & Hin & [Hwop _] & _). pose proof (sv_each _ _ Hv) as Hw. rewrite Forall_forall in Hw, Gorg.
  specialize (Hw _ Hin). specialize (Gorg _ Hin). unfold openApprovalRequest. rewrite Hid, Eorg, G1, Eop, Hsn, Hreq, Ha.
  rewrite !(decide_False (P := true = false)) by done.
  eexists _, _. split; [|split].
  - apply bind_Ok. exists tt. split; [exact Hw|]. rewrite decide_False by naive_solver.
    rewrite (decide_False (P := _ ∉ OPERATION_TYPES)) by (intros N; by apply N). rewrite decide_False by naive_solver.
    rewrite decide_False by done. rewrite (decide_False (P := ¬ NoDup _)) by (intros N; by apply N).
    apply bind_Ok. exists tt. split; [exact Hval|]. rewrite (decide_False (P := _ /\ _)) by naive_solver.
    rewrite decide_False by lia. reflexivity.
  - reflexivity.
  - reflexivity.
Qed.

(** ** A concrete request *)

Definition sample_policy : ApprovalPolicy :=
  MkPolicy "pol-1" "org-1" "refund" (Some (MkThreshold (num 1000) KES)) ["cfo"; "controller"] (num 2) (num 7).

Definition sample_open_args : OpenApprovalRequestArgs :=
  MkOpenRequest "apr-1" "org-1" "refund" ["pay-1"] (MkSnapshot (Some (num 5000)) (Some KES) "refund of pay-1") "alice".

Definition sample_request (s : ApprovalStatus) (submitted approvedOn : option Date) (ds : list ApprovalDecisionRecord) : ApprovalRequest :=
  MkRequest "apr-1" "org-1" "refund" "pol-1" ["pay-1"] (MkSnapshot (Some (num 5000)) (Some KES) "refund of pay-1") "alice" s
    ["cfo"; "controller"] (num 2) 0 604800000 submitted approvedOn None None None None None None ds.

Definition sample_pending : ApprovalRequest := sample_request pending (Some 1) None [].

Definition sample_panel : list (string * list string * Date) := [("bob", ["cfo"], 2); ("carol", ["clerk"; "controller"], 3)].

Definition sample_approved : ApprovalRequest :=
  sample_request approved (Some 1) (Some 3) [MkDecision "bob" ["cfo"] 2; MkDecision "carol" ["controller"] 3].

Lemma sample_pending_reachable : approval_reachable sample_pending.
Proof.
  destruct (openApprovalRequest sample_open_args sample_policy (fixed_clock 0)) as [[r e]|] eqn:E; [|vm_compute in E; discriminate E].
  eapply (reach_op op_submit (fixed_clock 1) r).
  - eapply reach_opened. exact E.
  - vm_compute in E. injection E as <- _. vm_compute. reflexivity.
Qed.

Lemma sample_approved_reachable : approval_reachable sample_approved.
Proof.
  eapply (reach_op (op_approve "carol" ["clerk"; "controller"]) (fixed_clock 3)).
  - eapply (reach_op (op_approve "bob" ["cfo"]) (fixed_clock 2)); [exact sample_pending_reachable|].
    vm_compute. reflexivity.
  - vm_compute. reflexivity.
Qed.

Lemma maker_checker_invariant_witness : approval_reachable sample_approved /\ request_wf sample_approved.
Proof. split; [exact sample_approved_reachable|exact (maker_checker_invariant _ sample_approved_reachable)]. Defined.

Lemma approval_machine_exact_witness :
  request_change 604800001 sample_pending (sample_pending <| state := expired |> <| expiredAt := Some 604800001 |>) ["approvals.expired"].
Proof.
  apply (approval_machine_exact 604800001 sample_pending _ _ sample_pending_reachable).
  exists op_expire, (fixed_clock 604800001). eexists. split; [reflexivity|]. split; [vm_compute; reflexivity|reflexivity].
Defined.

Lemma evidence_proves_the_quorum_witness : exists r' e ev,
  markApplied sample_approved (fixed_clock 9) = Ok (apply_accepted r' e ev) /\
  NoDup ((fun d => d.1.1) <$> ae_decisions ev) /\ Z.of_nat (length (ae_decisions ev)) = minor (ae_quorum ev).
Proof.
  destruct (markApplied sample_approved (fixed_clock 9)) as [[r' e ev|d]|] eqn:E; [|vm_compute in E; discriminate E..].
  exists r', e, ev. split; [reflexivity|].
  destruct (evidence_proves_the_quorum _ _ _ _ _ sample_approved_reachable E) as (H1 & H2 & _). split; [exact H1|exact H2].
Defined.

Lemma a_full_panel_approves_witness : exists r',
  decide_all sample_pending sample_panel = Ok (r', ["approvals.quorumMet"; "approvals.approved"]) /\ state r' = approved.
Proof.
  destruct (a_full_panel_approves sample_pending sample_panel) as (r' & H & Hs & _).
  - exact sample_pending_reachable.
  - reflexivity.
  - apply (bool_decide_unpack _). vm_compute. exact I.
  - repeat constructor; try reflexivity; try discriminate; cbn; try lia; try (apply (bool_decide_unpack _); vm_compute; exact I).
    + exists "cfo". split; apply (bool_decide_unpack _); vm_compute; exact I.
    + exists "controller". split; apply (bool_decide_unpack _); vm_compute; exact I.
  - vm_compute. reflexivity.
  - exists r'. split; [exact H|exact Hs].
Defined.

(** ** Observations *)

(** The event of an opening is dated by a second reading of the clock. *)
Lemma opening_reads_the_clock_twice args policy clock r e : openApprovalRequest args policy clock = Ok (r, e) ->
  createdAt r = clock 0%nat /\ occurredAt e = toISOString (clock 1%nat).
Proof. unfold openApprovalRequest. intros H. repeat step_ok. by subst. Qed.

(** A validated policy can live too long for a date. *)
Lemma huge_ttl_is_a_range_error :
  openApprovalRequest sample_open_args
    (MkPolicy "pol-1" "org-1" "refund" None ["cfo"] (num 1) (num 200000000)) (fixed_clock 0) = Err RangeError.
Proof. vm_compute. reflexivity. Qed.
