(* ===== verification/PaymentLink.v ===== *)
(** * Payment links

    src/domain/paymentlinks/link.ts, redeem.ts and events.ts: shareable collection links
    and their redemption by token.  The injected token generator is represented by the
    token it returns.  [link_step] is the store a process keeps around the functions:
    links updated in place, redemptions appended, ids and tokens never reused. *)

From stdpp Require Import prelude strings list relations.
From Stdlib Require Import ZArith Lia Ascii.
From S2P Require Import Prelude JsNumber JsString JsDate Money Events.
Local Open Scope string_scope.
Local Open Scope list_scope.
Local Open Scope Z_scope.
Local Open Scope js_scope.

Inductive LinkStatus := active | expired | completed | disabled | cancelled.
#[export] Instance LinkStatus_eq_dec : EqDecision LinkStatus.
Proof. solve_decision. Defined.

Definition LINK_TERMINAL_STATES : list LinkStatus := [expired; completed; disabled; cancelled].

Record LinkConfig := MkConfig { singleUse : bool; allowPartial : bool; expiresAt : option Date }.

Record PaymentLink := MkLink {
  linkId : Uuid;
  pl_orgId : Uuid;
  token : string;
  receivableIds : list Uuid;
  pl_currency : Currency;
  targetAmountMinor : option Money;
  minAmountMinor : option Money;
  maxAmountMinor : option Money;
  config : LinkConfig;
  status : LinkStatus;
  redeemedTotalMinor : Money;
  redemptionCount : Z;
  pl_createdAt : Date;
  completedAt : option Date;
  expiredAt : option Date;
  disabledAt : option Date;
  cancelledAt : option Date;
}.
#[export] Instance PaymentLink_eta : Eta PaymentLink := fun l =>
  MkLink (linkId l) (pl_orgId l) (token l) (receivableIds l) (pl_currency l) (targetAmountMinor l) (minAmountMinor l)
    (maxAmountMinor l) (config l) (status l) (redeemedTotalMinor l) (redemptionCount l) (pl_createdAt l) (completedAt l)
    (expiredAt l) (disabledAt l) (cancelledAt l).

(** ** Events *)

Inductive LinkMode := fixed_mode | open_mode.

Inductive LinkPayload :=
| PaymentLinkCreatedPayload (id orgId : Uuid) (receivables : list Uuid) (mode : LinkMode) (target min max : option Z)
    (c : Currency) (single partial : bool) (expires : option Date)
| PaymentLinkRedeemedPayload (id intentId : Uuid) (amountMinor : Z) (c : Currency) (redeemedAt : Date)
| PaymentLinkCompletedPayload (id : Uuid) (collectedMinor : Z) (at_ : Date)
| PaymentLinkExpiredPayload (id : Uuid) (at_ : Date)
| PaymentLinkDisabledPayload (id : Uuid) (reason : string) (at_ : Date)
| PaymentLinkCancelledPayload (id : Uuid) (reason : string) (at_ : Date)
| PaymentLinkDuplicateRedemptionObservedPayload (id : Uuid) (key : string) (intentId : Uuid) (seenAt : Date).
Notation PaymentLinkEvent := (Envelope Date LinkPayload).

Definition paymentLinkCreatedEvent (id orgId : Uuid) receivables mode target min max c single partial expires (clock : Clock) : PaymentLinkEvent :=
  MkEnvelope "paymentlink.created" id
    (PaymentLinkCreatedPayload id orgId receivables mode target min max c single partial expires) (clock 0%nat).
Definition paymentLinkRedeemedEvent (id intentId : Uuid) amt c at_ (clock : Clock) : PaymentLinkEvent :=
  MkEnvelope "paymentlink.redeemed" id (PaymentLinkRedeemedPayload id intentId amt c at_) (clock 0%nat).
Definition paymentLinkCompletedEvent (id : Uuid) collected at_ (clock : Clock) : PaymentLinkEvent :=
  MkEnvelope "paymentlink.completed" id (PaymentLinkCompletedPayload id collected at_) (clock 0%nat).
Definition paymentLinkExpiredEvent (id : Uuid) at_ (clock : Clock) : PaymentLinkEvent :=
  MkEnvelope "paymentlink.expired" id (PaymentLinkExpiredPayload id at_) (clock 0%nat).
Definition paymentLinkDisabledEvent (id : Uuid) reason at_ (clock : Clock) : PaymentLinkEvent :=
  MkEnvelope "paymentlink.disabled" id (PaymentLinkDisabledPayload id reason at_) (clock 0%nat).
Definition paymentLinkCancelledEvent (id : Uuid) reason at_ (clock : Clock) : PaymentLinkEvent :=
  MkEnvelope "paymentlink.cancelled" id (PaymentLinkCancelledPayload id reason at_) (clock 0%nat).
Definition paymentLinkDuplicateRedemptionObservedEvent (id : Uuid) key intentId seenAt (clock : Clock) : PaymentLinkEvent :=
  MkEnvelope "paymentlink.duplicateRedemptionObserved" id
    (PaymentLinkDuplicateRedemptionObservedPayload id key intentId seenAt) (clock 0%nat).

(** ** Creation *)

(** [/^[A-Za-z0-9_-]{16,128}$/] *)
Definition TOKEN_PATTERN (t : string) : bool := urlSafe 16 128 t.

Definition assertTokenShape (t : string) : result unit :=
  refuse (TOKEN_PATTERN t = false) with "LINK_TOKEN_MALFORMED" ;; Ok tt.

Definition linkAmountMode (l : PaymentLink) : LinkMode :=
  match targetAmountMinor l with Some _ => fixed_mode | None => open_mode end.

(** [undefined] for open links; the subtraction can throw. *)
Definition remainingTargetMinor (l : PaymentLink) : option (result Money) :=
  (fun target => Money.subtract target (redeemedTotalMinor l)) <$> targetAmountMinor l.

Definition effectiveStatus (l : PaymentLink) (now : Date) : LinkStatus :=
  match expiresAt (config l) with
  | Some e => if decide (status l = active /\ now >= e) then expired else status l
  | None => status l
  end.

Definition assertActive (l : PaymentLink) : result unit :=
  refuse (status l <> active) with "LINK_TRANSITION_INVALID" ;; Ok tt.

Definition assertReason (reason : string) : result string :=
  let why := trim reason in
  refuse (why = "") with "LINK_REASON_REQUIRED" ;; Ok why.

Record CreateLinkCommand := MkCreateLink {
  cl_orgId : Uuid;
  cl_receivableIds : list Uuid;
  cl_currency : Currency;
  cl_target : option Money;
  cl_min : option Money;
  cl_max : option Money;
  cl_config : LinkConfig;
  cl_linkId : option Uuid;
}.

Definition idOrSeed (supplied : option Uuid) (seed : string) : result Uuid :=
  match supplied with Some id => Ok id | None => uuidFromSeed seed end.

Definition badAmount (m : option Money) : bool := match m with Some m => amount m <=? 0 | None => false end.

Definition createLink (cmd : CreateLinkCommand) (generated : string) (clock : Clock) : result (PaymentLink * list PaymentLinkEvent) :=
  let receivables := distinct (cl_receivableIds cmd) in
  refuse (receivables = []) with "LINK_RECEIVABLE_REQUIRED" ;;
  refuse (is_Some (cl_target cmd) /\ (is_Some (cl_min cmd) \/ is_Some (cl_max cmd))) with "LINK_AMOUNT_MODE_CONFLICT" ;;
  refuse (badAmount (cl_target cmd) = true) with "LINK_TARGET_INVALID" ;;
  refuse (badAmount (cl_min cmd) = true) with "LINK_BOUNDS_INVALID" ;;
  refuse (badAmount (cl_max cmd) = true) with "LINK_BOUNDS_INVALID" ;;
  crossed ← match cl_min cmd, cl_max cmd with
    | Some lo, Some hi => c ← Money.compareTo lo hi; Ok (0 <? c)
    | _, _ => Ok false
    end;
  refuse (crossed = true) with "LINK_BOUNDS_INVALID" ;;
  let createdAt := clock 0%nat in
  refuse (match expiresAt (cl_config cmd) with Some e => e <=? createdAt | None => false end = true) with "LINK_EXPIRY_INVALID" ;;
  _ ← assertTokenShape generated;
  id ← idOrSeed (cl_linkId cmd) ("paymentlink:" +:+ cl_orgId cmd +:+ ":" +:+ generated);
  let l := MkLink id (cl_orgId cmd) generated receivables (cl_currency cmd) (cl_target cmd) (cl_min cmd) (cl_max cmd)
    (cl_config cmd) active (Money.zero (cl_currency cmd)) 0 createdAt None None None None in
  Ok (l, [paymentLinkCreatedEvent (linkId l) (pl_orgId l) (receivableIds l) (linkAmountMode l)
            (amount <$> cl_target cmd) (amount <$> cl_min cmd) (amount <$> cl_max cmd) (pl_currency l)
            (singleUse (config l)) (allowPartial (config l)) (expiresAt (cl_config cmd)) (clock_after 1 clock)]).

(** ** Administration *)

Definition expireIfDue (l : PaymentLink) (clock : Clock) : PaymentLink * list PaymentLinkEvent :=
  let now := clock 0%nat in
  match expiresAt (config l) with
  | None => (l, [])
  | Some e =>
      if decide (status l <> active \/ now < e) then (l, [])
      else (l <| status := expired |> <| expiredAt := Some now |>,
            [paymentLinkExpiredEvent (linkId l) now (clock_after 1 clock)])
  end.

Definition disableLink (l : PaymentLink) (reason : string) (clock : Clock) : result (PaymentLink * list PaymentLinkEvent) :=
  _ ← assertActive l;
  why ← assertReason reason;
  let now := clock 0%nat in
  Ok (l <| status := disabled |> <| disabledAt := Some now |>,
      [paymentLinkDisabledEvent (linkId l) why now (clock_after 1 clock)]).

Definition cancelLink (l : PaymentLink) (reason : string) (clock : Clock) : result (PaymentLink * list PaymentLinkEvent) :=
  _ ← assertActive l;
  why ← assertReason reason;
  let now := clock 0%nat in
  Ok (l <| status := cancelled |> <| cancelledAt := Some now |>,
      [paymentLinkCancelledEvent (linkId l) why now (clock_after 1 clock)]).

(** ** Redemption *)

Record RedeemCommand := MkRedeem {
  rc_token : string;
  rc_idempotencyKey : string;
  rc_amount : Money;
  rc_intentId : option Uuid;
}.

Record RedemptionRecord := MkRedemption {
  redemptionId : Uuid;
  rr_linkId : Uuid;
  rr_intentId : Uuid;
  rr_amount : Money;
  rr_idempotencyKey : string;
  redeemedAt : Date;
}.

Record RedeemResult := MkRedeemResult {
  rs_link : PaymentLink;
  rs_redemption : RedemptionRecord;
  rs_duplicate : bool;
  rs_events : list PaymentLinkEvent;
}.

Definition assertPositive (m : Money) : result unit :=
  refuse (amount m <= 0) with "AMOUNT_MUST_BE_POSITIVE" ;; Ok tt.

Definition assertSameCurrency (l : PaymentLink) (m : Money) : result unit :=
  refuse (currency m <> pl_currency l) with "CURRENCY_MISMATCH" ;; Ok tt.

Definition rejectStatus (l : PaymentLink) (s : LinkStatus) : string :=
  match s with
  | expired => "LINK_EXPIRED"
  | disabled => "LINK_DISABLED"
  | cancelled => "LINK_CANCELLED"
  | _ => if singleUse (config l) then "LINK_ALREADY_REDEEMED" else "LINK_COMPLETED"
  end.

(** [bound && amount.compareTo(bound) ...] *)
Definition compareBound (m : Money) (bound : option Money) : result Z :=
  match bound with Some b => Money.compareTo m b | None => Ok 0 end.

Definition assertAmount (l : PaymentLink) (m : Money) : result unit :=
  match remainingTargetMinor l with
  | Some r =>
      remaining ← r;
      if allowPartial (config l) then
        c ← Money.compareTo m remaining;
        refuse (c > 0) with "LINK_AMOUNT_EXCEEDS_TARGET" ;; Ok tt
      else
        same ← Money.equals m remaining;
        refuse (same = false) with "LINK_AMOUNT_EXACT_REQUIRED" ;; Ok tt
  | None =>
      c ← compareBound m (minAmountMinor l);
      refuse (c < 0) with "LINK_AMOUNT_BELOW_MIN" ;;
      c ← compareBound m (maxAmountMinor l);
      refuse (c > 0) with "LINK_AMOUNT_ABOVE_MAX" ;; Ok tt
  end.

Definition isPrior (id key : string) (r : RedemptionRecord) : bool :=
  bool_decide (rr_linkId r = id /\ rr_idempotencyKey r = key).

(** The redemption of a link that is not a replay. *)
Definition redeemFresh (l : PaymentLink) (key : string) (m : Money) (intent : option Uuid) (clock : Clock) : result RedeemResult :=
  let now := clock 0%nat in
  let s := effectiveStatus l now in
  refuse (s <> active) with (rejectStatus l s) ;;
  _ ← assertSameCurrency l m;
  _ ← assertAmount l m;
  redeemedTotal ← Money.add (redeemedTotalMinor l) m;
  targetMet ← match targetAmountMinor l with Some t => Money.equals redeemedTotal t | None => Ok false end;
  let completes := singleUse (config l) || targetMet in
  intentId ← idOrSeed intent ("payment-intent:" +:+ linkId l +:+ ":" +:+ key);
  rid ← uuidFromSeed ("plink-redemption:" +:+ linkId l +:+ ":" +:+ key);
  let next := l <| status := if completes then completed else active |> <| redeemedTotalMinor := redeemedTotal |>
                <| redemptionCount := redemptionCount l + 1 |>
                <| completedAt := if completes then Some now else completedAt l |> in
  Ok (MkRedeemResult next (MkRedemption rid (linkId l) intentId m key now) false
        (paymentLinkRedeemedEvent (linkId l) intentId (amount m) (currency m) now (clock_after 1 clock) ::
         if completes then [paymentLinkCompletedEvent (linkId l) (amount redeemedTotal) now (clock_after 2 clock)] else [])).

Definition redeem (cmd : RedeemCommand) (links : list PaymentLink) (redemptions : list RedemptionRecord) (clock : Clock)
  : result RedeemResult :=
  let tok := trim (rc_token cmd) in
  refuse (tok = "") with "LINK_TOKEN_REQUIRED" ;;
  let key := trim (rc_idempotencyKey cmd) in
  refuse (key = "") with "LINK_IDEMPOTENCY_KEY_REQUIRED" ;;
  _ ← assertPositive (rc_amount cmd);
  match List.find (fun l => bool_decide (token l = tok)) links with
  | None => Err (DomainError "LINK_NOT_FOUND")
  | Some l =>
      match List.find (isPrior (linkId l) key) redemptions with
      | Some prior =>
          same ← Money.equals (rr_amount prior) (rc_amount cmd);
          refuse (same = false) with "LINK_REDEMPTION_AMOUNT_MISMATCH" ;;
          Ok (MkRedeemResult l prior true
                [paymentLinkDuplicateRedemptionObservedEvent (linkId l) key (rr_intentId prior) (clock 0%nat) (clock_after 1 clock)])
      | None => redeemFresh l key (rc_amount cmd) (rc_intentId cmd) clock
      end
  end.

(** ** The store around the functions *)

Record LinkStore := MkStore {
  st_links : list PaymentLink;
  st_redemptions : list RedemptionRecord;
  st_log : list PaymentLinkEvent;
}.

(** A link is saved under its id. *)
Definition put (l : PaymentLink) (links : list PaymentLink) : list PaymentLink :=
  (fun k => if decide (linkId k = linkId l) then l else k) <$> links.

(** The caller's bookkeeping after [redeem]. *)
Definition record_redemption (s : LinkStore) (res : RedeemResult) : LinkStore :=
  MkStore (put (rs_link res) (st_links s))
    (if rs_duplicate res then st_redemptions s else st_redemptions s ++ [rs_redemption res]) (st_log s ++ rs_events res).

Inductive link_step (s : LinkStore) : LinkStore -> Prop :=
| step_create cmd generated clock l evs : createLink cmd generated clock = Ok (l, evs) ->
    linkId l ∉ (linkId <$> st_links s) -> token l ∉ (token <$> st_links s) ->
    link_step s (MkStore (st_links s ++ [l]) (st_redemptions s) (st_log s ++ evs))
| step_redeem cmd clock res : redeem cmd (st_links s) (st_redemptions s) clock = Ok res ->
    link_step s (record_redemption s res)
| step_expire l clock : l ∈ st_links s ->
    link_step s (MkStore (put (expireIfDue l clock).1 (st_links s)) (st_redemptions s) (st_log s ++ (expireIfDue l clock).2))
| step_disable l reason clock l' evs : l ∈ st_links s -> disableLink l reason clock = Ok (l', evs) ->
    link_step s (MkStore (put l' (st_links s)) (st_redemptions s) (st_log s ++ evs))
| step_cancel l reason clock l' evs : l ∈ st_links s -> cancelLink l reason clock = Ok (l', evs) ->
    link_step s (MkStore (put l' (st_links s)) (st_redemptions s) (st_log s ++ evs)).

Definition empty_store : LinkStore := MkStore [] [] [].

Definition link_reachable (s : LinkStore) : Prop := rtc link_step empty_store s.

(** ** The invariant *)

Definition redeemed_of (id : Uuid) (rs : list RedemptionRecord) : list RedemptionRecord :=
  List.filter (fun r => bool_decide (rr_linkId r = id)) rs.

Definition collected (id : Uuid) (rs : list RedemptionRecord) : Z :=
  sumZ ((fun r => amount (rr_amount r)) <$> redeemed_of id rs).

(** The amount respects the link: up to what is missing of a fixed target (all of it
    where partial payments are not allowed), within the bounds of an open link. *)
Definition amount_ok (l : PaymentLink) (m : Money) : Prop :=
  match targetAmountMinor l with
  | Some t => currency t = currency m /\
      if allowPartial (config l) then amount (redeemedTotalMinor l) + amount m <= amount t
      else amount (redeemedTotalMinor l) + amount m = amount t
  | None =>
      (forall lo, minAmountMinor l = Some lo -> currency lo = currency m /\ amount lo <= amount m) /\
      (forall hi, maxAmountMinor l = Some hi -> currency hi = currency m /\ amount m <= amount hi)
  end.

Definition in_bounds (l : PaymentLink) (m : Money) : Prop :=
  (forall lo, minAmountMinor l = Some lo -> amount lo <= amount m) /\
  (forall hi, maxAmountMinor l = Some hi -> amount m <= amount hi).

Record redemption_ok (l : PaymentLink) (r : RedemptionRecord) : Prop := {
  ro_positive : 0 < amount (rr_amount r);
  ro_currency : currency (rr_amount r) = pl_currency l;
  ro_in_time : forall e, expiresAt (config l) = Some e -> redeemedAt r < e;
  ro_target : forall t, targetAmountMinor l = Some t -> allowPartial (config l) = false -> rr_amount r = t;
  ro_bounds : targetAmountMinor l = None -> in_bounds l (rr_amount r);
}.

(** The link has collected all it can. *)
Definition is_full (l : PaymentLink) : Prop :=
  (singleUse (config l) = true /\ 1 <= redemptionCount l) \/ targetAmountMinor l = Some (redeemedTotalMinor l).

Record link_wf (rs : list RedemptionRecord) (l : PaymentLink) : Prop := {
  lw_token : TOKEN_PATTERN (token l) = true;
  lw_total : redeemedTotalMinor l = MkMoney (collected (linkId l) rs) (pl_currency l);
  lw_count : redemptionCount l = Z.of_nat (length (redeemed_of (linkId l) rs));
  lw_each : Forall (redemption_ok l) (redeemed_of (linkId l) rs);
  lw_target : forall t, targetAmountMinor l = Some t -> 0 < amount t /\ amount (redeemedTotalMinor l) <= amount t;
  lw_completed : status l = completed <-> is_full l;
  lw_completedAt : is_Some (completedAt l) <-> status l = completed;
}.

Definition redemption_key (r : RedemptionRecord) : Uuid * string := (rr_linkId r, rr_idempotencyKey r).

(** The payment intents handed to the payments lane. *)
Definition handed_over (log : list PaymentLinkEvent) : list (Uuid * Uuid * Money) :=
  omap (fun e => match payload e with
                 | PaymentLinkRedeemedPayload id intent a c _ => Some (id, intent, MkMoney a c)
                 | _ => None
                 end) log.

Record store_wf (s : LinkStore) : Prop := {
  sw_ids : NoDup (linkId <$> st_links s);
  sw_tokens : NoDup (token <$> st_links s);
  sw_links : Forall (link_wf (st_redemptions s)) (st_links s);
  sw_known : Forall (fun r => rr_linkId r ∈ (linkId <$> st_links s)) (st_redemptions s);
  sw_keys : NoDup (redemption_key <$> st_redemptions s);
  sw_intents : handed_over (st_log s) = (fun r => (rr_linkId r, rr_intentId r, rr_amount r)) <$> st_redemptions s;
}.

(** ** What a redemption does *)

Lemma equals_Ok a b : Money.equals a b = Ok true <-> a = b.
Proof.
  split; [|intros ->; apply equals_refl]. unfold Money.equals. intros (c & H & E)%bind_Ok. apply (inj Ok), bool_decide_eq_true in E.
  destruct (compareTo_Ok _ _ _ H) as [Hc Ha]. apply money_eq; [lia|done].
Qed.

Lemma equals_same a b : currency a = currency b -> Money.equals a b = Ok (bool_decide (a = b)).
Proof.
  intros Hc. unfold Money.equals. rewrite compareTo_same by done. cbn [mbind result_bind]. f_equal. apply bool_decide_ext.
  split; [|intros ->; by rewrite decide_True]. intros H. apply money_eq; [|done]. repeat case_decide; lia.
Qed.

(** A bound is respected: the comparison succeeds and does not point the wrong way. *)
Lemma compareBound_low m bound :
  (exists c, compareBound m bound = Ok c /\ ~ c < 0) <-> forall b, bound = Some b -> currency b = currency m /\ amount b <= amount m.
Proof.
  unfold compareBound. destruct bound as [b|]; [|split; [done|by exists 0]]. split.
  - intros (c & H & Hc) b' [= <-]. destruct (compareTo_Ok _ _ _ H). split; [done|lia].
  - intros H. destruct (H b eq_refl). rewrite compareTo_same by done. eexists. split; [reflexivity|]. repeat case_decide; lia.
Qed.

Lemma compareBound_high m bound :
  (exists c, compareBound m bound = Ok c /\ ~ c > 0) <-> forall b, bound = Some b -> currency b = currency m /\ amount m <= amount b.
Proof.
  unfold compareBound. destruct bound as [b|]; [|split; [done|by exists 0]]. split.
  - intros (c & H & Hc) b' [= <-]. destruct (compareTo_Ok _ _ _ H). split; [done|lia].
  - intros H. destruct (H b eq_refl). rewrite compareTo_same by done. eexists. split; [reflexivity|]. repeat case_decide; lia.
Qed.

Lemma assertAmount_Ok l m : currency (redeemedTotalMinor l) = currency m -> 0 < amount m ->
  assertAmount l m = Ok tt <-> amount_ok l m.
Proof.
  intros Hc Hm. unfold assertAmount, remainingTargetMinor, amount_ok. destruct (targetAmountMinor l) as [t|]; cbn [fmap option_fmap option_map].
  - rewrite bind_Ok. split.
    + intros (r & (Hct & Hle & ->)%subtract_Ok & H). split; [congruence|]. destruct (allowPartial (config l)); repeat step_ok.
      * destruct (compareTo_Ok _ _ _ E) as [_ Hv]. cbn in Hv. lia.
      * apply not_false_iff_true in N. rewrite N in E. apply equals_Ok in E. rewrite E. cbn. lia.
    + intros (Hct & Hv). eexists. split.
      { apply subtract_same; [congruence|]. destruct (allowPartial (config l)); lia. }
      destruct (allowPartial (config l)).
      * rewrite compareTo_same by (cbn; congruence). cbn [mbind result_bind]. rewrite decide_False; [done|]. cbn. repeat case_decide; lia.
      * rewrite equals_same by (cbn; congruence). cbn [mbind result_bind]. rewrite decide_False; [done|].
        apply not_false_iff_true, bool_decide_eq_true, money_eq; cbn; [lia|congruence].
  - rewrite <- compareBound_low, <- compareBound_high, bind_Ok. split.
    + intros (c & H1 & (H2 & (c' & H3 & (H4 & _)%guard_Ok)%bind_Ok)%guard_Ok). by split; eexists.
    + intros [(c & H1 & H2) (c' & H3 & H4)]. exists c. split; [done|]. apply guard_Ok. split; [done|]. apply bind_Ok.
      exists c'. split; [done|]. apply guard_Ok. done.
Qed.

(** Redeemable now: active, and strictly before the expiry. *)
Definition live (l : PaymentLink) (now : Date) : Prop :=
  status l = active /\ forall e, expiresAt (config l) = Some e -> now < e.

Lemma effectiveStatus_active l now : effectiveStatus l now = active <-> live l now.
Proof.
  unfold effectiveStatus, live. destruct (expiresAt (config l)) as [e|]; [|naive_solver].
  case_decide as H; split; [done| |intros E; split; [done|]; intros e' [= <-]|by intros [? _]]; [|].
  - intros [_ Hl]. specialize (Hl e eq_refl). lia.
  - apply Z.nle_gt. intros N. apply H. split; [done|lia].
Qed.

(** The id derived from a seed, which always exists. *)
Definition seeded (seed : string) : Uuid := match uuidFromSeed seed with Ok id => id | Err _ => "" end.

Lemma uuidFromSeed_seeded seed : uuidFromSeed seed = Ok (seeded seed).
Proof. unfold seeded. destruct (uuidFromSeed_shape seed) as (id & H & _). by rewrite H. Qed.

Lemma idOrSeed_default supplied seed : idOrSeed supplied seed = Ok (default (seeded seed) supplied).
Proof. destruct supplied; [done|]. apply uuidFromSeed_seeded. Qed.

Definition new_total (l : PaymentLink) (m : Money) : Money :=
  MkMoney (amount (redeemedTotalMinor l) + amount m) (currency (redeemedTotalMinor l)).

Definition completes (l : PaymentLink) (m : Money) : bool :=
  singleUse (config l) || bool_decide (targetAmountMinor l = Some (new_total l m)).

Definition redeemed_link (l : PaymentLink) (m : Money) (now : Date) : PaymentLink :=
  l <| status := if completes l m then completed else active |> <| redeemedTotalMinor := new_total l m |>
    <| redemptionCount := redemptionCount l + 1 |> <| completedAt := if completes l m then Some now else completedAt l |>.

Definition new_redemption (l : PaymentLink) (key : string) (m : Money) (intent : option Uuid) (now : Date) : RedemptionRecord :=
  MkRedemption (seeded ("plink-redemption:" +:+ linkId l +:+ ":" +:+ key)) (linkId l)
    (default (seeded ("payment-intent:" +:+ linkId l +:+ ":" +:+ key)) intent) m key now.

Definition redemption_events (l : PaymentLink) (key : string) (m : Money) (intent : option Uuid) (clock : Clock) : list PaymentLinkEvent :=
  let now := clock 0%nat in
  paymentLinkRedeemedEvent (linkId l) (rr_intentId (new_redemption l key m intent now)) (amount m) (currency m) now (clock_after 1 clock) ::
  if completes l m then [paymentLinkCompletedEvent (linkId l) (amount (new_total l m)) now (clock_after 2 clock)] else [].

Definition fresh_result (l : PaymentLink) (key : string) (m : Money) (intent : option Uuid) (clock : Clock) : RedeemResult :=
  MkRedeemResult (redeemed_link l m (clock 0%nat)) (new_redemption l key m intent (clock 0%nat)) false
    (redemption_events l key m intent clock).

Lemma redeemFresh_Ok l key m intent clock res : currency (redeemedTotalMinor l) = pl_currency l -> 0 < amount m ->
  redeemFresh l key m intent clock = Ok res <->
  live l (clock 0%nat) /\ currency m = pl_currency l /\ amount_ok l m /\ res = fresh_result l key m intent clock.
Proof.
  intros Hcur Hm. unfold redeemFresh. rewrite guard_Ok, bind_Ok. unfold assertSameCurrency.
  assert (forall P Q, currency m = pl_currency l -> amount_ok l m ->
    (redeemedTotal ← Money.add (redeemedTotalMinor l) m;
     targetMet ← match targetAmountMinor l with Some t => Money.equals redeemedTotal t | None => Ok false end;
     Q redeemedTotal targetMet) = P :> result RedeemResult <->
    Q (new_total l m) (bool_decide (targetAmountMinor l = Some (new_total l m))) = P) as Hstep.
  { intros P Q Hc Ha. rewrite add_same by congruence. cbn [mbind result_bind]. fold (new_total l m).
    destruct (targetAmountMinor l) as [t|] eqn:Et; [|done]. unfold amount_ok in Ha. rewrite Et in Ha.
    rewrite equals_same by (cbn; destruct Ha; congruence). cbn [mbind result_bind].
    replace (bool_decide (Some t = Some (new_total l m))) with (bool_decide (new_total l m = t)); [done|].
    apply bool_decide_ext. naive_solver. }
  rewrite !idOrSeed_default, !uuidFromSeed_seeded. split.
  - intros (Hs & [] & (Hc & _)%guard_Ok & ([] & Ha & H)%bind_Ok). apply dec_stable in Hs, Hc. apply effectiveStatus_active in Hs.
    apply assertAmount_Ok in Ha; [|congruence|done]. split; [done|]. split; [done|]. split; [done|].
    apply Hstep in H; [|done..]. cbn [mbind result_bind] in H. by apply (inj Ok) in H.
  - intros (Hl & Hc & Ha & ->). split; [rewrite (proj2 (effectiveStatus_active l _)) by done; naive_solver|]. exists tt.
    split; [rewrite decide_False by naive_solver; done|]. apply bind_Ok. exists tt. split; [apply assertAmount_Ok; [congruence|done..]|].
    by apply Hstep.
Qed.

(** ** Saving a link *)

Lemma put_ids l links : linkId <$> put l links = linkId <$> links.
Proof.
  unfold put. rewrite <- list_fmap_compose. apply list_fmap_ext. intros _ k _. cbn. case_decide; congruence.
Qed.

Lemma put_tokens l l' links : NoDup (linkId <$> links) -> l ∈ links -> linkId l' = linkId l -> token l' = token l ->
  token <$> put l' links = token <$> links.
Proof.
  intros Hnd Hl Ei Et. unfold put. rewrite <- list_fmap_compose. apply list_fmap_ext. intros i k Hk. cbn.
  case_decide as E; [|done]. rewrite Et. f_equal. apply (NoDup_fmap_elem linkId links); try done; [|congruence].
  by eapply list_elem_of_lookup_2.
Qed.

Lemma put_Forall (P Q : PaymentLink -> Prop) l links : P l ->
  (forall k, k ∈ links -> linkId k <> linkId l -> Q k -> P k) -> Forall Q links -> Forall P (put l links).
Proof.
  intros Hl Hk HQ. unfold put. apply Forall_fmap, Forall_forall. intros k Hin. cbn. case_decide; [done|].
  rewrite Forall_forall in HQ. auto.
Qed.

Lemma put_same l links : NoDup (linkId <$> links) -> l ∈ links -> put l links = links.
Proof.
  intros Hnd Hl. unfold put. transitivity (id <$> links); [|apply list_fmap_id]. apply list_fmap_ext. intros i k Hk. cbn.
  case_decide as E; [|done]. apply (NoDup_fmap_elem linkId links); try done. by eapply list_elem_of_lookup_2.
Qed.

Lemma redeemed_of_other id r rs : rr_linkId r <> id -> redeemed_of id (rs ++ [r]) = redeemed_of id rs.
Proof. intros H. unfold redeemed_of. rewrite List.filter_app. cbn. by rewrite bool_decide_false, app_nil_r. Qed.

Lemma redeemed_of_own id r rs : rr_linkId r = id -> redeemed_of id (rs ++ [r]) = redeemed_of id rs ++ [r].
Proof. intros H. unfold redeemed_of. rewrite List.filter_app. cbn. by rewrite bool_decide_true. Qed.

Lemma link_wf_frame rs rs' l : redeemed_of (linkId l) rs' = redeemed_of (linkId l) rs -> link_wf rs l -> link_wf rs' l.
Proof.
  intros E [H1 H2 H3 H4 H5 H6 H7]. unfold collected in *.
  split; unfold collected; rewrite ?E; done.
Qed.

(** ** Every step keeps the books *)

Lemma createLink_Ok cmd generated clock l evs rs : createLink cmd generated clock = Ok (l, evs) ->
  Forall (fun r => rr_linkId r <> linkId l) rs -> link_wf rs l /\ handed_over evs = [].
Proof.
  unfold createLink. intros H Hrs. repeat step_ok. rename H0 into El. clear N. rewrite <- El in Hrs |- *. rewrite <- H. clear El H.
  assert (redeemed_of v1 rs = []) as E3.
  { unfold redeemed_of. clear -Hrs. cbn in Hrs. induction Hrs as [|r rs Hr _ IH]; cbn; [done|]. by rewrite bool_decide_false. }
  split; [|done]. split; cbn; unfold collected, is_full; cbn; rewrite ?E3; try done.
  - unfold assertTokenShape in E0. apply guard_Ok in E0 as [E0 _]. by apply not_false_iff_true.
  - intros t Et. unfold badAmount in N1. rewrite Et in N1. apply not_true_iff_false, Z.leb_gt in N1. unfold sumZ. cbn. lia.
  - split; [done|]. intros [[_ ?]|Et]; [lia|]. unfold badAmount in N1. rewrite Et in N1. cbn in N1. congruence.
Qed.

(** The terms of a link, which no operation changes. *)
Definition terms (l : PaymentLink) :=
  (linkId l, token l, pl_currency l, targetAmountMinor l, minAmountMinor l, maxAmountMinor l, config l).

Lemma redemption_ok_frame l l' r : terms l' = terms l -> redemption_ok l r -> redemption_ok l' r.
Proof.
  intros [= E1 E2 E3 E4 E5 E6 E7] [H1 H2 H3 H4 H5]. unfold in_bounds in *.
  split; unfold in_bounds; rewrite ?E3, ?E4, ?E5, ?E6, ?E7; done.
Qed.

Lemma closing_wf rs l l' : link_wf rs l -> terms l' = terms l -> redeemedTotalMinor l' = redeemedTotalMinor l ->
  redemptionCount l' = redemptionCount l -> completedAt l' = completedAt l -> status l = active -> status l' <> completed ->
  link_wf rs l'.
Proof.
  intros [H1 H2 H3 H4 H5 H6 H7] Et E1 E2 E3 Ha Hs. pose proof Et as [= T1 T2 T3 T4 T5 T6 T7]. unfold is_full in *.
  split; unfold is_full; rewrite ?T1, ?T2, ?T3, ?T4, ?T7, ?E1, ?E2, ?E3; try done.
  - eapply Forall_impl; [exact H4|]. intros r. by apply redemption_ok_frame.
  - split; [done|]. intros Hf. apply H6 in Hf. congruence.
  - split; [|done]. intros Hf. apply H7 in Hf. congruence.
Qed.

Lemma redeemed_wf rs l m key intent now : link_wf rs l -> live l now -> currency m = pl_currency l -> 0 < amount m -> amount_ok l m ->
  link_wf (rs ++ [new_redemption l key m intent now]) (redeemed_link l m now).
Proof.
  intros [H1 H2 H3 H4 H5 H6 H7] [Hs Ht] Hc Hm Ha.
  assert (~ is_full l) as Hnf by (rewrite <- H6, Hs; done).
  assert (new_total l m = MkMoney (collected (linkId l) (rs ++ [new_redemption l key m intent now])) (pl_currency l)) as Htot.
  { unfold new_total, collected. rewrite redeemed_of_own by done. rewrite sumZ_fmap_snoc, H2. done. }
  split; cbn [redeemed_link upd PaymentLink_eta linkId token pl_currency targetAmountMinor config status redeemedTotalMinor redemptionCount
    completedAt]; try done.
  - rewrite redeemed_of_own by done. rewrite length_app, H3. cbn [length]. lia.
  - rewrite redeemed_of_own by done. apply Forall_app. split.
    + eapply Forall_impl; [exact H4|]. intros r. by apply redemption_ok_frame.
    + constructor; [|constructor]. unfold amount_ok in Ha. split; cbn; try done.
      * intros t Et Hp. rewrite Et, Hp in Ha. destruct Ha as [Hct Ha]. destruct (H5 t Et) as [Hpos Hle].
        assert (collected (linkId l) rs = 0) as Hz; [|rewrite H2 in Ha; cbn in Ha; rewrite Hz in Ha; apply money_eq; [lia|done]].
        unfold collected. rewrite H2 in Hle, Ha. cbn in Hle, Ha. unfold collected in Hle, Ha.
        destruct (redeemed_of (linkId l) rs) as [|r0 rest] eqn:Er; [done|]. exfalso. inversion_clear H4 as [|? ? Hr0 Hrest].
        pose proof (ro_target _ _ Hr0 t Et Hp) as E0. cbn in Ha, Hle. rewrite sumZ_cons, E0 in *.
        assert (0 <= sumZ ((fun r => amount (rr_amount r)) <$> rest)); [|lia].
        apply sumZ_nonneg, Forall_fmap. eapply Forall_impl; [exact Hrest|]. intros r []. cbn. lia.
      * intros Et. rewrite Et in Ha. unfold in_bounds. split; intros b Eb; by apply Ha.
  - intros t Et. destruct (H5 t Et) as [Hpos _]. split; [done|]. unfold amount_ok in Ha. rewrite Et in Ha. cbn.
    destruct (allowPartial (config l)); lia.
  - unfold is_full, completes. cbn. destruct (singleUse (config l)) eqn:Es; cbn [orb].
    + split; [intros _; left; split; [done|]; rewrite H3; lia|done].
    + case_bool_decide as Et; split; try done; [by right|]. intros [[? _]|?]; done.
  - destruct (completes l m); split; try done. intros Hd. apply H7 in Hd. congruence.
Qed.

Lemma handed_over_app a b : handed_over (a ++ b) = handed_over a ++ handed_over b.
Proof. apply omap_app. Qed.

(** What [redeem] answers: a replay with the recorded redemption, or a fresh one. *)
Lemma redeem_cases cmd links rs clock res : redeem cmd links rs clock = Ok res -> 0 < amount (rc_amount cmd) /\
  exists l, List.find (fun l => bool_decide (token l = trim (rc_token cmd))) links = Some l /\
    match List.find (isPrior (linkId l) (trim (rc_idempotencyKey cmd))) rs with
    | Some prior => rr_amount prior = rc_amount cmd /\
        res = MkRedeemResult l prior true
          [paymentLinkDuplicateRedemptionObservedEvent (linkId l) (trim (rc_idempotencyKey cmd)) (rr_intentId prior) (clock 0%nat) (clock_after 1 clock)]
    | None => redeemFresh l (trim (rc_idempotencyKey cmd)) (rc_amount cmd) (rc_intentId cmd) clock = Ok res
    end.
Proof.
  unfold redeem. intros (_ & (_ & ([] & (Hp & _)%guard_Ok & H)%bind_Ok)%guard_Ok)%guard_Ok. split; [lia|].
  destruct (List.find _ links) as [l|]; [|done]. exists l. split; [done|].
  destruct (List.find _ rs) as [prior|]; [|done]. apply bind_Ok in H as (same & E & (N & H)%guard_Ok).
  apply not_false_iff_true in N. rewrite N in E. apply equals_Ok in E. by apply (inj Ok) in H.
Qed.

Lemma find_link tok links l : List.find (fun l => bool_decide (token l = tok)) links = Some l -> l ∈ links /\ token l = tok.
Proof. intros [H1 H2]%List.find_some. split; [by apply list_elem_of_In|by apply bool_decide_eq_true in H2]. Qed.

Lemma no_prior id key rs : List.find (isPrior id key) rs = None -> (id, key) ∉ (redemption_key <$> rs).
Proof.
  intros H (r & E & Hr)%list_elem_of_fmap. apply list_elem_of_In in Hr. apply (List.find_none _ _ H) in Hr.
  unfold isPrior in Hr. apply bool_decide_eq_false in Hr. unfold redemption_key in E. naive_solver.
Qed.

Lemma closing_step s l l' evs : store_wf s -> l ∈ st_links s -> status l = active -> status l' <> completed ->
  terms l' = terms l -> redeemedTotalMinor l' = redeemedTotalMinor l -> redemptionCount l' = redemptionCount l ->
  completedAt l' = completedAt l -> handed_over evs = [] ->
  store_wf (MkStore (put l' (st_links s)) (st_redemptions s) (st_log s ++ evs)).
Proof.
  intros [H1 H2 H3 H4 H5 H6] Hl Ha Hs Et E1 E2 E3 Ev. pose proof Et as [= T1 T2 _ _ _ _ _].
  split; cbn; rewrite ?put_ids; try done.
  - by rewrite (put_tokens l).
  - eapply put_Forall; [|intros k _ _ Hk; exact Hk|exact H3]. rewrite Forall_forall in H3. by apply (closing_wf _ l); auto.
  - by rewrite handed_over_app, Ev, app_nil_r.
Qed.

Lemma redeem_step s l key m intent clock : store_wf s -> l ∈ st_links s -> live l (clock 0%nat) ->
  currency m = pl_currency l -> 0 < amount m -> amount_ok l m -> (linkId l, key) ∉ (redemption_key <$> st_redemptions s) ->
  store_wf (MkStore (put (redeemed_link l m (clock 0%nat)) (st_links s))
    (st_redemptions s ++ [new_redemption l key m intent (clock 0%nat)]) (st_log s ++ redemption_events l key m intent clock)).
Proof.
  intros [H1 H2 H3 H4 H5 H6] Hl Hlive Hc Hm Ha Hk. split; cbn [st_links st_redemptions st_log]; rewrite ?put_ids; try done.
  - by rewrite (put_tokens l).
  - eapply put_Forall; [|intros k _ Hne Hk'; eapply link_wf_frame; [|exact Hk']; by apply redeemed_of_other|exact H3].
    rewrite Forall_forall in H3. apply redeemed_wf; auto.
  - apply Forall_snoc_2; [|done]. apply list_elem_of_fmap. by exists l.
  - rewrite fmap_app. by apply NoDup_snoc_2.
  - rewrite handed_over_app, fmap_app, H6. f_equal. unfold redemption_events. destruct (completes l m); cbn; by destruct m.
Qed.

Lemma step_wf s s' : store_wf s -> link_step s s' -> store_wf s'.
Proof.
  intros Hwf [cmd generated clock l evs H Hid Htok|cmd clock res H|l clock Hl|l reason clock l' evs Hl H|l reason clock l' evs Hl H].
  - destruct Hwf as [H1 H2 H3 H4 H5 H6]. rewrite Forall_forall in H4.
    destruct (createLink_Ok _ _ _ _ _ (st_redemptions s) H) as [Hl Hev].
    { apply Forall_forall. intros r Hr E. apply Hid. rewrite <- E. by apply H4. }
    split; cbn; rewrite ?fmap_app; cbn; try done.
    + by apply NoDup_snoc_2.
    + by apply NoDup_snoc_2.
    + by apply Forall_snoc_2.
    + apply Forall_forall. intros r Hr. apply elem_of_app. left. auto.
    + by rewrite handed_over_app, Hev, app_nil_r.
  - destruct (redeem_cases _ _ _ _ _ H) as (Hm & l & [Hl Et]%find_link & Hcase).
    destruct (List.find _ (st_redemptions s)) as [prior|] eqn:Ep.
    + destruct Hcase as [_ ->]. unfold record_redemption. cbn. destruct Hwf as [H1 H2 H3 H4 H5 H6]. rewrite put_same by done.
      split; cbn; try done. by rewrite handed_over_app, app_nil_r.
    + assert (link_wf (st_redemptions s) l) as Hlw by (destruct Hwf as [_ _ H3 _ _ _]; rewrite Forall_forall in H3; auto).
      apply redeemFresh_Ok in Hcase as (Hlive & Hc & Ha & ->); [|by rewrite (lw_total _ _ Hlw)|done].
      apply redeem_step; try done. by apply no_prior.
  - destruct (expireIfDue l clock) as [l' evs] eqn:E. cbn. unfold expireIfDue in E. destruct (expiresAt (config l)) as [e|].
    + case_decide as Hd; injection E as <- <-.
      * rewrite app_nil_r, put_same by (done || apply Hwf). by destruct s.
      * apply (closing_step s l); try done. destruct (decide (status l = active)); naive_solver.
    + injection E as <- <-. rewrite app_nil_r, put_same by (done || apply Hwf). by destruct s.
  - unfold disableLink in H. apply bind_Ok in H as ([] & (Hs & _)%guard_Ok & (why & _ & H)%bind_Ok). apply dec_stable in Hs.
    injection H as <- <-. by apply (closing_step s l).
  - unfold cancelLink in H. apply bind_Ok in H as ([] & (Hs & _)%guard_Ok & (why & _ & H)%bind_Ok). apply dec_stable in Hs.
    injection H as <- <-. by apply (closing_step s l).
Qed.

Lemma reachable_store_wf s : link_reachable s -> store_wf s.
Proof.
  unfold link_reachable. revert s. apply (rtc_ind_r (fun s => store_wf s)).
  - split; cbn; constructor.
  - intros s s' _ Hstep IH. by eapply step_wf.
Qed.

(** C15: Whatever is created, redeemed, expired or closed, each link's running total is the
    sum of its recorded redemptions, never above a fixed target; every redemption was
    positive, in the link's currency, within its terms and before its expiry; a link is
    completed exactly when its target is met or its single use is spent; no idempotency
    key is recorded twice; and the intents handed to the payments lane are exactly the
    recorded redemptions, in order. *)
Theorem links_never_over_collect s : link_reachable s -> store_wf s.
Proof. apply reachable_store_wf. Qed.

(** ** Accepting a redemption *)

Lemma find_link_unique links l : NoDup (token <$> links) -> l ∈ links ->
  List.find (fun k => bool_decide (token k = token l)) links = Some l.
Proof.
  intros Hnd Hl. destruct (List.find _ links) as [k|] eqn:E.
  - apply find_link in E as [Hk Et]. f_equal. by apply (NoDup_fmap_elem token links).
  - apply list_elem_of_In in Hl. apply (List.find_none _ _ E) in Hl. by apply bool_decide_eq_false in Hl.
Qed.

Lemma find_prior_unique rs r : NoDup (redemption_key <$> rs) -> r ∈ rs ->
  List.find (isPrior (rr_linkId r) (rr_idempotencyKey r)) rs = Some r.
Proof.
  intros Hnd Hr. destruct (List.find _ rs) as [k|] eqn:E.
  - apply List.find_some in E as [Hk Ek]. apply list_elem_of_In in Hk. apply bool_decide_eq_true in Ek as [E1 E2].
    f_equal. apply (NoDup_fmap_elem redemption_key rs); try done. unfold redemption_key. congruence.
  - apply list_elem_of_In in Hr. apply (List.find_none _ _ E) in Hr. apply bool_decide_eq_false in Hr. by destruct Hr.
Qed.

(** The holder of a link's token redeems an amount under a new key exactly when the
    amount is positive, the link active and strictly before its expiry, the currency
    the link's, and the amount within its terms: what is missing of a fixed target (all
    of it unless partial payments are allowed) or the bounds of an open link.  The
    result is then fully determined. *)
Theorem redemption_exact s l cmd clock res : link_reachable s -> l ∈ st_links s ->
  trim (rc_token cmd) = token l -> token l <> "" -> trim (rc_idempotencyKey cmd) <> "" ->
  (linkId l, trim (rc_idempotencyKey cmd)) ∉ (redemption_key <$> st_redemptions s) ->
  redeem cmd (st_links s) (st_redemptions s) clock = Ok res <->
  0 < amount (rc_amount cmd) /\ live l (clock 0%nat) /\ currency (rc_amount cmd) = pl_currency l /\
  amount_ok l (rc_amount cmd) /\ res = fresh_result l (trim (rc_idempotencyKey cmd)) (rc_amount cmd) (rc_intentId cmd) clock.
Proof.
  intros [_ Htok Hlw _ _ _]%reachable_store_wf Hl Et Hne Hkey Hfresh. rewrite Forall_forall in Hlw. specialize (Hlw _ Hl).
  unfold redeem. rewrite !guard_Ok, bind_Ok. unfold assertPositive. rewrite Et, (find_link_unique _ _ Htok Hl).
  destruct (List.find (isPrior _ _) _) as [prior|] eqn:Ep.
  { exfalso. apply List.find_some in Ep as [Hp Ek]. apply bool_decide_eq_true in Ek as [E1 E2]. apply Hfresh, list_elem_of_fmap.
    exists prior. split; [unfold redemption_key; congruence|by apply list_elem_of_In]. }
  assert (currency (redeemedTotalMinor l) = pl_currency l) as Hcur by (by rewrite (lw_total _ _ Hlw)). split.
  - intros (_ & _ & [] & (Hp & _)%guard_Ok & H). apply redeemFresh_Ok in H; [|done|lia]. split; [lia|exact H].
  - intros (Hp & H). split; [done|]. split; [done|]. exists tt. split; [by rewrite decide_False by lia|]. by apply redeemFresh_Ok.
Qed.

(** ** Replays *)

Definition remembered (id : Uuid) (tok : string) (r : RedemptionRecord) (s : LinkStore) : Prop :=
  r ∈ st_redemptions s /\ exists l, l ∈ st_links s /\ linkId l = id /\ token l = tok.

Lemma put_keeps id tok l l' links : NoDup (linkId <$> links) -> l ∈ links -> linkId l' = linkId l -> token l' = token l ->
  (exists k, k ∈ links /\ linkId k = id /\ token k = tok) -> exists k, k ∈ put l' links /\ linkId k = id /\ token k = tok.
Proof.
  intros Hnd Hl Ei Et (k & Hk & E1 & E2). destruct (decide (linkId k = linkId l')) as [E|E].
  - exists l'. assert (k = l) as -> by (apply (NoDup_fmap_elem linkId links); congruence). split; [|split; congruence].
    apply list_elem_of_fmap. exists l. split; [by rewrite decide_True|done].
  - exists k. split; [|done]. apply list_elem_of_fmap. exists k. split; [by rewrite decide_False|done].
Qed.

Lemma redeem_link_terms cmd links rs clock res : redeem cmd links rs clock = Ok res ->
  exists l, l ∈ links /\ linkId (rs_link res) = linkId l /\ token (rs_link res) = token l.
Proof.
  intros H. destruct (redeem_cases _ _ _ _ _ H) as (_ & l & [Hl _]%find_link & Hcase). exists l. split; [done|].
  destruct (List.find _ rs); [by destruct Hcase as [_ ->]|]. unfold redeemFresh in Hcase. repeat step_ok. by rewrite <- Hcase.
Qed.

Lemma remembered_step id tok r s s' : store_wf s -> link_step s s' -> remembered id tok r s -> remembered id tok r s'.
Proof.
  intros Hwf Hstep [Hr Hl]. pose proof (sw_ids _ Hwf) as Hnd. split.
  - destruct Hstep; try done. cbn. destruct (rs_duplicate res); [done|]. apply elem_of_app. by left.
  - destruct Hstep as [cmd generated clock l evs H Hid Htok|cmd clock res H|l clock Hin|l reason clock l' evs Hin H|l reason clock l' evs Hin H]; cbn.
    + destruct Hl as (k & Hk & E). exists k. split; [apply elem_of_app; by left|done].
    + destruct (redeem_link_terms _ _ _ _ _ H) as (l & Hin & E1 & E2). by apply (put_keeps id tok l).
    + apply (put_keeps id tok l); try done; unfold expireIfDue; destruct (expiresAt (config l)); try case_decide; done.
    + unfold disableLink in H. repeat step_ok. apply (put_keeps id tok l); try done; by rewrite <- H0.
    + unfold cancelLink in H. repeat step_ok. apply (put_keeps id tok l); try done; by rewrite <- H0.
Qed.

Lemma redeem_remembered s cmd clock res : store_wf s -> redeem cmd (st_links s) (st_redemptions s) clock = Ok res ->
  remembered (rr_linkId (rs_redemption res)) (trim (rc_token cmd)) (rs_redemption res) (record_redemption s res) /\
  rr_amount (rs_redemption res) = rc_amount cmd /\ rr_idempotencyKey (rs_redemption res) = trim (rc_idempotencyKey cmd).
Proof.
  intros Hwf H. pose proof (sw_ids _ Hwf) as Hnd. destruct (redeem_cases _ _ _ _ _ H) as (Hm & l & [Hl Et]%find_link & Hcase).
  destruct (List.find _ (st_redemptions s)) as [prior|] eqn:Ep.
  - destruct Hcase as [Ea ->]. apply List.find_some in Ep as [Hp [E1 E2]%bool_decide_eq_true]. cbn.
    unfold remembered, record_redemption. cbn. rewrite put_same by done. split; [|done]. split; [by apply list_elem_of_In|]. by exists l.
  - pose proof (sw_links _ Hwf) as Hlw. rewrite Forall_forall in Hlw. specialize (Hlw _ Hl).
    apply redeemFresh_Ok in Hcase as (_ & _ & _ & ->); [|by rewrite (lw_total _ _ Hlw)|done]. split; [|done].
    split; cbn; [apply elem_of_app; right; by apply list_elem_of_singleton|]. apply (put_keeps _ _ l); try done. by exists l.
Qed.

(** A redemption happens once: whatever happens to the link afterwards, including its
    completion, expiry or cancellation, presenting the same token, key and amount again
    returns the recorded redemption and its intent as a duplicate, changes nothing and
    emits one observation. *)
Theorem redemption_replay_is_absorbed s cmd clock res s' clock' : link_reachable s ->
  redeem cmd (st_links s) (st_redemptions s) clock = Ok res -> rtc link_step (record_redemption s res) s' ->
  exists l, l ∈ st_links s' /\ redeem cmd (st_links s') (st_redemptions s') clock' =
    Ok (MkRedeemResult l (rs_redemption res) true
          [paymentLinkDuplicateRedemptionObservedEvent (rr_linkId (rs_redemption res)) (trim (rc_idempotencyKey cmd))
             (rr_intentId (rs_redemption res)) (clock' 0%nat) (clock_after 1 clock')]).
Proof.
  intros Hwf%reachable_store_wf H Hlater. destruct (redeem_remembered _ _ _ _ Hwf H) as (Hrem & Ea & Ek).
  assert (store_wf (record_redemption s res)) as Hwf1 by (by eapply step_wf, step_redeem).
  assert (store_wf s' /\ remembered (rr_linkId (rs_redemption res)) (trim (rc_token cmd)) (rs_redemption res) s') as [Hwf' [Hr (l & Hl & Ei & Et)]].
  { clear -Hwf1 Hrem Hlater. induction Hlater as [|s1 s2 s3 Hstep _ IH]; [done|]. apply IH; [by eapply remembered_step|by eapply step_wf]. }
  exists l. split; [done|]. pose proof (redeem_cases _ _ _ _ _ H) as (Hm & _).
  unfold redeem in H |- *. apply guard_Ok in H as [N1 H]. apply guard_Ok in H as [N2 _].
  rewrite (decide_False (P := trim (rc_token cmd) = "")) by done. rewrite decide_False by done.
  unfold assertPositive. rewrite decide_False by lia. cbn [mbind result_bind].
  rewrite <- Et, (find_link_unique _ _ (sw_tokens _ Hwf') Hl), Ei, <- Ek, (find_prior_unique _ _ (sw_keys _ Hwf') Hr), Ea, equals_refl.
  done.
Qed.

(** ** A concrete link *)

Definition sample_create : CreateLinkCommand :=
  MkCreateLink "org-1" ["r-1"; "r-2"; "r-1"] KES (Some (MkMoney 1000 KES)) None None (MkConfig false true (Some 5000)) (Some "l-1").

Definition sample_token : string := "abcdefghijklmnop".

Definition sample_link : PaymentLink :=
  MkLink "l-1" "org-1" sample_token ["r-1"; "r-2"] KES (Some (MkMoney 1000 KES)) None None (MkConfig false true (Some 5000))
    active (MkMoney 0 KES) 0 1 None None None None.

Definition sample_redeem (key : string) (m : Z) : RedeemCommand := MkRedeem sample_token key (MkMoney m KES) (Some "i-1").

Definition sample_store : LinkStore := MkStore [sample_link] []
  [paymentLinkCreatedEvent "l-1" "org-1" ["r-1"; "r-2"] fixed_mode (Some 1000) None None KES false true (Some 5000) (fixed_clock 1)].

Lemma sample_store_reachable : link_reachable sample_store.
Proof.
  apply rtc_once. destruct (createLink sample_create sample_token (fixed_clock 1)) as [[l evs]|] eqn:E; [|vm_compute in E; discriminate E].
  pose proof (step_create empty_store sample_create sample_token (fixed_clock 1) l evs E) as H.
  vm_compute in E. injection E as <- <-. apply H; apply not_elem_of_nil.
Qed.

Lemma links_never_over_collect_witness : link_reachable sample_store /\ store_wf sample_store.
Proof. split; [exact sample_store_reachable|exact (links_never_over_collect _ sample_store_reachable)]. Defined.

Lemma redemption_exact_witness : exists res,
  redeem (sample_redeem "k-1" 400) (st_links sample_store) (st_redemptions sample_store) (fixed_clock 4999) = Ok res.
Proof.
  exists (fresh_result sample_link "k-1" (MkMoney 400 KES) (Some "i-1") (fixed_clock 4999)).
  apply (redemption_exact sample_store sample_link (sample_redeem "k-1" 400) (fixed_clock 4999) _ sample_store_reachable).
  - apply list_elem_of_singleton. reflexivity.
  - reflexivity.
  - discriminate.
  - discriminate.
  - apply not_elem_of_nil.
  - split; [reflexivity|]. split; [split; [reflexivity|]; intros e; cbn; intros [= <-]; reflexivity|].
    split; [reflexivity|]. split; [|reflexivity]. split; [reflexivity|]. cbn. lia.
Defined.

Lemma redemption_replay_is_absorbed_witness : exists l res,
  redeem (sample_redeem "k-1" 400) (st_links sample_store) (st_redemptions sample_store) (fixed_clock 2) = Ok res /\
  redeem (sample_redeem "k-1" 400) (st_links (record_redemption sample_store res)) (st_redemptions (record_redemption sample_store res))
    (fixed_clock 9000) =
  Ok (MkRedeemResult l (rs_redemption res) true [paymentLinkDuplicateRedemptionObservedEvent "l-1" "k-1" "i-1" 9000 (fixed_clock 9000)]).
Proof.
  destruct (redeem (sample_redeem "k-1" 400) (st_links sample_store) (st_redemptions sample_store) (fixed_clock 2)) as [res|] eqn:E;
    [|vm_compute in E; discriminate E].
  destruct (redemption_replay_is_absorbed sample_store _ _ _ (record_redemption sample_store res) (fixed_clock 9000) sample_store_reachable E)
    as (l & _ & H); [apply rtc_refl|].
  exists l, res. split; [reflexivity|]. rewrite H. vm_compute in E. injection E as <-. reflexivity.
Defined.

(** ** Observations *)

(** A target in another currency than the link's is accepted at creation, and then no
    amount can ever be redeemed. *)
Lemma foreign_target_is_never_redeemable :
  (exists l evs, createLink (MkCreateLink "org-1" ["r-1"] KES (Some (MkMoney 1000 USD)) None None (MkConfig false true None) (Some "l-2"))
     sample_token (fixed_clock 1) = Ok (l, evs) /\ targetAmountMinor l = Some (MkMoney 1000 USD) /\ pl_currency l = KES) /\
  forall l m, targetAmountMinor l = Some (MkMoney 1000 USD) -> pl_currency l = KES -> redeemedTotalMinor l = Money.zero KES ->
    assertAmount l m = Err (DomainError "CURRENCY_MISMATCH").
Proof.
  split; [do 2 eexists; split; [vm_compute; reflexivity|done]|].
  intros l m Et _ Er. unfold assertAmount, remainingTargetMinor. rewrite Et, Er. reflexivity.
Qed.
