(* ===== verification/WebhookEndpoint.v ===== *)
(** * Webhook endpoints and subscriptions

    src/domain/webhooks/subscription.ts and endpoint.ts: the subscription grammar and its
    matcher, the hand-written URL validator, and the endpoint aggregate.  The injected
    secret generator is represented by the secret it returns and the hash port by a
    function. *)

From stdpp Require Import prelude strings list relations.
From Stdlib Require Import ZArith Lia Ascii.
From S2P Require Import Prelude JsNumber JsString JsDate Money Events.
Local Open Scope string_scope.
Local Open Scope list_scope.
Local Open Scope Z_scope.
Local Open Scope js_scope.

(** ** Subscription grammar *)

Definition KNOWN_EVENT_PREFIXES : list string :=
  ["adjustment"; "adjustments"; "agent"; "allocation"; "behavior"; "case"; "collections"; "comms"; "consent"; "dispute";
   "dunning"; "fx"; "intelligence"; "invoicing"; "ledger"; "memory"; "nba"; "notifications"; "payment"; "paymentlink";
   "payments"; "policy"; "projections"; "promise"; "receivable"; "receivables"; "reconciliation"; "segment"].

Definition is_lower (c : ascii) : bool := in_range 97 122 c.
Definition is_alnum (c : ascii) : bool := in_range 97 122 c || in_range 65 90 c || is_digit c.

(** [/^[a-z][a-zA-Z0-9]*$/] *)
Definition PATTERN_SEGMENT (l : chars) : bool :=
  match l with c :: r => is_lower c && forallb is_alnum r | [] => false end.

Definition not_char (d c : ascii) : bool := negb (Ascii.eqb c d).

(** What precedes the first [d], all of the text where there is none. *)
Definition before (d : ascii) (l : chars) : chars := take_while (not_char d) l.

(** [/^[a-z][a-zA-Z0-9]*\.[a-z][a-zA-Z0-9]+$/] *)
Definition EVENT_TYPE_PATTERN (s : string) : bool :=
  let l := explode s in
  let context := before "." l in
  match drop (length context) l with
  | _ :: tail => PATTERN_SEGMENT context && PATTERN_SEGMENT tail && (2 <=? length tail)%nat
  | [] => false
  end.

Inductive SubscriptionMode := exact | wildcard.

Record EventSubscription := MkSubscription { su_pattern : string; su_mode : SubscriptionMode; addedAt : Date }.

(** [s.split(d)] *)
Fixpoint split (d : ascii) (l : chars) : list chars :=
  match l with
  | [] => [[]]
  | c :: l' =>
      if Ascii.eqb c d then [] :: split d l'
      else match split d l' with w :: ws => (c :: w) :: ws | [] => [[c]] end
  end.

Definition parseSubscriptionPattern (pattern : string) : result (string * SubscriptionMode) :=
  let malformed := Err (DomainError "WEBHOOK_SUBSCRIPTION_MALFORMED") in
  if decide (pattern = "") then malformed else
  match split "." (explode pattern) with
  | [prefix; tail] =>
      if PATTERN_SEGMENT prefix then
        let known := bool_decide (implode prefix ∈ KNOWN_EVENT_PREFIXES) in
        if bool_decide (tail = ["*"%char]) then
          refuse (known = false) with "WEBHOOK_EVENT_PREFIX_UNKNOWN" ;; Ok (pattern, wildcard)
        else if PATTERN_SEGMENT tail then
          refuse (known = false) with "WEBHOOK_EVENT_PREFIX_UNKNOWN" ;; Ok (pattern, exact)
        else malformed
      else malformed
  | _ => malformed
  end.

Definition matchesSubscription (pattern eventType : string) : bool :=
  if EVENT_TYPE_PATTERN eventType then
    let p := explode pattern in
    if endsWith p [".";"*"]%char then bool_decide (take (length p - 2) p = before "." (explode eventType))
    else bool_decide (pattern = eventType)
  else false.

(** ** URL validation *)

Definition MAX_URL_LENGTH : Z := 2048.
Definition MAX_LABEL_LENGTH : Z := 120.
Definition MAX_DESCRIPTION_LENGTH : Z := 500.

(** [[a-z0-9+.-]], case-insensitively *)
Definition schemeChar (c : ascii) : bool :=
  is_alnum c || bool_decide (c = "+"%char) || bool_decide (c = "."%char) || bool_decide (c = "-"%char).

(** A letter and scheme characters up to [://], whatever the case: the scheme and what
    follows the match. *)
Definition URL_SCHEME_PATTERN (l : chars) : option (chars * chars) :=
  let scheme := take_while schemeChar l in
  let rest := drop (length scheme) l in
  match scheme with
  | c :: _ =>
      if (is_lower c || in_range 65 90 c) && startsWith rest (explode "://") then Some (scheme, drop 3 rest) else None
  | [] => None
  end.

Definition hostChar (c : ascii) : bool := is_lower c || is_digit c || bool_decide (c = "."%char) || bool_decide (c = "-"%char).

(** [/^[a-z0-9.-]+$/] *)
Definition DNS_HOST_PATTERN (l : chars) : bool := forallb hostChar l && negb (bool_decide (l = [])).

(** [/^\d{1,5}$/] *)
Definition PORT_PATTERN (l : chars) : bool := forallb is_digit l && (1 <=? length l)%nat && (length l <=? 5)%nat.

Definition ipv6Char (c : ascii) : bool := is_digit c || in_range 97 102 c || bool_decide (c = ":"%char).

(** [/^[0-9a-f:]+$/] *)
Definition IPV6_PATTERN (l : chars) : bool := forallb ipv6Char l && negb (bool_decide (l = [])).

Definition isForbiddenHost (host : chars) : bool :=
  bool_decide (implode host ∈ ["localhost"; "0.0.0.0"; "::1"; "0:0:0:0:0:0:0:1"]) ||
  endsWith host (explode ".localhost") || startsWith host (explode "127.") || startsWith host (explode "169.254.").

Definition authorityChar (c : ascii) : bool := negb (bool_decide (c ∈ ["/"; "?"; "#"]%char)).

Definition url_malformed {A} : result A := Err (DomainError "WEBHOOK_URL_MALFORMED").

(** The bracketed branch: [[host]port], where the character before the port digits is
    not looked at. *)
Definition ipv6Host (authority : chars) : result chars :=
  let inner := before "]" authority in
  match drop (length inner) authority with
  | [] => url_malformed
  | _ :: after =>
      let host := lowerChar <$> inner in
      if match after with [] => false | _ :: port => negb (PORT_PATTERN port) end then url_malformed
      else if IPV6_PATTERN host then Ok host else url_malformed
  end.

(** The other branch: [host] or [host:port], split at the last colon. *)
Definition dnsHost (authority : chars) : result chars :=
  let port := reverse (before ":" (reverse authority)) in
  let colon := (length port <? length authority)%nat in
  let host := lowerChar <$> if colon then take (length authority - length port - 1) authority else authority in
  if decide (host = []) then url_malformed
  else if DNS_HOST_PATTERN host then
    if colon && (negb (PORT_PATTERN port) || (read_dec port <? 1) || (65535 <? read_dec port)) then url_malformed
    else Ok host
  else url_malformed.

Definition validateWebhookUrl (raw : string) : result string :=
  let l := explode raw in
  if decide (l = []) then url_malformed else
  refuse (Z.of_nat (length l) > MAX_URL_LENGTH) with "WEBHOOK_URL_TOO_LONG" ;;
  match URL_SCHEME_PATTERN l with
  | None => url_malformed
  | Some (scheme, rest) =>
      refuse (lowerChar <$> scheme <> explode "https") with "WEBHOOK_URL_INSECURE" ;;
      let authority := take_while authorityChar rest in
      if decide ("@"%char ∈ authority) then url_malformed else
      host ← match authority with
        | "["%char :: inside => ipv6Host inside
        | _ => dnsHost authority
        end;
      refuse (isForbiddenHost host = true) with "WEBHOOK_URL_FORBIDDEN_HOST" ;;
      Ok raw
  end.

(** ** The endpoint aggregate *)

Inductive EndpointStatus := active | paused | revoked.
#[export] Instance EndpointStatus_eq_dec : EqDecision EndpointStatus.
Proof. solve_decision. Defined.

Definition ENDPOINT_TERMINAL_STATUSES : list EndpointStatus := [revoked].

Record WebhookEndpoint := MkEndpoint {
  endpointId : Uuid;
  we_orgId : Uuid;
  url : string;
  label : string;
  description : option string;
  we_status : EndpointStatus;
  secretRef : string;
  subscriptions : list EventSubscription;
  we_createdAt : Date;
  pausedAt : option Date;
  resumedAt : option Date;
  revokedAt : option Date;
}.
#[export] Instance WebhookEndpoint_eta : Eta WebhookEndpoint := fun e =>
  MkEndpoint (endpointId e) (we_orgId e) (url e) (label e) (description e) (we_status e) (secretRef e) (subscriptions e)
    (we_createdAt e) (pausedAt e) (resumedAt e) (revokedAt e).

Inductive EndpointPayload :=
| EndpointRegisteredPayload (id orgId : Uuid) (target lbl : string) (descr : option string) (ref : string)
| EndpointPausedPayload (id orgId : Uuid) (reason : string)
| EndpointResumedPayload (id orgId : Uuid)
| EndpointRevokedPayload (id orgId : Uuid) (reason : string)
| SubscriptionAddedPayload (id orgId : Uuid) (pattern : string) (mode : SubscriptionMode).
Notation EndpointEvent := (DomainEvent EndpointPayload).

Definition SECRET_PATTERN (s : string) : bool := urlSafe 32 128 s.
Definition SECRET_REF_PATTERN (s : string) : bool := urlSafe 8 128 s.

Record RegisterEndpointCommand := MkRegister {
  re_orgId : Uuid;
  re_url : string;
  re_label : string;
  re_description : option string;
  re_endpointId : option Uuid;
}.

Definition assertLabel (lbl : string) : result string :=
  refuse (trim lbl = "") with "WEBHOOK_LABEL_REQUIRED" ;;
  refuse (Z.of_nat (String.length lbl) > MAX_LABEL_LENGTH) with "WEBHOOK_LABEL_TOO_LONG" ;;
  Ok lbl.

Definition assertDescription (descr : option string) : result (option string) :=
  match descr with
  | None => Ok None
  | Some d => refuse (Z.of_nat (String.length d) > MAX_DESCRIPTION_LENGTH) with "WEBHOOK_DESCRIPTION_TOO_LONG" ;; Ok (Some d)
  end.

(** The endpoint, the secret (returned once) and the event. *)
Definition registerEndpoint (cmd : RegisterEndpointCommand) (secret : string) (hashSecret : string -> string) (clock : Clock)
  : result (WebhookEndpoint * string * EndpointEvent) :=
  target ← validateWebhookUrl (re_url cmd);
  lbl ← assertLabel (re_label cmd);
  descr ← assertDescription (re_description cmd);
  refuse (SECRET_PATTERN secret = false) with "WEBHOOK_SECRET_MALFORMED" ;;
  let ref := hashSecret secret in
  refuse (SECRET_REF_PATTERN ref = false) with "WEBHOOK_SECRET_REF_MALFORMED" ;;
  refuse (ref = secret) with "WEBHOOK_HASH_NOT_IRREVERSIBLE" ;;
  let createdAt := clock 0%nat in
  id ← match re_endpointId cmd with
    | Some id => Ok id
    | None => uuidFromSeed ("webhook-endpoint:" +:+ re_orgId cmd +:+ ":" +:+ target +:+ ":" +:+ lbl)
    end;
  let e := MkEndpoint id (re_orgId cmd) target lbl descr active ref [] createdAt None None None in
  Ok (e, secret, domainEvent "webhook.endpointRegistered" id
                   (EndpointRegisteredPayload id (we_orgId e) (url e) (label e) (description e) (secretRef e)) (clock_after 1 clock)).

Definition requireReason (reason : string) : result string :=
  let why := trim reason in
  refuse (why = "") with "WEBHOOK_REASON_REQUIRED" ;; Ok why.

Definition pauseEndpoint (e : WebhookEndpoint) (reason : string) (clock : Clock) : result (WebhookEndpoint * EndpointEvent) :=
  refuse (we_status e <> active) with "WEBHOOK_TRANSITION_INVALID" ;;
  why ← requireReason reason;
  Ok (e <| we_status := paused |> <| pausedAt := Some (clock 0%nat) |>,
      domainEvent "webhook.endpointPaused" (endpointId e) (EndpointPausedPayload (endpointId e) (we_orgId e) why) (clock_after 1 clock)).

Definition resumeEndpoint (e : WebhookEndpoint) (clock : Clock) : result (WebhookEndpoint * EndpointEvent) :=
  refuse (we_status e <> paused) with "WEBHOOK_TRANSITION_INVALID" ;;
  Ok (e <| we_status := active |> <| resumedAt := Some (clock 0%nat) |>,
      domainEvent "webhook.endpointResumed" (endpointId e) (EndpointResumedPayload (endpointId e) (we_orgId e)) (clock_after 1 clock)).

Definition revokeEndpoint (e : WebhookEndpoint) (reason : string) (clock : Clock) : result (WebhookEndpoint * EndpointEvent) :=
  refuse (we_status e = revoked) with "WEBHOOK_TRANSITION_INVALID" ;;
  why ← requireReason reason;
  Ok (e <| we_status := revoked |> <| revokedAt := Some (clock 0%nat) |>,
      domainEvent "webhook.endpointRevoked" (endpointId e) (EndpointRevokedPayload (endpointId e) (we_orgId e) why) (clock_after 1 clock)).

Definition addSubscription (e : WebhookEndpoint) (pattern : string) (clock : Clock) : result (WebhookEndpoint * option EndpointEvent) :=
  parsed ← parseSubscriptionPattern pattern;
  let mode := parsed.2 in
  if decide (pattern ∈ (su_pattern <$> subscriptions e)) then Ok (e, None)
  else Ok (e <| subscriptions := subscriptions e ++ [MkSubscription pattern mode (clock 0%nat)] |>,
           Some (domainEvent "webhook.subscriptionAdded" (endpointId e)
                   (SubscriptionAddedPayload (endpointId e) (we_orgId e) pattern mode) (clock_after 1 clock))).

Definition endpointSubscribedTo (e : WebhookEndpoint) (eventType : string) : bool :=
  existsb (fun s => matchesSubscription (su_pattern s) eventType) (subscriptions e).

(** ** Matching *)

Lemma not_char_true d c : not_char d c = true <-> c <> d.
Proof. unfold not_char. destruct (Ascii.eqb_spec c d); naive_solver. Qed.

Lemma not_char_self d : not_char d d = false.
Proof. unfold not_char. by rewrite Ascii.eqb_refl. Qed.

Lemma split_two d l a b : split d l = [a; b] -> l = a ++ d :: b /\ d ∉ a /\ d ∉ b.
Proof.
  assert (forall l, split d l <> []) as Hne.
  { intros [|c l0]; cbn; [done|]. destruct (Ascii.eqb c d); [done|]. by destruct (split d l0). }
  assert (forall l w, split d l = [w] -> l = w /\ d ∉ w) as H1.
  { intros l0. induction l0 as [|c l0 IH]; intros w; cbn; [intros [= <-]; split; [done|apply not_elem_of_nil]|].
    destruct (Ascii.eqb_spec c d) as [->|Hc]; [intros [= _ E]; by apply Hne in E|].
    destruct (split d l0) as [|w0 [|? ?]] eqn:E; [by apply Hne in E| |done]. intros [= <-].
    destruct (IH w0 eq_refl) as [-> Hw]. split; [done|]. apply not_elem_of_cons. done. }
  revert a b. induction l as [|c l IH]; intros a b; cbn; [done|].
  destruct (Ascii.eqb_spec c d) as [->|Hc].
  - intros [= <- E]. apply H1 in E as [-> Hb]. split; [done|]. split; [apply not_elem_of_nil|done].
  - destruct (split d l) as [|w [|v [|? ?]]] eqn:E; try done. intros [= <- <-].
    destruct (IH w v eq_refl) as (-> & Hw & Hv). split; [done|]. split; [|done]. apply not_elem_of_cons. done.
Qed.

Lemma PATTERN_SEGMENT_no_dot l : PATTERN_SEGMENT l = true -> "."%char ∉ l.
Proof.
  destruct l as [|c r]; cbn; [done|]. intros [Hc Hr]%andb_true_iff N. apply elem_of_cons in N as [<-|N]; [done|].
  rewrite forallb_forall in Hr. apply list_elem_of_In, Hr in N. done.
Qed.

(** The shape of event types: a context, a point, a name of two characters or more. *)
Lemma event_type_shape s : EVENT_TYPE_PATTERN s = true ->
  exists tail, explode s = before "." (explode s) ++ "."%char :: tail /\ PATTERN_SEGMENT (before "." (explode s)) = true /\
    PATTERN_SEGMENT tail = true /\ (2 <= length tail)%nat.
Proof.
  unfold EVENT_TYPE_PATTERN, before. intros H. destruct (drop _ (explode s)) as [|d tail] eqn:E; [done|].
  apply take_while_stop in E as Hd. unfold not_char in Hd. destruct (Ascii.eqb_spec d ".") as [->|]; [|done].
  apply andb_true_iff in H as [[H1 H2]%andb_true_iff H3%Nat.leb_le]. exists tail. split; [|done].
  rewrite <- E. apply take_while_split.
Qed.

(** What a parsed pattern is: a known context with a name or with a star. *)
Lemma parse_Ok pattern p mode : parseSubscriptionPattern pattern = Ok (p, mode) ->
  p = pattern /\ exists prefix tail, explode pattern = prefix ++ "."%char :: tail /\ PATTERN_SEGMENT prefix = true /\
    implode prefix ∈ KNOWN_EVENT_PREFIXES /\
    match mode with wildcard => tail = ["*"%char] | exact => PATTERN_SEGMENT tail = true end.
Proof.
  unfold parseSubscriptionPattern. case_decide; [done|].
  destruct (split "." (explode pattern)) as [|prefix [|tail [|? ?]]] eqn:E; try done.
  apply split_two in E as (E & _ & _). destruct (PATTERN_SEGMENT prefix) eqn:Hp; [|done].
  case_bool_decide as Ht; [|destruct (PATTERN_SEGMENT tail) eqn:Hs; [|done]].
  all: case_decide as Hk; [done|]; apply not_false_iff_true, bool_decide_eq_true in Hk.
  all: intros [= <- <-]; split; [done|]; exists prefix, tail; done.
Qed.

Lemma exact_tail_no_star pre tail : PATTERN_SEGMENT tail = true -> endsWith (pre ++ "."%char :: tail) [".";"*"]%char = false.
Proof.
  intros Ht. apply not_true_iff_false. intros [r E]%endsWith_Ok.
  assert ("*"%char ∉ tail) as Hno.
  { destruct tail as [|c t]; [done|]. cbn in Ht. apply andb_true_iff in Ht as [Hc Ht]. rewrite forallb_forall in Ht.
    apply not_elem_of_cons. split; [by intros <-|]. intros N. apply list_elem_of_In, Ht in N. done. }
  destruct tail as [|c t] using rev_ind; [done|]. apply Hno.
  change [".";"*"]%char with (["."]%char ++ ["*"]%char) in E. rewrite app_comm_cons, !app_assoc in E.
  apply app_inj_tail in E as [_ ->]. apply elem_of_app. right. by apply list_elem_of_singleton.
Qed.

(** A subscription accepted by the parser matches exactly what it says: an exact pattern
    the event type it spells, a wildcard the well-formed event types of its context
    (the whole segment, so that payment never catches payments), and its context is in
    the catalogue. *)
Theorem subscription_matching_exact pattern p mode eventType : parseSubscriptionPattern pattern = Ok (p, mode) ->
  implode (before "." (explode pattern)) ∈ KNOWN_EVENT_PREFIXES /\
  (matchesSubscription pattern eventType = true <->
   EVENT_TYPE_PATTERN eventType = true /\
   match mode with
   | exact => eventType = pattern
   | wildcard => before "." (explode eventType) = before "." (explode pattern)
   end).
Proof.
  intros (_ & prefix & tail & E & Hp & Hk & Hm)%parse_Ok.
  assert (before "." (explode pattern) = prefix) as Eb.
  { rewrite E. apply take_while_prefix; [|apply not_char_self]. apply PATTERN_SEGMENT_no_dot in Hp.
    apply Forall_forall. intros c Hc. apply not_char_true. by intros ->. }
  rewrite Eb. split; [done|]. unfold matchesSubscription.
  destruct (EVENT_TYPE_PATTERN eventType) eqn:Et; [|naive_solver]. destruct mode.
  - rewrite E, exact_tail_no_star by done. rewrite bool_decide_eq_true. naive_solver.
  - subst tail. assert (endsWith (explode pattern) [".";"*"]%char = true) as -> by (apply endsWith_Ok; by exists prefix).
    assert (take (length (explode pattern) - 2) (explode pattern) = prefix) as ->.
    { rewrite E, length_app. cbn [length]. replace (length prefix + 2 - 2)%nat with (length prefix) by lia. by rewrite take_app_length. }
    rewrite bool_decide_eq_true. naive_solver.
Qed.

(** An exact pattern whose name has one letter is accepted although no event type has
    such a name: it matches nothing. *)
Lemma one_letter_pattern_matches_nothing :
  parseSubscriptionPattern "payment.x" = Ok ("payment.x", exact) /\ forall et, matchesSubscription "payment.x" et = false.
Proof.
  split; [vm_compute; reflexivity|]. intros et. unfold matchesSubscription. destruct (EVENT_TYPE_PATTERN et) eqn:E; [|done].
  cbv zeta. change (endsWith _ _) with false. cbv iota. case_bool_decide as N; [|done]. rewrite <- N in E. vm_compute in E. discriminate E.
Qed.

(** ** The grammar of accepted URLs *)

Definition dns_authority (a host : chars) : Prop := exists h port, a = h ++ port /\ host = lowerChar <$> h /\
  DNS_HOST_PATTERN host = true /\
  (port = [] \/ exists ds, port = ":"%char :: ds /\ PORT_PATTERN ds = true /\ 1 <= read_dec ds <= 65535).

Definition ipv6_authority (a host : chars) : Prop := exists h after, a = "["%char :: h ++ "]"%char :: after /\ "]"%char ∉ h /\
  host = lowerChar <$> h /\ IPV6_PATTERN host = true /\
  (after = [] \/ exists c ds, after = c :: ds /\ PORT_PATTERN ds = true).

(** A URL of the accepted form, with its (lower case) host. *)
Definition url_grammar (l host : chars) : Prop := exists scheme authority rest,
  l = scheme ++ explode "://" ++ authority ++ rest /\ lowerChar <$> scheme = explode "https" /\
  Forall (fun c => authorityChar c = true /\ c <> "@"%char) authority /\
  (forall c r, rest = c :: r -> authorityChar c = false) /\
  (dns_authority authority host \/ ipv6_authority authority host).

Definition char_all (f : ascii -> bool) : bool := forallb (fun n => f (charOf n)) (seqZ 0 256).

Lemma char_all_true f : char_all f = true -> forall c, f c = true.
Proof.
  intros H c. pose proof (charCode_range c) as Hr. pose proof (forallb_seqZ _ _ _ (charCode c) H ltac:(lia)) as Hc. cbn in Hc.
  replace (charOf (charCode c)) with c in Hc; [done|]. unfold charOf, charCode. by rewrite N2Z.id, ascii_N_embedding.
Qed.

Lemma lower_letter c : is_lower (lowerChar c) = true -> schemeChar c = true /\ (is_lower c || in_range 65 90 c) = true.
Proof.
  assert (implb (is_lower (lowerChar c)) (schemeChar c && (is_lower c || in_range 65 90 c)) = true) as H.
  { revert c. apply char_all_true. vm_compute. reflexivity. }
  intros E. rewrite E in H. by apply andb_true_iff in H.
Qed.

Lemma host_char c : hostChar (lowerChar c) = true -> c <> ":"%char /\ c <> "["%char.
Proof.
  assert (implb (hostChar (lowerChar c)) (not_char ":" c && not_char "[" c) = true) as H.
  { revert c. apply char_all_true. vm_compute. reflexivity. }
  intros E. rewrite E in H. apply andb_true_iff in H as [H1 H2]. by apply not_char_true in H1, H2.
Qed.

Lemma digit_not_colon c : is_digit c = true -> c <> ":"%char.
Proof. intros H ->. vm_compute in H. done. Qed.

Lemma before_all d l : d ∉ l -> before d l = l.
Proof. intros H. apply take_while_all, Forall_forall. intros c Hc. apply not_char_true. by intros ->. Qed.

Lemma before_first d l r : d ∉ l -> before d (l ++ d :: r) = l.
Proof.
  intros H. apply take_while_prefix; [|apply not_char_self]. apply Forall_forall. intros c Hc. apply not_char_true. by intros ->.
Qed.

Lemma before_cases d l : (before d l = l /\ d ∉ l) \/ exists r, l = before d l ++ d :: r /\ d ∉ before d l.
Proof.
  assert (d ∉ before d l) as Hno.
  { intros N. pose proof (take_while_before (not_char d) l) as H. rewrite Forall_forall in H. apply H, not_char_true in N. done. }
  pose proof (take_while_split (not_char d) l) as Hs. fold (before d l) in Hs.
  destruct (drop (length (before d l)) l) as [|x r] eqn:E.
  - left. rewrite app_nil_r in Hs. by rewrite <- Hs in Hno |- * at 1.
  - right. apply take_while_stop in E. unfold not_char in E. destruct (Ascii.eqb_spec x d) as [->|]; [|done]. by exists r.
Qed.

Lemma PORT_PATTERN_no_colon ds : PORT_PATTERN ds = true -> ":"%char ∉ ds.
Proof.
  intros [[H _]%andb_true_iff _]%andb_true_iff N. rewrite forallb_forall in H. apply list_elem_of_In, H in N.
  by apply digit_not_colon in N.
Qed.

Lemma dns_no_colon h : DNS_HOST_PATTERN (lowerChar <$> h) = true -> ":"%char ∉ h /\ (lowerChar <$> h) <> [] /\ forall r, h <> "["%char :: r.
Proof.
  intros [H Hne]%andb_true_iff. apply negb_true_iff, bool_decide_eq_false in Hne. rewrite forallb_forall in H.
  assert (forall c, c ∈ h -> c <> ":"%char /\ c <> "["%char) as Hc.
  { intros c Hin. apply host_char, H, list_elem_of_In, list_elem_of_fmap. by exists c. }
  split; [intros N; by apply Hc in N as []|]. split; [done|]. intros r ->. by destruct (Hc "["%char) as [_ []]; [left|].
Qed.

Lemma dnsHost_Ok a host : dnsHost a = Ok host <-> dns_authority a host.
Proof.
  unfold dnsHost, dns_authority. destruct (before_cases ":" (reverse a)) as [[E Hno]|(r & E & Hno)].
  - rewrite E, reverse_involutive, Nat.ltb_irrefl. cbn [andb].
    assert (":"%char ∉ a) as Ha by (by rewrite <- (reverse_involutive a), elem_of_reverse). split.
    + case_decide; [done|]. destruct (DNS_HOST_PATTERN _) eqn:Hd; [|done]. intros [= <-]. exists a, [].
      split; [by rewrite app_nil_r|]. split; [done|]. split; [done|by left].
    + intros (h & port & -> & -> & Hd & Hp). destruct Hp as [->|(ds & -> & _)]; [|set_solver].
      destruct (dns_no_colon h Hd) as (_ & Hne & _). rewrite app_nil_r in *. rewrite decide_False by done. by rewrite Hd.
  - set (p := before ":" (reverse a)) in *. assert (a = reverse r ++ ":"%char :: reverse p) as Ea.
    { rewrite <- (reverse_involutive a), E, reverse_app, reverse_cons, <- app_assoc. done. }
    assert (length a = length r + S (length p))%nat as Hl by (rewrite Ea, length_app, length_reverse; cbn; by rewrite length_reverse).
    rewrite length_reverse. assert (length p <? length a = true)%nat as -> by (apply Nat.ltb_lt; lia). cbn [andb].
    assert (take (length a - length p - 1) a = reverse r) as ->.
    { rewrite Hl. replace (length r + S (length p) - length p - 1)%nat with (length (reverse r)) by (rewrite length_reverse; lia).
      rewrite Ea. apply take_app_length. }
    split.
    + case_decide; [done|]. destruct (DNS_HOST_PATTERN _) eqn:Hd; [|done]. destruct (_ || _) eqn:Hp; [done|]. intros [= <-].
      apply orb_false_iff in Hp as [[Hp%negb_false_iff Hlo%Z.ltb_ge]%orb_false_iff Hhi%Z.ltb_ge].
      exists (reverse r), (":"%char :: reverse p). split; [done|]. split; [done|]. split; [done|]. right. by exists (reverse p).
    + intros (h & port & Ea' & -> & Hd & Hp). pose proof (dns_no_colon h Hd) as (Hh & Hne & _).
      destruct Hp as [->|(ds & -> & Hp & Hr)]; [rewrite app_nil_r in Ea'; subst h; rewrite Ea in Hh; set_solver|].
      assert (reverse p = ds /\ reverse r = h) as [-> ->].
      { rewrite Ea' in E. rewrite reverse_app, reverse_cons, <- app_assoc in E. cbn in E.
        assert (p = reverse ds) as Ep; [|subst p; rewrite Ep in *; split; [apply reverse_involutive|]].
        - unfold p. rewrite Ea', reverse_app, reverse_cons, <- app_assoc. apply before_first. rewrite elem_of_reverse. by apply PORT_PATTERN_no_colon.
        - apply (app_inv_head (reverse ds)) in E. injection E as E. by rewrite <- E, reverse_involutive. }
      rewrite decide_False by done. rewrite Hd, Hp. cbn [negb orb].
      destruct (Z.ltb_spec (read_dec ds) 1); [lia|]. by destruct (Z.ltb_spec 65535 (read_dec ds)); [lia|].
Qed.

Lemma ipv6Host_Ok inside host : ipv6Host inside = Ok host <-> ipv6_authority ("["%char :: inside) host.
Proof.
  unfold ipv6Host, ipv6_authority. destruct (before_cases "]" inside) as [[E Hno]|(after & E & Hno)].
  - rewrite E, drop_all. split; [done|]. intros (h & after & [= Ei] & _). rewrite Ei in Hno. set_solver.
  - set (h := before "]" inside) in *. assert (drop (length h) inside = "]"%char :: after) as -> by (rewrite E; apply drop_app_length).
    split.
    + destruct (match after with [] => false | _ :: port => negb (PORT_PATTERN port) end) eqn:Ha; [done|].
      destruct (IPV6_PATTERN _) eqn:Hh; [|done]. intros [= <-]. exists h, after. split; [by f_equal|]. split; [done|]. split; [done|]. split; [done|].
      destruct after as [|c ds]; [by left|right]. exists c, ds. split; [done|]. by apply negb_false_iff.
    + intros (h' & after' & [= Ei] & Hno' & -> & Hh & Ha).
      assert (h' = h) as -> by (unfold h; rewrite Ei; symmetry; by apply before_first).
      rewrite E in Ei. apply app_inv_head in Ei. injection Ei as ->.
      assert (match after' with [] => false | _ :: port => negb (PORT_PATTERN port) end = false) as ->.
      { destruct Ha as [->|(c & ds & -> & Hp)]; [done|]. by rewrite Hp. }
      by rewrite Hh.
Qed.

Lemma scheme_https l scheme rest : lowerChar <$> scheme = explode "https" ->
  URL_SCHEME_PATTERN l = Some (scheme, rest) <-> l = scheme ++ explode "://" ++ rest.
Proof.
  intros Hs. unfold URL_SCHEME_PATTERN. split.
  - pose proof (take_while_split schemeChar l) as E. destruct (take_while schemeChar l) as [|c s]; [done|].
    destruct (_ && _) eqn:H; [|done]. apply andb_true_iff in H as [_ [r Hr]%startsWith_Ok]. rewrite Hr in *. intros [= <- <-].
    exact E.
  - intros ->. assert (Forall (fun c => is_lower (lowerChar c) = true) scheme) as Hl.
    { change (Forall ((fun d => is_lower d = true) ∘ lowerChar) scheme). apply Forall_fmap. rewrite Hs. repeat constructor. }
    assert (take_while schemeChar (scheme ++ explode "://" ++ rest) = scheme) as ->.
    { apply take_while_prefix; [|done]. eapply Forall_impl; [exact Hl|]. intros c Hc. by apply lower_letter. }
    rewrite drop_app_length. destruct scheme as [|c s]; [discriminate Hs|]. inversion_clear Hl as [|? ? Hc _].
    apply lower_letter in Hc as [_ Hc]. rewrite Hc, (proj2 (startsWith_Ok _ _)) by (by eexists). done.
Qed.

Lemma take_while_authority authority rest : Forall (fun c => authorityChar c = true /\ c <> "@"%char) authority ->
  (forall c r, rest = c :: r -> authorityChar c = false) -> take_while authorityChar (authority ++ rest) = authority.
Proof.
  intros Ha Hr. assert (Forall (fun c => authorityChar c = true) authority) as Ha' by (eapply Forall_impl; [exact Ha|]; by intros c []).
  destruct rest as [|c r]; [rewrite app_nil_r; by apply take_while_all|]. apply take_while_prefix; [done|]. by eapply Hr.
Qed.

Definition hostOf (authority : chars) : result chars :=
  match authority with "["%char :: inside => ipv6Host inside | _ => dnsHost authority end.

Lemma hostOf_Ok a host : hostOf a = Ok host <-> dns_authority a host \/ ipv6_authority a host.
Proof.
  assert (forall inside, a = "["%char :: inside -> ~ dns_authority a host) as Hd.
  { intros inside -> (h & port & E & -> & Hh & Hp). destruct (dns_no_colon h Hh) as (_ & Hne & Hb).
    destruct h as [|c h]; [done|]. injection E as E _. apply (Hb h). by rewrite E. }
  destruct a as [|c inside]; [cbn [hostOf]; rewrite dnsHost_Ok; split; [by left|intros [?|(? & ? & [=] & _)]; done]|].
  destruct (decide (c = "["%char)) as [->|Hc].
  - cbn [hostOf]. rewrite ipv6Host_Ok. split; [by right|]. intros [H|?]; [|done]. by apply (Hd inside) in H.
  - assert (hostOf (c :: inside) = dnsHost (c :: inside)) as ->.
    { cbn [hostOf]. destruct c as [[] [] [] [] [] [] [] []]; done. }
    rewrite dnsHost_Ok. split; [by left|]. intros [?|(? & ? & [= E _] & _)]; [done|]. by destruct Hc.
Qed.

(** Validation and labels return their input. *)
Lemma validated_unchanged raw u : validateWebhookUrl raw = Ok u -> u = raw.
Proof.
  unfold validateWebhookUrl. case_decide as He; [done|]. intros (_ & H)%guard_Ok. destruct (URL_SCHEME_PATTERN _) as [[s r]|]; [|done].
  apply guard_Ok in H as [_ H]. case_decide as Ha; [done|]. apply bind_Ok in H as (h & _ & (_ & H)%guard_Ok). by apply (inj Ok) in H.
Qed.

Lemma label_unchanged lbl l : assertLabel lbl = Ok l -> l = lbl.
Proof. unfold assertLabel. intros (_ & (_ & H)%guard_Ok)%guard_Ok. by apply (inj Ok) in H. Qed.

(** The validator accepts exactly the absolute https URLs (in any case) of at most 2048
    characters without credentials, whose host is a name or a bracketed hexadecimal
    address, with a port in range, that is not on the list of forbidden hosts, and
    returns them unchanged. *)
Theorem url_validation_exact raw u : validateWebhookUrl raw = Ok u <->
  u = raw /\ Z.of_nat (length (explode raw)) <= MAX_URL_LENGTH /\
  exists host, url_grammar (explode raw) host /\ isForbiddenHost host = false.
Proof.
  unfold validateWebhookUrl, url_grammar. split.
  - case_decide as He; [done|]. intros (Hl & H)%guard_Ok. destruct (URL_SCHEME_PATTERN (explode raw)) as [[scheme rest]|] eqn:Es; [|done].
    apply guard_Ok in H as [Hs H]. apply dec_stable in Hs. case_decide as Ha; [done|].
    apply bind_Ok in H as (host & Hh & (Hf & H)%guard_Ok). apply (inj Ok) in H. split; [done|]. split; [lia|].
    apply (scheme_https _ _ _ Hs) in Es. apply not_true_iff_false in Hf. apply hostOf_Ok in Hh.
    exists host. split; [|done]. exists scheme, (take_while authorityChar rest), (drop (length (take_while authorityChar rest)) rest).
    rewrite <- take_while_split. split; [done|]. split; [done|]. split.
    + pose proof (take_while_before authorityChar rest) as Hb. rewrite Forall_forall in *. intros c Hc. split; [by apply Hb|]. by intros ->.
    + split; [|done]. intros c r. apply take_while_stop.
  - intros (-> & Hl & host & (scheme & authority & rest & E & Hs & Ha & Hr & Hh) & Hf).
    rewrite decide_False by (rewrite E; destruct scheme; done). apply guard_Ok. split; [lia|].
    rewrite (proj2 (scheme_https _ _ _ Hs) E). apply guard_Ok. split; [naive_solver|].
    rewrite take_while_authority by done. rewrite decide_False.
    2: { intros N. rewrite Forall_forall in Ha. by apply Ha in N as [_ []]. }
    apply bind_Ok. exists host. split; [by apply hostOf_Ok|]. apply guard_Ok. by rewrite Hf.
Qed.

(** The list of forbidden hosts names some spellings of this machine only: the same
    hosts written with a final point, as a number, or as another IPv6 spelling pass, and
    so does a bracketed host with any character before its port. *)
Lemma loopback_spellings_pass :
  Forall (fun s => validateWebhookUrl s = Ok s)
    ["https://localhost./hook"; "https://2130706433/hook"; "https://0/hook"; "https://[::ffff:7f00:1]/hook"; "https://[0::1]/hook"] /\
  validateWebhookUrl "https://[2001:db8::1]x443/hook" = Ok "https://[2001:db8::1]x443/hook" /\
  validateWebhookUrl "https://localhost/hook" = Err (DomainError "WEBHOOK_URL_FORBIDDEN_HOST").
Proof. split; [repeat constructor; vm_compute; reflexivity|]. split; vm_compute; reflexivity. Qed.

(** ** The endpoint's life *)

Inductive EndpointOp := op_pause (reason : string) | op_resume | op_revoke (reason : string) | op_subscribe (pattern : string).

Definition run_endpoint_op (op : EndpointOp) (clock : Clock) (e : WebhookEndpoint) : result (WebhookEndpoint * list EndpointEvent) :=
  match op with
  | op_pause reason => r ← pauseEndpoint e reason clock; Ok (r.1, [r.2])
  | op_resume => r ← resumeEndpoint e clock; Ok (r.1, [r.2])
  | op_revoke reason => r ← revokeEndpoint e reason clock; Ok (r.1, [r.2])
  | op_subscribe pattern => r ← addSubscription e pattern clock; Ok (r.1, option_list r.2)
  end.

Inductive endpoint_reachable (secret : string) : WebhookEndpoint -> Prop :=
| reach_registered cmd hash clock e ev : registerEndpoint cmd secret hash clock = Ok (e, secret, ev) -> endpoint_reachable secret e
| reach_endpoint_op op clock e e' evs : endpoint_reachable secret e -> run_endpoint_op op clock e = Ok (e', evs) ->
    endpoint_reachable secret e'.

Record endpoint_wf (secret : string) (e : WebhookEndpoint) : Prop := {
  ew_url : validateWebhookUrl (url e) = Ok (url e);
  ew_label : assertLabel (label e) = Ok (label e);
  ew_secret : secretRef e <> secret /\ SECRET_REF_PATTERN (secretRef e) = true;
  ew_patterns : NoDup (su_pattern <$> subscriptions e);
  ew_parsed : Forall (fun s => parseSubscriptionPattern (su_pattern s) = Ok (su_pattern s, su_mode s)) (subscriptions e);
  ew_revoked : we_status e = revoked <-> is_Some (revokedAt e);
}.

Lemma parse_same pattern r : parseSubscriptionPattern pattern = Ok r -> r = (pattern, r.2).
Proof. destruct r as [p m]. intros H. pose proof H as [-> _]%parse_Ok. done. Qed.

Lemma registered_wf cmd secret hash clock e s ev : registerEndpoint cmd secret hash clock = Ok (e, s, ev) -> endpoint_wf secret e.
Proof.
  unfold registerEndpoint. intros (target & Hu & (lbl & Hl & (descr & _ & H)%bind_Ok)%bind_Ok)%bind_Ok.
  apply guard_Ok in H as (_ & (Hr & (Hne & (id & _ & H)%bind_Ok)%guard_Ok)%guard_Ok). injection H as <- _ _.
  pose proof (validated_unchanged _ _ Hu) as ->. pose proof (label_unchanged _ _ Hl) as ->.
  split; cbn; try done.
  - split; [done|by apply not_false_iff_true].
  - apply NoDup_nil_2.
Qed.

Lemma endpoint_step_wf secret op clock e e' evs : endpoint_wf secret e -> run_endpoint_op op clock e = Ok (e', evs) -> endpoint_wf secret e'.
Proof.
  intros [W1 W2 W3 W4 W5 W6] H. destruct op; cbn [run_endpoint_op] in H; apply bind_Ok in H as ([e1 ev] & H & E); injection E as <- _.
  - unfold pauseEndpoint in H. apply guard_Ok in H as (Hs & (why & _ & H)%bind_Ok). injection H as <- _. apply dec_stable in Hs.
    split; cbn; try done. rewrite <- W6, Hs. done.
  - unfold resumeEndpoint in H. apply guard_Ok in H as (Hs & H). injection H as <- _. apply dec_stable in Hs.
    split; cbn; try done. rewrite <- W6, Hs. done.
  - unfold revokeEndpoint in H. apply guard_Ok in H as (Hs & (why & _ & H)%bind_Ok). injection H as <- _. split; cbn; done.
  - unfold addSubscription in H. apply bind_Ok in H as (r & Hp & H). pose proof (parse_same _ _ Hp) as Er. case_decide as Hin; injection H as <- _; [by split|].
    split; cbn; try done.
    + rewrite fmap_app. by apply NoDup_snoc_2.
    + apply Forall_snoc_2; [|done]. cbn. by rewrite <- Er.
Qed.

(** Whatever is done to an endpoint, its URL was validated, it never carries its signing
    secret, its subscriptions are distinct and parsed, and once revoked it stays so. *)
Theorem endpoint_reachable_wf secret e : endpoint_reachable secret e -> endpoint_wf secret e.
Proof. induction 1 as [cmd hash clock e ev H|op clock e e' evs _ IH H]; [by eapply registered_wf|by eapply endpoint_step_wf]. Qed.

Theorem revoked_is_final op clock e e' evs : we_status e = revoked -> run_endpoint_op op clock e = Ok (e', evs) -> we_status e' = revoked.
Proof.
  intros Hs H. destruct op; cbn [run_endpoint_op] in H; apply bind_Ok in H as ([e1 ev] & H & E); injection E as <- _.
  - unfold pauseEndpoint in H. rewrite Hs in H. done.
  - unfold resumeEndpoint in H. rewrite Hs in H. done.
  - unfold revokeEndpoint in H. rewrite Hs in H. done.
  - unfold addSubscription in H. apply bind_Ok in H as (r & Hp & H). case_decide; by injection H as <- _.
Qed.

(** Subscribing twice is subscribing once. *)
Theorem subscribing_is_idempotent e pattern clock clock' e1 ev1 : addSubscription e pattern clock = Ok (e1, ev1) ->
  addSubscription e1 pattern clock' = Ok (e1, None).
Proof.
  unfold addSubscription. intros (r & Hp & H)%bind_Ok. apply bind_Ok. exists r. split; [done|].
  case_decide as Hin; injection H as <- _; cbn; rewrite decide_True; try done.
  rewrite fmap_app. apply elem_of_app. right. by apply list_elem_of_singleton.
Qed.

Lemma subscription_matching_exact_witness :
  implode (before "." (explode "payment.*")) ∈ KNOWN_EVENT_PREFIXES /\
  (matchesSubscription "payment.*" "payment.confirmed" = true <->
   EVENT_TYPE_PATTERN "payment.confirmed" = true /\ before "." (explode "payment.confirmed") = before "." (explode "payment.*")).
Proof. apply (subscription_matching_exact "payment.*" "payment.*" wildcard "payment.confirmed"). vm_compute. reflexivity. Defined.
