(* ===== verification/WebhookSigning.v ===== *)
(** * Webhook signatures

    src/domain/webhooks/signing.ts: the canonical string, the signature header, the
    verification decision and the ledger of decisions.  The injected digest port is a
    parameter.  Timestamps are doubles checked to be safe integers and kept as [Z]; the
    skew is a difference of two of them, which compares with a safe integer exactly as
    the rounded double does. *)

From stdpp Require Import prelude strings list gmap.
From Stdlib Require Import ZArith Lia Ascii.
From S2P Require Import Prelude JsNumber JsString JsDate Money Events.
Local Open Scope string_scope.
Local Open Scope list_scope.
Local Open Scope Z_scope.
Local Open Scope js_scope.

Definition DEFAULT_MAX_SKEW_MS : Z := 300000.
Definition MIN_SIGNATURE_CHARS : nat := 16.
Definition MAX_SIGNATURE_CHARS : nat := 256.

Record WebhookSignature := MkSignature { timestampMs : Z; signature : string }.

Definition canonicalString (t : Z) (payload : string) : string := show_Z t +:+ "." +:+ payload.

Definition formatSignatureHeader (sig : WebhookSignature) : string :=
  "t=" +:+ show_Z (timestampMs sig) +:+ ",v1=" +:+ signature sig.

Definition is_lower_hex (c : ascii) : bool := is_digit c || in_range 97 102 c.

(** The digits of the timestamp and the signature of a header of the right shape:
    [t=], 1 to 19 digits, [,v1=], 16 to 256 lower-case hexadecimal digits. *)
Definition HEADER_PATTERN (header : string) : option (chars * chars) :=
  let l := explode header in
  if startsWith l (explode "t=") then
    let l := drop 2 l in
    let ds := take_while is_digit l in
    let rest := drop (length ds) l in
    if (1 <=? length ds)%nat && (length ds <=? 19)%nat && startsWith rest (explode ",v1=") then
      let hex := drop 4 rest in
      if forallb is_lower_hex hex && (MIN_SIGNATURE_CHARS <=? length hex)%nat && (length hex <=? MAX_SIGNATURE_CHARS)%nat
      then Some (ds, hex) else None
    else None
  else None.

(** [None] is the source's [{ ok: false }].  [Number] of a digit string is a safe integer
    exactly when its value is one. *)
Definition parseSignatureHeader (header : string) : option WebhookSignature :=
  match HEADER_PATTERN header with
  | None => None
  | Some (ds, hex) => if decide (read_dec ds <= MAX_SAFE_INTEGER) then Some (MkSignature (read_dec ds) (implode hex)) else None
  end.

Inductive SignatureDecision := VERIFIED | MISMATCH | STALE_TIMESTAMP | MALFORMED.
#[export] Instance SignatureDecision_eq_dec : EqDecision SignatureDecision.
Proof. solve_decision. Defined.

Definition signatureRejectReason (d : SignatureDecision) : option SignatureDecision :=
  match d with VERIFIED => None | _ => Some d end.

(** Prior decisions by [verificationKey]. *)
Notation VerificationLedger := (gmap string SignatureDecision).

Definition verificationKey (endpointId deliveryId : Uuid) : string := endpointId +:+ ":" +:+ deliveryId.

Inductive SigningPayload :=
| SignatureRejectedPayload (endpointId deliveryId : Uuid) (reason : SignatureDecision) (replay : bool).

Definition rejection (endpointId deliveryId : Uuid) (d : SignatureDecision) (replay : bool) (clock : Clock)
  : list (DomainEvent SigningPayload) :=
  match signatureRejectReason d with
  | None => []
  | Some reason =>
      [domainEvent "webhook.signatureRejected" deliveryId (SignatureRejectedPayload endpointId deliveryId reason replay) clock]
  end.

Section signing.
  Context (digest : string -> string -> string).

Definition sign (payload secret : string) (ts : number) : result WebhookSignature :=
  match safeInteger ts with
  | None => Err (DomainError "WEBHOOK_TIMESTAMP_INVALID")
  | Some t =>
      refuse (t < 0) with "WEBHOOK_TIMESTAMP_INVALID" ;;
      refuse (payload = "") with "WEBHOOK_PAYLOAD_REQUIRED" ;;
      refuse (secret = "") with "WEBHOOK_SECRET_REQUIRED" ;;
      Ok (MkSignature t (digest (canonicalString t payload) secret))
  end.

Definition verifySignature (header payload secret : string) (now : Z) (maxSkewMs : option number) : result SignatureDecision :=
  match match maxSkewMs with None => Some DEFAULT_MAX_SKEW_MS | Some x => safeInteger x end with
  | None => Err (DomainError "WEBHOOK_SKEW_INVALID")
  | Some skew =>
      refuse (skew < 0) with "WEBHOOK_SKEW_INVALID" ;;
      match parseSignatureHeader header with
      | None => Ok MALFORMED
      | Some sig =>
          if decide (Z.abs (now - timestampMs sig) > skew) then Ok STALE_TIMESTAMP
          else if decide (digest (canonicalString (timestampMs sig) payload) secret <> signature sig) then Ok MISMATCH
          else Ok VERIFIED
      end
  end.

Record DeliveryVerificationResult := MkVerification {
  vr_decision : SignatureDecision;
  vr_replay : bool;
  vr_ledger : VerificationLedger;
  vr_events : list (DomainEvent SigningPayload);
}.

Definition verifyDeliverySignature (ledger : VerificationLedger) (endpointId deliveryId : Uuid) (header payload secret : string)
    (maxSkewMs : option number) (clock : Clock) : result DeliveryVerificationResult :=
  let key := verificationKey endpointId deliveryId in
  match ledger !! key with
  | Some previous => Ok (MkVerification previous true ledger (rejection endpointId deliveryId previous true clock))
  | None =>
      decision ← verifySignature header payload secret (clock 0%nat) maxSkewMs;
      Ok (MkVerification decision false (<[key := decision]> ledger)
            (rejection endpointId deliveryId decision false (clock_after 1 clock)))
  end.

(** ** The canonical string is unambiguous *)

Lemma show_Z_nonneg t : 0 <= t -> show_Z t = show_dec t.
Proof. intros H. unfold show_Z. by destruct (Z.ltb_spec t 0); [lia|]. Qed.

Lemma explode_show t : 0 <= t -> explode (show_Z t) = show_base 10 t.
Proof. intros H. rewrite show_Z_nonneg by done. apply explode_implode. Qed.

Lemma digits_then t x r : 0 <= t -> is_digit x = false -> take_while is_digit (show_base 10 t ++ x :: r) = show_base 10 t.
Proof. intros Ht Hx. apply take_while_prefix; [by apply show_base_digits|done]. Qed.

Lemma canonicalString_inj t t' payload payload' : 0 <= t -> 0 <= t' ->
  canonicalString t payload = canonicalString t' payload' -> t = t' /\ payload = payload'.
Proof.
  intros Ht Ht' E. apply (f_equal explode) in E. unfold canonicalString in E. rewrite !explode_app, !explode_show in E by done.
  cbn [explode String.list_ascii_of_string app] in E. assert (show_base 10 t = show_base 10 t') as Ed.
  { apply (f_equal (take_while is_digit)) in E. by rewrite !digits_then in E. }
  split; [by rewrite <- (read_show_dec t), Ed, read_show_dec|]. rewrite Ed in E. apply app_inv_head in E. injection E as E.
  by apply explode_inj.
Qed.

(** ** Headers *)

(** The digests the header can carry. *)
Definition hex_digest (s : string) : Prop :=
  forallb is_lower_hex (explode s) = true /\ (MIN_SIGNATURE_CHARS <= length (explode s) <= MAX_SIGNATURE_CHARS)%nat.

Lemma header_roundtrip t sig : 0 <= t <= MAX_SAFE_INTEGER -> hex_digest sig ->
  parseSignatureHeader (formatSignatureHeader (MkSignature t sig)) = Some (MkSignature t sig).
Proof.
  intros Ht [Hh Hlen]. unfold parseSignatureHeader, HEADER_PATTERN, formatSignatureHeader. cbn [timestampMs signature].
  rewrite !explode_app, explode_show by lia. rewrite (proj2 (startsWith_Ok _ _)) by (by eexists).
  change (explode "t=") with ["t";"="]%char. change (explode ",v1=") with [",";"v";"1";"="]%char. cbn [app drop].
  destruct (digits_of_spec 10 t) as (Hne & _ & _ & Hl & _); [lia..|]. assert (length (show_base 10 t) = length (digits_of 10 t)) as El.
  { unfold show_base. apply length_fmap. }
  rewrite !drop_0, digits_then by (done || lia). rewrite drop_app_length.
  assert (1 <=? length (show_base 10 t) = true)%nat as ->.
  { apply Nat.leb_le. rewrite El. destruct (digits_of 10 t); [done|cbn; lia]. }
  assert (length (show_base 10 t) <=? 19 = true)%nat as ->.
  { apply Nat.leb_le. rewrite El. apply (Hl 18%nat). unfold MAX_SAFE_INTEGER in Ht. cbn. lia. }
  cbn [andb startsWith drop]. rewrite !Ascii.eqb_refl. cbn [andb]. rewrite ?drop_0, Hh, (proj2 (startsWith_Ok [] _)) by (by eexists).
  destruct Hlen as [H1%Nat.leb_le H2%Nat.leb_le]. rewrite H1, H2. cbn [andb]. rewrite read_show_dec by lia.
  rewrite decide_True by lia. by rewrite implode_explode.
Qed.

(** ** Verification *)

Definition skew_of (maxSkewMs : option number) : option Z :=
  match maxSkewMs with None => Some DEFAULT_MAX_SKEW_MS | Some x => safeInteger x end.

Lemma verified_iff header payload secret now maxSkewMs : verifySignature header payload secret now maxSkewMs = Ok VERIFIED <->
  exists skew sig, skew_of maxSkewMs = Some skew /\ 0 <= skew /\ parseSignatureHeader header = Some sig /\
    Z.abs (now - timestampMs sig) <= skew /\ digest (canonicalString (timestampMs sig) payload) secret = signature sig.
Proof.
  unfold verifySignature. fold (skew_of maxSkewMs). destruct (skew_of maxSkewMs) as [skew|]; [|naive_solver]. rewrite guard_Ok.
  destruct (parseSignatureHeader header) as [sig|]; [|naive_solver].
  destruct (decide (Z.abs (now - timestampMs sig) > skew)); [naive_solver lia|].
  destruct (decide (digest _ _ <> _)) as [N|N]; [naive_solver|]. apply dec_stable in N. split; [|naive_solver lia].
  intros [Hs _]. exists skew, sig. split; [done|]. split; [lia|]. split; [done|]. split; [lia|done].
Qed.

(** What [sign] produces, sent as a header, is verified by the holder of the same secret
    as long as the clocks differ by at most the allowed skew, provided the digest port
    returns lower-case hexadecimal of a length the header admits. *)
Theorem signed_delivery_verifies payload secret ts sig now maxSkewMs skew :
  (forall text, hex_digest (digest text secret)) -> sign payload secret ts = Ok sig ->
  skew_of maxSkewMs = Some skew -> Z.abs (now - timestampMs sig) <= skew ->
  verifySignature (formatSignatureHeader sig) payload secret now maxSkewMs = Ok VERIFIED.
Proof.
  intros Hd Hs Hk Hskew. unfold sign in Hs. destruct (safeInteger ts) as [t|] eqn:Et; [|done].
  apply guard_Ok in Hs as (Ht & (_ & (_ & Hs)%guard_Ok)%guard_Ok). apply (inj Ok) in Hs. subst sig. cbn [timestampMs] in *.
  apply safeInteger_bound in Et. apply verified_iff. exists skew. eexists. split; [done|]. split; [lia|].
  split; [apply header_roundtrip; [lia|apply Hd]|]. by split.
Qed.

(** C35: A signature binds one message: if the same signature verifies for two deliveries of
    an endpoint, they carry the same timestamp and the same payload, unless the digest port
    collides on the canonical strings of these two very deliveries, which then differ. *)
Theorem signature_binds_the_delivery header header' payload payload' secret now now' skew skew' sig sig' :
  parseSignatureHeader header = Some sig -> parseSignatureHeader header' = Some sig' -> signature sig = signature sig' ->
  verifySignature header payload secret now skew = Ok VERIFIED -> verifySignature header' payload' secret now' skew' = Ok VERIFIED ->
  (timestampMs sig = timestampMs sig' /\ payload = payload') \/
  (let text := canonicalString (timestampMs sig) payload in
   let text' := canonicalString (timestampMs sig') payload' in
   text <> text' /\ digest text secret = digest text' secret).
Proof.
  intros Hp Hp' E (k & s & _ & _ & Hs & _ & Hd)%verified_iff (k' & s' & _ & _ & Hs' & _ & Hd')%verified_iff.
  assert (s = sig) as -> by congruence. assert (s' = sig') as -> by congruence.
  assert (forall h s, parseSignatureHeader h = Some s -> 0 <= timestampMs s) as Hnn.
  { intros h s H. unfold parseSignatureHeader in H. destruct (HEADER_PATTERN h) as [[ds hex]|] eqn:Eh; [|done]. case_decide; [|done].
    injection H as <-. unfold HEADER_PATTERN in Eh. destruct (startsWith _ _); [|done]. destruct (_ && _); [|done]. destruct (_ && _); [|done].
    injection Eh as <- _. apply read_dec_nonneg, take_while_before. }
  destruct (decide (canonicalString (timestampMs sig) payload = canonicalString (timestampMs sig') payload')) as [Ec|Ec].
  - left. apply canonicalString_inj in Ec; [done|by eapply Hnn..].
  - right. cbv zeta. split; [exact Ec|]. congruence.
Qed.

(** ** The ledger *)

(** A delivery is decided once: verifying it again against the ledger returns the first
    decision whatever is presented, leaves the ledger as it is and repeats the
    rejection event exactly when the decision was a rejection. *)
Theorem decision_is_sticky ledger e d header payload secret skew clock res header' payload' secret' skew' clock' :
  verifyDeliverySignature ledger e d header payload secret skew clock = Ok res ->
  verifyDeliverySignature (vr_ledger res) e d header' payload' secret' skew' clock' =
  Ok (MkVerification (vr_decision res) true (vr_ledger res) (rejection e d (vr_decision res) true clock')).
Proof.
  unfold verifyDeliverySignature. destruct (ledger !! verificationKey e d) as [previous|] eqn:E.
  - intros [= <-]. cbn. by rewrite E.
  - intros (decision & _ & H)%bind_Ok. injection H as <-. cbn. by rewrite lookup_insert_eq.
Qed.

End signing.

(** ** A concrete port *)

(** The bits of a checksum of the secret and the text, as digits. *)
Definition sample_digest (text secret : string) : string :=
  implode ((fun i => if Z.testbit (fnv1a32 0 (secret +:+ "|" +:+ text)) i then "1"%char else "0"%char) <$> seqZ 0 32).

Lemma sample_digest_hex text secret : hex_digest (sample_digest text secret).
Proof.
  unfold hex_digest, sample_digest. rewrite explode_implode, length_fmap, length_seqZ. split; [|vm_compute; lia].
  apply forallb_Forall, Forall_fmap, Forall_true. intros i. cbn. by destruct (Z.testbit _ i).
Qed.

Definition sample_sig : WebhookSignature := MkSignature 1000 (sample_digest (canonicalString 1000 "{}") "s").
Definition sample_header : string := formatSignatureHeader sample_sig.

Lemma signed_delivery_verifies_witness : exists sig, sign sample_digest "{}" "secret" (num 1000) = Ok sig /\
  verifySignature sample_digest (formatSignatureHeader sig) "{}" "secret" 301000 None = Ok VERIFIED.
Proof.
  destruct (sign sample_digest "{}" "secret" (num 1000)) as [sig|] eqn:E; [|vm_compute in E; discriminate E].
  exists sig. split; [reflexivity|]. apply (signed_delivery_verifies sample_digest _ _ _ _ _ _ DEFAULT_MAX_SKEW_MS) with (2 := E).
  - intros text. apply sample_digest_hex.
  - reflexivity.
  - vm_compute in E. injection E as <-. vm_compute. discriminate.
Defined.

(** The delivery is received twice, within the skew of its stamp; with another stamp, or
    another payload, the port gives another signature. *)
Lemma signature_binds_the_delivery_witness :
  ((timestampMs sample_sig = timestampMs sample_sig /\ "{}" = "{}") \/
   (canonicalString 1000 "{}" <> canonicalString 1000 "{}" /\
    sample_digest (canonicalString 1000 "{}") "s" = sample_digest (canonicalString 1000 "{}") "s")) /\
  sample_digest (canonicalString 1001 "{}") "s" <> signature sample_sig /\ sample_digest (canonicalString 1000 "[]") "s" <> signature sample_sig.
Proof.
  split; [|vm_compute; done].
  apply (signature_binds_the_delivery sample_digest sample_header sample_header "{}" "{}" "s" 1000 2000 None None sample_sig sample_sig);
    vm_compute; reflexivity.
Defined.

Lemma decision_is_sticky_witness : exists res,
  verifyDeliverySignature sample_digest ∅ "e" "d" "garbage" "{}" "s" None (fixed_clock 1000) = Ok res /\
  verifyDeliverySignature sample_digest (vr_ledger res) "e" "d" sample_header "{}" "s" None (fixed_clock 1000) =
  Ok (MkVerification MALFORMED true (vr_ledger res) (rejection "e" "d" MALFORMED true (fixed_clock 1000))).
Proof.
  destruct (verifyDeliverySignature sample_digest ∅ "e" "d" "garbage" "{}" "s" None (fixed_clock 1000)) as [res|] eqn:E;
    [|vm_compute in E; discriminate E].
  exists res. split; [reflexivity|]. rewrite (decision_is_sticky sample_digest _ _ _ _ _ _ _ _ _ sample_header "{}" "s" None (fixed_clock 1000) E).
  vm_compute in E. injection E as <-. reflexivity.
Defined.
