(* ===== verification/WebhookDelivery.v ===== *)
(** * Webhook deliveries

    src/domain/webhooks/attempts.ts: the gate between events and the wire, the idempotent
    queue, and the attempt ladder.  A success and a failure return their events under
    different member names; both are the list of events here. *)

From stdpp Require Import prelude strings list relations.
From Stdlib Require Import ZArith Lia Ascii.
From S2P Require Import Prelude JsNumber JsString JsDate Money Events JsJson WebhookEndpoint.
Local Open Scope string_scope.
Local Open Scope list_scope.
Local Open Scope Z_scope.
Local Open Scope js_scope.

Definition MAX_PAYLOAD_BYTES : number := num 65536.

Definition DEFAULT_RETRY_LADDER_MS : list number := num <$> [30000; 120000; 600000; 1800000; 7200000; 21600000].

Definition ladderStep (x : number) : result Z :=
  match safeInteger x with
  | Some z => refuse (z <= 0) with "WEBHOOK_RETRY_LADDER_INVALID" ;; Ok z
  | None => Err (DomainError "WEBHOOK_RETRY_LADDER_INVALID")
  end.

Fixpoint ascending (steps : list Z) : bool :=
  match steps with
  | a :: ((b :: _) as rest) => (a <? b) && ascending rest
  | _ => true
  end.

Definition assertRetryLadder (ladder : list number) : result (list Z) :=
  refuse (ladder = []) with "WEBHOOK_RETRY_LADDER_INVALID" ;;
  steps ← traverse ladderStep ladder;
  refuse (ascending steps = false) with "WEBHOOK_RETRY_LADDER_INVALID" ;;
  Ok steps.

Definition maxAttemptsFor (ladder : list number) : Z := Z.of_nat (length ladder) + 1.

(** ** Planning *)

Record OutboundEvent := MkOutbound { ob_eventId : Uuid; ob_eventType : string; ob_payload : jvalue }.

Record DeliveryPlan := MkPlan {
  dp_endpointId : Uuid;
  dp_orgId : Uuid;
  dp_eventId : Uuid;
  dp_eventType : string;
  canonicalPayload : chars;
  plannedAt : Date;
}.

Inductive WebhookRefusalReason := ENDPOINT_PAUSED | ENDPOINT_REVOKED | NOT_SUBSCRIBED | PAYLOAD_TOO_LARGE.

Inductive DeliveryPayload :=
| DeliveryQueuedPayload (id endpointId orgId eventId : Uuid) (eventType : string)
| DeliverySucceededPayload (id endpointId orgId eventId : Uuid) (eventType : string) (attemptNo : Z)
| DeliveryFailedPayload (id endpointId orgId eventId : Uuid) (attemptNo : Z) (reason : string) (willRetry : bool) (nextAttemptAt : option string)
| DeliveryDeadLetteredPayload (id endpointId orgId eventId : Uuid) (attempts : Z) (reason : string)
| DeliveryRefusedPayload (orgId endpointId eventId : Uuid) (eventType : string) (reason : WebhookRefusalReason).
Notation DeliveryEvent := (DomainEvent DeliveryPayload).

Inductive PlanDeliveryResult :=
| planned (plan : DeliveryPlan)
| plan_refused (reason : WebhookRefusalReason) (event : DeliveryEvent).

Definition canonicalEnvelope (event : OutboundEvent) (orgId : Uuid) (occurredAt : string) : result chars :=
  text ← JSON_stringify (JObject
    [("name", JString (ob_eventType event)); ("version", JNumber (num 1)); ("aggregateId", JString (ob_eventId event));
     ("orgId", JString orgId); ("occurredAt", JString occurredAt); ("payload", ob_payload event)]);
  Ok (default [] text).

Definition planDelivery (event : OutboundEvent) (endpoint : WebhookEndpoint) (clock : Clock) (maxPayloadBytes : option number)
  : result PlanDeliveryResult :=
  refuse (ob_eventId event = "" \/ ob_eventType event = "" \/ match ob_payload event with JUndefined => true | _ => false end = true)
    with "WEBHOOK_EVENT_MALFORMED" ;;
  let refusal reason clock :=
    plan_refused reason
      (domainEvent "webhook.deliveryRefused" (endpointId endpoint)
         (DeliveryRefusedPayload (we_orgId endpoint) (endpointId endpoint) (ob_eventId event) (ob_eventType event) reason) clock) in
  match we_status endpoint with
  | revoked => Ok (refusal ENDPOINT_REVOKED clock)
  | paused => Ok (refusal ENDPOINT_PAUSED clock)
  | active =>
      if endpointSubscribedTo endpoint (ob_eventType event) then
        let now := clock 0%nat in
        text ← canonicalEnvelope event (we_orgId endpoint) (toISOString now);
        if nltb (default MAX_PAYLOAD_BYTES maxPayloadBytes) (num (Z.of_nat (length text)))
        then Ok (refusal PAYLOAD_TOO_LARGE (clock_after 1 clock))
        else Ok (planned (MkPlan (endpointId endpoint) (we_orgId endpoint) (ob_eventId event) (ob_eventType event) text now))
      else Ok (refusal NOT_SUBSCRIBED clock)
  end.

(** ** The delivery aggregate *)

Inductive DeliveryStatus := queued | delivering | delivered | deadLettered.
#[export] Instance DeliveryStatus_eq_dec : EqDecision DeliveryStatus.
Proof. solve_decision. Defined.

Inductive Outcome := success | failure.

Record AttemptRecord := MkAttempt { at_no : Z; at_at : Date; at_outcome : Outcome; at_failureReason : option string }.

Record Delivery := MkDelivery {
  deliveryId : Uuid;
  de_endpointId : Uuid;
  de_orgId : Uuid;
  de_eventId : Uuid;
  de_eventType : string;
  de_status : DeliveryStatus;
  attempts : Z;
  nextAttemptAt : option Date;
  deliveredAt : option Date;
  deadLetteredAt : option Date;
  lastFailureReason : option string;
  attemptLog : list AttemptRecord;
}.
#[export] Instance Delivery_eta : Eta Delivery := fun d =>
  MkDelivery (deliveryId d) (de_endpointId d) (de_orgId d) (de_eventId d) (de_eventType d) (de_status d) (attempts d)
    (nextAttemptAt d) (deliveredAt d) (deadLetteredAt d) (lastFailureReason d) (attemptLog d).

Definition isTerminalDelivery (d : Delivery) : bool :=
  match de_status d with delivered | deadLettered => true | _ => false end.

Definition activeFor (plan : DeliveryPlan) (d : Delivery) : bool :=
  negb (isTerminalDelivery d) && bool_decide (de_endpointId d = dp_endpointId plan /\ de_eventId d = dp_eventId plan).

Definition enqueueDelivery (existing : list Delivery) (plan : DeliveryPlan) (id : Uuid) (clock : Clock) : result (Delivery * DeliveryEvent) :=
  refuse (id ∈ (deliveryId <$> existing)) with "WEBHOOK_DELIVERY_ID_TAKEN" ;;
  refuse (existsb (activeFor plan) existing = true) with "WEBHOOK_DELIVERY_DUPLICATE" ;;
  let queuedAt := clock 0%nat in
  let d := MkDelivery id (dp_endpointId plan) (dp_orgId plan) (dp_eventId plan) (dp_eventType plan) queued 0 (Some queuedAt)
    None None None [] in
  Ok (d, domainEvent "webhook.deliveryQueued" (deliveryId d)
           (DeliveryQueuedPayload (deliveryId d) (de_endpointId d) (de_orgId d) (de_eventId d) (de_eventType d)) (clock_after 1 clock)).

Definition isDeliveryDue (d : Delivery) (clock : Clock) : bool :=
  match de_status d, nextAttemptAt d with
  | queued, Some t => t <=? clock 0%nat
  | _, _ => false
  end.

Definition beginAttempt (d : Delivery) (clock : Clock) : result Delivery :=
  refuse (de_status d <> queued) with "WEBHOOK_DELIVERY_NOT_QUEUED" ;;
  Ok (d <| de_status := delivering |>).

Inductive AttemptOutcome := succeeded | failed (reason : string).

Record AttemptResult := MkAttemptResult { ar_delivery : Delivery; ar_terminal : bool; ar_events : list DeliveryEvent }.

(** The failed branch of [recordAttemptOutcome], after its guards. *)
Definition recordFailure (d : Delivery) (reason : string) (steps : list Z) (clock : Clock) : result AttemptResult :=
  let now := clock 0%nat in
  let attemptNo := attempts d + 1 in
  let base := d <| attempts := attemptNo |> <| lastFailureReason := Some reason |>
                <| attemptLog := attemptLog d ++ [MkAttempt attemptNo now failure (Some reason)] |> in
  let failedEvent willRetry next clock := domainEvent "webhook.deliveryFailed" (deliveryId d)
    (DeliveryFailedPayload (deliveryId d) (de_endpointId d) (de_orgId d) (de_eventId d) attemptNo reason willRetry next) clock in
  match if decide (attemptNo <= Z.of_nat (length steps)) then steps !! Z.to_nat (attemptNo - 1) else None with
  | Some backoffMs =>
      let next := now + backoffMs in
      if decide (MAX_TIME < Z.abs next) then Err RangeError else
      Ok (MkAttemptResult (base <| de_status := queued |> <| nextAttemptAt := Some next |>) false
            [failedEvent true (Some (toISOString next)) (clock_after 1 clock)])
  | None =>
      Ok (MkAttemptResult (base <| de_status := deadLettered |> <| nextAttemptAt := None |> <| deadLetteredAt := Some now |>) true
            [failedEvent false None (clock_after 1 clock);
             domainEvent "webhook.deliveryDeadLettered" (deliveryId d)
               (DeliveryDeadLetteredPayload (deliveryId d) (de_endpointId d) (de_orgId d) (de_eventId d) attemptNo reason) (clock_after 2 clock)])
  end.

Definition recordAttemptOutcome (d : Delivery) (res : AttemptOutcome) (ladder : list number) (clock : Clock) : result AttemptResult :=
  steps ← assertRetryLadder ladder;
  refuse (de_status d <> delivering) with "WEBHOOK_DELIVERY_NOT_DELIVERING" ;;
  let now := clock 0%nat in
  let attemptNo := attempts d + 1 in
  match res with
  | succeeded =>
      Ok (MkAttemptResult
            (d <| de_status := delivered |> <| attempts := attemptNo |> <| nextAttemptAt := None |> <| deliveredAt := Some now |>
               <| attemptLog := attemptLog d ++ [MkAttempt attemptNo now success None] |>) false
            [domainEvent "webhook.deliverySucceeded" (deliveryId d)
               (DeliverySucceededPayload (deliveryId d) (de_endpointId d) (de_orgId d) (de_eventId d) (de_eventType d) attemptNo)
               (clock_after 1 clock)])
  | failed reason_ =>
      let reason := trim reason_ in
      refuse (reason = "") with "WEBHOOK_FAILURE_REASON_REQUIRED" ;;
      recordFailure d reason steps clock
  end.

(** ** Planning, exactly *)

(** A delivery is planned exactly for a well formed event, an active endpoint that
    subscribed to it, and a canonical text within the cap; the plan then carries that
    text.  Any other well formed event is refused as a value with one refusal event
    naming the first reason in the documented order. *)
Theorem planning_exact event endpoint clock cap res : planDelivery event endpoint clock cap = Ok res <->
  ob_eventId event <> "" /\ ob_eventType event <> "" /\ ob_payload event <> JUndefined /\
  let refusal reason t := plan_refused reason
    (MkEnvelope "webhook.deliveryRefused" (endpointId endpoint)
       (DeliveryRefusedPayload (we_orgId endpoint) (endpointId endpoint) (ob_eventId event) (ob_eventType event) reason) (toISOString t)) in
  match we_status endpoint with
  | revoked => res = refusal ENDPOINT_REVOKED (clock 0%nat)
  | paused => res = refusal ENDPOINT_PAUSED (clock 0%nat)
  | active =>
      (endpointSubscribedTo endpoint (ob_eventType event) = false /\ res = refusal NOT_SUBSCRIBED (clock 0%nat)) \/
      (endpointSubscribedTo endpoint (ob_eventType event) = true /\
       exists text, canonicalEnvelope event (we_orgId endpoint) (toISOString (clock 0%nat)) = Ok text /\
         if nltb (default MAX_PAYLOAD_BYTES cap) (num (Z.of_nat (length text)))
         then res = refusal PAYLOAD_TOO_LARGE (clock 1%nat)
         else res = planned (MkPlan (endpointId endpoint) (we_orgId endpoint) (ob_eventId event) (ob_eventType event) text (clock 0%nat)))
  end.
Proof.
  unfold planDelivery. rewrite guard_Ok. cbv zeta.
  assert (~ (ob_eventId event = "" \/ ob_eventType event = "" \/ match ob_payload event with JUndefined => true | _ => false end = true) <->
    ob_eventId event <> "" /\ ob_eventType event <> "" /\ ob_payload event <> JUndefined) as -> by (destruct (ob_payload event); naive_solver).
  destruct (we_status endpoint); [|naive_solver..].
  destruct (endpointSubscribedTo endpoint (ob_eventType event)); [|naive_solver]. rewrite bind_Ok.
  assert (forall (text : chars) A (a b : A), (if nltb (default MAX_PAYLOAD_BYTES cap) (num (Z.of_nat (length text))) then Ok a else Ok b) =
    Ok (if nltb (default MAX_PAYLOAD_BYTES cap) (num (Z.of_nat (length text))) then a else b)) as Hif by (intros text A a b; by destruct (nltb _ _)).
  setoid_rewrite Hif. split.
  - intros ((H1 & H2 & H3) & text & Ht & H). apply (inj Ok) in H. split; [done|]. split; [done|]. split; [done|]. right. split; [done|].
    exists text. split; [done|]. by destruct (nltb _ _).
  - intros (H1 & H2 & H3 & [[? _]|(_ & text & Ht & H)]); [done|]. split; [done|]. exists text. split; [done|]. by destruct (nltb _ _); rewrite H.
Qed.

(** ** The ladder *)

Lemma assertRetryLadder_Ok ladder steps : assertRetryLadder ladder = Ok steps ->
  steps <> [] /\ length steps = length ladder /\ Forall (fun z => 0 < z) steps.
Proof.
  unfold assertRetryLadder. intros (Hne & (steps' & Ht & (_ & H)%guard_Ok)%bind_Ok)%guard_Ok. apply (inj Ok) in H. subst steps'.
  apply traverse_Forall2 in Ht. split; [intros ->; by inversion Ht; subst|]. split; [symmetry; by eapply Forall2_length|].
  clear Hne. induction Ht as [|x z ladder steps Hx _ IH]; constructor; [|done]. unfold ladderStep in Hx.
  destruct (safeInteger x); [|done]. apply guard_Ok in Hx as [Hx Hz]. apply (inj Ok) in Hz. lia.
Qed.

Section ladder.
  Context (ladder : list number) (steps : list Z) (Hladder : assertRetryLadder ladder = Ok steps).

(** What a log of attempts with these outcomes looks like: numbered from one. *)
Definition numbered (log : list AttemptRecord) : Prop := forall i a, log !! i = Some a -> at_no a = Z.of_nat i + 1.

Definition all_failed (log : list AttemptRecord) : Prop :=
  Forall (fun a => at_outcome a = failure /\ is_Some (at_failureReason a)) log.

(** When the next attempt is due after a log of failures. *)
Definition due_after (log : list AttemptRecord) (t : Date) : Prop :=
  match last log with
  | None => True
  | Some a => exists backoff, steps !! (length log - 1)%nat = Some backoff /\ t = at_at a + backoff
  end.

Definition life_ok (d : Delivery) : Prop :=
  match de_status d with
  | queued | delivering => all_failed (attemptLog d) /\ attempts d <= Z.of_nat (length steps) /\
      (exists t, nextAttemptAt d = Some t /\ due_after (attemptLog d) t) /\ deliveredAt d = None /\ deadLetteredAt d = None
  | delivered => exists log t, attemptLog d = log ++ [MkAttempt (attempts d) t success None] /\ all_failed log /\
      attempts d <= Z.of_nat (length steps) + 1 /\ deliveredAt d = Some t /\ nextAttemptAt d = None /\ deadLetteredAt d = None
  | deadLettered => all_failed (attemptLog d) /\ attempts d = Z.of_nat (length steps) + 1 /\
      deadLetteredAt d = at_at <$> last (attemptLog d) /\ nextAttemptAt d = None /\ deliveredAt d = None
  end.

Record delivery_wf (d : Delivery) : Prop := {
  dw_count : attempts d = Z.of_nat (length (attemptLog d));
  dw_numbered : numbered (attemptLog d);
  dw_life : life_ok d;
}.

Lemma numbered_snoc log a : numbered log -> at_no a = Z.of_nat (length log) + 1 -> numbered (log ++ [a]).
Proof.
  intros Hn Ha i b Hi. apply lookup_app_Some in Hi as [Hi|[Hl Hi]]; [by apply Hn|].
  destruct (i - length log)%nat eqn:E; [|done]. injection Hi as <-. rewrite Ha. f_equal. lia.
Qed.

Lemma begin_wf d clock d' : delivery_wf d -> beginAttempt d clock = Ok d' -> delivery_wf d' /\ d' = d <| de_status := delivering |>.
Proof.
  intros [H1 H2 H3] (Hs & H)%guard_Ok. apply dec_stable in Hs. apply (inj Ok) in H. subst d'. split; [|done].
  split; [done|done|]. unfold life_ok in *. rewrite Hs in H3. exact H3.
Qed.

Lemma success_wf d clock res : delivery_wf d -> recordAttemptOutcome d succeeded ladder clock = Ok res ->
  delivery_wf (ar_delivery res) /\ de_status d = delivering /\ de_status (ar_delivery res) = delivered.
Proof.
  intros [H1 H2 H3] (s & _ & (Hs & H)%guard_Ok)%bind_Ok. apply dec_stable in Hs. apply (inj Ok) in H. subst res. split; [|done].
  unfold life_ok in H3. rewrite Hs in H3. destruct H3 as (Hf & Ha & _ & _ & Hd). split; cbn.
  - rewrite length_app, H1. cbn [length]. lia.
  - apply numbered_snoc; [done|]. cbn. lia.
  - exists (attemptLog d), (clock 0%nat). cbn. by split_and!; try lia.
Qed.

Lemma failure_wf d reason clock res : delivery_wf d -> recordAttemptOutcome d (failed reason) ladder clock = Ok res ->
  delivery_wf (ar_delivery res) /\ de_status d = delivering /\ attempts (ar_delivery res) = attempts d + 1 /\
  de_status (ar_delivery res) = if decide (attempts d + 1 <= Z.of_nat (length steps)) then queued else deadLettered.
Proof.
  intros [H1 H2 H3] (s & El & (Hs & H)%guard_Ok)%bind_Ok. rewrite El in Hladder. apply (inj Ok) in Hladder as ->.
  apply dec_stable in Hs. apply guard_Ok in H as [Hr H]. unfold life_ok in H3. rewrite Hs in H3. destruct H3 as (Hf & Ha & _ & Hd1 & Hd2).
  assert (forall a, at_outcome a = failure -> is_Some (at_failureReason a) -> all_failed (attemptLog d ++ [a])) as Hsnoc.
  { intros a Ho Hre. by apply Forall_snoc_2. }
  unfold recordFailure in H. case_decide as Hle.
  - destruct (steps !! Z.to_nat (attempts d + 1 - 1)) as [backoff|] eqn:Eb.
    2: { apply lookup_ge_None in Eb. lia. }
    case_decide; [discriminate H|]. apply (inj Ok) in H. subst res. split; [|done]. split; cbn.
    + rewrite length_app, H1. cbn [length]. lia.
    + apply numbered_snoc; [done|]. cbn. lia.
    + split; [by apply Hsnoc|]. split; [lia|]. split; [|done]. exists (clock 0%nat + backoff). split; [done|].
      unfold due_after. rewrite last_snoc, length_app. cbn. exists backoff. split; [|done].
      rewrite <- Eb. f_equal. lia.
  - apply (inj Ok) in H. subst res. split; [|done]. split; cbn.
    + rewrite length_app, H1. cbn [length]. lia.
    + apply numbered_snoc; [done|]. cbn. lia.
    + split; [by apply Hsnoc|]. split; [lia|]. by rewrite last_snoc.
Qed.

(** ** The queue *)

Inductive queue_step (q : list Delivery) : list Delivery -> Prop :=
| queue_enqueue plan id clock d e : enqueueDelivery q plan id clock = Ok (d, e) -> queue_step q (q ++ [d])
| queue_begin i d clock d' : q !! i = Some d -> beginAttempt d clock = Ok d' -> queue_step q (<[i := d']> q)
| queue_record i d res clock r : q !! i = Some d -> recordAttemptOutcome d res ladder clock = Ok r ->
    queue_step q (<[i := ar_delivery r]> q).

(** Where a delivery goes and what it carries. *)
Definition target (d : Delivery) : Uuid * Uuid := (de_endpointId d, de_eventId d).

Record queue_wf (q : list Delivery) : Prop := {
  qw_ids : NoDup (deliveryId <$> q);
  qw_each : Forall delivery_wf q;
  qw_active : forall i j d d', q !! i = Some d -> q !! j = Some d' -> isTerminalDelivery d = false -> isTerminalDelivery d' = false ->
    target d = target d' -> i = j;
}.

Lemma record_keeps d res clock r : recordAttemptOutcome d res ladder clock = Ok r ->
  deliveryId (ar_delivery r) = deliveryId d /\ target (ar_delivery r) = target d /\ isTerminalDelivery d = false.
Proof.
  unfold recordAttemptOutcome. intros (s & _ & (Hs & H)%guard_Ok)%bind_Ok. apply dec_stable in Hs.
  assert (isTerminalDelivery d = false) as Ht by (unfold isTerminalDelivery; by rewrite Hs).
  destruct res as [|reason]; [apply (inj Ok) in H; by subst r|]. apply guard_Ok in H as [_ H]. unfold recordFailure in H.
  destruct (if decide _ then _ else _) as [b|]; [case_decide; [discriminate H|]|]; apply (inj Ok) in H; by subst r.
Qed.

Lemma record_wf d res clock r : delivery_wf d -> recordAttemptOutcome d res ladder clock = Ok r -> delivery_wf (ar_delivery r).
Proof. intros Hw H. destruct res; [by eapply success_wf in H as [? _]|by eapply failure_wf in H as [? _]]. Qed.

Lemma queue_insert_wf q i d d' : queue_wf q -> q !! i = Some d -> delivery_wf d' -> deliveryId d' = deliveryId d -> target d' = target d ->
  isTerminalDelivery d = false -> queue_wf (<[i := d']> q).
Proof.
  intros [H1 H2 H3] Hi Hw Eid Et Hlive. assert (i < length q)%nat as Hlt by (by eapply lookup_lt_Some). split.
  - rewrite list_fmap_insert, list_insert_id; [done|]. rewrite list_lookup_fmap, Hi. cbn. by rewrite Eid.
  - by apply Forall_insert.
  - intros j k a b Hj Hk La Lb E.
    assert (forall m x, <[i := d']> q !! m = Some x -> isTerminalDelivery x = false ->
      exists y, q !! m = Some y /\ isTerminalDelivery y = false /\ target y = target x) as Hback.
    { intros m x Hm Lx. destruct (decide (m = i)) as [->|Hne].
      - rewrite list_lookup_insert_eq in Hm by done. injection Hm as <-. by exists d.
      - rewrite list_lookup_insert_ne in Hm by done. by exists x. }
    destruct (Hback _ _ Hj La) as (a' & Ha & La' & Ea). destruct (Hback _ _ Hk Lb) as (b' & Hb & Lb' & Eb).
    apply (H3 j k a' b'); try done. congruence.
Qed.

Lemma enqueue_wf q plan id clock d e : queue_wf q -> enqueueDelivery q plan id clock = Ok (d, e) -> queue_wf (q ++ [d]).
Proof.
  intros [H1 H2 H3] (Hid & (Hact & H)%guard_Ok)%guard_Ok. injection H as <- _. apply not_true_iff_false in Hact.
  set (d := MkDelivery id _ _ _ _ _ _ _ _ _ _ _). assert (delivery_wf d) as Hw.
  { split; [done|by intros i a Hi; cbn in Hi; rewrite lookup_nil in Hi|]. split; [constructor|]. split; [cbn; lia|]. split; [by eexists|done]. }
  split; [rewrite fmap_app; by apply NoDup_snoc_2|by apply Forall_snoc_2|].
  assert (forall j b, q !! j = Some b -> isTerminalDelivery b = false -> target b <> target d) as Hother.
  { intros j b Hj Lb Et. assert (existsb (activeFor plan) q = true) as Hyes; [|congruence]. apply existsb_exists. exists b. split; [apply list_elem_of_In; by eapply list_elem_of_lookup_2|].
    unfold activeFor. rewrite Lb. cbn. apply bool_decide_eq_true. unfold target in Et. injection Et as -> ->. done. }
  intros j k a b Hj Hk La Lb Et.
  apply lookup_app_Some in Hj as [Hj|[Lj Hj]]; apply lookup_app_Some in Hk as [Hk|[Lk Hk]].
  - by eapply H3.
  - destruct (k - length q)%nat; [|done]. injection Hk as <-. by destruct (Hother j a).
  - destruct (j - length q)%nat; [|done]. injection Hj as <-. by destruct (Hother k b).
  - destruct (j - length q)%nat eqn:E1, (k - length q)%nat eqn:E2; try done. lia.
Qed.

Lemma queue_step_wf q q' : queue_wf q -> queue_step q q' -> queue_wf q'.
Proof.
  intros Hq [plan id clock d e H|i d clock d' Hi H|i d res clock r Hi H].
  - by eapply enqueue_wf.
  - assert (delivery_wf d) as Hw by (pose proof (qw_each _ Hq) as Hd; by eapply Forall_lookup_1 in Hd).
    destruct (begin_wf _ _ _ Hw H) as [Hw' ->]. apply guard_Ok in H as [Hs _]. apply dec_stable in Hs.
    apply (queue_insert_wf q i d); try done. unfold isTerminalDelivery. by rewrite Hs.
  - assert (delivery_wf d) as Hw by (pose proof (qw_each _ Hq) as Hd; by eapply Forall_lookup_1 in Hd).
    destruct (record_keeps _ _ _ _ H) as (E1 & E2 & E3). apply (queue_insert_wf q i d); try done. by eapply record_wf.
Qed.

(** C36: Whatever is enqueued and attempted under a ladder, delivery ids stay unique, at most
    one delivery per endpoint and event is queued or in flight, every attempt is logged
    under its number, a delivery is delivered exactly by its last attempt and given up
    exactly after the first try and one retry per step, each retry due the ladder's
    step after the failure before it. *)
Theorem queue_never_double_sends q : rtc queue_step [] q -> queue_wf q.
Proof.
  revert q. apply (rtc_ind_r (fun q => queue_wf q)).
  - split; [apply NoDup_nil_2|constructor|]. intros i j d d' Hi. by rewrite lookup_nil in Hi.
  - intros q q' _ Hstep IH. by eapply queue_step_wf.
Qed.

(** ** Attempts come to an end *)

Definition attempt (d : Delivery) (try : Clock * AttemptOutcome) : result Delivery :=
  d' ← beginAttempt d try.1;
  r ← recordAttemptOutcome d' try.2 ladder try.1;
  Ok (ar_delivery r).

(** A failure with a reason, at a time from which every step stays a date. *)
Definition valid_failure (try : Clock * string) : Prop :=
  trim try.2 <> "" /\ Forall (fun s => Z.abs (try.1 0%nat + s) <= MAX_TIME) steps.

Definition failures (tries : list (Clock * string)) : list (Clock * AttemptOutcome) :=
  (fun try => (try.1, failed try.2)) <$> tries.

Lemma attempt_fails d try : delivery_wf d -> de_status d = queued -> valid_failure try -> exists d',
  attempt d (try.1, failed try.2) = Ok d' /\ delivery_wf d' /\ attempts d' = attempts d + 1 /\
  de_status d' = if decide (attempts d + 1 <= Z.of_nat (length steps)) then queued else deadLettered.
Proof.
  intros Hw Hs [Hr Ht]. assert (beginAttempt d try.1 = Ok (d <| de_status := delivering |>)) as Hb.
  { unfold beginAttempt. rewrite decide_False by naive_solver. done. }
  pose proof (begin_wf _ _ _ Hw Hb) as [Hw' _].
  assert (exists r, recordAttemptOutcome (d <| de_status := delivering |>) (failed try.2) ladder try.1 = Ok r) as [r H].
  { unfold recordAttemptOutcome. rewrite Hladder. cbn [mbind result_bind]. rewrite decide_False by (cbn; naive_solver).
    rewrite decide_False by done. unfold recordFailure. destruct (if decide _ then _ else _) as [b|] eqn:Eb; [|by eexists].
    rewrite decide_False; [by eexists|]. case_decide; [|done]. rewrite Forall_forall in Ht. apply list_elem_of_lookup_2, Ht in Eb. lia. }
  destruct (failure_wf _ _ _ _ Hw' H) as (Hwr & _ & Hat & Hst). exists (ar_delivery r). unfold attempt. cbn [fst snd]. rewrite Hb. cbn [mbind result_bind].
  rewrite H. cbn [mbind result_bind]. by split_and!.
Qed.

Lemma attempt_succeeds d clock : delivery_wf d -> de_status d = queued -> exists d', attempt d (clock, succeeded) = Ok d' /\ de_status d' = delivered.
Proof.
  intros Hw Hs. unfold attempt, beginAttempt. cbn [fst snd]. rewrite decide_False by naive_solver. cbn [mbind result_bind].
  unfold recordAttemptOutcome. rewrite Hladder. cbn [mbind result_bind]. rewrite decide_False by (cbn; naive_solver). cbn [mbind result_bind].
  by eexists.
Qed.

(** A queued delivery always comes to an end: after fewer failures than it has attempts
    left it is queued again and the next success delivers it; failing every remaining
    attempt dead-letters it; the number of attempts never exceeds one plus the steps. *)
Theorem every_delivery_ends d tries : delivery_wf d -> de_status d = queued -> Forall valid_failure tries ->
  attempts d + Z.of_nat (length tries) <= Z.of_nat (length steps) + 1 ->
  exists d', foldM attempt d (failures tries) = Ok d' /\ attempts d' = attempts d + Z.of_nat (length tries) /\
    if decide (attempts d' = Z.of_nat (length steps) + 1) then de_status d' = deadLettered
    else de_status d' = queued /\ forall clock, exists d'', attempt d' (clock, succeeded) = Ok d'' /\ de_status d'' = delivered.
Proof.
  revert d. induction tries as [|try tries IH]; intros d Hw Hs Hv Hlen.
  - exists d. split; [done|]. cbn [length] in *. split; [lia|]. rewrite decide_False.
    2: { pose proof (dw_life _ Hw) as Hl. unfold life_ok in Hl. rewrite Hs in Hl. destruct Hl as (_ & Hl & _). lia. }
    split; [done|]. intros clock. by apply attempt_succeeds.
  - apply Forall_cons in Hv as [Hv1 Hv]. destruct (attempt_fails d try Hw Hs Hv1) as (d1 & H & Hw1 & Ha & Hs1).
    unfold failures in *. cbn [fmap list_fmap foldM length] in *. rewrite H. cbn [mbind result_bind].
    case_decide as Hle.
    + destruct (IH d1) as (d' & Hd & Ha' & Hfin); [done|done|done|lia|]. exists d'. split; [done|]. split; [lia|done].
    + destruct tries as [|? ?]; [|cbn [length] in Hlen; lia]. exists d1. split; [done|]. split; [cbn; lia|].
      rewrite decide_True by (cbn [length] in Hlen; lia). done.
Qed.

End ladder.

(** ** Concrete deliveries *)

Definition default_steps : list Z := [30000; 120000; 600000; 1800000; 7200000; 21600000].

Lemma default_ladder : assertRetryLadder DEFAULT_RETRY_LADDER_MS = Ok default_steps.
Proof. vm_compute. reflexivity. Qed.

Definition sample_plan : DeliveryPlan := MkPlan "e-1" "org-1" "ev-1" "payment.confirmed" [] 0.

Definition sample_delivery : Delivery :=
  MkDelivery "d-1" "e-1" "org-1" "ev-1" "payment.confirmed" queued 0 (Some 5) None None None [].

Lemma queue_never_double_sends_witness : queue_wf default_steps [sample_delivery].
Proof.
  apply (queue_never_double_sends DEFAULT_RETRY_LADDER_MS default_steps default_ladder). apply rtc_once.
  destruct (enqueueDelivery [] sample_plan "d-1" (fixed_clock 5)) as [[d e]|] eqn:E; [|vm_compute in E; discriminate E].
  pose proof (queue_enqueue DEFAULT_RETRY_LADDER_MS [] sample_plan "d-1" (fixed_clock 5) d e E) as H.
  vm_compute in E. injection E as <- _. exact H.
Defined.

Lemma every_delivery_ends_witness : exists d',
  foldM (attempt DEFAULT_RETRY_LADDER_MS) sample_delivery (failures (replicate 7 (fixed_clock 9, "timeout"))) = Ok d' /\
  de_status d' = deadLettered.
Proof.
  destruct (every_delivery_ends DEFAULT_RETRY_LADDER_MS default_steps default_ladder sample_delivery (replicate 7 (fixed_clock 9, "timeout")))
    as (d' & H & Ha & Hs).
  - split; [reflexivity|by intros i a Hi; cbn in Hi; rewrite lookup_nil in Hi|]. split; [constructor|]. split; [vm_compute; discriminate|]. split; [by eexists|split; reflexivity].
  - reflexivity.
  - repeat constructor; try discriminate; vm_compute; discriminate.
  - vm_compute. discriminate.
  - exists d'. split; [exact H|]. cbn in Ha. rewrite decide_True in Hs by (rewrite Ha; reflexivity). exact Hs.
Defined.
