(* ===== verification/Corridor.v ===== *)
(** * Cross-border corridors and fees

    src/domain/crossborder/fees.ts, events.ts and corridor.ts: fee schedules and their
    breakdown, the lane's events, and the org-scoped corridors between two currencies.
    Event amounts are IEEE doubles; [minorToNumber] refuses the ones that would lose
    precision. *)

From stdpp Require Import prelude strings list relations.
From Stdlib Require Import ZArith Lia Ascii.
From S2P Require Import Prelude JsNumber JsString JsDate Money Fx Events.
Local Open Scope string_scope.
Local Open Scope list_scope.
Local Open Scope Z_scope.
Local Open Scope js_scope.

(** ** Fees *)

Definition MAX_FEE_BPS : Z := 10000.

Record FeeScheduleInput := MkFeeScheduleInput { fi_flatMinor : option numeric; fi_bps : option number }.

Record FeeSchedule := MkFeeSchedule { fs_flatMinor : Z; fs_bps : Z }.
#[export] Instance FeeSchedule_eq_dec : EqDecision FeeSchedule.
Proof. solve_decision. Defined.

Definition validateFeeSchedule (input : FeeScheduleInput) : result FeeSchedule :=
  flat ← match fi_flatMinor input with
    | None => Ok 0
    | Some raw =>
        match safeMinor raw with
        | None => Err (DomainError "FEE_SCHEDULE_INVALID")
        | Some v => refuse (v < 0) with "FEE_SCHEDULE_INVALID" ;; Ok v
        end
    end;
  bps ← match fi_bps input with
    | None => Ok 0
    | Some raw =>
        match safeInteger raw with
        | None => Err (DomainError "FEE_SCHEDULE_INVALID")
        | Some v => refuse (v < 0 \/ v > MAX_FEE_BPS) with "FEE_SCHEDULE_INVALID" ;; Ok v
        end
    end;
  Ok (MkFeeSchedule flat bps).

(** The lane's own copy of the rounding of shared/fx.ts. *)
Definition divideBankers (p q : Z) : Z :=
  let whole := Z.quot p q in
  let remainder := Z.rem p q in
  let twice := remainder * 2 in
  if twice >? q then whole + 1
  else if twice <? q then whole
  else if Z.rem whole 2 =? 0 then whole else whole + 1.

Definition toMinorUnits (v : numeric) : result Z :=
  match safeMinor v with
  | None => Err (DomainError "MONEY_NOT_INTEGER")
  | Some z => refuse (z < 0) with "MONEY_NEGATIVE" ;; Ok z
  end.

Record FeeBreakdown := MkFeeBreakdown {
  fb_amountMinor : Z;
  fb_flatMinor : Z;
  fb_bpsMinor : Z;
  fb_totalMinor : Z;
  fb_bps : Z;
}.
#[export] Instance FeeBreakdown_eq_dec : EqDecision FeeBreakdown.
Proof. solve_decision. Defined.

Definition computeFeeBreakdown (schedule : FeeSchedule) (amountMinor : numeric) : result FeeBreakdown :=
  amount ← toMinorUnits amountMinor;
  let bpsMinor := divideBankers (amount * fs_bps schedule) 10000 in
  Ok (MkFeeBreakdown amount (fs_flatMinor schedule) bpsMinor (fs_flatMinor schedule + bpsMinor) (fs_bps schedule)).

Definition feeSchedulesEqual (a b : FeeSchedule) : bool :=
  (fs_flatMinor a =? fs_flatMinor b) && (fs_bps a =? fs_bps b).

(** ** Events *)

(** The rate reference a quote carries. *)
Record AppliedRate := MkAppliedRate {
  ar_rowId : Uuid;
  ar_source : string;
  ar_numerator : Z;
  ar_denominator : Z;
  ar_appliedNumerator : Z;
  ar_appliedDenominator : Z;
  ar_scaleSource : Z;
  ar_scaleDest : Z;
  ar_effectiveFrom : string;
  ar_effectiveTo : option string;
}.
#[export] Instance AppliedRate_eq_dec : EqDecision AppliedRate.
Proof. solve_decision. Defined.

(** Amounts beyond [MAX_SAFE_INTEGER] are at least [2^53] as doubles, so the range of the
    bigint decides [Number.isSafeInteger]. *)
Definition minorToNumber (amountMinor : Z) : result number :=
  refuse (Z.abs amountMinor > MAX_SAFE_INTEGER) with "EVENT_AMOUNT_NOT_SAFE_INTEGER" ;; Ok (num amountMinor).

Record FeeBreakdownPayload := MkFeePayload { fp_flatMinor : number; fp_bpsMinor : number; fp_totalMinor : number; fp_bps : Z }.

Definition feeBreakdownPayload (fee : FeeBreakdown) : result FeeBreakdownPayload :=
  flat ← minorToNumber (fb_flatMinor fee);
  bps ← minorToNumber (fb_bpsMinor fee);
  total ← minorToNumber (fb_totalMinor fee);
  Ok (MkFeePayload flat bps total (fb_bps fee)).

Record AppliedRatePayload := MkRatePayload {
  rp_rowId : Uuid;
  rp_source : string;
  rp_ratio : string;
  rp_appliedRatio : string;
  rp_effectiveFrom : string;
  rp_effectiveTo : option string;
}.

Definition appliedRatePayload (rate : AppliedRate) : AppliedRatePayload :=
  MkRatePayload (ar_rowId rate) (ar_source rate)
    (show_Z (ar_numerator rate) +:+ "/" +:+ show_Z (ar_denominator rate))
    (show_Z (ar_appliedNumerator rate) +:+ "/" +:+ show_Z (ar_appliedDenominator rate))
    (ar_effectiveFrom rate) (ar_effectiveTo rate).

Inductive CrossborderPayload :=
| CorridorRegisteredPayload (corridorId orgId : Uuid) (src dst : Currency) (minMinor maxMinor : number)
    (rails : list string) (flat : number) (bps : Z) (registeredAt : string)
| CorridorSuspendedPayload (corridorId orgId : Uuid) (reason suspendedAt : string)
| QuoteIssuedPayload (quoteId orgId corridorId : Uuid) (src dst : Currency) (amountMinor : number)
    (fee : FeeBreakdownPayload) (debitMinor creditMinor : number) (rate : AppliedRatePayload)
    (issuedAt expiresAt : string) (ttlSeconds : Z)
| IntentAuthorizedPayload (intentId orgId corridorId quoteId : Uuid) (amountMinor : number) (src dst : Currency)
    (fee : FeeBreakdownPayload) (debitMinor creditMinor : number) (rate : AppliedRatePayload)
    (authorizedBy authorizedAt : string)
| IntentSubmittedPayload (intentId orgId corridorId quoteId : Uuid) (rail idempotencyKey : string)
    (debitMinor creditMinor : number) (submittedAt : string)
| IntentSettledPayload (intentId corridorId quoteId : Uuid) (src dst : Currency) (debitMinor creditMinor : number)
    (settlementRef : option string) (settledAt : string)
| IntentCancelledPayload (intentId corridorId : Uuid) (reason actorId cancelledAt : string)
| IntentFailedPayload (intentId corridorId : Uuid) (reason failedAt : string)
| IntentReplayObservedPayload (intentId : Uuid) (idempotencyKey : string) (quoteId : Uuid) (seenAt : string).
Notation CrossborderEvent := (DomainEvent CrossborderPayload).

(** The lane's event factories; each takes its aggregate id from the payload's own id. *)
Definition crossborderEvent (p : CrossborderPayload) (clock : Clock) : CrossborderEvent :=
  match p with
  | CorridorRegisteredPayload id _ _ _ _ _ _ _ _ _ => domainEvent "crossborder.corridorRegistered" id p clock
  | CorridorSuspendedPayload id _ _ _ => domainEvent "crossborder.corridorSuspended" id p clock
  | QuoteIssuedPayload id _ _ _ _ _ _ _ _ _ _ _ _ => domainEvent "crossborder.quoteIssued" id p clock
  | IntentAuthorizedPayload id _ _ _ _ _ _ _ _ _ _ _ _ => domainEvent "crossborder.intentAuthorized" id p clock
  | IntentSubmittedPayload id _ _ _ _ _ _ _ _ => domainEvent "crossborder.intentSubmitted" id p clock
  | IntentSettledPayload id _ _ _ _ _ _ _ _ => domainEvent "crossborder.intentSettled" id p clock
  | IntentCancelledPayload id _ _ _ _ => domainEvent "crossborder.intentCancelled" id p clock
  | IntentFailedPayload id _ _ _ => domainEvent "crossborder.intentFailed" id p clock
  | IntentReplayObservedPayload id _ _ _ => domainEvent "crossborder.intentReplayObserved" id p clock
  end.

(** ** Corridors *)

(** [/^[a-z0-9_]{3,40}$/] *)
Definition railChar (c : ascii) : bool := in_range 97 122 c || is_digit c || bool_decide (c = "_"%char).
Definition RAIL_PATTERN (s : string) : bool :=
  let l := explode s in (3 <=? length l)%nat && (length l <=? 40)%nat && forallb railChar l.

Inductive CorridorStatus := corridor_active | corridor_suspended.
#[export] Instance CorridorStatus_eq_dec : EqDecision CorridorStatus.
Proof. solve_decision. Defined.

Record CorridorInput := MkCorridorInput {
  ci_corridorId : option Uuid;
  ci_orgId : Uuid;
  ci_sourceCurrency : string;
  ci_destinationCurrency : string;
  ci_minAmountMinor : numeric;
  ci_maxAmountMinor : numeric;
  ci_rails : list string;
  ci_feeSchedule : FeeScheduleInput;
}.

Record Corridor := MkCorridor {
  corridorId : Uuid;
  co_orgId : Uuid;
  co_sourceCurrency : Currency;
  co_destinationCurrency : Currency;
  co_minAmountMinor : Z;
  co_maxAmountMinor : Z;
  co_rails : list string;
  co_feeSchedule : FeeSchedule;
  co_status : CorridorStatus;
  co_registeredAt : string;
  co_suspendedAt : option string;
}.
#[export] Instance Corridor_eta : Eta Corridor := fun c =>
  MkCorridor (corridorId c) (co_orgId c) (co_sourceCurrency c) (co_destinationCurrency c) (co_minAmountMinor c)
    (co_maxAmountMinor c) (co_rails c) (co_feeSchedule c) (co_status c) (co_registeredAt c) (co_suspendedAt c).

Definition assertUuidShape (value : Uuid) (code : string) : result unit :=
  refuse (UUID_PATTERN value = false) with code ;; Ok tt.

(** One turn of the loop over the rails. *)
Definition addRail (rails : list string) (rail : string) : result (list string) :=
  refuse (RAIL_PATTERN rail = false) with "CORRIDOR_RAIL_INVALID" ;; Ok (addDistinct rails rail).

Definition registerCorridor (input : CorridorInput) (clock : Clock) : result (Corridor * list CrossborderEvent) :=
  id ← match ci_corridorId input with
    | Some id => Ok id
    | None => uuidFromSeed ("corridor:" +:+ ci_orgId input +:+ ":" +:+ ci_sourceCurrency input +:+ "->" +:+ ci_destinationCurrency input)
    end;
  _ ← assertUuidShape id "CORRIDOR_ID_MALFORMED";
  _ ← assertUuidShape (ci_orgId input) "CORRIDOR_ID_MALFORMED";
  match currency_of_string (ci_sourceCurrency input), currency_of_string (ci_destinationCurrency input) with
  | Some src, Some dst =>
      refuse (src = dst) with "CORRIDOR_PAIR_INVALID" ;;
      minAmount ← toMinorUnits (ci_minAmountMinor input);
      maxAmount ← toMinorUnits (ci_maxAmountMinor input);
      refuse (minAmount < 1) with "CORRIDOR_BOUNDS_INVALID" ;;
      refuse (minAmount > maxAmount) with "CORRIDOR_BOUNDS_INVALID" ;;
      rails ← foldM addRail [] (ci_rails input);
      refuse (rails = []) with "CORRIDOR_RAILS_REQUIRED" ;;
      fees ← validateFeeSchedule (ci_feeSchedule input);
      let registeredAt := toISOString (clock 0%nat) in
      let c := MkCorridor id (ci_orgId input) src dst minAmount maxAmount rails fees corridor_active registeredAt None in
      minN ← minorToNumber minAmount;
      maxN ← minorToNumber maxAmount;
      flatN ← minorToNumber (fs_flatMinor fees);
      Ok (c, [crossborderEvent (CorridorRegisteredPayload id (ci_orgId input) src dst minN maxN rails flatN (fs_bps fees) registeredAt)
                (clock_after 1 clock)])
  | _, _ => Err (DomainError "CORRIDOR_CURRENCY_UNSUPPORTED")
  end.

Definition suspendCorridor (c : Corridor) (reason : string) (clock : Clock) : result (Corridor * list CrossborderEvent) :=
  let why := trim reason in
  refuse (why = "") with "CORRIDOR_REASON_REQUIRED" ;;
  refuse (co_status c <> corridor_active) with "CORRIDOR_ALREADY_SUSPENDED" ;;
  let suspendedAt := toISOString (clock 0%nat) in
  Ok (c <| co_status := corridor_suspended |> <| co_suspendedAt := Some suspendedAt |>,
      [crossborderEvent (CorridorSuspendedPayload (corridorId c) (co_orgId c) why suspendedAt) (clock_after 1 clock)]).

Definition resolveCorridor (corridors : list Corridor) (id : Uuid) : result Corridor :=
  match List.find (fun c => bool_decide (corridorId c = id)) corridors with
  | Some c => Ok c
  | None => Err (DomainError "CORRIDOR_UNKNOWN")
  end.

Definition assertCorridorLive (c : Corridor) : result unit :=
  refuse (co_status c <> corridor_active) with "CORRIDOR_SUSPENDED" ;; Ok tt.

Definition assertAmountWithinCorridor (c : Corridor) (amountMinor : numeric) : result Z :=
  amount ← toMinorUnits amountMinor;
  refuse (amount < co_minAmountMinor c \/ amount > co_maxAmountMinor c) with "AMOUNT_OUT_OF_BOUNDS" ;;
  Ok amount.

(** ** What a registered corridor satisfies *)

Definition schedule_wf (s : FeeSchedule) : Prop := 0 <= fs_flatMinor s /\ 0 <= fs_bps s <= MAX_FEE_BPS.

Record corridor_wf (c : Corridor) : Prop := {
  corridor_id_shape : UUID_PATTERN (corridorId c) = true /\ UUID_PATTERN (co_orgId c) = true;
  corridor_pair : co_sourceCurrency c <> co_destinationCurrency c;
  corridor_bounds : 1 <= co_minAmountMinor c <= co_maxAmountMinor c;
  corridor_events_exact : co_maxAmountMinor c <= MAX_SAFE_INTEGER;
  corridor_rails : co_rails c <> [] /\ NoDup (co_rails c) /\ Forall (fun r => RAIL_PATTERN r = true) (co_rails c);
  corridor_fees : schedule_wf (co_feeSchedule c);
  corridor_stamp : co_status c = corridor_suspended <-> is_Some (co_suspendedAt c);
}.

Inductive corridor_step (c : Corridor) : Corridor -> Prop :=
| step_suspend reason clock c' evs : suspendCorridor c reason clock = Ok (c', evs) -> corridor_step c c'.

Definition corridor_reachable (c : Corridor) : Prop :=
  exists input clock c0 evs, registerCorridor input clock = Ok (c0, evs) /\ rtc corridor_step c0 c.

(** ** Lemmas *)

(** The lane's rounding is the shared one. *)
Lemma divideBankers_shared p q : divideBankers p q = Fx.divideBankers p q.
Proof. done. Qed.

Lemma toMinorUnits_shared v : toMinorUnits v = Fx.toMinorUnits v.
Proof. done. Qed.

Lemma toMinorUnits_iff v z : toMinorUnits v = Ok z <-> safeMinor v = Some z /\ 0 <= z.
Proof.
  unfold toMinorUnits. destruct (safeMinor v) as [w|]; [|naive_solver]. rewrite guard_Ok.
  split; [intros [H [= ->]]; split; [done|lia]|intros [[= ->] H]; split; [lia|done]].
Qed.

Lemma assertAmountWithinCorridor_Ok c v z : assertAmountWithinCorridor c v = Ok z <->
  toMinorUnits v = Ok z /\ co_minAmountMinor c <= z <= co_maxAmountMinor c.
Proof.
  unfold assertAmountWithinCorridor. rewrite bind_Ok. setoid_rewrite guard_Ok.
  split; [intros (a & Ha & H & [= ->]); split; [done|lia]|intros [Ha H]; exists z; split; [done|]; split; [lia|done]].
Qed.

Lemma minorToNumber_iff z n : minorToNumber z = Ok n <-> Z.abs z <= MAX_SAFE_INTEGER /\ n = num z.
Proof. unfold minorToNumber. rewrite guard_Ok. split; [intros [H [= ->]]; split; [lia|done]|intros [H ->]; split; [lia|done]]. Qed.

Lemma validateFeeSchedule_wf input s : validateFeeSchedule input = Ok s -> schedule_wf s.
Proof.
  unfold validateFeeSchedule. intros (flat & Hf & (bps & Hb & [= <-])%bind_Ok)%bind_Ok. unfold schedule_wf. cbn [fs_flatMinor fs_bps]. split.
  - destruct (fi_flatMinor input) as [raw|]; [|naive_solver lia]. destruct (safeMinor raw); [|done]. apply guard_Ok in Hf as [H [= ->]]. lia.
  - destruct (fi_bps input) as [raw|]; [|injection Hb as <-; unfold MAX_FEE_BPS; lia].
    destruct (safeInteger raw); [|done]. apply guard_Ok in Hb as [H [= ->]]. lia.
Qed.

Lemma computeFeeBreakdown_Ok s v fb : computeFeeBreakdown s v = Ok fb <->
  exists a, toMinorUnits v = Ok a /\
    let b := divideBankers (a * fs_bps s) 10000 in fb = MkFeeBreakdown a (fs_flatMinor s) b (fs_flatMinor s + b) (fs_bps s).
Proof. unfold computeFeeBreakdown. rewrite bind_Ok. naive_solver. Qed.

Lemma addRail_loop xs : forall acc rails, NoDup acc -> Forall (fun r => RAIL_PATTERN r = true) acc ->
  foldM addRail acc xs = Ok rails -> NoDup rails /\ Forall (fun r => RAIL_PATTERN r = true) rails.
Proof.
  induction xs as [|x xs IH]; intros acc rails Hnd Hp; cbn [foldM]; [by intros [= <-]|].
  unfold addRail at 1. intros (acc' & [Hx [= <-]]%guard_Ok & H)%bind_Ok. apply not_false_is_true in Hx.
  apply (IH _ _) in H; [done|apply (addDistinct_spec acc x Hnd)|]. unfold addDistinct.
  case_decide; [done|]. by apply Forall_snoc_2.
Qed.

Lemma divideBankers_le p q m : 0 <= p -> 0 < q -> p <= m * q -> divideBankers p q <= m.
Proof.
  intros Hp Hq Hm. pose proof (divideBankers_error p q Hp Hq) as He. apply Z.abs_le in He. rewrite divideBankers_shared.
  destruct (Z.le_gt_cases (Fx.divideBankers p q) m) as [|Hgt]; [done|].
  assert (Fx.divideBankers p q * q >= (m + 1) * q) by nia. nia.
Qed.

Lemma registerCorridor_wf input clock c evs : registerCorridor input clock = Ok (c, evs) ->
  corridor_wf c /\ co_status c = corridor_active.
Proof.
  unfold registerCorridor, assertUuidShape.
  intros (id & _ & (? & [Hid _]%guard_Ok & (? & [Horg _]%guard_Ok & H)%bind_Ok)%bind_Ok)%bind_Ok.
  apply not_false_is_true in Hid, Horg.
  destruct (currency_of_string _) as [src|]; [|done]. destruct (currency_of_string _) as [dst|]; [|done].
  apply guard_Ok in H as [Hpair (lo & Hlo & (hi & Hhi & [Hlo1 [Hle H]%guard_Ok]%guard_Ok)%bind_Ok)%bind_Ok].
  apply bind_Ok in H as (rails & Hrails & [Hne (fees & Hfees & H)%bind_Ok]%guard_Ok).
  apply bind_Ok in H as (loN & _ & (hiN & [Hhi' _]%minorToNumber_iff & (flatN & _ & [= <- <-])%bind_Ok)%bind_Ok).
  apply toMinorUnits_iff in Hhi as [_ Hhi0].
  apply addRail_loop in Hrails as [Hnd Hpat]; [|constructor|constructor]. apply validateFeeSchedule_wf in Hfees.
  split; [|done]. constructor; cbn; try done; try lia.
Qed.

Lemma suspendCorridor_Ok c reason clock c' evs : suspendCorridor c reason clock = Ok (c', evs) ->
  co_status c = corridor_active /\ trim reason <> "" /\
  c' = c <| co_status := corridor_suspended |> <| co_suspendedAt := Some (toISOString (clock 0%nat)) |> /\
  evs = [crossborderEvent (CorridorSuspendedPayload (corridorId c) (co_orgId c) (trim reason) (toISOString (clock 0%nat)))
           (clock_after 1 clock)].
Proof.
  unfold suspendCorridor. intros [Hr [Hs [= <- <-]]%guard_Ok]%guard_Ok. apply dec_stable in Hs. done.
Qed.

Lemma corridor_step_wf c c' : corridor_step c c' -> corridor_wf c -> corridor_wf c'.
Proof.
  intros [reason clock c1 evs (_ & _ & -> & _)%suspendCorridor_Ok] [? ? ? ? ? ? ?]. constructor; try done.
Qed.

Lemma corridor_wf_reachable c : corridor_reachable c -> corridor_wf c.
Proof.
  intros (input & clock & c0 & evs & [H0 _]%registerCorridor_wf & Hs).
  induction Hs as [|c1 c2 c3 H12 _ IH]; [done|]. apply IH. by eapply corridor_step_wf.
Qed.

Definition sample_corridor_input : CorridorInput :=
  MkCorridorInput None sample_id "KES" "UGX" (Big 1000) (Num (num 500000000)) ["mpesa_ke_ug"; "bank_swift"; "mpesa_ke_ug"]
    (MkFeeScheduleInput (Some (Big 5000)) (Some (num 150))).

Definition sample_corridor : Corridor :=
  MkCorridor "f3114fbc-4538-4a45-0b05-7cae5aec93b7" sample_id KES UGX 1000 500000000 ["mpesa_ke_ug"; "bank_swift"]
    (MkFeeSchedule 5000 150) corridor_active "1970-01-01T00:00:00.000Z" None.

(** ** Theorems *)

(** The fee of an amount: the total is the exact sum of its parts, the basis-point part is
    the nearest cent to [amount * bps / 10000] with halves to even, and within a validated
    schedule it is neither negative nor larger than the amount itself. *)
Theorem fee_breakdown_exact (s : FeeSchedule) (v : numeric) (fb : FeeBreakdown) :
  schedule_wf s -> computeFeeBreakdown s v = Ok fb ->
  fb_totalMinor fb = fb_flatMinor fb + fb_bpsMinor fb /\ fb_flatMinor fb = fs_flatMinor s /\
  0 <= fb_bpsMinor fb <= fb_amountMinor fb /\
  Z.abs (2 * (fb_bpsMinor fb * 10000 - fb_amountMinor fb * fs_bps s)) <= 10000 /\
  (Z.abs (2 * (fb_bpsMinor fb * 10000 - fb_amountMinor fb * fs_bps s)) = 10000 -> Z.Even (fb_bpsMinor fb)).
Proof.
  intros [Hf Hb] (a & [Ha Ha0]%toMinorUnits_iff & ->)%computeFeeBreakdown_Ok. unfold MAX_FEE_BPS in Hb. cbn.
  assert (Hp : 0 <= a * fs_bps s) by nia.
  split; [done|]. split; [done|]. split; [|split].
  - split; [by apply divideBankers_nonneg|]. apply divideBankers_le; nia.
  - by apply divideBankers_error.
  - by apply divideBankers_tie.
Qed.

Lemma fee_breakdown_exact_witness :
  exists fb, computeFeeBreakdown (MkFeeSchedule 5000 150) (Big 12367) = Ok fb /\ fb_bpsMinor fb = 186 /\ fb_totalMinor fb = fb_flatMinor fb + fb_bpsMinor fb.
Proof.
  eexists. split; [reflexivity|]. split; [vm_compute; reflexivity|].
  apply (fee_breakdown_exact (MkFeeSchedule 5000 150) (Big 12367)); [unfold schedule_wf, MAX_FEE_BPS; cbn; lia|reflexivity].
Defined.

(** C20: Every corridor the lane can ever show moves between two different currencies, has
    bounds [1 <= min <= max] that its events can carry exactly, at least one rail, no
    duplicate rail, and a fee schedule in range; it carries a suspension stamp exactly
    when it is suspended. *)
Theorem corridor_reachable_wf (c : Corridor) : corridor_reachable c -> corridor_wf c.
Proof. apply corridor_wf_reachable. Qed.

Lemma corridor_reachable_wf_witness : corridor_wf sample_corridor.
Proof.
  apply corridor_reachable_wf. exists sample_corridor_input, (fixed_clock 0). do 2 eexists. split; [|apply rtc_refl].
  vm_compute. reflexivity.
Defined.

(** A suspended corridor stays suspended: no operation reopens it, and it is neither
    quotable nor draftable. *)
Theorem suspension_is_final (c c' : Corridor) :
  co_status c = corridor_suspended -> rtc corridor_step c c' ->
  c' = c /\ assertCorridorLive c' = Err (DomainError "CORRIDOR_SUSPENDED").
Proof.
  intros Hs H. inversion H as [|? c1 ? [reason clock ? evs Hstep] ?]; subst.
  - unfold assertCorridorLive. rewrite Hs. done.
  - apply suspendCorridor_Ok in Hstep as [Hs' _]. congruence.
Qed.

Lemma suspension_is_final_witness :
  exists c, suspendCorridor sample_corridor "audit" (fixed_clock 0) = Ok (c, [crossborderEvent (CorridorSuspendedPayload (corridorId sample_corridor) sample_id "audit" "1970-01-01T00:00:00.000Z") (fixed_clock 0)]) /\
    assertCorridorLive c = Err (DomainError "CORRIDOR_SUSPENDED").
Proof. eexists. split; [reflexivity|]. apply (suspension_is_final (sample_corridor <| co_status := corridor_suspended |> <| co_suspendedAt := Some "1970-01-01T00:00:00.000Z" |>)); [reflexivity|apply rtc_refl]. Defined.
