(* ===== verification/CrossborderQuote.v ===== *)
(** * Cross-border quotes

    src/domain/crossborder/quote.ts: the rate table and its effective windows, the
    conversion with one rounding, and the quote as an immutable offer.  Two parameters
    stand for the engine: [Date_parse] on strings of the ISO shape, and
    [localeCompare] (ECMA-402 collation), by which the code sorts the rows of a pair.
    Messages of the reconciliation are represented by the amounts they print. *)

From stdpp Require Import prelude strings list sorting.
From Stdlib Require Import ZArith Lia.
From S2P Require Import Prelude JsNumber JsString JsDate IsoDate Money Fx Events Corridor.
Local Open Scope string_scope.
Local Open Scope list_scope.
Local Open Scope Z_scope.
Local Open Scope js_scope.

Definition DEFAULT_MINOR_SCALES (c : Currency) : Z :=
  match c with UGX => 0 | KES | USD | GBP | EUR | TZS => 2 end.

Definition DEFAULT_QUOTE_TTL_SECONDS : number := num 120.

(** ** Rate rows *)

Record RateRowInput := MkRateRowInput {
  ri_rowId : Uuid;
  ri_sourceCurrency : string;
  ri_destinationCurrency : string;
  ri_numerator : numeric;
  ri_denominator : numeric;
  ri_effectiveFrom : DateInput;
  ri_effectiveTo : option DateInput;
  ri_source : string;
  ri_scaleSource : option number;
  ri_scaleDest : option number;
}.

Record RateRow := MkRateRow {
  rowId : Uuid;
  rr_sourceCurrency : Currency;
  rr_destinationCurrency : Currency;
  rr_numerator : Z;
  rr_denominator : Z;
  rr_scaleSource : Z;
  rr_scaleDest : Z;
  rr_source : string;
  rr_effectiveFrom : string;
  rr_effectiveTo : option string;
}.

Definition assertRowUuid (value : Uuid) : result unit :=
  refuse (UUID_PATTERN value = false) with "RATE_TABLE_INVALID" ;; Ok tt.

Definition assertRowScale (scale : option number) (c : Currency) : result Z :=
  match safeInteger (default (num (DEFAULT_MINOR_SCALES c)) scale) with
  | None => Err (DomainError "RATE_TABLE_INVALID")
  | Some z => refuse (z < 0 \/ z > 8) with "RATE_TABLE_INVALID" ;; Ok z
  end.

Definition asPositiveBigint (value : numeric) : result Z :=
  match safeMinor value with
  | None => Err (DomainError "RATE_TABLE_INVALID")
  | Some v => refuse (v <= 0) with "RATE_TABLE_INVALID" ;; Ok v
  end.

(** [a <= b] on JavaScript strings. *)
Definition string_leb (a b : string) : bool := string_cmp a b <=? 0.

Section engine.
  Context (Date_parse : string -> option Z) (localeCompare : string -> string -> Z).

Definition normalizeInstant (input : DateInput) : result string :=
  match input with
  | DateObject None => Err (DomainError "RATE_TABLE_INVALID")
  | DateObject (Some t) => Ok (toISOString t)
  | DateText s =>
      if ISO_PATTERN s && bool_decide (is_Some (Date_parse s)) then Ok s
      else Err (DomainError "RATE_TABLE_INVALID")
  end.

Definition rateRow (input : RateRowInput) : result RateRow :=
  _ ← assertRowUuid (ri_rowId input);
  match currency_of_string (ri_sourceCurrency input), currency_of_string (ri_destinationCurrency input) with
  | Some src, Some dst =>
      refuse (src = dst) with "RATE_TABLE_INVALID" ;;
      num ← asPositiveBigint (ri_numerator input);
      den ← asPositiveBigint (ri_denominator input);
      scaleSource ← assertRowScale (ri_scaleSource input) src;
      scaleDest ← assertRowScale (ri_scaleDest input) dst;
      let source := trim (ri_source input) in
      refuse (source = "") with "RATE_TABLE_INVALID" ;;
      effectiveFrom ← normalizeInstant (ri_effectiveFrom input);
      effectiveTo ← match ri_effectiveTo input with
        | None => Ok None
        | Some d => to ← normalizeInstant d; Ok (Some to)
        end;
      refuse (match effectiveTo with Some to => string_cmp to effectiveFrom <? 0 | None => false end = true)
        with "RATE_TABLE_INVALID" ;;
      Ok (MkRateRow (ri_rowId input) src dst num den scaleSource scaleDest source effectiveFrom effectiveTo)
  | _, _ => Err (DomainError "RATE_TABLE_INVALID")
  end.

(** ** The rate table *)

Definition pair_of (r : RateRow) : Currency * Currency := (rr_sourceCurrency r, rr_destinationCurrency r).

Definition row_cmp (a b : RateRow) : Z :=
  let c := localeCompare (rr_effectiveFrom a) (rr_effectiveFrom b) in
  if c =? 0 then localeCompare (rowId a) (rowId b) else c.

Definition overlaps (prev next : RateRow) : bool :=
  match rr_effectiveTo prev with
  | None => true
  | Some to => string_leb (rr_effectiveFrom next) to
  end.

(** The loop over the neighbours of the sorted rows. *)
Fixpoint assertDisjoint (sorted : list RateRow) : result unit :=
  match sorted with
  | prev :: (next :: _) as rest => refuse (overlaps prev next = true) with "RATE_TABLE_OVERLAP" ;; assertDisjoint rest
  | _ => Ok tt
  end.

(** [byPair]: the rows of each pair, pairs in the order of their first row. *)
Definition rows_of_pair (p : Currency * Currency) (rows : list RateRow) : list RateRow :=
  List.filter (fun r => bool_decide (pair_of r = p)) rows.

Definition validateRateTable (rows : list RateRowInput) : result (list RateRow) :=
  built ← traverse rateRow rows;
  _ ← traverse (fun p => assertDisjoint (sort_by row_cmp (rows_of_pair p built))) (distinct (pair_of <$> built));
  Ok built.

(** [toMillis(a) <= t]; a date that does not parse is NaN. *)
Definition startsBy (a : string) (t : Z) : bool := match Date_parse a with Some f => f <=? t | None => false end.
Definition endsAfter (a : string) (t : Z) : bool := match Date_parse a with Some e => t <=? e | None => false end.

Definition isActiveAt (t : Date) (r : RateRow) : bool :=
  startsBy (rr_effectiveFrom r) t && match rr_effectiveTo r with None => true | Some to => endsAfter to t end.

Definition findActiveRateRow (rows : list RateRow) (src dst : Currency) (now : Date) : result RateRow :=
  let pairRows := rows_of_pair (src, dst) rows in
  refuse (pairRows = []) with "RATE_TABLE_PAIR_MISMATCH" ;;
  match List.filter (isActiveAt now) pairRows with
  | [] => Err (DomainError "RATE_TABLE_NO_ACTIVE_ROW")
  | [r] => Ok r
  | _ => Err (DomainError "RATE_TABLE_OVERLAP")
  end.

(** ** Conversion *)

Definition appliedRatio (r : RateRow) : Z * Z :=
  let gap := rr_scaleDest r - rr_scaleSource r in
  if gap >=? 0 then (rr_numerator r * pow10 gap, rr_denominator r)
  else (rr_numerator r, rr_denominator r * pow10 (- gap)).

Definition convertWithRatio (amountMinor num den : Z) : Z := divideBankers (amountMinor * num) den.

Definition convertAcrossCorridor (amountMinor : numeric) (r : RateRow) : result Z :=
  amount ← toMinorUnits amountMinor;
  let '(num, den) := appliedRatio r in
  Ok (convertWithRatio amount num den).

(** ** Quotes *)

Record FxQuote := MkFxQuote {
  quoteId : Uuid;
  q_orgId : Uuid;
  q_corridorId : Uuid;
  q_sourceCurrency : Currency;
  q_destinationCurrency : Currency;
  q_sourceAmountMinor : Z;
  q_fee : FeeBreakdown;
  q_sourceDebitMinor : Z;
  q_destinationCreditMinor : Z;
  q_rate : AppliedRate;
  q_issuedAt : string;
  q_expiresAt : string;
  q_ttlSeconds : Z;
}.

Record QuoteOptions := MkQuoteOptions { qo_ttlSeconds : option number; qo_quoteId : option Uuid }.

Definition quoteIssued (q : FxQuote) (clock : Clock) : CrossborderEvent :=
  crossborderEvent (QuoteIssuedPayload (quoteId q) (q_orgId q) (q_corridorId q) (q_sourceCurrency q) (q_destinationCurrency q)
    (num (q_sourceAmountMinor q))
    (MkFeePayload (num (fb_flatMinor (q_fee q))) (num (fb_bpsMinor (q_fee q))) (num (fb_totalMinor (q_fee q))) (fb_bps (q_fee q)))
    (num (q_sourceDebitMinor q)) (num (q_destinationCreditMinor q)) (appliedRatePayload (q_rate q))
    (q_issuedAt q) (q_expiresAt q) (q_ttlSeconds q)) clock.

Definition quote (corridors : list Corridor) (id : Uuid) (amountMinor : numeric) (rateTable : list RateRowInput)
    (clock : Clock) (options : QuoteOptions) : result (FxQuote * list CrossborderEvent) :=
  corridor ← resolveCorridor corridors id;
  _ ← assertCorridorLive corridor;
  amount ← toMinorUnits amountMinor;
  _ ← assertAmountWithinCorridor corridor (Big amount);
  match safeInteger (default DEFAULT_QUOTE_TTL_SECONDS (qo_ttlSeconds options)) with
  | None => Err (DomainError "QUOTE_TTL_INVALID")
  | Some ttlSeconds =>
      refuse (ttlSeconds < 1) with "QUOTE_TTL_INVALID" ;;
      rows ← validateRateTable rateTable;
      let now := clock 0%nat in
      row ← findActiveRateRow rows (co_sourceCurrency corridor) (co_destinationCurrency corridor) now;
      fee ← computeFeeBreakdown (co_feeSchedule corridor) (Big amount);
      let '(num, den) := appliedRatio row in
      let destinationCreditMinor := convertWithRatio amount num den in
      let sourceDebitMinor := amount + fb_totalMinor fee in
      let issuedAt := toISOString now in
      if decide (MAX_TIME < now + ttlSeconds * 1000) then Err RangeError else
      let expiresAt := toISOString (now + ttlSeconds * 1000) in
      quoteId ← match qo_quoteId options with
        | Some id => Ok id
        | None => uuidFromSeed ("quote:" +:+ id +:+ ":" +:+ show_Z amount +:+ ":" +:+ issuedAt)
        end;
      let rate := MkAppliedRate (rowId row) (rr_source row) (rr_numerator row) (rr_denominator row) num den
        (rr_scaleSource row) (rr_scaleDest row) (rr_effectiveFrom row) (rr_effectiveTo row) in
      let q := MkFxQuote quoteId (co_orgId corridor) (corridorId corridor) (co_sourceCurrency corridor)
        (co_destinationCurrency corridor) amount fee sourceDebitMinor destinationCreditMinor rate issuedAt expiresAt ttlSeconds in
      Ok (q, [quoteIssued q (clock_after 1 clock)])
  end.

(** [now >= toMillis(expiresAt)]: never true of a date that does not parse. *)
Definition isQuoteExpired (expiresAt : string) (now : Date) : bool :=
  match Date_parse expiresAt with Some e => e <=? now | None => false end.

Definition assertQuoteUsable (expiresAt : string) (now : Date) : result unit :=
  refuse (isQuoteExpired expiresAt now = true) with "QUOTE_EXPIRED" ;; Ok tt.

(** ** Reconciliation *)

Inductive QuoteProblem :=
| fee_components_do_not_sum (flat bps total : Z)
| source_debit_differs (debit amount fee : Z)
| destination_credit_differs (credit recomputed : Z).

Definition reconcileQuoteLegs (q : FxQuote) : bool * list QuoteProblem :=
  let fee := q_fee q in
  let p1 := if fb_flatMinor fee + fb_bpsMinor fee =? fb_totalMinor fee then []
            else [fee_components_do_not_sum (fb_flatMinor fee) (fb_bpsMinor fee) (fb_totalMinor fee)] in
  let p2 := if q_sourceAmountMinor q + fb_totalMinor fee =? q_sourceDebitMinor q then []
            else [source_debit_differs (q_sourceDebitMinor q) (q_sourceAmountMinor q) (fb_totalMinor fee)] in
  let recomputed := convertWithRatio (q_sourceAmountMinor q) (ar_appliedNumerator (q_rate q)) (ar_appliedDenominator (q_rate q)) in
  let p3 := if recomputed =? q_destinationCreditMinor q then []
            else [destination_credit_differs (q_destinationCreditMinor q) recomputed] in
  let problems := p1 ++ p2 ++ p3 in
  ((length problems =? 0)%nat, problems).

End engine.

(** ** The engine's contracts *)

(** [String.prototype.localeCompare] is a consistent comparator (ECMA-402), and collation
    orders the digits of strings of one shape. *)
Class Collation (localeCompare : string -> string -> Z) : Prop := {
  collation_antisym : forall a b, Z.sgn (localeCompare a b) = - Z.sgn (localeCompare b a);
  collation_trans : forall a b c, localeCompare a b <= 0 -> localeCompare b c <= 0 -> localeCompare a c <= 0;
  collation_instants : forall t t', iso_time t -> iso_time t' ->
    localeCompare (toISOString t) (toISOString t') <= 0 <-> t <= t';
}.

Lemma string_cmp_instants t t' : iso_time t -> iso_time t' -> string_cmp (toISOString t) (toISOString t') <= 0 <-> t <= t'.
Proof. intros H H'. unfold string_cmp. rewrite toISOString_cmp by done. destruct (Z.compare_spec t t'); lia. Qed.

#[export] Instance string_collation : Collation string_cmp.
Proof.
  constructor.
  - intros a b. rewrite (string_cmp_antisym a b), Z.sgn_opp. done.
  - apply string_cmp_trans.
  - apply string_cmp_instants.
Qed.

(** An instant given as a date object or in the spelling of [toISOString]. *)
Definition canonical_input (d : DateInput) : Prop :=
  exists t, iso_time t /\ (d = DateObject (Some t) \/ d = DateText (toISOString t)).

Definition canonical_row_input (i : RateRowInput) : Prop :=
  canonical_input (ri_effectiveFrom i) /\ forall d, ri_effectiveTo i = Some d -> canonical_input d.

Definition canonical (s : string) : Prop := exists t, iso_time t /\ s = toISOString t.

Definition canonical_row (r : RateRow) : Prop :=
  canonical (rr_effectiveFrom r) /\ forall s, rr_effectiveTo r = Some s -> canonical s.

Section windows.
  Context (Date_parse : string -> option Z) `{!DateParser Date_parse}.
  Context (localeCompare : string -> string -> Z) `{!Collation localeCompare}.

Definition millis (s : string) : Z := default 0 (Date_parse s).

(** The window of [a] is closed before the window of [b] opens. *)
Definition ends_before (a b : RateRow) : Prop :=
  exists e, rr_effectiveTo a = Some e /\ millis e < millis (rr_effectiveFrom b).

(** The row is effective at [t]: both ends inclusive. *)
Definition covers (r : RateRow) (t : Date) : Prop :=
  millis (rr_effectiveFrom r) <= t /\ forall e, rr_effectiveTo r = Some e -> t <= millis e.

Lemma millis_canonical t : iso_time t -> millis (toISOString t) = t.
Proof. intros Ht. unfold millis. by rewrite parse_iso. Qed.

Lemma normalizeInstant_canonical d s : canonical_input d -> normalizeInstant Date_parse d = Ok s -> canonical s.
Proof.
  intros (t & Ht & Hd) H. exists t. split; [done|]. destruct Hd as [Hd|Hd]; subst d; cbn in H; [congruence|].
  destruct (_ && _); congruence.
Qed.

Lemma rateRow_canonical i r : canonical_row_input i -> rateRow Date_parse i = Ok r -> canonical_row r.
Proof.
  intros [Hf Ht]. unfold rateRow. intros (? & _ & H)%bind_Ok.
  destruct (currency_of_string _); [|done]. destruct (currency_of_string _); [|done].
  apply guard_Ok in H as [_ (? & _ & (? & _ & (? & _ & (? & _ & [_ H]%guard_Ok)%bind_Ok)%bind_Ok)%bind_Ok)%bind_Ok].
  apply bind_Ok in H as (f & Ef & (o & Eo & [_ [= <-]]%guard_Ok)%bind_Ok). split; cbn.
  - by eapply normalizeInstant_canonical.
  - intros s ->. destruct (ri_effectiveTo i) as [d|]; [|done]. apply bind_Ok in Eo as (s' & Es & [= ->]).
    eapply normalizeInstant_canonical; [by apply Ht|done].
Qed.

Lemma isActiveAt_covers r t : canonical_row r -> isActiveAt Date_parse t r = true <-> covers r t.
Proof.
  intros [(f & Hf & Ef) Hto]. unfold isActiveAt, covers, startsBy, endsAfter. rewrite Ef, millis_canonical, parse_iso, andb_true_iff, Z.leb_le by done.
  destruct (rr_effectiveTo r) as [s|]; [|naive_solver]. destruct (Hto s eq_refl) as (e & He & ->).
  rewrite parse_iso, Z.leb_le by done. split; intros [? H]; (split; [done|]).
  - intros ? [= <-]. by rewrite millis_canonical.
  - specialize (H _ eq_refl). by rewrite millis_canonical in H.
Qed.

Lemma overlaps_canonical a b : canonical_row a -> canonical_row b -> overlaps a b = false <-> ends_before a b.
Proof.
  intros [_ Ha] [(f & Hf & Ef) _]. unfold overlaps, ends_before. destruct (rr_effectiveTo a) as [s|]; [|naive_solver].
  destruct (Ha s eq_refl) as (e & He & ->). rewrite Ef. unfold string_leb. rewrite Z.leb_gt. split.
  - intros H. exists (toISOString e). split; [done|]. rewrite !millis_canonical by done.
    pose proof (string_cmp_instants f e Hf He). lia.
  - intros (? & [= <-] & H). rewrite !millis_canonical in H by done. pose proof (string_cmp_instants f e Hf He). lia.
Qed.

Lemma collation_flip a b : (localeCompare a b < 0 <-> 0 < localeCompare b a) /\ (localeCompare a b = 0 <-> localeCompare b a = 0).
Proof. pose proof (collation_antisym a b) as H. destruct (localeCompare a b), (localeCompare b a); cbn in H; lia. Qed.

Lemma collation_tie a b c : localeCompare a b <= 0 -> localeCompare b c <= 0 -> localeCompare a c = 0 ->
  localeCompare a b = 0 /\ localeCompare b c = 0.
Proof.
  intros Hab Hbc Hac. pose proof (collation_flip a b). pose proof (collation_flip b c). pose proof (collation_flip a c).
  assert (Hca : localeCompare c a <= 0) by lia.
  pose proof (collation_trans b c a Hbc Hca). pose proof (collation_trans c a b Hca Hab). lia.
Qed.

Lemma row_cmp_total : TotalComparator (row_cmp localeCompare).
Proof.
  split; unfold row_cmp.
  - intros x y. pose proof (collation_flip (rr_effectiveFrom x) (rr_effectiveFrom y)). pose proof (collation_flip (rowId x) (rowId y)).
    destruct (Z.eqb_spec (localeCompare (rr_effectiveFrom x) (rr_effectiveFrom y)) 0),
      (Z.eqb_spec (localeCompare (rr_effectiveFrom y) (rr_effectiveFrom x)) 0); lia.
  - intros x y z. pose proof (collation_tie (rr_effectiveFrom x) (rr_effectiveFrom y) (rr_effectiveFrom z)).
    pose proof (collation_trans (rr_effectiveFrom x) (rr_effectiveFrom y) (rr_effectiveFrom z)).
    pose proof (collation_trans (rowId x) (rowId y) (rowId z)). pose proof (collation_flip (rr_effectiveFrom x) (rr_effectiveFrom z)).
    destruct (Z.eqb_spec (localeCompare (rr_effectiveFrom x) (rr_effectiveFrom y)) 0),
      (Z.eqb_spec (localeCompare (rr_effectiveFrom y) (rr_effectiveFrom z)) 0),
      (Z.eqb_spec (localeCompare (rr_effectiveFrom x) (rr_effectiveFrom z)) 0); lia.
Qed.

Lemma row_cmp_starts a b : canonical_row a -> canonical_row b -> row_cmp localeCompare a b <= 0 ->
  millis (rr_effectiveFrom a) <= millis (rr_effectiveFrom b).
Proof.
  intros [(f & Hf & Ef) _] [(g & Hg & Eg) _] H. unfold row_cmp in H. rewrite Ef, Eg in *. rewrite !millis_canonical by done. apply collation_instants; [done..|].
  destruct (Z.eqb_spec (localeCompare (toISOString f) (toISOString g)) 0); lia.
Qed.

(** Checking the neighbours of the sorted rows separates all of them. *)
Lemma assertDisjoint_separates l : Forall canonical_row l -> StronglySorted (cmp_le (row_cmp localeCompare)) l ->
  assertDisjoint l = Ok tt -> StronglySorted ends_before l.
Proof.
  intros Hc Hs. induction Hs as [|a l Hl IH Ha]; intros H; [constructor|]. apply Forall_cons in Hc as [Hca Hc].
  destruct l as [|b l]; [by repeat constructor|]. cbn [assertDisjoint] in H. apply guard_Ok in H as [Ho H].
  apply not_true_is_false in Ho. apply Forall_cons in Hc as Hb. destruct Hb as [Hb Hl'].
  apply overlaps_canonical in Ho as (e & He & Hlt); [|done..]. constructor; [by apply IH|].
  constructor; [by exists e|]. apply Forall_forall. intros c Hin. exists e. split; [done|].
  rewrite Forall_forall in Hl'. apply StronglySorted_inv in Hl as [_ Hbl]. rewrite Forall_forall in Hbl.
  pose proof (row_cmp_starts b c Hb (Hl' c Hin) (Hbl c Hin)). lia.
Qed.

Lemma at_most_one_active l t : Forall canonical_row l -> StronglySorted ends_before l ->
  (length (List.filter (isActiveAt Date_parse t) l) <= 1)%nat.
Proof.
  intros Hc Hs. induction Hs as [|a l Hl IH Ha]; [cbn; lia|]. apply Forall_cons in Hc as [Hca Hc]. specialize (IH Hc).
  cbn [List.filter]. destruct (isActiveAt Date_parse t a) eqn:E; [|done]. apply isActiveAt_covers in E as [_ Hto]; [|done].
  assert (List.filter (isActiveAt Date_parse t) l = []) as ->; [|cbn; lia].
  clear IH Hl. induction Ha as [|b l (e & He & Hlt) _ IH]; [done|]. apply Forall_cons in Hc as [Hb Hc]. cbn [List.filter].
  destruct (isActiveAt Date_parse t b) eqn:E; [|by apply IH]. apply isActiveAt_covers in E as [Hf _]; [|done].
  specialize (Hto e He). lia.
Qed.

Lemma filter_one {A} (f : A -> bool) l x : (length (List.filter f l) <= 1)%nat ->
  List.filter f l = [x] <-> x ∈ l /\ f x = true.
Proof.
  intros Hlen. rewrite list_elem_of_In, <- filter_In. destruct (List.filter f l) as [|y [|z l']]; cbn in *; [|split; [intros [= ->]|]; naive_solver|lia].
  naive_solver.
Qed.

Lemma rows_of_pair_elem p rows r : r ∈ rows_of_pair p rows <-> r ∈ rows /\ pair_of r = p.
Proof. unfold rows_of_pair. rewrite !list_elem_of_In, filter_In, bool_decide_eq_true. done. Qed.

Lemma validateRateTable_active rows built p t : Forall canonical_row_input rows ->
  validateRateTable Date_parse localeCompare rows = Ok built ->
  Forall canonical_row built /\ (length (List.filter (isActiveAt Date_parse t) (rows_of_pair p built)) <= 1)%nat.
Proof.
  intros Hrows. unfold validateRateTable. intros (b & Hb & (us & Hus & [= ->])%bind_Ok)%bind_Ok.
  assert (Hc : Forall canonical_row built).
  { apply traverse_Forall2 in Hb. clear Hus. induction Hb as [|i r rows' rs Hr _ IH]; [constructor|].
    apply Forall_cons in Hrows as [Hi Hrows]. constructor; [by eapply rateRow_canonical|by apply IH]. }
  split; [done|]. destruct (decide (p ∈ pair_of <$> built)) as [Hp|Hp].
  - apply traverse_Forall2 in Hus. rewrite <- distinct_elem in Hp. apply list_elem_of_lookup in Hp as [i Hi].
    destruct (Forall2_lookup_l _ _ _ _ _ Hus Hi) as ([] & _ & Hd).
    assert (Hcp : Forall canonical_row (sort_by (row_cmp localeCompare) (rows_of_pair p built))).
    { rewrite sort_by_perm. apply Forall_forall. intros r [Hr _]%rows_of_pair_elem. by eapply Forall_forall in Hc. }
    pose proof row_cmp_total. apply assertDisjoint_separates in Hd; [|done|by apply sort_by_sorted].
    pose proof (at_most_one_active _ t Hcp Hd) as Hle. by rewrite sort_by_perm in Hle.
  - enough (rows_of_pair p built = []) as -> by (cbn; lia).
    destruct (rows_of_pair p built) as [|r l] eqn:E; [done|]. exfalso. apply Hp.
    assert (r ∈ rows_of_pair p built) as [Hr <-]%rows_of_pair_elem by (rewrite E; left). by apply list_elem_of_fmap_2.
Qed.

End windows.

(** ** Conversion and quotes *)

Definition rate_wf (r : RateRow) : Prop :=
  0 < rr_numerator r /\ 0 < rr_denominator r /\ 0 <= rr_scaleSource r <= 8 /\ 0 <= rr_scaleDest r <= 8.

Lemma rateRow_wf Date_parse i r : rateRow Date_parse i = Ok r -> rate_wf r /\ rr_sourceCurrency r <> rr_destinationCurrency r.
Proof.
  unfold rateRow. intros (? & _ & H)%bind_Ok. destruct (currency_of_string _); [|done]. destruct (currency_of_string _); [|done].
  apply guard_Ok in H as [Hne (n & Hn & (d & Hd & (a & Ha & (b & Hb & [_ H]%guard_Ok)%bind_Ok)%bind_Ok)%bind_Ok)%bind_Ok].
  apply bind_Ok in H as (? & _ & (? & _ & [_ [= <-]]%guard_Ok)%bind_Ok).
  unfold asPositiveBigint, assertRowScale in *. unfold rate_wf. cbn.
  destruct (safeMinor (ri_numerator i)); [|done]. destruct (safeMinor (ri_denominator i)); [|done].
  do 2 (destruct (safeInteger _); [|done]). 
  apply guard_Ok in Hn as [Hn [= ->]], Hd as [Hd [= ->]], Ha as [Ha [= ->]], Hb as [Hb [= ->]]. split; [lia|done].
Qed.

Lemma validateRateTable_wf Date_parse lc rows built : validateRateTable Date_parse lc rows = Ok built -> Forall rate_wf built.
Proof.
  unfold validateRateTable. intros (b & Hb%traverse_Forall2 & (us & _ & [= ->])%bind_Ok)%bind_Ok.
  induction Hb as [|i r l l' [Hr _]%rateRow_wf _ IH]; by constructor.
Qed.

Lemma pow10_pos n : 0 <= n -> 0 < pow10 n.
Proof. intros. unfold pow10. by apply Z.pow_pos_nonneg. Qed.

(** The applied ratio is the quoted one times the ratio of the minor units. *)
Lemma appliedRatio_exact r : rate_wf r -> let '(n, d) := appliedRatio r in
  0 < n /\ 0 < d /\ n * (rr_denominator r * pow10 (rr_scaleSource r)) = d * (rr_numerator r * pow10 (rr_scaleDest r)).
Proof.
  intros (Hn & Hd & Hs & Ht). unfold appliedRatio. destruct (Z.geb_spec (rr_scaleDest r - rr_scaleSource r) 0).
  - pose proof (pow10_pos (rr_scaleDest r - rr_scaleSource r) ltac:(lia)). split; [nia|]. split; [done|].
    replace (pow10 (rr_scaleDest r)) with (pow10 (rr_scaleDest r - rr_scaleSource r) * pow10 (rr_scaleSource r)); [lia|].
    unfold pow10. rewrite <- Z.pow_add_r by lia. f_equal. lia.
  - pose proof (pow10_pos (- (rr_scaleDest r - rr_scaleSource r)) ltac:(lia)). split; [done|]. split; [nia|].
    replace (pow10 (rr_scaleSource r)) with (pow10 (- (rr_scaleDest r - rr_scaleSource r)) * pow10 (rr_scaleDest r)); [lia|].
    unfold pow10. rewrite <- Z.pow_add_r by lia. f_equal. lia.
Qed.

Lemma resolveCorridor_Ok corridors id c : resolveCorridor corridors id = Ok c -> c ∈ corridors /\ corridorId c = id.
Proof.
  unfold resolveCorridor. destruct (List.find _ corridors) eqn:E; [|done]. intros [= ->].
  apply find_some in E as [Hin%list_elem_of_In Hid]. apply bool_decide_eq_true in Hid. done.
Qed.

Lemma findActiveRateRow_Ok Date_parse rows src dst now r : findActiveRateRow Date_parse rows src dst now = Ok r ->
  r ∈ rows /\ pair_of r = (src, dst) /\ isActiveAt Date_parse now r = true.
Proof.
  unfold findActiveRateRow. intros [_ H]%guard_Ok.
  assert (r ∈ List.filter (isActiveAt Date_parse now) (rows_of_pair (src, dst) rows)) as Hr.
  { destruct (List.filter _ _) as [|x [|]]; try done. injection H as ->. left. }
  rewrite list_elem_of_In, filter_In in Hr. destruct Hr as [Hr%list_elem_of_In%rows_of_pair_elem Ha]. naive_solver.
Qed.

(** The row is one of the validated table, for the pair, and effective at [now]. *)
Definition row_in_force (Date_parse : string -> option Z) (lc : string -> string -> Z) (table : list RateRowInput)
    (src dst : Currency) (now : Date) (r : RateRow) : Prop :=
  exists rows, validateRateTable Date_parse lc table = Ok rows /\ r ∈ rows /\ pair_of r = (src, dst) /\ isActiveAt Date_parse now r = true.

(** The rate a quote shows is the row's, and its applied ratio is the row's ratio times the
    ratio of the minor units, as an identity of fractions. *)
Record shows_row (a : AppliedRate) (r : RateRow) : Prop := {
  sw_row : ar_rowId a = rowId r /\ ar_source a = rr_source r;
  sw_ratio : ar_numerator a = rr_numerator r /\ ar_denominator a = rr_denominator r;
  sw_scales : ar_scaleSource a = rr_scaleSource r /\ ar_scaleDest a = rr_scaleDest r;
  sw_window : ar_effectiveFrom a = rr_effectiveFrom r /\ ar_effectiveTo a = rr_effectiveTo r;
  sw_applied : 0 < ar_appliedDenominator a /\
    ar_appliedNumerator a * (rr_denominator r * pow10 (rr_scaleSource r)) = ar_appliedDenominator a * (rr_numerator r * pow10 (rr_scaleDest r));
}.

(** [x] is the integer nearest to the fraction [p/q], the even one where two are as near. *)
Definition nearest_even (x p q : Z) : Prop :=
  Z.abs (2 * (x * q - p)) <= q /\ (Z.abs (2 * (x * q - p)) = q -> Z.Even x).

(** [credit] is [amount] converted at the rate shown: at numerator/denominator major units
    of the destination for one of the source, each of 10^scale minor units. *)
Definition converts_at (a : AppliedRate) (amount credit : Z) : Prop :=
  nearest_even credit (amount * (ar_numerator a * pow10 (ar_scaleDest a))) (ar_denominator a * pow10 (ar_scaleSource a)).

(** The fee is the schedule's flat part and its basis points of the amount. *)
Definition charges (s : FeeSchedule) (amount : Z) (fee : FeeBreakdown) : Prop :=
  fb_flatMinor fee = fs_flatMinor s /\ nearest_even (fb_bpsMinor fee) (amount * fs_bps s) 10000 /\
  fb_totalMinor fee = fb_flatMinor fee + fb_bpsMinor fee.

(** A quote as the code builds it, in terms of what it was built from. *)
Record quote_built (Date_parse : string -> option Z) (lc : string -> string -> Z) (corridors : list Corridor) (id : Uuid) (v : numeric)
    (table : list RateRowInput) (clock : Clock) (q : FxQuote) (c : Corridor) (r : RateRow) : Prop := {
  qb_corridor : c ∈ corridors /\ corridorId c = id /\ co_status c = corridor_active;
  qb_amount : toMinorUnits v = Ok (q_sourceAmountMinor q) /\ co_minAmountMinor c <= q_sourceAmountMinor q <= co_maxAmountMinor c;
  qb_row : rate_wf r /\ row_in_force Date_parse lc table (co_sourceCurrency c) (co_destinationCurrency c) (clock 0%nat) r;
  qb_fee : computeFeeBreakdown (co_feeSchedule c) (Big (q_sourceAmountMinor q)) = Ok (q_fee q);
  qb_debit : q_sourceDebitMinor q = q_sourceAmountMinor q + fb_totalMinor (q_fee q);
  qb_rate : q_rate q = MkAppliedRate (rowId r) (rr_source r) (rr_numerator r) (rr_denominator r) (appliedRatio r).1 (appliedRatio r).2
    (rr_scaleSource r) (rr_scaleDest r) (rr_effectiveFrom r) (rr_effectiveTo r);
  qb_credit : q_destinationCreditMinor q = convertWithRatio (q_sourceAmountMinor q) (appliedRatio r).1 (appliedRatio r).2;
  qb_ids : q_orgId q = co_orgId c /\ q_corridorId q = id /\ q_sourceCurrency q = co_sourceCurrency c /\ q_destinationCurrency q = co_destinationCurrency c;
  qb_stamps : q_issuedAt q = toISOString (clock 0%nat) /\ q_expiresAt q = toISOString (clock 0%nat + q_ttlSeconds q * 1000) /\
    1 <= q_ttlSeconds q /\ clock 0%nat + q_ttlSeconds q * 1000 <= MAX_TIME;
}.

Lemma quote_Ok Date_parse lc corridors id v table clock options q evs :
  quote Date_parse lc corridors id v table clock options = Ok (q, evs) ->
  (exists c r, quote_built Date_parse lc corridors id v table clock q c r) /\ evs = [quoteIssued q (clock_after 1 clock)].
Proof.
  unfold quote. intros (c & [Hc Hid]%resolveCorridor_Ok & (? & [Hl _]%guard_Ok & (a & Ha & (? & Hb & H)%bind_Ok)%bind_Ok)%bind_Ok)%bind_Ok.
  apply dec_stable in Hl. apply assertAmountWithinCorridor_Ok in Hb as [Hb' Hb]. apply toMinorUnits_iff in Hb' as [[= <-] _].
  destruct (safeInteger _) as [ttl|]; [|done].
  apply guard_Ok in H as [Httl (rows & Hv & (r & Hr & (fee & Hfee & H)%bind_Ok)%bind_Ok)%bind_Ok].
  destruct (appliedRatio r) as [n d] eqn:En. case_decide as Ht; [done|]. apply bind_Ok in H as (qid & _ & [= <- <-]).
  apply findActiveRateRow_Ok in Hr as (Hin & Hp & Hact). split; [|done]. exists c, r.
  pose proof (validateRateTable_wf _ _ _ _ Hv) as Hrows. rewrite Forall_forall in Hrows.
  constructor; rewrite ?En; cbn; auto; [|repeat split; lia]. split; [by apply Hrows|by exists rows].
Qed.

Lemma divideBankers_nearest_even p q : 0 <= p -> 0 < q -> nearest_even (divideBankers p q) p q.
Proof. intros Hp Hq. rewrite divideBankers_shared. split; [by apply divideBankers_error|by apply divideBankers_tie]. Qed.

(** Nearness depends on the fraction only. *)
Lemma nearest_even_ext x p q p' q' : 0 < q -> 0 < q' -> p * q' = p' * q -> nearest_even x p q -> nearest_even x p' q'.
Proof.
  intros Hq Hq' E [Hn Ht]. assert (Es : q * Z.abs (2 * (x * q' - p')) = q' * Z.abs (2 * (x * q - p))).
  { rewrite <- (Z.abs_eq q) at 1 by lia. rewrite <- (Z.abs_eq q') at 2 by lia. rewrite <- !Z.abs_mul. f_equal. nia. }
  split; [nia|]. intros Eq. apply Ht. nia.
Qed.

(** The credit of a built quote is the conversion at the rate it shows. *)
Lemma built_rate Date_parse lc corridors id v table clock q c r : 0 <= q_sourceAmountMinor q ->
  quote_built Date_parse lc corridors id v table clock q c r ->
  shows_row (q_rate q) r /\ converts_at (q_rate q) (q_sourceAmountMinor q) (q_destinationCreditMinor q).
Proof.
  intros Ha [_ _ [Hr _] _ _ Hrate Hcredit _ _]. pose proof (appliedRatio_exact r Hr) as H.
  destruct (appliedRatio r) as [n d] eqn:En. destruct H as (Hn & Hd & E). rewrite Hrate. split; [by constructor|].
  unfold converts_at. rewrite Hcredit. cbn. destruct Hr as (_ & ? & ? & _). pose proof (pow10_pos (rr_scaleSource r)).
  apply (nearest_even_ext _ (q_sourceAmountMinor q * n) d); [done|nia|nia|]. apply divideBankers_nearest_even; nia.
Qed.

(** Its fee is the one its corridor's schedule charges. *)
Lemma built_fee Date_parse lc corridors id v table clock q c r : corridor_wf c ->
  quote_built Date_parse lc corridors id v table clock q c r ->
  1 <= q_sourceAmountMinor q /\ 0 <= fb_totalMinor (q_fee q) /\ charges (co_feeSchedule c) (q_sourceAmountMinor q) (q_fee q).
Proof.
  intros [_ _ Hbounds _ _ [Hflat Hbps] _] [_ (_ & Hb) _ Hfee _ _ _ _ _]. unfold MAX_FEE_BPS in Hbps.
  apply computeFeeBreakdown_Ok in Hfee as (a & [[= <-] _]%toMinorUnits_iff & Hfee).
  pose proof (divideBankers_nonneg (q_sourceAmountMinor q * fs_bps (co_feeSchedule c)) 10000 ltac:(nia) ltac:(lia)) as Hnn.
  rewrite <- divideBankers_shared in Hnn. split; [lia|]. unfold charges. rewrite Hfee. cbn. split; [lia|]. split; [done|]. split; [|done].
  apply divideBankers_nearest_even; nia.
Qed.

Lemma expiry_exact Date_parse `{!DateParser Date_parse} t now : iso_time t ->
  isQuoteExpired Date_parse (toISOString t) now = true <-> t <= now.
Proof. intros Ht. unfold isQuoteExpired. by rewrite parse_iso, Z.leb_le. Qed.

Definition sample_row (from : DateInput) (to : option DateInput) (id : Uuid) : RateRowInput :=
  MkRateRowInput id "KES" "UGX" (Big 285) (Num (num 10)) from to " CBK " None None.

Definition sample_table : list RateRowInput :=
  [sample_row (DateObject (Some 0)) (Some (DateObject (Some 999))) sample_id;
   sample_row (DateText "1970-01-01T00:00:01.000Z") None "00000000-0000-4000-8000-000000000002"].

Definition sample_quote_result : result (FxQuote * list CrossborderEvent) :=
  quote Date_parse_iso string_cmp [sample_corridor] (corridorId sample_corridor) (Big 12367) sample_table (fixed_clock 1500) (MkQuoteOptions None None).

(** ** Theorems *)

(** C18: A rate table whose instants are given as dates (or in the spelling of [toISOString])
    and that passed validation is never ambiguous: looking a pair up at an instant finds
    exactly the row whose inclusive window covers it, if there is one. *)
Theorem validated_rates_are_unambiguous (Date_parse : string -> option Z) (lc : string -> string -> Z)
    (parser : DateParser Date_parse) (collation : Collation lc) (rows : list RateRowInput) (built : list RateRow)
    (src dst : Currency) (now : Date) :
  Forall canonical_row_input rows -> validateRateTable Date_parse lc rows = Ok built ->
  (forall r, findActiveRateRow Date_parse built src dst now = Ok r <->
     r ∈ built /\ pair_of r = (src, dst) /\ covers Date_parse r now) /\
  findActiveRateRow Date_parse built src dst now <> Err (DomainError "RATE_TABLE_OVERLAP").
Proof.
  intros Hrows Hv. destruct (validateRateTable_active Date_parse lc rows built (src, dst) now Hrows Hv) as [Hc Hlen].
  unfold findActiveRateRow. split.
  - intros r. rewrite guard_Ok. assert (covers_active : r ∈ rows_of_pair (src, dst) built -> covers Date_parse r now <-> isActiveAt Date_parse now r = true).
    { intros [Hr _]%rows_of_pair_elem. rewrite isActiveAt_covers; [done|done|]. by eapply Forall_forall in Hc. }
    pose proof (filter_one _ _ r Hlen) as Hone. rewrite rows_of_pair_elem in *. split.
    + intros [_ H]. assert (List.filter (isActiveAt Date_parse now) (rows_of_pair (src, dst) built) = [r]) as [[H1 H2] H3]%Hone.
      { destruct (List.filter _ _) as [|x [|]]; try done. congruence. }
      split; [done|]. split; [done|]. by apply covers_active.
    + intros (H1 & H2 & H3). rewrite (proj2 Hone); [|split; [done|by apply covers_active]]. split; [|done].
      intros E. assert (r ∈ rows_of_pair (src, dst) built) as Hin by by apply rows_of_pair_elem. rewrite E in Hin. by apply not_elem_of_nil in Hin.
  - case_decide; [done|]. destruct (List.filter _ _) as [|x [|y l]]; [done|done|]. cbn in Hlen. lia.
Qed.

Lemma validated_rates_are_unambiguous_witness :
  exists built, validateRateTable Date_parse_iso string_cmp sample_table = Ok built /\
    findActiveRateRow Date_parse_iso built KES UGX 1000 <> Err (DomainError "RATE_TABLE_OVERLAP").
Proof.
  eexists. split; [vm_compute; reflexivity|].
  apply (validated_rates_are_unambiguous Date_parse_iso string_cmp _ _ sample_table); [|vm_compute; reflexivity].
  assert (forall t, bool_decide (iso_time t) = true -> iso_time t) as Hiso by (intros t; apply bool_decide_eq_true_1).
  repeat constructor; cbn.
  - exists 0. split; [by apply Hiso|by left].
  - intros d [= <-]. exists 999. split; [by apply Hiso|by left].
  - exists 1000. split; [by apply Hiso|by right].
  - done.
Defined.

(** C19: No cent is created or destroyed by a quote: an issued quote passes its own
    reconciliation and debits exactly the amount asked for and the fee its corridor's
    schedule charges (the flat part and the basis points of the amount, rounded half to
    even).  The rate it shows is that of a row of the validated table, effective at issue
    for the corridor's pair, and its credit is the minor unit nearest to the exact
    conversion at that row's ratio and scales, the even one at a tie.  When the expiry
    prints with a four-digit year, the quote is expired from issue time plus TTL on and at
    no earlier instant. *)
Theorem issued_quote_reconciles (Date_parse : string -> option Z) (lc : string -> string -> Z) (parser : DateParser Date_parse)
    (corridors : list Corridor) (id : Uuid) (v : numeric) (table : list RateRowInput) (clock : Clock) (options : QuoteOptions)
    (q : FxQuote) (evs : list CrossborderEvent) :
  Forall corridor_wf corridors -> quote Date_parse lc corridors id v table clock options = Ok (q, evs) ->
  reconcileQuoteLegs q = (true, []) /\
  toMinorUnits v = Ok (q_sourceAmountMinor q) /\
  q_sourceDebitMinor q = q_sourceAmountMinor q + fb_flatMinor (q_fee q) + fb_bpsMinor (q_fee q) /\
  1 <= q_sourceAmountMinor q <= q_sourceDebitMinor q /\
  (exists c, c ∈ corridors /\ corridorId c = id /\ charges (co_feeSchedule c) (q_sourceAmountMinor q) (q_fee q)) /\
  (exists r, row_in_force Date_parse lc table (q_sourceCurrency q) (q_destinationCurrency q) (clock 0%nat) r /\ rate_wf r /\
     shows_row (q_rate q) r /\ converts_at (q_rate q) (q_sourceAmountMinor q) (q_destinationCreditMinor q)) /\
  (iso_time (clock 0%nat + q_ttlSeconds q * 1000) -> forall now,
     isQuoteExpired Date_parse (q_expiresAt q) now = true <-> clock 0%nat + q_ttlSeconds q * 1000 <= now).
Proof.
  intros Hcs [(c & r & Hbuilt) _]%quote_Ok. rewrite Forall_forall in Hcs.
  destruct (built_fee _ _ _ _ _ _ _ _ _ _ (Hcs c (proj1 (qb_corridor _ _ _ _ _ _ _ _ _ _ Hbuilt))) Hbuilt) as (Ha & Hpos & Hch).
  assert (Ha0 : 0 <= q_sourceAmountMinor q) by lia. destruct (built_rate _ _ _ _ _ _ _ _ _ _ Ha0 Hbuilt) as [Hs Hconv]. pose proof Hch as (_ & _ & Hsum).
  destruct Hbuilt as [(Hc & Hid & _) (Hv & _) (Hr & Hrow) _ Hdebit Hrate Hcredit (_ & _ & Es & Ed) (_ & Hx & _ & _)].
  split; [|split; [done|split; [lia|split; [lia|split; [by exists c|split; [by exists r; rewrite Es, Ed|]]]]]].
  - unfold reconcileQuoteLegs. rewrite Hrate. cbn. rewrite <- Hcredit, <- Hsum, <- Hdebit, !Z.eqb_refl. done.
  - intros Hiso now. rewrite Hx. by apply expiry_exact.
Qed.

Lemma issued_quote_reconciles_witness :
  exists q evs, sample_quote_result = Ok (q, evs) /\ q_destinationCreditMinor q = 3525 /\ reconcileQuoteLegs q = (true, []).
Proof.
  do 2 eexists. split; [vm_compute; reflexivity|]. split; [reflexivity|].
  eapply (issued_quote_reconciles Date_parse_iso string_cmp _ [sample_corridor] (corridorId sample_corridor) (Big 12367) sample_table (fixed_clock 1500) (MkQuoteOptions None None));
    [|vm_compute; reflexivity].
  constructor; [|constructor]. apply corridor_wf_reachable. exists sample_corridor_input, (fixed_clock 0). do 2 eexists.
  split; [|apply rtc_refl]. vm_compute. reflexivity.
Defined.

(** Instants spelled with offsets are compared as text: a table whose windows overlap passes
    validation, and the quote then finds two effective rows. *)
Theorem mixed_offsets_hide_an_overlap :
  let table := [sample_row (DateText "2026-03-01T00:00:00.000Z") (Some (DateText "2026-03-01T10:00:00.000Z")) sample_id;
                sample_row (DateText "2026-03-01T12:00:00.000+03:00") None "00000000-0000-4000-8000-000000000002"] in
  is_ok (validateRateTable Date_parse_iso string_cmp table) = true /\
  quote Date_parse_iso string_cmp [sample_corridor] (corridorId sample_corridor) (Big 1000) table
    (fixed_clock 1772357400000) (MkQuoteOptions None None) = Err (DomainError "RATE_TABLE_OVERLAP").
Proof. vm_compute. done. Qed.

(** The amounts of the issued event are rounded to doubles without a guard: two different
    credits are announced as the same number. *)
Theorem quote_event_rounds_large_credits (q : FxQuote) (clock : Clock) :
  quoteIssued (MkFxQuote (quoteId q) (q_orgId q) (q_corridorId q) (q_sourceCurrency q) (q_destinationCurrency q) (q_sourceAmountMinor q)
    (q_fee q) (q_sourceDebitMinor q) 9007199254740993 (q_rate q) (q_issuedAt q) (q_expiresAt q) (q_ttlSeconds q)) clock =
  quoteIssued (MkFxQuote (quoteId q) (q_orgId q) (q_corridorId q) (q_sourceCurrency q) (q_destinationCurrency q) (q_sourceAmountMinor q)
    (q_fee q) (q_sourceDebitMinor q) 9007199254740992 (q_rate q) (q_issuedAt q) (q_expiresAt q) (q_ttlSeconds q)) clock.
Proof. unfold quoteIssued. cbn [q_destinationCreditMinor]. replace (num 9007199254740993) with (num 9007199254740992) by (vm_compute; reflexivity). done. Qed.
