(* ===== verification/TransferIntent.v ===== *)
(** * Cross-border transfer intents

    src/domain/crossborder/intent.ts: the lifecycle of a cross-border movement, from the
    draft through the frozen quote to settlement.  [intent_step] is one call on an intent
    together with the caller's log of submissions. *)

From stdpp Require Import prelude strings list relations.
From Stdlib Require Import ZArith Lia.
From S2P Require Import Prelude JsNumber JsString JsDate IsoDate Money Fx Events Corridor CrossborderQuote.
Local Open Scope string_scope.
Local Open Scope list_scope.
Local Open Scope Z_scope.
Local Open Scope js_scope.

Inductive IntentStatus := drafted | quoted | authorized | submitted | settled | cancelled | expired | failed.
#[export] Instance IntentStatus_eq_dec : EqDecision IntentStatus.
Proof. solve_decision. Defined.

Definition INTENT_TRANSITIONS (s : IntentStatus) : list IntentStatus :=
  match s with
  | drafted => [quoted; cancelled]
  | quoted => [authorized; cancelled; expired]
  | authorized => [submitted; cancelled; expired]
  | submitted => [settled; failed; cancelled]
  | settled | cancelled | expired | failed => []
  end.

Definition canTransition (f t : IntentStatus) : bool := bool_decide (t ∈ INTENT_TRANSITIONS f).

Record FrozenQuote := MkFrozenQuote {
  fq_quoteId : Uuid;
  fq_fee : FeeBreakdown;
  fq_sourceDebitMinor : Z;
  fq_destinationCreditMinor : Z;
  fq_rate : AppliedRate;
  fq_issuedAt : string;
  fq_expiresAt : string;
  fq_ttlSeconds : Z;
}.

Record TransferIntent := MkIntent {
  intentId : Uuid;
  ti_orgId : Uuid;
  ti_corridorId : Uuid;
  ti_sourceCurrency : Currency;
  ti_destinationCurrency : Currency;
  ti_sourceAmountMinor : Z;
  ti_status : IntentStatus;
  ti_quote : option FrozenQuote;
  ti_rail : option string;
  ti_authorizedBy : option string;
  ti_createdAt : string;
  ti_quotedAt : option string;
  ti_authorizedAt : option string;
  ti_submittedAt : option string;
  ti_settledAt : option string;
  ti_cancelledAt : option string;
  ti_failedAt : option string;
  ti_expiredAt : option string;
  ti_settlementRef : option string;
}.
#[export] Instance TransferIntent_eta : Eta TransferIntent := fun i =>
  MkIntent (intentId i) (ti_orgId i) (ti_corridorId i) (ti_sourceCurrency i) (ti_destinationCurrency i) (ti_sourceAmountMinor i)
    (ti_status i) (ti_quote i) (ti_rail i) (ti_authorizedBy i) (ti_createdAt i) (ti_quotedAt i) (ti_authorizedAt i)
    (ti_submittedAt i) (ti_settledAt i) (ti_cancelledAt i) (ti_failedAt i) (ti_expiredAt i) (ti_settlementRef i).

(** ** Draft *)

Record DraftIntentCommand := MkDraftIntent {
  di_orgId : Uuid;
  di_sourceCurrency : string;
  di_destinationCurrency : string;
  di_sourceAmountMinor : numeric;
  di_intentId : option Uuid;
}.

Definition draftIntent (corridors : list Corridor) (id : Uuid) (cmd : DraftIntentCommand) (clock : Clock) : result TransferIntent :=
  corridor ← resolveCorridor corridors id;
  _ ← assertCorridorLive corridor;
  _ ← Corridor.assertUuidShape (di_orgId cmd) "INTENT_ID_MALFORMED";
  _ ← Corridor.assertUuidShape id "INTENT_ID_MALFORMED";
  match currency_of_string (di_sourceCurrency cmd), currency_of_string (di_destinationCurrency cmd) with
  | Some src, Some dst =>
      refuse (src <> co_sourceCurrency corridor \/ dst <> co_destinationCurrency corridor) with "CURRENCY_MISMATCH" ;;
      amount ← assertAmountWithinCorridor corridor (di_sourceAmountMinor cmd);
      iid ← match di_intentId cmd with
        | Some i => Ok i
        | None => uuidFromSeed ("intent:" +:+ di_orgId cmd +:+ ":" +:+ id +:+ ":" +:+ show_Z amount)
        end;
      Ok (MkIntent iid (di_orgId cmd) id src dst amount drafted None None None (toISOString (clock 0%nat))
            None None None None None None None None)
  | _, _ => Err (DomainError "CURRENCY_UNSUPPORTED")
  end.

(** ** Quote *)

Definition frozenQuoteOf (q : FxQuote) : FrozenQuote :=
  MkFrozenQuote (quoteId q) (q_fee q) (q_sourceDebitMinor q) (q_destinationCreditMinor q) (q_rate q) (q_issuedAt q)
    (q_expiresAt q) (q_ttlSeconds q).

(** ** Submissions *)

Record SubmissionRecord := MkSubmission {
  sb_intentId : Uuid;
  sb_idempotencyKey : string;
  sb_rail : string;
  sb_quoteId : Uuid;
  sb_sourceDebitMinor : Z;
  sb_destinationCreditMinor : Z;
  sb_submittedAt : string;
}.

Record SubmitCommand := MkSubmit { sc_idempotencyKey : string; sc_rail : string }.

Record SubmitResult := MkSubmitResult {
  sr_intent : TransferIntent;
  sr_submission : SubmissionRecord;
  sr_duplicate : bool;
  sr_events : list CrossborderEvent;
}.

Record SettleContext := MkSettle {
  sx_corridor : option Corridor;
  sx_realizedSourceDebitMinor : option numeric;
  sx_realizedDestinationCreditMinor : option numeric;
  sx_settlementRef : option string;
}.

Definition isPriorSubmission (id key : string) (s : SubmissionRecord) : bool :=
  bool_decide (sb_intentId s = id /\ sb_idempotencyKey s = key).

(** The retry carries the original's payload. *)
Definition identicalSubmit (prior : SubmissionRecord) (rail : string) (q : option FrozenQuote) : bool :=
  match q with
  | Some q => bool_decide (sb_rail prior = rail) && bool_decide (sb_quoteId prior = fq_quoteId q) &&
      (sb_sourceDebitMinor prior =? fq_sourceDebitMinor q) && (sb_destinationCreditMinor prior =? fq_destinationCreditMinor q)
  | None => false
  end.

Definition assertIntentReason (reason : string) : result string :=
  let why := trim reason in refuse (why = "") with "INTENT_REASON_REQUIRED" ;; Ok why.

Definition assertActor (actorId : string) : result string :=
  let actor := trim actorId in refuse (actor = "") with "INTENT_ACTOR_REQUIRED" ;; Ok actor.

(** The fee of the corridor as it is now differs from the frozen one. *)
Definition feeDrifted (current frozen : FeeBreakdown) : bool :=
  negb ((fb_flatMinor current =? fb_flatMinor frozen) && (fb_bpsMinor current =? fb_bpsMinor frozen) &&
        (fb_totalMinor current =? fb_totalMinor frozen) && (fb_bps current =? fb_bps frozen)).

(** A leg the rail reported must be the frozen one. *)
Definition assertRealized (realized : option numeric) (frozen : Z) : result unit :=
  match realized with
  | None => Ok tt
  | Some v => z ← toMinorUnits v; refuse (z <> frozen) with "INTENT_SETTLEMENT_MISMATCH" ;; Ok tt
  end.

Section operations.
  Context (Date_parse : string -> option Z).

Definition attachQuote (i : TransferIntent) (q : FxQuote) (clock : Clock) : result TransferIntent :=
  refuse (ti_status i <> drafted) with "INTENT_STATE_INVALID" ;;
  refuse (q_orgId q <> ti_orgId i) with "QUOTE_ORG_MISMATCH" ;;
  refuse (q_corridorId q <> ti_corridorId i) with "QUOTE_CORRIDOR_MISMATCH" ;;
  refuse (q_sourceAmountMinor q <> ti_sourceAmountMinor i) with "QUOTE_AMOUNT_MISMATCH" ;;
  refuse (q_sourceCurrency q <> ti_sourceCurrency i \/ q_destinationCurrency q <> ti_destinationCurrency i) with "CURRENCY_MISMATCH" ;;
  _ ← assertQuoteUsable Date_parse (q_expiresAt q) (clock 0%nat);
  Ok (i <| ti_status := quoted |> <| ti_quote := Some (frozenQuoteOf q) |> <| ti_quotedAt := Some (toISOString (clock 1%nat)) |>).

Definition authorizeIntent (i : TransferIntent) (authorizedBy : string) (clock : Clock) : result (TransferIntent * list CrossborderEvent) :=
  refuse (ti_status i <> quoted) with "INTENT_STATE_INVALID" ;;
  let actor := trim authorizedBy in
  refuse (actor = "") with "INTENT_ACTOR_REQUIRED" ;;
  match ti_quote i with
  | None => Err (DomainError "INTENT_STATE_INVALID")
  | Some q =>
      _ ← assertQuoteUsable Date_parse (fq_expiresAt q) (clock 0%nat);
      let now := toISOString (clock 1%nat) in
      let next := i <| ti_status := authorized |> <| ti_authorizedBy := Some actor |> <| ti_authorizedAt := Some now |> in
      amount ← minorToNumber (ti_sourceAmountMinor i);
      fee ← feeBreakdownPayload (fq_fee q);
      debit ← minorToNumber (fq_sourceDebitMinor q);
      credit ← minorToNumber (fq_destinationCreditMinor q);
      Ok (next, [crossborderEvent (IntentAuthorizedPayload (intentId i) (ti_orgId i) (ti_corridorId i) (fq_quoteId q) amount
                   (ti_sourceCurrency i) (ti_destinationCurrency i) fee debit credit (appliedRatePayload (fq_rate q)) actor now)
                   (clock_after 2 clock)])
  end.

(** The submission of an intent whose key was not used before. *)
Definition submitFresh (i : TransferIntent) (key rail : string) (corridor : Corridor) (clock : Clock) : result SubmitResult :=
  refuse (ti_status i <> authorized) with "INTENT_STATE_INVALID" ;;
  _ ← assertCorridorLive corridor;
  let rail := trim rail in
  refuse (rail ∉ co_rails corridor) with "INTENT_RAIL_INVALID" ;;
  match ti_quote i with
  | None => Err (DomainError "INTENT_STATE_INVALID")
  | Some q =>
      _ ← assertQuoteUsable Date_parse (fq_expiresAt q) (clock 0%nat);
      let submittedAt := toISOString (clock 1%nat) in
      let submission := MkSubmission (intentId i) key rail (fq_quoteId q) (fq_sourceDebitMinor q) (fq_destinationCreditMinor q) submittedAt in
      let next := i <| ti_status := submitted |> <| ti_rail := Some rail |> <| ti_submittedAt := Some submittedAt |> in
      debit ← minorToNumber (fq_sourceDebitMinor q);
      credit ← minorToNumber (fq_destinationCreditMinor q);
      Ok (MkSubmitResult next submission false
            [crossborderEvent (IntentSubmittedPayload (intentId i) (ti_orgId i) (ti_corridorId i) (fq_quoteId q) rail key debit credit submittedAt)
               (clock_after 2 clock)])
  end.

Definition submitIntent (i : TransferIntent) (cmd : SubmitCommand) (corridor : Corridor) (submissions : list SubmissionRecord)
    (clock : Clock) : result SubmitResult :=
  let key := trim (sc_idempotencyKey cmd) in
  refuse (key = "") with "INTENT_IDEMPOTENCY_KEY_REQUIRED" ;;
  match List.find (isPriorSubmission (intentId i) key) submissions with
  | Some prior =>
      refuse (identicalSubmit prior (sc_rail cmd) (ti_quote i) = false) with "INTENT_DUPLICATE_SUBMIT" ;;
      Ok (MkSubmitResult i prior true
            [crossborderEvent (IntentReplayObservedPayload (intentId i) key (sb_quoteId prior) (toISOString (clock 0%nat))) (clock_after 1 clock)])
  | None => submitFresh i key (sc_rail cmd) corridor clock
  end.

Definition settleIntent (i : TransferIntent) (ctx : SettleContext) (clock : Clock) : result (TransferIntent * list CrossborderEvent) :=
  refuse (ti_status i <> submitted) with "INTENT_STATE_INVALID" ;;
  match ti_quote i with
  | None => Err (DomainError "INTENT_STATE_INVALID")
  | Some q =>
      drifted ← match sx_corridor ctx with
        | None => Ok false
        | Some c => current ← computeFeeBreakdown (co_feeSchedule c) (Big (ti_sourceAmountMinor i)); Ok (feeDrifted current (fq_fee q))
        end;
      refuse (drifted = true) with "FEE_SCHEDULE_CHANGED" ;;
      _ ← assertRealized (sx_realizedSourceDebitMinor ctx) (fq_sourceDebitMinor q);
      _ ← assertRealized (sx_realizedDestinationCreditMinor ctx) (fq_destinationCreditMinor q);
      let settledAt := toISOString (clock 0%nat) in
      let next := i <| ti_status := settled |> <| ti_settledAt := Some settledAt |> <| ti_settlementRef := sx_settlementRef ctx |> in
      debit ← minorToNumber (fq_sourceDebitMinor q);
      credit ← minorToNumber (fq_destinationCreditMinor q);
      Ok (next, [crossborderEvent (IntentSettledPayload (intentId i) (ti_corridorId i) (fq_quoteId q) (ti_sourceCurrency i)
                   (ti_destinationCurrency i) debit credit (sx_settlementRef ctx) settledAt) (clock_after 1 clock)])
  end.

Definition cancelIntent (i : TransferIntent) (reason actorId : string) (clock : Clock) : result (TransferIntent * list CrossborderEvent) :=
  refuse (canTransition (ti_status i) cancelled = false) with "INTENT_STATE_INVALID" ;;
  why ← assertIntentReason reason;
  actor ← assertActor actorId;
  let cancelledAt := toISOString (clock 0%nat) in
  Ok (i <| ti_status := cancelled |> <| ti_cancelledAt := Some cancelledAt |>,
      [crossborderEvent (IntentCancelledPayload (intentId i) (ti_corridorId i) why actor cancelledAt) (clock_after 1 clock)]).

Definition failIntent (i : TransferIntent) (reason : string) (clock : Clock) : result (TransferIntent * list CrossborderEvent) :=
  refuse (canTransition (ti_status i) failed = false) with "INTENT_STATE_INVALID" ;;
  why ← assertIntentReason reason;
  let failedAt := toISOString (clock 0%nat) in
  Ok (i <| ti_status := failed |> <| ti_failedAt := Some failedAt |>,
      [crossborderEvent (IntentFailedPayload (intentId i) (ti_corridorId i) why failedAt) (clock_after 1 clock)]).

(** [now < toMillis(expiresAt)] is false of a date that does not parse. *)
Definition expireIfDue (i : TransferIntent) (clock : Clock) : TransferIntent :=
  match ti_quote i with
  | None => i
  | Some q =>
      if canTransition (ti_status i) expired then
        let now := clock 0%nat in
        if match Date_parse (fq_expiresAt q) with Some e => now <? e | None => false end then i
        else i <| ti_status := expired |> <| ti_expiredAt := Some (toISOString now) |>
      else i
  end.

(** ** The process around an intent *)

Record IntentWorld := MkIntentWorld {
  iw_intent : TransferIntent;
  iw_submissions : list SubmissionRecord;
  iw_log : list CrossborderEvent;
}.

(** What callers may do.  [offered] is where attached quotes come from. *)
Inductive intent_step (offered : FxQuote -> Prop) (w : IntentWorld) : IntentWorld -> Prop :=
| step_attach q clock i : offered q -> attachQuote (iw_intent w) q clock = Ok i ->
    intent_step offered w (MkIntentWorld i (iw_submissions w) (iw_log w))
| step_authorize who clock i evs : authorizeIntent (iw_intent w) who clock = Ok (i, evs) ->
    intent_step offered w (MkIntentWorld i (iw_submissions w) (iw_log w ++ evs))
| step_submit cmd corridor clock res : submitIntent (iw_intent w) cmd corridor (iw_submissions w) clock = Ok res ->
    intent_step offered w (MkIntentWorld (sr_intent res)
      (if sr_duplicate res then iw_submissions w else iw_submissions w ++ [sr_submission res]) (iw_log w ++ sr_events res))
| step_settle ctx clock i evs : settleIntent (iw_intent w) ctx clock = Ok (i, evs) ->
    intent_step offered w (MkIntentWorld i (iw_submissions w) (iw_log w ++ evs))
| step_cancel reason actor clock i evs : cancelIntent (iw_intent w) reason actor clock = Ok (i, evs) ->
    intent_step offered w (MkIntentWorld i (iw_submissions w) (iw_log w ++ evs))
| step_fail reason clock i evs : failIntent (iw_intent w) reason clock = Ok (i, evs) ->
    intent_step offered w (MkIntentWorld i (iw_submissions w) (iw_log w ++ evs))
| step_expire clock : intent_step offered w (MkIntentWorld (expireIfDue (iw_intent w) clock) (iw_submissions w) (iw_log w)).

(** A drafted intent none of whose keys was used yet. *)
Definition initial_world (w : IntentWorld) : Prop :=
  (exists corridors id cmd clock, draftIntent corridors id cmd clock = Ok (iw_intent w)) /\
  Forall (fun s => sb_intentId s <> intentId (iw_intent w)) (iw_submissions w) /\ iw_log w = [].

Definition intent_reachable (offered : FxQuote -> Prop) (w : IntentWorld) : Prop :=
  exists w0, initial_world w0 /\ rtc (intent_step offered) w0 w.

End operations.

(** ** What each operation does when it succeeds *)

Section lemmas.
  Context (Date_parse : string -> option Z).
  Implicit Types (i : TransferIntent) (w : IntentWorld).

Lemma usable_Ok e now : assertQuoteUsable Date_parse e now = Ok tt <-> isQuoteExpired Date_parse e now = false.
Proof. unfold assertQuoteUsable. rewrite guard_Ok, not_true_iff_false. naive_solver. Qed.

Lemma attachQuote_Ok i q clock i' : attachQuote Date_parse i q clock = Ok i' ->
  ti_status i = drafted /\ q_orgId q = ti_orgId i /\ q_corridorId q = ti_corridorId i /\ q_sourceAmountMinor q = ti_sourceAmountMinor i /\
  q_sourceCurrency q = ti_sourceCurrency i /\ q_destinationCurrency q = ti_destinationCurrency i /\
  isQuoteExpired Date_parse (q_expiresAt q) (clock 0%nat) = false /\
  i' = i <| ti_status := quoted |> <| ti_quote := Some (frozenQuoteOf q) |> <| ti_quotedAt := Some (toISOString (clock 1%nat)) |>.
Proof.
  unfold attachQuote.
  intros [H1 [H2 [H3 [H4 [H5 ([] & H6%usable_Ok & [= <-])%bind_Ok]%guard_Ok]%guard_Ok]%guard_Ok]%guard_Ok]%guard_Ok.
  apply dec_stable in H1, H2, H3, H4. assert (q_sourceCurrency q = ti_sourceCurrency i /\ q_destinationCurrency q = ti_destinationCurrency i) as [H7 H8].
  { destruct (decide (q_sourceCurrency q = ti_sourceCurrency i)), (decide (q_destinationCurrency q = ti_destinationCurrency i)); tauto. }
  done.
Qed.

Lemma authorizeIntent_Ok i who clock i' evs : authorizeIntent Date_parse i who clock = Ok (i', evs) ->
  exists q p, ti_status i = quoted /\ trim who <> "" /\ ti_quote i = Some q /\ isQuoteExpired Date_parse (fq_expiresAt q) (clock 0%nat) = false /\
  i' = i <| ti_status := authorized |> <| ti_authorizedBy := Some (trim who) |> <| ti_authorizedAt := Some (toISOString (clock 1%nat)) |> /\
  evs = [crossborderEvent p (clock_after 2 clock)] /\
  exists amount fee debit credit, p = IntentAuthorizedPayload (intentId i) (ti_orgId i) (ti_corridorId i) (fq_quoteId q) amount
    (ti_sourceCurrency i) (ti_destinationCurrency i) fee debit credit (appliedRatePayload (fq_rate q)) (trim who) (toISOString (clock 1%nat)) /\
    minorToNumber (ti_sourceAmountMinor i) = Ok amount /\ feeBreakdownPayload (fq_fee q) = Ok fee /\
    minorToNumber (fq_sourceDebitMinor q) = Ok debit /\ minorToNumber (fq_destinationCreditMinor q) = Ok credit.
Proof.
  unfold authorizeIntent. intros [H1 [H2 H]%guard_Ok]%guard_Ok. apply dec_stable in H1. destruct (ti_quote i) as [q|]; [|done].
  apply bind_Ok in H as ([] & Hu%usable_Ok & (amount & Ha & (fee & Hf & (debit & Hd & (credit & Hc & [= <- <-])%bind_Ok)%bind_Ok)%bind_Ok)%bind_Ok).
  exists q, (IntentAuthorizedPayload (intentId i) (ti_orgId i) (ti_corridorId i) (fq_quoteId q) amount (ti_sourceCurrency i)
    (ti_destinationCurrency i) fee debit credit (appliedRatePayload (fq_rate q)) (trim who) (toISOString (clock 1%nat))).
  repeat (split; [done|]). by exists amount, fee, debit, credit.
Qed.

Lemma submitFresh_Ok i key rail c clock res : submitFresh Date_parse i key rail c clock = Ok res ->
  exists q debit credit, ti_status i = authorized /\ co_status c = corridor_active /\ trim rail ∈ co_rails c /\ ti_quote i = Some q /\
  isQuoteExpired Date_parse (fq_expiresAt q) (clock 0%nat) = false /\
  minorToNumber (fq_sourceDebitMinor q) = Ok debit /\ minorToNumber (fq_destinationCreditMinor q) = Ok credit /\
  let at_ := toISOString (clock 1%nat) in
  res = MkSubmitResult (i <| ti_status := submitted |> <| ti_rail := Some (trim rail) |> <| ti_submittedAt := Some at_ |>)
    (MkSubmission (intentId i) key (trim rail) (fq_quoteId q) (fq_sourceDebitMinor q) (fq_destinationCreditMinor q) at_) false
    [crossborderEvent (IntentSubmittedPayload (intentId i) (ti_orgId i) (ti_corridorId i) (fq_quoteId q) (trim rail) key debit credit at_)
       (clock_after 2 clock)].
Proof.
  unfold submitFresh, assertCorridorLive. intros [H1 (? & [H2 _]%guard_Ok & [H3 H]%guard_Ok)%bind_Ok]%guard_Ok.
  apply dec_stable in H1, H2, H3. destruct (ti_quote i) as [q|]; [|done].
  apply bind_Ok in H as ([] & Hu%usable_Ok & (debit & Hd & (credit & Hc & [= <-])%bind_Ok)%bind_Ok). by exists q, debit, credit.
Qed.

Lemma submitIntent_Ok i cmd c subs clock res : submitIntent Date_parse i cmd c subs clock = Ok res ->
  trim (sc_idempotencyKey cmd) <> "" /\
  ((exists prior, List.find (isPriorSubmission (intentId i) (trim (sc_idempotencyKey cmd))) subs = Some prior /\
      identicalSubmit prior (sc_rail cmd) (ti_quote i) = true /\
      res = MkSubmitResult i prior true
        [crossborderEvent (IntentReplayObservedPayload (intentId i) (trim (sc_idempotencyKey cmd)) (sb_quoteId prior) (toISOString (clock 0%nat)))
           (clock_after 1 clock)]) \/
   (List.find (isPriorSubmission (intentId i) (trim (sc_idempotencyKey cmd))) subs = None /\
      submitFresh Date_parse i (trim (sc_idempotencyKey cmd)) (sc_rail cmd) c clock = Ok res)).
Proof.
  unfold submitIntent. intros [H1 H]%guard_Ok. split; [done|]. destruct (List.find _ subs) as [prior|]; [left|right; done].
  apply guard_Ok in H as [Hi [= <-]]. apply not_false_is_true in Hi. by exists prior.
Qed.

Lemma assertRealized_Ok v z : assertRealized v z = Ok tt <-> forall x, v = Some x -> toMinorUnits x = Ok z.
Proof.
  unfold assertRealized. destruct v as [x|]; [|naive_solver]. rewrite bind_Ok. setoid_rewrite guard_Ok. split.
  - intros (y & Hy & H & _) ? [= <-]. apply dec_stable in H. congruence.
  - intros H. exists z. naive_solver.
Qed.

Lemma feeDrifted_false a b : feeDrifted a b = false <->
  fb_flatMinor a = fb_flatMinor b /\ fb_bpsMinor a = fb_bpsMinor b /\ fb_totalMinor a = fb_totalMinor b /\ fb_bps a = fb_bps b.
Proof. unfold feeDrifted. rewrite negb_false_iff, !andb_true_iff, !Z.eqb_eq. tauto. Qed.

Lemma settleIntent_Ok i ctx clock i' evs : settleIntent i ctx clock = Ok (i', evs) ->
  exists q debit credit, ti_status i = submitted /\ ti_quote i = Some q /\
  minorToNumber (fq_sourceDebitMinor q) = Ok debit /\ minorToNumber (fq_destinationCreditMinor q) = Ok credit /\
  (forall v, sx_realizedSourceDebitMinor ctx = Some v -> toMinorUnits v = Ok (fq_sourceDebitMinor q)) /\
  (forall v, sx_realizedDestinationCreditMinor ctx = Some v -> toMinorUnits v = Ok (fq_destinationCreditMinor q)) /\
  (forall c, sx_corridor ctx = Some c -> exists fb, computeFeeBreakdown (co_feeSchedule c) (Big (ti_sourceAmountMinor i)) = Ok fb /\ feeDrifted fb (fq_fee q) = false) /\
  i' = i <| ti_status := settled |> <| ti_settledAt := Some (toISOString (clock 0%nat)) |> <| ti_settlementRef := sx_settlementRef ctx |> /\
  evs = [crossborderEvent (IntentSettledPayload (intentId i) (ti_corridorId i) (fq_quoteId q) (ti_sourceCurrency i)
           (ti_destinationCurrency i) debit credit (sx_settlementRef ctx) (toISOString (clock 0%nat))) (clock_after 1 clock)].
Proof.
  unfold settleIntent. intros [H1 H]%guard_Ok. apply dec_stable in H1. destruct (ti_quote i) as [q|]; [|done].
  apply bind_Ok in H as (dr & Hdr & [Hnd ([] & Hd & ([] & Hc & (debit & H5 & (credit & H6 & [= <- <-])%bind_Ok)%bind_Ok)%bind_Ok)%bind_Ok]%guard_Ok).
  rewrite assertRealized_Ok in Hd, Hc. exists q, debit, credit. repeat (split; [done|]). split; [|done].
  intros c Ec. rewrite Ec in Hdr. apply bind_Ok in Hdr as (fb & Hfb & [= <-]). apply not_true_is_false in Hnd. by exists fb.
Qed.

Lemma cancelIntent_Ok i reason actor clock i' evs : cancelIntent i reason actor clock = Ok (i', evs) ->
  cancelled ∈ INTENT_TRANSITIONS (ti_status i) /\
  i' = i <| ti_status := cancelled |> <| ti_cancelledAt := Some (toISOString (clock 0%nat)) |> /\
  evs = [crossborderEvent (IntentCancelledPayload (intentId i) (ti_corridorId i) (trim reason) (trim actor) (toISOString (clock 0%nat))) (clock_after 1 clock)].
Proof.
  unfold cancelIntent, assertIntentReason, assertActor, canTransition.
  intros [H1 (? & [_ [= <-]]%guard_Ok & (? & [_ [= <-]]%guard_Ok & [= <- <-])%bind_Ok)%bind_Ok]%guard_Ok.
  rewrite bool_decide_eq_false in H1. apply dec_stable in H1. done.
Qed.

Lemma failIntent_Ok i reason clock i' evs : failIntent i reason clock = Ok (i', evs) ->
  failed ∈ INTENT_TRANSITIONS (ti_status i) /\
  i' = i <| ti_status := failed |> <| ti_failedAt := Some (toISOString (clock 0%nat)) |> /\
  evs = [crossborderEvent (IntentFailedPayload (intentId i) (ti_corridorId i) (trim reason) (toISOString (clock 0%nat))) (clock_after 1 clock)].
Proof.
  unfold failIntent, assertIntentReason, canTransition. intros [H1 (? & [_ [= <-]]%guard_Ok & [= <- <-])%bind_Ok]%guard_Ok.
  rewrite bool_decide_eq_false in H1. apply dec_stable in H1. done.
Qed.

Lemma expireIfDue_cases i clock : expireIfDue Date_parse i clock = i \/
  (expired ∈ INTENT_TRANSITIONS (ti_status i) /\ is_Some (ti_quote i) /\
   expireIfDue Date_parse i clock = i <| ti_status := expired |> <| ti_expiredAt := Some (toISOString (clock 0%nat)) |>).
Proof.
  unfold expireIfDue. destruct (ti_quote i) as [q|]; [|by left]. destruct (canTransition _ expired) eqn:E; [|by left].
  apply bool_decide_eq_true in E. destruct (match Date_parse (fq_expiresAt q) with Some e => clock 0%nat <? e | None => false end); [by left|right; done].
Qed.

(** ** The invariant *)

(** The submissions recorded for the intent. *)
Definition own_submissions (w : IntentWorld) : list SubmissionRecord :=
  List.filter (fun s => bool_decide (sb_intentId s = intentId (iw_intent w))) (iw_submissions w).

(** The legs announced as settled. *)
Definition settled_legs (log : list CrossborderEvent) : list (number * number) :=
  omap (fun e => match payload e with IntentSettledPayload _ _ _ _ _ debit credit _ _ => Some (debit, credit) | _ => None end) log.

(** The quote was offered for this very transfer. *)
Definition offered_for (offered : FxQuote -> Prop) (i : TransferIntent) (q : FrozenQuote) : Prop :=
  exists f, offered f /\ q = frozenQuoteOf f /\ q_orgId f = ti_orgId i /\ q_corridorId f = ti_corridorId i /\
    q_sourceAmountMinor f = ti_sourceAmountMinor i /\ q_sourceCurrency f = ti_sourceCurrency i /\ q_destinationCurrency f = ti_destinationCurrency i.

(** The submission dispatches the frozen quote. *)
Definition dispatches (s : SubmissionRecord) (i : TransferIntent) : Prop :=
  exists q, ti_quote i = Some q /\ ti_rail i = Some (sb_rail s) /\ ti_submittedAt i = Some (sb_submittedAt s) /\
    sb_quoteId s = fq_quoteId q /\ sb_sourceDebitMinor s = fq_sourceDebitMinor q /\ sb_destinationCreditMinor s = fq_destinationCreditMinor q.

Record intent_wf (offered : FxQuote -> Prop) (w : IntentWorld) : Prop := {
  iwf_quote : match ti_status (iw_intent w) with
    | drafted => ti_quote (iw_intent w) = None | cancelled => True | _ => is_Some (ti_quote (iw_intent w)) end;
  iwf_offered : forall q, ti_quote (iw_intent w) = Some q -> offered_for offered (iw_intent w) q;
  iwf_submission : match own_submissions w with
    | [] => ti_rail (iw_intent w) = None /\ ti_submittedAt (iw_intent w) = None /\ ti_status (iw_intent w) ∉ [submitted; settled; failed]
    | [s] => dispatches s (iw_intent w) /\ ti_status (iw_intent w) ∈ [submitted; settled; failed; cancelled]
    | _ => False
    end;
  iwf_settled : settled_legs (iw_log w) = match ti_status (iw_intent w), ti_quote (iw_intent w) with
    | settled, Some q => [(num (fq_sourceDebitMinor q), num (fq_destinationCreditMinor q))] | _, _ => [] end;
  iwf_exact : forall q, ti_status (iw_intent w) = settled -> ti_quote (iw_intent w) = Some q ->
    Z.abs (fq_sourceDebitMinor q) <= MAX_SAFE_INTEGER /\ Z.abs (fq_destinationCreditMinor q) <= MAX_SAFE_INTEGER;
}.

Lemma settled_legs_app l l' : settled_legs (l ++ l') = settled_legs l ++ settled_legs l'.
Proof. apply omap_app. Qed.

Lemma initial_world_wf offered w : initial_world w -> intent_wf offered w.
Proof.
  intros [(cs & id & cmd & clock & H) [Hs Hl]]. unfold draftIntent in H.
  apply bind_Ok in H as (c & _ & (? & _ & (? & _ & (? & _ & H)%bind_Ok)%bind_Ok)%bind_Ok).
  destruct (currency_of_string _); [|done]. destruct (currency_of_string _); [|done].
  apply guard_Ok in H as [_ (a & _ & (iid & _ & [= E])%bind_Ok)%bind_Ok].
  assert (own_submissions w = []) as Hown.
  { unfold own_submissions. induction Hs as [|s l Hs _ IH]; [done|]. cbn. by rewrite bool_decide_false. }
  constructor; rewrite ?Hown, ?Hl, <- E; cbn; try done. repeat split; try done. set_solver.
Qed.

(** Operations that only move a submitted-or-later intent, or an intent without submission,
    keep the record of its submissions. *)
Lemma keeps_submissions offered w i' : intent_wf offered w ->
  intentId i' = intentId (iw_intent w) -> ti_quote i' = ti_quote (iw_intent w) -> ti_rail i' = ti_rail (iw_intent w) ->
  ti_submittedAt i' = ti_submittedAt (iw_intent w) ->
  (ti_status (iw_intent w) ∉ [submitted; settled; failed] -> ti_status i' ∉ [submitted; settled; failed]) ->
  (ti_status (iw_intent w) ∈ [submitted; settled; failed; cancelled] -> own_submissions w <> [] -> ti_status i' ∈ [submitted; settled; failed; cancelled]) ->
  match own_submissions (MkIntentWorld i' (iw_submissions w) (iw_log w)) with
  | [] => ti_rail i' = None /\ ti_submittedAt i' = None /\ ti_status i' ∉ [submitted; settled; failed]
  | [s] => dispatches s i' /\ ti_status i' ∈ [submitted; settled; failed; cancelled]
  | _ => False
  end.
Proof.
  intros [_ _ Hs _ _] Eid Eq Er Ea H1 H2. unfold own_submissions in *. cbn [iw_intent iw_submissions] in *. rewrite Eid.
  destruct (List.filter _ (iw_submissions w)) as [|s [|]]; [|destruct Hs as [Hd Hst]|done].
  - rewrite Er, Ea. naive_solver.
  - split; [|by apply H2]. unfold dispatches in *. by rewrite Eq, Er, Ea.
Qed.

(** The other operations change neither the quote nor the parties. *)
Lemma keeps_wf offered w i' evs : intent_wf offered w ->
  intentId i' = intentId (iw_intent w) -> ti_orgId i' = ti_orgId (iw_intent w) -> ti_corridorId i' = ti_corridorId (iw_intent w) ->
  ti_sourceCurrency i' = ti_sourceCurrency (iw_intent w) -> ti_destinationCurrency i' = ti_destinationCurrency (iw_intent w) ->
  ti_sourceAmountMinor i' = ti_sourceAmountMinor (iw_intent w) ->
  ti_quote i' = ti_quote (iw_intent w) -> ti_rail i' = ti_rail (iw_intent w) -> ti_submittedAt i' = ti_submittedAt (iw_intent w) ->
  (ti_status i' <> cancelled -> is_Some (ti_quote i')) -> ti_status i' <> drafted -> ti_status i' <> settled ->
  ti_status (iw_intent w) <> settled -> settled_legs evs = [] ->
  (ti_status (iw_intent w) ∉ [submitted; settled; failed] -> ti_status i' ∉ [submitted; settled; failed]) ->
  (ti_status (iw_intent w) ∈ [submitted; settled; failed; cancelled] -> own_submissions w <> [] -> ti_status i' ∈ [submitted; settled; failed; cancelled]) ->
  intent_wf offered (MkIntentWorld i' (iw_submissions w) (iw_log w ++ evs)).
Proof.
  intros Hwf E1 E2 E3 E4 E5 E6 E7 E8 E9 Hq Hnd Hns Hns' Hl H1 H2. pose proof (keeps_submissions offered w i' Hwf E1 E7 E8 E9 H1 H2) as Hsub.
  destruct Hwf as [_ Hoff _ Hset _]. constructor; cbn [iw_intent iw_submissions iw_log].
  - destruct (ti_status i'); try done; by apply Hq.
  - intros q Eq. rewrite E7 in Eq. unfold offered_for in *. rewrite E2, E3, E4, E5, E6. by apply Hoff.
  - exact Hsub.
  - rewrite settled_legs_app, Hset, Hl. destruct (ti_status i'), (ti_status (iw_intent w)); done.
  - done.
Qed.

Lemma submit_wf offered w cmd c clock res : intent_wf offered w ->
  submitIntent Date_parse (iw_intent w) cmd c (iw_submissions w) clock = Ok res ->
  intent_wf offered (MkIntentWorld (sr_intent res) (if sr_duplicate res then iw_submissions w else iw_submissions w ++ [sr_submission res])
    (iw_log w ++ sr_events res)).
Proof.
  intros [Hq Hoff Hsub Hset Hex] [_ [(prior & _ & _ & ->)|[_ Hf]]]%submitIntent_Ok.
  - constructor; cbn; try done. by rewrite settled_legs_app, app_nil_r.
  - apply submitFresh_Ok in Hf as (q & debit & credit & Hst & _ & _ & Hquote & _ & _ & _ & ->). rewrite Hst in *.
    constructor; cbn; [by rewrite Hquote|done| |by rewrite settled_legs_app, Hset|done].
    unfold own_submissions in *. cbn. rewrite List.filter_app. cbn. rewrite bool_decide_true by done.
    destruct (List.filter _ (iw_submissions w)) as [|s [|]]; [|destruct Hsub as [_ Hs]; set_solver|done]. cbn. split; [|set_solver].
    exists q. by rewrite Hquote.
Qed.

Lemma settle_wf offered w ctx clock i evs : intent_wf offered w -> settleIntent (iw_intent w) ctx clock = Ok (i, evs) ->
  intent_wf offered (MkIntentWorld i (iw_submissions w) (iw_log w ++ evs)).
Proof.
  intros Hwf (q & debit & credit & Hst & Hquote & [Hd ->]%minorToNumber_iff & [Hc ->]%minorToNumber_iff & _ & _ & _ & -> & ->)%settleIntent_Ok.
  match goal with |- intent_wf _ (MkIntentWorld ?j _ _) =>
    pose proof (keeps_submissions offered w j Hwf eq_refl eq_refl eq_refl eq_refl ltac:(rewrite Hst; set_solver) ltac:(cbn; set_solver)) as Hsub end.
  destruct Hwf as [Hq Hoff _ Hset _]. rewrite Hst in *. constructor; cbn; [by rewrite Hquote|done|exact Hsub| |].
  - by rewrite settled_legs_app, Hset, Hquote.
  - intros q' _ Eq. rewrite Hquote in Eq. by injection Eq as <-.
Qed.

Lemma intent_step_wf offered w w' : intent_step Date_parse offered w w' -> intent_wf offered w -> intent_wf offered w'.
Proof.
  intros Hstep Hwf. destruct Hstep as [q clock i Ho H|who clock i evs H|cmd c clock res H|ctx clock i evs H|reason actor clock i evs H|reason clock i evs H|clock].
  - apply attachQuote_Ok in H as (Hst & H1 & H2 & H3 & H4 & H5 & _ & ->). pose proof Hwf as [Hq Hoff Hsub Hset Hex]. rewrite Hst in *.
    constructor; cbn; [done|intros q' [= <-]; by exists q| |done|done]. unfold own_submissions in *. cbn in *.
    destruct (List.filter _ _) as [|s [|]]; [|destruct Hsub as [_ Hs]; set_solver|done]. destruct Hsub as (? & ? & _). split; [done|]. split; [done|set_solver].
  - apply authorizeIntent_Ok in H as (q & p & Hst & _ & Hq & _ & -> & -> & amount & fee & debit & credit & -> & _).
    apply keeps_wf; cbn; try done; rewrite ?Hq, ?Hst; try done; set_solver.
  - by eapply submit_wf.
  - by eapply settle_wf.
  - apply cancelIntent_Ok in H as (Hin & -> & ->). apply keeps_wf; cbn; try done; try set_solver.
    intros E. rewrite E in Hin. cbn in Hin. set_solver.
  - apply failIntent_Ok in H as (Hin & -> & ->).
    assert (ti_status (iw_intent w) = submitted) as Hst by (destruct (ti_status (iw_intent w)); cbn in Hin; set_solver).
    apply keeps_wf; cbn; try done; rewrite ?Hst; try done; try set_solver. intros _. destruct Hwf as [Hq _ _ _ _]. by rewrite Hst in Hq.
  - destruct (expireIfDue_cases (iw_intent w) clock) as [->|(Hin & Hq & ->)]; [by destruct w|].
    rewrite <- (app_nil_r (iw_log w)).
    assert (ti_status (iw_intent w) ∉ [submitted; settled; failed; cancelled]) by (destruct (ti_status (iw_intent w)); cbn in Hin; set_solver).
    apply keeps_wf; cbn; try done; set_solver.
Qed.

Lemma intent_reachable_wf offered w : intent_reachable Date_parse offered w -> intent_wf offered w.
Proof.
  intros (w0 & H0 & Hs). apply (initial_world_wf offered) in H0. induction Hs as [|w1 w2 w3 H12 _ IH]; [done|].
  apply IH. by eapply intent_step_wf.
Qed.

(** ** After the submission *)

Lemma step_status offered w w' : intent_step Date_parse offered w w' ->
  ti_status (iw_intent w') = ti_status (iw_intent w) \/ ti_status (iw_intent w') ∈ INTENT_TRANSITIONS (ti_status (iw_intent w)).
Proof.
  intros Hstep. destruct Hstep as [q clock i Ho H|who clock i evs H|cmd c clock res H|ctx clock i evs H|reason actor clock i evs H|reason clock i evs H|clock].
  - apply attachQuote_Ok in H as (Hst & _ & _ & _ & _ & _ & _ & ->). rewrite Hst. cbn. set_solver.
  - apply authorizeIntent_Ok in H as (q & p & Hst & _ & _ & _ & -> & _). rewrite Hst. cbn. set_solver.
  - apply submitIntent_Ok in H as [_ [(prior & _ & _ & ->)|[_ Hf]]]; [by left|].
    apply submitFresh_Ok in Hf as (q & debit & credit & Hst & _ & _ & _ & _ & _ & _ & ->). rewrite Hst. cbn. set_solver.
  - apply settleIntent_Ok in H as (q & debit & credit & Hst & _ & _ & _ & _ & _ & _ & -> & _). rewrite Hst. cbn. set_solver.
  - apply cancelIntent_Ok in H as (Hin & -> & _). by right.
  - apply failIntent_Ok in H as (Hin & -> & _). by right.
  - destruct (expireIfDue_cases (iw_intent w) clock) as [->|(Hin & _ & ->)]; [by left|by right].
Qed.

(** A quote, once frozen, and a submission, once recorded, stay as they are. *)
Lemma step_keeps offered w w' : intent_step Date_parse offered w w' ->
  intentId (iw_intent w') = intentId (iw_intent w) /\
  (forall q, ti_status (iw_intent w) <> drafted -> ti_quote (iw_intent w) = Some q -> ti_quote (iw_intent w') = Some q /\ ti_status (iw_intent w') <> drafted) /\
  exists l, iw_submissions w' = iw_submissions w ++ l.
Proof.
  intros Hstep. pose proof (step_status offered w w' Hstep) as Hst'.
  assert (Hnd : ti_status (iw_intent w) <> drafted -> ti_status (iw_intent w') <> drafted).
  { intros Hd E. rewrite E in Hst'. destruct Hst' as [|Hin]; [congruence|]. destruct (ti_status (iw_intent w)); cbn in Hin; set_solver. }
  assert (Hnil : exists l, iw_submissions w = iw_submissions w ++ l) by (exists []; by rewrite app_nil_r).
  clear Hst'. destruct Hstep as [q clock i Ho H|who clock i evs H|cmd c clock res H|ctx clock i evs H|reason actor clock i evs H|reason clock i evs H|clock]; cbn in *.
  - apply attachQuote_Ok in H as (Hst & _ & _ & _ & _ & _ & _ & ->). cbn. naive_solver.
  - apply authorizeIntent_Ok in H as (q & p & Hst & _ & _ & _ & -> & _). cbn. naive_solver.
  - apply submitIntent_Ok in H as [_ [(prior & _ & _ & ->)|[_ Hf]]]; [cbn; naive_solver|].
    apply submitFresh_Ok in Hf as (q & debit & credit & Hst & _ & _ & _ & _ & _ & _ & ->). cbn. split; [done|]. split; [naive_solver|by eexists].
  - apply settleIntent_Ok in H as (q & debit & credit & Hst & _ & _ & _ & _ & _ & _ & -> & _). cbn. naive_solver.
  - apply cancelIntent_Ok in H as (Hin & -> & _). cbn. naive_solver.
  - apply failIntent_Ok in H as (Hin & -> & _). cbn. naive_solver.
  - destruct (expireIfDue_cases (iw_intent w) clock) as [E|(Hin & _ & E)]; rewrite E in *; cbn; naive_solver.
Qed.

Lemma steps_keep offered w w' q : rtc (intent_step Date_parse offered) w w' ->
  ti_status (iw_intent w) <> drafted -> ti_quote (iw_intent w) = Some q ->
  intentId (iw_intent w') = intentId (iw_intent w) /\ ti_quote (iw_intent w') = Some q /\ exists l, iw_submissions w' = iw_submissions w ++ l.
Proof.
  induction 1 as [w|w1 w2 w3 H12 _ IH]; intros Hd Hq; [split; [done|]; split; [done|]; exists []; by rewrite app_nil_r|].
  apply step_keeps in H12 as (Eid & Hkeep & l & El). destruct (Hkeep q Hd Hq) as [Hq2 Hd2].
  destruct (IH Hd2 Hq2) as (Eid' & Hq3 & l' & El'). split; [congruence|]. split; [done|]. exists (l ++ l'). by rewrite app_assoc, <- El.
Qed.

End lemmas.

(** ** Samples *)

Definition sample_fx_quote : option FxQuote := match sample_quote_result with Ok (q, _) => Some q | Err _ => None end.

(** In conversion, unfold the names of the samples before the operations. *)
Strategy -10 [sample_quote_result sample_fx_quote].

Definition sample_draft : DraftIntentCommand := MkDraftIntent sample_id "KES" "UGX" (Big 12367) None.

(** An intent in the given status with the sample quote frozen. *)
Definition sample_intent (s : IntentStatus) : TransferIntent :=
  MkIntent "intent-1" sample_id (corridorId sample_corridor) KES UGX 12367 s
    (if decide (s = drafted) then None else frozenQuoteOf <$> sample_fx_quote)
    None None "1970-01-01T00:00:01.500Z" None None None None None None None None.

Definition sample_world (s : IntentStatus) : IntentWorld := MkIntentWorld (sample_intent s) [] [].

(** The quotes the lane issues over registered corridors. *)
Definition issued (Date_parse : string -> option Z) (lc : string -> string -> Z) (q : FxQuote) : Prop :=
  exists corridors id v table clock options evs, Forall corridor_wf corridors /\
    quote Date_parse lc corridors id v table clock options = Ok (q, evs).

Definition sample_submit : SubmitCommand := MkSubmit "key-1" "bank_swift".

Section path.
  Context (Date_parse : string -> option Z) (c : Corridor) (d : DraftIntentCommand) (q : FxQuote).
  Context (who : string) (cmd : SubmitCommand) (ctx : SettleContext) (clock : Clock).

(** The worlds a transfer goes through that meets no obstacle. *)
Definition transfer_path : result (list IntentWorld) :=
  i0 ← draftIntent [c] (corridorId c) d clock;
  i1 ← attachQuote Date_parse i0 q clock;
  '(i2, e2) ← authorizeIntent Date_parse i1 who clock;
  res ← submitIntent Date_parse i2 cmd c [] clock;
  '(i4, e4) ← settleIntent (sr_intent res) ctx clock;
  Ok [MkIntentWorld i0 [] []; MkIntentWorld i1 [] []; MkIntentWorld i2 [] e2;
      MkIntentWorld (sr_intent res) [sr_submission res] (e2 ++ sr_events res);
      MkIntentWorld i4 [sr_submission res] ((e2 ++ sr_events res) ++ e4)].

Lemma transfer_path_reachable (offered : FxQuote -> Prop) ws : offered q -> transfer_path = Ok ws ->
  Forall (intent_reachable Date_parse offered) ws.
Proof.
  intros Hq. unfold transfer_path.
  intros (i0 & H0 & (i1 & H1 & ([i2 e2] & H2 & (res & H3 & ([i4 e4] & H4 & H)%bind_Ok)%bind_Ok)%bind_Ok)%bind_Ok)%bind_Ok. injection H as <-.
  assert (sr_duplicate res = false) as Hdup.
  { apply submitIntent_Ok in H3 as [_ [(prior & ? & _)|[_ (q' & x & y & _ & _ & _ & _ & _ & _ & _ & ->)%submitFresh_Ok]]]; done. }
  set (w0 := MkIntentWorld i0 [] []). assert (Hw0 : initial_world w0) by (split; [by do 4 eexists|split; [constructor|done]]).
  assert (H01 : intent_step Date_parse offered w0 (MkIntentWorld i1 [] [])) by (by eapply (step_attach _ _ w0)).
  assert (H12 : intent_step Date_parse offered (MkIntentWorld i1 [] []) (MkIntentWorld i2 [] e2)) by (by eapply (step_authorize _ _ (MkIntentWorld i1 [] []))).
  assert (H23 : intent_step Date_parse offered (MkIntentWorld i2 [] e2) (MkIntentWorld (sr_intent res) [sr_submission res] (e2 ++ sr_events res))).
  { pose proof (step_submit Date_parse offered (MkIntentWorld i2 [] e2) _ _ _ _ H3) as Hs. by rewrite Hdup in Hs. }
  assert (H34 : intent_step Date_parse offered (MkIntentWorld (sr_intent res) [sr_submission res] (e2 ++ sr_events res))
    (MkIntentWorld i4 [sr_submission res] ((e2 ++ sr_events res) ++ e4))) by (by eapply (step_settle _ _ (MkIntentWorld (sr_intent res) _ _))).
  repeat constructor; exists w0; (split; [done|]); repeat first [apply rtc_refl|eapply rtc_l; [eassumption|]].
Qed.

Lemma transfer_path_lookup (offered : FxQuote -> Prop) ws n : offered q -> transfer_path = Ok ws -> (n <= 4)%nat ->
  exists w, ws !! n = Some w /\ intent_reachable Date_parse offered w.
Proof.
  intros Hq E Hn. pose proof (transfer_path_reachable offered ws Hq E) as Hr. unfold transfer_path in E.
  apply bind_Ok in E as (i0 & _ & (i1 & _ & ([i2 e2] & _ & (res & _ & ([i4 e4] & _ & H)%bind_Ok)%bind_Ok)%bind_Ok)%bind_Ok).
  destruct (lookup_lt_is_Some_2 ws n) as [w Hw]; [injection H as <-; cbn; lia|]. exists w. split; [done|]. by eapply Forall_lookup in Hr.
Qed.

End path.

Definition default_quote : FxQuote :=
  MkFxQuote "" "" "" KES KES 0 (MkFeeBreakdown 0 0 0 0 0) 0 0 (MkAppliedRate "" "" 0 0 0 0 0 0 "" None) "" "" 0.

Definition sample_path : result (list IntentWorld) :=
  transfer_path Date_parse_iso sample_corridor sample_draft (default default_quote sample_fx_quote) "treasurer" sample_submit
    (MkSettle (Some sample_corridor) (Some (Big 17553)) None None) (fixed_clock 1600).

Strategy -10 [sample_path].

Definition world_at (n : nat) : IntentWorld :=
  match sample_path with Ok ws => default (sample_world drafted) (ws !! n) | Err _ => sample_world drafted end.

Lemma sample_path_ok : is_ok sample_path = true.
Proof. vm_compute. reflexivity. Qed.

Lemma sample_quote_issued : issued Date_parse_iso string_cmp (default default_quote sample_fx_quote).
Proof.
  assert (is_ok sample_quote_result = true) as Hok by (vm_compute; reflexivity). unfold sample_fx_quote.
  apply is_ok_true in Hok as [[q evs] E]. rewrite E. unfold sample_quote_result in E. do 7 eexists. split; [|exact E].
  constructor; [|constructor]. apply corridor_wf_reachable.
  exists sample_corridor_input, (fixed_clock 0). do 2 eexists. split; [|apply rtc_refl]. vm_compute. reflexivity.
Qed.

Lemma world_reachable n : (n <= 4)%nat -> intent_reachable Date_parse_iso (issued Date_parse_iso string_cmp) (world_at n).
Proof.
  intros Hn. unfold world_at. pose proof sample_path_ok as Hok. apply is_ok_true in Hok as [ws E]. rewrite E.
  destruct (transfer_path_lookup _ _ _ _ _ _ _ _ _ ws n sample_quote_issued E Hn) as (w & -> & Hw). exact Hw.
Qed.

(** ** Theorems *)

(** The intent's operations are exactly the transition table: a call either leaves the
    status as it is or follows an entry of the table, and every entry is taken by a call. *)
Theorem intent_machine_exact :
  (forall Date_parse offered w w', intent_step Date_parse offered w w' ->
     ti_status (iw_intent w') = ti_status (iw_intent w) \/ ti_status (iw_intent w') ∈ INTENT_TRANSITIONS (ti_status (iw_intent w))) /\
  (forall s t, t ∈ INTENT_TRANSITIONS s -> exists w w', ti_status (iw_intent w) = s /\ ti_status (iw_intent w') = t /\
     intent_step Date_parse_iso (fun _ => True) w w').
Proof.
  split; [intros Date_parse offered w w'; apply step_status|].
  intros s t Hin. exists (sample_world s).
  enough (exists w', ti_status (iw_intent w') = t /\ intent_step Date_parse_iso (fun _ => True) (sample_world s) w') as (w' & Ht & Hw')
    by (exists w'; by destruct s).
  assert (Hcancel : is_ok (cancelIntent (iw_intent (sample_world s)) "r" "a" (fixed_clock 2000)) = true -> t = cancelled ->
    exists w', ti_status (iw_intent w') = t /\ intent_step Date_parse_iso (fun _ => True) (sample_world s) w').
  { intros [[i evs] E]%is_ok_true ->. eexists. split; [|by eapply step_cancel]. apply cancelIntent_Ok in E as (_ & -> & _). done. }
  assert (Hexpire : ti_status (iw_intent (sample_world s)) = s -> ti_status (expireIfDue Date_parse_iso (iw_intent (sample_world s)) (fixed_clock 200000)) = t ->
    exists w', ti_status (iw_intent w') = t /\ intent_step Date_parse_iso (fun _ => True) (sample_world s) w').
  { intros _ E. eexists. split; [|apply (step_expire _ _ _ (fixed_clock 200000))]. exact E. }
  destruct s; cbn in Hin; rewrite ?elem_of_cons, ?elem_of_nil in Hin; try done; destruct_or! Hin; try done; subst t;
    first [apply Hcancel; [vm_compute; reflexivity|reflexivity]|apply Hexpire; vm_compute; reflexivity|idtac].
  - assert (is_ok (attachQuote Date_parse_iso (iw_intent (sample_world drafted)) (default default_quote sample_fx_quote) (fixed_clock 1600)) = true) as [i E]%is_ok_true by (vm_compute; reflexivity).
    eexists. split; [|by eapply step_attach]. apply attachQuote_Ok in E as (_ & _ & _ & _ & _ & _ & _ & ->). done.
  - assert (is_ok (authorizeIntent Date_parse_iso (iw_intent (sample_world quoted)) "a" (fixed_clock 1600)) = true) as [[i evs] E]%is_ok_true by (vm_compute; reflexivity).
    eexists. split; [|by eapply step_authorize]. apply authorizeIntent_Ok in E as (q & p & _ & _ & _ & _ & -> & _). done.
  - assert (is_ok (submitFresh Date_parse_iso (iw_intent (sample_world authorized)) "key-1" "bank_swift" sample_corridor (fixed_clock 1600)) = true) as [res E]%is_ok_true by (vm_compute; reflexivity).
    eexists. split; [|by eapply (step_submit _ _ _ sample_submit sample_corridor (fixed_clock 1600) res)].
    apply submitFresh_Ok in E as (q & x & y & _ & _ & _ & _ & _ & _ & _ & ->). done.
  - assert (is_ok (settleIntent (iw_intent (sample_world submitted)) (MkSettle None None None None) (fixed_clock 1600)) = true) as [[i evs] E]%is_ok_true by (vm_compute; reflexivity).
    eexists. split; [|by eapply step_settle]. apply settleIntent_Ok in E as (q & x & y & _ & _ & _ & _ & _ & _ & _ & -> & _). done.
  - assert (is_ok (failIntent (iw_intent (sample_world submitted)) "r" (fixed_clock 1600)) = true) as [[i evs] E]%is_ok_true by (vm_compute; reflexivity).
    eexists. split; [|by eapply step_fail]. apply failIntent_Ok in E as (_ & -> & _). done.
Qed.

(** C17: However often it is submitted and under whatever keys, an intent is dispatched at most
    once, with the legs of its frozen quote; a rail is stamped exactly when it was. *)
Theorem intent_dispatched_at_most_once (Date_parse : string -> option Z) (offered : FxQuote -> Prop) (w : IntentWorld) :
  intent_reachable Date_parse offered w ->
  (length (own_submissions w) <= 1)%nat /\ Forall (fun s => dispatches s (iw_intent w)) (own_submissions w) /\
  (is_Some (ti_rail (iw_intent w)) <-> own_submissions w <> []).
Proof.
  intros Hr%intent_reachable_wf. destruct Hr as [_ _ Hs _ _]. destruct (own_submissions w) as [|s [|]]; [|destruct Hs as [Hd _]|done].
  - destruct Hs as (-> & _ & _). split; [cbn; lia|]. split; [constructor|]. split; [by intros [? ?]|done].
  - split; [cbn; lia|]. split; [by repeat constructor|]. destruct Hd as (q & _ & -> & _). done.
Qed.

Lemma intent_dispatched_at_most_once_witness : (length (own_submissions (world_at 4)) <= 1)%nat /\ length (own_submissions (world_at 4)) = 1%nat.
Proof.
  split; [|vm_compute; reflexivity].
  apply (intent_dispatched_at_most_once Date_parse_iso (issued Date_parse_iso string_cmp) (world_at 4)). apply world_reachable. lia.
Defined.

(** C16: From quote to settlement no cent is created or destroyed: where intents only freeze
    quotes the lane issued over registered corridors, a settled transfer carries a quote
    issued for its corridor; it debits exactly its amount and the fee the corridor charges,
    and credits the minor unit nearest to the exact conversion at the rate the quote froze
    (the even one at a tie), which is that of a row of the table it was quoted from, after
    validation, effective for the transfer's pair when the quote was issued.  Its settlement
    was announced exactly once, and the announced numbers are exact. *)
Theorem settled_transfer_conserves_value (Date_parse : string -> option Z) (lc : string -> string -> Z) (w : IntentWorld) :
  intent_reachable Date_parse (issued Date_parse lc) w -> ti_status (iw_intent w) = settled ->
  exists f corridors v table clock options evs c r,
    ti_quote (iw_intent w) = Some (frozenQuoteOf f) /\
    quote Date_parse lc corridors (ti_corridorId (iw_intent w)) v table clock options = Ok (f, evs) /\
    c ∈ corridors /\ corridorId c = ti_corridorId (iw_intent w) /\
    charges (co_feeSchedule c) (ti_sourceAmountMinor (iw_intent w)) (q_fee f) /\
    q_sourceDebitMinor f = ti_sourceAmountMinor (iw_intent w) + fb_flatMinor (q_fee f) + fb_bpsMinor (q_fee f) /\
    row_in_force Date_parse lc table (ti_sourceCurrency (iw_intent w)) (ti_destinationCurrency (iw_intent w)) (clock 0%nat) r /\
    rate_wf r /\ shows_row (q_rate f) r /\
    converts_at (q_rate f) (ti_sourceAmountMinor (iw_intent w)) (q_destinationCreditMinor f) /\
    settled_legs (iw_log w) = [(num (q_sourceDebitMinor f), num (q_destinationCreditMinor f))] /\
    Z.abs (q_sourceDebitMinor f) <= MAX_SAFE_INTEGER /\ Z.abs (q_destinationCreditMinor f) <= MAX_SAFE_INTEGER.
Proof.
  intros [Hq Hoff _ Hset Hex]%intent_reachable_wf Hst. rewrite Hst in *. destruct Hq as [q Eq]. rewrite Eq in *.
  destruct (Hoff q eq_refl) as (f & (cs & id & v & table & clock & options & evs & Hcs & Hf) & -> & _ & <- & <- & <- & <-).
  pose proof Hf as [(c & r & Hbuilt) _]%quote_Ok. rewrite Forall_forall in Hcs.
  pose proof (Hcs c (proj1 (qb_corridor _ _ _ _ _ _ _ _ _ _ Hbuilt))) as Hc.
  destruct (built_fee _ _ _ _ _ _ _ _ _ _ Hc Hbuilt) as (Ha & _ & Hch).
  assert (Ha0 : 0 <= q_sourceAmountMinor f) by lia. destruct (built_rate _ _ _ _ _ _ _ _ _ _ Ha0 Hbuilt) as [Hs Hconv].
  pose proof Hch as (_ & _ & Hsum). destruct Hbuilt as [(Hin & Hid & _) _ (Hr & Hrow) _ Hdebit _ _ (_ & Eid & Es & Ed) _].
  exists f, cs, v, table, clock, options, evs, c, r. rewrite Eid, Es, Ed. repeat (split; [solve [done|lia]|]).
  by apply (Hex _ eq_refl eq_refl).
Qed.

Lemma settled_transfer_conserves_value_witness :
  exists q, ti_quote (iw_intent (world_at 4)) = Some q /\ settled_legs (iw_log (world_at 4)) = [(num (fq_sourceDebitMinor q), num (fq_destinationCreditMinor q))] /\
    converts_at (fq_rate q) 12367 (fq_destinationCreditMinor q).
Proof.
  destruct (settled_transfer_conserves_value Date_parse_iso string_cmp (world_at 4))
    as (f & _ & _ & _ & _ & _ & _ & _ & _ & Hq & _ & _ & _ & _ & _ & _ & _ & _ & Hconv & Hl & _).
  - apply world_reachable. lia.
  - vm_compute. reflexivity.
  - exists (frozenQuoteOf f). split; [exact Hq|]. split; [exact Hl|].
    replace 12367 with (ti_sourceAmountMinor (iw_intent (world_at 4))) by (vm_compute; reflexivity).
    exact Hconv.
Defined.

Lemma own_find w id key subs s : List.filter (fun x => bool_decide (sb_intentId x = id)) subs = [s] -> w = id -> sb_idempotencyKey s = key ->
  List.find (isPriorSubmission w key) subs = Some s.
Proof.
  intros Hf -> Hk. induction subs as [|x subs IH]; [done|]. cbn in *. unfold isPriorSubmission at 1. case_bool_decide as Hx.
  - injection Hf as -> _. by rewrite bool_decide_true.
  - rewrite bool_decide_false by tauto. by apply IH.
Qed.

(** A retry is the same logical submission: once a submission went through, every later
    submit under its key (whatever happened since, whatever corridor is supplied) returns
    the recorded submission and leaves the intent alone when it names the recorded rail, and
    is refused when it names another one. *)
Theorem submit_replay_is_absorbed (Date_parse : string -> option Z) (offered : FxQuote -> Prop) (w w' : IntentWorld)
    (cmd retry : SubmitCommand) (c c' : Corridor) (clock clock' : Clock) (res : SubmitResult) :
  intent_reachable Date_parse offered w ->
  submitIntent Date_parse (iw_intent w) cmd c (iw_submissions w) clock = Ok res -> sr_duplicate res = false ->
  rtc (intent_step Date_parse offered) (MkIntentWorld (sr_intent res) (iw_submissions w ++ [sr_submission res]) (iw_log w ++ sr_events res)) w' ->
  trim (sc_idempotencyKey retry) = trim (sc_idempotencyKey cmd) ->
  submitIntent Date_parse (iw_intent w') retry c' (iw_submissions w') clock' =
    if decide (sc_rail retry = trim (sc_rail cmd)) then
      Ok (MkSubmitResult (iw_intent w') (sr_submission res) true
            [crossborderEvent (IntentReplayObservedPayload (intentId (iw_intent w')) (trim (sc_idempotencyKey cmd))
               (sb_quoteId (sr_submission res)) (toISOString (clock' 0%nat))) (clock_after 1 clock')])
    else Err (DomainError "INTENT_DUPLICATE_SUBMIT").
Proof.
  intros Hr Hsub Hdup Hsteps Hkey. set (w1 := MkIntentWorld _ _ _) in Hsteps.
  assert (Hstep1 : intent_step Date_parse offered w w1) by (pose proof (step_submit Date_parse offered w _ _ _ _ Hsub) as Hs; by rewrite Hdup in Hs).
  assert (Hwf' : intent_wf offered w').
  { apply (intent_reachable_wf Date_parse). destruct Hr as (w0 & H0 & Hs). exists w0. split; [done|]. etrans; [exact Hs|]. by eapply rtc_l. }
  apply submitIntent_Ok in Hsub as [Hne [(prior & _ & _ & ->)|[_ Hf]]]; [done|].
  apply submitFresh_Ok in Hf as (q & debit & credit & Hst & _ & _ & Hq & _ & _ & _ & ->).
  destruct (steps_keep Date_parse offered w1 w' q Hsteps) as (Eid & Eq & l & El); [done|exact Hq|]. cbn in Eid, El.
  assert (Hin : MkSubmission (intentId (iw_intent w)) (trim (sc_idempotencyKey cmd)) (trim (sc_rail cmd)) (fq_quoteId q) (fq_sourceDebitMinor q)
    (fq_destinationCreditMinor q) (toISOString (clock 1%nat)) ∈ own_submissions w').
  { unfold own_submissions. rewrite list_elem_of_In, filter_In, El, bool_decide_eq_true, Eid. split; [|done].
    rewrite <- list_elem_of_In. set_solver. }
  destruct Hwf' as [_ _ Hown _ _]. unfold own_submissions in Hown, Hin.
  destruct (List.filter _ (iw_submissions w')) as [|s [|]] eqn:Ef; [set_solver| |done]. apply list_elem_of_singleton in Hin as <-.
  unfold submitIntent. rewrite decide_False by (by rewrite Hkey). rewrite (own_find _ _ _ _ _ Ef eq_refl) by (by cbn).
  unfold identicalSubmit. rewrite Eq. cbn. rewrite !Z.eqb_refl, (bool_decide_true (fq_quoteId q = fq_quoteId q)) by done.
  rewrite Hkey, !andb_true_r. destruct (decide (sc_rail retry = trim (sc_rail cmd))) as [E|E].
  - rewrite E, bool_decide_true by done. done.
  - rewrite bool_decide_false by congruence. done.
Qed.

Lemma submit_replay_is_absorbed_witness :
  submitIntent Date_parse_iso (iw_intent (world_at 3)) (MkSubmit " key-1 " "bank_swift") (sample_corridor <| co_status := corridor_suspended |>)
    (iw_submissions (world_at 3)) (fixed_clock 999999) =
  Ok (MkSubmitResult (iw_intent (world_at 3)) (default (MkSubmission "" "" "" "" 0 0 "") (head (iw_submissions (world_at 3)))) true
    [crossborderEvent (IntentReplayObservedPayload (intentId (iw_intent (world_at 3))) "key-1"
       (sb_quoteId (default (MkSubmission "" "" "" "" 0 0 "") (head (iw_submissions (world_at 3))))) "1970-01-01T00:16:39.999Z") (fixed_clock 999999)]).
Proof.
  assert (is_ok (submitIntent Date_parse_iso (iw_intent (world_at 2)) sample_submit sample_corridor (iw_submissions (world_at 2)) (fixed_clock 1600)) = true) as Hok
    by (vm_compute; reflexivity).
  destruct (submitIntent Date_parse_iso (iw_intent (world_at 2)) sample_submit sample_corridor (iw_submissions (world_at 2)) (fixed_clock 1600)) as [res|] eqn:E; [|discriminate Hok].
  pose proof (submit_replay_is_absorbed Date_parse_iso (issued Date_parse_iso string_cmp) (world_at 2)
    (MkIntentWorld (sr_intent res) (iw_submissions (world_at 2) ++ [sr_submission res]) (iw_log (world_at 2) ++ sr_events res))
    sample_submit (MkSubmit " key-1 " "bank_swift") sample_corridor (sample_corridor <| co_status := corridor_suspended |>) (fixed_clock 1600) (fixed_clock 999999) res
    (world_reachable 2 ltac:(lia)) E) as H.
  vm_compute in E. injection E as <-. specialize (H eq_refl (rtc_refl _ _) eq_refl). vm_compute in H. vm_compute. exact H.
Defined.

(** A quote whose printed expiry is the instant [e] moves nothing from [e] on: attaching,
    authorising and submitting succeed only strictly before it (at the reading of the clock
    the check makes), and [expireIfDue] expires exactly the quoted and authorised intents
    from [e] on. *)
Theorem expired_quotes_move_nothing (Date_parse : string -> option Z) (parser : DateParser Date_parse) (i : TransferIntent)
    (q : FrozenQuote) (e : Date) (clock : Clock) :
  iso_time e -> fq_expiresAt q = toISOString e ->
  (forall f i', frozenQuoteOf f = q -> attachQuote Date_parse i f clock = Ok i' -> clock 0%nat < e) /\
  (ti_quote i = Some q ->
   (forall who i' evs, authorizeIntent Date_parse i who clock = Ok (i', evs) -> clock 0%nat < e) /\
   (forall cmd c subs res, submitIntent Date_parse i cmd c subs clock = Ok res -> sr_duplicate res = false -> clock 0%nat < e) /\
   (expireIfDue Date_parse i clock <> i <-> e <= clock 0%nat /\ (ti_status i = quoted \/ ti_status i = authorized))).
Proof.
  intros He Eq.
  assert (Hx : forall now, isQuoteExpired Date_parse (fq_expiresAt q) now = false -> now < e).
  { intros now H. rewrite Eq in H. pose proof (expiry_exact Date_parse e now He). destruct (decide (e <= now)); [|lia]. naive_solver congruence. }
  split; [|intros Hq; split; [|split]].
  - intros f i' <- (_ & _ & _ & _ & _ & _ & H & _)%attachQuote_Ok. by apply Hx.
  - intros who i' evs (q' & p & _ & _ & Hq' & H & _)%authorizeIntent_Ok. rewrite Hq in Hq'. injection Hq' as <-. by apply Hx.
  - intros cmd c subs res [_ [(prior & _ & _ & ->)|[_ Hf]]]%submitIntent_Ok Hd; [done|].
    apply submitFresh_Ok in Hf as (q' & x & y & _ & _ & _ & Hq' & H & _). rewrite Hq in Hq'. injection Hq' as <-. by apply Hx.
  - unfold expireIfDue. rewrite Hq, Eq, parse_iso by done. destruct (Z.ltb_spec (clock 0%nat) e) as [Hlt|Hge].
    + destruct (canTransition _ _); (split; [done|lia]).
    + unfold canTransition. case_bool_decide as Hin.
      * split; [intros _; split; [lia|destruct (ti_status i); cbn in Hin; set_solver]|].
        intros [_ [Hs|Hs]] E; apply (f_equal ti_status) in E; cbn in E; congruence.
      * split; [done|]. intros [_ [Hs|Hs]]; rewrite Hs in Hin; cbn in Hin; set_solver.
Qed.

Lemma expired_quotes_move_nothing_witness :
  expireIfDue Date_parse_iso (sample_intent authorized) (fixed_clock 121500) <> sample_intent authorized.
Proof.
  destruct (expired_quotes_move_nothing Date_parse_iso _ (sample_intent authorized)
    (default (frozenQuoteOf default_quote) (frozenQuoteOf <$> sample_fx_quote)) 121500 (fixed_clock 121500)) as [_ H].
  - apply (bool_decide_eq_true_1 (iso_time 121500)). vm_compute. reflexivity.
  - vm_compute. reflexivity.
  - apply H; [vm_compute; reflexivity|]. split; [reflexivity|right; reflexivity].
Defined.

(** The retry of a submit whose rail was padded is not recognised: the recorded rail is
    trimmed, the retry's is not. *)
Theorem padded_rail_retry_is_refused :
  let cmd := MkSubmit "key-1" " bank_swift" in
  exists res, submitIntent Date_parse_iso (sample_intent authorized) cmd sample_corridor [] (fixed_clock 1600) = Ok res /\
    submitIntent Date_parse_iso (sr_intent res) cmd sample_corridor [sr_submission res] (fixed_clock 1600) = Err (DomainError "INTENT_DUPLICATE_SUBMIT").
Proof. eexists. split; [vm_compute; reflexivity|]. vm_compute. reflexivity. Qed.

(** Submission trusts the corridor it is handed: an intent goes out on a rail of a corridor
    that is not its own. *)
Theorem submit_accepts_a_foreign_corridor :
  let foreign := sample_corridor <| corridorId := "another-corridor" |> <| co_rails := ["foreign_rail"] |> in
  "foreign_rail" ∉ co_rails sample_corridor /\ ti_corridorId (sample_intent authorized) <> corridorId foreign /\
  is_ok (submitIntent Date_parse_iso (sample_intent authorized) (MkSubmit "key-1" "foreign_rail") foreign [] (fixed_clock 1600)) = true.
Proof. split; [|split; [done|vm_compute; reflexivity]]. cbn. set_solver. Qed.

(** Cancelling a draft leaves an intent without quote that is not drafted. *)
Theorem cancelled_draft_has_no_quote :
  exists i evs, cancelIntent (sample_intent drafted) "changed my mind" "ops" (fixed_clock 0) = Ok (i, evs) /\
    ti_status i = cancelled /\ ti_quote i = None.
Proof. do 2 eexists. split; [vm_compute; reflexivity|]. done. Qed.
