(* ===== verification/CollectionsCase.v ===== *)
(** * Collections cases

    src/domain/collections/case.ts, actions.ts, derive.ts and events.ts: cases that cover
    receivables, their action log under the consent gate, and the derived status.
    [case_step] is what an adapter does around the functions: it keeps the list of cases,
    feeds [openCaseCoverageOf] of it to [openCase], and never reuses an id. *)

From stdpp Require Import prelude strings list relations.
From Stdlib Require Import ZArith Lia Ascii.
From S2P Require Import Prelude JsNumber JsString JsDate Events.
Local Open Scope string_scope.
Local Open Scope list_scope.
Local Open Scope Z_scope.
Local Open Scope js_scope.

(** ** Priorities and statuses *)

Inductive CasePriority := low | normal | high | urgent.
#[export] Instance CasePriority_eq_dec : EqDecision CasePriority.
Proof. solve_decision. Defined.

Definition CASE_PRIORITY_RANK (p : CasePriority) : Z :=
  match p with low => 0 | normal => 1 | high => 2 | urgent => 3 end.

Definition assertPriority (priority : string) : result CasePriority :=
  if decide (priority = "low") then Ok low
  else if decide (priority = "normal") then Ok normal
  else if decide (priority = "high") then Ok high
  else if decide (priority = "urgent") then Ok urgent
  else Err (DomainError "CASE_PRIORITY_INVALID").

Inductive CaseStatus := open | in_progress | resolved | closed_inactive.
#[export] Instance CaseStatus_eq_dec : EqDecision CaseStatus.
Proof. solve_decision. Defined.

Definition case_status_of_string (s : string) : option CaseStatus :=
  if decide (s = "open") then Some open
  else if decide (s = "in_progress") then Some in_progress
  else if decide (s = "resolved") then Some resolved
  else if decide (s = "closed_inactive") then Some closed_inactive
  else None.

Definition OPEN_CASE_STATUSES : list CaseStatus := [open; in_progress].

Definition isCaseOpen (s : CaseStatus) : bool := bool_decide (s ∈ OPEN_CASE_STATUSES).

Definition CASE_TRANSITIONS (s : CaseStatus) : list CaseStatus :=
  match s with
  | open => [in_progress]
  | in_progress => [resolved; closed_inactive]
  | resolved | closed_inactive => []
  end.

(** ** The aggregate *)

Inductive CaseActionType := call | sms | whatsapp | letter | fieldVisit | escalation.
#[export] Instance CaseActionType_eq_dec : EqDecision CaseActionType.
Proof. solve_decision. Defined.

Inductive ActionSource := automated | manual.
#[export] Instance ActionSource_eq_dec : EqDecision ActionSource.
Proof. solve_decision. Defined.

Record CaseAction := MkAction {
  ca_id : string;
  ca_type : CaseActionType;
  ca_scheduledFor : Date;
  ca_outcome : option string;
  ca_completedAt : option Date;
  ca_completedBy : option string;
  ca_consentRef : option string;
  ca_source : ActionSource;
  ca_actorId : string;
  ca_recordedAt : Date;
}.
#[export] Instance CaseAction_eta : Eta CaseAction := fun a =>
  MkAction (ca_id a) (ca_type a) (ca_scheduledFor a) (ca_outcome a) (ca_completedAt a) (ca_completedBy a) (ca_consentRef a)
    (ca_source a) (ca_actorId a) (ca_recordedAt a).

Record CaseTransitionRecord := MkCaseTransition {
  ct_from : CaseStatus; ct_to : CaseStatus; ct_reason : string; ct_actorId : string; ct_at : Date }.

Record CasePriorityChangeRecord := MkPriorityChange {
  pc_from : CasePriority; pc_to : CasePriority; pc_reason : string; pc_actorId : string; pc_at : Date }.

Record CollectionsCase := MkCase {
  caseId : Uuid;
  caseNumber : string;
  cc_sequence : Z;
  cc_orgId : Uuid;
  cc_receivableIds : list Uuid;
  collectorId : Uuid;
  cc_priority : CasePriority;
  cc_status : CaseStatus;
  cc_openedAt : Date;
  cc_openedBy : string;
  cc_closedAt : option Date;
  cc_closedBy : option string;
  cc_actions : list CaseAction;
  cc_history : list CaseTransitionRecord;
  cc_priorityChanges : list CasePriorityChangeRecord;
}.
#[export] Instance CollectionsCase_eta : Eta CollectionsCase := fun c =>
  MkCase (caseId c) (caseNumber c) (cc_sequence c) (cc_orgId c) (cc_receivableIds c) (collectorId c) (cc_priority c) (cc_status c)
    (cc_openedAt c) (cc_openedBy c) (cc_closedAt c) (cc_closedBy c) (cc_actions c) (cc_history c) (cc_priorityChanges c).

(** ** Events *)

Inductive CollectionsPayload :=
| CaseOpenedPayload (id : Uuid) (number : string) (orgId : Uuid) (receivables : list Uuid) (collector : Uuid)
    (priority : CasePriority) (openedBy openedAt : string)
| CaseActionRecordedPayload (id : Uuid) (number : string) (orgId : Uuid) (actionId : string) (type : CaseActionType)
    (scheduledFor : string) (outcome completedAt consentRef : option string) (actorId recordedAt : string)
| CaseEscalatedPayload (id : Uuid) (number : string) (orgId : Uuid) (from to : CasePriority) (reason actorId escalatedAt : string)
| CaseResolvedPayload (id : Uuid) (number : string) (orgId : Uuid) (receivables : list Uuid) (reason actorId resolvedAt : string)
| CaseClosedPayload (id : Uuid) (number : string) (orgId : Uuid) (released : list Uuid) (reason actorId closedAt : string)
| DunningBlockedNoConsentPayload (id : Uuid) (number : string) (orgId : Uuid) (receivables : list Uuid) (type : CaseActionType)
    (scheduledFor actorId blockedAt : string).
Notation CollectionsEvent := (DomainEvent CollectionsPayload).

(** ** Coverage *)

Record OpenCaseCoverage := MkCoverage { cov_receivableId : Uuid; cov_caseId : Uuid }.

Definition coverageOf (c : CollectionsCase) : list OpenCaseCoverage :=
  (fun r => MkCoverage r (caseId c)) <$> cc_receivableIds c.

Definition openCaseCoverageOf (cases : list CollectionsCase) : list OpenCaseCoverage :=
  List.filter (fun c => isCaseOpen (cc_status c)) cases ≫= coverageOf.

(** ** Opening *)

(** The lane's [assertNonBlank], with the code the caller names. *)
Definition assertNonBlank (raw code : string) : result string :=
  let value := trim raw in refuse (value = "") with code ;; Ok value.

Definition assertActor (actorId : string) : result string := assertNonBlank actorId "CASE_ACTOR_REQUIRED".

Definition formatCaseNumber (sequenceNo : Z) : string :=
  "CASE-" +:+ implode (padStart 6 "0"%char (explode (show_Z sequenceNo))).

Record OpenCaseArgs := MkOpenCase {
  oa_id : Uuid;
  oa_orgId : Uuid;
  oa_receivableIds : list Uuid;
  oa_collectorId : Uuid;
  oa_priority : option string;
  oa_openedBy : string;
  oa_sequenceNo : number;
  oa_formatNumber : option (Z -> string);
}.

Definition isCovered (coverage : list OpenCaseCoverage) (r : Uuid) : bool :=
  match List.find (fun e => bool_decide (cov_receivableId e = r)) coverage with Some _ => true | None => false end.

Definition openCase (args : OpenCaseArgs) (coverage : list OpenCaseCoverage) (clock : Clock)
  : result (CollectionsCase * list CollectionsEvent) :=
  let openedAt := clock 0%nat in
  openedBy ← assertActor (oa_openedBy args);
  collector ← assertNonBlank (oa_collectorId args) "CASE_COLLECTOR_REQUIRED";
  let receivables := oa_receivableIds args in
  refuse (receivables = []) with "CASE_RECEIVABLES_REQUIRED" ;;
  refuse (Exists (fun r => trim r = "") receivables) with "CASE_RECEIVABLE_INVALID" ;;
  refuse (~ NoDup receivables) with "CASE_RECEIVABLE_DUPLICATE" ;;
  priority ← match oa_priority args with None => Ok normal | Some p => assertPriority p end;
  match safeInteger (oa_sequenceNo args) with
  | None => Err (DomainError "CASE_SEQUENCE_INVALID")
  | Some sequenceNo =>
      refuse (sequenceNo < 1) with "CASE_SEQUENCE_INVALID" ;;
      number ← assertNonBlank (default formatCaseNumber (oa_formatNumber args) sequenceNo) "CASE_NUMBER_INVALID";
      refuse (existsb (isCovered coverage) receivables = true) with "CASE_ALREADY_OPEN" ;;
      let c := MkCase (oa_id args) number sequenceNo (oa_orgId args) receivables collector priority open openedAt openedBy
        None None [] [] [] in
      Ok (c, [domainEvent "case.opened" (caseId c)
                (CaseOpenedPayload (caseId c) number (cc_orgId c) receivables collector priority openedBy (toISOString openedAt))
                (clock_after 1 clock)])
  end.

(** ** Transitions *)

Definition transitionCase (c : CollectionsCase) (target : string) (reason actorId : string) (clock : Clock)
  : result (CollectionsCase * list CollectionsEvent) :=
  match case_status_of_string target with
  | None => Err (DomainError "CASE_STATUS_INVALID")
  | Some to =>
      let from := cc_status c in
      refuse (to ∉ CASE_TRANSITIONS from) with "CASE_TRANSITION_INVALID" ;;
      why ← assertNonBlank reason "CASE_REASON_REQUIRED";
      actor ← assertActor actorId;
      let at_ := clock 0%nat in
      let terminal := bool_decide (CASE_TRANSITIONS to = []) in
      let next := c <| cc_status := to |> <| cc_closedAt := if terminal then Some at_ else cc_closedAt c |>
                    <| cc_closedBy := if terminal then Some actor else cc_closedBy c |>
                    <| cc_history := cc_history c ++ [MkCaseTransition from to why actor at_] |> in
      let clock' := clock_after 1 clock in
      Ok (next, match to with
        | resolved => [domainEvent "case.resolved" (caseId c)
            (CaseResolvedPayload (caseId c) (caseNumber c) (cc_orgId c) (cc_receivableIds c) why actor (toISOString at_)) clock']
        | closed_inactive => [domainEvent "case.closed" (caseId c)
            (CaseClosedPayload (caseId c) (caseNumber c) (cc_orgId c) (cc_receivableIds c) why actor (toISOString at_)) clock']
        | _ => []
        end)
  end.

Definition escalateCase (c : CollectionsCase) (target : string) (reason actorId : string) (clock : Clock)
  : result (CollectionsCase * list CollectionsEvent) :=
  refuse (isCaseOpen (cc_status c) = false) with "CASE_CLOSED" ;;
  to ← assertPriority target;
  let from := cc_priority c in
  refuse (CASE_PRIORITY_RANK to <= CASE_PRIORITY_RANK from) with "CASE_ESCALATION_INVALID" ;;
  why ← assertNonBlank reason "CASE_REASON_REQUIRED";
  actor ← assertActor actorId;
  let at_ := clock 0%nat in
  Ok (c <| cc_priority := to |> <| cc_priorityChanges := cc_priorityChanges c ++ [MkPriorityChange from to why actor at_] |>,
      [domainEvent "case.escalated" (caseId c)
         (CaseEscalatedPayload (caseId c) (caseNumber c) (cc_orgId c) from to why actor (toISOString at_)) (clock_after 1 clock)]).

(** ** Actions *)

Definition OUTBOUND_ACTION_TYPES : list CaseActionType := [sms; whatsapp].

Definition assertActionType (type : string) : result CaseActionType :=
  if decide (type = "call") then Ok call
  else if decide (type = "sms") then Ok sms
  else if decide (type = "whatsapp") then Ok whatsapp
  else if decide (type = "letter") then Ok letter
  else if decide (type = "fieldVisit") then Ok fieldVisit
  else if decide (type = "escalation") then Ok escalation
  else Err (DomainError "CASE_ACTION_TYPE_INVALID").

Definition assertSource (source : string) : result ActionSource :=
  if decide (source = "automated") then Ok automated
  else if decide (source = "manual") then Ok manual
  else Err (DomainError "CASE_ACTION_SOURCE_INVALID").

(** [None] for [scheduledFor] is an invalid date. *)
Record RecordActionArgs := MkRecordAction {
  ra_id : option string;
  ra_type : string;
  ra_scheduledFor : option Date;
  ra_outcome : option string;
  ra_actorId : string;
  ra_source : option string;
  ra_consentRef : option string;
}.

(** [x === undefined ? null : assertNonBlank(x, code)] *)
Definition optionalNonBlank (code : string) (raw : option string) : result (option string) :=
  match raw with None => Ok None | Some s => v ← assertNonBlank s code; Ok (Some v) end.

Definition recordAction (c : CollectionsCase) (args : RecordActionArgs) (clock : Clock)
  : result (CollectionsCase * list CollectionsEvent) :=
  refuse (isCaseOpen (cc_status c) = false) with "CASE_CLOSED" ;;
  type ← assertActionType (ra_type args);
  match ra_scheduledFor args with
  | None => Err (DomainError "CASE_SCHEDULED_FOR_INVALID")
  | Some scheduledFor =>
      let outbound := bool_decide (type ∈ OUTBOUND_ACTION_TYPES) in
      source ← match ra_source args with
        | None => Ok (if outbound then automated else manual)
        | Some s => assertSource s
        end;
      let recordedAt := clock 0%nat in
      actor ← assertActor (ra_actorId args);
      consentRef ← optionalNonBlank "CASE_CONSENT_REF_INVALID" (ra_consentRef args);
      refuse (outbound = true /\ source = automated /\ consentRef = None) with "DUNNING_CONSENT_REQUIRED" ;;
      outcome ← optionalNonBlank "CASE_OUTCOME_REQUIRED" (ra_outcome args);
      let completedAt := (fun _ => recordedAt) <$> outcome in
      actionId ← match ra_id args with
        | None => Ok (caseId c +:+ "/actions/" +:+ show_Z (Z.of_nat (length (cc_actions c)) + 1))
        | Some id => assertNonBlank id "CASE_ACTION_ID_REQUIRED"
        end;
      let action := MkAction actionId type scheduledFor outcome completedAt ((fun _ => actor) <$> outcome) consentRef source actor recordedAt in
      Ok (c <| cc_actions := cc_actions c ++ [action] |>,
          [domainEvent "case.actionRecorded" (caseId c)
             (CaseActionRecordedPayload (caseId c) (caseNumber c) (cc_orgId c) actionId type (toISOString scheduledFor) outcome
                (toISOString <$> completedAt) consentRef actor (toISOString recordedAt)) (clock_after 1 clock)])
  end.

Definition completeAction (c : CollectionsCase) (actionId : string) (outcome : string) (actorId : option string) (clock : Clock)
  : result CollectionsCase :=
  refuse (isCaseOpen (cc_status c) = false) with "CASE_CLOSED" ;;
  match List.find (fun a => bool_decide (ca_id a = actionId)) (cc_actions c) with
  | None => Err (DomainError "CASE_ACTION_NOT_FOUND")
  | Some target =>
      refuse (is_Some (ca_completedAt target)) with "CASE_ACTION_ALREADY_COMPLETED" ;;
      what ← assertNonBlank outcome "CASE_OUTCOME_REQUIRED";
      let completedAt := clock 0%nat in
      completedBy ← match actorId with None => Ok (ca_actorId target) | Some a => assertActor a end;
      Ok (c <| cc_actions := (fun a => if decide (ca_id a = actionId)
             then a <| ca_outcome := Some what |> <| ca_completedAt := Some completedAt |> <| ca_completedBy := Some completedBy |>
             else a) <$> cc_actions c |>)
  end.

Definition dunningBlockedNoConsentEvent (c : CollectionsCase) (type : string) (scheduledFor : Date) (actorId : string) (clock : Clock)
  : result CollectionsEvent :=
  let blockedAt := clock 0%nat in
  actionType ← assertActionType type;
  Ok (domainEvent "collections.dunningBlockedNoConsent" (caseId c)
        (DunningBlockedNoConsentPayload (caseId c) (caseNumber c) (cc_orgId c) (cc_receivableIds c) actionType
           (toISOString scheduledFor) actorId (toISOString blockedAt)) (clock_after 1 clock)).

Inductive RecordActionResult :=
| recorded (c : CollectionsCase) (events : list CollectionsEvent)
| blocked (event : CollectionsEvent).

(** [recordAction] has read the clock once when it refuses for want of consent. *)
Definition tryRecordAction (c : CollectionsCase) (args : RecordActionArgs) (clock : Clock) : result RecordActionResult :=
  match recordAction c args clock with
  | Ok (c', events) => Ok (recorded c' events)
  | Err e =>
      if decide (e = DomainError "DUNNING_CONSENT_REQUIRED") then
        event ← dunningBlockedNoConsentEvent c (ra_type args) (default 0 (ra_scheduledFor args)) (ra_actorId args) (clock_after 1 clock);
        Ok (blocked event)
      else Err e
  end.

(** ** The derived status *)

(** [df_open] is [None] where the flag is not a boolean. *)
Record PromiseFact := MkPromiseFact { pf_receivableId : Uuid; pf_status : string }.
Record DisputeFact := MkDisputeFact { df_receivableId : Uuid; df_open : option bool }.

Inductive DerivedCaseStatus := stored (s : CaseStatus) | waiting | promised | disputed.
#[export] Instance DerivedCaseStatus_eq_dec : EqDecision DerivedCaseStatus.
Proof. solve_decision. Defined.

Definition PROMISE_STATUSES : list string := ["pending"; "fulfilled"; "broken"].

Definition assertPromiseFacts (facts : list PromiseFact) : result unit :=
  refuse (Exists (fun f => pf_status f ∉ PROMISE_STATUSES) facts) with "CASE_PROMISE_STATUS_INVALID" ;; Ok tt.

Definition assertDisputeFacts (facts : list DisputeFact) : result unit :=
  refuse (Exists (fun f => df_open f = None) facts) with "CASE_DISPUTE_FACT_INVALID" ;; Ok tt.

Definition disputeHolds (covered : list Uuid) (f : DisputeFact) : bool :=
  bool_decide (df_open f = Some true) && bool_decide (df_receivableId f ∈ covered).
Definition promiseHolds (covered : list Uuid) (f : PromiseFact) : bool :=
  bool_decide (pf_status f = "pending") && bool_decide (pf_receivableId f ∈ covered).

Definition deriveCaseStatus (c : CollectionsCase) (promises : list PromiseFact) (disputes : list DisputeFact) : result DerivedCaseStatus :=
  match cc_status c with
  | resolved => Ok (stored resolved)
  | closed_inactive => Ok (stored closed_inactive)
  | _ =>
      let covered := cc_receivableIds c in
      _ ← assertDisputeFacts disputes;
      _ ← assertPromiseFacts promises;
      if existsb (disputeHolds covered) disputes then Ok disputed
      else if existsb (promiseHolds covered) promises then Ok promised
      else Ok waiting
  end.

(** ** The registry around the functions *)

Record Registry := MkRegistry { rg_cases : list CollectionsCase; rg_log : list CollectionsEvent }.

(** One call on a case, and the events to publish. *)
Inductive case_op (c : CollectionsCase) : CollectionsCase -> list CollectionsEvent -> Prop :=
| op_transition target reason actor clock c' evs : transitionCase c target reason actor clock = Ok (c', evs) -> case_op c c' evs
| op_escalate target reason actor clock c' evs : escalateCase c target reason actor clock = Ok (c', evs) -> case_op c c' evs
| op_record args clock c' evs : tryRecordAction c args clock = Ok (recorded c' evs) -> case_op c c' evs
| op_blocked args clock ev : tryRecordAction c args clock = Ok (blocked ev) -> case_op c c [ev]
| op_complete id outcome actor clock c' : completeAction c id outcome actor clock = Ok c' -> case_op c c' [].

Inductive case_step (g : Registry) : Registry -> Prop :=
| step_open args clock c evs : openCase args (openCaseCoverageOf (rg_cases g)) clock = Ok (c, evs) ->
    caseId c ∉ (caseId <$> rg_cases g) -> case_step g (MkRegistry (rg_cases g ++ [c]) (rg_log g ++ evs))
| step_case l1 c l2 c' evs : rg_cases g = l1 ++ c :: l2 -> case_op c c' evs ->
    case_step g (MkRegistry (l1 ++ c' :: l2) (rg_log g ++ evs)).

Definition registry_reachable (g : Registry) : Prop := rtc case_step (MkRegistry [] []) g.

(** ** The invariant *)

(** The history leads from the opening to the status, along the table. *)
Inductive history_path : CaseStatus -> list CaseTransitionRecord -> CaseStatus -> Prop :=
| path_nil s : history_path s [] s
| path_snoc s h t r : history_path s h t -> ct_from r = t -> ct_to r ∈ CASE_TRANSITIONS t -> history_path s (h ++ [r]) (ct_to r).

(** Each recorded change climbs from the priority before it. *)
Inductive climbs : list CasePriorityChangeRecord -> CasePriority -> Prop :=
| climbs_nil p : climbs [] p
| climbs_snoc l p r : climbs l p -> pc_from r = p -> CASE_PRIORITY_RANK p < CASE_PRIORITY_RANK (pc_to r) -> climbs (l ++ [r]) (pc_to r).

(** An automated outbound send carries its consent; completion is all or nothing. *)
Definition action_ok (a : CaseAction) : Prop :=
  (ca_type a ∈ OUTBOUND_ACTION_TYPES -> ca_source a = automated -> is_Some (ca_consentRef a)) /\
  (is_Some (ca_outcome a) <-> is_Some (ca_completedAt a)) /\ (is_Some (ca_outcome a) <-> is_Some (ca_completedBy a)).

Record case_wf (c : CollectionsCase) : Prop := {
  cw_receivables : cc_receivableIds c <> [] /\ NoDup (cc_receivableIds c);
  cw_closed : isCaseOpen (cc_status c) = true <-> cc_closedAt c = None;
  cw_closedBy : cc_closedAt c = None <-> cc_closedBy c = None;
  cw_history : history_path open (cc_history c) (cc_status c);
  cw_priority : climbs (cc_priorityChanges c) (cc_priority c);
  cw_actions : Forall action_ok (cc_actions c);
}.

(** What a consumer of the events believes to be covered. *)
Definition observe (covered : list OpenCaseCoverage) (e : CollectionsEvent) : list OpenCaseCoverage :=
  match payload e with
  | CaseOpenedPayload id _ _ receivables _ _ _ _ => covered ++ ((fun r => MkCoverage r id) <$> receivables)
  | CaseResolvedPayload id _ _ _ _ _ _ | CaseClosedPayload id _ _ _ _ _ _ =>
      List.filter (fun e => negb (bool_decide (cov_caseId e = id))) covered
  | _ => covered
  end.

Record registry_wf (g : Registry) : Prop := {
  rw_ids : NoDup (caseId <$> rg_cases g);
  rw_cases : Forall case_wf (rg_cases g);
  rw_exclusive : NoDup (cov_receivableId <$> openCaseCoverageOf (rg_cases g));
  rw_observed : foldl observe [] (rg_log g) = openCaseCoverageOf (rg_cases g);
}.

(** ** Lemmas *)

Lemma case_nonBlank_Ok raw code v : assertNonBlank raw code = Ok v <-> v = trim raw /\ trim raw <> "".
Proof. unfold assertNonBlank. rewrite guard_Ok. naive_solver. Qed.

Lemma optionalNonBlank_Ok code raw v : optionalNonBlank code raw = Ok v -> is_Some v <-> is_Some raw.
Proof. destruct raw as [s|]; cbn; [|intros [= <-]; done]. intros (x & _ & [= <-])%bind_Ok. split; intros _; by eexists. Qed.

Lemma case_nonBlank_Err raw code e : assertNonBlank raw code = Err e -> e = DomainError code.
Proof. unfold assertNonBlank. case_decide; congruence. Qed.

Lemma optionalNonBlank_Err code raw e : optionalNonBlank code raw = Err e -> e = DomainError code.
Proof.
  destruct raw as [s|]; cbn; [|done]. destruct (assertNonBlank s code) as [v|e'] eqn:E; cbn; [done|]. intros [= <-].
  by eapply case_nonBlank_Err.
Qed.

Lemma isCaseOpen_iff s : isCaseOpen s = true <-> s = open \/ s = in_progress.
Proof. unfold isCaseOpen. rewrite bool_decide_eq_true. unfold OPEN_CASE_STATUSES. set_solver. Qed.

Lemma transitionCase_Ok c target reason actor clock c' evs : transitionCase c target reason actor clock = Ok (c', evs) ->
  exists to, case_status_of_string target = Some to /\ to ∈ CASE_TRANSITIONS (cc_status c) /\ trim reason <> "" /\ trim actor <> "" /\
  let terminal := bool_decide (CASE_TRANSITIONS to = []) in
  c' = c <| cc_status := to |> <| cc_closedAt := if terminal then Some (clock 0%nat) else cc_closedAt c |>
         <| cc_closedBy := if terminal then Some (trim actor) else cc_closedBy c |>
         <| cc_history := cc_history c ++ [MkCaseTransition (cc_status c) to (trim reason) (trim actor) (clock 0%nat)] |> /\
  evs = match to with
        | resolved => [domainEvent "case.resolved" (caseId c)
            (CaseResolvedPayload (caseId c) (caseNumber c) (cc_orgId c) (cc_receivableIds c) (trim reason) (trim actor) (toISOString (clock 0%nat))) (clock_after 1 clock)]
        | closed_inactive => [domainEvent "case.closed" (caseId c)
            (CaseClosedPayload (caseId c) (caseNumber c) (cc_orgId c) (cc_receivableIds c) (trim reason) (trim actor) (toISOString (clock 0%nat))) (clock_after 1 clock)]
        | _ => []
        end.
Proof.
  unfold transitionCase, assertActor. destruct (case_status_of_string target) as [to|]; [|done].
  intros [Hin (why & [-> Hw]%case_nonBlank_Ok & (who & [-> Ha]%case_nonBlank_Ok & [= <- <-])%bind_Ok)%bind_Ok]%guard_Ok.
  apply dec_stable in Hin. exists to. repeat (split; [done|]). done.
Qed.

Lemma escalateCase_Ok c target reason actor clock c' evs : escalateCase c target reason actor clock = Ok (c', evs) ->
  exists to e, isCaseOpen (cc_status c) = true /\ CASE_PRIORITY_RANK (cc_priority c) < CASE_PRIORITY_RANK to /\
  c' = c <| cc_priority := to |> <| cc_priorityChanges := cc_priorityChanges c ++ [MkPriorityChange (cc_priority c) to (trim reason) (trim actor) (clock 0%nat)] |> /\
  evs = [e] /\ forall cov, observe cov e = cov.
Proof.
  unfold escalateCase, assertActor.
  intros [Ho (to & _ & [Hr (why & [-> _]%case_nonBlank_Ok & (who & [-> _]%case_nonBlank_Ok & [= <- <-])%bind_Ok)%bind_Ok]%guard_Ok)%bind_Ok]%guard_Ok.
  apply not_false_is_true in Ho. exists to. eexists. split; [done|]. split; [lia|]. repeat (split; [done|]). done.
Qed.

Lemma recordAction_Ok c args clock c' evs : recordAction c args clock = Ok (c', evs) ->
  exists a e, isCaseOpen (cc_status c) = true /\ action_ok a /\ ca_recordedAt a = clock 0%nat /\
  c' = c <| cc_actions := cc_actions c ++ [a] |> /\ evs = [e] /\ forall cov, observe cov e = cov.
Proof.
  unfold recordAction. intros [Ho (type & _ & H)%bind_Ok]%guard_Ok. apply not_false_is_true in Ho.
  destruct (ra_scheduledFor args) as [at_|]; [|done].
  apply bind_Ok in H as (src & _ & (who & _ & (ref & Href & [Hk (out & Hout & (id & _ & [= <- <-])%bind_Ok)%bind_Ok]%guard_Ok)%bind_Ok)%bind_Ok).
  do 2 eexists. split; [done|]. split; [|split; [|split; [done|split; [done|done]]]]; [|done].
  split; cbn.
  - intros Hty ->. destruct ref; [done|]. exfalso. apply Hk. split; [by apply bool_decide_eq_true|done].
  - rewrite !fmap_is_Some. done.
Qed.

Lemma tryRecordAction_recorded c args clock c' evs : tryRecordAction c args clock = Ok (recorded c' evs) <-> recordAction c args clock = Ok (c', evs).
Proof.
  unfold tryRecordAction. destruct (recordAction c args clock) as [[c1 e1]|e]; [naive_solver|]. split; [|done].
  case_decide; [|done]. by intros (? & _ & ?)%bind_Ok.
Qed.

Lemma tryRecordAction_blocked c args clock ev : tryRecordAction c args clock = Ok (blocked ev) ->
  recordAction c args clock = Err (DomainError "DUNNING_CONSENT_REQUIRED") /\ forall cov, observe cov ev = cov.
Proof.
  unfold tryRecordAction, dunningBlockedNoConsentEvent. destruct (recordAction c args clock) as [[c1 e1]|e]; [done|].
  case_decide as E; [|done]. intros (e' & (t & _ & [= <-])%bind_Ok & [= <-])%bind_Ok. by subst e.
Qed.

Lemma completeAction_Ok c id outcome actor clock c' : completeAction c id outcome actor clock = Ok c' ->
  exists target by_, isCaseOpen (cc_status c) = true /\ target ∈ cc_actions c /\ ca_id target = id /\ ca_completedAt target = None /\
  c' = c <| cc_actions := (fun a => if decide (ca_id a = id)
         then a <| ca_outcome := Some (trim outcome) |> <| ca_completedAt := Some (clock 0%nat) |> <| ca_completedBy := Some by_ |> else a) <$> cc_actions c |>.
Proof.
  unfold completeAction. intros [Ho H]%guard_Ok. apply not_false_is_true in Ho.
  destruct (List.find _ (cc_actions c)) as [t|] eqn:E; [|done]. apply find_some in E as [Hin%list_elem_of_In Hid%bool_decide_eq_true].
  apply guard_Ok in H as [Hn (what & [-> _]%case_nonBlank_Ok & (by_ & _ & [= <-])%bind_Ok)%bind_Ok].
  exists t, by_. repeat (split; [done|]). split; [by apply eq_None_not_Some|done].
Qed.

(** What every operation on a case keeps. *)
Lemma case_op_keeps c c' evs : case_op c c' evs ->
  caseId c' = caseId c /\ cc_receivableIds c' = cc_receivableIds c /\
  (isCaseOpen (cc_status c') = true -> isCaseOpen (cc_status c) = true).
Proof.
  intros [target reason actor clock c1 e1 H|target reason actor clock c1 e1 H|args clock c1 e1 H|args clock ev H|id outcome actor clock c1 H]; [| | |done|].
  - apply transitionCase_Ok in H as (to & _ & Hin & _ & _ & -> & _). cbn. repeat (split; [done|]). intros _. apply isCaseOpen_iff.
    destruct (cc_status c); cbn in Hin; set_solver.
  - apply escalateCase_Ok in H as (to & e & ? & _ & -> & _). done.
  - apply tryRecordAction_recorded, recordAction_Ok in H as (a & e & ? & _ & _ & -> & _). done.
  - apply completeAction_Ok in H as (t & by_ & ? & _ & _ & _ & ->). done.
Qed.

Lemma case_op_wf c c' evs : case_op c c' evs -> case_wf c -> case_wf c'.
Proof.
  intros Hop [Hr Hc Hb Hh Hp Ha]. destruct Hop as [target reason actor clock c1 e1 H|target reason actor clock c1 e1 H|args clock c1 e1 H|args clock ev H|id outcome actor clock c1 H].
  - apply transitionCase_Ok in H as (to & _ & Hin & _ & _ & -> & _). constructor; cbn; try done.
    + case_bool_decide as Ht; rewrite isCaseOpen_iff.
      * split; [|done]. intros [->| ->]; done.
      * rewrite <- Hc, isCaseOpen_iff. destruct (cc_status c), to; cbn in *; set_solver.
    + case_bool_decide; [done|done].
    + by apply (path_snoc open (cc_history c) (cc_status c) (MkCaseTransition (cc_status c) to (trim reason) (trim actor) (clock 0%nat))).
  - apply escalateCase_Ok in H as (to & e & _ & Hlt & -> & _). constructor; cbn; try done.
    by apply (climbs_snoc (cc_priorityChanges c) (cc_priority c) (MkPriorityChange (cc_priority c) to (trim reason) (trim actor) (clock 0%nat))).
  - apply tryRecordAction_recorded, recordAction_Ok in H as (a & e & _ & Hok & _ & -> & _). constructor; cbn; try done. by apply Forall_snoc_2.
  - done.
  - apply completeAction_Ok in H as (t & by_ & _ & _ & _ & _ & ->). constructor; cbn; try done. apply Forall_fmap. eapply Forall_impl; [exact Ha|].
    intros a (H1 & H2 & H3). cbn. case_decide; [|done]. split; [done|]. cbn. split; (split; intros _; by eexists).
Qed.

Lemma openCaseCoverageOf_app l1 l2 : openCaseCoverageOf (l1 ++ l2) = openCaseCoverageOf l1 ++ openCaseCoverageOf l2.
Proof. unfold openCaseCoverageOf. by rewrite List.filter_app, bind_app. Qed.

Lemma openCaseCoverageOf_cons c l : openCaseCoverageOf (c :: l) = (if isCaseOpen (cc_status c) then coverageOf c else []) ++ openCaseCoverageOf l.
Proof. unfold openCaseCoverageOf. cbn [List.filter]. by destruct (isCaseOpen (cc_status c)). Qed.

Lemma openCaseCoverageOf_elem cases e : e ∈ openCaseCoverageOf cases <->
  exists c, c ∈ cases /\ isCaseOpen (cc_status c) = true /\ cov_receivableId e ∈ cc_receivableIds c /\ cov_caseId e = caseId c.
Proof.
  unfold openCaseCoverageOf, coverageOf. rewrite list_elem_of_bind. split.
  - intros (c & (r & -> & Hr)%list_elem_of_fmap & Hc). rewrite list_elem_of_In, filter_In, <- list_elem_of_In in Hc. exists c. naive_solver.
  - intros (c & Hc & Ho & Hr & Hid). exists c. split.
    + apply list_elem_of_fmap. exists (cov_receivableId e). split; [|done]. rewrite <- Hid. by destruct e.
    + rewrite list_elem_of_In, filter_In, <- list_elem_of_In. done.
Qed.

Lemma isCovered_iff coverage r : isCovered coverage r = true <-> r ∈ cov_receivableId <$> coverage.
Proof.
  unfold isCovered. destruct (List.find _ coverage) as [e|] eqn:E.
  - apply find_some in E as [Hin%list_elem_of_In Hr%bool_decide_eq_true]. split; [|done]. intros _. subst r. by apply list_elem_of_fmap_2.
  - split; [done|]. intros (e & -> & He%list_elem_of_In)%list_elem_of_fmap. pose proof (find_none _ _ E e He) as Hn. apply bool_decide_eq_false in Hn. done.
Qed.

(** What opening demands of its arguments. *)
Record openable (args : OpenCaseArgs) (n : Z) (p : CasePriority) : Prop := {
  op_actor : trim (oa_openedBy args) <> "";
  op_collector : trim (oa_collectorId args) <> "";
  op_receivables : oa_receivableIds args <> [] /\ Forall (fun r => trim r <> "") (oa_receivableIds args) /\ NoDup (oa_receivableIds args);
  op_priority : match oa_priority args with None => Ok normal | Some s => assertPriority s end = Ok p;
  op_sequence : safeInteger (oa_sequenceNo args) = Some n /\ 1 <= n;
  op_number : trim (default formatCaseNumber (oa_formatNumber args) n) <> "";
}.

Definition opened_case (args : OpenCaseArgs) (n : Z) (p : CasePriority) (clock : Clock) : CollectionsCase :=
  MkCase (oa_id args) (trim (default formatCaseNumber (oa_formatNumber args) n)) n (oa_orgId args) (oa_receivableIds args)
    (trim (oa_collectorId args)) p open (clock 0%nat) (trim (oa_openedBy args)) None None [] [] [].

Definition opened_event (c : CollectionsCase) (clock : Clock) : CollectionsEvent :=
  domainEvent "case.opened" (caseId c) (CaseOpenedPayload (caseId c) (caseNumber c) (cc_orgId c) (cc_receivableIds c) (collectorId c)
    (cc_priority c) (cc_openedBy c) (toISOString (cc_openedAt c))) (clock_after 1 clock).

Lemma openCase_iff args coverage clock c evs : openCase args coverage clock = Ok (c, evs) <->
  exists n p, openable args n p /\ Forall (fun r => r ∉ cov_receivableId <$> coverage) (oa_receivableIds args) /\
    c = opened_case args n p clock /\ evs = [opened_event c clock].
Proof.
  unfold openCase, assertActor. split.
  - intros (who & [-> Hwho]%case_nonBlank_Ok & (col & [-> Hcol]%case_nonBlank_Ok & [Hne [Hb [Hnd (p & Hp & H)%bind_Ok]%guard_Ok]%guard_Ok]%guard_Ok)%bind_Ok)%bind_Ok.
    destruct (safeInteger _) as [n|] eqn:En; [|done].
    apply guard_Ok in H as [Hn (num & [-> Hnum]%case_nonBlank_Ok & [Hcov [= <- <-]]%guard_Ok)%bind_Ok].
    apply dec_stable in Hnd. exists n, p. split; [|split; [|done]].
    + constructor; try done. split; [done|]. split; [|done]. by apply Forall_Exists_neg in Hb. split; [done|lia].
    + apply Forall_forall. intros r Hr Hin%isCovered_iff. apply Hcov. apply existsb_exists. exists r. split; [by apply list_elem_of_In|done].
  - intros (n & p & [H1 H2 (H3 & H4 & H5) H6 [H7 H8] H9] & Hcov & -> & ->).
    rewrite (proj2 (case_nonBlank_Ok _ _ _)) by done. cbn [mbind result_bind]. rewrite (proj2 (case_nonBlank_Ok _ _ _)) by done. cbn [mbind result_bind].
    rewrite decide_False by done. rewrite (decide_False (P := Exists _ _)) by (by apply Forall_Exists_neg).
    rewrite (decide_False (P := ~ NoDup _)) by naive_solver. rewrite H6. cbn [mbind result_bind]. rewrite H7, (decide_False (P := n < 1)) by lia.
    rewrite (proj2 (case_nonBlank_Ok _ _ _)) by done. cbn [mbind result_bind].
    rewrite decide_False; [done|]. intros (r & Hr%list_elem_of_In & Hc%isCovered_iff)%existsb_exists. rewrite Forall_forall in Hcov. by apply (Hcov r).
Qed.

(** What the events of an operation tell a consumer: exactly whether the case still holds
    its receivables. *)
Lemma case_op_observed c c' evs cov : case_op c c' evs ->
  foldl observe cov evs = if isCaseOpen (cc_status c) && negb (isCaseOpen (cc_status c'))
    then List.filter (fun e => negb (bool_decide (cov_caseId e = caseId c))) cov else cov.
Proof.
  intros [target reason actor clock c1 e1 H|target reason actor clock c1 e1 H|args clock c1 e1 H|args clock ev H|id outcome actor clock c1 H].
  - apply transitionCase_Ok in H as (to & _ & Hin & _ & _ & -> & ->). cbn. destruct (cc_status c), to; cbn in *; try set_solver; done.
  - apply escalateCase_Ok in H as (to & e & Ho & _ & -> & -> & He). cbn. rewrite He, Ho. done.
  - apply tryRecordAction_recorded, recordAction_Ok in H as (a & e & Ho & _ & _ & -> & -> & He). cbn. rewrite He, Ho. done.
  - apply tryRecordAction_blocked in H as [_ He]. cbn. rewrite He. by destruct (isCaseOpen _).
  - apply completeAction_Ok in H as (t & by_ & Ho & _ & _ & _ & ->). cbn. by rewrite Ho.
Qed.

Lemma filter_id {A} (f : A -> bool) l : Forall (fun x => f x = true) l -> List.filter f l = l.
Proof. induction 1 as [|x l Hx _ IH]; [done|]. cbn. by rewrite Hx, IH. Qed.

Lemma filter_none {A} (f : A -> bool) l : Forall (fun x => f x = false) l -> List.filter f l = [].
Proof. induction 1 as [|x l Hx _ IH]; [done|]. cbn. by rewrite Hx, IH. Qed.

(** Removing the entries of one case removes what it covers and nothing else. *)
Lemma release_coverage l1 c l2 : NoDup (caseId <$> l1 ++ c :: l2) ->
  List.filter (fun e => negb (bool_decide (cov_caseId e = caseId c))) (openCaseCoverageOf (l1 ++ c :: l2)) =
  openCaseCoverageOf l1 ++ openCaseCoverageOf l2.
Proof.
  intros Hnd. rewrite openCaseCoverageOf_app, openCaseCoverageOf_cons, !List.filter_app.
  assert (Hoth : forall l, caseId c ∉ (caseId <$> l) -> List.filter (fun e => negb (bool_decide (cov_caseId e = caseId c))) (openCaseCoverageOf l) = openCaseCoverageOf l).
  { intros l Hl. apply filter_id, Forall_forall. intros e (c' & Hc' & _ & _ & Hid)%openCaseCoverageOf_elem.
    rewrite bool_decide_false; [done|]. intros E. apply Hl. rewrite <- E, Hid. by apply list_elem_of_fmap_2. }
  rewrite fmap_app, fmap_cons in Hnd. apply NoDup_app in Hnd as (H1 & H2 & [H3 H4]%NoDup_cons).
  rewrite !Hoth; [|done|intros Hin; apply (H2 (caseId c)); [done|left]].
  rewrite (filter_none _ (if isCaseOpen (cc_status c) then coverageOf c else [])); [done|].
  destruct (isCaseOpen _); [|constructor]. apply Forall_forall. intros e (r & -> & _)%list_elem_of_fmap. cbn. by rewrite bool_decide_true.
Qed.

Lemma coverage_ids id (l : list Uuid) : cov_receivableId <$> ((fun r => MkCoverage r id) <$> l) = l.
Proof. induction l as [|r l IH]; [done|]. by rewrite !fmap_cons, IH. Qed.

Lemma step_open_wf g args clock c evs : registry_wf g -> openCase args (openCaseCoverageOf (rg_cases g)) clock = Ok (c, evs) ->
  caseId c ∉ (caseId <$> rg_cases g) -> registry_wf (MkRegistry (rg_cases g ++ [c]) (rg_log g ++ evs)).
Proof.
  intros [Hid Hcs Hex Hob] (n & p & [_ _ (Hne & _ & Hnd) _ _ _] & Hcov & -> & ->)%openCase_iff Hfresh.
  assert (Hext : openCaseCoverageOf (rg_cases g ++ [opened_case args n p clock]) =
    openCaseCoverageOf (rg_cases g) ++ ((fun r => MkCoverage r (oa_id args)) <$> oa_receivableIds args)).
  { rewrite openCaseCoverageOf_app, openCaseCoverageOf_cons. by rewrite app_nil_r. }
  constructor; cbn [rg_cases rg_log].
  - rewrite fmap_app. by apply NoDup_snoc_2.
  - apply Forall_snoc_2; [|done]. constructor; cbn; try done; constructor.
  - rewrite Hext, fmap_app, coverage_ids.
    apply NoDup_app. split; [done|]. split; [|done]. intros r Hr Hin. rewrite Forall_forall in Hcov. by apply (Hcov r).
  - rewrite Hext, foldl_app, Hob. done.
Qed.

Lemma step_case_wf g l1 c l2 c' evs : registry_wf g -> rg_cases g = l1 ++ c :: l2 -> case_op c c' evs ->
  registry_wf (MkRegistry (l1 ++ c' :: l2) (rg_log g ++ evs)).
Proof.
  intros [Hid Hcs Hex Hob] E Hop. rewrite E in *. destruct (case_op_keeps _ _ _ Hop) as (Eid & Er & Hopen).
  assert (Hcov : openCaseCoverageOf (l1 ++ c' :: l2) = if isCaseOpen (cc_status c) && negb (isCaseOpen (cc_status c'))
    then openCaseCoverageOf l1 ++ openCaseCoverageOf l2 else openCaseCoverageOf (l1 ++ c :: l2)).
  { rewrite !openCaseCoverageOf_app, !openCaseCoverageOf_cons. unfold coverageOf. rewrite Eid, Er.
    destruct (isCaseOpen (cc_status c')), (isCaseOpen (cc_status c)); cbn; try done. by specialize (Hopen eq_refl). }
  constructor; cbn [rg_cases rg_log].
  - rewrite !fmap_app, !fmap_cons in *. by rewrite Eid.
  - apply Forall_app in Hcs as [H1 [H2 H3]%Forall_cons]. apply Forall_app. split; [done|]. constructor; [by eapply case_op_wf|done].
  - rewrite Hcov. destruct (_ && _); [|done]. rewrite openCaseCoverageOf_app, openCaseCoverageOf_cons, !fmap_app in Hex. rewrite fmap_app.
    eapply sublist_NoDup; [exact Hex|]. apply sublist_app; [done|]. by apply sublist_inserts_l.
  - rewrite foldl_app, Hob, (case_op_observed _ _ _ _ Hop), Hcov. destruct (_ && _); [|done]. by apply release_coverage.
Qed.

Lemma case_registry_wf g : registry_reachable g -> registry_wf g.
Proof.
  intros Hr. assert (H0 : registry_wf (MkRegistry [] [])) by (constructor; cbn; constructor).
  unfold registry_reachable in Hr. revert H0. induction Hr as [|g1 g2 g3 H12 _ IH]; [done|]. intros H1. apply IH.
  destruct H12 as [args clock c evs H Hf|l1 c l2 c' evs E Hop]; [by eapply step_open_wf|by eapply step_case_wf].
Qed.

Definition sample_open (id r1 r2 : Uuid) : OpenCaseArgs :=
  MkOpenCase id "org-1" [r1; r2] "collector-1" (Some "high") "ops" (num 7) None.

Definition sample_case : CollectionsCase := opened_case (sample_open "case-1" "rec-1" "rec-2") 7 high (fixed_clock 0).

Definition sample_registry : Registry := MkRegistry [sample_case] [opened_event sample_case (fixed_clock 0)].

Lemma sample_registry_reachable : registry_reachable sample_registry.
Proof.
  eapply rtc_l; [|apply rtc_refl].
  apply (step_open (MkRegistry [] []) (sample_open "case-1" "rec-1" "rec-2") (fixed_clock 0)); [vm_compute; reflexivity|cbn; set_solver].
Qed.

(** ** Theorems *)

(** C32: R8: in every reachable registry two open cases never share a receivable, a consumer that
    only folds the published events knows exactly what is covered, and every case is well
    formed: its history is a path of the table to its status, priorities only ever climbed,
    it carries a closing stamp exactly when closed, and no automated outbound send was ever
    logged without a consent reference. *)
Theorem open_cases_never_share_a_receivable (g : Registry) :
  registry_reachable g ->
  (forall c c' r, c ∈ rg_cases g -> c' ∈ rg_cases g -> isCaseOpen (cc_status c) = true -> isCaseOpen (cc_status c') = true ->
     r ∈ cc_receivableIds c -> r ∈ cc_receivableIds c' -> c = c') /\
  foldl observe [] (rg_log g) = openCaseCoverageOf (rg_cases g) /\ Forall case_wf (rg_cases g).
Proof.
  intros [Hid Hcs Hex Hob]%case_registry_wf. split; [|done]. intros c c' r Hc Hc' Ho Ho' Hr Hr'.
  apply (NoDup_fmap_elem caseId (rg_cases g)); [done..|].
  assert (MkCoverage r (caseId c) = MkCoverage r (caseId c')) as E; [|by injection E].
  apply (NoDup_fmap_elem cov_receivableId (openCaseCoverageOf (rg_cases g))); [done| | |done]; apply openCaseCoverageOf_elem; [by exists c|by exists c'].
Qed.

Lemma open_cases_never_share_a_receivable_witness : foldl observe [] (rg_log sample_registry) = [MkCoverage "rec-1" "case-1"; MkCoverage "rec-2" "case-1"].
Proof. destruct (open_cases_never_share_a_receivable sample_registry sample_registry_reachable) as (_ & H & _). exact H. Defined.

(** A case opens exactly when its arguments are acceptable and no open case covers any of
    its receivables; it then covers all of them. *)
Theorem opening_exact (args : OpenCaseArgs) (cases : list CollectionsCase) (clock : Clock) :
  (exists c evs, openCase args (openCaseCoverageOf cases) clock = Ok (c, evs)) <->
  (exists n p, openable args n p) /\
  forall c r, c ∈ cases -> isCaseOpen (cc_status c) = true -> r ∈ cc_receivableIds c -> r ∉ oa_receivableIds args.
Proof.
  assert (Hcov : forall r, r ∈ cov_receivableId <$> openCaseCoverageOf cases <-> exists c, c ∈ cases /\ isCaseOpen (cc_status c) = true /\ r ∈ cc_receivableIds c).
  { intros r. rewrite list_elem_of_fmap. setoid_rewrite openCaseCoverageOf_elem. split; [naive_solver|].
    intros (c & H1 & H2 & H3). exists (MkCoverage r (caseId c)). naive_solver. }
  setoid_rewrite openCase_iff. split.
  - intros (c & evs & n & p & Hop & Hf & _ & _). split; [by exists n, p|]. intros c' r Hc' Ho Hr Hin. rewrite Forall_forall in Hf.
    apply (Hf r Hin), Hcov. by exists c'.
  - intros [(n & p & Hop) H]. do 2 eexists. exists n, p. split; [done|]. split; [|done]. apply Forall_forall. intros r Hr (c & Hc & Ho & Hrc)%Hcov. by apply (H c r).
Qed.

(** A closed case is sealed: no operation succeeds on it. *)
Theorem closed_cases_are_sealed (c c' : CollectionsCase) (evs : list CollectionsEvent) :
  isCaseOpen (cc_status c) = false -> ~ case_op c c' evs.
Proof.
  intros Hc Hop. pose proof (case_op_keeps _ _ _ Hop) as (_ & _ & Hk).
  destruct Hop as [target reason actor clock c1 e1 H|target reason actor clock c1 e1 H|args clock c1 e1 H|args clock ev H|id outcome actor clock c1 H].
  - apply transitionCase_Ok in H as (to & _ & Hin & _). destruct (cc_status c); cbn in *; try done; set_solver.
  - apply escalateCase_Ok in H as (to & e & Ho & _). congruence.
  - apply tryRecordAction_recorded, recordAction_Ok in H as (a & e & Ho & _). congruence.
  - apply tryRecordAction_blocked in H as [H _]. unfold recordAction in H. by rewrite Hc in H.
  - apply completeAction_Ok in H as (t & by_ & Ho & _). congruence.
Qed.

Lemma closed_cases_are_sealed_witness : ~ case_op (sample_case <| cc_status := resolved |>) sample_case [].
Proof. apply (closed_cases_are_sealed (sample_case <| cc_status := resolved |>)). reflexivity. Defined.

(** K2: on an open case with an actor, a date and no consent reference, exactly the automated
    outbound sends are blocked (outbound sends count as automated unless said otherwise),
    and the case is left as it was. *)
Theorem consent_gate_exact (c : CollectionsCase) (args : RecordActionArgs) (clock : Clock) (type : CaseActionType) (source : option ActionSource) :
  isCaseOpen (cc_status c) = true -> assertActionType (ra_type args) = Ok type -> is_Some (ra_scheduledFor args) ->
  trim (ra_actorId args) <> "" -> ra_consentRef args = None -> match ra_source args with None => source = None | Some s => exists x, assertSource s = Ok x /\ source = Some x end ->
  (exists ev, tryRecordAction c args clock = Ok (blocked ev)) <-> type ∈ OUTBOUND_ACTION_TYPES /\ source <> Some manual.
Proof.
  intros Ho Hty [at_ Hat] Hact Href Hsrc.
  assert (Hrec : recordAction c args clock = Err (DomainError "DUNNING_CONSENT_REQUIRED") <-> type ∈ OUTBOUND_ACTION_TYPES /\ source <> Some manual).
  { unfold recordAction, assertActor. rewrite Ho, decide_False, Hty by done. cbn [mbind result_bind]. rewrite Hat.
    assert (exists x, match ra_source args with None => Ok (if bool_decide (type ∈ OUTBOUND_ACTION_TYPES) then automated else manual) | Some s => assertSource s end = Ok x /\
      (type ∈ OUTBOUND_ACTION_TYPES -> x = automated <-> source <> Some manual)) as (x & -> & Hx).
    { destruct (ra_source args) as [s|].
      - destruct Hsrc as (x & -> & ->). exists x. split; [done|]. intros _. destruct x; naive_solver.
      - subst source. eexists. split; [done|]. intros Hin. by rewrite bool_decide_true. }
    cbn [mbind result_bind]. rewrite (proj2 (case_nonBlank_Ok _ _ _)) by done. cbn [mbind result_bind]. rewrite Href. cbn [optionalNonBlank mbind result_bind].
    case_decide as Hd; rewrite bool_decide_eq_true in Hd; [naive_solver|]. split; [|naive_solver]. intros H. exfalso.
    destruct (optionalNonBlank _ (ra_outcome args)) as [o|e] eqn:E1; [|apply optionalNonBlank_Err in E1; cbn in H; congruence].
    cbn [mbind result_bind] in H. destruct (ra_id args) as [id|]; [|done].
    destruct (assertNonBlank id _) as [v|e] eqn:E2; [done|]. apply case_nonBlank_Err in E2. cbn in H. congruence. }
  rewrite <- Hrec. unfold tryRecordAction, dunningBlockedNoConsentEvent. split.
  - intros [ev H]. destruct (recordAction c args clock) as [[c' e]|e]; [done|]. case_decide; [congruence|done].
  - intros ->. rewrite decide_True, Hty by done. cbn. by eexists.
Qed.

Lemma consent_gate_exact_witness :
  exists ev, tryRecordAction sample_case (MkRecordAction None "sms" (Some 0) None "bot" None None) (fixed_clock 0) = Ok (blocked ev).
Proof. apply (consent_gate_exact sample_case _ (fixed_clock 0) sms None); cbn; try done. split; [set_solver|done]. Defined.

(** The derived status of a live case is decided by the facts about the receivables it
    covers, disputes before promises, whatever the order the facts come in. *)
Theorem derived_status_exact (c : CollectionsCase) (promises : list PromiseFact) (disputes : list DisputeFact) (s : DerivedCaseStatus) :
  isCaseOpen (cc_status c) = true ->
  deriveCaseStatus c promises disputes = Ok s <->
  Forall (fun f => is_Some (df_open f)) disputes /\ Forall (fun f => pf_status f ∈ PROMISE_STATUSES) promises /\
  let contested := exists r, r ∈ cc_receivableIds c /\ MkDisputeFact r (Some true) ∈ disputes in
  let pledged := exists r, r ∈ cc_receivableIds c /\ MkPromiseFact r "pending" ∈ promises in
  match s with
  | disputed => contested
  | promised => ~ contested /\ pledged
  | waiting => ~ contested /\ ~ pledged
  | stored _ => False
  end.
Proof.
  intros Ho. cbv zeta.
  assert (Hd : existsb (disputeHolds (cc_receivableIds c)) disputes = true <-> exists r, r ∈ cc_receivableIds c /\ MkDisputeFact r (Some true) ∈ disputes).
  { rewrite existsb_exists. setoid_rewrite <- list_elem_of_In. unfold disputeHolds. setoid_rewrite andb_true_iff. setoid_rewrite bool_decide_eq_true. split.
    - intros ([r o] & Hin & E & Hr). cbn in *. subst o. by exists r.
    - intros (r & Hr & Hin). by exists (MkDisputeFact r (Some true)). }
  assert (Hp : existsb (promiseHolds (cc_receivableIds c)) promises = true <-> exists r, r ∈ cc_receivableIds c /\ MkPromiseFact r "pending" ∈ promises).
  { rewrite existsb_exists. setoid_rewrite <- list_elem_of_In. unfold promiseHolds. setoid_rewrite andb_true_iff. setoid_rewrite bool_decide_eq_true. split.
    - intros ([r o] & Hin & E & Hr). cbn in *. subst o. by exists r.
    - intros (r & Hr & Hin). by exists (MkPromiseFact r "pending"). }
  unfold deriveCaseStatus, assertDisputeFacts, assertPromiseFacts.
  transitivity (~ Exists (fun f => df_open f = None) disputes /\ ~ Exists (fun f => pf_status f ∉ PROMISE_STATUSES) promises /\
    (if existsb (disputeHolds (cc_receivableIds c)) disputes then Ok disputed
     else if existsb (promiseHolds (cc_receivableIds c)) promises then Ok promised else Ok waiting) = Ok s).
  - apply isCaseOpen_iff in Ho as [-> | ->]; rewrite bind_Ok; setoid_rewrite guard_Ok; setoid_rewrite bind_Ok; setoid_rewrite guard_Ok; naive_solver.
  - rewrite <- !Forall_Exists_neg.
    assert (Forall (fun f => ~ df_open f = None) disputes <-> Forall (fun f => is_Some (df_open f)) disputes) as ->.
    { rewrite !Forall_forall. by setoid_rewrite not_eq_None_Some. }
    assert (Forall (fun f => ~ (pf_status f ∉ PROMISE_STATUSES)) promises <-> Forall (fun f => pf_status f ∈ PROMISE_STATUSES) promises) as ->.
    { rewrite !Forall_forall. split; intros H f Hf; specialize (H f Hf); [by apply dec_stable in H|naive_solver]. }
    destruct (existsb _ disputes), (existsb _ promises), s; naive_solver.
Qed.

Lemma derived_status_exact_witness :
  deriveCaseStatus sample_case [MkPromiseFact "rec-1" "pending"] [MkDisputeFact "rec-9" (Some true); MkDisputeFact "rec-2" (Some false)] = Ok promised.
Proof.
  apply (derived_status_exact sample_case _ _ promised); [reflexivity|]. repeat constructor; cbn; try done; try set_solver.
Defined.

(** The logs only grow: every operation extends the history and the priority changes, and
    keeps every logged action in its place with its type, date, consent and author. *)
Theorem case_logs_are_append_only (c c' : CollectionsCase) (evs : list CollectionsEvent) :
  case_op c c' evs ->
  (exists h, cc_history c' = cc_history c ++ h) /\ (exists p, cc_priorityChanges c' = cc_priorityChanges c ++ p) /\
  forall i a, cc_actions c !! i = Some a -> exists a', cc_actions c' !! i = Some a' /\
    ca_id a' = ca_id a /\ ca_type a' = ca_type a /\ ca_scheduledFor a' = ca_scheduledFor a /\ ca_consentRef a' = ca_consentRef a /\
    ca_source a' = ca_source a /\ ca_actorId a' = ca_actorId a /\ ca_recordedAt a' = ca_recordedAt a /\
    (NoDup (ca_id <$> cc_actions c) -> is_Some (ca_completedAt a) -> a' = a).
Proof.
  intros Hop. assert (Hnil : forall {A} (l : list A), exists r, l = l ++ r) by (intros A l; exists []; by rewrite app_nil_r).
  destruct Hop as [target reason actor clock c1 e1 H|target reason actor clock c1 e1 H|args clock c1 e1 H|args clock ev H|id outcome actor clock c1 H].
  - apply transitionCase_Ok in H as (to & _ & _ & _ & _ & -> & _). cbn. split; [by eexists|]. split; [done|]. intros i a Ha. by exists a.
  - apply escalateCase_Ok in H as (to & e & _ & _ & -> & _). cbn. split; [done|]. split; [by eexists|]. intros i a Ha. by exists a.
  - apply tryRecordAction_recorded, recordAction_Ok in H as (x & e & _ & _ & _ & -> & _). cbn. split; [done|]. split; [done|]. intros i a Ha.
    exists a. by rewrite lookup_app_l by by eapply lookup_lt_Some.
  - split; [done|]. split; [done|]. intros i a Ha. by exists a.
  - apply completeAction_Ok in H as (t & by_ & _ & Hin & Hid & Hnone & ->). cbn. split; [done|]. split; [done|]. intros i a Ha.
    rewrite list_lookup_fmap, Ha. cbn. eexists. split; [done|]. case_decide as E; cbn; repeat (split; [done|]); [|done].
    intros Hnd Hs. assert (a = t) as -> by (apply (NoDup_fmap_elem ca_id (cc_actions c)); [done|by eapply list_elem_of_lookup_2|done|congruence]).
    rewrite Hnone in Hs. by destruct Hs.
Qed.

Lemma case_logs_are_append_only_witness :
  exists c' evs, escalateCase sample_case "urgent" "broken promise" "ops" (fixed_clock 5) = Ok (c', evs) /\
    exists p, cc_priorityChanges c' = cc_priorityChanges sample_case ++ p.
Proof.
  do 2 eexists. split; [vm_compute; reflexivity|].
  eapply (case_logs_are_append_only sample_case). eapply (op_escalate sample_case "urgent" "broken promise" "ops" (fixed_clock 5)). vm_compute. reflexivity.
Defined.

(** Action ids are not checked for uniqueness: completing one entry rewrites the outcome of
    another, completed, entry that was logged under the same id. *)
Theorem duplicate_action_ids_rewrite_history :
  let planned := MkRecordAction (Some "a1") "call" (Some 0) None "ops" None None in
  let backfilled := MkRecordAction (Some "a1") "letter" (Some 0) (Some "delivered") "ops" None None in
  exists c1 e1 c2 e2 c3, recordAction sample_case planned (fixed_clock 1) = Ok (c1, e1) /\
    recordAction c1 backfilled (fixed_clock 2) = Ok (c2, e2) /\ ca_outcome <$> cc_actions c2 = [None; Some "delivered"] /\
    completeAction c2 "a1" "no answer" None (fixed_clock 3) = Ok c3 /\
    ca_outcome <$> cc_actions c3 = [Some "no answer"; Some "no answer"].
Proof. do 5 eexists. split; [vm_compute; reflexivity|]. split; [vm_compute; reflexivity|]. split; [reflexivity|]. split; [vm_compute; reflexivity|]. reflexivity. Qed.
