(* ===== verification/Consent.v ===== *)
(** * Consent

    src/domain/consent/consent-grant.ts, guard.ts and dsar.ts: the register of consent
    grants, the decision whether a customer may be contacted, and the subject-access trail.
    The guard is specified for any list of rows.  [consent_step] is the register of a process
    whose clock does not run backwards and which keeps its rows the way the module's tests
    do: a grant is appended, a revocation replaces its row.  (The comment on [revokeConsent]
    asks to keep the granted row alongside; [revocation_kept_alongside_is_ignored].) *)

From stdpp Require Import prelude strings list relations sorting.
From Stdlib Require Import ZArith Lia.
From S2P Require Import Prelude JsString JsDate.
Local Open Scope string_scope.
Local Open Scope list_scope.
Local Open Scope Z_scope.
Local Open Scope js_scope.

Inductive ConsentChannel := whatsapp | sms | email.
#[export] Instance ConsentChannel_eq_dec : EqDecision ConsentChannel.
Proof. solve_decision. Defined.

Inductive ConsentPurpose := dunning | marketing.
#[export] Instance ConsentPurpose_eq_dec : EqDecision ConsentPurpose.
Proof. solve_decision. Defined.

Record ConsentGrant := MkGrant {
  grantId : Uuid;
  g_customerId : Uuid;
  g_channel : ConsentChannel;
  g_purpose : ConsentPurpose;
  grantedAt : Date;
  revokedAt : option Date;
}.
#[export] Instance ConsentGrant_eta : Eta ConsentGrant := fun g =>
  MkGrant (grantId g) (g_customerId g) (g_channel g) (g_purpose g) (grantedAt g) (revokedAt g).
#[export] Instance ConsentGrant_eq_dec : EqDecision ConsentGrant.
Proof. solve_decision. Defined.

(** ** The register *)

Definition assertChannel (channel : string) : result ConsentChannel :=
  if decide (channel = "whatsapp") then Ok whatsapp
  else if decide (channel = "sms") then Ok sms
  else if decide (channel = "email") then Ok email
  else Err (DomainError "CONSENT_CHANNEL_INVALID").

Definition assertPurpose (purpose : string) : result ConsentPurpose :=
  if decide (purpose = "dunning") then Ok dunning
  else if decide (purpose = "marketing") then Ok marketing
  else Err (DomainError "CONSENT_PURPOSE_INVALID").

Definition isActiveAt (g : ConsentGrant) (at_ : Date) : bool :=
  (grantedAt g <=? at_) && match revokedAt g with None => true | Some r => at_ <? r end.

Definition forTriple (customer : Uuid) (channel : ConsentChannel) (purpose : ConsentPurpose) (g : ConsentGrant) : bool :=
  bool_decide (g_customerId g = customer /\ g_channel g = channel /\ g_purpose g = purpose).

Record GrantConsentArgs := MkGrantArgs { gc_id : Uuid; gc_customerId : Uuid; gc_channel : string; gc_purpose : string }.

Definition grantConsent (args : GrantConsentArgs) (existing : list ConsentGrant) (clock : Clock) : result ConsentGrant :=
  channel ← assertChannel (gc_channel args);
  purpose ← assertPurpose (gc_purpose args);
  let now := clock 0%nat in
  refuse (existsb (fun g => bool_decide (grantId g = gc_id args)) existing = true) with "CONSENT_GRANT_ID_TAKEN" ;;
  refuse (existsb (fun g => forTriple (gc_customerId args) channel purpose g && isActiveAt g now) existing = true) with "CONSENT_ALREADY_ACTIVE" ;;
  Ok (MkGrant (gc_id args) (gc_customerId args) channel purpose now None).

Definition revokeConsent (g : ConsentGrant) (clock : Clock) : result ConsentGrant :=
  refuse (is_Some (revokedAt g)) with "CONSENT_ALREADY_REVOKED" ;;
  Ok (g <| revokedAt := Some (clock 0%nat) |>).

(** ** The guard *)

Inductive RefusalReason := NO_GRANT | REVOKED | WRONG_PURPOSE | WRONG_CHANNEL.
#[export] Instance RefusalReason_eq_dec : EqDecision RefusalReason.
Proof. solve_decision. Defined.

Inductive ContactDecision :=
| allowed (g : ConsentGrant)
| refusal (reason : RefusalReason).

Record ContactRequest := MkContact { cr_customerId : Uuid; cr_channel : string; cr_purpose : string }.

(** [reduce((best, g) => best === null || g.grantedAt >= best.grantedAt ? g : best, null)] *)
Definition latest (best : option ConsentGrant) (g : ConsentGrant) : option ConsentGrant :=
  match best with
  | None => Some g
  | Some b => if grantedAt b <=? grantedAt g then Some g else Some b
  end.

Definition decide_contact (grants : list ConsentGrant) (customer : Uuid) (channel : ConsentChannel) (purpose : ConsentPurpose)
    (now : Date) : ContactDecision :=
  let mine := List.filter (fun g => bool_decide (g_customerId g = customer)) grants in
  let exact := List.filter (fun g => bool_decide (g_channel g = channel /\ g_purpose g = purpose)) mine in
  match foldl latest None (List.filter (fun g => isActiveAt g now) exact) with
  | Some active => allowed active
  | None =>
      if existsb (fun g => bool_decide (is_Some (revokedAt g))) exact then refusal REVOKED
      else if existsb (fun g => bool_decide (g_purpose g = purpose /\ g_channel g <> channel) && isActiveAt g now) mine then refusal WRONG_CHANNEL
      else if existsb (fun g => bool_decide (g_channel g = channel /\ g_purpose g <> purpose) && isActiveAt g now) mine then refusal WRONG_PURPOSE
      else refusal NO_GRANT
  end.

Definition assertCanContact (grants : list ConsentGrant) (request : ContactRequest) (clock : Clock) : result ContactDecision :=
  channel ← assertChannel (cr_channel request);
  purpose ← assertPurpose (cr_purpose request);
  Ok (decide_contact grants (cr_customerId request) channel purpose (clock 0%nat)).

Definition assertWhatsAppDunningAllowed (grants : list ConsentGrant) (customer : Uuid) (clock : Clock) : result ContactDecision :=
  assertCanContact grants (MkContact customer "whatsapp" "dunning") clock.

(** ** The subject-access trail *)

Record ConsentGrantedEntry := MkGrantedEntry { ge_grantId : Uuid; ge_channel : ConsentChannel; ge_purpose : ConsentPurpose; ge_grantedAt : Date }.
Record ConsentRevokedEntry := MkRevokedEntry { re_grantId : Uuid; re_channel : ConsentChannel; re_purpose : ConsentPurpose; re_revokedAt : Date }.

Record ConsentTrail := MkTrail {
  tr_customerId : Uuid;
  tr_granted : list ConsentGrantedEntry;
  tr_revoked : list ConsentRevokedEntry;
  tr_active : list ConsentGrant;
}.

Definition byTimeThenId {T} (timeOf : T -> Date) (idOf : T -> Uuid) (a b : T) : Z :=
  let delta := timeOf a - timeOf b in
  if decide (delta <> 0) then delta else string_cmp (idOf a) (idOf b).

Definition byGranted : ConsentGrant -> ConsentGrant -> Z := byTimeThenId grantedAt grantId.

(** The revocation of a row that has one. *)
Definition revokedRow (g : ConsentGrant) : option (ConsentGrant * Date) := (fun at_ => (g, at_)) <$> revokedAt g.

Definition consentTrail (grants : list ConsentGrant) (customer : Uuid) : ConsentTrail :=
  let mine := List.filter (fun g => bool_decide (g_customerId g = customer)) grants in
  let granted := (fun g => MkGrantedEntry (grantId g) (g_channel g) (g_purpose g) (grantedAt g)) <$> sort_by byGranted mine in
  let revoked := (fun '(g, at_) => MkRevokedEntry (grantId g) (g_channel g) (g_purpose g) at_) <$>
    sort_by (byTimeThenId snd (fun p => grantId p.1)) (omap revokedRow mine) in
  let active := sort_by byGranted (List.filter (fun g => bool_decide (revokedAt g = None)) mine) in
  MkTrail customer granted revoked active.

(** ** The register over time *)

Record Register := MkRegister { rg_now : Date; rg_grants : list ConsentGrant }.

Inductive consent_step (r : Register) : Register -> Prop :=
| step_grant args clock g : rg_now r <= clock 0%nat -> grantConsent args (rg_grants r) clock = Ok g ->
    consent_step r (MkRegister (clock 0%nat) (rg_grants r ++ [g]))
| step_revoke l1 g l2 clock g' : rg_now r <= clock 0%nat -> rg_grants r = l1 ++ g :: l2 -> revokeConsent g clock = Ok g' ->
    consent_step r (MkRegister (clock 0%nat) (l1 ++ g' :: l2))
| step_wait t : rg_now r <= t -> consent_step r (MkRegister t (rg_grants r)).

Definition register_reachable (r : Register) : Prop := exists t, rtc consent_step (MkRegister t []) r.

Definition triple (g : ConsentGrant) : Uuid * ConsentChannel * ConsentPurpose := (g_customerId g, g_channel g, g_purpose g).

(** The live rows of the register. *)
Definition live (l : list ConsentGrant) : list ConsentGrant := List.filter (fun g => bool_decide (revokedAt g = None)) l.

Record register_wf (r : Register) : Prop := {
  gw_ids : NoDup (grantId <$> rg_grants r);
  gw_live : NoDup (triple <$> live (rg_grants r));
  gw_past : Forall (fun g => grantedAt g <= rg_now r /\ forall x, revokedAt g = Some x -> grantedAt g <= x <= rg_now r) (rg_grants r);
}.

(** ** Lemmas *)

Lemma existsb_elem {A} (f : A -> bool) l : existsb f l = true <-> exists x, x ∈ l /\ f x = true.
Proof. rewrite existsb_exists. by setoid_rewrite list_elem_of_In. Qed.

Lemma isActiveAt_iff g t : isActiveAt g t = true <-> grantedAt g <= t /\ forall x, revokedAt g = Some x -> t < x.
Proof.
  unfold isActiveAt. rewrite andb_true_iff, Z.leb_le. destruct (revokedAt g) as [x|]; [rewrite Z.ltb_lt|]; naive_solver.
Qed.

Lemma forTriple_iff c ch p g : forTriple c ch p g = true <-> triple g = (c, ch, p).
Proof. unfold forTriple, triple. rewrite bool_decide_eq_true. naive_solver. Qed.

Lemma grantConsent_Ok args existing clock g : grantConsent args existing clock = Ok g ->
  exists ch p, assertChannel (gc_channel args) = Ok ch /\ assertPurpose (gc_purpose args) = Ok p /\
    g = MkGrant (gc_id args) (gc_customerId args) ch p (clock 0%nat) None /\
    gc_id args ∉ (grantId <$> existing) /\
    forall x, x ∈ existing -> triple x = (gc_customerId args, ch, p) -> isActiveAt x (clock 0%nat) = false.
Proof.
  unfold grantConsent. intros (ch & Hch & (p & Hp & [H1 [H2 [= <-]]%guard_Ok]%guard_Ok)%bind_Ok)%bind_Ok.
  exists ch, p. repeat (split; [done|]). split.
  - intros (x & E & Hx)%list_elem_of_fmap. apply H1. apply existsb_elem. exists x. split; [done|]. by apply bool_decide_eq_true.
  - intros x Hx Ht. apply not_true_is_false. intros Ha. apply H2, existsb_elem. exists x. split; [done|]. rewrite Ha, andb_true_r. by apply forTriple_iff.
Qed.

Lemma live_elem l g : g ∈ live l <-> g ∈ l /\ revokedAt g = None.
Proof. unfold live. by rewrite elem_of_filter_bool, bool_decide_eq_true. Qed.

(** In the past of the clock, active is the same as not revoked. *)
Lemma active_is_live r g t : register_wf r -> g ∈ rg_grants r -> rg_now r <= t -> isActiveAt g t = true <-> revokedAt g = None.
Proof.
  intros [_ _ Hp] Hg Ht. rewrite Forall_forall in Hp. destruct (Hp g Hg) as [H1 H2]. rewrite isActiveAt_iff. split.
  - intros [_ H]. destruct (revokedAt g) as [x|]; [|done]. specialize (H x eq_refl). specialize (H2 x eq_refl). lia.
  - intros ->. split; [lia|done].
Qed.

Lemma consent_step_wf r r' : consent_step r r' -> register_wf r -> register_wf r'.
Proof.
  intros Hs Hwf. pose proof Hwf as [Hid Hlive Hp]. destruct Hs as [args clock g Hm H|l1 g l2 clock g' Hm E H|t Hm].
  - apply grantConsent_Ok in H as (ch & p & _ & _ & -> & Hfresh & Hno). constructor; cbn [rg_now rg_grants].
    + rewrite fmap_app. by apply NoDup_snoc_2.
    + unfold live. rewrite List.filter_app. cbn. rewrite fmap_app. apply NoDup_snoc_2; [|done].
      intros (x & E & [Hx Hn]%live_elem)%list_elem_of_fmap. assert (isActiveAt x (clock 0%nat) = false) as Ha by (apply Hno; [done|by rewrite <- E]).
      rewrite (proj2 (active_is_live r x _ Hwf Hx Hm)) in Ha by done. done.
    + apply Forall_snoc_2; [cbn; split; [lia|done]|]. eapply Forall_impl; [exact Hp|]. cbn. intros x [H1 H2]. split; [lia|]. intros y Hy. specialize (H2 y Hy). lia.
  - unfold revokeConsent in H. apply guard_Ok in H as [Hn [= <-]]. rewrite E in *. constructor; cbn [rg_now rg_grants].
    + rewrite fmap_app, fmap_cons in *. done.
    + unfold live in *. rewrite List.filter_app in *. cbn in *. rewrite !fmap_app in *. eapply sublist_NoDup; [exact Hlive|].
      apply sublist_app; [done|]. case_bool_decide; [rewrite fmap_cons; by apply sublist_cons|done].
    + apply Forall_app in Hp as [H1 [H2 H3]%Forall_cons]. apply Forall_app.
      split; [|constructor]; [eapply Forall_impl; [exact H1|]| |eapply Forall_impl; [exact H3|]]; cbn.
      1, 3: intros x [Ha Hb]; split; [lia|]; intros y Hy; specialize (Hb y Hy); lia.
      split; [lia|]. intros x [= <-]. lia.
  - constructor; cbn; try done. eapply Forall_impl; [exact Hp|]. cbn. intros x [H1 H2]. split; [lia|]. intros y Hy. specialize (H2 y Hy). lia.
Qed.

Lemma register_wf_reachable r : register_reachable r -> register_wf r.
Proof.
  intros (t & H). assert (H0 : register_wf (MkRegister t [])) by (constructor; cbn; constructor).
  revert H0. induction H as [|r1 r2 r3 H12 _ IH]; [done|]. intros H1. apply IH. by eapply consent_step_wf.
Qed.

Lemma latest_loop l : forall best, match foldl latest best l with
  | None => best = None /\ l = []
  | Some g => (best = Some g \/ g ∈ l) /\ (forall b, best = Some b -> grantedAt b <= grantedAt g) /\ forall x, x ∈ l -> grantedAt x <= grantedAt g
  end.
Proof.
  induction l as [|x l IH]; intros best; cbn [foldl].
  - destruct best as [b|]; [|done]. split; [by left|]. split; [intros ? [= <-]; lia|]. intros ? []%not_elem_of_nil.
  - specialize (IH (latest best x)). destruct (foldl latest (latest best x) l) as [g|].
    + destruct IH as (H1 & H2 & H3). destruct best as [b|]; cbn in H1, H2.
      * destruct (Z.leb_spec (grantedAt b) (grantedAt x)); specialize (H2 _ eq_refl).
        -- split; [destruct H1 as [[= <-]|]; right; [left|by right]|]. split; [intros ? [= <-]; lia|]. intros y [->|Hy]%elem_of_cons; [lia|by apply H3].
        -- split; [destruct H1 as [[= <-]|]; [by left|right; by right]|]. split; [intros ? [= <-]; lia|]. intros y [->|Hy]%elem_of_cons; [lia|by apply H3].
      * specialize (H2 _ eq_refl). split; [destruct H1 as [[= <-]|]; right; [left|by right]|]. split; [done|]. intros y [->|Hy]%elem_of_cons; [lia|by apply H3].
    + destruct IH as [H _]. destruct best as [b|]; cbn in H; [|done]. by destruct (Z.leb_spec (grantedAt b) (grantedAt x)).
Qed.

(** The rows that carry consent for the contact at the instant: granted by then, and not
    revoked by then. *)
Definition supports (grants : list ConsentGrant) (c : Uuid) (ch : ConsentChannel) (p : ConsentPurpose) (t : Date) (g : ConsentGrant) : Prop :=
  g ∈ grants /\ triple g = (c, ch, p) /\ grantedAt g <= t /\ forall x, revokedAt g = Some x -> t < x.

Lemma supports_active grants c ch p t g : supports grants c ch p t g <-> g ∈ grants /\ triple g = (c, ch, p) /\ isActiveAt g t = true.
Proof. unfold supports. by rewrite isActiveAt_iff. Qed.

(** Why a contact is refused, most specific reason first. *)
Definition refusal_spec (grants : list ConsentGrant) (c : Uuid) (ch : ConsentChannel) (p : ConsentPurpose) (t : Date) (reason : RefusalReason) : Prop :=
  let withdrawn := exists g, g ∈ grants /\ triple g = (c, ch, p) /\ is_Some (revokedAt g) in
  let elsewhere := exists ch' g, ch' <> ch /\ supports grants c ch' p t g in
  let otherwise := exists p' g, p' <> p /\ supports grants c ch p' t g in
  match reason with
  | REVOKED => withdrawn
  | WRONG_CHANNEL => ~ withdrawn /\ elsewhere
  | WRONG_PURPOSE => ~ withdrawn /\ ~ elsewhere /\ otherwise
  | NO_GRANT => ~ withdrawn /\ ~ elsewhere /\ ~ otherwise
  end.

Lemma decide_contact_spec grants c ch p t :
  match decide_contact grants c ch p t with
  | allowed g => supports grants c ch p t g /\ forall x, supports grants c ch p t x -> grantedAt x <= grantedAt g
  | refusal reason => (forall g, ~ supports grants c ch p t g) /\ refusal_spec grants c ch p t reason
  end.
Proof.
  unfold decide_contact. set (mine := List.filter _ grants). set (exact := List.filter _ mine).
  assert (Hmine : forall g, g ∈ mine <-> g ∈ grants /\ g_customerId g = c) by (intros g; unfold mine; by rewrite elem_of_filter_bool, bool_decide_eq_true).
  assert (Hexact : forall g, g ∈ exact <-> g ∈ grants /\ triple g = (c, ch, p)).
  { intros g. unfold exact, triple. rewrite elem_of_filter_bool, Hmine, bool_decide_eq_true. naive_solver. }
  assert (Hact : forall g, g ∈ List.filter (fun g => isActiveAt g t) exact <-> supports grants c ch p t g).
  { intros g. rewrite supports_active, elem_of_filter_bool, Hexact. naive_solver. }
  pose proof (latest_loop (List.filter (fun g => isActiveAt g t) exact) None) as Hl.
  destruct (foldl latest None _) as [g|].
  { destruct Hl as (H1 & _ & H3). split; [destruct H1; [done|]; by apply Hact|]. intros x Hx. by apply H3, Hact. }
  destruct Hl as [_ Hnil]. clearbody exact mine.
  assert (Hnone : forall g, ~ supports grants c ch p t g) by (intros g Hg%Hact; rewrite Hnil in Hg; by apply not_elem_of_nil in Hg).
  assert (Hrev : existsb (fun g => bool_decide (is_Some (revokedAt g))) exact = true <-> exists g, g ∈ grants /\ triple g = (c, ch, p) /\ is_Some (revokedAt g)).
  { rewrite existsb_elem. setoid_rewrite bool_decide_eq_true. setoid_rewrite Hexact. naive_solver. }
  assert (Hch : existsb (fun g => bool_decide (g_purpose g = p /\ g_channel g <> ch) && isActiveAt g t) mine = true <-> exists ch' g, ch' <> ch /\ supports grants c ch' p t g).
  { rewrite existsb_elem. setoid_rewrite andb_true_iff. setoid_rewrite bool_decide_eq_true. setoid_rewrite Hmine. setoid_rewrite supports_active. unfold triple. split.
    - intros (g & [? ?] & [? ?] & ?). exists (g_channel g), g. naive_solver.
    - intros (ch' & g & ? & ? & E & ?). injection E as ? ? ?. exists g. naive_solver. }
  assert (Hpu : existsb (fun g => bool_decide (g_channel g = ch /\ g_purpose g <> p) && isActiveAt g t) mine = true <-> exists p' g, p' <> p /\ supports grants c ch p' t g).
  { rewrite existsb_elem. setoid_rewrite andb_true_iff. setoid_rewrite bool_decide_eq_true. setoid_rewrite Hmine. setoid_rewrite supports_active. unfold triple. split.
    - intros (g & [? ?] & [? ?] & ?). exists (g_purpose g), g. naive_solver.
    - intros (p' & g & ? & ? & E & ?). injection E as ? ? ?. exists g. naive_solver. }
  unfold refusal_spec.
  destruct (existsb _ exact); [split; [done|]; by apply Hrev|]. destruct (existsb _ mine); [split; [done|]; split; [intros H; by apply Hrev in H|by apply Hch]|].
  destruct (existsb _ mine); (split; [done|]); (split; [intros H; by apply Hrev in H|]); (split; [intros H; by apply Hch in H|]); [by apply Hpu|intros H; by apply Hpu in H].
Qed.








Lemma byTime_total {T} (timeOf : T -> Date) (idOf : T -> Uuid) : TotalComparator (byTimeThenId timeOf idOf).
Proof.
  split; unfold byTimeThenId.
  - intros x y. pose proof (string_cmp_total (idOf x) (idOf y)). repeat case_decide; lia.
  - intros x y z. pose proof (string_cmp_trans (idOf x) (idOf y) (idOf z)). repeat case_decide; lia.
Qed.

Lemma byTime_key {T} (timeOf : T -> Date) (idOf : T -> Uuid) a b :
  byTimeThenId timeOf idOf a b <= 0 -> byTimeThenId timeOf idOf b a <= 0 -> idOf a = idOf b.
Proof.
  unfold byTimeThenId. pose proof (string_cmp_antisym (idOf a) (idOf b)). repeat case_decide; try lia.
  intros Ha Hb. apply string_cmp_eq. lia.
Qed.

Definition sample_register : list ConsentGrant :=
  [MkGrant "g1" "c1" whatsapp dunning 100 (Some 200); MkGrant "g2" "c1" sms dunning 150 None].

Lemma sample_register_reachable : register_reachable (MkRegister 300 sample_register).
Proof.
  exists 0. eapply rtc_l; [eapply (step_grant (MkRegister 0 []) (MkGrantArgs "g1" "c1" "whatsapp" "dunning") (fixed_clock 100)); [unfold fixed_clock; cbn; lia|vm_compute; reflexivity]|].
  eapply rtc_l; [eapply (step_grant _ (MkGrantArgs "g2" "c1" "sms" "dunning") (fixed_clock 150)); [unfold fixed_clock; cbn; lia|vm_compute; reflexivity]|].
  eapply rtc_l; [eapply (step_revoke _ [] (MkGrant "g1" "c1" whatsapp dunning 100 None) _ (fixed_clock 200)); [unfold fixed_clock; cbn; lia|reflexivity|vm_compute; reflexivity]|].
  eapply rtc_l; [|apply rtc_refl]. apply (step_wait (MkRegister 200 sample_register) 300). unfold fixed_clock. cbn. lia.
Qed.

(** ** Theorems *)



(** In a register kept by appending grants and replacing the revoked rows, at most one grant
    per customer, channel and purpose is unrevoked, and from its last change on a contact is
    allowed exactly on that grant; otherwise it is refused, as revoked exactly when the
    consent once existed. *)
Theorem contact_follows_the_register (r : Register) (c : Uuid) (ch : ConsentChannel) (p : ConsentPurpose) (t : Date) :
  register_reachable r -> rg_now r <= t ->
  NoDup (triple <$> live (rg_grants r)) /\
  (forall g, decide_contact (rg_grants r) c ch p t = allowed g <-> g ∈ live (rg_grants r) /\ triple g = (c, ch, p)) /\
  (decide_contact (rg_grants r) c ch p t = refusal REVOKED <->
   (forall g, g ∈ live (rg_grants r) -> triple g <> (c, ch, p)) /\ exists g, g ∈ rg_grants r /\ triple g = (c, ch, p)).
Proof.
  intros Hwf%register_wf_reachable Ht. pose proof Hwf as [Hid Hl _]. split; [done|].
  assert (Hsup : forall g, supports (rg_grants r) c ch p t g <-> g ∈ live (rg_grants r) /\ triple g = (c, ch, p)).
  { intros g. rewrite supports_active, live_elem. split; [intros (H1 & H2 & H3)|intros ([H1 H3] & H2)]; pose proof (active_is_live r g t Hwf H1 Ht); naive_solver. }
  pose proof (decide_contact_spec (rg_grants r) c ch p t) as Hd. destruct (decide_contact _ _ _ _ _) as [g|reason].
  - destruct Hd as [[Hg Htr]%Hsup _]. split; [|split; [done|]].
    + intros g'. split; [intros [= <-]; done|]. intros [Hg' Htr']. f_equal. apply (NoDup_fmap_elem triple (live (rg_grants r))); [done..|congruence].
    + intros [H _]. by destruct (H g Hg).
  - destruct Hd as [Hn Hr]. split; [intros g; split; [done|]; intros H%Hsup; by destruct (Hn g)|]. split.
    + intros [= ->]. destruct Hr as (g & H1 & H2 & H3). split; [|by exists g]. intros x Hx Htr. apply (Hn x), Hsup. done.
    + intros [Hno (g & Hg & Htr)]. assert (is_Some (revokedAt g)) as Hrev.
      { destruct (revokedAt g) eqn:E; [done|]. exfalso. apply (Hno g); [by apply live_elem|done]. }
      f_equal. assert (Hw : exists g, g ∈ rg_grants r /\ triple g = (c, ch, p) /\ is_Some (revokedAt g)) by by exists g.
      destruct reason; unfold refusal_spec in Hr; naive_solver.
Qed.

Lemma contact_follows_the_register_witness : decide_contact sample_register "c1" sms dunning 300 = allowed (MkGrant "g2" "c1" sms dunning 150 None).
Proof.
  apply (contact_follows_the_register (MkRegister 300 sample_register) "c1" sms dunning 300 sample_register_reachable); [cbn; lia|].
  split; [|reflexivity]. apply live_elem. split; [cbn; set_solver|reflexivity].
Defined.

(** The subject-access trail does not depend on the order of the rows, and lists exactly the
    customer's grants, revocations and unrevoked grants. *)
Theorem consent_trail_exact (grants grants' : list ConsentGrant) (c : Uuid) :
  NoDup (grantId <$> grants) -> grants ≡ₚ grants' ->
  consentTrail grants c = consentTrail grants' c /\
  (forall g, g ∈ grants -> g_customerId g = c -> MkGrantedEntry (grantId g) (g_channel g) (g_purpose g) (grantedAt g) ∈ tr_granted (consentTrail grants c)) /\
  (forall g x, g ∈ grants -> g_customerId g = c -> revokedAt g = Some x ->
     MkRevokedEntry (grantId g) (g_channel g) (g_purpose g) x ∈ tr_revoked (consentTrail grants c)) /\
  (forall g, g ∈ tr_active (consentTrail grants c) <-> g ∈ grants /\ g_customerId g = c /\ revokedAt g = None) /\
  (length (tr_granted (consentTrail grants c)) = length (tr_revoked (consentTrail grants c)) + length (tr_active (consentTrail grants c)))%nat.
Proof.
  intros Hnd Hp. set (mine := List.filter (fun g => bool_decide (g_customerId g = c)) grants).
  assert (Hm : mine ≡ₚ List.filter (fun g => bool_decide (g_customerId g = c)) grants') by (unfold mine; by rewrite Hp).
  assert (Hmn : NoDup (grantId <$> mine)).
  { eapply sublist_NoDup; [exact Hnd|]. apply fmap_sublist. apply filter_sublist. }
  assert (Helem : forall g, g ∈ mine <-> g ∈ grants /\ g_customerId g = c) by (intros g; unfold mine; by rewrite elem_of_filter_bool, bool_decide_eq_true).
  assert (Hrk : (fun p => grantId p.1) <$> omap revokedRow mine `sublist_of` grantId <$> mine).
  { clearbody mine. clear. induction mine as [|g l IH]; [done|]. cbn. unfold revokedRow at 1. destruct (revokedAt g); cbn; [by apply sublist_skip|by apply sublist_cons]. }
  split; [|split; [|split; [|split]]].
  - unfold consentTrail. fold mine. pose proof (byTime_total grantedAt grantId). f_equal.
    + f_equal. apply (sort_by_unique _ grantId); [apply byTime_key|done|done].
    + f_equal. pose proof (byTime_total (T := ConsentGrant * Date) snd (fun p => grantId p.1)).
      apply (sort_by_unique _ (fun p : ConsentGrant * Date => grantId p.1)); [apply byTime_key|by eapply sublist_NoDup|by apply omap_Permutation].
    + apply (sort_by_unique _ grantId); [apply byTime_key| |by apply List_filter_perm].
      eapply sublist_NoDup; [exact Hmn|]. apply fmap_sublist, filter_sublist.
  - intros g Hg Hc. cbn. apply list_elem_of_fmap. exists g. split; [done|]. rewrite sort_by_perm. by apply Helem.
  - intros g x Hg Hc Hx. cbn. apply list_elem_of_fmap. exists (g, x). split; [done|]. rewrite sort_by_perm. apply list_elem_of_omap.
    exists g. split; [by apply Helem|]. unfold revokedRow. by rewrite Hx.
  - intros g. cbn. rewrite sort_by_perm. fold mine. rewrite elem_of_filter_bool, Helem, bool_decide_eq_true. naive_solver.
  - cbn. fold mine. rewrite !length_fmap, !sort_by_length. clearbody mine. clear. induction mine as [|g l IH]; [done|]. cbn. unfold revokedRow at 1.
    destruct (revokedAt g) eqn:E; cbn; lia.
Qed.

Lemma consent_trail_exact_witness : consentTrail sample_register "c1" = consentTrail (reverse sample_register) "c1".
Proof. apply (consent_trail_exact sample_register (reverse sample_register) "c1"); [vm_compute; repeat constructor; set_solver|symmetry; apply reverse_Permutation]. Defined.

(** A register that keeps the granted row beside its revocation, as the comment on
    [revokeConsent] asks for, still allows the contact. *)
Theorem revocation_kept_alongside_is_ignored (g g' : ConsentGrant) (clock : Clock) (t : Date) :
  revokeConsent g clock = Ok g' -> grantedAt g <= t ->
  exists x, decide_contact [g; g'] (g_customerId g) (g_channel g) (g_purpose g) t = allowed x.
Proof.
  unfold revokeConsent. intros [Hn [= <-]]%guard_Ok Ht. apply eq_None_not_Some in Hn.
  pose proof (decide_contact_spec [g; g <| revokedAt := Some (clock 0%nat) |>] (g_customerId g) (g_channel g) (g_purpose g) t) as Hd.
  destruct (decide_contact _ _ _ _ _) as [x|]; [by exists x|]. destruct Hd as [Hno _]. exfalso. apply (Hno g). split; [left|]. split; [done|]. rewrite Hn. done.
Qed.

Lemma revocation_kept_alongside_is_ignored_witness :
  exists x, decide_contact [MkGrant "g1" "c1" whatsapp dunning 100 None; MkGrant "g1" "c1" whatsapp dunning 100 (Some 200)] "c1" whatsapp dunning 300 = allowed x.
Proof. apply (revocation_kept_alongside_is_ignored (MkGrant "g1" "c1" whatsapp dunning 100 None) _ (fixed_clock 200)); [reflexivity|cbn; lia]. Defined.

(** Grants of the same instant: which one supports the contact depends on the order. *)
Theorem simultaneous_grants_depend_on_order :
  let g1 := MkGrant "g1" "c1" sms dunning 100 None in let g2 := MkGrant "g2" "c1" sms dunning 100 None in
  decide_contact [g1; g2] "c1" sms dunning 200 = allowed g2 /\ decide_contact [g2; g1] "c1" sms dunning 200 = allowed g1.
Proof. split; reflexivity. Qed.
