(* ===== verification/Etims.v ===== *)
(** * eTIMS invoice numbers

    src/domain/consent/etims.ts: formatting, reserving and validating invoice numbers with
    a check character.  The injected sequence source is the parameter of
    [reserveInvoiceNumbers]. *)

From stdpp Require Import prelude strings list.
From Stdlib Require Import ZArith Lia Ascii.
From S2P Require Import Prelude JsNumber JsString JsDate IsoDate.
Local Open Scope string_scope.
Local Open Scope list_scope.
Local Open Scope Z_scope.
Local Open Scope js_scope.

Definition SEQ_WIDTH : nat := 8.
Definition MAX_SEQUENCE : Z := 99999999.

(** The index in [CHECK_ALPHABET], '0' to '9' then 'A' to 'Z'. *)
Definition charValue (c : ascii) : result Z :=
  if is_digit c then Ok (charCode c - 48)
  else if in_range 65 90 c then Ok (charCode c - 55)
  else Err (DomainError "ETIMS_PAYLOAD_NOT_ALPHANUMERIC").

(** [CHECK_ALPHABET.charAt(n)] *)
Definition alphabetAt (n : Z) : ascii := charOf (if n <? 10 then 48 + n else 55 + n).

Definition residueStep (residue : Z) (c : ascii) : result Z := v ← charValue c; Ok ((residue * 36 + v) mod 97).

Definition mod97Residue (payload : chars) : result Z := foldM residueStep 0 payload.

Definition checkCharacter (payload : chars) : result ascii := r ← mod97Residue payload; Ok (alphabetAt (r mod 36)).

(** [KE<year><seq8>] *)
Definition etimsPayload (sequence year : Z) : chars :=
  explode "KE" ++ explode (show_Z year) ++ padStart SEQ_WIDTH "0"%char (explode (show_Z sequence)).

Definition formatInvoiceNumber (sequence issuedYear : number) : result string :=
  match integerValue sequence with
  | None => Err (DomainError "ETIMS_SEQUENCE_INVALID")
  | Some seq =>
      refuse (seq < 1 \/ seq > MAX_SEQUENCE) with "ETIMS_SEQUENCE_INVALID" ;;
      match integerValue issuedYear with
      | None => Err (DomainError "ETIMS_CLOCK_INVALID")
      | Some year =>
          refuse (year < 1000 \/ year > 9999) with "ETIMS_CLOCK_INVALID" ;;
          let payload := etimsPayload seq year in
          check ← checkCharacter payload;
          Ok (implode (payload ++ [check]))
      end
  end.

(** One turn of the loop over the reserved sequences. *)
Definition checkSequence (seen : list Z) (s : number) : result (list Z) :=
  match integerValue s with
  | None => Err (DomainError "ETIMS_SEQUENCE_INVALID")
  | Some z =>
      refuse (z < 1 \/ z > MAX_SEQUENCE) with "ETIMS_SEQUENCE_INVALID" ;;
      refuse (z ∈ seen) with "ETIMS_SEQUENCE_DUPLICATE" ;;
      Ok (seen ++ [z])
  end.

Definition reserveInvoiceNumbers (sequenceSource : number -> list number) (clock : Clock) (count : number) : result (list string) :=
  match integerValue count with
  | None => Err (DomainError "ETIMS_COUNT_INVALID")
  | Some n =>
      refuse (n < 1) with "ETIMS_COUNT_INVALID" ;;
      let year := getUTCFullYear (clock 0%nat) in
      let sequences := sequenceSource count in
      refuse (Z.of_nat (length sequences) <> n) with "ETIMS_SEQUENCE_SOURCE_MISMATCH" ;;
      _ ← foldM checkSequence [] sequences;
      traverse (fun s => formatInvoiceNumber s (num year)) sequences
  end.

(** ** Validation *)

Inductive InvoiceNumberParse :=
| valid_number (year sequence : Z) (checkChar : ascii)
| malformed
| checksum_mismatch.

Definition isCheckChar (c : ascii) : bool := is_digit c || in_range 65 90 c.

(** [/^KE(\d{4})(\d{8})([0-9A-Z])$/] *)
Definition ETIMS_SHAPE (l : chars) : option (chars * chars * ascii) :=
  match l with
  | k :: e :: r =>
      if bool_decide (k = "K"%char) && bool_decide (e = "E"%char) && (length r =? 13)%nat && forallb is_digit (take 12 r)
      then match drop 12 r with [c] => if isCheckChar c then Some (take 4 r, take 8 (drop 4 r), c) else None | _ => None end
      else None
  | _ => None
  end.

Definition validateInvoiceNumber (raw : string) : result InvoiceNumberParse :=
  match ETIMS_SHAPE (explode raw) with
  | None => Ok malformed
  | Some (year, sequence, checkChar) =>
      expected ← checkCharacter (explode "KE" ++ year ++ sequence);
      if decide (checkChar <> expected) then Ok checksum_mismatch
      else Ok (valid_number (read_dec year) (read_dec sequence) checkChar)
  end.

(** ** Lemmas *)

Lemma charValue_digit c : is_digit c = true -> charValue c = Ok (digit_value c).
Proof. intros H. unfold charValue, digit_value. by rewrite H. Qed.

Lemma digit_value_range c : is_digit c = true -> 0 <= digit_value c <= 9.
Proof. unfold is_digit, in_range, digit_value. lia. Qed.

Lemma residueStep_digit r c : is_digit c = true -> residueStep r c = Ok ((r * 36 + digit_value c) mod 97).
Proof. intros H. unfold residueStep. by rewrite charValue_digit. Qed.

Lemma residue_loop l : Forall (fun c => is_digit c = true) l -> forall r, exists r', foldM residueStep r l = Ok r' /\ (0 <= r < 97 -> 0 <= r' < 97).
Proof.
  induction 1 as [|c l Hc _ IH]; intros r; cbn [foldM]; [by exists r|]. rewrite residueStep_digit by done. cbn [mbind result_bind].
  destruct (IH ((r * 36 + digit_value c) mod 97)) as (r' & Hr' & Hb). exists r'. split; [done|]. intros _. apply Hb. by apply Z.mod_pos_bound.
Qed.

Lemma residue_defined ds : Forall (fun c => is_digit c = true) ds -> exists r, mod97Residue (explode "KE" ++ ds) = Ok r /\ 0 <= r < 97.
Proof.
  intros Hd. unfold mod97Residue. rewrite foldM_app. destruct (residue_loop ds Hd 55) as (r & Hr & Hb).
  exists r. split; [|apply Hb; lia]. transitivity (foldM residueStep 55 ds); [reflexivity|done].
Qed.

Lemma alphabetAt_check n : 0 <= n < 36 -> isCheckChar (alphabetAt n) = true.
Proof.
  intros Hn. assert (forallb (fun n => isCheckChar (alphabetAt n)) (seqZ 0 36) = true) as H by (vm_compute; reflexivity).
  apply (forallb_seqZ _ _ _ _ H). lia.
Qed.

Lemma alphabetAt_inj n m : 0 <= n < 36 -> 0 <= m < 36 -> alphabetAt n = alphabetAt m -> n = m.
Proof.
  intros Hn Hm E. apply (f_equal charCode) in E. unfold alphabetAt in E.
  destruct (Z.ltb_spec n 10), (Z.ltb_spec m 10); rewrite !charCode_charOf in E; lia.
Qed.

(** The shape accepts exactly a prefix, twelve digits and one check character. *)
Lemma ETIMS_SHAPE_digits Y S c : length Y = 4%nat -> length S = 8%nat -> Forall (fun c => is_digit c = true) (Y ++ S) -> isCheckChar c = true ->
  ETIMS_SHAPE (explode "KE" ++ (Y ++ S) ++ [c]) = Some (Y, S, c).
Proof.
  intros HY HS Hd Hc. unfold ETIMS_SHAPE. cbn [explode String.list_ascii_of_string app].
  assert (length (Y ++ S) = 12%nat) as Hl by (rewrite length_app; lia).
  rewrite !bool_decide_true by done. rewrite length_app, Hl. cbn [andb length Nat.add Nat.eqb].
  rewrite <- Hl, take_app_length, drop_app_length, (proj2 (forallb_Forall _ _)) by done. cbn. rewrite Hc.
  rewrite <- app_assoc, take_app_length', drop_app_length', take_app_length' by done. done.
Qed.

Lemma ETIMS_SHAPE_Some l Y S c : ETIMS_SHAPE l = Some (Y, S, c) ->
  l = explode "KE" ++ (Y ++ S) ++ [c] /\ length Y = 4%nat /\ length S = 8%nat /\ Forall (fun c => is_digit c = true) (Y ++ S) /\ isCheckChar c = true.
Proof.
  unfold ETIMS_SHAPE. destruct l as [|k [|e r]]; try done. destruct (_ && _) eqn:Eb; [|done].
  apply andb_true_iff in Eb as [[[Hk%bool_decide_eq_true He%bool_decide_eq_true]%andb_true_iff Hl%Nat.eqb_eq]%andb_true_iff Hd%forallb_Forall].
  destruct (drop 12 r) as [|x [|]] eqn:Ed; try done. destruct (isCheckChar x) eqn:Ex; [|done]. intros [= <- <- <-].
  assert (take 4 r ++ take 8 (drop 4 r) = take 12 r) as E by (apply (take_take_drop r 4 8)).
  rewrite E. split; [|rewrite !length_take, length_drop; repeat split; [lia|lia|done|done]].
  subst k e. cbn. do 2 f_equal. by rewrite <- Ed, take_drop.
Qed.

Lemma explode_show_Z z : 0 <= z -> explode (show_Z z) = show_base 10 z.
Proof. intros H. unfold show_Z. destruct (Z.ltb_spec z 0); [lia|]. unfold show_dec. apply explode_implode. Qed.

Lemma etims_show_digits z : 0 <= z -> read_dec (show_base 10 z) = z /\ Forall (fun c => is_digit c = true) (show_base 10 z).
Proof.
  intros H. split; [by apply read_show_dec|]. destruct (digits_of_spec 10 z) as (_ & Hd & _); [lia..|].
  apply Forall_fmap. eapply Forall_impl; [exact Hd|]. intros d. apply is_digit_digit_char.
Qed.

Lemma year_digits y : 1000 <= y <= 9999 -> digits_as 4 y (explode (show_Z y)).
Proof.
  intros Hy. rewrite explode_show_Z by lia. destruct (etims_show_digits y) as [Hv Hd]; [lia|]. constructor; [|done|done].
  destruct (digits_of_spec 10 y) as (_ & _ & _ & Hlen & _); [lia..|]. specialize (Hlen 3%nat ltac:(cbn; lia)).
  pose proof (read_dec_bound _ Hd) as Hb. rewrite Hv in Hb. unfold show_base in *. rewrite length_fmap in *.
  destruct (length (digits_of 10 y)) as [|[|[|[|[|n]]]]]; cbn in Hb; lia.
Qed.

Lemma sequence_digits s : 1 <= s <= MAX_SEQUENCE -> digits_as 8 s (padStart SEQ_WIDTH "0" (explode (show_Z s))).
Proof.
  intros Hs. unfold MAX_SEQUENCE in Hs. rewrite explode_show_Z by lia. unfold SEQ_WIDTH.
  pose proof (pad_digits 7 s ltac:(cbn; lia)) as H. unfold pad in H. by rewrite explode_implode in H.
Qed.

Lemma format_Ok seq year raw : formatInvoiceNumber seq year = Ok raw ->
  exists s y r, integerValue seq = Some s /\ integerValue year = Some y /\ 1 <= s <= MAX_SEQUENCE /\ 1000 <= y <= 9999 /\
    mod97Residue (etimsPayload s y) = Ok r /\ 0 <= r < 97 /\ raw = implode (etimsPayload s y ++ [alphabetAt (r mod 36)]).
Proof.
  unfold formatInvoiceNumber. destruct (integerValue seq) as [s|]; [|done]. intros [Hs H]%guard_Ok. destruct (integerValue year) as [y|]; [|done].
  apply guard_Ok in H as [Hy H]. destruct (residue_defined (explode (show_Z y) ++ padStart SEQ_WIDTH "0" (explode (show_Z s)))) as (r & Hr & Hb).
  { apply Forall_app. split; [apply (year_digits y); lia|apply (sequence_digits s); lia]. }
  exists s, y, r. change (explode "KE" ++ _ ++ _) with (etimsPayload s y) in Hr. unfold checkCharacter in H. rewrite Hr in H. cbn [mbind result_bind] in H. injection H as <-.
  split; [done|]. split; [done|]. split; [lia|]. split; [lia|]. split; [done|]. split; done.
Qed.

(** A number with any check character: what validation makes of it. *)
Lemma validate_payload Y S c r : length Y = 4%nat -> length S = 8%nat -> Forall (fun c => is_digit c = true) (Y ++ S) -> isCheckChar c = true ->
  mod97Residue (explode "KE" ++ Y ++ S) = Ok r ->
  validateInvoiceNumber (implode (explode "KE" ++ (Y ++ S) ++ [c])) =
    if decide (c = alphabetAt (r mod 36)) then Ok (valid_number (read_dec Y) (read_dec S) c) else Ok checksum_mismatch.
Proof.
  intros HY HS Hd Hc Hr. unfold validateInvoiceNumber. rewrite explode_implode, ETIMS_SHAPE_digits by done.
  unfold checkCharacter. rewrite Hr. cbn [mbind result_bind]. destruct (decide (c = alphabetAt (r mod 36))) as [E|E].
  - rewrite decide_False by naive_solver. done.
  - rewrite decide_True by done. done.
Qed.

Lemma roundtrip seq year raw : formatInvoiceNumber seq year = Ok raw ->
  exists s y c, integerValue seq = Some s /\ integerValue year = Some y /\ validateInvoiceNumber raw = Ok (valid_number y s c).
Proof.
  intros (s & y & r & Hs & Hy & Bs & By & Hr & Br & ->)%format_Ok. exists s, y, (alphabetAt (r mod 36)). split; [done|]. split; [done|].
  destruct (year_digits y By) as [LY VY DY]. destruct (sequence_digits s Bs) as [LS VS DS].
  assert (0 <= r mod 36 < 36) by by apply Z.mod_pos_bound.
  unfold etimsPayload in *. rewrite <- (app_assoc (explode "KE")). rewrite (validate_payload _ _ _ r); try done.
  - rewrite decide_True by done. by rewrite VY, VS.
  - by apply Forall_app.
  - by apply alphabetAt_check.
Qed.

Lemma checkSequence_loop xs : forall seen seen', NoDup seen -> foldM checkSequence seen xs = Ok seen' ->
  NoDup seen' /\ exists zs, Forall2 (fun x z => integerValue x = Some z) xs zs /\ seen' = seen ++ zs.
Proof.
  induction xs as [|x xs IH]; intros seen seen' Hnd; cbn [foldM]; [intros [= <-]; split; [done|]; exists []; by rewrite app_nil_r|].
  intros (s1 & H1 & H)%bind_Ok. unfold checkSequence in H1. destruct (integerValue x) as [z|] eqn:Ex; [|done].
  apply guard_Ok in H1 as [_ [Hz [= <-]]%guard_Ok]. apply IH in H as [Hnd' (zs & Hzs & ->)]; [|by apply NoDup_snoc_2].
  split; [done|]. exists (z :: zs). split; [by constructor|]. by rewrite <- app_assoc.
Qed.

(** ** Theorems *)

(** C34: Every number that is formatted is validated, with the year and the sequence it was
    made from. *)
Theorem invoice_number_roundtrip (seq year : number) (raw : string) : formatInvoiceNumber seq year = Ok raw ->
  exists s y c, integerValue seq = Some s /\ integerValue year = Some y /\ validateInvoiceNumber raw = Ok (valid_number y s c).
Proof. apply roundtrip. Qed.

Lemma invoice_number_roundtrip_witness : exists s y c, integerValue (num 42) = Some s /\ integerValue (num 2026) = Some y /\
  validateInvoiceNumber "KE20260000004200" = Ok malformed /\ validateInvoiceNumber "KE202600000042C" = Ok (valid_number y s c).
Proof.
  destruct (invoice_number_roundtrip (num 42) (num 2026) "KE202600000042C") as (s & y & c & H1 & H2 & H3); [vm_compute; reflexivity|].
  exists s, y, c. split; [exact H1|]. split; [exact H2|]. split; [vm_compute; reflexivity|exact H3].
Defined.

(** A reservation hands out exactly as many numbers as asked for, all different, each valid
    and each carrying its own sequence. *)
Theorem reservation_is_sound (sequenceSource : number -> list number) (clock : Clock) (count : number) (numbers : list string) :
  reserveInvoiceNumbers sequenceSource clock count = Ok numbers ->
  integerValue count = Some (Z.of_nat (length numbers)) /\ NoDup numbers /\
  Forall2 (fun s raw => exists z y c, integerValue s = Some z /\ validateInvoiceNumber raw = Ok (valid_number y z c)) (sequenceSource count) numbers.
Proof.
  unfold reserveInvoiceNumbers. destruct (integerValue count) as [n|] eqn:En; [|done].
  intros [_ [Hlen (seen & Hseen & Htr%traverse_Forall2)%bind_Ok]%guard_Ok]%guard_Ok. apply dec_stable in Hlen.
  apply checkSequence_loop in Hseen as [Hnd (zs & Hzs & ->)]; [|constructor]. cbn in Hnd.
  assert (Hv : Forall2 (fun s raw => exists z y c, integerValue s = Some z /\ validateInvoiceNumber raw = Ok (valid_number y z c)) (sequenceSource count) numbers).
  { eapply Forall2_impl; [exact Htr|]. intros s raw (z & y & c & H1 & _ & H3)%roundtrip. by exists z, y, c. }
  split; [rewrite <- (Forall2_length _ _ _ Htr); by rewrite Hlen|]. split; [|done].
  clear Htr Hlen. generalize dependent (sequenceSource count). intros xs Hzs Hv. revert zs Hnd Hzs.
  induction Hv as [|x raw xs raws (z & y & c & Hz & Hraw) Hv IH]; intros zs Hnd Hzs; [constructor|].
  inversion Hzs as [|? z' ? zs' Hz' Hzs']; subst. apply NoDup_cons in Hnd as [Hnot Hnd]. rewrite Hz in Hz'. injection Hz' as <-.
  constructor; [|by eapply IH]. intros Hin. apply Hnot. apply list_elem_of_lookup in Hin as [i Hi].
  destruct (Forall2_lookup_r _ _ _ _ _ Hv Hi) as (x' & Hx' & z' & y' & c' & Hz' & Hraw'). rewrite Hraw in Hraw'. injection Hraw' as <- <- <-.
  destruct (Forall2_lookup_l _ _ _ _ _ Hzs' Hx') as (z'' & Hz'' & E). rewrite Hz' in E. injection E as <-. by eapply list_elem_of_lookup_2.
Qed.

Lemma reservation_is_sound_witness :
  NoDup ["KE202600000042C"; "KE202600000043D"] .
Proof.
  apply (reservation_is_sound (fun _ => [num 42; num 43]) (fixed_clock 1767225600000) (num 2) ["KE202600000042C"; "KE202600000043D"]).
  vm_compute. reflexivity.
Defined.

(** ** What the check character catches *)

Lemma residue_snoc l c r : is_digit c = true -> mod97Residue l = Ok r -> mod97Residue (l ++ [c]) = Ok ((r * 36 + digit_value c) mod 97).
Proof. intros Hc Hr. unfold mod97Residue in *. rewrite foldM_app, Hr. cbn [mbind result_bind foldM]. by rewrite residueStep_digit. Qed.

Lemma last_digit_table : forallb (fun r => forallb (fun a => forallb (fun b =>
  (a =? b) || negb (((r * 36 + a) mod 97) mod 36 =? ((r * 36 + b) mod 97) mod 36)) (seqZ 0 10)) (seqZ 0 10)) (seqZ 0 97) = true.
Proof. vm_compute. reflexivity. Qed.

(** A wrong last digit of the sequence is always caught. *)
Theorem last_digit_error_is_caught (Y S : chars) (a b : ascii) (c : ascii) (y s : Z) :
  length Y = 4%nat -> length S = 7%nat -> Forall (fun c => is_digit c = true) (Y ++ S) -> is_digit a = true -> is_digit b = true -> a <> b ->
  validateInvoiceNumber (implode (explode "KE" ++ (Y ++ S ++ [a]) ++ [c])) = Ok (valid_number y s c) ->
  validateInvoiceNumber (implode (explode "KE" ++ (Y ++ S ++ [b]) ++ [c])) = Ok checksum_mismatch.
Proof.
  intros HY HS Hd Ha Hb Hne Hv. destruct (residue_defined (Y ++ S) Hd) as (r & Hr & Br).
  pose proof (residue_snoc _ a _ Ha Hr) as Hra. pose proof (residue_snoc _ b _ Hb Hr) as Hrb. rewrite <- !app_assoc in Hra, Hrb.
  assert (isCheckChar c = true) as Hc.
  { unfold validateInvoiceNumber in Hv. rewrite explode_implode in Hv. destruct (ETIMS_SHAPE _) as [[[Y' S'] c']|] eqn:E; [|done].
    apply ETIMS_SHAPE_Some in E as (E & _ & _ & _ & Hc'). rewrite !app_assoc in E. apply app_inj_tail in E as [_ ->]. done. }
  assert (forall x, is_digit x = true -> Forall (fun c => is_digit c = true) (Y ++ S ++ [x])) as Hdx.
  { intros x Hx. rewrite app_assoc. by apply Forall_snoc_2. }
  assert (forall x, length (S ++ [x]) = 8%nat) as H8 by (intros x; rewrite length_app, HS; done).
  pose proof (validate_payload Y (S ++ [a]) c _ HY (H8 a) (Hdx a Ha) Hc Hra) as Va.
  pose proof (validate_payload Y (S ++ [b]) c _ HY (H8 b) (Hdx b Hb) Hc Hrb) as Vb.
  rewrite Va in Hv. rewrite Vb. destruct (decide (c = alphabetAt (_ mod 97 mod 36))) as [Ec|]; [|done].
  rewrite decide_False; [done|]. rewrite Ec. clear Va Vb.
  intros E%alphabetAt_inj; [|by apply Z.mod_pos_bound..].
  pose proof (digit_value_range a Ha). pose proof (digit_value_range b Hb).
  pose proof last_digit_table as Ht. pose proof (forallb_seqZ _ _ _ r Ht ltac:(lia)) as Ht1. pose proof (forallb_seqZ _ _ _ (digit_value a) Ht1 ltac:(lia)) as Ht2.
  pose proof (forallb_seqZ _ _ _ (digit_value b) Ht2 ltac:(lia)) as Ht3. cbn beta in Ht3. rewrite E, Z.eqb_refl, orb_false_r in Ht3. apply Z.eqb_eq in Ht3.
  apply Hne. unfold digit_value, charCode in Ht3. rewrite <- (ascii_N_embedding a), <- (ascii_N_embedding b). f_equal. lia.
Qed.

Lemma last_digit_error_is_caught_witness : validateInvoiceNumber "KE202600000048C" = Ok checksum_mismatch.
Proof.
  apply (last_digit_error_is_caught (explode "2026") (explode "0000004") "2" "8" "C" 2026 42); try reflexivity; [|discriminate].
  apply forallb_Forall. reflexivity.
Defined.

(** The tens digit of the sequence weighs 36 modulo 97 and the check character is the residue
    modulo 36: raising that digit by one is not caught whenever the residue is below 61. *)
Theorem tens_digit_error_is_missed (l : chars) (a a' b : ascii) (r : Z) :
  is_digit a = true -> is_digit a' = true -> is_digit b = true -> digit_value a' = digit_value a + 1 ->
  mod97Residue (l ++ [a; b]) = Ok r -> r < 61 -> checkCharacter (l ++ [a'; b]) = checkCharacter (l ++ [a; b]).
Proof.
  intros Ha Ha' Hb Hsucc Hr Hlt. unfold checkCharacter. rewrite Hr. cbn [mbind result_bind].
  assert (exists q, mod97Residue l = Ok q) as [q Hq].
  { unfold mod97Residue in *. rewrite foldM_app in Hr. apply bind_Ok in Hr as (q & Hq & _). by exists q. }
  pose proof (residue_snoc _ b _ Hb (residue_snoc _ a _ Ha Hq)) as H1. pose proof (residue_snoc _ b _ Hb (residue_snoc _ a' _ Ha' Hq)) as H2.
  rewrite <- app_assoc in H1, H2. cbn [app] in H1, H2. rewrite Hr in H1. injection H1 as H1. rewrite H2. cbn [mbind result_bind]. do 2 f_equal.
  assert (((q * 36 + digit_value a') mod 97 * 36 + digit_value b) mod 97 = r + 36) as ->.
  { rewrite H1, Hsucc. clear -Hlt H1. Z.to_euclidean_division_equations. lia. }
  rewrite <- (Z.add_mod_idemp_r r 36 36), Z_mod_same_full, Z.add_0_r by lia. done.
Qed.

Lemma tens_digit_error_is_missed_witness :
  validateInvoiceNumber "KE202600000042C" = Ok (valid_number 2026 42 "C") /\ validateInvoiceNumber "KE202600000052C" = Ok (valid_number 2026 52 "C") /\
  checkCharacter (explode "KE2026000000" ++ ["5"; "2"]%char) = checkCharacter (explode "KE2026000000" ++ ["4"; "2"]%char).
Proof.
  split; [vm_compute; reflexivity|]. split; [vm_compute; reflexivity|].
  apply (tens_digit_error_is_missed (explode "KE2026000000") "4" "5" "2" 48); reflexivity.
Defined.

(** The number the module gives as its example does not validate. *)
Theorem documented_example_is_refused : validateInvoiceNumber "KE2026000000427" = Ok checksum_mismatch.
Proof. vm_compute. reflexivity. Qed.
