(* ===== verification/PolicyRules.v ===== *)
(** * Policy requests and rules

    src/domain/policy/request.ts and rules.ts: the structured action request with its
    validation, the condition language of the rules, the validation of rules, grants
    and rule sets, and the default rule set.

    Fields the source validates at run time are strings, numbers or dynamic values
    here, so that every refusal can happen.  A missing grant key is [None]; keys
    outside the vocabulary are listed in [dc_otherKeys]; the explanations of the default
    rules are transcribed without their typographic dashes.  [deepFreeze] and the copies
    [createRuleSet] makes of its input have no counterpart among immutable values. *)

From stdpp Require Import prelude strings list sorting.
From Stdlib Require Import ZArith Lia SpecFloat.
From S2P Require Import Prelude JsNumber JsString JsDate JsJson Money Events.
Local Open Scope string_scope.
Local Open Scope list_scope.
Local Open Scope Z_scope.
Local Open Scope js_scope.

(** ** Vocabularies *)

Definition ACTOR_TYPES : list string := ["human"; "ai_agent"; "integration"].
Definition ACTION_TYPES : list string :=
  ["send_reminder"; "send_whatsapp"; "send_sms"; "offer_payment_plan"; "issue_payment_link"; "escalate"; "write_off";
   "refund"; "collect_now_stk_push"].
Definition CONTACT_ACTION_TYPES : list string := ["send_reminder"; "send_whatsapp"; "send_sms"].
Definition AMOUNT_REQUIRED_ACTION_TYPES : list string := ["write_off"; "refund"].
Definition RISK_CLASSES : list string := ["low"; "elevated"; "high"].
Definition CHANNELS : list string := ["email"; "sms"; "whatsapp"].

(** [IMPLIED_CHANNEL[actionType]]: own members, then the prototype's. *)
Definition IMPLIED_CHANNEL (actionType : string) : jvalue :=
  if decide (actionType = "send_whatsapp") then JString "whatsapp"
  else if decide (actionType = "send_sms") then JString "sms"
  else if decide (actionType ∈ inherited_methods) then JFunction
  else if decide (actionType = "__proto__") then JInstance []
  else JUndefined.

(** ** The request *)

Record PolicyActor := MkPolicyActor { ac_type : string; ac_actorId : string }.

Record ActionRequest := MkActionRequest {
  rq_orgId : Uuid;
  rq_customerId : Uuid;
  rq_receivableId : option Uuid;
  rq_caseId : option Uuid;
  rq_actor : PolicyActor;
  rq_actionType : string;
  rq_amountMinor : option number;
  rq_currency : option string;
  rq_riskClass : string;
  rq_channel : option string;
  rq_consentPresent : jvalue;
  rq_disputeOpen : jvalue;
  rq_promisePending : jvalue;
  rq_autonomous : jvalue;
}.

Definition effectiveChannel (r : ActionRequest) : jvalue :=
  match rq_channel r with
  | Some c => JString c
  | None => match IMPLIED_CHANNEL (rq_actionType r) with JUndefined | JNull => JNull | v => v end
  end.

Definition isNonBlank (value : string) : bool := negb (bool_decide (trim value = "")).

Definition isBoolean (v : jvalue) : bool := match v with JBool _ => true | _ => false end.

(** [typeof x !== 'number' || !Number.isSafeInteger(x) || x < low] *)
Definition badInteger (x : number) (low : Z) : bool :=
  match safeInteger x with Some z => z <? low | None => true end.

Definition assertActionRequest (r : ActionRequest) : result unit :=
  refuse (isNonBlank (rq_orgId r) = false) with "POLICY_ORG_REQUIRED" ;;
  refuse (isNonBlank (rq_customerId r) = false) with "POLICY_CUSTOMER_REQUIRED" ;;
  refuse (from_option isNonBlank true (rq_receivableId r) = false \/ from_option isNonBlank true (rq_caseId r) = false)
    with "POLICY_SUBJECT_INVALID" ;;
  refuse (ac_type (rq_actor r) ∉ ACTOR_TYPES) with "POLICY_ACTOR_TYPE_INVALID" ;;
  refuse (isNonBlank (ac_actorId (rq_actor r)) = false) with "POLICY_ACTOR_REQUIRED" ;;
  refuse (ac_type (rq_actor r) = "human" /\ strict_equal (rq_autonomous r) (JBool true) = true) with "POLICY_AUTONOMY_MISMATCH" ;;
  _ ← match rq_amountMinor r, rq_currency r with
      | None, None => Ok tt
      | Some amount, Some currency =>
          refuse (badInteger amount 0 = true) with "POLICY_AMOUNT_INVALID" ;;
          refuse (currency_of_string currency = None) with "POLICY_CURRENCY_INVALID" ;;
          Ok tt
      | _, _ => Err (DomainError "POLICY_AMOUNT_INVALID")
      end;
  refuse (rq_riskClass r ∉ RISK_CLASSES) with "POLICY_RISK_CLASS_INVALID" ;;
  refuse (from_option (fun c => bool_decide (c ∈ CHANNELS)) true (rq_channel r) = false) with "POLICY_CHANNEL_INVALID" ;;
  refuse (forallb isBoolean [rq_consentPresent r; rq_disputeOpen r; rq_promisePending r; rq_autonomous r] = false)
    with "POLICY_REQUEST_FLAG_INVALID" ;;
  Ok tt.

(** ** Conditions *)

Definition DECISIONS : list string := ["allow"; "deny"; "requires_approval"].
Definition POLICY_FIELDS : list string :=
  ["actionType"; "actorType"; "riskClass"; "channel"; "amountMinor"; "minuteOfDayUtc"; "dayOfWeekUtc"; "consentPresent";
   "disputeOpen"; "promisePending"; "autonomous"].
Definition POLICY_OPERATORS : list string :=
  ["eq"; "ne"; "in"; "not_in"; "gt"; "gte"; "lt"; "lte"; "is_true"; "is_false"; "present"; "absent"].
Definition ORDERING_OPS : list string := ["gt"; "gte"; "lt"; "lte"].
Definition VALUE_OPS : list string := ["eq"; "ne"; "in"; "not_in"; "gt"; "gte"; "lt"; "lte"].
Definition NULLARY_OPS : list string := ["is_true"; "is_false"; "present"; "absent"].
Definition BOOLEAN_ONLY_OPS : list string := ["is_true"; "is_false"].

(** [pc_value] is [JUndefined] when the condition has no value. *)
Record PolicyCondition := MkCondition { pc_field : string; pc_op : string; pc_value : jvalue }.

Inductive FieldKind :=
| kind_enum (enumValues : list string)
| kind_numeric (low high : Z)
| kind_boolean.

Record FieldSpec := MkFieldSpec { fs_kind : FieldKind; fs_nullable : bool }.

Definition FIELD_SPECS (field : string) : FieldSpec :=
  if decide (field = "actionType") then MkFieldSpec (kind_enum ACTION_TYPES) false
  else if decide (field = "actorType") then MkFieldSpec (kind_enum ACTOR_TYPES) false
  else if decide (field = "riskClass") then MkFieldSpec (kind_enum RISK_CLASSES) false
  else if decide (field = "channel") then MkFieldSpec (kind_enum CHANNELS) true
  else if decide (field = "amountMinor") then MkFieldSpec (kind_numeric 0 MAX_SAFE_INTEGER) true
  else if decide (field = "minuteOfDayUtc") then MkFieldSpec (kind_numeric 0 1439) false
  else if decide (field = "dayOfWeekUtc") then MkFieldSpec (kind_numeric 0 6) false
  else MkFieldSpec kind_boolean false.

Definition getUTCHours (t : Date) : Z := timeInDay t / 3600000.
Definition getUTCMinutes (t : Date) : Z := timeInDay t / 60000 mod 60.
Definition getUTCDay (t : Date) : Z := (dayOf t + 4) mod 7.

(** The first [switch] of [conditionMatches]: the fact a field names. *)
Definition actualOf (field : string) (r : ActionRequest) (now : Date) : jvalue :=
  if decide (field = "actionType") then JString (rq_actionType r)
  else if decide (field = "actorType") then JString (ac_type (rq_actor r))
  else if decide (field = "riskClass") then JString (rq_riskClass r)
  else if decide (field = "channel") then effectiveChannel r
  else if decide (field = "amountMinor") then from_option JNumber JNull (rq_amountMinor r)
  else if decide (field = "minuteOfDayUtc") then JNumber (num (getUTCHours now * 60 + getUTCMinutes now))
  else if decide (field = "dayOfWeekUtc") then JNumber (num (getUTCDay now))
  else if decide (field = "consentPresent") then rq_consentPresent r
  else if decide (field = "disputeOpen") then rq_disputeOpen r
  else if decide (field = "promisePending") then rq_promisePending r
  else if decide (field = "autonomous") then rq_autonomous r
  else JUndefined.

(** [Array.isArray(value) && value.includes(actual)] and its negated form. *)
Definition includesValue (value actual : jvalue) (wanted : bool) : bool :=
  match value with
  | JArray items => Bool.eqb (existsb (fun x => same_value_zero x actual) items) wanted
  | _ => false
  end.

Definition ordered (op : string) (c : option comparison) : bool :=
  match c with
  | Some Gt => bool_decide (op = "gt" \/ op = "gte")
  | Some Lt => bool_decide (op = "lt" \/ op = "lte")
  | Some Eq => bool_decide (op = "gte" \/ op = "lte")
  | None => false
  end.

Definition conditionMatches (condition : PolicyCondition) (r : ActionRequest) (now : Date) : bool :=
  let actual := actualOf (pc_field condition) r now in
  let op := pc_op condition in
  let value := pc_value condition in
  match actual with
  | JNull | JUndefined => bool_decide (op = "absent")
  | _ =>
      if decide (op = "is_true") then strict_equal actual (JBool true)
      else if decide (op = "is_false") then strict_equal actual (JBool false)
      else if decide (op = "present") then true
      else if decide (op = "absent") then false
      else if decide (op = "eq") then strict_equal actual value
      else if decide (op = "ne") then negb (strict_equal actual value)
      else if decide (op = "in") then includesValue value actual true
      else if decide (op = "not_in") then includesValue value actual false
      else if decide (op ∈ ORDERING_OPS) then
        match actual, value with JNumber a, JNumber v => ordered op (ncompare a v) | _, _ => false end
      else false
  end.

(** ** Validation of conditions *)

Definition assertValue (spec : FieldSpec) (v : jvalue) : result unit :=
  let invalid := Err (DomainError "POLICY_RULE_CONDITION_VALUE_INVALID") in
  match fs_kind spec with
  | kind_boolean => if isBoolean v then Ok tt else invalid
  | kind_numeric low high =>
      match v with
      | JNumber x =>
          if negb (isFinite x) || bool_decide (ncompare x (num low) = Some Lt) || bool_decide (ncompare x (num high) = Some Gt)
          then invalid else Ok tt
      | _ => invalid
      end
  | kind_enum values =>
      match v with JString s => if decide (s ∈ values) then Ok tt else invalid | _ => invalid end
  end.

Definition assertValidCondition (c : PolicyCondition) : result unit :=
  refuse (pc_field c ∉ POLICY_FIELDS) with "POLICY_RULE_FIELD_UNKNOWN" ;;
  refuse (pc_op c ∉ POLICY_OPERATORS) with "POLICY_RULE_OPERATOR_INVALID" ;;
  let spec := FIELD_SPECS (pc_field c) in
  let is_numeric := match fs_kind spec with kind_numeric _ _ => true | _ => false end in
  let is_bool := match fs_kind spec with kind_boolean => true | _ => false end in
  refuse (pc_op c ∈ BOOLEAN_ONLY_OPS /\ is_bool = false) with "POLICY_RULE_OPERATOR_INVALID" ;;
  if decide (pc_op c ∈ NULLARY_OPS) then
    refuse ((pc_op c = "present" \/ pc_op c = "absent") /\ fs_nullable spec = false) with "POLICY_RULE_OPERATOR_INVALID" ;;
    match pc_value c with JUndefined => Ok tt | _ => Err (DomainError "POLICY_RULE_CONDITION_VALUE_FORBIDDEN") end
  else
    refuse (pc_op c ∉ VALUE_OPS) with "POLICY_RULE_OPERATOR_INVALID" ;;
    match pc_value c with
    | JUndefined => Err (DomainError "POLICY_RULE_CONDITION_VALUE_REQUIRED")
    | value =>
        refuse (pc_op c ∈ ORDERING_OPS /\ is_numeric = false) with "POLICY_RULE_OPERATOR_INVALID" ;;
        if decide (pc_op c = "in" \/ pc_op c = "not_in") then
          match value with
          | JArray (v :: items) => _ ← traverse (assertValue spec) (v :: items); Ok tt
          | _ => Err (DomainError "POLICY_RULE_CONDITION_VALUE_INVALID")
          end
        else assertValue spec value
    end.

(** ** Grants, rules and rule sets *)

Record DecisionConditions := MkGrants {
  dc_maxAmountMinor : option number;
  dc_allowedChannels : option (list string);
  dc_expiresAt : option string;
  dc_otherKeys : list string;
}.

Record PolicyRule := MkRule {
  pr_id : string;
  pr_priority : number;
  pr_actionType : string;
  pr_decision : string;
  pr_conditions : list PolicyCondition;
  pr_reasonCode : string;
  pr_explanation : string;
  pr_grants : option DecisionConditions;
}.

Record PolicyRuleSet := MkRuleSet {
  rs_orgId : Uuid;
  rs_version : number;
  rs_createdAt : string;
  rs_rules : list PolicyRule;
}.

(** The sign of [a.priority - b.priority]; a NaN difference leaves the pair in place. *)
Definition priority_cmp (a b : PolicyRule) : Z :=
  match ncompare (pr_priority a) (pr_priority b) with Some Lt => -1 | Some Gt => 1 | _ => 0 end.

Section parse.
  Context (Date_parse : string -> option Z).

Definition assertValidGrant (g : DecisionConditions) : result unit :=
  refuse (dc_otherKeys g <> []) with "POLICY_RULE_GRANT_INVALID" ;;
  refuse (dc_maxAmountMinor g = None /\ dc_allowedChannels g = None /\ dc_expiresAt g = None) with "POLICY_RULE_GRANT_INVALID" ;;
  refuse (from_option (fun x => badInteger x 0) false (dc_maxAmountMinor g) = true) with "POLICY_RULE_GRANT_INVALID" ;;
  refuse (from_option (fun cs => bool_decide (cs = []) || negb (forallb (fun c => bool_decide (c ∈ CHANNELS)) cs)) false (dc_allowedChannels g) = true)
    with "POLICY_RULE_GRANT_INVALID" ;;
  refuse (from_option (fun s => bool_decide (Date_parse s = None)) false (dc_expiresAt g) = true) with "POLICY_RULE_GRANT_INVALID" ;;
  Ok tt.

(** The value is the priority, which the caller reads next. *)
Definition assertValidRule (rule : PolicyRule) : result Z :=
  refuse (isNonBlank (pr_id rule) = false) with "POLICY_RULE_ID_REQUIRED" ;;
  refuse (badInteger (pr_priority rule) 0 = true) with "POLICY_RULE_PRIORITY_INVALID" ;;
  refuse (pr_actionType rule <> "any" /\ pr_actionType rule ∉ ACTION_TYPES) with "POLICY_RULE_ACTION_INVALID" ;;
  refuse (pr_decision rule ∉ DECISIONS) with "POLICY_RULE_DECISION_INVALID" ;;
  refuse (isNonBlank (pr_reasonCode rule) = false \/ startsWith (explode (pr_reasonCode rule)) (explode "POLICY_") = false)
    with "POLICY_RULE_REASON_INVALID" ;;
  refuse (isNonBlank (pr_explanation rule) = false) with "POLICY_RULE_EXPLANATION_REQUIRED" ;;
  _ ← traverse assertValidCondition (pr_conditions rule);
  _ ← match pr_grants rule with
      | None => Ok tt
      | Some g => refuse (pr_decision rule = "deny") with "POLICY_RULE_GRANT_INVALID" ;; assertValidGrant g
      end;
  Ok (default 0 (safeInteger (pr_priority rule))).

(** One turn of the loop: the ids and the priorities seen so far. *)
Definition ruleStep (seen : list string * list Z) (rule : PolicyRule) : result (list string * list Z) :=
  priority ← assertValidRule rule;
  refuse (pr_id rule ∈ seen.1) with "POLICY_RULE_ID_DUPLICATE" ;;
  refuse (priority ∈ seen.2) with "POLICY_RULE_PRIORITY_DUPLICATE" ;;
  Ok (seen.1 ++ [pr_id rule], seen.2 ++ [priority]).

Definition validateRuleSet (orgId : Uuid) (version : number) (rules : list PolicyRule) : result (list PolicyRule) :=
  refuse (isNonBlank orgId = false) with "POLICY_RULESET_ORG_REQUIRED" ;;
  refuse (badInteger version 1 = true) with "POLICY_RULESET_VERSION_INVALID" ;;
  _ ← foldM ruleStep ([], []) rules;
  Ok (sort_by priority_cmp rules).

Definition createRuleSet (orgId : Uuid) (version : number) (rules : list PolicyRule) (clock : Clock) : result PolicyRuleSet :=
  sorted ← validateRuleSet orgId version rules;
  Ok (MkRuleSet orgId version (toISOString (clock 0%nat)) sorted).

Definition nextVersion (current : PolicyRuleSet) (rules : list PolicyRule) (clock : Clock) : result PolicyRuleSet :=
  createRuleSet (rs_orgId current) (nadd (rs_version current) (num 1)) rules clock.

(** ** The default rules *)

Definition DEFAULT_WRITE_OFF_APPROVAL_THRESHOLD_MINOR : Z := 10000000.
Definition DEFAULT_REFUND_APPROVAL_THRESHOLD_MINOR : Z := 5000000.

Definition when (field op : string) : PolicyCondition := MkCondition field op JUndefined.
Definition among (field : string) (values : list string) : PolicyCondition := MkCondition field "in" (JArray (JString <$> values)).

Definition DEFAULT_RULES : list PolicyRule :=
  [MkRule "default-deny-automated-dispute-open" (num 10) "any" "deny"
     [when "disputeOpen" "is_true"; when "autonomous" "is_true"] "POLICY_DISPUTE_OPEN"
     "automated actions are denied while the receivable is under an open dispute (SPEC 29 pause)" None;
   MkRule "default-deny-autonomous-send-without-consent" (num 20) "any" "deny"
     [among "actionType" CONTACT_ACTION_TYPES; when "autonomous" "is_true"; when "consentPresent" "is_false"] "POLICY_CONSENT_REQUIRED"
     "autonomous customer contact requires an active consent grant (K2 - consent is never implied)" None;
   MkRule "default-deny-autonomous-send-without-channel" (num 30) "any" "deny"
     [among "actionType" CONTACT_ACTION_TYPES; when "autonomous" "is_true"; when "channel" "absent"] "POLICY_CHANNEL_REQUIRED"
     "autonomous customer contact must name its channel (fail-closed; send_whatsapp/send_sms imply theirs)" None;
   MkRule "default-write-off-approval" (num 100) "write_off" "requires_approval"
     [MkCondition "amountMinor" "gt" (JNumber (num DEFAULT_WRITE_OFF_APPROVAL_THRESHOLD_MINOR))] "POLICY_WRITE_OFF_APPROVAL_REQUIRED"
     "write-offs above the approval threshold require a human approver (any actor)" None;
   MkRule "default-refund-approval" (num 101) "refund" "requires_approval"
     [MkCondition "amountMinor" "gt" (JNumber (num DEFAULT_REFUND_APPROVAL_THRESHOLD_MINOR))] "POLICY_REFUND_APPROVAL_REQUIRED"
     "refunds above the approval threshold require a human approver (any actor)" None;
   MkRule "default-elevated-risk-approval" (num 120) "any" "requires_approval"
     [when "autonomous" "is_true"; among "riskClass" ["elevated"; "high"]] "POLICY_RISK_APPROVAL_REQUIRED"
     "autonomous actions on elevated/high-risk subjects require a human approver (VISION 3.5 human-controlled autonomy)" None;
   MkRule "default-allow-supervised" (num 900) "any" "allow"
     [when "autonomous" "is_false"] "POLICY_SUPERVISED_ACTION"
     "human-supervised action - autonomy restrictions do not apply; the compliance rules above still evaluated it" None;
   MkRule "default-allow-autonomous-low-risk" (num 950) "any" "allow"
     [when "autonomous" "is_true"; MkCondition "riskClass" "eq" (JString "low")] "POLICY_AUTONOMOUS_LOW_RISK"
     "autonomous low-risk action allowed by the safe-by-default rule set" None].

Definition defaultRuleSetFor (orgId : Uuid) (clock : Clock) : result PolicyRuleSet := createRuleSet orgId (num 1) DEFAULT_RULES clock.

End parse.

Definition assertRuleSetReference (rs : PolicyRuleSet) : result unit :=
  refuse (isNonBlank (rs_orgId rs) = false) with "POLICY_RULESET_ORG_REQUIRED" ;;
  refuse (badInteger (rs_version rs) 1 = true) with "POLICY_RULESET_VERSION_INVALID" ;;
  Ok tt.

Definition actionRequiresAmount (actionType : string) : bool := bool_decide (actionType ∈ AMOUNT_REQUIRED_ACTION_TYPES).

(** ** Well-formed rule sets *)

Definition prio (rule : PolicyRule) : Z := default 0 (safeInteger (pr_priority rule)).
Definition prio_cmp (a b : PolicyRule) : Z := Z.sgn (prio a - prio b).

#[export] Instance prio_cmp_total : TotalComparator prio_cmp.
Proof. split; unfold prio_cmp; lia. Qed.

Section wf.
  Context (Date_parse : string -> option Z).

Definition rule_valid (rule : PolicyRule) : Prop := is_ok (assertValidRule Date_parse rule) = true.

(** A published version: valid rules, unique ids, strictly increasing priorities. *)
Record ruleset_wf (rs : PolicyRuleSet) : Prop := {
  rsw_org : isNonBlank (rs_orgId rs) = true;
  rsw_version : exists v, safeInteger (rs_version rs) = Some v /\ 1 <= v;
  rsw_rules : Forall rule_valid (rs_rules rs);
  rsw_ids : NoDup (pr_id <$> rs_rules rs);
  rsw_order : StronglySorted Z.lt (prio <$> rs_rules rs);
}.

(** Publishing: a first version, then versions built on one another. *)
Definition version_step (rs rs' : PolicyRuleSet) : Prop := exists rules clock, nextVersion Date_parse rs rules clock = Ok rs'.

Definition published (rs : PolicyRuleSet) : Prop :=
  exists orgId rules clock first, createRuleSet Date_parse orgId (num 1) rules clock = Ok first /\ rtc version_step first rs.

(** ** Rule sets *)

Lemma badInteger_spec x low : badInteger x low = false <-> exists z, safeInteger x = Some z /\ low <= z.
Proof. unfold badInteger. destruct (safeInteger x) as [z|]; rewrite ?Z.ltb_ge; naive_solver. Qed.

Lemma badInteger_true x low : ~ badInteger x low = true <-> exists z, safeInteger x = Some z /\ low <= z.
Proof. rewrite <- badInteger_spec. destruct (badInteger x low); naive_solver. Qed.

Lemma safeInteger_value x z : safeInteger x = Some z -> integerValue x = Some z.
Proof. unfold safeInteger. destruct (integerValue x) as [y|]; cbn; [|done]. by case_decide. Qed.

Lemma assertValidRule_Ok rule p : assertValidRule Date_parse rule = Ok p <-> rule_valid rule /\ p = prio rule.
Proof.
  unfold rule_valid. rewrite is_ok_true. split.
  - intros H. split; [by eexists|]. unfold assertValidRule in H. repeat apply guard_Ok in H as [_ H].
    apply bind_Ok in H as (? & _ & H). apply bind_Ok in H as (? & _ & H). by injection H.
  - intros [[q H] ->]. rewrite H. unfold assertValidRule in H. repeat apply guard_Ok in H as [_ H].
    apply bind_Ok in H as (? & _ & H). apply bind_Ok in H as (? & _ & H). by injection H as <-.
Qed.

Lemma rule_valid_parts rule : rule_valid rule ->
  (exists z, safeInteger (pr_priority rule) = Some z /\ prio rule = z /\ 0 <= z) /\ pr_decision rule ∈ DECISIONS /\
  Forall (fun c => assertValidCondition c = Ok tt) (pr_conditions rule) /\ (pr_decision rule = "deny" -> pr_grants rule = None).
Proof.
  unfold rule_valid. rewrite is_ok_true. intros [p H]. unfold assertValidRule in H.
  apply guard_Ok in H as [_ [Hp H]%guard_Ok]. apply badInteger_true in Hp as (z & Hz & Hle).
  apply guard_Ok in H as [_ [Hd H]%guard_Ok]. apply dec_stable in Hd.
  repeat apply guard_Ok in H as [_ H]. apply bind_Ok in H as (us & Hus & (u & Hg & _)%bind_Ok).
  apply traverse_Forall2 in Hus. split; [exists z; unfold prio; by rewrite Hz|]. split; [done|]. split.
  - apply Forall_forall. intros c Hc. apply list_elem_of_lookup in Hc as [i Hi]. eapply Forall2_lookup_l in Hus as ([] & _ & Hu); [exact Hu|exact Hi].
  - intros Hdeny. destruct (pr_grants rule) as [g|]; [|done]. apply guard_Ok in Hg as [Hn _]. done.
Qed.

Lemma priority_cmp_valid a b : rule_valid a -> rule_valid b -> priority_cmp a b = prio_cmp a b.
Proof.
  intros ((x & Hx & Ex & _) & _)%rule_valid_parts ((y & Hy & Ey & _) & _)%rule_valid_parts.
  unfold priority_cmp, ncompare, prio_cmp. rewrite (safeInteger_value _ _ Hx), (safeInteger_value _ _ Hy), Ex, Ey.
  destruct (Z.compare_spec x y); lia.
Qed.

Lemma sort_valid rules : Forall rule_valid rules -> sort_by priority_cmp rules = sort_by prio_cmp rules.
Proof. rewrite Forall_forall. intros H. apply sort_by_ext. auto using priority_cmp_valid. Qed.

Lemma ruleStep_loop rules : forall seen seen', NoDup seen.1 -> NoDup seen.2 ->
  foldM (ruleStep Date_parse) seen rules = Ok seen' <->
  Forall rule_valid rules /\ NoDup (seen.1 ++ (pr_id <$> rules)) /\ NoDup (seen.2 ++ (prio <$> rules)) /\
  seen' = (seen.1 ++ (pr_id <$> rules), seen.2 ++ (prio <$> rules)).
Proof.
  induction rules as [|rule rules IH]; intros [ids ps] seen' H1 H2; cbn [foldM fmap list_fmap fst snd] in *.
  - rewrite !app_nil_r. split; [intros [= <-]; done|]. by intros (_ & _ & _ & ->).
  - rewrite bind_Ok. unfold ruleStep at 1. cbn [fst snd]. split.
    + intros (s & Hs & H). apply bind_Ok in Hs as (p & [Hv ->]%assertValidRule_Ok & [Hi [Hp [= <-]]%guard_Ok]%guard_Ok).
      apply IH in H as (Hr & Hn1 & Hn2 & ->); cbn [fst snd] in *; [|by apply NoDup_snoc_2..].
      rewrite <- !app_assoc in *. by repeat split; [constructor|..].
    + intros ([Hv Hr]%Forall_cons & Hn1 & Hn2 & ->). exists (ids ++ [pr_id rule], ps ++ [prio rule]). split.
      * apply bind_Ok. exists (prio rule). split; [by apply assertValidRule_Ok|].
        apply NoDup_app in Hn1 as (_ & Hd1 & _), Hn2 as (_ & Hd2 & _).
        rewrite !decide_False by set_solver. done.
      * assert (forall {A} (l : list A) x l', l ++ x :: l' = (l ++ [x]) ++ l') as Hsnoc by (intros; by rewrite <- app_assoc).
        rewrite Hsnoc in Hn1, Hn2. rewrite (Hsnoc _ ids _ (_ <$> _)), (Hsnoc _ ps _ (_ <$> _)). apply IH; cbn [fst snd]; [by apply NoDup_app in Hn1 as (? & _ & _)|by apply NoDup_app in Hn2 as (? & _ & _)|done].
Qed.

Definition publishable (orgId : Uuid) (version : number) (rules : list PolicyRule) : Prop :=
  isNonBlank orgId = true /\ (exists v, safeInteger version = Some v /\ 1 <= v) /\ Forall rule_valid rules /\
  NoDup (pr_id <$> rules) /\ NoDup (prio <$> rules).

Lemma createRuleSet_Ok orgId version rules clock rs : createRuleSet Date_parse orgId version rules clock = Ok rs <->
  publishable orgId version rules /\ rs = MkRuleSet orgId version (toISOString (clock 0%nat)) (sort_by prio_cmp rules).
Proof.
  unfold createRuleSet, validateRuleSet, publishable. split.
  - intros (sorted & [Ho [Hv (s & H & [= <-])%bind_Ok]%guard_Ok]%guard_Ok & [= <-])%bind_Ok.
    apply badInteger_true in Hv. apply not_false_is_true in Ho. apply ruleStep_loop in H as (Hr & Hi & Hp & _); [|by constructor..].
    split; [done|]. by rewrite sort_valid.
  - intros [(Ho & Hv & Hr & Hi & Hp) ->]. apply bind_Ok. exists (sort_by priority_cmp rules). rewrite <- sort_valid by done. split; [|done].
    apply guard_Ok. rewrite Ho. split; [done|]. apply guard_Ok. rewrite badInteger_true. split; [done|].
    apply bind_Ok. eexists. split; [|done]. by apply ruleStep_loop; [constructor..|].
Qed.

Lemma sorted_strict rules : NoDup (prio <$> rules) -> StronglySorted Z.lt (prio <$> sort_by prio_cmp rules).
Proof.
  intros Hnd. rewrite <- (sort_by_perm prio_cmp) in Hnd. pose proof (sort_by_sorted prio_cmp rules) as Hs. revert Hnd.
  induction Hs as [|x l Hl IH Hx]; cbn; [constructor|]. intros [Hni Hnd]%NoDup_cons. constructor; [by apply IH|].
  apply Forall_fmap, Forall_forall. intros y Hy. rewrite Forall_forall in Hx. specialize (Hx y Hy). cbn.
  unfold cmp_le, prio_cmp in Hx. assert (prio y <> prio x) by (intros E; apply Hni; rewrite <- E; by apply list_elem_of_fmap_2). lia.
Qed.

Lemma created_wf orgId version rules clock rs : createRuleSet Date_parse orgId version rules clock = Ok rs -> ruleset_wf rs.
Proof.
  intros [(Ho & Hv & Hr & Hi & Hp) ->]%createRuleSet_Ok. split; cbn; [done|done| | |by apply sorted_strict].
  - by rewrite sort_by_perm.
  - by rewrite sort_by_perm.
Qed.

Lemma published_wf rs : published rs -> ruleset_wf rs.
Proof.
  intros (o & rules & clock & first & H & Hsteps). apply created_wf in H.
  induction Hsteps as [|a b c (r & k & Hstep) _ IH]; [done|]. apply IH. by eapply created_wf.
Qed.

End wf.

(** ** Requests *)

Record request_parts (r : ActionRequest) : Prop := {
  rp_actor : ac_type (rq_actor r) ∈ ACTOR_TYPES;
  rp_human : ac_type (rq_actor r) = "human" -> rq_autonomous r <> JBool true;
  rp_amount : from_option (fun x => exists z, safeInteger x = Some z /\ 0 <= z) True (rq_amountMinor r);
  rp_currency : is_Some (rq_amountMinor r) <-> is_Some (rq_currency r);
  rp_risk : rq_riskClass r ∈ RISK_CLASSES;
  rp_channel : from_option (fun c => c ∈ CHANNELS) True (rq_channel r);
  rp_flags : exists consent dispute promise autonomous, rq_consentPresent r = JBool consent /\ rq_disputeOpen r = JBool dispute /\
    rq_promisePending r = JBool promise /\ rq_autonomous r = JBool autonomous;
}.

Lemma isBoolean_true v : isBoolean v = true -> exists b, v = JBool b.
Proof. destruct v; try done. by eexists. Qed.

Lemma assertActionRequest_parts r u : assertActionRequest r = Ok u -> request_parts r.
Proof.
  unfold assertActionRequest. intros H. do 3 apply guard_Ok in H as [_ H]. apply guard_Ok in H as [Ha [_ H]%guard_Ok].
  apply guard_Ok in H as [Hh (u1 & Hm & H)%bind_Ok]. apply guard_Ok in H as [Hr [Hc H]%guard_Ok]. apply guard_Ok in H as [Hf _].
  apply not_false_is_true in Hf. cbn [forallb] in Hf. rewrite !andb_true_iff in Hf.
  destruct Hf as ([c Ec]%isBoolean_true & [d Ed]%isBoolean_true & [p Ep]%isBoolean_true & [a Ea]%isBoolean_true & _).
  split; [by apply dec_stable| | | |by apply dec_stable| |by exists c, d, p, a].
  - intros E1 E2. apply Hh. rewrite E2. done.
  - destruct (rq_amountMinor r) as [x|]; [|done]. destruct (rq_currency r); [|done]. apply guard_Ok in Hm as [Hm _]. by apply badInteger_true.
  - destruct (rq_amountMinor r), (rq_currency r); try done; split; intros; by eexists.
  - destruct (rq_channel r) as [x|]; [|done]. apply not_false_is_true, bool_decide_eq_true in Hc. done.
Qed.

Lemma ncompare_num x z c : safeInteger x = Some z -> 0 <= c < 2 ^ 53 -> ncompare x (num c) = Some (z ?= c).
Proof. intros Hx Hc. unfold ncompare. by rewrite (safeInteger_value _ _ Hx), integerValue_num. Qed.

Lemma isFinite_integer x z : integerValue x = Some z -> isFinite x = true.
Proof. by destruct x. Qed.

Lemma assertValue_numeric low high nullable x z : safeInteger x = Some z -> low <= z <= high -> 0 <= low -> high < 2 ^ 53 ->
  assertValue (MkFieldSpec (kind_numeric low high) nullable) (JNumber x) = Ok tt.
Proof.
  intros Hx Hz Hl Hh. cbn [assertValue fs_kind]. rewrite (isFinite_integer x z) by by apply safeInteger_value.
  rewrite (ncompare_num x z low), (ncompare_num x z high) by (done || lia). destruct (Z.compare_spec z low), (Z.compare_spec z high); try lia; done.
Qed.

Lemma clock_facts now : 0 <= getUTCHours now * 60 + getUTCMinutes now <= 1439 /\ 0 <= getUTCDay now <= 6.
Proof.
  unfold getUTCHours, getUTCMinutes, getUTCDay. pose proof (timeInDay_range now). unfold DAY_MS in *. split; [|pose proof (Z.mod_pos_bound (dayOf now + 4) 7); lia].
  Z.to_euclidean_division_equations. lia.
Qed.

Lemma assertValue_enum values nullable s : s ∈ values -> assertValue (MkFieldSpec (kind_enum values) nullable) (JString s) = Ok tt.
Proof. intros H. cbn. by rewrite decide_True. Qed.

(** The channel a known action will use. *)
Lemma effectiveChannel_known r : rq_actionType r ∈ ACTION_TYPES -> effectiveChannel r =
  match rq_channel r with
  | Some c => JString c
  | None => if decide (rq_actionType r = "send_whatsapp") then JString "whatsapp" else if decide (rq_actionType r = "send_sms") then JString "sms" else JNull
  end.
Proof.
  intros H. unfold effectiveChannel. destruct (rq_channel r); [done|]. unfold ACTION_TYPES in H.
  repeat (apply elem_of_cons in H as [->|H]); [..|by apply elem_of_nil in H]; reflexivity.
Qed.

(** Every fact a rule can test lies in the domain its conditions are validated against, or
    is null where the field may be: of a valid request with a known action, no condition
    is out of reach by its type. *)
Theorem facts_lie_in_their_domain (r : ActionRequest) (now : Date) (field : string) :
  assertActionRequest r = Ok tt -> rq_actionType r ∈ ACTION_TYPES -> field ∈ POLICY_FIELDS ->
  assertValue (FIELD_SPECS field) (actualOf field r now) = Ok tt \/ (fs_nullable (FIELD_SPECS field) = true /\ actualOf field r now = JNull).
Proof.
  intros [Ha _ Hm _ Hr Hc (c & d & p & a & Ec & Ed & Ep & Ea)]%assertActionRequest_parts Hact Hf.
  destruct (clock_facts now) as [Hmin Hday]. unfold POLICY_FIELDS in Hf.
  repeat (apply elem_of_cons in Hf as [->|Hf]); [..|by apply elem_of_nil in Hf].
  - left. exact (assertValue_enum ACTION_TYPES false _ Hact).
  - left. exact (assertValue_enum ACTOR_TYPES false _ Ha).
  - left. exact (assertValue_enum RISK_CLASSES false _ Hr).
  - change (actualOf "channel" r now) with (effectiveChannel r). rewrite effectiveChannel_known by done.
    destruct (rq_channel r) as [ch|]; [left; exact (assertValue_enum CHANNELS true _ Hc)|].
    case_decide; [left; by vm_compute|]. case_decide; [left; by vm_compute|]. by right.
  - change (actualOf "amountMinor" r now) with (from_option JNumber JNull (rq_amountMinor r)).
    destruct (rq_amountMinor r) as [x|]; [left|by right]. destruct Hm as (z & Hz & Hpos). pose proof (safeInteger_bound _ _ Hz).
    apply (assertValue_numeric 0 MAX_SAFE_INTEGER true x z); unfold MAX_SAFE_INTEGER in *; done || lia.
  - left. eapply (assertValue_numeric 0 1439 false); [apply safeInteger_num|..]; unfold MAX_SAFE_INTEGER; lia.
  - left. eapply (assertValue_numeric 0 6 false); [apply safeInteger_num|..]; unfold MAX_SAFE_INTEGER; lia.
  - left. change (actualOf "consentPresent" r now) with (rq_consentPresent r). by rewrite Ec.
  - left. change (actualOf "disputeOpen" r now) with (rq_disputeOpen r). by rewrite Ed.
  - left. change (actualOf "promisePending" r now) with (rq_promisePending r). by rewrite Ep.
  - left. change (actualOf "autonomous" r now) with (rq_autonomous r). by rewrite Ea.
Qed.

Lemma published_version Date_parse rs : published Date_parse rs -> exists v, 1 <= v <= MAX_SAFE_INTEGER /\ rs_version rs = num v.
Proof.
  intros (o & rules & clock & first & H & Hsteps). apply createRuleSet_Ok in H as [_ ->].
  assert (exists v, 1 <= v <= MAX_SAFE_INTEGER /\ num 1 = num v) as Hv by (exists 1; split; [unfold MAX_SAFE_INTEGER; lia|done]).
  change (num 1) with (rs_version (MkRuleSet o (num 1) (toISOString (clock 0%nat)) (sort_by prio_cmp rules))) in Hv.
  induction Hsteps as [|a b c (r & k & Hstep) _ IH]; [done|]. apply IH. destruct Hv as (v & Bv & Ev).
  apply createRuleSet_Ok in Hstep as [(_ & (w & Hw & _) & _) ->]. cbn [rs_version]. rewrite Ev in *. destruct (decide (v = MAX_SAFE_INTEGER)) as [->|Hne].
  - exfalso. revert Hw. by vm_compute.
  - exists (v + 1). split; [lia|]. apply nadd_num; unfold MAX_SAFE_INTEGER in *; lia.
Qed.

(** Versions are published one after the other for one organisation, and each is a total
    order of valid rules: unique ids, strictly increasing priorities. *)
Theorem published_rule_sets_are_ordered (Date_parse : string -> option Z) (rs rs' : PolicyRuleSet) :
  published Date_parse rs -> version_step Date_parse rs rs' ->
  ruleset_wf Date_parse rs /\ ruleset_wf Date_parse rs' /\ rs_orgId rs' = rs_orgId rs /\
  exists v, safeInteger (rs_version rs) = Some v /\ safeInteger (rs_version rs') = Some (v + 1).
Proof.
  intros Hp Hstep. assert (published Date_parse rs') as Hp'.
  { destruct Hp as (o & rules & clock & first & H & Hs). exists o, rules, clock, first. split; [done|]. by eapply rtc_r. }
  split; [by apply published_wf|]. split; [by apply published_wf|]. destruct (published_version _ _ Hp) as (v & Bv & Ev).
  destruct Hstep as (rules & clock & H). apply createRuleSet_Ok in H as [(_ & (w & Hw & _) & _) ->]. split; [done|]. exists v. cbn [rs_version]. rewrite Ev in *.
  split; [apply safeInteger_num; lia|]. destruct (decide (v = MAX_SAFE_INTEGER)) as [->|Hne]; [exfalso; revert Hw; by vm_compute|].
  unfold MAX_SAFE_INTEGER in *. rewrite nadd_num by lia. apply safeInteger_num. unfold MAX_SAFE_INTEGER. lia.
Qed.

Definition sample_ruleset : PolicyRuleSet := MkRuleSet "org" (num 1) "1970-01-01T00:00:00.000Z" DEFAULT_RULES.

Lemma sample_ruleset_published : published (fun _ => None) sample_ruleset.
Proof. exists "org", DEFAULT_RULES, (fixed_clock 0), sample_ruleset. split; [vm_compute; reflexivity|apply rtc_refl]. Qed.

Lemma published_rule_sets_are_ordered_witness : exists v,
  safeInteger (num 1) = Some v /\ safeInteger (rs_version (MkRuleSet "org" (num 2) "1970-01-01T00:00:00.000Z" [])) = Some (v + 1).
Proof.
  apply (published_rule_sets_are_ordered (fun _ => None) sample_ruleset (MkRuleSet "org" (num 2) "1970-01-01T00:00:00.000Z" [])).
  - exact sample_ruleset_published.
  - exists [], (fixed_clock 0). vm_compute. reflexivity.
Defined.

(** The order in which rules are listed does not matter: every arrangement publishes the
    same version. *)
Theorem rule_order_is_irrelevant (Date_parse : string -> option Z) (orgId : Uuid) (version : number) (rules rules' : list PolicyRule)
    (clock : Clock) (rs : PolicyRuleSet) :
  rules ≡ₚ rules' -> createRuleSet Date_parse orgId version rules clock = Ok rs -> createRuleSet Date_parse orgId version rules' clock = Ok rs.
Proof.
  intros Hp [(Ho & Hv & Hr & Hi & Hd) ->]%createRuleSet_Ok. apply createRuleSet_Ok. split; [|f_equal].
  - split; [exact Ho|]. split; [exact Hv|]. split; [by rewrite <- Hp|]. split; [by rewrite <- Hp|]. by rewrite <- Hp.
  - apply (sort_by_unique prio_cmp prio); [unfold prio_cmp; intros; lia|done|done].
Qed.

Lemma rule_order_is_irrelevant_witness : createRuleSet (fun _ => None) "org" (num 1) (reverse DEFAULT_RULES) (fixed_clock 0) = Ok sample_ruleset.
Proof. apply (rule_order_is_irrelevant (fun _ => None) "org" (num 1) DEFAULT_RULES); [symmetry; apply reverse_Permutation|vm_compute; reflexivity]. Defined.

Lemma facts_lie_in_their_domain_witness :
  let r := MkActionRequest "org" "customer" None None (MkPolicyActor "human" "actor-1") "refund" (Some (num 7)) (Some "KES") "low" None
    (JBool true) (JBool false) (JBool false) (JBool false) in
  assertValue (FIELD_SPECS "amountMinor") (actualOf "amountMinor" r 0) = Ok tt \/
  (fs_nullable (FIELD_SPECS "amountMinor") = true /\ actualOf "amountMinor" r 0 = JNull).
Proof. intros r. apply (facts_lie_in_their_domain r 0 "amountMinor"); [vm_compute; reflexivity|by apply (bool_decide_unpack _)..]. Defined.
