(* ===== verification/PolicyEngine.v ===== *)
(** * The policy engine

    src/domain/policy/engine.ts and events.ts: every action request gets one decision,
    recorded in one event.  The pre-guards come first, then the first matching rule in
    order of priority, then the fail-closed denial. *)

From stdpp Require Import prelude strings list sorting.
From Stdlib Require Import ZArith Lia SpecFloat.
From S2P Require Import Prelude JsNumber JsString JsDate JsJson Money Events PolicyRules.
Local Open Scope string_scope.
Local Open Scope list_scope.
Local Open Scope Z_scope.
Local Open Scope js_scope.

(** [dr_channel] is dynamic: see [effectiveChannel]. *)
Record DecisionRecordedPayload := MkDecisionRecorded {
  dr_orgId : Uuid;
  dr_customerId : Uuid;
  dr_receivableId : option Uuid;
  dr_caseId : option Uuid;
  dr_actionType : string;
  dr_actorType : string;
  dr_autonomous : jvalue;
  dr_riskClass : string;
  dr_amountMinor : option number;
  dr_currency : option string;
  dr_channel : jvalue;
  dr_decision : string;
  dr_reasonCode : string;
  dr_matchedRuleIds : list string;
  dr_ruleSetVersion : number;
  dr_requestedAt : string;
}.
Notation DecisionRecordedEvent := (DomainEvent DecisionRecordedPayload).

(** [pd_explanation] is [None] where the engine composes the text itself. *)
Record PolicyDecision := MkDecision {
  pd_decision : string;
  pd_reasonCode : string;
  pd_explanation : option string;
  pd_matchedRuleIds : list string;
  pd_conditions : option DecisionConditions;
  pd_orgId : Uuid;
  pd_ruleSetVersion : number;
  pd_requestedAt : string;
  pd_event : DecisionRecordedEvent;
}.

(** [minorToNumber] of events.ts: the amounts of this lane are numbers already. *)
Definition policyMinorToNumber (x : number) : result number :=
  match safeInteger x with Some _ => Ok x | None => Err (DomainError "POLICY_AMOUNT_NOT_SAFE_INTEGER") end.

Definition ruleMatches (r : ActionRequest) (now : Date) (rule : PolicyRule) : bool :=
  bool_decide (pr_actionType rule = "any" \/ pr_actionType rule = rq_actionType r) &&
  forallb (fun c => conditionMatches c r now) (pr_conditions rule).

(** The inner function [decide]: the decision and its audit event. *)
Definition decideWith (r : ActionRequest) (rs : PolicyRuleSet) (now : Date) (decision reasonCode : string)
    (explanation : option string) (matchedRuleIds : list string) (conditions : option DecisionConditions) : result PolicyDecision :=
  amount ← match rq_amountMinor r with None => Ok None | Some x => n ← policyMinorToNumber x; Ok (Some n) end;
  let requestedAt := toISOString now in
  let payload := MkDecisionRecorded (rq_orgId r) (rq_customerId r) (rq_receivableId r) (rq_caseId r) (rq_actionType r)
    (ac_type (rq_actor r)) (rq_autonomous r) (rq_riskClass r) amount (rq_currency r) (effectiveChannel r)
    decision reasonCode matchedRuleIds (rs_version rs) requestedAt in
  Ok (MkDecision decision reasonCode explanation matchedRuleIds conditions (rq_orgId r) (rs_version rs) requestedAt
        (domainEvent "policy.decisionRecorded" (rq_orgId r) payload (fixed_clock now))).

(** The requested channel contradicts the one the action implies. *)
Definition channelMismatch (r : ActionRequest) : bool :=
  match rq_channel r, IMPLIED_CHANNEL (rq_actionType r) with
  | None, _ | _, JUndefined => false
  | Some c, required => negb (strict_equal (JString c) required)
  end.

Definition evaluate (r : ActionRequest) (rs : PolicyRuleSet) (clock : Clock) : result PolicyDecision :=
  let now := clock 0%nat in
  _ ← assertActionRequest r;
  _ ← assertRuleSetReference rs;
  refuse (rs_orgId rs <> rq_orgId r) with "POLICY_RULESET_ORG_MISMATCH" ;;
  let deny := fun reasonCode => decideWith r rs now "deny" reasonCode None [] None in
  if decide (rq_actionType r ∉ ACTION_TYPES) then deny "POLICY_ACTION_UNKNOWN"
  else if decide (actionRequiresAmount (rq_actionType r) = true /\ rq_amountMinor r = None) then deny "POLICY_AMOUNT_REQUIRED"
  else if channelMismatch r then deny "POLICY_CHANNEL_ACTION_MISMATCH"
  else match List.find (ruleMatches r now) (sort_by priority_cmp (rs_rules rs)) with
       | None => deny "POLICY_NO_RULE_MATCHED"
       | Some rule =>
           decideWith r rs now (pr_decision rule) (pr_reasonCode rule) (Some (pr_explanation rule)) [pr_id rule]
             (if decide (pr_decision rule = "deny") then None else pr_grants rule)
       end.

(** ** Samples *)

Definition sample_request (actor action : string) (amount : option number) (autonomous : bool) : ActionRequest :=
  MkActionRequest "org" "customer" None None (MkPolicyActor actor "actor-1") action amount (match amount with Some _ => Some "KES" | None => None end)
    "low" None (JBool true) (JBool false) (JBool false) (JBool autonomous).

(** ** The governance rules as a specification *)

(** The decision record the engine returns for a verdict. *)
Definition recorded (r : ActionRequest) (rs : PolicyRuleSet) (now : Date) (decision reasonCode : string)
    (explanation : option string) (ids : list string) (conditions : option DecisionConditions) : PolicyDecision :=
  MkDecision decision reasonCode explanation ids conditions (rq_orgId r) (rs_version rs) (toISOString now)
    (MkEnvelope "policy.decisionRecorded" (rq_orgId r)
       (MkDecisionRecorded (rq_orgId r) (rq_customerId r) (rq_receivableId r) (rq_caseId r) (rq_actionType r) (ac_type (rq_actor r))
          (rq_autonomous r) (rq_riskClass r) (rq_amountMinor r) (rq_currency r) (effectiveChannel r) decision reasonCode ids
          (rs_version rs) (toISOString now)) (toISOString now)).

(** The request is quantified when it must be, and its channel is not another's. *)
Definition admissible (r : ActionRequest) : Prop :=
  rq_actionType r ∈ ACTION_TYPES /\ (rq_actionType r ∈ AMOUNT_REQUIRED_ACTION_TYPES -> is_Some (rq_amountMinor r)) /\
  (rq_actionType r = "send_whatsapp" -> default "whatsapp" (rq_channel r) = "whatsapp") /\
  (rq_actionType r = "send_sms" -> default "sms" (rq_channel r) = "sms").

Inductive verdict (r : ActionRequest) (rs : PolicyRuleSet) (now : Date) : PolicyDecision -> Prop :=
| unknown_action : rq_actionType r ∉ ACTION_TYPES -> verdict r rs now (recorded r rs now "deny" "POLICY_ACTION_UNKNOWN" None [] None)
| unquantified : rq_actionType r ∈ AMOUNT_REQUIRED_ACTION_TYPES -> rq_amountMinor r = None ->
    verdict r rs now (recorded r rs now "deny" "POLICY_AMOUNT_REQUIRED" None [] None)
| contradiction action channel c : (action, channel) ∈ [("send_whatsapp", "whatsapp"); ("send_sms", "sms")] -> rq_actionType r = action ->
    rq_channel r = Some c -> c <> channel -> verdict r rs now (recorded r rs now "deny" "POLICY_CHANNEL_ACTION_MISMATCH" None [] None)
| silence : admissible r -> (forall rule, rule ∈ rs_rules rs -> ruleMatches r now rule = false) ->
    verdict r rs now (recorded r rs now "deny" "POLICY_NO_RULE_MATCHED" None [] None)
| first_match rule : admissible r -> rule ∈ rs_rules rs -> ruleMatches r now rule = true ->
    (forall rule', rule' ∈ rs_rules rs -> ruleMatches r now rule' = true -> prio rule <= prio rule') ->
    verdict r rs now (recorded r rs now (pr_decision rule) (pr_reasonCode rule) (Some (pr_explanation rule)) [pr_id rule] (pr_grants rule)).

(** ** Lemmas *)

Lemma decideWith_valid r rs now dec reason expl ids conds : request_parts r ->
  decideWith r rs now dec reason expl ids conds = Ok (recorded r rs now dec reason expl ids conds).
Proof.
  intros [_ _ Hm _ _ _ _]. unfold decideWith, recorded. destruct (rq_amountMinor r) as [x|]; [|done].
  destruct Hm as (z & Hz & _). unfold policyMinorToNumber. by rewrite Hz.
Qed.

Lemma channelMismatch_iff r : rq_actionType r ∈ ACTION_TYPES -> channelMismatch r = true <->
  exists action channel c, (action, channel) ∈ [("send_whatsapp", "whatsapp"); ("send_sms", "sms")] /\ rq_actionType r = action /\
    rq_channel r = Some c /\ c <> channel.
Proof.
  intros H. unfold channelMismatch. destruct (rq_channel r) as [ch|]; [|split; [done|intros (? & ? & ? & _ & _ & [=] & _)]].
  unfold ACTION_TYPES in H. repeat (apply elem_of_cons in H as [->|H]); [..|by apply elem_of_nil in H]; cbn;
    try (split; [done|intros (? & ? & ? & Hin & <- & _ & _); set_solver]).
  - change (IMPLIED_CHANNEL "send_whatsapp") with (JString "whatsapp"). cbn iota.
    rewrite negb_true_iff, bool_decide_eq_false. split; [intros Hne; exists "send_whatsapp", "whatsapp", ch; set_solver|].
    intros (? & ? & ? & Hin & <- & [= <-] & Hne). set_solver.
  - change (IMPLIED_CHANNEL "send_sms") with (JString "sms"). cbn iota.
    rewrite negb_true_iff, bool_decide_eq_false. split; [intros Hne; exists "send_sms", "sms", ch; set_solver|].
    intros (? & ? & ? & Hin & <- & [= <-] & Hne). set_solver.
Qed.

Lemma find_first f l x : StronglySorted Z.lt (prio <$> l) ->
  List.find f l = Some x <-> x ∈ l /\ f x = true /\ forall y, y ∈ l -> f y = true -> prio x <= prio y.
Proof.
  induction l as [|a l IH]; cbn [fmap list_fmap List.find]; [by split; [|intros [?%elem_of_nil _]]|].
  intros [Hs Ha]%StronglySorted_inv. rewrite Forall_fmap, Forall_forall in Ha. destruct (f a) eqn:Ef.
  - split.
    + intros [= <-]. split; [by left|]. split; [done|]. intros y [->|Hy]%elem_of_cons _; [done|]. specialize (Ha y Hy). cbn in Ha. lia.
    + intros ([->|Hx]%elem_of_cons & _ & Hmin); [done|]. specialize (Ha x Hx). specialize (Hmin a ltac:(by left) Ef). cbn in Ha. lia.
  - rewrite IH by done. split.
    + intros (Hx & Hf & Hmin). split; [by right|]. split; [done|]. intros y [->|Hy]%elem_of_cons Hfy; [congruence|auto].
    + intros ([->|Hx]%elem_of_cons & Hf & Hmin); [congruence|]. split; [done|]. split; [done|]. intros y Hy. apply Hmin. by right.
Qed.

Lemma sorted_rules Date_parse rs : ruleset_wf Date_parse rs -> sort_by priority_cmp (rs_rules rs) = rs_rules rs.
Proof.
  intros [_ _ Hv _ Ho]. rewrite (sort_valid Date_parse) by done. apply sort_by_id.
  induction (rs_rules rs) as [|a l IH]; [constructor|]. cbn in Ho. apply StronglySorted_inv in Ho as [Ho Ha]. apply Forall_cons in Hv as [_ Hv].
  constructor; [by apply IH|]. rewrite Forall_fmap in Ha. eapply Forall_impl; [exact Ha|]. intros y Hy. unfold cmp_le, prio_cmp. cbn in Hy. lia.
Qed.

Lemma assertRuleSetReference_wf Date_parse rs : ruleset_wf Date_parse rs -> assertRuleSetReference rs = Ok tt.
Proof.
  intros [Ho Hv _ _ _]. apply guard_Ok. rewrite Ho. split; [done|]. apply guard_Ok. by rewrite badInteger_true.
Qed.

Lemma admissible_iff r : rq_actionType r ∈ ACTION_TYPES -> ~ (actionRequiresAmount (rq_actionType r) = true /\ rq_amountMinor r = None) ->
  channelMismatch r = false -> admissible r.
Proof.
  intros Hact Hq Hm. split; [done|]. split.
  - intros Hin. destruct (rq_amountMinor r); [by eexists|]. exfalso. apply Hq. split; [by apply bool_decide_eq_true|done].
  - assert (forall action channel, (action, channel) ∈ [("send_whatsapp", "whatsapp"); ("send_sms", "sms")] -> rq_actionType r = action ->
      default channel (rq_channel r) = channel) as H by
    (intros action channel Hin Ha; destruct (rq_channel r) as [c|] eqn:Hc; [|done]; cbn; destruct (decide (c = channel)); [done|];
     exfalso; enough (channelMismatch r = true) by congruence; apply channelMismatch_iff; [done|]; by exists action, channel, c).
    split; [apply H; left|apply H; right; left].
Qed.

Lemma admissible_guards r : admissible r -> rq_actionType r ∈ ACTION_TYPES /\
  ~ (actionRequiresAmount (rq_actionType r) = true /\ rq_amountMinor r = None) /\ channelMismatch r = false.
Proof.
  intros (Hact & Hq & Hw & Hs). split; [done|]. split.
  - intros [Ha%bool_decide_eq_true Hn]. destruct (Hq Ha). congruence.
  - apply not_true_is_false. rewrite channelMismatch_iff by done. intros (action & channel & c & Hin & Ha & Hc & Hne).
    rewrite Hc in *. cbn in *. set_solver.
Qed.

(** The stages of the engine after the checks that throw. *)
Lemma evaluate_valid Date_parse r rs clock : ruleset_wf Date_parse rs -> assertActionRequest r = Ok tt -> rs_orgId rs = rq_orgId r ->
  let now := clock 0%nat in let deny reason := Ok (recorded r rs now "deny" reason None [] None) in
  evaluate r rs clock =
    if decide (rq_actionType r ∉ ACTION_TYPES) then deny "POLICY_ACTION_UNKNOWN"
    else if decide (actionRequiresAmount (rq_actionType r) = true /\ rq_amountMinor r = None) then deny "POLICY_AMOUNT_REQUIRED"
    else if channelMismatch r then deny "POLICY_CHANNEL_ACTION_MISMATCH"
    else match List.find (ruleMatches r now) (rs_rules rs) with
         | None => deny "POLICY_NO_RULE_MATCHED"
         | Some rule => Ok (recorded r rs now (pr_decision rule) (pr_reasonCode rule) (Some (pr_explanation rule)) [pr_id rule] (pr_grants rule))
         end.
Proof.
  intros Hwf Hr Ho now deny. pose proof (assertActionRequest_parts _ _ Hr) as Hp. unfold evaluate.
  rewrite Hr, (assertRuleSetReference_wf _ _ Hwf). cbn [mbind result_bind]. rewrite decide_False by naive_solver.
  rewrite !(decideWith_valid r), (sorted_rules _ _ Hwf) by done. do 2 (case_decide; [done|]). destruct (channelMismatch r); [done|].
  destruct (List.find _ _) as [rule|] eqn:Hf; [|done]. rewrite decideWith_valid by done. case_decide as Hd; [|done].
  apply find_first in Hf as (Hin & _ & _); [|by eapply rsw_order]. apply rsw_rules in Hwf. rewrite Forall_forall in Hwf.
  destruct (rule_valid_parts _ _ (Hwf _ Hin)) as (_ & _ & _ & Hg). by rewrite Hg.
Qed.

Lemma evaluate_verdict Date_parse r rs clock d : ruleset_wf Date_parse rs -> assertActionRequest r = Ok tt -> rs_orgId rs = rq_orgId r ->
  evaluate r rs clock = Ok d <-> verdict r rs (clock 0%nat) d.
Proof.
  intros Hwf Hr Ho. rewrite (evaluate_valid _ _ _ _ Hwf Hr Ho). cbn zeta. pose proof (rsw_order _ _ Hwf) as Hs. split.
  - case_decide as Hact; [intros [= <-]; by constructor|].
    case_decide as Hq; [destruct Hq as [Hq%bool_decide_eq_true Hn]; intros [= <-]; by constructor|].
    destruct (channelMismatch r) eqn:Hm.
    { apply (channelMismatch_iff r Hact) in Hm as (action & channel & c & Hin & Ha & Hc & Hne). intros [= <-]. by econstructor. }
    pose proof (admissible_iff r Hact Hq Hm). destruct (List.find _ _) as [rule|] eqn:Hf.
    + apply find_first in Hf as (Hin & Hmatch & Hmin); [|done]. intros [= <-]. by constructor.
    + intros [= <-]. apply silence; [done|]. by apply find_None_iff.
  - intros [Hn|Ha Hn|action channel c Hin Ha Hc Hne|Hadm Hnone|rule Hadm Hin Hmatch Hmin].
    + by rewrite decide_True.
    + rewrite decide_False by (intros Hx; apply Hx; set_solver). by rewrite decide_True by (split; [by apply bool_decide_eq_true|done]).
    + assert (rq_actionType r ∈ ACTION_TYPES /\ rq_actionType r ∉ AMOUNT_REQUIRED_ACTION_TYPES) as [Hact Hna].
      { rewrite Ha. apply elem_of_cons in Hin as [[= -> _]|[[= -> _]|[]%elem_of_nil]%elem_of_cons]; split; by apply (bool_decide_unpack _). }
      rewrite decide_False by naive_solver. rewrite decide_False by (intros [Hx%bool_decide_eq_true _]; done).
      assert (channelMismatch r = true) as -> by (apply channelMismatch_iff; [done|]; by exists action, channel, c). done.
    + apply admissible_guards in Hadm as (Hact & Hq & ->). rewrite decide_False by naive_solver. rewrite decide_False by done.
      apply find_None_iff in Hnone. by rewrite Hnone.
    + apply admissible_guards in Hadm as (Hact & Hq & ->). rewrite decide_False by naive_solver. rewrite decide_False by done.
      assert (List.find (ruleMatches r (clock 0%nat)) (rs_rules rs) = Some rule) as -> by (by apply find_first). done.
Qed.

Lemma evaluate_checked r rs clock d : evaluate r rs clock = Ok d -> assertActionRequest r = Ok tt /\ rs_orgId rs = rq_orgId r.
Proof. unfold evaluate. intros ([] & Hr & (u & _ & [Ho%dec_stable _]%guard_Ok)%bind_Ok)%bind_Ok. done. Qed.

(** Only admissible requests are ever allowed. *)
Lemma evaluate_allows Date_parse r rs clock d : ruleset_wf Date_parse rs -> evaluate r rs clock = Ok d -> pd_decision d = "allow" -> admissible r.
Proof.
  intros Hwf He Hallow. destruct (evaluate_checked _ _ _ _ He) as [Hr Ho]. apply (evaluate_verdict _ _ _ _ _ Hwf Hr Ho) in He. by destruct He.
Qed.

(** C27: Every valid request of the organisation gets exactly one decision with its audit event:
    denied before any rule when the action is unknown, a loss is unquantified or the channel
    contradicts the action, otherwise decided by the matching rule of lowest priority, and
    denied when none matches.  Anything else is refused with an error. *)
Theorem policy_decision_exact (Date_parse : string -> option Z) (r : ActionRequest) (rs : PolicyRuleSet) (clock : Clock) (d : PolicyDecision) :
  published Date_parse rs ->
  evaluate r rs clock = Ok d <-> assertActionRequest r = Ok tt /\ rs_orgId rs = rq_orgId r /\ verdict r rs (clock 0%nat) d.
Proof.
  intros Hwf%published_wf. split.
  - intros He. destruct (evaluate_checked _ _ _ _ He) as [Hr Ho].
    split; [done|]. split; [done|]. by apply (evaluate_verdict Date_parse).
  - intros (Hr & Ho & Hv). by apply (evaluate_verdict Date_parse).
Qed.

Lemma policy_decision_exact_witness : let r := sample_request "human" "refund" (Some (num 5000001)) false in
  exists d, verdict r sample_ruleset 0 d /\ pd_reasonCode d = "POLICY_REFUND_APPROVAL_REQUIRED".
Proof.
  intros r. assert (exists d, evaluate r sample_ruleset (fixed_clock 0) = Ok d /\ pd_reasonCode d = "POLICY_REFUND_APPROVAL_REQUIRED") as (d & He & Hd)
    by (eexists; split; [vm_compute; reflexivity|reflexivity]).
  exists d. split; [|exact Hd]. apply (policy_decision_exact (fun _ => None) r sample_ruleset (fixed_clock 0) d); [exact sample_ruleset_published|exact He].
Defined.

(** ** The default rules *)

Section default_rules.
  Context (r : ActionRequest) (now : Date).

Lemma matches_flag field b : actualOf field r now = JBool b ->
  conditionMatches (when field "is_true") r now = b /\ conditionMatches (when field "is_false") r now = negb b.
Proof. intros E. unfold conditionMatches, when. cbn [pc_field pc_op pc_value]. rewrite E. by destruct b. Qed.

Lemma matches_among field s values : actualOf field r now = JString s ->
  conditionMatches (among field values) r now = bool_decide (s ∈ values).
Proof.
  intros E. unfold conditionMatches, among. cbn [pc_field pc_op pc_value]. rewrite E.
  change (includesValue (JArray (JString <$> values)) (JString s) true = bool_decide (s ∈ values)). cbn [includesValue].
  induction values as [|v values IH]; [done|]. cbn [fmap list_fmap existsb same_value_zero strict_equal].
  destruct (decide (v = s)) as [->|Hne].
  - rewrite bool_decide_true by done. symmetry. apply bool_decide_eq_true. by left.
  - rewrite bool_decide_false by done. cbn [orb]. etrans; [exact IH|]. apply bool_decide_ext. set_solver.
Qed.

Lemma matches_gt x z c : rq_amountMinor r = Some x -> safeInteger x = Some z -> 0 <= c < 2 ^ 53 ->
  conditionMatches (MkCondition "amountMinor" "gt" (JNumber (num c))) r now = bool_decide (c < z).
Proof.
  intros Hx Hz Hc. unfold conditionMatches. cbn [pc_field pc_op pc_value].
  change (actualOf "amountMinor" r now) with (from_option JNumber JNull (rq_amountMinor r)). rewrite Hx. cbn [from_option].
  change (ordered "gt" (ncompare x (num c)) = bool_decide (c < z)). rewrite (ncompare_num x z) by done.
  destruct (Z.compare_spec z c); cbn; symmetry; [apply bool_decide_false; lia|apply bool_decide_false; lia|apply bool_decide_true; lia].
Qed.

End default_rules.

Definition minorOf (r : ActionRequest) : Z := default 0 (rq_amountMinor r ≫= safeInteger).

(** The default posture in one table. *)
Definition default_outcome (r : ActionRequest) (consent dispute autonomous : bool) : string * string :=
  if decide (autonomous = true /\ dispute = true) then ("deny", "POLICY_DISPUTE_OPEN")
  else if decide (autonomous = true /\ rq_actionType r ∈ CONTACT_ACTION_TYPES /\ consent = false) then ("deny", "POLICY_CONSENT_REQUIRED")
  else if decide (autonomous = true /\ rq_actionType r = "send_reminder" /\ rq_channel r = None) then ("deny", "POLICY_CHANNEL_REQUIRED")
  else if decide (rq_actionType r = "write_off" /\ minorOf r > 10000000) then ("requires_approval", "POLICY_WRITE_OFF_APPROVAL_REQUIRED")
  else if decide (rq_actionType r = "refund" /\ minorOf r > 5000000) then ("requires_approval", "POLICY_REFUND_APPROVAL_REQUIRED")
  else if decide (autonomous = true /\ rq_riskClass r <> "low") then ("requires_approval", "POLICY_RISK_APPROVAL_REQUIRED")
  else if autonomous then ("allow", "POLICY_AUTONOMOUS_LOW_RISK") else ("allow", "POLICY_SUPERVISED_ACTION").

Lemma find_stage {A B} (f : A -> B) (b : bool) (P : Prop) `{Decision P} (a : A) (rest : option A) (other : B) :
  (b = true <-> P) -> (~ P -> exists x, rest = Some x /\ f x = other) ->
  exists x, (if b then Some a else rest) = Some x /\ f x = if decide P then f a else other.
Proof. intros Hb Hrest. destruct b, (decide P) as [HP|HP]; [by exists a|naive_solver|naive_solver|auto]. Qed.

Section default_outcome.
  Context (r : ActionRequest) (now : Date) (consent dispute autonomous : bool).
  Context (Hparts : request_parts r) (Hadm : admissible r).
  Context (Hc : rq_consentPresent r = JBool consent) (Hd : rq_disputeOpen r = JBool dispute) (Ha : rq_autonomous r = JBool autonomous).

Lemma matches_any id p d cs rc ex g : ruleMatches r now (MkRule id p "any" d cs rc ex g) = forallb (fun c => conditionMatches c r now) cs.
Proof. unfold ruleMatches. cbn. by rewrite bool_decide_true by (by left). Qed.

Lemma matches_amount id p action d c rc ex g : action ∈ AMOUNT_REQUIRED_ACTION_TYPES -> 0 <= c < 2 ^ 53 ->
  ruleMatches r now (MkRule id p action d [MkCondition "amountMinor" "gt" (JNumber (num c))] rc ex g) =
    bool_decide (rq_actionType r = action /\ minorOf r > c).
Proof.
  intros Hreq Hrange. unfold ruleMatches. cbn [pr_actionType pr_conditions forallb]. rewrite andb_true_r.
  destruct (decide (rq_actionType r = action)) as [E|Hne].
  - rewrite bool_decide_true by (by right). cbn [andb]. destruct Hadm as (_ & Hq & _). rewrite E in Hq. destruct (Hq Hreq) as [x Hx].
    destruct Hparts as [_ _ Hm _ _ _ _]. unfold minorOf. rewrite Hx in *. destruct Hm as (z & Hz & _). cbn. rewrite Hz.
    rewrite (matches_gt r now x z) by done. apply bool_decide_ext. cbn. lia || naive_solver lia.
  - rewrite bool_decide_false by (intros [->|?]; [set_solver|done]). symmetry. apply bool_decide_false. tauto.
Qed.

Lemma matches_no_channel : conditionMatches (when "channel" "absent") r now =
  bool_decide (rq_channel r = None /\ rq_actionType r <> "send_whatsapp" /\ rq_actionType r <> "send_sms").
Proof.
  unfold conditionMatches, when. cbn [pc_field pc_op pc_value]. change (actualOf "channel" r now) with (effectiveChannel r).
  rewrite effectiveChannel_known by apply Hadm. destruct (rq_channel r); [by rewrite bool_decide_false by naive_solver|].
  case_decide; [by rewrite bool_decide_false by naive_solver|]. case_decide; [by rewrite bool_decide_false by naive_solver|].
  rewrite (bool_decide_true (None = None /\ _)) by done. done.
Qed.

Lemma matches_low : conditionMatches (MkCondition "riskClass" "eq" (JString "low")) r now = bool_decide (rq_riskClass r = "low").
Proof. done. Qed.

Lemma default_find : exists rule, List.find (ruleMatches r now) DEFAULT_RULES = Some rule /\
  (pr_decision rule, pr_reasonCode rule) = default_outcome r consent dispute autonomous.
Proof.
  unfold DEFAULT_RULES. cbn [List.find]. rewrite !matches_any. rewrite !matches_amount by (done || (by apply (bool_decide_unpack _)) || lia).
  cbn [forallb]. rewrite (proj1 (matches_flag r now "disputeOpen" dispute Hd)), (proj1 (matches_flag r now "autonomous" autonomous Ha)),
    (proj2 (matches_flag r now "autonomous" autonomous Ha)), (proj2 (matches_flag r now "consentPresent" consent Hc)), matches_no_channel, matches_low.
  rewrite (matches_among r now "actionType" (rq_actionType r)), (matches_among r now "riskClass" (rq_riskClass r)) by done.
  unfold default_outcome.
  apply (find_stage (fun x => (pr_decision x, pr_reasonCode x))); [rewrite !andb_true_iff; tauto|intros _].
  apply (find_stage (fun x => (pr_decision x, pr_reasonCode x))); [rewrite !andb_true_iff, bool_decide_eq_true, negb_true_iff; tauto|intros _].
  apply (find_stage (fun x => (pr_decision x, pr_reasonCode x))).
  { rewrite !andb_true_iff, !bool_decide_eq_true. unfold CONTACT_ACTION_TYPES. rewrite !elem_of_cons, elem_of_nil.
    split; [tauto|]. intros (-> & -> & ->). repeat split; (by left) || done. }
  intros _. apply (find_stage (fun x => (pr_decision x, pr_reasonCode x))); [apply bool_decide_eq_true|intros _].
  apply (find_stage (fun x => (pr_decision x, pr_reasonCode x))); [apply bool_decide_eq_true|intros _].
  pose proof (rp_risk _ Hparts) as Hrisk. unfold RISK_CLASSES in Hrisk. rewrite !elem_of_cons, elem_of_nil in Hrisk.
  apply (find_stage (fun x => (pr_decision x, pr_reasonCode x))).
  { rewrite !andb_true_iff, bool_decide_eq_true, !elem_of_cons, elem_of_nil. split; [intros (-> & [->|[->|[]]] & _); done|tauto]. }
  intros Hlow. destruct autonomous; cbn [negb andb]; [|by eexists]. rewrite bool_decide_true by (apply dec_stable; naive_solver). by eexists.
Qed.

End default_outcome.

Lemma default_set Date_parse org clock rs : defaultRuleSetFor Date_parse org clock = Ok rs ->
  ruleset_wf Date_parse rs /\ rs_orgId rs = org /\ rs_rules rs = DEFAULT_RULES.
Proof.
  intros H. split; [by eapply created_wf|]. apply createRuleSet_Ok in H as [_ ->]. split; [done|]. cbn [rs_rules]. vm_compute. reflexivity.
Qed.

(** The rule of the default set that decides. *)
Lemma default_recorded Date_parse org clock0 rs r clock consent dispute autonomous :
  defaultRuleSetFor Date_parse org clock0 = Ok rs -> assertActionRequest r = Ok tt -> rq_orgId r = org -> admissible r ->
  rq_consentPresent r = JBool consent -> rq_disputeOpen r = JBool dispute -> rq_autonomous r = JBool autonomous ->
  exists rule, rule ∈ DEFAULT_RULES /\ (pr_decision rule, pr_reasonCode rule) = default_outcome r consent dispute autonomous /\
    evaluate r rs clock = Ok (recorded r rs (clock 0%nat) (pr_decision rule) (pr_reasonCode rule) (Some (pr_explanation rule)) [pr_id rule] (pr_grants rule)).
Proof.
  intros (Hwf & Horg & Hrules)%default_set Hr Ho Hadm Hc Hd Ha. rewrite (evaluate_valid _ _ _ clock Hwf Hr) by congruence. cbn zeta.
  pose proof (assertActionRequest_parts _ _ Hr) as Hp.
  destruct (default_find r (clock 0%nat) consent dispute autonomous Hp Hadm Hc Hd Ha) as (rule & Hf & Hout). exists rule. split; [|split; [done|]].
  - apply List.find_some in Hf as [Hf _]. by apply list_elem_of_In.
  - rewrite Hrules, Hf. apply admissible_guards in Hadm as (Hact & Hq & ->). rewrite decide_False by naive_solver. by rewrite decide_False by done.
Qed.

Lemma default_outcome_of Date_parse org clock0 rs r clock consent dispute autonomous :
  defaultRuleSetFor Date_parse org clock0 = Ok rs -> assertActionRequest r = Ok tt -> rq_orgId r = org -> admissible r ->
  rq_consentPresent r = JBool consent -> rq_disputeOpen r = JBool dispute -> rq_autonomous r = JBool autonomous ->
  exists d, evaluate r rs clock = Ok d /\ (pd_decision d, pd_reasonCode d) = default_outcome r consent dispute autonomous.
Proof.
  intros Hset Hr Ho Hadm Hc Hd Ha. destruct (default_recorded _ _ _ _ r clock _ _ _ Hset Hr Ho Hadm Hc Hd Ha) as (rule & _ & Hout & He).
  by eexists.
Qed.

(** The default rules decide every admissible request of their organisation, by the table
    of the default posture. *)
Theorem default_policy_exact (Date_parse : string -> option Z) (org : Uuid) (clock0 clock : Clock) (rs : PolicyRuleSet) (r : ActionRequest)
    (consent dispute autonomous : bool) :
  defaultRuleSetFor Date_parse org clock0 = Ok rs -> assertActionRequest r = Ok tt -> rq_orgId r = org -> admissible r ->
  rq_consentPresent r = JBool consent -> rq_disputeOpen r = JBool dispute -> rq_autonomous r = JBool autonomous ->
  exists d, evaluate r rs clock = Ok d /\ (pd_decision d, pd_reasonCode d) = default_outcome r consent dispute autonomous.
Proof. apply default_outcome_of. Qed.

Lemma default_policy_exact_witness : exists d,
  evaluate (sample_request "ai_agent" "send_reminder" None true) sample_ruleset (fixed_clock 0) = Ok d /\
  (pd_decision d, pd_reasonCode d) = ("deny", "POLICY_CHANNEL_REQUIRED").
Proof.
  apply (default_policy_exact (fun _ => None) "org" (fixed_clock 0) (fixed_clock 0) sample_ruleset (sample_request "ai_agent" "send_reminder" None true) true false true);
    try reflexivity.
  split; [by apply (bool_decide_unpack _)|]. split; [intros H; exfalso; revert H; by apply (bool_decide_unpack _)|]. split; intros H; discriminate H.
Defined.

(** What the default rules let through is bounded: losses stay within the thresholds whoever
    asks, and an autonomous action that is allowed is not a human's, touches no disputed
    receivable, carries low risk, and contacts customers only with consent and a channel. *)
Theorem default_policy_bounds_automation (Date_parse : string -> option Z) (org : Uuid) (clock0 clock : Clock) (rs : PolicyRuleSet)
    (r : ActionRequest) (d : PolicyDecision) :
  defaultRuleSetFor Date_parse org clock0 = Ok rs -> evaluate r rs clock = Ok d -> pd_decision d = "allow" ->
  rq_actionType r ∈ ACTION_TYPES /\
  (rq_actionType r = "write_off" -> is_Some (rq_amountMinor r) /\ minorOf r <= 10000000) /\
  (rq_actionType r = "refund" -> is_Some (rq_amountMinor r) /\ minorOf r <= 5000000) /\
  (rq_autonomous r = JBool true ->
   ac_type (rq_actor r) <> "human" /\ rq_disputeOpen r = JBool false /\ rq_riskClass r = "low" /\
   (rq_actionType r ∈ CONTACT_ACTION_TYPES -> rq_consentPresent r = JBool true /\ effectiveChannel r <> JNull)).
Proof.
  intros Hset He Hallow. destruct (default_set _ _ _ _ Hset) as (Hwf & Horg & Hrules).
  assert (assertActionRequest r = Ok tt /\ rs_orgId rs = rq_orgId r) as [Hr Ho] by (by apply evaluate_checked in He).
  pose proof (evaluate_allows _ _ _ _ _ Hwf He Hallow) as Hadm. destruct (rp_flags _ (assertActionRequest_parts _ _ Hr)) as (consent & dispute & promise & autonomous & Hc & Hd & _ & Ha).
  destruct (default_outcome_of _ _ _ _ r clock consent dispute autonomous Hset Hr ltac:(congruence) Hadm Hc Hd Ha) as (d' & He' & Hout).
  rewrite He in He'. injection He' as <-. rewrite Hallow in Hout. unfold default_outcome in Hout.
  destruct Hadm as (Hact & Hq & Hw & Hs).
  repeat (case_decide; [by injection Hout|]). split; [done|]. split; [|split].
  - intros E. split; [apply Hq; rewrite E; by apply (bool_decide_unpack _)|]. assert (~ minorOf r > 10000000) by tauto. lia.
  - intros E. split; [apply Hq; rewrite E; by apply (bool_decide_unpack _)|]. assert (~ minorOf r > 5000000) by tauto. lia.
  - intros Haut. rewrite Ha in Haut. injection Haut as ->.
    split; [intros Hh; by apply (rp_human _ (assertActionRequest_parts _ _ Hr) Hh)|].
    split; [rewrite Hd; destruct dispute; tauto|]. split; [apply dec_stable; tauto|]. intros Hin. split; [rewrite Hc; destruct consent; tauto|].
    rewrite effectiveChannel_known by done. destruct (rq_channel r); [done|]. do 2 (case_decide; [done|]). exfalso.
    unfold CONTACT_ACTION_TYPES in Hin. rewrite !elem_of_cons, elem_of_nil in Hin. tauto.
Qed.

Lemma default_policy_bounds_automation_witness : let r := sample_request "ai_agent" "send_sms" None true in
  ac_type (rq_actor r) <> "human" /\ rq_disputeOpen r = JBool false /\ rq_riskClass r = "low" /\
  (rq_actionType r ∈ CONTACT_ACTION_TYPES -> rq_consentPresent r = JBool true /\ effectiveChannel r <> JNull).
Proof.
  intros r. assert (exists d, evaluate r sample_ruleset (fixed_clock 0) = Ok d /\ pd_decision d = "allow") as (d & He & Hd)
    by (eexists; split; [vm_compute; reflexivity|reflexivity]).
  apply (default_policy_bounds_automation (fun _ => None) "org" (fixed_clock 0) (fixed_clock 0) sample_ruleset r d); [vm_compute; reflexivity|exact He|exact Hd|reflexivity].
Defined.

(** The vocabulary of channels is looked up in an object literal: an action named like an
    inherited method is denied, but its audit event carries a function as the channel. *)
Theorem inherited_names_leak_into_the_audit : exists d,
  evaluate (sample_request "integration" "toString" None true) sample_ruleset (fixed_clock 0) = Ok d /\
  pd_reasonCode d = "POLICY_ACTION_UNKNOWN" /\ dr_channel (payload (pd_event d)) = JFunction.
Proof. eexists. split; [vm_compute; reflexivity|]. split; reflexivity. Qed.
