(* ===== verification/UssdMenu.v ===== *)
(** * USSD menu graphs

    src/domain/ussd/menu.ts: menus as data, validated once by [assertMenuGraph].

    The index of the source is an object keyed by node key; here it is the list of its
    nodes.  The order of its entries shows only in messages.  Objects inherit the members
    of [Object.prototype], so a key such as [toString] counts as present.  [freezeOption]
    copies and freezes, which leaves values as they are. *)

From stdpp Require Import prelude strings list relations.
From Stdlib Require Import ZArith Lia Ascii.
From S2P Require Import Prelude JsNumber JsString JsJson.
Local Open Scope string_scope.
Local Open Scope list_scope.
Local Open Scope Z_scope.
Local Open Scope js_scope.

Definition ABORT_KEY : string := "#".
Definition DEFAULT_BACK_KEY : string := "0".
Definition DEFAULT_SCREEN_BUDGET : Z := 182.
Definition USSD_FLOW_ACTIONS : list string := ["balance_query"; "invoice_list"; "statement_query"; "plan_request"; "payment_handoff"].

Inductive UssdOptionTarget :=
| to_node (nodeKey : string)
| to_flow (flow : string) (args : option (list (string * string))).

Record UssdMenuOption := MkMenuOption { mo_key : string; mo_textKey : string; mo_target : UssdOptionTarget }.

Record UssdMenuNode := MkMenuNode {
  mn_nodeKey : string;
  mn_textKey : string;
  mn_options : option (list UssdMenuOption);
  mn_isRoot : bool;
  mn_terminal : bool;
}.

Inductive ScreenParam := text_param (s : string) | count_param (z : Z).
Record UssdScreen := MkScreen { sc_textKey : string; sc_params : list (string * ScreenParam) }.

Record UssdMenuGraph := MkMenuGraph {
  mg_nodes : list UssdMenuNode;
  mg_rootKey : string;
  mg_backKey : string;
  mg_screenBudget : Z;
}.

Record AssertMenuGraphConfig := MkMenuConfig { mc_backKey : option string; mc_screenBudget : option number }.

Definition len (s : string) : Z := Z.of_nat (String.length s).
Definition is_key_char (c : ascii) : bool := is_digit c || bool_decide (c = "*"%char).

(** [/^[0-9*]{1,2}$/] *)
Definition OPTION_KEY_PATTERN (s : string) : bool :=
  let l := explode s in (1 <=? length l)%nat && (length l <=? 2)%nat && forallb is_key_char l.
Definition BACK_KEY_PATTERN : string -> bool := OPTION_KEY_PATTERN.

Definition param_text (p : ScreenParam) : string := match p with text_param s => s | count_param z => show_Z z end.

Definition screenCost (screen : UssdScreen) : Z :=
  len (sc_textKey screen) + sumZ ((fun p => len p.1 + len (param_text p.2)) <$> sc_params screen).

Definition nodeScreen (node : UssdMenuNode) : UssdScreen := MkScreen (mn_textKey node) [].

(** [node.options ?? []] *)
Definition optionsOf (node : UssdMenuNode) : list UssdMenuOption := default [] (mn_options node).

Definition freezeNode (node : UssdMenuNode) : UssdMenuNode :=
  MkMenuNode (mn_nodeKey node) (mn_textKey node) (Some (optionsOf node)) (mn_isRoot node) (mn_terminal node).

(** One turn of the loop over the options; the accumulator is [seen]. *)
Definition assertOption (backKey : string) (seen : list string) (option : UssdMenuOption) : result (list string) :=
  let key := mo_key option in
  refuse (trim key = "") with "USSD_MENU_NODE_INVALID" ;;
  refuse (trim (mo_textKey option) = "") with "USSD_MENU_NODE_INVALID" ;;
  refuse (key = ABORT_KEY) with "USSD_MENU_KEY_RESERVED" ;;
  refuse (key = backKey) with "USSD_MENU_KEY_RESERVED" ;;
  refuse (OPTION_KEY_PATTERN key = false) with "USSD_MENU_NODE_INVALID" ;;
  refuse (key ∈ seen) with "USSD_MENU_OPTION_DUPLICATE" ;;
  match mo_target option with
  | to_node nodeKey => refuse (trim nodeKey = "") with "USSD_MENU_NODE_INVALID" ;; Ok (seen ++ [key])
  | to_flow flow args =>
      refuse (flow ∉ USSD_FLOW_ACTIONS) with "USSD_MENU_FLOW_UNKNOWN" ;;
      refuse (existsb (fun arg => bool_decide (trim arg.1 = "")) (default [] args) = true) with "USSD_MENU_NODE_INVALID" ;;
      Ok (seen ++ [key])
  end.

Definition assertNodeShape (node : UssdMenuNode) (backKey : string) : result unit :=
  refuse (trim (mn_nodeKey node) = "") with "USSD_MENU_NODE_INVALID" ;;
  refuse (trim (mn_textKey node) = "") with "USSD_MENU_NODE_INVALID" ;;
  refuse (mn_terminal node = true /\ optionsOf node <> []) with "USSD_MENU_NODE_INVALID" ;;
  _ ← foldM (assertOption backKey) [] (optionsOf node);
  Ok tt.

(** ** The index *)

Definition node_at (index : list UssdMenuNode) (key : string) : option UssdMenuNode :=
  List.find (fun n => bool_decide (mn_nodeKey n = key)) index.
Definition inherited (key : string) : bool := bool_decide (key ∈ inherited_methods \/ key = "__proto__").
(** [index[key]] is truthy. *)
Definition indexed (index : list UssdMenuNode) (key : string) : bool := bool_decide (is_Some (node_at index key)) || inherited key.

Definition target_node (o : UssdMenuOption) : option string := match mo_target o with to_node k => Some k | to_flow _ _ => None end.
Definition is_flow (o : UssdMenuOption) : bool := match mo_target o with to_flow _ _ => true | to_node _ => false end.
Definition node_targets (node : UssdMenuNode) : list string := omap target_node (optionsOf node).
(** The node targets of [index[current]!.options ?? []]; an inherited member has no options. *)
Definition targets (index : list UssdMenuNode) (key : string) : list string := default [] (node_targets <$> node_at index key).

Definition addNode (backKey : string) (index : list UssdMenuNode) (node : UssdMenuNode) : result (list UssdMenuNode) :=
  _ ← assertNodeShape node backKey;
  refuse (indexed index (mn_nodeKey node) = true) with "USSD_MENU_NODE_DUPLICATE" ;;
  Ok (index ++ [freezeNode node]).

(** One option of the node taken from the queue: [reachable] and [queue] grow together. *)
Definition visit (rq : list string * list string) (t : string) : list string * list string :=
  if decide (t ∈ rq.1) then rq else (rq.1 ++ [t], rq.2 ++ [t]).

(** The breadth-first loop; every node target is queued at most once, which bounds the turns. *)
Fixpoint explore (fuel : nat) (index : list UssdMenuNode) (reachable queue : list string) : list string :=
  match fuel, queue with
  | S fuel, current :: queue =>
      let rq := foldl visit (reachable, queue) (targets index current) in explore fuel index rq.1 rq.2
  | _, _ => reachable
  end.

Definition reachableFrom (index : list UssdMenuNode) (rootKey : string) : list string :=
  explore (S (length (index ≫= node_targets))) index [rootKey] [rootKey].

Definition exits (node : UssdMenuNode) : bool := mn_terminal node || existsb is_flow (optionsOf node).

(** One turn of the inner loop: the node joins [canExit] when a target is in it. *)
Definition growNode (canExit : list string) (node : UssdMenuNode) : list string :=
  if decide (mn_nodeKey node ∈ canExit) then canExit
  else if existsb (fun t => bool_decide (t ∈ canExit)) (node_targets node) then canExit ++ [mn_nodeKey node] else canExit.

(** [while (grew)]; each growing round adds a node, which bounds the rounds. *)
Fixpoint grow (fuel : nat) (index : list UssdMenuNode) (canExit : list string) : list string :=
  match fuel with
  | O => canExit
  | S fuel =>
      let next := foldl growNode canExit index in
      if decide (length next = length canExit) then next else grow fuel index next
  end.

Definition canExitOf (index : list UssdMenuNode) : list string :=
  grow (S (length index)) index (mn_nodeKey <$> List.filter exits index).

(** The static cost of a node: its prompt and its option lines. *)
Definition nodeCost (node : UssdMenuNode) : Z :=
  len (mn_textKey node) + sumZ ((fun o => len (mo_key o) + len (mo_textKey o)) <$> optionsOf node).

Definition missing (keys l : list string) : bool := existsb (fun k => negb (bool_decide (k ∈ l))) keys.

Definition assertMenuGraph (nodes : list UssdMenuNode) (config : AssertMenuGraphConfig) : result UssdMenuGraph :=
  refuse (nodes = []) with "USSD_MENU_EMPTY" ;;
  let backKey := default DEFAULT_BACK_KEY (mc_backKey config) in
  refuse (backKey = ABORT_KEY \/ BACK_KEY_PATTERN backKey = false) with "USSD_MENU_BACKKEY_INVALID" ;;
  match safeInteger (default (num DEFAULT_SCREEN_BUDGET) (mc_screenBudget config)) with
  | None => Err (DomainError "USSD_MENU_BUDGET_INVALID")
  | Some screenBudget =>
      refuse (screenBudget <= 0) with "USSD_MENU_BUDGET_INVALID" ;;
      index ← foldM (addNode backKey) [] nodes;
      match List.filter mn_isRoot index with
      | [] => Err (DomainError "USSD_MENU_ROOT_REQUIRED")
      | [root] =>
          let rootKey := mn_nodeKey root in
          refuse (existsb (fun n => existsb (fun t => negb (indexed index t)) (node_targets n)) index = true)
            with "USSD_MENU_TARGET_UNKNOWN" ;;
          let reachable := reachableFrom index rootKey in
          refuse (missing (mn_nodeKey <$> index) reachable = true) with "USSD_MENU_UNREACHABLE" ;;
          refuse (missing reachable (canExitOf index) = true) with "USSD_MENU_DEAD_END" ;;
          refuse (existsb (fun n => screenBudget <? nodeCost n) index = true) with "USSD_MENU_SCREEN_OVERBUDGET" ;;
          Ok (MkMenuGraph index rootKey backKey screenBudget)
      | _ => Err (DomainError "USSD_MENU_ROOT_DUPLICATE")
      end
  end.

(** ** The specification: what makes a menu usable *)

Definition option_shape (backKey : string) (o : UssdMenuOption) : Prop :=
  trim (mo_textKey o) <> "" /\ mo_key o <> ABORT_KEY /\ mo_key o <> backKey /\ OPTION_KEY_PATTERN (mo_key o) = true /\
  match mo_target o with
  | to_node k => trim k <> ""
  | to_flow flow args => flow ∈ USSD_FLOW_ACTIONS /\ Forall (fun arg => trim arg.1 <> "") (default [] args)
  end.

Definition node_shape (backKey : string) (n : UssdMenuNode) : Prop :=
  trim (mn_nodeKey n) <> "" /\ trim (mn_textKey n) <> "" /\ (mn_terminal n = true -> optionsOf n = []) /\
  NoDup (mo_key <$> optionsOf n) /\ Forall (option_shape backKey) (optionsOf n).

Definition menu_keys (index : list UssdMenuNode) : list string := mn_nodeKey <$> index.

(** A keypress can lead from one node to the other. *)
Definition menu_edge (index : list UssdMenuNode) (a b : string) : Prop := b ∈ targets index a.

(** The node ends the session by itself or through a flow. *)
Definition exit_node (index : list UssdMenuNode) (k : string) : Prop := exists n, node_at index k = Some n /\ exits n = true.

Record menu_valid (g : UssdMenuGraph) : Prop := {
  mv_shapes : Forall (node_shape (mg_backKey g)) (mg_nodes g);
  mv_unique : NoDup (menu_keys (mg_nodes g));
  mv_own : Forall (fun k => inherited k = false) (menu_keys (mg_nodes g));
  mv_root : menu_keys (List.filter mn_isRoot (mg_nodes g)) = [mg_rootKey g];
  mv_closed : forall a b, menu_edge (mg_nodes g) a b -> b ∈ menu_keys (mg_nodes g);
  mv_reachable : forall k, k ∈ menu_keys (mg_nodes g) -> rtc (menu_edge (mg_nodes g)) (mg_rootKey g) k;
  mv_exit : forall k, k ∈ menu_keys (mg_nodes g) -> exists e, rtc (menu_edge (mg_nodes g)) k e /\ exit_node (mg_nodes g) e;
  mv_fits : Forall (fun n => nodeCost n <= mg_screenBudget g) (mg_nodes g);
}.

(** ** Lemmas: shapes *)

Lemma key_not_blank k : OPTION_KEY_PATTERN k = true -> trim k <> "".
Proof.
  unfold OPTION_KEY_PATTERN. rewrite !andb_true_iff. intros [[H _] Hc]. destruct k as [|c k]; [done|]. apply trim_nonblank.
  cbn [explode String.list_ascii_of_string forallb] in Hc. apply andb_prop in Hc as [Hc _]. by destruct c as [[] [] [] [] [] [] [] []].
Qed.

Lemma assertOption_Ok backKey seen o seen' : assertOption backKey seen o = Ok seen' <->
  option_shape backKey o /\ mo_key o ∉ seen /\ seen' = seen ++ [mo_key o].
Proof.
  unfold assertOption, option_shape. cbv zeta. split.
  - intros H. do 2 apply guard_Ok in H as [? H]. do 2 apply guard_Ok in H as [? H]. apply guard_Ok in H as [Hp%not_false_is_true H]. apply guard_Ok in H as [? H].
    destruct (mo_target o) as [k|flow args].
    + apply guard_Ok in H as [? [= <-]]. done.
    + apply guard_Ok in H as [Hf%dec_stable H]. apply guard_Ok in H as [Hargs [= <-]]. split_and!; try done.
      apply Forall_forall. intros arg Ha E. apply Hargs. apply existsb_exists. exists arg. split; [by apply list_elem_of_In|by apply bool_decide_eq_true].
  - intros ((Ht & Ha & Hb & Hp & Htg) & Hs & ->). rewrite decide_False by (by apply key_not_blank). do 3 rewrite decide_False by done.
    rewrite decide_False by congruence. rewrite decide_False by done.
    destruct (mo_target o) as [k|flow args]; [by rewrite decide_False by done|]. destruct Htg as [Hf Hargs]. rewrite decide_False by tauto.
    rewrite decide_False; [done|]. intros (arg & Harg & E)%existsb_exists. rewrite Forall_forall in Hargs. apply (Hargs arg); [by apply list_elem_of_In|].
    by apply bool_decide_eq_true in E.
Qed.

Lemma options_Ok backKey l seen seen' : foldM (assertOption backKey) seen l = Ok seen' <->
  Forall (option_shape backKey) l /\ NoDup (mo_key <$> l) /\ (forall o, o ∈ l -> mo_key o ∉ seen) /\ seen' = seen ++ (mo_key <$> l).
Proof.
  revert seen. induction l as [|o l IH]; intros seen; cbn [foldM].
  - split; [intros [= <-]; split_and!; [constructor|constructor|set_solver|by rewrite app_nil_r]|]. intros (_ & _ & _ & ->). cbn. by rewrite app_nil_r.
  - split.
    + intros (s1 & (Ho & Hn & ->)%assertOption_Ok & (Hl & Hnd & Hnew & ->)%IH)%bind_Ok. split_and!.
      * by constructor.
      * cbn. apply NoDup_cons. split; [|done]. intros (o' & E & Ho')%list_elem_of_fmap. apply (Hnew o' Ho'). rewrite <- E. set_solver.
      * intros o' [->|Ho']%elem_of_cons; [done|]. specialize (Hnew o' Ho'). set_solver.
      * by rewrite <- app_assoc.
    + intros (Hl & Hnd & Hnew & ->). apply Forall_cons in Hl as [Ho Hl]. cbn in Hnd. apply NoDup_cons in Hnd as [Hno Hnd].
      rewrite (proj2 (assertOption_Ok backKey seen o (seen ++ [mo_key o]))) by (split; [done|]; split; [apply Hnew; left|done]). cbn [mbind result_bind].
      apply IH. split; [done|]. split; [done|]. split; [|cbn; by rewrite <- app_assoc]. intros o' Ho'. rewrite elem_of_app, list_elem_of_singleton.
      intros [Hs|E]; [by apply (Hnew o'); [right|]|]. apply Hno. rewrite <- E. by apply list_elem_of_fmap_2.
Qed.

Lemma shape_Ok node backKey u : assertNodeShape node backKey = Ok u <-> node_shape backKey node.
Proof.
  unfold assertNodeShape, node_shape. destruct u. split.
  - intros H. do 3 apply guard_Ok in H as [? H]. apply bind_Ok in H as (s & (Hl & Hnd & _)%options_Ok & _). split_and!; try done.
    intros Ht. apply dec_stable. tauto.
  - intros (H1 & H2 & H3 & H4 & H5). do 2 rewrite decide_False by done. rewrite decide_False by tauto.
    by rewrite (proj2 (options_Ok backKey (optionsOf node) [] (mo_key <$> optionsOf node))) by (split_and!; [done..|set_solver|done]).
Qed.

(** ** Lemmas: the index *)

Lemma node_at_Some index k n : node_at index k = Some n -> n ∈ index /\ mn_nodeKey n = k.
Proof. intros [H E%bool_decide_eq_true]%List.find_some. split; [by apply list_elem_of_In|done]. Qed.

Lemma node_at_elem index n : NoDup (menu_keys index) -> n ∈ index -> node_at index (mn_nodeKey n) = Some n.
Proof.
  unfold node_at, menu_keys. induction index as [|m index IH]; [set_solver|]. cbn. intros [Hm Hnd]%NoDup_cons [->|Hn]%elem_of_cons.
  - by rewrite bool_decide_true.
  - rewrite bool_decide_false; [by apply IH|]. intros E. apply Hm. rewrite E. by apply list_elem_of_fmap_2.
Qed.

Lemma node_at_key index k : is_Some (node_at index k) <-> k ∈ menu_keys index.
Proof.
  split.
  - intros [n [Hn <-]%node_at_Some]. by apply list_elem_of_fmap_2.
  - intros (n & -> & Hn)%list_elem_of_fmap. unfold node_at. destruct (List.find _ index) eqn:E; [done|]. exfalso.
    apply list_elem_of_In in Hn. pose proof (List.find_none _ _ E n Hn) as Hf. cbn in Hf. by rewrite bool_decide_true in Hf.
Qed.

Lemma indexed_true index k : indexed index k = true <-> k ∈ menu_keys index \/ inherited k = true.
Proof. unfold indexed. by rewrite orb_true_iff, bool_decide_eq_true, node_at_key. Qed.

Lemma freeze_keys nodes : menu_keys (freezeNode <$> nodes) = menu_keys nodes.
Proof. unfold menu_keys. rewrite <- list_fmap_compose. by apply list_fmap_ext. Qed.

Lemma addNode_Ok backKey index n index' : addNode backKey index n = Ok index' <->
  node_shape backKey n /\ mn_nodeKey n ∉ menu_keys index /\ inherited (mn_nodeKey n) = false /\ index' = index ++ [freezeNode n].
Proof.
  unfold addNode. split.
  - intros (u & Hs%shape_Ok & [Hi [= <-]]%guard_Ok)%bind_Ok. rewrite indexed_true in Hi. split_and!; try done; [tauto|]. apply not_true_is_false. tauto.
  - intros (Hs & Hk & Hi & ->). rewrite (proj2 (shape_Ok n backKey tt) Hs). cbn [mbind result_bind]. rewrite decide_False; [done|].
    rewrite indexed_true. intros [?|?]; [done|congruence].
Qed.

Lemma addNodes_Ok backKey nodes index index' : foldM (addNode backKey) index nodes = Ok index' <->
  Forall (node_shape backKey) nodes /\ Forall (fun k => inherited k = false) (menu_keys nodes) /\ NoDup (menu_keys nodes) /\
  (forall k, k ∈ menu_keys nodes -> k ∉ menu_keys index) /\ index' = index ++ (freezeNode <$> nodes).
Proof.
  revert index. induction nodes as [|n nodes IH]; intros index; cbn [foldM].
  - split; [intros [= <-]; split_and!; [constructor..|set_solver|by rewrite app_nil_r]|]. intros (_ & _ & _ & _ & ->). cbn. by rewrite app_nil_r.
  - split.
    + intros (i1 & (Hs & Hk & Hi & ->)%addNode_Ok & (H1 & H2 & H3 & H4 & ->)%IH)%bind_Ok. split_and!.
      * by constructor.
      * by constructor.
      * cbn. apply NoDup_cons. split; [|done]. intros Hn. apply (H4 _ Hn). unfold menu_keys. rewrite fmap_app, elem_of_app. right. left.
      * intros k [->|Hk']%elem_of_cons; [done|]. intros Hx. apply (H4 _ Hk'). unfold menu_keys in *. rewrite fmap_app, elem_of_app. by left.
      * by rewrite <- app_assoc.
    + intros (H1 & H2 & H3 & H4 & ->). apply Forall_cons in H1 as [Hs H1]. apply Forall_cons in H2 as [Hi H2]. cbn in H3. apply NoDup_cons in H3 as [Hn H3].
      rewrite (proj2 (addNode_Ok backKey index n (index ++ [freezeNode n]))) by (split_and!; [done|apply H4; left|done|done]).
      cbn [mbind result_bind]. apply IH. split_and!; try done; [|cbn; by rewrite <- app_assoc]. intros k Hk. unfold menu_keys. rewrite fmap_app, elem_of_app. cbn.
      rewrite list_elem_of_singleton. intros [Hk'| ->]; [by apply (H4 k); [right|]|done].
Qed.

(** ** Lemmas: the breadth-first search *)

Section search.
  Context (index : list UssdMenuNode).

Lemma visit_all ts r q : exists new, foldl visit (r, q) ts = (r ++ new, q ++ new) /\ new ⊆ ts /\ (NoDup r -> NoDup (r ++ new)) /\ ts ⊆ r ++ new.
Proof.
  revert r q. induction ts as [|t ts IH]; intros r q; cbn [foldl]; [exists []; rewrite !app_nil_r; set_solver|].
  unfold visit at 2. cbn [fst snd]. destruct (decide (t ∈ r)) as [Ht|Ht].
  - destruct (IH r q) as (new & -> & H1 & H2 & H3). exists new. set_solver.
  - destruct (IH (r ++ [t]) (q ++ [t])) as (new & -> & H1 & H2 & H3). exists (t :: new). rewrite <- !app_assoc in *. cbn in *. split; [done|]. split; [set_solver|].
    split; [|set_solver]. intros Hr. apply H2. apply NoDup_app. split; [done|]. split; [set_solver|]. apply NoDup_singleton.
Qed.

Lemma targets_universe k t : t ∈ targets index k -> t ∈ index ≫= node_targets.
Proof.
  unfold targets. destruct (node_at index k) as [n|] eqn:E; cbn; [|set_solver]. intros Ht. apply node_at_Some in E as [Hn _]. apply list_elem_of_bind. by exists n.
Qed.

(** The loop ends with every node the queue leads to, and with nothing else. *)
Lemma explore_spec root fuel r q : q ⊆ r -> NoDup r -> r ⊆ root :: (index ≫= node_targets) ->
  (length q + (S (length (index ≫= node_targets)) - length r) <= fuel)%nat ->
  (forall x, x ∈ r -> rtc (menu_edge index) root x) -> (forall x y, x ∈ r -> x ∉ q -> menu_edge index x y -> y ∈ r) ->
  let l := explore fuel index r q in r ⊆ l /\ (forall x, x ∈ l -> rtc (menu_edge index) root x) /\ (forall x y, x ∈ l -> menu_edge index x y -> y ∈ l).
Proof.
  revert r q. induction fuel as [|fuel IH]; intros r q Hq Hnd HU Hf Hr Hc; destruct q as [|k q]; cbn [explore].
  - split; [done|]. split; [done|]. intros x y Hx. by apply Hc; [|set_solver].
  - exfalso. cbn in Hf. lia.
  - split; [done|]. split; [done|]. intros x y Hx. by apply Hc; [|set_solver].
  - destruct (visit_all (targets index k) r q) as (new & -> & Hn1 & Hn2 & Hn3). cbn [fst snd]. assert (k ∈ r) as Hk by set_solver.
    assert (r ++ new ⊆ root :: (index ≫= node_targets)) as HU'.
    { intros x [Hx|Hx]%elem_of_app; [by apply HU|]. right. by eapply targets_universe, Hn1. }
    pose proof (submseteq_length _ _ (NoDup_submseteq _ _ (Hn2 Hnd) (fun x => HU' x))) as Hlen. rewrite length_app in Hlen. cbn in Hlen, Hf.
    destruct (IH (r ++ new) (q ++ new)) as (H1 & H2 & H3).
    + set_solver.
    + by apply Hn2.
    + done.
    + rewrite !length_app. lia.
    + intros x [Hx|Hx]%elem_of_app; [by apply Hr|]. eapply rtc_r; [by apply Hr|]. by apply Hn1.
    + intros x y [Hx|Hx]%elem_of_app Hxq He; [|set_solver]. destruct (decide (x = k)) as [->|Hne]; [by apply Hn3|].
      apply elem_of_app. left. apply (Hc x); [done| |done]. set_solver.
    + split; [set_solver|]. done.
Qed.

Lemma reachableFrom_spec root k : k ∈ reachableFrom index root <-> rtc (menu_edge index) root k.
Proof.
  destruct (explore_spec root (S (length (index ≫= node_targets))) [root] [root]) as (H1 & H2 & H3).
  - done.
  - apply NoDup_singleton.
  - set_solver.
  - cbn. lia.
  - intros x ->%list_elem_of_singleton. apply rtc_refl.
  - set_solver.
  - change (explore _ _ _ _) with (reachableFrom index root) in H1, H2, H3. set (l := reachableFrom index root) in *. clearbody l.
    split; [apply H2|]. intros H. assert (root ∈ l) as Hroot by (apply H1; left). clear H1 H2. revert Hroot. induction H as [x|x y z He _ IH]; [done|]. intros Hx. apply IH. by eapply H3.
Qed.

(** ** Lemmas: the exits *)

Context (P : string -> Prop) (HP : forall n t, n ∈ index -> t ∈ node_targets n -> P t -> P (mn_nodeKey n)).

Lemma grow_round c l : l ⊆ index -> exists new, foldl growNode c l = c ++ new /\ (NoDup c -> NoDup (c ++ new)) /\ new ⊆ menu_keys l /\ (Forall P c -> Forall P (c ++ new)) /\
  (new = [] -> forall n t, n ∈ l -> t ∈ node_targets n -> t ∈ c -> mn_nodeKey n ∈ c).
Proof.
  revert c. induction l as [|n l IH]; intros c Hl; cbn [foldl].
  { exists []. rewrite app_nil_r. split_and!; try done. set_solver. }
  unfold growNode at 2. destruct (decide (mn_nodeKey n ∈ c)) as [Hn|Hn].
  { destruct (IH c) as (new & -> & H1 & H2 & H3 & H4); [set_solver|]. exists new. split_and!; try done; [set_solver|].
    intros E m t [->|Hm]%elem_of_cons Ht Hc; [done|]. by eapply H4. }
  destruct (existsb _ (node_targets n)) eqn:E.
  - destruct (IH (c ++ [mn_nodeKey n])) as (new & -> & H1 & H2 & H3 & H4); [set_solver|]. exists (mn_nodeKey n :: new). rewrite <- !app_assoc in *. cbn in *.
    split; [done|]. split. { intros Hc. apply H1. apply NoDup_app. split; [done|]. split; [set_solver|apply NoDup_singleton]. }
    split; [set_solver|]. split; [|done]. intros Hc. apply H3. apply Forall_app. split; [done|]. constructor; [|done].
    apply existsb_exists in E as (t & Ht & Htc%bool_decide_eq_true). rewrite Forall_forall in Hc. eapply HP; [set_solver|by apply list_elem_of_In|by apply Hc].
  - destruct (IH c) as (new & -> & H1 & H2 & H3 & H4); [set_solver|]. exists new. split_and!; try done; [set_solver|].
    intros E' m t [->|Hm]%elem_of_cons Ht Hc; [|by eapply H4]. exfalso. apply not_true_iff_false in E. apply E. apply existsb_exists. exists t.
    split; [by apply list_elem_of_In|by apply bool_decide_eq_true].
Qed.

(** The loop ends with a set no further node can join. *)
Lemma grow_spec fuel c : NoDup c -> c ⊆ menu_keys index -> (length index - length c < fuel)%nat -> Forall P c ->
  let l := grow fuel index c in c ⊆ l /\ l ⊆ menu_keys index /\ Forall P l /\ (forall n t, n ∈ index -> t ∈ node_targets n -> t ∈ l -> mn_nodeKey n ∈ l).
Proof.
  revert c. induction fuel as [|fuel IH]; intros c Hnd Hc Hf Hp; [lia|]. cbn [grow]. destruct (grow_round c index) as (new & -> & H1 & H2 & H3 & H4); [done|].
  assert (c ++ new ⊆ menu_keys index) as Hsub by set_solver.
  pose proof (submseteq_length _ _ (NoDup_submseteq _ _ (H1 Hnd) (fun x => Hsub x))) as Hlen. rewrite length_app in *. unfold menu_keys in Hlen. rewrite length_fmap in Hlen.
  destruct (decide (_ = _)) as [E|E].
  - assert (new = []) as -> by (apply length_zero_iff_nil; lia). rewrite app_nil_r in *. split_and!; try done. by apply H4.
  - destruct (IH (c ++ new)) as (I1 & I2 & I3 & I4); [by apply H1|done|rewrite length_app; lia|by apply H3|]. split; [set_solver|]. done.
Qed.

End search.

Lemma exits_keys index : NoDup (menu_keys index) -> NoDup (mn_nodeKey <$> List.filter exits index).
Proof.
  unfold menu_keys. induction index as [|n index IH]; cbn; [done|]. intros [Hn Hnd]%NoDup_cons. destruct (exits n); [|by apply IH].
  cbn. apply NoDup_cons. split; [|by apply IH]. intros (m & E & [Hm _]%list_elem_of_In%List.filter_In)%list_elem_of_fmap. apply Hn. rewrite E.
  apply list_elem_of_fmap_2. by apply list_elem_of_In.
Qed.

Lemma canExitOf_spec index k : NoDup (menu_keys index) -> k ∈ canExitOf index <-> exists e, rtc (menu_edge index) k e /\ exit_node index e.
Proof.
  intros Hnd. set (P := fun k => exists e, rtc (menu_edge index) k e /\ exit_node index e).
  destruct (grow_spec index P) with (fuel := S (length index)) (c := mn_nodeKey <$> List.filter exits index) as (H1 & H2 & H3 & H4).
  - intros n t Hn Ht (e & He & Hx). exists e. split; [|done]. eapply rtc_l; [|exact He]. unfold menu_edge, targets. by rewrite (node_at_elem _ _ Hnd Hn).
  - by apply exits_keys.
  - intros x (n & -> & [Hn _]%list_elem_of_In%List.filter_In)%list_elem_of_fmap. apply list_elem_of_fmap_2. by apply list_elem_of_In.
  - lia.
  - apply Forall_forall. intros x (n & -> & [Hn%list_elem_of_In Hx]%list_elem_of_In%List.filter_In)%list_elem_of_fmap. exists (mn_nodeKey n). split; [apply rtc_refl|].
    exists n. split; [by apply node_at_elem|done].
  - change (grow _ _ _) with (canExitOf index) in H1, H2, H3, H4. rewrite Forall_forall in H3. split; [by apply H3|]. intros (e & He & (n & Hn & Hx)).
    induction He as [x|x y z Hxy _ IH].
    + apply H1. apply node_at_Some in Hn as [Hn <-]. apply list_elem_of_fmap_2. by apply list_elem_of_In, List.filter_In; split; [apply list_elem_of_In|].
    + unfold menu_edge, targets in Hxy. destruct (node_at index x) as [m|] eqn:Em; cbn in Hxy; [|set_solver]. apply node_at_Some in Em as [Hm <-].
      eapply H4; [done|exact Hxy|by apply IH].
Qed.

(** ** Validation is exact *)

Lemma missing_false keys l : missing keys l = false <-> keys ⊆ l.
Proof.
  unfold missing. rewrite <- not_true_iff_false, existsb_exists. split.
  - intros H k Hk. apply dec_stable. intros Hn. apply H. exists k. split; [by apply list_elem_of_In|]. by rewrite bool_decide_false.
  - intros H (k & Hk & E). apply list_elem_of_In, H in Hk. by rewrite bool_decide_true in E.
Qed.

Lemma resolved_false index : existsb (fun n => existsb (fun t => negb (indexed index t)) (node_targets n)) index = false <->
  forall n t, n ∈ index -> t ∈ node_targets n -> indexed index t = true.
Proof.
  rewrite <- not_true_iff_false, existsb_exists. split.
  - intros H n t Hn Ht. apply not_false_is_true. intros E. apply H. exists n. split; [by apply list_elem_of_In|]. apply existsb_exists. exists t.
    split; [by apply list_elem_of_In|by rewrite E].
  - intros H (n & Hn & (t & Ht & E)%existsb_exists). rewrite (H n t) in E; [done|by apply list_elem_of_In..].
Qed.

Lemma fits_false index budget : existsb (fun n => budget <? nodeCost n) index = false <-> Forall (fun n => nodeCost n <= budget) index.
Proof.
  rewrite <- not_true_iff_false, existsb_exists, Forall_forall. split.
  - intros H n Hn. apply Z.nlt_ge. intros E. apply H. exists n. split; [by apply list_elem_of_In|lia].
  - intros H (n & Hn & E). apply list_elem_of_In, H in Hn. lia.
Qed.

Lemma freeze_shapes backKey nodes : Forall (node_shape backKey) (freezeNode <$> nodes) <-> Forall (node_shape backKey) nodes.
Proof. by rewrite Forall_fmap. Qed.

(** The checks after the index is built, against the graph they describe. *)
Lemma graph_checks index backKey budget root : NoDup (menu_keys index) -> Forall (fun k => inherited k = false) (menu_keys index) ->
  List.filter mn_isRoot index = [root] ->
  let g := MkMenuGraph index (mn_nodeKey root) backKey budget in
  (existsb (fun n => existsb (fun t => negb (indexed index t)) (node_targets n)) index = false /\
   missing (mn_nodeKey <$> index) (reachableFrom index (mn_nodeKey root)) = false /\
   missing (reachableFrom index (mn_nodeKey root)) (canExitOf index) = false /\
   existsb (fun n => budget <? nodeCost n) index = false) <->
  ((forall a b, menu_edge index a b -> b ∈ menu_keys index) /\
   (forall k, k ∈ menu_keys index -> rtc (menu_edge index) (mn_nodeKey root) k) /\
   (forall k, k ∈ menu_keys index -> exists e, rtc (menu_edge index) k e /\ exit_node index e) /\
   Forall (fun n => nodeCost n <= budget) index).
Proof.
  intros Hnd Hown Hroot g. rewrite resolved_false, !missing_false, fits_false. change (mn_nodeKey <$> index) with (menu_keys index).
  assert (forall n t, n ∈ index -> t ∈ node_targets n -> menu_edge index (mn_nodeKey n) t) as Hedge.
  { intros n t Hn Ht. unfold menu_edge, targets. by rewrite (node_at_elem _ _ Hnd Hn). }
  split.
  - intros (_ & Hr & Hx & Hf). assert (forall k, k ∈ menu_keys index -> rtc (menu_edge index) (mn_nodeKey root) k) as Hreach.
    { intros k Hk. by apply reachableFrom_spec, Hr. }
    split; [|split; [done|split; [|done]]].
    + intros a b Hab. assert (a ∈ menu_keys index) as Ha.
      { unfold menu_edge, targets in Hab. apply node_at_key. destruct (node_at index a); [done|set_solver]. }
      assert (b ∈ canExitOf index) as Hb by (apply Hx, reachableFrom_spec; eapply rtc_r; [by apply Hreach|done]).
      apply canExitOf_spec in Hb as (e & He & (n & Hn & _)); [|done]. inversion He as [|x y z Hxy _]; subst.
      * by apply node_at_key; eexists.
      * unfold menu_edge, targets in Hxy. apply node_at_key. destruct (node_at index b); [done|set_solver].
    + intros k Hk. by apply canExitOf_spec, Hx, reachableFrom_spec, Hreach.
  - intros (Hcl & Hr & Hx & Hf). split; [|split; [|split; [|done]]].
    + intros n t Hn Ht. apply indexed_true. left. by apply (Hcl (mn_nodeKey n)), Hedge.
    + intros k Hk. by apply reachableFrom_spec, Hr.
    + intros k Hk%reachableFrom_spec. apply canExitOf_spec; [done|]. apply Hx. apply rtc_inv_r in Hk as [<-|(y & _ & Hy)]; [|by eapply Hcl].
      assert (root ∈ List.filter mn_isRoot index) as [Hin _]%list_elem_of_In%List.filter_In by (rewrite Hroot; left).
      by apply list_elem_of_fmap_2, list_elem_of_In.
Qed.

Lemma assertMenuGraph_iff (nodes : list UssdMenuNode) (config : AssertMenuGraphConfig) (g : UssdMenuGraph) :
  assertMenuGraph nodes config = Ok g <->
  nodes <> [] /\ mg_nodes g = (freezeNode <$> nodes) /\ mg_backKey g = default DEFAULT_BACK_KEY (mc_backKey config) /\
  mg_backKey g <> ABORT_KEY /\ OPTION_KEY_PATTERN (mg_backKey g) = true /\
  safeInteger (default (num DEFAULT_SCREEN_BUDGET) (mc_screenBudget config)) = Some (mg_screenBudget g) /\ 0 < mg_screenBudget g /\ menu_valid g.
Proof.
  unfold assertMenuGraph. cbv zeta. split.
  - intros [Hne [Hb H]%guard_Ok]%guard_Ok. destruct (safeInteger _) as [budget|] eqn:Eb; [|done]. apply guard_Ok in H as [Hp H].
    apply bind_Ok in H as (index & (Hs & Hown & Hnd & _ & ->)%addNodes_Ok & H). cbn [app] in *.
    rewrite <- (freeze_keys nodes) in Hown, Hnd. destruct (List.filter mn_isRoot _) as [|root [|]] eqn:Er; [done| |done].
    apply guard_Ok in H as [H1%not_true_is_false [H2%not_true_is_false H]%guard_Ok]. apply guard_Ok in H as [H3%not_true_is_false [H4%not_true_is_false [= <-]]%guard_Ok].
    destruct (proj1 (graph_checks _ (default DEFAULT_BACK_KEY (mc_backKey config)) budget root Hnd Hown Er) (conj H1 (conj H2 (conj H3 H4)))) as (C1 & C2 & C3 & C4).
    cbn. split_and!; try done; [tauto|apply not_false_is_true; unfold BACK_KEY_PATTERN in Hb; tauto|lia|].
    split; try done; cbn. { by apply freeze_shapes. } by rewrite Er.
  - intros (Hne & En & Ek & Ha & Hp & Eb & Hpos & [V1 V2 V3 V4 V5 V6 V7 V8]). rewrite decide_False by done. rewrite <- Ek.
    rewrite decide_False by (unfold BACK_KEY_PATTERN; rewrite Hp; naive_solver). rewrite Eb. rewrite decide_False by lia.
    destruct g as [index rootKey backKey budget]. cbn [mg_nodes mg_rootKey mg_backKey mg_screenBudget] in *. subst index.
    rewrite (proj2 (addNodes_Ok backKey nodes [] (freezeNode <$> nodes))) by (rewrite freeze_shapes, freeze_keys in *; split_and!; [done..|set_solver|done]).
    cbn [mbind result_bind]. destruct (List.filter mn_isRoot _) as [|root [|]] eqn:Er; [done| |done]. injection V4 as V4.
    destruct (proj2 (graph_checks _ backKey budget root V2 V3 Er)) as (H1 & H2 & H3 & H4); [rewrite V4; done|].
    rewrite H1, H2, H3, H4. do 4 rewrite decide_False by done. by rewrite V4.
Qed.

(** A menu is accepted exactly when it is usable: well-shaped nodes under distinct keys, one
    root, every target defined, every node reachable from the root and able to leave the
    menu, every screen within the budget.  Both search loops always end with the exact sets. *)
Theorem menu_validation_exact (nodes : list UssdMenuNode) (config : AssertMenuGraphConfig) (g : UssdMenuGraph) :
  assertMenuGraph nodes config = Ok g <->
  nodes <> [] /\ mg_nodes g = (freezeNode <$> nodes) /\ mg_backKey g = default DEFAULT_BACK_KEY (mc_backKey config) /\
  mg_backKey g <> ABORT_KEY /\ OPTION_KEY_PATTERN (mg_backKey g) = true /\
  safeInteger (default (num DEFAULT_SCREEN_BUDGET) (mc_screenBudget config)) = Some (mg_screenBudget g) /\ 0 < mg_screenBudget g /\ menu_valid g.
Proof. apply assertMenuGraph_iff. Qed.

(** ** Samples *)

Definition sample_nodes : list UssdMenuNode :=
  [MkMenuNode "main" "menu.main" (Some [MkMenuOption "1" "menu.balance" (to_flow "balance_query" None); MkMenuOption "2" "menu.more" (to_node "more");
                                        MkMenuOption "3" "menu.bye" (to_node "bye")]) true false;
   MkMenuNode "more" "menu.more.title" (Some [MkMenuOption "1" "menu.statement" (to_flow "statement_query" (Some [("period", "last_30_days")]));
                                              MkMenuOption "2" "menu.bye" (to_node "bye"); MkMenuOption "3" "menu.main" (to_node "main")]) false false;
   MkMenuNode "bye" "menu.goodbye" None false true].
Definition sample_menu : UssdMenuGraph := MkMenuGraph (freezeNode <$> sample_nodes) "main" "0" 182.

Example sample_menu_accepted : assertMenuGraph sample_nodes (MkMenuConfig None None) = Ok sample_menu.
Proof. vm_compute. reflexivity. Qed.

(** The index is a plain object: a node key that names a member of [Object.prototype] is
    refused as defined twice. *)
Theorem inherited_node_key_is_a_duplicate :
  assertMenuGraph [MkMenuNode "constructor" "menu.main" None true true] (MkMenuConfig None None) = Err (DomainError "USSD_MENU_NODE_DUPLICATE") /\
  assertMenuGraph [MkMenuNode "main" "menu.main" None true true] (MkMenuConfig None None) =
    Ok (MkMenuGraph [MkMenuNode "main" "menu.main" (Some []) true true] "main" "0" 182).
Proof. split; vm_compute; reflexivity. Qed.
