(* ===== verification/UssdFlows.v ===== *)
(** * USSD flows

    src/domain/ussd/flows.ts: the five customer flows over injected read-only ports.

    A port is a parameter, a function from the request to its answer, which can throw
    ([Err]) and can be any JavaScript value ([jvalue]).  Failure details are [None] where the
    lane composes the text. *)

From stdpp Require Import prelude strings list.
From Stdlib Require Import ZArith Lia Ascii.
From S2P Require Import Prelude JsNumber JsString JsDate JsJson Money AuditRedact UssdMenu.
Local Open Scope string_scope.
Local Open Scope list_scope.
Local Open Scope Z_scope.
Local Open Scope js_scope.

Definition USSD_FLOW_UNAVAILABLE : string := "USSD_FLOW_UNAVAILABLE".
Definition USSD_FLOW_NOT_WIRED : string := "USSD_FLOW_NOT_WIRED".
Definition USSD_FLOW_PORT_MALFORMED : string := "USSD_FLOW_PORT_MALFORMED".
Definition USSD_FLOW_EVIDENCE_REQUIRED : string := "USSD_FLOW_EVIDENCE_REQUIRED".
Definition USSD_FLOW_LIMIT_INVALID : string := "USSD_FLOW_LIMIT_INVALID".
Definition USSD_SCREEN_OVERBUDGET : string := "USSD_SCREEN_OVERBUDGET".
Definition DEFAULT_INVOICE_LIMIT : Z := 3.

Record UssdQueryRequest := MkQuery { q_orgId : Uuid; q_customerId : Uuid; q_msisdn : string; q_now : Date }.
Record StatementQueryRequest := MkStatementQuery { sq_query : UssdQueryRequest; sq_period : string }.

Record UssdFlowContext := MkFlowContext {
  fc_orgId : Uuid;
  fc_customerId : Uuid;
  fc_msisdn : string;
  fc_now : Date;
  fc_args : list (string * string);
}.

Inductive UssdFlowResult :=
| balance_result (amountMinor : Z) (currency : Currency) (display : string) (evidenceRef : string)
| invoice_list_result (totalAvailable shown : Z) (lines : list string) (evidenceRef : string)
| statement_result (statementRef periodStart periodEnd : string) (totalInvoicedMinor totalPaidMinor : Z) (currency : Currency) (evidenceRef : string)
| plan_result (planIntentRef : string) (receivableId : option string) (evidenceRef : string)
| handoff_result (handoffRef : string) (invoiceId : option string) (payRef : string) (evidenceRef : string).

Inductive UssdFlowOutcome :=
| flow_completed (result : UssdFlowResult)
| flow_failed (code : string) (detail : option string).

Notation UssdFlowHandler := (UssdFlowContext -> UssdFlowOutcome).

Definition evidenceOf (r : UssdFlowResult) : string :=
  match r with
  | balance_result _ _ _ ref | invoice_list_result _ _ _ ref | statement_result _ _ _ _ _ _ ref | plan_result _ _ ref | handoff_result _ _ _ ref => ref
  end.

Definition DEFAULT_FLOW_TEXT_KEYS (r : UssdFlowResult) : string :=
  match r with
  | balance_result _ _ _ _ => "ussd.flow.balance_query.completed"
  | invoice_list_result _ _ _ _ => "ussd.flow.invoice_list.completed"
  | statement_result _ _ _ _ _ _ _ => "ussd.flow.statement_query.completed"
  | plan_result _ _ _ => "ussd.flow.plan_request.completed"
  | handoff_result _ _ _ _ => "ussd.flow.payment_handoff.completed"
  end.
Definition FLOW_FAILED_TEXT_KEY : string := "ussd.flow.failed".

(** ** Early returns

    A flow either goes on with a value or stops with an outcome. *)

Inductive screened (A : Type) := Go (a : A) | Stop (o : UssdFlowOutcome).
Arguments Go {A}.
Arguments Stop {A}.
#[export] Instance screened_bind : MBind screened := fun A B f m => match m with Go a => f a | Stop o => Stop o end.
Definition outcome (m : screened UssdFlowResult) : UssdFlowOutcome := match m with Go r => flow_completed r | Stop o => o end.
(** [if (!ok) return failed(code, ...)] for a test that also reads the value. *)
Definition need {A} (code : string) (m : option A) : screened A := match m with Some a => Go a | None => Stop (flow_failed code None) end.
Definition malformed {A} (m : option A) : screened A := need USSD_FLOW_PORT_MALFORMED m.

(** ** Reading untrusted values *)

Definition is_object (v : jvalue) : bool := match v with JObject _ | JInstance _ | JArray _ => true | _ => false end.
(** [v.key]; no name read here is a member of [Object.prototype] or of an array. *)
Definition member (v : jvalue) (key : string) : jvalue :=
  match v with JObject es | JInstance es => default JUndefined (find_member key es) | _ => JUndefined end.

Definition nonBlank (v : jvalue) : option string :=
  match v with JString s => if decide (trim s = "") then None else Some s | _ => None end.
Definition isSafeNonNegativeInt (v : jvalue) : option Z :=
  match v with JNumber x => match safeInteger x with Some z => if 0 <=? z then Some z else None | None => None end | _ => None end.
Definition isCurrency (v : jvalue) : option Currency := match v with JString s => currency_of_string s | _ => None end.
(** Null, absent, or a non-blank string. *)
Definition optionalRef (v : jvalue) : option (option string) :=
  match v with JNull | JUndefined => Some None | _ => Some <$> nonBlank v end.
Definition objectOf (v : jvalue) : option jvalue := if is_object v then Some v else None.

(** [Money.ofMinor(...).toString()], on amounts already found to be safe and non-negative. *)
Definition display (minor : Z) (c : Currency) : string := Money.toString (MkMoney minor c).

(** [/^\d{4}-\d{2}-\d{2}/] *)
Definition DATE_PREFIX (s : string) : bool :=
  match seqr (digits_n 4) (seqr (lit "-"%char) (seqr (digits_n 2) (seqr (lit "-"%char) (digits_n 2)))) (explode s) with Some _ => true | None => false end.

(** [tryPort]: what a port threw is reported as unavailability, with a composed reason. *)
Definition tryPort (answer : result jvalue) : screened jvalue :=
  match answer with Ok v => Go v | Err _ => Stop (flow_failed USSD_FLOW_UNAVAILABLE None) end.

Definition answerOr (answer : jvalue) : screened (jvalue * string) :=
  match is_object answer, member answer "available" with
  | true, JBool false => Stop (flow_failed USSD_FLOW_UNAVAILABLE (nonBlank (member answer "reason")))
  | true, JBool true => ref ← need USSD_FLOW_EVIDENCE_REQUIRED (nonBlank (member answer "evidenceRef")); Go (member answer "data", ref)
  | _, _ => Stop (flow_failed USSD_FLOW_PORT_MALFORMED None)
  end.

Definition queryOf (ctx : UssdFlowContext) : UssdQueryRequest := MkQuery (fc_orgId ctx) (fc_customerId ctx) (fc_msisdn ctx) (fc_now ctx).

(** ** The flows *)

Definition balanceQueryFlow (port : UssdQueryRequest -> result jvalue) : UssdFlowHandler := fun ctx => outcome (
  answer ← tryPort (port (queryOf ctx));
  '(raw, evidenceRef) ← answerOr answer;
  data ← malformed (objectOf raw);
  amountMinor ← malformed (isSafeNonNegativeInt (member data "amountMinor"));
  currency ← malformed (isCurrency (member data "currency"));
  Go (balance_result amountMinor currency (display amountMinor currency) evidenceRef)).

Section parse.
  Context (Date_parse : string -> option Z).

Definition isIsoDate (v : jvalue) : option string :=
  match v with JString s => if DATE_PREFIX s && bool_decide (is_Some (Date_parse s)) then Some s else None | _ => None end.

(** One entry of the list: its line. *)
Definition invoiceLine (raw : jvalue) : screened string :=
  inv ← malformed (objectOf raw);
  _ ← malformed (nonBlank (member inv "invoiceId"));
  number ← malformed (nonBlank (member inv "number"));
  dueAmountMinor ← malformed (isSafeNonNegativeInt (member inv "dueAmountMinor"));
  currency ← malformed (isCurrency (member inv "currency"));
  dueDate ← malformed (isIsoDate (member inv "dueDate"));
  Go (number +:+ " " +:+ display dueAmountMinor currency +:+ " due " +:+ implode (take 10 (explode dueDate))).

(** The loop over the entries; entries past the limit are still checked. *)
Fixpoint invoiceLines (limit : Z) (lines : list string) (invoices : list jvalue) : screened (list string) :=
  match invoices with
  | [] => Go lines
  | raw :: rest =>
      line ← invoiceLine raw;
      invoiceLines limit (if Z.of_nat (length lines) <? limit then lines ++ [line] else lines) rest
  end.

Definition invoiceListFlow (port : UssdQueryRequest -> result jvalue) (limit : option number) : result UssdFlowHandler :=
  match safeInteger (default (num DEFAULT_INVOICE_LIMIT) limit) with
  | None => Err (DomainError USSD_FLOW_LIMIT_INVALID)
  | Some limit =>
      refuse (limit <= 0) with USSD_FLOW_LIMIT_INVALID ;;
      Ok (fun ctx => outcome (
        answer ← tryPort (port (queryOf ctx));
        '(data, evidenceRef) ← answerOr answer;
        invoices ← malformed (match member data "invoices" with JArray items => Some items | _ => None end);
        lines ← invoiceLines limit [] invoices;
        Go (invoice_list_result (Z.of_nat (length invoices)) (Z.of_nat (length lines)) lines evidenceRef)))
  end.

(** [ctx.args.period] *)
Definition argOf (key : string) (args : list (string * string)) : string :=
  default "" (snd <$> List.find (fun a => bool_decide (a.1 = key)) args).

Definition periodOf (ctx : UssdFlowContext) : string :=
  if decide (trim (argOf "period" (fc_args ctx)) = "") then "" else argOf "period" (fc_args ctx).

Definition statementQueryFlow (port : StatementQueryRequest -> result jvalue) : UssdFlowHandler := fun ctx => outcome (
  answer ← tryPort (port (MkStatementQuery (queryOf ctx) (periodOf ctx)));
  '(raw, evidenceRef) ← answerOr answer;
  data ← malformed (objectOf raw);
  statementRef ← malformed (nonBlank (member data "statementRef"));
  periodStart ← malformed (isIsoDate (member data "periodStart"));
  periodEnd ← malformed (isIsoDate (member data "periodEnd"));
  invoiced ← malformed (isSafeNonNegativeInt (member data "totalInvoicedMinor"));
  paid ← malformed (isSafeNonNegativeInt (member data "totalPaidMinor"));
  currency ← malformed (isCurrency (member data "currency"));
  Go (statement_result statementRef periodStart periodEnd invoiced paid currency evidenceRef)).

Definition planRequestFlow (port : UssdQueryRequest -> result jvalue) : UssdFlowHandler := fun ctx => outcome (
  answer ← tryPort (port (queryOf ctx));
  '(raw, evidenceRef) ← answerOr answer;
  data ← malformed (objectOf raw);
  planIntentId ← malformed (nonBlank (member data "planIntentId"));
  receivableId ← malformed (optionalRef (member data "receivableId"));
  Go (plan_result planIntentId receivableId evidenceRef)).

Definition paymentHandoffFlow (port : UssdQueryRequest -> result jvalue) : UssdFlowHandler := fun ctx => outcome (
  answer ← tryPort (port (queryOf ctx));
  '(raw, evidenceRef) ← answerOr answer;
  data ← malformed (objectOf raw);
  handoffRef ← malformed (nonBlank (member data "handoffRef"));
  invoiceId ← malformed (optionalRef (member data "invoiceId"));
  payBy ← malformed (optionalRef (member data "payBy"));
  Go (handoff_result handoffRef invoiceId (default "" payBy) evidenceRef)).

End parse.

(** ** Result to screen *)

Definition flowScreen (o : UssdFlowOutcome) : UssdScreen :=
  match o with
  | flow_failed code _ => MkScreen FLOW_FAILED_TEXT_KEY [("code", text_param code)]
  | flow_completed r => MkScreen (DEFAULT_FLOW_TEXT_KEYS r)
      match r with
      | balance_result _ _ shown _ => [("amount", text_param shown)]
      | invoice_list_result total shown lines _ => [("list", text_param (implode (joinWith "|"%char (explode <$> lines)))); ("shown", count_param shown); ("total", count_param total)]
      | statement_result ref _ _ invoiced paid c _ => [("ref", text_param ref); ("invoiced", text_param (display invoiced c)); ("paid", text_param (display paid c))]
      | plan_result intent _ _ => [("intent", text_param intent)]
      | handoff_result handoff _ payBy _ => [("handoff", text_param handoff); ("payBy", text_param payBy)]
      end
  end.

(** ** What a completed flow guarantees *)

Lemma bind_Go {A B} (f : A -> screened B) (m : screened A) b : (m ≫= f) = Go b <-> exists a, m = Go a /\ f a = Go b.
Proof. destruct m; cbn; naive_solver. Qed.

Lemma need_Go {A} code (m : option A) a : need code m = Go a <-> m = Some a.
Proof. destruct m; cbn; naive_solver. Qed.

Lemma outcome_completed m r : outcome m = flow_completed r -> m = Go r \/ exists o, m = Stop o /\ o = flow_completed r.
Proof. destruct m; cbn; [intros [= ->]; by left|intros ->; right; by eexists]. Qed.

(** The answer is available and names its evidence. *)
Definition answered (answer : jvalue) (data : jvalue) (ref : string) : Prop :=
  is_object answer = true /\ member answer "available" = JBool true /\ member answer "evidenceRef" = JString ref /\ trim ref <> "" /\ data = member answer "data".

Lemma nonBlank_Some v s : nonBlank v = Some s <-> v = JString s /\ trim s <> "".
Proof. destruct v as [| | | | |x| | | |]; cbn; try (split; [done|]; intros [? _]; done). case_decide; naive_solver. Qed.

Lemma answerOr_Go answer data ref : answerOr answer = Go (data, ref) <-> answered answer data ref.
Proof.
  unfold answerOr, answered. destruct (is_object answer); [|naive_solver]. destruct (member answer "available") as [| |[] | | | | | | |]; try naive_solver.
  rewrite bind_Go. split.
  - intros (x & [Hx Hn]%need_Go%nonBlank_Some & [= <- <-]). done.
  - intros (_ & _ & Hr & Hn & ->). exists ref. split; [|done]. by apply need_Go, nonBlank_Some.
Qed.

Lemma answerOr_Stop answer o : answerOr answer = Stop o -> exists code detail, o = flow_failed code detail.
Proof.
  unfold answerOr. destruct (is_object answer); [|intros [= <-]; by do 2 eexists]. destruct (member answer "available") as [| |[] | | | | | | |]; intros H; try (injection H as <-; by do 2 eexists).
  destruct (nonBlank (member answer "evidenceRef")); cbn in H; [done|]. injection H as <-. by do 2 eexists.
Qed.

Section screen.
  Context (answer : result jvalue) (k : jvalue -> string -> screened UssdFlowResult).
  Context (Hk : forall data ref o, k data ref = Stop o -> exists code detail, o = flow_failed code detail).

Lemma screened_flow r : outcome (a ← tryPort answer; '(data, ref) ← answerOr a; k data ref) = flow_completed r ->
  exists a data ref, answer = Ok a /\ answered a data ref /\ k data ref = Go r.
Proof.
  intros [H|(o & H & ->)]%outcome_completed.
  - apply bind_Go in H as (a & Ha & H). apply bind_Go in H as ([data ref] & Hd%answerOr_Go & H). destruct answer as [v|]; [|done]. injection Ha as ->. by exists a, data, ref.
  - exfalso. destruct answer as [v|]; cbn in H; [|done]. destruct (answerOr v) as [[data ref]|o] eqn:E; cbn in H.
    + apply Hk in H as (? & ? & [=]).
    + injection H as ->. apply answerOr_Stop in E as (? & ? & [=]).
Qed.
End screen.

Lemma need_Stop {A} code (m : option A) o : need code m = Stop o -> exists c d, o = flow_failed c d.
Proof. destruct m; [done|]. intros [= <-]. by do 2 eexists. Qed.

Lemma bind_Stop {A B} (f : A -> screened B) m o : (m ≫= f) = Stop o -> m = Stop o \/ exists a, m = Go a /\ f a = Stop o.
Proof. destruct m; cbn; naive_solver. Qed.

(** Every early stop of a flow body is a failure. *)
Ltac stops :=
  first [done | let Hs := fresh "Hs" in intros [Hs%need_Stop|(? & _ & Hs)]%bind_Stop; [done|revert Hs; stops]].

Lemma invoiceLine_Stop Date_parse raw o : invoiceLine Date_parse raw = Stop o -> exists c d, o = flow_failed c d.
Proof. unfold invoiceLine, malformed. stops. Qed.

(** The lines of the entries, in order, up to the limit. *)
Lemma invoiceLines_Go Date_parse limit lines l out : invoiceLines Date_parse limit lines l = Go out <->
  exists all, Forall2 (fun raw line => invoiceLine Date_parse raw = Go line) l all /\ out = lines ++ take (Z.to_nat limit - length lines) all.
Proof.
  revert lines. induction l as [|raw l IH]; intros lines; cbn [invoiceLines].
  - split; [intros [= ->]; exists []; split; [constructor|by rewrite take_nil, app_nil_r]|]. intros (all & H%Forall2_nil_inv_l & ->). subst. by rewrite take_nil, app_nil_r.
  - rewrite bind_Go. split.
    + intros (line & Hl & (all & Hall & ->)%IH). exists (line :: all). split; [by constructor|]. destruct (Z.ltb_spec (Z.of_nat (length lines)) limit).
      * rewrite length_app. cbn. replace (Z.to_nat limit - length lines)%nat with (S (Z.to_nat limit - (length lines + 1)))%nat by lia. by rewrite <- app_assoc.
      * by replace (Z.to_nat limit - length lines)%nat with 0%nat by lia.
    + intros (all & Hall & ->). destruct all as [|line all]; [by apply Forall2_cons_nil_inv in Hall|]. apply Forall2_cons in Hall as [Hl Hall].
      exists line. split; [done|]. apply IH. exists all. split; [done|]. destruct (Z.ltb_spec (Z.of_nat (length lines)) limit).
      * rewrite length_app. cbn. replace (Z.to_nat limit - length lines)%nat with (S (Z.to_nat limit - (length lines + 1)))%nat by lia. by rewrite <- app_assoc.
      * by replace (Z.to_nat limit - length lines)%nat with 0%nat by lia.
Qed.

Lemma invoiceLines_Stop Date_parse limit lines l o : invoiceLines Date_parse limit lines l = Stop o -> exists c d, o = flow_failed c d.
Proof.
  revert lines. induction l as [|raw l IH]; intros lines; cbn [invoiceLines]; [done|]. intros [H%invoiceLine_Stop|(a & _ & H%IH)]%bind_Stop; done.
Qed.

Definition safe_minor (z : Z) : Prop := 0 <= z <= MAX_SAFE_INTEGER.

(** What the data of the answer must be for the result shown. *)
Definition backed (Date_parse : string -> option Z) (data : jvalue) (r : UssdFlowResult) : Prop :=
  match r with
  | balance_result minor c shown _ => safe_minor minor /\ member data "currency" = JString (show_currency c) /\ shown = Money.toString (MkMoney minor c)
  | invoice_list_result total shown lines _ =>
      exists items all, member data "invoices" = JArray items /\ Forall2 (fun raw line => invoiceLine Date_parse raw = Go line) items all /\
        total = Z.of_nat (length items) /\ shown = Z.of_nat (length lines) /\ shown <= total /\ lines `prefix_of` all
  | statement_result ref from till invoiced paid c _ =>
      member data "statementRef" = JString ref /\ trim ref <> "" /\ safe_minor invoiced /\ safe_minor paid /\ is_Some (Date_parse from) /\ is_Some (Date_parse till)
  | plan_result intent _ _ => member data "planIntentId" = JString intent /\ trim intent <> ""
  | handoff_result handoff _ _ _ => member data "handoffRef" = JString handoff /\ trim handoff <> ""
  end.

(** A run of one of the five flows, with the answer its port gave. *)
Inductive flow_run (Date_parse : string -> option Z) : result jvalue -> UssdFlowOutcome -> Prop :=
| run_balance port ctx : flow_run Date_parse (port (queryOf ctx)) (balanceQueryFlow port ctx)
| run_invoices port limit h ctx : invoiceListFlow Date_parse port limit = Ok h -> flow_run Date_parse (port (queryOf ctx)) (h ctx)
| run_statement port ctx : flow_run Date_parse (port (MkStatementQuery (queryOf ctx) (periodOf ctx))) (statementQueryFlow Date_parse port ctx)
| run_plan port ctx : flow_run Date_parse (port (queryOf ctx)) (planRequestFlow port ctx)
| run_handoff port ctx : flow_run Date_parse (port (queryOf ctx)) (paymentHandoffFlow port ctx).

Lemma safe_of v z : isSafeNonNegativeInt v = Some z -> safe_minor z.
Proof.
  destruct v as [| | |x| | | | | |]; cbn; try done. destruct (safeInteger x) as [y|] eqn:E; [|done]. destruct (0 <=? y) eqn:Hy; [|done]. intros [= ->].
  apply safeInteger_bound in E. unfold safe_minor. lia.
Qed.

Lemma currency_of v c : isCurrency v = Some c -> v = JString (show_currency c).
Proof. destruct v; try done. cbn [isCurrency]. unfold currency_of_string. intros [_ H%bool_decide_eq_true]%List.find_some. by rewrite H. Qed.

Lemma date_of Date_parse v s : isIsoDate Date_parse v = Some s -> is_Some (Date_parse s).
Proof. destruct v; cbn; try done. destruct (DATE_PREFIX _); cbn; [|done]. case_bool_decide; [|done]. by intros [= <-]. Qed.

Lemma objectOf_Some v d : objectOf v = Some d -> d = v.
Proof. unfold objectOf. destruct (is_object v); [by intros [= <-]|done]. Qed.

(** A flow always ends in an outcome: a failure with its code, or a result read off an
    available answer of its port, carrying that answer's evidence and only amounts, dates
    and entries that passed every check. *)
Theorem completed_flows_are_backed (Date_parse : string -> option Z) (answer : result jvalue) (o : UssdFlowOutcome) :
  flow_run Date_parse answer o ->
  (exists code detail, o = flow_failed code detail) \/
  exists r a data, o = flow_completed r /\ answer = Ok a /\ answered a data (evidenceOf r) /\ backed Date_parse data r.
Proof.
  destruct o as [r|code detail]; [|left; by do 2 eexists]. intros H. right. exists r.
  inversion H as [port ctx Ha Ho|port limit h ctx Hh Ha Ho|port ctx Ha Ho|port ctx Ha Ho|port ctx Ha Ho]; subst answer; clear H.
  - apply screened_flow in Ho as (a & data & ref & Ha & Hans & Hk); [|unfold malformed; intros ? ? ?; stops]. exists a, data. split; [done|]. split; [done|].
    apply bind_Go in Hk as (d & Hd%need_Go & Hk). apply bind_Go in Hk as (z & Hz%need_Go%safe_of & Hk). apply bind_Go in Hk as (c & Hc%need_Go%currency_of & [= <-]).
    apply objectOf_Some in Hd as ->. done.
  - unfold invoiceListFlow in Hh. destruct (safeInteger _) as [lim|]; [|done]. apply guard_Ok in Hh as [Hlim [= <-]].
    apply screened_flow in Ho as (a & data & ref & Ha & Hans & Hk).
    2:{ intros ? ? ? [Hs|(? & _ & [Hs|(? & _ & Hs)]%bind_Stop)]%bind_Stop; [by apply need_Stop in Hs|by apply invoiceLines_Stop in Hs|done]. }
    exists a, data. split; [done|]. split; [done|]. apply bind_Go in Hk as (items & Hi%need_Go & Hk). apply bind_Go in Hk as (lines & (all & Hall & ->)%invoiceLines_Go & [= <-]).
    split; [done|]. destruct (member data "invoices") as [| | | | | | |items'| |] eqn:E; try done. injection Hi as ->. cbn [app length] in *. rewrite Nat.sub_0_r. exists items, all.
    pose proof (Forall2_length _ _ _ Hall) as Hlen. split_and!; try done; [rewrite length_take; lia|]. apply prefix_take.
  - apply screened_flow in Ho as (a & data & ref & Ha & Hans & Hk); [|unfold malformed; intros ? ? ?; stops]. exists a, data. split; [done|]. split; [done|].
    apply bind_Go in Hk as (d & Hd%need_Go%objectOf_Some & Hk). subst d. apply bind_Go in Hk as (x & [Hx Hx']%need_Go%nonBlank_Some & Hk).
    apply bind_Go in Hk as (x1 & H1%need_Go%date_of & Hk). apply bind_Go in Hk as (x2 & H2%need_Go%date_of & Hk).
    apply bind_Go in Hk as (x3 & H3%need_Go%safe_of & Hk). apply bind_Go in Hk as (x4 & H4%need_Go%safe_of & Hk). by apply bind_Go in Hk as (c & _ & [= <-]).
  - apply screened_flow in Ho as (a & data & ref & Ha & Hans & Hk); [|unfold malformed; intros ? ? ?; stops]. exists a, data. split; [done|]. split; [done|].
    apply bind_Go in Hk as (d & Hd%need_Go%objectOf_Some & Hk). subst d. apply bind_Go in Hk as (x & [Hx Hx']%need_Go%nonBlank_Some & Hk).
    by apply bind_Go in Hk as (y & _ & [= <-]).
  - apply screened_flow in Ho as (a & data & ref & Ha & Hans & Hk); [|unfold malformed; intros ? ? ?; stops]. exists a, data. split; [done|]. split; [done|].
    apply bind_Go in Hk as (d & Hd%need_Go%objectOf_Some & Hk). subst d. apply bind_Go in Hk as (x & [Hx Hx']%need_Go%nonBlank_Some & Hk).
    apply bind_Go in Hk as (y & _ & Hk). by apply bind_Go in Hk as (y' & _ & [= <-]).
Qed.

Definition sample_port (q : UssdQueryRequest) : result jvalue :=
  Ok (JObject [("available", JBool true); ("evidenceRef", JString "ev-1"); ("data", JObject [("amountMinor", JNumber (num 12550)); ("currency", JString "KES")])]).
Definition sample_context : UssdFlowContext := MkFlowContext "org" "c1" "+254712345678" 0 [].

Lemma completed_flows_are_backed_witness : exists a data,
  sample_port (queryOf sample_context) = Ok a /\ answered a data "ev-1" /\ balanceQueryFlow sample_port sample_context = flow_completed (balance_result 12550 KES "125.50 KES" "ev-1").
Proof.
  assert (balanceQueryFlow sample_port sample_context = flow_completed (balance_result 12550 KES "125.50 KES" "ev-1")) as E by (vm_compute; reflexivity).
  destruct (completed_flows_are_backed (fun _ => None) (sample_port (queryOf sample_context)) (balanceQueryFlow sample_port sample_context)) as [(code & detail & H)|(r & a & data & H & Ha & Hans & _)].
  - apply run_balance.
  - rewrite E in H. discriminate H.
  - rewrite E in H. injection H as <-. exists a, data. split; [exact Ha|]. split; [exact Hans|exact E].
Defined.
