(* ===== verification/UssdSession.v ===== *)
(** * USSD sessions

    src/domain/ussd/session.ts and events.ts: phone numbers, starting a session, the step
    machine [respond], back-navigation by replaying the inputs, expiry and explicit end.

    Every step reads the clock once; the reading is an argument.  [us_expiresAt] is [None]
    for the invalid date a horizon past the last representable instant makes.  A session
    whose node names a member of [Object.prototype] and no menu node, which only starting it
    there can bring about, is outside the model. *)

From stdpp Require Import prelude strings list relations.
From Stdlib Require Import ZArith Lia Ascii.
From S2P Require Import Prelude JsNumber JsString JsDate JsJson Events UssdMenu UssdFlows.
Local Open Scope string_scope.
Local Open Scope list_scope.
Local Open Scope Z_scope.
Local Open Scope js_scope.

(** ** Phone numbers *)

(** The characters [/[\s\-().]/] removes. *)
Definition is_separator (c : ascii) : bool :=
  is_space c || bool_decide (c = "-"%char \/ c = "("%char \/ c = ")"%char \/ c = "."%char).

(** [[71]\d{8}] *)
Definition is_subscriber (l : chars) : bool :=
  match l with
  | c :: rest => bool_decide (c = "7"%char \/ c = "1"%char) && (length rest =? 8)%nat && forallb is_digit rest
  | [] => false
  end.

Definition MSISDN_PREFIXES : list chars := [[]; explode "+254"; explode "00254"; explode "254"; explode "0"].

(** The subscriber part is the last nine characters, whatever precedes it must be a prefix. *)
Definition normalizeMsisdn (raw : string) : result string :=
  let stripped := List.filter (fun c => negb (is_separator c)) (explode raw) in
  let n := (length stripped - 9)%nat in
  let subscriber := drop n stripped in
  refuse (is_subscriber subscriber = false \/ take n stripped ∉ MSISDN_PREFIXES) with "USSD_MSISDN_INVALID" ;;
  Ok ("+254" +:+ implode subscriber).

(** ** Sessions *)

Definition DEFAULT_USSD_TTL_MS : Z := 180000.
Definition USSD_INPUT_MAX_CHARS : nat := 8.
Definition SESSION_EXPIRED_TEXT_KEY : string := "ussd.common.session_expired".
Definition SESSION_ABORTED_TEXT_KEY : string := "ussd.common.session_aborted".

Inductive UssdSessionState := us_started | us_active | us_ended | us_expired | us_aborted.
#[export] Instance UssdSessionState_eq_dec : EqDecision UssdSessionState.
Proof. solve_decision. Defined.

Record UssdSession := MkUssdSession {
  us_sessionId : Uuid;
  us_orgId : Uuid;
  us_customerId : Uuid;
  us_msisdn : string;
  us_state : UssdSessionState;
  us_currentNodeKey : string;
  us_inputHistory : list string;
  us_ttlMs : Z;
  us_createdAt : Date;
  us_lastActiveAt : Date;
  us_expiresAt : option Date;
}.
#[export] Instance UssdSession_eta : Eta UssdSession := fun s =>
  MkUssdSession (us_sessionId s) (us_orgId s) (us_customerId s) (us_msisdn s) (us_state s) (us_currentNodeKey s) (us_inputHistory s) (us_ttlMs s)
    (us_createdAt s) (us_lastActiveAt s) (us_expiresAt s).

Inductive UssdEventPayload :=
| SessionStartedPayload (sessionId orgId customerId : Uuid) (rootKey startedAt : string)
| NavigatedPayload (sessionId orgId customerId : Uuid) (fromNode toNode via navigatedAt : string)
| InputRejectedPayload (sessionId orgId customerId : Uuid) (nodeKey input rejectedAt : string)
| FlowCompletedPayload (sessionId orgId customerId : Uuid) (flow evidenceRef completedAt : string)
| FlowFailedPayload (sessionId orgId customerId : Uuid) (flow reason : string) (detail : option string) (failedAt : string)
| SessionEndedPayload (sessionId orgId customerId : Uuid) (reason endedAt : string)
| SessionExpiredPayload (sessionId orgId customerId : Uuid) (idleTtlMs : Z) (expiredAt : string)
| SessionAbortedPayload (sessionId orgId customerId : Uuid) (nodeKey abortedAt : string).
Notation UssdAnyEvent := (DomainEvent UssdEventPayload).

Definition ussdEvent (nm : string) (sessionId : Uuid) (p : UssdEventPayload) (at_ : Date) : UssdAnyEvent := MkEnvelope nm sessionId p (toISOString at_).

(** [new Date(ms)]: invalid beyond the range of time values. *)
Definition dateOf (ms : Z) : option Date := if decide (Z.abs ms <= MAX_TIME) then Some ms else None.
(** [at >= expiresAt]; a comparison with an invalid date is false. *)
Definition reachedHorizon (at_ : Date) (expiresAt : option Date) : bool := match expiresAt with Some e => e <=? at_ | None => false end.

Record StartUssdSessionArgs := MkStartUssd {
  sg_sessionId : Uuid;
  sg_orgId : Uuid;
  sg_customerId : Uuid;
  sg_msisdn : string;
  sg_rootKey : string;
  sg_ttlMs : option number;
}.

Definition requireRef (value code : string) : result string :=
  refuse (trim value = "") with code ;; Ok value.

Definition startUssdSession (args : StartUssdSessionArgs) (at_ : Date) : result (UssdSession * UssdAnyEvent) :=
  sessionId ← requireRef (sg_sessionId args) "USSD_SESSION_ID_REQUIRED";
  orgId ← requireRef (sg_orgId args) "USSD_ORG_REQUIRED";
  customerId ← requireRef (sg_customerId args) "USSD_CUSTOMER_REQUIRED";
  rootKey ← requireRef (sg_rootKey args) "USSD_ROOT_KEY_REQUIRED";
  msisdn ← normalizeMsisdn (sg_msisdn args);
  match safeInteger (default (num DEFAULT_USSD_TTL_MS) (sg_ttlMs args)) with
  | None => Err (DomainError "USSD_TTL_INVALID")
  | Some ttlMs =>
      refuse (ttlMs <= 0) with "USSD_TTL_INVALID" ;;
      Ok (MkUssdSession sessionId orgId customerId msisdn us_started rootKey [] ttlMs at_ at_ (dateOf (at_ + ttlMs)),
          ussdEvent "ussd.sessionStarted" sessionId (SessionStartedPayload sessionId orgId customerId rootKey (toISOString at_)) at_)
  end.

(** ** The trail *)

Definition optionFor (node : UssdMenuNode) (key : string) : option UssdMenuOption :=
  List.find (fun o => bool_decide (mo_key o = key)) (optionsOf node).

(** One turn of the replay loop; [None] is its [break]. *)
Definition trailStep (graph : UssdMenuGraph) (trail : list string) (key : string) : option (list string) :=
  if decide (key = mg_backKey graph) then Some (if (1 <? length trail)%nat then removelast trail else trail)
  else match node_at (mg_nodes graph) (List.last trail "") with
       | None => None
       | Some node => Some match optionFor node key ≫= target_node with Some target => trail ++ [target] | None => trail end
       end.

Fixpoint trailFrom (graph : UssdMenuGraph) (trail history : list string) : list string :=
  match history with
  | [] => trail
  | key :: history => match trailStep graph trail key with Some trail => trailFrom graph trail history | None => trail end
  end.

Definition nodeTrail (graph : UssdMenuGraph) (history : list string) : list string := trailFrom graph [mg_rootKey graph] history.

(** ** Steps *)

Inductive EndReason := menu_exit | aborted_by_customer.

Inductive UssdStep :=
| ussd_navigation (session : UssdSession) (screen : UssdScreen) (event : UssdAnyEvent)
| ussd_reprompt (session : UssdSession) (screen : UssdScreen) (event : UssdAnyEvent)
| ussd_flow (session : UssdSession) (screen : UssdScreen) (outcome : UssdFlowOutcome) (events : list UssdAnyEvent)
| ussd_expired (session : UssdSession) (screen : UssdScreen) (event : UssdAnyEvent)
| ussd_end (reason : EndReason) (session : UssdSession) (screen : UssdScreen) (events : list UssdAnyEvent).

Definition step_session (st : UssdStep) : UssdSession :=
  match st with ussd_navigation s _ _ | ussd_reprompt s _ _ | ussd_flow s _ _ _ | ussd_expired s _ _ | ussd_end _ s _ _ => s end.
Definition step_screen (st : UssdStep) : UssdScreen :=
  match st with ussd_navigation _ c _ | ussd_reprompt _ c _ | ussd_flow _ c _ _ | ussd_expired _ c _ | ussd_end _ _ c _ => c end.
Definition step_events (st : UssdStep) : list UssdAnyEvent :=
  match st with ussd_navigation _ _ e | ussd_reprompt _ _ e | ussd_expired _ _ e => [e] | ussd_flow _ _ _ es | ussd_end _ _ _ es => es end.

(** The stamps of a processed input: activity refreshes the horizon. *)
Definition stamped (s : UssdSession) (key : string) (at_ : Date) : UssdSession :=
  s <| us_state := if decide (us_state s = us_started) then us_active else us_state s |> <| us_lastActiveAt := at_ |>
    <| us_expiresAt := dateOf (at_ + us_ttlMs s) |> <| us_inputHistory := us_inputHistory s ++ [key] |>.

Definition endedEvent (s : UssdSession) (reason : string) (at_ : Date) : UssdAnyEvent :=
  ussdEvent "ussd.sessionEnded" (us_sessionId s) (SessionEndedPayload (us_sessionId s) (us_orgId s) (us_customerId s) reason (toISOString at_)) at_.
Definition expiredEvent (s : UssdSession) (at_ : Date) : UssdAnyEvent :=
  ussdEvent "ussd.sessionExpired" (us_sessionId s) (SessionExpiredPayload (us_sessionId s) (us_orgId s) (us_customerId s) (us_ttlMs s) (toISOString at_)) at_.

Definition navigationStep (s : UssdSession) (fromNode toNodeKey via : string) (graph : UssdMenuGraph) (key : string) (at_ : Date) : result UssdStep :=
  match node_at (mg_nodes graph) toNodeKey with
  | None => Err (DomainError "USSD_MENU_TARGET_UNKNOWN")
  | Some target =>
      let moved := stamped s key at_ <| us_currentNodeKey := toNodeKey |> in
      let navEvent := ussdEvent "ussd.navigated" (us_sessionId s)
        (NavigatedPayload (us_sessionId s) (us_orgId s) (us_customerId s) fromNode toNodeKey via (toISOString at_)) at_ in
      if mn_terminal target then
        Ok (ussd_end menu_exit (moved <| us_state := us_ended |>) (nodeScreen target) [navEvent; endedEvent s "menu_exit" at_])
      else Ok (ussd_navigation moved (nodeScreen target) navEvent)
  end.

Definition repromptStep (s : UssdSession) (node : UssdMenuNode) (key : string) (at_ : Date) : UssdStep :=
  ussd_reprompt (stamped s key at_) (nodeScreen node)
    (ussdEvent "ussd.inputRejected" (us_sessionId s)
       (InputRejectedPayload (us_sessionId s) (us_orgId s) (us_customerId s) (mn_nodeKey node) key (toISOString at_)) at_).

(** The dispatch of a flow: an answer that does not fit the screen is demoted to a failure. *)
Definition flowStep (s : UssdSession) (graph : UssdMenuGraph) (flows : string -> option UssdFlowHandler) (flow : string)
    (args : list (string * string)) (key : string) (at_ : Date) : UssdStep :=
  let answer := match flows flow with
    | Some handler => handler (MkFlowContext (us_orgId s) (us_customerId s) (us_msisdn s) at_ args)
    | None => flow_failed USSD_FLOW_NOT_WIRED None
    end in
  let outcome := if decide (mg_screenBudget graph < screenCost (flowScreen answer)) then flow_failed USSD_SCREEN_OVERBUDGET None else answer in
  let flowEvent := match outcome with
    | flow_completed r => ussdEvent "ussd.flowCompleted" (us_sessionId s)
        (FlowCompletedPayload (us_sessionId s) (us_orgId s) (us_customerId s) flow (evidenceOf r) (toISOString at_)) at_
    | flow_failed code detail => ussdEvent "ussd.flowFailed" (us_sessionId s)
        (FlowFailedPayload (us_sessionId s) (us_orgId s) (us_customerId s) flow code detail (toISOString at_)) at_
    end in
  let reason := match outcome with flow_completed _ => "flow_completed" | flow_failed _ _ => "flow_failed" end in
  ussd_flow (stamped s key at_ <| us_state := us_ended |>) (flowScreen outcome) outcome [flowEvent; endedEvent s reason at_].

Definition respond (s : UssdSession) (input : string) (at_ : Date) (graph : UssdMenuGraph) (flows : string -> option UssdFlowHandler) : result UssdStep :=
  refuse (us_state s ∈ [us_ended; us_expired; us_aborted]) with "USSD_SESSION_NOT_ACTIVE" ;;
  if reachedHorizon at_ (us_expiresAt s) then
    Ok (ussd_expired (s <| us_state := us_expired |>) (MkScreen SESSION_EXPIRED_TEXT_KEY []) (expiredEvent s at_))
  else match node_at (mg_nodes graph) (us_currentNodeKey s) with
  | None => Err (DomainError "USSD_MENU_NODE_UNKNOWN")
  | Some node =>
      let key := implode (take USSD_INPUT_MAX_CHARS (explode input)) in
      if decide (key = ABORT_KEY) then
        Ok (ussd_end aborted_by_customer (stamped s key at_ <| us_state := us_aborted |>) (MkScreen SESSION_ABORTED_TEXT_KEY [])
              [ussdEvent "ussd.sessionAborted" (us_sessionId s)
                 (SessionAbortedPayload (us_sessionId s) (us_orgId s) (us_customerId s) (mn_nodeKey node) (toISOString at_)) at_])
      else if decide (key = mg_backKey graph) then
        let trail := nodeTrail graph (us_inputHistory s) in
        match (if (2 <=? length trail)%nat then trail !! (length trail - 2)%nat else None) with
        | Some parentKey => if decide (parentKey = "") then Ok (repromptStep s node key at_)
                            else navigationStep s (mn_nodeKey node) parentKey (mg_backKey graph) graph key at_
        | None => Ok (repromptStep s node key at_)
        end
      else match optionFor node key with
           | None => Ok (repromptStep s node key at_)
           | Some option =>
               match mo_target option with
               | to_node nodeKey => navigationStep s (mn_nodeKey node) nodeKey key graph key at_
               | to_flow flow args => Ok (flowStep s graph flows flow (default [] args) key at_)
               end
           end
  end.

(** ** Retiring a session *)

Definition expireUssdSession (s : UssdSession) (at_ : Date) : result (UssdSession * UssdAnyEvent) :=
  refuse (us_state s <> us_started /\ us_state s <> us_active) with "USSD_SESSION_NOT_ACTIVE" ;;
  refuse (from_option (fun e => bool_decide (at_ < e)) false (us_expiresAt s) = true) with "USSD_SESSION_NOT_DUE" ;;
  Ok (s <| us_state := us_expired |>, expiredEvent s at_).

Definition endUssdSession (s : UssdSession) (reason : string) (at_ : Date) : result (UssdSession * UssdAnyEvent) :=
  r ← requireRef reason "USSD_REASON_REQUIRED";
  refuse (us_state s <> us_started /\ us_state s <> us_active) with "USSD_SESSION_NOT_ACTIVE" ;;
  Ok (s <| us_state := us_ended |>, endedEvent s r at_).

(** ** Sessions on a validated menu *)

Section menu.
  Context (nodes : list UssdMenuNode) (config : AssertMenuGraphConfig) (g : UssdMenuGraph).
  Context (Hmenu : assertMenuGraph nodes config = Ok g).

Lemma graph_valid : menu_valid g.
Proof. apply assertMenuGraph_iff in Hmenu. tauto. Qed.

Lemma back_key_shape : OPTION_KEY_PATTERN (mg_backKey g) = true.
Proof. apply assertMenuGraph_iff in Hmenu. tauto. Qed.

(** The sessions a gateway can hold: started at the menu's root, then any inputs and sweeps. *)
Inductive session_reachable : UssdSession -> Prop :=
| reach_start args t s e : sg_rootKey args = mg_rootKey g -> startUssdSession args t = Ok (s, e) -> session_reachable s
| reach_respond s input t flows st : session_reachable s -> respond s input t g flows = Ok st -> session_reachable (step_session st)
| reach_expire s t s' e : session_reachable s -> expireUssdSession s t = Ok (s', e) -> session_reachable s'
| reach_end s reason t s' e : session_reachable s -> endUssdSession s reason t = Ok (s', e) -> session_reachable s'.

Definition live (s : UssdSession) : Prop := us_state s = us_started \/ us_state s = us_active.

(** Menu nodes only, and all but the last lead further. *)
Record trail_ok (trail : list string) : Prop := {
  tr_some : trail <> [];
  tr_keys : Forall (fun k => k ∈ menu_keys (mg_nodes g)) trail;
  tr_open : Forall (fun k => forall n, node_at (mg_nodes g) k = Some n -> mn_terminal n = false) (removelast trail);
}.

Record session_wf (s : UssdSession) : Prop := {
  sw_ttl : 0 < us_ttlMs s;
  sw_current : live s -> last (nodeTrail g (us_inputHistory s)) = Some (us_currentNodeKey s);
}.

Lemma last_default (l : list string) x : last l = Some x -> List.last l "" = x.
Proof. intros H. apply last_Some in H as [l' ->]. by rewrite List.last_last. Qed.

Lemma root_key : mg_rootKey g ∈ menu_keys (mg_nodes g).
Proof.
  pose proof (mv_root _ graph_valid) as H. assert (mg_rootKey g ∈ menu_keys (List.filter mn_isRoot (mg_nodes g))) as Hr by (rewrite H; left).
  apply list_elem_of_fmap in Hr as (n & -> & [Hn _]%list_elem_of_In%List.filter_In). by apply list_elem_of_fmap_2, list_elem_of_In.
Qed.

Lemma key_node k : k ∈ menu_keys (mg_nodes g) -> exists n, node_at (mg_nodes g) k = Some n /\ node_shape (mg_backKey g) n /\ nodeCost n <= mg_screenBudget g /\ mn_nodeKey n = k.
Proof.
  intros [n Hn]%node_at_key. exists n. split; [done|]. apply node_at_Some in Hn as [Hin Ek]. destruct graph_valid as [Hs _ _ _ _ _ _ Hf]. rewrite Forall_forall in Hs, Hf. auto.
Qed.

Lemma key_not_empty k : k ∈ menu_keys (mg_nodes g) -> k <> "".
Proof. intros (n & _ & (Hk & _) & _ & <-)%key_node E. by rewrite E in Hk. Qed.

Lemma optionFor_Some node key o : optionFor node key = Some o -> o ∈ optionsOf node /\ mo_key o = key.
Proof. intros [H E%bool_decide_eq_true]%List.find_some. split; [by apply list_elem_of_In|done]. Qed.

Lemma option_target_key n o k : n ∈ mg_nodes g -> o ∈ optionsOf n -> mo_target o = to_node k -> k ∈ menu_keys (mg_nodes g).
Proof.
  intros Hn Ho Ht. apply (mv_closed _ graph_valid (mn_nodeKey n)). unfold menu_edge, targets. rewrite (node_at_elem _ _ (mv_unique _ graph_valid) Hn). cbn.
  apply list_elem_of_omap. exists o. split; [done|]. unfold target_node. by rewrite Ht.
Qed.

Lemma option_node_open n o : n ∈ mg_nodes g -> o ∈ optionsOf n -> mn_terminal n = false.
Proof.
  intros Hn Ho. pose proof (mv_shapes _ graph_valid) as Hs. rewrite Forall_forall in Hs. destruct (Hs n Hn) as (_ & _ & Ht & _). destruct (mn_terminal n); [|done].
  rewrite Ht in Ho by done. set_solver.
Qed.

Lemma removelast_snoc (l : list string) x : removelast (l ++ [x]) = l.
Proof. apply List.removelast_last. Qed.

(** One turn of the replay never breaks off and keeps the trail in order. *)
Lemma trailStep_ok trail key : trail_ok trail -> exists t, trailStep g trail key = Some t /\ trail_ok t.
Proof.
  intros [Hne Hk Ho]. unfold trailStep. destruct (exists_last Hne) as (l & x & ->). rewrite removelast_snoc, List.last_last in *.
  apply Forall_app in Hk as [Hl Hx]. apply Forall_cons in Hx as [Hx _]. destruct (key_node x Hx) as (n & Hn & _). case_decide.
  - eexists. split; [reflexivity|]. rewrite length_app. change (length [x]) with 1%nat. destruct (1 <? length l + 1)%nat eqn:E; [apply Nat.ltb_lt in E|].
    + split; [intros ->; cbn in *; lia|done|]. rewrite Forall_forall in Ho |- *. intros k Hk. apply Ho. destruct (exists_last (l := l)) as (l' & y & ->).
      { intros ->. cbn in *. lia. } rewrite removelast_snoc in Hk. set_solver.
    + split; [by destruct l|by apply Forall_app; split; [|constructor]|by rewrite removelast_snoc].
  - rewrite Hn. eexists. split; [reflexivity|]. destruct (optionFor n key ≫= target_node) as [k|] eqn:E.
    + apply bind_Some in E as (o & [Hoin _]%optionFor_Some & Ht). unfold target_node in Ht. destruct (mo_target o) as [k'|] eqn:Et; [|done]. injection Ht as ->.
      apply node_at_Some in Hn as [Hn En]. split; [by destruct l| |rewrite removelast_snoc; apply Forall_app; split; [done|]; constructor; [|done]].
      * repeat (apply Forall_app; split); [done|by constructor|]. constructor; [|done]. by eapply option_target_key.
      * intros m Hm. rewrite <- En in Hm. rewrite (node_at_elem _ _ (mv_unique _ graph_valid) Hn) in Hm. injection Hm as <-. by eapply option_node_open.
    + split; [by destruct l|by apply Forall_app; split; [|constructor]|by rewrite removelast_snoc].
Qed.

Lemma root_trail_ok : trail_ok [mg_rootKey g].
Proof. split; [done|constructor; [apply root_key|done]|constructor]. Qed.

Lemma trailFrom_ok h trail : trail_ok trail -> trail_ok (trailFrom g trail h).
Proof. revert trail. induction h as [|k h IH]; intros trail Ht; [done|]. cbn. destruct (trailStep_ok trail k Ht) as (t & -> & Ht'). by apply IH. Qed.

(** Replaying one more input is one more turn. *)
Lemma trail_snoc h key : trailStep g (nodeTrail g h) key = Some (nodeTrail g (h ++ [key])).
Proof.
  unfold nodeTrail. pose proof root_trail_ok as Ht. revert Ht. generalize [mg_rootKey g]. induction h as [|k h IH]; intros trail Ht; cbn.
  - destruct (trailStep_ok trail key Ht) as (t & -> & _). done.
  - destruct (trailStep_ok trail k Ht) as (t & -> & Ht'). by apply IH.
Qed.

Lemma nodeTrail_ok h : trail_ok (nodeTrail g h).
Proof. apply trailFrom_ok, root_trail_ok. Qed.
(** ** Steps *)

(** What a step must be: a well-formed session, a screen that fits, and events of the session. *)
Definition good_step (s : UssdSession) (st : UssdStep) : Prop :=
  session_wf (step_session st) /\ (42 <= mg_screenBudget g -> screenCost (step_screen st) <= mg_screenBudget g) /\
  step_events st <> [] /\ Forall (fun e => aggregateId e = us_sessionId s) (step_events st).

Lemma node_screen_fits n : nodeCost n <= mg_screenBudget g -> screenCost (nodeScreen n) <= mg_screenBudget g.
Proof.
  unfold screenCost, nodeCost. cbn [nodeScreen sc_textKey sc_params fmap list_fmap]. rewrite sumZ_nil.
  assert (0 <= sumZ ((fun o => len (mo_key o) + len (mo_textKey o)) <$> optionsOf n)); [|lia]. apply sumZ_nonneg, Forall_fmap, Forall_true. intros o. cbn. unfold len. lia.
Qed.

Lemma dead_wf s : 0 < us_ttlMs s -> us_state s <> us_started -> us_state s <> us_active -> session_wf s.
Proof. intros Ht H1 H2. split; [done|]. by intros [?|?]. Qed.

Lemma stamped_live s key t : live s -> us_state (stamped s key t) = us_active.
Proof. unfold stamped. cbn. intros [->|H]; [done|]. by case_decide; [|rewrite H]. Qed.

Lemma reprompt_good s n key t : session_wf s -> nodeCost n <= mg_screenBudget g -> nodeTrail g (us_inputHistory s ++ [key]) = nodeTrail g (us_inputHistory s) ->
  live s -> good_step s (repromptStep s n key t).
Proof.
  intros [Ht Hc] Hn E Hl. split; [split; [done|]|]. { intros _. change (last (nodeTrail g (us_inputHistory s ++ [key])) = Some (us_currentNodeKey s)). rewrite E. by apply Hc. }
  split; [intros _; by apply node_screen_fits|]. split; [done|]. by constructor.
Qed.

Lemma navigation_good s n k via key t : session_wf s -> live s -> k ∈ menu_keys (mg_nodes g) -> last (nodeTrail g (us_inputHistory s ++ [key])) = Some k ->
  exists st, navigationStep s (mn_nodeKey n) k via g key t = Ok st /\ good_step s st /\ us_currentNodeKey (step_session st) = k /\
    us_inputHistory (step_session st) = us_inputHistory s ++ [key] /\ us_expiresAt (step_session st) = dateOf (t + us_ttlMs s) /\
    us_ttlMs (step_session st) = us_ttlMs s /\
    exists m, node_at (mg_nodes g) k = Some m /\ if mn_terminal m then us_state (step_session st) = us_ended
      else us_state (step_session st) = us_active /\ exists s' c e, st = ussd_navigation s' c e.
Proof.
  intros [Ht Hc] Hl Hk E. destruct (key_node k Hk) as (m & Hm & _ & Hfit & _). unfold navigationStep. rewrite Hm. destruct (mn_terminal m) eqn:Etm; eexists; (split; [reflexivity|]).
  - split; [|split_and!; try done; exists m; by rewrite Etm]. split; [by apply dead_wf|]. split; [intros _; by apply node_screen_fits|]. split; [done|]. by repeat constructor.
  - split.
    + split; [split; [done|]|]. { intros _. exact E. } split; [intros _; by apply node_screen_fits|]. split; [done|]. by repeat constructor.
    + split_and!; try done. exists m. split; [done|]. rewrite Etm. split; [|by do 3 eexists]. by rewrite <- (stamped_live s key t).
Qed.

Lemma last_removelast (l : list string) : (2 <= length l)%nat -> last (removelast l) = l !! (length l - 2)%nat.
Proof.
  intros H. destruct (exists_last (l := l)) as (l' & x & ->); [by intros ->; cbn in H; lia|]. rewrite removelast_snoc. rewrite length_app in *. cbn in H |- *.
  rewrite lookup_app_l by lia. rewrite last_lookup. f_equal. lia.
Qed.

Lemma flow_screen_fits s flows flow args key t : 42 <= mg_screenBudget g -> screenCost (step_screen (flowStep s g flows flow args key t)) <= mg_screenBudget g.
Proof.
  intros H. unfold flowStep. cbn [step_screen]. match goal with |- context [decide (?b < ?c)] => destruct (decide (b < c)) as [E|E] end; [|lia].
  change (screenCost (flowScreen (flow_failed USSD_SCREEN_OVERBUDGET None))) with 42. done.
Qed.

(** Every input to a live session is answered. *)
Lemma respond_good s input t flows : session_wf s -> live s -> exists st, respond s input t g flows = Ok st /\ good_step s st.
Proof.
  intros Hwf Hl. pose proof Hwf as [Httl Hc]. specialize (Hc Hl). unfold respond. rewrite decide_False by (rewrite !elem_of_cons, elem_of_nil; destruct Hl as [->| ->]; naive_solver).
  destruct (reachedHorizon t (us_expiresAt s)).
  { eexists. split; [reflexivity|]. split; [by apply dead_wf|]. split; [intros ?; transitivity 27; [by apply Z.leb_le|lia]|]. split; [done|]. by constructor. }
  pose proof (nodeTrail_ok (us_inputHistory s)) as Htr. pose proof (last_Some_elem_of _ _ Hc) as Hin. pose proof (tr_keys _ Htr) as Hkeys. rewrite Forall_forall in Hkeys.
  destruct (key_node _ (Hkeys _ Hin)) as (n & Hn & _ & Hfit & _). rewrite Hn. set (key := implode _). cbv zeta. clearbody key.
  pose proof (trail_snoc (us_inputHistory s) key) as Hstep. unfold trailStep in Hstep. rewrite (last_default _ _ Hc), Hn in Hstep.
  destruct (decide (key = ABORT_KEY)).
  { eexists. split; [reflexivity|]. split; [by apply dead_wf|]. split; [intros ?; transitivity 27; [by apply Z.leb_le|lia]|]. split; [done|]. by constructor. }
  destruct (decide (key = mg_backKey g)) as [Eb|Eb].
  - destruct (2 <=? length _)%nat eqn:E2; [apply Nat.leb_le in E2|apply Nat.leb_gt in E2].
    + rewrite <- last_removelast by done. rewrite (proj2 (Nat.ltb_lt 1 _)) in Hstep by lia. injection Hstep as Hstep. rewrite Hstep.
      pose proof (nodeTrail_ok (us_inputHistory s ++ [key])) as Htr'. destruct (last (nodeTrail g (us_inputHistory s ++ [key]))) as [p|] eqn:Ep.
      2:{ apply last_None in Ep. by destruct (tr_some _ Htr'). }
      assert (p ∈ menu_keys (mg_nodes g)) as Hp. { pose proof (tr_keys _ Htr') as Hk. rewrite Forall_forall in Hk. by apply Hk, last_Some_elem_of. }
      rewrite decide_False by (by apply key_not_empty). destruct (navigation_good s n p (mg_backKey g) key t) as (st & Hst & Hgood & _); [done..|]. by exists st.
    + eexists. split; [reflexivity|]. apply reprompt_good; try done. rewrite (proj2 (Nat.ltb_ge 1 _)) in Hstep by lia. by injection Hstep.
  - destruct (optionFor n key) as [o|] eqn:Eo; cbn in Hstep.
    + apply optionFor_Some in Eo as [Ho _]. apply node_at_Some in Hn as [Hnin Hnk]. unfold target_node in Hstep. destruct (mo_target o) as [k|flow args] eqn:Et.
      * destruct (navigation_good s n k key key t) as (st & Hst & Hgood & _); [done|done|by eapply option_target_key| |by exists st].
        injection Hstep as Hstep. rewrite <- Hstep. by rewrite last_snoc.
      * eexists. split; [reflexivity|]. split; [by apply dead_wf|]. split; [apply flow_screen_fits|]. split; [done|]. constructor; [|by repeat constructor].
        by match goal with |- context [match ?o with flow_completed _ => _ | flow_failed _ _ => _ end] => destruct o end.
    + eexists. split; [reflexivity|]. apply reprompt_good; try done. by injection Hstep.
Qed.
Lemma respond_not_dead s input t flows st : respond s input t g flows = Ok st -> live s.
Proof. unfold respond. intros [H _]%guard_Ok. rewrite !elem_of_cons, elem_of_nil in H. unfold live. destruct (us_state s); naive_solver. Qed.

Lemma session_reachable_wf s : session_reachable s -> session_wf s.
Proof.
  induction 1 as [args t s e Hroot Hs|s input t flows st _ IH Hr|s t s' e _ IH He|s reason t s' e _ IH He].
  - unfold startUssdSession in Hs. do 5 apply bind_Ok in Hs as (? & ?Hx & Hs). destruct (safeInteger _) as [ttl|]; [|done]. apply guard_Ok in Hs as [Httl [= <- _]].
    split; [cbn; lia|]. intros _. unfold requireRef in *. repeat match goal with H : _ = Ok _ |- _ => progress step_ok end. subst. cbn. by rewrite Hroot.
  - destruct (respond_good s input t flows IH) as (st' & Hr' & Hgood & _); [by eapply respond_not_dead|]. rewrite Hr in Hr'. by injection Hr' as <-.
  - unfold expireUssdSession in He. do 2 apply guard_Ok in He as [_ He]. injection He as <- _. apply dead_wf; [apply (sw_ttl _ IH)|done|done].
  - unfold endUssdSession in He. apply bind_Ok in He as (r & _ & He). apply guard_Ok in He as [_ [= <- _]]. apply dead_wf; [apply (sw_ttl _ IH)|done|done].
Qed.

(** Every keypress is answered: on a validated menu a live session's next input, whatever it
    is, whenever it comes and whatever the flows do, yields a step with a screen within the
    budget of the menu and at least one event of the session; nothing throws. *)
Theorem every_keypress_is_answered (s : UssdSession) (input : string) (t : Date) (flows : string -> option UssdFlowHandler) :
  session_reachable s -> live s ->
  exists st, respond s input t g flows = Ok st /\ (42 <= mg_screenBudget g -> screenCost (step_screen st) <= mg_screenBudget g) /\
    step_events st <> [] /\ Forall (fun e => aggregateId e = us_sessionId s) (step_events st).
Proof.
  intros Hr%session_reachable_wf Hl. destruct (respond_good s input t flows Hr Hl) as (st & Hst & _ & graph_valid'). by exists st.
Qed.

Lemma short_key k : OPTION_KEY_PATTERN k = true -> implode (take USSD_INPUT_MAX_CHARS (explode k)) = k.
Proof.
  unfold OPTION_KEY_PATTERN. rewrite !andb_true_iff. intros [[_ H%Nat.leb_le] _]. rewrite take_ge by (unfold USSD_INPUT_MAX_CHARS; lia). apply implode_explode.
Qed.

Lemma back_not_abort : mg_backKey g <> ABORT_KEY.
Proof. intros E. pose proof back_key_shape as H. rewrite E in H. discriminate H. Qed.

Lemma optionFor_key n o : n ∈ mg_nodes g -> o ∈ optionsOf n -> optionFor n (mo_key o) = Some o.
Proof.
  intros Hin Ho. pose proof (mv_shapes _ graph_valid) as Hs. rewrite Forall_forall in Hs. destruct (Hs n Hin) as (_ & _ & _ & Hnd & _). unfold optionFor. clear -Hnd Ho.
  induction (optionsOf n) as [|x l IH]; [set_solver|]. cbn in *. apply NoDup_cons in Hnd as [Hx Hnd]. apply elem_of_cons in Ho as [->|Ho]; [by rewrite bool_decide_true|].
  rewrite bool_decide_false; [by apply IH|]. intros E. apply Hx. rewrite E. by apply list_elem_of_fmap_2.
Qed.

(** A keypress of an open node on a live session before its horizon. *)
Lemma respond_option s key t flows n o : session_wf s -> live s -> reachedHorizon t (us_expiresAt s) = false ->
  node_at (mg_nodes g) (us_currentNodeKey s) = Some n -> o ∈ optionsOf n -> mo_key o = key ->
  respond s key t g flows = match mo_target o with
    | to_node k => navigationStep s (mn_nodeKey n) k key g key t
    | to_flow flow args => Ok (flowStep s g flows flow (default [] args) key t)
    end.
Proof.
  intros Hwf Hl Hh Hn Ho Hk. unfold respond. rewrite decide_False by (rewrite !elem_of_cons, elem_of_nil; destruct Hl as [->| ->]; naive_solver).
  rewrite Hh, Hn. apply node_at_Some in Hn as [Hin _]. pose proof (mv_shapes _ graph_valid) as Hs. rewrite Forall_forall in Hs. destruct (Hs n Hin) as (_ & _ & _ & Hnd & Hos).
  rewrite Forall_forall in Hos. destruct (Hos o Ho) as (_ & Ha & Hb & Hp & _). rewrite Hk in *. rewrite short_key by done. cbv zeta. do 2 rewrite decide_False by done.
  by rewrite <- Hk, (optionFor_key n o Hin Ho).
Qed.
(** A forward navigation comes from an option of the current node. *)
Lemma navigation_forward s input t flows s1 c e : let key := implode (take USSD_INPUT_MAX_CHARS (explode input)) in
  respond s input t g flows = Ok (ussd_navigation s1 c e) -> key <> mg_backKey g ->
  exists n o k, node_at (mg_nodes g) (us_currentNodeKey s) = Some n /\ optionFor n key = Some o /\ mo_target o = to_node k /\
    s1 = (stamped s key t <| us_currentNodeKey := k |>).
Proof.
  intros key. unfold respond. intros [_ H]%guard_Ok Hb. destruct (reachedHorizon _ _); [done|]. destruct (node_at _ (us_currentNodeKey s)) as [n|]; [|done]. cbv zeta in H.
  fold key in H. destruct (decide (_ = ABORT_KEY)); [done|]. rewrite decide_False in H by done. destruct (optionFor n key) as [o|] eqn:Eo; [|done].
  destruct (mo_target o) as [k|] eqn:Et; [|done]. exists n, o, k. split_and!; try done. unfold navigationStep in H. destruct (node_at _ k) as [m|]; [|done].
  destruct (mn_terminal m); [done|]. by injection H as <- _ _.
Qed.

Lemma reachable_current s : session_reachable s -> live s -> last (nodeTrail g (us_inputHistory s)) = Some (us_currentNodeKey s).
Proof. intros Hr%session_reachable_wf Hl. by apply Hr. Qed.

(** The back key with a screen to go back to. *)
Lemma respond_back s t flows n p : live s -> reachedHorizon t (us_expiresAt s) = false -> node_at (mg_nodes g) (us_currentNodeKey s) = Some n ->
  last (removelast (nodeTrail g (us_inputHistory s))) = Some p -> p ∈ menu_keys (mg_nodes g) ->
  respond s (mg_backKey g) t g flows = navigationStep s (mn_nodeKey n) p (mg_backKey g) g (mg_backKey g) t.
Proof.
  intros Hl Hh Hn Hp Hk. unfold respond. rewrite decide_False by (rewrite !elem_of_cons, elem_of_nil; destruct Hl as [->| ->]; naive_solver).
  rewrite Hh, Hn, short_key by apply back_key_shape. cbv zeta. rewrite decide_False by apply back_not_abort. rewrite decide_True by done.
  assert (2 <= length (nodeTrail g (us_inputHistory s)))%nat as H2.
  { destruct (nodeTrail g (us_inputHistory s)) as [|x [|y l]]; cbn in *; [done|done|lia]. }
  rewrite (proj2 (Nat.leb_le _ _) H2), <- last_removelast, Hp by done. by rewrite decide_False by (by apply key_not_empty).
Qed.

(** Back undoes a step: after an option led to another screen, the back key, pressed in time,
    leads back to the screen it was chosen on, whatever happened in the session before and
    even where several screens lead to the same one. *)
Theorem back_returns_to_the_screen_before (s s1 : UssdSession) (input : string) (t t' : Date) (flows flows' : string -> option UssdFlowHandler)
    (c : UssdScreen) (e : UssdAnyEvent) :
  session_reachable s -> respond s input t g flows = Ok (ussd_navigation s1 c e) ->
  implode (take USSD_INPUT_MAX_CHARS (explode input)) <> mg_backKey g -> reachedHorizon t' (us_expiresAt s1) = false ->
  exists s2 c2 e2, respond s1 (mg_backKey g) t' g flows' = Ok (ussd_navigation s2 c2 e2) /\ us_currentNodeKey s2 = us_currentNodeKey s.
Proof.
  intros Hr Hnav Hb Hh. pose proof (respond_not_dead _ _ _ _ _ Hnav) as Hl. destruct (navigation_forward _ _ _ _ _ _ _ Hnav Hb) as (n & o & k & Hn & Ho & Ht & Hs1).
  pose proof (reachable_current _ Hr Hl) as Hlast. pose proof (nodeTrail_ok (us_inputHistory s)) as Htr. set (key := implode (take _ (explode input))) in *. clearbody key.
  pose proof (trail_snoc (us_inputHistory s) key) as Hstep. unfold trailStep in Hstep. rewrite decide_False in Hstep by done. rewrite (last_default _ _ Hlast), Hn, Ho in Hstep.
  cbn in Hstep. unfold target_node in Hstep. rewrite Ht in Hstep. injection Hstep as Hstep. apply optionFor_Some in Ho as [Ho _].
  pose proof Hn as [Hnin Hnk]%node_at_Some. destruct (key_node k) as (m & Hm & _); [by eapply option_target_key|].
  assert (live s1) as Hl1 by (right; rewrite Hs1; by apply (stamped_live s key t)).
  assert (us_currentNodeKey s ∈ menu_keys (mg_nodes g)) as Hck by (apply node_at_key; by exists n).
  rewrite (respond_back s1 t' flows' m (us_currentNodeKey s)); try done.
  - unfold navigationStep. rewrite Hn. rewrite (option_node_open n o Hnin Ho). by do 3 eexists.
  - by rewrite Hs1.
  - rewrite Hs1. change (last (removelast (nodeTrail g (us_inputHistory s ++ [key]))) = Some (us_currentNodeKey s)). by rewrite <- Hstep, removelast_snoc.
Qed.

(** ** Leaving the menu *)

(** Pressing keys one after the other. *)
Fixpoint press (flows : string -> option UssdFlowHandler) (t : Date) (s : UssdSession) (keys : list string) : result UssdSession :=
  match keys with [] => Ok s | k :: keys => st ← respond s k t g flows; press flows t (step_session st) keys end.

Lemma fresh_horizon s t : 0 < us_ttlMs s -> reachedHorizon t (dateOf (t + us_ttlMs s)) = false.
Proof. unfold dateOf. intros H. case_decide; [|done]. cbn. lia. Qed.

(** From an open node along a path of the graph to an exit. *)
Lemma path_out k e : rtc (menu_edge (mg_nodes g)) k e -> exit_node (mg_nodes g) e ->
  exists keys, forall s t flows n, us_currentNodeKey s = k -> session_wf s -> live s -> reachedHorizon t (us_expiresAt s) = false ->
    node_at (mg_nodes g) k = Some n -> mn_terminal n = false -> exists s', press flows t s keys = Ok s' /\ us_state s' = us_ended.
Proof.
  intros Hp (ne & Hne & Hx). induction Hp as [k|k y z Hky _ IH].
  - assert (mn_terminal ne = true \/ exists o flow args, o ∈ optionsOf ne /\ mo_target o = to_flow flow args) as [Ht|(o & flow & args & Ho & Ht)].
    { unfold exits in Hx. apply orb_true_iff in Hx as [Hx|(o & Ho & Hf)%existsb_exists]; [by left|right]. unfold is_flow in Hf. destruct (mo_target o) as [|flow args] eqn:E; [done|].
      exists o, flow, args. split; [by apply list_elem_of_In|done]. }
    { exists []. intros s t flows n _ _ _ _ Hn Hopen. rewrite Hne in Hn. injection Hn as <-. congruence. }
    exists [mo_key o]. intros s t flows n Hk Hwf Hl Hh Hn Hopen. rewrite Hne in Hn. injection Hn as <-. cbn [press].
    rewrite (respond_option s (mo_key o) t flows ne o) by (done || by rewrite Hk). rewrite Ht. by eexists.
  - destruct IH as [keys IH]; [done|]. unfold menu_edge, targets in Hky. destruct (node_at (mg_nodes g) k) as [m|] eqn:Em; cbn in Hky; [|set_solver].
    apply list_elem_of_omap in Hky as (o & Ho & Ht). unfold target_node in Ht. destruct (mo_target o) as [y'|] eqn:Et; [|done]. injection Ht as ->.
    pose proof Em as [Hm _]%node_at_Some. pose proof (option_target_key _ _ _ Hm Ho Et) as Hy. destruct (key_node y Hy) as (ny & Hny & _).
    exists (mo_key o :: if mn_terminal ny then [] else keys). intros s t flows n Hk Hwf Hl Hh Hn Hopen. injection Hn as <-. cbn [press].
    rewrite (respond_option s (mo_key o) t flows m o) by (done || by rewrite Hk). rewrite Et.
    pose proof (trail_snoc (us_inputHistory s) (mo_key o)) as Hstep. pose proof (sw_current _ Hwf Hl) as Hlast.
    assert (last (nodeTrail g (us_inputHistory s ++ [mo_key o])) = Some y) as Hlast'.
    { unfold trailStep in Hstep. pose proof (mv_shapes _ graph_valid) as Hs. rewrite Forall_forall in Hs. destruct (Hs m Hm) as (_ & _ & _ & Hnd & Hos). rewrite Forall_forall in Hos.
      destruct (Hos o Ho) as (_ & _ & Hb & _). rewrite decide_False in Hstep by done. rewrite (last_default _ _ Hlast), Hk, Em in Hstep.
      rewrite (optionFor_key m o Hm Ho) in Hstep. cbn in Hstep. unfold target_node in Hstep. rewrite Et in Hstep. injection Hstep as <-. by rewrite last_snoc. }
    destruct (navigation_good s m y (mo_key o) (mo_key o) t Hwf Hl Hy Hlast') as (st & -> & (Hwf' & _) & Hcur & _ & Hexp & _ & (m' & Hm' & Hend)).
    rewrite Hny in Hm'. injection Hm' as <-. cbn [mbind result_bind]. destruct (mn_terminal ny) eqn:Etm; [by eexists|]. destruct Hend as [Hact _].
    apply (IH (step_session st) t flows ny); try done; [by right|]. rewrite Hexp. apply fresh_horizon, Hwf.
Qed.

(** Steps that leave the session live show an open node, or the node it was on. *)
Lemma respond_live s input t flows st : respond s input t g flows = Ok st -> live (step_session st) ->
  us_currentNodeKey (step_session st) = us_currentNodeKey s \/
  exists n, node_at (mg_nodes g) (us_currentNodeKey (step_session st)) = Some n /\ mn_terminal n = false.
Proof.
  assert (forall n k via key, navigationStep s n k via g key t = Ok st -> live (step_session st) ->
    exists m, node_at (mg_nodes g) (us_currentNodeKey (step_session st)) = Some m /\ mn_terminal m = false) as Hnav.
  { unfold navigationStep. intros n k via key H Hl. destruct (node_at _ k) as [m|] eqn:Em; [|done]. destruct (mn_terminal m) eqn:E; injection H as <-; [by destruct Hl|by exists m]. }
  unfold respond. intros [_ H]%guard_Ok Hl. destruct (reachedHorizon _ _); [injection H as <-; by destruct Hl|]. destruct (node_at _ (us_currentNodeKey s)) as [n|]; [|done]. cbv zeta in H.
  destruct (decide (_ = ABORT_KEY)); [injection H as <-; by destruct Hl|]. destruct (decide (_ = mg_backKey g)).
  - destruct (if (_ <=? _)%nat then _ else _) as [p|]; [|injection H as <-; by left]. destruct (decide (p = "")); [injection H as <-; by left|]. right. by eapply Hnav.
  - destruct (optionFor n _) as [o|]; [|injection H as <-; by left]. destruct (mo_target o); [right; by eapply Hnav|]. injection H as <-. by destruct Hl.
Qed.

Lemma live_node_open s : (forall n, node_at (mg_nodes g) (mg_rootKey g) = Some n -> mn_terminal n = false) -> session_reachable s -> live s ->
  exists n, node_at (mg_nodes g) (us_currentNodeKey s) = Some n /\ mn_terminal n = false.
Proof.
  intros Hroot. induction 1 as [args t s e Hk Hs|s input t flows st Hr IH Hst|s t s' e _ IH He|s reason t s' e _ IH He]; intros Hl.
  - assert (us_currentNodeKey s = mg_rootKey g) as ->.
    { unfold startUssdSession in Hs. do 5 apply bind_Ok in Hs as (? & ?Hx & Hs). destruct (safeInteger _) as [ttl|]; [|done]. apply guard_Ok in Hs as [_ [= <- _]].
      unfold requireRef in *. repeat match goal with H : _ = Ok _ |- _ => progress step_ok end. subst. cbn. by rewrite Hk. }
    destruct (key_node _ root_key) as (n & Hn & _). exists n. split; [done|by apply Hroot].
  - destruct (respond_live _ _ _ _ _ Hst Hl) as [->|Hn]; [|done]. apply IH. by eapply respond_not_dead.
  - unfold expireUssdSession in He. do 2 apply guard_Ok in He as [_ He]. injection He as <- _. by destruct Hl.
  - unfold endUssdSession in He. apply bind_Ok in He as (r & _ & He). apply guard_Ok in He as [_ [= <- _]]. by destruct Hl.
Qed.

(** C29: No customer is trapped: on a validated menu whose root is not itself terminal, every live
    session can be brought to its end by menu keys alone, whatever the flows answer. *)
Theorem the_menu_can_always_be_left (s : UssdSession) (t : Date) :
  (forall n, node_at (mg_nodes g) (mg_rootKey g) = Some n -> mn_terminal n = false) ->
  session_reachable s -> live s -> reachedHorizon t (us_expiresAt s) = false ->
  exists keys, forall flows, exists s', press flows t s keys = Ok s' /\ us_state s' = us_ended.
Proof.
  intros Hroot Hr Hl Hh. destruct (live_node_open s Hroot Hr Hl) as (n & Hn & Hopen).
  assert (us_currentNodeKey s ∈ menu_keys (mg_nodes g)) as Hk by (apply node_at_key; by exists n).
  destruct (mv_exit _ graph_valid _ Hk) as (e & He & Hx). destruct (path_out _ _ He Hx) as [keys Hkeys]. exists keys. intros flows.
  apply (Hkeys s t flows n); try done. by apply session_reachable_wf.
Qed.

End menu.

(** ** Samples *)

Definition sample_start (ttl : option number) : StartUssdSessionArgs := MkStartUssd "s-1" "org" "c1" "0712 345 678" "main" ttl.
Definition sample_session : UssdSession := MkUssdSession "s-1" "org" "c1" "+254712345678" us_started "main" [] 180000 0 0 (Some 180000).
Definition no_flows : string -> option UssdFlowHandler := fun _ => None.

Lemma sample_session_reachable : session_reachable sample_menu sample_session.
Proof.
  assert (exists e, startUssdSession (sample_start None) 0 = Ok (sample_session, e)) as [e He] by (eexists; vm_compute; reflexivity).
  apply (reach_start sample_menu (sample_start None) 0 sample_session e); [reflexivity|exact He].
Qed.

Lemma every_keypress_is_answered_witness : exists st, respond sample_session "99" 1000 sample_menu no_flows = Ok st /\ screenCost (step_screen st) <= 182.
Proof.
  destruct (every_keypress_is_answered sample_nodes (MkMenuConfig None None) sample_menu sample_menu_accepted sample_session "99" 1000 no_flows) as (st & Hst & Hc & _).
  - exact sample_session_reachable.
  - left. reflexivity.
  - exists st. split; [exact Hst|]. apply Hc. cbn. lia.
Defined.

Lemma back_returns_to_the_screen_before_witness : exists s1 c e s2 c2 e2, respond sample_session "2" 1000 sample_menu no_flows = Ok (ussd_navigation s1 c e) /\
  us_currentNodeKey s1 = "more" /\ respond s1 "0" 2000 sample_menu no_flows = Ok (ussd_navigation s2 c2 e2) /\ us_currentNodeKey s2 = "main".
Proof.
  assert (exists s1 c e, respond sample_session "2" 1000 sample_menu no_flows = Ok (ussd_navigation s1 c e) /\ us_currentNodeKey s1 = "more" /\
    us_expiresAt s1 = Some 181000) as (s1 & c & e & H1 & Hc & Ht) by (do 3 eexists; split; [vm_compute; reflexivity|split; reflexivity]).
  destruct (back_returns_to_the_screen_before sample_nodes (MkMenuConfig None None) sample_menu sample_menu_accepted sample_session s1 "2" 1000 2000 no_flows no_flows c e)
    as (s2 & c2 & e2 & H2 & Hk).
  - exact sample_session_reachable.
  - exact H1.
  - intros E. discriminate E.
  - rewrite Ht. reflexivity.
  - exists s1, c, e, s2, c2, e2. split; [exact H1|]. split; [exact Hc|]. split; [exact H2|exact Hk].
Defined.

Lemma the_menu_can_always_be_left_witness : exists keys, forall flows, exists s', press sample_menu flows 1000 sample_session keys = Ok s' /\ us_state s' = us_ended.
Proof.
  apply (the_menu_can_always_be_left sample_nodes (MkMenuConfig None None) sample_menu sample_menu_accepted sample_session 1000).
  - intros n H. vm_compute in H. injection H as <-. reflexivity.
  - exact sample_session_reachable.
  - left. reflexivity.
  - reflexivity.
Defined.

(** ** Limits of the lane *)

(** A TTL past the last representable instant makes an invalid horizon: inputs never find the
    session expired, and the sweeper retires it at once. *)
Theorem huge_ttl_confuses_expiry : exists s e st s' e',
  startUssdSession (sample_start (Some (num MAX_SAFE_INTEGER))) 0 = Ok (s, e) /\
  respond s "2" MAX_TIME sample_menu no_flows = Ok st /\ us_state (step_session st) = us_active /\
  expireUssdSession s 0 = Ok (s', e') /\ us_state s' = us_expired.
Proof. do 5 eexists. split; [vm_compute; reflexivity|]. split; [vm_compute; reflexivity|]. split; [reflexivity|]. split; vm_compute; reflexivity. Qed.

(** With a small budget the lane's own screens exceed it. *)
Theorem small_budgets_are_exceeded :
  let nodes := [MkMenuNode "m" "t" (Some [MkMenuOption "1" "b" (to_flow "balance_query" None)]) true false] in
  let g := MkMenuGraph nodes "m" "0" 10 in
  exists st, assertMenuGraph nodes (MkMenuConfig None (Some (num 10))) = Ok g /\ respond (sample_session <| us_currentNodeKey := "m" |>) "1" 10 g no_flows = Ok st /\
    screenCost (step_screen st) = 42.
Proof. eexists. split; [vm_compute; reflexivity|]. split; vm_compute; reflexivity. Qed.

(** A session started on a terminal root stays live although its screen should end it. *)
Theorem terminal_root_does_not_end_the_session :
  let nodes := [MkMenuNode "main" "t" (Some []) true true] in let g := MkMenuGraph nodes "main" "0" 182 in
  exists s e, assertMenuGraph nodes (MkMenuConfig None None) = Ok g /\ startUssdSession (sample_start None) 0 = Ok (s, e) /\ us_state s = us_started /\
    exists st, respond s "1" 10 g no_flows = Ok st /\ us_state (step_session st) = us_active.
Proof. do 2 eexists. split; [vm_compute; reflexivity|]. split; [vm_compute; reflexivity|]. split; [reflexivity|]. eexists. split; vm_compute; reflexivity. Qed.
