(* ===== verification/StkPush.v ===== *)
(** * STK push collections

    src/domain/collections/stk/wire.ts, events.ts, actions.ts and gate.ts: the
    collect-now action on the M-Pesa rail.  An attempt is proposed, gated by consent and
    by the policy engine, possibly approved by a human, handed to the injected wire port,
    and reconciled through the payments intake, or it times out.

    The wire port is a parameter, a function from the command to the rail's answer.
    Refusal details are [None] where the consent guard or the policy engine composes the
    text.  Fields with a static boolean or [Money] type are not checked again. *)

From stdpp Require Import prelude strings list relations.
From Stdlib Require Import ZArith Lia Ascii.
From S2P Require Import Prelude JsNumber JsString JsDate JsJson Money Events Payment Intake Consent PolicyRules PolicyEngine UssdSession.
Local Open Scope string_scope.
Local Open Scope list_scope.
Local Open Scope Z_scope.
Local Open Scope js_scope.

(** ** The wire *)

Record StkPushInitiationCommand := MkStkCommand {
  wc_actionId : Uuid;
  wc_orgId : Uuid;
  wc_customerId : Uuid;
  wc_amountMinor : Z;
  wc_msisdn : string;
  wc_accountReference : string;
  wc_transactionDesc : string;
  wc_idempotencyKey : string;
}.

Inductive StkPushInitiationOutcome :=
| wire_accepted (merchantRequestId checkoutRequestId : string) (customerMessage : option string)
| wire_rejected (failureReason : string).

Record StkPushResultCallbackInput := MkCallbackInput {
  ci_checkoutRequestId : string;
  ci_merchantRequestId : string;
  ci_resultCode : number;
  ci_resultDesc : string;
  ci_receiptNumber : option string;
  ci_paidMinor : option numeric;
  ci_msisdn : option string;
}.

Record StkPushResultCallback := MkCallback {
  cb_checkoutRequestId : string;
  cb_merchantRequestId : string;
  cb_resultCode : Z;
  cb_resultDesc : string;
  cb_success : bool;
  cb_receiptNumber : option string;
  cb_paidMinor : option Z;
  cb_msisdn : option string;
}.

Definition is_upper_alnum (c : ascii) : bool := in_range 65 90 c || is_digit c.
Definition is_alnum (c : ascii) : bool := is_upper_alnum c || in_range 97 122 c.

(** [/^ws_CO_[A-Za-z0-9]{6,24}$/] *)
Definition CHECKOUT_ID_PATTERN (s : string) : bool :=
  let l := explode s in
  startsWith l (explode "ws_CO_") && (6 <=? length (drop 6 l))%nat && (length (drop 6 l) <=? 24)%nat && forallb is_alnum (drop 6 l).

(** [/^[A-Z0-9]{10,22}$/] *)
Definition TRANS_ID_PATTERN (s : string) : bool :=
  let l := explode s in (10 <=? length l)%nat && (length l <=? 22)%nat && forallb is_upper_alnum l.

(** [/^254[17]\d{8}$/] *)
Definition MSISDN_PATTERN (s : string) : bool :=
  let l := explode s in startsWith l (explode "254") && is_subscriber (drop 3 l).

Definition requireNonBlank (raw : string) : result string :=
  refuse (trim raw = "") with "STK_CALLBACK_INVALID" ;; Ok (trim raw).

Definition optionalPattern (pattern : string -> bool) (raw : option string) : result (option string) :=
  match raw with
  | None => Ok None
  | Some s => v ← requireNonBlank s; refuse (pattern v = false) with "STK_CALLBACK_INVALID" ;; Ok (Some v)
  end.

Definition positiveMinor (raw : option numeric) : result (option Z) :=
  match raw with
  | None => Ok None
  | Some v =>
      match safeMinor v with
      | Some z => refuse (z <= 0) with "STK_CALLBACK_INVALID" ;; Ok (Some z)
      | None => Err (DomainError "STK_CALLBACK_INVALID")
      end
  end.

Definition assertStkResultCallback (raw : StkPushResultCallbackInput) : result StkPushResultCallback :=
  checkoutRequestId ← requireNonBlank (ci_checkoutRequestId raw);
  refuse (CHECKOUT_ID_PATTERN checkoutRequestId = false) with "STK_CALLBACK_INVALID" ;;
  merchantRequestId ← requireNonBlank (ci_merchantRequestId raw);
  resultDesc ← requireNonBlank (ci_resultDesc raw);
  match safeInteger (ci_resultCode raw) with
  | None => Err (DomainError "STK_CALLBACK_INVALID")
  | Some resultCode =>
      refuse (resultCode < 0) with "STK_CALLBACK_INVALID" ;;
      let success := bool_decide (resultCode = 0) in
      receiptNumber ← optionalPattern TRANS_ID_PATTERN (ci_receiptNumber raw);
      paidMinor ← positiveMinor (ci_paidMinor raw);
      msisdn ← optionalPattern MSISDN_PATTERN (ci_msisdn raw);
      refuse (success = true /\ paidMinor = None) with "STK_CALLBACK_INVALID" ;;
      refuse (success = true /\ receiptNumber = None) with "STK_CALLBACK_INVALID" ;;
      Ok (MkCallback checkoutRequestId merchantRequestId resultCode resultDesc success receiptNumber paidMinor msisdn)
  end.

Definition initiationIdempotencyKey (actionId : string) : string := "stkpush:" +:+ actionId.
Definition paymentIdempotencyKey (checkoutRequestId : string) : string := "daraja:stk:" +:+ checkoutRequestId.

Definition toDarajaMsisdn (normalized : string) : result string :=
  let wire := match explode normalized with c :: l => if decide (c = "+"%char) then implode l else normalized | [] => normalized end in
  refuse (MSISDN_PATTERN wire = false) with "STK_MSISDN_INVALID" ;; Ok wire.

(** The scripted test double: the script and what was dispatched. *)
Record SimulatedStkWire := MkSimulatedWire { sim_script : list StkPushInitiationOutcome; sim_dispatched : list StkPushInitiationCommand }.

Definition simulatedStkWire (script : list StkPushInitiationOutcome) : result SimulatedStkWire :=
  refuse (script = []) with "STK_WIRE_SCRIPT_EMPTY" ;; Ok (MkSimulatedWire script []).

Definition simulatedInitiate (w : SimulatedStkWire) (cmd : StkPushInitiationCommand) : result (StkPushInitiationOutcome * SimulatedStkWire) :=
  match sim_script w !! length (sim_dispatched w) with
  | None => Err (DomainError "STK_WIRE_SCRIPT_EXHAUSTED")
  | Some outcome =>
      let dispatched := sim_dispatched w ++ [cmd] in
      let n := Z.of_nat (length dispatched) in
      let answer := match outcome with
        | wire_accepted _ _ _ =>
            wire_accepted ("58234-1194" +:+ show_Z (10000 + n) +:+ "-1") ("ws_CO_1209202514" +:+ show_Z (100000 + n))
              (Some "A payment request has been sent to the customer")
        | rejected => rejected
        end in
      Ok (answer, MkSimulatedWire (sim_script w) dispatched)
  end.

(** ** The attempt *)

Definition STK_PUSH_ACTION_TYPE : string := "collect_now_stk_push".
Definition STK_CONSENT_CHANNEL : string := "sms".
Definition STK_CONSENT_PURPOSE : string := "dunning".
Definition DEFAULT_STK_PUSH_TTL_MS : Z := 120000.

Inductive StkPushActionState :=
| stk_proposed | stk_awaiting_approval | stk_approved | stk_refused | stk_initiated | stk_reconciled | stk_failed | stk_timed_out.
#[export] Instance StkPushActionState_eq_dec : EqDecision StkPushActionState.
Proof. solve_decision. Defined.

Definition STK_PUSH_TERMINAL_STATES : list StkPushActionState := [stk_refused; stk_reconciled; stk_failed].

Record StkPushEconomics := MkEconomics {
  ec_expectedRecoveryMinor : number;
  ec_costMinor : number;
  ec_fatiguePenaltyMinor : number;
  ec_channelFitPermill : number;
  ec_scoreMinor : number;
  ec_reasons : list string;
}.

Record StkPushPolicyRef := MkPolicyRef { sr_reasonCode : string; sr_matchedRuleIds : list string; sr_ruleSetVersion : number }.

Inductive RefusalStage := stage_consent | stage_policy.
Record StkPushRefusal := MkStkRefusal { sf_stage : RefusalStage; sf_reasonCode : string; sf_detail : option string }.
Record StkPushApproval := MkStkApproval { sa_ref : string; sa_approverId : string; sa_approvedAt : Date }.
Record StkPushInitiation := MkInitiation {
  in_merchantRequestId : string;
  in_checkoutRequestId : string;
  in_idempotencyKey : string;
  in_initiatedAt : Date;
  in_expiresAt : Date;
}.

Record StkPushAction := MkStkAction {
  sp_actionId : Uuid;
  sp_orgId : Uuid;
  sp_customerId : Uuid;
  sp_receivableId : option Uuid;
  sp_caseId : option Uuid;
  sp_state : StkPushActionState;
  sp_amount : Money;
  sp_msisdn : string;
  sp_riskClass : string;
  sp_actor : PolicyActor;
  sp_autonomous : bool;
  sp_economics : StkPushEconomics;
  sp_accountReference : string;
  sp_transactionDesc : string;
  sp_proposedAt : Date;
  sp_policyRef : option StkPushPolicyRef;
  sp_refusal : option StkPushRefusal;
  sp_approval : option StkPushApproval;
  sp_initiation : option StkPushInitiation;
  sp_paymentId : option Uuid;
  sp_resolvedAt : option Date;
  sp_resolvedLate : option bool;
  sp_failureCode : option string;
  sp_failureReason : option string;
  sp_timedOutAt : option Date;
}.

#[export] Instance StkPushAction_eta : Eta StkPushAction := fun a =>
  MkStkAction (sp_actionId a) (sp_orgId a) (sp_customerId a) (sp_receivableId a) (sp_caseId a) (sp_state a) (sp_amount a)
    (sp_msisdn a) (sp_riskClass a) (sp_actor a) (sp_autonomous a) (sp_economics a) (sp_accountReference a) (sp_transactionDesc a)
    (sp_proposedAt a) (sp_policyRef a) (sp_refusal a) (sp_approval a) (sp_initiation a) (sp_paymentId a) (sp_resolvedAt a)
    (sp_resolvedLate a) (sp_failureCode a) (sp_failureReason a) (sp_timedOutAt a).

(** ** Events *)

Inductive StkPushPayload :=
| StkPushProposedPayload (actionId orgId customerId : Uuid) (receivableId caseId : option Uuid) (amountMinor : number)
    (actorType : string) (autonomous : bool) (riskClass : string) (economics : StkPushEconomics) (proposedAt : string)
| StkPushRefusedPayload (actionId orgId customerId : Uuid) (receivableId caseId : option Uuid) (stage : RefusalStage)
    (reasonCode : string) (detail : option string) (refusedAt : string)
| StkPushAwaitingApprovalPayload (actionId orgId customerId : Uuid) (ref : StkPushPolicyRef) (awaitingAt : string)
| StkPushApprovedPayload (actionId orgId : Uuid) (approvalRef approverId approvedAt : string)
| StkPushInitiatedPayload (actionId orgId customerId : Uuid) (merchantRequestId checkoutRequestId idempotencyKey : string)
    (amountMinor : number) (ttlMs : Z) (expiresAt initiatedAt : string)
| StkPushNotInitiatedPayload (actionId orgId : Uuid) (reason attemptedAt : string)
| StkPushConfirmedPayload (actionId orgId customerId paymentId : Uuid) (checkoutRequestId receiptNumber : string)
    (amountMinor : number) (late : bool) (reconciledAt : string)
| StkPushFailedPayload (actionId orgId paymentId : Uuid) (checkoutRequestId : string) (resultCode : Z)
    (failureCode resultDesc : string) (late : bool) (failedAt : string)
| StkPushTimedOutPayload (actionId orgId : Uuid) (checkoutRequestId expiresAt timedOutAt : string).
Notation StkPushEvent := (DomainEvent StkPushPayload).

Definition stkEvent (a : StkPushAction) (nm : string) (p : StkPushPayload) (clock : Clock) : StkPushEvent :=
  domainEvent nm (sp_actionId a) p clock.

(** ** Proposing *)

Definition assertNonBlank (raw code : string) (max : nat) : result string :=
  let value := trim raw in
  refuse (value = "") with code ;;
  refuse ((max < String.length value)%nat) with code ;;
  Ok value.

Definition subjectRef (raw : option Uuid) : result (option Uuid) :=
  match raw with None => Ok None | Some s => v ← assertNonBlank s "STK_SUBJECT_INVALID" 256; Ok (Some v) end.

Record ProposeStkPushArgs := MkPropose {
  pp_id : option Uuid;
  pp_orgId : Uuid;
  pp_customerId : Uuid;
  pp_receivableId : option Uuid;
  pp_caseId : option Uuid;
  pp_actor : PolicyActor;
  pp_amount : Money;
  pp_msisdn : string;
  pp_riskClass : string;
  pp_autonomous : bool;
  pp_economics : StkPushEconomics;
  pp_accountReference : string;
  pp_transactionDesc : string;
}.

(** The exact bigint; the source converts it with [Number], which is exact within the
    ceiling the caller checks and beyond it outside. *)
Definition stkPushScoreMinor (e : StkPushEconomics) : result Z :=
  recovery ← BigInt (ec_expectedRecoveryMinor e);
  fit ← BigInt (ec_channelFitPermill e);
  cost ← BigInt (ec_costMinor e);
  fatigue ← BigInt (ec_fatiguePenaltyMinor e);
  Ok (Z.quot (recovery * fit) 1000 - cost - fatigue).

(** [/^[A-Za-z0-9]{1,12}$/] *)
Definition ACCOUNT_REFERENCE_PATTERN (s : string) : bool :=
  let l := explode s in (1 <=? length l)%nat && (length l <=? 12)%nat && forallb is_alnum l.
Definition TRANSACTION_DESC_MAX : nat := 26.

Definition assertEconomics (e : StkPushEconomics) : result unit :=
  refuse (badInteger (ec_expectedRecoveryMinor e) 0 = true) with "STK_ECONOMICS_INVALID" ;;
  refuse (badInteger (ec_costMinor e) 0 = true) with "STK_ECONOMICS_INVALID" ;;
  refuse (badInteger (ec_fatiguePenaltyMinor e) 0 = true) with "STK_ECONOMICS_INVALID" ;;
  refuse (badInteger (ec_channelFitPermill e) 0 = true \/ 1000 < default 0 (safeInteger (ec_channelFitPermill e))) with "STK_ECONOMICS_INVALID" ;;
  refuse (ec_reasons e = [] \/ forallb isNonBlank (ec_reasons e) = false) with "STK_ECONOMICS_INVALID" ;;
  recomputed ← stkPushScoreMinor e;
  refuse (Z.abs recomputed > MAX_SAFE_INTEGER) with "STK_ECONOMICS_INVALID" ;;
  refuse (integerValue (ec_scoreMinor e) <> Some recomputed) with "STK_ECONOMICS_INVALID" ;;
  Ok tt.

Definition proposeStkPush (args : ProposeStkPushArgs) (clock : Clock) : result (StkPushAction * list StkPushEvent) :=
  let proposedAt := clock 0%nat in
  orgId ← assertNonBlank (pp_orgId args) "STK_ORG_REQUIRED" 256;
  customerId ← assertNonBlank (pp_customerId args) "STK_CUSTOMER_REQUIRED" 256;
  receivableId ← subjectRef (pp_receivableId args);
  caseId ← subjectRef (pp_caseId args);
  let actor := pp_actor args in
  refuse (ac_type actor ∉ ACTOR_TYPES) with "STK_ACTOR_INVALID" ;;
  actorId ← assertNonBlank (ac_actorId actor) "STK_ACTOR_INVALID" 256;
  refuse (ac_type actor = "human" /\ pp_autonomous args = true) with "STK_AUTONOMY_MISMATCH" ;;
  let money := pp_amount args in
  refuse (currency money <> KES) with "STK_CURRENCY_UNSUPPORTED" ;;
  refuse (amount money <= 0) with "STK_AMOUNT_INVALID" ;;
  refuse (amount money > MAX_SAFE_INTEGER) with "STK_AMOUNT_INVALID" ;;
  msisdn ← match normalizeMsisdn (pp_msisdn args) with Ok m => Ok m | Err _ => Err (DomainError "STK_MSISDN_INVALID") end;
  refuse (pp_riskClass args ∉ RISK_CLASSES) with "STK_RISK_CLASS_INVALID" ;;
  let economics := pp_economics args in
  _ ← assertEconomics economics;
  accountReference ← assertNonBlank (pp_accountReference args) "STK_REFERENCE_INVALID" 12;
  refuse (ACCOUNT_REFERENCE_PATTERN accountReference = false) with "STK_REFERENCE_INVALID" ;;
  transactionDesc ← assertNonBlank (pp_transactionDesc args) "STK_REFERENCE_INVALID" TRANSACTION_DESC_MAX;
  actionId ← match pp_id args with
    | Some id => Ok id
    | None => uuidFromSeed ("stkpush:" +:+ orgId +:+ ":" +:+ customerId +:+ ":" +:+ msisdn +:+ ":" +:+ show_Z (amount money) +:+ ":" +:+ toISOString proposedAt)
    end;
  let action := MkStkAction actionId orgId customerId receivableId caseId stk_proposed money msisdn (pp_riskClass args)
    (MkPolicyActor (ac_type actor) actorId) (pp_autonomous args) economics accountReference transactionDesc proposedAt
    None None None None None None None None None None in
  let payload := StkPushProposedPayload actionId orgId customerId receivableId caseId (num (amount money)) (ac_type actor)
    (pp_autonomous args) (pp_riskClass args) economics (toISOString proposedAt) in
  Ok (action, [stkEvent action "stk.pushProposed" payload (fixed_clock proposedAt)]).

(** ** The policy decision and the human approval *)

(** [assertNonBlank] of an explanation; a text the engine composes is never blank nor long. *)
Definition assertExplanation (e : option string) : result (option string) :=
  match e with None => Ok None | Some s => v ← assertNonBlank s "STK_DECISION_MISMATCH" 256; Ok (Some v) end.

Definition applyStkPolicyDecision (a : StkPushAction) (d : PolicyDecision) (clock : Clock) : result (StkPushAction * list StkPushEvent) :=
  refuse (sp_state a <> stk_proposed) with "STK_STATE_INVALID" ;;
  refuse (pd_decision d ∉ DECISIONS) with "STK_DECISION_MISMATCH" ;;
  refuse (pd_orgId d <> sp_orgId a) with "STK_DECISION_MISMATCH" ;;
  reasonCode ← assertNonBlank (pd_reasonCode d) "STK_DECISION_MISMATCH" 256;
  let at_ := clock 0%nat in
  let policyRef := MkPolicyRef reasonCode (pd_matchedRuleIds d) (pd_ruleSetVersion d) in
  if decide (pd_decision d = "deny") then
    detail ← assertExplanation (pd_explanation d);
    let next := a <| sp_state := stk_refused |> <| sp_policyRef := Some policyRef |>
                  <| sp_refusal := Some (MkStkRefusal stage_policy reasonCode detail) |> in
    let payload := StkPushRefusedPayload (sp_actionId a) (sp_orgId a) (sp_customerId a) (sp_receivableId a) (sp_caseId a)
      stage_policy reasonCode detail (toISOString at_) in
    Ok (next, [stkEvent a "stk.pushRefused" payload (fixed_clock at_)])
  else if decide (pd_decision d = "requires_approval") then
    let next := a <| sp_state := stk_awaiting_approval |> <| sp_policyRef := Some policyRef |> in
    let payload := StkPushAwaitingApprovalPayload (sp_actionId a) (sp_orgId a) (sp_customerId a) policyRef (toISOString at_) in
    Ok (next, [stkEvent a "stk.pushAwaitingApproval" payload (fixed_clock at_)])
  else Ok (a <| sp_policyRef := Some policyRef |>, []).

Definition approveStkPush (a : StkPushAction) (approvalRef approverId : string) (clock : Clock) : result (StkPushAction * list StkPushEvent) :=
  refuse (sp_state a <> stk_awaiting_approval) with "STK_STATE_INVALID" ;;
  ref ← assertNonBlank approvalRef "STK_APPROVAL_INVALID" 256;
  approver ← assertNonBlank approverId "STK_APPROVAL_INVALID" 256;
  let approvedAt := clock 0%nat in
  let next := a <| sp_state := stk_approved |> <| sp_approval := Some (MkStkApproval ref approver approvedAt) |> in
  let payload := StkPushApprovedPayload (sp_actionId a) (sp_orgId a) ref approver (toISOString approvedAt) in
  Ok (next, [stkEvent a "stk.pushApproved" payload (fixed_clock approvedAt)]).

(** ** Initiation *)

Section parse.
  Context (Date_parse : string -> option Z).

(** [now >= Date.parse(expiresAt)], false when it does not parse. *)
Definition lapsed (now : Date) (expiresAt : string) : bool := match Date_parse expiresAt with Some e => e <=? now | None => false end.

Definition assertClearance (a : StkPushAction) (d : PolicyDecision) (now : Date) : result unit :=
  refuse (pd_decision d <> "allow") with "STK_CLEARANCE_INVALID" ;;
  refuse (pd_orgId d <> sp_orgId a) with "STK_DECISION_MISMATCH" ;;
  match pd_conditions d with
  | None => Ok tt
  | Some c =>
      refuse (from_option (fun max => bool_decide (ncompare (num (amount (sp_amount a))) max = Some Gt)) false (dc_maxAmountMinor c) = true)
        with "STK_CLEARANCE_AMOUNT_EXCEEDED" ;;
      refuse (from_option (fun cs => negb (bool_decide (STK_CONSENT_CHANNEL ∈ cs))) false (dc_allowedChannels c) = true)
        with "STK_CLEARANCE_CHANNEL_FORBIDDEN" ;;
      refuse (from_option (lapsed now) false (dc_expiresAt c) = true) with "STK_CLEARANCE_EXPIRED" ;;
      Ok tt
  end.

Inductive InitiateStkPushResult :=
| push_live (attempt : StkPushAction) (events : list StkPushEvent)
| push_not_live (reason : string) (attempt : StkPushAction) (events : list StkPushEvent).

Definition initiationCommand (a : StkPushAction) : result StkPushInitiationCommand :=
  msisdn ← toDarajaMsisdn (sp_msisdn a);
  Ok (MkStkCommand (sp_actionId a) (sp_orgId a) (sp_customerId a) (amount (sp_amount a)) msisdn (sp_accountReference a)
        (sp_transactionDesc a) (initiationIdempotencyKey (sp_actionId a))).

(** What follows the wire's answer. *)
Definition afterWire (a : StkPushAction) (outcome : StkPushInitiationOutcome) (ttlMs : Z) (initiatedAt : Date) : result InitiateStkPushResult :=
  match outcome with
  | wire_rejected failureReason =>
      reason ← assertNonBlank failureReason "STK_WIRE_ECHO_INVALID" 256;
      let payload := StkPushNotInitiatedPayload (sp_actionId a) (sp_orgId a) reason (toISOString initiatedAt) in
      Ok (push_not_live reason a [stkEvent a "stk.pushNotInitiated" payload (fixed_clock initiatedAt)])
  | wire_accepted merchant checkout _ =>
      merchantRequestId ← assertNonBlank merchant "STK_WIRE_ECHO_INVALID" 256;
      checkoutRequestId ← assertNonBlank checkout "STK_WIRE_ECHO_INVALID" 256;
      refuse (CHECKOUT_ID_PATTERN checkoutRequestId = false) with "STK_WIRE_ECHO_INVALID" ;;
      let expiresAt := initiatedAt + ttlMs in
      let key := initiationIdempotencyKey (sp_actionId a) in
      if decide (MAX_TIME < expiresAt) then Err RangeError else
      let next := a <| sp_state := stk_initiated |>
                    <| sp_initiation := Some (MkInitiation merchantRequestId checkoutRequestId key initiatedAt expiresAt) |> in
      let payload := StkPushInitiatedPayload (sp_actionId a) (sp_orgId a) (sp_customerId a) merchantRequestId checkoutRequestId key
        (num (amount (sp_amount a))) ttlMs (toISOString expiresAt) (toISOString initiatedAt) in
      Ok (push_live next [stkEvent a "stk.pushInitiated" payload (fixed_clock initiatedAt)])
  end.

Record InitiateStkPushArgs := MkInitiate { ia_clearance : option PolicyDecision; ia_ttlMs : option number }.

(** Everything before the call of the port: the command, the instant and the TTL. *)
Definition prepareInitiation (a : StkPushAction) (args : InitiateStkPushArgs) (clock : Clock) : result (StkPushInitiationCommand * Date * Z) :=
  refuse (sp_state a <> stk_proposed /\ sp_state a <> stk_approved) with "STK_STATE_INVALID" ;;
  initiatedAt ← match ia_clearance args with
    | None => refuse (sp_state a = stk_proposed) with "STK_CLEARANCE_INVALID" ;; Ok (clock 0%nat)
    | Some d => _ ← assertClearance a d (clock 0%nat); Ok (clock 1%nat)
    end;
  match safeInteger (default (num DEFAULT_STK_PUSH_TTL_MS) (ia_ttlMs args)) with
  | None => Err (DomainError "STK_TTL_INVALID")
  | Some ttlMs =>
      refuse (ttlMs <= 0) with "STK_TTL_INVALID" ;;
      cmd ← initiationCommand a;
      Ok (cmd, initiatedAt, ttlMs)
  end.

Definition initiateStkPush (a : StkPushAction) (args : InitiateStkPushArgs) (wire : StkPushInitiationCommand -> StkPushInitiationOutcome)
    (clock : Clock) : result InitiateStkPushResult :=
  '(cmd, initiatedAt, ttlMs) ← prepareInitiation a args clock;
  afterWire a (wire cmd) ttlMs initiatedAt.

(** ** Reconciliation *)

Record ReconcileStkCallbackResult := MkReconciled {
  rc_attempt : StkPushAction;
  rc_payment : Payment;
  rc_duplicate : bool;
  rc_paymentEvents : list PaymentEvent;
  rc_stkEvents : list StkPushEvent;
}.

Definition stkIntakeCommand (a : StkPushAction) (cb : StkPushResultCallback) : IntakeCommand :=
  MkIntakeCommand "stk" (default (cb_checkoutRequestId cb) (cb_receiptNumber cb)) (paymentIdempotencyKey (cb_checkoutRequestId cb))
    (sp_amount a) (Some (sp_customerId a)) [] None.

(** The branch of a successful result: the payment is confirmed for the attempt's amount. *)
Definition reconcileSuccess (a : StkPushAction) (cb : StkPushResultCallback) (intake : IntakeResult) (now : Date) (clock : Clock)
  : result ReconcileStkCallbackResult :=
  let late := bool_decide (sp_state a = stk_timed_out) in
  awaited ← awaitConfirmation (ir_payment intake);
  confirmed ← confirmPayment awaited.1 (sp_amount a) clock;
  let id := pay_id confirmed.1 in
  let next := a <| sp_state := stk_reconciled |> <| sp_paymentId := Some id |> <| sp_resolvedAt := Some now |> <| sp_resolvedLate := Some late |> in
  let payload := StkPushConfirmedPayload (sp_actionId a) (sp_orgId a) (sp_customerId a) id (cb_checkoutRequestId cb)
    (default "" (cb_receiptNumber cb)) (num (amount (sp_amount a))) late (toISOString now) in
  Ok (MkReconciled next confirmed.1 false (ir_events intake ++ confirmed.2) [stkEvent a "stk.pushConfirmed" payload (fixed_clock now)]).

Definition reconcileFailure (a : StkPushAction) (cb : StkPushResultCallback) (intake : IntakeResult) (now : Date) (clock : Clock)
  : result ReconcileStkCallbackResult :=
  let late := bool_decide (sp_state a = stk_timed_out) in
  let failureCode := "STK_RESULT_" +:+ show_Z (cb_resultCode cb) in
  failed ← failPayment (ir_payment intake) failureCode clock;
  let id := pay_id failed.1 in
  let next := a <| sp_state := stk_failed |> <| sp_paymentId := Some id |> <| sp_resolvedAt := Some now |> <| sp_resolvedLate := Some late |>
                <| sp_failureCode := Some failureCode |> <| sp_failureReason := Some (cb_resultDesc cb) |> in
  let payload := StkPushFailedPayload (sp_actionId a) (sp_orgId a) id (cb_checkoutRequestId cb) (cb_resultCode cb) failureCode
    (cb_resultDesc cb) late (toISOString now) in
  Ok (MkReconciled next failed.1 false (ir_events intake ++ failed.2) [stkEvent a "stk.pushFailed" payload (fixed_clock now)]).

Definition reconcileStkCallback (a : StkPushAction) (raw : StkPushResultCallbackInput) (existing : list Payment) (clock : Clock)
  : result ReconcileStkCallbackResult :=
  cb ← assertStkResultCallback raw;
  match sp_initiation a with
  | None => Err (DomainError "STK_STATE_INVALID")
  | Some initiation =>
      refuse (sp_state a ∉ [stk_initiated; stk_reconciled; stk_failed; stk_timed_out]) with "STK_STATE_INVALID" ;;
      refuse (cb_checkoutRequestId cb <> in_checkoutRequestId initiation) with "STK_CALLBACK_UNKNOWN" ;;
      refuse (cb_success cb = true /\ cb_paidMinor cb <> Some (amount (sp_amount a))) with "STK_AMOUNT_MISMATCH" ;;
      intake ← intakePayment (stkIntakeCommand a cb) existing clock;
      if duplicate intake then Ok (MkReconciled a (ir_payment intake) true (ir_events intake) [])
      else if cb_success cb then reconcileSuccess a cb intake (clock 2%nat) (clock_after 3 clock)
      else reconcileFailure a cb intake (clock 2%nat) (clock_after 3 clock)
  end.

(** ** The deadline *)

Definition isStkPushDue (a : StkPushAction) (now : Date) : bool :=
  bool_decide (sp_state a = stk_initiated) && match sp_initiation a with Some i => in_expiresAt i <=? now | None => false end.

Definition expireStkPushIfDue (a : StkPushAction) (clock : Clock) : StkPushAction * list StkPushEvent :=
  let now := clock 0%nat in
  match sp_initiation a with
  | Some i =>
      if isStkPushDue a now then
        let payload := StkPushTimedOutPayload (sp_actionId a) (sp_orgId a) (in_checkoutRequestId i) (toISOString (in_expiresAt i)) (toISOString now) in
        (a <| sp_state := stk_timed_out |> <| sp_timedOutAt := Some now |>, [stkEvent a "stk.pushTimedOut" payload (fixed_clock now)])
      else (a, [])
  | None => (a, [])
  end.

(** ** The gate *)

Record StkPushGateFacts := MkGateFacts {
  gf_grants : list ConsentGrant;
  gf_ruleSet : PolicyRuleSet;
  gf_disputeOpen : bool;
  gf_promisePending : bool;
}.

Inductive StkPushGateOutcome :=
| gate_allowed (decision : PolicyDecision)
| gate_approval_required (decision : PolicyDecision)
| gate_refused_consent (reason : RefusalReason)
| gate_refused_policy (decision : PolicyDecision).

(** The two kinds of events the gate returns, in order. *)
Inductive GateEvent :=
| decision_event (e : DecisionRecordedEvent)
| stk_event (e : StkPushEvent).

Record StkPushGateResult := MkGateResult { gr_action : StkPushAction; gr_outcome : StkPushGateOutcome; gr_events : list GateEvent }.

Definition buildStkPushActionRequest (a : StkPushAction) (facts : StkPushGateFacts) : ActionRequest :=
  MkActionRequest (sp_orgId a) (sp_customerId a) (sp_receivableId a) (sp_caseId a) (sp_actor a) STK_PUSH_ACTION_TYPE
    (Some (num (amount (sp_amount a)))) (Some "KES") (sp_riskClass a) (Some STK_CONSENT_CHANNEL) (JBool true)
    (JBool (gf_disputeOpen facts)) (JBool (gf_promisePending facts)) (JBool (sp_autonomous a)).

Definition show_refusal (r : RefusalReason) : string :=
  match r with NO_GRANT => "NO_GRANT" | REVOKED => "REVOKED" | WRONG_PURPOSE => "WRONG_PURPOSE" | WRONG_CHANNEL => "WRONG_CHANNEL" end.

Definition gateStkPush (a : StkPushAction) (facts : StkPushGateFacts) (clock : Clock) : result StkPushGateResult :=
  consent ← assertCanContact (gf_grants facts) (MkContact (sp_customerId a) STK_CONSENT_CHANNEL STK_CONSENT_PURPOSE) clock;
  match consent with
  | refusal reason =>
      let now := clock 1%nat in
      let payload := StkPushRefusedPayload (sp_actionId a) (sp_orgId a) (sp_customerId a) (sp_receivableId a) (sp_caseId a)
        stage_consent (show_refusal reason) None (toISOString now) in
      let next := a <| sp_state := stk_refused |> <| sp_refusal := Some (MkStkRefusal stage_consent (show_refusal reason) None) |> in
      Ok (MkGateResult next (gate_refused_consent reason) [stk_event (stkEvent a "stk.pushRefused" payload (clock_after 2 clock))])
  | allowed _ =>
      decision ← evaluate (buildStkPushActionRequest a facts) (gf_ruleSet facts) (clock_after 1 clock);
      applied ← applyStkPolicyDecision a decision (clock_after 2 clock);
      let events := decision_event (pd_event decision) :: (stk_event <$> applied.2) in
      if decide (pd_decision decision = "deny") then Ok (MkGateResult applied.1 (gate_refused_policy decision) events)
      else if decide (pd_decision decision = "requires_approval") then Ok (MkGateResult applied.1 (gate_approval_required decision) events)
      else Ok (MkGateResult applied.1 (gate_allowed decision) [decision_event (pd_event decision)])
  end.

End parse.

(** ** The world around an attempt

    The attempt, the payments store of the process, the commands handed to the wire and
    the lane's event log.  The gate is called on proposed attempts, as it asks; a command
    counts as dispatched whatever the wire answers and whether or not the call then throws. *)

Record StkWorld := MkStkWorld {
  w_attempt : StkPushAction;
  w_store : list Payment;
  w_dispatched : list StkPushInitiationCommand;
  w_log : list StkPushEvent;
}.

Definition stk_events_of (es : list GateEvent) : list StkPushEvent :=
  omap (fun e => match e with stk_event e => Some e | decision_event _ => None end) es.

Section world.
  Context (Date_parse : string -> option Z).

Inductive stk_step : StkWorld -> StkWorld -> Prop :=
| step_gate w facts clock r : sp_state (w_attempt w) = stk_proposed -> gateStkPush (w_attempt w) facts clock = Ok r ->
    stk_step w (MkStkWorld (gr_action r) (w_store w) (w_dispatched w) (w_log w ++ stk_events_of (gr_events r)))
| step_approve w ref approver clock a es : approveStkPush (w_attempt w) ref approver clock = Ok (a, es) ->
    stk_step w (MkStkWorld a (w_store w) (w_dispatched w) (w_log w ++ es))
| step_launch w args wire clock cmd at_ ttl a es : prepareInitiation Date_parse (w_attempt w) args clock = Ok (cmd, at_, ttl) ->
    initiateStkPush Date_parse (w_attempt w) args wire clock = Ok (push_live a es) ->
    stk_step w (MkStkWorld a (w_store w) (w_dispatched w ++ [cmd]) (w_log w ++ es))
| step_rejected w args wire clock cmd at_ ttl reason a es : prepareInitiation Date_parse (w_attempt w) args clock = Ok (cmd, at_, ttl) ->
    initiateStkPush Date_parse (w_attempt w) args wire clock = Ok (push_not_live reason a es) ->
    stk_step w (MkStkWorld a (w_store w) (w_dispatched w ++ [cmd]) (w_log w ++ es))
| step_dead w args wire clock cmd at_ ttl e : prepareInitiation Date_parse (w_attempt w) args clock = Ok (cmd, at_, ttl) ->
    initiateStkPush Date_parse (w_attempt w) args wire clock = Err e ->
    stk_step w (MkStkWorld (w_attempt w) (w_store w) (w_dispatched w ++ [cmd]) (w_log w))
| step_callback w raw clock r : reconcileStkCallback (w_attempt w) raw (w_store w) clock = Ok r ->
    stk_step w (MkStkWorld (rc_attempt r) (if rc_duplicate r then w_store w else w_store w ++ [rc_payment r]) (w_dispatched w)
      (w_log w ++ rc_stkEvents r))
| step_expire w clock :
    stk_step w (MkStkWorld (expireStkPushIfDue (w_attempt w) clock).1 (w_store w) (w_dispatched w)
      (w_log w ++ (expireStkPushIfDue (w_attempt w) clock).2))
| step_payments w store' : store_step (w_store w) store' ->
    stk_step w (MkStkWorld (w_attempt w) store' (w_dispatched w) (w_log w)).

Definition stk_reachable (w : StkWorld) : Prop :=
  exists args clock a es store, proposeStkPush args clock = Ok (a, es) /\ rtc store_step [] store /\
    rtc stk_step (MkStkWorld a store [] es) w.

(** The checkouts announced live, and the payments announced confirmed. *)
Definition launches (log : list StkPushEvent) : list string :=
  omap (fun e => match payload e with StkPushInitiatedPayload _ _ _ _ checkout _ _ _ _ _ => Some checkout | _ => None end) log.
Definition receipts (log : list StkPushEvent) : list (Uuid * number) :=
  omap (fun e => match payload e with StkPushConfirmedPayload _ _ _ id _ _ minor _ _ => Some (id, minor) | _ => None end) log.

(** The payment the attempt produced, still in the store. *)
Definition produced (a : StkPushAction) (store : list Payment) (final : Payment -> Prop) : Prop :=
  exists p init, p ∈ store /\ sp_initiation a = Some init /\ sp_paymentId a = Some (pay_id p) /\
    idempotencyKey p = trim (paymentIdempotencyKey (in_checkoutRequestId init)) /\ requestedMinor p = sp_amount a /\ final p.

Definition shape (a : StkPushAction) (store : list Payment) (dispatched : list StkPushInitiationCommand) (log : list StkPushEvent) : Prop :=
  match sp_state a with
  | stk_proposed | stk_awaiting_approval | stk_approved | stk_refused => sp_initiation a = None /\ launches log = [] /\ receipts log = []
  | stk_initiated | stk_timed_out =>
      exists init, sp_initiation a = Some init /\ launches log = [in_checkoutRequestId init] /\ receipts log = [] /\ dispatched <> []
  | stk_reconciled =>
      exists init id, sp_initiation a = Some init /\ launches log = [in_checkoutRequestId init] /\ dispatched <> [] /\
        sp_paymentId a = Some id /\ receipts log = [(id, num (amount (sp_amount a)))] /\
        produced a store (fun p => confirmedMinor p = Some (sp_amount a))
  | stk_failed =>
      exists init, sp_initiation a = Some init /\ launches log = [in_checkoutRequestId init] /\ dispatched <> [] /\
        receipts log = [] /\ produced a store (fun p => pay_state p = failed)
  end.

Record stk_wf (w : StkWorld) : Prop := {
  swf_currency : currency (sp_amount (w_attempt w)) = KES;
  swf_amount : 0 < amount (sp_amount (w_attempt w)) <= MAX_SAFE_INTEGER;
  swf_store : rtc store_step [] (w_store w);
  swf_commands : Forall (fun c => initiationCommand (w_attempt w) = Ok c) (w_dispatched w);
  swf_shape : shape (w_attempt w) (w_store w) (w_dispatched w) (w_log w);
}.

(** ** Lemmas: the operations *)

Definition same_terms (a b : StkPushAction) : Prop :=
  sp_actionId b = sp_actionId a /\ sp_orgId b = sp_orgId a /\ sp_customerId b = sp_customerId a /\ sp_amount b = sp_amount a /\
  sp_msisdn b = sp_msisdn a /\ sp_accountReference b = sp_accountReference a /\ sp_transactionDesc b = sp_transactionDesc a.

Lemma same_terms_command a b : same_terms a b -> initiationCommand b = initiationCommand a.
Proof. intros (E1 & E2 & E3 & E4 & E5 & E6 & E7). unfold initiationCommand. by rewrite E1, E2, E3, E4, E5, E6, E7. Qed.

Lemma apply_Ok a d clock b es : applyStkPolicyDecision a d clock = Ok (b, es) ->
  same_terms a b /\ sp_state a = stk_proposed /\ sp_initiation b = sp_initiation a /\ launches es = [] /\ receipts es = [] /\
  sp_state b = if decide (pd_decision d = "deny") then stk_refused else if decide (pd_decision d = "requires_approval") then stk_awaiting_approval else stk_proposed.
Proof.
  unfold applyStkPolicyDecision. intros [Hs%dec_stable H]%guard_Ok. do 2 apply guard_Ok in H as [_ H].
  apply bind_Ok in H as (rc & _ & H). case_decide as Hd.
  - apply bind_Ok in H as (det & _ & [= <- <-]). done.
  - case_decide; injection H as <- <-; done.
Qed.

Lemma gate_Ok a facts clock r : sp_state a = stk_proposed -> gateStkPush a facts clock = Ok r ->
  same_terms a (gr_action r) /\ sp_initiation (gr_action r) = sp_initiation a /\
  launches (stk_events_of (gr_events r)) = [] /\ receipts (stk_events_of (gr_events r)) = [] /\
  sp_state (gr_action r) ∈ [stk_proposed; stk_awaiting_approval; stk_refused].
Proof.
  intros Hs. unfold gateStkPush. intros (consent & _ & H)%bind_Ok. destruct consent as [g|reason].
  - apply bind_Ok in H as (d & _ & H). apply bind_Ok in H as ([b es] & Ha & H). apply apply_Ok in Ha as (Ht & _ & Hi & Hl & Hrc & Hst).
    assert (forall l, stk_events_of (stk_event <$> l) = l) as Hes by (induction l as [|x l IH]; [done|]; cbn; f_equal; exact IH).
    cbn [fst snd] in H. repeat case_decide; injection H as <-; cbn [gr_action gr_events stk_events_of omap list_omap];
      change (list_omap _ (stk_event <$> es)) with (stk_events_of (stk_event <$> es)); rewrite ?Hes, ?Hst; split_and!; try done; set_solver.
  - injection H as <-. cbn. split_and!; try done. set_solver.
Qed.

Lemma approve_Ok a ref approver clock b es : approveStkPush a ref approver clock = Ok (b, es) ->
  same_terms a b /\ sp_state a = stk_awaiting_approval /\ sp_state b = stk_approved /\ sp_initiation b = sp_initiation a /\
  launches es = [] /\ receipts es = [].
Proof.
  unfold approveStkPush. intros [Hs%dec_stable H]%guard_Ok. apply bind_Ok in H as (r1 & _ & H). apply bind_Ok in H as (r2 & _ & [= <- <-]). done.
Qed.

Lemma prepare_Ok a args clock cmd at_ ttl : prepareInitiation Date_parse a args clock = Ok (cmd, at_, ttl) ->
  (sp_state a = stk_proposed \/ sp_state a = stk_approved) /\ initiationCommand a = Ok cmd /\ 0 < ttl.
Proof.
  unfold prepareInitiation. intros [Hs H]%guard_Ok. apply bind_Ok in H as (t & _ & H).
  destruct (safeInteger _) as [z|]; [|done]. apply guard_Ok in H as [Ht H]. apply bind_Ok in H as (c & Hc & [= <- <- <-]).
  split; [destruct (sp_state a); naive_solver|]. split; [done|lia].
Qed.

Lemma initiate_live a args wire clock cmd at_ ttl b es : prepareInitiation Date_parse a args clock = Ok (cmd, at_, ttl) ->
  initiateStkPush Date_parse a args wire clock = Ok (push_live b es) ->
  same_terms a b /\ sp_state b = stk_initiated /\ exists init, sp_initiation b = Some init /\
    launches es = [in_checkoutRequestId init] /\ receipts es = [] /\ in_expiresAt init = in_initiatedAt init + ttl /\
    CHECKOUT_ID_PATTERN (in_checkoutRequestId init) = true.
Proof.
  intros Hp. unfold initiateStkPush. rewrite Hp. cbn [mbind result_bind]. unfold afterWire. destruct (wire cmd) as [m c msg|reason].
  - intros (mid & _ & (cid & _ & H)%bind_Ok)%bind_Ok. apply guard_Ok in H as [Hc%not_false_is_true H]. case_decide; [done|].
    injection H as <- <-. split; [done|]. split; [done|]. by eexists.
  - intros (x & _ & [=])%bind_Ok.
Qed.

Lemma initiate_rejected a args wire clock cmd at_ ttl reason b es : prepareInitiation Date_parse a args clock = Ok (cmd, at_, ttl) ->
  initiateStkPush Date_parse a args wire clock = Ok (push_not_live reason b es) -> b = a /\ launches es = [] /\ receipts es = [].
Proof.
  intros Hp. unfold initiateStkPush. rewrite Hp. cbn [mbind result_bind]. unfold afterWire. destruct (wire cmd) as [m c msg|why].
  - intros (mid & _ & (cid & _ & H)%bind_Ok)%bind_Ok. apply guard_Ok in H as [_ H]. by case_decide.
  - intros (x & _ & [= _ <- <-])%bind_Ok. done.
Qed.

Lemma expire_cases a clock : let r := expireStkPushIfDue a clock in
  r = (a, []) \/ (sp_state a = stk_initiated /\ same_terms a r.1 /\ sp_state r.1 = stk_timed_out /\ sp_initiation r.1 = sp_initiation a /\
    launches r.2 = [] /\ receipts r.2 = []).
Proof.
  unfold expireStkPushIfDue. destruct (sp_initiation a) as [i|] eqn:Hi; [|by left]. destruct (isStkPushDue a (clock 0%nat)) eqn:Hd; [|by left].
  right. unfold isStkPushDue in Hd. apply andb_true_iff in Hd as [Hs%bool_decide_eq_true _]. cbn. by rewrite Hi.
Qed.

(** ** Lemmas: the payments store *)

Lemma intake_store_wf store : rtc store_step [] store -> store_wf store.
Proof. intros H. by apply store_keeps_payments_unique. Qed.

Lemma store_step_keeps s s' p : store_wf s -> store_step s s' -> p ∈ s -> exists p', p' ∈ s' /\ rtc payment_step p p'.
Proof.
  intros [_ Hw] Hstep Hp. destruct Hstep as [store cmd clock r H|store i q q' Hi Hs].
  - exists p. split; [destruct (duplicate r); set_solver|apply rtc_refl].
  - apply list_elem_of_lookup in Hp as [j Hj]. destruct (decide (j = i)) as [->|Hne].
    + rewrite Hi in Hj. injection Hj as ->. exists q'. split; [|by apply rtc_once].
      apply list_elem_of_lookup. exists i. apply list_lookup_insert_eq. by eapply lookup_lt_Some.
    + exists p. split; [|apply rtc_refl]. apply list_elem_of_lookup. exists j. by rewrite list_lookup_insert_ne.
Qed.

Lemma produced_keeps a s s' final : store_wf s -> store_step s s' ->
  (forall p p', payment_wf p -> rtc payment_step p p' -> final p -> final p') -> produced a s final -> produced a s' final.
Proof.
  intros Hwf Hstep Hfinal (p & init & Hp & Hi & Hid & Hkey & Hreq & Hf). destruct (store_step_keeps _ _ _ Hwf Hstep Hp) as (p' & Hp' & Hsteps).
  assert (payment_wf p) as Hpw by (destruct Hwf as [_ Hw]; rewrite Forall_forall in Hw; auto).
  destruct (payment_history_append_only _ _ Hpw Hsteps) as [(_ & _ & _ & E1 & _ & _ & E2 & E3 & _) _].
  exists p', init. split_and!; try congruence. by eapply Hfinal.
Qed.

Lemma confirmed_keeps m p p' : payment_wf p -> rtc payment_step p p' -> confirmedMinor p = Some m -> confirmedMinor p' = Some m.
Proof.
  intros Hw Hs Hc. destruct (payment_history_append_only _ _ Hw Hs) as [(_ & _ & E & _) _]. destruct E as [E _]; [by eexists|congruence].
Qed.

Lemma failed_keeps p p' : payment_wf p -> rtc payment_step p p' -> pay_state p = failed -> pay_state p' = failed.
Proof.
  intros Hw Hs Hf. destruct (payment_history_append_only _ _ Hw Hs) as [_ E]. rewrite E; [done|].
  unfold isTerminal. rewrite Hf. done.
Qed.

Lemma shape_store a s s' d log : store_wf s -> store_step s s' -> shape a s d log -> shape a s' d log.
Proof.
  intros Hwf Hstep. unfold shape. destruct (sp_state a); try done.
  - intros (init & id & Hi & Hl & Hd & Hid & Hr & Hp). exists init, id. split_and!; try done.
    eapply produced_keeps; [done|done| |done]. intros p p'. apply confirmed_keeps.
  - intros (init & Hi & Hl & Hd & Hr & Hp). exists init. split_and!; try done. eapply produced_keeps; [done|done|apply failed_keeps|done].
Qed.

(** ** Lemmas: reconciliation *)

Definition result_for (a : StkPushAction) (raw : StkPushResultCallbackInput) (cb : StkPushResultCallback) (init : StkPushInitiation) : Prop :=
  assertStkResultCallback raw = Ok cb /\ sp_initiation a = Some init /\ sp_state a ∈ [stk_initiated; stk_reconciled; stk_failed; stk_timed_out] /\
  cb_checkoutRequestId cb = in_checkoutRequestId init /\ (cb_success cb = true -> cb_paidMinor cb = Some (amount (sp_amount a))).

Lemma reconcile_iff a raw existing clock r : reconcileStkCallback a raw existing clock = Ok r <-> exists cb init intake, result_for a raw cb init /\
  intakePayment (stkIntakeCommand a cb) existing clock = Ok intake /\
  (if duplicate intake then Ok (MkReconciled a (ir_payment intake) true (ir_events intake) [])
   else if cb_success cb then reconcileSuccess a cb intake (clock 2%nat) (clock_after 3 clock)
   else reconcileFailure a cb intake (clock 2%nat) (clock_after 3 clock)) = Ok r.
Proof.
  unfold reconcileStkCallback, result_for. rewrite bind_Ok. split.
  - intros (cb & Hcb & H). destruct (sp_initiation a) as [init|]; [|done]. apply guard_Ok in H as [Hs%dec_stable [Hc%dec_stable H]%guard_Ok].
    apply guard_Ok in H as [Hm (intake & Hi & H)%bind_Ok]. exists cb, init, intake. split_and!; try done. intros Ht. apply dec_stable. tauto.
  - intros (cb & init & intake & (Hcb & Hi & Hs & Hc & Hm) & Hin & H). exists cb. split; [done|]. rewrite Hi. apply guard_Ok. split; [tauto|].
    apply guard_Ok. split; [tauto|]. apply guard_Ok. split; [tauto|]. apply bind_Ok. by exists intake.
Qed.

Lemma stk_intake_new a cb existing clock intake : intakePayment (stkIntakeCommand a cb) existing clock = Ok intake -> duplicate intake = false ->
  let p := ir_payment intake in payment_fresh p /\ idempotencyKey p = trim (paymentIdempotencyKey (cb_checkoutRequestId cb)) /\
  requestedMinor p = sp_amount a /\ pay_currency p = currency (sp_amount a) /\ channel p = stk /\
  (forall q, q ∈ existing -> idempotencyKey q <> idempotencyKey p).
Proof.
  intros H Hd. destruct (intake_new _ _ _ _ H Hd) as [Hf Hnew]. cbn zeta. split; [done|].
  assert (idempotencyKey (ir_payment intake) = trim (paymentIdempotencyKey (cb_checkoutRequestId cb)) /\
    requestedMinor (ir_payment intake) = sp_amount a /\ pay_currency (ir_payment intake) = currency (sp_amount a) /\ channel (ir_payment intake) = stk) as (E1 & E2 & E3 & E4).
  { unfold intakePayment, stkIntakeCommand in H. cbn in H. do 3 apply guard_Ok in H as [_ H].
    destruct (List.find _ existing) as [prior|]; [|apply bind_Ok in H as (id & _ & [= <-]); done].
    apply guard_Ok in H as [_ (same & _ & [_ [= <-]]%guard_Ok)%bind_Ok]. done. }
  split_and!; try done. intros q Hq E. apply (Hnew q Hq). by right.
Qed.

Lemma reconcile_success_Ok a cb intake now clock : payment_fresh (ir_payment intake) -> pay_currency (ir_payment intake) = currency (sp_amount a) ->
  money_wf (sp_amount a) -> exists r, reconcileSuccess a cb intake now clock = Ok r /\ rc_duplicate r = false /\
    rtc payment_step (ir_payment intake) (rc_payment r) /\ confirmedMinor (rc_payment r) = Some (sp_amount a) /\ pay_state (rc_payment r) = confirmed /\
    same_terms a (rc_attempt r) /\ sp_state (rc_attempt r) = stk_reconciled /\ sp_initiation (rc_attempt r) = sp_initiation a /\
    sp_paymentId (rc_attempt r) = Some (pay_id (rc_payment r)) /\ sp_resolvedLate (rc_attempt r) = Some (bool_decide (sp_state a = stk_timed_out)) /\
    launches (rc_stkEvents r) = [] /\ receipts (rc_stkEvents r) = [(pay_id (rc_payment r), num (amount (sp_amount a)))].
Proof.
  intros (Hs & Hc & Ha & Hr) Hcur Hm. set (p := ir_payment intake) in *.
  assert (Hawait : awaitConfirmation p = Ok (p <| pay_state := pending_confirmation |>, [])).
  { unfold awaitConfirmation, assertNotTerminal, isTerminal. rewrite Hs. done. }
  set (q := p <| pay_state := pending_confirmation |>) in *.
  assert (exists es, confirmPayment q (sp_amount a) clock = Ok (q <| pay_state := confirmed |> <| confirmedMinor := Some (sp_amount a) |> <| confirmedAt := Some (clock 0%nat) |>, es)) as [es Hconf].
  { unfold confirmPayment, assertSameCurrency, assertNotTerminal, isTerminal. cbn. eexists.
    rewrite (decide_False (P := currency (sp_amount a) <> pay_currency p)) by congruence. reflexivity. }
  unfold reconcileSuccess. fold p. rewrite Hawait. cbn [mbind result_bind fst]. rewrite Hconf. cbn [mbind result_bind fst snd].
  eexists. split; [reflexivity|]. cbn [rc_duplicate rc_payment rc_attempt rc_stkEvents]. split; [done|]. split; [|done].
  eapply rtc_l; [exists OpAwait; by eexists|]. apply rtc_once. exists (OpConfirm (sp_amount a) clock). by eexists.
Qed.

Lemma reconcile_failure_Ok a cb intake now clock : payment_fresh (ir_payment intake) -> exists r, reconcileFailure a cb intake now clock = Ok r /\ rc_duplicate r = false /\
    rtc payment_step (ir_payment intake) (rc_payment r) /\ pay_state (rc_payment r) = failed /\
    same_terms a (rc_attempt r) /\ sp_state (rc_attempt r) = stk_failed /\ sp_initiation (rc_attempt r) = sp_initiation a /\
    sp_paymentId (rc_attempt r) = Some (pay_id (rc_payment r)) /\ launches (rc_stkEvents r) = [] /\ receipts (rc_stkEvents r) = [].
Proof.
  intros (Hs & Hc & Ha & Hr). set (p := ir_payment intake) in *. set (code := "STK_RESULT_" +:+ show_Z (cb_resultCode cb)).
  assert (trim code <> "") as Ht.
  { by apply trim_nonblank. }
  assert (exists es, failPayment p code clock = Ok (p <| pay_state := failed |> <| failedAt := Some (clock 0%nat) |> <| failureCode := Some (trim code) |>, es)) as [es Hfail].
  { unfold failPayment. rewrite decide_False by done. rewrite decide_False by congruence. unfold assertNotTerminal, isTerminal. rewrite Hs. eexists. reflexivity. }
  unfold reconcileFailure. fold p code. rewrite Hfail. cbn [mbind result_bind fst snd].
  eexists. split; [reflexivity|]. cbn [rc_duplicate rc_payment rc_attempt rc_stkEvents]. split; [done|]. split; [|done].
  apply rtc_once. exists (OpFail code clock). by eexists.
Qed.

Lemma upper_alnum_not_space c : is_upper_alnum c = true -> is_space c = false.
Proof.
  unfold is_upper_alnum, is_digit, in_range, is_space. intros H. repeat (rewrite ?orb_true_iff, ?andb_true_iff, ?Z.leb_le in H).
  apply not_true_is_false. rewrite !orb_true_iff, andb_true_iff, !Z.leb_le, !Z.eqb_eq. lia.
Qed.

(** A successful result carries a receipt that is not blank. *)
Lemma callback_receipt raw cb : assertStkResultCallback raw = Ok cb -> cb_success cb = true -> exists ref, cb_receiptNumber cb = Some ref /\ trim ref <> "".
Proof.
  unfold assertStkResultCallback. intros H Hok. apply bind_Ok in H as (c & _ & H). apply guard_Ok in H as [_ H]. do 2 apply bind_Ok in H as (? & _ & H).
  destruct (safeInteger _) as [code|]; [|done]. apply guard_Ok in H as [_ (receipt & Hr & (paid & _ & (m & _ & H)%bind_Ok)%bind_Ok)%bind_Ok].
  apply guard_Ok in H as [_ [Hn [= <-]]%guard_Ok]. cbn in *. destruct receipt as [ref|]; [|tauto]. exists ref. split; [done|].
  unfold optionalPattern in Hr. destruct (ci_receiptNumber raw) as [s|]; [|done]. apply bind_Ok in Hr as (v & _ & [Hp%not_false_is_true [= <-]]%guard_Ok).
  unfold TRANS_ID_PATTERN in Hp. destruct v as [|ch v]; [done|]. apply trim_nonblank, upper_alnum_not_space.
  rewrite !andb_true_iff in Hp. destruct Hp as [_ Hall]. cbn in Hall. by apply andb_true_iff in Hall as [? _].
Qed.

(** ** The invariant *)

Lemma store_update_last s p p' : rtc payment_step p p' -> rtc store_step (s ++ [p]) (s ++ [p']).
Proof.
  induction 1 as [p|p q r Hpq _ IH]; [apply rtc_refl|]. eapply rtc_l; [|exact IH].
  replace (s ++ [q]) with (<[length s := q]> (s ++ [p])) by (by rewrite insert_app_r_alt, Nat.sub_diag by lia).
  apply (store_update _ _ p); [by rewrite list_lookup_middle|done].
Qed.

Lemma propose_wf args clock a es store : proposeStkPush args clock = Ok (a, es) -> rtc store_step [] store -> stk_wf (MkStkWorld a store [] es).
Proof.
  unfold proposeStkPush. intros H Hstore. do 4 apply bind_Ok in H as (? & _ & H). apply guard_Ok in H as [_ H].
  apply bind_Ok in H as (? & _ & H). apply guard_Ok in H as [_ H]. apply guard_Ok in H as [Hcur%dec_stable [Hpos [Hmax H]%guard_Ok]%guard_Ok].
  apply bind_Ok in H as (? & _ & H). apply guard_Ok in H as [_ H]. do 2 apply bind_Ok in H as (? & _ & H). apply guard_Ok in H as [_ H].
  do 2 apply bind_Ok in H as (? & _ & H). injection H as <- <-. by split; cbn; [|lia|..].
Qed.

Lemma same_terms_wf w a : same_terms (w_attempt w) a -> stk_wf w ->
  currency (sp_amount a) = KES /\ 0 < amount (sp_amount a) <= MAX_SAFE_INTEGER /\ Forall (fun c => initiationCommand a = Ok c) (w_dispatched w).
Proof.
  intros Ht [Hc Hm _ Hd _]. pose proof (same_terms_command _ _ Ht) as E. destruct Ht as (_ & _ & _ & Ea & _). rewrite Ea. split; [done|]. split; [done|].
  eapply Forall_impl; [exact Hd|]. intros c Hx. cbn. congruence.
Qed.

Lemma launches_app l l' : launches (l ++ l') = launches l ++ launches l'.
Proof. apply omap_app. Qed.
Lemma receipts_app l l' : receipts (l ++ l') = receipts l ++ receipts l'.
Proof. apply omap_app. Qed.

Lemma step_quiet_wf w a es : stk_wf w -> same_terms (w_attempt w) a -> sp_initiation a = sp_initiation (w_attempt w) ->
  launches es = [] -> receipts es = [] -> sp_state (w_attempt w) ∈ [stk_proposed; stk_awaiting_approval; stk_approved] ->
  sp_state a ∈ [stk_proposed; stk_awaiting_approval; stk_approved; stk_refused] ->
  stk_wf (MkStkWorld a (w_store w) (w_dispatched w) (w_log w ++ es)).
Proof.
  intros Hwf Ht Hi Hl Hr Hs Hs'. destruct (same_terms_wf _ _ Ht Hwf) as (Hc & Hm & Hd). destruct Hwf as [_ _ Hst _ Hsh]. split; cbn; try done.
  unfold shape in *. rewrite launches_app, receipts_app, Hl, Hr, !app_nil_r, Hi.
  assert (sp_initiation (w_attempt w) = None /\ launches (w_log w) = [] /\ receipts (w_log w) = []) as Hq.
  { rewrite !elem_of_cons, elem_of_nil in Hs. destruct Hs as [E|[E|[E|[]]]]; rewrite E in Hsh; exact Hsh. }
  rewrite !elem_of_cons, elem_of_nil in Hs'. destruct Hs' as [E|[E|[E|[E|[]]]]]; rewrite E; exact Hq.
Qed.

Lemma callback_wf w raw clock r : stk_wf w -> reconcileStkCallback (w_attempt w) raw (w_store w) clock = Ok r ->
  stk_wf (MkStkWorld (rc_attempt r) (if rc_duplicate r then w_store w else w_store w ++ [rc_payment r]) (w_dispatched w) (w_log w ++ rc_stkEvents r)).
Proof.
  intros Hwf (cb & init & intake & (Hcb & Hi & Hs & Hc & Hm) & Hin & H)%reconcile_iff. destruct (duplicate intake) eqn:Hdup.
  { injection H as <-. cbn. rewrite app_nil_r. by destruct w. }
  destruct (stk_intake_new _ _ _ _ _ Hin Hdup) as (Hf & Hkey & Hreq & Hcur & _ & Hnew).
  pose proof Hwf as [Hk Hamt Hst Hd Hsh]. destruct w as [a store dispatched log]. cbn [w_attempt w_store w_dispatched w_log] in *.
  assert (exists i0, sp_initiation a = Some i0 /\ launches log = [in_checkoutRequestId i0] /\ receipts log = [] /\ dispatched <> []) as (i0 & E0 & Hl & Hr & Hne).
  { assert (forall final, ~ produced a store final) as Hnone.
    { intros final (p & i1 & Hp & Hi1 & _ & Hk1 & _). apply (Hnew p Hp). rewrite Hk1, Hkey, Hc. congruence. }
    unfold shape in Hsh. rewrite !elem_of_cons, elem_of_nil in Hs. destruct Hs as [E|[E|[E|[E|[]]]]]; rewrite E in Hsh.
    - exact Hsh.
    - destruct Hsh as (? & ? & _ & _ & _ & _ & _ & Hp). by apply Hnone in Hp.
    - destruct Hsh as (? & _ & _ & _ & _ & Hp). by apply Hnone in Hp.
    - exact Hsh. }
  rewrite Hi in E0. injection E0 as <-.
  assert (forall p', rtc payment_step (ir_payment intake) p' -> rtc store_step [] (store ++ [p'])) as Hstore'.
  { intros p' Hp'. etrans; [exact Hst|]. eapply rtc_l; [eapply (store_intake _ _ _ _ Hin)|]. rewrite Hdup. by apply store_update_last. }
  assert (forall p', rtc payment_step (ir_payment intake) p' -> idempotencyKey p' = trim (paymentIdempotencyKey (in_checkoutRequestId init)) /\ requestedMinor p' = sp_amount a) as Hkept.
  { intros p' Hp'. destruct (payment_history_append_only _ _ (payment_fresh_wf _ Hf) Hp') as [(_ & _ & _ & _ & _ & _ & E1 & E2 & _) _]. split; congruence. }
  destruct (cb_success cb).
  - destruct (reconcile_success_Ok a cb intake (clock 2%nat) (clock_after 3 clock)) as (r' & Hr' & Hrd & Hsteps & Hconf & _ & Ht & Hst' & Hi' & Hid & _ & Hle & Hre);
      [done|done|unfold money_wf; lia|]. rewrite H in Hr'. injection Hr' as <-. rewrite Hrd.
    destruct (same_terms_wf (MkStkWorld a store dispatched log) _ Ht Hwf) as (? & ? & ?). destruct (Hkept _ Hsteps) as [E1 E2].
    pose proof Ht as (_ & _ & _ & Ea & _). split; cbn; try done; [by apply Hstore'|]. unfold shape. rewrite Hst', launches_app, receipts_app, Hle, Hre, Hl, Hr, Hi', Ea.
    exists init, (pay_id (rc_payment r)). split_and!; try done. exists (rc_payment r), init. rewrite Ea. split_and!; try done; [set_solver|congruence].
  - destruct (reconcile_failure_Ok a cb intake (clock 2%nat) (clock_after 3 clock)) as (r' & Hr' & Hrd & Hsteps & Hfail & Ht & Hst' & Hi' & Hid & Hle & Hre); [done|].
    rewrite H in Hr'. injection Hr' as <-. rewrite Hrd. destruct (same_terms_wf (MkStkWorld a store dispatched log) _ Ht Hwf) as (? & ? & ?). destruct (Hkept _ Hsteps) as [E1 E2].
    pose proof Ht as (_ & _ & _ & Ea & _). split; cbn; try done; [by apply Hstore'|]. unfold shape. rewrite Hst', launches_app, receipts_app, Hle, Hre, Hl, Hr, Hi'.
    exists init. split_and!; try done. exists (rc_payment r), init. rewrite Ea. split_and!; try done; [set_solver|congruence].
Qed.

Lemma stk_step_wf w w' : stk_step w w' -> stk_wf w -> stk_wf w'.
Proof.
  intros Hstep Hwf. destruct Hstep as [w facts clock r Hs H|w ref approver clock a es H|w args wire clock cmd at_ ttl a es Hp H
    |w args wire clock cmd at_ ttl reason a es Hp H|w args wire clock cmd at_ ttl e Hp H|w raw clock r H|w clock|w store' H].
  - destruct (gate_Ok _ _ _ _ Hs H) as (Ht & Hi & Hl & Hr & Hst). apply step_quiet_wf; try done; [rewrite Hs; set_solver|set_solver].
  - destruct (approve_Ok _ _ _ _ _ _ H) as (Ht & Hs & Hs' & Hi & Hl & Hr). apply step_quiet_wf; try done; [rewrite Hs|rewrite Hs']; set_solver.
  - destruct (prepare_Ok _ _ _ _ _ _ Hp) as (Hs & Hcmd & _). destruct (initiate_live _ _ _ _ _ _ _ _ _ Hp H) as (Ht & Hs' & init & Hi & Hl & Hr & _).
    destruct (same_terms_wf _ _ Ht Hwf) as (Hc & Hm & Hd). destruct Hwf as [_ _ Hst _ Hsh]. split; cbn; try done.
    + apply Forall_snoc_2; [by rewrite (same_terms_command _ _ Ht)|done].
    + unfold shape in *. rewrite Hs', launches_app, receipts_app, Hl, Hr. exists init. split; [done|].
      assert (launches (w_log w) = [] /\ receipts (w_log w) = []) as [-> ->] by (destruct Hs as [E|E]; rewrite E in Hsh; tauto).
      split_and!; try done. by destruct (w_dispatched w).
  - destruct (prepare_Ok _ _ _ _ _ _ Hp) as (Hs & Hcmd & _). destruct (initiate_rejected _ _ _ _ _ _ _ _ _ _ Hp H) as (-> & Hl & Hr).
    destruct Hwf as [Hc Hm Hst Hd Hsh]. split; cbn; try done; [by apply Forall_snoc_2|].
    unfold shape in *. rewrite launches_app, receipts_app, Hl, Hr, !app_nil_r. destruct Hs as [E|E]; rewrite E in *; done.
  - destruct (prepare_Ok _ _ _ _ _ _ Hp) as (Hs & Hcmd & _). destruct Hwf as [Hc Hm Hst Hd Hsh]. split; cbn; try done; [by apply Forall_snoc_2|].
    unfold shape in *. destruct Hs as [E|E]; rewrite E in *; done.
  - by eapply callback_wf.
  - destruct (expire_cases (w_attempt w) clock) as [->|(Hs & Ht & Hs' & Hi & Hl & Hr)]; [cbn; rewrite app_nil_r; by destruct w|].
    destruct (same_terms_wf _ _ Ht Hwf) as (Hc & Hm & Hd). destruct Hwf as [_ _ Hst _ Hsh]. split; cbn; try done.
    unfold shape in *. rewrite Hs in Hsh. rewrite Hs', launches_app, receipts_app, Hl, Hr, !app_nil_r, Hi. exact Hsh.
  - destruct Hwf as [Hc Hm Hst Hd Hsh]. split; cbn; try done; [by eapply rtc_r|].
    eapply shape_store; [by apply intake_store_wf|done|done].
Qed.

Lemma stk_reachable_wf w : stk_reachable w -> stk_wf w.
Proof.
  intros (args & clock & a & es & store & Hp & Hst & Hsteps). pose proof (propose_wf _ _ _ _ _ Hp Hst) as H0. clear Hp Hst.
  induction Hsteps as [|x y z Hxy _ IH]; [done|]. apply IH. by eapply stk_step_wf.
Qed.

(** C25: However often a push is retried, rejected, answered twice or timed out, every command
    handed to the wire is one and the same; the push goes live at most once; a confirmed
    payment is announced only on reconciliation, once and for the exact amount, and that
    payment stands in the store with the attempt's amount confirmed. *)
Theorem stk_push_collects_once (w : StkWorld) : stk_reachable w ->
  (forall c c', c ∈ w_dispatched w -> c' ∈ w_dispatched w -> c = c') /\
  Forall (fun c => wc_amountMinor c = amount (sp_amount (w_attempt w)) /\ wc_idempotencyKey c = initiationIdempotencyKey (sp_actionId (w_attempt w))) (w_dispatched w) /\
  (length (launches (w_log w)) <= 1)%nat /\
  match sp_state (w_attempt w) with
  | stk_reconciled => exists p, p ∈ w_store w /\ sp_paymentId (w_attempt w) = Some (pay_id p) /\ confirmedMinor p = Some (sp_amount (w_attempt w)) /\
      receipts (w_log w) = [(pay_id p, num (amount (sp_amount (w_attempt w))))]
  | _ => receipts (w_log w) = []
  end /\ unique_store (w_store w).
Proof.
  intros [Hc Hm Hst Hd Hsh]%stk_reachable_wf. rewrite Forall_forall in Hd. split.
  { intros c c' H1%Hd H2%Hd. congruence. }
  split.
  { apply Forall_forall. intros c H%Hd. unfold initiationCommand in H. apply bind_Ok in H as (m & _ & [= <-]). done. }
  unfold shape in Hsh. split; [destruct (sp_state (w_attempt w)); destruct_ands; match goal with H : launches _ = _ |- _ => rewrite H end; cbn; lia|].
  split; [|by apply intake_store_wf]. destruct (sp_state (w_attempt w)); try (destruct_ands; done).
  destruct Hsh as (init & id & _ & _ & _ & Hid & Hr & (p & i1 & Hp & _ & Hid' & _ & _ & Hconf)). exists p. split_and!; try done. congruence.
Qed.

(** A result is never lost to the clock: a live push, timed out or not, whose callback is
    sound and whose checkout and receipt the store does not know yet, is reconciled, and
    the payment is confirmed for exactly the amount asked. *)
Theorem late_results_still_land (w : StkWorld) (raw : StkPushResultCallbackInput) (cb : StkPushResultCallback) (init : StkPushInitiation) (clock : Clock) :
  stk_reachable w -> result_for (w_attempt w) raw cb init -> cb_success cb = true ->
  List.find (same_payment stk (trim (default (cb_checkoutRequestId cb) (cb_receiptNumber cb))) (trim (paymentIdempotencyKey (cb_checkoutRequestId cb)))) (w_store w) = None ->
  exists r, reconcileStkCallback (w_attempt w) raw (w_store w) clock = Ok r /\ rc_duplicate r = false /\
    sp_state (rc_attempt r) = stk_reconciled /\ sp_paymentId (rc_attempt r) = Some (pay_id (rc_payment r)) /\
    sp_resolvedLate (rc_attempt r) = Some (bool_decide (sp_state (w_attempt w) = stk_timed_out)) /\
    pay_state (rc_payment r) = confirmed /\ confirmedMinor (rc_payment r) = Some (sp_amount (w_attempt w)).
Proof.
  intros [Hc Hm Hst Hd Hsh]%stk_reachable_wf Hres Hok Hfind. destruct Hres as (Hcb & Hi & Hs & Hck & Hpaid).
  assert (exists intake, intakePayment (stkIntakeCommand (w_attempt w) cb) (w_store w) clock = Ok intake /\ duplicate intake = false) as (intake & Hin & Hdup).
  { destruct (callback_receipt _ _ Hcb Hok) as (ref & Href & Hnb). unfold intakePayment, stkIntakeCommand. cbn -[trim default paymentIdempotencyKey uuidFromSeed].
    change (channel_of_string "stk") with (Some stk). cbn iota. rewrite Href in *. cbn [default] in *. rewrite decide_False by done. rewrite decide_False by (by apply trim_nonblank). rewrite decide_False by lia. rewrite Hfind.
    match goal with |- context [uuidFromSeed ?s] => destruct (uuidFromSeed_shape s) as (id & -> & _) end. by eexists. }
  destruct (stk_intake_new _ _ _ _ _ Hin Hdup) as (Hf & Hkey & Hreq & Hcur & _).
  destruct (reconcile_success_Ok (w_attempt w) cb intake (clock 2%nat) (clock_after 3 clock)) as (r & Hr & Hrd & _ & Hconf & Hstate & _ & Hst' & _ & Hid & Hlate & _);
    [done|done|unfold money_wf; lia|].
  exists r. split; [|done]. apply reconcile_iff. exists cb, init, intake. split; [done|]. split; [done|]. by rewrite Hdup, Hok.
Qed.
End world.

(** ** The gate under the default rules *)

Lemma nonBlank_Ok raw code max v : assertNonBlank raw code max = Ok v -> v = trim raw /\ isNonBlank v = true.
Proof.
  unfold assertNonBlank. intros [Hn [_ [= <-]]%guard_Ok]%guard_Ok. split; [done|]. unfold isNonBlank. rewrite trim_trim. by apply negb_true_iff, bool_decide_eq_false.
Qed.

Lemma subjectRef_Ok raw v : subjectRef raw = Ok v -> from_option isNonBlank true v = true.
Proof. destruct raw as [s|]; cbn; [|by intros [= <-]]. intros (x & [_ Hx]%nonBlank_Ok & [= <-])%bind_Ok. done. Qed.

(** A proposed attempt always yields a valid request. *)
Lemma proposed_request args clock a es facts : proposeStkPush args clock = Ok (a, es) ->
  sp_state a = stk_proposed /\ assertActionRequest (buildStkPushActionRequest a facts) = Ok tt /\ sp_riskClass a ∈ RISK_CLASSES.
Proof.
  unfold proposeStkPush. intros (o & [_ Ho]%nonBlank_Ok & H)%bind_Ok. apply bind_Ok in H as (c & [_ Hc]%nonBlank_Ok & H).
  apply bind_Ok in H as (rid & Hrid%subjectRef_Ok & H). apply bind_Ok in H as (cid & Hcid%subjectRef_Ok & H).
  apply guard_Ok in H as [Hat%dec_stable H]. apply bind_Ok in H as (act & [_ Hact]%nonBlank_Ok & H). apply guard_Ok in H as [Hh H].
  apply guard_Ok in H as [_ [Hpos [Hmax H]%guard_Ok]%guard_Ok]. apply bind_Ok in H as (ms & _ & H). apply guard_Ok in H as [Hrisk%dec_stable H].
  do 2 apply bind_Ok in H as (? & _ & H). apply guard_Ok in H as [_ H]. do 2 apply bind_Ok in H as (? & _ & H). injection H as <- <-.
  split; [done|]. split; [|done]. unfold assertActionRequest, buildStkPushActionRequest. cbn [rq_orgId rq_customerId rq_receivableId rq_caseId rq_actor rq_amountMinor rq_currency
    rq_riskClass rq_channel rq_consentPresent rq_disputeOpen rq_promisePending rq_autonomous sp_orgId sp_customerId sp_receivableId sp_caseId sp_actor sp_amount sp_riskClass sp_autonomous ac_type ac_actorId].
  rewrite Ho, Hc, Hrid, Hcid, Hact. rewrite !(decide_False (P := true = false)) by done. rewrite decide_False by naive_solver.
  rewrite decide_False by (intros Hx; by apply Hx). rewrite decide_False by (cbn; intros [E1 E2]; apply Hh; split; [done|]; by destruct (pp_autonomous args)).
  assert (badInteger (num (amount (pp_amount args))) 0 = false) as -> by (unfold badInteger; rewrite safeInteger_num by lia; apply Z.ltb_ge; lia).
  cbn [mbind result_bind]. rewrite decide_False by (intros Hx; by apply Hx). done.
Qed.

Lemma default_rules_texts rule : rule ∈ DEFAULT_RULES -> assertNonBlank (pr_reasonCode rule) "STK_DECISION_MISMATCH" 256 = Ok (pr_reasonCode rule) /\
  is_ok (assertExplanation (Some (pr_explanation rule))) = true /\ pr_decision rule ∈ DECISIONS.
Proof.
  assert (Forall (fun rule => assertNonBlank (pr_reasonCode rule) "STK_DECISION_MISMATCH" 256 = Ok (pr_reasonCode rule) /\
    is_ok (assertExplanation (Some (pr_explanation rule))) = true /\ pr_decision rule ∈ DECISIONS) DEFAULT_RULES) as H.
  { repeat (constructor; [split; [vm_compute; reflexivity|]; split; [vm_compute; reflexivity|by apply (bool_decide_unpack _)]|]). constructor. }
  rewrite Forall_forall in H. apply H.
Qed.

Lemma apply_decision_Ok a d clock reason : sp_state a = stk_proposed -> pd_decision d ∈ DECISIONS -> pd_orgId d = sp_orgId a ->
  assertNonBlank (pd_reasonCode d) "STK_DECISION_MISMATCH" 256 = Ok reason -> is_ok (assertExplanation (pd_explanation d)) = true ->
  exists b es, applyStkPolicyDecision a d clock = Ok (b, es).
Proof.
  intros Hs Hd Ho Hr [e He]%is_ok_true. unfold applyStkPolicyDecision. rewrite decide_False by tauto. rewrite decide_False by tauto. rewrite decide_False by tauto.
  rewrite Hr. cbn [mbind result_bind]. rewrite He. cbn [mbind result_bind]. do 2 (case_decide; [by do 2 eexists|]). by do 2 eexists.
Qed.

(** The default posture on a push. *)
Lemma push_outcome a facts : default_outcome (buildStkPushActionRequest a facts) true (gf_disputeOpen facts) (sp_autonomous a) =
  if decide (sp_autonomous a = true /\ gf_disputeOpen facts = true) then ("deny", "POLICY_DISPUTE_OPEN")
  else if decide (sp_autonomous a = true /\ sp_riskClass a <> "low") then ("requires_approval", "POLICY_RISK_APPROVAL_REQUIRED")
  else if sp_autonomous a then ("allow", "POLICY_AUTONOMOUS_LOW_RISK") else ("allow", "POLICY_SUPERVISED_ACTION").
Proof.
  unfold default_outcome. cbn [rq_actionType rq_channel rq_riskClass buildStkPushActionRequest]. case_decide; [done|].
  rewrite decide_False by (intros (_ & _ & E); discriminate E). rewrite decide_False by (intros (_ & E & _); discriminate E).
  rewrite decide_False by (intros [E _]; discriminate E). by rewrite decide_False by (intros [E _]; discriminate E).
Qed.

(** The customer has a live grant for handset dunning at that instant. *)
Definition consented (a : StkPushAction) (grants : list ConsentGrant) (t : Date) : Prop := exists g, supports grants (sp_customerId a) sms dunning t g.

(** Consent and policy together: a proposed push under the default rules is refused for want
    of consent, refused as automation on a disputed receivable, parked for a human when
    automation meets elevated risk, and allowed otherwise; nothing throws. *)
Theorem default_gate_exact (Date_parse : string -> option Z) (args : ProposeStkPushArgs) (clock0 clock1 clock : Clock) (a : StkPushAction) (es : list StkPushEvent)
    (facts : StkPushGateFacts) :
  proposeStkPush args clock0 = Ok (a, es) -> defaultRuleSetFor Date_parse (sp_orgId a) clock1 = Ok (gf_ruleSet facts) ->
  exists r, gateStkPush a facts clock = Ok r /\
    match gr_outcome r with
    | gate_refused_consent _ => ~ consented a (gf_grants facts) (clock 0%nat) /\ sp_state (gr_action r) = stk_refused
    | gate_refused_policy d => consented a (gf_grants facts) (clock 0%nat) /\ sp_autonomous a = true /\ gf_disputeOpen facts = true /\
        pd_reasonCode d = "POLICY_DISPUTE_OPEN" /\ sp_state (gr_action r) = stk_refused
    | gate_approval_required d => consented a (gf_grants facts) (clock 0%nat) /\ sp_autonomous a = true /\ gf_disputeOpen facts = false /\
        sp_riskClass a <> "low" /\ pd_reasonCode d = "POLICY_RISK_APPROVAL_REQUIRED" /\ sp_state (gr_action r) = stk_awaiting_approval
    | gate_allowed d => consented a (gf_grants facts) (clock 0%nat) /\ (sp_autonomous a = true -> gf_disputeOpen facts = false /\ sp_riskClass a = "low") /\
        sp_state (gr_action r) = stk_proposed
    end.
Proof.
  intros Hp Hset. destruct (proposed_request _ _ _ _ facts Hp) as (Hs & Hreq & Hrisk). unfold gateStkPush, assertCanContact.
  change (assertChannel (cr_channel (MkContact (sp_customerId a) STK_CONSENT_CHANNEL STK_CONSENT_PURPOSE))) with (Ok (A := ConsentChannel) sms).
  change (assertPurpose (cr_purpose (MkContact (sp_customerId a) STK_CONSENT_CHANNEL STK_CONSENT_PURPOSE))) with (Ok (A := ConsentPurpose) dunning).
  cbn [mbind result_bind cr_customerId]. pose proof (decide_contact_spec (gf_grants facts) (sp_customerId a) sms dunning (clock 0%nat)) as Hcon.
  destruct (decide_contact _ _ _ _ _) as [g|reason].
  2:{ destruct Hcon as [Hno _]. eexists. split; [reflexivity|]. cbn. split; [|done]. intros [g Hg]. by apply (Hno g). }
  assert (consented a (gf_grants facts) (clock 0%nat)) as Hc by (exists g; tauto).
  set (req := buildStkPushActionRequest a facts) in *.
  assert (admissible req) as Hadm.
  { split; [by apply (bool_decide_unpack _)|]. split; [intros Hx; by eexists|]. split; intros Hx; discriminate Hx. }
  destruct (default_recorded _ _ _ _ req (clock_after 1 clock) true (gf_disputeOpen facts) (sp_autonomous a) Hset Hreq eq_refl Hadm eq_refl eq_refl eq_refl) as (rule & Hin & Hout & He).
  rewrite He. cbn [mbind result_bind]. set (d := recorded _ _ _ _ _ _ _ _) in *. destruct (default_rules_texts _ Hin) as (Hrc & Hex & Hdec).
  destruct (apply_decision_Ok a d (clock_after 2 clock) (pr_reasonCode rule)) as (b & bs & Hap); [done..|]. rewrite Hap. cbn [mbind result_bind fst snd].
  apply apply_Ok in Hap as (_ & _ & _ & _ & _ & Hst). change (pd_decision d) with (pr_decision rule) in *.
  unfold req in Hout. rewrite push_outcome in Hout. clearbody req. assert (pd_reasonCode d = pr_reasonCode rule) as Hd by done. clearbody d.
  destruct (decide (sp_autonomous a = true /\ gf_disputeOpen facts = true)) as [H1|H1];
    [|destruct (decide (sp_autonomous a = true /\ sp_riskClass a <> "low")) as [H2|H2]; [|destruct (sp_autonomous a) eqn:Eau]];
    injection Hout as E1 E2; rewrite E1 in *; (eexists; split; [reflexivity|]); cbn [gr_outcome gr_action]; rewrite ?Hd, ?E2; split_and?; try done; try tauto.
  all: try (apply not_true_is_false; tauto). intros _. split; [apply not_true_is_false; tauto|]. apply dec_stable; tauto.
Qed.

(** ** Samples *)

Definition sample_economics : StkPushEconomics := MkEconomics (num 100000) (num 500) (num 1000) (num 800) (num 78500) ["recent payer"].

Definition sample_args (actor : PolicyActor) (autonomous : bool) (risk : string) : ProposeStkPushArgs :=
  MkPropose (Some "push-1") "org" "c1" (Some "r1") None actor (MkMoney 150000 KES) "0712345678" risk autonomous sample_economics "INV001" "Invoice 1".

Definition sample_push (actor : PolicyActor) (autonomous : bool) (risk : string) : StkPushAction :=
  MkStkAction "push-1" "org" "c1" (Some "r1") None stk_proposed (MkMoney 150000 KES) "+254712345678" risk actor autonomous sample_economics
    "INV001" "Invoice 1" 0 None None None None None None None None None None.

Definition sample_facts (grants : list ConsentGrant) (dispute : bool) : StkPushGateFacts := MkGateFacts grants sample_ruleset dispute false.
Definition sample_grant : ConsentGrant := MkGrant "g1" "c1" sms dunning 0 None.

(** An allow decision of the organisation on a reminder to another customer. *)
Definition other_allow : PolicyDecision := recorded (sample_request "human" "send_reminder" None false) sample_ruleset 0 "allow" "POLICY_SUPERVISED_ACTION" None ["x"] None.

Definition sample_wire (_ : StkPushInitiationCommand) : StkPushInitiationOutcome := wire_accepted "m-1" "ws_CO_0123456789" None.
Definition sample_result (code : Z) : StkPushResultCallbackInput :=
  if decide (code = 0) then MkCallbackInput "ws_CO_0123456789" "m-1" (num 0) "done" (Some "QHX12345AB") (Some (Big 150000)) None
  else MkCallbackInput "ws_CO_0123456789" "m-1" (num code) "refused by user" None None None.
Definition by_hand : PolicyActor := MkPolicyActor "human" "agent-7".
Definition sample_live : StkPushAction :=
  sample_push by_hand false "low" <| sp_state := stk_initiated |>
    <| sp_initiation := Some (MkInitiation "m-1" "ws_CO_0123456789" "stkpush:push-1" 1000 121000) |>.

Lemma sample_reconciles : exists a es live events r,
  proposeStkPush (sample_args by_hand false "low") (fixed_clock 0) = Ok (a, es) /\
  initiateStkPush (fun _ => None) a (MkInitiate (Some other_allow) None) sample_wire (fixed_clock 1000) = Ok (push_live live events) /\
  live = sample_live /\ reconcileStkCallback live (sample_result 0) [] (fixed_clock 2000) = Ok r /\
  rc_duplicate r = false /\ sp_state (rc_attempt r) = stk_reconciled.
Proof. do 5 eexists. split; [vm_compute; reflexivity|]. split; [vm_compute; reflexivity|]. split; [vm_compute; reflexivity|]. split; [vm_compute; reflexivity|]. split; vm_compute; reflexivity. Qed.

Lemma sample_live_reachable : exists log cmds, stk_reachable (fun _ => None) (MkStkWorld sample_live [] cmds log).
Proof.
  destruct sample_reconciles as (a & es & live & events & r & Hp & Hi & -> & _).
  pose proof Hi as Hi'. unfold initiateStkPush in Hi'. apply bind_Ok in Hi' as ([[cmd at_] ttl] & Hprep & _).
  do 2 eexists. exists (sample_args by_hand false "low"), (fixed_clock 0), a, es, []. split; [exact Hp|]. split; [apply rtc_refl|].
  eapply rtc_once. exact (step_launch _ (MkStkWorld a [] [] es) _ _ _ _ _ _ _ _ Hprep Hi).
Qed.

Lemma stk_push_collects_once_witness : exists w, sp_state (w_attempt w) = stk_reconciled /\ length (w_store w) = 1%nat /\ unique_store (w_store w).
Proof.
  destruct sample_live_reachable as (log & cmds & args & clock & a & es & store & Hp & Hs & Hr).
  destruct sample_reconciles as (_ & _ & _ & _ & r & _ & _ & -> & Hr' & Hd & Hst).
  pose proof (step_callback (fun _ => None) (MkStkWorld sample_live [] cmds log) _ _ _ Hr') as Hstep. rewrite Hd in Hstep.
  eexists. split; [|split; [|apply (stk_push_collects_once (fun _ => None)); exists args, clock, a, es, store; split; [exact Hp|]; split; [exact Hs|]; eapply rtc_r; [exact Hr|exact Hstep]]].
  - exact Hst.
  - reflexivity.
Defined.

Lemma late_results_still_land_witness : exists log cmds r,
  stk_reachable (fun _ => None) (MkStkWorld (expireStkPushIfDue sample_live (fixed_clock 500000)).1 [] cmds log) /\
  reconcileStkCallback (expireStkPushIfDue sample_live (fixed_clock 500000)).1 (sample_result 0) [] (fixed_clock 600000) = Ok r /\
  sp_resolvedLate (rc_attempt r) = Some true /\ sp_state (rc_attempt r) = stk_reconciled.
Proof.
  destruct sample_live_reachable as (log & cmds & args & clock & a & es & store & Hp & Hs & Hr).
  assert (stk_reachable (fun _ => None) (MkStkWorld (expireStkPushIfDue sample_live (fixed_clock 500000)).1 [] cmds (log ++ (expireStkPushIfDue sample_live (fixed_clock 500000)).2))) as Hw.
  { exists args, clock, a, es, store. split; [exact Hp|]. split; [exact Hs|]. eapply rtc_r; [exact Hr|]. exact (step_expire _ (MkStkWorld sample_live [] cmds log) (fixed_clock 500000)). }
  assert (exists cb, assertStkResultCallback (sample_result 0) = Ok cb /\ cb_success cb = true /\ cb_checkoutRequestId cb = "ws_CO_0123456789" /\ cb_paidMinor cb = Some 150000)
    as (cb & Hcb & Hok & Hck & Hpaid) by (eexists; split; [vm_compute; reflexivity|]; done).
  destruct (late_results_still_land (fun _ => None) _ (sample_result 0) cb (MkInitiation "m-1" "ws_CO_0123456789" "stkpush:push-1" 1000 121000) (fixed_clock 600000) Hw)
    as (r & Hres & _ & Hst & _ & Hlate & _).
  - split; [exact Hcb|]. split; [reflexivity|]. split; [by apply (bool_decide_unpack _)|]. split; [exact Hck|]. intros _. exact Hpaid.
  - exact Hok.
  - reflexivity.
  - exists (log ++ (expireStkPushIfDue sample_live (fixed_clock 500000)).2), cmds, r. split; [exact Hw|]. split; [exact Hres|]. split; [exact Hlate|exact Hst].
Defined.

Lemma default_gate_exact_witness : exists r d,
  gateStkPush (sample_push (MkPolicyActor "ai_agent" "bot") true "high") (sample_facts [sample_grant] false) (fixed_clock 10) = Ok r /\
  gr_outcome r = gate_approval_required d /\ pd_reasonCode d = "POLICY_RISK_APPROVAL_REQUIRED".
Proof.
  set (bot := MkPolicyActor "ai_agent" "bot").
  assert (exists es, proposeStkPush (sample_args bot true "high") (fixed_clock 0) = Ok (sample_push bot true "high", es)) as [es Hp] by (eexists; vm_compute; reflexivity).
  destruct (default_gate_exact (fun _ => None) (sample_args bot true "high") (fixed_clock 0) (fixed_clock 0) (fixed_clock 10) _ es (sample_facts [sample_grant] false) Hp)
    as (r & Hr & Ho); [vm_compute; reflexivity|].
  exists r. destruct (gr_outcome r) as [d|d|reason|d].
  - exfalso. destruct Ho as (_ & Hx & _). destruct (Hx eq_refl) as [_ Hl]. discriminate Hl.
  - exists d. split; [exact Hr|]. split; [reflexivity|]. apply Ho.
  - exfalso. destruct Ho as [Hx _]. apply Hx. exists sample_grant. split; [left|]. split; [reflexivity|]. split; [vm_compute; discriminate|]. intros x Hrev. discriminate Hrev.
  - exfalso. destruct Ho as (_ & _ & Hx & _). discriminate Hx.
Defined.

(** ** Limits of the lane *)

(** Clearances are not bound to the attempt: an allow on a reminder to another customer
    launches a push that was never gated. *)
Theorem foreign_allow_launches_a_push : exists live es,
  dr_customerId (payload (pd_event other_allow)) <> sp_customerId (sample_push by_hand false "low") /\
  initiateStkPush (fun _ => None) (sample_push by_hand false "low") (MkInitiate (Some other_allow) None) sample_wire (fixed_clock 1000) = Ok (push_live live es).
Proof. do 2 eexists. split; [done|]. vm_compute. reflexivity. Qed.

(** Gating a live push again after consent was withdrawn refuses it, and its successful
    result is then rejected. *)
Theorem regating_loses_a_live_push : exists r,
  gateStkPush sample_live (sample_facts [] false) (fixed_clock 1500) = Ok r /\ sp_state (gr_action r) = stk_refused /\
  reconcileStkCallback (gr_action r) (sample_result 0) [] (fixed_clock 2000) = Err (DomainError "STK_STATE_INVALID").
Proof. eexists. split; [vm_compute; reflexivity|]. split; vm_compute; reflexivity. Qed.

(** A success reported after a failure is absorbed as a replay: the attempt and its payment
    stay failed. *)
Theorem success_after_failure_is_dropped : exists r1 r2,
  reconcileStkCallback sample_live (sample_result 1032) [] (fixed_clock 2000) = Ok r1 /\
  reconcileStkCallback (rc_attempt r1) (sample_result 0) [rc_payment r1] (fixed_clock 3000) = Ok r2 /\
  rc_duplicate r2 = true /\ sp_state (rc_attempt r2) = stk_failed /\ pay_state (rc_payment r2) = failed /\ rc_stkEvents r2 = [].
Proof. do 2 eexists. split; [vm_compute; reflexivity|]. split; [vm_compute; reflexivity|]. repeat split; vm_compute; reflexivity. Qed.

(** A payment stored before the attempt was saved leaves the attempt live for ever: every
    retry of the callback answers duplicate. *)
Theorem known_payment_leaves_the_push_live : exists r1 r2,
  reconcileStkCallback sample_live (sample_result 0) [] (fixed_clock 2000) = Ok r1 /\
  reconcileStkCallback sample_live (sample_result 0) [rc_payment r1] (fixed_clock 3000) = Ok r2 /\
  rc_duplicate r2 = true /\ sp_state (rc_attempt r2) = stk_initiated /\ pay_state (rc_payment r2) = confirmed.
Proof. do 2 eexists. split; [vm_compute; reflexivity|]. split; [vm_compute; reflexivity|]. repeat split; vm_compute; reflexivity. Qed.

(** A TTL past the last representable date is found out only after the prompt was sent. *)
Theorem long_ttl_fails_after_the_prompt : exists cmd at_ ttl,
  let args := MkInitiate (Some other_allow) (Some (num MAX_SAFE_INTEGER)) in
  prepareInitiation (fun _ => None) (sample_push by_hand false "low") args (fixed_clock 1000) = Ok (cmd, at_, ttl) /\
  initiateStkPush (fun _ => None) (sample_push by_hand false "low") args sample_wire (fixed_clock 1000) = Err RangeError.
Proof. do 3 eexists. split; vm_compute; reflexivity. Qed.

(** A deny rule with a long explanation is published, and the gate then throws instead of
    refusing. *)
Theorem long_explanation_breaks_the_gate :
  let rules := [MkRule "d" (num 1) "any" "deny" [] "POLICY_NO_PUSH" (implode (replicate 257 "x"%char)) None] in
  let rs := MkRuleSet "org" (num 1) "1970-01-01T00:00:00.000Z" rules in
  createRuleSet (fun _ => None) "org" (num 1) rules (fixed_clock 0) = Ok rs /\
  gateStkPush (sample_push by_hand false "low") (MkGateFacts [sample_grant] rs false false) (fixed_clock 10) = Err (DomainError "STK_DECISION_MISMATCH").
Proof. split; vm_compute; reflexivity. Qed.
