(* ===== verification/StkAudit.v ===== *)
(** * The audit trail of STK pushes

    src/domain/collections/stk/audit.ts: the projection of the lane's events, and of the
    duplicate-callback observation of the payments intake, into append commands of the
    audit lane ([auditFromEvent] of AuditTrail.v).

    [composed] is the refusal text the consent guard or the policy engine writes where the
    model of the lane carries [None]. *)

From stdpp Require Import prelude strings list relations.
From Stdlib Require Import ZArith Lia Ascii.
From S2P Require Import Prelude JsNumber JsString JsDate JsJson Money Events Payment Intake Consent PolicyRules PolicyEngine StkPush AuditRecord AuditTrail.
Local Open Scope string_scope.
Local Open Scope list_scope.
Local Open Scope Z_scope.
Local Open Scope js_scope.

Record StkAuditContext := MkAuditContext {
  cx_auditId : Uuid;
  cx_orgId : Uuid;
  cx_actor : AuditActor;
  cx_requestId : string;
  cx_correlationId : option string;
}.

Definition STK_PUSH_EVENT_NAMES : list string :=
  ["stk.pushProposed"; "stk.pushRefused"; "stk.pushAwaitingApproval"; "stk.pushApproved"; "stk.pushInitiated";
   "stk.pushNotInitiated"; "stk.pushConfirmed"; "stk.pushFailed"; "stk.pushTimedOut"].

(** [STK_EVENT_ACTIONS[event.name]] *)
Definition STK_EVENT_ACTIONS (nm : string) : option string :=
  default None (snd <$> List.find (fun p => bool_decide (p.1 = nm))
    [("stk.pushProposed", Some "create"); ("stk.pushRefused", Some "transition"); ("stk.pushAwaitingApproval", Some "transition");
     ("stk.pushApproved", Some "approve"); ("stk.pushInitiated", Some "send"); ("stk.pushNotInitiated", Some "send");
     ("stk.pushConfirmed", Some "ingest"); ("stk.pushFailed", Some "ingest"); ("stk.pushTimedOut", Some "transition")]).

Definition json_ref (r : option Uuid) : jvalue := match r with Some s => JString s | None => JNull end.
Definition json_stage (s : RefusalStage) : jvalue := JString match s with stage_consent => "consent" | stage_policy => "policy" end.

Definition payload_org (p : StkPushPayload) : Uuid :=
  match p with
  | StkPushProposedPayload _ org _ _ _ _ _ _ _ _ _ | StkPushRefusedPayload _ org _ _ _ _ _ _ _ | StkPushAwaitingApprovalPayload _ org _ _ _
  | StkPushApprovedPayload _ org _ _ _ | StkPushInitiatedPayload _ org _ _ _ _ _ _ _ _ | StkPushNotInitiatedPayload _ org _ _
  | StkPushConfirmedPayload _ org _ _ _ _ _ _ _ | StkPushFailedPayload _ org _ _ _ _ _ _ _ | StkPushTimedOutPayload _ org _ _ _ => org
  end.

Section audit.
  Context (Date_parse : string -> option Z) (composed : string).

(** The payload objects of the lane's events. *)
Definition payload_members (p : StkPushPayload) : list (string * jvalue) :=
  match p with
  | StkPushProposedPayload actionId orgId customerId receivableId caseId amountMinor actorType autonomous riskClass e proposedAt =>
      [("actionId", JString actionId); ("orgId", JString orgId); ("customerId", JString customerId); ("receivableId", json_ref receivableId);
       ("caseId", json_ref caseId); ("actionType", JString STK_PUSH_ACTION_TYPE); ("amountMinor", JNumber amountMinor); ("currency", JString "KES");
       ("actorType", JString actorType); ("autonomous", JBool autonomous); ("riskClass", JString riskClass);
       ("expectedRecoveryMinor", JNumber (ec_expectedRecoveryMinor e)); ("costMinor", JNumber (ec_costMinor e));
       ("fatiguePenaltyMinor", JNumber (ec_fatiguePenaltyMinor e)); ("channelFitPermill", JNumber (ec_channelFitPermill e));
       ("scoreMinor", JNumber (ec_scoreMinor e)); ("reasons", JArray (JString <$> ec_reasons e)); ("proposedAt", JString proposedAt)]
  | StkPushRefusedPayload actionId orgId customerId receivableId caseId stage reasonCode detail refusedAt =>
      [("actionId", JString actionId); ("orgId", JString orgId); ("customerId", JString customerId); ("receivableId", json_ref receivableId);
       ("caseId", json_ref caseId); ("stage", json_stage stage); ("reasonCode", JString reasonCode); ("detail", JString (default composed detail));
       ("refusedAt", JString refusedAt)]
  | StkPushAwaitingApprovalPayload actionId orgId customerId ref awaitingAt =>
      [("actionId", JString actionId); ("orgId", JString orgId); ("customerId", JString customerId); ("reasonCode", JString (sr_reasonCode ref));
       ("matchedRuleIds", JArray (JString <$> sr_matchedRuleIds ref)); ("ruleSetVersion", JNumber (sr_ruleSetVersion ref)); ("awaitingAt", JString awaitingAt)]
  | StkPushApprovedPayload actionId orgId approvalRef approverId approvedAt =>
      [("actionId", JString actionId); ("orgId", JString orgId); ("approvalRef", JString approvalRef); ("approverId", JString approverId);
       ("approvedAt", JString approvedAt)]
  | StkPushInitiatedPayload actionId orgId customerId merchantRequestId checkoutRequestId idempotencyKey amountMinor ttlMs expiresAt initiatedAt =>
      [("actionId", JString actionId); ("orgId", JString orgId); ("customerId", JString customerId); ("merchantRequestId", JString merchantRequestId);
       ("checkoutRequestId", JString checkoutRequestId); ("idempotencyKey", JString idempotencyKey); ("amountMinor", JNumber amountMinor);
       ("currency", JString "KES"); ("ttlMs", JNumber (num ttlMs)); ("expiresAt", JString expiresAt); ("initiatedAt", JString initiatedAt)]
  | StkPushNotInitiatedPayload actionId orgId reason attemptedAt =>
      [("actionId", JString actionId); ("orgId", JString orgId); ("reason", JString reason); ("attemptedAt", JString attemptedAt)]
  | StkPushConfirmedPayload actionId orgId customerId paymentId checkoutRequestId receiptNumber amountMinor late reconciledAt =>
      [("actionId", JString actionId); ("orgId", JString orgId); ("customerId", JString customerId); ("paymentId", JString paymentId);
       ("checkoutRequestId", JString checkoutRequestId); ("receiptNumber", JString receiptNumber); ("amountMinor", JNumber amountMinor);
       ("currency", JString "KES"); ("late", JBool late); ("reconciledAt", JString reconciledAt)]
  | StkPushFailedPayload actionId orgId paymentId checkoutRequestId resultCode failureCode resultDesc late failedAt =>
      [("actionId", JString actionId); ("orgId", JString orgId); ("paymentId", JString paymentId); ("checkoutRequestId", JString checkoutRequestId);
       ("resultCode", JNumber (num resultCode)); ("failureCode", JString failureCode); ("resultDesc", JString resultDesc); ("late", JBool late);
       ("failedAt", JString failedAt)]
  | StkPushTimedOutPayload actionId orgId checkoutRequestId expiresAt timedOutAt =>
      [("actionId", JString actionId); ("orgId", JString orgId); ("checkoutRequestId", JString checkoutRequestId); ("expiresAt", JString expiresAt);
       ("timedOutAt", JString timedOutAt)]
  end.

(** A name outside the table would give [action: undefined], which [assertAction] refuses. *)
Definition stkPushAuditInput (event : StkPushEvent) (ctx : StkAuditContext) : result AppendAuditInput :=
  refuse (payload_org (payload event) <> cx_orgId ctx) with "STK_AUDIT_ORG_MISMATCH" ;;
  auditFromEvent Date_parse
    (MkEventEnvelope (name event) (aggregateId event) (occurredAt event) (JObject (payload_members (payload event)))
       (Some (default (aggregateId event) (cx_correlationId ctx))))
    (MkOptions (cx_auditId ctx) (cx_orgId ctx) (cx_actor ctx) (default "undefined" (STK_EVENT_ACTIONS (name event))) (cx_requestId ctx)
       None None None None None None).

(** The payload of a duplicate observation; [seenAt] is a Date object. *)
Definition duplicateCallbackAuditInput (event : PaymentEvent) (ctx : StkAuditContext) : result AppendAuditInput :=
  let members := match payload event with
    | DuplicateCallbackObservedPayload id ref _ => [("paymentId", JString id); ("externalRef", JString ref); ("seenAt", JInstance [])]
    | _ => []
    end in
  auditFromEvent Date_parse
    (MkEventEnvelope (name event) (aggregateId event) (toISOString (occurredAt event)) (JObject members)
       (Some (default (aggregateId event) (cx_correlationId ctx))))
    (MkOptions (cx_auditId ctx) (cx_orgId ctx) (cx_actor ctx) "ingest" (cx_requestId ctx) None None None None None None).

(** ** Every event of a push lands in the trail *)

(** What the lane promises of its log. *)
Definition lane_event (a : StkPushAction) (e : StkPushEvent) : Prop :=
  name e ∈ STK_PUSH_EVENT_NAMES /\ aggregateId e = sp_actionId a /\ payload_org (payload e) = sp_orgId a.

Lemma lane_event_terms a b e : same_terms a b -> lane_event a e -> lane_event b e.
Proof. intros (E1 & E2 & _) (H1 & H2 & H3). split; [done|]. split; congruence. Qed.

(** The events of a step are built by [stkEvent] on the attempt itself. *)
Ltac lane_events := repeat first [apply Forall_nil; done | apply Forall_cons; split]; split; [by apply (bool_decide_unpack _)|done].

Lemma propose_events args clock a es : proposeStkPush args clock = Ok (a, es) -> Forall (lane_event a) es.
Proof.
  unfold proposeStkPush. intros H. repeat step_ok. subst. lane_events.
Qed.

Lemma apply_events a d clock b es : applyStkPolicyDecision a d clock = Ok (b, es) -> Forall (lane_event a) es.
Proof.
  unfold applyStkPolicyDecision. intros H. do 3 apply guard_Ok in H as [_ H]. apply bind_Ok in H as (rc & _ & H). case_decide.
  - apply bind_Ok in H as (x & _ & [= _ <-]). lane_events.
  - case_decide; injection H as _ <-; [lane_events|constructor].
Qed.

Lemma gate_events a facts clock r : gateStkPush a facts clock = Ok r -> Forall (lane_event a) (stk_events_of (gr_events r)).
Proof.
  unfold gateStkPush. intros (consent & _ & H)%bind_Ok. destruct consent as [g|reason].
  - apply bind_Ok in H as (d & _ & H). apply bind_Ok in H as ([b es] & Ha%apply_events & H). cbn [fst snd] in H.
    assert (Forall (lane_event a) (stk_events_of (stk_event <$> es))) as Hes.
    { apply Forall_forall. intros e (x & Hx & E)%list_elem_of_omap. apply list_elem_of_fmap in Hx as (y & -> & Hy). injection E as ->. by rewrite Forall_forall in Ha; apply Ha. }
    repeat case_decide; injection H as <-; [exact Hes..|constructor].
  - injection H as <-. lane_events.
Qed.

Lemma approve_events a ref approver clock b es : approveStkPush a ref approver clock = Ok (b, es) -> Forall (lane_event a) es.
Proof. unfold approveStkPush. intros [_ H]%guard_Ok. do 2 apply bind_Ok in H as (? & _ & H). injection H as _ <-. lane_events. Qed.

Definition events_of_attempt (r : InitiateStkPushResult) : StkPushAction * list StkPushEvent :=
  match r with push_live a es | push_not_live _ a es => (a, es) end.

Lemma initiate_events a args wire clock r : initiateStkPush Date_parse a args wire clock = Ok r ->
  same_terms a (events_of_attempt r).1 /\ Forall (lane_event a) (events_of_attempt r).2.
Proof.
  unfold initiateStkPush. intros ([[cmd t] ttl] & _ & H)%bind_Ok. unfold afterWire in H. destruct (wire cmd) as [m c msg|reason].
  - do 2 apply bind_Ok in H as (? & _ & H). apply guard_Ok in H as [_ H]. case_decide; [done|]. injection H as <-. split; [done|lane_events].
  - apply bind_Ok in H as (? & _ & [= <-]). split; [done|lane_events].
Qed.

Lemma reconcile_events a raw store clock r : reconcileStkCallback a raw store clock = Ok r ->
  same_terms a (rc_attempt r) /\ Forall (lane_event a) (rc_stkEvents r).
Proof.
  intros (cb & init & intake & _ & _ & H)%reconcile_iff. destruct (duplicate intake); [by injection H as <-|].
  destruct (cb_success cb); unfold reconcileSuccess, reconcileFailure in H; repeat step_ok; subst; (split; [done|lane_events]).
Qed.

Lemma expire_events a clock : same_terms a (expireStkPushIfDue a clock).1 /\ Forall (lane_event a) (expireStkPushIfDue a clock).2.
Proof. unfold expireStkPushIfDue. destruct (sp_initiation a); [|done]. destruct (isStkPushDue a _); [|done]. split; [done|lane_events]. Qed.

Lemma log_grows w a store cmds es : Forall (lane_event (w_attempt w)) (w_log w) -> same_terms (w_attempt w) a -> Forall (lane_event (w_attempt w)) es ->
  Forall (lane_event (w_attempt (MkStkWorld a store cmds (w_log w ++ es)))) (w_log (MkStkWorld a store cmds (w_log w ++ es))).
Proof. intros H1 Ht H2. apply Forall_app. split; (eapply Forall_impl; [eassumption|]); intros e; by apply lane_event_terms. Qed.

Lemma log_step w w' : stk_step Date_parse w w' -> Forall (lane_event (w_attempt w)) (w_log w) -> Forall (lane_event (w_attempt w')) (w_log w').
Proof.
  destruct 1 as [w facts clock r Hs Hg|w ref approver clock a es Ha|w args wire clock cmd t ttl a es _ Hi|w args wire clock cmd t ttl reason a es _ Hi
    |w args wire clock cmd t ttl e _ _|w raw clock r Hr|w clock|w store' _]; intros H; try done; apply log_grows; try done.
  - by apply gate_Ok in Hg as [Ht _].
  - by apply gate_events in Hg.
  - by apply approve_Ok in Ha as [Ht _].
  - by apply approve_events in Ha.
  - by apply initiate_events in Hi as [Ht _].
  - by apply initiate_events in Hi as [_ He].
  - by apply initiate_events in Hi as [Ht _].
  - by apply initiate_events in Hi as [_ He].
  - by apply reconcile_events in Hr as [Ht _].
  - by apply reconcile_events in Hr as [_ He].
  - apply expire_events.
  - apply expire_events.
Qed.

Lemma reachable_log w : stk_reachable Date_parse w -> Forall (lane_event (w_attempt w)) (w_log w).
Proof.
  intros (args & clock & a & es & store & Hp%propose_events & _ & Hr). revert Hp.
  change es with (w_log (MkStkWorld a store [] es)) at 1. change a with (w_attempt (MkStkWorld a store [] es)) at 1.
  induction Hr as [|w1 w2 w3 Hs _ IH]; [done|]. intros H. apply IH. by eapply log_step.
Qed.

(** A context the audit lane accepts for the organisation. *)
Record good_context (ctx : StkAuditContext) : Prop := {
  gc_auditId : is_ok (assertNonBlank (cx_auditId ctx) "AUDIT_RECORD_MALFORMED" MAX_ID_LENGTH) = true;
  gc_orgId : is_ok (assertNonBlank (cx_orgId ctx) "AUDIT_ORG_REQUIRED" MAX_ID_LENGTH) = true;
  gc_actor : is_ok (assertActor (cx_actor ctx)) = true;
  gc_requestId : is_ok (assertNonBlank (cx_requestId ctx) "AUDIT_REQUEST_ID_REQUIRED" MAX_REQUEST_ID_LENGTH) = true;
  gc_correlationId : is_ok (optionalString (cx_correlationId ctx) "AUDIT_CORRELATION_ID_INVALID" MAX_ID_LENGTH) = true;
}.

Lemma nonblank_again raw code max v : assertNonBlank raw code max = Ok v -> assertNonBlank v code max = Ok v.
Proof. intros H. pose proof (assertNonBlank_trim _ _ _ _ H) as ->. unfold assertNonBlank in *. by rewrite trim_trim. Qed.

Lemma nonblank_code raw code code' max v : assertNonBlank raw code max = Ok v -> assertNonBlank raw code' max = Ok v.
Proof. unfold assertNonBlank. cbv zeta. intros H. by do 2 (destruct (decide _); [done|]). Qed.

Lemma actor_again actor v : assertActor actor = Ok v -> assertActor v = Ok v.
Proof.
  unfold assertActor. intros [Hk H]%guard_Ok. apply bind_Ok in H as (id & Hid & H). pose proof (nonblank_again _ _ _ _ Hid) as Hid'.
  case_decide as Es; destruct (ac_orgId actor) as [org|]; try done.
  - injection H as <-. rewrite decide_False by (cbn; rewrite <- Es; tauto). cbn [ac_id]. rewrite Hid'. reflexivity.
  - apply bind_Ok in H as (o & Ho & [= <-]). cbn [ac_kind ac_id ac_orgId]. rewrite decide_False by tauto. rewrite Hid'. cbn [mbind result_bind].
    rewrite decide_False by done. by rewrite (nonblank_again _ _ _ _ Ho).
Qed.

Lemma members_plain p key : key ∈ ["previousState"; "newState"] -> payloadSlice (payload_members p) key = Ok None.
Proof. rewrite !elem_of_cons, elem_of_nil. by destruct p; intros [->|[->|[]]]. Qed.

Lemma lane_action nm : nm ∈ STK_PUSH_EVENT_NAMES -> EVENT_NAME_PATTERN nm = true /\ eventContext nm = "stk" /\
  exists action, STK_EVENT_ACTIONS nm = Some action /\ action ∈ AUDIT_ACTIONS.
Proof.
  unfold STK_PUSH_EVENT_NAMES. rewrite !elem_of_cons, elem_of_nil.
  intros Hn. destruct_or! Hn; subst; try done; (split; [reflexivity|]; split; [reflexivity|]; eexists; split; [reflexivity|]; by apply (bool_decide_unpack _)).
Qed.

(** Every event in the log of a push projects into the audit trail, and the draft the audit
    lane builds from it attests that event: the attempt as entity of type stk, the event's
    own instant, an action of the closed vocabulary, and no snapshot. *)
Theorem every_push_event_is_audited (w : StkWorld) (e : StkPushEvent) (ctx : StkAuditContext) (clock : Clock) :
  stk_reachable Date_parse w -> e ∈ w_log w -> cx_orgId ctx = sp_orgId (w_attempt w) -> good_context ctx ->
  isIsoInstant Date_parse (occurredAt e) = true -> is_ok (assertNonBlank (sp_actionId (w_attempt w)) "AUDIT_ENTITY_ID_REQUIRED" MAX_ID_LENGTH) = true ->
  exists input d, stkPushAuditInput e ctx = Ok input /\ buildAuditDraft Date_parse input clock = Ok d /\
    au_entityType d = "stk" /\ au_entityId d = trim (sp_actionId (w_attempt w)) /\ au_occurredAt d = occurredAt e /\
    STK_EVENT_ACTIONS (name e) = Some (au_action d) /\ au_action d ∈ AUDIT_ACTIONS /\ au_previousState d = None /\ au_newState d = None.
Proof.
  intros Hr%reachable_log He Horg [[vi Hi]%is_ok_true [vo Ho]%is_ok_true [va Ha]%is_ok_true [vr Hq]%is_ok_true [vc Hc]%is_ok_true] Hiso [ve Hid]%is_ok_true.
  rewrite Forall_forall in Hr. destruct (Hr e He) as (Hn & Hag & Hpo). destruct (lane_action _ Hn) as (Hpat & Hctx & action & Hact & Hin).
  unfold stkPushAuditInput, auditFromEvent.
  cbn [en_name en_aggregateId en_occurredAt en_payload en_correlationId op_auditId op_orgId op_actor op_action op_requestId op_correlationId op_ip op_userAgent
       op_reason op_approval op_aiContext jmembers].
  rewrite decide_False by (rewrite Hpo, Horg; tauto). rewrite (decide_False (P := EVENT_NAME_PATTERN (name e) = false)) by congruence.
  rewrite (decide_False (P := isIsoInstant Date_parse (occurredAt e) = false)) by congruence.
  rewrite Hi, Ho, Ha, Hq, Hact, Hctx, Hag. cbn [mbind result_bind default]. unfold assertAction at 1. rewrite decide_False by tauto. cbn [mbind result_bind].
  rewrite !members_plain by (by apply (bool_decide_unpack _)). cbn [mbind result_bind]. eexists.
  assert (exists c, optionalString (Some (default (sp_actionId (w_attempt w)) (cx_correlationId ctx))) "AUDIT_CORRELATION_ID_INVALID" MAX_ID_LENGTH = Ok c) as [c Hcor].
  { destruct (cx_correlationId ctx) as [s|]; [by exists vc|]. cbn. rewrite (nonblank_code _ _ "AUDIT_CORRELATION_ID_INVALID" _ _ Hid). by eexists. }
  eexists. split; [reflexivity|]. unfold buildAuditDraft. cbn [in_occurredAt in_fields au_previousState au_newState au_auditId au_orgId au_actor au_action au_entityType
    au_entityId au_requestId au_correlationId au_ip au_userAgent au_reason au_approval au_aiContext redactOptional].
  rewrite (decide_False (P := isIsoInstant Date_parse (occurredAt e) = false)) by congruence. cbn [mbind result_bind].
  rewrite (nonblank_again _ _ _ _ Hi), (nonblank_again _ _ _ _ Ho), (actor_again _ _ Ha), (nonblank_again _ _ _ _ Hq). cbn [mbind result_bind].
  unfold assertAction. rewrite decide_False by tauto. change (assertNonBlank "stk" "AUDIT_ENTITY_TYPE_REQUIRED" MAX_ENTITY_TYPE_LENGTH) with (Ok (A := string) "stk").
  cbn [mbind result_bind]. rewrite Hid. cbn [mbind result_bind]. rewrite Hcor. split; [reflexivity|]. cbn [au_entityType au_entityId au_occurredAt au_action au_previousState au_newState].
  split; [done|]. split; [by apply assertNonBlank_trim in Hid|]. done.
Qed.

End audit.

Lemma every_push_event_is_audited_witness : exists e input d,
  stkPushAuditInput (fun _ => Some 0) "" e (MkAuditContext "au-1" "org" (MkActor "user" "agent-7" (Some "org")) "req-1" None) = Ok input /\
  buildAuditDraft (fun _ => Some 0) input (fixed_clock 0) = Ok d /\ name e = "stk.pushProposed" /\ au_entityType d = "stk".
Proof.
  assert (exists a es e, proposeStkPush (sample_args by_hand false "low") (fixed_clock 0) = Ok (a, e :: es) /\ name e = "stk.pushProposed" /\
    sp_orgId a = "org" /\ sp_actionId a = "push-1" /\ isIsoInstant (fun _ => Some 0) (occurredAt e) = true) as (a & es & e & Hp & Hn & Ho & Hid & Ht).
  { do 3 eexists. split; [vm_compute; reflexivity|]. repeat split. }
  destruct (every_push_event_is_audited (fun _ => Some 0) "" (MkStkWorld a [] [] (e :: es)) e
    (MkAuditContext "au-1" "org" (MkActor "user" "agent-7" (Some "org")) "req-1" None) (fixed_clock 0)) as (input & d & Hi & Hd & Hty & _).
  - exists (sample_args by_hand false "low"), (fixed_clock 0), a, (e :: es), []. split; [exact Hp|]. split; apply rtc_refl.
  - left.
  - symmetry. exact Ho.
  - by split.
  - exact Ht.
  - cbn [w_attempt]. rewrite Hid. reflexivity.
  - exists e, input, d. split; [exact Hi|]. split; [exact Hd|]. split; [exact Hn|exact Hty].
Defined.
