(* ===== verification/AuthRoles.v ===== *)
(** * Roles and the permission vocabulary

    src/domain/auth/roles.ts and events.ts: the closed vocabulary of permissions, role
    definitions with their resource wildcards, what a role confers, and the payloads of
    the lane's events.

    A permission is a string, as in the source, so that unknown and malformed ones can be
    refused.  The [byId] map a caller's role list is turned into keeps the last role of an
    id. *)

From stdpp Require Import prelude strings list sorting relations.
From Stdlib Require Import ZArith Lia Ascii.
From S2P Require Import Prelude JsString JsDate Events.
Local Open Scope string_scope.
Local Open Scope list_scope.
Local Open Scope Z_scope.
Local Open Scope js_scope.

(** ** The vocabulary *)

Definition RESOURCES : list string :=
  ["receivables"; "payments"; "collections"; "adjustments"; "ledger"; "intelligence"; "admin"; "policy"].

Definition PERMISSIONS : list string :=
  ["receivables:read"; "receivables:write"; "payments:read"; "payments:intake"; "payments:refund"; "collections:read";
   "collections:act"; "adjustments:request"; "adjustments:approve"; "ledger:read"; "ledger:post"; "intelligence:read";
   "admin:manage-users"; "policy:manage"].

Definition ADMIN_MANAGE_USERS : string := "admin:manage-users".

Definition is_lower (c : ascii) : bool := in_range 97 122 c.
Definition resourceChar (c : ascii) : bool := is_lower c || is_digit c.
Definition actionChar (c : ascii) : bool := resourceChar c || in_range 65 90 c || bool_decide (c = "-"%char).
Definition headIs (f : ascii -> bool) (l : chars) : bool := match l with c :: _ => f c | [] => false end.

(** [/^[a-z][a-z0-9]*:[a-z][a-zA-Z0-9-]*$/]: the resource class has no colon, so it is the longest prefix. *)
Definition isPermissionShape (raw : string) : bool :=
  let l := explode raw in
  let resource := take_while resourceChar l in
  match drop (length resource) l with
  | c :: action => headIs is_lower resource && bool_decide (c = ":"%char) && headIs is_lower action && forallb actionChar action
  | [] => false
  end.

(** A lower-case resource name (as in the shape above), then a colon and a star, the name among the resources. *)
Definition isRoleWildcard (raw : string) : bool :=
  let l := explode raw in
  let resource := take_while resourceChar l in
  headIs is_lower resource && bool_decide (drop (length resource) l = explode ":*") &&
  bool_decide (implode resource ∈ RESOURCES).

Definition assertPermission (raw : string) : result string :=
  refuse (isRoleWildcard raw = true) with "AUTH_PERMISSION_WILDCARD_FORBIDDEN" ;;
  refuse (isPermissionShape raw = false) with "AUTH_PERMISSION_MALFORMED" ;;
  refuse (raw ∉ PERMISSIONS) with "AUTH_PERMISSION_UNKNOWN" ;;
  Ok raw.

Definition assertRolePermission (raw : string) : result string :=
  if isRoleWildcard raw then Ok raw else assertPermission raw.

(** ** The role aggregate *)

Record Role := MkRole {
  ro_roleId : Uuid;
  ro_orgId : Uuid;
  ro_name : string;
  ro_permissions : list string;
  ro_createdAt : Date;
}.

Record DefineRoleArgs := MkDefineRoleArgs {
  dr_roleId : Uuid;
  dr_orgId : Uuid;
  dr_name : string;
  dr_permissions : list string;
}.

Definition toLowerCase (s : string) : string := implode (lowerChar <$> explode s).

(** [[...new Set(xs)].sort()] *)
Definition sortedSet (xs : list string) : list string := sort_by string_cmp (distinct xs).

Definition defineRole (existingRoles : list Role) (args : DefineRoleArgs) (clock : Clock) : result Role :=
  refuse (dr_roleId args ∈ ro_roleId <$> existingRoles) with "AUTH_ROLE_ID_TAKEN" ;;
  let name := trim (dr_name args) in
  refuse (name = "") with "AUTH_ROLE_NAME_REQUIRED" ;;
  refuse ((dr_orgId args, toLowerCase name) ∈ (fun r => (ro_orgId r, toLowerCase (ro_name r))) <$> existingRoles)
    with "AUTH_ROLE_NAME_TAKEN" ;;
  refuse (dr_permissions args = []) with "AUTH_ROLE_PERMISSIONS_REQUIRED" ;;
  permissions ← traverse assertRolePermission (dr_permissions args);
  Ok (MkRole (dr_roleId args) (dr_orgId args) name (sortedSet permissions) (clock 0%nat)).

(** ** What a role confers *)

(** [permission.split(':')[0]] *)
Definition resourceOf (permission : string) : chars :=
  take_while (fun c => negb (bool_decide (c = ":"%char))) (explode permission).

Definition ruleCovers (rule permission : string) : bool :=
  bool_decide (rule = permission) ||
  (isRoleWildcard rule && startsWith (explode rule) (resourceOf permission ++ [":"%char])).

Definition roleCovers (role : Role) (permission : string) : bool :=
  existsb (fun rule => ruleCovers rule permission) (ro_permissions role).

Definition expandRolePermissions (role : Role) : list string :=
  sort_by string_cmp (List.filter (roleCovers role) PERMISSIONS).

(** [new Map(roles.map((r) => [r.roleId, r])).get(id)] *)
Definition roleById (roles : list Role) (id : Uuid) : option Role :=
  List.find (fun r => bool_decide (ro_roleId r = id)) (reverse roles).

(** The grants as [effectivePermissions] sees them: the role's id and the revocation. *)
Definition effectivePermissions (roles : list Role) (grants : list (Uuid * option Date)) : list string :=
  sort_by string_cmp (foldl (fun active grant =>
    match grant.2, roleById roles grant.1 with
    | None, Some role => foldl addDistinct active (expandRolePermissions role)
    | _, _ => active
    end) [] grants).

(** ** Events *)

Inductive EscalationReason := GRANTER_NOT_ADMIN | GRANTER_LACKS_PERMISSION.

Inductive DenyReason :=
| PERMISSION_UNKNOWN | PRINCIPAL_UNKNOWN | PRINCIPAL_SUSPENDED | PRINCIPAL_DEACTIVATED | PRINCIPAL_REVOKED
| SESSION_IDLE_EXPIRED | SESSION_ABSOLUTE_EXPIRED | SESSION_REVOKED | SESSION_ENDED
| DENY_NO_GRANT | NOT_IN_RESOURCE_SCOPE
| KEY_UNKNOWN | KEY_SECRET_MISMATCH | KEY_REVOKED | KEY_EXPIRED | KEY_OWNER_INACTIVE.
#[export] Instance DenyReason_eq_dec : EqDecision DenyReason.
Proof. solve_decision. Defined.

Inductive PrincipalKind := kind_user | kind_apiKey | kind_unknown.

Inductive SessionExpiryReason := expired_idle | expired_absolute.

(** The detail texts of denials are not modelled. *)
Inductive AuthPayload :=
| UserCreatedPayload (userId orgId : Uuid) (email username displayName createdAt : string)
| UserSuspendedPayload (userId orgId : Uuid) (reason suspendedAt : string)
| RoleGrantedPayload (grantId orgId userId roleId : Uuid) (resourceId : option Uuid) (grantedBy : Uuid) (grantedAt : string)
| RoleRevokedPayload (grantId orgId userId roleId revokedBy : Uuid) (reason revokedAt : string)
| EscalationBlockedPayload (orgId granterId userId roleId : Uuid) (reason : EscalationReason) (missing : list string) (at_ : string)
| ApiKeyIssuedPayload (keyId orgId : Uuid) (name prefix : string) (scopes : list string) (expiresAt : option string)
    (createdBy : Uuid) (issuedAt : string)
| ApiKeyRevokedPayload (keyId orgId revokedBy : Uuid) (reason revokedAt : string)
| SessionExpiredPayload (sessionId userId orgId : Uuid) (reason : SessionExpiryReason) (expiredAt : string)
| AccessDeniedPayload (orgId : Uuid) (principalId : option Uuid) (principalKind : PrincipalKind) (permission : string)
    (resource : option Uuid) (reason : DenyReason) (at_ : string).

Notation AuthEvent := (DomainEvent AuthPayload).

Definition authEvent (nm : string) (aggregateId : Uuid) (p : AuthPayload) (clock : Clock) : AuthEvent :=
  domainEvent nm aggregateId p clock.

(** [assertNonBlank] of user.ts, shared by the lane. *)
Definition assertNonBlank (raw code : string) : result string :=
  refuse (trim raw = "") with code ;; Ok (trim raw).

(** [upsert] of the in-memory store (src/adapters/http/runtime/memory.ts): the record of
    the item's key is replaced in place, or the item is appended. *)
Fixpoint upsert {A K} `{EqDecision K} (keyOf : A -> K) (item : A) (items : list A) : list A :=
  match items with
  | [] => [item]
  | x :: items' => if decide (keyOf x = keyOf item) then item :: items' else x :: upsert keyOf item items'
  end.

Section upsert.
  Context {A K : Type} `{EqDecision K} (keyOf : A -> K).
  Implicit Types items : list A.

Lemma upsert_fresh item items : keyOf item ∉ keyOf <$> items -> upsert keyOf item items = items ++ [item].
Proof.
  induction items as [|x items IH]; cbn; [done|]. rewrite not_elem_of_cons. intros [Hne Hin].
  rewrite decide_False by congruence. by rewrite IH.
Qed.

Lemma upsert_present item items : keyOf item ∈ keyOf <$> items -> exists l1 x l2,
  items = l1 ++ x :: l2 /\ keyOf x = keyOf item /\ upsert keyOf item items = l1 ++ item :: l2.
Proof.
  induction items as [|x items IH]; cbn; [set_solver|]. intros H. case_decide as Hx.
  - by exists [], x, items.
  - destruct IH as (l1 & y & l2 & -> & Hy & ->); [set_solver|]. by exists (x :: l1), y, l2.
Qed.

(** With unique keys, the record replaced is the one the item was made from. *)
Lemma upsert_replace old item items : NoDup (keyOf <$> items) -> old ∈ items -> keyOf old = keyOf item -> exists l1 l2,
  items = l1 ++ old :: l2 /\ upsert keyOf item items = l1 ++ item :: l2.
Proof.
  intros Hnd Hold Hkey. destruct (upsert_present item items) as (l1 & x & l2 & Hi & Hx & Hu).
  { rewrite <- Hkey. by apply list_elem_of_fmap_2. }
  assert (x = old) as ->; [|by exists l1, l2].
  apply (NoDup_fmap_elem keyOf items); [done| |done|congruence]. rewrite Hi. set_solver.
Qed.

Lemma upsert_keys item items : keyOf item ∈ keyOf <$> items -> keyOf <$> upsert keyOf item items = keyOf <$> items.
Proof. intros H. destruct (upsert_present item items H) as (l1 & x & l2 & -> & Hx & ->). rewrite !fmap_app. cbn. by rewrite Hx. Qed.

End upsert.

(** ** Rules *)

Definition WILDCARDS : list string := (fun r => r +:+ ":*") <$> RESOURCES.

(** The entries a role may hold. *)
Definition valid_rule (rule : string) : Prop := rule ∈ WILDCARDS \/ rule ∈ PERMISSIONS.
#[export] Instance valid_rule_dec rule : Decision (valid_rule rule).
Proof. unfold valid_rule. apply _. Defined.

Lemma isRoleWildcard_iff s : isRoleWildcard s = true <-> s ∈ WILDCARDS.
Proof.
  split.
  - unfold isRoleWildcard. rewrite !andb_true_iff, !bool_decide_eq_true. intros [[_ Hdrop] Hres].
    apply list_elem_of_fmap. exists (implode (take_while resourceChar (explode s))). split; [|done].
    apply explode_inj. rewrite explode_app, explode_implode, <- Hdrop. apply take_while_split.
  - intros H. assert (Hall : forallb isRoleWildcard WILDCARDS = true) by (vm_compute; done).
    rewrite forallb_forall in Hall. apply Hall. by apply list_elem_of_In.
Qed.

Lemma assertPermission_Ok raw p : assertPermission raw = Ok p <-> p = raw /\ raw ∈ PERMISSIONS.
Proof.
  unfold assertPermission. split; [intros H; by invert_ok|]. intros [-> Hp].
  assert (Hall : Forall (fun r => isRoleWildcard r = false /\ isPermissionShape r = true) PERMISSIONS)
    by (repeat constructor; vm_compute; done).
  rewrite Forall_forall in Hall. destruct (Hall raw Hp) as [-> ->].
  rewrite !decide_False by done. rewrite decide_False by auto. done.
Qed.

Lemma assertRolePermission_Ok raw p : assertRolePermission raw = Ok p <-> p = raw /\ valid_rule raw.
Proof.
  unfold assertRolePermission, valid_rule. rewrite <- isRoleWildcard_iff.
  destruct (isRoleWildcard raw) eqn:E; [naive_solver|]. rewrite assertPermission_Ok. naive_solver.
Qed.

(** What a rule means: a permission of the vocabulary that is the rule itself, or an
    action of the resource the rule names with a star. *)
Definition confers (rule permission : string) : Prop :=
  permission ∈ PERMISSIONS /\
  (rule = permission \/ exists resource action, rule = resource +:+ ":*" /\ permission = resource +:+ ":" +:+ action).

(** [wildcardCovers] of guard.ts *)
Definition wildcardCovers (rule permission : string) : bool :=
  endsWith (explode rule) (explode ":*") && startsWith (explode permission) (removelast (explode rule)).

Lemma wildcardCovers_iff rule p : wildcardCovers rule p = true <->
  exists resource action, rule = resource +:+ ":*" /\ p = resource +:+ ":" +:+ action.
Proof.
  unfold wildcardCovers. rewrite andb_true_iff, endsWith_Ok, startsWith_Ok.
  assert (Hlast : forall r : chars, removelast (r ++ explode ":*") = r ++ [":"%char]).
  { intros r. change (explode ":*") with ([":"%char] ++ ["*"%char]). rewrite app_assoc. apply removelast_last. }
  split.
  - intros [[r Hr] [a Ha]]. rewrite Hr, Hlast in Ha. exists (implode r), (implode a).
    split; apply explode_inj; rewrite !explode_app, !explode_implode; [done|]. by rewrite Ha, <- app_assoc.
  - intros (r & a & -> & ->). rewrite !explode_app. split; [by exists (explode r)|].
    rewrite Hlast. exists (explode a). by rewrite <- app_assoc.
Qed.

(** The two interpretations of wildcards in the source agree on what roles may hold. *)
Lemma ruleCovers_wildcardCovers rule p : valid_rule rule -> p ∈ PERMISSIONS ->
  ruleCovers rule p = bool_decide (rule = p) || wildcardCovers rule p.
Proof.
  intros Hrule Hp.
  assert (Hall : forallb (fun rule => forallb (fun p =>
    Bool.eqb (ruleCovers rule p) (bool_decide (rule = p) || wildcardCovers rule p)) PERMISSIONS) (WILDCARDS ++ PERMISSIONS) = true)
    by (vm_compute; done).
  rewrite forallb_forall in Hall.
  assert (In rule (WILDCARDS ++ PERMISSIONS)) as Hin by (apply list_elem_of_In, elem_of_app; exact Hrule).
  apply Hall in Hin. rewrite forallb_forall in Hin. by apply Bool.eqb_prop, Hin, list_elem_of_In.
Qed.

Lemma ruleCovers_iff rule p : valid_rule rule -> p ∈ PERMISSIONS -> ruleCovers rule p = true <-> confers rule p.
Proof.
  intros Hrule Hp. rewrite ruleCovers_wildcardCovers, orb_true_iff, bool_decide_eq_true, wildcardCovers_iff by done.
  unfold confers. naive_solver.
Qed.

Definition role_wf (r : Role) : Prop :=
  ro_name r <> "" /\ ro_permissions r <> [] /\ NoDup (ro_permissions r) /\ Forall valid_rule (ro_permissions r).

#[export] Instance role_wf_dec r : Decision (role_wf r).
Proof. unfold role_wf. apply _. Defined.

Definition role_confers (r : Role) (permission : string) : Prop := exists rule, rule ∈ ro_permissions r /\ confers rule permission.

Lemma expandRolePermissions_iff r p : Forall valid_rule (ro_permissions r) ->
  p ∈ expandRolePermissions r <-> role_confers r p.
Proof.
  intros Hwf. unfold expandRolePermissions, role_confers. rewrite sort_by_perm, list_elem_of_In, filter_In, <- list_elem_of_In.
  unfold roleCovers. rewrite existsb_exists. rewrite Forall_forall in Hwf. split.
  - intros [Hp (rule & Hin & Hc)]. apply list_elem_of_In in Hin. exists rule. split; [done|].
    apply ruleCovers_iff; auto.
  - intros (rule & Hin & Hc). assert (Hp := Hc). destruct Hp as [Hp _]. split; [done|]. exists rule.
    split; [by apply list_elem_of_In|]. apply ruleCovers_iff; auto.
Qed.

Lemma sortedSet_elem xs x : x ∈ sortedSet xs <-> x ∈ xs.
Proof. unfold sortedSet. by rewrite sort_by_perm, distinct_elem. Qed.

Lemma sortedSet_NoDup xs : NoDup (sortedSet xs).
Proof. unfold sortedSet. rewrite sort_by_perm. apply distinct_NoDup. Qed.

Lemma traverse_rules xs ps : traverse assertRolePermission xs = Ok ps <-> ps = xs /\ Forall valid_rule xs.
Proof.
  revert ps. induction xs as [|x xs IH]; intros ps; cbn [traverse]; [naive_solver|].
  rewrite bind_Ok, Forall_cons. split.
  - intros (y & Hy & H). apply bind_Ok in H as (ys & Hys & H). apply IH in Hys as [-> Hall].
    apply assertRolePermission_Ok in Hy as [-> Hx]. apply (inj Ok) in H as <-. done.
  - intros [-> [Hx Hall]]. exists x. split; [by apply assertRolePermission_Ok|].
    apply bind_Ok. exists xs. split; [by apply IH|done].
Qed.

Lemma defineRole_Ok roles args clock r : defineRole roles args clock = Ok r <->
  dr_roleId args ∉ ro_roleId <$> roles /\ trim (dr_name args) <> "" /\
  (dr_orgId args, toLowerCase (trim (dr_name args))) ∉ (fun r => (ro_orgId r, toLowerCase (ro_name r))) <$> roles /\
  dr_permissions args <> [] /\ Forall valid_rule (dr_permissions args) /\
  r = MkRole (dr_roleId args) (dr_orgId args) (trim (dr_name args)) (sortedSet (dr_permissions args)) (clock 0%nat).
Proof.
  unfold defineRole. rewrite !guard_Ok, bind_Ok. split.
  - intros (H1 & H2 & H3 & H4 & ps & Hps & H). apply traverse_rules in Hps as [-> Hall]. apply (inj Ok) in H as <-. done.
  - intros (H1 & H2 & H3 & H4 & H5 & ->). repeat (split; [done|]). exists (dr_permissions args).
    split; [by apply traverse_rules|done].
Qed.

(** ** The registry of roles *)

(** What the callers of [defineRole] do: they add the defined role to the registry. *)
Inductive role_step (roles : list Role) : list Role -> Prop :=
| role_defined args clock r : defineRole roles args clock = Ok r -> role_step roles (roles ++ [r]).

Record registry_wf (roles : list Role) : Prop := {
  rw_ids : NoDup (ro_roleId <$> roles);
  rw_names : NoDup ((fun r => (ro_orgId r, toLowerCase (ro_name r))) <$> roles);
  rw_roles : Forall role_wf roles;
}.

Lemma defineRole_wf roles args clock r : defineRole roles args clock = Ok r -> role_wf r.
Proof.
  intros H. apply defineRole_Ok in H as (_ & Hname & _ & Hne & Hall & ->). unfold role_wf. cbn.
  split; [done|]. split; [|split; [apply sortedSet_NoDup|]].
  - destruct (dr_permissions args) as [|x xs] eqn:E; [done|]. intros Hnil.
    assert (Hx : x ∈ sortedSet (x :: xs)) by (apply sortedSet_elem; left). rewrite Hnil in Hx. by apply elem_of_nil in Hx.
  - rewrite Forall_forall in Hall |- *. intros x Hx. apply Hall. by apply sortedSet_elem.
Qed.

(** Registries built by [defineRole] have unique ids and names and valid roles. *)
Theorem registry_invariant roles : rtc role_step [] roles -> registry_wf roles.
Proof.
  revert roles. apply (rtc_ind_r (fun l => registry_wf l)); [by repeat constructor|].
  intros l l' _ [args clock r H] [H1 H2 H3].
  assert (Hr := defineRole_wf _ _ _ _ H). apply defineRole_Ok in H as (Hid & _ & Hname & _ & _ & ->).
  split; rewrite ?fmap_app; cbn [fmap list_fmap]; [by apply NoDup_snoc_2|by apply NoDup_snoc_2|by apply Forall_snoc_2].
Qed.

Lemma roleById_Some roles id r : roleById roles id = Some r -> r ∈ roles /\ ro_roleId r = id.
Proof.
  unfold roleById. intros H. apply find_some in H as [Hin Hid]. apply bool_decide_eq_true in Hid.
  split; [|done]. apply elem_of_reverse. by apply list_elem_of_In.
Qed.

Lemma roleById_unique roles r : NoDup (ro_roleId <$> roles) -> r ∈ roles -> roleById roles (ro_roleId r) = Some r.
Proof.
  intros Hnd Hin. unfold roleById. destruct (List.find _ _) as [r'|] eqn:E.
  - apply find_some in E as [Hin' Hid]. apply bool_decide_eq_true in Hid. f_equal.
    apply (NoDup_fmap_elem ro_roleId roles); [done| |done|done]. apply elem_of_reverse. by apply list_elem_of_In.
  - apply find_none with (x := r) in E; [|by apply list_elem_of_In, elem_of_reverse].
    by apply bool_decide_eq_false in E.
Qed.

Lemma effective_loop roles grants p : forall acc,
  p ∈ foldl (fun active (grant : Uuid * option Date) =>
    match grant.2, roleById roles grant.1 with
    | None, Some role => foldl addDistinct active (expandRolePermissions role)
    | _, _ => active
    end) acc grants <->
  p ∈ acc \/ exists id role, (id, None) ∈ grants /\ roleById roles id = Some role /\ p ∈ expandRolePermissions role.
Proof.
  induction grants as [|[id revoked] grants IH]; intros acc; cbn [foldl fst snd]; [set_solver|].
  rewrite IH. destruct revoked as [t|]; [set_solver|]. destruct (roleById roles id) as [role|] eqn:E; [|set_solver].
  assert (Hadd : forall ps acc', p ∈ foldl addDistinct acc' ps <-> p ∈ acc' \/ p ∈ ps).
  { induction ps as [|x ps IHps]; intros acc'; cbn [foldl]; [set_solver|]. rewrite IHps. unfold addDistinct.
    case_decide; set_solver. }
  rewrite Hadd. set_solver.
Qed.

(** Effective permissions are what the unrevoked grants' roles confer, and nothing else. *)
Lemma effectivePermissions_iff roles grants p : Forall role_wf roles ->
  p ∈ effectivePermissions roles grants <->
  exists id role, (id, None) ∈ grants /\ roleById roles id = Some role /\ role_confers role p.
Proof.
  intros Hwf. unfold effectivePermissions. rewrite sort_by_perm, effective_loop.
  rewrite Forall_forall in Hwf.
  assert (Hexp : forall id role, roleById roles id = Some role -> p ∈ expandRolePermissions role <-> role_confers role p).
  { intros id role H. apply roleById_Some in H as [H _]. apply expandRolePermissions_iff. apply Hwf, H. }
  split; [intros [H|(id & role & H1 & H2 & H3)]; [by apply elem_of_nil in H|]|intros (id & role & H1 & H2 & H3); right];
    exists id, role; (repeat split; [done|done|]); by apply (Hexp id).
Qed.
