(* ===== verification/AuthAssignments.v ===== *)
(** * Role assignments

    src/domain/auth/assignments.ts: the append-only facts that give a user a role, with
    the escalation guard, and their revocation.  The clock's readings are valid dates, so
    that [assertClockDate] on them is the identity. *)

From stdpp Require Import prelude strings list sorting relations.
From Stdlib Require Import ZArith Lia Ascii.
From S2P Require Import Prelude JsString JsDate Events AuthRoles.
Local Open Scope string_scope.
Local Open Scope list_scope.
Local Open Scope Z_scope.
Local Open Scope js_scope.

(** ** The fact *)

Record RoleGrant := MkRoleGrant {
  rg_grantId : Uuid;
  rg_orgId : Uuid;
  rg_userId : Uuid;
  rg_roleId : Uuid;
  rg_resourceId : option Uuid;
  rg_grantedBy : Uuid;
  rg_grantedAt : Date;
  rg_revokedAt : option Date;
  rg_revokedBy : option Uuid;
  rg_revokedReason : option string;
}.
#[export] Instance RoleGrant_eta : Eta RoleGrant := fun g =>
  MkRoleGrant (rg_grantId g) (rg_orgId g) (rg_userId g) (rg_roleId g) (rg_resourceId g) (rg_grantedBy g) (rg_grantedAt g)
    (rg_revokedAt g) (rg_revokedBy g) (rg_revokedReason g).

Definition isActiveGrant (g : RoleGrant) : bool := bool_decide (rg_revokedAt g = None).

(** What a grant is about. *)
Definition assignment (g : RoleGrant) : Uuid * Uuid * option Uuid := (rg_userId g, rg_roleId g, rg_resourceId g).

(** ** Granting *)

Record GrantRoleArgs := MkGrantRoleArgs {
  ga_grantId : Uuid;
  ga_orgId : Uuid;
  ga_userId : Uuid;
  ga_role : Role;
  ga_grantedBy : Uuid;
  ga_granterPermissions : list string;
  ga_resourceId : option Uuid;
}.

Inductive GrantRoleResult :=
| role_granted (grant : RoleGrant) (event : AuthEvent)
| role_alreadyHeld (grant : RoleGrant)
| escalation_blocked (reason : EscalationReason) (missing : list string) (event : AuthEvent).

(** The rules of the role the second check of the guard reports. *)
Definition missingRule (granterPermissions : list string) (rule : string) : list string :=
  if endsWith (explode rule) (explode ":*") then
    if existsb (fun p => startsWith (explode p) (removelast (explode rule))) granterPermissions then [] else [rule]
  else if decide (rule ∈ granterPermissions) then [] else [rule].

Definition missingRules (granterPermissions : list string) (role : Role) : list string :=
  sort_by string_cmp (mjoin (missingRule granterPermissions <$> ro_permissions role)).

Definition blocked (args : GrantRoleArgs) (reason : EscalationReason) (missing : list string) (clock : Clock) : GrantRoleResult :=
  escalation_blocked reason missing
    (authEvent "auth.escalationBlocked" (ga_orgId args)
      (EscalationBlockedPayload (ga_orgId args) (ga_grantedBy args) (ga_userId args) (ro_roleId (ga_role args)) reason missing
        (toISOString (clock 0%nat)))
      (clock_after 1 clock)).

Definition activeFor (key : Uuid * Uuid * option Uuid) (g : RoleGrant) : bool :=
  isActiveGrant g && bool_decide (assignment g = key).

Definition grantRole (existingGrants : list RoleGrant) (args : GrantRoleArgs) (clock : Clock) : result GrantRoleResult :=
  let key := (ga_userId args, ro_roleId (ga_role args), ga_resourceId args) in
  match List.find (fun g => bool_decide (rg_grantId g = ga_grantId args)) existingGrants with
  | Some byId => refuse (assignment byId <> key) with "AUTH_GRANT_ID_TAKEN" ;; Ok (role_alreadyHeld byId)
  | None =>
    match List.find (activeFor key) existingGrants with
    | Some replay => Ok (role_alreadyHeld replay)
    | None =>
      if decide (ADMIN_MANAGE_USERS ∉ ga_granterPermissions args) then Ok (blocked args GRANTER_NOT_ADMIN [] clock)
      else
        let missing := missingRules (ga_granterPermissions args) (ga_role args) in
        if decide (missing <> []) then Ok (blocked args GRANTER_LACKS_PERMISSION missing clock)
        else
          let grant := MkRoleGrant (ga_grantId args) (ga_orgId args) (ga_userId args) (ro_roleId (ga_role args))
            (ga_resourceId args) (ga_grantedBy args) (clock 0%nat) None None None in
          Ok (role_granted grant
            (authEvent "auth.roleGranted" (rg_grantId grant)
              (RoleGrantedPayload (rg_grantId grant) (rg_orgId grant) (rg_userId grant) (rg_roleId grant) (rg_resourceId grant)
                (rg_grantedBy grant) (toISOString (rg_grantedAt grant)))
              (clock_after 1 clock)))
    end
  end.

(** ** Revoking *)

Record RevokeRoleArgs := MkRevokeRoleArgs {
  rr_userId : Uuid;
  rr_roleId : Uuid;
  rr_revokedBy : Uuid;
  rr_reason : string;
  rr_resourceId : option Uuid;
}.

Definition revokeRole (existingGrants : list RoleGrant) (args : RevokeRoleArgs) (clock : Clock) : result (RoleGrant * AuthEvent) :=
  reason ← assertNonBlank (rr_reason args) "AUTH_REASON_REQUIRED";
  _ ← assertNonBlank (rr_revokedBy args) "AUTH_ACTOR_REQUIRED";
  match List.find (activeFor (rr_userId args, rr_roleId args, rr_resourceId args)) existingGrants with
  | None => Err (DomainError "AUTH_ROLE_NOT_HELD")
  | Some target =>
    let grant := target <| rg_revokedAt := Some (clock 0%nat) |> <| rg_revokedBy := Some (rr_revokedBy args) |>
      <| rg_revokedReason := Some reason |> in
    Ok (grant, authEvent "auth.roleRevoked" (rg_grantId grant)
      (RoleRevokedPayload (rg_grantId grant) (rg_orgId grant) (rg_userId grant) (rg_roleId grant) (rr_revokedBy args) reason
        (toISOString (clock 0%nat)))
      (clock_after 1 clock))
  end.

(** ** The trail *)

Definition saveGrant (g : RoleGrant) (grants : list RoleGrant) : list RoleGrant := upsert rg_grantId g grants.

(** The grants of a user, as [effectivePermissions] takes them. *)
Definition grantsOf (user : Uuid) (grants : list RoleGrant) : list (Uuid * option Date) :=
  (fun g => (rg_roleId g, rg_revokedAt g)) <$> List.filter (fun g => bool_decide (rg_userId g = user)) grants.

Definition holds (roles : list Role) (grants : list RoleGrant) (user : Uuid) (permission : string) : Prop :=
  permission ∈ effectivePermissions roles (grantsOf user grants).

#[export] Instance holds_dec roles grants user p : Decision (holds roles grants user p).
Proof. unfold holds. apply _. Defined.

(** The grant route: the granter's authority is their own effective set; and the
    revocation route. *)
Inductive trail_step (roles : list Role) (grants : list RoleGrant) : list RoleGrant -> Prop :=
| trail_grant args clock g e :
    ga_role args ∈ roles ->
    ga_granterPermissions args = effectivePermissions roles (grantsOf (ga_grantedBy args) grants) ->
    grantRole grants args clock = Ok (role_granted g e) ->
    trail_step roles grants (saveGrant g grants)
| trail_revoke args clock g e :
    revokeRole grants args clock = Ok (g, e) ->
    trail_step roles grants (saveGrant g grants).

Record trail_wf (grants : list RoleGrant) : Prop := {
  tw_ids : NoDup (rg_grantId <$> grants);
  tw_active : NoDup (assignment <$> List.filter isActiveGrant grants);
}.

(** ** The operations, branch by branch *)

Lemma activeFor_true key g : activeFor key g = true <-> rg_revokedAt g = None /\ assignment g = key.
Proof. unfold activeFor, isActiveGrant. by rewrite andb_true_iff, !bool_decide_eq_true. Qed.

Lemma missingRules_nil granter role : missingRules granter role = [] <->
  Forall (fun rule => missingRule granter rule = []) (ro_permissions role).
Proof.
  unfold missingRules.
  assert (Hs : forall l : list string, sort_by string_cmp l = [] <-> l = []).
  { intros l. split; [|by intros ->]. intros H. apply Permutation_nil. rewrite <- H. apply sort_by_perm. }
  rewrite Hs. induction (ro_permissions role) as [|r rs IH]; cbn; [done|].
  rewrite app_nil, Forall_cons. by rewrite IH.
Qed.

Lemma grantRole_granted grants args clock g e : grantRole grants args clock = Ok (role_granted g e) ->
  ga_grantId args ∉ rg_grantId <$> grants /\
  (forall h, h ∈ grants -> rg_revokedAt h = None -> assignment h <> assignment g) /\
  ADMIN_MANAGE_USERS ∈ ga_granterPermissions args /\
  Forall (fun rule => missingRule (ga_granterPermissions args) rule = []) (ro_permissions (ga_role args)) /\
  g = MkRoleGrant (ga_grantId args) (ga_orgId args) (ga_userId args) (ro_roleId (ga_role args))
        (ga_resourceId args) (ga_grantedBy args) (clock 0%nat) None None None.
Proof.
  unfold grantRole. destruct (List.find _ grants) as [byId|] eqn:E1; [intros H; by invert_ok|].
  destruct (List.find (activeFor _) grants) as [replay|] eqn:E2; [done|].
  destruct (decide (ADMIN_MANAGE_USERS ∉ _)) as [|Hadmin]; [done|].
  destruct (decide (missingRules _ _ <> [])) as [|Hmiss]; [done|]. intros H. injection H as <- _.
  rewrite find_None_iff in E1, E2. split; [|split; [|split; [|split]]].
  - rewrite list_elem_of_fmap. intros (h & Hid & Hh). specialize (E1 h Hh). by apply bool_decide_eq_false in E1.
  - intros h Hh Hact Heq. specialize (E2 h Hh). rewrite <- not_true_iff_false, activeFor_true in E2. by apply E2.
  - by apply dec_stable.
  - apply missingRules_nil. by apply dec_stable.
  - done.
Qed.

Lemma revokeRole_Ok grants args clock g e : revokeRole grants args clock = Ok (g, e) -> exists target,
  target ∈ grants /\ rg_revokedAt target = None /\ assignment target = (rr_userId args, rr_roleId args, rr_resourceId args) /\
  g = target <| rg_revokedAt := Some (clock 0%nat) |> <| rg_revokedBy := Some (rr_revokedBy args) |>
        <| rg_revokedReason := Some (trim (rr_reason args)) |>.
Proof.
  unfold revokeRole, assertNonBlank. intros H. apply bind_Ok in H as (reason & Hr & H). apply bind_Ok in H as (actor & _ & H).
  apply guard_Ok in Hr as [_ Hr]. apply (inj Ok) in Hr as <-.
  destruct (List.find _ grants) as [target|] eqn:E; [|done]. apply (inj Ok) in H. injection H as <- _.
  apply find_some in E as [Hin Hact]. apply activeFor_true in Hact as [Hact Hkey]. apply list_elem_of_In in Hin.
  by exists target.
Qed.

(** ** The trail is a register of facts *)

Lemma filter_active_app l1 l2 : List.filter isActiveGrant (l1 ++ l2) = List.filter isActiveGrant l1 ++ List.filter isActiveGrant l2.
Proof. apply List.filter_app. Qed.

Lemma revokeRole_split grants args clock g e : trail_wf grants -> revokeRole grants args clock = Ok (g, e) -> exists l1 target l2,
  grants = l1 ++ target :: l2 /\ saveGrant g grants = l1 ++ g :: l2 /\
  rg_revokedAt target = None /\ rg_revokedAt g <> None /\ rg_grantId g = rg_grantId target /\ assignment g = assignment target /\
  assignment target = (rr_userId args, rr_roleId args, rr_resourceId args).
Proof.
  intros [Hids _] H. destruct (revokeRole_Ok _ _ _ _ _ H) as (target & Hin & Hact & Hkey & Hg).
  destruct (upsert_replace rg_grantId target g grants) as (l1 & l2 & Hl & Hs); [done|done|by subst g|].
  exists l1, target, l2. by subst g.
Qed.

Lemma trail_step_wf roles grants grants' : trail_wf grants -> trail_step roles grants grants' -> trail_wf grants'.
Proof.
  intros Hwf [args clock g e Hrole Hperm H|args clock g e H].
  - destruct (grantRole_granted _ _ _ _ _ H) as (Hid & Hfresh & _ & _ & Hg). destruct Hwf as [Hids Hact].
    assert (rg_grantId g ∉ rg_grantId <$> grants) as Hid' by (by subst g).
    unfold saveGrant. rewrite upsert_fresh by done. split; [rewrite fmap_app; by apply NoDup_snoc_2|].
    rewrite filter_active_app, fmap_app. assert (isActiveGrant g = true) as E by (by subst g). cbn [List.filter]. rewrite E.
    apply NoDup_snoc_2; [|done]. rewrite list_elem_of_fmap. intros (h & Heq & Hh).
    apply list_elem_of_In, filter_In in Hh as [Hh Ha]. apply list_elem_of_In in Hh.
    apply bool_decide_eq_true in Ha. by apply (Hfresh h Hh Ha).
  - destruct (revokeRole_split _ _ _ _ _ Hwf H) as (l1 & target & l2 & Hl & -> & Ht & Hg & Hid & _). destruct Hwf as [Hids Hact].
    subst grants. split.
    + rewrite fmap_app in Hids |- *. cbn [fmap list_fmap] in Hids |- *. by rewrite Hid.
    + rewrite filter_active_app, fmap_app in Hact |- *. cbn [List.filter] in Hact |- *.
      replace (isActiveGrant target) with true in Hact by (unfold isActiveGrant; by rewrite Ht).
      replace (isActiveGrant g) with false by (unfold isActiveGrant; by rewrite bool_decide_eq_false_2).
      cbn [fmap list_fmap] in Hact. apply NoDup_app in Hact as (H1 & H2 & H3). apply NoDup_app.
      split; [done|]. split; [|by apply NoDup_cons in H3 as [_ H3]]. intros x Hx Hx'. apply (H2 x Hx). by right.
Qed.

(** A revocation takes effect: no grant of the assignment stays active, and every other
    fact is kept as it was. *)
Theorem revocation_takes_effect grants args clock g e : trail_wf grants -> revokeRole grants args clock = Ok (g, e) ->
  (forall h, h ∈ saveGrant g grants -> assignment h = (rr_userId args, rr_roleId args, rr_resourceId args) -> rg_revokedAt h <> None) /\
  (forall h, h ∈ grants -> h ∈ saveGrant g grants \/ rg_grantId h = rg_grantId g).
Proof.
  intros Hwf H. destruct (revokeRole_split _ _ _ _ _ Hwf H) as (l1 & target & l2 & Hl & -> & Ht & Hg & Hid & Hass & Hkey).
  destruct Hwf as [_ Hact]. subst grants. split; [|intros h Hh; set_solver].
  intros h Hh Hk Hnone. rewrite filter_active_app, fmap_app in Hact. cbn [List.filter] in Hact.
  replace (isActiveGrant target) with true in Hact by (unfold isActiveGrant; by rewrite Ht).
  cbn [fmap list_fmap] in Hact. apply NoDup_app in Hact as (_ & H2 & H3). apply NoDup_cons in H3 as [H3 _].
  assert (Hmem : forall l, h ∈ l -> assignment target ∈ assignment <$> List.filter isActiveGrant l).
  { intros l Hl. apply list_elem_of_fmap. exists h. split; [congruence|]. apply list_elem_of_In, filter_In.
    split; [by apply list_elem_of_In|]. unfold isActiveGrant. by rewrite Hnone. }
  apply elem_of_app in Hh as [Hh|Hh]; [apply (H2 _ (Hmem _ Hh)); by left|].
  apply elem_of_cons in Hh as [->|Hh]; [done|by apply H3, Hmem].
Qed.

(** ** Authority does not come from nothing *)

Lemma resourceOf_app (r a : string) : Forall (fun c => c <> ":"%char) (explode r) -> resourceOf (r +:+ ":" +:+ a) = explode r.
Proof.
  intros H. unfold resourceOf. rewrite !explode_app. apply take_while_prefix; [|done].
  eapply Forall_impl; [exact H|]. intros c Hc. by rewrite bool_decide_eq_false_2.
Qed.

Lemma string_app_inj_l (s a b : string) : a +:+ s = b +:+ s -> a = b.
Proof.
  intros H. apply explode_inj. apply (f_equal explode) in H. rewrite !explode_app in H. by apply app_inj_2 in H as [H _].
Qed.

Lemma wildcard_resource_plain r : r ∈ RESOURCES -> Forall (fun c => c <> ":"%char) (explode r).
Proof. intros H. cut (Forall (fun r => Forall (fun c => c <> ":"%char) (explode r)) RESOURCES); [by rewrite Forall_forall; auto|].
  repeat constructor; done. Qed.

(** The guard, as it is: what a granted role confers lies in the resources of the
    granter's set, and in the set itself when the role has no wildcard. *)
Lemma guard_bounds grants args clock g e p : grantRole grants args clock = Ok (role_granted g e) ->
  Forall valid_rule (ro_permissions (ga_role args)) -> role_confers (ga_role args) p ->
  exists p0, p0 ∈ ga_granterPermissions args /\ resourceOf p0 = resourceOf p /\
    (Forall (fun rule => rule ∈ PERMISSIONS) (ro_permissions (ga_role args)) -> p0 = p).
Proof.
  intros H Hval (rule & Hin & Hknown & Hconf). destruct (grantRole_granted _ _ _ _ _ H) as (_ & _ & _ & Hmiss & _).
  rewrite Forall_forall in Hval, Hmiss. specialize (Hmiss rule Hin). specialize (Hval rule Hin).
  assert (Hplain : forall q, q ∈ PERMISSIONS -> endsWith (explode q) (explode ":*") = false).
  { intros q Hq. cut (forallb (fun q => negb (endsWith (explode q) (explode ":*"))) PERMISSIONS = true); [|by vm_compute].
    rewrite forallb_forall. intros Hall. by apply negb_true_iff, Hall, list_elem_of_In. }
  unfold missingRule in Hmiss. destruct Hconf as [->|(resource & action & -> & ->)].
  - rewrite Hplain in Hmiss by done. destruct (decide (p ∈ _)); [|done]. by exists p.
  - assert (endsWith (explode (resource +:+ ":*")) (explode ":*") = true) as E.
    { apply endsWith_Ok. exists (explode resource). apply explode_app. }
    rewrite E in Hmiss. destruct (existsb _ _) eqn:Ex; [|done]. apply existsb_exists in Ex as (p0 & Hp0 & Hst).
    apply list_elem_of_In in Hp0. exists p0. split; [done|].
    assert (wildcardCovers (resource +:+ ":*") p0 = true) as Hw by (unfold wildcardCovers; by rewrite E).
    apply wildcardCovers_iff in Hw as (r & a & Hr & ->). apply string_app_inj_l in Hr as <-.
    destruct Hval as [Hval|Hval]; [|by rewrite Hplain in E].
    apply list_elem_of_fmap in Hval as (r' & Heq & Hr'). apply string_app_inj_l in Heq as <-.
    rewrite !resourceOf_app by (by apply wildcard_resource_plain). split; [done|].
    rewrite Forall_forall. intros Hall. specialize (Hall _ Hin). by rewrite Hplain in E.
Qed.

Lemma holds_iff roles grants u p : registry_wf roles ->
  holds roles grants u p <->
  exists g role, g ∈ grants /\ rg_userId g = u /\ rg_revokedAt g = None /\ roleById roles (rg_roleId g) = Some role /\ role_confers role p.
Proof.
  intros [_ _ Hwf]. unfold holds. rewrite effectivePermissions_iff by done. unfold grantsOf. split.
  - intros (id & role & Hin & Hrole & Hc). apply list_elem_of_fmap in Hin as (g & Heq & Hg). injection Heq as -> Hr.
    apply list_elem_of_In, filter_In in Hg as [Hg Hu]. apply list_elem_of_In in Hg. apply bool_decide_eq_true in Hu.
    by exists g, role.
  - intros (g & role & Hg & Hu & Hr & Hrole & Hc). exists (rg_roleId g), role. split; [|done].
    apply list_elem_of_fmap. exists g. rewrite Hr. split; [done|]. apply list_elem_of_In, filter_In.
    split; [by apply list_elem_of_In|by apply bool_decide_eq_true].
Qed.

Definition concrete (roles : list Role) : Prop := Forall (fun r => Forall (fun rule => rule ∈ PERMISSIONS) (ro_permissions r)) roles.

(** One step: whatever somebody holds afterwards, somebody held it (or, with wildcards,
    something of the same resource) before. *)
Lemma step_bounds roles grants grants' u p : registry_wf roles -> trail_wf grants -> trail_step roles grants grants' ->
  holds roles grants' u p ->
  exists u0 p0, holds roles grants u0 p0 /\ resourceOf p0 = resourceOf p /\ (concrete roles -> p0 = p).
Proof.
  intros Hreg Hwf Hstep Hholds. apply holds_iff in Hholds as (h & role & Hh & Hu & Hact & Hrole & Hc); [|done].
  assert (Hold : h ∈ grants -> exists u0 p0, holds roles grants u0 p0 /\ resourceOf p0 = resourceOf p /\ (concrete roles -> p0 = p)).
  { intros Hin. exists u, p. split; [|done]. apply holds_iff; [done|]. by exists h, role. }
  destruct Hstep as [args clock g e Hin Hperm H|args clock g e H].
  - assert (Hg := grantRole_granted _ _ _ _ _ H). destruct Hg as (Hid & _ & _ & _ & Hg).
    unfold saveGrant in Hh. rewrite upsert_fresh in Hh by (by subst g). apply elem_of_app in Hh as [Hh|Hh]; [by apply Hold|].
    apply list_elem_of_singleton in Hh as ->.
    assert (role = ga_role args) as ->.
    { rewrite Hg in Hrole. cbn in Hrole. rewrite roleById_unique in Hrole; [congruence|by apply Hreg|done]. }
    assert (Hrwf := rw_roles _ Hreg). rewrite Forall_forall in Hrwf. destruct (Hrwf _ Hin) as (_ & _ & _ & Hval).
    destruct (guard_bounds _ _ _ _ _ p H Hval Hc) as (p0 & Hp0 & Hres & Heq). exists (ga_grantedBy args), p0.
    split; [unfold holds; by rewrite <- Hperm|]. split; [done|]. intros Hcon. apply Heq.
    unfold concrete in Hcon. rewrite Forall_forall in Hcon. by apply Hcon.
  - destruct (revokeRole_split _ _ _ _ _ Hwf H) as (l1 & target & l2 & Hl & Hs & _ & Hg & _). rewrite Hs in Hh.
    apply Hold. subst grants. assert (h <> g) by (by intros ->). set_solver.
Qed.

(** C22: Any sequence of grants, each made under the granter's own effective permissions, and
    of revocations: the trail keeps unique facts with at most one active per assignment,
    and nobody ends up with a permission nobody had at the start when the roles hold
    concrete permissions; wildcards widen that to the resources somebody had. *)
Theorem authority_never_grows roles grants grants' : registry_wf roles -> trail_wf grants -> rtc (trail_step roles) grants grants' ->
  trail_wf grants' /\
  forall u p, holds roles grants' u p ->
    exists u0 p0, holds roles grants u0 p0 /\ resourceOf p0 = resourceOf p /\ (concrete roles -> p0 = p).
Proof.
  intros Hreg Hwf. revert grants'. apply rtc_ind_r; [split; [done|]; intros u p H; by exists u, p|].
  intros l l' _ Hstep [Hwf' IH]. split; [by eapply trail_step_wf|]. intros u p H.
  destruct (step_bounds _ _ _ _ _ Hreg Hwf' Hstep H) as (u1 & p1 & H1 & Hres1 & Heq1).
  destruct (IH u1 p1 H1) as (u0 & p0 & H0 & Hres0 & Heq0). exists u0, p0. split; [done|]. split; [congruence|].
  intros Hc. rewrite Heq0 by done. auto.
Qed.

(** ** A sample organisation *)

(** A decidable closed fact, by evaluation. *)
Ltac by_decide := apply (bool_decide_unpack _); vm_compute; exact I.

Definition role_admin : Role := MkRole "r1" "org" "Support" ["admin:manage-users"; "payments:read"] 0.
Definition role_reader : Role := MkRole "r2" "org" "Reader" ["payments:read"] 0.
Definition role_payments : Role := MkRole "r3" "org" "Payments" ["payments:*"] 0.
Definition sample_grants (scope : option Uuid) : list RoleGrant := [MkRoleGrant "g0" "org" "alice" "r1" scope "root" 0 None None None].

Definition grant_args (id user : Uuid) (role : Role) (roles : list Role) (scope : option Uuid) : GrantRoleArgs :=
  MkGrantRoleArgs id "org" user role "alice" (effectivePermissions roles (grantsOf "alice" (sample_grants scope))) None.

Lemma sample_registry_wf : registry_wf [role_admin; role_reader; role_payments].
Proof.
  split; by_decide.
Qed.

Lemma sample_trail_wf scope : trail_wf (sample_grants scope).
Proof. split; cbn; apply NoDup_singleton. Qed.

Lemma sample_step scope role roles : role ∈ roles ->
  missingRules (effectivePermissions roles (grantsOf "alice" (sample_grants scope))) role = [] ->
  ADMIN_MANAGE_USERS ∈ effectivePermissions roles (grantsOf "alice" (sample_grants scope)) ->
  trail_step roles (sample_grants scope)
    (sample_grants scope ++ [MkRoleGrant "g1" "org" "bob" (ro_roleId role) None "alice" 5 None None None]).
Proof.
  intros Hin Hmiss Hadmin.
  set (g := MkRoleGrant "g1" "org" "bob" (ro_roleId role) None "alice" 5 None None None).
  replace (sample_grants scope ++ [g]) with (saveGrant g (sample_grants scope)) by done.
  eapply (trail_grant _ _ (grant_args "g1" "bob" role roles scope) (fixed_clock 5)); [done|done|].
  unfold grantRole. cbn [List.find sample_grants]. rewrite bool_decide_eq_false_2 by done.
  destruct (activeFor _ _) eqn:E; [apply activeFor_true in E as [_ E]; done|].
  rewrite decide_False by (intros H; apply H, Hadmin). unfold grant_args. cbn [ga_role ga_granterPermissions].
  rewrite Hmiss, decide_False by (intros H; by apply H). done.
Qed.

(** With wildcards the guard lets authority grow: an administrator whose only payments
    permission is [payments:read] grants [payments:*], and the grantee can refund, which
    nobody could. *)
Theorem wildcard_grants_escalate : exists grants grants' u,
  let roles := [role_admin; role_reader; role_payments] in
  registry_wf roles /\ trail_wf grants /\ trail_step roles grants grants' /\ holds roles grants' u "payments:refund" /\
  forall u0, ~ holds roles grants u0 "payments:refund".
Proof.
  exists (sample_grants None). eexists. exists "bob". split; [apply sample_registry_wf|]. split; [apply sample_trail_wf|].
  split; [apply (sample_step None role_payments); [set_solver| |]; by_decide|].
  split; [by_decide|].
  intros u0 H. apply holds_iff in H as (g & role & Hg & _ & _ & Hrole & Hc); [|apply sample_registry_wf].
  apply list_elem_of_singleton in Hg as ->. vm_compute in Hrole. injection Hrole as <-.
  apply expandRolePermissions_iff in Hc; [|by_decide].
  revert Hc. by_decide.
Qed.

(** A grant scoped to one resource counts as org-wide authority when granting. *)
Theorem scoped_authority_widens : exists grants grants' g,
  let roles := [role_admin; role_reader; role_payments] in
  (forall h, h ∈ grants -> rg_resourceId h = Some "case-7") /\ trail_step roles grants grants' /\
  g ∈ grants' /\ rg_grantedBy g = "alice" /\ rg_resourceId g = None /\ rg_revokedAt g = None.
Proof.
  exists (sample_grants (Some "case-7")). do 2 eexists. split; [intros h Hh; by apply list_elem_of_singleton in Hh as ->|].
  split; [apply (sample_step _ role_reader); [set_solver| |]; by_decide|].
  split; [apply elem_of_app; right; by left|done].
Qed.

Lemma authority_never_grows_witness :
  let roles := [role_admin; role_reader] in
  exists u0 p0, holds roles (sample_grants None) u0 p0 /\ resourceOf p0 = resourceOf "payments:read" /\
    (concrete roles -> p0 = "payments:read").
Proof.
  intros roles.
  assert (Hreg : registry_wf roles).
  { split; by_decide. }
  refine (proj2 (authority_never_grows roles (sample_grants None) _ Hreg (sample_trail_wf None) _) "bob" "payments:read" _).
  - apply rtc_once, (sample_step None role_reader); [set_solver| |]; by_decide.
  - by_decide.
Defined.
