(* ===== verification/AuthUser.v ===== *)
(** * Users and sessions

    src/domain/auth/user.ts and sessions.ts: the org-scoped principal with its lifecycle
    and password credential, and sessions with an idle and an absolute horizon.

    The hashing port is a parameter, a pair of functions; that both are functions is its
    type, so [assertSecretCodec] is the identity.  The clock's readings are valid dates, so
    [assertClockDate] on them is the identity too.  The instants of a session and its
    timeouts are integers (the timeouts are validated as safe integers when it is opened): a
    horizon, the sum of the two, is rounded only above 2^53, later than every date. *)

From stdpp Require Import prelude strings list relations.
From Stdlib Require Import ZArith Lia Ascii.
From S2P Require Import Prelude JsNumber JsString JsDate Events AuthRoles.
Local Open Scope string_scope.
Local Open Scope list_scope.
Local Open Scope Z_scope.
Local Open Scope js_scope.

(** ** Identity values *)

Definition is_at (c : ascii) : bool := bool_decide (c = "@"%char).
Definition is_dot (c : ascii) : bool := bool_decide (c = "."%char).
Definition addressChar (c : ascii) : bool := negb (is_space c) && negb (is_at c).

(** [/^[^\s@]+@[^\s@]+\.[^\s@]+$/]: one at sign, no space, and a dot inside the domain. *)
Definition EMAIL_SHAPE (s : string) : bool :=
  let l := explode s in
  let local := take_while addressChar l in
  match drop (length local) l with
  | c :: domain => negb (bool_decide (local = [])) && is_at c && forallb addressChar domain && existsb is_dot (removelast (tail domain))
  | [] => false
  end.

Definition usernameChar (c : ascii) : bool := resourceChar c || is_dot c || bool_decide (c = "_"%char) || bool_decide (c = "-"%char).

(** [/^[a-z0-9](?:[a-z0-9._-]{2,30})$/] *)
Definition USERNAME_SHAPE (s : string) : bool :=
  match explode s with
  | c :: l => resourceChar c && forallb usernameChar l && (2 <=? length l)%nat && (length l <=? 30)%nat
  | [] => false
  end.

Definition assertEmail (raw : string) : result string :=
  let email := toLowerCase (trim raw) in
  refuse (EMAIL_SHAPE email = false) with "AUTH_EMAIL_MALFORMED" ;; Ok email.

Definition assertUsername (raw : string) : result string :=
  let username := toLowerCase (trim raw) in
  refuse (USERNAME_SHAPE username = false) with "AUTH_USERNAME_MALFORMED" ;; Ok username.

(** ** The user *)

Inductive UserStatus := user_active | user_suspended | user_deactivated.
#[export] Instance UserStatus_eq_dec : EqDecision UserStatus.
Proof. solve_decision. Defined.

Record User := MkUser {
  us_userId : Uuid;
  us_orgId : Uuid;
  us_email : string;
  us_username : string;
  us_displayName : string;
  us_status : UserStatus;
  us_createdAt : Date;
  us_suspendedAt : option Date;
  us_suspendedReason : option string;
  us_reactivatedAt : option Date;
  us_deactivatedAt : option Date;
}.
#[export] Instance User_eta : Eta User := fun u =>
  MkUser (us_userId u) (us_orgId u) (us_email u) (us_username u) (us_displayName u) (us_status u) (us_createdAt u)
    (us_suspendedAt u) (us_suspendedReason u) (us_reactivatedAt u) (us_deactivatedAt u).

Record CreateUserArgs := MkCreateUserArgs {
  cu_userId : Uuid;
  cu_orgId : Uuid;
  cu_email : string;
  cu_username : string;
  cu_displayName : string;
}.

Definition createUser (existingUsers : list User) (args : CreateUserArgs) (clock : Clock) : result (User * AuthEvent) :=
  refuse (cu_userId args ∈ us_userId <$> existingUsers) with "AUTH_USER_ID_TAKEN" ;;
  email ← assertEmail (cu_email args);
  username ← assertUsername (cu_username args);
  displayName ← assertNonBlank (cu_displayName args) "AUTH_DISPLAY_NAME_REQUIRED";
  refuse ((cu_orgId args, email) ∈ (fun u => (us_orgId u, us_email u)) <$> existingUsers) with "AUTH_EMAIL_TAKEN" ;;
  refuse ((cu_orgId args, username) ∈ (fun u => (us_orgId u, us_username u)) <$> existingUsers) with "AUTH_USERNAME_TAKEN" ;;
  let createdAt := clock 0%nat in
  let user := MkUser (cu_userId args) (cu_orgId args) email username displayName user_active createdAt None None None None in
  Ok (user, authEvent "auth.userCreated" (us_userId user)
    (UserCreatedPayload (us_userId user) (us_orgId user) (us_email user) (us_username user) (us_displayName user)
      (toISOString createdAt))
    (clock_after 1 clock)).

Definition suspendUser (u : User) (reason actorId : string) (clock : Clock) : result (User * AuthEvent) :=
  refuse (us_status u <> user_active) with "AUTH_USER_NOT_ACTIVE" ;;
  reason ← assertNonBlank reason "AUTH_REASON_REQUIRED";
  _ ← assertNonBlank actorId "AUTH_ACTOR_REQUIRED";
  let suspendedAt := clock 0%nat in
  Ok (u <| us_status := user_suspended |> <| us_suspendedAt := Some suspendedAt |> <| us_suspendedReason := Some reason |>,
    authEvent "auth.userSuspended" (us_userId u)
      (UserSuspendedPayload (us_userId u) (us_orgId u) reason (toISOString suspendedAt)) (clock_after 1 clock)).

Definition reactivateUser (u : User) (reason actorId : string) (clock : Clock) : result User :=
  refuse (us_status u <> user_suspended) with "AUTH_USER_NOT_ACTIVE" ;;
  _ ← assertNonBlank reason "AUTH_REASON_REQUIRED";
  _ ← assertNonBlank actorId "AUTH_ACTOR_REQUIRED";
  Ok (u <| us_status := user_active |> <| us_reactivatedAt := Some (clock 0%nat) |>).

Definition deactivateUser (u : User) (reason actorId : string) (clock : Clock) : result User :=
  refuse (us_status u = user_deactivated) with "AUTH_USER_NOT_ACTIVE" ;;
  _ ← assertNonBlank reason "AUTH_REASON_REQUIRED";
  _ ← assertNonBlank actorId "AUTH_ACTOR_REQUIRED";
  Ok (u <| us_status := user_deactivated |> <| us_deactivatedAt := Some (clock 0%nat) |>).

(** ** Credentials *)

Record SecretCodec := MkCodec { codec_hash : string -> string; codec_verify : string -> string -> bool }.

(** What the port promises: a secret verifies against its own hash. *)
Class CodecLaws (codec : SecretCodec) : Prop := codec_accepts : forall secret, codec_verify codec secret (codec_hash codec secret) = true.

Definition SECRET_MIN_LENGTH : nat := 12.

Record PasswordRecord := MkPasswordRecord { pw_userId : Uuid; pw_secretHash : string; pw_updatedAt : Date }.

Definition assertSecret (secret : string) : result string :=
  refuse (length (explode secret) < SECRET_MIN_LENGTH)%nat with "AUTH_SECRET_TOO_SHORT" ;; Ok secret.

Definition recordPassword (codec : SecretCodec) (userId : Uuid) (secret : string) (clock : Clock) : result PasswordRecord :=
  secret ← assertSecret secret;
  Ok (MkPasswordRecord userId (codec_hash codec secret) (clock 0%nat)).

Definition verifyPassword (codec : SecretCodec) (record : option PasswordRecord) (presented : string) : bool :=
  match record with
  | None => false
  | Some r => codec_verify codec presented (pw_secretHash r)
  end.

(** ** Sessions *)

Inductive SessionStatus := session_active | session_ended | session_expired | session_revoked.
#[export] Instance SessionStatus_eq_dec : EqDecision SessionStatus.
Proof. solve_decision. Defined.

Inductive SessionState := in_status (status : SessionStatus) | state_idleExpired | state_absoluteExpired.
#[export] Instance SessionState_eq_dec : EqDecision SessionState.
Proof. solve_decision. Defined.

Record Session := MkSession {
  se_sessionId : Uuid;
  se_userId : Uuid;
  se_orgId : Uuid;
  se_idleTimeoutMs : Z;
  se_absoluteTimeoutMs : Z;
  se_status : SessionStatus;
  se_createdAt : Date;
  se_lastSeenAt : Date;
  se_endedAt : option Date;
  se_endedReason : option string;
}.
#[export] Instance Session_eta : Eta Session := fun s =>
  MkSession (se_sessionId s) (se_userId s) (se_orgId s) (se_idleTimeoutMs s) (se_absoluteTimeoutMs s) (se_status s)
    (se_createdAt s) (se_lastSeenAt s) (se_endedAt s) (se_endedReason s).

Record OpenSessionArgs := MkOpenSessionArgs {
  os_sessionId : Uuid;
  os_userId : Uuid;
  os_orgId : Uuid;
  os_idleTimeoutMs : number;
  os_absoluteTimeoutMs : number;
}.

Definition assertTimeout (ms : number) : result Z :=
  match safeInteger ms with
  | Some z => refuse (z <= 0) with "SESS_TIMEOUT_INVALID" ;; Ok z
  | None => Err (DomainError "SESS_TIMEOUT_INVALID")
  end.

Definition openSession (args : OpenSessionArgs) (clock : Clock) : result Session :=
  idleTimeoutMs ← assertTimeout (os_idleTimeoutMs args);
  absoluteTimeoutMs ← assertTimeout (os_absoluteTimeoutMs args);
  let now := clock 0%nat in
  Ok (MkSession (os_sessionId args) (os_userId args) (os_orgId args) idleTimeoutMs absoluteTimeoutMs session_active now now None None).

(** The evaluation at an instant; a terminal status does not read the clock. *)
Definition sessionStateAt (s : Session) (now : Date) : SessionState :=
  match se_status s with
  | session_active =>
    if decide (now >= se_createdAt s + se_absoluteTimeoutMs s) then state_absoluteExpired
    else if decide (now >= se_lastSeenAt s + se_idleTimeoutMs s) then state_idleExpired
    else in_status session_active
  | status => in_status status
  end.

Definition sessionState (s : Session) (clock : Clock) : SessionState := sessionStateAt s (clock 0%nat).

(** The evaluation reads the clock once when the session's status is active; a session
    that evaluates active has that status, so the stamp is the second reading. *)
Definition touchSession (s : Session) (clock : Clock) : result Session :=
  refuse (sessionState s clock <> in_status session_active) with "SESS_NOT_ACTIVE" ;;
  Ok (s <| se_lastSeenAt := clock 1%nat |>).

Definition endSession (s : Session) (reason : string) (clock : Clock) : result Session :=
  reason ← assertNonBlank reason "AUTH_REASON_REQUIRED";
  refuse (sessionState s clock <> in_status session_active) with "SESS_NOT_ACTIVE" ;;
  Ok (s <| se_status := session_ended |> <| se_endedAt := Some (clock 1%nat) |> <| se_endedReason := Some reason |>).

Definition revokeSession (s : Session) (reason : string) (clock : Clock) : result Session :=
  reason ← assertNonBlank reason "AUTH_REASON_REQUIRED";
  refuse (sessionState s clock <> in_status session_active) with "SESS_NOT_ACTIVE" ;;
  Ok (s <| se_status := session_revoked |> <| se_endedAt := Some (clock 1%nat) |> <| se_endedReason := Some reason |>).

Definition show_expiry (r : SessionExpiryReason) : string :=
  match r with expired_idle => "idle" | expired_absolute => "absolute" end.

(** A session past a horizon has status active, so its evaluation read the clock once. *)
Definition expireAs (s : Session) (reason : SessionExpiryReason) (clock : Clock) : Session * AuthEvent :=
  let now := clock 1%nat in
  (s <| se_status := session_expired |> <| se_endedAt := Some now |> <| se_endedReason := Some (show_expiry reason) |>,
   authEvent "auth.sessionExpired" (se_sessionId s)
     (SessionExpiredPayload (se_sessionId s) (se_userId s) (se_orgId s) reason (toISOString now)) (clock_after 2 clock)).

Definition expireSession (s : Session) (clock : Clock) : result (Session * AuthEvent) :=
  match sessionState s clock with
  | in_status session_active => Err (DomainError "SESS_NOT_DUE")
  | state_idleExpired => Ok (expireAs s expired_idle clock)
  | state_absoluteExpired => Ok (expireAs s expired_absolute clock)
  | in_status _ => Err (DomainError "SESS_NOT_ACTIVE")
  end.

(** The loop of [revokeSessionsForUser]; each live session of the user costs a reading to
    evaluate and, when it is revoked, one to stamp. *)
Fixpoint revokeLoop (userId : Uuid) (reason : string) (sessions : list Session) (clock : Clock) : list Session * list Session :=
  match sessions with
  | [] => ([], [])
  | s :: sessions' =>
    if decide (se_userId s = userId /\ se_status s = session_active) then
      if decide (sessionState s clock = in_status session_active) then
        let killed := s <| se_status := session_revoked |> <| se_endedAt := Some (clock 1%nat) |> <| se_endedReason := Some reason |> in
        let '(all, revoked) := revokeLoop userId reason sessions' (clock_after 2 clock) in (killed :: all, killed :: revoked)
      else let '(all, revoked) := revokeLoop userId reason sessions' (clock_after 1 clock) in (s :: all, revoked)
    else let '(all, revoked) := revokeLoop userId reason sessions' clock in (s :: all, revoked)
  end.

Definition revokeSessionsForUser (sessions : list Session) (userId : Uuid) (reason : string) (clock : Clock)
  : result (list Session * list Session) :=
  reason ← assertNonBlank reason "AUTH_REASON_REQUIRED";
  Ok (revokeLoop userId reason sessions (clock_after 1 clock)).

(** ** The life of a user *)

Inductive user_step (u : User) : User -> Prop :=
| step_suspend reason actorId clock u' e : suspendUser u reason actorId clock = Ok (u', e) -> user_step u u'
| step_reactivate reason actorId clock u' : reactivateUser u reason actorId clock = Ok u' -> user_step u u'
| step_deactivate reason actorId clock u' : deactivateUser u reason actorId clock = Ok u' -> user_step u u'.

(** The documented table. *)
Definition status_edge (a b : UserStatus) : bool :=
  match a, b with
  | user_active, user_suspended | user_suspended, user_active | user_active, user_deactivated | user_suspended, user_deactivated => true
  | _, _ => false
  end.

Definition identity_of (u : User) : Uuid * Uuid * string * string * string * Date :=
  (us_userId u, us_orgId u, us_email u, us_username u, us_displayName u, us_createdAt u).

Lemma user_step_edge u u' : user_step u u' -> status_edge (us_status u) (us_status u') = true /\ identity_of u' = identity_of u.
Proof.
  intros [reason actorId clock v e H|reason actorId clock v H|reason actorId clock v H];
    unfold suspendUser, reactivateUser, deactivateUser in H; apply guard_Ok in H as [Hst H];
    apply bind_Ok in H as (r & _ & H); apply bind_Ok in H as (a & _ & H); apply (inj Ok) in H;
    [injection H as <- _|subst v|subst v]; (split; [|done]); cbn; destruct (us_status u); try done; by destruct Hst.
Qed.

Lemma status_edge_enabled u b : status_edge (us_status u) b = true -> exists u', user_step u u' /\ us_status u' = b.
Proof.
  intros H. destruct b.
  - exists (u <| us_status := user_active |> <| us_reactivatedAt := Some 0 |>). split; [|done].
    apply (step_reactivate u "r" "a" (fixed_clock 0)). unfold reactivateUser. rewrite decide_False; [done|].
    destruct (us_status u); naive_solver.
  - eexists (u <| us_status := user_suspended |> <| us_suspendedAt := Some 0 |> <| us_suspendedReason := Some "r" |>).
    split; [|done]. eapply (step_suspend u "r" "a" (fixed_clock 0)). unfold suspendUser. rewrite decide_False; [done|].
    destruct (us_status u); naive_solver.
  - exists (u <| us_status := user_deactivated |> <| us_deactivatedAt := Some 0 |>). split; [|done].
    apply (step_deactivate u "r" "a" (fixed_clock 0)). unfold deactivateUser. rewrite decide_False; [done|].
    destruct (us_status u); naive_solver.
Qed.

(** The operations move a user's status exactly along the table, keep who the user is, and
    leave a deactivated record as it is for ever. *)
Theorem user_lifecycle_exact u :
  (forall b, (exists u', user_step u u' /\ us_status u' = b) <-> status_edge (us_status u) b = true) /\
  (forall u', rtc user_step u u' -> identity_of u' = identity_of u /\ (us_status u = user_deactivated -> u' = u)).
Proof.
  split.
  - intros b. split; [|apply status_edge_enabled]. intros (u' & H & <-). by apply user_step_edge.
  - intros u' H. induction H as [u|u v w Hstep _ [IH1 IH2]]; [done|]. apply user_step_edge in Hstep as [He Hi].
    split; [congruence|]. intros Hd. by rewrite Hd in He.
Qed.

(** ** Passwords *)

(** A password set with [recordPassword] verifies, an absent record never does, and short
    secrets are not recorded. *)
Theorem password_roundtrip (codec : SecretCodec) `{!CodecLaws codec} userId secret clock :
  ((SECRET_MIN_LENGTH <= length (explode secret))%nat ->
    exists record, recordPassword codec userId secret clock = Ok record /\ pw_userId record = userId /\
      verifyPassword codec (Some record) secret = true) /\
  ((length (explode secret) < SECRET_MIN_LENGTH)%nat -> recordPassword codec userId secret clock = Err (DomainError "AUTH_SECRET_TOO_SHORT")) /\
  verifyPassword codec None secret = false.
Proof.
  unfold recordPassword, assertSecret. split; [intros H|split; [intros H; by rewrite decide_True by done|done]].
  rewrite decide_False by lia. eexists. split; [done|]. split; [done|]. apply codec_accepts.
Qed.

(** ** The life of a session *)

(** Time and one session; the readings of an operation do not go back. *)
Inductive session_step : Date * Session -> Date * Session -> Prop :=
| session_waits t t' s : t <= t' -> session_step (t, s) (t', s)
| session_touched t s clock s' : t <= clock 0%nat -> clock 0%nat <= clock 1%nat ->
    touchSession s clock = Ok s' -> session_step (t, s) (clock 1%nat, s')
| session_logged_out t s reason clock s' : t <= clock 0%nat -> clock 0%nat <= clock 1%nat ->
    endSession s reason clock = Ok s' -> session_step (t, s) (clock 1%nat, s')
| session_killed t s reason clock s' : t <= clock 0%nat -> clock 0%nat <= clock 1%nat ->
    revokeSession s reason clock = Ok s' -> session_step (t, s) (clock 1%nat, s')
| session_swept t s clock s' e : t <= clock 0%nat -> clock 0%nat <= clock 1%nat ->
    expireSession s clock = Ok (s', e) -> session_step (t, s) (clock 1%nat, s').

Definition usable (s : Session) (t : Date) : Prop := sessionStateAt s t = in_status session_active.
#[export] Instance usable_dec s t : Decision (usable s t).
Proof. unfold usable. apply _. Defined.

Lemma usable_iff s t : usable s t <->
  se_status s = session_active /\ t < se_createdAt s + se_absoluteTimeoutMs s /\ t < se_lastSeenAt s + se_idleTimeoutMs s.
Proof.
  unfold usable, sessionStateAt. destruct (se_status s); [|naive_solver..].
  destruct (decide (t >= _)); [split; [done|intros; exfalso; lia]|].
  destruct (decide (t >= _)); [split; [done|intros; exfalso; lia]|]. split; [intros _; split; [done|lia]|done].
Qed.

(** What an operation does to a session: it was usable and only its activity stamp moves,
    or it leaves with a terminal status. *)
Lemma session_step_cases t s t' s' : session_step (t, s) (t', s') ->
  t <= t' /\ se_createdAt s' = se_createdAt s /\ se_absoluteTimeoutMs s' = se_absoluteTimeoutMs s /\
  se_idleTimeoutMs s' = se_idleTimeoutMs s /\ se_sessionId s' = se_sessionId s /\ se_userId s' = se_userId s /\
  (s' = s \/ (exists t1, t <= t1 <= t' /\ usable s t1) /\ se_status s' = session_active /\ se_lastSeenAt s' = t' \/
   se_status s' <> session_active).
Proof.
  intros H. inversion H as [? ? ? Ht|? ? clock ? Ht Hc H'|? ? reason clock ? Ht Hc H'|? ? reason clock ? Ht Hc H'|? ? clock ? e Ht Hc H']; subst.
  - by repeat (split; [done|]); left.
  - unfold touchSession in H'. apply guard_Ok in H' as [Hu H']. apply (inj Ok) in H' as <-. apply dec_stable in Hu.
    split; [lia|]. do 5 (split; [done|]). right. left. split; [exists (clock 0%nat); by split; [lia|]|].
    split; [|done]. by apply usable_iff in Hu as [Hu _].
  - unfold endSession in H'. apply bind_Ok in H' as (r & _ & H'). apply guard_Ok in H' as [_ H']. apply (inj Ok) in H' as <-.
    split; [lia|]. do 5 (split; [done|]). by do 2 right.
  - unfold revokeSession in H'. apply bind_Ok in H' as (r & _ & H'). apply guard_Ok in H' as [_ H']. apply (inj Ok) in H' as <-.
    split; [lia|]. do 5 (split; [done|]). by do 2 right.
  - assert (exists why, s' = (expireAs s why clock).1) as [why ->].
    { unfold expireSession in H'. destruct (sessionState s clock) as [[]| |]; try done; apply (inj Ok) in H';
        injection H' as <- _; [by exists expired_idle|by exists expired_absolute]. }
    split; [lia|]. do 5 (split; [done|]). by do 2 right.
Qed.

Lemma dead_step t s t' s' : session_step (t, s) (t', s') -> ~ usable s t -> ~ usable s' t'.
Proof.
  intros H Hdead. apply session_step_cases in H as (Ht & Hc & Ha & Hi & _ & _ & H). rewrite usable_iff in Hdead |- *.
  destruct H as [->|[[(t1 & Ht1 & Hu) _]|H]]; [| |naive_solver].
  - intros (Hs & H1 & H2). apply Hdead. split; [done|lia].
  - apply usable_iff in Hu as (Hs & H1 & H2). intros _. apply Hdead. split; [done|lia].
Qed.

Lemma dead_rtc x y : rtc session_step x y -> ~ usable x.2 x.1 -> ~ usable y.2 y.1.
Proof. induction 1 as [|[t s] [t1 s1] y Hstep _ IH]; [done|]. intros Hdead. apply IH. by eapply dead_step. Qed.

(** However often a session is touched, it is usable only before its absolute horizon
    and within the idle window of its last activity, and once it is not usable it never
    is again. *)
Theorem sessions_end_for_good args clock s0 t s : openSession args clock = Ok s0 -> rtc session_step (clock 0%nat, s0) (t, s) ->
  (usable s t -> clock 0%nat <= se_lastSeenAt s <= t /\ t < clock 0%nat + se_absoluteTimeoutMs s0 /\ t < se_lastSeenAt s + se_idleTimeoutMs s0) /\
  (~ usable s t -> forall t' s', rtc session_step (t, s) (t', s') -> ~ usable s' t').
Proof.
  intros Hopen Hrtc. split.
  - assert (Hinv : forall x, rtc session_step (clock 0%nat, s0) x -> se_createdAt x.2 = clock 0%nat /\
      se_absoluteTimeoutMs x.2 = se_absoluteTimeoutMs s0 /\ se_idleTimeoutMs x.2 = se_idleTimeoutMs s0 /\
      (se_status x.2 = session_active -> clock 0%nat <= se_lastSeenAt x.2 <= x.1)).
    { apply rtc_ind_r.
      - unfold openSession in Hopen. apply bind_Ok in Hopen as (i & _ & Hopen). apply bind_Ok in Hopen as (a & _ & Hopen).
        apply (inj Ok) in Hopen as <-. cbn. repeat split; lia.
      - intros [t1 s1] [t2 s2] _ Hstep (H1 & H2 & H3 & H4). cbn [fst snd] in *.
        apply session_step_cases in Hstep as (Ht & Hc & Ha & Hi & _ & _ & H). rewrite Hc, Ha, Hi. repeat (split; [done|]).
        destruct H as [->|[[(t3 & Ht3 & Hu) [Hs Hl]]|H]]; [|intros _|done].
        + intros Hs. specialize (H4 Hs). lia.
        + apply usable_iff in Hu as (Hu & _). specialize (H4 Hu). lia. }
    intros Hu. destruct (Hinv _ Hrtc) as (Hc & Ha & Hi & Hl). cbn [fst snd] in *. apply usable_iff in Hu as (Hst & Hab & Hid).
    specialize (Hl Hst). lia.
  - intros Hdead t' s' Hr. by apply (dead_rtc (t, s) (t', s') Hr).
Qed.

Definition sample_session : Session := MkSession "s1" "u1" "org" 1000 5000 session_active 0 0 None None.

Lemma sessions_end_for_good_witness :
  (usable (sample_session <| se_lastSeenAt := 900 |>) 1500 -> 0 <= 900 <= 1500 /\ 1500 < 0 + 5000 /\ 1500 < 900 + 1000) /\
  ~ usable (sample_session <| se_lastSeenAt := 900 |>) 1900.
Proof.
  assert (Hopen : openSession (MkOpenSessionArgs "s1" "u1" "org" (num 1000) (num 5000)) (fixed_clock 0) = Ok sample_session) by (vm_compute; done).
  assert (Hstep : session_step (0, sample_session) (900, sample_session <| se_lastSeenAt := 900 |>)).
  { apply (session_touched 0 sample_session (fixed_clock 900)); [done|done|]. vm_compute. done. }
  assert (Hw : forall t, 900 <= t -> rtc session_step (0, sample_session) (t, sample_session <| se_lastSeenAt := 900 |>)).
  { intros t Ht. eapply rtc_l; [exact Hstep|]. apply rtc_once. by apply session_waits. }
  split.
  - apply (sessions_end_for_good _ _ _ 1500 _ Hopen (Hw 1500 ltac:(lia))).
  - apply (proj2 (sessions_end_for_good _ _ _ 1900 _ Hopen (Hw 1900 ltac:(lia)))); [vm_compute; done|constructor].
Defined.

(** ** The suspension cascade over sessions *)

Definition monotone (clock : Clock) : Prop := forall i j, (i <= j)%nat -> clock i <= clock j.

Lemma monotone_after n clock : monotone clock -> monotone (clock_after n clock).
Proof. intros H i j Hij. apply H. lia. Qed.

(** Each session is kept as it was, or was a usable one of the user and is revoked. *)
Definition cascaded (userId : Uuid) (t : Date) (s s' : Session) : Prop :=
  (s' = s /\ (se_userId s = userId -> ~ usable s t)) \/
  (se_userId s = userId /\ se_status s' = session_revoked /\ se_sessionId s' = se_sessionId s /\ se_userId s' = se_userId s).

Lemma revokeLoop_spec userId reason sessions t : forall clock, monotone clock -> (forall i, clock i <= t) ->
  Forall2 (cascaded userId t) sessions (revokeLoop userId reason sessions clock).1 /\
  Forall (fun s => se_status s = session_revoked /\ s ∈ (revokeLoop userId reason sessions clock).1) (revokeLoop userId reason sessions clock).2.
Proof.
  induction sessions as [|s sessions IH]; intros clock Hm Ht; cbn [revokeLoop]; [split; constructor|].
  assert (Hnext : forall n, (forall i, clock_after n clock i <= t) /\ monotone (clock_after n clock))
    by (intros n; split; [intros i; apply Ht|by apply monotone_after]).
  assert (Hweak : forall (x : Session) l r, Forall (fun s => se_status s = session_revoked /\ s ∈ l) r ->
    Forall (fun s => se_status s = session_revoked /\ s ∈ x :: l) r).
  { intros x l r H. eapply Forall_impl; [exact H|]. intros y [Hy1 Hy2]. split; [done|by right]. }
  destruct (decide (se_userId s = userId /\ se_status s = session_active)) as [[Hu Hs]|Hn];
    [destruct (decide (sessionState s clock = in_status session_active)) as [Hact|Hdead]|].
  - destruct (IH (clock_after 2 clock)) as [H1 H2]; [apply Hnext..|].
    destruct (revokeLoop userId reason sessions (clock_after 2 clock)) as [all revoked]. cbn [fst snd] in *.
    split; [constructor; [by right|done]|]. constructor; [split; [done|by left]|by apply Hweak].
  - destruct (IH (clock_after 1 clock)) as [H1 H2]; [apply Hnext..|].
    destruct (revokeLoop userId reason sessions (clock_after 1 clock)) as [all revoked]. cbn [fst snd] in *.
    split; [constructor; [left|done]|by apply Hweak]. split; [done|]. intros _ Hus. apply Hdead.
    apply usable_iff in Hus as (_ & Ha & Hi). apply usable_iff. split; [done|]. specialize (Ht 0%nat). lia.
  - destruct (IH clock Hm Ht) as [H1 H2]. destruct (revokeLoop userId reason sessions clock) as [all revoked]. cbn [fst snd] in *.
    split; [constructor; [left|done]|by apply Hweak]. split; [done|]. intros Hu Hus. apply usable_iff in Hus as [Hs _]. by apply Hn.
Qed.

(** ** The user directory *)

Definition saveUser (u : User) (users : list User) : list User := upsert us_userId u users.

Inductive directory_step (users : list User) : list User -> Prop :=
| user_created args clock u e : createUser users args clock = Ok (u, e) -> directory_step users (saveUser u users)
| user_moved u u' : u ∈ users -> user_step u u' -> directory_step users (saveUser u' users).

Definition email_of (u : User) : Uuid * string := (us_orgId u, us_email u).
Definition username_of (u : User) : Uuid * string := (us_orgId u, us_username u).

Record directory_wf (users : list User) : Prop := {
  dw_ids : NoDup (us_userId <$> users);
  dw_emails : NoDup (email_of <$> users);
  dw_usernames : NoDup (username_of <$> users);
  dw_shapes : Forall (fun u => EMAIL_SHAPE (us_email u) = true /\ USERNAME_SHAPE (us_username u) = true /\ us_displayName u <> "") users;
}.

Lemma createUser_Ok users args clock u e : createUser users args clock = Ok (u, e) ->
  us_userId u ∉ us_userId <$> users /\ email_of u ∉ email_of <$> users /\ username_of u ∉ username_of <$> users /\
  EMAIL_SHAPE (us_email u) = true /\ USERNAME_SHAPE (us_username u) = true /\ us_displayName u <> "" /\ us_status u = user_active.
Proof.
  unfold createUser, assertEmail, assertUsername, assertNonBlank. intros H. apply guard_Ok in H as [Hid H].
  apply bind_Ok in H as (email & He & H). apply bind_Ok in H as (username & Hun & H). apply bind_Ok in H as (display & Hd & H).
  apply guard_Ok in He as [He He']. apply guard_Ok in Hun as [Hun Hun']. apply guard_Ok in Hd as [Hd Hd'].
  apply guard_Ok in H as [H1 H]. apply guard_Ok in H as [H2 H].
  apply (inj Ok) in He', Hun', Hd'. subst email username display. apply (inj Ok) in H. injection H as <- _. unfold email_of, username_of. cbn.
  repeat (split; [first [done|by apply not_false_iff_true]|]). done.
Qed.

(** Users keep unique ids, and unique well-formed emails and usernames within their org,
    through every creation and every change of status. *)
Theorem directory_invariant users : rtc directory_step [] users -> directory_wf users.
Proof.
  revert users. apply (rtc_ind_r (fun l => directory_wf l)); [by repeat constructor|].
  intros users users' _ [args clock u e H|u u' Hin H] [H1 H2 H3 H4]; unfold saveUser.
  - apply createUser_Ok in H as (Hid & He & Hun & Hes & Hus & Hd & _). rewrite upsert_fresh by done.
    split; rewrite ?fmap_app; [by apply NoDup_snoc_2..|by apply Forall_snoc_2].
  - apply user_step_edge in H as [_ Hid]. unfold identity_of in Hid. injection Hid as Hid Horg He Hun Hd _.
    destruct (upsert_replace us_userId u u' users) as (l1 & l2 & -> & ->); [done..|].
    rewrite fmap_app in H1. rewrite fmap_app in H2. rewrite fmap_app in H3. cbn [fmap list_fmap] in H1, H2, H3.
    split; rewrite ?fmap_app; cbn [fmap list_fmap]; unfold email_of, username_of in *; rewrite ?Hid, ?Horg, ?He, ?Hun; [done..|].
    rewrite Forall_app, Forall_cons in H4 |- *. by rewrite He, Hun, Hd.
Qed.

(** The lane's comment says that junk from the hashing port is refused; whatever the port
    answers is stored. *)
Theorem junk_hash_is_stored clock :
  recordPassword (MkCodec (fun _ => "") (fun _ _ => true)) "u1" "correct horse battery" clock = Ok (MkPasswordRecord "u1" "" (clock 0%nat)).
Proof. done. Qed.
