(* ===== verification/AuthGuard.v ===== *)
(** * API keys and the authorization guard

    src/domain/auth/apikeys.ts and guard.ts: issuance, revocation and authentication of
    machine credentials over the injected hashing port, and the decision core that answers
    whether a principal may do something, with the audited boundary on top.

    The [detail] texts of denials are not modelled.  A key's optional expiry comes from
    outside and may be an invalid date ([Some None]). *)

From stdpp Require Import prelude strings list sorting relations.
From Stdlib Require Import ZArith Lia Ascii.
From S2P Require Import Prelude JsNumber JsString JsDate Events AuthRoles AuthAssignments AuthUser.
Local Open Scope string_scope.
Local Open Scope list_scope.
Local Open Scope Z_scope.
Local Open Scope js_scope.

(** ** API keys *)

Definition KEY_PREFIX_LENGTH : nat := 8.
Definition KEY_SECRET_MIN_LENGTH : nat := 16.

Inductive ApiKeyStatus := key_active | key_revoked.
#[export] Instance ApiKeyStatus_eq_dec : EqDecision ApiKeyStatus.
Proof. solve_decision. Defined.

Record ApiKey := MkApiKey {
  ak_keyId : Uuid;
  ak_orgId : Uuid;
  ak_name : string;
  ak_createdBy : Uuid;
  ak_prefix : string;
  ak_secretHash : string;
  ak_scopes : list string;
  ak_expiresAt : option Date;
  ak_status : ApiKeyStatus;
  ak_createdAt : Date;
  ak_lastUsedAt : option Date;
  ak_revokedAt : option Date;
  ak_revokedBy : option Uuid;
  ak_revokedReason : option string;
}.
#[export] Instance ApiKey_eta : Eta ApiKey := fun k =>
  MkApiKey (ak_keyId k) (ak_orgId k) (ak_name k) (ak_createdBy k) (ak_prefix k) (ak_secretHash k) (ak_scopes k)
    (ak_expiresAt k) (ak_status k) (ak_createdAt k) (ak_lastUsedAt k) (ak_revokedAt k) (ak_revokedBy k) (ak_revokedReason k).

Record IssueKeyArgs := MkIssueKeyArgs {
  ik_keyId : Uuid;
  ik_orgId : Uuid;
  ik_name : string;
  ik_createdBy : Uuid;
  ik_secret : string;
  ik_scopes : list string;
  ik_expiresAt : option (option Date);
}.

(** [secret.slice(0, KEY_PREFIX_LENGTH)] *)
Definition keyPrefix (secret : string) : string := implode (take KEY_PREFIX_LENGTH (explode secret)).

Definition keyExpiry (raw : option (option Date)) (createdAt : Date) : result (option Date) :=
  match raw with
  | None => Ok None
  | Some None => Err (DomainError "AUTH_KEY_EXPIRY_INVALID")
  | Some (Some t) => refuse (t <= createdAt) with "AUTH_KEY_EXPIRY_INVALID" ;; Ok (Some t)
  end.

Definition issueKey (codec : SecretCodec) (existingKeys : list ApiKey) (args : IssueKeyArgs) (clock : Clock)
  : result (ApiKey * AuthEvent) :=
  refuse (ik_keyId args ∈ ak_keyId <$> existingKeys) with "AUTH_KEY_ID_TAKEN" ;;
  name ← assertNonBlank (ik_name args) "AUTH_KEY_NAME_REQUIRED";
  _ ← assertNonBlank (ik_createdBy args) "AUTH_ACTOR_REQUIRED";
  refuse (ik_scopes args = []) with "AUTH_KEY_SCOPES_REQUIRED" ;;
  scopes ← traverse assertPermission (ik_scopes args);
  refuse (length (explode (ik_secret args)) < KEY_SECRET_MIN_LENGTH)%nat with "AUTH_SECRET_TOO_SHORT" ;;
  let prefix := keyPrefix (ik_secret args) in
  refuse (prefix ∈ ak_prefix <$> existingKeys) with "AUTH_KEY_PREFIX_TAKEN" ;;
  let createdAt := clock 0%nat in
  expiresAt ← keyExpiry (ik_expiresAt args) createdAt;
  let key := MkApiKey (ik_keyId args) (ik_orgId args) name (ik_createdBy args) prefix (codec_hash codec (ik_secret args))
    (sortedSet scopes) expiresAt key_active createdAt None None None None in
  Ok (key, authEvent "auth.apiKeyIssued" (ak_keyId key)
    (ApiKeyIssuedPayload (ak_keyId key) (ak_orgId key) (ak_name key) (ak_prefix key) (ak_scopes key) (toISOString <$> expiresAt)
      (ak_createdBy key) (toISOString createdAt))
    (clock_after 1 clock)).

Record RevokeKeyArgs := MkRevokeKeyArgs { rk_keyId : Uuid; rk_revokedBy : Uuid; rk_reason : string }.

(** The event is [None] when the key was revoked already. *)
Definition revokeKey (existingKeys : list ApiKey) (args : RevokeKeyArgs) (clock : Clock) : result (ApiKey * option AuthEvent) :=
  reason ← assertNonBlank (rk_reason args) "AUTH_REASON_REQUIRED";
  _ ← assertNonBlank (rk_revokedBy args) "AUTH_ACTOR_REQUIRED";
  match List.find (fun k => bool_decide (ak_keyId k = rk_keyId args)) existingKeys with
  | None => Err (DomainError "AUTH_KEY_NOT_FOUND")
  | Some target =>
    if decide (ak_status target = key_revoked) then Ok (target, None)
    else
      let revokedAt := clock 0%nat in
      let key := target <| ak_status := key_revoked |> <| ak_revokedAt := Some revokedAt |>
        <| ak_revokedBy := Some (rk_revokedBy args) |> <| ak_revokedReason := Some reason |> in
      Ok (key, Some (authEvent "auth.apiKeyRevoked" (ak_keyId key)
        (ApiKeyRevokedPayload (ak_keyId key) (ak_orgId key) (rk_revokedBy args) reason (toISOString revokedAt)) (clock_after 1 clock)))
  end.

Record AuthenticateKeyArgs := MkAuthenticateKeyArgs { au_orgId : Uuid; au_secret : string; au_ownerStatus : option UserStatus }.

Inductive AuthenticateKeyResult :=
| authenticated (key : ApiKey)
| key_denied (reason : DenyReason) (event : AuthEvent).

Definition AUTH_ATTEMPT_PERMISSION : string := "auth:authenticate".

Definition denyKey (args : AuthenticateKeyArgs) (now : Date) (reason : DenyReason) (key : option ApiKey) (clock : Clock)
  : AuthenticateKeyResult :=
  key_denied reason (authEvent "auth.accessDenied" (from_option ak_keyId (au_orgId args) key)
    (AccessDeniedPayload (au_orgId args) (ak_keyId <$> key) kind_apiKey AUTH_ATTEMPT_PERMISSION None reason (toISOString now))
    clock).

(** [k.expiresAt !== null && now >= k.expiresAt] *)
Definition keyExpired (k : ApiKey) (now : Date) : bool := from_option (fun t => bool_decide (now >= t)) false (ak_expiresAt k).

(** [ownerStatus !== undefined && ownerStatus !== null && ownerStatus !== 'active'] *)
Definition ownerInactive (status : option UserStatus) : bool :=
  from_option (fun st => negb (bool_decide (st = user_active))) false status.

Definition authenticateKey (codec : SecretCodec) (existingKeys : list ApiKey) (args : AuthenticateKeyArgs) (clock : Clock)
  : AuthenticateKeyResult :=
  let now := clock 0%nat in
  let deny reason key := denyKey args now reason key (clock_after 1 clock) in
  if decide (length (explode (au_secret args)) < KEY_PREFIX_LENGTH)%nat then deny KEY_UNKNOWN None
  else
    match List.filter (fun k => bool_decide (ak_prefix k = keyPrefix (au_secret args))) existingKeys with
    | [] => deny KEY_UNKNOWN None
    | first :: others =>
      match List.find (fun k => codec_verify codec (au_secret args) (ak_secretHash k)) (first :: others) with
      | None => deny KEY_SECRET_MISMATCH (Some first)
      | Some matched =>
        if decide (ak_status matched = key_revoked) then deny KEY_REVOKED (Some matched)
        else if keyExpired matched now then deny KEY_EXPIRED (Some matched)
        else if ownerInactive (au_ownerStatus args) then deny KEY_OWNER_INACTIVE (Some matched)
        else authenticated (matched <| ak_lastUsedAt := Some now |>)
      end
    end.

(** ** Principals *)

Record PermissionRule := MkRule {
  pr_rule : string;
  pr_roleId : option Uuid;
  pr_grantId : option Uuid;
  pr_resourceId : option Uuid;
}.

Inductive PrincipalStatus := of_user (status : UserStatus) | principal_revoked.
#[export] Instance PrincipalStatus_eq_dec : EqDecision PrincipalStatus.
Proof. solve_decision. Defined.

Record Principal := MkPrincipal {
  pp_kind : PrincipalKind;
  pp_principalId : Uuid;
  pp_orgId : Uuid;
  pp_status : PrincipalStatus;
  pp_rules : list PermissionRule;
}.

Definition rulesOfGrant (roles : list Role) (user : User) (g : RoleGrant) : list PermissionRule :=
  if decide (rg_userId g <> us_userId user \/ isActiveGrant g = false) then []
  else match roleById roles (rg_roleId g) with
       | None => []
       | Some role => (fun rule => MkRule rule (Some (ro_roleId role)) (Some (rg_grantId g)) (rg_resourceId g)) <$> ro_permissions role
       end.

Definition userPrincipal (user : User) (assignments : list RoleGrant) (roles : list Role) : Principal :=
  MkPrincipal kind_user (us_userId user) (us_orgId user) (of_user (us_status user)) (mjoin (rulesOfGrant roles user <$> assignments)).

Definition apiKeyPrincipal (key : ApiKey) : Principal :=
  MkPrincipal kind_apiKey (ak_keyId key) (ak_orgId key)
    (match ak_status key with key_active => of_user user_active | key_revoked => principal_revoked end)
    ((fun scope => MkRule scope None None None) <$> ak_scopes key).

(** ** The decision core *)

Inductive CanDecision := allowed (via : PermissionRule) | denied (reason : DenyReason).

Definition STATUS_REASONS (status : PrincipalStatus) : DenyReason :=
  match status with
  | of_user user_suspended => PRINCIPAL_SUSPENDED
  | principal_revoked => PRINCIPAL_REVOKED
  | of_user user_deactivated | of_user user_active => PRINCIPAL_DEACTIVATED
  end.

Definition covered (permission : string) (r : PermissionRule) : bool :=
  bool_decide (pr_rule r = permission) || wildcardCovers (pr_rule r) permission.

Definition in_scope (resource : option Uuid) (r : PermissionRule) : Prop :=
  resource = None \/ pr_resourceId r = None \/ pr_resourceId r = resource.

#[export] Instance in_scope_dec resource r : Decision (in_scope resource r).
Proof. unfold in_scope. apply _. Defined.

(** The loop over the rules, with its [coversPermission] flag. *)
Fixpoint matchRules (permission : string) (resource : option Uuid) (coversPermission : bool) (rules : list PermissionRule) : CanDecision :=
  match rules with
  | [] => denied (if coversPermission then NOT_IN_RESOURCE_SCOPE else DENY_NO_GRANT)
  | r :: rules' =>
    if covered permission r then
      if decide (in_scope resource r) then allowed r
      else matchRules permission resource true rules'
    else matchRules permission resource coversPermission rules'
  end.

Definition can (principal : Principal) (permission : string) (resource : option Uuid) : CanDecision :=
  if decide (permission ∉ PERMISSIONS) then denied PERMISSION_UNKNOWN
  else if decide (pp_status principal <> of_user user_active) then denied (STATUS_REASONS (pp_status principal))
  else matchRules permission resource false (pp_rules principal).

(** ** The audited boundary *)

Record AuthorizeArgs := MkAuthorizeArgs {
  az_user : option User;
  az_assignments : list RoleGrant;
  az_roles : list Role;
  az_session : option Session;
  az_orgId : Uuid;
}.

#[export] Instance AuthorizeArgs_eta : Eta AuthorizeArgs := fun a =>
  MkAuthorizeArgs (az_user a) (az_assignments a) (az_roles a) (az_session a) (az_orgId a).

Inductive AuthorizeResult :=
| access_granted (via : PermissionRule) (principal : Principal)
| access_denied (reason : DenyReason) (event : AuthEvent).

Definition SESSION_STATE_REASONS (state : SessionState) : DenyReason :=
  match state with
  | state_idleExpired => SESSION_IDLE_EXPIRED
  | state_absoluteExpired => SESSION_ABSOLUTE_EXPIRED
  | in_status session_revoked => SESSION_REVOKED
  | in_status session_ended => SESSION_ENDED
  | in_status session_expired => SESSION_ABSOLUTE_EXPIRED
  | in_status session_active => SESSION_ENDED
  end.

Definition denyAccess (args : AuthorizeArgs) (permission : string) (resource : option Uuid) (now : Date) (reason : DenyReason)
  (principal : option Principal) (clock : Clock) : AuthorizeResult :=
  access_denied reason (authEvent "auth.accessDenied" (az_orgId args)
    (AccessDeniedPayload (az_orgId args) (pp_principalId <$> principal) (from_option pp_kind kind_unknown principal) permission resource
      reason (toISOString now))
    clock).

(** The session gate reads the clock when the session's status is active. *)
Definition authorize (args : AuthorizeArgs) (permission : string) (resource : option Uuid) (clock : Clock) : AuthorizeResult :=
  let now := clock 0%nat in
  let state := from_option (fun s => sessionState s (clock_after 1 clock)) (in_status session_active) (az_session args) in
  let reads := match az_session args with Some s => if decide (se_status s = session_active) then 2%nat else 1%nat | None => 1%nat end in
  let deny reason principal := denyAccess args permission resource now reason principal (clock_after reads clock) in
  if decide (state <> in_status session_active) then deny (SESSION_STATE_REASONS state) None
  else match az_user args with
       | None => deny PRINCIPAL_UNKNOWN None
       | Some user =>
         let principal := userPrincipal user (az_assignments args) (az_roles args) in
         match can principal permission resource with
         | allowed via => access_granted via principal
         | denied reason => deny reason (Some principal)
         end
       end.

(** ** What the decision core decides *)

Lemma matchRules_allowed p res rules r : forall b, matchRules p res b rules = allowed r ->
  r ∈ rules /\ covered p r = true /\ in_scope res r.
Proof.
  induction rules as [|x rules IH]; intros b; cbn [matchRules]; [done|].
  destruct (covered p x) eqn:E; [destruct (decide (in_scope res x)) as [Hs|Hs]|].
  - intros H. injection H as <-. by split; [left|].
  - intros H. destruct (IH _ H) as (? & ? & ?). by split; [right|].
  - intros H. destruct (IH _ H) as (? & ? & ?). by split; [right|].
Qed.

Lemma matchRules_finds p res rules r : forall b, r ∈ rules -> covered p r = true -> in_scope res r ->
  exists r', matchRules p res b rules = allowed r'.
Proof.
  induction rules as [|x rules IH]; intros b Hr Hc Hs; [by apply elem_of_nil in Hr|]. cbn [matchRules].
  apply elem_of_cons in Hr as [<-|Hr].
  - rewrite Hc, decide_True by done. by exists r.
  - destruct (covered p x); [|by apply IH]. destruct (decide (in_scope res x)); [by exists x|by apply IH].
Qed.

Lemma matchRules_denied p res rules reason : forall b, matchRules p res b rules = denied reason ->
  (forall r, r ∈ rules -> covered p r = true -> ~ in_scope res r) /\
  (reason = NOT_IN_RESOURCE_SCOPE /\ (b = true \/ exists r, r ∈ rules /\ covered p r = true) \/
   reason = DENY_NO_GRANT /\ b = false /\ forall r, r ∈ rules -> covered p r = false).
Proof.
  induction rules as [|x rules IH]; intros b; cbn [matchRules].
  - intros H. split; [intros r Hr; by apply elem_of_nil in Hr|]. destruct b; injection H as <-; [left; by split; [|left]|right].
    repeat (split; [done|]). intros r Hr. by apply elem_of_nil in Hr.
  - destruct (covered p x) eqn:E; [destruct (decide (in_scope res x)) as [|Hs]; [done|]|]; intros H; destruct (IH _ H) as [H1 H2].
    + split; [intros r Hr; apply elem_of_cons in Hr as [->|Hr]; auto|]. left.
      destruct H2 as [[-> _]|(_ & Hb & _)]; [|done]. split; [done|]. right. exists x. by split; [left|].
    + split; [intros r Hr; apply elem_of_cons in Hr as [->|Hr]; [congruence|auto]|].
      destruct H2 as [[-> [Hb|(r & Hr & Hc)]]|(-> & Hb & Hn)]; [left; auto|left|right].
      * split; [done|]. right. exists r. by split; [right|].
      * repeat (split; [done|]). intros r Hr. apply elem_of_cons in Hr as [->|Hr]; auto.
Qed.

Lemma userPrincipal_rules u grants roles r : r ∈ pp_rules (userPrincipal u grants roles) <->
  exists g role, g ∈ grants /\ rg_userId g = us_userId u /\ rg_revokedAt g = None /\ roleById roles (rg_roleId g) = Some role /\
    pr_rule r ∈ ro_permissions role /\ r = MkRule (pr_rule r) (Some (ro_roleId role)) (Some (rg_grantId g)) (rg_resourceId g).
Proof.
  cbn [pp_rules userPrincipal]. rewrite list_elem_of_join. split.
  - intros (l & Hr & Hl). apply list_elem_of_fmap in Hl as (g & -> & Hg). unfold rulesOfGrant in Hr.
    destruct (decide _) as [|Hn]; [by apply elem_of_nil in Hr|].
    destruct (roleById roles (rg_roleId g)) as [role|] eqn:E; [|by apply elem_of_nil in Hr].
    apply list_elem_of_fmap in Hr as (rule & -> & Hrule). exists g, role. split; [done|].
    split; [apply dec_stable; intros H; apply Hn; by left|]. split; [|done].
    destruct (isActiveGrant g) eqn:Ea; [by apply bool_decide_eq_true in Ea|]. exfalso. apply Hn. by right.
  - intros (g & role & Hg & Hu & Ha & Hrole & Hrule & Hr). exists (rulesOfGrant roles u g).
    split; [|by apply list_elem_of_fmap; exists g]. unfold rulesOfGrant, isActiveGrant. rewrite Ha, Hrole.
    rewrite decide_False by (by intros [?|?]). rewrite Hr. apply list_elem_of_fmap. by exists (pr_rule r).
Qed.

(** The abstract rule of access: an active user, an unrevoked grant of theirs whose role
    has a rule that confers the permission, in the scope of the request. *)
Definition may (roles : list Role) (grants : list RoleGrant) (u : User) (p : string) (res : option Uuid) (via : PermissionRule) : Prop :=
  us_status u = user_active /\
  exists g role, g ∈ grants /\ rg_userId g = us_userId u /\ rg_revokedAt g = None /\
    role ∈ roles /\ ro_roleId role = rg_roleId g /\
    pr_rule via ∈ ro_permissions role /\ confers (pr_rule via) p /\
    via = MkRule (pr_rule via) (Some (ro_roleId role)) (Some (rg_grantId g)) (rg_resourceId g) /\
    (res = None \/ rg_resourceId g = None \/ rg_resourceId g = res).

Lemma covered_iff roles p r role : registry_wf roles -> role ∈ roles -> pr_rule r ∈ ro_permissions role -> p ∈ PERMISSIONS ->
  covered p r = true <-> confers (pr_rule r) p.
Proof.
  intros Hreg Hrole Hr Hp. assert (Hwf := rw_roles _ Hreg). rewrite Forall_forall in Hwf.
  destruct (Hwf _ Hrole) as (_ & _ & _ & Hval). rewrite Forall_forall in Hval.
  unfold covered. rewrite <- ruleCovers_wildcardCovers by auto. by apply ruleCovers_iff; auto.
Qed.

Lemma may_rule roles grants u p res via : registry_wf roles -> p ∈ PERMISSIONS -> us_status u = user_active ->
  may roles grants u p res via <->
  via ∈ pp_rules (userPrincipal u grants roles) /\ covered p via = true /\ in_scope res via.
Proof.
  intros Hreg Hp Hst. rewrite userPrincipal_rules. split.
  - intros (_ & g & role & Hg & Hu & Ha & Hrole & Hid & Hrule & Hc & Hvia & Hs). split; [|split].
    + exists g, role. repeat (split; [done|]). split; [|done]. rewrite <- Hid. apply roleById_unique; [apply Hreg|done].
    + by eapply covered_iff.
    + rewrite Hvia. exact Hs.
  - intros ((g & role & Hg & Hu & Ha & Hrole & Hrule & Hvia) & Hc & Hs). split; [done|]. exists g, role.
    apply roleById_Some in Hrole as [Hin Hid]. repeat (split; [done|]). split; [by eapply covered_iff in Hc|].
    split; [done|]. rewrite Hvia in Hs. exact Hs.
Qed.

Lemma can_allowed u grants roles p res : registry_wf roles ->
  (forall via, can (userPrincipal u grants roles) p res = allowed via -> may roles grants u p res via) /\
  (forall via, may roles grants u p res via -> exists via', can (userPrincipal u grants roles) p res = allowed via').
Proof.
  intros Hreg. unfold can. split.
  - intros via. destruct (decide (p ∉ PERMISSIONS)) as [|Hp]; [done|]. apply dec_stable in Hp.
    destruct (decide _) as [|Hst]; [done|]. apply dec_stable in Hst. injection Hst as Hst. intros H.
    apply may_rule; [done..|]. by apply (matchRules_allowed _ _ _ _ false).
  - intros via H. assert (Hm := H). destruct H as (Hst & g & role & _ & _ & _ & _ & _ & _ & [Hp _] & _).
    rewrite decide_False by (intros Hn; by apply Hn). rewrite decide_False by (cbn; rewrite Hst; intros Hn; by apply Hn).
    apply may_rule in Hm as (Hr & Hc & Hs); [|done..]. by eapply matchRules_finds.
Qed.

Lemma authorize_denied_event args p res clock reason e : authorize args p res clock = access_denied reason e ->
  name e = "auth.accessDenied" /\ aggregateId e = az_orgId args /\
  exists who kind, payload e = AccessDeniedPayload (az_orgId args) who kind p res reason (toISOString (clock 0%nat)).
Proof.
  unfold authorize. destruct (decide _).
  - intros H. injection H as <- <-. by repeat split; eexists _, _.
  - destruct (az_user args) as [u|]; [destruct (can _ p res)|]; intros H; [done|injection H as <- <-..];
      by repeat split; eexists _, _.
Qed.

(** C21: Access is allowed exactly when the session, if any, is usable, the user is known and
    the rule of access holds; the evidence of an allow is a grant that confers the
    permission; and every denial carries its audit event with the same reason. *)
Theorem access_decision_exact args p res clock : registry_wf (az_roles args) ->
  ((exists via principal, authorize args p res clock = access_granted via principal) <->
   exists u via, az_user args = Some u /\ (forall s, az_session args = Some s -> usable s (clock 1%nat)) /\
     may (az_roles args) (az_assignments args) u p res via) /\
  (forall via principal, authorize args p res clock = access_granted via principal ->
     exists u, az_user args = Some u /\ may (az_roles args) (az_assignments args) u p res via) /\
  (forall reason e, authorize args p res clock = access_denied reason e ->
     name e = "auth.accessDenied" /\ aggregateId e = az_orgId args /\
     exists who kind, payload e = AccessDeniedPayload (az_orgId args) who kind p res reason (toISOString (clock 0%nat))).
Proof.
  intros Hreg. split; [|split; [|by intros; eapply authorize_denied_event]].
  - unfold authorize. split.
    + intros (via & principal & H). destruct (decide _) as [|Hs]; [done|]. apply dec_stable in Hs.
      destruct (az_user args) as [u|]; [|done]. destruct (can _ p res) as [via'|] eqn:E; [|done].
      apply can_allowed in E; [|done]. exists u, via'. split; [done|]. split; [|done]. intros s Hsess. by rewrite Hsess in Hs.
    + intros (u & via & -> & Hs & Hm). destruct (decide _) as [Hn|_].
      { exfalso. apply Hn. destruct (az_session args) as [s|]; [|done]. by apply Hs. }
      apply can_allowed in Hm as [via' Hc]; [|done]. rewrite Hc. by eexists _, _.
  - unfold authorize. intros via principal H. destruct (decide _) as [|Hs]; [done|].
    destruct (az_user args) as [u|]; [|done]. destruct (can _ p res) as [via'|] eqn:E; [|done]. injection H as <- _.
    exists u. split; [done|]. by apply can_allowed.
Qed.

Definition alice : User := MkUser "alice" "org" "alice@example.com" "alice" "Alice" user_active 0 None None None None.
Definition alice_session : Session := MkSession "s1" "alice" "org" 1000 5000 session_active 0 0 None None.
Definition alice_args : AuthorizeArgs := MkAuthorizeArgs (Some alice) (sample_grants (Some "case-7"))
  [role_admin; role_reader; role_payments] (Some alice_session) "org".

Lemma access_decision_exact_witness : exists u, az_user alice_args = Some u /\
  may (az_roles alice_args) (az_assignments alice_args) u "payments:read" (Some "case-7")
    (MkRule "payments:read" (Some "r1") (Some "g0") (Some "case-7")).
Proof.
  destruct (access_decision_exact alice_args "payments:read" (Some "case-7") (fixed_clock 500) sample_registry_wf) as (_ & H & _).
  apply (H _ (userPrincipal alice (sample_grants (Some "case-7")) [role_admin; role_reader; role_payments])). vm_compute. reflexivity.
Defined.

(** The boundary compares neither the session's user nor any organisation: the session of
    one user authorizes another, whose roles belong to a third organisation. *)
Theorem sessions_and_orgs_are_not_compared : exists args via principal,
  authorize args "payments:read" None (fixed_clock 500) = access_granted via principal /\
  (exists s u, az_session args = Some s /\ az_user args = Some u /\ se_userId s <> us_userId u /\
    us_orgId u <> az_orgId args /\ Forall (fun r => ro_orgId r <> us_orgId u) (az_roles args)).
Proof.
  exists (MkAuthorizeArgs (Some (alice <| us_orgId := "other" |>)) (sample_grants None) [role_admin] (Some (alice_session <| se_userId := "mallory" |>)) "third").
  do 2 eexists. split; [vm_compute; done|]. do 2 eexists. repeat (split; [done|]). by repeat constructor.
Qed.

(** ** The key store *)

Definition saveKey (k : ApiKey) (keys : list ApiKey) : list ApiKey := upsert ak_keyId k keys.

Inductive key_step (codec : SecretCodec) (keys : list ApiKey) : list ApiKey -> Prop :=
| key_was_issued args clock k e : issueKey codec keys args clock = Ok (k, e) -> key_step codec keys (saveKey k keys)
| key_was_revoked args clock k e : revokeKey keys args clock = Ok (k, e) -> key_step codec keys (saveKey k keys)
| key_was_used args clock k : authenticateKey codec keys args clock = authenticated k -> key_step codec keys (saveKey k keys).

Record keys_wf (keys : list ApiKey) : Prop := {
  kw_ids : NoDup (ak_keyId <$> keys);
  kw_prefixes : NoDup (ak_prefix <$> keys);
  kw_scopes : Forall (fun k => ak_scopes k <> [] /\ Forall (fun p => p ∈ PERMISSIONS) (ak_scopes k)) keys;
}.

Lemma traverse_permissions xs ps : traverse assertPermission xs = Ok ps -> ps = xs /\ Forall (fun p => p ∈ PERMISSIONS) xs.
Proof.
  revert ps. induction xs as [|x xs IH]; intros ps; cbn [traverse]; [intros H; apply (inj Ok) in H as <-; by split|].
  intros H. apply bind_Ok in H as (y & Hy & H). apply bind_Ok in H as (ys & Hys & H). apply (inj Ok) in H as <-.
  apply assertPermission_Ok in Hy as [-> Hx]. apply IH in Hys as [-> Hall]. split; [done|by constructor].
Qed.

Lemma issueKey_Ok codec keys args clock k e : issueKey codec keys args clock = Ok (k, e) ->
  ak_keyId k ∉ ak_keyId <$> keys /\ ak_prefix k ∉ ak_prefix <$> keys /\ ak_prefix k = keyPrefix (ik_secret args) /\
  ak_secretHash k = codec_hash codec (ik_secret args) /\ ak_status k = key_active /\
  (KEY_SECRET_MIN_LENGTH <= length (explode (ik_secret args)))%nat /\
  (forall t, ak_expiresAt k = Some t -> clock 0%nat < t) /\
  ak_scopes k <> [] /\ Forall (fun p => p ∈ PERMISSIONS) (ak_scopes k) /\ (forall p, p ∈ ak_scopes k <-> p ∈ ik_scopes args).
Proof.
  unfold issueKey. intros H. apply guard_Ok in H as [Hid H]. apply bind_Ok in H as (nm & _ & H). apply bind_Ok in H as (by_ & _ & H).
  apply guard_Ok in H as [Hne H]. apply bind_Ok in H as (scopes & Hsc & H). apply traverse_permissions in Hsc as [-> Hall].
  apply guard_Ok in H as [Hlen H]. apply guard_Ok in H as [Hpre H]. apply bind_Ok in H as (expiry & Hexp & H).
  apply (inj Ok) in H. injection H as <- _. cbn. do 2 (split; [done|]). do 3 (split; [done|]). split; [lia|]. split; [|split; [|split]].
  - intros t ->. unfold keyExpiry in Hexp. destruct (ik_expiresAt args) as [[t'|]|]; [|done|done].
    apply guard_Ok in Hexp as [Ht Hexp]. apply (inj Ok) in Hexp. injection Hexp as ->. lia.
  - destruct (ik_scopes args) as [|x xs] eqn:E; [done|]. intros Hnil.
    assert (Hx : x ∈ sortedSet (x :: xs)) by (apply sortedSet_elem; left). rewrite Hnil in Hx. by apply elem_of_nil in Hx.
  - rewrite Forall_forall in Hall |- *. intros x Hx. apply Hall. by apply sortedSet_elem.
  - intros x. apply sortedSet_elem.
Qed.

(** What revocation and use leave alone. *)
Definition key_fixed (k k' : ApiKey) : Prop :=
  ak_keyId k' = ak_keyId k /\ ak_prefix k' = ak_prefix k /\ ak_secretHash k' = ak_secretHash k /\ ak_scopes k' = ak_scopes k /\
  (ak_status k = key_revoked -> ak_status k' = key_revoked).

Lemma revokeKey_Ok keys args clock k' e : revokeKey keys args clock = Ok (k', e) -> exists k,
  k ∈ keys /\ key_fixed k k' /\ ak_keyId k = rk_keyId args /\ ak_status k' = key_revoked /\ (e = None -> k' = k).
Proof.
  unfold revokeKey. intros H. apply bind_Ok in H as (r & _ & H). apply bind_Ok in H as (b & _ & H).
  destruct (List.find _ keys) as [k|] eqn:E; [|done]. apply find_some in E as [Hin Hid]. apply list_elem_of_In in Hin.
  apply bool_decide_eq_true in Hid. exists k. split; [done|].
  destruct (decide (ak_status k = key_revoked)) as [Hr|Hr]; apply (inj Ok) in H; injection H as <- <-; by repeat split.
Qed.

Lemma authenticateKey_Ok codec keys args clock k' : authenticateKey codec keys args clock = authenticated k' -> exists k,
  k ∈ keys /\ key_fixed k k' /\ ak_prefix k = keyPrefix (au_secret args) /\
  (KEY_PREFIX_LENGTH <= length (explode (au_secret args)))%nat /\
  codec_verify codec (au_secret args) (ak_secretHash k) = true /\ ak_status k = key_active /\ ak_status k' = key_active /\
  keyExpired k (clock 0%nat) = false /\ ownerInactive (au_ownerStatus args) = false.
Proof.
  unfold authenticateKey. destruct (decide _) as [|Hlen]; [done|].
  destruct (List.filter _ keys) as [|first others] eqn:Ef; [done|].
  destruct (List.find _ (first :: others)) as [k|] eqn:E; [|done]. apply find_some in E as [Hin Hv].
  rewrite <- Ef in Hin. apply filter_In in Hin as [Hin Hp]. apply list_elem_of_In in Hin. apply bool_decide_eq_true in Hp.
  destruct (decide (ak_status k = key_revoked)) as [|Hs]; [done|]. destruct (keyExpired k _) eqn:Ee; [done|].
  destruct (ownerInactive _) eqn:Eo; [done|]. intros H. injection H as <-. exists k.
  assert (ak_status k = key_active) as Hact by (destruct (ak_status k); done).
  split; [done|]. split; [by repeat split|]. split; [done|]. split; [lia|]. by repeat (split; [done|]).
Qed.

(** A step adds a fresh key or replaces one by a version of itself. *)
Lemma key_step_cases codec keys keys' : keys_wf keys -> key_step codec keys keys' ->
  (exists k, keys' = keys ++ [k] /\ ak_keyId k ∉ ak_keyId <$> keys /\ ak_prefix k ∉ ak_prefix <$> keys /\
     ak_scopes k <> [] /\ Forall (fun p => p ∈ PERMISSIONS) (ak_scopes k)) \/
  (exists l1 k k' l2, keys = l1 ++ k :: l2 /\ keys' = l1 ++ k' :: l2 /\ key_fixed k k').
Proof.
  intros [Hids _ _] [args clock k e H|args clock k' e H|args clock k' H]; unfold saveKey.
  - apply issueKey_Ok in H as (Hid & Hpre & _ & _ & _ & _ & _ & Hne & Hall & _). left. exists k. by rewrite upsert_fresh by done.
  - apply revokeKey_Ok in H as (k & Hin & Hf & _). right. assert (Hid := Hf). destruct Hid as [Hid _].
    destruct (upsert_replace ak_keyId k k' keys) as (l1 & l2 & Hl & Hu); [done..|]. by exists l1, k, k', l2.
  - apply authenticateKey_Ok in H as (k & Hin & Hf & _). right. assert (Hid := Hf). destruct Hid as [Hid _].
    destruct (upsert_replace ak_keyId k k' keys) as (l1 & l2 & Hl & Hu); [done..|]. by exists l1, k, k', l2.
Qed.

Lemma key_step_wf codec keys keys' : keys_wf keys -> key_step codec keys keys' -> keys_wf keys'.
Proof.
  intros Hwf Hstep. destruct (key_step_cases _ _ _ Hwf Hstep) as [(k & -> & Hid & Hpre & Hne & Hall)|(l1 & k & k' & l2 & -> & -> & Hf)];
    destruct Hwf as [H1 H2 H3].
  - split; rewrite ?fmap_app; [by apply NoDup_snoc_2..|by apply Forall_snoc_2].
  - destruct Hf as (Hid & Hpre & _ & Hsc & _). rewrite fmap_app in H1. rewrite fmap_app in H2. rewrite Forall_app, Forall_cons in H3.
    cbn [fmap list_fmap] in H1, H2. split; rewrite ?fmap_app, ?Forall_app, ?Forall_cons; cbn [fmap list_fmap]; rewrite ?Hid, ?Hpre, ?Hsc; done.
Qed.

Lemma prefix_unique keys k k' : keys_wf keys -> k ∈ keys -> k' ∈ keys -> ak_prefix k = ak_prefix k' -> k = k'.
Proof. intros [_ H _] Hk Hk' Heq. by apply (NoDup_fmap_elem ak_prefix keys). Qed.

(** The key a step leaves in the place of a given one. *)
Lemma key_step_keeps codec keys keys' k : keys_wf keys -> key_step codec keys keys' -> k ∈ keys ->
  exists k', k' ∈ keys' /\ key_fixed k k'.
Proof.
  intros Hwf Hstep Hk. destruct (key_step_cases _ _ _ Hwf Hstep) as [(n & -> & _)|(l1 & k0 & k1 & l2 & -> & -> & Hf)].
  - exists k. split; [set_solver|by repeat split].
  - apply elem_of_app in Hk as [Hk|Hk]; [exists k; split; [set_solver|by repeat split]|].
    apply elem_of_cons in Hk as [->|Hk]; [exists k1|exists k]; (split; [set_solver|]); [done|by repeat split].
Qed.

Lemma key_fixed_trans k1 k2 k3 : key_fixed k1 k2 -> key_fixed k2 k3 -> key_fixed k1 k3.
Proof.
  intros (A1 & A2 & A3 & A4 & A5) (B1 & B2 & B3 & B4 & B5). repeat (split; [congruence|]). auto.
Qed.

Lemma key_rtc_keeps codec keys keys' : rtc (key_step codec) keys keys' -> keys_wf keys ->
  keys_wf keys' /\ forall k, k ∈ keys -> exists k', k' ∈ keys' /\ key_fixed k k'.
Proof.
  induction 1 as [keys|keys keys1 keys' Hstep _ IH]; intros Hwf; [split; [done|]; intros k Hk; exists k; by repeat split|].
  destruct IH as [Hwf' IH]; [by eapply key_step_wf|]. split; [done|]. intros k Hk.
  destruct (key_step_keeps _ _ _ _ Hwf Hstep Hk) as (k1 & Hk1 & Hf1). destruct (IH _ Hk1) as (k2 & Hk2 & Hf2).
  exists k2. split; [done|]. by eapply key_fixed_trans.
Qed.

Lemma key_authentication_iff codec keys args clock : keys_wf keys ->
  (exists k', authenticateKey codec keys args clock = authenticated k') <->
  exists k, k ∈ keys /\ ak_prefix k = keyPrefix (au_secret args) /\ (KEY_PREFIX_LENGTH <= length (explode (au_secret args)))%nat /\
    codec_verify codec (au_secret args) (ak_secretHash k) = true /\ ak_status k = key_active /\
    keyExpired k (clock 0%nat) = false /\ ownerInactive (au_ownerStatus args) = false.
Proof.
  intros Hwf. split.
  - intros [k' H]. apply authenticateKey_Ok in H as (k & H1 & _ & H2 & H3 & H4 & H5 & _ & H6 & H7). by exists k.
  - intros (k & Hin & Hp & Hlen & Hv & Hst & He & Ho). unfold authenticateKey. rewrite decide_False by lia.
    assert (Hcand : forall x, x ∈ List.filter (fun k => bool_decide (ak_prefix k = keyPrefix (au_secret args))) keys <-> x = k).
    { intros x. rewrite list_elem_of_In, filter_In, <- list_elem_of_In, bool_decide_eq_true. split; [|by intros ->].
      intros [Hx Hxp]. apply (prefix_unique keys); [done..|congruence]. }
    destruct (List.filter _ keys) as [|first others]; [exfalso; apply (not_elem_of_nil k); by apply Hcand|].
    assert (first = k) as -> by (apply Hcand; left). cbn [List.find]. rewrite Hv, decide_False by congruence. rewrite He, Ho. by eexists.
Qed.

(** A well-formed store authenticates a secret exactly when the key of its prefix accepts
    it, is unrevoked and unexpired, and its owner is not known to be inactive; and
    whatever happens to the store afterwards, a secret with the prefix of a
    revoked key is denied for ever. *)
Theorem key_authentication_exact codec keys args clock : rtc (key_step codec) [] keys ->
  ((exists k', authenticateKey codec keys args clock = authenticated k') <->
   exists k, k ∈ keys /\ ak_prefix k = keyPrefix (au_secret args) /\ (KEY_PREFIX_LENGTH <= length (explode (au_secret args)))%nat /\
     codec_verify codec (au_secret args) (ak_secretHash k) = true /\ ak_status k = key_active /\
     keyExpired k (clock 0%nat) = false /\ ownerInactive (au_ownerStatus args) = false) /\
  (forall k, k ∈ keys -> ak_status k = key_revoked -> ak_prefix k = keyPrefix (au_secret args) ->
   forall keys' clock', rtc (key_step codec) keys keys' -> exists reason e, authenticateKey codec keys' args clock' = key_denied reason e).
Proof.
  intros Hreach. assert (Hwf : keys_wf keys) by (by apply (key_rtc_keeps codec [] keys Hreach); repeat constructor). split.
  - by apply key_authentication_iff.
  - intros k Hin Hrev Hp keys' clock' Hr. destruct (key_rtc_keeps _ _ _ Hr Hwf) as [Hwf' Hkeep].
    destruct (Hkeep k Hin) as (k1 & Hk1 & (_ & Hpre & _ & _ & Hst)).
    destruct (authenticateKey codec keys' args clock') as [k'|reason e] eqn:E; [|by exists reason, e].
    apply authenticateKey_Ok in E as (k2 & Hk2 & _ & Hp2 & _ & _ & Hact & _).
    assert (k2 = k1) as -> by (apply (prefix_unique keys'); [done..|congruence]). by rewrite Hst in Hact.
Qed.

(** Issuing a key and presenting its secret authenticates it, until it expires. *)
Theorem issued_key_authenticates (codec : SecretCodec) `{!CodecLaws codec} keys args clock k e clock' org :
  rtc (key_step codec) [] keys -> issueKey codec keys args clock = Ok (k, e) -> keyExpired k (clock' 0%nat) = false ->
  exists k', authenticateKey codec (saveKey k keys) (MkAuthenticateKeyArgs org (ik_secret args) (Some user_active)) clock' = authenticated k' /\
    ak_keyId k' = ik_keyId args.
Proof.
  intros Hreach H He. assert (Hi := H). apply issueKey_Ok in Hi as (Hid & _ & Hp & Hh & Hst & Hlen & _).
  assert (ak_keyId k = ik_keyId args) as Hkid.
  { unfold issueKey in H. apply guard_Ok in H as [_ H]. do 2 (apply bind_Ok in H as (? & _ & H)). apply guard_Ok in H as [_ H].
    apply bind_Ok in H as (? & _ & H). do 2 apply guard_Ok in H as [_ H]. apply bind_Ok in H as (? & _ & H).
    apply (inj Ok) in H. by injection H as <- _. }
  assert (Hreach' : rtc (key_step codec) [] (saveKey k keys)) by (eapply rtc_r; [done|]; by eapply key_was_issued).
  assert (Hwf : keys_wf (saveKey k keys)) by (by apply (key_rtc_keeps codec [] _ Hreach'); repeat constructor).
  assert (Hin : k ∈ saveKey k keys) by (unfold saveKey; rewrite upsert_fresh by done; set_solver).
  destruct (key_authentication_iff codec _ (MkAuthenticateKeyArgs org (ik_secret args) (Some user_active)) clock' Hwf) as [_ Hex].
  destruct Hex as [k' Hk'].
  { exists k. cbn. split; [done|]. split; [done|]. split; [unfold KEY_SECRET_MIN_LENGTH, KEY_PREFIX_LENGTH in *; lia|].
    split; [rewrite Hh; apply codec_accepts|done]. }
  exists k'. split; [done|]. apply authenticateKey_Ok in Hk' as (k2 & Hk2 & (Hid2 & _) & Hp2 & _). cbn [au_secret] in Hp2.
  assert (k2 = k) as -> by (apply (prefix_unique (saveKey k keys)); [done..|congruence]). congruence.
Qed.

(** ** Suspension *)

Lemma inactive_denied args p res clock u : az_user args = Some u -> us_status u <> user_active ->
  exists reason e, authorize args p res clock = access_denied reason e.
Proof.
  intros Hu Hst. unfold authorize. destruct (decide _); [by eexists _, _|]. rewrite Hu.
  destruct (can _ p res) as [via|reason] eqn:E; [|by eexists _, _]. exfalso. unfold can in E.
  destruct (decide (p ∉ PERMISSIONS)); [done|]. rewrite decide_True in E; [done|]. cbn. congruence.
Qed.

(** C23: Suspending a user cuts every way in: no request with the suspended record is
    authorized, no key of theirs authenticates once their status is consulted, and after the
    cascade over the session store none of their sessions is usable or can become so, the
    other users' sessions being as they were. *)
Theorem suspension_cuts_all_access u why actor clock0 u' e : suspendUser u why actor clock0 = Ok (u', e) ->
  (forall args p res clock, az_user args = Some u' -> exists reason e', authorize args p res clock = access_denied reason e') /\
  (forall codec keys args clock, au_ownerStatus args = Some (us_status u') ->
    exists reason e', authenticateKey codec keys args clock = key_denied reason e') /\
  (forall sessions reason clock all revoked t, monotone clock -> (forall i, clock i <= t) ->
    revokeSessionsForUser sessions (us_userId u') reason clock = Ok (all, revoked) ->
    Forall2 (fun s s' => se_userId s <> us_userId u' -> s' = s) sessions all /\
    forall s t1 s1, s ∈ all -> se_userId s = us_userId u' -> rtc session_step (t, s) (t1, s1) -> ~ usable s1 t1).
Proof.
  intros H. assert (us_status u' = user_suspended) as Hst.
  { unfold suspendUser in H. apply guard_Ok in H as [_ H]. do 2 (apply bind_Ok in H as (? & _ & H)).
    apply (inj Ok) in H. by injection H as <- _. }
  split; [intros args p res clock Hu; apply (inactive_denied _ _ _ _ _ Hu); congruence|]. split.
  - intros codec keys args clock Ho. destruct (authenticateKey codec keys args clock) as [k|reason e'] eqn:E; [|by eexists _, _].
    apply authenticateKey_Ok in E as (k0 & _ & _ & _ & _ & _ & _ & _ & _ & Hown). rewrite Ho, Hst in Hown. done.
  - intros sessions reason clock all revoked t Hm Ht Hr. unfold revokeSessionsForUser in Hr.
    apply bind_Ok in Hr as (r & _ & Hr). apply (inj Ok) in Hr.
    destruct (revokeLoop_spec (us_userId u') r sessions t (clock_after 1 clock)) as [Hall _];
      [by apply monotone_after|intros i; apply Ht|]. rewrite Hr in Hall. cbn [fst] in Hall. split.
    + eapply Forall2_impl; [exact Hall|]. intros s s' [[-> _]|(Hu & _)]; [done|]. done.
    + intros s t1 s1 Hs Hu Hrtc. apply list_elem_of_lookup in Hs as [i Hs].
      destruct (Forall2_lookup_r _ _ _ _ _ Hall Hs) as (s0 & _ & Hc). apply (dead_rtc _ _ Hrtc). cbn [fst snd].
      destruct Hc as [[-> Hn]|(_ & Hrev & _)]; [by apply Hn|]. intros Hus. apply usable_iff in Hus as [Hus _]. congruence.
Qed.

Lemma suspension_cuts_all_access_witness :
  exists reason e, authorize (alice_args <| az_user := Some (alice <| us_status := user_suspended |>
    <| us_suspendedAt := Some 600 |> <| us_suspendedReason := Some "audit" |>) |>) "payments:read" None (fixed_clock 700) = access_denied reason e.
Proof.
  eapply (suspension_cuts_all_access alice " audit " "root" (fixed_clock 600)); [vm_compute; reflexivity|reflexivity].
Defined.

(** A key never does more than its scopes say: it is allowed exactly its own scopes while
    it is active, for every resource. *)
Theorem key_principal_exact codec keys k p res : rtc (key_step codec) [] keys -> k ∈ keys ->
  (exists via, can (apiKeyPrincipal k) p res = allowed via) <-> ak_status k = key_active /\ p ∈ ak_scopes k.
Proof.
  intros Hreach Hk. assert (Hwf : keys_wf keys) by (by apply (key_rtc_keeps codec [] keys Hreach); repeat constructor).
  destruct Hwf as [_ _ Hsc]. rewrite Forall_forall in Hsc. destruct (Hsc k Hk) as [_ Hall]. rewrite Forall_forall in Hall. split.
  - intros [via H]. unfold can in H. destruct (decide (p ∉ PERMISSIONS)) as [|Hp]; [done|]. apply dec_stable in Hp.
    destruct (decide _) as [|Hst]; [done|]. apply dec_stable in Hst. cbn in Hst. split; [by destruct (ak_status k)|].
    apply matchRules_allowed in H as (Hr & Hc & _). cbn [pp_rules apiKeyPrincipal] in Hr.
    apply list_elem_of_fmap in Hr as (scope & -> & Hscope). specialize (Hall scope Hscope).
    unfold covered in Hc. cbn [pr_rule] in Hc. rewrite <- ruleCovers_wildcardCovers in Hc by (done || by right).
    unfold ruleCovers in Hc. apply orb_true_iff in Hc as [Hc|Hc]; [apply bool_decide_eq_true in Hc as <-; done|].
    apply andb_true_iff in Hc as [Hc _]. assert (Hw := assertPermission_Ok scope scope). destruct Hw as [_ Hw].
    specialize (Hw (conj eq_refl Hall)). unfold assertPermission in Hw. by rewrite Hc in Hw.
  - intros [Hst Hin]. specialize (Hall p Hin). unfold can. rewrite decide_False by (intros Hn; by apply Hn).
    rewrite decide_False by (cbn; rewrite Hst; intros Hn; by apply Hn).
    apply (matchRules_finds p res _ (MkRule p None None None)); [|unfold covered; by rewrite bool_decide_eq_true_2|right; by left].
    apply list_elem_of_fmap. by exists p.
Qed.

(** *** Concrete runs *)

(** A stand-in for the port, whose hash is the secret with a mark. *)
Definition marking_codec : SecretCodec := MkCodec (fun s => "h:" +:+ s) (fun s h => bool_decide (h = "h:" +:+ s)).
#[export] Instance marking_codec_laws : CodecLaws marking_codec.
Proof. intros s. cbn. by apply bool_decide_eq_true_2. Qed.

Definition sample_key_args : IssueKeyArgs :=
  MkIssueKeyArgs "k1" "org" "ci" "alice" "0123456789abcdef" ["payments:read"; "ledger:read"; "payments:read"] (Some (Some 1000)).
Definition sample_key : ApiKey :=
  MkApiKey "k1" "org" "ci" "alice" "01234567" "h:0123456789abcdef" ["ledger:read"; "payments:read"] (Some 1000) key_active 0 None None None None.

Lemma sample_key_issued : exists e, issueKey marking_codec [] sample_key_args (fixed_clock 0) = Ok (sample_key, e).
Proof. eexists. vm_compute. reflexivity. Qed.

Lemma key_authentication_exact_witness :
  (exists k', authenticateKey marking_codec [sample_key] (MkAuthenticateKeyArgs "org" "0123456789abcdef" None) (fixed_clock 999) = authenticated k').
Proof.
  assert (Hreach : rtc (key_step marking_codec) [] [sample_key]).
  { destruct sample_key_issued as [e He]. apply rtc_once. apply (key_was_issued marking_codec [] _ _ _ _ He). }
  apply (key_authentication_exact marking_codec [sample_key] (MkAuthenticateKeyArgs "org" "0123456789abcdef" None) (fixed_clock 999) Hreach).
  exists sample_key. split; [by left|]. split; [by vm_compute|]. split; [vm_compute; lia|]. split; [by vm_compute|]. done.
Defined.

Lemma issued_key_authenticates_witness : exists k',
  authenticateKey marking_codec [sample_key] (MkAuthenticateKeyArgs "org" "0123456789abcdef" (Some user_active)) (fixed_clock 999) = authenticated k' /\
  ak_keyId k' = "k1".
Proof.
  destruct sample_key_issued as [e He].
  apply (issued_key_authenticates marking_codec [] sample_key_args (fixed_clock 0) sample_key e (fixed_clock 999) "org"); [constructor|done|].
  vm_compute. reflexivity.
Defined.

Lemma key_principal_exact_witness : exists via, can (apiKeyPrincipal sample_key) "ledger:read" (Some "case-7") = allowed via.
Proof.
  destruct sample_key_issued as [e He].
  apply (key_principal_exact marking_codec [sample_key] sample_key "ledger:read" (Some "case-7"));
    [apply rtc_once; apply (key_was_issued marking_codec [] _ _ _ _ He)|by left|].
  split; [done|]. left.
Defined.
