(* ===== verification/CommsConversation.v ===== *)
(** * Conversations and the consent boundary

    src/domain/communications/conversation.ts, guard.ts and events.ts: one thread per
    organisation, customer and channel, its messages, its trail of consent facts, and the
    boundary every automated send passes.

    Texts of refusals are not modelled.  The clock's readings are valid dates. *)

From stdpp Require Import prelude strings list relations.
From Stdlib Require Import ZArith Lia Ascii.
From S2P Require Import Prelude JsNumber JsString JsDate IsoDate Events.
Local Open Scope string_scope.
Local Open Scope list_scope.
Local Open Scope Z_scope.
Local Open Scope js_scope.

(** ** Channels, messages, conversations *)

Inductive CommsChannel := comms_whatsapp | comms_sms | comms_email.
#[export] Instance CommsChannel_eq_dec : EqDecision CommsChannel.
Proof. solve_decision. Defined.

Definition assertCommsChannel (channel : string) : result CommsChannel :=
  if decide (channel = "whatsapp") then Ok comms_whatsapp
  else if decide (channel = "sms") then Ok comms_sms
  else if decide (channel = "email") then Ok comms_email
  else Err (DomainError "COMMS_CHANNEL_INVALID").

Inductive MessageDirection := direction_in | direction_out.
#[export] Instance MessageDirection_eq_dec : EqDecision MessageDirection.
Proof. solve_decision. Defined.

Inductive MessageStatus := msg_queued | msg_sent | msg_delivered | msg_failed | msg_read | msg_deadLettered.
#[export] Instance MessageStatus_eq_dec : EqDecision MessageStatus.
Proof. solve_decision. Defined.

Inductive DeliveryStatus := attempt_queued | attempt_sent | attempt_delivered | attempt_failed | attempt_read.
#[export] Instance DeliveryStatus_eq_dec : EqDecision DeliveryStatus.
Proof. solve_decision. Defined.

Record DeliveryAttempt := MkAttempt {
  da_attemptNo : Z;
  da_providerRef : string;
  da_status : DeliveryStatus;
  da_failureReason : option string;
  da_attemptedAt : string;
}.
#[export] Instance DeliveryAttempt_eta : Eta DeliveryAttempt := fun a =>
  MkAttempt (da_attemptNo a) (da_providerRef a) (da_status a) (da_failureReason a) (da_attemptedAt a).

Record TemplateRef := MkTemplateRef { tr_templateId : Uuid; tr_version : Z }.

Record MessageLinkage := MkLinkage {
  ln_customerId : Uuid;
  ln_caseId : option Uuid;
  ln_promiseId : option Uuid;
  ln_invoiceId : option Uuid;
}.

Record Message := MkMessage {
  mg_id : Uuid;
  mg_conversationId : Uuid;
  mg_direction : MessageDirection;
  mg_bodyRef : string;
  mg_templateRef : option TemplateRef;
  mg_linkage : MessageLinkage;
  mg_consentRef : option Uuid;
  mg_sentAt : option Date;
  mg_status : MessageStatus;
  mg_attempts : list DeliveryAttempt;
}.
#[export] Instance Message_eta : Eta Message := fun m =>
  MkMessage (mg_id m) (mg_conversationId m) (mg_direction m) (mg_bodyRef m) (mg_templateRef m) (mg_linkage m) (mg_consentRef m)
    (mg_sentAt m) (mg_status m) (mg_attempts m).

Inductive FactType := consentGranted | consentRevoked.
#[export] Instance FactType_eq_dec : EqDecision FactType.
Proof. solve_decision. Defined.

Record ConversationFact := MkFact { cf_type : FactType; cf_consentRef : Uuid; cf_at : string }.

Record Conversation := MkConversation {
  cv_id : Uuid;
  cv_orgId : Uuid;
  cv_customerId : Uuid;
  cv_channel : CommsChannel;
  cv_startedAt : Date;
  cv_messages : list Message;
  cv_facts : list ConversationFact;
}.
#[export] Instance Conversation_eta : Eta Conversation := fun c =>
  MkConversation (cv_id c) (cv_orgId c) (cv_customerId c) (cv_channel c) (cv_startedAt c) (cv_messages c) (cv_facts c).

(** ** Events *)

Inductive BlockedReason := NO_CONSENT_REF | CONSENT_REVOKED | CONSENT_NOT_GRANTED.

Inductive CommsPayload :=
| ConversationStartedPayload (conversationId orgId customerId : Uuid) (channel : CommsChannel)
| MessageSentPayload (conversationId messageId : Uuid) (channel : CommsChannel) (attemptNo : Z) (providerRef : string)
    (template : option TemplateRef)
| MessageDeliveredPayload (conversationId messageId : Uuid) (attemptNo : Z) (providerRef : string)
| MessageReadPayload (conversationId messageId : Uuid)
| MessageFailedPayload (conversationId messageId : Uuid) (attemptNo : Z) (failureReason : string) (willRetry : bool) (retryAt : option string)
| MessageDeadLetteredPayload (conversationId messageId : Uuid) (attempts : Z) (failureReason : string)
| SendBlockedNoConsentPayload (conversationId : Uuid) (channel : CommsChannel) (consentRef : option Uuid) (reason : BlockedReason)
| InboundReceivedPayload (conversationId messageId : Uuid) (channel : CommsChannel)
| UnmatchedInboundPayload (orgId customerId : Uuid) (channel : CommsChannel) (bodyRef : string).

Notation CommsEvent := (DomainEvent CommsPayload).

(** [emit] with the aggregate each constructor of the lane uses. *)
Definition commsEvent (p : CommsPayload) (clock : Clock) : CommsEvent :=
  match p with
  | ConversationStartedPayload c _ _ _ => domainEvent "comms.conversationStarted" c p clock
  | MessageSentPayload _ m _ _ _ _ => domainEvent "comms.messageSent" m p clock
  | MessageDeliveredPayload _ m _ _ => domainEvent "comms.messageDelivered" m p clock
  | MessageReadPayload _ m => domainEvent "comms.messageRead" m p clock
  | MessageFailedPayload _ m _ _ _ _ => domainEvent "comms.messageFailed" m p clock
  | MessageDeadLetteredPayload _ m _ _ => domainEvent "comms.messageDeadLettered" m p clock
  | SendBlockedNoConsentPayload c _ _ _ => domainEvent "comms.sendBlockedNoConsent" c p clock
  | InboundReceivedPayload _ m _ => domainEvent "comms.inboundReceived" m p clock
  | UnmatchedInboundPayload o _ _ _ => domainEvent "comms.unmatchedInbound" o p clock
  end.

(** ** The lifecycle of a thread *)

Definition thread (c : Conversation) : Uuid * Uuid * CommsChannel := (cv_orgId c, cv_customerId c, cv_channel c).

Record StartConversationArgs := MkStartArgs { sc_id : Uuid; sc_orgId : Uuid; sc_customerId : Uuid; sc_channel : string }.

Definition startConversation (args : StartConversationArgs) (existing : list Conversation) (clock : Clock)
  : result (Conversation * CommsEvent) :=
  channel ← assertCommsChannel (sc_channel args);
  refuse ((sc_orgId args, sc_customerId args, channel) ∈ thread <$> existing) with "COMMS_CONVERSATION_EXISTS" ;;
  let c := MkConversation (sc_id args) (sc_orgId args) (sc_customerId args) channel (clock 0%nat) [] [] in
  Ok (c, commsEvent (ConversationStartedPayload (cv_id c) (cv_orgId c) (cv_customerId c) channel) (clock_after 1 clock)).

Record OutboundMessageInput := MkOutboundInput {
  om_id : Uuid;
  om_bodyRef : string;
  om_templateRef : option TemplateRef;
  om_linkage : MessageLinkage;
  om_consentRef : option Uuid;
}.

Record InboundMessageInput := MkInboundInput { im_id : Uuid; im_bodyRef : string; im_linkage : MessageLinkage }.

Definition assertMessageInput (c : Conversation) (id : Uuid) (bodyRef : string) : result unit :=
  refuse (trim bodyRef = "") with "COMMS_BODY_REF_REQUIRED" ;;
  refuse (id ∈ mg_id <$> cv_messages c) with "COMMS_MESSAGE_ID_TAKEN" ;;
  Ok tt.

Definition assertLinkageCustomer (c : Conversation) (linkage : MessageLinkage) : result unit :=
  refuse (ln_customerId linkage <> cv_customerId c) with "COMMS_MESSAGE_CUSTOMER_MISMATCH" ;; Ok tt.

Definition queueOutboundMessage (c : Conversation) (input : OutboundMessageInput) : result (Conversation * Message) :=
  _ ← assertMessageInput c (om_id input) (om_bodyRef input);
  let message := MkMessage (om_id input) (cv_id c) direction_out (om_bodyRef input) (om_templateRef input) (om_linkage input)
    (om_consentRef input) None msg_queued [] in
  Ok (c <| cv_messages := cv_messages c ++ [message] |>, message).

Definition appendInboundMessage (c : Conversation) (input : InboundMessageInput) (clock : Clock)
  : result (Conversation * Message * CommsEvent) :=
  _ ← assertMessageInput c (im_id input) (im_bodyRef input);
  _ ← assertLinkageCustomer c (im_linkage input);
  let message := MkMessage (im_id input) (cv_id c) direction_in (im_bodyRef input) None (im_linkage input) None
    (Some (clock 0%nat)) msg_delivered [] in
  Ok (c <| cv_messages := cv_messages c ++ [message] |>, message,
      commsEvent (InboundReceivedPayload (cv_id c) (mg_id message) (cv_channel c)) (clock_after 1 clock)).

(** Replace the first message of the id. *)
Fixpoint replaceMessage (m : Message) (messages : list Message) : option (list Message) :=
  match messages with
  | [] => None
  | x :: rest => if decide (mg_id x = mg_id m) then Some (m :: rest) else (cons x) <$> replaceMessage m rest
  end.

Definition withMessage (c : Conversation) (m : Message) : result Conversation :=
  match replaceMessage m (cv_messages c) with
  | None => Err (DomainError "COMMS_MESSAGE_NOT_IN_CONVERSATION")
  | Some messages => Ok (c <| cv_messages := messages |>)
  end.

(** ** The trail of consent facts *)

(** [fact.at >= best.at] on strings *)
Definition newest (consentRef : Uuid) (best : option ConversationFact) (fact : ConversationFact) : option ConversationFact :=
  if bool_decide (cf_consentRef fact = consentRef) && from_option (fun b => bool_decide (0 <= string_cmp (cf_at fact) (cf_at b))) true best
  then Some fact else best.

Definition latestConsentFact (c : Conversation) (consentRef : Uuid) : option ConversationFact :=
  foldl (newest consentRef) None (cv_facts c).

Definition appendConsentGranted (c : Conversation) (consentRef : Uuid) (clock : Clock) : result Conversation :=
  refuse (cf_type <$> latestConsentFact c consentRef = Some consentGranted) with "COMMS_CONSENT_ALREADY_GRANTED" ;;
  Ok (c <| cv_facts := cv_facts c ++ [MkFact consentGranted consentRef (toISOString (clock 0%nat))] |>).

Definition appendConsentRevoked (c : Conversation) (consentRef : Uuid) (clock : Clock) : result Conversation :=
  match latestConsentFact c consentRef with
  | None => Err (DomainError "COMMS_CONSENT_REVOCATION_UNGRANTED")
  | Some current =>
    refuse (cf_type current = consentRevoked) with "COMMS_CONSENT_NOT_ACTIVE" ;;
    Ok (c <| cv_facts := cv_facts c ++ [MkFact consentRevoked consentRef (toISOString (clock 0%nat))] |>)
  end.

(** ** Inbound routing *)

Record InboundProbe := MkProbe { ip_orgId : Uuid; ip_customerId : Uuid; ip_channel : string; ip_bodyRef : string }.

Inductive InboundRoute := route_matched (conversation : Conversation) | route_unmatched (fact : CommsEvent).

Definition routeInbound (conversations : list Conversation) (probe : InboundProbe) (clock : Clock) : result InboundRoute :=
  channel ← assertCommsChannel (ip_channel probe);
  match List.find (fun c => bool_decide (thread c = (ip_orgId probe, ip_customerId probe, channel))) conversations with
  | Some c => Ok (route_matched c)
  | None => Ok (route_unmatched (commsEvent (UnmatchedInboundPayload (ip_orgId probe) (ip_customerId probe) channel (ip_bodyRef probe)) clock))
  end.

(** ** The boundary of automated sends *)

Inductive AutomatedSendResult :=
| send_accepted (conversation : Conversation) (message : Message)
| send_blocked (reason : BlockedReason) (event : CommsEvent).

(** The loop of the third check: the type of the last fact of the reference. *)
Definition lastFactType (consentRef : Uuid) (facts : list ConversationFact) : option FactType :=
  foldl (fun latest fact => if decide (cf_consentRef fact = consentRef) then Some (cf_type fact) else latest) None facts.

Definition sendAutomatedMessage (c : Conversation) (input : OutboundMessageInput) (clock : Clock) : result AutomatedSendResult :=
  let blocked reason ref := Ok (send_blocked reason (commsEvent (SendBlockedNoConsentPayload (cv_id c) (cv_channel c) ref reason) clock)) in
  refuse (trim (om_bodyRef input) = "") with "COMMS_BODY_REF_REQUIRED" ;;
  match om_consentRef input with
  | None => blocked NO_CONSENT_REF None
  | Some ref =>
    if existsb (fun f => bool_decide (cf_type f = consentGranted /\ cf_consentRef f = ref)) (cv_facts c) then
      if decide (lastFactType ref (cv_facts c) = Some consentRevoked) then blocked CONSENT_REVOKED (Some ref)
      else '(c', message) ← queueOutboundMessage c input; Ok (send_accepted c' message)
    else blocked CONSENT_NOT_GRANTED (Some ref)
  end.

(** ** The life of a conversation *)

(** What callers do to a conversation as time passes; [message_advanced] is how the
    delivery machinery stores a message it has moved on. *)
Inductive thread_step : Date * Conversation -> Date * Conversation -> Prop :=
| message_queued t c input c' m : queueOutboundMessage c input = Ok (c', m) -> thread_step (t, c) (t, c')
| message_automated t c input clock c' m : sendAutomatedMessage c input clock = Ok (send_accepted c' m) -> thread_step (t, c) (t, c')
| message_received t c input clock c' m e : appendInboundMessage c input clock = Ok (c', m, e) -> thread_step (t, c) (t, c')
| message_advanced t c m c' : withMessage c m = Ok c' -> thread_step (t, c) (t, c')
| consent_was_granted t c ref clock c' : t <= clock 0%nat -> iso_time (clock 0%nat) ->
    appendConsentGranted c ref clock = Ok c' -> thread_step (t, c) (clock 0%nat, c')
| consent_was_revoked t c ref clock c' : t <= clock 0%nat -> iso_time (clock 0%nat) ->
    appendConsentRevoked c ref clock = Ok c' -> thread_step (t, c) (clock 0%nat, c').

Definition thread_reachable (x : Date * Conversation) : Prop :=
  exists args existing clock c e, startConversation args existing clock = Ok (c, e) /\ rtc thread_step (clock 0%nat, c) x.

(** The facts about one reference. *)
Definition factsOf (ref : Uuid) (facts : list ConversationFact) : list ConversationFact :=
  List.filter (fun f => bool_decide (cf_consentRef f = ref)) facts.

Lemma factsOf_snoc ref facts f : factsOf ref (facts ++ [f]) =
  if bool_decide (cf_consentRef f = ref) then factsOf ref facts ++ [f] else factsOf ref facts.
Proof. unfold factsOf. rewrite List.filter_app. cbn. case_bool_decide; [done|by rewrite app_nil_r]. Qed.

Lemma lastFactType_last ref facts : lastFactType ref facts = cf_type <$> last (factsOf ref facts).
Proof.
  induction facts as [|f facts IH] using rev_ind; [done|]. unfold lastFactType in *. rewrite foldl_app, factsOf_snoc. cbn [foldl].
  case_decide as H; [rewrite bool_decide_eq_true_2 by done; by rewrite last_snoc|by rewrite bool_decide_eq_false_2].
Qed.

(** The trail is stamped in order of time. *)
Inductive stamped : Date -> list ConversationFact -> Prop :=
| stamped_nil t : stamped t []
| stamped_snoc t t' facts f : stamped t facts -> t <= t' -> iso_time t' -> cf_at f = toISOString t' -> stamped t' (facts ++ [f]).

Lemma stamped_before t facts f : stamped t facts -> f ∈ facts -> exists t0, t0 <= t /\ iso_time t0 /\ cf_at f = toISOString t0.
Proof.
  induction 1 as [|t t' facts g Hst IH Hle Hiso Hat]; [intros H; by apply elem_of_nil in H|]. intros H.
  apply elem_of_app in H as [H|H]; [destruct (IH H) as (t0 & ? & ? & ?); exists t0; split; [lia|done]|].
  apply list_elem_of_singleton in H as ->. exists t'. split; [lia|done].
Qed.

Lemma latest_last ref t facts : stamped t facts -> foldl (newest ref) None facts = last (factsOf ref facts).
Proof.
  induction 1 as [|t t' facts f Hst IH Hle Hiso Hat]; [done|]. rewrite foldl_app, factsOf_snoc. cbn [foldl]. rewrite IH. unfold newest.
  case_bool_decide as Href; [|done]. rewrite last_snoc, andb_true_l.
  destruct (last (factsOf ref facts)) as [b|] eqn:E; [|done]. cbn [from_option].
  assert (Hb : b ∈ facts).
  { apply last_Some_elem_of in E. apply list_elem_of_In, filter_In in E as [E _]. by apply list_elem_of_In. }
  destruct (stamped_before _ _ _ Hst Hb) as (t0 & Ht0 & Hiso0 & Hat0). rewrite bool_decide_eq_true_2; [done|].
  unfold string_cmp. rewrite Hat, Hat0, toISOString_cmp by done.
  destruct (Z.compare_spec t' t0); lia.
Qed.

(** The facts of each reference alternate, beginning with a grant. *)
Inductive alternating : list ConversationFact -> Prop :=
| alternating_nil : alternating []
| alternating_grant l f : alternating l -> cf_type f = consentGranted -> cf_type <$> last l <> Some consentGranted -> alternating (l ++ [f])
| alternating_revoke l f : alternating l -> cf_type f = consentRevoked -> cf_type <$> last l = Some consentGranted -> alternating (l ++ [f]).

Record conversation_wf (t : Date) (c : Conversation) : Prop := {
  cw_stamped : exists t0, t0 <= t /\ stamped t0 (cv_facts c);
  cw_alternating : forall ref, alternating (factsOf ref (cv_facts c));
  cw_ids : NoDup (mg_id <$> cv_messages c);
}.

Lemma latest_wf t c ref : conversation_wf t c -> latestConsentFact c ref = last (factsOf ref (cv_facts c)).
Proof. intros [(t0 & _ & H) _ _]. unfold latestConsentFact. by eapply latest_last. Qed.

Lemma queueOutboundMessage_Ok c input c' m : queueOutboundMessage c input = Ok (c', m) <->
  trim (om_bodyRef input) <> "" /\ om_id input ∉ mg_id <$> cv_messages c /\
  m = MkMessage (om_id input) (cv_id c) direction_out (om_bodyRef input) (om_templateRef input) (om_linkage input)
    (om_consentRef input) None msg_queued [] /\
  c' = c <| cv_messages := cv_messages c ++ [m] |>.
Proof.
  unfold queueOutboundMessage, assertMessageInput. rewrite bind_Ok. split.
  - intros ([] & H & H'). apply guard_Ok in H as [H1 H]. apply guard_Ok in H as [H2 _]. apply (inj Ok) in H'. by injection H' as <- <-.
  - intros (H1 & H2 & -> & ->). exists tt. rewrite !decide_False by done. done.
Qed.

Lemma replaceMessage_ids m l l' : replaceMessage m l = Some l' -> mg_id <$> l' = mg_id <$> l.
Proof.
  revert l'. induction l as [|x l IH]; intros l'; cbn [replaceMessage]; [done|]. case_decide as Hx.
  - intros H. injection H as <-. cbn. by rewrite Hx.
  - destruct (replaceMessage m l) as [l0|]; [|done]. cbn. intros H. injection H as <-. cbn. by rewrite (IH l0).
Qed.

(** Which fact, if any, a step adds, and what becomes of the messages. *)
Lemma thread_step_cases t c t' c' : thread_step (t, c) (t', c') -> t <= t' /\ thread c' = thread c /\ cv_id c' = cv_id c /\
  ((cv_facts c' = cv_facts c /\
    (mg_id <$> cv_messages c' = mg_id <$> cv_messages c \/
     exists m, cv_messages c' = cv_messages c ++ [m] /\ mg_id m ∉ mg_id <$> cv_messages c)) \/
   cv_messages c' = cv_messages c /\ iso_time t' /\
   exists ref ty, cv_facts c' = cv_facts c ++ [MkFact ty ref (toISOString t')] /\
     match ty with
     | consentGranted => cf_type <$> latestConsentFact c ref <> Some consentGranted
     | consentRevoked => cf_type <$> latestConsentFact c ref = Some consentGranted
     end).
Proof.
  intros H. inversion H as [? ? input ? m H'|? ? input clock ? m H'|? ? input clock ? m e H'|? ? m ? H'|? ? ref clock ? Ht Hi H'|? ? ref clock ? Ht Hi H']; subst.
  - apply queueOutboundMessage_Ok in H' as (_ & Hid & -> & ->). split; [done|]. split; [done|]. split; [done|]. left. split; [done|].
    right. by eexists.
  - unfold sendAutomatedMessage in H'. apply guard_Ok in H' as [_ H']. destruct (om_consentRef input) as [ref|]; [|done].
    destruct (existsb _ _); [|done]. case_decide; [done|]. apply bind_Ok in H' as ([c1 m1] & Hq & H'). apply (inj Ok) in H'. injection H' as -> ->.
    apply queueOutboundMessage_Ok in Hq as (_ & Hid & -> & ->). split; [done|]. split; [done|]. split; [done|]. left. split; [done|].
    right. by eexists.
  - unfold appendInboundMessage, assertMessageInput in H'. apply bind_Ok in H' as ([] & Ha & H'). apply bind_Ok in H' as ([] & _ & H').
    apply guard_Ok in Ha as [_ Ha]. apply guard_Ok in Ha as [Hid _]. apply (inj Ok) in H'. injection H' as <- <- _.
    split; [done|]. split; [done|]. split; [done|]. left. split; [done|]. right. by eexists.
  - unfold withMessage in H'. destruct (replaceMessage m (cv_messages c)) as [l|] eqn:E; [|done]. apply (inj Ok) in H' as <-.
    split; [done|]. split; [done|]. split; [done|]. left. split; [done|]. left. by eapply replaceMessage_ids.
  - unfold appendConsentGranted in H'. apply guard_Ok in H' as [Hn H']. apply (inj Ok) in H' as <-.
    split; [done|]. split; [done|]. split; [done|]. right. split; [done|]. split; [done|]. by exists ref, consentGranted.
  - unfold appendConsentRevoked in H'. destruct (latestConsentFact c ref) as [f|] eqn:E; [|done].
    apply guard_Ok in H' as [Hn H']. apply (inj Ok) in H' as <-.
    split; [done|]. split; [done|]. split; [done|]. right. split; [done|]. split; [done|]. exists ref, consentRevoked. split; [done|].
    rewrite E. cbn. by destruct (cf_type f).
Qed.

Lemma thread_step_wf t c t' c' : conversation_wf t c -> thread_step (t, c) (t', c') -> conversation_wf t' c'.
Proof.
  intros Hwf Hstep. apply thread_step_cases in Hstep as (Ht & _ & _ & [[Hf Hm]|(Hm & Hiso & ref & ty & Hf & Hty)]).
  - destruct Hwf as [(t0 & Ht0 & Hst) Halt Hids]. split; [exists t0; rewrite Hf; split; [lia|done]|by rewrite Hf|].
    destruct Hm as [->|(m & -> & Hid)]; [done|]. rewrite fmap_app. by apply NoDup_snoc_2.
  - assert (Hlast := latest_wf t c ref Hwf). rewrite Hlast in Hty. destruct Hwf as [(t0 & Ht0 & Hst) Halt Hids].
    split; rewrite ?Hf, ?Hm; [|intros ref'|done].
    + exists t'. split; [lia|]. by apply (stamped_snoc t0); [|lia| |].
    + rewrite factsOf_snoc. cbn [cf_consentRef]. case_bool_decide as E; [subst ref'|apply Halt].
      destruct ty; [by apply alternating_grant|by apply alternating_revoke].
Qed.

Lemma thread_reachable_wf t c : thread_reachable (t, c) -> conversation_wf t c.
Proof.
  intros (args & existing & clock & c0 & e & H0 & Hrtc).
  assert (Hinit : conversation_wf (clock 0%nat) c0).
  { unfold startConversation in H0. apply bind_Ok in H0 as (ch & _ & H0). apply guard_Ok in H0 as [_ H0]. apply (inj Ok) in H0.
    injection H0 as <- _. split; [exists (clock 0%nat); split; [lia|constructor]|intros ref; constructor|constructor]. }
  change (conversation_wf (t, c).1 (t, c).2). revert Hrtc. generalize (t, c). apply (rtc_ind_r (fun x => conversation_wf x.1 x.2)); [done|].
  intros [t1 c1] [t2 c2] _ Hstep Hwf. by eapply thread_step_wf.
Qed.

Lemma alternating_granted l : alternating l -> l <> [] -> exists f, f ∈ l /\ cf_type f = consentGranted.
Proof.
  induction 1 as [|l f Hl IH Hf Hn|l f Hl IH Hf Hn]; [done|intros _..].
  - exists f. split; [set_solver|done].
  - destruct (last l) as [g|] eqn:E; [|done]. apply last_Some_elem_of in E. injection Hn as Hn. exists g. split; [set_solver|done].
Qed.

Lemma granted_before ref t c : conversation_wf t c ->
  existsb (fun f => bool_decide (cf_type f = consentGranted /\ cf_consentRef f = ref)) (cv_facts c) = true <-> factsOf ref (cv_facts c) <> [].
Proof.
  intros Hwf. rewrite existsb_exists. split.
  - intros (f & Hf & H) Hnil. apply bool_decide_eq_true in H as [_ H].
    assert (Hin : f ∈ factsOf ref (cv_facts c)) by (apply list_elem_of_In, filter_In; split; [done|by apply bool_decide_eq_true]).
    rewrite Hnil in Hin. by apply elem_of_nil in Hin.
  - intros Hne. destruct (alternating_granted _ (cw_alternating _ _ Hwf ref) Hne) as (f & Hf & Hg).
    apply list_elem_of_In, filter_In in Hf as [Hf Href]. apply bool_decide_eq_true in Href. exists f. split; [done|]. by apply bool_decide_eq_true.
Qed.

Lemma accepted_iff t c input clock c' m : thread_reachable (t, c) ->
  sendAutomatedMessage c input clock = Ok (send_accepted c' m) <->
  queueOutboundMessage c input = Ok (c', m) /\
  exists ref, om_consentRef input = Some ref /\ cf_type <$> last (factsOf ref (cv_facts c)) = Some consentGranted.
Proof.
  intros Hwf%thread_reachable_wf. unfold sendAutomatedMessage. split.
  - intros H. apply guard_Ok in H as [Hb H]. destruct (om_consentRef input) as [ref|]; [|done].
    destruct (existsb _ _) eqn:Eg; [|done]. rewrite lastFactType_last in H. case_decide as Hl; [done|].
    apply bind_Ok in H as ([c1 m1] & Hq & [= -> ->]). split; [done|].
    exists ref. split; [done|]. apply (granted_before ref t c Hwf) in Eg.
    destruct (last (factsOf ref (cv_facts c))) as [f|] eqn:El; [|by apply last_None in El]. cbn in *. by destruct (cf_type f).
  - intros (Hq & ref & Href & Hl). rewrite decide_False by (by apply queueOutboundMessage_Ok in Hq as [? _]). rewrite Href.
    assert (Hne : factsOf ref (cv_facts c) <> []) by (intros Hn; by rewrite Hn in Hl).
    apply (granted_before ref t c Hwf) in Hne. by rewrite Hne, lastFactType_last, Hl, decide_False, Hq by done.
Qed.

Lemma factsOf_single ref facts : Forall (fun f => cf_consentRef f = ref) facts -> factsOf ref facts = facts.
Proof.
  intros H. unfold factsOf. induction H as [|f l Hf _ IH]; [done|]. cbn. by rewrite bool_decide_eq_true_2, IH.
Qed.

(** C30: No automated send without consent.  On every reachable thread an accepted automated
    send carries a reference whose last fact on the thread is a grant; it queues its message
    under that reference and touches no fact.  A refusal is an audited value whose reason is
    the true one.  On a thread whose facts concern one reference, a send is accepted exactly
    when its message is sound, it claims that reference and the thread's last fact is a
    grant: once a revocation was appended every automated send is refused until a new grant
    is.  The thread's messages keep unique ids. *)
Theorem automated_sends_follow_consent t c input clock : thread_reachable (t, c) ->
  (forall c' m, sendAutomatedMessage c input clock = Ok (send_accepted c' m) ->
   trim (om_bodyRef input) <> "" /\ om_id input ∉ mg_id <$> cv_messages c /\ cv_facts c' = cv_facts c /\ cv_messages c' = cv_messages c ++ [m] /\
   exists ref, om_consentRef input = Some ref /\ mg_consentRef m = Some ref /\ cf_type <$> last (factsOf ref (cv_facts c)) = Some consentGranted) /\
  (forall reason e, sendAutomatedMessage c input clock = Ok (send_blocked reason e) ->
   e = commsEvent (SendBlockedNoConsentPayload (cv_id c) (cv_channel c) (om_consentRef input) reason) clock /\
   match reason with
   | NO_CONSENT_REF => om_consentRef input = None
   | CONSENT_NOT_GRANTED => exists ref, om_consentRef input = Some ref /\ factsOf ref (cv_facts c) = []
   | CONSENT_REVOKED => exists ref, om_consentRef input = Some ref /\ cf_type <$> last (factsOf ref (cv_facts c)) = Some consentRevoked
   end) /\
  (forall ref, Forall (fun f => cf_consentRef f = ref) (cv_facts c) ->
   ((exists c' m, sendAutomatedMessage c input clock = Ok (send_accepted c' m)) <->
    trim (om_bodyRef input) <> "" /\ om_id input ∉ mg_id <$> cv_messages c /\
    om_consentRef input = Some ref /\ cf_type <$> last (cv_facts c) = Some consentGranted)) /\
  (forall ref, latestConsentFact c ref = last (factsOf ref (cv_facts c))) /\
  NoDup (mg_id <$> cv_messages c).
Proof.
  intros Hreach. assert (Hwf := thread_reachable_wf _ _ Hreach).
  split; [|split; [|split; [|split; [intros ref; by eapply latest_wf|apply Hwf]]]].
  - intros c' m (Hq & ref & Href & Hl)%(accepted_iff t); [|done]. apply queueOutboundMessage_Ok in Hq as (Hb & Hid & -> & ->).
    do 4 (split; [done|]). by exists ref.
  - intros reason e H. unfold sendAutomatedMessage in H. apply guard_Ok in H as [_ H].
    destruct (om_consentRef input) as [ref|] eqn:Er.
    + destruct (existsb _ _) eqn:Eg.
      * rewrite lastFactType_last in H. case_decide as Hl.
        -- apply (inj Ok) in H. injection H as <- <-. split; [done|]. by exists ref.
        -- apply bind_Ok in H as ([c1 m1] & _ & H). done.
      * apply (inj Ok) in H. injection H as <- <-. split; [done|]. exists ref. split; [done|].
        destruct (factsOf ref (cv_facts c)) as [|f l] eqn:Ef; [done|]. exfalso.
        assert (Hg := granted_before ref t c Hwf). rewrite Ef, Eg in Hg. discriminate (proj2 Hg ltac:(done)).
    + apply (inj Ok) in H. injection H as <- <-. done.
  - intros ref Hone. assert (Hf := factsOf_single ref _ Hone). split.
    + intros (c' & m & (Hq & ref' & Href & Hl)%(accepted_iff t)); [|done]. apply queueOutboundMessage_Ok in Hq as (Hb & Hid & _).
      assert (ref' = ref) as ->.
      { destruct (factsOf ref' (cv_facts c)) as [|f l] eqn:E; [done|]. assert (f ∈ factsOf ref' (cv_facts c)) as Hin by (rewrite E; left).
        unfold factsOf in Hin. apply list_elem_of_In, filter_In in Hin as [Hin%list_elem_of_In <-%bool_decide_eq_true].
        rewrite Forall_forall in Hone. by apply Hone. }
      rewrite Hf in Hl. done.
    + intros (Hb & Hid & Href & Hl). do 2 eexists. apply (accepted_iff t); [done|].
      split; [by apply queueOutboundMessage_Ok|]. exists ref. by rewrite Hf.
Qed.

(** ** Concrete threads *)

Definition sample_linkage : MessageLinkage := MkLinkage "cust" None None None.
Definition sample_input (ref : option Uuid) : OutboundMessageInput := MkOutboundInput "m1" "body-1" None sample_linkage ref.
Definition empty_thread : Conversation := MkConversation "c1" "org" "cust" comms_sms 0 [] [].
Definition granted_thread : Conversation := empty_thread <| cv_facts := [MkFact consentGranted "ref" (toISOString 10)] |>.

Lemma granted_thread_reachable : thread_reachable (10, granted_thread).
Proof.
  exists (MkStartArgs "c1" "org" "cust" "sms"), [], (fixed_clock 0), empty_thread. eexists. split; [vm_compute; reflexivity|].
  apply rtc_once. apply (consent_was_granted 0 empty_thread "ref" (fixed_clock 10)); [done| |done].
  apply (bool_decide_unpack _). vm_compute. exact I.
Qed.

Lemma automated_sends_follow_consent_witness :
  exists c' m, sendAutomatedMessage granted_thread (sample_input (Some "ref")) (fixed_clock 20) = Ok (send_accepted c' m).
Proof.
  apply (automated_sends_follow_consent 10 granted_thread (sample_input (Some "ref")) (fixed_clock 20) granted_thread_reachable) with (ref := "ref").
  - by repeat constructor.
  - split; [done|]. split; [apply not_elem_of_nil|done].
Defined.

(** The trail is read in two ways: by instant when facts are appended, by position when a
    send is screened.  When the clock goes back they disagree: the revocation blocks sends,
    yet a new grant is refused as already given. *)
Theorem regressing_clock_locks_consent : exists c,
  appendConsentRevoked granted_thread "ref" (fixed_clock 5) = Ok c /\
  (exists e, sendAutomatedMessage c (sample_input (Some "ref")) (fixed_clock 30) = Ok (send_blocked CONSENT_REVOKED e)) /\
  appendConsentGranted c "ref" (fixed_clock 30) = Err (DomainError "COMMS_CONSENT_ALREADY_GRANTED").
Proof.
  eexists. split; [vm_compute; reflexivity|]. split; [eexists; vm_compute; reflexivity|]. vm_compute. reflexivity.
Qed.

(** A revocation blocks the sends of its own reference only. *)
Theorem another_reference_still_sends : exists c c' m,
  c = empty_thread <| cv_facts := [MkFact consentGranted "a" (toISOString 1); MkFact consentGranted "b" (toISOString 2); MkFact consentRevoked "a" (toISOString 3)] |> /\
  sendAutomatedMessage c (sample_input (Some "b")) (fixed_clock 30) = Ok (send_accepted c' m).
Proof. do 3 eexists. split; [done|]. vm_compute. reflexivity. Qed.

(** Only inbound messages are checked against the thread's customer. *)
Theorem outbound_customer_is_not_checked : exists c' m,
  queueOutboundMessage empty_thread (MkOutboundInput "m1" "body" None (MkLinkage "somebody-else" None None None) None) = Ok (c', m) /\
  ln_customerId (mg_linkage m) <> cv_customerId c'.
Proof. do 2 eexists. split; [vm_compute; reflexivity|done]. Qed.
