(* ===== verification/CommsDelivery.v ===== *)
(** * Message delivery

    src/domain/communications/provider.ts: the retry policy, one provider attempt against a
    queued message, the receipts, and the scripted provider of the test suites.

    The provider is a parameter, a function from the command and the attempt number to the
    outcome.  Attempt counts and delays are validated as integers, so they are [Z]; the
    instant of a retry is exact up to the last representable date, beyond which printing it
    is the engine's [RangeError]. *)

From stdpp Require Import prelude strings list relations.
From Stdlib Require Import ZArith Lia Ascii.
From S2P Require Import Prelude JsNumber JsString JsDate IsoDate Events CommsConversation.
Local Open Scope string_scope.
Local Open Scope list_scope.
Local Open Scope Z_scope.
Local Open Scope js_scope.

(** ** The port *)

Record OutboundCommand := MkOutboundCommand {
  oc_messageId : Uuid;
  oc_conversationId : Uuid;
  oc_channel : CommsChannel;
  oc_body : string;
  oc_to : string;
}.

Inductive ProviderOutcome := provider_accepted (providerRef : string) | provider_rejected (failureReason : string).

Definition MessagingProvider := OutboundCommand -> Z -> ProviderOutcome.

(** The scripted provider: what is left of its script, and the commands it was given. *)
Record SimulatedProvider := MkSimulated { sp_script : list ProviderOutcome; sp_dispatched : list OutboundCommand }.

Definition simulatedProvider (script : list ProviderOutcome) : result SimulatedProvider :=
  match script with
  | [] => Err (DomainError "COMMS_PROVIDER_SCRIPT_EMPTY")
  | _ => Ok (MkSimulated script [])
  end.

Definition simulatedSend (p : SimulatedProvider) (cmd : OutboundCommand) : result (ProviderOutcome * SimulatedProvider) :=
  match sp_script p with
  | [] => Err (DomainError "COMMS_PROVIDER_SCRIPT_EXHAUSTED")
  | outcome :: script => Ok (outcome, MkSimulated script (sp_dispatched p ++ [cmd]))
  end.

(** ** The retry policy *)

Record RetryPolicy := MkRetryPolicy { rp_maxAttempts : number; rp_backoffStepsMs : list number }.

Inductive RetryDecision := decision_retry (delayMs nextAttemptNo : Z) | decision_deadLetter.

Definition policyStep (ms : number) : result Z :=
  match integerValue ms with
  | Some z => refuse (z < 0) with "COMMS_RETRY_POLICY_INVALID" ;; Ok z
  | None => Err (DomainError "COMMS_RETRY_POLICY_INVALID")
  end.

(** The policy's checks; the result is the policy as integers. *)
Definition assertPolicy (policy : RetryPolicy) : result (Z * list Z) :=
  match integerValue (rp_maxAttempts policy) with
  | None => Err (DomainError "COMMS_RETRY_POLICY_INVALID")
  | Some maxAttempts =>
    refuse (maxAttempts < 1) with "COMMS_RETRY_POLICY_INVALID" ;;
    refuse (Z.of_nat (length (rp_backoffStepsMs policy)) < maxAttempts - 1) with "COMMS_RETRY_POLICY_INVALID" ;;
    steps ← traverse policyStep (rp_backoffStepsMs policy);
    Ok (maxAttempts, steps)
  end.

Definition decideRetry (policy : RetryPolicy) (failedAttemptNo : Z) : result RetryDecision :=
  '(maxAttempts, steps) ← assertPolicy policy;
  refuse (failedAttemptNo < 1) with "COMMS_RETRY_DECISION_INVALID" ;;
  if decide (failedAttemptNo < maxAttempts) then
    let index := Z.min (failedAttemptNo - 1) (Z.of_nat (length steps) - 1) in
    let delayMs := if decide (index < 0) then None else steps !! Z.to_nat index in
    Ok (decision_retry (default 0 delayMs) (failedAttemptNo + 1))
  else Ok decision_deadLetter.

(** ** One attempt *)

Record AttemptSendResult := MkAttemptResult {
  ar_message : Message;
  ar_outcome : ProviderOutcome;
  ar_decision : option RetryDecision;
  ar_events : list CommsEvent;
  ar_retryAt : option string;
}.

Definition assertSendable (m : Message) (maxAttempts : Z) : result unit :=
  refuse (mg_direction m <> direction_out) with "COMMS_MESSAGE_NOT_OUTBOUND" ;;
  refuse (mg_status m <> msg_queued) with "COMMS_MESSAGE_NOT_QUEUED" ;;
  refuse (maxAttempts <= Z.of_nat (length (mg_attempts m))) with "COMMS_ATTEMPT_LIMIT_EXCEEDED" ;;
  Ok tt.

Definition findMessage (c : Conversation) (messageId : Uuid) : result Message :=
  match List.find (fun m => bool_decide (mg_id m = messageId)) (cv_messages c) with
  | None => Err (DomainError "COMMS_MESSAGE_NOT_IN_CONVERSATION")
  | Some m => Ok m
  end.

(** [date.toISOString()] of an instant that may lie beyond the last date. *)
Definition printDate (t : Date) : result string := if decide (MAX_TIME < t) then Err RangeError else Ok (toISOString t).

Definition attemptSend (provider : MessagingProvider) (c : Conversation) (messageId : Uuid) (body to : string) (policy : RetryPolicy)
  (clock : Clock) : result (Conversation * AttemptSendResult) :=
  m ← findMessage c messageId;
  '(maxAttempts, _) ← assertPolicy policy;
  _ ← assertSendable m maxAttempts;
  let attemptNo := Z.of_nat (length (mg_attempts m)) + 1 in
  let attemptedAt := clock 0%nat in
  let outcome := provider (MkOutboundCommand (mg_id m) (cv_id c) (cv_channel c) body to) attemptNo in
  match outcome with
  | provider_accepted providerRef =>
    let attempt := MkAttempt attemptNo providerRef attempt_sent None (toISOString attemptedAt) in
    let sent := m <| mg_status := msg_sent |> <| mg_sentAt := Some attemptedAt |> <| mg_attempts := mg_attempts m ++ [attempt] |> in
    c' ← withMessage c sent;
    Ok (c', MkAttemptResult sent outcome None
      [commsEvent (MessageSentPayload (cv_id c) (mg_id m) (cv_channel c) attemptNo providerRef (mg_templateRef m)) (clock_after 1 clock)] None)
  | provider_rejected failureReason =>
    let failedAttempt := MkAttempt attemptNo "" attempt_failed (Some failureReason) (toISOString attemptedAt) in
    decision ← decideRetry policy attemptNo;
    match decision with
    | decision_retry delayMs _ =>
      let retried := m <| mg_status := msg_queued |> <| mg_attempts := mg_attempts m ++ [failedAttempt] |> in
      c' ← withMessage c retried;
      retryAt ← printDate (attemptedAt + delayMs);
      Ok (c', MkAttemptResult retried outcome (Some decision)
        [commsEvent (MessageFailedPayload (cv_id c) (mg_id m) attemptNo failureReason true (Some retryAt)) (clock_after 1 clock)] (Some retryAt))
    | decision_deadLetter =>
      let deadLettered := m <| mg_status := msg_deadLettered |> <| mg_attempts := mg_attempts m ++ [failedAttempt] |> in
      c' ← withMessage c deadLettered;
      Ok (c', MkAttemptResult deadLettered outcome (Some decision)
        [commsEvent (MessageFailedPayload (cv_id c) (mg_id m) attemptNo failureReason false None) (clock_after 1 clock);
         commsEvent (MessageDeadLetteredPayload (cv_id c) (mg_id m) attemptNo failureReason) (clock_after 2 clock)] None)
    end
  end.

(** ** Receipts *)

(** The attempts with the number of the last one get the receipt's status. *)
Definition stampLast (status : DeliveryStatus) (attempts : list DeliveryAttempt) : list DeliveryAttempt :=
  (fun a => if decide (da_attemptNo <$> last attempts = Some (da_attemptNo a)) then a <| da_status := status |> else a) <$> attempts.

Definition markDelivered (c : Conversation) (messageId : Uuid) (clock : Clock) : result (Conversation * CommsEvent) :=
  m ← findMessage c messageId;
  refuse (mg_status m <> msg_sent) with "COMMS_MESSAGE_NOT_SENT" ;;
  let updated := m <| mg_status := msg_delivered |> <| mg_attempts := stampLast attempt_delivered (mg_attempts m) |> in
  c' ← withMessage c updated;
  Ok (c', commsEvent (MessageDeliveredPayload (cv_id c) (mg_id m) (from_option da_attemptNo 0 (last (mg_attempts m)))
    (from_option da_providerRef "" (last (mg_attempts m)))) clock).

Definition markRead (c : Conversation) (messageId : Uuid) (clock : Clock) : result (Conversation * CommsEvent) :=
  m ← findMessage c messageId;
  refuse (mg_status m <> msg_delivered) with "COMMS_MESSAGE_NOT_DELIVERED" ;;
  let updated := m <| mg_status := msg_read |> <| mg_attempts := stampLast attempt_read (mg_attempts m) |> in
  c' ← withMessage c updated;
  Ok (c', commsEvent (MessageReadPayload (cv_id c) (mg_id m)) clock).

(** ** Finding and replacing *)

Lemma find_replace (l : list Message) id m m' : List.find (fun x => bool_decide (mg_id x = id)) l = Some m -> mg_id m' = id ->
  exists l1 l2, l = l1 ++ m :: l2 /\ replaceMessage m' l = Some (l1 ++ m' :: l2) /\ Forall (fun x => mg_id x <> id) l1 /\ mg_id m = id.
Proof.
  intros H Hid. induction l as [|x l IH]; [done|]. cbn [List.find replaceMessage] in *. case_bool_decide as Hx.
  - injection H as ->. rewrite decide_True by congruence. by exists [], l.
  - rewrite decide_False by congruence. destruct (IH H) as (l1 & l2 & -> & -> & Hall & Hm). exists (x :: l1), l2. repeat split; [by constructor|done].
Qed.

(** The conversation after the message [m] of an id was replaced by [m']. *)
Definition replaced (c c' : Conversation) (m m' : Message) : Prop :=
  exists l1 l2, cv_messages c = l1 ++ m :: l2 /\ c' = c <| cv_messages := l1 ++ m' :: l2 |> /\
    Forall (fun x => mg_id x <> mg_id m) l1 /\ mg_id m' = mg_id m.

Lemma withMessage_replaced c id m m' c' : findMessage c id = Ok m -> mg_id m' = mg_id m -> withMessage c m' = Ok c' -> replaced c c' m m'.
Proof.
  unfold findMessage, withMessage. destruct (List.find _ _) as [x|] eqn:E; [|done]. intros H Hid. apply (inj Ok) in H as ->.
  assert (mg_id m = id) as Hm by (apply find_some in E as [_ E]; by apply bool_decide_eq_true in E).
  destruct (find_replace _ _ _ m' E) as (l1 & l2 & Hl & -> & Hall & _); [congruence|]. intros H. apply (inj Ok) in H as <-.
  subst id. by exists l1, l2.
Qed.

Lemma withMessage_found c id m m' : findMessage c id = Ok m -> mg_id m' = mg_id m -> exists c', withMessage c m' = Ok c'.
Proof.
  unfold findMessage, withMessage. destruct (List.find _ _) as [x|] eqn:E; [|done]. intros H Hid. apply (inj Ok) in H as ->.
  assert (mg_id m = id) as Hm by (apply find_some in E as [_ E]; by apply bool_decide_eq_true in E).
  destruct (find_replace _ _ _ m' E) as (l1 & l2 & Hl & -> & _ & _); [congruence|]. by eexists.
Qed.

Lemma findMessage_id c id m : findMessage c id = Ok m -> mg_id m = id /\ m ∈ cv_messages c.
Proof.
  unfold findMessage. destruct (List.find _ _) as [x|] eqn:E; [|done]. intros H. apply (inj Ok) in H as ->.
  apply find_some in E as [Hin E]. apply bool_decide_eq_true in E. split; [done|by apply list_elem_of_In].
Qed.

Lemma replaced_find c c' m m' : replaced c c' m m' -> findMessage c' (mg_id m) = Ok m'.
Proof.
  intros (l1 & l2 & _ & -> & Hall & Hid). unfold findMessage. cbn [cv_messages].
  induction Hall as [|x l1 Hx _ IH]; cbn; [by rewrite bool_decide_eq_true_2|]. by rewrite bool_decide_eq_false_2.
Qed.

Lemma replaced_Forall (P : Message -> Prop) c c' m m' : replaced c c' m m' -> Forall P (cv_messages c) -> (P m -> P m') -> Forall P (cv_messages c').
Proof.
  intros (l1 & l2 & -> & -> & _) H Hm. cbn. rewrite Forall_app, Forall_cons in H |- *. naive_solver.
Qed.

(** ** The ladder, attempt by attempt *)

Definition all_failed (l : list DeliveryAttempt) : Prop := Forall (fun a => da_status a = attempt_failed) l.

Definition settled_as (status : DeliveryStatus) (l : list DeliveryAttempt) : Prop :=
  exists fs a, l = fs ++ [a] /\ all_failed fs /\ da_status a = status.

Definition numbered (l : list DeliveryAttempt) : Prop := da_attemptNo <$> l = seqZ 1 (Z.of_nat (length l)).

(** Attempts are numbered from one, at most as many as the policy allows; what they say
    agrees with the message's status. *)
Definition message_wf (maxAttempts : Z) (m : Message) : Prop :=
  numbered (mg_attempts m) /\ Z.of_nat (length (mg_attempts m)) <= maxAttempts /\
  match mg_direction m, mg_status m with
  | direction_in, msg_delivered | direction_in, msg_read => mg_attempts m = []
  | direction_in, _ => False
  | direction_out, msg_queued => all_failed (mg_attempts m) /\ Z.of_nat (length (mg_attempts m)) < maxAttempts
  | direction_out, msg_sent => settled_as attempt_sent (mg_attempts m)
  | direction_out, msg_delivered => settled_as attempt_delivered (mg_attempts m)
  | direction_out, msg_read => settled_as attempt_read (mg_attempts m)
  | direction_out, msg_deadLettered => all_failed (mg_attempts m) /\ Z.of_nat (length (mg_attempts m)) = maxAttempts
  | direction_out, msg_failed => False
  end.

Lemma attempts_numbered_snoc l a : numbered l -> da_attemptNo a = Z.of_nat (length l) + 1 -> numbered (l ++ [a]).
Proof.
  unfold numbered. intros H Ha. rewrite fmap_app, length_app, H. cbn. rewrite Ha, Nat2Z.inj_add, seqZ_app by lia.
  f_equal. cbn [Z.of_nat]. rewrite seqZ_cons by lia. rewrite seqZ_nil by lia. f_equal. lia.
Qed.

Lemma numbered_last l a b : numbered (l ++ [a]) -> b ∈ l -> da_attemptNo b <> da_attemptNo a.
Proof.
  unfold numbered. rewrite fmap_app. cbn [fmap list_fmap]. intros H Hb Heq.
  assert (Hnd : NoDup ((da_attemptNo <$> l) ++ [da_attemptNo a])) by (rewrite H; apply NoDup_seqZ).
  apply NoDup_app in Hnd as (_ & Hnd & _). apply (Hnd (da_attemptNo b)); [by apply list_elem_of_fmap_2|]. rewrite Heq. left.
Qed.

(** The receipt stamps the last attempt and no other. *)
Lemma stampLast_snoc status l a : numbered (l ++ [a]) -> stampLast status (l ++ [a]) = l ++ [a <| da_status := status |>].
Proof.
  intros Hn. unfold stampLast. rewrite last_snoc. cbn [fmap option_fmap option_map]. rewrite fmap_app. cbn [fmap list_fmap].
  rewrite decide_True by done. f_equal.
  assert (Hall : Forall (fun b => da_attemptNo b <> da_attemptNo a) l) by (apply Forall_forall; intros b Hb; by eapply numbered_last).
  clear Hn. induction Hall as [|b l Hb _ IH]; [done|]. cbn [fmap list_fmap]. rewrite decide_False by congruence. by rewrite IH.
Qed.

Lemma stampLast_settled old status l : numbered l -> settled_as old l ->
  numbered (stampLast status l) /\ settled_as status (stampLast status l) /\ length (stampLast status l) = length l.
Proof.
  intros Hn (fs & a & -> & Hf & _). rewrite stampLast_snoc by done. split; [|split; [by exists fs, (a <| da_status := status |>)|by rewrite !length_app]].
  unfold numbered in *. rewrite fmap_app in Hn |- *. rewrite !length_app in *. exact Hn.
Qed.

Lemma assertPolicy_Ok policy maxAttempts steps : assertPolicy policy = Ok (maxAttempts, steps) ->
  1 <= maxAttempts /\ maxAttempts - 1 <= Z.of_nat (length steps) /\ Forall (fun d => 0 <= d) steps.
Proof.
  unfold assertPolicy. destruct (integerValue _) as [n|]; [|done]. intros H. apply guard_Ok in H as [H1 H]. apply guard_Ok in H as [H2 H].
  apply bind_Ok in H as (ss & Hs & H). apply (inj Ok) in H. injection H as -> ->. split; [lia|].
  apply traverse_Forall2 in Hs. split; [apply Forall2_length in Hs; lia|]. clear H2.
  induction Hs as [|x y l l' Hxy _ IH]; [constructor|]. constructor; [|done].
  unfold policyStep in Hxy. destruct (integerValue x); [|done]. apply guard_Ok in Hxy as [Hn Hxy]. apply (inj Ok) in Hxy as <-. lia.
Qed.

(** The command an attempt hands to the provider. *)
Definition commandFor (c : Conversation) (m : Message) (body to : string) : OutboundCommand :=
  MkOutboundCommand (mg_id m) (cv_id c) (cv_channel c) body to.

(** The message after an attempt with a given outcome. *)
Definition advanced (maxAttempts : Z) (m : Message) (outcome : ProviderOutcome) (t : Date) : Message :=
  let n := Z.of_nat (length (mg_attempts m)) + 1 in
  match outcome with
  | provider_accepted ref => m <| mg_status := msg_sent |> <| mg_sentAt := Some t |>
      <| mg_attempts := mg_attempts m ++ [MkAttempt n ref attempt_sent None (toISOString t)] |>
  | provider_rejected why => m <| mg_status := if decide (n < maxAttempts) then msg_queued else msg_deadLettered |>
      <| mg_attempts := mg_attempts m ++ [MkAttempt n "" attempt_failed (Some why) (toISOString t)] |>
  end.

Lemma decideRetry_cases policy maxAttempts steps n : assertPolicy policy = Ok (maxAttempts, steps) -> 1 <= n ->
  (n < maxAttempts -> exists d, d ∈ steps /\ decideRetry policy n = Ok (decision_retry d (n + 1))) /\
  (maxAttempts <= n -> decideRetry policy n = Ok decision_deadLetter).
Proof.
  intros Hp Hn. assert (Hok := assertPolicy_Ok _ _ _ Hp). unfold decideRetry. rewrite Hp. cbn [mbind result_bind].
  rewrite decide_False by lia. split; intros H; [rewrite decide_True by lia|by rewrite decide_False by lia].
  rewrite decide_False by lia. assert (Hlt : (Z.to_nat (Z.min (n - 1) (Z.of_nat (length steps) - 1)) < length steps)%nat) by lia.
  apply lookup_lt_is_Some in Hlt as [d Hd]. rewrite Hd. exists d. split; [by eapply list_elem_of_lookup_2|done].
Qed.

Lemma attemptSend_Ok provider c id body to policy clock c' r : attemptSend provider c id body to policy clock = Ok (c', r) ->
  exists m maxAttempts steps, findMessage c id = Ok m /\ assertPolicy policy = Ok (maxAttempts, steps) /\
    mg_direction m = direction_out /\ mg_status m = msg_queued /\ Z.of_nat (length (mg_attempts m)) < maxAttempts /\
    ar_message r = advanced maxAttempts m (provider (commandFor c m body to) (Z.of_nat (length (mg_attempts m)) + 1)) (clock 0%nat) /\
    replaced c c' m (ar_message r).
Proof.
  unfold attemptSend. intros H. apply bind_Ok in H as (m & Hm & H). apply bind_Ok in H as ([maxAttempts steps] & Hp & H).
  apply bind_Ok in H as ([] & Hs & H). exists m, maxAttempts, steps. unfold assertSendable in Hs.
  apply guard_Ok in Hs as [H1 Hs]. apply guard_Ok in Hs as [H2 Hs]. apply guard_Ok in Hs as [H3 _].
  do 2 (split; [done|]). split; [by apply dec_stable|]. split; [by apply dec_stable|]. split; [lia|].
  fold (commandFor c m body to) in H.
  destruct (provider (commandFor c m body to) _) as [ref|why] eqn:E.
  - apply bind_Ok in H as (c1 & Hc & H). apply (inj Ok) in H. injection H as <- <-. split; [done|]. by eapply withMessage_replaced.
  - destruct (decideRetry_cases policy maxAttempts steps (Z.of_nat (length (mg_attempts m)) + 1) Hp ltac:(lia)) as [Hr Hd].
    unfold advanced. destruct (decide (Z.of_nat (length (mg_attempts m)) + 1 < maxAttempts)) as [Hlt|Hge].
    + destruct (Hr Hlt) as (d & _ & Ed). rewrite Ed in H. cbn [mbind result_bind] in H. apply bind_Ok in H as (c1 & Hc & H).
      apply bind_Ok in H as (at_ & _ & H). apply (inj Ok) in H. injection H as <- <-. split; [done|]. by eapply withMessage_replaced.
    + rewrite Hd in H by lia. cbn [mbind result_bind] in H. apply bind_Ok in H as (c1 & Hc & H).
      apply (inj Ok) in H. injection H as <- <-. split; [done|]. by eapply withMessage_replaced.
Qed.

Lemma advanced_wf maxAttempts m outcome t : message_wf maxAttempts m -> mg_direction m = direction_out -> mg_status m = msg_queued ->
  message_wf maxAttempts (advanced maxAttempts m outcome t).
Proof.
  intros (Hn & Hl & H) Hd Hs. rewrite Hd, Hs in H. destruct H as [Hf Hlt]. unfold message_wf, advanced.
  destruct outcome as [ref|why]; cbn; rewrite Hd, length_app; cbn [length].
  - split; [by apply attempts_numbered_snoc|]. split; [lia|]. eexists _, _. by split.
  - split; [by apply attempts_numbered_snoc|]. split; [lia|]. assert (Hfs : forall a, da_status a = attempt_failed -> all_failed (mg_attempts m ++ [a])).
    { intros a Ha. by apply Forall_snoc_2. }
    destruct (decide (Z.of_nat (length (mg_attempts m)) + 1 < maxAttempts)); (split; [by apply Hfs|lia]).
Qed.

(** ** Threads under a policy *)

Inductive delivery_step (policy : RetryPolicy) (c : Conversation) : Conversation -> Prop :=
| delivery_queued input c' m : queueOutboundMessage c input = Ok (c', m) -> delivery_step policy c c'
| delivery_automated input clock c' m : sendAutomatedMessage c input clock = Ok (send_accepted c' m) -> delivery_step policy c c'
| delivery_received input clock c' m e : appendInboundMessage c input clock = Ok (c', m, e) -> delivery_step policy c c'
| delivery_attempted provider id body to clock c' r : attemptSend provider c id body to policy clock = Ok (c', r) -> delivery_step policy c c'
| delivery_delivered id clock c' e : markDelivered c id clock = Ok (c', e) -> delivery_step policy c c'
| delivery_read id clock c' e : markRead c id clock = Ok (c', e) -> delivery_step policy c c'.

Lemma queued_wf maxAttempts c input c' m : 1 <= maxAttempts -> queueOutboundMessage c input = Ok (c', m) ->
  Forall (message_wf maxAttempts) (cv_messages c) -> Forall (message_wf maxAttempts) (cv_messages c').
Proof.
  intros Hmax H Hall. apply queueOutboundMessage_Ok in H as (_ & _ & -> & ->). cbn. apply Forall_snoc_2; [|done].
  split; [done|]. cbn. split; [lia|]. split; [constructor|lia].
Qed.

Lemma receipt_wf maxAttempts old new m (to : MessageStatus) :
  message_wf maxAttempts m -> mg_direction m = direction_out -> settled_as old (mg_attempts m) ->
  (forall l, match to with msg_delivered => settled_as attempt_delivered l | msg_read => settled_as attempt_read l | _ => False end <-> settled_as new l) ->
  message_wf maxAttempts (m <| mg_status := to |> <| mg_attempts := stampLast new (mg_attempts m) |>).
Proof.
  intros (Hn & Hl & _) Hd Hs Hto. destruct (stampLast_settled old new _ Hn Hs) as (H1 & H2 & H3). unfold message_wf. cbn.
  rewrite Hd, H3. split; [done|]. split; [done|]. apply Hto in H2. by destruct to.
Qed.

Lemma delivery_step_wf policy maxAttempts steps c c' : assertPolicy policy = Ok (maxAttempts, steps) -> delivery_step policy c c' ->
  Forall (message_wf maxAttempts) (cv_messages c) -> Forall (message_wf maxAttempts) (cv_messages c').
Proof.
  intros Hp Hstep Hall. assert (Hmax := assertPolicy_Ok _ _ _ Hp).
  destruct Hstep as [input c' m H|input clock c' m H|input clock c' m e H|provider id body to clock c' r H|id clock c' e H|id clock c' e H].
  - eapply queued_wf; [|done|done]. lia.
  - unfold sendAutomatedMessage in H. apply guard_Ok in H as [_ H]. destruct (om_consentRef input) as [ref|]; [|done].
    destruct (existsb _ _); [|done]. case_decide; [done|]. apply bind_Ok in H as ([c1 m1] & Hq & H). apply (inj Ok) in H. injection H as -> ->.
    eapply queued_wf; [|done|done]. lia.
  - unfold appendInboundMessage in H. apply bind_Ok in H as ([] & _ & H). apply bind_Ok in H as ([] & _ & H). apply (inj Ok) in H.
    injection H as <- _ _. cbn. apply Forall_snoc_2; [|done]. split; [done|]. cbn. split; [lia|done].
  - apply attemptSend_Ok in H as (m & n & ss & Hf & Hp' & Hd & Hs & _ & Hr & Hrep). rewrite Hp in Hp'. injection Hp' as <- <-.
    apply (replaced_Forall _ _ _ _ _ Hrep Hall). intros Hwf. rewrite Hr. by apply advanced_wf.
  - unfold markDelivered in H. apply bind_Ok in H as (m & Hf & H). apply guard_Ok in H as [Hs H]. apply dec_stable in Hs.
    apply bind_Ok in H as (c1 & Hc & H). apply (inj Ok) in H. injection H as -> _.
    pose proof (fun Hid => withMessage_replaced _ _ _ _ _ Hf Hid Hc) as Hrep. specialize (Hrep eq_refl). apply (replaced_Forall _ _ _ _ _ Hrep Hall). intros Hwf.
    assert (Hwf' := Hwf). destruct Hwf' as (_ & _ & Hw). rewrite Hs in Hw. destruct (mg_direction m) eqn:Hd; [done|].
    by apply (receipt_wf _ attempt_sent attempt_delivered m msg_delivered).
  - unfold markRead in H. apply bind_Ok in H as (m & Hf & H). apply guard_Ok in H as [Hs H]. apply dec_stable in Hs.
    apply bind_Ok in H as (c1 & Hc & H). apply (inj Ok) in H. injection H as -> _.
    pose proof (fun Hid => withMessage_replaced _ _ _ _ _ Hf Hid Hc) as Hrep. specialize (Hrep eq_refl). apply (replaced_Forall _ _ _ _ _ Hrep Hall). intros Hwf.
    assert (Hwf' := Hwf). destruct Hwf' as (Hn & Hl & Hw). rewrite Hs in Hw. destruct (mg_direction m) eqn:Hd.
    + unfold message_wf. cbn. rewrite Hd, Hw. cbn. split; [done|]. split; [lia|done].
    + by apply (receipt_wf _ attempt_delivered attempt_read m msg_read).
Qed.

(** Every message of a thread under a valid policy has attempts numbered from one, at most
    as many as the policy allows, and its status is what they say. *)
Theorem deliveries_follow_the_ladder policy maxAttempts steps c c' : assertPolicy policy = Ok (maxAttempts, steps) ->
  cv_messages c = [] -> rtc (delivery_step policy) c c' -> Forall (message_wf maxAttempts) (cv_messages c').
Proof.
  intros Hp H0. apply (rtc_ind_r (fun x => Forall (message_wf maxAttempts) (cv_messages x))); [rewrite H0; constructor|].
  intros x y _ Hstep Hx. by eapply delivery_step_wf.
Qed.

(** ** Every message settles *)

(** Attempt the message again and again while it is queued; [clocks] gives each attempt
    its clock. *)
Fixpoint drive (provider : MessagingProvider) (id : Uuid) (body to : string) (policy : RetryPolicy) (clocks : nat -> Clock) (n : nat)
  (c : Conversation) : result Conversation :=
  match n with
  | O => Ok c
  | S n =>
    m ← findMessage c id;
    if decide (mg_status m = msg_queued) then
      '(c', _) ← attemptSend provider c id body to policy (clocks n); drive provider id body to policy clocks n c'
    else Ok c
  end.

Lemma attemptSend_total provider c id body to policy maxAttempts steps clock m :
  findMessage c id = Ok m -> assertPolicy policy = Ok (maxAttempts, steps) -> mg_direction m = direction_out -> mg_status m = msg_queued ->
  Z.of_nat (length (mg_attempts m)) < maxAttempts -> (forall d, d ∈ steps -> clock 0%nat + d <= MAX_TIME) ->
  exists c' r, attemptSend provider c id body to policy clock = Ok (c', r).
Proof.
  intros Hf Hp Hd Hs Hl Hdate. unfold attemptSend. rewrite Hf, Hp. cbn [mbind result_bind]. unfold assertSendable.
  rewrite decide_False by (intros Hn; by apply Hn). rewrite decide_False by (intros Hn; by apply Hn). rewrite decide_False by lia. cbn [mbind result_bind].
  destruct (provider _ _) as [ref|why].
  - edestruct (withMessage_found c id m) as [c' ->]; [done|done|]. by eexists _, _.
  - destruct (decideRetry_cases policy maxAttempts steps (Z.of_nat (length (mg_attempts m)) + 1) Hp ltac:(lia)) as [Hr Hdl].
    destruct (decide (Z.of_nat (length (mg_attempts m)) + 1 < maxAttempts)) as [Hlt|Hge].
    + destruct (Hr Hlt) as (d & Hin & ->). cbn [mbind result_bind]. edestruct (withMessage_found c id m) as [c' ->]; [done|done|].
      cbn [mbind result_bind]. unfold printDate. rewrite decide_False by (specialize (Hdate d Hin); lia). by eexists _, _.
    + rewrite Hdl by lia. cbn [mbind result_bind]. edestruct (withMessage_found c id m) as [c' ->]; [done|done|]. by eexists _, _.
Qed.

Definition rejects (provider : MessagingProvider) (cmd : OutboundCommand) (n : Z) : Prop := exists why, provider cmd n = provider_rejected why.

(** How a message stands after some attempts were made on it. *)
Definition outcome_of (provider : MessagingProvider) (cmd : OutboundCommand) (maxAttempts : Z) (m m' : Message) : Prop :=
  let used := Z.of_nat (length (mg_attempts m)) in
  let used' := Z.of_nat (length (mg_attempts m')) in
  mg_status m' = msg_sent /\ (exists ref, provider cmd used' = provider_accepted ref) /\ used < used' <= maxAttempts /\
    (forall k, used < k < used' -> rejects provider cmd k) \/
  mg_status m' = msg_deadLettered /\ used' = maxAttempts /\ (forall k, used < k <= maxAttempts -> rejects provider cmd k).

Lemma outcome_of_retry provider cmd maxAttempts m m1 m' : rejects provider cmd (Z.of_nat (length (mg_attempts m)) + 1) ->
  length (mg_attempts m1) = S (length (mg_attempts m)) -> outcome_of provider cmd maxAttempts m1 m' -> outcome_of provider cmd maxAttempts m m'.
Proof.
  intros Hrej Hlen Hout. unfold outcome_of in *. rewrite Hlen in Hout.
  assert (Hstep : forall k, Z.of_nat (length (mg_attempts m)) < k -> ~ Z.of_nat (S (length (mg_attempts m))) < k -> rejects provider cmd k).
  { intros k H1 H2. by replace k with (Z.of_nat (length (mg_attempts m)) + 1) by lia. }
  destruct Hout as [(H1 & H2 & H3 & H4)|(H1 & H2 & H3)]; [left|right].
  - split; [done|]. split; [done|]. split; [lia|]. intros k Hk.
    destruct (decide (Z.of_nat (S (length (mg_attempts m))) < k)); [apply H4; lia|apply Hstep; lia].
  - split; [done|]. split; [done|]. intros k Hk.
    destruct (decide (Z.of_nat (S (length (mg_attempts m))) < k)); [apply H3; lia|apply Hstep; lia].
Qed.

Lemma commandFor_replaced c c' m m' body to : replaced c c' m m' -> commandFor c' m' body to = commandFor c m body to.
Proof. intros (l1 & l2 & _ & -> & _ & Hid). unfold commandFor. cbn. by rewrite Hid. Qed.

(** A queued message is settled by the attempts its policy leaves it: it is sent by the
    first acceptance, and dead-lettered exactly when every remaining attempt is
    rejected. *)
Theorem every_message_settles provider id body to policy maxAttempts steps clocks c m :
  assertPolicy policy = Ok (maxAttempts, steps) -> findMessage c id = Ok m -> message_wf maxAttempts m ->
  mg_direction m = direction_out -> mg_status m = msg_queued ->
  (forall n d, d ∈ steps -> clocks n 0%nat + d <= MAX_TIME) ->
  exists c' m', drive provider id body to policy clocks (Z.to_nat maxAttempts - length (mg_attempts m)) c = Ok c' /\
    findMessage c' id = Ok m' /\ message_wf maxAttempts m' /\ outcome_of provider (commandFor c m body to) maxAttempts m m'.
Proof.
  intros Hp Hf Hwf Hd Hs Hdate. remember (Z.to_nat maxAttempts - length (mg_attempts m))%nat as n eqn:Hn.
  revert c m Hf Hwf Hd Hs Hn. induction n as [|n IH]; intros c m Hf Hwf Hd Hs Hn.
  { destruct Hwf as (_ & _ & Hw). rewrite Hd, Hs in Hw. lia. }
  cbn [drive]. rewrite Hf. cbn [mbind result_bind]. rewrite decide_True by done.
  assert (Hlt : Z.of_nat (length (mg_attempts m)) < maxAttempts) by (destruct Hwf as (_ & _ & Hw); rewrite Hd, Hs in Hw; lia).
  destruct (attemptSend_total provider c id body to policy maxAttempts steps (clocks n) m Hf Hp Hd Hs Hlt (Hdate n)) as (c1 & r & Ha).
  rewrite Ha. cbn [mbind result_bind]. destruct (attemptSend_Ok _ _ _ _ _ _ _ _ _ Ha) as (m0 & n0 & ss & Hf0 & Hp0 & _ & _ & _ & Hr & Hrep).
  rewrite Hf in Hf0. apply (inj Ok) in Hf0 as <-. rewrite Hp in Hp0. apply (inj Ok) in Hp0. injection Hp0 as <- <-.
  assert (Hf1 : findMessage c1 id = Ok (ar_message r)).
  { destruct (findMessage_id _ _ _ Hf) as [<- _]. by eapply replaced_find. }
  assert (Hcmd := commandFor_replaced _ _ _ _ body to Hrep). set (cmd := commandFor c m body to) in *.
  assert (Hwf1 := advanced_wf maxAttempts m (provider cmd (Z.of_nat (length (mg_attempts m)) + 1)) (clocks n 0%nat) Hwf Hd Hs). rewrite <- Hr in Hwf1.
  destruct (provider cmd (Z.of_nat (length (mg_attempts m)) + 1)) as [ref|why] eqn:E.
  - exists c1, (ar_message r). split; [|split; [done|split; [done|left]]].
    + destruct n as [|n']; [done|]. cbn [drive]. rewrite Hf1. cbn [mbind result_bind]. rewrite decide_False; [done|]. by rewrite Hr.
    + rewrite Hr. cbn. rewrite length_app. cbn [length]. split; [done|].
      replace (Z.of_nat (length (mg_attempts m) + 1)) with (Z.of_nat (length (mg_attempts m)) + 1) by lia.
      split; [by exists ref|]. split; [lia|]. intros k Hk. lia.
  - unfold advanced in Hr. assert (Hlen : length (mg_attempts (ar_message r)) = S (length (mg_attempts m))) by (rewrite Hr; cbn; rewrite length_app; cbn; lia).
    destruct (decide (Z.of_nat (length (mg_attempts m)) + 1 < maxAttempts)) as [Hmore|Hlast].
    + destruct (IH c1 (ar_message r) Hf1 Hwf1) as (c' & m' & Hdr & Hf' & Hwf' & Hout); [by rewrite Hr|by rewrite Hr|lia|].
      exists c', m'. split; [done|]. split; [done|]. split; [done|]. rewrite Hcmd in Hout.
      apply (outcome_of_retry _ _ _ _ (ar_message r)); [by exists why|done|done].
    + exists c1, (ar_message r). split; [|split; [done|split; [done|right]]].
      * destruct n as [|n']; [done|]. lia.
      * rewrite Hlen. split; [by rewrite Hr|]. split; [lia|]. intros k Hk.
        replace k with (Z.of_nat (length (mg_attempts m)) + 1) by lia. by exists why.
Qed.

(** ** Concrete runs *)

Definition sample_policy : RetryPolicy := MkRetryPolicy (num 3) [num 1000; num 5000].
Definition queued_message : Message := MkMessage "m1" "c1" direction_out "body-1" None sample_linkage (Some "ref") None msg_queued [].
Definition queued_thread : Conversation := granted_thread <| cv_messages := [queued_message] |>.
Definition third_time_lucky : MessagingProvider := fun _ n => if decide (n < 3) then provider_rejected "busy" else provider_accepted "wamid".

Lemma deliveries_follow_the_ladder_witness :
  exists c', rtc (delivery_step sample_policy) empty_thread c' /\ cv_messages c' <> [] /\ Forall (message_wf 3) (cv_messages c').
Proof.
  assert (Hstep : exists c' m, queueOutboundMessage empty_thread (sample_input None) = Ok (c', m) /\ cv_messages c' <> [])
    by (do 2 eexists; split; [vm_compute; reflexivity|done]).
  destruct Hstep as (c' & m & Hq & Hne). exists c'.
  assert (Hrtc : rtc (delivery_step sample_policy) empty_thread c') by (apply rtc_once; by eapply delivery_queued).
  split; [done|]. split; [done|]. apply (deliveries_follow_the_ladder sample_policy 3 [1000; 5000] empty_thread c'); [vm_compute; reflexivity|done|done].
Defined.

Lemma every_message_settles_witness : exists c' m',
  drive third_time_lucky "m1" "hello" "254700000000" sample_policy (fun _ => fixed_clock 100) 3 queued_thread = Ok c' /\
  findMessage c' "m1" = Ok m' /\ message_wf 3 m' /\
  outcome_of third_time_lucky (commandFor queued_thread queued_message "hello" "254700000000") 3 queued_message m'.
Proof.
  apply (every_message_settles third_time_lucky "m1" "hello" "254700000000" sample_policy 3 [1000; 5000] (fun _ => fixed_clock 100) queued_thread queued_message);
    [vm_compute; reflexivity|vm_compute; reflexivity| |done|done|].
  - split; [done|]. split; [done|]. split; [constructor|done].
  - intros n d Hd. unfold fixed_clock, MAX_TIME. apply elem_of_cons in Hd as [->|Hd]; [lia|]. apply list_elem_of_singleton in Hd as ->. lia.
Defined.

(** Consent is screened when an automated message is queued, not when it is sent: a
    revocation in between does not stop it. *)
Theorem revocation_does_not_stop_a_queued_send : exists c c' r,
  appendConsentRevoked queued_thread "ref" (fixed_clock 20) = Ok c /\
  attemptSend (fun _ _ => provider_accepted "wamid") c "m1" "hello" "254700000000" sample_policy (fixed_clock 30) = Ok (c', r) /\
  mg_consentRef (ar_message r) = Some "ref" /\ mg_status (ar_message r) = msg_sent.
Proof. do 3 eexists. split; [vm_compute; reflexivity|]. split; [vm_compute; reflexivity|]. by split. Qed.

(** Backoff steps have no upper bound: one beyond the last date makes a failed attempt
    throw the engine's error after the provider was called, and the attempt is lost. *)
Theorem long_backoff_throws :
  attemptSend third_time_lucky queued_thread "m1" "hello" "254700000000" (MkRetryPolicy (num 2) [num (2 ^ 60)]) (fixed_clock 30) = Err RangeError.
Proof. vm_compute. reflexivity. Qed.
