(* ===== verification/CommsTemplates.v ===== *)
(** * Message templates

    src/domain/communications/templates.ts: the append-only registry of template versions,
    the extraction of placeholders and rendering.

    The regular expression of a placeholder is modelled by its anchored match and the scans
    the engine makes with it: [exec] finds the leftmost match, [replace] all of them from
    left to right.  A value map is the list of its own members; a name it lacks may be one
    an object inherits from its prototype, whose text is the engine's ([nativeText]). *)

From stdpp Require Import prelude strings list relations.
From Stdlib Require Import ZArith Lia Ascii.
From S2P Require Import Prelude JsNumber JsString JsDate JsJson Events CommsConversation.
Local Open Scope string_scope.
Local Open Scope list_scope.
Local Open Scope Z_scope.
Local Open Scope js_scope.

Record MessageTemplate := MkTemplate {
  mt_id : Uuid;
  mt_orgId : Uuid;
  mt_name : string;
  mt_channel : CommsChannel;
  mt_locale : string;
  mt_body : string;
  mt_version : Z;
  mt_createdAt : string;
}.

(** ** Placeholders *)

Definition nameChar (c : ascii) : bool := in_range 97 122 c || in_range 65 90 c || is_digit c || bool_decide (c = "_"%char).

Definition opens (l : chars) : bool := startsWith l (explode "{{").

(** A match of the placeholder expression at the start: the name, and the length matched. *)
Definition placeholderAt (l : chars) : option (chars * nat) :=
  if opens l then
    let r := drop_space (drop 2 l) in
    let name := take_while nameChar r in
    let r' := drop_space (drop (length name) r) in
    if startsWith r' (explode "}}") && negb (bool_decide (name = [])) then Some (name, (length l - length (drop 2 r'))%nat) else None
  else None.

(** [PLACEHOLDER.exec(text)]: the leftmost match. *)
Fixpoint firstMatch (l : chars) : option (chars * nat) :=
  match placeholderAt l with
  | Some m => Some m
  | None => match l with [] => None | _ :: l' => firstMatch l' end
  end.

(** [rest.slice(rest.indexOf('{{'))] *)
Fixpoint fromOpen (l : chars) : option chars :=
  if opens l then Some l else match l with [] => None | _ :: l' => fromOpen l' end.

(** The loop; every round shortens the text, so its length and one more round suffice. *)
Fixpoint extractLoop (fuel : nat) (rest : chars) (seen : list string) : result (list string) :=
  match fuel with
  | O => Ok seen
  | S fuel =>
    match fromOpen rest with
    | None => Ok seen
    | Some s =>
      match firstMatch s with
      | None => Err (DomainError "COMMS_TEMPLATE_BODY_MALFORMED")
      | Some (name, len) => extractLoop fuel (drop len s) (addDistinct seen (implode name))
      end
    end
  end.

Definition extractPlaceholders (body : string) : result (list string) := extractLoop (S (length (explode body))) (explode body) [].

Definition assertTemplateBody (body : string) : result string :=
  refuse (trim body = "") with "COMMS_TEMPLATE_BODY_REQUIRED" ;;
  _ ← extractPlaceholders body;
  Ok body.

Definition assertVersion (version : number) : result Z :=
  match integerValue version with
  | Some z => refuse (z < 1) with "COMMS_TEMPLATE_VERSION_INVALID" ;; Ok z
  | None => Err (DomainError "COMMS_TEMPLATE_VERSION_INVALID")
  end.

(** ** The registry *)

Record RegisterTemplateArgs := MkRegisterArgs {
  ra_id : Uuid;
  ra_orgId : Uuid;
  ra_name : string;
  ra_channel : string;
  ra_locale : string;
  ra_body : string;
  ra_version : number;
}.

Definition TemplateKey : Type := Uuid * string * CommsChannel * string.

Definition keyOf (t : MessageTemplate) : TemplateKey := (mt_orgId t, mt_name t, mt_channel t, mt_locale t).

Definition sameKey (key : TemplateKey) (t : MessageTemplate) : bool := bool_decide (keyOf t = key).

Definition registerTemplate (args : RegisterTemplateArgs) (registry : list MessageTemplate) (clock : Clock) : result MessageTemplate :=
  channel ← assertCommsChannel (ra_channel args);
  refuse (trim (ra_name args) = "") with "COMMS_TEMPLATE_NAME_REQUIRED" ;;
  refuse (trim (ra_locale args) = "") with "COMMS_TEMPLATE_LOCALE_REQUIRED" ;;
  body ← assertTemplateBody (ra_body args);
  version ← assertVersion (ra_version args);
  refuse (ra_id args ∈ mt_id <$> registry) with "COMMS_TEMPLATE_ID_TAKEN" ;;
  refuse ((ra_orgId args, ra_name args, channel, ra_locale args, version) ∈ (fun t => (keyOf t, mt_version t)) <$> registry)
    with "COMMS_TEMPLATE_VERSION_EXISTS" ;;
  Ok (MkTemplate (ra_id args) (ra_orgId args) (ra_name args) channel (ra_locale args) body version (toISOString (clock 0%nat))).

Definition highestVersion (registry : list MessageTemplate) (key : TemplateKey) : Z :=
  foldl (fun max t => if sameKey key t && (max <? mt_version t) then mt_version t else max) 0 registry.

Definition nextTemplateVersion (registry : list MessageTemplate) (key : TemplateKey) : number :=
  nadd (num (highestVersion registry key)) (num 1).

Definition findTemplate (registry : list MessageTemplate) (key : TemplateKey) (version : Z) : option MessageTemplate :=
  List.find (fun t => sameKey key t && (mt_version t =? version)) registry.

Definition betterTemplate (key : TemplateKey) (best : option MessageTemplate) (t : MessageTemplate) : option MessageTemplate :=
  if sameKey key t && from_option (fun b => mt_version b <? mt_version t) true best then Some t else best.

Definition latestTemplate (registry : list MessageTemplate) (key : TemplateKey) : option MessageTemplate :=
  foldl (betterTemplate key) None registry.

(** ** Rendering *)

Record RenderedMessage := MkRendered { rm_body : string; rm_templateRef : TemplateRef }.

Inductive segment := literal (c : ascii) | slot (name : string) (text : chars).

(** The matches [replace] visits; one round per character at most. *)
Fixpoint scan (fuel : nat) (l : chars) : list segment :=
  match fuel with
  | O => []
  | S fuel =>
    match placeholderAt l with
    | Some (name, len) => slot (implode name) (take len l) :: scan fuel (drop len l)
    | None => match l with [] => [] | c :: l' => literal c :: scan fuel l' end
    end
  end.

Definition segments (body : string) : list segment := scan (length (explode body)) (explode body).

Definition own (values : list (string * string)) (name : string) : option string :=
  snd <$> List.find (fun kv => bool_decide (kv.1 = name)) values.

Definition inherited (name : string) : bool := bool_decide (name ∈ "__proto__" :: inherited_methods).

(** [values[name] ?? ''] as text *)
Definition valueText (nativeText : string -> string) (values : list (string * string)) (name : string) : string :=
  match own values name with
  | Some v => v
  | None => if decide (name = "__proto__") then "[object Object]" else if inherited name then nativeText name else ""
  end.

Definition renderSegment (text : string -> string) (s : segment) : chars :=
  match s with literal c => [c] | slot name _ => explode (text name) end.

Definition renderTemplate (nativeText : string -> string) (t : MessageTemplate) (values : list (string * string)) : result RenderedMessage :=
  placeholders ← extractPlaceholders (mt_body t);
  refuse (List.filter (fun k => negb (bool_decide (k ∈ placeholders))) (fst <$> values) <> []) with "COMMS_TEMPLATE_VALUE_UNKNOWN" ;;
  refuse (List.filter (fun p => negb (bool_decide (p ∈ fst <$> values) || inherited p)) placeholders <> [])
    with "COMMS_TEMPLATE_VALUE_MISSING" ;;
  Ok (MkRendered (implode (mjoin (renderSegment (valueText nativeText values) <$> segments (mt_body t))))
    (MkTemplateRef (mt_id t) (mt_version t))).

(** ** Matches *)

Lemma drop_space_split l : exists a, l = a ++ drop_space l /\ Forall (fun c => is_space c = true) a.
Proof.
  induction l as [|c l (a & Hl & Ha)]; [by exists []|]. cbn [drop_space]. destruct (is_space c) eqn:E; [|by exists []].
  exists (c :: a). split; [cbn; by rewrite <- Hl|by constructor].
Qed.

(** The text of a match: two braces, then text that opens nothing. *)
Lemma placeholderAt_Some l name len : placeholderAt l = Some (name, len) -> exists text rest,
  l = "{"%char :: "{"%char :: text ++ rest /\ len = S (S (length text)) /\ Forall (fun c => c <> "{"%char) text /\ text <> [] /\ name <> [].
Proof.
  unfold placeholderAt. destruct (opens l) eqn:Eo; [|done]. apply startsWith_Ok in Eo as [r ->].
  change (drop 2 (explode "{{" ++ r)) with r.
  destruct (drop_space_split r) as (a & Ha & Has). set (r1 := drop_space r) in *. set (nm := take_while nameChar r1).
  destruct (drop_space_split (drop (length nm) r1)) as (b & Hb & Hbs). set (r2 := drop_space (drop (length nm) r1)) in *.
  destruct (startsWith r2 (explode "}}")) eqn:Ec; [|done]. cbn [andb]. case_bool_decide as Hn; [done|]. cbn [negb].
  intros H. injection H as <- <-. apply startsWith_Ok in Ec as [rest Hr2]. exists (a ++ nm ++ b ++ explode "}}"), rest.
  assert (Hr : r = (a ++ nm ++ b ++ explode "}}") ++ rest).
  { rewrite Ha at 1. rewrite (take_while_split nameChar r1). fold nm. rewrite Hb, Hr2. by rewrite <- !app_assoc. }
  split; [by rewrite <- Hr|]. split; [|split; [|split; [|done]]].
  - rewrite Hr2. change (drop 2 (explode "}}" ++ rest)) with rest. rewrite Hr.
    change (explode "{{" ++ ?x) with ("{"%char :: "{"%char :: x). cbn [length]. rewrite (length_app _ rest). lia.
  - assert (Hsp : forall l, Forall (fun c => is_space c = true) l -> Forall (fun c => c <> "{"%char) l).
    { intros l H. eapply Forall_impl; [exact H|]. intros c Hc ->. done. }
    rewrite !Forall_app. split; [by apply Hsp|]. split; [|split; [by apply Hsp|by repeat constructor]].
    eapply Forall_impl; [apply take_while_before|]. intros c Hc ->. done.
  - intros Hnil. apply app_nil in Hnil as [_ Hnil]. by apply app_nil in Hnil as [Hnil _].
Qed.

Lemma placeholderAt_opens l m : placeholderAt l = Some m -> opens l = true.
Proof. unfold placeholderAt. by destruct (opens l). Qed.

Lemma opens_cons c c' l : opens (c :: c' :: l) = bool_decide (c = "{"%char) && bool_decide (c' = "{"%char).
Proof.
  unfold opens. change (explode "{{") with ["{"%char; "{"%char]. cbn [startsWith].
  destruct (Ascii.eqb_spec c "{"%char), (Ascii.eqb_spec c' "{"%char); do 2 (case_bool_decide; try congruence); by destruct l.
Qed.

(** ** The slots of a text *)

Definition slots_of (ss : list segment) : list string := omap (fun s => match s with slot n _ => Some n | literal _ => None end) ss.

Lemma match_length l name len : placeholderAt l = Some (name, len) -> (0 < len <= length l)%nat.
Proof. intros H. apply placeholderAt_Some in H as (text & rest & -> & -> & _). cbn. rewrite length_app. lia. Qed.

Lemma scan_fuel n l : (length l <= n)%nat -> scan n l = scan (length l) l.
Proof.
  revert l. induction n as [n IH] using lt_wf_ind. intros l Hl. destruct n as [|n]; [by destruct l; [|cbn in Hl; lia]|].
  destruct l as [|c l]; [done|]. cbn [scan length]. destruct (placeholderAt (c :: l)) as [[name len]|] eqn:E.
  - apply match_length in E. f_equal. assert (Hd : (length (drop len (c :: l)) <= length l)%nat) by (rewrite length_drop; cbn in *; lia).
    rewrite IH by (cbn in Hl; lia). symmetry. apply IH; [cbn in Hl; lia|done].
  - f_equal. apply IH; [lia|cbn in Hl; lia].
Qed.

Definition slots (l : chars) : list string := slots_of (scan (length l) l).

Lemma slots_match l name len : placeholderAt l = Some (name, len) -> slots l = implode name :: slots (drop len l).
Proof.
  intros H. assert (Hlen := match_length _ _ _ H). unfold slots. destruct (length l) as [|n] eqn:El; [lia|]. cbn [scan]. rewrite H. cbn.
  f_equal. rewrite (scan_fuel n) by (rewrite length_drop; lia). done.
Qed.

Lemma slots_skip c l : placeholderAt (c :: l) = None -> slots (c :: l) = slots l.
Proof. intros H. unfold slots. cbn [scan length]. by rewrite H. Qed.

Lemma slots_skips pre s : (forall p q, pre = p ++ q -> q <> [] -> placeholderAt (q ++ s) = None) -> slots (pre ++ s) = slots s.
Proof.
  induction pre as [|c pre IH]; [done|]. intros H. cbn [app]. rewrite slots_skip by (by apply (H [] (c :: pre))).
  apply IH. intros p q -> Hq. by apply (H (c :: p) q).
Qed.

Lemma firstMatch_Some l name len : firstMatch l = Some (name, len) -> exists pre s, l = pre ++ s /\ placeholderAt s = Some (name, len) /\
  (forall p q, pre = p ++ q -> q <> [] -> placeholderAt (q ++ s) = None).
Proof.
  induction l as [|c l IH]; cbn [firstMatch]; [by unfold placeholderAt|].
  destruct (placeholderAt (c :: l)) as [m|] eqn:E.
  - intros H. injection H as ->. exists [], (c :: l). split; [done|]. split; [done|]. intros p q Hpq Hq. by destruct p, q.
  - intros H. destruct (IH H) as (pre & s & -> & Hs & Hpre). exists (c :: pre), s. split; [done|]. split; [done|].
    intros p q Hpq Hq. destruct p as [|x p]; cbn in Hpq; [subst q; done|]. injection Hpq as _ ->. by apply (Hpre p q).
Qed.

Lemma firstMatch_None l : firstMatch l = None -> slots l = [].
Proof.
  induction l as [|c l IH]; [done|]. cbn [firstMatch]. destruct (placeholderAt (c :: l)) eqn:E; [done|]. intros H.
  rewrite slots_skip by done. by apply IH.
Qed.

Lemma fromOpen_slots l : match fromOpen l with None => slots l = [] | Some s => slots l = slots s /\ opens s = true /\ (length s <= length l)%nat end.
Proof.
  induction l as [|c l IH]; [done|]. cbn [fromOpen]. destruct (opens (c :: l)) eqn:E; [done|].
  assert (Hn : placeholderAt (c :: l) = None) by (unfold placeholderAt; by rewrite E). rewrite slots_skip by done.
  destruct (fromOpen l) as [s|]; [|done]. destruct IH as (H1 & H2 & H3). split; [done|]. split; [done|]. cbn. lia.
Qed.

Lemma slots_plain p rest : Forall (fun c => c <> "{"%char) p -> slots (p ++ rest) = slots rest.
Proof.
  induction 1 as [|c p Hc _ IH]; [done|]. cbn [app]. rewrite slots_skip; [done|]. unfold placeholderAt.
  replace (opens (c :: p ++ rest)) with false; [done|]. unfold opens. cbn. by destruct (Ascii.eqb_spec c "{"%char).
Qed.

(** Dropping into the text of a match leaves no match before its end. *)
Lemma slots_inside s name len k : placeholderAt s = Some (name, len) -> (0 < k <= len)%nat -> slots (drop k s) = slots (drop len s).
Proof.
  intros H Hk. destruct (placeholderAt_Some _ _ _ H) as (text & rest & -> & -> & Hall & Hne & _).
  destruct k as [|[|k]]; [lia| |].
  - cbn [drop]. rewrite drop_app_length. destruct text as [|c text]; [done|]. rewrite slots_skip.
    + by apply (slots_plain (c :: text)).
    + apply Forall_cons in Hall as [Hc _]. unfold placeholderAt. cbn [app]. rewrite opens_cons. by rewrite (bool_decide_eq_false_2 _ Hc), andb_false_r.
  - cbn [drop]. rewrite drop_app_length, drop_app_le by lia. apply slots_plain. by apply Forall_drop.
Qed.

(** ** Extraction *)

Lemma addDistinct_twice {A} `{EqDecision A} (acc : list A) x : addDistinct (addDistinct acc x) x = addDistinct acc x.
Proof. unfold addDistinct at 1. rewrite decide_True; [done|]. unfold addDistinct. case_decide; [done|set_solver]. Qed.

(** One round: the slots that remain are the rest, or begin again with the name just seen. *)
Lemma extract_round s name len : firstMatch s = Some (name, len) -> (0 < len <= length s)%nat /\ exists more, slots s = implode name :: more /\
  (slots (drop len s) = more \/ slots (drop len s) = implode name :: more).
Proof.
  intros H. apply firstMatch_Some in H as (pre & t & -> & Ht & Hpre). assert (Hlen := match_length _ _ _ Ht).
  split; [rewrite length_app; lia|]. exists (slots (drop len t)). rewrite (slots_skips pre t Hpre), (slots_match _ _ _ Ht). split; [done|].
  destruct (decide (len <= length pre)%nat) as [Hle|Hgt].
  - right. rewrite drop_app_le by done. rewrite slots_skips; [by apply slots_match|].
    intros p q Hpq Hq. apply (Hpre (take len pre ++ p) q); [|done]. by rewrite <- app_assoc, <- Hpq, take_drop.
  - left. rewrite drop_app_ge by lia. apply (slots_inside _ name); [done|]. destruct pre as [|c pre]; cbn [length] in *; [lia|lia].
Qed.

Lemma extractLoop_slots fuel : forall rest seen names, (length rest < fuel)%nat -> extractLoop fuel rest seen = Ok names ->
  names = foldl addDistinct seen (slots rest).
Proof.
  induction fuel as [|fuel IH]; intros rest seen names Hf H; [lia|]. cbn [extractLoop] in H. assert (Ho := fromOpen_slots rest).
  destruct (fromOpen rest) as [s|]; [|apply (inj Ok) in H as <-; by rewrite Ho]. destruct Ho as (Hs & _ & Hl).
  destruct (firstMatch s) as [[name len]|] eqn:E; [|done]. destruct (extract_round _ _ _ E) as (Hlen & more & Hm & Hd).
  rewrite Hs, Hm. apply IH in H; [|rewrite length_drop; lia]. rewrite H. cbn [foldl]. destruct Hd as [->| ->]; [done|]. cbn [foldl]. by rewrite addDistinct_twice.
Qed.

(** Whatever the body, what is extracted are the placeholders [replace] visits, each once
    and in the order of first appearance. *)
Theorem extraction_finds_what_is_replaced body names : extractPlaceholders body = Ok names -> names = distinct (slots (explode body)).
Proof. unfold extractPlaceholders. intros H. apply extractLoop_slots in H; [done|lia]. Qed.

(** ** The language of bodies *)

(** The text of one placeholder: a name between two pairs of braces, with white space
    allowed around it. *)
Definition placeholder (text : chars) (name : string) : Prop :=
  exists a b, text = explode "{{" ++ a ++ explode name ++ b ++ explode "}}" /\
    Forall (fun c => is_space c = true) a /\ Forall (fun c => is_space c = true) b /\
    name <> "" /\ Forall (fun c => nameChar c = true) (explode name).

(** A body in which every pair of braces opens a placeholder, the names of these in order,
    and the text that replaces each of them by its value and copies every other character. *)
Inductive filled (value : string -> string) : chars -> list string -> chars -> Prop :=
| filled_end : filled value [] [] []
| filled_char c l names out : (forall r, c :: l <> explode "{{" ++ r) -> filled value l names out -> filled value (c :: l) names (c :: out)
| filled_slot text name l names out : placeholder text name -> filled value l names out ->
    filled value (text ++ l) (name :: names) (explode (value name) ++ out).

(** No placeholder anywhere in the text. *)
Definition no_placeholder (l : chars) : Prop := forall pre text name rest, l = pre ++ text ++ rest -> ~ placeholder text name.

Lemma drop_space_prefix a x r : Forall (fun c => is_space c = true) a -> is_space x = false -> drop_space (a ++ x :: r) = x :: r.
Proof. intros Ha Hx. induction Ha as [|c a Hc _ IH]; cbn [app drop_space]; [by rewrite Hx|by rewrite Hc]. Qed.

Lemma nameChar_not_space c : nameChar c = true -> is_space c = false.
Proof.
  unfold nameChar, is_digit, in_range, is_space. destruct c as [[] [] [] [] [] [] [] []]; vm_compute; done.
Qed.

Lemma placeholder_matches text name rest : placeholder text name -> placeholderAt (text ++ rest) = Some (explode name, length text).
Proof.
  intros (a & b & -> & Ha & Hb & Hne & Hn). unfold placeholderAt.
  rewrite <- !app_assoc. replace (opens _) with true by (symmetry; apply startsWith_Ok; by eexists).
  change (drop 2 (explode "{{" ++ ?x)) with x. destruct (explode name) as [|c nm] eqn:En; [by destruct name|].
  assert (Hc := Forall_inv Hn). cbn [app]. rewrite (drop_space_prefix a c _ Ha (nameChar_not_space c Hc)).
  change (explode "}}" ++ rest) with ("}"%char :: "}"%char :: rest).
  assert (Hstop : exists x r, b ++ "}"%char :: "}"%char :: rest = x :: r /\ nameChar x = false).
  { destruct b as [|x b]; cbn [app]; [by do 2 eexists|]. do 2 eexists. split; [done|]. apply Forall_inv in Hb.
    destruct (nameChar x) eqn:E; [|done]. apply nameChar_not_space in E. congruence. }
  assert (Htw : take_while nameChar (c :: nm ++ b ++ "}"%char :: "}"%char :: rest) = c :: nm).
  { destruct Hstop as (x & r & -> & Hx). by apply (take_while_prefix nameChar (c :: nm)). }
  rewrite Htw. change (c :: nm ++ ?x) with ((c :: nm) ++ x). rewrite drop_app_length. rewrite (drop_space_prefix b) by done.
  replace (startsWith _ _) with true by (symmetry; apply startsWith_Ok; by exists rest). rewrite bool_decide_eq_false_2 by done. cbn [negb andb].
  do 2 f_equal. change (drop 2 _) with rest. rewrite !length_app. cbn [length]. change (length (explode "}}")) with 2%nat. rewrite ?length_app. cbn [length]. lia.
Qed.

Lemma placeholder_opens text name : placeholder text name -> exists r, text = "{"%char :: "{"%char :: r.
Proof. intros (a & b & -> & _). by eexists. Qed.

Lemma opens_spec l : opens l = true <-> exists r, l = explode "{{" ++ r.
Proof. apply startsWith_Ok. Qed.

(** A text without placeholder has no match. *)
Lemma placeholderAt_sound l name len : placeholderAt l = Some (name, len) -> exists text rest, l = text ++ rest /\ placeholder text (implode name).
Proof.
  unfold placeholderAt. destruct (opens l) eqn:Eo; [|done]. apply startsWith_Ok in Eo as [r ->].
  change (drop 2 (explode "{{" ++ r)) with r.
  destruct (drop_space_split r) as (a & Ha & Has). set (r1 := drop_space r) in *. set (nm := take_while nameChar r1).
  destruct (drop_space_split (drop (length nm) r1)) as (b & Hb & Hbs). set (r2 := drop_space (drop (length nm) r1)) in *.
  destruct (startsWith r2 (explode "}}")) eqn:Ec; [|done]. cbn [andb]. case_bool_decide as Hn; [done|]. cbn [negb].
  intros H. injection H as <- _. apply startsWith_Ok in Ec as [rest Hr2]. exists (explode "{{" ++ a ++ nm ++ b ++ explode "}}"), rest. split.
  - rewrite Ha at 1. rewrite (take_while_split nameChar r1). fold nm. rewrite Hb, Hr2. by rewrite <- !app_assoc.
  - exists a, b. rewrite explode_implode. split; [done|]. split; [done|]. split; [done|]. split; [|apply take_while_before].
    intros E. apply Hn. rewrite <- (explode_implode nm), E. done.
Qed.

Lemma no_placeholder_suffix p l : no_placeholder (p ++ l) -> no_placeholder l.
Proof. intros H pre text name rest -> Hp. apply (H (p ++ pre) text name rest); [by rewrite app_assoc|done]. Qed.

Lemma no_placeholder_match l : no_placeholder l -> firstMatch l = None.
Proof.
  intros H. destruct (firstMatch l) as [[name len]|] eqn:E; [|done]. apply firstMatch_Some in E as (pre & s & -> & Hs & _).
  apply placeholderAt_sound in Hs as (text & rest & -> & Hp). exfalso. by apply (H pre text (implode name) rest).
Qed.

Lemma fromOpen_suffix p u : opens u = true -> exists q, fromOpen (p ++ u) = Some (q ++ u).
Proof.
  intros Hu. induction p as [|c p (q & IH)]; cbn [app].
  - exists []. destruct u; cbn [fromOpen]; by rewrite Hu.
  - cbn [fromOpen]. destruct (opens (c :: p ++ u)); [by exists (c :: p)|by exists q].
Qed.

(** Nothing opens inside the text of a placeholder. *)
Lemma placeholder_inside text name k k' rest : placeholder text name -> text = k ++ k' -> k <> [] -> k' <> [] -> opens (k' ++ rest) = false.
Proof.
  intros Hp E Hk Hk'. assert (Hm := placeholder_matches _ _ [] Hp). rewrite app_nil_r in Hm.
  apply placeholderAt_Some in Hm as (w & r & Ew & Hlen & Hw & Hne & _). apply not_true_is_false. intros Ho.
  assert (r = []) as -> by (apply length_zero_iff_nil; apply (f_equal length) in Ew; cbn in Ew; rewrite length_app in Ew; lia).
  rewrite app_nil_r in Ew. rewrite E in Ew. clear E Hlen. destruct k as [|x k]; [done|]. injection Ew as -> Ew.
  destruct k as [|y k]; cbn [app] in Ew.
  - subst k'. destruct w as [|z w]; [done|]. apply Forall_inv in Hw. cbn [app] in Ho. rewrite opens_cons in Ho.
    by apply andb_true_iff in Ho as [_ Ho%bool_decide_eq_true].
  - injection Ew as -> <-. destruct k' as [|z k']; [done|]. apply Forall_app in Hw as [_ Hw%Forall_inv].
    apply opens_spec in Ho as [r [= -> _]]. done.
Qed.

(** A match never ends inside a text that opens and holds no placeholder. *)
Lemma match_before_open p u name len : opens u = true -> no_placeholder u -> firstMatch (p ++ u) = Some (name, len) ->
  exists q, drop len (p ++ u) = q ++ u /\ (length q < length p)%nat.
Proof.
  intros Hu Hno E. apply firstMatch_Some in E as (pre & t & Es & Ht & _).
  destruct (placeholderAt_sound _ _ _ Ht) as (text & rest & -> & Hp). rewrite (placeholder_matches _ _ rest Hp) in Ht. injection Ht as _ <-.
  assert (Hin : exists q, p = pre ++ text ++ q).
  { apply app_eq_inv in Es as [(k & -> & Ek)|(k & -> & ->)]; [|exfalso; by apply (Hno k text (implode name) rest)].
    apply app_eq_inv in Ek as [(k' & Et & ->)|(k' & -> & _)]; [|by exists k'].
    destruct (decide (k' = [])) as [->|Hk']; [exists []; by rewrite Et, !app_nil_r|].
    destruct (decide (k = [])) as [->|Hk]; [exfalso; apply (Hno [] text (implode name) rest); [by rewrite Et|done]|].
    by rewrite (placeholder_inside text _ k k' rest Hp Et Hk Hk') in Hu. }
  assert (0 < length text)%nat as Hlt by (apply placeholder_opens in Hp as [r ->]; cbn; lia).
  destruct Hin as [q ->]. exists (drop (length text) (pre ++ text ++ q)). rewrite length_drop, !length_app. split; [|lia].
  rewrite drop_app_le; [done|]. rewrite !length_app. lia.
Qed.

Lemma extractLoop_malformed fuel : forall p u seen, (length (p ++ u) < fuel)%nat -> opens u = true -> no_placeholder u ->
  extractLoop fuel (p ++ u) seen = Err (DomainError "COMMS_TEMPLATE_BODY_MALFORMED").
Proof.
  induction fuel as [|fuel IH]; intros p u seen Hf Hu Hno; [lia|]. cbn [extractLoop].
  destruct (fromOpen_suffix p u Hu) as [q Hq]. pose proof (fromOpen_slots (p ++ u)) as Hl. rewrite Hq in *. destruct Hl as (_ & _ & Hl).
  destruct (firstMatch (q ++ u)) as [[name len]|] eqn:E; [|done].
  destruct (match_before_open q u _ _ Hu Hno E) as (q' & -> & Hq'). apply IH; [|done|done]. rewrite !length_app in *. lia.
Qed.

Section filled.
  Context (value : string -> string).

Lemma filled_extract l names out : filled value l names out -> forall fuel seen, (length l < fuel)%nat ->
  extractLoop fuel l seen = Ok (foldl addDistinct seen names).
Proof.
  induction 1 as [|c l names out Hc _ IH|text name l names out Hp _ IH]; intros fuel seen Hf; (destruct fuel as [|fuel]; [cbn in Hf; lia|]).
  - done.
  - rewrite <- (IH (S fuel) seen) by (cbn in Hf; lia). cbn [extractLoop fromOpen]. destruct (opens (c :: l)) eqn:E; [|done].
    apply opens_spec in E as [r E]. by apply Hc in E.
  - assert (Hm := placeholder_matches _ _ l Hp). assert (Ho := placeholderAt_opens _ _ Hm).
    assert (Hne : (0 < length text)%nat) by (apply placeholder_opens in Hp as [r ->]; cbn; lia).
    rewrite length_app in Hf. cbn [extractLoop]. replace (fromOpen (text ++ l)) with (Some (text ++ l)) by (destruct (text ++ l); cbn [fromOpen]; by rewrite Ho).
    replace (firstMatch (text ++ l)) with (Some (explode name, length text)) by (destruct (text ++ l); cbn [firstMatch]; by rewrite Hm).
    rewrite drop_app_length, implode_explode. apply IH. lia.
Qed.

Lemma filled_scan l names out text : filled value l names out -> (forall p, p ∈ names -> text p = value p) ->
  mjoin (renderSegment text <$> scan (length l) l) = out.
Proof.
  induction 1 as [|c l names out Hc _ IH|t name l names out Hp _ IH]; intros Ht; [done| |].
  - cbn [length scan]. destruct (placeholderAt (c :: l)) as [m|] eqn:E; [|cbn; f_equal; by apply IH].
    apply placeholderAt_opens, opens_spec in E as [r E]. by apply Hc in E.
  - assert (Hm := placeholder_matches _ _ l Hp). assert (Hlen := match_length _ _ _ Hm). destruct (length (t ++ l)) as [|n] eqn:En; [lia|].
    cbn [scan]. rewrite Hm, drop_app_length, implode_explode, scan_fuel by (rewrite length_app in *; lia). cbn. f_equal; [by rewrite Ht by left|].
    apply IH. intros p Hin. apply Ht. by right.
Qed.
End filled.

(** ** Rendering *)

Lemma own_Some values name : name ∈ fst <$> values <-> exists v, own values name = Some v.
Proof.
  unfold own. destruct (List.find _ values) as [kv|] eqn:E.
  - apply find_some in E as [Hin Hk]. apply bool_decide_eq_true in Hk as <-. split; [intros _; by exists kv.2|intros _].
    apply list_elem_of_fmap_2. by apply list_elem_of_In.
  - split; [|by intros [v ?]]. intros H. apply list_elem_of_fmap in H as (kv & -> & Hin). apply list_elem_of_In in Hin.
    apply (find_none _ _ E) in Hin. by apply bool_decide_eq_false in Hin.
Qed.

Lemma own_value values value p v : (forall p v, (p, v) ∈ values -> value p = v) -> own values p = Some v -> v = value p.
Proof.
  intros Hv. unfold own. destruct (List.find _ values) as [[k x]|] eqn:E; [|done]. intros [= <-].
  apply find_some in E as [Hin%list_elem_of_In Hk]. apply bool_decide_eq_true in Hk as <-. symmetry. by apply Hv.
Qed.

Lemma refused_unless {A} (P : A -> Prop) (dec : forall x, Decision (P x)) (f : A -> bool) l code {B} (k : result B) :
  (forall x, x ∈ l -> f x = true <-> ~ P x) ->
  (refuse (List.filter f l <> []) with code ;; k) = if decide (Forall P l) then k else Err (DomainError code).
Proof.
  intros Hf. assert (Hn : List.filter f l = [] <-> Forall P l).
  { rewrite filter_nil_iff, Forall_forall. split; intros H x Hx; specialize (H x Hx); specialize (Hf x Hx).
    - destruct (decide (P x)) as [|N]; [done|]. apply Hf in N. congruence.
    - apply not_true_is_false. intros E. by apply Hf in E. }
  destruct (decide (Forall P l)) as [Hall|Hall].
  - apply Hn in Hall. rewrite Hall. case_decide as E; [by destruct E|done].
  - case_decide as E; [done|]. exfalso. apply Hall, (proj1 Hn). destruct (List.filter f l); [done|by destruct E].
Qed.

(** C31: A body with a pair of braces that no placeholder follows is refused as malformed.  A
    body in which every pair of braces opens a placeholder, none named like a member every
    object inherits, renders exactly when the values' names are its placeholders: a value
    for no placeholder is refused as unknown, else a placeholder without value as missing,
    and otherwise each placeholder is replaced by its value and every other character is
    copied, under the exact version of the template. *)
Theorem render_exact (nativeText : string -> string) (t : MessageTemplate) (values : list (string * string)) :
  (forall pre post, explode (mt_body t) = pre ++ explode "{{" ++ post -> no_placeholder (explode "{{" ++ post) ->
     renderTemplate nativeText t values = Err (DomainError "COMMS_TEMPLATE_BODY_MALFORMED")) /\
  (forall value names out, (forall p v, (p, v) ∈ values -> value p = v) ->
     filled value (explode (mt_body t)) names out -> Forall (fun p => inherited p = false) names ->
     renderTemplate nativeText t values =
       if decide (Forall (.∈ names) (fst <$> values)) then
         if decide (Forall (.∈ fst <$> values) names) then Ok (MkRendered (implode out) (MkTemplateRef (mt_id t) (mt_version t)))
         else Err (DomainError "COMMS_TEMPLATE_VALUE_MISSING")
       else Err (DomainError "COMMS_TEMPLATE_VALUE_UNKNOWN")).
Proof.
  split.
  - intros pre post E Hno. unfold renderTemplate, extractPlaceholders. rewrite E, extractLoop_malformed; [done|lia|by apply opens_spec; eexists|done].
  - intros value names out Hv Hf Hinh. unfold renderTemplate, extractPlaceholders.
    rewrite (filled_extract value _ _ _ Hf) by lia. cbn [mbind result_bind].
    assert (Hd : forall p, p ∈ foldl addDistinct [] names <-> p ∈ names) by (intros p; apply distinct_elem).
    rewrite (refused_unless (.∈ names) _) by (intros x _; rewrite negb_true_iff, bool_decide_eq_false, Hd; done). destruct (decide _); [|done].
    rewrite (refused_unless (.∈ fst <$> values) _).
    2: { intros p Hp%Hd. rewrite Forall_forall in Hinh. rewrite (Hinh p Hp), orb_false_r, negb_true_iff, bool_decide_eq_false. done. }
    destruct (decide (Forall (.∈ fst <$> values) (foldl addDistinct [] names))) as [Hall|Hall];
      destruct (decide (Forall (.∈ fst <$> values) names)) as [Hall'|Hall']; rewrite Forall_forall in Hall, Hall'; [|exfalso; naive_solver..|done].
    do 2 f_equal. unfold segments. rewrite (filled_scan value _ _ out _ Hf); [done|]. intros p Hp. unfold valueText.
    destruct (proj1 (own_Some values p) (Hall' p Hp)) as [v Ev]. rewrite Ev. by eapply own_value.
Qed.

(** ** Versions are immutable *)

(** What callers do with the registry: they append the registered row. *)
Inductive template_step (registry : list MessageTemplate) : list MessageTemplate -> Prop :=
| template_registered args clock t : registerTemplate args registry clock = Ok t -> template_step registry (registry ++ [t]).

Record templates_wf (registry : list MessageTemplate) : Prop := {
  tp_ids : NoDup (mt_id <$> registry);
  tp_versions : NoDup ((fun t => (keyOf t, mt_version t)) <$> registry);
  tp_rows : Forall (fun t => 1 <= mt_version t /\ exists names, extractPlaceholders (mt_body t) = Ok names) registry;
}.

Lemma registerTemplate_Ok args registry clock t : registerTemplate args registry clock = Ok t ->
  mt_id t ∉ mt_id <$> registry /\ (keyOf t, mt_version t) ∉ (fun t => (keyOf t, mt_version t)) <$> registry /\
  1 <= mt_version t /\ mt_body t = ra_body args /\ exists names, extractPlaceholders (mt_body t) = Ok names.
Proof.
  unfold registerTemplate, assertTemplateBody, assertVersion. intros H. apply bind_Ok in H as (ch & _ & H).
  apply guard_Ok in H as [_ H]. apply guard_Ok in H as [_ H]. apply bind_Ok in H as (body & Hb & H). apply bind_Ok in H as (version & Hv & H).
  apply guard_Ok in Hb as [_ Hb]. apply bind_Ok in Hb as (names & Hn & Hb). apply (inj Ok) in Hb as <-.
  destruct (integerValue _) as [z|]; [|done]. apply guard_Ok in Hv as [Hz Hv]. apply (inj Ok) in Hv as <-.
  apply guard_Ok in H as [H1 H]. apply guard_Ok in H as [H2 H]. apply (inj Ok) in H as <-. cbn.
  split; [done|]. split; [done|]. split; [lia|]. split; [done|]. by exists names.
Qed.

Lemma template_step_wf registry registry' : templates_wf registry -> template_step registry registry' -> templates_wf registry'.
Proof.
  intros [H1 H2 H3] [args clock t H]. apply registerTemplate_Ok in H as (Hid & Hv & H4 & _ & H5).
  split; rewrite ?fmap_app; [by apply NoDup_snoc_2..|by apply Forall_snoc_2].
Qed.

Lemma findTemplate_Some registry key version t : findTemplate registry key version = Some t -> t ∈ registry /\ keyOf t = key /\ mt_version t = version.
Proof.
  unfold findTemplate, sameKey. intros H. apply find_some in H as [Hin H]. apply andb_true_iff in H as [H1 H2].
  apply bool_decide_eq_true in H1. apply Z.eqb_eq in H2. split; [by apply list_elem_of_In|done].
Qed.

Lemma highestVersion_bound registry key t : Forall (fun t => 1 <= mt_version t) registry -> t ∈ registry -> keyOf t = key ->
  mt_version t <= highestVersion registry key.
Proof.
  intros Hall. unfold highestVersion. induction registry as [|x l IH] using rev_ind; [intros H; by apply elem_of_nil in H|].
  apply Forall_app in Hall as [Hall _]. rewrite foldl_app. cbn [foldl]. intros Hin Hkey.
  set (m := foldl _ 0 l) in *. apply elem_of_app in Hin as [Hin|Hin].
  - specialize (IH Hall Hin Hkey). destruct (sameKey key x && (m <? mt_version x)) eqn:E; [|done]. apply andb_true_iff in E as [_ E]. apply Z.ltb_lt in E. lia.
  - apply list_elem_of_singleton in Hin as ->. unfold sameKey. rewrite Hkey, bool_decide_eq_true_2 by done. cbn [andb].
    destruct (m <? mt_version x) eqn:E; [lia|]. apply Z.ltb_ge in E. lia.
Qed.

Lemma highestVersion_nonneg registry key : Forall (fun t => 1 <= mt_version t) registry -> 0 <= highestVersion registry key.
Proof.
  unfold highestVersion. induction registry as [|x l IH] using rev_ind; [done|]. intros Hall. apply Forall_app in Hall as [Hall Hx].
  apply Forall_cons in Hx as [Hx _]. rewrite foldl_app. cbn [foldl]. specialize (IH Hall). destruct (_ && _); [cbn in Hx; lia|done].
Qed.

(** A pinned version serves the same row for ever, whatever is registered later; every
    stored body has its placeholders extracted; and the next version number is free while
    numbers stay below 2^53. *)
Theorem pinned_versions_never_change registry registry' key version t :
  rtc template_step [] registry -> findTemplate registry key version = Some t -> rtc template_step registry registry' ->
  findTemplate registry' key version = Some t /\ t ∈ registry' /\ NoDup (mt_id <$> registry') /\
  (exists names, extractPlaceholders (mt_body t) = Ok names) /\
  (highestVersion registry' key + 1 < 2 ^ 53 -> exists next, integerValue (nextTemplateVersion registry' key) = Some next /\
    version < next /\ findTemplate registry' key next = None).
Proof.
  intros H0 Hf Hr.
  assert (Hwf : templates_wf registry').
  { assert (Hall : rtc template_step [] registry') by (by etrans). revert Hall.
    apply (rtc_ind_r (fun l => templates_wf l)); [by repeat constructor|]. intros l l' _ Hs Hl. by eapply template_step_wf. }
  assert (Hf' : findTemplate registry' key version = Some t).
  { clear Hwf. revert registry' Hr. apply (rtc_ind_r (fun l => findTemplate l key version = Some t)); [done|].
    intros l l' _ [args clock t' H] IH. by apply find_app_some. }
  destruct (findTemplate_Some _ _ _ _ Hf') as (Hin & Hkey & Hver). destruct Hwf as [H1 _ H3]. split; [done|]. split; [done|]. split; [done|].
  assert (Hpos : Forall (fun t => 1 <= mt_version t) registry') by (eapply Forall_impl; [exact H3|]; by intros x [? _]).
  rewrite Forall_forall in H3. split; [apply (H3 t Hin)|]. intros Hbig. exists (highestVersion registry' key + 1).
  assert (Hnn := highestVersion_nonneg registry' key Hpos). unfold nextTemplateVersion. rewrite nadd_num, integerValue_num by lia. split; [done|].
  assert (Hle := highestVersion_bound registry' key t Hpos Hin Hkey). split; [lia|].
  destruct (findTemplate registry' key (highestVersion registry' key + 1)) as [x|] eqn:E; [|done].
  apply findTemplate_Some in E as (Hx & Hkx & Hvx). assert (Hlx := highestVersion_bound registry' key x Hpos Hx Hkx). lia.
Qed.

(** ** Concrete templates *)

Definition sample_template (body : string) : MessageTemplate := MkTemplate "t1" "org" "due" comms_sms "en-KE" body 1 "2026-01-01T00:00:00.000Z".

Lemma render_exact_witness :
  renderTemplate (fun _ => "") (sample_template "Pay {{ sum }}!") [("sum", "KES 5")] = Ok (MkRendered "Pay KES 5!" (MkTemplateRef "t1" 1)) /\
  renderTemplate (fun _ => "") (sample_template "Pay {{sum}") [("sum", "KES 5")] = Err (DomainError "COMMS_TEMPLATE_BODY_MALFORMED").
Proof.
  split.
  - apply (proj2 (render_exact (fun _ => "") (sample_template "Pay {{ sum }}!") [("sum", "KES 5")]) (fun _ => "KES 5") ["sum"] (explode "Pay KES 5!")).
    + intros p v Hin. apply list_elem_of_singleton in Hin as [= _ ->]. done.
    + do 4 (apply filled_char; [intros r; discriminate|]). apply (filled_slot (fun _ => "KES 5") (explode "{{ sum }}") "sum" (explode "!") [] (explode "!")).
      * exists [" "%char], [" "%char]. split; [done|]. repeat constructor. discriminate.
      * repeat constructor. intros r; discriminate.
    + repeat constructor.
  - apply (proj1 (render_exact (fun _ => "") (sample_template "Pay {{sum}") [("sum", "KES 5")]) (explode "Pay ") (explode "sum}")); [done|].
    intros pre text name rest E (a & b & -> & _). apply (f_equal (List.filter (Ascii.eqb "}"))) in E. rewrite !List.filter_app in E.
    apply (f_equal length) in E. rewrite !length_app in E. cbn in E. lia.
Defined.

Lemma pinned_versions_never_change_witness :
  exists t, findTemplate [t] ("org", "due", comms_sms, "en-KE") 1 = Some t /\ mt_body t = "Hi {{name}}" /\ NoDup (mt_id <$> [t]).
Proof.
  assert (Hreg : exists t, registerTemplate (MkRegisterArgs "t1" "org" "due" "sms" "en-KE" "Hi {{name}}" (num 1)) [] (fixed_clock 0) = Ok t /\
    mt_body t = "Hi {{name}}" /\ findTemplate [t] ("org", "due", comms_sms, "en-KE") 1 = Some t) by (eexists; vm_compute; done).
  destruct Hreg as (t & Hreg & Hb & Hfind). exists t. split; [done|]. split; [done|].
  assert (Hrtc : rtc template_step [] [t]) by (apply rtc_once; by apply (template_registered [] _ _ _ Hreg)).
  apply (pinned_versions_never_change [t] [t] ("org", "due", comms_sms, "en-KE") 1 t Hrtc Hfind). constructor.
Defined.

(** The expression is not anchored: a malformed placeholder is accepted when a valid one
    follows it, and its text reaches the customer. *)
Theorem malformed_placeholder_is_accepted nativeText :
  extractPlaceholders "Pay {{due-date}} to {{name}}" = Ok ["name"] /\
  extractPlaceholders "Pay {{due-date}}" = Err (DomainError "COMMS_TEMPLATE_BODY_MALFORMED") /\
  (exists r, renderTemplate nativeText (sample_template "Pay {{due-date}} to {{name}}") [("name", "Ann")] = Ok r /\
    rm_body r = "Pay {{due-date}} to Ann").
Proof. split; [vm_compute; done|]. split; [vm_compute; done|]. eexists. vm_compute. done. Qed.

(** The test for a missing value uses [in], which also finds inherited members: a template
    with a placeholder named like one renders the engine's text for it. *)
Theorem inherited_member_is_rendered nativeText :
  exists r, renderTemplate nativeText (sample_template "Dear {{constructor}}") [] = Ok r /\ rm_body r = "Dear " +:+ nativeText "constructor".
Proof.
  eexists. split; [unfold renderTemplate; replace (extractPlaceholders (mt_body (sample_template "Dear {{constructor}}"))) with (Ok (A := list string) ["constructor"]) by (vm_compute; done)|].
  - reflexivity.
  - apply explode_inj. cbn [rm_body]. rewrite explode_app, explode_implode.
    replace (segments _) with [literal "D"; literal "e"; literal "a"; literal "r"; literal " "; slot "constructor" (explode "{{constructor}}")]
      by (vm_compute; done).
    cbn [fmap list_fmap mjoin list_join renderSegment].
    change (valueText nativeText [] "constructor") with (nativeText "constructor"). by rewrite app_nil_r.
Qed.
