(* ===== verification/EventCatalog.v ===== *)
(** * The event catalogue and its envelope

    src/domain/events: catalog.ts (the 27 names, their versions and the minor-unit guard),
    envelope.ts (the validator and the constructor of an envelope) and defineEvent.ts.

    A payload is a dynamic value ([jvalue]): the payload interfaces of the catalogue exist
    only for the compiler, and what the code checks at run time is serializability.  Values
    are trees, so the [seen] set of the source, which tells cycles from sharing, is not
    needed.  The version an envelope carries is untyped input too. *)

From stdpp Require Import prelude strings list.
From Stdlib Require Import ZArith Lia Ascii.
From S2P Require Import Prelude JsNumber JsString JsDate IsoDate JsJson Fx AuditRedact AuditTrail.
Local Open Scope string_scope.
Local Open Scope list_scope.
Local Open Scope Z_scope.
Local Open Scope js_scope.

(** ** Catalogue *)

Definition EVENT_NAMES : list string :=
  ["invoicing.invoiceNumberAllocated"; "invoicing.invoiceIssued"; "invoicing.invoiceSent"; "invoicing.invoiceVoided";
   "receivable.opened"; "receivable.partiallySettled"; "receivable.settled"; "receivable.overdue";
   "receivable.writtenOff"; "receivable.recovered";
   "payment.initiated"; "payment.confirmed"; "payment.failed"; "payment.reversed"; "payments.duplicateCallbackObserved";
   "reconciliation.paymentMatched"; "reconciliation.paymentPartiallyMatched"; "reconciliation.matchReversed";
   "adjustment.creditNoteIssued"; "adjustment.creditNoteApplied"; "adjustment.refundRequested";
   "adjustment.refundCompleted"; "adjustment.creditBalanceApplied";
   "allocation.executed"; "allocation.reversed"; "collections.caseOpened"; "collections.promiseBroken"].

(** Every name is at version 1. *)
Definition EVENT_VERSIONS : list (string * Z) := (fun name => (name, 1)) <$> EVENT_NAMES.

Definition versionOf (name : string) : option Z :=
  snd <$> List.find (fun e => bool_decide (e.1 = name)) EVENT_VERSIONS.

Definition isEventName (value : string) : bool := existsb (fun n => bool_decide (n = value)) EVENT_NAMES.

(** [minorUnits]; [Number(bigint)] is exact up to [MAX_SAFE_INTEGER] and at least [2^53] in
    magnitude beyond it. *)
Definition eventMinorUnits (amount : numeric) : result Z :=
  match amount with
  | Big z => refuse (Z.abs z > MAX_SAFE_INTEGER) with "EVENT_AMOUNT_NOT_SAFE_INTEGER" ;; Ok z
  | Num x => match safeInteger x with Some z => Ok z | None => Err (DomainError "EVENT_AMOUNT_NOT_SAFE_INTEGER") end
  end.

Definition assertEventName (name : string) : result unit :=
  refuse (EVENT_NAME_PATTERN name = false) with "EVENT_NAME_MALFORMED" ;;
  refuse (isEventName name = false) with "EVENT_UNKNOWN" ;;
  Ok tt.

Record EventDefinition := MkEventDefinition { ed_name : string; ed_version : Z }.

Definition defineEvent (name : string) (version : number) : result EventDefinition :=
  _ ← assertEventName name;
  let catalogVersion := default 1 (versionOf name) in
  refuse (safeInteger version <> Some catalogVersion) with "EVENT_VERSION_UNSUPPORTED" ;;
  Ok (MkEventDefinition name catalogVersion).

(** ** Envelope *)

Record DomainEvent := MkDomainEvent {
  de_eventId : Uuid;
  de_name : string;
  de_version : jvalue;
  de_occurredAt : DateInput;
  de_aggregateId : Uuid;
  de_correlationId : option Uuid;
  de_payload : jvalue;
}.

Record EnvelopeOptions := MkEnvelopeOptions {
  eo_eventId : Uuid;
  eo_aggregateId : Uuid;
  eo_correlationId : option Uuid;
  eo_occurredAt : DateInput;
}.

Definition assertUuid (value : Uuid) : result Uuid :=
  refuse (UUID_PATTERN value = false) with "EVENT_ID_INVALID" ;; Ok value.

Definition assertUuidOption (value : option Uuid) : result (option Uuid) :=
  match value with None => Ok None | Some v => u ← assertUuid v; Ok (Some u) end.

Definition notSerializable {A} : result A := Err (DomainError "EVENT_PAYLOAD_NOT_SERIALIZABLE").

Definition MAX_PAYLOAD_DEPTH : Z := 24.

Fixpoint assertMemberSerializable (depth : Z) (value : jvalue) : result unit :=
  if decide (MAX_PAYLOAD_DEPTH < depth) then notSerializable else
  match value with
  | JString _ | JBool _ | JNull => Ok tt
  | JNumber x => if isFinite x then Ok tt else notSerializable
  | JBigInt _ | JFunction | JUndefined => notSerializable
  | JArray items => forEach (assertMemberSerializable (depth + 1)) items
  | JObject members => forEach (fun e => assertMemberSerializable (depth + 1) e.2) members
  | JInstance _ => notSerializable
  end.

Definition assertSerializablePayload (payload : jvalue) : result unit :=
  match payload with
  | JUndefined | JNull => Err (DomainError "EVENT_PAYLOAD_REQUIRED")
  | JObject _ | JInstance _ => assertMemberSerializable 0 payload
  | _ => notSerializable
  end.

Section parsing.
  Context (Date_parse : string -> option Z).

Definition normalizeOccurredAt (input : DateInput) : result string :=
  match input with
  | DateObject None => Err (DomainError "EVENT_OCCURRED_AT_INVALID")
  | DateObject (Some t) => Ok (toISOString t)
  | DateText s =>
      if ISO_PATTERN s && bool_decide (is_Some (Date_parse s)) then Ok s
      else Err (DomainError "EVENT_OCCURRED_AT_INVALID")
  end.

Definition validateEnvelope (event : DomainEvent) : result unit :=
  let name := de_name event in
  _ ← assertEventName name;
  refuse (strict_equal (de_version event) (JNumber (num (default 1 (versionOf name)))) = false) with "EVENT_VERSION_UNSUPPORTED" ;;
  _ ← assertUuid (de_eventId event);
  _ ← assertUuid (de_aggregateId event);
  _ ← assertUuidOption (de_correlationId event);
  match de_occurredAt event with
  | DateObject _ => Err (DomainError "EVENT_OCCURRED_AT_INVALID")
  | DateText s =>
      _ ← normalizeOccurredAt (DateText s);
      assertSerializablePayload (de_payload event)
  end.

Definition makeEnvelope (name : string) (options : EnvelopeOptions) (payload : jvalue) : result DomainEvent :=
  _ ← assertEventName name;
  _ ← assertSerializablePayload payload;
  eventId ← assertUuid (eo_eventId options);
  occurredAt ← normalizeOccurredAt (eo_occurredAt options);
  aggregateId ← assertUuid (eo_aggregateId options);
  correlationId ← assertUuidOption (eo_correlationId options);
  Ok (MkDomainEvent eventId name (JNumber (num (default 1 (versionOf name)))) (DateText occurredAt) aggregateId correlationId payload).
End parsing.

Arguments isEventName : simpl never.
Arguments versionOf : simpl never.
Arguments EVENT_NAME_PATTERN : simpl never.
Arguments assertUuid : simpl never.

(** ** Names *)

Lemma isEventName_elem n : isEventName n = true <-> n ∈ EVENT_NAMES.
Proof.
  unfold isEventName. rewrite existsb_exists. split.
  - intros (x & Hx & E%bool_decide_eq_true). subst. by apply list_elem_of_In.
  - intros H%list_elem_of_In. exists n. split; [done|]. by apply bool_decide_eq_true.
Qed.

(** The catalogue follows its own naming convention, without repetition, at one version. *)
Lemma catalogue_well_formed : NoDup EVENT_NAMES /\ length EVENT_NAMES = 27%nat /\
  forall n, n ∈ EVENT_NAMES -> EVENT_NAME_PATTERN n = true /\ versionOf n = Some 1.
Proof.
  split; [apply (bool_decide_unpack _); vm_compute; exact I|]. split; [done|].
  assert (forallb (fun n => EVENT_NAME_PATTERN n && bool_decide (versionOf n = Some 1)) EVENT_NAMES = true) as H by (vm_compute; reflexivity).
  intros n Hn. rewrite forallb_forall in H. apply list_elem_of_In in Hn. specialize (H n Hn).
  apply andb_true_iff in H as [H1 H2]. by apply bool_decide_eq_true in H2.
Qed.

Lemma assertEventName_Ok n : assertEventName n = Ok tt <-> n ∈ EVENT_NAMES.
Proof.
  unfold assertEventName. rewrite <- isEventName_elem. split.
  - intros H. apply guard_Ok in H as [_ H]. apply guard_Ok in H as [H _]. by destruct (isEventName n).
  - intros H. destruct catalogue_well_formed as (_ & _ & Hw). destruct (Hw n) as [Hp _]; [by apply isEventName_elem|].
    by rewrite Hp, H.
Qed.

(** The three answers to a name: malformed, unknown, or one of the catalogue. *)
Theorem event_names_exact n :
  (assertEventName n = Ok tt <-> n ∈ EVENT_NAMES) /\
  (assertEventName n = Err (DomainError "EVENT_NAME_MALFORMED") <-> EVENT_NAME_PATTERN n = false) /\
  (assertEventName n = Err (DomainError "EVENT_UNKNOWN") <-> EVENT_NAME_PATTERN n = true /\ n ∉ EVENT_NAMES) /\
  forall v d, defineEvent n v = Ok d <-> n ∈ EVENT_NAMES /\ safeInteger v = Some 1 /\ d = MkEventDefinition n 1.
Proof.
  split; [apply assertEventName_Ok|]. split; [|split].
  - unfold assertEventName. repeat case_decide; destruct (EVENT_NAME_PATTERN n); done.
  - unfold assertEventName. rewrite <- isEventName_elem.
    repeat case_decide; destruct (EVENT_NAME_PATTERN n), (isEventName n); naive_solver.
  - intros v d. unfold defineEvent. split.
    + intros H. apply bind_Ok in H as ([] & Hn%assertEventName_Ok & H). apply guard_Ok in H as [Hv H].
      destruct catalogue_well_formed as (_ & _ & Hw). destruct (Hw n Hn) as [_ E]. rewrite E in *. cbn in *.
      apply dec_stable in Hv. injection H as <-. done.
    + intros (Hn & Hv & ->). destruct catalogue_well_formed as (_ & _ & Hw). destruct (Hw n Hn) as [_ E].
      rewrite E. apply assertEventName_Ok in Hn. rewrite Hn. cbn. rewrite Hv. done.
Qed.

(** ** Payloads *)

(** The levels of a value below its root. *)
Fixpoint nesting (v : jvalue) : Z :=
  match v with
  | JArray items => foldr (fun x m => Z.max (1 + nesting x) m) 0 items
  | JObject members | JInstance members => foldr (fun e m => Z.max (1 + nesting e.2) m) 0 members
  | _ => 0
  end.

(** Nothing [JSON.stringify] would drop, replace or refuse. *)
Fixpoint lossless (v : jvalue) : bool :=
  match v with
  | JNull | JBool _ | JString _ => true
  | JNumber x => isFinite x
  | JArray items => forallb lossless items
  | JObject members => forallb (fun e => lossless e.2) members
  | JUndefined | JBigInt _ | JFunction | JInstance _ => false
  end.

(** The text of such a value, with every item and every member in it. *)
Fixpoint wire (v : jvalue) : chars :=
  match v with
  | JNull => explode "null"
  | JBool b => explode (if b then "true" else "false")
  | JNumber x => explode (show_number x)
  | JString s => stringify s
  | JArray items => "["%char :: joinWith "," (wire <$> items) ++ ["]"%char]
  | JObject members | JInstance members =>
      "{"%char :: joinWith "," ((fun e => memberJson e.1 (wire e.2)) <$> members) ++ ["}"%char]
  | JUndefined | JBigInt _ | JFunction => []
  end.

Lemma nesting_nonneg v : 0 <= nesting v.
Proof.
  destruct v as [| | | | | | |l|es|es]; cbn; try lia.
  1: induction l as [|x l IH]; cbn; lia. all: induction es as [|x l IH]; cbn; lia.
Qed.

(** The bound on a container is the bound on what it holds, one level down. *)
Lemma fold_nesting {A} (f : A -> Z) l d n : 0 <= n - d -> (d + foldr (fun x m => Z.max (1 + f x) m) 0 l <= n <-> Forall (fun x => d + 1 + f x <= n) l).
Proof.
  intros Hd. induction l as [|x l IH]; cbn; [split; [constructor|lia]|]. rewrite Forall_cons, <- IH. lia.
Qed.

Lemma assertMember_Ok v : forall d, assertMemberSerializable d v = Ok tt <-> d + nesting v <= MAX_PAYLOAD_DEPTH /\ lossless v = true.
Proof.
  induction v as [v Hv|l IH|es IH|es IH] using jvalue_rec'; intros d; cbn.
  - destruct v; try done; cbn; case_decide; rewrite ?Z.add_0_r; try destruct (isFinite x); naive_solver lia.
  - rewrite forallb_Forall. case_decide.
    { pose proof (nesting_nonneg (JArray l)) as Hn. cbn in Hn. split; [done|lia]. }
    rewrite forEach_Ok, fold_nesting by lia. rewrite <- Forall_and. rewrite !Forall_forall in *.
    split; intros H' x Hx; by apply (IH x Hx), H'.
  - rewrite forallb_Forall. case_decide.
    { pose proof (nesting_nonneg (JObject es)) as Hn. cbn in Hn. split; [done|lia]. }
    rewrite forEach_Ok, (fold_nesting (fun e => nesting e.2)) by lia. rewrite <- Forall_and. rewrite !Forall_forall in *.
    split; intros H' x Hx; by apply (IH x Hx), H'.
  - case_decide; split; try done; by intros [_ ?].
Qed.

Lemma lossless_stringify v : lossless v = true -> JSON_stringify v = Ok (Some (wire v)).
Proof.
  induction v as [v Hv|l IH|es IH|es IH] using jvalue_rec'; cbn; intros H.
  - destruct v; try done; cbn in *. by rewrite H.
  - rewrite forallb_Forall in H. match goal with |- context [?f l] => assert (f l = Ok (wire <$> l)) as ->; [|done] end.
    induction IH as [|x l Hx IH' IHl]; [done|]. apply Forall_cons in H as [H1 H2]. cbn.
    rewrite (Hx H1), (IHl H2). done.
  - rewrite forallb_Forall in H.
    match goal with |- context [?f es] => assert (f es = Ok ((fun e => memberJson e.1 (wire e.2)) <$> es)) as ->; [|done] end.
    induction IH as [|[k x] es Hx IH' IHl]; [done|]. apply Forall_cons in H as [H1 H2]. cbn in *.
    rewrite (Hx H1), (IHl H2). done.
  - done.
Qed.

(** The payload gate: an object passes exactly when all that it holds survives the wire and
    it nests at most 24 levels deep, and what passes has a text that leaves nothing out. *)
Theorem payload_gate_exact v :
  (assertSerializablePayload v = Ok tt <-> (exists es, v = JObject es) /\ nesting v <= MAX_PAYLOAD_DEPTH /\ lossless v = true) /\
  (assertSerializablePayload v = Ok tt -> JSON_stringify v = Ok (Some (wire v))).
Proof.
  assert (assertSerializablePayload v = Ok tt <-> (exists es, v = JObject es) /\ nesting v <= MAX_PAYLOAD_DEPTH /\ lossless v = true) as H.
  { unfold assertSerializablePayload, notSerializable. destruct v; try (split; [done|by intros [[? [=]] _]]).
    rewrite assertMember_Ok. split; [|intros [_ H]]; eauto. }
  split; [exact H|]. intros (_ & _ & Hl)%H. by apply lossless_stringify.
Qed.

(** ** Envelopes *)

Section envelopes.
  Context (Date_parse : string -> option Z).

(** The wire contract. *)
Record valid_envelope (e : DomainEvent) : Prop := {
  valid_name : de_name e ∈ EVENT_NAMES;
  valid_version : strict_equal (de_version e) (JNumber (num 1)) = true;
  valid_eventId : UUID_PATTERN (de_eventId e) = true;
  valid_aggregateId : UUID_PATTERN (de_aggregateId e) = true;
  valid_correlationId : forall c, de_correlationId e = Some c -> UUID_PATTERN c = true;
  valid_occurredAt : exists s, de_occurredAt e = DateText s /\ ISO_PATTERN s = true /\ is_Some (Date_parse s);
  valid_payload : (exists es, de_payload e = JObject es) /\ nesting (de_payload e) <= MAX_PAYLOAD_DEPTH /\ lossless (de_payload e) = true;
}.

Lemma assertUuid_Ok u v : assertUuid u = Ok v <-> UUID_PATTERN u = true /\ v = u.
Proof.
  unfold assertUuid. case_decide as Hu; [split; [done|intros [E _]; congruence]|].
  apply not_false_iff_true in Hu. split; [by intros [= <-]|by intros [_ ->]].
Qed.

Lemma assertUuidOption_Ok o v : assertUuidOption o = Ok v <-> (forall c, o = Some c -> UUID_PATTERN c = true) /\ v = o.
Proof.
  destruct o as [c|]; cbn; [|by split; [intros [= <-]|intros [_ ->]]]. split.
  - intros H. apply bind_Ok in H as (u & Hu & H). apply assertUuid_Ok in Hu as [Hu ->]. injection H as <-.
    split; [by intros ? [= <-]|done].
  - intros [H ->]. assert (assertUuid c = Ok c) as -> by (apply assertUuid_Ok; split; [by apply H|done]). done.
Qed.

Lemma normalize_text s s' : normalizeOccurredAt Date_parse (DateText s) = Ok s' <->
  s' = s /\ ISO_PATTERN s = true /\ is_Some (Date_parse s).
Proof. cbn. destruct (ISO_PATTERN s); cbn; [case_bool_decide|]; naive_solver. Qed.

(** The gatekeeper accepts exactly the envelopes of the wire contract. *)
Theorem envelope_validation_exact e : validateEnvelope Date_parse e = Ok tt <-> valid_envelope e.
Proof.
  destruct catalogue_well_formed as (_ & _ & Hw). unfold validateEnvelope. split.
  - intros H. apply bind_Ok in H as ([] & Hn%assertEventName_Ok & H). destruct (Hw _ Hn) as [_ Ev]. rewrite Ev in H. cbn [default] in H.
    apply guard_Ok in H as [Hv H]. apply bind_Ok in H as (? & [Hid _]%assertUuid_Ok & H).
    apply bind_Ok in H as (? & [Hag _]%assertUuid_Ok & H). apply bind_Ok in H as (? & [Hc _]%assertUuidOption_Ok & H).
    destruct (de_occurredAt e) as [|s] eqn:Eo; [done|]. apply bind_Ok in H as (s' & (-> & Hs)%normalize_text & H).
    apply (proj1 (payload_gate_exact _)) in H. by constructor; eauto; destruct strict_equal.
  - intros [Hn Hv Hid Hag Hc (s & Eo & Hs) Hp]. destruct (Hw _ Hn) as [_ Ev]. rewrite Ev. apply assertEventName_Ok in Hn.
    rewrite Hn. change (default 1 (Some 1)) with 1. cbn [mbind result_bind]. rewrite Hv, Eo.
    rewrite (proj2 (assertUuid_Ok _ _) (conj Hid eq_refl)), (proj2 (assertUuid_Ok _ _) (conj Hag eq_refl)).
    rewrite (proj2 (assertUuidOption_Ok _ _) (conj Hc eq_refl)).
    rewrite (proj2 (normalize_text s s) (conj eq_refl Hs)). by apply payload_gate_exact.
Qed.

(** An instant that prints in the four-digit form: text, or a date of the years 0 to 9999. *)
Definition prints_iso (i : DateInput) : Prop := match i with DateObject (Some t) => iso_time t | _ => True end.

(** What the constructor builds passes the gatekeeper, with the fields it was given. *)
Theorem made_envelopes_are_valid `{!DateParser Date_parse} nm options pl e :
  prints_iso (eo_occurredAt options) -> makeEnvelope Date_parse nm options pl = Ok e ->
  validateEnvelope Date_parse e = Ok tt /\ de_name e = nm /\ de_eventId e = eo_eventId options /\
  de_aggregateId e = eo_aggregateId options /\ de_correlationId e = eo_correlationId options /\ de_payload e = pl.
Proof.
  intros Hi H. unfold makeEnvelope in H. destruct catalogue_well_formed as (_ & _ & Hw).
  apply bind_Ok in H as ([] & Hn%assertEventName_Ok & H). destruct (Hw _ Hn) as [_ Ev]. rewrite Ev in H. cbn [default] in H.
  apply bind_Ok in H as ([] & Hp & H). apply bind_Ok in H as (? & [Hid ->]%assertUuid_Ok & H).
  apply bind_Ok in H as (s & Hs & H). apply bind_Ok in H as (? & [Hag ->]%assertUuid_Ok & H).
  apply bind_Ok in H as (? & [Hc ->]%assertUuidOption_Ok & H). injection H as <-.
  split; [|done]. apply envelope_validation_exact. constructor; cbn; try done.
  - exists s. split; [done|]. destruct (eo_occurredAt options) as [[t|]|s0]; [|done|].
    + cbn in Hs. injection Hs as <-. rewrite parse_iso by done. split; [|by eexists].
      destruct (iso_layout t Hi) as (Y & M & D & h & mi & sec & f & E & Hpr).
      rewrite <- (implode_explode (toISOString t)), E. exact (iso_pattern_printed _ _ _ _ _ _ _ _ Hpr).
    + by apply normalize_text in Hs as (-> & Hs).
  - by apply payload_gate_exact.
Qed.
End envelopes.

(** ** Samples *)

Definition sample_uuid : Uuid := "0a1b2c3d-0000-4000-8000-000000000001".

Definition sample_options (at_ : DateInput) : EnvelopeOptions := MkEnvelopeOptions sample_uuid sample_uuid None at_.

Definition sample_event_payload : jvalue := JObject [("paymentId", JString sample_uuid); ("requestedMinor", JNumber (num 1500))].

Lemma made_envelopes_are_valid_witness : exists e,
  makeEnvelope Date_parse_iso "payment.initiated" (sample_options (DateObject (Some 1756800000000))) sample_event_payload = Ok e /\
  de_occurredAt e = DateText "2025-09-02T08:00:00.000Z" /\ validateEnvelope Date_parse_iso e = Ok tt.
Proof.
  eexists. split; [vm_compute; reflexivity|]. split; [reflexivity|].
  refine (proj1 (made_envelopes_are_valid Date_parse_iso "payment.initiated" (sample_options (DateObject (Some 1756800000000)))
    sample_event_payload _ _ _)); [unfold prints_iso, sample_options, iso_time; vm_compute; intuition discriminate|vm_compute; reflexivity].
Defined.

(** A date past the year 9999 prints in the six-digit form: the constructor returns an
    envelope that the gatekeeper refuses. *)
Lemma made_envelope_of_far_date : exists e,
  makeEnvelope Date_parse_iso "payment.initiated" (sample_options (DateObject (Some 253402300800000))) sample_event_payload = Ok e /\
  validateEnvelope Date_parse_iso e = Err (DomainError "EVENT_OCCURRED_AT_INVALID").
Proof. eexists. split; [vm_compute; reflexivity|vm_compute; reflexivity]. Qed.

Example payload_gate_samples :
  assertSerializablePayload (JObject [("amount", JBigInt 5)]) = notSerializable /\
  assertSerializablePayload (JObject [("refs", JArray [JString "a"; JUndefined])]) = notSerializable /\
  assertSerializablePayload (JArray []) = notSerializable /\
  assertSerializablePayload JNull = Err (DomainError "EVENT_PAYLOAD_REQUIRED") /\
  wire sample_event_payload = explode "{" ++ stringify "paymentId" ++ explode ":" ++ stringify sample_uuid ++ explode "," ++
    stringify "requestedMinor" ++ explode ":1500}".
Proof. vm_compute. repeat split. Qed.
