(* ===== verification/Outbox.v ===== *)
(** * The outbox

    src/domain/events/outbox.ts: the append-only sequence of events, the dedupe on event ids,
    the consumers' checkpoints, [drain] and [replay].

    An operation that throws leaves the outbox as it was.  [history] runs a sequence of calls
    from the empty outbox and keeps what every [drain] handed over, which is what the
    delivery guarantee is about.  A cursor is a JavaScript number or absent. *)

From stdpp Require Import prelude strings list gmap.
From Stdlib Require Import ZArith Lia.
From S2P Require Import Prelude JsNumber JsString JsDate IsoDate JsJson Fx EventCatalog.
Local Open Scope string_scope.
Local Open Scope list_scope.
Local Open Scope Z_scope.
Local Open Scope js_scope.

Record Outbox := MkOutbox {
  ob_events : list DomainEvent;
  ob_eventIds : gset string;
  ob_cursors : gmap string Z;
}.

Definition emptyOutbox : Outbox := MkOutbox [] ∅ ∅.

Record DrainResult := MkDrainResult { dr_events : list DomainEvent; dr_nextCursor : Z }.

Definition size (o : Outbox) : Z := Z.of_nat (length (ob_events o)).

Definition assertConsumer (consumer : string) : result unit :=
  refuse (consumer = "") with "OUTBOX_CONSUMER_INVALID" ;; Ok tt.

Section outbox.
  Context (Date_parse : string -> option Z).

Definition append (o : Outbox) (event : DomainEvent) : result Outbox :=
  _ ← validateEnvelope Date_parse event;
  refuse (de_eventId event ∈ ob_eventIds o) with "OUTBOX_DUPLICATE" ;;
  Ok (MkOutbox (ob_events o ++ [event]) ({[de_eventId event]} ∪ ob_eventIds o) (ob_cursors o)).

(** The stored checkpoint, [-1] when there is none. *)
Definition stored (o : Outbox) (consumer : string) : Z := default (-1) (ob_cursors o !! consumer).

Definition cursorOf (o : Outbox) (consumer : string) : result Z :=
  _ ← assertConsumer consumer; Ok (stored o consumer).

Definition assertValidCursor (o : Outbox) (cursor : number) : result Z :=
  match safeInteger cursor with
  | None => Err (DomainError "OUTBOX_CURSOR_INVALID")
  | Some z => refuse (z < -1 \/ z >= size o) with "OUTBOX_CURSOR_INVALID" ;; Ok z
  end.

(** Where a drain starts. *)
Definition drainFrom (o : Outbox) (consumer : string) (cursor : option number) : result Z :=
  _ ← assertConsumer consumer;
  match cursor with None => Ok (stored o consumer) | Some x => assertValidCursor o x end.

(** [slice] counts from the end below zero, but a cursor is at least [-1]. *)
Definition drain (o : Outbox) (consumer : string) (cursor : option number) : result (Outbox * DrainResult) :=
  from ← drainFrom o consumer cursor;
  let batch := drop (Z.to_nat (from + 1)) (ob_events o) in
  let nextCursor := if decide (0 < Z.of_nat (length batch)) then size o - 1 else from in
  let cursors := if decide (nextCursor > stored o consumer) then <[consumer := nextCursor]> (ob_cursors o) else ob_cursors o in
  Ok (MkOutbox (ob_events o) (ob_eventIds o) cursors, MkDrainResult batch nextCursor).

Definition replay (o : Outbox) : list DomainEvent := ob_events o.

(** ** Histories *)

Inductive command :=
| Append (event : DomainEvent)
| Drain (consumer : string) (cursor : option number).

(** What a drain handed over, with the checkpoint before it and where it started. *)
Record delivery := MkDelivery {
  dv_consumer : string;
  dv_checkpoint : Z;
  dv_from : Z;
  dv_result : DrainResult;
}.

Definition exec (s : Outbox * list delivery) (c : command) : Outbox * list delivery :=
  let '(o, log) := s in
  match c with
  | Append event => match append o event with Ok o' => (o', log) | Err _ => s end
  | Drain consumer cursor =>
      match drainFrom o consumer cursor, drain o consumer cursor with
      | Ok from, Ok (o', r) => (o', log ++ [MkDelivery consumer (stored o consumer) from r])
      | _, _ => s
      end
  end.

Definition history (cs : list command) : Outbox * list delivery := foldl exec (emptyOutbox, []) cs.

(** All that a consumer was handed, in order. *)
Definition handed (log : list delivery) (consumer : string) : list DomainEvent :=
  mjoin ((fun d => dr_events (dv_result d)) <$> List.filter (fun d => bool_decide (dv_consumer d = consumer)) log).

(** The consumer never passed a cursor beyond its own checkpoint. *)
Definition never_ahead (log : list delivery) (consumer : string) : Prop :=
  Forall (fun d => dv_consumer d = consumer -> dv_from d <= dv_checkpoint d) log.

(** The consumer always continued from its checkpoint. *)
Definition in_step (log : list delivery) (consumer : string) : Prop :=
  Forall (fun d => dv_consumer d = consumer -> dv_from d = dv_checkpoint d) log.

(** ** The invariant of the outbox *)

Record outbox_wf (o : Outbox) : Prop := {
  wf_ids : NoDup (de_eventId <$> ob_events o);
  wf_set : forall id, id ∈ ob_eventIds o <-> id ∈ de_eventId <$> ob_events o;
  wf_valid : Forall (fun e => validateEnvelope Date_parse e = Ok tt) (ob_events o);
  wf_cursors : forall c z, ob_cursors o !! c = Some z -> c <> "" /\ 0 <= z < size o;
}.

Lemma stored_range o c : outbox_wf o -> -1 <= stored o c /\ stored o c < Z.max 0 (size o).
Proof.
  intros Hw. unfold stored. destruct (ob_cursors o !! c) as [z|] eqn:E; cbn; [|unfold size; lia].
  destruct (wf_cursors _ Hw _ _ E). lia.
Qed.

Lemma drainFrom_Ok o c cur from : outbox_wf o -> drainFrom o c cur = Ok from ->
  c <> "" /\ -1 <= from < Z.max 0 (size o).
Proof.
  intros Hw H. unfold drainFrom, assertConsumer in H. apply bind_Ok in H as ([] & Hc & H). apply guard_Ok in Hc as [Hc _].
  split; [done|]. destruct cur as [x|].
  - unfold assertValidCursor in H. destruct (safeInteger x) as [z|]; [|done]. apply guard_Ok in H as [Hz H].
    injection H as <-. lia.
  - injection H as <-. pose proof (stored_range o c Hw). lia.
Qed.

(** What a drain does, once its start is accepted: the checkpoint becomes the greater of the
    old one and the last index covered. *)
Lemma drain_spec o c cur from : outbox_wf o -> drainFrom o c cur = Ok from ->
  exists o', drain o c cur = Ok (o', MkDrainResult (drop (Z.to_nat (from + 1)) (ob_events o)) (size o - 1)) /\
    ob_events o' = ob_events o /\ ob_eventIds o' = ob_eventIds o /\
    stored o' c = size o - 1 /\ (forall c', c' <> c -> ob_cursors o' !! c' = ob_cursors o !! c') /\
    (0 <= size o - 1 -> ob_cursors o' !! c = Some (size o - 1)) /\ (size o = 0 -> o' = o).
Proof.
  intros Hw Hf. destruct (drainFrom_Ok _ _ _ _ Hw Hf) as [Hc Hr]. pose proof (stored_range o c Hw) as Hs.
  assert (0 <= size o) as Hsz by (unfold size; lia). unfold drain. rewrite Hf. cbn [mbind result_bind].
  assert ((if decide (0 < Z.of_nat (length (drop (Z.to_nat (from + 1)) (ob_events o)))) then size o - 1 else from) = size o - 1) as ->.
  { rewrite length_drop. unfold size in *. case_decide; lia. }
  eexists. split; [reflexivity|]. cbn. unfold stored in *. cbn. case_decide as Hgt.
  - rewrite lookup_insert_eq. do 3 (split; [done|]). split; [|split; [done|intros E0; exfalso; lia]].
    intros c' Hn. by rewrite lookup_insert_ne.
  - assert (size o - 1 = default (-1) (ob_cursors o !! c)) as E by lia. do 4 (split; [done|]). split; [|intros _; by destruct o].
    intros Hp. destruct (ob_cursors o !! c) as [z|]; cbn in *; [by rewrite E|lia].
Qed.

Lemma append_Ok o e o' : append o e = Ok o' <->
  validateEnvelope Date_parse e = Ok tt /\ de_eventId e ∉ ob_eventIds o /\
  o' = MkOutbox (ob_events o ++ [e]) ({[de_eventId e]} ∪ ob_eventIds o) (ob_cursors o).
Proof.
  unfold append. split.
  - intros H. apply bind_Ok in H as ([] & Hv & H). apply guard_Ok in H as [Hn H]. by injection H as <-.
  - intros (Hv & Hn & ->). rewrite Hv. cbn [mbind result_bind]. by rewrite decide_False.
Qed.

Lemma outbox_append_wf o e o' : outbox_wf o -> append o e = Ok o' -> outbox_wf o'.
Proof.
  intros [Hn Hs Hv Hc] (He & Hid & ->)%append_Ok. constructor; cbn.
  - rewrite fmap_app. cbn. apply NoDup_snoc_2; [by rewrite <- Hs|done].
  - intros id. rewrite fmap_app, elem_of_app, elem_of_union, Hs. cbn. set_solver.
  - by apply Forall_snoc_2.
  - intros c z Hz. destruct (Hc c z Hz). unfold size in *. cbn. rewrite length_app. cbn. split; [done|lia].
Qed.

Lemma drain_wf o c cur o' r : outbox_wf o -> drain o c cur = Ok (o', r) -> outbox_wf o'.
Proof.
  intros Hw H. unfold drain in H. destruct (drainFrom o c cur) as [from|] eqn:Hf; [|done].
  destruct (drain_spec _ _ _ _ Hw Hf) as (o2 & E & He & Hi & Hs & Hne & Heq & Hz). unfold drain in E. rewrite Hf in E.
  cbn [mbind result_bind] in H, E. rewrite E in H. injection H as <- <-. destruct Hw as [Hn Hset Hv Hc]. constructor.
  - by rewrite He.
  - by rewrite He, Hi.
  - by rewrite He.
  - intros c' z. unfold size. rewrite He. destruct (decide (c' = c)) as [->|Hcc]; [|rewrite Hne by done; apply Hc].
    intros Hlk. destruct (decide (size o = 0)) as [E0|E0]; [rewrite (Hz E0) in Hlk; by apply Hc|].
    assert (0 <= size o - 1) as Hp by (unfold size in *; lia). rewrite (Heq Hp) in Hlk. injection Hlk as <-.
    split; [|unfold size in *; lia]. apply (drainFrom_Ok o c cur from); [by constructor|done].
Qed.

(** ** Histories and what was handed over *)

Lemma history_snoc cs c : history (cs ++ [c]) = exec (history cs) c.
Proof. unfold history. by rewrite foldl_app. Qed.

(** A call either changes nothing, or appends, or drains. *)
Lemma exec_cases o log c s : exec (o, log) c = s -> outbox_wf o ->
  s = (o, log) \/
  (exists e o', append o e = Ok o' /\ s = (o', log)) \/
  (exists k cur from o', drainFrom o k cur = Ok from /\
     drain o k cur = Ok (o', MkDrainResult (drop (Z.to_nat (from + 1)) (ob_events o)) (size o - 1)) /\
     s = (o', log ++ [MkDelivery k (stored o k) from (MkDrainResult (drop (Z.to_nat (from + 1)) (ob_events o)) (size o - 1))])).
Proof.
  intros <- Hw. destruct c as [e|k cur]; cbn [exec].
  - destruct (append o e) as [o'|] eqn:E; [|by left]. right; left. by exists e, o'.
  - destruct (drainFrom o k cur) as [from|] eqn:Hf; [|by left]. destruct (drain_spec _ _ _ _ Hw Hf) as (o' & E & _).
    rewrite E. right; right. by exists k, cur, from, o'.
Qed.

Lemma history_wf cs : outbox_wf (history cs).1.
Proof.
  induction cs as [|c cs IH] using rev_ind.
  - constructor; cbn; [constructor|set_solver|constructor|]. intros c z. by rewrite lookup_empty.
  - rewrite history_snoc. destruct (history cs) as [o log]. cbn in IH.
    destruct (exec_cases o log c _ eq_refl IH) as [->|[(e & o' & H & ->)|(k & cur & from & o' & Hf & Hd & ->)]]; cbn;
      [done|by eapply outbox_append_wf|by eapply drain_wf].
Qed.

Lemma handed_snoc log d c : handed (log ++ [d]) c =
  handed log c ++ (if bool_decide (dv_consumer d = c) then dr_events (dv_result d) else []).
Proof.
  unfold handed. rewrite List.filter_app, fmap_app, join_app. f_equal. cbn. case_bool_decide; cbn; [by rewrite app_nil_r|done].
Qed.

(** A consumer that is never ahead of its checkpoint has been handed all up to it. *)
Definition covered (o : Outbox) (log : list delivery) (c : string) : Prop :=
  forall i e, ob_events o !! i = Some e -> Z.of_nat i <= stored o c -> e ∈ handed log c.

Lemma covered_append o e o' log c : outbox_wf o -> append o e = Ok o' -> covered o log c -> covered o' log c.
Proof.
  intros Hw (_ & _ & ->)%append_Ok H i x Hi Hle. cbn in *. unfold stored in *. cbn in Hle.
  pose proof (stored_range o c Hw) as Hs. unfold stored, size in Hs.
  apply lookup_app_Some in Hi as [Hi|[Hge Hi]]; [by apply (H i)|]. lia.
Qed.

Lemma covered_drain o log c k cur from o' : outbox_wf o -> drainFrom o k cur = Ok from ->
  drain o k cur = Ok (o', MkDrainResult (drop (Z.to_nat (from + 1)) (ob_events o)) (size o - 1)) ->
  (k = c -> from <= stored o k) -> covered o log c ->
  covered o' (log ++ [MkDelivery k (stored o k) from (MkDrainResult (drop (Z.to_nat (from + 1)) (ob_events o)) (size o - 1))]) c.
Proof.
  intros Hw Hf Hd Hle H i x Hi Hst. destruct (drain_spec _ _ _ _ Hw Hf) as (o2 & E & He & _ & Hs & Hne & _).
  rewrite E in Hd. injection Hd as <-. rewrite He in Hi. rewrite handed_snoc. cbn. apply elem_of_app.
  case_bool_decide as Hk; [subst k|].
  - destruct (decide (Z.of_nat i <= stored o c)) as [Hlo|Hhi]; [left; by apply (H i)|right].
    apply list_elem_of_lookup. exists (i - Z.to_nat (from + 1))%nat. rewrite lookup_drop.
    specialize (Hle eq_refl). destruct (drainFrom_Ok _ _ _ _ Hw Hf) as [_ Hr]. rewrite <- Hi. f_equal. lia.
  - left. apply (H i); [done|]. unfold stored in *. by rewrite Hne in Hst.
Qed.

Lemma never_ahead_covered cs c : never_ahead (history cs).2 c -> covered (history cs).1 (history cs).2 c.
Proof.
  induction cs as [|x cs IH] using rev_ind; [intros _ i e; cbn; by rewrite lookup_nil|].
  rewrite history_snoc. pose proof (history_wf cs) as Hw. destruct (history cs) as [o log]. cbn [fst snd] in *.
  destruct (exec_cases o log x _ eq_refl Hw) as [->|[(e & o' & H & ->)|(k & cur & from & o' & Hf & Hd & ->)]]; cbn [fst snd].
  - done.
  - intros Hn. exact (covered_append _ _ _ _ _ Hw H (IH Hn)).
  - unfold never_ahead. rewrite Forall_app. intros [Hn Hlast]. apply Forall_cons in Hlast as [Hlast _]. cbn in Hlast.
    exact (covered_drain _ _ _ _ _ _ _ Hw Hf Hd Hlast (IH Hn)).
Qed.

(** A consumer that always continues from its checkpoint has been handed exactly the events
    up to it, in order. *)
Lemma in_step_prefix cs c : in_step (history cs).2 c ->
  handed (history cs).2 c = take (Z.to_nat (stored (history cs).1 c + 1)) (ob_events (history cs).1).
Proof.
  induction cs as [|x cs IH] using rev_ind; [by intros _|].
  rewrite history_snoc. pose proof (history_wf cs) as Hw. destruct (history cs) as [o log]. cbn [fst snd] in *.
  destruct (exec_cases o log x _ eq_refl Hw) as [->|[(e & o' & H & ->)|(k & cur & from & o' & Hf & Hd & ->)]]; cbn [fst snd].
  - done.
  - intros Hn. rewrite (IH Hn). apply append_Ok in H as (_ & _ & ->). unfold stored. cbn.
    pose proof (stored_range o c Hw) as Hs. unfold stored, size in Hs. rewrite take_app_le by lia. done.
  - unfold in_step. rewrite Forall_app. intros [Hn Hlast]. apply Forall_cons in Hlast as [Hlast _]. cbn in Hlast.
    rewrite handed_snoc, (IH Hn). cbn. destruct (drain_spec _ _ _ _ Hw Hf) as (o2 & E & He & _ & Hs & Hne & _).
    rewrite E in Hd. injection Hd as <-. rewrite He. case_bool_decide as Hk; [subst k|].
    + rewrite (Hlast eq_refl), take_drop, Hs. symmetry. apply take_ge. unfold size. lia.
    + rewrite app_nil_r. unfold stored. by rewrite (Hne c) by done.
Qed.

(** Appending never disturbs what is there, and a drain never loses or rewinds anything. *)
Theorem outbox_is_append_only cs cs' :
  outbox_wf (history cs).1 /\ replay (history cs).1 `prefix_of` replay (history (cs ++ cs')).1 /\
  forall c, stored (history cs).1 c <= stored (history (cs ++ cs')).1 c.
Proof.
  split; [apply history_wf|]. induction cs' as [|x cs' [Hp Hc]] using rev_ind; [rewrite app_nil_r; split; [done|lia]|].
  rewrite app_assoc, history_snoc. pose proof (history_wf (cs ++ cs')) as Hw. destruct (history (cs ++ cs')) as [o log]. cbn [fst snd] in *.
  destruct (exec_cases o log x _ eq_refl Hw) as [->|[(e & o' & H & ->)|(k & cur & from & o' & Hf & Hd & ->)]]; cbn; [done| |].
  - apply append_Ok in H as (_ & _ & ->). unfold replay in *. cbn. split; [by apply prefix_app_r|exact Hc].
  - destruct (drain_spec _ _ _ _ Hw Hf) as (o2 & E & He & _ & Hs & Hne & _). rewrite E in Hd. injection Hd as <-.
    unfold replay in *. rewrite He. split; [done|]. intros c. etransitivity; [apply Hc|].
    destruct (decide (c = k)) as [->|Hk]; [|unfold stored; rewrite Hne by done; lia].
    pose proof (stored_range o k Hw) as Hr. unfold size in *. lia.
Qed.

(** C24: Delivery.  After any sequence of calls, a consumer that drains has been handed every
    event of the outbox, provided it never passed a cursor ahead of its own checkpoint;
    and when it never passed an older one either, it has been handed every event exactly
    once, in append order.  Its checkpoint is then the last index. *)
Theorem draining_delivers_everything cs c : c <> "" -> never_ahead (history cs).2 c ->
  let '(o, log) := exec (history cs) (Drain c None) in
  replay o = replay (history cs).1 /\ cursorOf o c = Ok (size o - 1) /\
  (forall e, e ∈ replay o -> e ∈ handed log c) /\
  (in_step (history cs).2 c -> handed log c = replay o).
Proof.
  intros Hc Hn. pose proof (history_wf cs) as Hw. destruct (history cs) as [o log] eqn:Eh. cbn in Hn, Hw.
  assert (drainFrom o c None = Ok (stored o c)) as Hf by (unfold drainFrom, assertConsumer; by rewrite decide_False).
  destruct (drain_spec _ _ _ _ Hw Hf) as (o' & E & He & _ & Hs & _). cbn [exec]. rewrite Hf, E.
  assert (history (cs ++ [Drain c None]) = (o', log ++ [MkDelivery c (stored o c) (stored o c)
    (MkDrainResult (drop (Z.to_nat (stored o c + 1)) (ob_events o)) (size o - 1))])) as Eh'.
  { rewrite history_snoc, Eh. cbn [exec]. by rewrite Hf, E. }
  split; [done|]. split; [|split].
  - unfold cursorOf, assertConsumer. rewrite decide_False by done. cbn. rewrite Hs. unfold size. by rewrite He.
  - intros e Hin. pose proof (never_ahead_covered (cs ++ [Drain c None]) c) as Hcov. rewrite Eh' in Hcov. cbn [fst snd] in Hcov.
    apply list_elem_of_lookup in Hin as [i Hi]. unfold replay in Hi.
    refine (Hcov _ i e Hi _); [apply Forall_snoc_2; [cbn; lia|exact Hn]|].
    apply lookup_lt_Some in Hi. rewrite He in Hi. rewrite Hs. unfold size. lia.
  - intros Hst. pose proof (in_step_prefix (cs ++ [Drain c None]) c) as Hpre. rewrite Eh' in Hpre. cbn [fst snd] in Hpre.
    rewrite Hpre by (apply Forall_snoc_2; [cbn; lia|exact Hst]). apply take_ge. rewrite Hs. unfold size, replay. rewrite He. lia.
Qed.
End outbox.

(** ** Samples *)

Definition sample_event (id : Uuid) : DomainEvent :=
  MkDomainEvent id "payment.initiated" (JNumber (num 1)) (DateText "2025-09-02T08:00:00.000Z") sample_uuid None sample_event_payload.

Definition first_id : Uuid := "0a1b2c3d-0000-4000-8000-00000000000a".
Definition second_id : Uuid := "0a1b2c3d-0000-4000-8000-00000000000b".

(** A replayed append is refused, and an explicit older cursor redelivers the window. *)
Definition sample_calls : list command :=
  [Append (sample_event first_id); Drain "ledger" None; Append (sample_event first_id); Append (sample_event second_id);
   Drain "ledger" (Some (num 0)); Drain "ledger" (Some (num 5)); Drain "" None].

Lemma draining_delivers_everything_witness :
  "ledger" <> "" /\ Forall (fun d => dv_from d <= dv_checkpoint d) (history Date_parse_iso sample_calls).2 /\
  (forall e, e ∈ replay (exec Date_parse_iso (history Date_parse_iso sample_calls) (Drain "ledger" None)).1 ->
     e ∈ handed (exec Date_parse_iso (history Date_parse_iso sample_calls) (Drain "ledger" None)).2 "ledger") /\
  de_eventId <$> handed (history Date_parse_iso sample_calls).2 "ledger" = [first_id; second_id].
Proof.
  assert (Forall (fun d => dv_from d <= dv_checkpoint d) (history Date_parse_iso sample_calls).2) as Hn.
  { apply (bool_decide_unpack _). vm_compute. exact I. }
  assert (never_ahead (history Date_parse_iso sample_calls).2 "ledger") as Hn'.
  { eapply Forall_impl; [exact Hn|]. intros d Hd _. exact Hd. }
  split; [done|]. split; [exact Hn|]. split; [|vm_compute; reflexivity].
  pose proof (draining_delivers_everything Date_parse_iso sample_calls "ledger" ltac:(done) Hn') as H.
  destruct (exec Date_parse_iso (history Date_parse_iso sample_calls) (Drain "ledger" None)) as [o log].
  exact (proj1 (proj2 (proj2 H))).
Defined.

(** A cursor ahead of the checkpoint is in range, so it is accepted: the checkpoint moves past
    an event the consumer was never handed, and draining on never brings it. *)
Lemma a_cursor_ahead_skips_events :
  let '(o, log) := history Date_parse_iso
    [Append (sample_event first_id); Drain "ledger" (Some (num 0)); Drain "ledger" None] in
  replay o = [sample_event first_id] /\ cursorOf o "ledger" = Ok 0 /\ handed log "ledger" = [].
Proof. vm_compute. repeat split. Qed.
