(* ===== verification/AgingSnapshot.v ===== *)
(** * Projection facts and the aging snapshot

    src/domain/projections: facts.ts (the validated plain-data facts) and aging.ts (the
    outstanding portfolio per currency and aging bucket), with the event of the snapshot.

    Checks that a value of
    a declared type has that type ([typeof disputed], the clock's [instanceof]) cannot fail
    here and are left out; a currency is a string until it is checked. *)

From stdpp Require Import prelude strings list.
From Stdlib Require Import ZArith Lia.
From S2P Require Import Prelude JsNumber JsString JsDate JsMap IsoDate Money Events Fx.
Local Open Scope string_scope.
Local Open Scope list_scope.
Local Open Scope Z_scope.
Local Open Scope js_scope.

(** ** Facts *)

Record ReceivableFact := MkReceivableFact {
  rf_receivableId : Uuid;
  rf_customerId : Uuid;
  rf_currency : string;
  rf_balanceMinor : numeric;
  rf_dueDate : DateInput;
  rf_disputed : option bool;
}.

Record ParsedReceivable := MkParsed {
  pr_receivableId : Uuid;
  pr_customerId : Uuid;
  pr_currency : Currency;
  pr_balance : Money;
  pr_dueTime : Z;
  pr_disputed : bool;
}.

Definition assertUuidShape (value : Uuid) (code : string) : result Uuid :=
  refuse (UUID_PATTERN value = false) with code ;; Ok value.

Definition assertCurrency (value : string) (code : string) : result Currency :=
  match currency_of_string value with None => Err (DomainError code) | Some c => Ok c end.

(** [Number.isInteger] lets unsafe integers through; [BigInt] is then the double's value. *)
Definition parseMinorAmount (value : numeric) (code : string) : result Z :=
  match value with
  | Big z => refuse (z < 0) with code ;; Ok z
  | Num x =>
      match integerValue x with
      | None => Err (DomainError code)
      | Some z => refuse (z < 0) with code ;; Ok z
      end
  end.

Section parsing.
  Context (Date_parse : string -> option Z).

Definition parseInstant (value : DateInput) (code : string) : result Z :=
  match value with
  | DateObject None => Err (DomainError code)
  | DateObject (Some t) => Ok t
  | DateText s =>
      if RUN_DATE s || ISO_PATTERN s then
        match Date_parse s with Some t => Ok t | None => Err (DomainError code) end
      else Err (DomainError code)
  end.

Definition parseReceivable (seen : list Uuid) (fact : ReceivableFact) : result ParsedReceivable :=
  receivableId ← assertUuidShape (rf_receivableId fact) "PROJ_RECEIVABLE_INVALID";
  refuse (receivableId ∈ seen) with "PROJ_RECEIVABLE_DUPLICATE" ;;
  customerId ← assertUuidShape (rf_customerId fact) "PROJ_RECEIVABLE_INVALID";
  currency ← assertCurrency (rf_currency fact) "PROJ_CURRENCY_INVALID";
  balanceMinor ← parseMinorAmount (rf_balanceMinor fact) "PROJ_BALANCE_INVALID";
  dueTime ← parseInstant (rf_dueDate fact) "PROJ_DUE_DATE_INVALID";
  balance ← ofMinor (Big balanceMinor) currency;
  Ok (MkParsed receivableId customerId currency balance dueTime (bool_decide (rf_disputed fact = Some true))).

(** The facts in order; [seen] holds the ids of those before. *)
Fixpoint parseFrom (seen : list Uuid) (facts : list ReceivableFact) : result (list ParsedReceivable) :=
  match facts with
  | [] => Ok []
  | fact :: facts =>
      r ← parseReceivable seen fact;
      rest ← parseFrom (pr_receivableId r :: seen) facts;
      Ok (r :: rest)
  end.

Definition parseReceivableFacts (receivables : list ReceivableFact) : result (list ParsedReceivable) :=
  parseFrom [] receivables.
End parsing.

(** ** Aging *)

Inductive AgingBucket := bucket_current | bucket_1_30 | bucket_31_60 | bucket_61_90 | bucket_over_90.
#[export] Instance AgingBucket_eq_dec : EqDecision AgingBucket.
Proof. solve_decision. Defined.

Definition AGING_BUCKETS : list AgingBucket :=
  [bucket_current; bucket_1_30; bucket_31_60; bucket_61_90; bucket_over_90].

(** Time values are integers, and the rounded quotient never crosses an integer. *)
Definition daysOverdue (dueTime asOfTime : Z) : Z := Z.max 0 ((asOfTime - dueTime) / DAY_MS).

Definition agingBucketFor (daysPastDue : Z) : AgingBucket :=
  if daysPastDue <=? 0 then bucket_current
  else if daysPastDue <=? 30 then bucket_1_30
  else if daysPastDue <=? 60 then bucket_31_60
  else if daysPastDue <=? 90 then bucket_61_90
  else bucket_over_90.

Record AgingBucketTotal := MkBucketTotal {
  bt_bucket : AgingBucket;
  bt_amountMinor : Z;
  bt_receivableCount : Z;
  bt_asOf : string;
  bt_evidenceRefs : list Uuid;
}.

Record AgingCurrencyView := MkCurrencyView {
  cv_currency : Currency;
  cv_totalMinor : Z;
  cv_buckets : list AgingBucketTotal;
}.

Record AgingSnapshot := MkAgingSnapshot {
  as_asOf : string;
  as_currencies : list AgingCurrencyView;
  as_receivablesAged : Z;
  as_zeroBalanceCount : Z;
}.

Record BucketAccumulator := MkBucketAcc { ba_amount : Money; ba_refs : list Uuid }.

Record CurrencyAccumulator := MkCurrencyAcc {
  ca_total : Money;
  ca_buckets : list (AgingBucket * BucketAccumulator);
}.

(** The loop's variables; the keys of [byCurrency] in insertion order are [order]. *)
Record AgingState := MkAgingState {
  ag_byCurrency : list (Currency * CurrencyAccumulator);
  ag_aged : Z;
  ag_zero : Z;
}.

Definition ageReceivable (asOfTime : Z) (s : AgingState) (r : ParsedReceivable) : result AgingState :=
  if isZero (pr_balance r) then Ok (MkAgingState (ag_byCurrency s) (ag_aged s) (ag_zero s + 1))
  else
    let c := pr_currency r in
    let acc := default (MkCurrencyAcc (zero c) []) (mapGet (ag_byCurrency s) c) in
    let bucket := agingBucketFor (daysOverdue (pr_dueTime r) asOfTime) in
    let previous := default (MkBucketAcc (zero c) []) (mapGet (ca_buckets acc) bucket) in
    amt ← add (ba_amount previous) (pr_balance r);
    total ← add (ca_total acc) (pr_balance r);
    let buckets := mapSet (ca_buckets acc) bucket (MkBucketAcc amt (ba_refs previous ++ [pr_receivableId r])) in
    Ok (MkAgingState (mapSet (ag_byCurrency s) c (MkCurrencyAcc total buckets)) (ag_aged s + 1) (ag_zero s)).

Definition bucketTotal (asOf : string) (c : Currency) (acc : CurrencyAccumulator) (bucket : AgingBucket) : AgingBucketTotal :=
  let entry := mapGet (ca_buckets acc) bucket in
  MkBucketTotal bucket (amount (default (zero c) (ba_amount <$> entry)))
    (default 0 ((fun e => Z.of_nat (length (ba_refs e))) <$> entry)) asOf (default [] (ba_refs <$> entry)).

Definition currencyView (asOf : string) (e : Currency * CurrencyAccumulator) : AgingCurrencyView :=
  MkCurrencyView e.1 (amount (ca_total e.2)) (bucketTotal asOf e.1 e.2 <$> AGING_BUCKETS).

Section aging.
  Context (Date_parse : string -> option Z).

Definition arAgingByBucket (receivables : list ReceivableFact) (asOf : DateInput) : result AgingSnapshot :=
  asOfTime ← parseInstant Date_parse asOf "PROJ_AS_OF_INVALID";
  parsed ← parseReceivableFacts Date_parse receivables;
  s ← foldM (ageReceivable asOfTime) (MkAgingState [] 0 0) parsed;
  let asOfIso := toISOString asOfTime in
  Ok (MkAgingSnapshot asOfIso (currencyView asOfIso <$> ag_byCurrency s) (ag_aged s) (ag_zero s)).
End aging.

(** ** What the snapshot says *)

(** A parsed fact: its balance is non-negative and in its currency. *)
Definition parsed_ok (r : ParsedReceivable) : Prop := currency (pr_balance r) = pr_currency r /\ 0 <= amount (pr_balance r).

Lemma parseMinorAmount_Ok v code z : parseMinorAmount v code = Ok z -> 0 <= z.
Proof.
  destruct v as [w|x]; cbn; [|destruct (integerValue x) as [w|]; [|done]]; intros H; apply guard_Ok in H as [Hz H];
    injection H as <-; lia.
Qed.

Lemma parseReceivable_Ok Date_parse seen f r : parseReceivable Date_parse seen f = Ok r ->
  parsed_ok r /\ pr_receivableId r = rf_receivableId f /\ pr_receivableId r ∉ seen.
Proof.
  unfold parseReceivable. intros H. apply bind_Ok in H as (id & Hid & H). unfold assertUuidShape in Hid.
  apply guard_Ok in Hid as [_ Hid]. injection Hid as <-. apply guard_Ok in H as [Hs H].
  apply bind_Ok in H as (cu & _ & H). apply bind_Ok in H as (c & _ & H). apply bind_Ok in H as (z & Hz%parseMinorAmount_Ok & H).
  apply bind_Ok in H as (t & _ & H). rewrite ofMinor_Big in H by done. cbn in H. injection H as <-. done.
Qed.

Lemma parseFrom_Ok Date_parse facts : forall seen ps, parseFrom Date_parse seen facts = Ok ps ->
  Forall parsed_ok ps /\ NoDup (pr_receivableId <$> ps) /\ (forall id, id ∈ seen -> id ∉ pr_receivableId <$> ps) /\
  pr_receivableId <$> ps = rf_receivableId <$> facts.
Proof.
  induction facts as [|f facts IH]; intros seen ps H; cbn in H.
  - injection H as <-. split; [constructor|]. split; [constructor|]. split; [set_solver|done].
  - apply bind_Ok in H as (r & (Hr & Hid & Hns)%parseReceivable_Ok & H). apply bind_Ok in H as (rest & (Hf & Hnd & Hs & E)%IH & H).
    injection H as <-. cbn. split; [by constructor|]. split; [|split].
    + constructor; [apply Hs; set_solver|done].
    + intros id Hin. apply not_elem_of_cons. split; [by intros ->|apply Hs; set_solver].
    + by rewrite Hid, E.
Qed.

(** The receivables with an outstanding balance, those of one currency, those of one bucket. *)
Definition outstanding (ps : list ParsedReceivable) : list ParsedReceivable :=
  List.filter (fun r => negb (isZero (pr_balance r))) ps.
Definition in_currency (c : Currency) (ps : list ParsedReceivable) : list ParsedReceivable :=
  List.filter (fun r => bool_decide (pr_currency r = c)) (outstanding ps).
Definition in_bucket (t : Z) (c : Currency) (b : AgingBucket) (ps : list ParsedReceivable) : list ParsedReceivable :=
  List.filter (fun r => bool_decide (agingBucketFor (daysOverdue (pr_dueTime r) t) = b)) (in_currency c ps).

Definition minors (ps : list ParsedReceivable) : Z := sumZ ((fun r => amount (pr_balance r)) <$> ps).
Definition ids (ps : list ParsedReceivable) : list Uuid := pr_receivableId <$> ps.

(** The snapshot of a portfolio, figure by figure. *)
Definition reference_bucket (t : Z) (ps : list ParsedReceivable) (c : Currency) (b : AgingBucket) : AgingBucketTotal :=
  MkBucketTotal b (minors (in_bucket t c b ps)) (Z.of_nat (length (in_bucket t c b ps))) (toISOString t) (ids (in_bucket t c b ps)).
Definition reference_view (t : Z) (ps : list ParsedReceivable) (c : Currency) : AgingCurrencyView :=
  MkCurrencyView c (minors (in_currency c ps)) (reference_bucket t ps c <$> AGING_BUCKETS).
Definition reference_snapshot (t : Z) (ps : list ParsedReceivable) : AgingSnapshot :=
  MkAgingSnapshot (toISOString t) (reference_view t ps <$> distinct (pr_currency <$> outstanding ps))
    (Z.of_nat (length (outstanding ps))) (Z.of_nat (length ps) - Z.of_nat (length (outstanding ps))).

(** What an accumulator holds after the receivables [ps]. *)
Definition acc_holds (t : Z) (ps : list ParsedReceivable) (c : Currency) (acc : CurrencyAccumulator) : Prop :=
  ca_total acc = MkMoney (minors (in_currency c ps)) c /\
  forall b, default (MkBucketAcc (zero c) []) (mapGet (ca_buckets acc) b) =
    MkBucketAcc (MkMoney (minors (in_bucket t c b ps)) c) (ids (in_bucket t c b ps)).

Record aging_invariant (t : Z) (ps : list ParsedReceivable) (s : AgingState) : Prop := {
  inv_keys : (ag_byCurrency s).*1 = distinct (pr_currency <$> outstanding ps);
  inv_acc : forall c, acc_holds t ps c (default (MkCurrencyAcc (zero c) []) (mapGet (ag_byCurrency s) c));
  inv_aged : ag_aged s = Z.of_nat (length (outstanding ps));
  inv_zero : ag_zero s = Z.of_nat (length ps) - Z.of_nat (length (outstanding ps));
}.

Lemma outstanding_snoc ps r : outstanding (ps ++ [r]) = outstanding ps ++ (if isZero (pr_balance r) then [] else [r]).
Proof. unfold outstanding. rewrite List.filter_app. cbn. by destruct (isZero (pr_balance r)). Qed.

Lemma in_currency_snoc c ps r : in_currency c (ps ++ [r]) =
  in_currency c ps ++ (if isZero (pr_balance r) then [] else if bool_decide (pr_currency r = c) then [r] else []).
Proof.
  unfold in_currency. rewrite outstanding_snoc, List.filter_app. f_equal.
  destruct (isZero (pr_balance r)); cbn; [done|]. by case_bool_decide.
Qed.

Lemma in_bucket_snoc t c b ps r : in_bucket t c b (ps ++ [r]) =
  in_bucket t c b ps ++ (if isZero (pr_balance r) then [] else if bool_decide (pr_currency r = c) then
    if bool_decide (agingBucketFor (daysOverdue (pr_dueTime r) t) = b) then [r] else [] else []).
Proof.
  unfold in_bucket. rewrite in_currency_snoc, List.filter_app. f_equal.
  destruct (isZero (pr_balance r)); cbn; [done|]. case_bool_decide; cbn; [|done]. by case_bool_decide.
Qed.

Lemma minors_app ps qs : minors (ps ++ qs) = minors ps + minors qs.
Proof. unfold minors. by rewrite fmap_app, sumZ_app. Qed.

Lemma minors_one r : minors [r] = amount (pr_balance r).
Proof. unfold minors, sumZ. cbn. lia. Qed.

Lemma ids_app ps qs : ids (ps ++ qs) = ids ps ++ ids qs.
Proof. apply fmap_app. Qed.

#[local] Hint Rewrite outstanding_snoc in_currency_snoc in_bucket_snoc minors_app minors_one ids_app app_nil_r : aging.

Lemma age_step t ps s r : parsed_ok r -> aging_invariant t ps s ->
  exists s', ageReceivable t s r = Ok s' /\ aging_invariant t (ps ++ [r]) s'.
Proof.
  intros [Hc Ha] [Hk Hacc Hg Hz]. unfold ageReceivable. destruct (isZero (pr_balance r)) eqn:Ez.
  - eexists. split; [reflexivity|]. constructor; cbn [ag_byCurrency ag_aged ag_zero].
    + by rewrite outstanding_snoc, Ez, app_nil_r.
    + intros c. destruct (Hacc c) as [H1 H2]. split; [|intros b; rewrite H2]; rewrite ?in_currency_snoc, ?in_bucket_snoc, Ez, !app_nil_r; done.
    + by rewrite outstanding_snoc, Ez, app_nil_r.
    + rewrite outstanding_snoc, Ez, app_nil_r, length_app. cbn. lia.
  - destruct (Hacc (pr_currency r)) as [Ht Hb].
    rewrite (proj2 (add_Ok _ _ _) (conj (eq_trans (f_equal (fun x => currency (ba_amount x)) (Hb _)) (eq_sym Hc)) eq_refl)), Hb.
    cbn [mbind result_bind ba_amount ba_refs amount currency].
    rewrite (proj2 (add_Ok _ _ _) (conj (eq_trans (f_equal currency Ht) (eq_sym Hc)) eq_refl)), Ht. cbn [mbind result_bind amount currency].
    eexists. split; [reflexivity|]. constructor; cbn [ag_byCurrency ag_aged ag_zero].
    + rewrite mapSet_keys, Hk, outstanding_snoc, Ez, fmap_app. cbn. by rewrite distinct_snoc.
    + intros c. rewrite mapGet_set. destruct (decide (c = pr_currency r)) as [->|Hne]; cbn [from_option id].
      * split; cbn [ca_total ca_buckets].
        { autorewrite with aging. rewrite Ez, bool_decide_true, minors_one by done. done. }
        intros b. rewrite mapGet_set. autorewrite with aging. rewrite Ez, (bool_decide_true (pr_currency r = _)) by done.
        destruct (decide (b = agingBucketFor (daysOverdue (pr_dueTime r) t))) as [->|Hb']; cbn [from_option id].
        -- rewrite bool_decide_true by done. autorewrite with aging. done.
        -- rewrite bool_decide_false by done. cbn. rewrite app_nil_r, Z.add_0_r. apply Hb.
      * destruct (Hacc c) as [H1 H2]. split; [|intros b; rewrite H2]; autorewrite with aging;
          rewrite Ez, bool_decide_false by done; cbn; rewrite ?app_nil_r, ?Z.add_0_r; done.
    + autorewrite with aging. rewrite Ez, length_app. cbn. lia.
    + autorewrite with aging. rewrite Ez, !length_app. cbn. lia.
Qed.

Lemma aging_loop t ps : Forall parsed_ok ps ->
  exists s, foldM (ageReceivable t) (MkAgingState [] 0 0) ps = Ok s /\ aging_invariant t ps s.
Proof.
  induction ps as [|r ps IH] using rev_ind; intros Hok.
  - eexists. split; [reflexivity|]. constructor; try done.
  - apply Forall_app in Hok as [Hok Hr]. apply Forall_cons in Hr as [Hr _]. destruct (IH Hok) as (s & E & Hs).
    destruct (age_step t ps s r Hr Hs) as (s' & E' & Hs'). exists s'. rewrite foldM_app, E. cbn. by rewrite E'.
Qed.

Lemma currencyView_exact t ps c acc : acc_holds t ps c acc -> currencyView (toISOString t) (c, acc) = reference_view t ps c.
Proof.
  intros [Ht Hb]. unfold currencyView, reference_view. cbn [fst snd]. rewrite Ht. f_equal. apply list_fmap_ext. intros _ b _.
  unfold bucketTotal, reference_bucket. specialize (Hb b). destruct (mapGet (ca_buckets acc) b) as [e|]; cbn in Hb |- *.
  - rewrite Hb. cbn. unfold ids. by rewrite length_fmap.
  - injection Hb as Hm Hi. unfold ids in *. symmetry in Hi. apply fmap_nil_inv in Hi. by rewrite Hi.
Qed.

(** The snapshot is the portfolio, figure by figure: a view per currency in the order of
    first appearance, all five buckets in it, each with the sum, the number and the ids, in
    input order, of exactly the outstanding receivables that belong there. *)
Theorem aging_snapshot_exact Date_parse receivables asOf :
  arAgingByBucket Date_parse receivables asOf =
    (t ← parseInstant Date_parse asOf "PROJ_AS_OF_INVALID";
     ps ← parseReceivableFacts Date_parse receivables;
     Ok (reference_snapshot t ps)).
Proof.
  unfold arAgingByBucket. destruct (parseInstant Date_parse asOf "PROJ_AS_OF_INVALID") as [t|]; [|done]. cbn [mbind result_bind].
  destruct (parseReceivableFacts Date_parse receivables) as [ps|] eqn:Hp; [|done]. cbn [mbind result_bind].
  destruct (parseFrom_Ok _ _ _ _ Hp) as (Hok & _). destruct (aging_loop t ps Hok) as (s & -> & [Hk Hacc Hg Hz]).
  cbn [mbind result_bind]. unfold reference_snapshot. rewrite Hg, Hz, <- Hk. do 2 f_equal.
  rewrite <- list_fmap_compose. apply Forall_fmap_ext_1, Forall_forall. intros [c acc] Hin. cbn.
  specialize (Hacc c). rewrite (mapGet_elem _ c acc) in Hacc; [|rewrite Hk; apply distinct_NoDup|done].
  by apply currencyView_exact.
Qed.

(** The buckets of a currency partition its outstanding receivables. *)
Lemma bucket_partition t c ps : mjoin ((fun b => in_bucket t c b ps) <$> AGING_BUCKETS) ≡ₚ in_currency c ps.
Proof.
  apply (partition_by (fun r => agingBucketFor (daysOverdue (pr_dueTime r) t))).
  - apply (bool_decide_unpack _). vm_compute. exact I.
  - intros r _. destruct (agingBucketFor _); set_solver.
Qed.

(** The views cover every outstanding receivable once. *)
Lemma currency_partition ps :
  mjoin ((fun c => in_currency c ps) <$> distinct (pr_currency <$> outstanding ps)) ≡ₚ outstanding ps.
Proof.
  apply partition_by; [apply distinct_NoDup|]. intros r Hr. apply distinct_elem, list_elem_of_fmap. by exists r.
Qed.

Lemma minors_perm ps qs : ps ≡ₚ qs -> minors ps = minors qs.
Proof. unfold minors, sumZ. induction 1; cbn; lia. Qed.

Lemma minors_join ls : minors (mjoin ls) = sumZ (minors <$> ls).
Proof. induction ls as [|l ls IH]; [done|].
  change (mjoin (l :: ls)) with (l ++ mjoin ls). by rewrite minors_app, IH, fmap_cons. Qed.

(** ** The event *)

Record AgingCurrencyTotals := MkCurrencyTotals {
  ct_currency : Currency;
  ct_totalMinor : Z;
  ct_receivableCount : Z;
  ct_bucketMinors : list (AgingBucket * Z);
}.

Record AgingSnapshotTaken := MkAgingSnapshotTaken {
  st_orgId : Uuid;
  st_asOf : string;
  st_receivablesAged : Z;
  st_zeroBalanceCount : Z;
  st_evidenceRefs : list Uuid;
  st_currencies : list AgingCurrencyTotals;
}.

(** [minorToNumber] of projections/events.ts *)
Definition projMinorToNumber (amountMinor : Z) : result Z :=
  refuse (Z.abs amountMinor > MAX_SAFE_INTEGER) with "PROJ_AMOUNT_NOT_SAFE_INTEGER" ;; Ok amountMinor.

Definition currencyTotals (view : AgingCurrencyView) : result AgingCurrencyTotals :=
  total ← projMinorToNumber (cv_totalMinor view);
  bucketMinors ← traverse (fun b => m ← projMinorToNumber (bt_amountMinor b); Ok (bt_bucket b, m)) (cv_buckets view);
  Ok (MkCurrencyTotals (cv_currency view) total (sumZ (bt_receivableCount <$> cv_buckets view)) bucketMinors).

Definition agingSnapshotTakenEvent (orgId : Uuid) (snapshot : AgingSnapshot) (clock : Clock) : result (Envelope string AgingSnapshotTaken) :=
  currencies ← traverse currencyTotals (as_currencies snapshot);
  Ok (domainEvent "projections.agingSnapshotTaken" orgId (MkAgingSnapshotTaken orgId (as_asOf snapshot) (as_receivablesAged snapshot) (as_zeroBalanceCount snapshot)
        (mjoin ((fun view => mjoin (bt_evidenceRefs <$> cv_buckets view)) <$> as_currencies snapshot)) currencies) clock).

Lemma ids_perm ps qs : ps ≡ₚ qs -> ids ps ≡ₚ ids qs.
Proof. unfold ids. by intros ->. Qed.

Lemma ids_join ls : ids (mjoin ls) = mjoin (ids <$> ls).
Proof. induction ls as [|l ls IH]; [done|].
  change (mjoin (l :: ls)) with (l ++ mjoin ls). by rewrite ids_app, IH, fmap_cons. Qed.

Lemma join_perm {A B} (f g : A -> list B) l : (forall x, f x ≡ₚ g x) -> mjoin (f <$> l) ≡ₚ mjoin (g <$> l).
Proof. intros H. induction l as [|x l IH]; [done|].
  rewrite !fmap_cons. cbn [mjoin list_join]. by rewrite IH, H.
Qed.

(** Conservation: the figures of a snapshot add up, and its evidence is exactly the set of
    receivables with a balance, each once. *)
Theorem aging_snapshot_adds_up Date_parse receivables asOf s :
  arAgingByBucket Date_parse receivables asOf = Ok s ->
  exists ps, parseReceivableFacts Date_parse receivables = Ok ps /\
    Forall (fun v => cv_totalMinor v = sumZ (bt_amountMinor <$> cv_buckets v)) (as_currencies s) /\
    sumZ (cv_totalMinor <$> as_currencies s) = minors ps /\
    as_receivablesAged s + as_zeroBalanceCount s = Z.of_nat (length receivables) /\
    mjoin ((fun v => mjoin (bt_evidenceRefs <$> cv_buckets v)) <$> as_currencies s) ≡ₚ ids (outstanding ps).
Proof.
  rewrite aging_snapshot_exact. intros H. apply bind_Ok in H as (t & _ & H). apply bind_Ok in H as (ps & Hp & H). injection H as <-.
  exists ps. split; [done|]. destruct (parseFrom_Ok _ _ _ _ Hp) as (_ & _ & _ & Hids). unfold reference_snapshot. cbn [as_currencies as_receivablesAged as_zeroBalanceCount].
  split; [|split; [|split]].
  - apply Forall_fmap, Forall_true. intros c. cbn [compose cv_totalMinor cv_buckets reference_view].
    rewrite <- list_fmap_compose, <- (minors_perm _ _ (bucket_partition t c ps)), minors_join, <- list_fmap_compose. done.
  - rewrite <- list_fmap_compose. change (cv_totalMinor ∘ reference_view t ps) with (minors ∘ (fun c => in_currency c ps)).
    rewrite (list_fmap_compose (fun c => in_currency c ps)), <- minors_join, (minors_perm _ _ (currency_partition ps)).
    clear. unfold minors, outstanding, sumZ, isZero. induction ps as [|r ps IH]; [done|]. cbn.
    destruct (amount (pr_balance r) =? 0) eqn:E; cbn; rewrite IH; lia.
  - apply (f_equal length) in Hids. rewrite !length_fmap in Hids. lia.
  - rewrite <- list_fmap_compose. etransitivity; [|apply ids_perm, currency_partition]. rewrite ids_join, <- list_fmap_compose.
    apply join_perm. intros c. cbn [compose cv_buckets reference_view]. rewrite <- list_fmap_compose.
    etransitivity; [|apply ids_perm, (bucket_partition t)]. rewrite ids_join, <- list_fmap_compose. done.
Qed.

(** ** Sample *)

Definition sample_fact (id : Uuid) (cur : string) (minor : Z) (due : string) : ReceivableFact :=
  MkReceivableFact id "0a1b2c3d-0000-4000-8000-0000000000c1" cur (Big minor) (DateText due) None.

Definition sample_portfolio : list ReceivableFact :=
  [sample_fact "0a1b2c3d-0000-4000-8000-000000000001" "KES" 500 "2025-08-01T00:00:00Z";
   sample_fact "0a1b2c3d-0000-4000-8000-000000000002" "USD" 70 "2025-09-01T00:00:00Z";
   sample_fact "0a1b2c3d-0000-4000-8000-000000000003" "KES" 0 "2025-01-01T00:00:00Z";
   sample_fact "0a1b2c3d-0000-4000-8000-000000000004" "KES" 25 "2025-08-31T00:00:00Z"].

Lemma aging_snapshot_adds_up_witness : exists s,
  arAgingByBucket Date_parse_iso sample_portfolio (DateText "2025-09-01T00:00:00Z") = Ok s /\
  as_receivablesAged s + as_zeroBalanceCount s = 4 /\
  (fun v => (cv_currency v, cv_totalMinor v, bt_amountMinor <$> cv_buckets v)) <$> as_currencies s =
    [(KES, 525, [0; 25; 500; 0; 0]); (USD, 70, [70; 0; 0; 0; 0])].
Proof.
  eexists. split; [vm_compute; reflexivity|]. split; [|vm_compute; reflexivity].
  destruct (aging_snapshot_adds_up Date_parse_iso sample_portfolio (DateText "2025-09-01T00:00:00Z") _ ltac:(vm_compute; reflexivity))
    as (ps & _ & _ & _ & H & _). exact H.
Defined.
