(* ===== verification/Segments.v ===== *)
(** * Customer segments and collections strategies

    src/domain/projections: segments.ts (the decision matrix) and strategies.ts (the mapping
    from a segment to a strategy, with overrides), with their events.

    A count of the facts is a JavaScript number that was checked to be a non-negative
    integer; after the check it is that integer.  The reasons, which the source prints, are
    a data type.  Segments are typed, so the membership checks on them cannot fail; override
    tables are objects with untrusted keys and values, listed as [Object.entries] does, and
    looked up by ids of the UUID shape, which no inherited member has. *)

From stdpp Require Import prelude strings list.
From Stdlib Require Import ZArith Lia.
From S2P Require Import Prelude JsNumber JsString JsDate Money Events JsMap AgingSnapshot.
Local Open Scope string_scope.
Local Open Scope list_scope.
Local Open Scope Z_scope.
Local Open Scope js_scope.

Inductive Segment := high_value_reliable | watch | at_risk | chronic_late | dormant.
#[export] Instance Segment_eq_dec : EqDecision Segment.
Proof. solve_decision. Defined.

Definition SEGMENTS : list Segment := [high_value_reliable; watch; at_risk; chronic_late; dormant].

Definition segment_name (s : Segment) : string :=
  match s with
  | high_value_reliable => "high_value_reliable" | watch => "watch" | at_risk => "at_risk"
  | chronic_late => "chronic_late" | dormant => "dormant"
  end.

(** ** Thresholds *)

Definition DORMANT_SILENCE_DAYS : Z := 180.
Definition CHRONIC_BROKEN_PROMISES : Z := 3.
Definition CHRONIC_DAYS_OVERDUE : Z := 90.
Definition AT_RISK_DAYS_OVERDUE : Z := 31.
Definition AT_RISK_KEPT_RATE : number := ndiv (num 1) (num 2).
Definition HIGH_VALUE_EXPOSURE_MINOR : Z := 10000000.
Definition RELIABLE_KEPT_RATE : number := ndiv (num 8) (num 10).

Record CustomerFact := MkCustomerFact {
  cf_customerId : Uuid;
  cf_currency : string;
  cf_exposureMinor : numeric;
  cf_worstDaysOverdue : number;
  cf_promiseKeptRate : option number;
  cf_brokenPromiseCount : number;
  cf_daysSinceLastPayment : option number;
  cf_disputeOpen : bool;
}.

(** A fact after its checks. *)
Record ParsedCustomer := MkParsedCustomer {
  pc_customerId : Uuid;
  pc_exposureMinor : Z;
  pc_overdue : Z;
  pc_kept : option number;
  pc_broken : Z;
  pc_silence : option Z;
  pc_disputeOpen : bool;
}.

(** [Number.isInteger(x) && x >= 0] *)
Definition assertCount (x : number) : result Z :=
  match integerValue x with
  | None => Err (DomainError "SEG_CUSTOMER_FACT_INVALID")
  | Some z => refuse (z < 0) with "SEG_CUSTOMER_FACT_INVALID" ;; Ok z
  end.

Definition rate_ok (x : number) : bool := isFinite x && negb (nltb x (num 0)) && negb (nltb (num 1) x).

Definition parseCustomerFact (fact : CustomerFact) : result ParsedCustomer :=
  customerId ← assertUuidShape (cf_customerId fact) "SEG_CUSTOMER_FACT_INVALID";
  _ ← assertCurrency (cf_currency fact) "SEG_CURRENCY_INVALID";
  exposureMinor ← parseMinorAmount (cf_exposureMinor fact) "SEG_EXPOSURE_INVALID";
  overdue ← assertCount (cf_worstDaysOverdue fact);
  refuse (from_option (fun x => negb (rate_ok x)) false (cf_promiseKeptRate fact) = true) with "SEG_RATE_INVALID" ;;
  broken ← assertCount (cf_brokenPromiseCount fact);
  silence ← match cf_daysSinceLastPayment fact with None => Ok None | Some x => d ← assertCount x; Ok (Some d) end;
  Ok (MkParsedCustomer customerId exposureMinor overdue (cf_promiseKeptRate fact) broken silence (cf_disputeOpen fact)).

(** ** The decision matrix *)

Inductive SegmentReason :=
| NoOutstandingBalance
| LongSilence (days : Z)
| BrokenPromises (count : Z)
| DeeplyOverdue (days : Z)
| DisputeOpen
| Overdue (days : Z)
| LowKeptRate (rate : number)
| HighExposure (minor : Z)
| NothingOverdue
| NoPromiseHistory
| HighKeptRate (rate : number)
| NothingMatched.

Record SegmentAssignment := MkSegmentAssignment {
  sa_customerId : Uuid;
  sa_segment : Segment;
  sa_reasons : list SegmentReason;
}.

Definition longSilence (p : ParsedCustomer) : option Z :=
  match pc_silence p with Some d => if DORMANT_SILENCE_DAYS <=? d then Some d else None | None => None end.

Definition chronic (p : ParsedCustomer) : list SegmentReason :=
  (if CHRONIC_BROKEN_PROMISES <=? pc_broken p then [BrokenPromises (pc_broken p)] else []) ++
  (if CHRONIC_DAYS_OVERDUE <=? pc_overdue p then [DeeplyOverdue (pc_overdue p)] else []).

Definition atRisk (p : ParsedCustomer) : list SegmentReason :=
  (if pc_disputeOpen p then [DisputeOpen] else []) ++
  (if AT_RISK_DAYS_OVERDUE <=? pc_overdue p then [Overdue (pc_overdue p)] else []) ++
  match pc_kept p with Some k => if nltb k AT_RISK_KEPT_RATE then [LowKeptRate k] else [] | None => [] end.

Definition reliable (p : ParsedCustomer) : bool :=
  match pc_kept p with None => true | Some k => nleb RELIABLE_KEPT_RATE k end.

Definition segmentOf (p : ParsedCustomer) : SegmentAssignment :=
  let assign := MkSegmentAssignment (pc_customerId p) in
  if pc_exposureMinor p =? 0 then assign dormant [NoOutstandingBalance]
  else match longSilence p with
  | Some d => assign dormant [LongSilence d]
  | None =>
      if negb (bool_decide (chronic p = [])) then assign chronic_late (chronic p)
      else if negb (bool_decide (atRisk p = [])) then assign at_risk (atRisk p)
      else if (HIGH_VALUE_EXPOSURE_MINOR <=? pc_exposureMinor p) && (pc_overdue p =? 0) && reliable p then
        assign high_value_reliable
          [HighExposure (pc_exposureMinor p); NothingOverdue; match pc_kept p with None => NoPromiseHistory | Some k => HighKeptRate k end]
      else assign watch [NothingMatched]
  end.

(** [customerFacts.map], with the ids of the facts before. *)
Fixpoint segmentFrom (seen : list Uuid) (facts : list CustomerFact) : result (list SegmentAssignment) :=
  match facts with
  | [] => Ok []
  | fact :: facts =>
      p ← parseCustomerFact fact;
      refuse (pc_customerId p ∈ seen) with "SEG_CUSTOMER_DUPLICATE" ;;
      rest ← segmentFrom (pc_customerId p :: seen) facts;
      Ok (segmentOf p :: rest)
  end.

Definition segmentCustomers (customerFacts : list CustomerFact) : result (list SegmentAssignment) := segmentFrom [] customerFacts.

(** ** Strategies *)

Inductive CollectionsStrategy := self_serve_reminders | guided_follow_up | intensive_follow_up | escalate_early.
#[export] Instance CollectionsStrategy_eq_dec : EqDecision CollectionsStrategy.
Proof. solve_decision. Defined.

Definition STRATEGIES : list CollectionsStrategy := [self_serve_reminders; guided_follow_up; intensive_follow_up; escalate_early].

Definition strategy_name (s : CollectionsStrategy) : string :=
  match s with
  | self_serve_reminders => "self_serve_reminders" | guided_follow_up => "guided_follow_up"
  | intensive_follow_up => "intensive_follow_up" | escalate_early => "escalate_early"
  end.

Definition DEFAULT_STRATEGIES (s : Segment) : CollectionsStrategy :=
  match s with
  | high_value_reliable => self_serve_reminders
  | watch => guided_follow_up
  | at_risk => intensive_follow_up
  | chronic_late => escalate_early
  | dormant => self_serve_reminders
  end.

Record StrategyOverrides := MkOverrides {
  ov_bySegment : option (list (string * string));
  ov_byCustomer : option (list (string * string));
}.

Inductive StrategySource := src_default | src_segment_override | src_customer_override.

Record StrategyAssignment := MkStrategyAssignment {
  str_segment : Segment;
  str_strategy : string;
  str_source : StrategySource;
  str_reason : string;
}.

Record CustomerStrategyAssignment := MkCustomerStrategy {
  cs_customerId : Uuid;
  cs_segment : Segment;
  cs_strategy : string;
  cs_source : StrategySource;
  cs_reason : string;
}.

Definition is_strategy (value : string) : bool := existsb (fun s => bool_decide (strategy_name s = value)) STRATEGIES.
Definition is_segment (value : string) : bool := existsb (fun s => bool_decide (segment_name s = value)) SEGMENTS.

Definition assertStrategy (value : string) (code : string) : result unit :=
  refuse (is_strategy value = false) with code ;; Ok tt.

Fixpoint assertAll {A} (f : A -> result unit) (l : list A) : result unit :=
  match l with [] => Ok tt | x :: l => _ ← f x; assertAll f l end.

Definition assertOverrides (o : StrategyOverrides) : result unit :=
  _ ← assertAll (fun e =>
        refuse (is_segment e.1 = false) with "SEG_OVERRIDE_SEGMENT_UNKNOWN" ;;
        assertStrategy e.2 "SEG_STRATEGY_INVALID") (default [] (ov_bySegment o));
  assertAll (fun e =>
    _ ← assertUuidShape e.1 "SEG_OVERRIDE_CUSTOMER_INVALID";
    assertStrategy e.2 "SEG_STRATEGY_INVALID") (default [] (ov_byCustomer o)).

(** [table?.[key]] *)
Definition override (table : option (list (string * string))) (key : string) : option string :=
  entries ← table; mapGet entries key.

Definition strategyFor (segment : Segment) (o : StrategyOverrides) : result StrategyAssignment :=
  _ ← assertOverrides o;
  Ok (match override (ov_bySegment o) (segment_name segment) with
      | Some s => MkStrategyAssignment segment s src_segment_override ("explicit segment override for '" +:+ segment_name segment +:+ "'")
      | None => MkStrategyAssignment segment (strategy_name (DEFAULT_STRATEGIES segment)) src_default
                  ("default mapping for segment '" +:+ segment_name segment +:+ "'")
      end).

Definition assignStrategies (assignments : list SegmentAssignment) (o : StrategyOverrides) : result (list CustomerStrategyAssignment) :=
  _ ← assertOverrides o;
  traverse (fun a =>
    match override (ov_byCustomer o) (sa_customerId a) with
    | Some s => Ok (MkCustomerStrategy (sa_customerId a) (sa_segment a) s src_customer_override "explicit customer override")
    | None =>
        r ← strategyFor (sa_segment a) o;
        Ok (MkCustomerStrategy (sa_customerId a) (str_segment r) (str_strategy r) (str_source r) (str_reason r))
    end) assignments.

(** ** Events *)

Inductive SegmentPayload :=
| CustomerSegmentAssignedPayload (orgId customerId : Uuid) (segment : Segment) (reasons : list SegmentReason) (assignedAt : string)
| StrategyAssignedPayload (orgId customerId : Uuid) (segment : Segment) (strategy : string) (source : StrategySource) (reason : string) (assignedAt : string).

Definition customerSegmentAssignedEvent (orgId : Uuid) (a : SegmentAssignment) (clock : Clock) : DomainEvent SegmentPayload :=
  let occurredAt := toISOString (clock 0%nat) in
  MkEnvelope "segment.customerSegmentAssigned" (sa_customerId a)
    (CustomerSegmentAssignedPayload orgId (sa_customerId a) (sa_segment a) (sa_reasons a) occurredAt) occurredAt.

Definition strategyAssignedEvent (orgId : Uuid) (a : CustomerStrategyAssignment) (clock : Clock) : DomainEvent SegmentPayload :=
  let occurredAt := toISOString (clock 0%nat) in
  MkEnvelope "segment.strategyAssigned" (cs_customerId a)
    (StrategyAssignedPayload orgId (cs_customerId a) (cs_segment a) (cs_strategy a) (cs_source a) (cs_reason a) occurredAt) occurredAt.

(** ** The documented matrix *)

(** The nine rows, in order: the first condition that holds decides. *)
Definition matrix : list ((ParsedCustomer -> bool) * Segment) :=
  [(fun p => pc_exposureMinor p =? 0, dormant);
   (fun p => from_option (Z.leb 180) false (pc_silence p), dormant);
   (fun p => 3 <=? pc_broken p, chronic_late);
   (fun p => 90 <=? pc_overdue p, chronic_late);
   (fun p => pc_disputeOpen p, at_risk);
   (fun p => 31 <=? pc_overdue p, at_risk);
   (fun p => from_option (fun k => nltb k (ndiv (num 1) (num 2))) false (pc_kept p), at_risk);
   (fun p => (10000000 <=? pc_exposureMinor p) && (pc_overdue p =? 0) &&
             from_option (nleb (ndiv (num 8) (num 10))) true (pc_kept p), high_value_reliable);
   (fun _ => true, watch)].

Fixpoint first_match (rows : list ((ParsedCustomer -> bool) * Segment)) (p : ParsedCustomer) : option Segment :=
  match rows with
  | [] => None
  | (cond, s) :: rows => if cond p then Some s else first_match rows p
  end.

(** What each reason says of the customer. *)
Definition reason_holds (p : ParsedCustomer) (r : SegmentReason) : Prop :=
  match r with
  | NoOutstandingBalance => pc_exposureMinor p = 0
  | LongSilence d => pc_silence p = Some d /\ 180 <= d
  | BrokenPromises n => pc_broken p = n /\ 3 <= n
  | DeeplyOverdue d => pc_overdue p = d /\ 90 <= d
  | DisputeOpen => pc_disputeOpen p = true
  | Overdue d => pc_overdue p = d /\ 31 <= d
  | LowKeptRate k => pc_kept p = Some k /\ nltb k AT_RISK_KEPT_RATE = true
  | HighExposure z => pc_exposureMinor p = z /\ 10000000 <= z
  | NothingOverdue => pc_overdue p = 0
  | NoPromiseHistory => pc_kept p = None
  | HighKeptRate k => pc_kept p = Some k /\ nleb RELIABLE_KEPT_RATE k = true
  | NothingMatched => True
  end.

Lemma segmentOf_matrix p : Some (sa_segment (segmentOf p)) = first_match matrix p.
Proof.
  unfold segmentOf, longSilence, chronic, atRisk, reliable, first_match, matrix, DORMANT_SILENCE_DAYS, CHRONIC_BROKEN_PROMISES,
    CHRONIC_DAYS_OVERDUE, AT_RISK_DAYS_OVERDUE, AT_RISK_KEPT_RATE, HIGH_VALUE_EXPOSURE_MINOR, RELIABLE_KEPT_RATE.
  generalize (ndiv (num 1) (num 2)) (ndiv (num 8) (num 10)). intros half fourFifths.
  destruct p as [id ex ov k br si dis]. cbn. destruct (ex =? 0); [done|].
  destruct si as [d|]; cbn; [destruct (180 <=? d); [done|]|]; destruct (3 <=? br), (90 <=? ov); cbn; try done;
    destruct dis; cbn; try done; destruct (31 <=? ov); cbn; try done;
    destruct k as [k|]; cbn; try (destruct (nltb k half); cbn; [done|]);
    destruct (10000000 <=? ex), (ov =? 0); cbn; try done; by destruct (nleb fourFifths k).
Qed.

Lemma reasons_hold p : sa_reasons (segmentOf p) <> [] /\ Forall (reason_holds p) (sa_reasons (segmentOf p)).
Proof.
  unfold segmentOf, longSilence, chronic, atRisk, reliable, DORMANT_SILENCE_DAYS, CHRONIC_BROKEN_PROMISES,
    CHRONIC_DAYS_OVERDUE, AT_RISK_DAYS_OVERDUE, HIGH_VALUE_EXPOSURE_MINOR.
  destruct p as [id ex ov k br si dis]. cbn. destruct (ex =? 0) eqn:Ex; [split; [done|]; repeat constructor; cbn; lia|].
  destruct (match si with Some d => if 180 <=? d then Some d else None | None => None end) as [d|] eqn:Es.
  { split; [done|]. constructor; [|constructor]. cbn. destruct si as [d'|]; [|done]. destruct (180 <=? d') eqn:E; [|done].
    injection Es as <-. split; [done|lia]. }
  case_bool_decide as Hc; cbn; [|split; [done|]; apply Forall_app; split;
    [destruct (3 <=? br) eqn:E|destruct (90 <=? ov) eqn:E]; repeat constructor; cbn; lia].
  case_bool_decide as Hr; cbn; [|split; [done|]; repeat (apply Forall_app; split);
    [destruct dis|destruct (31 <=? ov) eqn:E|destruct k as [k|]; [destruct (nltb k AT_RISK_KEPT_RATE) eqn:E|]]; repeat constructor; cbn; done || lia].
  destruct ((10000000 <=? ex) && (ov =? 0) && _) eqn:E; cbn; (split; [done|]); [|by repeat constructor].
  apply andb_true_iff in E as [[E1 E2]%andb_true_iff E3]. apply Z.leb_le in E1. apply Z.eqb_eq in E2.
  repeat (apply Forall_cons; split); cbn; [done..|destruct k; done|constructor].
Qed.

(** ** Segmentation *)

Lemma segmentFrom_Ok facts : forall seen out, segmentFrom seen facts = Ok out ->
  Forall2 (fun f a => exists p, parseCustomerFact f = Ok p /\ a = segmentOf p) facts out /\
  NoDup (sa_customerId <$> out) /\ (forall id, id ∈ seen -> id ∉ sa_customerId <$> out).
Proof.
  induction facts as [|f facts IH]; intros seen out H; cbn in H.
  - injection H as <-. split; [constructor|]. split; [constructor|set_solver].
  - apply bind_Ok in H as (p & Hp & H). apply guard_Ok in H as [Hs H]. apply bind_Ok in H as (rest & (Hf & Hnd & Hseen)%IH & H).
    injection H as <-. assert (sa_customerId (segmentOf p) = pc_customerId p) as Eid.
    { unfold segmentOf. repeat case_match; done. }
    rewrite fmap_cons, Eid. split; [constructor; eauto|]. split.
    + constructor; [apply Hseen; set_solver|done].
    + intros id Hin. apply not_elem_of_cons. split; [by intros ->|apply Hseen; set_solver].
Qed.

(** Segmentation is the decision matrix: every customer, in input order and once, gets the
    segment of the first row that holds, with at least one reason and only true ones. *)
Theorem segmentation_follows_the_matrix facts out : segmentCustomers facts = Ok out ->
  NoDup (sa_customerId <$> out) /\
  Forall2 (fun f a => exists p, parseCustomerFact f = Ok p /\ sa_customerId a = cf_customerId f /\
    Some (sa_segment a) = first_match matrix p /\ sa_reasons a <> [] /\ Forall (reason_holds p) (sa_reasons a)) facts out.
Proof.
  intros (Hf & Hnd & _)%segmentFrom_Ok. split; [done|]. eapply Forall2_impl; [exact Hf|].
  intros f a (p & Hp & ->). exists p. split; [done|]. split; [|split; [apply segmentOf_matrix|apply reasons_hold]].
  transitivity (pc_customerId p); [unfold segmentOf; repeat case_match; done|].
  unfold parseCustomerFact in Hp. apply bind_Ok in Hp as (id & Hid & Hp). unfold assertUuidShape in Hid.
  apply guard_Ok in Hid as [_ Hid]. injection Hid as <-. by invert_ok.
Qed.

(** ** Strategies *)

Lemma assertAll_Ok {A} (f : A -> result unit) l : assertAll f l = Ok tt <-> Forall (fun x => f x = Ok tt) l.
Proof.
  induction l as [|x l IH]; cbn; [split; constructor|]. rewrite Forall_cons, <- IH.
  destruct (f x) as [[]|]; cbn; naive_solver.
Qed.

(** Override tables with known segments, UUID-shaped customers and known strategies. *)
Definition overrides_ok (o : StrategyOverrides) : Prop :=
  Forall (fun e => is_segment e.1 = true /\ is_strategy e.2 = true) (default [] (ov_bySegment o)) /\
  Forall (fun e => UUID_PATTERN e.1 = true /\ is_strategy e.2 = true) (default [] (ov_byCustomer o)).

Lemma assertOverrides_Ok o : assertOverrides o = Ok tt <-> overrides_ok o.
Proof.
  unfold assertOverrides, overrides_ok.
  assert (forall (l : list (string * string)), assertAll (fun e =>
        refuse (is_segment e.1 = false) with "SEG_OVERRIDE_SEGMENT_UNKNOWN" ;; assertStrategy e.2 "SEG_STRATEGY_INVALID") l = Ok tt <->
      Forall (fun e => is_segment e.1 = true /\ is_strategy e.2 = true) l) as H1.
  { intros l. rewrite assertAll_Ok. apply Forall_iff. intros e. unfold assertStrategy.
    destruct (is_segment e.1), (is_strategy e.2); cbn; naive_solver. }
  assert (forall (l : list (string * string)), assertAll (fun e =>
        _ ← assertUuidShape e.1 "SEG_OVERRIDE_CUSTOMER_INVALID"; assertStrategy e.2 "SEG_STRATEGY_INVALID") l = Ok tt <->
      Forall (fun e => UUID_PATTERN e.1 = true /\ is_strategy e.2 = true) l) as H2.
  { intros l. rewrite assertAll_Ok. apply Forall_iff. intros e. unfold assertStrategy, assertUuidShape.
    destruct (UUID_PATTERN e.1), (is_strategy e.2); cbn; naive_solver. }
  rewrite <- H1, <- H2. destruct (assertAll _ (default [] (ov_bySegment o))) as [[]|]; cbn; naive_solver.
Qed.

(** The strategy of an assignment: the customer's override, else the segment's, else the
    default of the segment. *)
Definition chosen (o : StrategyOverrides) (a : SegmentAssignment) : CustomerStrategyAssignment :=
  let row := MkCustomerStrategy (sa_customerId a) (sa_segment a) in
  let segment := segment_name (sa_segment a) in
  match override (ov_byCustomer o) (sa_customerId a), override (ov_bySegment o) segment with
  | Some s, _ => row s src_customer_override "explicit customer override"
  | None, Some s => row s src_segment_override ("explicit segment override for '" +:+ segment +:+ "'")
  | None, None => row (strategy_name (DEFAULT_STRATEGIES (sa_segment a))) src_default ("default mapping for segment '" +:+ segment +:+ "'")
  end.

Lemma mapGet_in {K V} `{EqDecision K} (m : list (K * V)) k v : mapGet m k = Some v -> (k, v) ∈ m.
Proof.
  induction m as [|[x w] m IH]; cbn; [done|]. case_decide as E; [intros [= ->]; subst; left|intros H; right; by apply IH].
Qed.

Lemma default_is_strategy s : is_strategy (strategy_name (DEFAULT_STRATEGIES s)) = true.
Proof. by destruct s. Qed.

(** Assignment never fails on valid overrides, keeps the input order, and every row is the
    choice of the precedence, a known strategy. *)
Theorem strategies_follow_precedence assignments o :
  (overrides_ok o -> assignStrategies assignments o = Ok (chosen o <$> assignments) /\
     Forall (fun row => is_strategy (cs_strategy row) = true) (chosen o <$> assignments)) /\
  (forall rows, assignStrategies assignments o = Ok rows -> overrides_ok o).
Proof.
  split.
  - intros Ho. pose proof Ho as H%assertOverrides_Ok. split.
    + unfold assignStrategies. rewrite H. cbn [mbind result_bind].
      induction assignments as [|a l IH]; [done|]. cbn [traverse]. rewrite IH, fmap_cons. unfold chosen, strategyFor. rewrite H.
      cbn [mbind result_bind]. destruct (override (ov_byCustomer o) _); cbn; [done|]. by destruct (override (ov_bySegment o) _).
    + apply Forall_fmap, Forall_true. intros a. unfold compose, chosen, override. destruct Ho as [Hs Hc].
      destruct (ov_byCustomer o) as [cs|]; cbn in *;
        [destruct (mapGet cs (sa_customerId a)) as [v|] eqn:E; cbn;
          [apply mapGet_in in E; rewrite Forall_forall in Hc; by apply (Hc _ E)|]|];
        (destruct (ov_bySegment o) as [ss|]; cbn in *; [|apply default_is_strategy]);
        (destruct (mapGet ss (segment_name (sa_segment a))) as [v|] eqn:E'; cbn; [|apply default_is_strategy]);
        apply mapGet_in in E'; rewrite Forall_forall in Hs; by apply (Hs _ E').
  - intros rows H. unfold assignStrategies in H. apply bind_Ok in H as ([] & H & _). by apply assertOverrides_Ok.
Qed.

(** ** Samples *)

Definition sample_customer (n : string) (exposure overdue : Z) (kept : option number) : CustomerFact :=
  MkCustomerFact ("0a1b2c3d-0000-4000-8000-00000000000" +:+ n) "KES" (Big exposure) (num overdue) kept (num 1) (Some (num 12)) false.

Definition sample_customers : list CustomerFact :=
  [sample_customer "1" 25000000 0 None; sample_customer "2" 900 45 (Some (ndiv (num 1) (num 3)));
   sample_customer "3" 900 95 None; sample_customer "4" 0 95 None; sample_customer "5" 900 30 (Some (num 1))].

Lemma segmentation_follows_the_matrix_witness : exists out,
  segmentCustomers sample_customers = Ok out /\ NoDup (sa_customerId <$> out) /\
  sa_segment <$> out = [high_value_reliable; at_risk; chronic_late; dormant; watch] /\
  match assignStrategies out (MkOverrides (Some [("watch", "escalate_early")]) None) with
  | Ok rows => cs_strategy <$> rows = ["self_serve_reminders"; "intensive_follow_up"; "escalate_early"; "self_serve_reminders"; "escalate_early"]
  | Err _ => False
  end.
Proof.
  eexists. split; [vm_compute; reflexivity|]. split; [|split; vm_compute; reflexivity].
  refine (proj1 (segmentation_follows_the_matrix sample_customers _ _)). vm_compute. reflexivity.
Defined.
