(* ===== verification/CollectionsProjection.v ===== *)
(** * Cash-collection projections

    src/domain/projections/projection.ts: the three bands of what is expected to be collected
    within a horizon, with the behaviour facts of facts.ts and the event.

    Propensities, haircuts and fractions are doubles, multiplied as the source does, and a
    fraction of a balance is [Money.allocate] on doubles.  The assumptions, which the source
    prints, are a data type.  The horizon's end is computed in doubles too; a time value that
    is not one of a date makes [toISOString] throw. *)

From stdpp Require Import prelude strings list.
From Stdlib Require Import ZArith Lia SpecFloat.
From S2P Require Import Prelude JsNumber JsString JsDate IsoDate Money Events Fx JsMap AgingSnapshot.
Local Open Scope string_scope.
Local Open Scope list_scope.
Local Open Scope Z_scope.
Local Open Scope js_scope.

Definition nsub : number -> number -> number := SFsub 53 1024.

(** [Math.min(a, b)] of two numbers that are not NaN. *)
Definition nmin (a b : number) : number := if nltb b a then b else a.

(** ** Behaviour facts *)

Record BehaviorFact := MkBehaviorFact { bf_customerId : Uuid; bf_collectionPropensity : number }.

Definition fraction_ok (x : number) : bool := isFinite x && negb (nltb x (num 0)) && negb (nltb (num 1) x).

Definition addBehaviorFact (byCustomer : list (Uuid * BehaviorFact)) (fact : BehaviorFact) : result (list (Uuid * BehaviorFact)) :=
  customerId ← assertUuidShape (bf_customerId fact) "PROJ_BEHAVIOR_FACT_INVALID";
  refuse (is_Some (mapGet byCustomer customerId)) with "PROJ_BEHAVIOR_FACT_DUPLICATE" ;;
  refuse (fraction_ok (bf_collectionPropensity fact) = false) with "PROJ_PROPENSITY_INVALID" ;;
  Ok (mapSet byCustomer customerId fact).

Definition parseBehaviorFacts (facts : list BehaviorFact) : result (list (Uuid * BehaviorFact)) := foldM addBehaviorFact [] facts.

(** ** Rules *)

Definition DEFAULT_PROPENSITY : number := ndiv (num 1) (num 2).
Definition OPTIMISTIC_LIFT : number := ndiv (num 5) (num 4).
Definition PESSIMISTIC_DISCOUNT : number := ndiv (num 3) (num 4).

(** The tiers; the last one has no limit. *)
Definition OVERDUE_HAIRCUTS : list (option Z * number) :=
  [(Some 30, ndiv (num 8) (num 10)); (Some 60, ndiv (num 6) (num 10)); (Some 90, ndiv (num 4) (num 10)); (None, ndiv (num 2) (num 10))].

Definition covers (tier : option Z * number) (days : Z) : bool := from_option (Z.leb days) true tier.1.

Definition overdueHaircut (daysPastDue : Z) : number :=
  match List.find (fun tier => covers tier daysPastDue) OVERDUE_HAIRCUTS with
  | Some tier => tier.2
  | None => ndiv (num 2) (num 10)
  end.

Definition applyFraction (amt : Money) (fraction : number) : result Money :=
  refuse (fraction_ok fraction = false) with "PROJ_FRACTION_INVALID" ;;
  parts ← allocate amt [fraction; nsub (num 1) fraction];
  match parts with part :: _ => Ok part | [] => Err PlainError end.

Record Fractions := MkFractions { fr_pessimistic : number; fr_expected : number; fr_optimistic : number }.

Definition bandFractions (propensity haircut : number) : Fractions :=
  MkFractions (nmul (nmul propensity PESSIMISTIC_DISCOUNT) haircut) (nmul propensity haircut)
    (nmul (nmin (num 1) (nmul propensity OPTIMISTIC_LIFT)) haircut).

(** ** The projection *)

Record BandAccumulator := MkBands { bd_pessimistic : Z; bd_expected : Z; bd_optimistic : Z; bd_inScope : Z }.

Record ProjectionCurrencyView := MkProjectionView {
  pv_currency : Currency;
  pv_pessimisticMinor : Z;
  pv_expectedMinor : Z;
  pv_optimisticMinor : Z;
  pv_inScopeCount : Z;
  pv_excludedDisputedCount : Z;
}.

Inductive Assumption :=
| Scope (horizonEnd asOf : string) (horizonDays : Z)
| Haircuts
| Bands
| DefaultPropensity (customers : Z)
| DisputedExcluded (count : Z)
| ZeroSkipped (count : Z).

Record CollectionsProjection := MkProjection {
  cp_asOf : string;
  cp_horizonDays : Z;
  cp_horizonEnd : string;
  cp_currencies : list ProjectionCurrencyView;
  cp_assumptions : list Assumption;
  cp_evidenceRefs : list Uuid;
}.

Record ProjectionState := MkProjectionState {
  ps_byCurrency : list (Currency * BandAccumulator);
  ps_evidence : list Uuid;
  ps_defaulted : list Uuid;
  ps_disputed : Z;
  ps_zero : Z;
}.

(** The bands one receivable adds. *)
Definition bandsOf (asOfTime : Z) (propensities : list (Uuid * BehaviorFact)) (r : ParsedReceivable) : result (Z * Z * Z) :=
  let propensity := default DEFAULT_PROPENSITY (bf_collectionPropensity <$> mapGet propensities (pr_customerId r)) in
  let fractions := bandFractions propensity (overdueHaircut (daysOverdue (pr_dueTime r) asOfTime)) in
  p ← applyFraction (pr_balance r) (fr_pessimistic fractions);
  e ← applyFraction (pr_balance r) (fr_expected fractions);
  o ← applyFraction (pr_balance r) (fr_optimistic fractions);
  Ok (amount p, amount e, amount o).

Definition projectReceivable (asOfTime horizonEndTime : Z) (propensities : list (Uuid * BehaviorFact))
    (s : ProjectionState) (r : ParsedReceivable) : result ProjectionState :=
  if isZero (pr_balance r) then
    Ok (MkProjectionState (ps_byCurrency s) (ps_evidence s) (ps_defaulted s) (ps_disputed s) (ps_zero s + 1))
  else if pr_disputed r then
    Ok (MkProjectionState (ps_byCurrency s) (ps_evidence s) (ps_defaulted s) (ps_disputed s + 1) (ps_zero s))
  else if decide (pr_dueTime r > horizonEndTime) then Ok s
  else
    let defaulted := match mapGet propensities (pr_customerId r) with None => addDistinct (ps_defaulted s) (pr_customerId r) | Some _ => ps_defaulted s end in
    let acc := default (MkBands 0 0 0 0) (mapGet (ps_byCurrency s) (pr_currency r)) in
    bands ← bandsOf asOfTime propensities r;
    let '(p, e, o) := bands in
    Ok (MkProjectionState
          (mapSet (ps_byCurrency s) (pr_currency r)
             (MkBands (bd_pessimistic acc + p) (bd_expected acc + e) (bd_optimistic acc + o) (bd_inScope acc + 1)))
          (ps_evidence s ++ [pr_receivableId r]) defaulted (ps_disputed s) (ps_zero s)).

Definition countDisputed (parsed : list ParsedReceivable) (c : Currency) : Z :=
  Z.of_nat (length (List.filter (fun r => bool_decide (pr_currency r = c) && pr_disputed r && negb (isZero (pr_balance r))) parsed)).

Definition projectionView (parsed : list ParsedReceivable) (e : Currency * BandAccumulator) : ProjectionCurrencyView :=
  MkProjectionView e.1 (bd_pessimistic e.2) (bd_expected e.2) (bd_optimistic e.2) (bd_inScope e.2) (countDisputed parsed e.1).

Definition assumptionsOf (horizonEnd asOf : string) (days : Z) (s : ProjectionState) : list Assumption :=
  [Scope horizonEnd asOf days] ++
  (if bool_decide (ps_evidence s = []) then [] else [Haircuts; Bands]) ++
  (if bool_decide (ps_defaulted s = []) then [] else [DefaultPropensity (Z.of_nat (length (ps_defaulted s)))]) ++
  (if decide (0 < ps_disputed s) then [DisputedExcluded (ps_disputed s)] else []) ++
  (if decide (0 < ps_zero s) then [ZeroSkipped (ps_zero s)] else []).

(** [new Date(t)] and [toISOString] of a number: a time value of a date, or a [RangeError]. *)
Definition dateOfNumber (t : number) : result Z :=
  match integerValue t with
  | Some z => if decide (Z.abs z <= MAX_TIME) then Ok z else Err RangeError
  | None => Err RangeError
  end.

Section projection.
  Context (Date_parse : string -> option Z).

Definition projectCollections (receivables : list ReceivableFact) (behaviorFacts : list BehaviorFact)
    (horizonDays : number) (clock : Clock) : result CollectionsProjection :=
  let asOfTime := clock 0%nat in
  match integerValue horizonDays with
  | None => Err (DomainError "PROJ_HORIZON_INVALID")
  | Some days =>
      refuse (days < 1) with "PROJ_HORIZON_INVALID" ;;
      parsed ← parseReceivableFacts Date_parse receivables;
      propensities ← parseBehaviorFacts behaviorFacts;
      horizonEndTime ← dateOfNumber (nadd (num asOfTime) (nmul horizonDays (num DAY_MS)));
      let asOf := toISOString asOfTime in
      let horizonEnd := toISOString horizonEndTime in
      s ← foldM (projectReceivable asOfTime horizonEndTime propensities) (MkProjectionState [] [] [] 0 0) parsed;
      Ok (MkProjection asOf days horizonEnd (projectionView parsed <$> ps_byCurrency s) (assumptionsOf horizonEnd asOf days s) (ps_evidence s))
  end.
End projection.

(** ** The event *)

Record CollectionsProjected := MkCollectionsProjected {
  cj_orgId : Uuid;
  cj_asOf : string;
  cj_horizonDays : Z;
  cj_horizonEnd : string;
  cj_inScopeReceivables : Z;
  cj_assumptionCount : Z;
  cj_evidenceRefs : list Uuid;
  cj_currencies : list (Currency * Z * Z * Z);
}.

Definition collectionsProjectedEvent (orgId : Uuid) (p : CollectionsProjection) (clock : Clock) : result (Envelope string CollectionsProjected) :=
  currencies ← traverse (fun v =>
    a ← projMinorToNumber (pv_pessimisticMinor v);
    b ← projMinorToNumber (pv_expectedMinor v);
    c ← projMinorToNumber (pv_optimisticMinor v);
    Ok (pv_currency v, a, b, c)) (cp_currencies p);
  Ok (domainEvent "projections.collectionsProjected" orgId (MkCollectionsProjected orgId (cp_asOf p) (cp_horizonDays p) (cp_horizonEnd p) (Z.of_nat (length (cp_evidenceRefs p)))
        (Z.of_nat (length (cp_assumptions p))) (cp_evidenceRefs p) currencies) clock).

(** ** Fractions of a balance *)

(** Two weights of a total [W] split an amount by rounding half up. *)
Definition halfUp (amt w W : Z) : Z := (2 * (amt * w) + W) / (2 * W).

Lemma two_way_split amt w W : 0 <= amt -> 0 < W -> 0 <= w <= W ->
  exists rest, distribute amt (imap (fun i s => MkShare i (Z.quot (amt * s) W) (Z.rem (amt * s) W)) [w; W - w]) = [halfUp amt w W; rest].
Proof.
  intros Ha HW Hw. cbn [imap compose]. unfold distribute. cbn [fmap list_fmap base index]. unfold sumZ. cbn [foldr].
  rewrite !Z.quot_div_nonneg, !Z.rem_mod_nonneg by nia. set (q := amt * w / W). set (q' := amt * (W - w) / W).
  pose proof (Z.div_mod (amt * w) W ltac:(lia)) as E. pose proof (Z.mod_pos_bound (amt * w) W HW) as B.
  pose proof (Z.div_mod (amt * (W - w)) W ltac:(lia)) as E'. pose proof (Z.mod_pos_bound (amt * (W - w)) W HW) as B'.
  fold q in E. fold q' in E'. set (r := (amt * w) mod W) in *. set (r' := (amt * (W - w)) mod W) in *.
  assert (r + r' = (amt - q - q') * W) as Hs by nia. clearbody q q' r r'.
  assert (forall z x, 0 <= x < 2 * W -> 2 * (W * q + r) + W = 2 * W * z + x -> halfUp amt w W = z) as Hh.
  { intros z x Hx Ez. unfold halfUp. rewrite E, Ez. symmetry. apply (Z.div_unique _ _ _ x); lia. }
  assert (amt - (q + (q' + 0)) = 0 \/ amt - (q + (q' + 0)) = 1) as [HL|HL] by nia; rewrite HL.
  - exists q'. assert (r = 0) as Er by nia. rewrite (Hh q W) by lia. unfold bumped. cbn. by rewrite !decide_False by set_solver.
  - assert (r + r' = W) as Hr by nia. unfold bumped. cbn [sort_by foldr sort_insert]. unfold share_cmp. cbn [rem index].
    destruct (decide (r' <= r)) as [Hle|Hgt].
    + exists q'. rewrite (Hh (q + 1) (2 * r - W)) by lia. rewrite (decide_True (P := _ <= 0)) by (repeat case_decide; lia). cbn.
      rewrite decide_True by set_solver. by rewrite decide_False by set_solver.
    + exists (q' + 1). rewrite (Hh q (2 * r + W)) by lia. rewrite (decide_False (P := _ <= 0)) by (repeat case_decide; lia). cbn.
      rewrite decide_False by set_solver. by rewrite decide_True by set_solver.
Qed.

(** ** What the projection says *)

Definition in_scope (horizonEnd : Z) (ps : list ParsedReceivable) : list ParsedReceivable :=
  List.filter (fun r => negb (isZero (pr_balance r)) && negb (pr_disputed r) && (pr_dueTime r <=? horizonEnd)) ps.

Definition of_currency (c : Currency) (ps : list ParsedReceivable) : list ParsedReceivable :=
  List.filter (fun r => bool_decide (pr_currency r = c)) ps.

Section reference.
  Context (t : Z) (props : list (Uuid * BehaviorFact)).

(** The bands of a receivable whose fractions were accepted. *)
Definition bands (r : ParsedReceivable) : Z * Z * Z := match bandsOf t props r with Ok b => b | Err _ => (0, 0, 0) end.

Definition sum_bands (ps : list ParsedReceivable) : BandAccumulator :=
  MkBands (sumZ ((fun r => (bands r).1.1) <$> ps)) (sumZ ((fun r => (bands r).1.2) <$> ps)) (sumZ ((fun r => (bands r).2) <$> ps))
    (Z.of_nat (length ps)).

Definition disputed_count (ps : list ParsedReceivable) : Z :=
  Z.of_nat (length (List.filter (fun r => negb (isZero (pr_balance r)) && pr_disputed r) ps)).
Definition zero_count (ps : list ParsedReceivable) : Z := Z.of_nat (length (List.filter (fun r => isZero (pr_balance r)) ps)).

(** The customers in scope without a behaviour fact. *)
Definition unknown_customers (ps : list ParsedReceivable) : list Uuid :=
  distinct (pr_customerId <$> List.filter (fun r => bool_decide (mapGet props (pr_customerId r) = None)) ps).

Record projection_invariant (h : Z) (ps : list ParsedReceivable) (s : ProjectionState) : Prop := {
  pi_keys : (ps_byCurrency s).*1 = distinct (pr_currency <$> in_scope h ps);
  pi_bands : forall c, default (MkBands 0 0 0 0) (mapGet (ps_byCurrency s) c) = sum_bands (of_currency c (in_scope h ps));
  pi_evidence : ps_evidence s = ids (in_scope h ps);
  pi_defaulted : ps_defaulted s = unknown_customers (in_scope h ps);
  pi_disputed : ps_disputed s = disputed_count ps;
  pi_zero : ps_zero s = zero_count ps;
}.

Lemma sum_bands_snoc ps r : sum_bands (ps ++ [r]) =
  MkBands (bd_pessimistic (sum_bands ps) + (bands r).1.1) (bd_expected (sum_bands ps) + (bands r).1.2)
    (bd_optimistic (sum_bands ps) + (bands r).2) (bd_inScope (sum_bands ps) + 1).
Proof. unfold sum_bands. rewrite !sumZ_fmap_snoc, length_app. cbn. f_equal. lia. Qed.

Lemma project_step h ps s r s' : projection_invariant h ps s -> projectReceivable t h props s r = Ok s' ->
  projection_invariant h (ps ++ [r]) s'.
Proof.
  intros [Hk Hb He Hd Hdi Hz] H. unfold projectReceivable in H.
  destruct (isZero (pr_balance r)) eqn:Ez; [|destruct (pr_disputed r) eqn:Ed; [|destruct (decide (pr_dueTime r > h)) as [Hh|Hh]]].
  1-3: assert (in_scope h (ps ++ [r]) = in_scope h ps) as Es by
    (unfold in_scope; rewrite filter_snoc, Ez, ?Ed; cbn; try (rewrite (proj2 (Z.leb_gt _ _)) by lia); by rewrite app_nil_r).
  1-3: injection H as <-; constructor; cbn [ps_byCurrency ps_evidence ps_defaulted ps_disputed ps_zero]; rewrite ?Es; try done;
    unfold disputed_count, zero_count in *; rewrite filter_snoc, Ez, ?Ed, length_app; cbn [andb negb length]; lia.
  assert (in_scope h (ps ++ [r]) = in_scope h ps ++ [r]) as Es.
  { unfold in_scope. rewrite filter_snoc, Ez, Ed. cbn. by replace (pr_dueTime r <=? h) with true by lia. }
  destruct (bandsOf t props r) as [[[p e] o]|] eqn:Eb; [|done]. cbn [mbind result_bind] in H. injection H as <-.
  constructor; cbn [ps_byCurrency ps_evidence ps_defaulted ps_disputed ps_zero]; rewrite ?Es.
  - rewrite mapSet_keys, Hk, fmap_app. cbn. by rewrite distinct_snoc.
  - intros c. rewrite mapGet_set. unfold of_currency. rewrite filter_snoc.
    destruct (decide (c = pr_currency r)) as [->|Hne]; cbn [from_option id].
    + rewrite bool_decide_true by done. rewrite sum_bands_snoc, Hb. unfold bands. by rewrite Eb.
    + rewrite bool_decide_false by done. rewrite app_nil_r. apply Hb.
  - rewrite He. by rewrite ids_app.
  - rewrite Hd. unfold unknown_customers. rewrite filter_snoc. destruct (mapGet props (pr_customerId r)) eqn:Em; cbn.
    + by rewrite app_nil_r.
    + rewrite fmap_app. cbn. by rewrite distinct_snoc.
  - rewrite Hdi. unfold disputed_count. rewrite filter_snoc, Ez, Ed. by rewrite app_nil_r.
  - rewrite Hz. unfold zero_count. rewrite filter_snoc, Ez. by rewrite app_nil_r.
Qed.

Lemma project_loop h ps s : foldM (projectReceivable t h props) (MkProjectionState [] [] [] 0 0) ps = Ok s -> projection_invariant h ps s.
Proof.
  revert s. induction ps as [|r ps IH] using rev_ind; intros s H.
  - injection H as <-. by constructor.
  - rewrite foldM_app in H. apply bind_Ok in H as (s0 & H0%IH & H). cbn in H. apply bind_Ok in H as (s1 & H1 & H).
    injection H as <-. by eapply project_step.
Qed.

(** The loop succeeds when the bands of every receivable in scope do. *)
Lemma project_total h ps s0 : Forall (fun r => exists b, bandsOf t props r = Ok b) (in_scope h ps) ->
  exists s, foldM (projectReceivable t h props) s0 ps = Ok s.
Proof.
  revert s0. induction ps as [|r ps IH]; intros s0 Hb; [by eexists|]. cbn. unfold in_scope in Hb. cbn in Hb.
  unfold projectReceivable at 2. destruct (isZero (pr_balance r)), (pr_disputed r); cbn in *; try by apply IH.
  destruct (decide (pr_dueTime r > h)) as [Hh|Hh].
  - replace (pr_dueTime r <=? h) with false in Hb by lia. by apply IH.
  - replace (pr_dueTime r <=? h) with true in Hb by lia. apply Forall_cons in Hb as [([[p e] o] & ->) Hb]. cbn. by apply IH.
Qed.
End reference.

(** What the assumptions list counts. *)
Lemma assumptions_count h t d s :
  (forall n, DefaultPropensity n ∈ assumptionsOf h t d s <-> n = Z.of_nat (length (ps_defaulted s)) /\ 0 < n) /\
  (forall n, DisputedExcluded n ∈ assumptionsOf h t d s <-> n = ps_disputed s /\ 0 < n) /\
  (forall n, ZeroSkipped n ∈ assumptionsOf h t d s <-> n = ps_zero s /\ 0 < n).
Proof.
  unfold assumptionsOf.
  assert (bool_decide (ps_defaulted s = []) = bool_decide (Z.of_nat (length (ps_defaulted s)) = 0)) as ->.
  { apply bool_decide_ext. by destruct (ps_defaulted s). }
  pose proof (Nat2Z.is_nonneg (length (ps_defaulted s))) as Hl. revert Hl. generalize (Z.of_nat (length (ps_defaulted s))). intros k Hl.
  destruct (bool_decide (ps_evidence s = [])); repeat case_decide; case_bool_decide; cbn; set_unfold; naive_solver lia.
Qed.

(** The projection is a function of its scope: the receivables that are outstanding, not
    disputed and due within the horizon back the bands, currency by currency, and are the
    evidence; what was left out or assumed is counted. *)
Theorem projection_scope_exact Date_parse receivables facts days clock p :
  projectCollections Date_parse receivables facts days clock = Ok p ->
  exists ps props h, parseReceivableFacts Date_parse receivables = Ok ps /\ parseBehaviorFacts facts = Ok props /\
    cp_horizonEnd p = toISOString h /\
    cp_evidenceRefs p = ids (in_scope h ps) /\ NoDup (cp_evidenceRefs p) /\
    cp_currencies p = (fun c => let b := sum_bands (clock 0%nat) props (of_currency c (in_scope h ps)) in
        MkProjectionView c (bd_pessimistic b) (bd_expected b) (bd_optimistic b) (bd_inScope b) (countDisputed ps c)) <$>
      distinct (pr_currency <$> in_scope h ps) /\
    (forall n, DefaultPropensity n ∈ cp_assumptions p <-> n = Z.of_nat (length (unknown_customers props (in_scope h ps))) /\ 0 < n) /\
    (forall n, DisputedExcluded n ∈ cp_assumptions p <-> n = disputed_count ps /\ 0 < n) /\
    (forall n, ZeroSkipped n ∈ cp_assumptions p <-> n = zero_count ps /\ 0 < n).
Proof.
  intros H. unfold projectCollections in H. destruct (integerValue days) as [d|]; [|done]. apply guard_Ok in H as [_ H].
  apply bind_Ok in H as (ps & Hps & H). apply bind_Ok in H as (props & Hpr & H). apply bind_Ok in H as (h & _ & H).
  apply bind_Ok in H as (s & [Hk Hb He Hd Hdi Hz]%project_loop & H). injection H as <-.
  exists ps, props, h. do 3 (split; [done|]). cbn [cp_evidenceRefs cp_currencies cp_assumptions].
  split; [done|]. split.
  { rewrite He. unfold ids, in_scope. eapply sublist_NoDup; [exact (proj1 (proj2 (parseFrom_Ok _ _ _ _ Hps)))|].
    apply fmap_sublist, filter_sublist. }
  split.
  { rewrite <- Hk, <- list_fmap_compose. apply Forall_fmap_ext_1, Forall_forall. intros [c acc] Hin. cbn.
    specialize (Hb c). rewrite (mapGet_elem _ c acc) in Hb; [|rewrite Hk; apply distinct_NoDup|done]. cbn in Hb. by rewrite Hb. }
  destruct (assumptions_count (toISOString h) (toISOString (clock 0%nat)) d s) as (H1 & H2 & H3).
  rewrite Hd in H1. rewrite Hdi in H2. rewrite Hz in H3. done.
Qed.

(** ** Customers without a behaviour fact *)

Definition NANO : Z := 10 ^ 9.

(** A fraction whose float arithmetic lands on [w] parts in a thousand million. *)
Definition clean_fraction (f : number) (w : Z) : bool :=
  fraction_ok f && negb (existsb (fun x => negb (isFinite x) || nltb x (num 0)) [f; nsub (num 1) f]) &&
  negb (nleb (foldl nadd (num 0) [f; nsub (num 1) f]) (num 0)) &&
  bool_decide (scale_weight (foldl nadd (num 0) [f; nsub (num 1) f]) = Ok NANO) &&
  bool_decide (traverse scale_weight [f; nsub (num 1) f] = Ok [w; NANO - w]) &&
  (0 <=? w) && (w <=? NANO).

Lemma applyFraction_clean f w m : clean_fraction f w = true -> money_wf m ->
  applyFraction m f = Ok (MkMoney (halfUp (amount m) w NANO) (currency m)).
Proof.
  unfold clean_fraction. intros Hc Hm. do 6 apply andb_true_iff in Hc as [Hc ?]. unfold applyFraction.
  rewrite Hc, (decide_False (P := true = false)) by done. unfold allocate.
  rewrite (decide_False (P := [f; nsub (num 1) f] = [])) by done.
  repeat match goal with H : negb _ = true |- _ => apply negb_true_iff in H; rewrite H end.
  rewrite !(decide_False (P := false = true)) by done.
  repeat match goal with H : bool_decide _ = true |- _ => apply bool_decide_eq_true in H; rewrite H; cbn [mbind result_bind] end.
  destruct (two_way_split (amount m) w NANO) as [rest E]; [exact Hm|done|lia|].
  rewrite shares_Ok by done. cbn [mbind result_bind]. rewrite E. done.
Qed.

(** The weights of the three bands, by the age of the debt. *)
Definition coldWeights (days : Z) : Z * Z * Z :=
  if days <=? 30 then (300000000, 400000000, 500000000)
  else if days <=? 60 then (225000000, 300000000, 375000000)
  else if days <=? 90 then (150000000, 200000000, 250000000)
  else (75000000, 100000000, 125000000).

Lemma coldWeights_clean days :
  let f := bandFractions DEFAULT_PROPENSITY (overdueHaircut days) in
  clean_fraction (fr_pessimistic f) (coldWeights days).1.1 = true /\
  clean_fraction (fr_expected f) (coldWeights days).1.2 = true /\
  clean_fraction (fr_optimistic f) (coldWeights days).2 = true.
Proof.
  unfold overdueHaircut, coldWeights, OVERDUE_HAIRCUTS, List.find, covers. cbn [from_option fst snd].
  destruct (days <=? 30); [vm_compute; done|]. destruct (days <=? 60); [vm_compute; done|].
  destruct (days <=? 90); vm_compute; done.
Qed.

Definition coldBands (t : Z) (r : ParsedReceivable) : Z * Z * Z :=
  let w := coldWeights (daysOverdue (pr_dueTime r) t) in
  let b := amount (pr_balance r) in
  (halfUp b w.1.1 NANO, halfUp b w.1.2 NANO, halfUp b w.2 NANO).

Lemma bandsOf_cold t r : parsed_ok r -> bandsOf t [] r = Ok (coldBands t r).
Proof.
  intros [_ Hm]. unfold bandsOf. cbn [mapGet fmap option_fmap option_map from_option id].
  destruct (coldWeights_clean (daysOverdue (pr_dueTime r) t)) as (H1 & H2 & H3).
  rewrite (applyFraction_clean _ _ _ H1 Hm), (applyFraction_clean _ _ _ H2 Hm), (applyFraction_clean _ _ _ H3 Hm). done.
Qed.

Lemma halfUp_mono b w w' : 0 <= b -> 0 <= w <= w' -> halfUp b w NANO <= halfUp b w' NANO.
Proof. intros Hb Hw. unfold halfUp. apply Z.div_le_mono; [unfold NANO; lia|]. nia. Qed.

Lemma halfUp_range b w : 0 <= b -> 0 <= w <= NANO -> 0 <= halfUp b w NANO <= b.
Proof.
  intros Hb Hw. unfold halfUp, NANO in *. split; [apply Z.div_pos; nia|].
  apply Z.lt_succ_r, Z.div_lt_upper_bound; nia.
Qed.

Lemma coldBands_ordered t r : parsed_ok r ->
  0 <= (coldBands t r).1.1 /\ (coldBands t r).1.1 <= (coldBands t r).1.2 /\ (coldBands t r).1.2 <= (coldBands t r).2 /\
  (coldBands t r).2 <= amount (pr_balance r).
Proof.
  intros [_ Hb]. unfold coldBands. cbn [fst snd].
  assert (0 <= (coldWeights (daysOverdue (pr_dueTime r) t)).1.1 <= (coldWeights (daysOverdue (pr_dueTime r) t)).1.2 /\
    (coldWeights (daysOverdue (pr_dueTime r) t)).1.2 <= (coldWeights (daysOverdue (pr_dueTime r) t)).2 <= NANO) as [H1 H2].
  { unfold coldWeights, NANO. repeat case_match; cbn; lia. }
  pose proof (halfUp_range (amount (pr_balance r)) (coldWeights (daysOverdue (pr_dueTime r) t)).1.1 Hb ltac:(lia)).
  pose proof (halfUp_range (amount (pr_balance r)) (coldWeights (daysOverdue (pr_dueTime r) t)).2 Hb ltac:(lia)).
  repeat split; try lia; apply halfUp_mono; lia.
Qed.

Lemma sum_bands_cold t l : Forall parsed_ok l ->
  0 <= bd_pessimistic (sum_bands t [] l) <= bd_expected (sum_bands t [] l) /\
  bd_expected (sum_bands t [] l) <= bd_optimistic (sum_bands t [] l) <= minors l.
Proof.
  unfold sum_bands, minors. cbn [bd_pessimistic bd_expected bd_optimistic]. induction 1 as [|r l Hr _ IH]; [done|].
  assert (bands t [] r = coldBands t r) as E by (unfold bands; by rewrite bandsOf_cold).
  rewrite !fmap_cons, !sumZ_cons, E. pose proof (coldBands_ordered t r Hr). lia.
Qed.

(** Without behaviour facts a projection of valid facts over a representable horizon always
    succeeds, its bands are ordered, none exceeds what is outstanding in its scope, and each
    is the sum over the scope of the balance times the documented fraction, rounded half up. *)
Theorem cold_start_projection Date_parse receivables ps days d h clock :
  parseReceivableFacts Date_parse receivables = Ok ps -> integerValue days = Some d -> 1 <= d ->
  dateOfNumber (nadd (num (clock 0%nat)) (nmul days (num DAY_MS))) = Ok h ->
  exists p, projectCollections Date_parse receivables [] days clock = Ok p /\ cp_evidenceRefs p = ids (in_scope h ps) /\
    Forall (fun v => let scope := of_currency (pv_currency v) (in_scope h ps) in
      pv_pessimisticMinor v = sumZ ((fun r => (coldBands (clock 0%nat) r).1.1) <$> scope) /\
      pv_expectedMinor v = sumZ ((fun r => (coldBands (clock 0%nat) r).1.2) <$> scope) /\
      pv_optimisticMinor v = sumZ ((fun r => (coldBands (clock 0%nat) r).2) <$> scope) /\
      0 <= pv_pessimisticMinor v <= pv_expectedMinor v /\ pv_expectedMinor v <= pv_optimisticMinor v <= minors scope) (cp_currencies p).
Proof.
  intros Hps Hd Hd1 Hh. destruct (parseFrom_Ok _ _ _ _ Hps) as (Hok & _).
  assert (forall c, Forall parsed_ok (of_currency c (in_scope h ps))) as Hsc.
  { intros c. unfold of_currency, in_scope. rewrite Forall_forall in Hok |- *. intros r Hr. apply Hok.
    apply elem_of_filter_bool in Hr as [Hr _]. by apply elem_of_filter_bool in Hr as [Hr _]. }
  destruct (project_total (clock 0%nat) [] h ps (MkProjectionState [] [] [] 0 0)) as [s Hs].
  { unfold in_scope. rewrite Forall_forall in Hok |- *. intros r Hr. eexists. apply bandsOf_cold, Hok.
    by apply elem_of_filter_bool in Hr as [Hr _]. }
  eexists. split.
  { unfold projectCollections. rewrite Hd, decide_False, Hps by lia. cbn [mbind result_bind parseBehaviorFacts foldM].
    rewrite Hh. cbn [mbind result_bind]. rewrite Hs. reflexivity. }
  apply project_loop in Hs as [Hk Hb He _ _ _]. cbn [cp_evidenceRefs cp_currencies]. split; [done|].
  apply Forall_fmap, Forall_forall. intros [c acc] Hin. unfold compose, projectionView. cbn [pv_currency pv_pessimisticMinor pv_expectedMinor pv_optimisticMinor fst snd].
  specialize (Hb c). rewrite (mapGet_elem _ c acc) in Hb; [|rewrite Hk; apply distinct_NoDup|done]. cbn [from_option id] in Hb. subst acc.
  pose proof (sum_bands_cold (clock 0%nat) _ (Hsc c)) as Ho. specialize (Hsc c).
  assert (forall {X} (g : Z * Z * Z -> X), (fun r => g (bands (clock 0%nat) [] r)) <$> of_currency c (in_scope h ps) =
    (fun r => g (coldBands (clock 0%nat) r)) <$> of_currency c (in_scope h ps)) as Hext.
  { intros X g. apply Forall_fmap_ext_1. eapply Forall_impl; [exact Hsc|]. intros r Hr. unfold bands. by rewrite bandsOf_cold. }
  split; [|split; [|split; [|exact Ho]]]; unfold sum_bands; cbn [bd_pessimistic bd_expected bd_optimistic]; f_equal.
  - exact (Hext Z (fun x => x.1.1)).
  - exact (Hext Z (fun x => x.1.2)).
  - exact (Hext Z (fun x => x.2)).
Qed.

Lemma cold_start_projection_witness : exists p,
  projectCollections Date_parse_iso sample_portfolio [] (num 30) (fixed_clock 1756684800000) = Ok p /\
  cp_horizonEnd p = "2025-10-01T00:00:00.000Z" /\ length (cp_evidenceRefs p) = 3%nat /\
  (fun v => (pv_currency v, pv_pessimisticMinor v, pv_expectedMinor v, pv_optimisticMinor v)) <$> cp_currencies p =
    [(KES, 121, 160, 201); (USD, 21, 28, 35)] /\
  cp_assumptions p = [Scope "2025-10-01T00:00:00.000Z" "2025-09-01T00:00:00.000Z" 30; Haircuts; Bands; DefaultPropensity 1; ZeroSkipped 1].
Proof.
  destruct (cold_start_projection Date_parse_iso sample_portfolio
    (match parseReceivableFacts Date_parse_iso sample_portfolio with Ok ps => ps | Err _ => [] end)
    (num 30) 30 1759276800000 (fixed_clock 1756684800000)) as (p & Hp & _); try (vm_compute; reflexivity); [lia|].
  exists p. split; [exact Hp|]. vm_compute in Hp. injection Hp as <-. vm_compute. repeat split.
Defined.
