(* ===== verification/Effectiveness.v ===== *)
(** * Collection effectiveness

    src/domain/projections/effectiveness.ts: the ratios of a reporting window, over billed
    and collected amounts, promise outcomes and disputes.  The ratios are doubles, as
    [Number(a) / Number(b)] computes them; their numerators and denominators are integers. *)

From stdpp Require Import prelude strings list.
From Stdlib Require Import ZArith Lia.
From S2P Require Import Prelude JsNumber JsString JsDate IsoDate Money Fx AgingSnapshot.
Local Open Scope string_scope.
Local Open Scope list_scope.
Local Open Scope Z_scope.
Local Open Scope js_scope.

Record EffectivenessWindow := MkWindow { ew_from : string; ew_to : string }.

Record BilledFact := MkBilled { bl_ref : Uuid; bl_amountMinor : numeric; bl_date : string }.
Record CollectedFact := MkCollected { cl_ref : Uuid; cl_receivableId : Uuid; cl_amountMinor : numeric; cl_date : string }.
Record PromiseOutcomeFact := MkPromiseOutcome { po_ref : Uuid; po_kept : bool; po_date : string }.
Record DisputeRaisedFact := MkDisputeRaised { di_ref : Uuid; di_receivableId : Uuid; di_date : string }.

Record EffectivenessFacts := MkEffectivenessFacts {
  ef_currency : string;
  ef_billed : list BilledFact;
  ef_collected : list CollectedFact;
  ef_promises : list PromiseOutcomeFact;
  ef_disputes : list DisputeRaisedFact;
}.

(** A ratio; [rf_value] is null, with a reason, when it cannot be computed. *)
Record RatioFigure := MkRatio {
  rf_value : option number;
  rf_reason : option string;
  rf_numerator : Z;
  rf_denominator : Z;
  rf_asOf : string;
  rf_evidenceRefs : list Uuid;
}.

Record EffectivenessReport := MkReport {
  er_asOf : string;
  er_window : EffectivenessWindow;
  er_currency : Currency;
  er_collectedVsBilled : RatioFigure;
  er_promiseKept : RatioFigure;
  er_disputeRate : RatioFigure;
}.

(** The refs in order, without repetition. *)
Definition evidenceRefs (numerator denominator : list Uuid) : list Uuid := distinct (numerator ++ denominator).

Section window.
  Context (Date_parse : string -> option Z) (fromMs toMs : Z).
  Context {T : Type} (ref date : T -> string).

(** One round of [windowFacts]: the refs seen so far and the items kept. *)
Definition windowFact (s : list Uuid * list T) (fact : T) : result (list Uuid * list T) :=
  let '(seen, items) := s in
  r ← assertUuidShape (ref fact) "PROJ_EFFECTIVENESS_FACT_INVALID";
  refuse (r ∈ seen) with "PROJ_FACT_REF_DUPLICATE" ;;
  time ← parseInstant Date_parse (DateText (date fact)) "PROJ_FACT_DATE_INVALID";
  Ok (r :: seen, if (time <? fromMs) || (toMs <? time) then items else items ++ [fact]).

(** The items; the refs of the source are [ref] of each. *)
Definition windowFacts (facts : list T) : result (list T) :=
  s ← foldM windowFact ([], []) facts; Ok s.2.
End window.

(** [items.reduce((sum, fact) => sum.add(Money.ofMinor(parse(amount), currency)), zero)] *)
Definition totalOf {T} (amountMinor : T -> numeric) (c : Currency) (items : list T) : result Money :=
  foldM (fun sum fact =>
    minor ← parseMinorAmount (amountMinor fact) "PROJ_AMOUNT_INVALID";
    m ← ofMinor (Big minor) c;
    add sum m) (zero c) items.

Definition ratio (reason : string) (numerator denominator : Z) (asOf : string) (refs : list Uuid) : RatioFigure :=
  if decide (denominator = 0) then MkRatio None (Some reason) numerator denominator asOf refs
  else MkRatio (Some (ndiv (num numerator) (num denominator))) None numerator denominator asOf refs.

Section report.
  Context (Date_parse : string -> option Z).

Definition collectionEffectiveness (facts : EffectivenessFacts) (window : EffectivenessWindow) : result EffectivenessReport :=
  currency ← assertCurrency (ef_currency facts) "PROJ_CURRENCY_INVALID";
  fromMs ← parseInstant Date_parse (DateText (ew_from window)) "PROJ_WINDOW_INVALID";
  toMs ← parseInstant Date_parse (DateText (ew_to window)) "PROJ_WINDOW_INVALID";
  refuse (fromMs > toMs) with "PROJ_WINDOW_INVALID" ;;
  billed ← windowFacts Date_parse fromMs toMs bl_ref bl_date (ef_billed facts);
  collected ← windowFacts Date_parse fromMs toMs cl_ref cl_date (ef_collected facts);
  promises ← windowFacts Date_parse fromMs toMs po_ref po_date (ef_promises facts);
  disputes ← windowFacts Date_parse fromMs toMs di_ref di_date (ef_disputes facts);
  billedTotal ← totalOf bl_amountMinor currency billed;
  collectedTotal ← totalOf cl_amountMinor currency collected;
  let asOf := toISOString toMs in
  let keptCount := Z.of_nat (length (List.filter po_kept promises)) in
  Ok (MkReport asOf window currency
        (ratio "no billed amount in window" (amount collectedTotal) (amount billedTotal) asOf
           (evidenceRefs (cl_ref <$> collected) (bl_ref <$> billed)))
        (ratio "no promise outcomes in window" keptCount (Z.of_nat (length promises)) asOf (evidenceRefs (po_ref <$> promises) []))
        (ratio "no billed invoices in window" (Z.of_nat (length disputes)) (Z.of_nat (length billed)) asOf
           (evidenceRefs (di_ref <$> disputes) (bl_ref <$> billed)))).
End report.

(** ** What a report says *)

Section exact.
  Context (Date_parse : string -> option Z).

(** The instant of a date that parses lies within the window, bounds included. *)
Definition in_window (fromMs toMs : Z) (date : string) : bool :=
  match parseInstant Date_parse (DateText date) "PROJ_FACT_DATE_INVALID" with
  | Ok t => (fromMs <=? t) && (t <=? toMs)
  | Err _ => false
  end.

Lemma windowFacts_Ok {T} (ref date : T -> string) f t facts items : windowFacts Date_parse f t ref date facts = Ok items ->
  items = List.filter (fun x => in_window f t (date x)) facts /\ NoDup (ref <$> facts).
Proof.
  unfold windowFacts. intros H. apply bind_Ok in H as ([seen its] & H & E). injection E as <-. cbn.
  assert (its = List.filter (fun x => in_window f t (date x)) facts /\ seen = reverse (ref <$> facts) /\ NoDup (ref <$> facts)) as (? & _ & ?); [|done].
  revert seen its H. induction facts as [|x l IH] using rev_ind; intros seen its H.
  { injection H as <- <-. split; [done|]. split; [done|constructor]. }
  rewrite foldM_app in H. apply bind_Ok in H as ([seen0 its0] & (-> & -> & Hnd)%IH & H). cbn [foldM windowFact] in H.
  apply bind_Ok in H as (s & H & E). injection E as ->. apply bind_Ok in H as (r & Hr & H). unfold assertUuidShape in Hr.
  apply guard_Ok in Hr as [_ Hr]. injection Hr as <-. apply guard_Ok in H as [Hs H]. apply bind_Ok in H as (time & Ht & H).
  injection H as <- <-. rewrite filter_snoc, fmap_app, reverse_app. split; [|split; [done|]].
  - unfold in_window. rewrite Ht.
    destruct (Z.ltb_spec time f), (Z.ltb_spec t time), (Z.leb_spec f time), (Z.leb_spec time t); cbn; try lia; by rewrite ?app_nil_r.
  - apply NoDup_snoc_2; [|done]. by rewrite elem_of_reverse in Hs.
Qed.

Definition minorOf (v : numeric) : Z := match parseMinorAmount v "PROJ_AMOUNT_INVALID" with Ok z => z | Err _ => 0 end.

Lemma totalOf_Ok {T} (amt : T -> numeric) c items m : totalOf amt c items = Ok m ->
  m = MkMoney (sumZ (minorOf ∘ amt <$> items)) c /\ Forall (fun x => 0 <= minorOf (amt x)) items.
Proof.
  unfold totalOf. revert m. induction items as [|x l IH] using rev_ind; intros m H; [injection H as <-; split; [done|constructor]|].
  rewrite foldM_app in H. apply bind_Ok in H as (m0 & (-> & Hf)%IH & H). cbn [foldM] in H. apply bind_Ok in H as (m1 & H & E).
  injection E as ->. apply bind_Ok in H as (z & Hz & H). pose proof (parseMinorAmount_Ok _ _ _ Hz) as Hz0.
  rewrite ofMinor_Big in H by done. cbn [mbind result_bind] in H. apply add_Ok in H as [_ ->].
  assert (minorOf (amt x) = z) as Em by (unfold minorOf; by rewrite Hz).
  rewrite sumZ_fmap_snoc. cbn. rewrite Em. split; [done|]. apply Forall_snoc_2; [lia|done].
Qed.

(** A figure says what it stands for: its value is missing exactly when there is nothing to
    divide by, and otherwise is the quotient of its numerator and denominator. *)
Definition honest (f : RatioFigure) (reason : string) (n d : Z) (refs : list Uuid) : Prop :=
  rf_numerator f = n /\ rf_denominator f = d /\ NoDup (rf_evidenceRefs f) /\ (forall id, id ∈ rf_evidenceRefs f <-> id ∈ refs) /\
  (d = 0 -> rf_value f = None /\ rf_reason f = Some reason) /\
  (d <> 0 -> rf_value f = Some (ndiv (num n) (num d)) /\ rf_reason f = None).

Lemma ratio_honest reason n d asOf num_refs den_refs :
  honest (ratio reason n d asOf (evidenceRefs num_refs den_refs)) reason n d (num_refs ++ den_refs).
Proof.
  unfold honest, ratio. assert (NoDup (evidenceRefs num_refs den_refs)) as Hn by apply distinct_NoDup.
  assert (forall id, id ∈ evidenceRefs num_refs den_refs <-> id ∈ num_refs ++ den_refs) as He by (intros; apply distinct_elem).
  case_decide; cbn; do 4 (split; [done|]); (split; intros; [|done]) || (split; intros; [done|]); done.
Qed.

(** The three figures of a report, over the facts whose instant lies in the window: money
    collected against money billed, promises kept against promises resolved, disputes against
    invoices billed, each with the ids behind it. *)
Theorem effectiveness_is_honest facts window r : collectionEffectiveness Date_parse facts window = Ok r ->
  exists f t, parseInstant Date_parse (DateText (ew_from window)) "PROJ_WINDOW_INVALID" = Ok f /\
    parseInstant Date_parse (DateText (ew_to window)) "PROJ_WINDOW_INVALID" = Ok t /\ f <= t /\
    let billed := List.filter (fun x => in_window f t (bl_date x)) (ef_billed facts) in
    let collected := List.filter (fun x => in_window f t (cl_date x)) (ef_collected facts) in
    let promises := List.filter (fun x => in_window f t (po_date x)) (ef_promises facts) in
    let disputes := List.filter (fun x => in_window f t (di_date x)) (ef_disputes facts) in
    honest (er_collectedVsBilled r) "no billed amount in window" (sumZ (minorOf ∘ cl_amountMinor <$> collected))
      (sumZ (minorOf ∘ bl_amountMinor <$> billed)) ((cl_ref <$> collected) ++ (bl_ref <$> billed)) /\
    honest (er_promiseKept r) "no promise outcomes in window" (Z.of_nat (length (List.filter po_kept promises)))
      (Z.of_nat (length promises)) ((po_ref <$> promises) ++ []) /\
    honest (er_disputeRate r) "no billed invoices in window" (Z.of_nat (length disputes)) (Z.of_nat (length billed))
      ((di_ref <$> disputes) ++ (bl_ref <$> billed)) /\
    er_asOf r = toISOString t.
Proof.
  unfold collectionEffectiveness. intros H. apply bind_Ok in H as (c & _ & H). apply bind_Ok in H as (f & Hf & H).
  apply bind_Ok in H as (t & Ht & H). apply guard_Ok in H as [Hft H]. apply bind_Ok in H as (bl & [-> _]%windowFacts_Ok & H).
  apply bind_Ok in H as (cl & [-> _]%windowFacts_Ok & H). apply bind_Ok in H as (po & [-> _]%windowFacts_Ok & H).
  apply bind_Ok in H as (di & [-> _]%windowFacts_Ok & H). apply bind_Ok in H as (bt & [-> _]%totalOf_Ok & H).
  apply bind_Ok in H as (ct & [-> _]%totalOf_Ok & H). injection H as <-. exists f, t. do 2 (split; [done|]). split; [lia|].
  cbn [er_collectedVsBilled er_promiseKept er_disputeRate er_asOf amount]. split; [apply ratio_honest|]. split; [apply ratio_honest|].
  split; [apply ratio_honest|done].
Qed.
End exact.

(** ** Sample *)

Definition sample_effectiveness : EffectivenessFacts :=
  MkEffectivenessFacts "KES"
    [MkBilled "0a1b2c3d-0000-4000-8000-000000000001" (Big 400) "2025-09-01T00:00:00Z";
     MkBilled "0a1b2c3d-0000-4000-8000-000000000002" (Big 900) "2025-10-01T00:00:01Z"]
    [MkCollected "0a1b2c3d-0000-4000-8000-00000000000a" "0a1b2c3d-0000-4000-8000-000000000001" (Big 100) "2025-10-01T00:00:00Z"] [] [].

Lemma effectiveness_is_honest_witness : exists r,
  collectionEffectiveness Date_parse_iso sample_effectiveness (MkWindow "2025-09-01T00:00:00Z" "2025-10-01T00:00:00Z") = Ok r /\
  rf_value (er_collectedVsBilled r) = Some (ndiv (num 100) (num 400)) /\
  er_asOf r = "2025-10-01T00:00:00.000Z" /\ rf_reason (er_promiseKept r) = Some "no promise outcomes in window".
Proof.
  eexists. split; [vm_compute; reflexivity|].
  destruct (effectiveness_is_honest Date_parse_iso sample_effectiveness (MkWindow "2025-09-01T00:00:00Z" "2025-10-01T00:00:00Z") _
    ltac:(vm_compute; reflexivity)) as (f & t & _ & _ & _ & _ & _ & _ & H).
  split; [vm_compute; reflexivity|]. split; [|reflexivity]. vm_compute. reflexivity.
Defined.
