(* ===== verification/MemoryClaims.v ===== *)
(** * Financial memory: facts and claims

    src/domain/memory: facts.ts (the fact vocabulary and its gate) and claims.ts (the six
    claim builders).

    A fact is its anchor, its subject, its time and a body with one constructor per type, so
    the checks on type names and enumerations cannot fail; currencies are strings until they
    are checked.  [Date.parse] is the parameter [Date_parse]; the builders run after the
    gate, where it succeeds.  An amount that passed the gate is the integer it holds; a
    median can be a half and is a double.  Maps are lists in insertion order. *)

From stdpp Require Import prelude strings list.
From Stdlib Require Import ZArith Lia SpecFloat.
From S2P Require Import Prelude JsNumber JsString JsDate IsoDate Money JsMap AgingSnapshot.
Local Open Scope string_scope.
Local Open Scope list_scope.
Local Open Scope Z_scope.
Local Open Scope js_scope.

Inductive PromiseOutcome := kept | broken | expired.
#[export] Instance PromiseOutcome_eq_dec : EqDecision PromiseOutcome.
Proof. solve_decision. Defined.

Inductive MessageDirection := inbound | outbound.
#[export] Instance MessageDirection_eq_dec : EqDecision MessageDirection.
Proof. solve_decision. Defined.

Inductive ConsentChangeStatus := granted | revoked.
#[export] Instance ConsentChangeStatus_eq_dec : EqDecision ConsentChangeStatus.
Proof. solve_decision. Defined.

Inductive FactBody :=
| InvoiceIssued (invoiceId : Uuid) (currency : string) (totalMinor : number)
| PaymentReceived (paymentId : Uuid) (invoiceId : option Uuid) (currency : string) (amountMinor : number)
| AllocationApplied (receivableId : Uuid) (currency : string) (amountMinor : number)
| ReceivableOpened (receivableId : Uuid) (currency : string) (amountMinor : number) (dueDate : string)
| ReceivableSettled (receivableId : Uuid)
| PromiseOutcomeSeen (promiseId : Uuid) (outcome : PromiseOutcome)
| MessageExchanged (channel : string) (direction : MessageDirection)
| ConsentChanged (channel : string) (status : ConsentChangeStatus)
| DisputeOpenedFact (disputeId : Uuid) (receivableId : option Uuid)
| DisputeResolvedFact (disputeId : Uuid).

Record MemoryFact := MkMemoryFact {
  mf_eventId : Uuid;
  mf_customerId : Uuid;
  mf_at : string;
  mf_body : FactBody;
}.

(** ** The gate *)

Section gate.
  Context (Date_parse : string -> option Z).

(** [isIsoDate]; a string of the ISO shape is not blank. *)
Definition isIsoTimestamp (value : string) : bool := ISO_PATTERN value && bool_decide (is_Some (Date_parse value)).

Definition assertId (value : Uuid) : result unit :=
  refuse (UUID_PATTERN value = false) with "MEM_FACT_INVALID" ;; Ok tt.

Definition assertOptionalId (value : option Uuid) : result unit :=
  match value with None => Ok tt | Some v => assertId v end.

Definition assertChannel (value : string) : result unit :=
  refuse (trim value = "") with "MEM_FACT_INVALID" ;; Ok tt.

(** [isSafeAmount]: a safe non-negative integer. *)
Definition assertAmount (value : number) : result unit :=
  match safeInteger value with
  | None => Err (DomainError "MEM_FACT_INVALID")
  | Some z => refuse (z < 0) with "MEM_FACT_INVALID" ;; Ok tt
  end.

Definition assertMemCurrency (value : string) : result unit :=
  match currency_of_string value with None => Err (DomainError "MEM_CURRENCY_INVALID") | Some _ => Ok tt end.

Definition assertBody (body : FactBody) : result unit :=
  match body with
  | InvoiceIssued invoiceId currency totalMinor =>
      _ ← assertId invoiceId; _ ← assertMemCurrency currency; assertAmount totalMinor
  | PaymentReceived paymentId invoiceId currency amountMinor =>
      _ ← assertId paymentId; _ ← assertOptionalId invoiceId; _ ← assertMemCurrency currency; assertAmount amountMinor
  | AllocationApplied receivableId currency amountMinor =>
      _ ← assertId receivableId; _ ← assertMemCurrency currency; assertAmount amountMinor
  | ReceivableOpened receivableId currency amountMinor dueDate =>
      _ ← assertId receivableId; _ ← assertMemCurrency currency; _ ← assertAmount amountMinor;
      refuse (isIsoTimestamp dueDate = false) with "MEM_FACT_INVALID" ;; Ok tt
  | ReceivableSettled receivableId => assertId receivableId
  | PromiseOutcomeSeen promiseId _ => assertId promiseId
  | MessageExchanged channel _ => assertChannel channel
  | ConsentChanged channel _ => assertChannel channel
  | DisputeOpenedFact disputeId receivableId => _ ← assertId disputeId; assertOptionalId receivableId
  | DisputeResolvedFact disputeId => assertId disputeId
  end.

Definition assertFact (seen : list Uuid) (fact : MemoryFact) : result unit :=
  _ ← assertId (mf_eventId fact);
  refuse (mf_eventId fact ∈ seen) with "MEM_FACT_DUPLICATE_EVENT_ID" ;;
  _ ← assertId (mf_customerId fact);
  refuse (isIsoTimestamp (mf_at fact) = false) with "MEM_FACT_INVALID" ;;
  assertBody (mf_body fact).

Fixpoint assertFrom (seen : list Uuid) (facts : list MemoryFact) : result unit :=
  match facts with
  | [] => Ok tt
  | fact :: facts => _ ← assertFact seen fact; assertFrom (mf_eventId fact :: seen) facts
  end.

Definition assertMemoryFacts (facts : list MemoryFact) : result unit := assertFrom [] facts.

(** ** Claims *)

Record SizeBand := MkSizeBand {
  sb_currency : string;
  sb_count : Z;
  sb_minMinor : Z;
  sb_p25Minor : Z;
  sb_medianMinor : number;
  sb_p75Minor : Z;
  sb_maxMinor : Z;
}.

Record ChannelUsage := MkUsage { cu_channel : string; cu_inbound : Z; cu_outbound : Z; cu_total : Z }.

(** [None] is the status ['none']. *)
Record ChannelConsent := MkChannelConsent { cc_channel : string; cc_status : option ConsentChangeStatus }.

Inductive MemoryBucket := mb_0_30 | mb_31_60 | mb_61_90 | mb_over_90.

Definition MEMORY_BUCKETS : list MemoryBucket := [mb_0_30; mb_31_60; mb_61_90; mb_over_90].

Record AgingRow := MkAgingRow { ar_bucket : MemoryBucket; ar_count : Z; ar_amountMinor : Z }.

Record ExposureCurrency := MkExposure {
  xc_currency : string;
  xc_openReceivables : Z;
  xc_openMinor : Z;
  xc_aging : list AgingRow;
}.

Inductive ClaimValue :=
| CadenceValue (sampleCount minDaysToPay : Z) (medianDaysToPay : number) (p90DaysToPay : Z)
| SizeBandsValue (bands : list SizeBand)
| ReliabilityValue (kept broken expired total : Z) (rate : number)
| ChannelPreferenceValue (channels : list ChannelUsage) (consent : list ChannelConsent)
| ExposureValue (currencies : list ExposureCurrency)
| DisputeHistoryValue (opened resolved currentlyOpen : Z).

Record Claim := MkClaim { cm_value : ClaimValue; cm_computedFrom : list Uuid; cm_asOf : string }.

(** [MEMORY_CLAIMS] *)
Definition claimName (v : ClaimValue) : string :=
  match v with
  | CadenceValue _ _ _ _ => "payment.cadence"
  | SizeBandsValue _ => "payment.sizeBands"
  | ReliabilityValue _ _ _ _ _ => "promise.reliability"
  | ChannelPreferenceValue _ _ => "channel.preference"
  | ExposureValue _ => "exposure.current"
  | DisputeHistoryValue _ _ _ => "dispute.history"
  end.

(** ** Statistics *)

Definition amountOf (x : number) : Z := default 0 (integerValue x).

(** [[...values].sort((a, b) => a - b)] *)
Definition sortedValues (values : list Z) : list Z := sort_by Z.sub values.

(** The middle, or the double average of the middle pair. *)
Definition medianOf (values : list Z) : number :=
  let sorted := sortedValues values in
  let mid := Nat.div2 (length sorted) in
  if Nat.odd (length sorted) then num (default 0 (sorted !! mid))
  else ndiv (nadd (num (default 0 (sorted !! (mid - 1)%nat))) (num (default 0 (sorted !! mid)))) (num 2).

(** [Math.ceil] of a finite double. *)
Definition Math_ceil (x : number) : Z :=
  match x with
  | S754_finite s m e => if 0 <=? e then cond_Zopp s (Zpos m) * 2 ^ e else - (- cond_Zopp s (Zpos m) / 2 ^ (- e))
  | _ => 0
  end.

Definition nearestRankPercentile (values : list Z) (p : number) : Z :=
  let sorted := sortedValues values in
  let n := Z.of_nat (length sorted) in
  let rank := Z.min (Z.max (Math_ceil (nmul p (num n))) 1) n in
  default 0 (sorted !! Z.to_nat (rank - 1)).

Definition minOf (values : list Z) : Z := foldl Z.min MAX_SAFE_INTEGER values.
Definition maxOf (values : list Z) : Z := foldl Z.max 0 values.

Definition sumMinor (values : list Z) : result Z :=
  refuse (sumZ values > MAX_SAFE_INTEGER) with "MEM_AMOUNT_OVERFLOW" ;; Ok (sumZ values).

(** [[...new Set(ids)]] *)
Definition orderedUnique (ids : list Uuid) : list Uuid := distinct ids.

Definition atKey (fact : MemoryFact) : Z := default 0 (Date_parse (mf_at fact)).

Definition memWholeDaysBetween (fromIso toIso : string) : Z :=
  Z.max 0 ((default 0 (Date_parse toIso) - default 0 (Date_parse fromIso)) / DAY_MS).

Definition byKey {V} (entries : list (string * V)) : list (string * V) := sort_by (fun a b => string_cmp a.1 b.1) entries.

(** ** Builders *)

Record InvoiceIssue := MkIssue { ii_issuedIso : string; ii_eventId : Uuid; ii_at : Z }.

Definition noteInvoice (invoices : list (Uuid * InvoiceIssue)) (fact : MemoryFact) : list (Uuid * InvoiceIssue) :=
  match mf_body fact with
  | InvoiceIssued invoiceId _ _ =>
      match mapGet invoices invoiceId with
      | Some existing =>
          if atKey fact <? ii_at existing then mapSet invoices invoiceId (MkIssue (mf_at fact) (mf_eventId fact) (atKey fact)) else invoices
      | None => mapSet invoices invoiceId (MkIssue (mf_at fact) (mf_eventId fact) (atKey fact))
      end
  | _ => invoices
  end.

Definition cadenceSample (invoices : list (Uuid * InvoiceIssue)) (fact : MemoryFact) : option (Z * list Uuid) :=
  match mf_body fact with
  | PaymentReceived _ (Some invoiceId) _ _ =>
      invoice ← mapGet invoices invoiceId;
      Some (memWholeDaysBetween (ii_issuedIso invoice) (mf_at fact), [mf_eventId fact; ii_eventId invoice])
  | _ => None
  end.

Definition buildCadenceClaim (facts : list MemoryFact) (asOf : string) : option Claim :=
  let invoices := foldl noteInvoice [] facts in
  let samples := omap (cadenceSample invoices) facts in
  if decide (samples = []) then None else
  let days := samples.*1 in
  Some (MkClaim (CadenceValue (Z.of_nat (length days)) (minOf days) (medianOf days) (nearestRankPercentile days (ndiv (num 9) (num 10))))
          (orderedUnique (mjoin samples.*2)) asOf).

Definition notePayment (byCurrency : list (string * list (Z * Uuid))) (fact : MemoryFact) : list (string * list (Z * Uuid)) :=
  match mf_body fact with
  | PaymentReceived _ _ currency amountMinor =>
      mapSet byCurrency currency (default [] (mapGet byCurrency currency) ++ [(amountOf amountMinor, mf_eventId fact)])
  | _ => byCurrency
  end.

Definition sizeBand (e : string * list (Z * Uuid)) : SizeBand :=
  let amounts := e.2.*1 in
  MkSizeBand e.1 (Z.of_nat (length amounts)) (minOf amounts) (nearestRankPercentile amounts (ndiv (num 1) (num 4))) (medianOf amounts)
    (nearestRankPercentile amounts (ndiv (num 3) (num 4))) (maxOf amounts).

Definition buildSizeBandsClaim (facts : list MemoryFact) (asOf : string) : option Claim :=
  let byCurrency := foldl notePayment [] facts in
  if decide (byCurrency = []) then None else
  Some (MkClaim (SizeBandsValue (sizeBand <$> byKey byCurrency)) (orderedUnique (mjoin ((fun e => e.2.*2) <$> byCurrency))) asOf).

Definition outcomeOf (fact : MemoryFact) : option PromiseOutcome :=
  match mf_body fact with PromiseOutcomeSeen _ o => Some o | _ => None end.

Definition countOutcome (o : PromiseOutcome) (facts : list MemoryFact) : Z :=
  Z.of_nat (length (List.filter (fun f => bool_decide (outcomeOf f = Some o)) facts)).

Definition buildReliabilityClaim (facts : list MemoryFact) (asOf : string) : option Claim :=
  let k := countOutcome kept facts in
  let b := countOutcome broken facts in
  let e := countOutcome expired facts in
  let total := k + b + e in
  if decide (total = 0) then None else
  Some (MkClaim (ReliabilityValue k b e total (ndiv (num k) (num total)))
          (orderedUnique (mf_eventId <$> List.filter (fun f => bool_decide (is_Some (outcomeOf f))) facts)) asOf).

Record UsageEntry := MkUsageEntry { ue_inbound : Z; ue_outbound : Z; ue_eventIds : list Uuid }.

Definition noteUsage (usage : list (string * UsageEntry)) (fact : MemoryFact) : list (string * UsageEntry) :=
  match mf_body fact with
  | MessageExchanged channel direction =>
      let entry := default (MkUsageEntry 0 0 []) (mapGet usage channel) in
      mapSet usage channel
        (match direction with
         | inbound => MkUsageEntry (ue_inbound entry + 1) (ue_outbound entry) (ue_eventIds entry ++ [mf_eventId fact])
         | outbound => MkUsageEntry (ue_inbound entry) (ue_outbound entry + 1) (ue_eventIds entry ++ [mf_eventId fact])
         end)
  | _ => usage
  end.

Record ConsentEntry := MkConsentEntry { ce_status : ConsentChangeStatus; ce_eventId : Uuid; ce_at : Z }.

Definition noteConsent (consent : list (string * ConsentEntry)) (fact : MemoryFact) : list (string * ConsentEntry) :=
  match mf_body fact with
  | ConsentChanged channel status =>
      match mapGet consent channel with
      | Some existing =>
          if ce_at existing <=? atKey fact then mapSet consent channel (MkConsentEntry status (mf_eventId fact) (atKey fact)) else consent
      | None => mapSet consent channel (MkConsentEntry status (mf_eventId fact) (atKey fact))
      end
  | _ => consent
  end.

Definition buildChannelClaim (facts : list MemoryFact) (asOf : string) : option Claim :=
  let usage := foldl noteUsage [] facts in
  let consent := foldl noteConsent [] facts in
  if decide (usage = [] /\ consent = []) then None else
  let channels := (fun e => MkUsage e.1 (ue_inbound e.2) (ue_outbound e.2) (ue_inbound e.2 + ue_outbound e.2)) <$> byKey usage in
  let allChannels := sort_by string_cmp (distinct (usage.*1 ++ consent.*1)) in
  let rows := (fun c => MkChannelConsent c (ce_status <$> mapGet consent c)) <$> allChannels in
  let deciding := omap (fun c => ce_eventId <$> mapGet consent c) allChannels in
  Some (MkClaim (ChannelPreferenceValue channels rows) (orderedUnique (mjoin ((fun e => ue_eventIds e.2) <$> usage) ++ deciding)) asOf).

Record OpenReceivable := MkOpen {
  or_currency : string;
  or_amountMinor : Z;
  or_dueDate : string;
  or_eventId : Uuid;
  or_settled : option (Uuid * Z);
  or_allocations : list (Z * Uuid);
}.

(** The receivables known so far and the allocations attributed to one of them. *)
Definition noteReceivable (s : list (Uuid * OpenReceivable) * list Uuid) (fact : MemoryFact) : list (Uuid * OpenReceivable) * list Uuid :=
  let '(receivables, evidence) := s in
  match mf_body fact with
  | ReceivableOpened id currency amountMinor dueDate =>
      match mapGet receivables id with
      | Some _ => s
      | None => (mapSet receivables id (MkOpen currency (amountOf amountMinor) dueDate (mf_eventId fact) None []), evidence)
      end
  | AllocationApplied id _ amountMinor =>
      match mapGet receivables id with
      | Some r =>
          (mapSet receivables id (MkOpen (or_currency r) (or_amountMinor r) (or_dueDate r) (or_eventId r) (or_settled r)
             (or_allocations r ++ [(amountOf amountMinor, mf_eventId fact)])), evidence ++ [mf_eventId fact])
      | None => s
      end
  | ReceivableSettled id =>
      match mapGet receivables id with
      | Some r =>
          if from_option (fun x => atKey fact <? x.2) true (or_settled r) then
            (mapSet receivables id (MkOpen (or_currency r) (or_amountMinor r) (or_dueDate r) (or_eventId r)
               (Some (mf_eventId fact, atKey fact)) (or_allocations r)), evidence)
          else s
      | None => s
      end
  | _ => s
  end.

Definition memoryBucketFor (daysPastDue : Z) : MemoryBucket :=
  if daysPastDue <=? 30 then mb_0_30 else if daysPastDue <=? 60 then mb_31_60 else if daysPastDue <=? 90 then mb_61_90 else mb_over_90.

#[global] Instance MemoryBucket_eq_dec : EqDecision MemoryBucket.
Proof. solve_decision. Defined.

Definition balanceOf (r : OpenReceivable) : Z :=
  let raw := or_amountMinor r - sumZ (or_allocations r).*1 in
  if bool_decide (or_settled r <> None) || (raw <=? 0) then 0 else raw.

(** The open balances of a currency with their buckets, in order. *)
Definition noteBalance (asOf : string) (byCurrency : list (string * list (MemoryBucket * Z))) (r : OpenReceivable) : list (string * list (MemoryBucket * Z)) :=
  let entries := default [] (mapGet byCurrency (or_currency r)) in
  let balance := balanceOf r in
  mapSet byCurrency (or_currency r)
    (if 0 <? balance then entries ++ [(memoryBucketFor (memWholeDaysBetween (or_dueDate r) asOf), balance)] else entries).

Definition exposureCurrency (e : string * list (MemoryBucket * Z)) : result ExposureCurrency :=
  openMinor ← sumMinor e.2.*2;
  aging ← traverse (fun b =>
    let mine := List.filter (fun x => bool_decide (x.1 = b)) e.2 in
    amountMinor ← sumMinor mine.*2;
    Ok (MkAgingRow b (Z.of_nat (length mine)) amountMinor)) MEMORY_BUCKETS;
  Ok (MkExposure e.1 (Z.of_nat (length e.2)) openMinor aging).

Definition buildExposureClaim (facts : list MemoryFact) (asOf : string) : result (option Claim) :=
  let '(receivables, evidence) := foldl noteReceivable ([], []) facts in
  if decide (receivables = []) then Ok None else
  let byCurrency := foldl (noteBalance asOf) [] receivables.*2 in
  currencies ← traverse exposureCurrency (byKey byCurrency);
  Ok (Some (MkClaim (ExposureValue currencies)
        (orderedUnique ((or_eventId <$> receivables.*2) ++ evidence ++ omap (fun r => fst <$> or_settled r) receivables.*2)) asOf)).

Definition openedDispute (fact : MemoryFact) : option Uuid :=
  match mf_body fact with DisputeOpenedFact id _ => Some id | _ => None end.
Definition resolvedDispute (fact : MemoryFact) : option Uuid :=
  match mf_body fact with DisputeResolvedFact id => Some id | _ => None end.

(** The first fact of each dispute, by its id. *)
Definition noteFirst (disputeOf : MemoryFact -> option Uuid) (m : list (Uuid * Uuid)) (fact : MemoryFact) : list (Uuid * Uuid) :=
  match disputeOf fact with
  | Some id => match mapGet m id with None => mapSet m id (mf_eventId fact) | Some _ => m end
  | None => m
  end.

Definition buildDisputeClaim (facts : list MemoryFact) (asOf : string) : option Claim :=
  let opened := foldl (noteFirst openedDispute) [] facts in
  let resolved := foldl (noteFirst resolvedDispute) [] facts in
  if decide (opened = [] /\ resolved = []) then None else
  let currentlyOpen := List.filter (fun e => bool_decide (mapGet resolved e.1 = None)) opened in
  Some (MkClaim (DisputeHistoryValue (Z.of_nat (length opened)) (Z.of_nat (length resolved)) (Z.of_nat (length currentlyOpen)))
          (orderedUnique (opened.*2 ++ resolved.*2)) asOf).

(** [CLAIM_BUILDERS], in order. *)
Definition CLAIM_BUILDERS : list (list MemoryFact -> string -> result (option Claim)) :=
  [(fun f a => Ok (buildCadenceClaim f a)); (fun f a => Ok (buildSizeBandsClaim f a)); (fun f a => Ok (buildReliabilityClaim f a));
   (fun f a => Ok (buildChannelClaim f a)); buildExposureClaim; (fun f a => Ok (buildDisputeClaim f a))].
End gate.
