(* ===== verification/MemorySnapshot.v ===== *)
(** * Financial memory: the snapshot

    src/domain/memory/snapshot.ts, and what its claims promise: a snapshot depends only on
    the facts up to its instant, groups them by customer, and every claim in it names facts
    of that customer as its evidence.  Then the claims on disputes, consent and exposure
    against their definitions. *)

From stdpp Require Import prelude strings list sorting.
From Stdlib Require Import ZArith Lia.
From S2P Require Import Prelude JsNumber JsString JsDate IsoDate Money Events JsMap AgingSnapshot MemoryClaims.
Local Open Scope string_scope.
Local Open Scope list_scope.
Local Open Scope Z_scope.
Local Open Scope js_scope.

Record CustomerMemory := MkCustomerMemory {
  cy_customerId : Uuid;
  cy_asOf : string;
  cy_claims : list Claim;
  cy_factCount : Z;
}.

Record MemorySnapshot := MkMemorySnapshot { ms_asOf : string; ms_customers : list CustomerMemory }.

Definition claimOf (memory : CustomerMemory) (name : string) : option Claim :=
  List.find (fun c => bool_decide (claimName (cm_value c) = name)) (cy_claims memory).

Section snapshot.
  Context (Date_parse : string -> option Z).

(** One round of the grouping loop. *)
Definition noteCustomer (asOfMs : Z) (byCustomer : list (Uuid * list MemoryFact)) (fact : MemoryFact) : list (Uuid * list MemoryFact) :=
  if decide (atKey Date_parse fact > asOfMs) then byCustomer
  else mapSet byCustomer (mf_customerId fact) (default [] (mapGet byCustomer (mf_customerId fact)) ++ [fact]).

Definition customerMemory (asOf : string) (e : Uuid * list MemoryFact) : result CustomerMemory :=
  claims ← traverse (fun build => build e.2 asOf) (CLAIM_BUILDERS Date_parse);
  Ok (MkCustomerMemory e.1 asOf (omap id claims) (Z.of_nat (length e.2))).

Definition memorySnapshot (facts : list MemoryFact) (asOf : string) : result MemorySnapshot :=
  refuse (isIsoTimestamp Date_parse asOf = false) with "MEM_ASOF_INVALID" ;;
  _ ← assertMemoryFacts Date_parse facts;
  let asOfMs := default 0 (Date_parse asOf) in
  let byCustomer := foldl (noteCustomer asOfMs) [] facts in
  customers ← traverse (customerMemory asOf) (byKey byCustomer);
  Ok (MkMemorySnapshot asOf customers).

(** [memory.snapshotTaken] *)
Record SnapshotTaken := MkSnapshotTaken {
  sk_customerId : Uuid;
  sk_asOf : string;
  sk_claimCount : Z;
  sk_claims : list string;
  sk_factCount : Z;
}.

Definition snapshotTakenEvent (memory : CustomerMemory) (clock : Clock) : Events.Envelope string SnapshotTaken :=
  Events.domainEvent "memory.snapshotTaken" (cy_customerId memory)
    (MkSnapshotTaken (cy_customerId memory) (cy_asOf memory) (Z.of_nat (length (cy_claims memory)))
       ((fun c => claimName (cm_value c)) <$> cy_claims memory) (cy_factCount memory)) clock.

(** ** The gate *)

Definition fact_ok (f : MemoryFact) : Prop :=
  UUID_PATTERN (mf_eventId f) = true /\ UUID_PATTERN (mf_customerId f) = true /\
  isIsoTimestamp Date_parse (mf_at f) = true /\ assertBody Date_parse (mf_body f) = Ok tt.

Lemma assertId_Ok u : assertId u = Ok tt <-> UUID_PATTERN u = true.
Proof. unfold assertId. case_decide as H; [rewrite H; done|]. apply not_false_iff_true in H. done. Qed.

Lemma assertFact_Ok seen f : assertFact Date_parse seen f = Ok tt <-> fact_ok f /\ mf_eventId f ∉ seen.
Proof.
  unfold assertFact, fact_ok. rewrite <- !assertId_Ok. split.
  - intros H. apply bind_Ok in H as ([] & H1 & H). apply guard_Ok in H as [Hs H]. apply bind_Ok in H as ([] & H2 & H).
    apply guard_Ok in H as [H3 H]. apply not_false_iff_true in H3. done.
  - intros [(-> & -> & H3 & ->) Hs]. cbn [mbind result_bind]. rewrite (decide_False (P := _ ∈ seen)) by done. by rewrite H3.
Qed.

Lemma assertFrom_Ok facts : forall seen, assertFrom Date_parse seen facts = Ok tt <->
  Forall fact_ok facts /\ NoDup (mf_eventId <$> facts) /\ (forall id, id ∈ seen -> id ∉ mf_eventId <$> facts).
Proof.
  induction facts as [|f facts IH]; intros seen; cbn [assertFrom].
  - split; [intros _; split; [constructor|split; [constructor|set_solver]]|done].
  - rewrite fmap_cons, Forall_cons, NoDup_cons. split.
    + intros H. apply bind_Ok in H as ([] & [Hf Hs]%assertFact_Ok & (Hall & Hnd & Hseen)%IH).
      split; [done|]. split; [split; [apply Hseen; set_solver|done]|]. intros id Hid. apply not_elem_of_cons.
      split; [by intros ->|apply Hseen; set_solver].
    + intros ([Hf Hall] & [Hn Hnd] & Hseen).
      assert (assertFact Date_parse seen f = Ok tt) as -> by (apply assertFact_Ok; split; [done|]; intros Hin; specialize (Hseen _ Hin); set_solver).
      cbn [mbind result_bind]. apply IH. split; [done|]. split; [done|]. intros id [->|Hid]%elem_of_cons; [done|].
      specialize (Hseen id Hid). set_solver.
Qed.

Lemma assertMemoryFacts_Ok facts : assertMemoryFacts Date_parse facts = Ok tt <-> Forall fact_ok facts /\ NoDup (mf_eventId <$> facts).
Proof. unfold assertMemoryFacts. rewrite assertFrom_Ok. split; [by intros (? & ? & _)|]. intros []. split; [done|]. split; [done|set_solver]. Qed.

(** The facts a snapshot sees. *)
Definition visible (asOf : string) (facts : list MemoryFact) : list MemoryFact :=
  List.filter (fun f => atKey Date_parse f <=? default 0 (Date_parse asOf)) facts.

Lemma notes_group asOf facts : foldl (noteCustomer (default 0 (Date_parse asOf))) [] facts = foldl (group mf_customerId) [] (visible asOf facts).
Proof.
  unfold visible. generalize (@nil (Uuid * list MemoryFact)). induction facts as [|f facts IH]; intros m; [done|]. cbn.
  unfold noteCustomer at 2. destruct (Z.leb_spec (atKey Date_parse f) (default 0 (Date_parse asOf))).
  - rewrite decide_False by lia. cbn. by rewrite IH.
  - rewrite decide_True by lia. by rewrite IH.
Qed.

Lemma visible_idemp asOf facts : visible asOf (visible asOf facts) = visible asOf facts.
Proof.
  unfold visible. induction facts as [|f facts IH]; [done|]. cbn. destruct (atKey Date_parse f <=? _) eqn:E; cbn; [by rewrite E, IH|done].
Qed.

Lemma gate_sublist facts facts' : facts' `sublist_of` facts -> assertMemoryFacts Date_parse facts = Ok tt -> assertMemoryFacts Date_parse facts' = Ok tt.
Proof.
  intros Hs. rewrite !assertMemoryFacts_Ok. intros [Hf Hn]. split.
  - rewrite Forall_forall in *. intros x Hx. apply Hf. by eapply elem_of_sublist.
  - eapply sublist_NoDup; [exact Hn|]. by apply fmap_sublist.
Qed.

(** Point in time: facts after the instant leave no trace in a snapshot. *)
Lemma snapshot_ignores_later_facts facts asOf : assertMemoryFacts Date_parse facts = Ok tt ->
  memorySnapshot facts asOf = memorySnapshot (visible asOf facts) asOf.
Proof.
  intros Hg. unfold memorySnapshot. case_decide; [done|]. rewrite Hg, (gate_sublist facts (visible asOf facts)); [|apply filter_sublist|done].
  cbn [mbind result_bind]. by rewrite !notes_group, visible_idemp.
Qed.

(** ** Evidence *)

(** A claim's anchors: at least one, without repetition, each of one of the facts. *)
Definition traceable (facts : list MemoryFact) (asOf : string) (c : Claim) : Prop :=
  cm_asOf c = asOf /\ cm_computedFrom c <> [] /\ NoDup (cm_computedFrom c) /\
  forall id, id ∈ cm_computedFrom c -> id ∈ mf_eventId <$> facts.

Lemma traceable_intro facts asOf v (evidence : list Uuid) : evidence <> [] -> (forall id, id ∈ evidence -> id ∈ mf_eventId <$> facts) ->
  traceable facts asOf (MkClaim v (orderedUnique evidence) asOf).
Proof.
  intros Hne Hin. unfold traceable, orderedUnique. cbn [cm_asOf cm_computedFrom]. split; [done|]. split; [|split; [apply distinct_NoDup|]].
  - destruct evidence as [|x l]; [done|]. intros E. assert (x ∈ distinct (x :: l)) as Hx by (apply distinct_elem; left).
    rewrite E in Hx. by apply elem_of_nil in Hx.
  - intros id Hid. apply Hin. exact (proj1 (distinct_elem _ _) Hid).
Qed.

Lemma fact_anchor f (facts : list MemoryFact) : f ∈ facts -> mf_eventId f ∈ mf_eventId <$> facts.
Proof. intros H. apply list_elem_of_fmap. by exists f. Qed.

(** The entries of a map built by a loop satisfy what every write establishes. *)
Lemma mapSet_Forall {K V} `{EqDecision K} (P : K -> V -> Prop) (m : list (K * V)) k v :
  Forall (fun e => P e.1 e.2) m -> P k v -> Forall (fun e => P e.1 e.2) (mapSet m k v).
Proof.
  intros Hm Hv. induction Hm as [|[x w] m Hx Hm IH]; cbn; [by constructor|]. case_decide; subst; by constructor.
Qed.

Lemma mapGet_Forall {K V} `{EqDecision K} (P : K -> V -> Prop) (m : list (K * V)) k v :
  Forall (fun e => P e.1 e.2) m -> mapGet m k = Some v -> P k v.
Proof. induction 1 as [|[x w] m Hx Hm IH]; cbn; [done|]. case_decide; [intros [= <-]; by subst|done]. Qed.

Lemma foldl_invariant {A B} (P : B -> Prop) (f : B -> A -> B) l b : P b -> (forall b x, x ∈ l -> P b -> P (f b x)) -> P (foldl f b l).
Proof.
  revert b. induction l as [|x l IH]; intros b Hb Hf; [done|]. cbn. apply IH; [apply Hf; [left|done]|]. intros b' y Hy. apply Hf. by right.
Qed.

Lemma mapSet_nonempty {K V} `{EqDecision K} (m : list (K * V)) k v : mapSet m k v <> [].
Proof. destruct m as [|[x w] m]; cbn; [done|]. by case_decide. Qed.

Section claims.
  Context (facts : list MemoryFact) (asOf : string).
  Notation known id := (id ∈ mf_eventId <$> facts).

Lemma cadence_traceable c : buildCadenceClaim Date_parse facts asOf = Some c -> traceable facts asOf c.
Proof.
  unfold buildCadenceClaim. case_decide as Hs; [done|]. intros [= <-].
  assert (Forall (fun e => known (ii_eventId e.2)) (foldl (noteInvoice Date_parse) [] facts)) as Hinv.
  { apply (foldl_invariant (fun m => Forall (fun e => known (ii_eventId e.2)) m)); [constructor|]. intros m f Hf Hm. unfold noteInvoice.
    destruct (mf_body f); try done. pose proof (fact_anchor f facts Hf).
    destruct (mapGet m invoiceId); [case_match; [|done]|]; by apply (mapSet_Forall (fun _ v => known (ii_eventId v))). }
  assert (forall s, s ∈ omap (cadenceSample Date_parse (foldl (noteInvoice Date_parse) [] facts)) facts ->
    s.2 <> [] /\ forall id, id ∈ s.2 -> known id) as Hsam.
  { intros s (f & Hf & Es)%list_elem_of_omap. unfold cadenceSample in Es. destruct (mf_body f); try done. destruct invoiceId as [i|]; [|done].
    destruct (mapGet _ i) as [inv|] eqn:Ei; [|done]. cbn in Es. injection Es as <-. split; [done|]. cbn.
    apply (mapGet_Forall (fun _ v => known (ii_eventId v))) in Ei; [|done]. intros id.
    rewrite !elem_of_cons, elem_of_nil. intros [->|[->|[]]]; [by apply fact_anchor|done]. }
  revert Hs Hsam. generalize (omap (cadenceSample Date_parse (foldl (noteInvoice Date_parse) [] facts)) facts). intros samples Hs Hsam.
  apply traceable_intro.
  - destruct samples as [|s l]; [done|]. destruct (Hsam s) as [Hne _]; [left|]. cbn. by destruct s.2.
  - intros id (l & Hid & Hl)%list_elem_of_join. apply list_elem_of_fmap in Hl as (s & -> & Hs'). by apply (Hsam s).
Qed.

Lemma sizeBands_traceable c : buildSizeBandsClaim facts asOf = Some c -> traceable facts asOf c.
Proof.
  unfold buildSizeBandsClaim. case_decide as Hs; [done|]. intros [= <-].
  assert (Forall (fun e => e.2 <> [] /\ forall id, id ∈ e.2.*2 -> known id) (foldl notePayment [] facts)) as H.
  { apply (foldl_invariant (fun m => Forall (fun e => e.2 <> [] /\ forall id, id ∈ e.2.*2 -> known id) m)); [constructor|].
    intros m f Hf Hm. unfold notePayment. destruct (mf_body f); try done.
    apply (mapSet_Forall (fun _ v => v <> [] /\ forall id, id ∈ v.*2 -> known id)); [done|]. split.
    { by destruct (default [] (mapGet m currency)). }
    intros id. rewrite fmap_app, elem_of_app. cbn. rewrite list_elem_of_singleton. intros [Hid| ->]; [|by apply fact_anchor].
    destruct (mapGet m currency) as [v|] eqn:E; [|by apply elem_of_nil in Hid].
    apply (mapGet_Forall (fun _ v => v <> [] /\ forall id, id ∈ v.*2 -> known id)) in E; [|done]. by apply E. }
  apply traceable_intro.
  - destruct (foldl notePayment [] facts) as [|e l]; [done|]. apply Forall_cons in H as [[He _] _]. cbn. by destruct e.2.
  - intros id (l & Hid & Hl)%list_elem_of_join. apply list_elem_of_fmap in Hl as (e & -> & He). rewrite Forall_forall in H. by apply (H e).
Qed.

Lemma reliability_traceable c : buildReliabilityClaim facts asOf = Some c -> traceable facts asOf c.
Proof.
  unfold buildReliabilityClaim. case_decide as Ht; [done|]. intros [= <-]. apply traceable_intro.
  - intros E%fmap_nil_inv. rewrite filter_nil_iff in E. apply Ht. unfold countOutcome.
    assert (forall o, List.filter (fun f => bool_decide (outcomeOf f = Some o)) facts = []) as Hz.
    { intros o. apply filter_nil_iff. intros f Hf. specialize (E f Hf). apply bool_decide_eq_false in E.
      apply bool_decide_eq_false. intros Ho. apply E. by exists o. }
    by rewrite !Hz.
  - intros id (f & -> & Hf)%list_elem_of_fmap. apply elem_of_filter_bool in Hf as [Hf _]. by apply fact_anchor.
Qed.

Lemma usage_known : Forall (fun e => ue_eventIds e.2 <> [] /\ forall id, id ∈ ue_eventIds e.2 -> known id) (foldl noteUsage [] facts).
Proof.
  apply (foldl_invariant (fun m => Forall (fun e => ue_eventIds e.2 <> [] /\ forall id, id ∈ ue_eventIds e.2 -> known id) m)); [constructor|].
  intros m f Hf Hm. unfold noteUsage. destruct (mf_body f); try done.
  assert (forall id, id ∈ ue_eventIds (default (MkUsageEntry 0 0 []) (mapGet m channel)) ++ [mf_eventId f] -> known id) as Hk.
  { intros id. rewrite elem_of_app, list_elem_of_singleton. intros [Hid| ->]; [|by apply fact_anchor].
    destruct (mapGet m channel) as [v|] eqn:E; [|by apply elem_of_nil in Hid].
    apply (mapGet_Forall (fun _ v => ue_eventIds v <> [] /\ forall id, id ∈ ue_eventIds v -> known id)) in E; [|done]. by apply E. }
  apply (mapSet_Forall (fun _ v => ue_eventIds v <> [] /\ forall id, id ∈ ue_eventIds v -> known id)); [done|].
  destruct direction; cbn [ue_eventIds]; (split; [by destruct (ue_eventIds _)|exact Hk]).
Qed.

Lemma consent_known : Forall (fun e => known (ce_eventId e.2)) (foldl (noteConsent Date_parse) [] facts).
Proof.
  apply (foldl_invariant (fun m => Forall (fun e => known (ce_eventId e.2)) m)); [constructor|]. intros m f Hf Hm. unfold noteConsent.
  destruct (mf_body f); try done. pose proof (fact_anchor f facts Hf).
  destruct (mapGet m channel); [case_match; [|done]|]; by apply (mapSet_Forall (fun _ v => known (ce_eventId v))).
Qed.

Lemma channel_traceable c : buildChannelClaim Date_parse facts asOf = Some c -> traceable facts asOf c.
Proof.
  unfold buildChannelClaim. case_decide as Hs; [done|]. intros [= <-]. pose proof usage_known as Hu. pose proof consent_known as Hc.
  revert Hs Hu Hc. generalize (foldl noteUsage [] facts) (foldl (noteConsent Date_parse) [] facts). intros usage consent Hs Hu Hc.
  apply traceable_intro.
  - destruct usage as [|e usage]; [|apply Forall_cons in Hu as [[He _] _]; cbn; by destruct (ue_eventIds e.2)].
    destruct consent as [|[k v] consent]; [by destruct Hs|]. intros E. apply app_nil in E as [_ E].
    assert (ce_eventId v ∈ @nil Uuid) as Hv; [|by apply elem_of_nil in Hv]. rewrite <- E. apply list_elem_of_omap. exists k.
    split; [|cbn; by rewrite decide_True]. rewrite sort_by_perm. apply distinct_elem. cbn. left.
  - intros id. rewrite elem_of_app. intros [(l & Hid & Hl)%list_elem_of_join|(k & Hk & E)%list_elem_of_omap].
    + apply list_elem_of_fmap in Hl as (e & -> & He). rewrite Forall_forall in Hu. by apply (Hu e).
    + destruct (mapGet consent k) as [v|] eqn:Em; [|done]. cbn in E. injection E as <-.
      by apply (mapGet_Forall (fun _ v => known (ce_eventId v))) in Em.
Qed.

Definition open_known (r : OpenReceivable) : Prop := known (or_eventId r) /\ forall x, or_settled r = Some x -> known x.1.

Lemma receivables_known s : s = foldl (noteReceivable Date_parse) ([], []) facts ->
  Forall (fun e => open_known e.2) s.1 /\ forall id, id ∈ s.2 -> known id.
Proof.
  intros ->. apply (foldl_invariant (fun s => Forall (fun e => open_known e.2) s.1 /\ forall id, id ∈ s.2 -> known id)).
  { split; [constructor|]. intros id H. by apply elem_of_nil in H. }
  intros [m ev] f Hf [Hm He]. pose proof (fact_anchor f facts Hf) as Ha. cbn [fst snd] in *. unfold noteReceivable.
  destruct (mf_body f); try (split; done); destruct (mapGet m receivableId) as [r|] eqn:E; try (split; done);
    try (pose proof (mapGet_Forall (fun _ v => open_known v) _ _ _ Hm E) as [H1 H2]).
  - split; [|cbn; intros id [Hid|Hid]%elem_of_app; [by apply He|]; by apply list_elem_of_singleton in Hid as ->].
    by apply (mapSet_Forall (fun _ v => open_known v)).
  - split; [|done]. apply (mapSet_Forall (fun _ v => open_known v)); [done|]. by split.
  - case_match; (split; [|done]); [|done]. apply (mapSet_Forall (fun _ v => open_known v)); [done|]. split; [done|].
    cbn. by intros x [= <-].
Qed.

Lemma exposure_traceable c : buildExposureClaim Date_parse facts asOf = Ok (Some c) -> traceable facts asOf c.
Proof.
  unfold buildExposureClaim. pose proof (receivables_known _ eq_refl) as [Hr He].
  destruct (foldl (noteReceivable Date_parse) ([], []) facts) as [rs ev]. cbn [fst snd] in *. case_decide as Hs; [done|].
  intros H. apply bind_Ok in H as (cs & _ & H). injection H as <-. apply traceable_intro.
  - by destruct rs.
  - rewrite Forall_forall in Hr. intros id. rewrite !elem_of_app. intros [Hid|[Hid|Hid]]; [|by apply He|].
    + apply list_elem_of_fmap in Hid as (r & -> & Hin). apply list_elem_of_fmap in Hin as (e & -> & Hin). by apply (Hr e).
    + apply list_elem_of_omap in Hid as (r & Hin & E). apply list_elem_of_fmap in Hin as (e & -> & Hin).
      destruct (or_settled e.2) as [x|] eqn:Es; [|done]. cbn in E. injection E as <-. by apply (Hr e).
Qed.

Lemma noteFirst_known g : Forall (fun e => known e.2) (foldl (noteFirst g) [] facts).
Proof.
  apply (foldl_invariant (fun m => Forall (fun e => known e.2) m)); [constructor|]. intros m f Hf Hm. unfold noteFirst.
  destruct (g f) as [id|]; [|done]. destruct (mapGet m id); [done|]. apply (mapSet_Forall (fun _ v => known v)); [done|]. by apply fact_anchor.
Qed.

Lemma dispute_traceable c : buildDisputeClaim facts asOf = Some c -> traceable facts asOf c.
Proof.
  unfold buildDisputeClaim. case_decide as Hs; [done|]. intros [= <-].
  pose proof (noteFirst_known openedDispute) as H1. pose proof (noteFirst_known resolvedDispute) as H2.
  apply traceable_intro.
  - intros E. apply app_nil in E as [E1%fmap_nil_inv E2%fmap_nil_inv]. by apply Hs.
  - rewrite Forall_forall in H1, H2. intros id. rewrite elem_of_app.
    intros [(e & -> & He)%list_elem_of_fmap|(e & -> & He)%list_elem_of_fmap]; [exact (H1 _ He)|exact (H2 _ He)].
Qed.

(** Every claim of a customer's memory is traceable to the facts it was built from. *)
Lemma builders_traceable claims : traverse (fun build => build facts asOf) (CLAIM_BUILDERS Date_parse) = Ok claims ->
  Forall (traceable facts asOf) (omap id claims).
Proof.
  intros H%traverse_Forall2. rewrite Forall_forall. intros c (o & Ho & E)%list_elem_of_omap. unfold id in E. subst o.
  apply list_elem_of_lookup in Ho as [i Hi]. destruct (Forall2_lookup_r _ _ _ _ _ H Hi) as (build & Hb & E).
  assert (build ∈ CLAIM_BUILDERS Date_parse) as Hin by by eapply list_elem_of_lookup_2.
  unfold CLAIM_BUILDERS in Hin. repeat (apply elem_of_cons in Hin as [->|Hin]); [..|by apply elem_of_nil in Hin];
    try (injection E as E).
  - by apply cadence_traceable.
  - by apply sizeBands_traceable.
  - by apply reliability_traceable.
  - by apply channel_traceable.
  - by apply exposure_traceable.
  - by apply dispute_traceable.
Qed.
End claims.

(** Sorting entries by key is sorting the keys. *)
Lemma sort_by_fmap {V} (g : string -> V) ks : byKey ((fun k => (k, g k)) <$> ks) = (fun k => (k, g k)) <$> sort_by string_cmp ks.
Proof.
  unfold byKey. induction ks as [|k ks IH]; [done|]. rewrite fmap_cons. cbn [sort_by foldr]. unfold sort_by in IH. rewrite IH.
  generalize (foldr (sort_insert string_cmp) [] ks). intros l. induction l as [|x l IHl]; [done|].
  rewrite fmap_cons. cbn [sort_insert fst]. case_decide; [done|]. by rewrite IHl, fmap_cons.
Qed.

Definition facts_of (asOf : string) (facts : list MemoryFact) (c : Uuid) : list MemoryFact :=
  List.filter (fun f => bool_decide (mf_customerId f = c)) (visible asOf facts).

(** C28: point in time and traceable.  A snapshot is the snapshot of the facts up to its
    instant alone; its customers are exactly those with such a fact, in the order of their
    ids and each once; and every claim about a customer names a non-empty set of that
    customer's facts, none later than the instant, as what it was computed from. *)
Theorem memory_claims_are_traceable facts asOf s : memorySnapshot facts asOf = Ok s ->
  memorySnapshot (visible asOf facts) asOf = Ok s /\
  NoDup (cy_customerId <$> ms_customers s) /\
  StronglySorted (fun a b => string_cmp a b <= 0) (cy_customerId <$> ms_customers s) /\
  (forall c, c ∈ cy_customerId <$> ms_customers s <-> exists f, f ∈ visible asOf facts /\ mf_customerId f = c) /\
  Forall (fun m => cy_factCount m = Z.of_nat (length (facts_of asOf facts (cy_customerId m))) /\
    Forall (traceable (facts_of asOf facts (cy_customerId m)) asOf) (cy_claims m)) (ms_customers s).
Proof.
  intros H. pose proof H as H0. unfold memorySnapshot in H. apply guard_Ok in H as [_ H]. apply bind_Ok in H as ([] & Hg & H).
  rewrite (snapshot_ignores_later_facts facts asOf Hg) in H0. split; [exact H0|]. clear H0.
  apply bind_Ok in H as (customers & Hc%traverse_Forall2 & H). injection H as <-. cbn [ms_customers].
  rewrite notes_group, group_exact in Hc. fold (facts_of asOf facts) in Hc.
  set (keys := distinct (mf_customerId <$> visible asOf facts)) in *.
  assert (byKey ((fun k => (k, facts_of asOf facts k)) <$> keys) = (fun k => (k, facts_of asOf facts k)) <$> sort_by string_cmp keys) as Ek.
  { apply sort_by_fmap. }
  unfold facts_of in Ek at 1. rewrite Ek in Hc. apply Forall2_fmap_l in Hc.
  assert (cy_customerId <$> customers = sort_by string_cmp keys) as Eids.
  { revert Hc. generalize (sort_by string_cmp keys). intros ks Hc. induction Hc as [|k m ks ms Hm _ IH]; [done|].
    rewrite fmap_cons, IH. f_equal. unfold compose, customerMemory in Hm. apply bind_Ok in Hm as (cl & Hcl & Hm). by injection Hm as <-. }
  rewrite Eids. split; [rewrite sort_by_perm; apply distinct_NoDup|]. split.
  { apply (sort_by_sorted string_cmp). }
  split.
  { intros c. rewrite sort_by_perm. unfold keys. rewrite distinct_elem, list_elem_of_fmap. naive_solver. }
  clear Eids. revert Hc. generalize (sort_by string_cmp keys). intros ks Hc. induction Hc as [|k m ks ms Hm _ IH]; [constructor|].
  apply Forall_cons. split; [|exact IH].
  unfold compose, customerMemory in Hm. apply bind_Ok in Hm as (cl & Hcl & Hm). injection Hm as <-. cbn.
  split; [done|]. by apply builders_traceable.
Qed.

(** ** Disputes *)

Lemma noteFirst_keys g facts : (foldl (noteFirst g) [] facts).*1 = distinct (omap g facts).
Proof.
  induction facts as [|f facts IH] using rev_ind; [done|]. rewrite foldl_app, omap_app. cbn [foldl]. unfold noteFirst at 1.
  cbn [omap list_omap]. destruct (g f) as [id|]; [|by rewrite app_nil_r]. rewrite distinct_snoc.
  destruct (mapGet _ id) eqn:E; [|by rewrite mapSet_keys, IH]. rewrite IH. unfold addDistinct. rewrite decide_True; [done|].
  rewrite <- IH. destruct (decide (id ∈ (foldl (noteFirst g) [] facts).*1)) as [|Hn]; [done|]. apply mapGet_None in Hn. congruence.
Qed.

(** The dispute history counts disputes, not facts, and an open dispute is one that was
    opened and has no resolution. *)
Theorem dispute_history_exact facts asOf c : buildDisputeClaim facts asOf = Some c ->
  let opened := distinct (omap openedDispute facts) in
  let resolved := distinct (omap resolvedDispute facts) in
  cm_value c = DisputeHistoryValue (Z.of_nat (length opened)) (Z.of_nat (length resolved))
    (Z.of_nat (length (List.filter (fun d => negb (bool_decide (d ∈ resolved))) opened))).
Proof.
  unfold buildDisputeClaim. case_decide; [done|]. intros [= <-]. cbn [cm_value]. rewrite <- !noteFirst_keys, !length_fmap. f_equal. f_equal.
  generalize (foldl (noteFirst openedDispute) [] facts) (foldl (noteFirst resolvedDispute) [] facts). intros o r.
  induction o as [|[k v] o IH]; [done|]. rewrite fmap_cons. cbn [List.filter fst].
  destruct (mapGet r k) as [w|] eqn:E.
  - rewrite (bool_decide_false (Some w = None)), (bool_decide_true (k ∈ r.*1)); cbn; [done| |done].
    destruct (decide (k ∈ r.*1)) as [|Hn]; [done|]. apply mapGet_None in Hn. congruence.
  - rewrite (bool_decide_true (None = None)), (bool_decide_false (k ∈ r.*1)) by (done || by apply mapGet_None). cbn. by rewrite IH.
Qed.

(** ** Consent *)

Definition consentOf (ch : string) (f : MemoryFact) : option ConsentChangeStatus :=
  match mf_body f with ConsentChanged c s => if decide (c = ch) then Some s else None | _ => None end.

(** The deciding fact of a channel: no other is later, and among those of its time it is the
    last in the list. *)
Definition decides (facts : list MemoryFact) (ch : string) (f : MemoryFact) (s : ConsentChangeStatus) : Prop :=
  exists pre post, facts = pre ++ f :: post /\ consentOf ch f = Some s /\
    (forall g, g ∈ pre -> consentOf ch g <> None -> atKey Date_parse g <= atKey Date_parse f) /\
    (forall g, g ∈ post -> consentOf ch g <> None -> atKey Date_parse g < atKey Date_parse f).

Lemma decides_snoc facts ch f s g : decides facts ch f s -> (consentOf ch g <> None -> atKey Date_parse g < atKey Date_parse f) ->
  decides (facts ++ [g]) ch f s.
Proof.
  intros (pre & post & -> & Hc & Hpre & Hpost) Hg. exists pre, (post ++ [g]). split; [by rewrite <- app_assoc|]. split; [done|].
  split; [done|]. intros x [Hx|Hx]%elem_of_app; [by apply Hpost|]. apply list_elem_of_singleton in Hx as ->. done.
Qed.

(** The status of a channel is that of its deciding fact, and none when it has no fact. *)
Theorem consent_is_the_latest facts ch :
  match mapGet (foldl (noteConsent Date_parse) [] facts) ch with
  | Some e => exists f, decides facts ch f (ce_status e) /\ ce_eventId e = mf_eventId f /\ ce_at e = atKey Date_parse f
  | None => forall f, f ∈ facts -> consentOf ch f = None
  end.
Proof.
  induction facts as [|f facts IH] using rev_ind; [cbn; intros f Hf; by apply elem_of_nil in Hf|].
  rewrite foldl_app. cbn [foldl]. set (m := foldl (noteConsent Date_parse) [] facts) in *. unfold noteConsent.
  destruct (consentOf ch f) as [s|] eqn:Ef.
  - unfold consentOf in Ef. destruct (mf_body f) as [| | | | | | |c s'| |] eqn:Eb; try done. case_decide; [|done]. injection Ef as ->. subst c.
    assert (consentOf ch f = Some s) as Ec by (unfold consentOf; rewrite Eb; by rewrite decide_True).
    destruct (mapGet m ch) as [e|] eqn:Em.
    + destruct IH as (f0 & Hd & He & Ha). destruct (Z.leb_spec (ce_at e) (atKey Date_parse f)).
      * rewrite mapGet_set, decide_True by done. exists f. split; [|done]. exists facts, []. split; [done|]. split; [done|].
        split; [|intros g Hg; by apply elem_of_nil in Hg]. destruct Hd as (pre & post & -> & _ & Hpre & Hpost).
        intros g [Hg|[->|Hg]%elem_of_cons]%elem_of_app Hcg; [specialize (Hpre g Hg Hcg)| |specialize (Hpost g Hg Hcg)]; lia.
      * rewrite Em. exists f0. split; [|done]. apply decides_snoc; [done|]. intros _. lia.
    + rewrite mapGet_set, decide_True by done. exists f. split; [|done]. exists facts, []. split; [done|]. split; [done|].
      split; [intros g Hg Hcg; by rewrite IH in Hcg|intros g Hg; by apply elem_of_nil in Hg].
  - assert (mapGet (noteConsent Date_parse m f) ch = mapGet m ch) as E.
    { clear IH. clearbody m. unfold noteConsent, consentOf in *. destruct (mf_body f) as [| | | | | | |c s'| |]; try done.
      case_decide as Hc; [done|].
      destruct (mapGet m c) as [e|]; [destruct (ce_at e <=? atKey Date_parse f); [|done]|]; by rewrite mapGet_set, decide_False by congruence. }
    unfold noteConsent in E. rewrite E. destruct (mapGet m ch) as [e|].
    + destruct IH as (f0 & Hd & H). exists f0. split; [|done]. apply decides_snoc; [done|]. by rewrite Ef.
    + intros g [Hg|Hg]%elem_of_app; [by apply IH|]. by apply list_elem_of_singleton in Hg as ->.
Qed.
End snapshot.

(** ** Sample *)

Definition sample_fact_at (n c at_ : string) (body : FactBody) : MemoryFact :=
  MkMemoryFact ("0a1b2c3d-0000-4000-8000-00000000000" +:+ n) ("0a1b2c3d-0000-4000-8000-0000000000c" +:+ c) at_ body.

Definition sample_invoice_id : Uuid := "0a1b2c3d-0000-4000-8000-0000000000e1".

Definition sample_history : list MemoryFact :=
  [sample_fact_at "1" "2" "2025-08-01T00:00:00Z" (InvoiceIssued sample_invoice_id "KES" (num 900));
   sample_fact_at "2" "1" "2025-08-02T00:00:00Z" (PromiseOutcomeSeen sample_invoice_id kept);
   sample_fact_at "3" "2" "2025-08-11T00:00:00Z" (PaymentReceived sample_invoice_id (Some sample_invoice_id) "KES" (num 900));
   sample_fact_at "4" "1" "2025-10-01T00:00:00Z" (PromiseOutcomeSeen sample_invoice_id broken)].

Lemma memory_claims_are_traceable_witness : exists s,
  memorySnapshot Date_parse_iso sample_history "2025-09-01T00:00:00Z" = Ok s /\ NoDup (cy_customerId <$> ms_customers s) /\
  (fun m => (cy_factCount m, (fun c => (claimName (cm_value c), length (cm_computedFrom c))) <$> cy_claims m)) <$> ms_customers s =
    [(1, [("promise.reliability", 1%nat)]); (2, [("payment.cadence", 2%nat); ("payment.sizeBands", 1%nat)])].
Proof.
  eexists. split; [vm_compute; reflexivity|]. split; [|vm_compute; reflexivity].
  refine (proj1 (proj2 (memory_claims_are_traceable Date_parse_iso sample_history "2025-09-01T00:00:00Z" _ _))). vm_compute. reflexivity.
Defined.
