(* ===== verification/MemoryExposure.v ===== *)
(** * Financial memory: the exposure claim

    What [buildExposureClaim] of src/domain/memory/claims.ts says when every allocation and
    settlement is listed after the opening of its receivable, and what it loses otherwise. *)

From stdpp Require Import prelude strings list.
From Stdlib Require Import ZArith Lia.
From S2P Require Import Prelude JsNumber JsString JsDate IsoDate Money JsMap AgingSnapshot MemoryClaims MemorySnapshot.
Local Open Scope string_scope.
Local Open Scope list_scope.
Local Open Scope Z_scope.
Local Open Scope js_scope.

(** ** The facts about one receivable *)

Definition opens (f : MemoryFact) : option Uuid := match mf_body f with ReceivableOpened id _ _ _ => Some id | _ => None end.

Definition allocates (id : Uuid) (f : MemoryFact) : option Z :=
  match mf_body f with AllocationApplied i _ a => if decide (i = id) then Some (amountOf a) else None | _ => None end.

Definition settles (id : Uuid) (f : MemoryFact) : bool :=
  match mf_body f with ReceivableSettled i => bool_decide (i = id) | _ => false end.

(** The receivable an allocation or a settlement is about. *)
Definition touches (f : MemoryFact) : option Uuid :=
  match mf_body f with AllocationApplied i _ _ => Some i | ReceivableSettled i => Some i | _ => None end.

(** Every allocation and settlement comes after the opening it refers to. *)
Fixpoint causal_from (known : list Uuid) (facts : list MemoryFact) : bool :=
  match facts with
  | [] => true
  | f :: facts =>
      match touches f with Some id => bool_decide (id ∈ known) | None => true end &&
      causal_from (match opens f with Some id => id :: known | None => known end) facts
  end.

Definition causal (facts : list MemoryFact) : bool := causal_from [] facts.

Lemma find_app_none {A} (f : A -> bool) l l' : List.find f l = None -> List.find f (l ++ l') = List.find f l'.
Proof. induction l as [|x l IH]; cbn; [done|]. by destruct (f x). Qed.

Section exposure.
  Context (Date_parse : string -> option Z).

(** A known receivable holds the terms of its first opening, all its allocations, and
    whether a settlement exists. *)
Definition mirrors (facts : list MemoryFact) (id : Uuid) (r : OpenReceivable) : Prop :=
  (exists f currency amountMinor, List.find (fun f => bool_decide (opens f = Some id)) facts = Some f /\
     mf_body f = ReceivableOpened id currency amountMinor (or_dueDate r) /\ or_currency r = currency /\ or_amountMinor r = amountOf amountMinor) /\
  (or_allocations r).*1 = omap (allocates id) facts /\
  bool_decide (or_settled r <> None) = existsb (settles id) facts.

Definition mirrored (facts : list MemoryFact) (m : list (Uuid * OpenReceivable)) : Prop :=
  m.*1 = distinct (omap opens facts) /\ forall id r, mapGet m id = Some r -> mirrors facts id r.

Lemma opens_touches f : touches f = None \/ opens f = None.
Proof. unfold touches, opens. destruct (mf_body f); auto. Qed.

Lemma untouched f id : touches f <> Some id -> allocates id f = None /\ settles id f = false.
Proof.
  unfold touches, allocates, settles. destruct (mf_body f); try done; intros H.
  - by rewrite decide_False by congruence.
  - by rewrite bool_decide_false by congruence.
Qed.

(** Causality of a list with one more fact. *)
Lemma causal_snoc facts f : forall known, causal_from known (facts ++ [f]) = true ->
  causal_from known facts = true /\ forall id, touches f = Some id -> id ∈ known \/ id ∈ omap opens facts.
Proof.
  induction facts as [|g facts IH]; intros known H; cbn in *.
  - split; [done|]. intros id E. rewrite E in H. left. rewrite andb_true_r in H. by apply bool_decide_eq_true in H.
  - apply andb_true_iff in H as [-> H]. apply IH in H as [-> H]. split; [done|]. intros id E. destruct (H id E) as [Hk|Ho].
    + destruct (opens g) as [i|]; [apply elem_of_cons in Hk as [->|Hk]; [right; left|by left]|by left].
    + right. destruct (opens g); [by right|done].
Qed.

Lemma causal_untouched facts id : forall known, causal_from known facts = true -> id ∉ known -> id ∉ omap opens facts ->
  omap (allocates id) facts = [] /\ existsb (settles id) facts = false.
Proof.
  induction facts as [|f facts IH]; intros known H Hk Ho; [done|]. cbn in *. apply andb_true_iff in H as [Ht H].
  destruct (untouched f id) as [-> ->].
  { intros E. rewrite E in Ht. by apply bool_decide_eq_true in Ht. }
  cbn. destruct (opens f) as [i|]; [apply (IH (i :: known)); [done|set_solver|set_solver]|by apply (IH known)].
Qed.

Lemma find_opened facts id : id ∈ omap opens facts -> exists f, List.find (fun f => bool_decide (opens f = Some id)) facts = Some f.
Proof.
  intros (f & Hf & E)%list_elem_of_omap. destruct (List.find _ facts) as [g|] eqn:Eg; [by exists g|].
  rewrite find_None_iff in Eg. specialize (Eg f Hf). by apply bool_decide_eq_false in Eg.
Qed.

(** A fact about another receivable changes nothing of this one. *)
Lemma mirrors_snoc facts f id r : mirrors facts id r -> touches f <> Some id -> mirrors (facts ++ [f]) id r.
Proof.
  intros ((g & c & a & Hg & H) & Ha & Hs) Ht. destruct (untouched f id Ht) as [E1 E2]. split; [|split].
  - exists g, c, a. split; [by apply find_app_some|done].
  - rewrite omap_app. cbn. by rewrite E1, app_nil_r.
  - rewrite existsb_app. cbn. by rewrite E2, Hs, !orb_false_r.
Qed.

Lemma note_keys m ev f : (noteReceivable Date_parse (m, ev) f).1.*1 = from_option (addDistinct m.*1) m.*1 (opens f).
Proof.
  unfold noteReceivable, opens. destruct (mf_body f) as [| |i c a|i c a d|i| | | | |]; try done.
  all: destruct (mapGet m i) as [r|] eqn:E; cbn [fst from_option].
  all: try (case_match; cbn [fst]); rewrite ?mapSet_keys; try done; unfold addDistinct; try (rewrite decide_True; [done|]).
  all: destruct (decide (i ∈ m.*1)) as [|Hn]; [done|apply mapGet_None in Hn; congruence].
Qed.

Lemma note_mirrors facts m ev f : causal (facts ++ [f]) = true -> mirrored facts m ->
  mirrored (facts ++ [f]) (noteReceivable Date_parse (m, ev) f).1.
Proof.
  intros Hc [Hk Hm]. apply causal_snoc in Hc as [Hc Ht]. split.
  { rewrite note_keys, omap_app, Hk. cbn. destruct (opens f); cbn; [by rewrite distinct_snoc|by rewrite app_nil_r]. }
  intros id r Hr. destruct (decide (touches f = Some id)) as [Et|Et].
  - (* the fact is about this receivable, which is known *)
    destruct (Ht id Et) as [Hin|Hin]; [by apply elem_of_nil in Hin|].
    destruct (mapGet m id) as [r0|] eqn:E0; [|apply mapGet_None in E0; rewrite Hk, distinct_elem in E0; done].
    destruct (Hm id r0 E0) as ((g & c & a & Hg & Hb & Hcu & Ham) & Hall & Hset).
    assert (exists g c a, List.find (fun f => bool_decide (opens f = Some id)) (facts ++ [f]) = Some g /\
      mf_body g = ReceivableOpened id c a (or_dueDate r0) /\ or_currency r0 = c /\ or_amountMinor r0 = amountOf a) as Hfind.
    { exists g, c, a. split; [by apply find_app_some|done]. }
    unfold noteReceivable, touches in *. destruct (mf_body f) as [| |i c' a'| |i| | | | |] eqn:Ef; try done; injection Et as ->.
    + rewrite E0 in Hr. cbn [fst] in Hr. rewrite mapGet_set, decide_True in Hr by done. injection Hr as <-. split; [exact Hfind|]. split.
      * assert (omap (allocates id) [f] = [amountOf a']) as E1 by (cbn; unfold allocates; by rewrite Ef, decide_True).
        cbn [or_allocations]. by rewrite fmap_app, Hall, omap_app, E1.
      * assert (settles id f = false) as E2 by (unfold settles; by rewrite Ef).
        cbn [or_settled]. rewrite existsb_app. cbn [existsb]. by rewrite E2, Hset, !orb_false_r.
    + rewrite E0 in Hr. assert (omap (allocates id) [f] = [] /\ settles id f = true) as [E1 E2].
      { cbn. unfold allocates, settles. rewrite Ef. by rewrite bool_decide_true. }
      destruct (from_option _ _ (or_settled r0)) eqn:Es; cbn [fst] in Hr;
        [rewrite mapGet_set, decide_True in Hr by done|rewrite E0 in Hr]; injection Hr as <-; (split; [exact Hfind|]);
        (split; [cbn; by rewrite omap_app, E1, app_nil_r|]); rewrite existsb_app; cbn [existsb or_settled]; rewrite E2, !orb_true_r.
      { by rewrite bool_decide_true. }
      rewrite bool_decide_true; [done|]. by destruct (or_settled r0).
  - (* the entry is that of before, or new *)
    assert (mapGet m id = Some r \/ (mapGet m id = None /\ opens f = Some id)) as [Hold|[Hnew Ho]].
    { unfold noteReceivable, touches, opens in *. destruct (mf_body f) as [| |i c a|i c a d|i| | | | |]; try (by left).
      all: destruct (mapGet m i) as [ri|] eqn:Ei; try (by left); cbn [fst] in Hr; try (case_match; [|by left]; cbn [fst] in Hr);
        rewrite mapGet_set in Hr; case_decide; subst; try (by left); try (by right). }
    + apply mirrors_snoc; [by apply Hm|done].
    + assert (id ∉ omap opens facts) as Hnot by (rewrite <- distinct_elem, <- Hk; by apply mapGet_None).
      destruct (causal_untouched facts id [] Hc ltac:(set_solver) Hnot) as [Ha Hs]. destruct (untouched f id Et) as [E1 E2].
      unfold noteReceivable, opens in *. destruct (mf_body f) as [| | |i c a d| | | | | |] eqn:Ef; try done. injection Ho as ->.
      rewrite Hnew in Hr. cbn [fst] in Hr. rewrite mapGet_set, decide_True in Hr by done. injection Hr as <-. split; [|split].
      * exists f, c, a. split; [|done]. rewrite find_app_none.
        { cbn. unfold opens. by rewrite Ef, bool_decide_true. }
        apply find_None_iff. intros x Hx. apply bool_decide_eq_false. intros E. apply Hnot, list_elem_of_omap. by exists x.
      * cbn [or_allocations]. rewrite omap_app, Ha. cbn. by rewrite E1.
      * cbn [or_settled]. rewrite existsb_app, Hs. cbn. by rewrite E2.
Qed.

(** ** Balances *)

(** The balance of a receivable in a history. *)
Definition balance_in (facts : list MemoryFact) (id : Uuid) (opening : Z) : Z :=
  if existsb (settles id) facts then 0 else Z.max 0 (opening - sumZ (omap (allocates id) facts)).

Lemma balance_mirrors facts id r : mirrors facts id r -> balanceOf r = balance_in facts id (or_amountMinor r).
Proof.
  intros (_ & Ha & Hs). unfold balanceOf, balance_in. rewrite Ha, Hs. destruct (existsb _ _); cbn; [done|].
  destruct (Z.leb_spec (or_amountMinor r - sumZ (omap (allocates id) facts)) 0); lia.
Qed.

Lemma balance_nonneg r : 0 <= balanceOf r.
Proof. unfold balanceOf. destruct (bool_decide _); cbn; [done|]. destruct (Z.leb_spec (or_amountMinor r - sumZ (or_allocations r).*1) 0); lia. Qed.

Lemma all_mirrored facts : causal facts = true -> mirrored facts (foldl (noteReceivable Date_parse) ([], []) facts).1.
Proof.
  induction facts as [|f facts IH] using rev_ind; intros Hc; [split; [done|]; intros id r; done|].
  rewrite foldl_app. cbn [foldl]. pose proof (causal_snoc _ _ _ Hc) as [Hc' _]. specialize (IH Hc').
  destruct (foldl (noteReceivable Date_parse) ([], []) facts) as [m ev]. by apply note_mirrors.
Qed.

(** ** The claim *)

(** The open receivables of a currency with their buckets. *)
Definition entries_of (asOf : string) (rs : list OpenReceivable) (c : string) : list (MemoryBucket * Z) :=
  (fun r => (memoryBucketFor (memWholeDaysBetween Date_parse (or_dueDate r) asOf), balanceOf r)) <$>
    List.filter (fun r => bool_decide (or_currency r = c) && (0 <? balanceOf r)) rs.

Lemma balances_grouped asOf rs :
  (foldl (noteBalance Date_parse asOf) [] rs).*1 = distinct (or_currency <$> rs) /\
  forall c, default [] (mapGet (foldl (noteBalance Date_parse asOf) [] rs) c) = entries_of asOf rs c.
Proof.
  induction rs as [|r rs [IHk IH]] using rev_ind; [done|]. rewrite foldl_app. cbn [foldl]. unfold noteBalance at 1 3.
  split; [rewrite mapSet_keys, IHk, fmap_app; cbn; by rewrite distinct_snoc|].
  intros c. rewrite mapGet_set. unfold entries_of. rewrite filter_snoc, fmap_app. destruct (decide (c = or_currency r)) as [->|Hc]; cbn [from_option id].
  - rewrite IH, bool_decide_true by done. unfold entries_of. destruct (0 <? balanceOf r); cbn; [done|by rewrite app_nil_r].
  - rewrite bool_decide_false by done. cbn. rewrite app_nil_r. apply IH.
Qed.

Lemma exposureCurrency_Ok e row : exposureCurrency e = Ok row ->
  xc_currency row = e.1 /\ xc_openMinor row = sumZ e.2.*2 /\ xc_openReceivables row = Z.of_nat (length e.2) /\
  ar_bucket <$> xc_aging row = MEMORY_BUCKETS /\
  Forall (fun a => ar_amountMinor a = sumZ (List.filter (fun x => bool_decide (x.1 = ar_bucket a)) e.2).*2 /\
    ar_count a = Z.of_nat (length (List.filter (fun x => bool_decide (x.1 = ar_bucket a)) e.2))) (xc_aging row).
Proof.
  unfold exposureCurrency, sumMinor. intros H. apply bind_Ok in H as (o & Ho & H). apply guard_Ok in Ho as [_ Ho]. injection Ho as <-.
  apply bind_Ok in H as (ag & Hag%traverse_Forall2 & H). injection H as <-. cbn. do 3 (split; [done|]).
  revert Hag. generalize MEMORY_BUCKETS. intros bs Hag. induction Hag as [|b a bs ag Ha _ [IH1 IH2]]; [split; [done|constructor]|].
  apply bind_Ok in Ha as (z & Hz & Ha). apply guard_Ok in Hz as [_ Hz]. injection Hz as <-. injection Ha as <-. cbn in *.
  split; [by rewrite IH1|]. by constructor.
Qed.

Lemma entries_balances facts asOf k rs : Forall (fun e => mirrors facts e.1 e.2) rs ->
  let mine := List.filter (fun e => bool_decide (or_currency e.2 = k)) rs in
  sumZ (entries_of asOf rs.*2 k).*2 = sumZ ((fun e => balance_in facts e.1 (or_amountMinor e.2)) <$> mine) /\
  length (entries_of asOf rs.*2 k) = length (List.filter (fun e => 0 <? balance_in facts e.1 (or_amountMinor e.2)) mine).
Proof.
  unfold entries_of, sumZ. induction 1 as [|[id r] rs Hr _ [IH1 IH2]]; [done|]. cbn [fmap list_fmap snd List.filter fst] in *.
  apply balance_mirrors in Hr. cbn [fst snd] in Hr. pose proof (balance_nonneg r) as Hn.
  case_bool_decide; cbn [andb]; [|done]. cbn [List.filter fst snd]. rewrite <- Hr.
  destruct (Z.ltb_spec 0 (balanceOf r)); cbn [fmap list_fmap foldr length fst snd] in *; rewrite <- ?Hr, IH1, IH2; split; (done || lia).
Qed.

Lemma bucket_split (l : list (MemoryBucket * Z)) :
  sumZ l.*2 = sumZ ((fun b => sumZ (List.filter (fun x => bool_decide (x.1 = b)) l).*2) <$> MEMORY_BUCKETS).
Proof.
  induction l as [|[b z] l IH]; [done|]. rewrite fmap_cons, sumZ_cons, IH. cbn [List.filter fst snd]. unfold MEMORY_BUCKETS.
  rewrite !fmap_cons, !sumZ_cons. destruct b; cbn [bool_decide decide decide_rel MemoryBucket_eq_dec].
  all: repeat (case_bool_decide; try done); rewrite !fmap_cons, !sumZ_cons, !fmap_nil; cbn [snd]; lia.
Qed.

(** The exposure claim of a causal history: a row per currency of the receivables it opened,
    in order; in each the number and the sum of the balances that are still open, where the
    balance is the opening amount less every allocation to it, and zero once settled; and
    the four aging buckets split that sum. *)
Theorem exposure_is_what_is_owed facts asOf c rows : causal facts = true ->
  buildExposureClaim Date_parse facts asOf = Ok (Some c) -> cm_value c = ExposureValue rows ->
  exists rs : list (Uuid * OpenReceivable),
    rs.*1 = distinct (omap opens facts) /\ Forall (fun e => mirrors facts e.1 e.2) rs /\
    xc_currency <$> rows = sort_by string_cmp (distinct (or_currency <$> rs.*2)) /\
    Forall (fun row =>
      let mine := List.filter (fun e => bool_decide (or_currency e.2 = xc_currency row)) rs in
      xc_openMinor row = sumZ ((fun e => balance_in facts e.1 (or_amountMinor e.2)) <$> mine) /\
      xc_openReceivables row = Z.of_nat (length (List.filter (fun e => 0 <? balance_in facts e.1 (or_amountMinor e.2)) mine)) /\
      xc_openMinor row = sumZ (ar_amountMinor <$> xc_aging row)) rows.
Proof.
  intros Hc H Hv. destruct (all_mirrored facts Hc) as [Hk Hm]. unfold buildExposureClaim in H.
  destruct (foldl (noteReceivable Date_parse) ([], []) facts) as [rs ev]. cbn [fst] in *. case_decide; [done|].
  apply bind_Ok in H as (cs & Hcs%traverse_Forall2 & H). injection H as <-. cbn in Hv. injection Hv as ->.
  assert (NoDup rs.*1) as Hnd by (rewrite Hk; apply distinct_NoDup).
  assert (Forall (fun e => mirrors facts e.1 e.2) rs) as Hmir.
  { rewrite Forall_forall. intros [id r] Hin. apply Hm. by apply mapGet_elem. }
  exists rs. split; [done|]. split; [done|].
  destruct (balances_grouped asOf rs.*2) as [Ek Ee]. set (m := foldl (noteBalance Date_parse asOf) [] rs.*2) in *. clearbody m.
  assert (NoDup m.*1) as Hndm by (rewrite Ek; apply distinct_NoDup).
  assert (xc_currency <$> rows = (byKey m).*1) as Er.
  { clear -Hcs. induction Hcs as [|e row es rows He _ IH]; [done|]. rewrite !fmap_cons, IH. by destruct (exposureCurrency_Ok _ _ He) as [-> _]. }
  split.
  { rewrite Er. rewrite <- Ek. assert (m = (fun k => (k, default [] (mapGet m k))) <$> m.*1) as E.
    { rewrite <- list_fmap_compose. rewrite <- (list_fmap_id m) at 1. apply Forall_fmap_ext_1, Forall_forall. intros [k v] Hin. cbn.
      by rewrite (mapGet_elem m k v). }
    rewrite E at 1. rewrite sort_by_fmap, <- list_fmap_compose. apply list_fmap_id. }
  rewrite Forall_forall. intros row Hrow. apply list_elem_of_lookup in Hrow as [i Hi].
  destruct (Forall2_lookup_r _ _ _ _ _ Hcs Hi) as ([k v] & Hkv & He). apply exposureCurrency_Ok in He as (E1 & E2 & E3 & E4 & E5).
  apply list_elem_of_lookup_2 in Hkv. unfold byKey in Hkv. rewrite sort_by_perm in Hkv. apply mapGet_elem in Hkv; [|done].
  specialize (Ee k). rewrite Hkv in Ee. cbn in Ee, E1, E2, E3, E5. subst v. rewrite E1.
  destruct (entries_balances facts asOf k rs Hmir) as [Hsum Hlen]. split; [by rewrite E2, Hsum|]. split; [by rewrite E3, Hlen|].
  rewrite E2, bucket_split, <- E4, <- list_fmap_compose. f_equal. apply Forall_fmap_ext_1. eapply Forall_impl; [exact E5|].
  intros a [-> _]. done.
Qed.
End exposure.

(** ** Samples *)

Definition memory_fact (n : string) (at_ : string) (body : FactBody) : MemoryFact :=
  MkMemoryFact ("0a1b2c3d-0000-4000-8000-00000000000" +:+ n) "0a1b2c3d-0000-4000-8000-0000000000c1" at_ body.

Definition receivable_id : Uuid := "0a1b2c3d-0000-4000-8000-0000000000f1".

Definition opening : MemoryFact :=
  memory_fact "1" "2025-08-01T00:00:00Z" (ReceivableOpened receivable_id "KES" (num 1000) "2025-08-15T00:00:00Z").
Definition part_payment (currency : string) : MemoryFact :=
  memory_fact "2" "2025-08-20T00:00:00Z" (AllocationApplied receivable_id currency (num 400)).

Definition exposure_at (facts : list MemoryFact) : option (list (string * Z)) :=
  match buildExposureClaim Date_parse_iso facts "2025-09-01T00:00:00Z" with
  | Ok (Some c) => match cm_value c with ExposureValue rows => Some ((fun r => (xc_currency r, xc_openMinor r)) <$> rows) | _ => None end
  | _ => None
  end.

Lemma exposure_is_what_is_owed_witness : exists c rows,
  causal [opening; part_payment "KES"] = true /\
  buildExposureClaim Date_parse_iso [opening; part_payment "KES"] "2025-09-01T00:00:00Z" = Ok (Some c) /\ cm_value c = ExposureValue rows /\
  (fun r => (xc_currency r, xc_openMinor r)) <$> rows = [("KES", 600)] /\
  exists rs : list (Uuid * OpenReceivable), rs.*1 = distinct (omap opens [opening; part_payment "KES"]).
Proof.
  do 2 eexists. split; [vm_compute; reflexivity|]. split; [vm_compute; reflexivity|]. split; [reflexivity|]. split; [reflexivity|].
  destruct (exposure_is_what_is_owed Date_parse_iso [opening; part_payment "KES"] "2025-09-01T00:00:00Z" _ _
    ltac:(vm_compute; reflexivity) ltac:(vm_compute; reflexivity) ltac:(reflexivity)) as (rs & H & _). by exists rs.
Defined.

(** Listed before the opening, the same allocation is dropped although its time is later, and
    an allocation in another currency is subtracted as if it were in the receivable's. *)
Lemma exposure_depends_on_the_order :
  exposure_at [opening; part_payment "KES"] = Some [("KES", 600)] /\
  exposure_at [part_payment "KES"; opening] = Some [("KES", 1000)] /\
  exposure_at [opening; part_payment "USD"] = Some [("KES", 600)].
Proof. vm_compute. repeat split. Qed.
