(* ===== verification/MemoryDiff.v ===== *)
(** * Financial memory: behaviour change

    src/domain/memory/diff.ts: two memories of one customer, dimension by dimension, against
    significance thresholds, and the event when one is crossed.

    Metrics are doubles; a difference is rounded to twelve decimals by [toFixed] before it is
    compared, which is modelled on the exact value of the double.  The reason of a change, a
    text made of its other fields, is left out. *)

From stdpp Require Import prelude strings list.
From Stdlib Require Import ZArith Lia SpecFloat.
From S2P Require Import Prelude JsNumber JsString JsDate IsoDate JsJson Money Events JsMap AgingSnapshot CollectionsProjection MemoryClaims MemorySnapshot.
Local Open Scope string_scope.
Local Open Scope list_scope.
Local Open Scope Z_scope.
Local Open Scope js_scope.

Inductive DiffDimension := payment_cadence | promise_reliability | exposure | disputes.
#[export] Instance DiffDimension_eq_dec : EqDecision DiffDimension.
Proof. solve_decision. Defined.

Inductive DiffDirection := improving | stable | deteriorating.
#[export] Instance DiffDirection_eq_dec : EqDecision DiffDirection.
Proof. solve_decision. Defined.

Record DiffThresholds := MkThresholds {
  th_cadenceMedianDays : option number;
  th_reliabilityRate : option number;
  th_exposureMinor : option number;
  th_disputeCount : option number;
}.

Record Limits := MkLimits { lim_cadence : number; lim_reliability : number; lim_exposure : number; lim_dispute : number }.

Definition DEFAULT_DIFF_THRESHOLDS : Limits := MkLimits (num 3) (ndiv (num 1) (num 10)) (num 500000) (num 1).

Record BehaviorChange := MkChange {
  bc_dimension : DiffDimension;
  bc_direction : DiffDirection;
  bc_before : option number;
  bc_after : option number;
  bc_threshold : number;
  bc_currency : option string;
  bc_computedFrom : list Uuid;
}.

(** A change as the event carries it. *)
Record BehaviorChangedDimension := MkChangedDimension {
  bd_dimension : DiffDimension;
  bd_direction : DiffDirection;
  bd_before : option number;
  bd_after : option number;
  bd_threshold : number;
  bd_currency : option string;
}.

Record BehaviorChangedPayload := MkBehaviorChanged {
  bp_customerId : Uuid;
  bp_asOf : string;
  bp_changes : list BehaviorChangedDimension;
  bp_evidenceRefs : list Uuid;
}.

Record DiffResult := MkDiffResult {
  dx_customerId : Uuid;
  dx_asOf : string;
  dx_changes : list BehaviorChange;
  dx_event : option (Envelope string BehaviorChangedPayload);
}.

Definition requireNumber (x : number) : result number :=
  refuse (isFinite x = false) with "MEM_SNAPSHOT_INVALID" ;; Ok x.

Definition resolveDiffThresholds (th : DiffThresholds) : result Limits :=
  let merged := MkLimits (default (lim_cadence DEFAULT_DIFF_THRESHOLDS) (th_cadenceMedianDays th))
                  (default (lim_reliability DEFAULT_DIFF_THRESHOLDS) (th_reliabilityRate th))
                  (default (lim_exposure DEFAULT_DIFF_THRESHOLDS) (th_exposureMinor th))
                  (default (lim_dispute DEFAULT_DIFF_THRESHOLDS) (th_disputeCount th)) in
  refuse (existsb (fun x => negb (isFinite x) || nltb x (num 0)) [lim_cadence merged; lim_reliability merged; lim_exposure merged; lim_dispute merged] = true)
    with "MEM_THRESHOLD_INVALID" ;;
  Ok merged.

(** ** Classification *)

(** [Number(x.toFixed(12))]: from the magnitude of 10^21 on [toFixed] prints the number itself;
    below, the integer nearest to the magnitude times 10^12, the larger of two. *)
Definition toFixed12 (x : number) : number :=
  match x with
  | S754_finite s m e =>
      if (0 <=? e) && (10 ^ 21 <=? Zpos m * 2 ^ e) then x
      else
        let n := if 0 <=? e then Zpos m * 2 ^ e * 10 ^ 12 else (2 * Zpos m * 10 ^ 12 + 2 ^ (- e)) / (2 * 2 ^ (- e)) in
        match n with
        | Zpos n => if s then SFopp (decimalToNumber n (-12)) else decimalToNumber n (-12)
        | _ => S754_zero s
        end
  | _ => x
  end.

Definition nabs (x : number) : number := SFabs x.

Definition opposite (d : DiffDirection) : DiffDirection :=
  match d with improving => deteriorating | deteriorating => improving | stable => stable end.

(** [upMeans] is improving or deteriorating. *)
Definition classify (delta threshold : number) (upMeans : DiffDirection) : DiffDirection :=
  let rounded := toFixed12 delta in
  if SFeqb rounded (num 0) || nltb (nabs rounded) threshold then stable
  else if nltb (num 0) rounded then upMeans
  else opposite upMeans.

Definition unionEvidence (before after : option Claim) : list Uuid :=
  distinct (from_option cm_computedFrom [] before ++ from_option cm_computedFrom [] after).

(** The metric of a claim, when there is one. *)
Definition claimMetric (claim : option Claim) (field : ClaimValue -> option number) : result (option number) :=
  match claim with
  | None => Ok None
  | Some c => match field (cm_value c) with Some x => v ← requireNumber x; Ok (Some v) | None => Err (DomainError "MEM_SNAPSHOT_INVALID") end
  end.

Definition medianField (v : ClaimValue) : option number := match v with CadenceValue _ _ m _ => Some m | _ => None end.
Definition rateField (v : ClaimValue) : option number := match v with ReliabilityValue _ _ _ _ r => Some r | _ => None end.
Definition openField (v : ClaimValue) : option number := match v with DisputeHistoryValue _ _ o => Some (num o) | _ => None end.

Definition exposureRows (claim : option Claim) : result (list (string * number)) :=
  match claim with
  | None => Ok []
  | Some c =>
      match cm_value c with
      | ExposureValue rows =>
          traverse (fun row =>
            refuse (trim (xc_currency row) = "") with "MEM_SNAPSHOT_INVALID" ;;
            m ← requireNumber (num (xc_openMinor row));
            Ok (xc_currency row, m)) rows
      | _ => Err (DomainError "MEM_SNAPSHOT_INVALID")
      end
  end.

(** A dimension that is comparable only with both claims: cadence and reliability. *)
Definition comparedRow (dim : DiffDimension) (upMeans : DiffDirection) (threshold : number) (field : ClaimValue -> option number)
    (before after : option Claim) : result BehaviorChange :=
  b ← claimMetric before field;
  a ← claimMetric after field;
  let direction := match b, a with Some x, Some y => classify (nsub y x) threshold upMeans | _, _ => stable end in
  Ok (MkChange dim direction b a threshold None (unionEvidence before after)).

Definition exposureChange (threshold : number) (before after : option Claim) (beforeRows afterRows : list (string * number)) (currency : string) : BehaviorChange :=
  let b := default (num 0) (mapGet beforeRows currency) in
  let a := default (num 0) (mapGet afterRows currency) in
  MkChange exposure (classify (nsub a b) threshold deteriorating) (Some b) (Some a) threshold (Some currency) (unionEvidence before after).

Definition exposureChanges (threshold : number) (before after : option Claim) : result (list BehaviorChange) :=
  beforeRows ← exposureRows before;
  afterRows ← exposureRows after;
  Ok (exposureChange threshold before after beforeRows afterRows <$> sort_by string_cmp (distinct (beforeRows.*1 ++ afterRows.*1))).

Definition disputesRow (threshold : number) (before after : option Claim) : result BehaviorChange :=
  b ← claimMetric before openField;
  a ← claimMetric after openField;
  let x := default (num 0) b in
  let y := default (num 0) a in
  Ok (MkChange disputes (classify (nsub y x) threshold deteriorating) (Some x) (Some y) threshold None (unionEvidence before after)).

Section diff.
  Context (Date_parse : string -> option Z).

Definition assertMemoryArg (memory : CustomerMemory) : result unit :=
  refuse (trim (cy_customerId memory) = "") with "MEM_SNAPSHOT_INVALID" ;;
  refuse (isIsoTimestamp Date_parse (cy_asOf memory) = false) with "MEM_SNAPSHOT_INVALID" ;;
  Ok tt.

Definition changesOf (limits : Limits) (before after : CustomerMemory) : result (list BehaviorChange) :=
  cadence ← comparedRow payment_cadence deteriorating (lim_cadence limits) medianField
              (claimOf before "payment.cadence") (claimOf after "payment.cadence");
  reliability ← comparedRow promise_reliability improving (lim_reliability limits) rateField
                  (claimOf before "promise.reliability") (claimOf after "promise.reliability");
  exposures ← exposureChanges (lim_exposure limits) (claimOf before "exposure.current") (claimOf after "exposure.current");
  dispute ← disputesRow (lim_dispute limits) (claimOf before "dispute.history") (claimOf after "dispute.history");
  Ok (cadence :: reliability :: exposures ++ [dispute]).

Definition significantOf (changes : list BehaviorChange) : list BehaviorChange :=
  List.filter (fun c => negb (bool_decide (bc_direction c = stable))) changes.

Definition reportedChange (c : BehaviorChange) : BehaviorChangedDimension :=
  MkChangedDimension (bc_dimension c) (bc_direction c) (bc_before c) (bc_after c) (bc_threshold c) (bc_currency c).

Definition diffProfiles (before after : CustomerMemory) (clock : Clock) (thresholds : DiffThresholds) : result DiffResult :=
  _ ← assertMemoryArg before;
  _ ← assertMemoryArg after;
  refuse (cy_customerId before <> cy_customerId after) with "MEM_CUSTOMER_MISMATCH" ;;
  limits ← resolveDiffThresholds thresholds;
  changes ← changesOf limits before after;
  let significant := significantOf changes in
  Ok (MkDiffResult (cy_customerId after) (cy_asOf after) changes
        (if decide (significant = []) then None
         else Some (domainEvent "memory.behaviorChanged" (cy_customerId after)
                (MkBehaviorChanged (cy_customerId after) (cy_asOf after) (reportedChange <$> significant) (distinct (mjoin (bc_computedFrom <$> significant)))) clock))).
End diff.

(** ** Differences of doubles *)

Lemma iter_pos_invariant {A} (P : A -> Prop) (f : A -> A) n : (forall y, P y -> P (f y)) -> forall x, P x -> P (SpecFloat.iter_pos f n x).
Proof. intros Hf. induction n as [n IH|n IH|]; intros x Hx; cbn; auto. Qed.

Lemma shr_1_nonneg mrs : 0 <= shr_m mrs -> 0 <= shr_m (shr_1 mrs).
Proof. destruct mrs as [[|[p|p|]|p] r s]; cbn; lia. Qed.

Lemma shr_nonneg mrs e n : 0 <= shr_m mrs -> 0 <= shr_m (shr mrs e n).1.
Proof.
  intros H. destruct n as [|n|n]; cbn; [done| |done]. apply (iter_pos_invariant (fun m => 0 <= shr_m m)); [apply shr_1_nonneg|done].
Qed.

Lemma record_of_loc m l : shr_m (shr_record_of_loc m l) = m.
Proof. by destruct l as [|[]]. Qed.

Lemma rounded_nonneg m l : 0 <= m -> 0 <= round_nearest_even m l.
Proof. intros H. destruct l as [|[]]; cbn; [lia| |lia|lia]. destruct (Z.even m); lia. Qed.

Definition is_nan (x : number) : bool := match x with S754_nan => true | _ => false end.

Lemma round_aux_not_nan p em s m e l : 0 <= m -> is_nan (binary_round_aux p em s m e l) = false.
Proof.
  intros Hm. unfold binary_round_aux, shr_fexp. pose proof (shr_nonneg (shr_record_of_loc m l) e (fexp p em (Zdigits2 m + e) - e)) as H1.
  rewrite record_of_loc in H1. specialize (H1 Hm). destruct (shr (shr_record_of_loc m l) e (fexp p em (Zdigits2 m + e) - e)) as [mrs e'].
  cbn [fst] in H1. set (m' := round_nearest_even (shr_m mrs) (loc_of_shr_record mrs)).
  pose proof (shr_nonneg (shr_record_of_loc m' loc_Exact) e' (fexp p em (Zdigits2 m' + e') - e')) as H2. rewrite record_of_loc in H2.
  specialize (H2 (rounded_nonneg _ _ H1)). destruct (shr (shr_record_of_loc m' loc_Exact) e' _) as [mrs' e'']. cbn [fst] in H2.
  destruct (shr_m mrs'); [done|by case_match|lia].
Qed.

Lemma normalize_not_nan p em m e : is_nan (binary_normalize p em m e false) = false.
Proof.
  unfold binary_normalize, binary_round. destruct m as [|m|m]; [done| |]; destruct (shl_align m e _) as [mz ez]; by apply round_aux_not_nan.
Qed.

(** Equal up to the sign of a zero. *)
Definition same_number (x y : number) : Prop := x = y \/ (exists s s', x = S754_zero s /\ y = S754_zero s').

Lemma nsub_not_nan x y : isFinite x = true -> isFinite y = true -> is_nan (nsub x y) = false.
Proof.
  destruct x as [s|s| |s m e], y as [s'|s'| |s' m' e']; try done; intros _ _; unfold nsub; cbn [SFsub];
    solve [by destruct s, s'|apply normalize_not_nan].
Qed.

Lemma nsub_opp x y : isFinite x = true -> isFinite y = true -> same_number (nsub y x) (SFopp (nsub x y)).
Proof.
  unfold same_number, nsub. destruct x as [s|s| |s m e], y as [s'|s'| |s' m' e']; try done; intros _ _; cbn [SFsub].
  - right. destruct s, s'; cbn; eauto.
  - by left; cbn; rewrite negb_involutive.
  - by left.
  - rewrite (Z.min_comm e' e). set (a := cond_Zopp s (Zpos (shl_align m e (Z.min e e')).1)).
    set (b := cond_Zopp s' (Zpos (shl_align m' e' (Z.min e e')).1)).
    destruct (decide (a - b = 0)) as [E|E].
    + right. replace (b - a) with 0 by lia. rewrite E. cbn. eauto.
    + left. replace (b - a) with (- (a - b)) by lia. by apply normalize_opp.
Qed.

Lemma nsub_self x : isFinite x = true -> exists s, nsub x x = S754_zero s.
Proof.
  unfold nsub. destruct x as [s|s| |s m e]; try done; intros _; cbn [SFsub]; [destruct s; eauto|].
  rewrite Z.sub_diag. cbn. eauto.
Qed.

Lemma decimal_not_nan n p : p < 0 -> is_nan (decimalToNumber n p) = false.
Proof.
  intros Hp. unfold decimalToNumber. destruct (Z.leb_spec 0 p); [lia|]. unfold SFdiv, SFdiv_core_binary.
  set (e' := Z.min _ _). set (m' := match 0 - 0 - e' with Z0 => _ | Zpos _ => _ | Zneg _ => _ end).
  assert (0 <= m') as Hm. { unfold m'. destruct (0 - 0 - e'); [lia| |lia]. apply Z.shiftl_nonneg. lia. }
  clearbody m'. pose proof (Z_div_mod m' (Zpos (Z.to_pos (10 ^ (- p)))) ltac:(lia)) as Hd. destruct (Z.div_eucl m' _) as [q r].
  destruct Hd as [E Hr]. apply round_aux_not_nan. nia.
Qed.

Lemma toFixed12_not_nan x : is_nan x = false -> is_nan (toFixed12 x) = false.
Proof.
  destruct x as [s|s| |s m e]; try done. intros _. cbn [toFixed12]. destruct (_ && _); [done|].
  destruct (if 0 <=? e then _ else _) as [|n|n]; try done. destruct s; [|by apply decimal_not_nan].
  pose proof (decimal_not_nan n (-12) ltac:(lia)) as H. by destruct (decimalToNumber n (-12)).
Qed.

Lemma toFixed12_opp x : toFixed12 (SFopp x) = SFopp (toFixed12 x).
Proof.
  destruct x as [s|s| |s m e]; try done. cbn [SFopp toFixed12]. destruct (_ && _); [done|].
  destruct (if 0 <=? e then _ else _) as [|n|n]; try done. destruct s; cbn [negb]; [|done].
  by destruct (decimalToNumber n (-12)) as [[]|[]| |[]].
Qed.

Lemma classify_same x y th up : same_number x y -> classify x th up = classify y th up.
Proof. intros [->|(s & s' & -> & ->)]; done. Qed.

(** A difference and its opposite are classified oppositely. *)
Lemma classify_opposite x th up : is_nan x = false -> up <> stable -> classify (SFopp x) th up = opposite (classify x th up).
Proof.
  intros Hx Hup. unfold classify. rewrite toFixed12_opp. apply toFixed12_not_nan in Hx. revert Hx. generalize (toFixed12 x). intros r Hr.
  assert (nabs (SFopp r) = nabs r) as -> by (by destruct r).
  assert (forall q, SFeqb (SFopp q) (num 0) = SFeqb q (num 0)) as -> by (intros [[]|[]| |[]]; done).
  destruct (SFeqb r (num 0) || nltb (nabs r) th) eqn:E; [done|]. apply orb_false_iff in E as [E _].
  destruct r as [[]|[]| |[] m e]; try done; destruct up; done.
Qed.

Lemma classify_swap x y th up : isFinite x = true -> isFinite y = true -> up <> stable ->
  classify (nsub y x) th up = opposite (classify (nsub x y) th up).
Proof.
  intros Hx Hy Hup. rewrite (classify_same _ _ th up (nsub_opp x y Hx Hy)). apply classify_opposite; [by apply nsub_not_nan|done].
Qed.

Lemma classify_self x th up : isFinite x = true -> classify (nsub x x) th up = stable.
Proof. intros Hx. destruct (nsub_self x Hx) as [s ->]. done. Qed.

(** ** Comparing twice *)

(** The same row read in the other direction. *)
Definition mirrored_change (x y : BehaviorChange) : Prop :=
  bc_dimension y = bc_dimension x /\ bc_direction y = opposite (bc_direction x) /\
  bc_before y = bc_after x /\ bc_after y = bc_before x /\ bc_currency y = bc_currency x.

Lemma claimMetric_finite c field v : claimMetric c field = Ok (Some v) -> isFinite v = true.
Proof.
  unfold claimMetric, requireNumber. destruct c as [c|]; [|done]. destruct (field (cm_value c)) as [x|]; [|done].
  intros H. apply bind_Ok in H as (w & Hw & H). apply guard_Ok in Hw as [Hf Hw]. injection Hw as <-. injection H as <-.
  by apply not_false_iff_true in Hf.
Qed.

Lemma comparedRow_swap dim up th field b a x : up <> stable -> comparedRow dim up th field b a = Ok x ->
  exists y, comparedRow dim up th field a b = Ok y /\ mirrored_change x y.
Proof.
  intros Hup H. unfold comparedRow in *. apply bind_Ok in H as (vb & Hb & H). apply bind_Ok in H as (va & Ha & H). injection H as <-.
  rewrite Ha, Hb. eexists. split; [reflexivity|]. unfold mirrored_change. cbn. split; [done|]. split; [|done].
  destruct vb as [vb|], va as [va|]; try done. apply classify_swap; [..|done]; by eapply claimMetric_finite.
Qed.

Lemma exposureRows_finite c rows : exposureRows c = Ok rows -> Forall (fun e => isFinite e.2 = true) rows.
Proof.
  unfold exposureRows. destruct c as [c|]; [|intros [= <-]; constructor]. destruct (cm_value c); try done.
  intros H%traverse_Forall2. induction H as [|row e rs es He _ IH]; constructor; [|done].
  apply guard_Ok in He as [_ He]. apply bind_Ok in He as (m & Hm & He). injection He as <-. unfold requireNumber in Hm.
  apply guard_Ok in Hm as [Hf Hm]. injection Hm as <-. by apply not_false_iff_true in Hf.
Qed.

Lemma row_finite (rows : list (string * number)) k : Forall (fun e => isFinite e.2 = true) rows -> isFinite (default (num 0) (mapGet rows k)) = true.
Proof.
  intros H. destruct (mapGet rows k) as [v|] eqn:E; [|done]. by apply (mapGet_Forall (fun _ v => isFinite v = true)) in E.
Qed.

Lemma currencies_comm (l l' : list string) : sort_by string_cmp (distinct (l ++ l')) = sort_by string_cmp (distinct (l' ++ l)).
Proof.
  apply (sort_by_unique string_cmp (fun x => x)).
  - intros x y H1 H2. apply string_cmp_eq. pose proof (string_cmp_antisym x y). lia.
  - rewrite list_fmap_id. apply distinct_NoDup.
  - apply NoDup_Permutation; [apply distinct_NoDup..|]. intros x. rewrite !distinct_elem, !elem_of_app. tauto.
Qed.

Lemma exposureChanges_swap th b a xs : exposureChanges th b a = Ok xs ->
  exists ys, exposureChanges th a b = Ok ys /\ Forall2 mirrored_change xs ys.
Proof.
  intros H. unfold exposureChanges in *. apply bind_Ok in H as (rb & Hb & H). apply bind_Ok in H as (ra & Ha & H). injection H as <-.
  rewrite Ha, Hb. eexists. split; [reflexivity|]. rewrite (currencies_comm ra.*1 rb.*1).
  apply Forall2_fmap_2, Forall_Forall2_diag, Forall_true. intros k. unfold mirrored_change, exposureChange. cbn.
  split; [done|]. split; [|done]. apply classify_swap; [..|done]; apply row_finite; by eapply exposureRows_finite.
Qed.

Lemma metric_finite c field v : claimMetric c field = Ok v -> isFinite (default (num 0) v) = true.
Proof. destruct v as [v|]; [apply claimMetric_finite|done]. Qed.

Lemma disputesRow_swap th b a x : disputesRow th b a = Ok x -> exists y, disputesRow th a b = Ok y /\ mirrored_change x y.
Proof.
  intros H. unfold disputesRow in *. apply bind_Ok in H as (vb & Hb & H). apply bind_Ok in H as (va & Ha & H). injection H as <-.
  rewrite Ha, Hb. eexists. split; [reflexivity|]. unfold mirrored_change. cbn. split; [done|]. split; [|done].
  apply classify_swap; [..|done]; by eapply metric_finite.
Qed.

(** Reading two memories in the other order turns every improvement into a deterioration and
    every deterioration into an improvement, row by row; so one order reports an event
    exactly when the other does. *)
Theorem behaviour_change_is_antisymmetric limits before after xs : changesOf limits before after = Ok xs ->
  exists ys, changesOf limits after before = Ok ys /\ Forall2 mirrored_change xs ys /\ (significantOf xs = [] <-> significantOf ys = []).
Proof.
  intros H. unfold changesOf in *. apply bind_Ok in H as (c & Hc & H). apply bind_Ok in H as (r & Hr & H).
  apply bind_Ok in H as (es & He & H). apply bind_Ok in H as (d & Hd & H). injection H as <-.
  apply comparedRow_swap in Hc as (c' & -> & Hc); [|done]. apply comparedRow_swap in Hr as (r' & -> & Hr); [|done].
  apply exposureChanges_swap in He as (es' & -> & He). apply disputesRow_swap in Hd as (d' & -> & Hd).
  eexists. split; [reflexivity|].
  assert (Forall2 mirrored_change (c :: r :: es ++ [d]) (c' :: r' :: es' ++ [d'])) as Hall.
  { constructor; [done|]. constructor; [done|]. apply Forall2_app; [done|]. by constructor. }
  split; [done|]. clear -Hall. induction Hall as [|x y xs ys (_ & Hd & _) _ IH]; [done|]. unfold significantOf in *. cbn. rewrite Hd.
  destruct (bc_direction x); cbn; [done|exact IH|done].
Qed.

(** A memory compared with itself is stable in every dimension. *)
Theorem same_memory_is_stable Date_parse m clock th r : diffProfiles Date_parse m m clock th = Ok r ->
  Forall (fun c => bc_direction c = stable) (dx_changes r) /\ dx_event r = None.
Proof.
  intros H. unfold diffProfiles in H. apply bind_Ok in H as ([] & _ & H). apply bind_Ok in H as ([] & _ & H).
  apply guard_Ok in H as [_ H]. apply bind_Ok in H as (limits & _ & H). apply bind_Ok in H as (cs & Hcs & H).
  assert (Forall (fun c => bc_direction c = stable) cs) as Hst.
  { unfold changesOf in Hcs. apply bind_Ok in Hcs as (c & Hc & Hcs). apply bind_Ok in Hcs as (rr & Hr & Hcs).
    apply bind_Ok in Hcs as (es & He & Hcs). apply bind_Ok in Hcs as (d & Hd & Hcs). injection Hcs as <-.
    assert (forall dim up t field c x, comparedRow dim up t field c c = Ok x -> bc_direction x = stable) as Hrow.
    { intros dim up t field c0 x Hx. unfold comparedRow in Hx. apply bind_Ok in Hx as (v & Hv & Hx). rewrite Hv in Hx. cbn in Hx.
      injection Hx as <-. cbn. destruct v as [v|]; [|done]. apply classify_self. by eapply claimMetric_finite. }
    constructor; [by eapply Hrow|]. constructor; [by eapply Hrow|]. apply Forall_app. split; [|constructor; [|constructor]].
    - unfold exposureChanges in He. apply bind_Ok in He as (rows & Hrows & He). rewrite Hrows in He. cbn in He. injection He as <-.
      apply Forall_fmap, Forall_true. intros k. cbn. apply classify_self, row_finite. by eapply exposureRows_finite.
    - unfold disputesRow in Hd. apply bind_Ok in Hd as (v & Hv & Hd). rewrite Hv in Hd. cbn in Hd. injection Hd as <-. cbn.
      apply classify_self. by eapply metric_finite. }
  injection H as <-. cbn [dx_changes dx_event]. split; [done|]. rewrite decide_True; [done|].
  unfold significantOf. apply filter_nil_iff. intros c Hc. rewrite Forall_forall in Hst. by rewrite (Hst c Hc).
Qed.

(** The event reports exactly the rows that crossed their threshold, with their evidence. *)
Theorem behaviour_event_exact Date_parse before after clock th r : diffProfiles Date_parse before after clock th = Ok r ->
  match dx_event r with
  | None => Forall (fun c => bc_direction c = stable) (dx_changes r)
  | Some e => aggregateId e = cy_customerId before /\ bp_changes (payload e) = reportedChange <$> significantOf (dx_changes r) /\
      bp_changes (payload e) <> [] /\
      forall id, id ∈ bp_evidenceRefs (payload e) <-> exists c, c ∈ dx_changes r /\ bc_direction c <> stable /\ id ∈ bc_computedFrom c
  end.
Proof.
  intros H. unfold diffProfiles in H. apply bind_Ok in H as ([] & _ & H). apply bind_Ok in H as ([] & _ & H).
  apply guard_Ok in H as [Hid H]. apply dec_stable in Hid. apply bind_Ok in H as (limits & _ & H). apply bind_Ok in H as (cs & _ & H).
  injection H as <-. cbn [dx_event dx_changes]. case_decide as Hs.
  - unfold significantOf in Hs. rewrite filter_nil_iff in Hs. rewrite Forall_forall. intros c Hc. specialize (Hs c Hc).
    apply negb_false_iff in Hs. by apply bool_decide_eq_true in Hs.
  - cbn [aggregateId payload domainEvent bp_changes bp_evidenceRefs]. split; [done|]. split; [done|]. split; [by intros E%fmap_nil_inv|].
    intros id. rewrite distinct_elem, list_elem_of_join. setoid_rewrite list_elem_of_fmap. unfold significantOf. split.
    + intros (l & Hin & c & -> & Hc). apply elem_of_filter_bool in Hc as [Hc Hd]. exists c. split; [done|]. split; [|done].
      apply negb_true_iff, bool_decide_eq_false in Hd. done.
    + intros (c & Hc & Hd & Hin). exists (bc_computedFrom c). split; [done|]. exists c. split; [done|]. apply elem_of_filter_bool.
      split; [done|]. by rewrite bool_decide_false.
Qed.

(** ** Samples *)

(** The rounding of the difference: 0.4 against 0.5 is a change of the threshold 0.1. *)
Example rate_at_the_threshold :
  classify (nsub (ndiv (num 4) (num 10)) (ndiv (num 5) (num 10))) (ndiv (num 1) (num 10)) improving = deteriorating /\
  classify (nsub (ndiv (num 41) (num 100)) (ndiv (num 5) (num 10))) (ndiv (num 1) (num 10)) improving = stable /\
  classify (nsub (num 700000) (num 200000)) (num 500000) deteriorating = deteriorating.
Proof. vm_compute. repeat split. Qed.
