(* ===== verification/AgentFacts.v ===== *)
(** * Agent facts

    src/domain/agent: facts.ts (the plain-data facts of the capability queries, their
    validation and aging), events.ts (the audit event of a served query), and the admission
    loops that financial-state.ts and priorities.ts run over facts alike.

    Amounts are bigints, so [Z]; an enumeration a caller supplies (state, status, flag,
    currency, query kind) is a string, so that every refusal can happen.  A [typeof] check on
    a boolean, an array or a clock cannot fail here.  The engine's date parser is the
    parameter [Date_parse]; behind the validation it succeeds. *)

From stdpp Require Import prelude strings list.
From Stdlib Require Import ZArith Lia.
From S2P Require Import Prelude JsNumber JsString JsDate JsMap IsoDate Money Events Fx.
Local Open Scope string_scope.
Local Open Scope list_scope.
Local Open Scope Z_scope.
Local Open Scope js_scope.

(** ** Facts *)

Definition AGENT_FLAGS : list string :=
  ["slow_payer"; "broken_promise"; "disputed_history"; "partial_payer"; "unresponsive"; "reliable_payer"].

(** 0 stands for the undefined weight of a string outside the vocabulary. *)
Definition FLAG_WEIGHTS (flag : string) : Z :=
  if decide (flag = "slow_payer") then 6
  else if decide (flag = "broken_promise") then 8
  else if decide (flag = "disputed_history") then 3
  else if decide (flag = "partial_payer") then 4
  else if decide (flag = "unresponsive") then 5
  else if decide (flag = "reliable_payer") then -6
  else 0.

Definition RECEIVABLE_STATES : list string :=
  ["draft"; "open"; "partially_paid"; "settled"; "written_off"; "recovered"; "uncollectible"; "voided"].

Definition OPEN_RECEIVABLE_STATES : list string := ["open"; "partially_paid"].

Record CustomerFact := MkCustomerFact {
  cf_orgId : Uuid;
  cf_customerId : Uuid;
  cf_creditBalanceMinor : option Z;
  cf_creditCurrency : option string;
  cf_flags : option (list string);
  cf_evidenceIds : option (list Uuid);
}.

Record ReceivableFact := MkReceivableFact {
  af_orgId : Uuid;
  af_receivableId : Uuid;
  af_invoiceId : Uuid;
  af_customerId : Uuid;
  af_currency : string;
  af_originalMinor : Z;
  af_paidMinor : Z;
  af_state : string;
  af_dueDate : string;
  af_overdue : option bool;
  af_evidenceIds : option (list Uuid);
}.

Record PaymentFact := MkPaymentFact {
  yf_orgId : Uuid;
  yf_paymentId : Uuid;
  yf_customerId : Uuid;
  yf_currency : string;
  yf_amountMinor : Z;
  yf_receivedAt : string;
  yf_allocatedMinor : option Z;
  yf_evidenceIds : option (list Uuid);
}.

Record PromiseFact := MkPromiseFact {
  pf_orgId : Uuid;
  pf_promiseId : Uuid;
  pf_receivableId : Uuid;
  pf_status : string;
  pf_promisedDate : option string;
  pf_amountMinor : option Z;
  pf_evidenceIds : option (list Uuid);
}.

Record DisputeFact := MkDisputeFact {
  df_orgId : Uuid;
  df_disputeId : Uuid;
  df_receivableId : Uuid;
  df_open : bool;
  df_category : option string;
  df_openedAt : option string;
  df_evidenceIds : option (list Uuid);
}.

(** ** Validation *)

Definition assertUuidRef (value : Uuid) : result Uuid :=
  refuse (UUID_PATTERN value = false) with "AGENT_ID_MALFORMED" ;; Ok value.

Definition assertMinorAmount (value : Z) : result Z := refuse (value < 0) with "AGENT_AMOUNT_INVALID" ;; Ok value.

Definition assertAgentCurrency (value : string) : result string :=
  match currency_of_string value with None => Err (DomainError "AGENT_CURRENCY_UNSUPPORTED") | Some _ => Ok value end.

Definition assertFlags (flags : option (list string)) : result (list string) :=
  match flags with
  | None => Ok []
  | Some flags => traverse (fun flag => refuse (flag ∉ AGENT_FLAGS) with "AGENT_FLAG_UNKNOWN" ;; Ok flag) flags
  end.

Definition assertEvidenceIds (evidenceIds : option (list Uuid)) : result (list Uuid) :=
  match evidenceIds with None => Ok [] | Some ids => traverse assertUuidRef ids end.

Definition assertOptional {A} (assert_ : A -> result A) (value : option A) : result (option A) :=
  match value with None => Ok None | Some v => v ← assert_ v; Ok (Some v) end.

Definition assertCustomerFact (fact : CustomerFact) : result CustomerFact :=
  _ ← assertUuidRef (cf_orgId fact);
  _ ← assertUuidRef (cf_customerId fact);
  refuse (bool_decide (is_Some (cf_creditBalanceMinor fact)) <> bool_decide (is_Some (cf_creditCurrency fact)))
    with "AGENT_CREDIT_FACT_INVALID" ;;
  _ ← assertOptional assertMinorAmount (cf_creditBalanceMinor fact);
  _ ← assertOptional assertAgentCurrency (cf_creditCurrency fact);
  _ ← assertFlags (cf_flags fact);
  _ ← assertEvidenceIds (cf_evidenceIds fact);
  Ok fact.

Section facts.
  Context (Date_parse : string -> option Z).

Definition assertAgentDate (value : string) : result string :=
  refuse (ISO_PATTERN value = false \/ Date_parse value = None) with "AGENT_DATE_INVALID" ;; Ok value.

Definition assertReceivableFact (fact : ReceivableFact) : result ReceivableFact :=
  _ ← assertUuidRef (af_orgId fact);
  _ ← assertUuidRef (af_receivableId fact);
  _ ← assertUuidRef (af_invoiceId fact);
  _ ← assertUuidRef (af_customerId fact);
  _ ← assertAgentCurrency (af_currency fact);
  _ ← assertMinorAmount (af_originalMinor fact);
  _ ← assertMinorAmount (af_paidMinor fact);
  refuse (af_paidMinor fact > af_originalMinor fact) with "AGENT_BALANCE_INVALID" ;;
  refuse (af_state fact ∉ RECEIVABLE_STATES) with "AGENT_RECEIVABLE_STATE_INVALID" ;;
  _ ← assertAgentDate (af_dueDate fact);
  _ ← assertEvidenceIds (af_evidenceIds fact);
  Ok fact.

Definition assertPaymentFact (fact : PaymentFact) : result PaymentFact :=
  _ ← assertUuidRef (yf_orgId fact);
  _ ← assertUuidRef (yf_paymentId fact);
  _ ← assertUuidRef (yf_customerId fact);
  _ ← assertAgentCurrency (yf_currency fact);
  _ ← assertMinorAmount (yf_amountMinor fact);
  _ ← assertAgentDate (yf_receivedAt fact);
  allocated ← assertOptional assertMinorAmount (yf_allocatedMinor fact);
  refuse (match allocated with Some a => yf_amountMinor fact <? a | None => false end = true) with "AGENT_ALLOCATION_INVALID" ;;
  _ ← assertEvidenceIds (yf_evidenceIds fact);
  Ok fact.

Definition assertPromiseFact (fact : PromiseFact) : result PromiseFact :=
  _ ← assertUuidRef (pf_orgId fact);
  _ ← assertUuidRef (pf_promiseId fact);
  _ ← assertUuidRef (pf_receivableId fact);
  refuse (pf_status fact ∉ ["pending"; "fulfilled"; "broken"]) with "AGENT_PROMISE_STATUS_INVALID" ;;
  _ ← assertOptional assertAgentDate (pf_promisedDate fact);
  _ ← assertOptional assertMinorAmount (pf_amountMinor fact);
  _ ← assertEvidenceIds (pf_evidenceIds fact);
  Ok fact.

Definition assertDisputeFact (fact : DisputeFact) : result DisputeFact :=
  _ ← assertUuidRef (df_orgId fact);
  _ ← assertUuidRef (df_disputeId fact);
  _ ← assertUuidRef (df_receivableId fact);
  _ ← assertOptional assertAgentDate (df_openedAt fact);
  _ ← assertEvidenceIds (df_evidenceIds fact);
  Ok fact.

(** ** What validation accepts

    [Asserts assert_ P out]: the assertion passes exactly the values of [P], and returns
    [out] of them.  The instances compose along the fields of a fact. *)

End facts.

Class Asserts {A B} (assert_ : A -> result B) (P : A -> Prop) (out : A -> B) :=
  asserts : forall v w, assert_ v = Ok w <-> P v /\ w = out v.

Lemma asserts_bind {A B C} (assert_ : A -> result B) (P : A -> Prop) (out : A -> B) `{!Asserts assert_ P out} v (k : B -> result C) c :
  (assert_ v ≫= k) = Ok c <-> P v /\ k (out v) = Ok c.
Proof. rewrite bind_Ok. setoid_rewrite asserts. naive_solver. Qed.

Definition optional_ok {A} (P : A -> Prop) (o : option A) : Prop := match o with Some v => P v | None => True end.

Definition is_currency (s : string) : Prop := is_Some (currency_of_string s).
Definition ids_ok (o : option (list Uuid)) : Prop := Forall (fun i => UUID_PATTERN i = true) (default [] o).
Definition flags_ok (o : option (list string)) : Prop := Forall (fun f => f ∈ AGENT_FLAGS) (default [] o).
Definition is_date (Date_parse : string -> option Z) (s : string) : Prop := ISO_PATTERN s = true /\ is_Some (Date_parse s).

#[export] Instance uuid_asserts : Asserts assertUuidRef (fun v => UUID_PATTERN v = true) id.
Proof. intros v w. unfold assertUuidRef. rewrite guard_Ok, not_false_iff_true. naive_solver. Qed.

#[export] Instance minor_asserts : Asserts assertMinorAmount (fun v => 0 <= v) id.
Proof. intros v w. unfold assertMinorAmount. rewrite guard_Ok, Z.nlt_ge. naive_solver. Qed.

#[export] Instance currency_asserts : Asserts assertAgentCurrency is_currency id.
Proof. intros v w. unfold assertAgentCurrency, is_currency. destruct (currency_of_string v); split; intros H; [simplify_eq; eauto|by destruct H as [_ ->]|done|destruct H as [[? ?] _]; done]. Qed.

#[export] Instance date_asserts Date_parse : Asserts (assertAgentDate Date_parse) (is_date Date_parse) id.
Proof.
  intros v w. unfold assertAgentDate, is_date. rewrite guard_Ok, <- not_eq_None_Some, <- not_false_iff_true. naive_solver.
Qed.

#[export] Instance optional_asserts {A} (assert_ : A -> result A) P `{!Asserts assert_ P id} : Asserts (assertOptional assert_) (optional_ok P) id.
Proof.
  intros v w. unfold assertOptional, optional_ok. destruct v as [v|]; [rewrite (asserts_bind assert_ P id)|]; unfold id.
  - split; [by intros [? [= <-]]|by intros [? ->]].
  - split; [by intros [= <-]|by intros [_ ->]].
Qed.

Lemma traverse_asserts {A} (assert_ : A -> result A) P `{!Asserts assert_ P id} l l' : traverse assert_ l = Ok l' <-> Forall P l /\ l' = l.
Proof.
  rewrite traverse_Forall2. split.
  - induction 1 as [|x y l l' [Hx ->]%asserts _ [IH ->]]; [done|]. split; [by constructor|done].
  - intros [H ->]. induction H; constructor; [by apply asserts|done].
Qed.

#[export] Instance ids_asserts : Asserts assertEvidenceIds ids_ok (default []).
Proof. intros v w. unfold assertEvidenceIds, ids_ok. destruct v as [v|]; [apply (traverse_asserts assertUuidRef _ v w)|]. cbn. split; [intros [= <-]|intros [_ ->]]; done. Qed.

#[export] Instance flag_asserts : Asserts (fun flag => refuse (flag ∉ AGENT_FLAGS) with "AGENT_FLAG_UNKNOWN" ;; Ok flag) (fun f => f ∈ AGENT_FLAGS) id.
Proof. intros v w. rewrite guard_Ok. split; [intros [H%dec_stable [= <-]]|intros [H ->]]; [done|]. split; [by intros ?|done]. Qed.

#[export] Instance flags_asserts : Asserts assertFlags flags_ok (default []).
Proof.
  intros v w. unfold assertFlags, flags_ok. destruct v as [v|]; [apply (traverse_asserts _ _ (Asserts0 := flag_asserts))|].
  cbn. split; [intros [= <-]|intros [_ ->]]; done.
Qed.

Record customer_valid (f : CustomerFact) : Prop := {
  cv_org : UUID_PATTERN (cf_orgId f) = true;
  cv_id : UUID_PATTERN (cf_customerId f) = true;
  cv_credit : is_Some (cf_creditBalanceMinor f) <-> is_Some (cf_creditCurrency f);
  cv_amount : optional_ok (fun v => 0 <= v) (cf_creditBalanceMinor f);
  cv_currency : optional_ok is_currency (cf_creditCurrency f);
  cv_flags : flags_ok (cf_flags f);
  cv_evidence : ids_ok (cf_evidenceIds f);
}.

Record receivable_valid (Date_parse : string -> option Z) (f : ReceivableFact) : Prop := {
  rv_ids : Forall (fun i => UUID_PATTERN i = true) [af_orgId f; af_receivableId f; af_invoiceId f; af_customerId f];
  rv_currency : is_currency (af_currency f);
  rv_balance : 0 <= af_paidMinor f <= af_originalMinor f;
  rv_state : af_state f ∈ RECEIVABLE_STATES;
  rv_due : is_date Date_parse (af_dueDate f);
  rv_evidence : ids_ok (af_evidenceIds f);
}.

Record payment_valid (Date_parse : string -> option Z) (f : PaymentFact) : Prop := {
  yv_ids : Forall (fun i => UUID_PATTERN i = true) [yf_orgId f; yf_paymentId f; yf_customerId f];
  yv_currency : is_currency (yf_currency f);
  yv_amount : 0 <= yf_amountMinor f;
  yv_received : is_date Date_parse (yf_receivedAt f);
  yv_allocated : optional_ok (fun a => 0 <= a <= yf_amountMinor f) (yf_allocatedMinor f);
  yv_evidence : ids_ok (yf_evidenceIds f);
}.

Record promise_valid (Date_parse : string -> option Z) (f : PromiseFact) : Prop := {
  pv_ids : Forall (fun i => UUID_PATTERN i = true) [pf_orgId f; pf_promiseId f; pf_receivableId f];
  pv_status : pf_status f ∈ ["pending"; "fulfilled"; "broken"];
  pv_date : optional_ok (is_date Date_parse) (pf_promisedDate f);
  pv_amount : optional_ok (fun v => 0 <= v) (pf_amountMinor f);
  pv_evidence : ids_ok (pf_evidenceIds f);
}.

Record dispute_valid (Date_parse : string -> option Z) (f : DisputeFact) : Prop := {
  dv_ids : Forall (fun i => UUID_PATTERN i = true) [df_orgId f; df_disputeId f; df_receivableId f];
  dv_opened : optional_ok (is_date Date_parse) (df_openedAt f);
  dv_evidence : ids_ok (df_evidenceIds f);
}.

(** Turn a validation into the conjunction of what its steps accept. *)
Ltac assertions :=
  repeat first
    [ match goal with |- context [mbind ?k (?f ?v) = Ok ?c] => let H := constr:(asserts_bind f _ _ v k c) in rewrite H end
    | rewrite guard_Ok ];
  rewrite ?Forall_cons, ?Forall_nil.

#[export] Instance customer_asserts : Asserts assertCustomerFact customer_valid id.
Proof.
  intros v w. unfold assertCustomerFact. assertions.
  assert (~ bool_decide (is_Some (cf_creditBalanceMinor v)) <> bool_decide (is_Some (cf_creditCurrency v)) <->
    (is_Some (cf_creditBalanceMinor v) <-> is_Some (cf_creditCurrency v))) as ->.
  { repeat case_bool_decide; naive_solver. }
  split; [intros H; destruct_ands; simplify_eq; split; [by constructor|done]|intros [[] ->]; naive_solver].
Qed.

#[export] Instance receivable_asserts Date_parse : Asserts (assertReceivableFact Date_parse) (receivable_valid Date_parse) id.
Proof.
  intros v w. unfold assertReceivableFact. assertions. split.
  - intros H. destruct_ands. simplify_eq. split; [|done]. constructor; rewrite ?Forall_cons, ?Forall_nil; try done; by apply dec_stable.
  - intros [[Hi] ->]. rewrite !Forall_cons in Hi. destruct_ands. split_and!; try done; try lia. intros ?. done.
Qed.

#[export] Instance payment_asserts Date_parse : Asserts (assertPaymentFact Date_parse) (payment_valid Date_parse) id.
Proof.
  intros v w. unfold assertPaymentFact. assertions. unfold id. split.
  - intros H. destruct_ands. simplify_eq. split; [|done]. constructor; rewrite ?Forall_cons, ?Forall_nil; try done.
    destruct (yf_allocatedMinor _) as [a|]; [|done]. cbn in *. lia.
  - intros [[Hi] ->]. rewrite !Forall_cons in Hi. destruct_ands. split_and!; try done; destruct (yf_allocatedMinor v) as [a|]; cbn in *; try done; lia.
Qed.

#[export] Instance promise_asserts Date_parse : Asserts (assertPromiseFact Date_parse) (promise_valid Date_parse) id.
Proof.
  intros v w. unfold assertPromiseFact. assertions. split.
  - intros H. destruct_ands. simplify_eq. split; [|done]. constructor; rewrite ?Forall_cons, ?Forall_nil; try done. by apply dec_stable.
  - intros [[Hi] ->]. rewrite !Forall_cons in Hi. destruct_ands. split_and!; try done. intros ?. done.
Qed.

#[export] Instance dispute_asserts Date_parse : Asserts (assertDisputeFact Date_parse) (dispute_valid Date_parse) id.
Proof.
  intros v w. unfold assertDisputeFact. assertions. split.
  - intros H. destruct_ands. simplify_eq. split; [|done]. by constructor; rewrite ?Forall_cons, ?Forall_nil.
  - intros [[Hi] ->]. rewrite !Forall_cons in Hi. destruct_ands. by split_and!.
Qed.

Section aging.
  Context (Date_parse : string -> option Z).

(** ** Aging *)

Inductive AgeBucket := age_0_30 | age_31_60 | age_61_90 | age_over_90.
#[export] Instance AgeBucket_eq_dec : EqDecision AgeBucket.
Proof. solve_decision. Defined.

Definition ageDaysOf (dueDateIso : string) (now : Date) : Z := Z.max 0 ((now - default 0 (Date_parse dueDateIso)) / DAY_MS).

Definition ageBucketOf (ageDays : Z) : AgeBucket :=
  if decide (ageDays <= 30) then age_0_30
  else if decide (ageDays <= 60) then age_31_60
  else if decide (ageDays <= 90) then age_61_90
  else age_over_90.

End aging.

(** ** The audit event of a served query *)

Definition AGENT_QUERY_KINDS : list string := ["financial_state"; "receivable_priorities"; "collection_recommendations"].

Record AgentQueryServedPayload := MkQueryServed {
  qs_orgId : Uuid;
  qs_queryId : Uuid;
  qs_query : string;
  qs_subjectId : option Uuid;
  qs_answerCount : Z;
  qs_evidenceCount : Z;
  qs_servedAt : string;
}.

Definition assertAgentCount (value : number) : result Z :=
  match safeInteger value with
  | None => Err (DomainError "AGENT_COUNT_INVALID")
  | Some n => refuse (n < 0) with "AGENT_COUNT_INVALID" ;; Ok n
  end.

Definition agentQueryServedEvent (orgId queryId : Uuid) (query : string) (subjectId : option Uuid) (answerCount evidenceCount : number)
    (clock : Clock) : result (DomainEvent AgentQueryServedPayload) :=
  refuse (query ∉ AGENT_QUERY_KINDS) with "AGENT_QUERY_KIND_INVALID" ;;
  answers ← assertAgentCount answerCount;
  evidence ← assertAgentCount evidenceCount;
  let now := toISOString (clock 0%nat) in
  queryId ← assertUuidRef queryId;
  orgId ← assertUuidRef orgId;
  subjectId ← assertOptional assertUuidRef subjectId;
  Ok (MkEnvelope "agent.queryServed" queryId (MkQueryServed orgId queryId query subjectId answers evidence now) now).

(** ** Admission

    The loops over the supplied facts.  [admitKeyed] fills a [Map] from ids to facts;
    [check] is what the query refuses between the organisation and the repeated id.
    [admitRelated] fills the [Map] from receivables to the facts about them, with the ids
    seen so far. *)

Section admission.
  Context {F : Type} (assertF : F -> result F) (orgOf idOf : F -> Uuid) (duplicate : string) (orgId : Uuid).

Definition admitKeyed (check : F -> result unit) (m : list (Uuid * F)) (raw : F) : result (list (Uuid * F)) :=
  fact ← assertF raw;
  refuse (orgOf fact <> orgId) with "AGENT_ORG_MISMATCH" ;;
  _ ← check fact;
  refuse (is_Some (mapGet m (idOf fact))) with duplicate ;;
  Ok (mapSet m (idOf fact) fact).

Definition admitRelated (receivableOf : F -> Uuid) (inScope : F -> bool) (st : list (Uuid * list F) * list Uuid) (raw : F)
    : result (list (Uuid * list F) * list Uuid) :=
  fact ← assertF raw;
  refuse (orgOf fact <> orgId) with "AGENT_ORG_MISMATCH" ;;
  refuse (idOf fact ∈ st.2) with duplicate ;;
  let seen := idOf fact :: st.2 in
  if inScope fact then Ok (group receivableOf st.1 fact, seen) else Ok (st.1, seen).

Context (valid : F -> Prop) `{!Asserts assertF valid id}.

Lemma admitKeyed_from check facts : forall m0 m, foldM (admitKeyed check) m0 facts = Ok m <->
  Forall (fun f => valid f /\ orgOf f = orgId /\ check f = Ok tt) facts /\
  NoDup (idOf <$> facts) /\ (forall f, f ∈ facts -> idOf f ∉ m0.*1) /\
  m = m0 ++ ((fun f => (idOf f, f)) <$> facts).
Proof.
  induction facts as [|f facts IH]; intros m0 m; cbn [foldM fmap list_fmap].
  { split; [intros [= <-]|intros (_ & _ & _ & ->)]; rewrite app_nil_r; [|done].
    split_and!; [constructor|constructor|set_solver|done]. }
  rewrite bind_Ok. unfold admitKeyed at 1. rewrite Forall_cons, NoDup_cons. split.
  - intros (m1 & H & Hm). apply bind_Ok in H as (g & Hg & H). apply asserts in Hg as [Ha ->].
    apply guard_Ok in H as [Ho H]. apply dec_stable in Ho. apply bind_Ok in H as ([] & Hc & H).
    apply guard_Ok in H as [Hn [= <-]]. apply eq_None_not_Some, mapGet_None in Hn. rewrite mapSet_new in Hm by done.
    apply IH in Hm as (Hf & Hnd & Hk & ->). rewrite <- app_assoc. split_and!; try done.
    + intros (x & E & Hx)%list_elem_of_fmap. apply (Hk x Hx). rewrite fmap_app, <- E. set_solver.
    + intros x [->|Hx]%elem_of_cons; [done|]. specialize (Hk x Hx). rewrite fmap_app in Hk. set_solver.
  - intros (((Ha & Ho & Hc) & Hf) & (Hx & Hnd) & Hk & ->). exists (m0 ++ [(idOf f, f)]). split.
    + rewrite (proj2 (asserts f f) (conj Ha eq_refl)). cbn [mbind result_bind]. rewrite decide_False by (by intros ?). rewrite Hc. cbn [mbind result_bind].
      assert (idOf f ∉ m0.*1) as Hn by (apply Hk; left). pose proof Hn as Hn'. apply mapGet_None in Hn'.
      rewrite decide_False by (by apply eq_None_not_Some). by rewrite mapSet_new.
    + apply IH. rewrite <- app_assoc. split_and!; try done. intros y Hy. rewrite fmap_app, elem_of_app. intros [Hy'|Hy'].
      * apply (Hk y); [by right|done].
      * cbn in Hy'. apply list_elem_of_singleton in Hy'. apply Hx. rewrite <- Hy'. by apply list_elem_of_fmap_2.
Qed.

(** The loop passes exactly on valid facts of the organisation under distinct ids. *)
Lemma admitKeyed_all check facts m : foldM (admitKeyed check) [] facts = Ok m <->
  Forall (fun f => valid f /\ orgOf f = orgId /\ check f = Ok tt) facts /\
  NoDup (idOf <$> facts) /\ m = (fun f => (idOf f, f)) <$> facts.
Proof. rewrite admitKeyed_from. cbn. set_solver. Qed.

Lemma admitRelated_from receivableOf inScope facts : forall st st', foldM (admitRelated receivableOf inScope) st facts = Ok st' <->
  Forall (fun f => valid f /\ orgOf f = orgId) facts /\
  NoDup (idOf <$> facts) /\ (forall f, f ∈ facts -> idOf f ∉ st.2) /\
  st' = (foldl (group receivableOf) st.1 (List.filter inScope facts), reverse (idOf <$> facts) ++ st.2).
Proof.
  induction facts as [|f facts IH]; intros st st'; cbn [foldM fmap list_fmap List.filter].
  { split; [intros [= <-]|intros (_ & _ & _ & ->)]; destruct st; [|done]. split_and!; [constructor|constructor|set_solver|done]. }
  rewrite bind_Ok. unfold admitRelated at 1. rewrite Forall_cons, NoDup_cons, reverse_cons, <- app_assoc. cbn [app].
  assert (forall st1 st2 : list (Uuid * list F) * list Uuid, (exists b, (if inScope f then Ok (group receivableOf st1.1 f, idOf f :: st1.2) else Ok (st1.1, idOf f :: st1.2)) = Ok b
      /\ foldM (admitRelated receivableOf inScope) b facts = Ok st2) <->
    foldM (admitRelated receivableOf inScope) (if inScope f then group receivableOf st1.1 f else st1.1, idOf f :: st1.2) facts = Ok st2) as Hnext.
  { intros st1 st2. destruct (inScope f); split; naive_solver. }
  assert (foldl (group receivableOf) st.1 (if inScope f then f :: List.filter inScope facts else List.filter inScope facts) =
    foldl (group receivableOf) (if inScope f then group receivableOf st.1 f else st.1) (List.filter inScope facts)) as ->.
  { by destruct (inScope f). }
  split.
  - intros (st1 & H & Hm). apply bind_Ok in H as (g & Hg & H). apply asserts in Hg as [Ha ->].
    apply guard_Ok in H as [Ho H]. apply dec_stable in Ho. apply guard_Ok in H as [Hn H].
    assert (foldM (admitRelated receivableOf inScope) (if inScope f then group receivableOf st.1 f else st.1, idOf f :: st.2) facts = Ok st') as Hm'
      by (apply Hnext; by exists st1).
    apply IH in Hm' as (Hf & Hnd & Hk & ->). cbn [fst snd] in *. split_and!; try done.
    + intros (x & E & Hx)%list_elem_of_fmap. apply (Hk x Hx). rewrite <- E. left.
    + intros x [->|Hx]%elem_of_cons; [done|]. specialize (Hk x Hx). set_solver.
  - intros (((Ha & Ho) & Hf) & (Hx & Hnd) & Hk & ->). rewrite (proj2 (asserts f f) (conj Ha eq_refl)). cbn [mbind result_bind]. rewrite decide_False by (by intros ?).
    rewrite decide_False by (apply Hk; left). apply Hnext, IH. cbn [fst snd]. split_and!; try done.
    intros y Hy [E|Hy']%elem_of_cons; [|by apply (Hk y); [right|]]. apply Hx. rewrite <- E. by apply list_elem_of_fmap_2.
Qed.

Lemma admitRelated_all receivableOf inScope facts st : foldM (admitRelated receivableOf inScope) ([], []) facts = Ok st <->
  Forall (fun f => valid f /\ orgOf f = orgId) facts /\ NoDup (idOf <$> facts) /\
  st = (foldl (group receivableOf) [] (List.filter inScope facts), reverse (idOf <$> facts)).
Proof. rewrite admitRelated_from. cbn [fst snd]. rewrite app_nil_r. set_solver. Qed.

Lemma admitKeyed_bind {B} check facts (k : list (Uuid * F) -> result B) b : (foldM (admitKeyed check) [] facts ≫= k) = Ok b <->
  Forall (fun f => valid f /\ orgOf f = orgId /\ check f = Ok tt) facts /\ NoDup (idOf <$> facts) /\
  k ((fun f => (idOf f, f)) <$> facts) = Ok b.
Proof. rewrite bind_Ok. setoid_rewrite admitKeyed_all. naive_solver. Qed.

Lemma admitRelated_bind {B} receivableOf inScope facts (k : list (Uuid * list F) * list Uuid -> result B) b :
  (foldM (admitRelated receivableOf inScope) ([], []) facts ≫= k) = Ok b <->
  Forall (fun f => valid f /\ orgOf f = orgId) facts /\ NoDup (idOf <$> facts) /\
  k (foldl (group receivableOf) [] (List.filter inScope facts), reverse (idOf <$> facts)) = Ok b.
Proof. rewrite bind_Ok. setoid_rewrite admitRelated_all. naive_solver. Qed.

End admission.

(** The facts about a receivable, out of the map the loop built. *)
Lemma group_get {F} (key : F -> Uuid) (facts : list F) k :
  default [] (mapGet (foldl (group key) [] facts) k) = List.filter (fun f => bool_decide (key f = k)) facts.
Proof.
  rewrite group_exact, fmap_mapGet. case_decide as H; [done|]. cbn. symmetry. apply filter_nil_iff. intros f Hf.
  apply bool_decide_eq_false. intros E. apply H, distinct_elem. rewrite <- E. by apply list_elem_of_fmap_2.
Qed.

Lemma mapGet_keyed {F} (idOf : F -> Uuid) (facts : list F) k :
  mapGet ((fun f => (idOf f, f)) <$> facts) k = List.find (fun f => bool_decide (idOf f = k)) facts.
Proof. induction facts as [|f facts IH]; [done|]. cbn. rewrite IH. case_decide; case_bool_decide; naive_solver. Qed.

(** ** The facts about a receivable *)

Definition promises_on (l : list PromiseFact) (r : Uuid) : list PromiseFact := List.filter (fun p => bool_decide (pf_receivableId p = r)) l.
Definition open_disputes_on (l : list DisputeFact) (r : Uuid) : list DisputeFact :=
  List.filter (fun d => df_open d && bool_decide (df_receivableId d = r)) l.

Lemma filter_filter_bool {A} (f g : A -> bool) l : List.filter f (List.filter g l) = List.filter (fun x => g x && f x) l.
Proof. induction l as [|x l IH]; [done|]. cbn. destruct (g x); cbn; [|done]. destruct (f x); by rewrite IH. Qed.

Lemma scoped_promises_get (ids : list Uuid) l r : r ∈ ids ->
  default [] (mapGet (foldl (group pf_receivableId) [] (List.filter (fun f => bool_decide (pf_receivableId f ∈ ids)) l)) r) = promises_on l r.
Proof.
  intros Hin. rewrite group_get. unfold promises_on. rewrite filter_filter_bool. apply filter_ext. intros x.
  repeat case_bool_decide; try done; congruence.
Qed.

Lemma scoped_disputes_get (ids : list Uuid) l r : r ∈ ids ->
  default [] (mapGet (foldl (group df_receivableId) [] (List.filter (fun f => df_open f && bool_decide (df_receivableId f ∈ ids)) l)) r) =
  open_disputes_on l r.
Proof.
  intros Hin. rewrite group_get. unfold open_disputes_on. rewrite filter_filter_bool. apply filter_ext. intros x.
  rewrite <- andb_assoc. f_equal. repeat case_bool_decide; try done; congruence.
Qed.
