(* ===== verification/AgentState.v ===== *)
(** * The financial state of a customer

    src/domain/agent/financial-state.ts: [financialStateOf], the read-only answer to what a
    customer's position is, over facts the caller supplies: exposure per currency, open
    receivables with age and relation, the last payment, unallocated money, the credit
    balance and the behaviour flags, each with its evidence.

    The texts [confidenceBasis] and [reasons] are left out.  A missing list of facts is
    empty. *)

From stdpp Require Import prelude strings list sorting.
From Stdlib Require Import ZArith Lia.
From S2P Require Import Prelude JsNumber JsString JsDate JsMap IsoDate Money Events Fx AgentFacts.
Local Open Scope string_scope.
Local Open Scope list_scope.
Local Open Scope Z_scope.
Local Open Scope js_scope.

Record ExposureRow := MkExposureRow {
  xr_currency : string;
  xr_exposureMinor : Z;
  xr_receivableCount : Z;
  xr_evidenceIds : list Uuid;
}.

Inductive Relation := disputed | promised | plain.
#[export] Instance Relation_eq_dec : EqDecision Relation.
Proof. solve_decision. Defined.

Record OpenReceivableView := MkOpenView {
  ov_receivableId : Uuid;
  ov_invoiceId : Uuid;
  ov_currency : string;
  ov_originalMinor : Z;
  ov_paidMinor : Z;
  ov_balanceMinor : Z;
  ov_dueDate : string;
  ov_ageDays : Z;
  ov_ageBucket : AgeBucket;
  ov_overdue : bool;
  ov_relation : Relation;
  ov_evidenceIds : list Uuid;
}.

Record UnallocatedRow := MkUnallocated {
  ur_currency : string;
  ur_amountMinor : Z;
  ur_paymentIds : list Uuid;
  ur_evidenceIds : list Uuid;
}.

Record CreditBalanceView := MkCreditView { cbv_currency : string; cbv_amountMinor : Z; cbv_evidenceIds : list Uuid }.

Record LastPaymentView := MkLastPayment {
  lp_paymentId : Uuid;
  lp_currency : string;
  lp_amountMinor : Z;
  lp_receivedAt : string;
  lp_evidenceIds : list Uuid;
}.

Record FlagView := MkFlagView { fv_flag : string; fv_weight : Z; fv_evidenceIds : list Uuid }.

Record FinancialStateAnswer := MkFinancialState {
  fs_subject : Uuid;
  fs_orgId : Uuid;
  fs_asOf : string;
  fs_exposure : list ExposureRow;
  fs_openReceivables : list OpenReceivableView;
  fs_disputedReceivableIds : list Uuid;
  fs_promisedReceivableIds : list Uuid;
  fs_plainReceivableIds : list Uuid;
  fs_lastPayment : option LastPaymentView;
  fs_unallocatedPayments : list UnallocatedRow;
  fs_creditBalance : option CreditBalanceView;
  fs_flags : list FlagView;
  fs_evidenceIds : list Uuid;
}.

Record FinancialStateQuery := MkStateQuery {
  sq_orgId : Uuid;
  sq_customerId : Uuid;
  sq_customer : option CustomerFact;
  sq_receivables : list ReceivableFact;
  sq_payments : list PaymentFact;
  sq_promises : list PromiseFact;
  sq_disputes : list DisputeFact;
}.

Definition currencyOrder (currency : string) : Z :=
  Z.of_nat (default (length CURRENCIES) (fst <$> list_find (fun c => show_currency c = currency) CURRENCIES)).

(** [[f.receivableId, ...(f.evidenceIds ?? [])]] and its likes. *)
Definition refs (i : Uuid) (evidenceIds : option (list Uuid)) : list Uuid := i :: default [] evidenceIds.
Definition receivableRefs (f : ReceivableFact) : list Uuid := refs (af_receivableId f) (af_evidenceIds f).
Definition paymentRefs (f : PaymentFact) : list Uuid := refs (yf_paymentId f) (yf_evidenceIds f).
Definition promiseRefs (f : PromiseFact) : list Uuid := refs (pf_promiseId f) (pf_evidenceIds f).
Definition disputeRefs (f : DisputeFact) : list Uuid := refs (df_disputeId f) (df_evidenceIds f).

Definition balanceMinorOf (f : ReceivableFact) : Z := af_originalMinor f - af_paidMinor f.

Definition isCollectible (f : ReceivableFact) : bool :=
  bool_decide (af_state f ∈ OPEN_RECEIVABLE_STATES) && (0 <? balanceMinorOf f).

Record ExposureAcc := MkExposureAcc { xa_minor : Z; xa_ids : list Uuid; xa_count : Z }.

Definition addExposure (row : ExposureAcc) (f : ReceivableFact) : ExposureAcc :=
  MkExposureAcc (xa_minor row + balanceMinorOf f) (xa_ids row ++ receivableRefs f) (xa_count row + 1).

Definition exposureRow (e : string * ExposureAcc) : ExposureRow :=
  MkExposureRow e.1 (xa_minor e.2) (xa_count e.2) (distinct (xa_ids e.2)).

Definition byCurrencyOrder {V} (a b : string * V) : Z := currencyOrder a.1 - currencyOrder b.1.

Definition viewOrder (a b : OpenReceivableView) : Z :=
  if decide (ov_ageDays a <> ov_ageDays b) then ov_ageDays b - ov_ageDays a
  else if decide (ov_balanceMinor a <> ov_balanceMinor b) then (if decide (ov_balanceMinor a > ov_balanceMinor b) then -1 else 1)
  else if decide (string_cmp (ov_receivableId a) (ov_receivableId b) < 0) then -1 else 1.

Record UnallocatedAcc := MkUnallocatedAcc { ua_minor : Z; ua_paymentIds : list Uuid; ua_evidenceIds : list Uuid }.

Definition remainderOf (f : PaymentFact) : Z := yf_amountMinor f - default (yf_amountMinor f) (yf_allocatedMinor f).

Definition addUnallocated (row : UnallocatedAcc) (f : PaymentFact) : UnallocatedAcc :=
  MkUnallocatedAcc (ua_minor row + remainderOf f) (ua_paymentIds row ++ [yf_paymentId f]) (ua_evidenceIds row ++ paymentRefs f).

(** One turn of the loop: a payment without remainder is passed over. *)
Definition noteUnallocated (m : list (string * UnallocatedAcc)) (f : PaymentFact) : list (string * UnallocatedAcc) :=
  if decide (remainderOf f <= 0) then m else fill yf_currency (MkUnallocatedAcc 0 [] []) addUnallocated m f.

Definition unallocatedRow (e : string * UnallocatedAcc) : UnallocatedRow :=
  MkUnallocated e.1 (ua_minor e.2) (ua_paymentIds e.2) (distinct (ua_evidenceIds e.2)).

Definition creditView (customerId : Uuid) (customer : option CustomerFact) : option CreditBalanceView :=
  c ← customer;
  minor ← cf_creditBalanceMinor c;
  currency ← cf_creditCurrency c;
  Some (MkCreditView currency minor (distinct (refs customerId (cf_evidenceIds c)))).

Definition flagViews (customerId : Uuid) (customer : option CustomerFact) : list FlagView :=
  match customer with
  | None => []
  | Some c => sort_by (fun a b => string_cmp (fv_flag a) (fv_flag b))
      ((fun flag => MkFlagView flag (FLAG_WEIGHTS flag) (distinct (refs customerId (cf_evidenceIds c)))) <$> distinct (default [] (cf_flags c)))
  end.

Section state.
  Context (Date_parse : string -> option Z).

(** The view of a receivable, given its open disputes and its promises. *)
Definition viewFrom (now : Date) (disputes : list DisputeFact) (promises : list PromiseFact) (f : ReceivableFact) : OpenReceivableView :=
  let pending := List.filter (fun p => bool_decide (pf_status p = "pending")) promises in
  let relation := if decide (0 < length disputes)%nat then disputed else if decide (0 < length pending)%nat then promised else plain in
  let evidence := receivableRefs f ++
    match relation with
    | disputed => mjoin (disputeRefs <$> disputes)
    | promised => mjoin (promiseRefs <$> pending)
    | plain => []
    end in
  let ageDays := ageDaysOf Date_parse (af_dueDate f) now in
  MkOpenView (af_receivableId f) (af_invoiceId f) (af_currency f) (af_originalMinor f) (af_paidMinor f) (balanceMinorOf f) (af_dueDate f)
    ageDays (ageBucketOf ageDays) (bool_decide (af_overdue f = Some true)) relation (distinct evidence).

Definition viewOf (now : Date) (promisesBy : list (Uuid * list PromiseFact)) (disputesBy : list (Uuid * list DisputeFact)) (f : ReceivableFact)
    : OpenReceivableView :=
  viewFrom now (default [] (mapGet disputesBy (af_receivableId f))) (default [] (mapGet promisesBy (af_receivableId f))) f.

Definition receivedTime (f : PaymentFact) : Z := default 0 (Date_parse (yf_receivedAt f)).

Definition latestFirst (a b : PaymentFact) : Z :=
  let t := receivedTime b - receivedTime a in
  if decide (t <> 0) then t else if decide (string_cmp (yf_paymentId a) (yf_paymentId b) < 0) then -1 else 1.

Definition lastPaymentView (payments : list PaymentFact) : option LastPaymentView :=
  match sort_by latestFirst payments with
  | [] => None
  | f :: _ => Some (MkLastPayment (yf_paymentId f) (yf_currency f) (yf_amountMinor f) (yf_receivedAt f) (distinct (paymentRefs f)))
  end.

(** The subject's own fact: other organisations' and customers' are refused. *)
Definition subjectFact (orgId customerId : Uuid) (customer : option CustomerFact) : result (option CustomerFact) :=
  match customer with
  | None => Ok None
  | Some raw =>
      fact ← assertCustomerFact raw;
      refuse (cf_orgId fact <> orgId) with "AGENT_ORG_MISMATCH" ;;
      refuse (cf_customerId fact <> customerId) with "AGENT_CUSTOMER_MISMATCH" ;;
      Ok (Some fact)
  end.

Definition ownedBy {F} (customerOf : F -> Uuid) (customerId : Uuid) (f : F) : result unit :=
  refuse (customerOf f <> customerId) with "AGENT_CUSTOMER_MISMATCH" ;; Ok tt.

Definition admitPromise (orgId : Uuid) (receivablesById : list (Uuid * ReceivableFact)) :=
  admitRelated (assertPromiseFact Date_parse) pf_orgId pf_promiseId "AGENT_PROMISE_DUPLICATE" orgId pf_receivableId
    (fun f => bool_decide (is_Some (mapGet receivablesById (pf_receivableId f)))).

Definition admitDispute (orgId : Uuid) (receivablesById : list (Uuid * ReceivableFact)) :=
  admitRelated (assertDisputeFact Date_parse) df_orgId df_disputeId "AGENT_DISPUTE_DUPLICATE" orgId df_receivableId
    (fun f => df_open f && bool_decide (is_Some (mapGet receivablesById (df_receivableId f)))).

Definition financialStateOf (query : FinancialStateQuery) (clock : Clock) : result FinancialStateAnswer :=
  let now := clock 0%nat in
  orgId ← assertUuidRef (sq_orgId query);
  customerId ← assertUuidRef (sq_customerId query);
  receivables ← traverse (assertReceivableFact Date_parse) (sq_receivables query);
  payments ← traverse (assertPaymentFact Date_parse) (sq_payments query);
  refuse (length receivables = 0%nat /\ length payments = 0%nat) with "AGENT_INPUT_EMPTY" ;;
  customer ← subjectFact orgId customerId (sq_customer query);
  receivablesById ← foldM (admitKeyed Ok af_orgId af_receivableId "AGENT_RECEIVABLE_DUPLICATE" orgId (ownedBy af_customerId customerId)) [] receivables;
  _ ← foldM (admitKeyed Ok yf_orgId yf_paymentId "AGENT_PAYMENT_DUPLICATE" orgId (ownedBy yf_customerId customerId)) [] payments;
  '(promisesBy, _) ← foldM (admitPromise orgId receivablesById) ([], []) (sq_promises query);
  '(disputesBy, _) ← foldM (admitDispute orgId receivablesById) ([], []) (sq_disputes query);
  let openFacts := List.filter isCollectible receivables in
  let exposureByCurrency := foldl (fill af_currency (MkExposureAcc 0 [] 0) addExposure) [] openFacts in
  let openViews := sort_by viewOrder (viewOf now promisesBy disputesBy <$> openFacts) in
  let related r := ov_receivableId <$> List.filter (fun v => bool_decide (ov_relation v = r)) openViews in
  let unallocatedByCurrency := foldl noteUnallocated [] payments in
  Ok (MkFinancialState customerId orgId (toISOString now)
        (exposureRow <$> sort_by byCurrencyOrder exposureByCurrency)
        openViews (related disputed) (related promised) (related plain)
        (lastPaymentView payments)
        (unallocatedRow <$> sort_by byCurrencyOrder unallocatedByCurrency)
        (creditView customerId customer)
        (flagViews customerId customer)
        (distinct (mjoin (receivableRefs <$> openFacts) ++ mjoin (paymentRefs <$> payments) ++
                   (pf_promiseId <$> mjoin promisesBy.*2) ++ (df_disputeId <$> mjoin disputesBy.*2) ++
                   match customer with None => [] | Some c => refs customerId (cf_evidenceIds c) end))).

End state.

(** ** When the query is answered *)

#[export] Instance Ok_asserts {A} : Asserts (@Ok A) (fun _ => True) id.
Proof. intros v w. unfold id. split; [by intros [= <-]|by intros [_ ->]]. Qed.

#[export] Instance list_asserts {A} (assert_ : A -> result A) P `{!Asserts assert_ P id} : Asserts (traverse assert_) (Forall P) id.
Proof. intros v w. apply traverse_asserts. done. Qed.

Definition subject_ok (orgId customerId : Uuid) (customer : option CustomerFact) : Prop :=
  optional_ok (fun c => customer_valid c /\ cf_orgId c = orgId /\ cf_customerId c = customerId) customer.

#[export] Instance subject_asserts orgId customerId : Asserts (subjectFact orgId customerId) (subject_ok orgId customerId) id.
Proof.
  intros v w. unfold subjectFact, subject_ok. destruct v as [c|]; cbn [optional_ok]; unfold id.
  - assertions. unfold id. split.
    + intros (Hv & Ho%dec_stable & Hc%dec_stable & [= <-]). done.
    + intros ((Hv & Ho & Hc) & ->). split_and!; try done; by intros ?.
  - split; [by intros [= <-]|by intros [_ ->]].
Qed.

(** Split conjunctions under [Forall]. *)
Ltac split_foralls := repeat match goal with H : Forall (fun _ => _ /\ _) _ |- _ => apply Forall_and in H as [? H] end.

Lemma ownedBy_Ok {F} (customerOf : F -> Uuid) customerId f : ownedBy customerOf customerId f = Ok tt <-> customerOf f = customerId.
Proof. unfold ownedBy. rewrite guard_Ok. split; [by intros [H%dec_stable _]|intros H; split; [by intros ?|done]]. Qed.

Section theorems.
  Context (Date_parse : string -> option Z).
  Implicit Types q : FinancialStateQuery.

Record state_query_valid q : Prop := {
  sqv_org : UUID_PATTERN (sq_orgId q) = true;
  sqv_customer : UUID_PATTERN (sq_customerId q) = true;
  sqv_some : sq_receivables q <> [] \/ sq_payments q <> [];
  sqv_subject : subject_ok (sq_orgId q) (sq_customerId q) (sq_customer q);
  sqv_receivables : Forall (fun f => receivable_valid Date_parse f /\ af_orgId f = sq_orgId q /\ af_customerId f = sq_customerId q) (sq_receivables q);
  sqv_payments : Forall (fun f => payment_valid Date_parse f /\ yf_orgId f = sq_orgId q /\ yf_customerId f = sq_customerId q) (sq_payments q);
  sqv_promises : Forall (fun f => promise_valid Date_parse f /\ pf_orgId f = sq_orgId q) (sq_promises q);
  sqv_disputes : Forall (fun f => dispute_valid Date_parse f /\ df_orgId f = sq_orgId q) (sq_disputes q);
  sqv_receivable_ids : NoDup (af_receivableId <$> sq_receivables q);
  sqv_payment_ids : NoDup (yf_paymentId <$> sq_payments q);
  sqv_promise_ids : NoDup (pf_promiseId <$> sq_promises q);
  sqv_dispute_ids : NoDup (df_disputeId <$> sq_disputes q);
}.

(** The promises and the open disputes of the supplied receivables. *)
Definition scoped_promises q : list PromiseFact :=
  List.filter (fun f => bool_decide (pf_receivableId f ∈ af_receivableId <$> sq_receivables q)) (sq_promises q).
Definition scoped_disputes q : list DisputeFact :=
  List.filter (fun f => df_open f && bool_decide (df_receivableId f ∈ af_receivableId <$> sq_receivables q)) (sq_disputes q).

Definition open_facts q : list ReceivableFact := List.filter isCollectible (sq_receivables q).

Definition state_answer q (now : Date) : FinancialStateAnswer :=
  let promisesBy := foldl (group pf_receivableId) [] (scoped_promises q) in
  let disputesBy := foldl (group df_receivableId) [] (scoped_disputes q) in
  let openViews := sort_by viewOrder (viewOf Date_parse now promisesBy disputesBy <$> open_facts q) in
  let related r := ov_receivableId <$> List.filter (fun v => bool_decide (ov_relation v = r)) openViews in
  MkFinancialState (sq_customerId q) (sq_orgId q) (toISOString now)
    (exposureRow <$> sort_by byCurrencyOrder (foldl (fill af_currency (MkExposureAcc 0 [] 0) addExposure) [] (open_facts q)))
    openViews (related disputed) (related promised) (related plain)
    (lastPaymentView Date_parse (sq_payments q))
    (unallocatedRow <$> sort_by byCurrencyOrder (foldl noteUnallocated [] (sq_payments q)))
    (creditView (sq_customerId q) (sq_customer q)) (flagViews (sq_customerId q) (sq_customer q))
    (distinct (mjoin (receivableRefs <$> open_facts q) ++ mjoin (paymentRefs <$> sq_payments q) ++
               (pf_promiseId <$> mjoin promisesBy.*2) ++ (df_disputeId <$> mjoin disputesBy.*2) ++
               match sq_customer q with None => [] | Some c => refs (sq_customerId q) (cf_evidenceIds c) end)).

Lemma known_mapGet (facts : list ReceivableFact) k :
  bool_decide (is_Some (mapGet ((fun f => (af_receivableId f, f)) <$> facts) k)) = bool_decide (k ∈ af_receivableId <$> facts).
Proof.
  apply bool_decide_ext. rewrite <- not_eq_None_Some, mapGet_None, <- list_fmap_compose.
  change (fst ∘ (fun f => (af_receivableId f, f))) with af_receivableId. destruct (decide (k ∈ af_receivableId <$> facts)); tauto.
Qed.

(** The query is answered exactly when every fact is valid, of the organisation, about the
    subject, and supplied once; the answer is the projection of the facts. *)
Lemma financialStateOf_Ok q clock a : financialStateOf Date_parse q clock = Ok a <->
  state_query_valid q /\ a = state_answer q (clock 0%nat).
Proof.
  unfold financialStateOf. assertions. unfold id, admitPromise, admitDispute.
  rewrite (admitKeyed_bind Ok _ _ _ _ (fun _ => True)), (admitKeyed_bind Ok _ _ _ _ (fun _ => True)).
  rewrite (admitRelated_bind (assertPromiseFact Date_parse) _ _ _ _ (promise_valid Date_parse)).
  rewrite (admitRelated_bind (assertDisputeFact Date_parse) _ _ _ _ (dispute_valid Date_parse)).
  setoid_rewrite ownedBy_Ok.
  rewrite (filter_ext _ (fun f => bool_decide (pf_receivableId f ∈ af_receivableId <$> sq_receivables q))) by (intros; apply known_mapGet).
  rewrite (filter_ext _ (fun f => df_open f && bool_decide (df_receivableId f ∈ af_receivableId <$> sq_receivables q)))
    by (intros; f_equal; apply known_mapGet).
  fold (scoped_promises q) (scoped_disputes q) (open_facts q).
  fold (state_answer q (clock 0%nat)). rewrite !length_zero_iff_nil. setoid_rewrite Forall_and. split.
  - intros H. destruct_ands. simplify_eq. split; [|done]. constructor; rewrite ?Forall_and; try done.
    + destruct (decide (sq_receivables q = [])), (decide (sq_payments q = [])); tauto.
    + split_foralls. by split_and!.
    + split_foralls. by split_and!.
  - intros [[? ? ? ? Hr Hy Hp Hd] ->]. rewrite ?Forall_and in *. destruct_ands. split_and!; try done; [tauto| |]; by apply Forall_true.
Qed.

(** ** What the answer says *)

(** The money of a currency, where there is some, in the order of [CURRENCIES]. *)
Definition per_currency {A V} (key : A -> string) (empty : V) (add : V -> A -> V) (l : list A) : list (string * V) :=
  (fun c => (c, foldl add empty (List.filter (fun x => bool_decide (key x = c)) l))) <$>
  List.filter (fun c => bool_decide (c ∈ key <$> l)) (show_currency <$> CURRENCIES).

#[local] Instance byCurrencyOrder_total {V} : TotalComparator (@byCurrencyOrder V).
Proof. unfold byCurrencyOrder. split; intros; lia. Qed.

Lemma currency_shown s : is_currency s -> s ∈ show_currency <$> CURRENCIES.
Proof.
  intros [c Hc]. unfold currency_of_string in Hc. apply find_some in Hc as [Hin Hc].
  apply bool_decide_eq_true in Hc. rewrite <- Hc. apply list_elem_of_fmap_2. by apply list_elem_of_In.
Qed.

Lemma per_currency_exact {A V} (key : A -> string) (empty : V) (add : V -> A -> V) l : Forall (fun x => is_currency (key x)) l ->
  sort_by byCurrencyOrder (foldl (fill key empty add) [] l) = per_currency key empty add l.
Proof.
  intros Hl. rewrite fill_exact. unfold per_currency.
  set (g := fun c => (c, foldl add empty (List.filter (fun x => bool_decide (key x = c)) l))).
  set (cs := List.filter (fun c => bool_decide (c ∈ key <$> l)) (show_currency <$> CURRENCIES)).
  assert (StronglySorted (fun a b => currencyOrder a < currencyOrder b) (show_currency <$> CURRENCIES)) as Hs by (vm_compute; repeat constructor).
  assert (StronglySorted (fun a b => currencyOrder a < currencyOrder b) cs) as Hcs by by apply filter_sorted.
  assert (distinct (key <$> l) ≡ₚ cs) as Hp.
  { apply NoDup_Permutation; [apply distinct_NoDup| |].
    - apply (NoDup_fmap_1 currencyOrder). clear -Hcs. induction Hcs as [|c cs _ IH Hc]; [constructor|]. cbn. constructor; [|done].
      intros (d & E & Hd)%list_elem_of_fmap. rewrite Forall_forall in Hc. specialize (Hc d Hd). lia.
    - intros c. unfold cs. rewrite distinct_elem, elem_of_filter_bool, bool_decide_eq_true. split; [|by intros [_ ?]].
      intros Hc. split; [|done]. apply list_elem_of_fmap in Hc as (x & -> & Hx). rewrite Forall_forall in Hl. by apply currency_shown, Hl. }
  rewrite (sort_by_unique byCurrencyOrder (fun e => currencyOrder e.1) (g <$> distinct (key <$> l)) (g <$> cs)).
  - apply sort_by_id. clear -Hcs. induction Hcs as [|c cs _ IH Hc]; [constructor|]. cbn. constructor; [done|].
    rewrite Forall_fmap. eapply Forall_impl; [exact Hc|]. intros d Hd. unfold cmp_le, byCurrencyOrder. cbn in *. lia.
  - unfold byCurrencyOrder. intros a b. lia.
  - rewrite Hp, <- list_fmap_compose. clear -Hcs. induction Hcs as [|c cs _ IH Hc]; [constructor|]. cbn. constructor; [|done].
    intros (d & E & Hd)%list_elem_of_fmap. rewrite Forall_forall in Hc. specialize (Hc d Hd). cbn in E. lia.
  - by rewrite Hp.
Qed.

Lemma addExposure_fold fs acc : foldl addExposure acc fs =
  MkExposureAcc (xa_minor acc + sumZ (balanceMinorOf <$> fs)) (xa_ids acc ++ mjoin (receivableRefs <$> fs)) (xa_count acc + Z.of_nat (length fs)).
Proof.
  revert acc. induction fs as [|f fs IH]; intros [m i n]; cbn [foldl fmap list_fmap].
  - cbn. rewrite app_nil_r. f_equal; [|lia]. unfold sumZ. cbn. lia.
  - rewrite IH. cbn [addExposure xa_minor xa_ids xa_count]. rewrite sumZ_cons. cbn [mjoin list_join length]. rewrite <- app_assoc. f_equal; lia.
Qed.

Definition exposure_reference q : list ExposureRow :=
  (fun c => let mine := List.filter (fun f => bool_decide (af_currency f = c)) (open_facts q) in
    MkExposureRow c (sumZ (balanceMinorOf <$> mine)) (Z.of_nat (length mine)) (distinct (mjoin (receivableRefs <$> mine)))) <$>
  List.filter (fun c => bool_decide (c ∈ af_currency <$> open_facts q)) (show_currency <$> CURRENCIES).

Definition promises_about q : Uuid -> list PromiseFact := promises_on (sq_promises q).
Definition open_disputes_about q : Uuid -> list DisputeFact := open_disputes_on (sq_disputes q).

(** The view of a receivable from the supplied facts about it. *)
Definition reference_view q (now : Date) (f : ReceivableFact) : OpenReceivableView :=
  viewFrom Date_parse now (open_disputes_about q (af_receivableId f)) (promises_about q (af_receivableId f)) f.

Lemma viewOf_reference q now f : f ∈ sq_receivables q ->
  viewOf Date_parse now (foldl (group pf_receivableId) [] (scoped_promises q)) (foldl (group df_receivableId) [] (scoped_disputes q)) f =
  reference_view q now f.
Proof.
  intros Hf. unfold viewOf, reference_view, scoped_promises, scoped_disputes.
  rewrite scoped_promises_get, scoped_disputes_get by by apply list_elem_of_fmap_2. done.
Qed.

(** Oldest first, then the larger balance, then the id. *)
Definition view_cmp : OpenReceivableView -> OpenReceivableView -> Z :=
  then_by (fun v => - ov_ageDays v) (then_by (fun v => - ov_balanceMinor v) (fun a b => string_cmp (ov_receivableId a) (ov_receivableId b))).

#[export] Instance view_cmp_total : TotalComparator view_cmp.
Proof. unfold view_cmp. apply _. Qed.

Lemma viewOrder_cmp a b : ov_receivableId a <> ov_receivableId b -> (viewOrder a b <= 0 <-> view_cmp a b <= 0).
Proof.
  intros Hne. unfold viewOrder, view_cmp, then_by.
  assert (string_cmp (ov_receivableId a) (ov_receivableId b) <> 0) by (intros E; by apply Hne, string_cmp_eq).
  repeat case_decide; lia.
Qed.

Definition newest_cmp : PaymentFact -> PaymentFact -> Z :=
  then_by (fun f => - receivedTime Date_parse f) (fun a b => string_cmp (yf_paymentId a) (yf_paymentId b)).

#[export] Instance newest_cmp_total : TotalComparator newest_cmp.
Proof. unfold newest_cmp. apply _. Qed.

Lemma latestFirst_cmp a b : yf_paymentId a <> yf_paymentId b -> (latestFirst Date_parse a b <= 0 <-> newest_cmp a b <= 0).
Proof.
  intros Hne. unfold latestFirst, newest_cmp, then_by.
  assert (string_cmp (yf_paymentId a) (yf_paymentId b) <> 0) by (intros E; by apply Hne, string_cmp_eq).
  repeat case_decide; lia.
Qed.

Lemma open_ids_NoDup q : NoDup (af_receivableId <$> sq_receivables q) -> NoDup (af_receivableId <$> open_facts q).
Proof. intros H. eapply sublist_NoDup; [exact H|]. apply fmap_sublist, filter_sublist. Qed.

(** The views of an answer, before they are told apart by relation. *)
Definition views q (now : Date) : list OpenReceivableView := sort_by view_cmp (reference_view q now <$> open_facts q).

Lemma answer_views q now : state_query_valid q -> fs_openReceivables (state_answer q now) = views q now.
Proof.
  intros Hq. cbn [state_answer fs_openReceivables]. unfold views.
  rewrite (list_fmap_ext _ (reference_view q now) (open_facts q)).
  2:{ intros i f Hf. apply viewOf_reference. apply list_elem_of_lookup_2, elem_of_filter_bool in Hf. naive_solver. }
  apply (sort_by_ties ov_receivableId); [|apply viewOrder_cmp].
  rewrite <- list_fmap_compose. change (ov_receivableId ∘ reference_view q now) with af_receivableId. apply open_ids_NoDup, Hq.
Qed.

Lemma answer_relations q now :
  let related r := ov_receivableId <$> List.filter (fun v => bool_decide (ov_relation v = r)) (fs_openReceivables (state_answer q now)) in
  fs_disputedReceivableIds (state_answer q now) = related disputed /\ fs_promisedReceivableIds (state_answer q now) = related promised /\
  fs_plainReceivableIds (state_answer q now) = related plain.
Proof. done. Qed.

(** A list told apart by the three relations. *)
Lemma relations_partition (vs : list OpenReceivableView) :
  List.filter (fun v => bool_decide (ov_relation v = disputed)) vs ++ List.filter (fun v => bool_decide (ov_relation v = promised)) vs ++
  List.filter (fun v => bool_decide (ov_relation v = plain)) vs ≡ₚ vs.
Proof.
  etrans; [|apply (partition_by ov_relation vs [disputed; promised; plain])].
  - cbn. by rewrite app_nil_r.
  - repeat (constructor; [set_solver|]). constructor.
  - intros v _. destruct (ov_relation v); set_solver.
Qed.

Definition unallocated_reference q : list UnallocatedRow :=
  (fun c => let mine := List.filter (fun f => bool_decide (yf_currency f = c)) (List.filter (fun f => 0 <? remainderOf f) (sq_payments q)) in
    MkUnallocated c (sumZ (remainderOf <$> mine)) (yf_paymentId <$> mine) (distinct (mjoin (paymentRefs <$> mine)))) <$>
  List.filter (fun c => bool_decide (c ∈ yf_currency <$> List.filter (fun f => 0 <? remainderOf f) (sq_payments q))) (show_currency <$> CURRENCIES).

Lemma addUnallocated_fold fs acc : foldl addUnallocated acc fs =
  MkUnallocatedAcc (ua_minor acc + sumZ (remainderOf <$> fs)) (ua_paymentIds acc ++ (yf_paymentId <$> fs)) (ua_evidenceIds acc ++ mjoin (paymentRefs <$> fs)).
Proof.
  revert acc. induction fs as [|f fs IH]; intros [m i n]; cbn [foldl fmap list_fmap].
  - cbn. rewrite !app_nil_r. f_equal. unfold sumZ. cbn. lia.
  - rewrite IH. cbn [addUnallocated ua_minor ua_paymentIds ua_evidenceIds]. rewrite sumZ_cons. cbn [mjoin list_join]. rewrite <- !app_assoc. f_equal. lia.
Qed.

Lemma noteUnallocated_filter fs m : foldl noteUnallocated m fs =
  foldl (fill yf_currency (MkUnallocatedAcc 0 [] []) addUnallocated) m (List.filter (fun f => 0 <? remainderOf f) fs).
Proof.
  revert m. induction fs as [|f fs IH]; intros m; [done|]. cbn [foldl List.filter]. rewrite IH. unfold noteUnallocated.
  destruct (Z.ltb_spec 0 (remainderOf f)); [by rewrite decide_False by lia|by rewrite decide_True by lia].
Qed.

Lemma exposure_exact q now : state_query_valid q -> fs_exposure (state_answer q now) = exposure_reference q.
Proof.
  intros Hq. cbn [state_answer fs_exposure]. rewrite per_currency_exact.
  - unfold per_currency, exposure_reference. rewrite <- list_fmap_compose. apply list_fmap_ext. intros i c _.
    cbn. unfold exposureRow. cbn [fst snd]. rewrite addExposure_fold. done.
  - apply Forall_forall. intros f [Hf _]%elem_of_filter_bool. pose proof (sqv_receivables q Hq) as H. rewrite Forall_forall in H. by apply H.
Qed.

Lemma unallocated_exact q now : state_query_valid q -> fs_unallocatedPayments (state_answer q now) = unallocated_reference q.
Proof.
  intros Hq. cbn [state_answer fs_unallocatedPayments]. rewrite noteUnallocated_filter, per_currency_exact.
  - unfold per_currency, unallocated_reference. rewrite <- list_fmap_compose. apply list_fmap_ext. intros i c _.
    cbn. unfold unallocatedRow. cbn [fst snd]. rewrite addUnallocated_fold. done.
  - apply Forall_forall. intros f [Hf _]%elem_of_filter_bool. pose proof (sqv_payments q Hq) as H. rewrite Forall_forall in H. by apply H.
Qed.

(** The last payment was received no earlier than any other. *)
Lemma lastPayment_exact payments : NoDup (yf_paymentId <$> payments) ->
  match lastPaymentView Date_parse payments with
  | None => payments = []
  | Some p => exists f, f ∈ payments /\ lp_paymentId p = yf_paymentId f /\ lp_amountMinor p = yf_amountMinor f /\
      lp_currency p = yf_currency f /\ forall g, g ∈ payments -> receivedTime Date_parse g <= receivedTime Date_parse f
  end.
Proof.
  intros Hnd. unfold lastPaymentView. rewrite (sort_by_ties yf_paymentId _ newest_cmp) by (try done; apply latestFirst_cmp).
  pose proof (sort_by_sorted newest_cmp payments) as Hs. pose proof (sort_by_perm newest_cmp payments) as Hp.
  destruct (sort_by newest_cmp payments) as [|f l]; [by apply Permutation_nil in Hp|].
  exists f. cbn. split; [rewrite <- Hp; left|]. split_and!; try done. intros g Hg. rewrite <- Hp in Hg.
  apply elem_of_cons in Hg as [->|Hg]; [lia|]. inversion Hs as [|? ? _ Hf]; subst. rewrite Forall_forall in Hf.
  specialize (Hf g Hg). unfold cmp_le, newest_cmp, then_by in Hf. case_decide; lia.
Qed.

Lemma length_pos_iff {A} (l : list A) : (0 < length l)%nat <-> l <> [].
Proof. destruct l; cbn; split; try done; lia. Qed.

Lemma relation_disputed q now f : ov_relation (reference_view q now f) = disputed <-> open_disputes_about q (af_receivableId f) <> [].
Proof. cbn. rewrite <- length_pos_iff. repeat case_decide; split; try done; lia. Qed.

Lemma relation_promised q now f : ov_relation (reference_view q now f) = promised <->
  open_disputes_about q (af_receivableId f) = [] /\ exists p, p ∈ promises_about q (af_receivableId f) /\ pf_status p = "pending".
Proof.
  cbn. assert ((exists p, p ∈ promises_about q (af_receivableId f) /\ pf_status p = "pending") <->
    (0 < length (List.filter (fun p => bool_decide (pf_status p = "pending")) (promises_about q (af_receivableId f))))%nat) as ->.
  { rewrite length_pos_iff. rewrite filter_nil_iff. split.
    - intros (p & Hp & Ep) H. specialize (H p Hp). by rewrite bool_decide_true in H.
    - intros H. destruct (List.find (fun p => bool_decide (pf_status p = "pending")) (promises_about q (af_receivableId f))) as [p|] eqn:E.
      + apply find_some in E as [Hp Ep]. exists p. split; [by apply list_elem_of_In|by apply bool_decide_eq_true in Ep].
      + exfalso. apply H. by apply find_None_iff. }
  rewrite <- (length_zero_iff_nil (open_disputes_about _ _)). repeat case_decide; split; try done; try lia.
Qed.

(** The ids of the views with a relation are those of the open receivables that have it. *)
Lemma related_ids q now rel (P : Uuid -> Prop) r :
  (forall f, ov_relation (reference_view q now f) = rel <-> P (af_receivableId f)) ->
  r ∈ ov_receivableId <$> List.filter (fun v => bool_decide (ov_relation v = rel)) (views q now) <->
  r ∈ af_receivableId <$> open_facts q /\ P r.
Proof.
  intros HP. rewrite !list_elem_of_fmap. split.
  - intros (v & -> & Hv). apply elem_of_filter_bool in Hv as [Hv Hr%bool_decide_eq_true]. unfold views in Hv. rewrite sort_by_perm in Hv.
    apply list_elem_of_fmap in Hv as (f & -> & Hf). apply HP in Hr. split; [by exists f|done].
  - intros [(f & -> & Hf) Hr]. exists (reference_view q now f). split; [done|]. apply elem_of_filter_bool. split.
    + unfold views. rewrite sort_by_perm. by apply list_elem_of_fmap_2.
    + by apply bool_decide_eq_true, HP.
Qed.

(** Every figure of an answer is that of the supplied facts: the exposure and the parked
    money of each currency, the open receivables oldest first with their split into disputed,
    promised and plain, and the latest payment. *)
Theorem financial_state_exact q clock a : financialStateOf Date_parse q clock = Ok a ->
  fs_exposure a = exposure_reference q /\
  fs_unallocatedPayments a = unallocated_reference q /\
  fs_openReceivables a = views q (clock 0%nat) /\
  StronglySorted (cmp_le view_cmp) (fs_openReceivables a) /\
  fs_disputedReceivableIds a ++ fs_promisedReceivableIds a ++ fs_plainReceivableIds a ≡ₚ af_receivableId <$> open_facts q /\
  (forall r, r ∈ fs_disputedReceivableIds a <-> r ∈ af_receivableId <$> open_facts q /\ open_disputes_about q r <> []) /\
  (forall r, r ∈ fs_promisedReceivableIds a <-> r ∈ af_receivableId <$> open_facts q /\ open_disputes_about q r = [] /\
     exists p, p ∈ promises_about q r /\ pf_status p = "pending") /\
  match fs_lastPayment a with
  | None => sq_payments q = []
  | Some p => exists f, f ∈ sq_payments q /\ lp_paymentId p = yf_paymentId f /\ lp_amountMinor p = yf_amountMinor f /\
      lp_currency p = yf_currency f /\ forall g, g ∈ sq_payments q -> receivedTime Date_parse g <= receivedTime Date_parse f
  end.
Proof.
  intros [Hq ->]%financialStateOf_Ok. pose proof (answer_views q (clock 0%nat) Hq) as Hv.
  split; [by apply exposure_exact|]. split; [by apply unallocated_exact|]. split; [done|].
  split; [rewrite Hv; apply (sort_by_sorted view_cmp)|].
  destruct (answer_relations q (clock 0%nat)) as (-> & -> & ->).
  rewrite Hv. split; [|split; [|split]].
  - rewrite <- !fmap_app, relations_partition. unfold views. rewrite sort_by_perm, <- list_fmap_compose. done.
  - intros r. apply (related_ids q _ disputed (fun r => open_disputes_about q r <> [])). intros f. apply relation_disputed.
  - intros r. apply (related_ids q _ promised (fun r => open_disputes_about q r = [] /\ exists p, p ∈ promises_about q r /\ pf_status p = "pending")).
    intros f. apply relation_promised.
  - apply (lastPayment_exact (sq_payments q)), Hq.
Qed.

(** ** Evidence *)

(** The ids the caller supplied: of the facts, and the source ids attached to them. *)
Definition supplied q : list Uuid :=
  mjoin (receivableRefs <$> sq_receivables q) ++ mjoin (paymentRefs <$> sq_payments q) ++ mjoin (promiseRefs <$> sq_promises q) ++
  mjoin (disputeRefs <$> sq_disputes q) ++ match sq_customer q with None => [] | Some c => refs (cf_customerId c) (cf_evidenceIds c) end.

(** Every evidence list of an answer. *)
Definition evidence_lists (a : FinancialStateAnswer) : list (list Uuid) :=
  fs_evidenceIds a :: (xr_evidenceIds <$> fs_exposure a) ++ (ov_evidenceIds <$> fs_openReceivables a) ++
  (ur_evidenceIds <$> fs_unallocatedPayments a) ++ (fv_evidenceIds <$> fs_flags a) ++
  omap (fun x => x) [lp_evidenceIds <$> fs_lastPayment a; cbv_evidenceIds <$> fs_creditBalance a].

Lemma refs_subset {A} (f : A -> list Uuid) l l' : l ⊆ l' -> mjoin (f <$> l) ⊆ mjoin (f <$> l').
Proof.
  intros H x. rewrite !list_elem_of_join. intros (ys & Hx & Hy). apply list_elem_of_fmap in Hy as (y & -> & Hy).
  exists (f y). split; [done|]. by apply list_elem_of_fmap_2, H.
Qed.

Lemma filter_subset {A} (f : A -> bool) l : List.filter f l ⊆ l.
Proof. intros x [? _]%elem_of_filter_bool. done. Qed.

Lemma distinct_subset (l l' : list Uuid) : l ⊆ l' -> distinct l ⊆ l'.
Proof. intros H x. rewrite distinct_elem. apply H. Qed.

Lemma supplied_receivables q l : l ⊆ sq_receivables q -> mjoin (receivableRefs <$> l) ⊆ supplied q.
Proof. intros H%(refs_subset receivableRefs). unfold supplied. set_solver. Qed.
Lemma supplied_payments q l : l ⊆ sq_payments q -> mjoin (paymentRefs <$> l) ⊆ supplied q.
Proof. intros H%(refs_subset paymentRefs). unfold supplied. set_solver. Qed.
Lemma supplied_promises q l : l ⊆ sq_promises q -> mjoin (promiseRefs <$> l) ⊆ supplied q.
Proof. intros H%(refs_subset promiseRefs). unfold supplied. set_solver. Qed.
Lemma supplied_disputes q l : l ⊆ sq_disputes q -> mjoin (disputeRefs <$> l) ⊆ supplied q.
Proof. intros H%(refs_subset disputeRefs). unfold supplied. set_solver. Qed.

Lemma supplied_subject q c : sq_customer q = Some c -> subject_ok (sq_orgId q) (sq_customerId q) (sq_customer q) ->
  refs (sq_customerId q) (cf_evidenceIds c) ⊆ supplied q.
Proof. unfold supplied. intros -> (_ & _ & <-). set_solver. Qed.

Lemma group_members {F} (key : F -> Uuid) (l : list F) x : x ∈ mjoin (foldl (group key) [] l).*2 -> x ∈ l.
Proof.
  rewrite group_exact, <- list_fmap_compose, list_elem_of_join. intros (ys & Hx & Hy). apply list_elem_of_fmap in Hy as (k & -> & _).
  cbn in Hx. by apply elem_of_filter_bool in Hx as [? _].
Qed.

Lemma view_evidence q now f : f ∈ sq_receivables q -> ov_evidenceIds (reference_view q now f) ⊆ supplied q.
Proof.
  intros Hf. unfold reference_view, viewFrom. cbn [ov_evidenceIds]. apply distinct_subset, list_subseteq_app_iff_l. split.
  - intros x Hx. apply (supplied_receivables q [f]); [set_solver|]. cbn. by rewrite app_nil_r.
  - repeat case_decide.
    + apply supplied_disputes, filter_subset.
    + apply supplied_promises. etrans; apply filter_subset.
    + set_solver.
Qed.

Lemma answer_evidence q now : state_query_valid q -> fs_evidenceIds (state_answer q now) ⊆ supplied q.
Proof.
  intros Hq. cbn [state_answer fs_evidenceIds]. apply distinct_subset. rewrite !list_subseteq_app_iff_l. split_and!.
  - apply supplied_receivables, filter_subset.
  - by apply supplied_payments.
  - intros x (p & -> & Hp%group_members)%list_elem_of_fmap. apply (supplied_promises q [p]); [|cbn; left].
    intros y ->%list_elem_of_singleton. by apply filter_subset in Hp.
  - intros x (d & -> & Hd%group_members)%list_elem_of_fmap. apply (supplied_disputes q [d]); [|cbn; left].
    intros y ->%list_elem_of_singleton. by apply filter_subset in Hd.
  - destruct (sq_customer q) as [c|] eqn:E; [|set_solver]. apply supplied_subject; [done|apply Hq].
Qed.

(** Every claim resolves to the input: whatever an answer names as evidence, in any of its
    lists, is an id the caller supplied. *)
Theorem financial_state_evidence_resolves q clock a : financialStateOf Date_parse q clock = Ok a ->
  Forall (fun ids => ids ⊆ supplied q) (evidence_lists a).
Proof.
  intros [Hq ->]%financialStateOf_Ok. unfold evidence_lists. constructor; [by apply answer_evidence|]. rewrite !Forall_app. split_and!.
  - rewrite exposure_exact by done. unfold exposure_reference. rewrite !Forall_fmap. apply Forall_true. intros c. cbn [xr_evidenceIds ur_evidenceIds fv_evidenceIds].
    apply distinct_subset, supplied_receivables. etrans; apply filter_subset.
  - rewrite answer_views by done. unfold views. rewrite Forall_fmap, sort_by_perm, Forall_fmap. apply Forall_forall.
    intros f [Hf _]%elem_of_filter_bool. by apply view_evidence.
  - rewrite unallocated_exact by done. unfold unallocated_reference. rewrite !Forall_fmap. apply Forall_true. intros c. cbn [xr_evidenceIds ur_evidenceIds fv_evidenceIds].
    apply distinct_subset, supplied_payments. etrans; apply filter_subset.
  - cbn [state_answer fs_flags]. unfold flagViews. destruct (sq_customer q) as [c|] eqn:E; [|constructor].
    rewrite Forall_fmap, sort_by_perm, Forall_fmap. apply Forall_true. intros f. cbn [xr_evidenceIds ur_evidenceIds fv_evidenceIds]. apply distinct_subset, supplied_subject; [done|apply Hq].
  - cbn [state_answer fs_lastPayment fs_creditBalance]. apply Forall_forall. intros ids Hids. apply list_elem_of_omap in Hids as (o & Ho & ->).
    rewrite !elem_of_cons in Ho. destruct Ho as [Ho|[Ho|Ho]]; [| |by apply elem_of_nil in Ho].
    + unfold lastPaymentView in Ho. pose proof (sort_by_perm (latestFirst Date_parse) (sq_payments q)) as Hp.
      destruct (sort_by _ _) as [|f l]; [done|]. injection Ho as ->. apply distinct_subset. intros x Hx.
      apply (supplied_payments q [f]); [|cbn; by rewrite app_nil_r]. intros y ->%list_elem_of_singleton. rewrite <- Hp. left.
    + unfold creditView in Ho. destruct (sq_customer q) as [c|] eqn:E; [|done]. cbn [mbind option_bind] in Ho.
      destruct (cf_creditBalanceMinor c); [|done]. destruct (cf_creditCurrency c); [|done]. injection Ho as ->.
      apply distinct_subset, supplied_subject; [done|apply Hq].
Qed.

End theorems.

(** ** An example *)

Definition sample_agent_id (s : string) : Uuid := "0a1b2c3d-0000-4000-8000-0000000000" +:+ s.

Definition sample_debt_fact (id_ : string) (cur : string) (minor paid : Z) (due : string) : ReceivableFact :=
  MkReceivableFact (sample_agent_id "01") (sample_agent_id id_) (sample_agent_id "02") (sample_agent_id "03") cur minor paid "open" due None None.

Definition sample_state_query : FinancialStateQuery :=
  MkStateQuery (sample_agent_id "01") (sample_agent_id "03")
    (Some (MkCustomerFact (sample_agent_id "01") (sample_agent_id "03") (Some 500) (Some "KES") (Some ["slow_payer"]) None))
    [sample_debt_fact "11" "USD" 900 100 "2025-08-01T00:00:00Z"; sample_debt_fact "12" "KES" 5000 0 "2025-06-01T00:00:00Z";
     sample_debt_fact "13" "KES" 700 700 "2025-06-01T00:00:00Z"]
    [MkPaymentFact (sample_agent_id "01") (sample_agent_id "21") (sample_agent_id "03") "KES" 700 "2025-07-01T00:00:00Z" (Some 400) None]
    [MkPromiseFact (sample_agent_id "01") (sample_agent_id "31") (sample_agent_id "11") "pending" None None None]
    [MkDisputeFact (sample_agent_id "01") (sample_agent_id "41") (sample_agent_id "12") true None None None].

Definition sample_now : Clock := fixed_clock 1756684800000.

Lemma financial_state_exact_witness : exists a,
  financialStateOf Date_parse_iso sample_state_query sample_now = Ok a /\ fs_exposure a = exposure_reference sample_state_query /\
  (fun r => (xr_currency r, xr_exposureMinor r)) <$> fs_exposure a = [("KES", 5000); ("USD", 800)] /\
  fs_disputedReceivableIds a = [sample_agent_id "12"] /\ fs_promisedReceivableIds a = [sample_agent_id "11"].
Proof.
  eexists. split; [vm_compute; reflexivity|]. split; [|vm_compute; done].
  refine (proj1 (financial_state_exact Date_parse_iso sample_state_query sample_now _ _)). vm_compute. reflexivity.
Defined.

Lemma financial_state_evidence_resolves_witness : exists a,
  financialStateOf Date_parse_iso sample_state_query sample_now = Ok a /\ Forall (fun ids => ids ⊆ supplied sample_state_query) (evidence_lists a) /\
  length (evidence_lists a) = 9%nat.
Proof.
  eexists. split; [vm_compute; reflexivity|]. split; [|vm_compute; reflexivity].
  apply (financial_state_evidence_resolves Date_parse_iso sample_state_query sample_now). vm_compute. reflexivity.
Defined.
