(* ===== verification/AgentPriorities.v ===== *)
(** * Receivable priorities

    src/domain/agent/priorities.ts: the validated context of a priorities query, the scoring
    expression and the ranking.

    Points are integers carried by doubles, added as doubles ([addPoints]); band points come
    from outside and are checked to be safe integers.  The texts [confidenceBasis] and
    [reasons] are left out, the rendered expression is not. *)

From stdpp Require Import prelude strings list sorting.
From Stdlib Require Import ZArith Lia.
From S2P Require Import Prelude JsNumber JsString JsDate JsMap IsoDate Money Events Fx AgentFacts AgentState.
Local Open Scope string_scope.
Local Open Scope list_scope.
Local Open Scope Z_scope.
Local Open Scope js_scope.

Definition AGE_POINTS_PER_BUCKET : Z := 10.

Record SizeBand := MkSizeBand { zb_minMinor : Z; zb_points : number }.

(** A validated band: its lower bound and its points. *)
Notation band := (Z * Z)%type.

Definition DEFAULT_SIZE_BANDS : list band := [(0, 0); (100000, 4); (1000000, 8); (10000000, 12)].

Inductive PriorityStatus := st_disputed | st_broken_promise | st_promised | st_open.
#[export] Instance PriorityStatus_eq_dec : EqDecision PriorityStatus.
Proof. solve_decision. Defined.

Definition STATUS_POINTS (s : PriorityStatus) : Z :=
  match s with st_disputed => 12 | st_broken_promise => 12 | st_promised => -10 | st_open => 0 end.

Record PrioritiesQuery := MkPrioritiesQuery {
  pq_orgId : Uuid;
  pq_receivables : list ReceivableFact;
  pq_customers : list CustomerFact;
  pq_promises : list PromiseFact;
  pq_disputes : list DisputeFact;
  pq_sizeBands : option (list SizeBand);
}.

Record PriorityComponents := MkComponents {
  cp_ageDays : Z;
  cp_ageBucket : AgeBucket;
  cp_agePoints : Z;
  cp_sizeBand : nat;
  cp_sizePoints : Z;
  cp_flags : list string;
  cp_flagPoints : Z;
  cp_status : PriorityStatus;
  cp_statusPoints : Z;
}.

Record ReceivablePriorityAnswer := MkPriority {
  pa_subject : Uuid;
  pa_orgId : Uuid;
  pa_customerId : Uuid;
  pa_currency : string;
  pa_balanceMinor : Z;
  pa_originalMinor : Z;
  pa_dueDate : string;
  pa_overdue : bool;
  pa_rank : Z;
  pa_score : Z;
  pa_components : PriorityComponents;
  pa_expression : string;
  pa_evidenceIds : list Uuid;
}.

Record PrioritiesContext := MkContext {
  px_orgId : Uuid;
  px_now : Date;
  px_openReceivables : list ReceivableFact;
  px_receivablesById : list (Uuid * ReceivableFact);
  px_customersByCustomerId : list (Uuid * CustomerFact);
  px_promisesByReceivableId : list (Uuid * list PromiseFact);
  px_openDisputesByReceivableId : list (Uuid * list DisputeFact);
  px_sizeBands : list band;
}.

(** The bands after the one whose lower bound is [previous]. *)
Fixpoint assertBandsFrom (previous : option Z) (bands : list SizeBand) : result (list band) :=
  match bands with
  | [] => Ok []
  | b :: bands =>
      refuse (zb_minMinor b < 0) with "AGENT_SIZE_BANDS_INVALID" ;;
      match safeInteger (zb_points b) with
      | None => Err (DomainError "AGENT_SIZE_BANDS_INVALID")
      | Some points =>
          refuse (points < 0) with "AGENT_SIZE_BANDS_INVALID" ;;
          refuse (match previous with None => negb (zb_minMinor b =? 0) | Some p => zb_minMinor b <=? p end = true) with "AGENT_SIZE_BANDS_INVALID" ;;
          rest ← assertBandsFrom (Some (zb_minMinor b)) bands;
          Ok ((zb_minMinor b, points) :: rest)
      end
  end.

Definition assertSizeBands (bands : option (list SizeBand)) : result (list band) :=
  match bands with
  | None => Ok DEFAULT_SIZE_BANDS
  | Some bands => refuse (length bands = 0%nat) with "AGENT_SIZE_BANDS_INVALID" ;; assertBandsFrom None bands
  end.

(** The loop keeps the last band whose lower bound the balance reaches. *)
Fixpoint bandOf (balanceMinor : Z) (i current : nat) (bands : list band) : nat :=
  match bands with
  | [] => current
  | b :: bands => bandOf balanceMinor (S i) (if b.1 <=? balanceMinor then i else current) bands
  end.

Definition sizePointsOf (balanceMinor : Z) (bands : list band) : nat * Z :=
  let i := bandOf balanceMinor 0 0 bands in (i, default 0 (snd <$> bands !! i)).

Definition flagPointsOf (flags : list string) : list string * Z :=
  let ordered := List.filter (fun flag => bool_decide (flag ∈ flags)) AGENT_FLAGS in
  (ordered, sumZ (FLAG_WEIGHTS <$> ordered)).

(** The double sum of two integers is an integer. *)
Definition addPoints (a b : Z) : Z := default 0 (integerValue (nadd (num a) (num b))).

Definition bucketIndex (b : AgeBucket) : Z :=
  match b with age_0_30 => 0 | age_31_60 => 1 | age_61_90 => 2 | age_over_90 => 3 end.

Definition bucketName (b : AgeBucket) : string :=
  match b with age_0_30 => "0-30" | age_31_60 => "31-60" | age_61_90 => "61-90" | age_over_90 => "90+" end.

Definition statusName (s : PriorityStatus) : string :=
  match s with st_disputed => "disputed" | st_broken_promise => "broken_promise" | st_promised => "promised" | st_open => "open" end.

Definition totalOf (c : PriorityComponents) : Z :=
  addPoints (addPoints (addPoints (cp_agePoints c) (cp_sizePoints c)) (cp_flagPoints c)) (cp_statusPoints c).

Definition renderExpression (c : PriorityComponents) : string :=
  let flagTerms := match cp_flags c with
    | [] => "none"
    | flags => String.concat "," ((fun f => f +:+ "(" +:+ (if decide (FLAG_WEIGHTS f > -1) then "+" else "") +:+ show_Z (FLAG_WEIGHTS f) +:+ ")") <$> flags)
    end in
  let statusSign := if decide (cp_statusPoints c > 0) then "+" else "" in
  "priority = age:" +:+ bucketName (cp_ageBucket c) +:+ "(" +:+ show_Z (bucketIndex (cp_ageBucket c)) +:+ "*" +:+ show_Z AGE_POINTS_PER_BUCKET +:+ ")=" +:+
  show_Z (cp_agePoints c) +:+ " + size:band" +:+ show_Z (Z.of_nat (cp_sizeBand c)) +:+ "=" +:+ show_Z (cp_sizePoints c) +:+ " + flags:" +:+ flagTerms +:+ "=" +:+
  show_Z (cp_flagPoints c) +:+ " + status:" +:+ statusName (cp_status c) +:+ "(" +:+ statusSign +:+ show_Z (cp_statusPoints c) +:+ ")=" +:+ show_Z (cp_statusPoints c) +:+
  " | total " +:+ show_Z (totalOf c).

Definition hasStatus (status : string) (promises : list PromiseFact) : bool := existsb (fun p => bool_decide (pf_status p = status)) promises.

(** First match wins. *)
Definition statusOf (disputes : list DisputeFact) (promises : list PromiseFact) : PriorityStatus :=
  if decide (0 < length disputes)%nat then st_disputed
  else if hasStatus "broken" promises then st_broken_promise
  else if hasStatus "pending" promises then st_promised
  else st_open.

Section priorities.
  Context (Date_parse : string -> option Z).

Definition validatePrioritiesQuery (query : PrioritiesQuery) (clock : Clock) : result PrioritiesContext :=
  let now := clock 0%nat in
  orgId ← assertUuidRef (pq_orgId query);
  refuse (length (pq_receivables query) = 0%nat) with "AGENT_INPUT_EMPTY" ;;
  receivablesById ← foldM (admitKeyed (assertReceivableFact Date_parse) af_orgId af_receivableId "AGENT_RECEIVABLE_DUPLICATE" orgId (fun _ => Ok tt)) []
                      (pq_receivables query);
  customersByCustomerId ← foldM (admitKeyed assertCustomerFact cf_orgId cf_customerId "AGENT_CUSTOMER_DUPLICATE" orgId (fun _ => Ok tt)) []
                            (pq_customers query);
  '(promisesBy, _) ← foldM (admitPromise Date_parse orgId receivablesById) ([], []) (pq_promises query);
  '(disputesBy, _) ← foldM (admitDispute Date_parse orgId receivablesById) ([], []) (pq_disputes query);
  let openReceivables := List.filter isCollectible receivablesById.*2 in
  refuse (1 < length (distinct (af_currency <$> openReceivables)))%nat with "AGENT_CURRENCY_MISMATCH" ;;
  sizeBands ← assertSizeBands (pq_sizeBands query);
  Ok (MkContext orgId now openReceivables receivablesById customersByCustomerId promisesBy disputesBy sizeBands).

(** The components of a receivable's score, given the customer's fact and the facts about it. *)
Definition componentsFrom (now : Date) (bands : list band) (customer : option CustomerFact) (disputes : list DisputeFact)
    (promises : list PromiseFact) (r : ReceivableFact) : PriorityComponents :=
  let ageDays := ageDaysOf Date_parse (af_dueDate r) now in
  let bucket := ageBucketOf ageDays in
  let '(sizeBand, sizePoints) := sizePointsOf (balanceMinorOf r) bands in
  let '(flags, flagPoints) := flagPointsOf (default [] (customer ≫= cf_flags)) in
  let status := statusOf disputes promises in
  MkComponents ageDays bucket (AGE_POINTS_PER_BUCKET * bucketIndex bucket) sizeBand sizePoints flags flagPoints status (STATUS_POINTS status).

Definition disputesOf (context : PrioritiesContext) (r : ReceivableFact) : list DisputeFact :=
  default [] (mapGet (px_openDisputesByReceivableId context) (af_receivableId r)).
Definition promisesOf (context : PrioritiesContext) (r : ReceivableFact) : list PromiseFact :=
  default [] (mapGet (px_promisesByReceivableId context) (af_receivableId r)).
Definition customerOf (context : PrioritiesContext) (r : ReceivableFact) : option CustomerFact :=
  mapGet (px_customersByCustomerId context) (af_customerId r).

(** The score is [totalOf] the components. *)
Definition scoreReceivable (context : PrioritiesContext) (r : ReceivableFact) : Z * PriorityComponents :=
  let c := componentsFrom (px_now context) (px_sizeBands context) (customerOf context r) (disputesOf context r) (promisesOf context r) r in
  (totalOf c, c).

Definition dueTime (r : ReceivableFact) : Z := default 0 (Date_parse (af_dueDate r)).

Notation scored := (ReceivableFact * (Z * PriorityComponents))%type.

Definition rankOrder (a b : scored) : Z :=
  if decide (a.2.1 <> b.2.1) then b.2.1 - a.2.1
  else if decide (balanceMinorOf a.1 <> balanceMinorOf b.1) then (if decide (balanceMinorOf a.1 > balanceMinorOf b.1) then -1 else 1)
  else if decide (dueTime a.1 <> dueTime b.1) then dueTime a.1 - dueTime b.1
  else if decide (string_cmp (af_receivableId a.1) (af_receivableId b.1) < 0) then -1 else 1.

Definition answerFrom (orgId : Uuid) (customer : option CustomerFact) (disputes : list DisputeFact) (promises : list PromiseFact)
    (i : nat) (x : scored) : ReceivablePriorityAnswer :=
  let '(r, (score, components)) := x in
  let evidence := receivableRefs r ++ mjoin (disputeRefs <$> disputes) ++ mjoin (promiseRefs <$> promises) ++
    match customer with None => [] | Some c => default [] (cf_evidenceIds c) end in
  MkPriority (af_receivableId r) orgId (af_customerId r) (af_currency r) (balanceMinorOf r) (af_originalMinor r) (af_dueDate r)
    (bool_decide (af_overdue r = Some true)) (Z.of_nat i + 1) score components (renderExpression components) (distinct evidence).

Definition rankReceivables (context : PrioritiesContext) : list ReceivablePriorityAnswer :=
  imap (fun i x => answerFrom (px_orgId context) (customerOf context x.1) (disputesOf context x.1) (promisesOf context x.1) i x)
    (sort_by rankOrder ((fun r => (r, scoreReceivable context r)) <$> px_openReceivables context)).

Definition receivablePriorities (query : PrioritiesQuery) (clock : Clock) : result (list ReceivablePriorityAnswer) :=
  context ← validatePrioritiesQuery query clock;
  Ok (rankReceivables context).

End priorities.

(** ** The bands *)

(** Lower bounds ascend from 0, points are safe and not negative. *)
Definition bands_wf (bands : list band) : Prop :=
  (fst <$> head bands) = Some 0 /\ StronglySorted (fun a b => a.1 < b.1) bands /\ Forall (fun b => 0 <= b.2 <= MAX_SAFE_INTEGER) bands.

Lemma assertBandsFrom_Ok bs : forall previous bands, assertBandsFrom previous bs = Ok bands ->
  StronglySorted (fun a b : band => a.1 < b.1) bands /\ Forall (fun b : band => 0 <= b.2 <= MAX_SAFE_INTEGER) bands /\
  bands.*1 = zb_minMinor <$> bs /\
  match previous, bs with
  | None, b :: _ => zb_minMinor b = 0
  | Some p, _ => Forall (fun b : band => p < b.1) bands
  | None, [] => True
  end.
Proof.
  induction bs as [|b bs IH]; intros previous bands H; cbn [assertBandsFrom] in H.
  { injection H as <-. split_and!; try constructor. by destruct previous. }
  apply guard_Ok in H as [_ H]. destruct (safeInteger (zb_points b)) as [points|] eqn:Ep; [|done].
  apply guard_Ok in H as [Hp H]. apply guard_Ok in H as [Hprev H]. apply bind_Ok in H as (rest & Hrest & [= <-]).
  apply IH in Hrest as (Hs & Hf & Hk & Hr). apply safeInteger_bound in Ep.
  split; [by constructor|]. split; [constructor; [cbn; lia|done]|]. split; [cbn; by rewrite Hk|].
  destruct previous as [p|].
  - apply not_true_is_false, Z.leb_gt in Hprev. constructor; [cbn; lia|]. eapply Forall_impl; [exact Hr|]. cbn. intros; lia.
  - apply not_true_is_false, negb_false_iff, Z.eqb_eq in Hprev. done.
Qed.

Lemma assertSizeBands_Ok o bands : assertSizeBands o = Ok bands -> bands_wf bands.
Proof.
  unfold assertSizeBands. destruct o as [bs|].
  - intros H. apply guard_Ok in H as [Hne H]. apply assertBandsFrom_Ok in H as (Hs & Hf & Hk & Hr). split; [|done].
    destruct bs as [|b bs]; [done|]. destruct bands as [|x bands]; [done|]. injection Hk as E _. cbn. by rewrite E, Hr.
  - intros [= <-]. split; [done|]. split; [|by repeat constructor]. repeat (constructor; [|repeat (constructor; [done|]); constructor]). constructor.
Qed.

Lemma bandOf_from balance bands : forall i current, StronglySorted (fun a b : band => a.1 < b.1) bands ->
  let k := bandOf balance i current bands in
  (k = current /\ Forall (fun b : band => balance < b.1) bands) \/
  (exists j b, k = (i + j)%nat /\ bands !! j = Some b /\ b.1 <= balance /\ forall j' b', (j < j')%nat -> bands !! j' = Some b' -> balance < b'.1).
Proof.
  induction bands as [|b bands IH]; intros i current Hs; cbn [bandOf]; [by left; split; [done|constructor]|].
  inversion Hs as [|? ? Hs' Hb]; subst. destruct (IH (S i) (if b.1 <=? balance then i else current) Hs') as [[-> Hf]|(j & b' & -> & Hj & Hle & Hn)].
  - destruct (Z.leb_spec b.1 balance).
    + right. exists 0%nat, b. split; [lia|]. split; [done|]. split; [done|]. intros j' b' Hj' Hb'. destruct j' as [|j']; [lia|].
      rewrite Forall_lookup in Hf. by eapply Hf.
    + left. split; [done|]. constructor; [done|]. done.
  - right. exists (S j), b'. split; [lia|]. split; [done|]. split; [done|]. intros [|j'] c Hj' Hc; [lia|]. eapply (Hn j'); [lia|done].
Qed.

(** The band of a balance is the one whose range it lies in. *)
Lemma sizePointsOf_exact balance bands : bands_wf bands -> 0 <= balance ->
  exists low points, bands !! (sizePointsOf balance bands).1 = Some (low, points) /\ (sizePointsOf balance bands).2 = points /\ low <= balance /\
    forall j next, ((sizePointsOf balance bands).1 < j)%nat -> bands !! j = Some next -> balance < next.1.
Proof.
  intros (Hh & Hs & _) Hb. unfold sizePointsOf. cbn [fst snd]. destruct (bandOf_from balance bands 0 0 Hs) as [[_ Hf]|(j & b & Hk & Hj & Hle & Hn)].
  - exfalso. destruct bands as [|[low p] bands]; [done|]. cbn in Hh. injection Hh as ->. inversion Hf; subst. cbn in *. lia.
  - rewrite Hk. cbn [Nat.add]. destruct b as [low points]. exists low, points. rewrite Hj. done.
Qed.

(** ** The score *)

Lemma addPoints_exact a b : - 2 ^ 53 < a < 2 ^ 53 -> - 2 ^ 53 < b < 2 ^ 53 -> - 2 ^ 53 < a + b < 2 ^ 53 -> addPoints a b = a + b.
Proof. intros Ha Hb Hab. unfold addPoints. rewrite nadd_signed by done. by rewrite integerValue_signed. Qed.

Lemma flagPoints_bounds flags : -6 <= (flagPointsOf flags).2 <= 26.
Proof.
  unfold flagPointsOf. cbn [snd AGENT_FLAGS List.filter].
  repeat match goal with |- context [bool_decide (?x ∈ flags)] => destruct (bool_decide (x ∈ flags)) end; vm_compute; done.
Qed.

Lemma statusPoints_bounds s : -10 <= STATUS_POINTS s <= 12.
Proof. destruct s; cbn; lia. Qed.

Lemma bucketIndex_bounds b : 0 <= bucketIndex b <= 3.
Proof. destruct b; cbn; lia. Qed.

(** Below the last hundred safe integers, the score is the sum of the four components. *)
Lemma totalOf_exact Date_parse now bands customer disputes promises r : bands_wf bands -> Forall (fun b => b.2 <= 2 ^ 53 - 100) bands -> 0 <= balanceMinorOf r ->
  let c := componentsFrom Date_parse now bands customer disputes promises r in
  totalOf c = cp_agePoints c + cp_sizePoints c + cp_flagPoints c + cp_statusPoints c /\ cp_agePoints c = 10 * bucketIndex (cp_ageBucket c).
Proof.
  intros Hw Hbig Hb c. unfold c, componentsFrom.
  destruct (sizePointsOf_exact (balanceMinorOf r) bands Hw Hb) as (low & points & Hl & Hp & _).
  destruct (sizePointsOf (balanceMinorOf r) bands) as [i p] eqn:Es. cbn [fst snd] in Hl, Hp. subst p.
  pose proof (flagPoints_bounds (default [] (customer ≫= cf_flags))) as Hf.
  destruct (flagPointsOf (default [] (customer ≫= cf_flags))) as [fl fp]. cbn [snd] in Hf.
  pose proof (statusPoints_bounds (statusOf disputes promises)) as Hst. pose proof (bucketIndex_bounds (ageBucketOf (ageDaysOf Date_parse (af_dueDate r) now))) as Hbi.
  assert (0 <= points <= 2 ^ 53 - 100) as Hpt.
  { destruct Hw as (_ & _ & Hw). rewrite Forall_lookup in Hw, Hbig. specialize (Hw i _ Hl). specialize (Hbig i _ Hl). cbn in *. lia. }
  unfold totalOf. cbn [cp_agePoints cp_sizePoints cp_flagPoints cp_statusPoints cp_ageBucket]. unfold AGE_POINTS_PER_BUCKET. split; [|done].
  rewrite (addPoints_exact _ points) by lia. rewrite (addPoints_exact _ fp) by lia. apply addPoints_exact; lia.
Qed.

(** ** When a query is ranked *)

Section theorems.
  Context (Date_parse : string -> option Z).
  Implicit Types q : PrioritiesQuery.

Definition ranked_facts q : list ReceivableFact := List.filter isCollectible (pq_receivables q).

Record priorities_valid q : Prop := {
  pqv_org : UUID_PATTERN (pq_orgId q) = true;
  pqv_some : pq_receivables q <> [];
  pqv_receivables : Forall (fun f => receivable_valid Date_parse f /\ af_orgId f = pq_orgId q) (pq_receivables q);
  pqv_customers : Forall (fun f => customer_valid f /\ cf_orgId f = pq_orgId q) (pq_customers q);
  pqv_promises : Forall (fun f => promise_valid Date_parse f /\ pf_orgId f = pq_orgId q) (pq_promises q);
  pqv_disputes : Forall (fun f => dispute_valid Date_parse f /\ df_orgId f = pq_orgId q) (pq_disputes q);
  pqv_receivable_ids : NoDup (af_receivableId <$> pq_receivables q);
  pqv_customer_ids : NoDup (cf_customerId <$> pq_customers q);
  pqv_promise_ids : NoDup (pf_promiseId <$> pq_promises q);
  pqv_dispute_ids : NoDup (df_disputeId <$> pq_disputes q);
  pqv_currency : (length (distinct (af_currency <$> ranked_facts q)) <= 1)%nat;
}.

(** The context the facts make. *)
Definition context_of q (now : Date) (bands : list band) : PrioritiesContext :=
  let ids := af_receivableId <$> pq_receivables q in
  MkContext (pq_orgId q) now (ranked_facts q) ((fun f => (af_receivableId f, f)) <$> pq_receivables q)
    ((fun f => (cf_customerId f, f)) <$> pq_customers q)
    (foldl (group pf_receivableId) [] (List.filter (fun f => bool_decide (pf_receivableId f ∈ ids)) (pq_promises q)))
    (foldl (group df_receivableId) [] (List.filter (fun f => df_open f && bool_decide (df_receivableId f ∈ ids)) (pq_disputes q))) bands.

Lemma keyed_values {F} (idOf : F -> Uuid) (l : list F) : ((fun f => (idOf f, f)) <$> l).*2 = l.
Proof. rewrite <- list_fmap_compose. apply list_fmap_id. Qed.

(** The query is ranked exactly when every fact is valid, of the organisation and supplied
    once, the open receivables share a currency, and the bands are well formed. *)
Lemma validatePrioritiesQuery_Ok q clock context : validatePrioritiesQuery Date_parse q clock = Ok context <->
  priorities_valid q /\ exists bands, assertSizeBands (pq_sizeBands q) = Ok bands /\ context = context_of q (clock 0%nat) bands.
Proof.
  unfold validatePrioritiesQuery. assertions. unfold id, admitPromise, admitDispute.
  rewrite (admitKeyed_bind (assertReceivableFact Date_parse) _ _ _ _ (receivable_valid Date_parse)).
  rewrite (admitKeyed_bind assertCustomerFact _ _ _ _ customer_valid).
  rewrite (admitRelated_bind (assertPromiseFact Date_parse) _ _ _ _ (promise_valid Date_parse)).
  rewrite (admitRelated_bind (assertDisputeFact Date_parse) _ _ _ _ (dispute_valid Date_parse)).
  rewrite (filter_ext _ (fun f => bool_decide (pf_receivableId f ∈ af_receivableId <$> pq_receivables q))) by (intros; apply (known_mapGet Date_parse)).
  rewrite (filter_ext _ (fun f => df_open f && bool_decide (df_receivableId f ∈ af_receivableId <$> pq_receivables q)))
    by (intros; f_equal; apply (known_mapGet Date_parse)).
  rewrite keyed_values. fold (ranked_facts q). rewrite guard_Ok, bind_Ok, length_zero_iff_nil. setoid_rewrite Forall_and. split.
  - intros (Ho & Hne & (Hr & Hro) & Hri & (Hc & Hco) & Hci & (Hp & Hpo) & Hpi & (Hd & Hdo) & Hdi & Hcur & bands & Hb & [= <-]).
    split; [|by exists bands]. split_foralls. constructor; rewrite ?Forall_and; try done. lia.
  - intros [[Ho Hne Hr Hc Hp Hd Hri Hci Hpi Hdi Hcur] (bands & Hb & ->)]. split_foralls.
    split_and!; try done; try (apply Forall_and; split; [done|by apply Forall_true]); [lia|]. by exists bands.
Qed.

(** ** The ranking *)

Definition customer_about q (r : ReceivableFact) : option CustomerFact :=
  List.find (fun c => bool_decide (cf_customerId c = af_customerId r)) (pq_customers q).

Definition components q now bands (r : ReceivableFact) : PriorityComponents :=
  componentsFrom Date_parse now bands (customer_about q r) (open_disputes_on (pq_disputes q) (af_receivableId r))
    (promises_on (pq_promises q) (af_receivableId r)) r.

Notation scored := (ReceivableFact * (Z * PriorityComponents))%type.

(** Highest score, then larger balance, then older due date, then the id. *)
Definition rank_cmp : scored -> scored -> Z :=
  then_by (fun x => - x.2.1) (then_by (fun x => - balanceMinorOf x.1) (then_by (fun x => dueTime Date_parse x.1)
    (fun a b => string_cmp (af_receivableId a.1) (af_receivableId b.1)))).

#[export] Instance rank_cmp_total : TotalComparator rank_cmp.
Proof. unfold rank_cmp. apply _. Qed.

Lemma rank_cmp_antisym (x y : scored) : rank_cmp x y <= 0 -> rank_cmp y x <= 0 -> af_receivableId x.1 = af_receivableId y.1.
Proof.
  revert x y. do 3 apply (then_by_antisym (fun x : scored => af_receivableId x.1)). intros x y. apply (string_key_antisym (fun x : scored => af_receivableId x.1)).
Qed.

Lemma rankOrder_cmp (x y : scored) : af_receivableId x.1 <> af_receivableId y.1 -> (rankOrder Date_parse x y <= 0 <-> rank_cmp x y <= 0).
Proof.
  intros Hne. unfold rankOrder, rank_cmp, then_by.
  assert (string_cmp (af_receivableId x.1) (af_receivableId y.1) <> 0) by (intros E; by apply Hne, string_cmp_eq).
  repeat case_decide; lia.
Qed.

Definition scores q now bands : list scored := (fun r => (r, (totalOf (components q now bands r), components q now bands r))) <$> ranked_facts q.

Definition ranking q now bands : list ReceivablePriorityAnswer :=
  imap (fun i x => answerFrom (pq_orgId q) (customer_about q x.1) (open_disputes_on (pq_disputes q) (af_receivableId x.1))
                     (promises_on (pq_promises q) (af_receivableId x.1)) i x)
    (sort_by rank_cmp (scores q now bands)).

Lemma context_facts q now bands r : r ∈ pq_receivables q ->
  disputesOf (context_of q now bands) r = open_disputes_on (pq_disputes q) (af_receivableId r) /\
  promisesOf (context_of q now bands) r = promises_on (pq_promises q) (af_receivableId r) /\
  customerOf (context_of q now bands) r = customer_about q r.
Proof.
  intros Hr. unfold disputesOf, promisesOf, customerOf, customer_about, context_of. cbn.
  rewrite scoped_disputes_get, scoped_promises_get, mapGet_keyed by by apply list_elem_of_fmap_2. done.
Qed.

Lemma scores_ids q now bands : (fun x : scored => af_receivableId x.1) <$> scores q now bands = af_receivableId <$> ranked_facts q.
Proof. unfold scores. by rewrite <- list_fmap_compose. Qed.

Lemma ranked_ids_NoDup q : NoDup (af_receivableId <$> pq_receivables q) -> NoDup (af_receivableId <$> ranked_facts q).
Proof. intros H. eapply sublist_NoDup; [exact H|]. apply fmap_sublist, filter_sublist. Qed.

Lemma ranked_supplied q r : r ∈ ranked_facts q -> r ∈ pq_receivables q.
Proof. by intros [? _]%elem_of_filter_bool. Qed.

Lemma rankReceivables_exact q now bands : NoDup (af_receivableId <$> pq_receivables q) ->
  rankReceivables Date_parse (context_of q now bands) = ranking q now bands.
Proof.
  intros Hnd. unfold rankReceivables, ranking. cbn [px_orgId px_openReceivables context_of].
  rewrite (list_fmap_ext _ (fun r => (r, (totalOf (components q now bands r), components q now bands r))) (ranked_facts q)).
  2:{ intros i r Hr%list_elem_of_lookup_2%ranked_supplied. unfold scoreReceivable. destruct (context_facts q now bands r Hr) as (-> & -> & ->). done. }
  fold (scores q now bands). rewrite (sort_by_ties (fun x : scored => af_receivableId x.1) _ rank_cmp).
  2:{ rewrite scores_ids. by apply ranked_ids_NoDup. }
  2:{ apply rankOrder_cmp. }
  apply imap_ext. intros i x Hx%list_elem_of_lookup_2. rewrite sort_by_perm in Hx. apply list_elem_of_fmap in Hx as (r & -> & Hr%ranked_supplied).
  cbn [fst]. by destruct (context_facts q now bands r Hr) as (-> & -> & ->).
Qed.

Lemma receivablePriorities_Ok q clock answers : receivablePriorities Date_parse q clock = Ok answers <->
  priorities_valid q /\ exists bands, assertSizeBands (pq_sizeBands q) = Ok bands /\ answers = ranking q (clock 0%nat) bands.
Proof.
  unfold receivablePriorities. rewrite bind_Ok. setoid_rewrite validatePrioritiesQuery_Ok. split.
  - intros (c & (Hq & bands & Hb & ->) & [= <-]). split; [done|]. exists bands. split; [done|]. apply rankReceivables_exact, Hq.
  - intros (Hq & bands & Hb & ->). eexists. split; [split; [done|]; by exists bands|]. rewrite rankReceivables_exact; [done|apply Hq].
Qed.

(** The documented order of the answers. *)
Definition answer_cmp : ReceivablePriorityAnswer -> ReceivablePriorityAnswer -> Z :=
  then_by (fun a => - pa_score a) (then_by (fun a => - pa_balanceMinor a) (then_by (fun a => default 0 (Date_parse (pa_dueDate a)))
    (fun a b => string_cmp (pa_subject a) (pa_subject b)))).

Lemma imap_unindexed {A B} (f : A -> B) l : imap (fun _ x => f x) l = f <$> l.
Proof. apply list_eq. intros i. by rewrite list_lookup_imap, list_lookup_fmap. Qed.

Lemma imap_sorted {A B} (R : A -> A -> Prop) (R' : B -> B -> Prop) (f : nat -> A -> B) l :
  (forall i j x y, R x y -> R' (f i x) (f j y)) -> StronglySorted R l -> StronglySorted R' (imap f l).
Proof.
  intros HR Hl. revert f HR. induction Hl as [|x l Hl IH Hx]; intros f HR; cbn; constructor.
  - apply IH. intros. by apply HR.
  - apply Forall_lookup. intros i y Hy. rewrite list_lookup_imap in Hy. destruct (l !! i) as [z|] eqn:E; [|done]. injection Hy as <-.
    apply HR. rewrite Forall_lookup in Hx. by eapply Hx.
Qed.

(** The answers rank exactly the collectible receivables, from 1 on, in the documented
    order; each shows its own balance, the components of its facts, and as its score their
    total. *)
Theorem ranking_exact q clock answers : receivablePriorities Date_parse q clock = Ok answers ->
  (pa_subject <$> answers) ≡ₚ (af_receivableId <$> ranked_facts q) /\
  pa_rank <$> answers = seqZ 1 (Z.of_nat (length answers)) /\
  StronglySorted (cmp_le answer_cmp) answers /\
  exists bands, assertSizeBands (pq_sizeBands q) = Ok bands /\
    Forall (fun a => exists r, r ∈ ranked_facts q /\ pa_subject a = af_receivableId r /\ pa_balanceMinor a = balanceMinorOf r /\
      pa_components a = components q (clock 0%nat) bands r /\ pa_score a = totalOf (pa_components a)) answers.
Proof.
  intros (Hq & bands & Hb & ->)%receivablePriorities_Ok. unfold ranking. set (l := sort_by rank_cmp (scores q (clock 0%nat) bands)).
  assert (forall x, x ∈ l -> exists r, r ∈ ranked_facts q /\ x = (r, (totalOf (components q (clock 0%nat) bands r), components q (clock 0%nat) bands r))) as Hl.
  { intros x Hx. unfold l in Hx. rewrite sort_by_perm in Hx. apply list_elem_of_fmap in Hx as (r & -> & Hr). by exists r. }
  split_and!.
  - rewrite fmap_imap. transitivity ((fun x : scored => af_receivableId x.1) <$> l).
    + rewrite (imap_ext _ (fun _ (x : scored) => af_receivableId x.1)); [by rewrite imap_unindexed|]. by intros i [r [s c]] _.
    + unfold l. rewrite sort_by_perm. by rewrite scores_ids.
  - rewrite length_imap. apply list_eq. intros i. rewrite list_lookup_fmap, list_lookup_imap.
    destruct (l !! i) as [[r [s c]]|] eqn:E; cbn.
    + apply lookup_lt_Some in E. rewrite lookup_seqZ_lt by lia. f_equal. lia.
    + apply lookup_ge_None in E. by rewrite lookup_seqZ_ge by lia.
  - apply (imap_sorted (cmp_le rank_cmp)); [|apply (sort_by_sorted rank_cmp)]. intros i j [r [s c]] [r' [s' c']]. done.
  - exists bands. split; [done|]. apply Forall_lookup. intros i a Ha. rewrite list_lookup_imap in Ha.
    destruct (l !! i) as [x|] eqn:E; [|done]. injection Ha as <-. apply list_elem_of_lookup_2, Hl in E as (r & Hr & ->). by exists r.
Qed.

(** Scores show the published expression: with bands below the last hundred safe integers,
    the sum of the four components, ten points for each step of age. *)
Theorem scores_are_the_expression q clock answers bands : receivablePriorities Date_parse q clock = Ok answers ->
  assertSizeBands (pq_sizeBands q) = Ok bands -> Forall (fun b => b.2 <= 2 ^ 53 - 100) bands ->
  Forall (fun a => let c := pa_components a in
    pa_score a = cp_agePoints c + cp_sizePoints c + cp_flagPoints c + cp_statusPoints c /\ cp_agePoints c = 10 * bucketIndex (cp_ageBucket c) /\
    exists low, bands !! cp_sizeBand c = Some (low, cp_sizePoints c) /\ low <= pa_balanceMinor a /\
      forall j next, (cp_sizeBand c < j)%nat -> bands !! j = Some next -> pa_balanceMinor a < next.1) answers.
Proof.
  intros (Hq & bands' & Hb' & ->)%receivablePriorities_Ok Hb Hbig. rewrite Hb in Hb'. injection Hb' as <-.
  pose proof (assertSizeBands_Ok _ _ Hb) as Hw. unfold ranking. apply Forall_lookup. intros i a Ha. rewrite list_lookup_imap in Ha.
  destruct (sort_by rank_cmp _ !! i) as [x|] eqn:E; [|done]. injection Ha as <-. apply list_elem_of_lookup_2 in E. rewrite sort_by_perm in E.
  apply list_elem_of_fmap in E as (r & -> & Hr). apply elem_of_filter_bool in Hr as [_ Hr]. unfold isCollectible in Hr.
  assert (0 <= balanceMinorOf r) as H0 by (apply andb_true_iff in Hr as [_ Hr]; lia). cbn [answerFrom pa_components pa_score pa_balanceMinor].
  destruct (totalOf_exact Date_parse (clock 0%nat) bands (customer_about q r) (open_disputes_on (pq_disputes q) (af_receivableId r))
    (promises_on (pq_promises q) (af_receivableId r)) r Hw Hbig H0) as [Ht Ha]. split; [exact Ht|]. split; [exact Ha|].
  destruct (sizePointsOf_exact (balanceMinorOf r) bands Hw H0) as (low & points & Hl & Hp & Hle & Hn). exists low.
  unfold components, componentsFrom. destruct (sizePointsOf (balanceMinorOf r) bands) as [k p]. cbn [fst snd] in *. subst p.
  destruct (flagPointsOf _). done.
Qed.

(** The same query with its facts supplied in another order. *)
Record reordered q q' : Prop := {
  ro_org : pq_orgId q' = pq_orgId q;
  ro_receivables : pq_receivables q ≡ₚ pq_receivables q';
  ro_customers : pq_customers q ≡ₚ pq_customers q';
  ro_promises : pq_promises q' = pq_promises q;
  ro_disputes : pq_disputes q' = pq_disputes q;
  ro_bands : pq_sizeBands q' = pq_sizeBands q;
}.

Lemma find_perm {A K} `{EqDecision K} (key : A -> K) l l' k : NoDup (key <$> l) -> l ≡ₚ l' ->
  List.find (fun x => bool_decide (key x = k)) l = List.find (fun x => bool_decide (key x = k)) l'.
Proof.
  intros Hnd Hp. assert (forall l0 x, NoDup (key <$> l0) -> (List.find (fun x => bool_decide (key x = k)) l0 = Some x <-> x ∈ l0 /\ key x = k)) as Hf.
  { clear. intros l0 x. induction l0 as [|y l0 IH]; intros Hnd; cbn; [set_solver|]. rewrite fmap_cons in Hnd. apply NoDup_cons in Hnd as [Hy Hnd].
    case_bool_decide as E.
    - split; [intros [= ->]; set_solver|]. intros [[->|Hx]%elem_of_cons Hk]; [done|]. exfalso. apply Hy. rewrite E, <- Hk. by apply list_elem_of_fmap_2.
    - rewrite IH by done. set_solver. }
  apply option_eq. intros x. rewrite !Hf; [by rewrite Hp|by rewrite <- Hp|done].
Qed.

#[export] Instance reordered_sym : Symmetric reordered.
Proof. intros q q' []. by constructor. Qed.

Lemma reordered_valid q q' : reordered q q' -> priorities_valid q -> priorities_valid q'.
Proof.
  intros [Eo Er Ec Ep Ed Eb] [Ho Hne Hr Hc Hp Hd Hri Hci Hpi Hdi Hcur]. constructor; rewrite ?Eo, ?Ep, ?Ed, <- ?Er, <- ?Ec; try done.
  - intros E. rewrite E in Er. by apply Hne, Permutation_nil_r.
  - assert (distinct (af_currency <$> ranked_facts q) ≡ₚ distinct (af_currency <$> ranked_facts q')) as <-; [|done].
    apply NoDup_Permutation; [apply distinct_NoDup..|]. intros c. rewrite !distinct_elem. unfold ranked_facts. by rewrite Er.
Qed.

Lemma reordered_ranking q q' now bands : reordered q q' -> priorities_valid q -> ranking q' now bands = ranking q now bands.
Proof.
  intros Hr Hq. assert (forall r, customer_about q' r = customer_about q r) as Hcust.
  { intros r. symmetry. apply (find_perm cf_customerId); [apply Hq|apply Hr]. }
  assert (sort_by rank_cmp (scores q' now bands) = sort_by rank_cmp (scores q now bands)) as Hs.
  { symmetry. apply (sort_by_unique rank_cmp (fun x : scored => af_receivableId x.1)); [apply rank_cmp_antisym| |].
    - rewrite scores_ids. apply ranked_ids_NoDup, Hq.
    - unfold scores, ranked_facts. rewrite <- (ro_receivables _ _ Hr). apply Permutation_refl', list_fmap_ext. intros i r _.
      unfold components. by rewrite Hcust, (ro_promises _ _ Hr), (ro_disputes _ _ Hr). }
  unfold ranking. rewrite Hs, (ro_org _ _ Hr), (ro_promises _ _ Hr), (ro_disputes _ _ Hr). apply imap_ext. intros i x _. by rewrite Hcust.
Qed.

Lemma reordered_answers q q' clock answers : reordered q q' ->
  receivablePriorities Date_parse q clock = Ok answers -> receivablePriorities Date_parse q' clock = Ok answers.
Proof.
  intros Hr (Hq & bands & Hb & ->)%receivablePriorities_Ok. apply receivablePriorities_Ok. split; [by eapply reordered_valid|].
  exists bands. rewrite (ro_bands _ _ Hr), (reordered_ranking q q') by done. done.
Qed.

(** The list depends on the facts, not on the order in which receivables and customers are
    supplied. *)
Theorem ranking_ignores_supply_order q q' clock answers : reordered q q' ->
  (receivablePriorities Date_parse q clock = Ok answers <-> receivablePriorities Date_parse q' clock = Ok answers).
Proof. intros Hr. split; apply reordered_answers; [done|by symmetry]. Qed.

End theorems.

(** ** An example *)

Definition sample_priorities (receivables : list ReceivableFact) : PrioritiesQuery :=
  MkPrioritiesQuery (sample_agent_id "01") receivables
    [MkCustomerFact (sample_agent_id "01") (sample_agent_id "03") None None (Some ["unresponsive"; "slow_payer"; "slow_payer"]) None]
    [MkPromiseFact (sample_agent_id "01") (sample_agent_id "31") (sample_agent_id "11") "pending" (Some "2025-09-10T00:00:00Z") None None]
    [MkDisputeFact (sample_agent_id "01") (sample_agent_id "41") (sample_agent_id "12") true None None None] None.

Definition sample_ranked : list ReceivableFact :=
  [sample_debt_fact "11" "KES" 900 100 "2025-08-01T00:00:00Z"; sample_debt_fact "12" "KES" 5000000 0 "2025-06-01T00:00:00Z";
   sample_debt_fact "13" "KES" 700 700 "2025-06-01T00:00:00Z"].

Lemma ranking_exact_witness : exists answers,
  receivablePriorities Date_parse_iso (sample_priorities sample_ranked) sample_now = Ok answers /\
  pa_rank <$> answers = seqZ 1 (Z.of_nat (length answers)) /\
  (fun a => (pa_subject a, pa_score a, pa_expression a)) <$> answers =
    [(sample_agent_id "12", 61, "priority = age:90+(3*10)=30 + size:band2=8 + flags:slow_payer(+6),unresponsive(+5)=11 + status:disputed(+12)=12 | total 61");
     (sample_agent_id "11", 11, "priority = age:31-60(1*10)=10 + size:band0=0 + flags:slow_payer(+6),unresponsive(+5)=11 + status:promised(-10)=-10 | total 11")].
Proof.
  eexists. split; [vm_compute; reflexivity|]. split.
  - refine (proj1 (proj2 (ranking_exact Date_parse_iso (sample_priorities sample_ranked) sample_now _ _))). vm_compute. reflexivity.
  - vm_compute. reflexivity.
Defined.

Lemma scores_are_the_expression_witness : exists answers,
  receivablePriorities Date_parse_iso (sample_priorities sample_ranked) sample_now = Ok answers /\
  Forall (fun a => pa_score a = cp_agePoints (pa_components a) + cp_sizePoints (pa_components a) + cp_flagPoints (pa_components a) + cp_statusPoints (pa_components a)) answers.
Proof.
  eexists. split; [vm_compute; reflexivity|].
  eapply Forall_impl.
  - apply (scores_are_the_expression Date_parse_iso (sample_priorities sample_ranked) sample_now _ DEFAULT_SIZE_BANDS); [vm_compute; reflexivity|reflexivity|].
    repeat (constructor; [done|]). constructor.
  - intros a (H & _). exact H.
Defined.

Lemma ranking_ignores_supply_order_witness : exists answers,
  receivablePriorities Date_parse_iso (sample_priorities (reverse sample_ranked)) sample_now = Ok answers /\ pa_subject <$> answers = [sample_agent_id "12"; sample_agent_id "11"].
Proof.
  eexists. split.
  - apply (ranking_ignores_supply_order Date_parse_iso (sample_priorities sample_ranked) (sample_priorities (reverse sample_ranked)) sample_now);
      [|vm_compute; reflexivity]. constructor; try reflexivity. symmetry. apply reverse_Permutation.
  - vm_compute. reflexivity.
Defined.
