(* ===== verification/AgentRecommendations.v ===== *)
(** * Collection recommendations

    src/domain/agent/recommendations.ts: the first-match-wins matrix over the ranked
    receivables that maps each high-priority one to a capability of the platform.

    The texts [confidenceBasis] and [reasons] are left out; the rule and the evidence it adds
    are not. *)

From stdpp Require Import prelude strings list sorting.
From Stdlib Require Import ZArith Lia.
From S2P Require Import Prelude JsNumber JsString JsDate JsMap IsoDate Money Events Fx AgentFacts AgentState AgentPriorities.
Local Open Scope string_scope.
Local Open Scope list_scope.
Local Open Scope Z_scope.
Local Open Scope js_scope.

Definition HIGH_PRIORITY_MIN_SCORE : Z := 30.
Definition LARGE_EXPOSURE_MINOR : Z := 5000000.

Inductive RecommendationCapability := offer_payment_plan | send_payment_link | human_review | do_nothing_yet.
#[export] Instance RecommendationCapability_eq_dec : EqDecision RecommendationCapability.
Proof. solve_decision. Defined.

Inductive RecommendationRule :=
| dispute_open | credit_covers_balance | not_yet_due | promise_pending_future | promise_failed
| aged_90_plus | customer_unresponsive | large_stale_balance | default_self_serve.
#[export] Instance RecommendationRule_eq_dec : EqDecision RecommendationRule.
Proof. solve_decision. Defined.

Record RecommendationsQuery := MkRecommendationsQuery {
  rq_priorities : PrioritiesQuery;
  rq_highPriorityMinScore : option number;
}.

Record CollectionRecommendationAnswer := MkRecommendation {
  ra_subject : Uuid;
  ra_orgId : Uuid;
  ra_customerId : Uuid;
  ra_recommended : RecommendationCapability;
  ra_rule : RecommendationRule;
  ra_priorityRank : Z;
  ra_priorityScore : Z;
  ra_evidenceIds : list Uuid;
}.

Definition creditCovers (customer : option CustomerFact) (item : ReceivablePriorityAnswer) : bool :=
  match customer with
  | Some c =>
      match cf_creditBalanceMinor c with
      | Some credit => bool_decide (cf_creditCurrency c = Some (pa_currency item)) && (pa_balanceMinor item <=? credit)
      | None => false
      end
  | None => false
  end.

Section recommendations.
  Context (Date_parse : string -> option Z).

(** [new Date(s).getTime() > now.getTime()] on a validated date. *)
Definition isAfter (s : string) (now : Date) : bool := now <? default 0 (Date_parse s).

(** The chain of tests, with the capability, the rule and the evidence it adds. *)
Definition matrix (now : Date) (customer : option CustomerFact) (disputes : list DisputeFact) (promises : list PromiseFact)
    (item : ReceivablePriorityAnswer) : RecommendationCapability * RecommendationRule * list Uuid :=
  let pending := List.find (fun p => bool_decide (pf_status p = "pending")) promises in
  let broken := List.find (fun p => bool_decide (pf_status p = "broken")) promises in
  let promisedDate := pending ≫= pf_promisedDate in
  let bucket := cp_ageBucket (pa_components item) in
  if decide (0 < length disputes)%nat then (human_review, dispute_open, df_disputeId <$> disputes)
  else if creditCovers customer item then (do_nothing_yet, credit_covers_balance, [pa_customerId item])
  else if isAfter (pa_dueDate item) now then (do_nothing_yet, not_yet_due, [])
  else if (match promisedDate with Some d => isAfter d now | None => false end)
  then (do_nothing_yet, promise_pending_future, match pending with Some p => [pf_promiseId p] | None => [] end)
  else if bool_decide (is_Some broken) || match promisedDate with Some d => negb (isAfter d now) | None => false end
  then (offer_payment_plan, promise_failed,
        match broken with Some p => [pf_promiseId p] | None => match pending with Some p => [pf_promiseId p] | None => [] end end)
  else if decide (bucket = age_over_90) then (human_review, aged_90_plus, [])
  else if decide ("unresponsive" ∈ cp_flags (pa_components item)) then (human_review, customer_unresponsive, [])
  else if decide ((bucket = age_31_60 \/ bucket = age_61_90) /\ LARGE_EXPOSURE_MINOR <= pa_balanceMinor item)
  then (offer_payment_plan, large_stale_balance, [])
  else (send_payment_link, default_self_serve, []).

Definition isDisputed (item : ReceivablePriorityAnswer) : bool := bool_decide (cp_status (pa_components item) = st_disputed).

Definition recommend (now : Date) (customer : option CustomerFact) (disputes : list DisputeFact) (promises : list PromiseFact)
    (item : ReceivablePriorityAnswer) : CollectionRecommendationAnswer :=
  let '(recommended, rule, ruleEvidence) := matrix now customer disputes promises item in
  MkRecommendation (pa_subject item) (pa_orgId item) (pa_customerId item) recommended rule (pa_rank item) (pa_score item)
    (distinct (pa_evidenceIds item ++ ruleEvidence)).

Definition assertThreshold (threshold : option number) : result Z :=
  match threshold with
  | None => Ok HIGH_PRIORITY_MIN_SCORE
  | Some t => match safeInteger t with None => Err (DomainError "AGENT_THRESHOLD_INVALID") | Some z => Ok z end
  end.

Definition collectionRecommendations (query : RecommendationsQuery) (clock : Clock) : result (list CollectionRecommendationAnswer) :=
  highPriorityMinScore ← assertThreshold (rq_highPriorityMinScore query);
  context ← validatePrioritiesQuery Date_parse (rq_priorities query) clock;
  let ranked := rankReceivables Date_parse context in
  Ok ((fun item => recommend (px_now context)
         (mapGet (px_customersByCustomerId context) (pa_customerId item))
         (default [] (mapGet (px_openDisputesByReceivableId context) (pa_subject item)))
         (default [] (mapGet (px_promisesByReceivableId context) (pa_subject item))) item) <$>
      List.filter (fun item => negb (pa_score item <? highPriorityMinScore) || isDisputed item) ranked).

Definition validateRecommendationsQuery (query : RecommendationsQuery) (clock : Clock) : result PrioritiesContext :=
  _ ← assertThreshold (rq_highPriorityMinScore query);
  validatePrioritiesQuery Date_parse (rq_priorities query) clock.

End recommendations.

(** ** The documented matrix *)

Definition rule_index (r : RecommendationRule) : nat :=
  match r with
  | dispute_open => 0 | credit_covers_balance => 1 | not_yet_due => 2 | promise_pending_future => 3 | promise_failed => 4
  | aged_90_plus => 5 | customer_unresponsive => 6 | large_stale_balance => 7 | default_self_serve => 8
  end.

Definition capability_of (r : RecommendationRule) : RecommendationCapability :=
  match r with
  | dispute_open => human_review
  | credit_covers_balance => do_nothing_yet
  | not_yet_due => do_nothing_yet
  | promise_pending_future => do_nothing_yet
  | promise_failed => offer_payment_plan
  | aged_90_plus => human_review
  | customer_unresponsive => human_review
  | large_stale_balance => offer_payment_plan
  | default_self_serve => send_payment_link
  end.

Section theorems.
  Context (Date_parse : string -> option Z).
  Implicit Types q : PrioritiesQuery.

(** The date of the first pending promise. *)
Definition commitment (promises : list PromiseFact) : option string :=
  List.find (fun p => bool_decide (pf_status p = "pending")) promises ≫= pf_promisedDate.

Definition time_of (s : string) : Z := default 0 (Date_parse s).

(** When a rule of the matrix applies to a ranked receivable. *)
Definition rule_holds (now : Date) (customer : option CustomerFact) (disputes : list DisputeFact) (promises : list PromiseFact)
    (item : ReceivablePriorityAnswer) (rule : RecommendationRule) : Prop :=
  match rule with
  | dispute_open => disputes <> []
  | credit_covers_balance => exists c credit, customer = Some c /\ cf_creditBalanceMinor c = Some credit /\
      cf_creditCurrency c = Some (pa_currency item) /\ pa_balanceMinor item <= credit
  | not_yet_due => now < time_of (pa_dueDate item)
  | promise_pending_future => exists d, commitment promises = Some d /\ now < time_of d
  | promise_failed => (exists p, p ∈ promises /\ pf_status p = "broken") \/ exists d, commitment promises = Some d /\ time_of d <= now
  | aged_90_plus => cp_ageBucket (pa_components item) = age_over_90
  | customer_unresponsive => "unresponsive" ∈ cp_flags (pa_components item)
  | large_stale_balance => (cp_ageBucket (pa_components item) = age_31_60 \/ cp_ageBucket (pa_components item) = age_61_90) /\
      LARGE_EXPOSURE_MINOR <= pa_balanceMinor item
  | default_self_serve => True
  end.

Lemma creditCovers_spec customer item : creditCovers customer item = true <->
  exists c credit, customer = Some c /\ cf_creditBalanceMinor c = Some credit /\ cf_creditCurrency c = Some (pa_currency item) /\ pa_balanceMinor item <= credit.
Proof.
  unfold creditCovers. destruct customer as [c|]; [|naive_solver]. destruct (cf_creditBalanceMinor c) as [credit|] eqn:E; [|naive_solver].
  rewrite andb_true_iff, bool_decide_eq_true, Z.leb_le. naive_solver.
Qed.

Lemma find_Some_ex {A} (f : A -> bool) l : is_Some (List.find f l) <-> exists x, x ∈ l /\ f x = true.
Proof.
  split.
  - intros [x [Hx Hf]%find_some]. exists x. split; [by apply list_elem_of_In|done].
  - intros (x & Hx & Hf). destruct (List.find f l) eqn:E; [done|]. by rewrite (proj1 (find_None_iff f l) E x Hx) in Hf.
Qed.

(** The chain picks the first rule that applies, and its capability. *)
Lemma matrix_first_match now customer disputes promises item :
  let '(capability, rule, _) := matrix Date_parse now customer disputes promises item in
  capability = capability_of rule /\ rule_holds now customer disputes promises item rule /\
  forall earlier, (rule_index earlier < rule_index rule)%nat -> ~ rule_holds now customer disputes promises item earlier.
Proof.
  unfold matrix. fold (commitment promises).
  assert ((0 < length disputes)%nat <-> rule_holds now customer disputes promises item dispute_open) as H0.
  { cbn. rewrite <- length_zero_iff_nil. lia. }
  pose proof (creditCovers_spec customer item) as H1.
  assert (isAfter Date_parse (pa_dueDate item) now = true <-> rule_holds now customer disputes promises item not_yet_due) as H2 by apply Z.ltb_lt.
  assert (match commitment promises with Some d => isAfter Date_parse d now | None => false end = true <->
    rule_holds now customer disputes promises item promise_pending_future) as H3.
  { cbn. destruct (commitment promises) as [d|]; [|naive_solver]. unfold isAfter, time_of. rewrite Z.ltb_lt. naive_solver. }
  assert (bool_decide (is_Some (List.find (fun p => bool_decide (pf_status p = "broken")) promises)) ||
    match commitment promises with Some d => negb (isAfter Date_parse d now) | None => false end = true <->
    rule_holds now customer disputes promises item promise_failed) as H4.
  { cbn. rewrite orb_true_iff, bool_decide_eq_true, find_Some_ex. setoid_rewrite bool_decide_eq_true.
    destruct (commitment promises) as [d|]; [|naive_solver]. unfold isAfter, time_of. rewrite negb_true_iff, Z.ltb_ge. naive_solver. }
  change (exists c credit, customer = Some c /\ cf_creditBalanceMinor c = Some credit /\ cf_creditCurrency c = Some (pa_currency item) /\
    pa_balanceMinor item <= credit) with (rule_holds now customer disputes promises item credit_covers_balance) in H1.
  repeat match goal with |- context [if ?c then _ else _] => destruct c eqn:? end; (split; [done|split; [naive_solver|]]);
    intros [] Hlt; cbn [rule_index] in Hlt; try lia; clear Hlt; rewrite <- ?H0, <- ?H1, <- ?H2, <- ?H3, <- ?H4; cbn [rule_holds]; try done; congruence.
Qed.

(** ** The recommendations *)

(** The facts about the subject of a ranked receivable. *)
Definition item_customer q (item : ReceivablePriorityAnswer) : option CustomerFact :=
  List.find (fun c => bool_decide (cf_customerId c = pa_customerId item)) (pq_customers q).
Definition item_disputes q (item : ReceivablePriorityAnswer) : list DisputeFact := open_disputes_on (pq_disputes q) (pa_subject item).
Definition item_promises q (item : ReceivablePriorityAnswer) : list PromiseFact := promises_on (pq_promises q) (pa_subject item).

Definition surfaced (bar : Z) (item : ReceivablePriorityAnswer) : bool := negb (pa_score item <? bar) || isDisputed item.

(** The ranking shows as disputed exactly the receivables with an open dispute. *)
Lemma ranking_items q now bands item : item ∈ ranking Date_parse q now bands ->
  pa_subject item ∈ af_receivableId <$> pq_receivables q /\ (isDisputed item = true <-> item_disputes q item <> []).
Proof.
  intros [i Hi]%list_elem_of_lookup. unfold ranking in Hi. rewrite list_lookup_imap in Hi.
  destruct (sort_by _ _ !! i) as [x|] eqn:E; [|done]. injection Hi as <-. apply list_elem_of_lookup_2 in E. rewrite sort_by_perm in E.
  apply list_elem_of_fmap in E as (r & -> & Hr). split; [cbn; by apply (list_elem_of_fmap_2 af_receivableId), ranked_supplied|].
  unfold isDisputed, item_disputes. cbn [answerFrom pa_components pa_subject fst]. unfold components, componentsFrom.
  destruct (sizePointsOf _ _), (flagPointsOf _). cbn [cp_status]. rewrite bool_decide_eq_true, <- length_pos_iff. unfold statusOf.
  case_decide; [done|]. split; [|done]. by repeat case_match.
Qed.

Lemma collectionRecommendations_Ok query clock answers : collectionRecommendations Date_parse query clock = Ok answers <->
  let q := rq_priorities query in
  exists bar bands, assertThreshold (rq_highPriorityMinScore query) = Ok bar /\ priorities_valid Date_parse q /\
    assertSizeBands (pq_sizeBands q) = Ok bands /\
    answers = (fun item => recommend Date_parse (clock 0%nat) (item_customer q item) (item_disputes q item) (item_promises q item) item) <$>
      List.filter (surfaced bar) (ranking Date_parse q (clock 0%nat) bands).
Proof.
  cbn zeta. unfold collectionRecommendations. rewrite bind_Ok. setoid_rewrite bind_Ok. setoid_rewrite validatePrioritiesQuery_Ok.
  assert (forall bar bands, priorities_valid Date_parse (rq_priorities query) ->
    let c := context_of (rq_priorities query) (clock 0%nat) bands in
    (fun item => recommend Date_parse (px_now c) (mapGet (px_customersByCustomerId c) (pa_customerId item))
         (default [] (mapGet (px_openDisputesByReceivableId c) (pa_subject item)))
         (default [] (mapGet (px_promisesByReceivableId c) (pa_subject item))) item) <$>
      List.filter (fun item => negb (pa_score item <? bar) || isDisputed item) (rankReceivables Date_parse c) =
    (fun item => recommend Date_parse (clock 0%nat) (item_customer (rq_priorities query) item) (item_disputes (rq_priorities query) item)
       (item_promises (rq_priorities query) item) item) <$> List.filter (surfaced bar) (ranking Date_parse (rq_priorities query) (clock 0%nat) bands)) as He.
  { intros bar bands Hq c. unfold c. rewrite (rankReceivables_exact Date_parse) by apply Hq. fold (surfaced bar). apply list_fmap_ext.
    intros i item Hi%list_elem_of_lookup_2%elem_of_filter_bool. destruct Hi as [Hi _]. apply ranking_items in Hi as [Hs _].
    unfold context_of, item_customer, item_disputes, item_promises.
    cbn [px_now px_customersByCustomerId px_openDisputesByReceivableId px_promisesByReceivableId].
    by rewrite scoped_disputes_get, scoped_promises_get, mapGet_keyed. }
  split.
  - intros (bar & Hbar & c & (Hq & bands & Hb & ->) & [= <-]). exists bar, bands. split_and!; try done. by apply He.
  - intros (bar & bands & Hbar & Hq & Hb & ->). exists bar. split; [done|]. eexists. split; [split; [done|by exists bands]|]. f_equal. by apply He.
Qed.

(** C26: What is recommended, for what.  A receivable of the ranking is advised on exactly when
    its score reaches the bar or a dispute about it is open, in the order of the ranking; the
    rule is the first of the documented matrix that applies, the advice is that rule's.  So a
    contested debt always surfaces, and always goes to a human. *)
Theorem recommendations_follow_the_matrix query clock answers : collectionRecommendations Date_parse query clock = Ok answers ->
  let q := rq_priorities query in
  exists bar ranked, assertThreshold (rq_highPriorityMinScore query) = Ok bar /\ receivablePriorities Date_parse q clock = Ok ranked /\
    ra_subject <$> answers = pa_subject <$> List.filter (fun item => bool_decide (bar <= pa_score item \/ item_disputes q item <> [])) ranked /\
    Forall (fun a => exists item, item ∈ ranked /\ ra_subject a = pa_subject item /\ ra_priorityRank a = pa_rank item /\
      ra_recommended a = capability_of (ra_rule a) /\
      rule_holds (clock 0%nat) (item_customer q item) (item_disputes q item) (item_promises q item) item (ra_rule a) /\
      (forall earlier, (rule_index earlier < rule_index (ra_rule a))%nat ->
        ~ rule_holds (clock 0%nat) (item_customer q item) (item_disputes q item) (item_promises q item) item earlier) /\
      (item_disputes q item <> [] -> ra_recommended a = human_review)) answers.
Proof.
  intros (bar & bands & Hbar & Hq & Hb & ->)%collectionRecommendations_Ok q. fold q in Hq, Hb.
  exists bar, (ranking Date_parse q (clock 0%nat) bands). split; [done|]. split; [apply receivablePriorities_Ok; split; [done|by exists bands]|]. fold q.
  assert (List.filter (surfaced bar) (ranking Date_parse q (clock 0%nat) bands) =
    List.filter (fun item => bool_decide (bar <= pa_score item \/ item_disputes q item <> [])) (ranking Date_parse q (clock 0%nat) bands)) as Hf.
  { apply filter_ext_in. intros item Hi%list_elem_of_In%ranking_items. apply eq_true_iff_eq. unfold surfaced.
    rewrite bool_decide_eq_true, orb_true_iff, negb_true_iff, Z.ltb_ge. destruct Hi as [_ ->]. done. }
  split.
  - rewrite Hf, <- list_fmap_compose. apply list_fmap_ext. intros i item _. cbn. unfold recommend. by destruct (matrix _ _ _ _ _ _) as [[? ?] ?].
  - apply Forall_fmap, Forall_forall. intros item [Hi _]%elem_of_filter_bool. exists item. split; [done|]. cbn. unfold recommend.
    pose proof (matrix_first_match (clock 0%nat) (item_customer q item) (item_disputes q item) (item_promises q item) item) as H.
    destruct (matrix _ _ _ _ _ _) as [[capability rule] evidence]. destruct H as (-> & Hr & He). cbn. split_and!; try done.
    intros Hd. destruct (decide (rule = dispute_open)) as [->|Hn]; [done|]. exfalso. apply (He dispute_open); [|done]. destruct rule; try done; cbn; lia.
Qed.

End theorems.

(** ** An example *)

Definition sample_recommendations : RecommendationsQuery := MkRecommendationsQuery (sample_priorities sample_ranked) (Some (num 11)).

Lemma recommendations_follow_the_matrix_witness : exists answers,
  collectionRecommendations Date_parse_iso sample_recommendations sample_now = Ok answers /\
  (exists bar, assertThreshold (rq_highPriorityMinScore sample_recommendations) = Ok bar) /\
  (fun a => (ra_subject a, ra_rule a, ra_recommended a)) <$> answers =
    [(sample_agent_id "12", dispute_open, human_review); (sample_agent_id "11", promise_pending_future, do_nothing_yet)].
Proof.
  eexists. split; [vm_compute; reflexivity|]. split; [|vm_compute; reflexivity].
  destruct (recommendations_follow_the_matrix Date_parse_iso sample_recommendations sample_now _ ltac:(vm_compute; reflexivity)) as (bar & _ & Hbar & _).
  by exists bar.
Defined.

(** A pending promise without a date is shown as promised, yet the customer is sent a link. *)
Definition sample_undated : PrioritiesQuery :=
  MkPrioritiesQuery (sample_agent_id "01") [sample_debt_fact "11" "KES" 900 100 "2025-08-01T00:00:00Z"] []
    [MkPromiseFact (sample_agent_id "01") (sample_agent_id "31") (sample_agent_id "11") "pending" None None None] [] None.

Lemma undated_promise_is_not_waited_for : exists ranked answers,
  receivablePriorities Date_parse_iso sample_undated sample_now = Ok ranked /\
  collectionRecommendations Date_parse_iso (MkRecommendationsQuery sample_undated (Some (num 0))) sample_now = Ok answers /\
  (fun a => cp_status (pa_components a)) <$> ranked = [st_promised] /\
  (fun a => (ra_rule a, ra_recommended a)) <$> answers = [(default_self_serve, send_payment_link)].
Proof. eexists _, _. split; [vm_compute; reflexivity|]. split; [vm_compute; reflexivity|]. split; vm_compute; reflexivity. Qed.
